(* ===== verification/_CoqProject ===== *)
-Q . S2P
Prelude.v
Float64.v
Prog.v
Table.v
Schema.v
Messaging.v
MessagingFacts.v
MessagingSpec.v
MessagingQueries.v
MessagingQueriesSpec.v
GoalTasks.v
GoalTasksFacts.v
GoalTasksSpec.v
Goals.v
GoalsSpec.v
Trust.v
TrustSpec.v
Reactions.v
ReactionsSpec.v
Agents.v
AgentsSpec.v
Reactor.v
ReactorSpec.v
ReactorRuns.v
ReactorHistory.v
Memory.v
Dream.v
MemoryTools.v
MemorySpec.v
MemoryHistory.v
MemoryEffects.v
MemoryRuns.v
Retention.v
RetentionSpec.v
RetentionHistory.v
RetentionRuns.v
Channels.v
Auction.v
AuctionSpec.v
ChannelsSpec.v
ChannelsHistory.v
Attachments.v
AttachmentsSpec.v
Embeddings.v
EmbeddingsSpec.v
Search.v
SearchSpec.v
Webhooks.v
WebhooksSpec.v
Auth.v
AuthHandlers.v
AuthSpec.v
AuthEffects.v
ApiKeys.v
ApiKeysSpec.v
Gateway.v
GatewaySpec.v
Injection.v
InjectionSpec.v
Plugins.v
PluginLifecycle.v
PluginsSpec.v
PluginLifecycleSpec.v
Secrets.v
SecretsSpec.v
Wiki.v
WikiSpec.v
Kubernetes.v
KubernetesSpec.v
Marketplace.v
MarketplaceSpec.v
Web.v
WebSpec.v
KubernetesApi.v
AgentQuery.v
Actions.v
Bridge.v
BridgeSpec.v
GoalTools.v
AdminSocket.v
