(* ===== verification/Prelude.v ===== *)
(** * SynapBus: the verification library

    SynapBus is one Go binary that lets agents exchange messages, share
    channels, auction tasks, react to each other's posts, work through the task
    tree of a goal, remember and search what was said, and be started when a
    message arrives.  Its services (the packages under [src/internal]) keep
    almost no state of their own: what they know is in one SQLite database, and
    an operation is a sequence of SQL statements with Go code between them.
    This library models those services, statement by statement, and proves what
    each operation does and what no interleaving of operations can break.

    ** The model

    - [Prelude] (this file): outcomes of Go calls ([Ok], [Err], [Panic]), 64-bit
      integers with wrap-around, paging, conditional updates of rows, strings in
      byte order, the tactic [guards] and the hint database.
    - [Float64]: Go's [float64] as IEEE binary64 ([spec_float]), and SQLite's
      scalar [MIN] and [MAX] on it.
    - [Prog]: the language of the model.  A call is a [prog]: [Stmt] is one SQL
      statement (or one transaction, when the code opens one), atomic, with a
      continuation for the driver's error; [Peek] reads the clock.  [run]
      executes a call under a schedule of failing statements, [run_ok] the run
      in which none fails.  [wp] is the weakest precondition over every
      schedule of failures; [rg] is rely-guarantee: the same, with other calls
      running between any two statements; [pool_step] interleaves the
      statements of any number of calls, and [pool_invariant] turns [rg] proofs
      into theorems about its runs.  [let?] is "if err != nil return err",
      [let!] is a call whose error the code handles or drops.
    - [Table]: tables with AUTOINCREMENT ids, their INSERT, UPDATE, DELETE and
      lookups.  [Engine] is the order in which SQLite visits the rows when the
      query does not fix it; only that every row is visited once is assumed.
    - [Schema]: the rows of the tables of the messaging core, the database
      [db], the errors.  A component whose tables nothing else touches has a
      state of its own in its file: [engine] (webhooks, with the queue of its
      workers and the log of requests sent), [auth_db], [keys_db], [plugin_db],
      [secrets_db] (with the key file), [wiki_db], [k8s_db] (with the cluster).
      [Gateway.focus] runs a call of one component inside a larger state:
      [world] joins [db], [keys_db] and [auth_db]; [kube_world] joins [db] and
      [k8s_db]; [market_db] joins [db], [wiki_db] and the ledger of reputation;
      [goal_world] and [admin_world] those the goal tools and the socket serve.
    - A step of a worker in memory (under a mutex, on a channel) is a [Stmt]
      too; its failure continuation is a run in which only that step is lost.
      A goroutine that a call starts is part of its answer and is run as a call
      of its own.

    One group of files per package, the operations first, their theorems next:

    - [Messaging], [MessagingQueries] (internal/messaging: types.go, options.go,
      store.go, service.go, stalemate.go, the mark-read loops of
      internal/api/notifications_handler.go): sending, the inbox and its read
      pointers, the work queue (claim, done, failed), replies, direct-message
      threads, unread counts, search, enrichment, failing timed-out claims.
      A store method is a definition of its name ([store_X] where the service
      has a method of the same name); a [WHERE] clause is a boolean predicate
      on rows.  [MessagingFacts] has the invariant [messaging_ok], the order
      [later] in which messages may change, and [messaging_history] about
      concurrent calls; [MessagingSpec] what each call does, whatever
      statement fails ([send_message_effect], [claim_messages_effect],
      [mark_done_effect], [mark_failed_effect], [read_inbox_marks],
      [read_inbox_peek]); [MessagingQueriesSpec] the access rule of the search
      and the sanitizer of its query.
    - [GoalTasks] (internal/goaltasks): a goal's task tree, created in one
      transaction, claimed optimistically, moved along the state machine,
      charged with spend that rolls up to the ancestors.  [GoalTasksFacts] has
      the tree invariant [tree_ok] and [create_tree_effect]; [GoalTasksSpec]
      concurrent calls ([goal_task_history], [claim_exclusive]), transitions,
      and the recursive roll-up ([rollup_exact], [add_spend_rolls_up]).
    - [Goals] (internal/goals): slugs, creation, status machine, completion,
      the budget verdict; [GoalsSpec] its theorems.
    - [Trust] (internal/trust: delegation.go, config_hash.go, model.go, the
      scores of store.go and service.go): the cap on what a child agent is
      granted, the identity of a configuration, the scores; [TrustSpec].
    - [Reactions] (internal/reactions and the adapters of cmd/synapbus/main.go):
      reactions as a workflow state, the toggle with its exclusive claim, and
      the trust adjustment of a human verdict; [ReactionsSpec].
    - [Channels] (internal/channels: types.go, validate.go, store.go,
      service.go; internal/messaging/mentions.go; cmd/synapbus/goals_adapter.go):
      creation, membership, invitations, deletion, settings, broadcast with
      @mentions.  [ChannelsSpec] has the calls one at a time,
      [ChannelsHistory] what concurrent ones cannot break.
    - [Auction] (internal/channels: task_types.go, task_store.go,
      swarm_service.go): tasks, bids, acceptance, completion, expiry;
      [AuctionSpec].

    - [Agents] (internal/agents: types.go, store.go, service.go): the registry,
      keys, ownership, deregistration; [AgentsSpec] has [agents_history].
    - [Reactor] (internal/reactor, internal/harness/registry.go): which message
      starts a run of which agent, the rows of its runs, completion, the
      coalesced follow-up, retries, the poller.  [ReactorSpec] ([reactor_limits]:
      one run at a time and the daily budget, of the runs on record, and what is
      started without a record), [ReactorRuns]
      ([trigger_exact], [run_completes]), [ReactorHistory] (concurrency).
    - [Memory], [Dream], [MemoryTools] (internal/messaging: memory_*.go,
      consolidation_jobs.go, dispatch_tokens.go, dream_usage.go,
      consolidator*.go, auto_links.go; internal/mcp/memory_tools.go): the tables
      of an owner's memory, the worker that dispatches jobs on it, and the tools
      an agent calls with the token of its job.  [MemorySpec], [MemoryHistory]
      ([memory_history]), [MemoryEffects] ([tool_authorized],
      [run_job_completes], [try_dispatch_exact]).
    - [Retention] (internal/messaging: retention.go, deadletter_store.go):
      warnings, cleanups, purges, dead letters.  [RetentionSpec]
      ([delete_expired_effect]), [RetentionHistory] ([retention_history]: the
      references the schema declares keep their targets).
    - [Attachments] (internal/attachments): files under their digests, upload,
      download, collection.  [AttachmentsSpec] ([attachments_history],
      [upload_download]).
    - [Embeddings], [Search] (internal/search: store.go, pipeline.go,
      service.go): the queue of messages to embed and its worker; full-text,
      semantic and hybrid search.  [EmbeddingsSpec], [SearchSpec]
      ([search_visible], [rrf_exact]).
    - [Webhooks] (internal/webhooks): endpoints, deliveries, workers, retries,
      the check of addresses when dialling.  [WebhooksSpec] ([webhook_history]).
    - [Auth], [AuthHandlers] (internal/auth, internal/auth/idp, the user
      commands of internal/admin/socket.go): accounts, sessions, OAuth clients,
      codes and tokens as fosite calls its store, login with its limiter,
      external identities.  [AuthSpec] ([auth_history]), [AuthEffects]
      ([login_session], [login_limited], [refresh_replay], [sign_in_exact]).
    - [ApiKeys] (internal/apikeys, internal/api/apikeys_handler.go) and
      [Gateway] (internal/agents/middleware.go): managed keys, and who a request
      to the tools acts as.  [ApiKeysSpec] ([key_lifecycle]), [GatewaySpec]
      ([gateway_sound]: nobody acts as an agent without a credential for it).
    - [Injection] (internal/search/injection.go, internal/mcp/injection_wrap.go,
      internal/messaging/memory_config.go): the memories attached to the answer
      of a tool.  [InjectionSpec] ([injection_safe], [apply_budget_bounds]).
    - [Plugins], [PluginLifecycle] (internal/plugin): migrations, configuration,
      the registry, the boot and shutdown of plugins, the event bus.  The
      registry belongs to one goroutine and is a value threaded with a trace of
      the calls to plugins.  [PluginsSpec] ([migrations_resume]),
      [PluginLifecycleSpec] ([boot_order], [set_enabled_roundtrip]).
    - [Secrets] (internal/secrets): sealed values by scope, the environment of
      a process.  [SecretsSpec] ([set_get], [env_map_exact], [secrets_history]).
    - [Wiki] (internal/wiki): articles, revisions, the link graph.  The regular
      expressions are data, with the language they denote.  [WikiSpec]
      ([extract_links_exact], [wiki_history], [map_exact]).
    - [Kubernetes] (internal/k8s): the handlers of agents, the jobs a message
      starts, the record of them.  [KubernetesSpec] ([job_name_valid],
      [k8s_history], [k8s_dispatch_exact]).
    - [Marketplace] (internal/marketplace): auctions with typed tasks and bids,
      skill cards, the ledger of outcomes.  [MarketplaceSpec] ([mark_done_exact],
      [task_meta_kept]: what an auction is posted with is what completion reads).
    - [AgentQuery] (internal/agentquery): the check and the rewriting of an
      agent's SQL ([query_scope]).

    Above the services stand the ways in:

    - [Web], [KubernetesApi] (internal/api): the HTTP handlers, one Module for
      each Go struct.  [WebSpec] has [web_isolation] (requests of some users
      leave the agents of the others alone; retrying a run, which asks for no
      caller, apart) and [messages_shown]; [KubernetesApi]
      has [k8s_shown].
    - [Actions] (internal/actions): the catalogue of the actions agents are told
      of, as data, the registry ([registry_exact]) and the search in it
      ([search_ranked]).
    - [Bridge] (internal/mcp: bridge.go, marketplace.go, tools_hybrid.go): the
      actions as an agent's script calls them, and the tools called directly.
      [BridgeSpec] has [bridge_isolation] (what agents call leaves the others
      alone), [required_refused] (catalogue and bridge agree on the names and
      the required parameters), [levenshtein_least] and [suggest_exact] (the
      correction of a wrong name).
    - [GoalTools] (internal/mcp/goals_tools.go): the tools around goals, tasks
      and secrets; [goal_tools_isolation] (the goals of others are left alone but
      for what proposing tasks does), [resources_shown].
    - [AdminSocket] (internal/admin): the commands of the command line to the
      running server; [admin_scope] (what a command may change),
      [admin_refusals].

    The components meet where the code's do: channels and reactions call
    [SendMessage] of messaging; the auction reads channels and memberships; a
    reaction adjusts [Trust]'s scores through [TrustWiring]; creating a goal
    creates its channel through [ChannelCreator]; messaging links attachments
    through [AttachmentLinker], which [Attachments] implements; search and
    injection read the messages and memories they are about; a deregistered
    agent's messages go to [DeadLetters]; the reactor starts harnesses and
    reports through [JobRunner], [Harnesses] and [Notifiers]; the gateway reads
    agents, keys and tokens.  Such an interface is a class whose laws say what
    the caller relies on; its users are proved against the class.

    ** The theorems

    - [*_history]: for any number of concurrent calls, with any interleaving
      of their statements, any statement failing at any point and time passing
      in between, the invariant of the tables holds in every reachable state,
      rows change only in the allowed direction, and an answer already given
      stays true.  [auction_history] is the exception: the consistency of a
      task with its bids is promised only to calls that run one at a time, fully
      only while no statement of an accept fails, and [accept_race] and
      [accept_half_done] show why; [bids_history] is what concurrency leaves.
    - [*_effect] and [*_exact]: the result and the new database of one
      operation on every branch, errors and failing statements included, or
      (when the statement says [run_ok]) of an undisturbed run.
    - [join_channel_exact], [accept_bid_exact], [rollup_exact],
      [list_by_state_exact], [expire_tasks_exact], [enrich_agrees]: refinement
      of a sequence of statements, a recursive query, a loop or a second
      implementation to its specification.
    - [web_isolation], [bridge_isolation], [goal_tools_isolation],
      [messages_shown], [k8s_shown], [admin_scope], [gateway_sound],
      [tool_authorized], [search_visible], [injection_safe]: who may do and see
      what, at the boundary of the program.
    - [*Runs] modules: concrete databases, a witness of each theorem with
      hypotheses, and concrete interleavings or failures that show where the
      code promises less than its comments say (a message handed to two
      workers, two accepted bids, a used-up invitation).

    ** Conventions and bounds

    - A timestamp is a number of seconds of one clock; SQLite's text format of
      timestamps and its comparison as text are not modelled.
    - Row ids are unbounded; the arithmetic of the Go code wraps where a
      theorem depends on it ([wrap64]).
    - An error that wraps another with a message is identified with the error
      it wraps; log lines, traces and metrics are dropped.
    - NULL and the empty string are distinct where the code writes both.  CHECK
      and UNIQUE constraints are modelled where an operation can meet them, as
      are the foreign keys to channels that channels and auctions rely on; their
      violation is the error [EDb].  Every other foreign key is among the causes
      for which a statement may fail.
    - Loops over lists are structural.  The expiry loop has fuel, and
      [expire_tasks_exact] proves that one round more than a 500th of the tasks
      is enough; the slug loop has the 98 rounds of the code; the recursive
      query has one round per task and one more, which [rollup_exact] proves
      enough for every table the operations can produce.
    - A statement has at most 32766 variables; a longer list of ids is an error
      where the code builds such a list.
    - Code outside the repository is a parameter: [Engine] (row order), [FTS]
      and [ArticleFTS] (full-text indexes), [PluginSQL] (the SQL of plugins),
      [GoJson], [GoNumber], [GoDuration], [GoURL], [GoUnicode], [FoldEqual]
      (numbers, durations, URLs and runes beyond ASCII in Go's library),
      [GoMapOrder] (the order of a map), [LastInsert], [ErrorText], [GoHash],
      [GoSha256], [GoHmac] (digests), [Credentials], [Secrets], [KeyMaterial],
      [SecretBox] (random bytes, bcrypt, secretbox), [OAuthProvider] (fosite),
      [Providers] (identity providers), [AgentLister], [ContentSniffer],
      [EmbeddingProvider], [VectorIndex], [Network], [RateLimiter],
      [DreamHarness], [JobRunner], [Harnesses], [Notifiers], [HostFactory],
      [Kube], [JobSuffix] (processes, services, the cluster), [TraceStore],
      [HarnessRuns] (traces and a harness's own record of a run), [SqlRunner]
      (an agent's SELECT), [MarketText], [BridgeText], [TreeText], [RawText],
      [GoUpper] (the text of JSON, times and base64), [MathLog], [SortSlice] (the
      logarithm, the unstable sort), [IndexRebuild] (emptying the HNSW graph).  Their laws are documented behaviour: most say
      that the database stays as it is.

    ** Not modelled

    The protocol libraries under HTTP and MCP, and the wiring of handlers to
    routes and tools; the A2A transport; the command line; of the commands of
    the administration socket those about the audit log, backups, the vacuum, the
    retention worker's status and the list of conversations; processes and
    containers, the HNSW index and the embedding services, the opening of the
    database, metrics, tracing and the console, whose work is in third-party
    libraries or the operating system; web push.  In the modelled packages: the
    evidence ledger of trust, whose decay is computed with [math.Pow]; the
    notification of listeners after a message is stored; the tickers of the
    background workers, whose sweeps are modelled; the tools that run scripts in
    the JavaScript engine, which reach the services only through [Bridge]. *)
From stdpp Require Export base gmap sets list strings sorting option numbers relations.
From Stdlib Require Export ZArith Lia.
#[export] Set Default Goal Selector "!".
Open Scope Z_scope.

(** ** Outcomes of Go calls

    A Go function of type [(T, error)] is modelled by [outcome T]; a run-time
    panic (a write to a nil map, say) is a third outcome, which no caller of
    the modelled code recovers from. *)
Inductive outcome (E A : Type) : Type :=
| Ok (a : A)
| Err (e : E)
| Panic (why : string).
Arguments Ok {E A} a.
Arguments Err {E A} e.
Arguments Panic {E A} why.

Definition is_ok {E A} (o : outcome E A) : bool :=
  match o with Ok _ => true | _ => false end.

Definition outcome_map {E A B} (f : A -> B) (o : outcome E A) : outcome E B :=
  match o with Ok a => Ok (f a) | Err e => Err e | Panic w => Panic w end.

(** ** Machine integers

    Go's [int] and [int64] are 64-bit two's complement on every platform
    the project builds for. *)
Definition int64_min : Z := - 2 ^ 63.
Definition int64_max : Z := 2 ^ 63 - 1.
Definition in_int64 (z : Z) : Prop := int64_min <= z <= int64_max.
Definition wrap64 (z : Z) : Z := (z + 2 ^ 63) mod 2 ^ 64 - 2 ^ 63.

Lemma wrap64_id z : in_int64 z -> wrap64 z = z.
Proof.
  unfold in_int64, int64_min, int64_max, wrap64. intros H.
  rewrite Z.mod_small; lia.
Qed.

Lemma wrap64_range z : in_int64 (wrap64 z).
Proof.
  unfold in_int64, int64_min, int64_max, wrap64.
  pose proof (Z.mod_pos_bound (z + 2 ^ 63) (2 ^ 64) ltac:(lia)). lia.
Qed.

(** ** Paging

    [if limit <= 0 { limit = d }] and [if offset < 0 { offset = 0 }], the two
    idioms in front of every paginated query. *)
Definition default_limit (d limit : Z) : Z := if limit <=? 0 then d else limit.
Definition default_offset (offset : Z) : Z := if offset <? 0 then 0 else offset.

Lemma default_limit_pos d limit : 0 < d -> 0 < default_limit d limit.
Proof. unfold default_limit. destruct (Z.leb_spec limit 0); lia. Qed.

(** [LIMIT l OFFSET o] over an ordered result set. *)
Definition page {A} (l o : Z) (xs : list A) : list A :=
  take (Z.to_nat l) (drop (Z.to_nat o) xs).

Lemma page_sublist {A} l o (xs : list A) : page l o xs `sublist_of` xs.
Proof.
  unfold page. etrans; [apply sublist_take|apply sublist_drop].
Qed.

Lemma elem_of_page {A} l o (xs : list A) x : x ∈ page l o xs -> x ∈ xs.
Proof. intros H. eapply elem_of_sublist; [exact H | apply page_sublist]. Qed.

Lemma page_length {A} l o (xs : list A) : (length (page l o xs) <= Z.to_nat l)%nat.
Proof. unfold page. rewrite length_take. lia. Qed.

Lemma page_all {A} l (xs : list A) :
  Z.of_nat (length xs) <= l -> page l 0 xs = xs.
Proof. intros H. unfold page. rewrite drop_0. apply take_ge. lia. Qed.

(** ** Conditional update of the rows that match a predicate *)
Definition map_if {A} (p : A -> bool) (f : A -> A) (xs : list A) : list A :=
  (fun x => if p x then f x else x) <$> xs.

Definition count_if {A} (p : A -> bool) (xs : list A) : Z :=
  Z.of_nat (length (filter (fun x => p x = true) xs)).

Lemma elem_of_map_if {A} (p : A -> bool) f xs (y : A) :
  y ∈ map_if p f xs <-> exists x, x ∈ xs /\ y = (if p x then f x else x).
Proof. unfold map_if. rewrite list_elem_of_fmap. naive_solver. Qed.

Lemma count_if_0 {A} (p : A -> bool) (xs : list A) :
  count_if p xs = 0 <-> forall x, x ∈ xs -> p x = false.
Proof.
  unfold count_if. induction xs as [|x xs IH]; simpl.
  - split; [intros _ x Hx; set_solver | done].
  - rewrite filter_cons. destruct (p x) eqn:E.
    + rewrite decide_True by done. simpl. split; [lia|].
      intros H. specialize (H x ltac:(set_solver)). congruence.
    + rewrite decide_False by congruence. rewrite IH. set_solver.
Qed.

Lemma count_if_nonneg {A} (p : A -> bool) (xs : list A) : 0 <= count_if p xs.
Proof. unfold count_if. lia. Qed.

Lemma count_if_cons {A} (p : A -> bool) x l : count_if p (x :: l) = (if p x then 1 else 0) + count_if p l.
Proof. unfold count_if. rewrite filter_cons. destruct (p x); simpl; lia. Qed.

Lemma count_if_ext {A} (p q : A -> bool) l : (forall x, x ∈ l -> p x = q x) -> count_if p l = count_if q l.
Proof.
  induction l as [|x l IH]; [done|]. intros H. rewrite !count_if_cons, (H x), IH; [done| |by left]. intros y Hy. apply H. by right.
Qed.


Lemma map_if_none {A} (p : A -> bool) f (xs : list A) :
  count_if p xs = 0 -> map_if p f xs = xs.
Proof.
  rewrite count_if_0. unfold map_if. intros H.
  rewrite <- (list_fmap_id xs) at 2. apply list_fmap_ext.
  intros i x Hx. rewrite H; [done|]. eapply list_elem_of_lookup_2; done.
Qed.
Lemma fmap_map_if {X B} (g : X -> B) p f (l : list X) : (forall x, g (f x) = g x) -> g <$> map_if p f l = g <$> l.
Proof. intros H. unfold map_if. rewrite <- list_fmap_compose. apply list_fmap_ext. intros i x _. simpl. by destruct (p x). Qed.

Lemma filter_all {A} (P : A -> Prop) `{!forall x, Decision (P x)} (l : list A) : (forall x, x ∈ l -> P x) -> filter P l = l.
Proof. induction l as [|x l IH]; intros Hall; [done|]. rewrite filter_cons, decide_True by (apply Hall; by left). f_equal. apply IH. intros y Hy. apply Hall. by right. Qed.
Lemma filter_none {A} (P : A -> Prop) `{!forall x, Decision (P x)} (l : list A) : (forall x, x ∈ l -> ~ P x) -> filter P l = [].
Proof. induction l as [|x l IH]; intros Hall; [done|]. rewrite filter_cons, decide_False by (apply Hall; by left). apply IH. intros y Hy. apply Hall. by right. Qed.

Lemma filter_fmap_iff {A B} (f : A -> B) (P : B -> Prop) (Q : A -> Prop) `{!forall y, Decision (P y)} `{!forall x, Decision (Q x)} (l : list A) :
  (forall x, x ∈ l -> P (f x) <-> Q x) -> filter P (f <$> l) = f <$> filter Q l.
Proof.
  induction l as [|x l IH]; intros Hiff; [done|]. rewrite fmap_cons, !filter_cons, IH by (intros y Hy; apply Hiff; by right).
  assert (P (f x) <-> Q x) as Hx by (apply Hiff; by left). destruct (decide (P (f x))), (decide (Q x)); try tauto.
Qed.

Lemma fmap_sublist {A B} (f : A -> B) (xs ys : list A) :
  xs `sublist_of` ys -> (f <$> xs) `sublist_of` (f <$> ys).
Proof. induction 1; simpl; by constructor. Qed.

Lemma existsb_none {A} (f : A -> bool) (l : list A) : existsb f l = false <-> forall x, x ∈ l -> f x = false.
Proof.
  induction l as [|x l IH]; simpl; [split; [by intros _ x Hx%elem_of_nil|done]|].
  rewrite orb_false_iff, IH. setoid_rewrite elem_of_cons. naive_solver.
Qed.

Lemma existsb_some {A} (f : A -> bool) (l : list A) : existsb f l = true <-> exists x, x ∈ l /\ f x = true.
Proof.
  rewrite existsb_exists. setoid_rewrite list_elem_of_In. done.
Qed.

(** ** Strings in byte order *)
Definition str_le (a b : string) : Prop := String.leb a b = true.
#[export] Instance str_le_dec a b : Decision (str_le a b).
Proof. unfold str_le. apply _. Defined.

#[export] Instance str_le_total : Total str_le.
Proof.
  intros a b. unfold str_le, String.leb. rewrite (String.compare_antisym a b).
  destruct (String.compare b a); simpl; auto.
Qed.

#[export] Instance str_le_antisym : AntiSymm (=) str_le.
Proof.
  intros a b. unfold str_le, String.leb. rewrite (String.compare_antisym a b).
  destruct (String.compare b a) eqn:E; simpl; try done.
  intros _ _. symmetry. by apply String.compare_eq_iff in E.
Qed.

Lemma ascii_compare_nat a b :
  Ascii.compare a b = Nat.compare (Ascii.nat_of_ascii a) (Ascii.nat_of_ascii b).
Proof. unfold Ascii.compare, Ascii.nat_of_ascii. by rewrite N2Nat.inj_compare. Qed.

#[export] Instance str_le_trans : Transitive str_le.
Proof.
  intros a b c. unfold str_le, String.leb. revert b c.
  induction a as [|x a IH]; intros [|y b] [|z c]; simpl; try done.
  rewrite !ascii_compare_nat.
  destruct (Nat.compare_spec (Ascii.nat_of_ascii x) (Ascii.nat_of_ascii y)),
    (Nat.compare_spec (Ascii.nat_of_ascii y) (Ascii.nat_of_ascii z)),
    (Nat.compare_spec (Ascii.nat_of_ascii x) (Ascii.nat_of_ascii z)); try done; try lia; eauto.
Qed.

(** [sort.Strings]. *)
Definition sort_strings (l : list string) : list string := merge_sort str_le l.

Lemma sort_strings_perm l : Permutation (sort_strings l) l.
Proof. apply merge_sort_Permutation. Qed.

(** The order of the input does not matter: the order is total and
    antisymmetric. *)
Lemma sort_strings_unique l l' : Permutation l l' -> sort_strings l = sort_strings l'.
Proof.
  intros H. apply (StronglySorted_unique str_le).
  - apply (StronglySorted_merge_sort str_le).
  - apply (StronglySorted_merge_sort str_le).
  - by rewrite !sort_strings_perm.
Qed.

(** ** Automation *)
Create HintDb synapbus discriminated.

(** Split a boolean guard of the code into the cases it decides. *)
Ltac split_guard :=
  match goal with
  | |- context [if ?b then _ else _] => let E := fresh "Hg" in destruct b eqn:E
  end.

(** Turn the boolean guards of the hypotheses into propositions. *)
Ltac guards :=
  repeat match goal with
  | H : (_ && _) = true |- _ => apply andb_true_iff in H; destruct H
  | H : (_ || _) = false |- _ => apply orb_false_iff in H; destruct H
  | H : negb _ = true |- _ => apply negb_true_iff in H
  | H : negb _ = false |- _ => apply negb_false_iff in H
  | H : bool_decide _ = true |- _ => apply bool_decide_eq_true in H
  | H : bool_decide _ = false |- _ => apply bool_decide_eq_false in H
  | H : String.eqb _ _ = true |- _ => apply String.eqb_eq in H
  | H : String.eqb _ _ = false |- _ => apply String.eqb_neq in H
  | H : (_ =? _) = true |- _ => apply Z.eqb_eq in H
  | H : (_ =? _) = false |- _ => apply Z.eqb_neq in H
  | H : (_ <=? _) = true |- _ => apply Z.leb_le in H
  | H : (_ <=? _) = false |- _ => apply Z.leb_gt in H
  | H : (_ <? _) = true |- _ => apply Z.ltb_lt in H
  | H : (_ <? _) = false |- _ => apply Z.ltb_ge in H
  end.
