(* ===== verification/Float64.v ===== *)
(** * float64

    Go's [float64] as the Standard Library's [spec_float] at precision 53: the
    conversions and operations the services use, SQLite's scalar [MIN] and
    [MAX] on them, and the lemmas that bound clamped values. *)
From S2P Require Import Prelude.
From Stdlib Require Export SpecFloat.

(** [float64(n)], rounded to nearest even. *)
Definition f64_of_Z (n : Z) : spec_float := binary_normalize 53 1024 n 0 false.
Definition f64_add (x y : spec_float) : spec_float := SFadd 53 1024 x y.
Definition f64_mul (x y : spec_float) : spec_float := SFmul 53 1024 x y.
Definition f64_div (x y : spec_float) : spec_float := SFdiv 53 1024 x y.
Definition f64_neg (x : spec_float) : spec_float := SFopp x.
Definition f64_lt (x y : spec_float) : bool := SFltb x y.
Definition f64_le (x y : spec_float) : bool := SFleb x y.
Definition f64_ge (x y : spec_float) : bool := SFleb y x.

(** The literal [n/d]: the division is correctly rounded, so it is the literal's
    value whenever [n] and [d] are exact. *)
Definition f64_lit (n d : Z) : spec_float := f64_div (f64_of_Z n) (f64_of_Z d).

Definition f64_zero : spec_float := S754_zero false.
Definition f64_one : spec_float := Eval vm_compute in f64_of_Z 1.

Definition f64_is_nan (x : spec_float) : bool := match x with S754_nan => true | _ => false end.

(** SQLite's MIN(a, b) and MAX(a, b): on a tie MIN takes the second argument and
    MAX the first; a NaN is NULL, and NULL is the answer. *)
Definition sql_min (a b : spec_float) : spec_float :=
  if f64_is_nan a || f64_is_nan b then S754_nan else if f64_lt a b then a else b.
Definition sql_max (a b : spec_float) : spec_float :=
  if f64_is_nan a || f64_is_nan b then S754_nan else if f64_lt a b then b else a.

(** MAX(0.0, MIN(1.0, x)). *)
Definition sql_clamp (x : spec_float) : spec_float := sql_max f64_zero (sql_min f64_one x).

(** In [0, 1]. *)
Definition in_unit (x : spec_float) : Prop := f64_le f64_zero x = true /\ f64_le x f64_one = true.

Lemma f64_lt_le x y : f64_lt x y = true -> f64_le x y = true.
Proof. unfold f64_lt, f64_le, SFltb, SFleb. by destruct (SFcompare x y) as [[]|]. Qed.

Lemma pos_compare_opp p q : Pos.compare_cont Eq q p = CompOpp (Pos.compare_cont Eq p q).
Proof. exact (Pos.compare_antisym p q). Qed.

Lemma f64_not_lt_le x y : f64_is_nan x = false -> f64_is_nan y = false ->
  f64_lt x y = false -> f64_le y x = true.
Proof.
  unfold f64_lt, f64_le, SFltb, SFleb. intros Hx Hy.
  destruct x as [sx|sx| |sx mx ex], y as [sy|sy| |sy my ey]; try discriminate; simpl;
    try (repeat match goal with b : bool |- _ => destruct b end; done).
  rewrite (Z.compare_antisym ex ey), (pos_compare_opp mx my).
  destruct sx, sy, (Z.compare ex ey), (Pos.compare_cont Eq mx my); done.
Qed.

Lemma f64_le_not_lt x y : f64_le x y = true -> f64_lt y x = false.
Proof.
  unfold f64_lt, f64_le, SFltb, SFleb.
  destruct x as [sx|sx| |sx mx ex], y as [sy|sy| |sy my ey]; simpl;
    try (repeat match goal with b : bool |- _ => destruct b end; done).
  rewrite (Z.compare_antisym ex ey), (pos_compare_opp mx my).
  destruct sx, sy, (Z.compare ex ey), (Pos.compare_cont Eq mx my); done.
Qed.

Lemma sql_clamp_unit x : f64_is_nan x = false -> in_unit (sql_clamp x).
Proof.
  intros Hx. unfold sql_clamp, sql_max, sql_min. rewrite Hx. simpl.
  destruct (f64_lt f64_one x) eqn:E1.
  - split; reflexivity.
  - rewrite Hx. simpl. destruct (f64_lt f64_zero x) eqn:E2.
    + split; [by apply f64_lt_le|by apply f64_not_lt_le].
    + split; reflexivity.
Qed.

Lemma sql_clamp_id x : in_unit x -> f64_lt f64_zero x = true -> sql_clamp x = x.
Proof.
  intros [H0 H1] Hpos. assert (f64_is_nan x = false) as Hx by (by destruct x).
  pose proof (f64_le_not_lt _ _ H1) as E.
  unfold sql_clamp, sql_min. rewrite Hx, E. simpl. unfold sql_max. by rewrite Hx, Hpos.
Qed.
