(* ===== verification/Prog.v ===== *)
(** * Programs over a database

    The services are sequences of SQL statements.  A statement is atomic
    (SQLite runs it to completion or leaves the database untouched), may fail
    (busy database, cancelled context, a constraint the model does not track),
    and between two statements of one call other calls may run.  [prog] keeps
    exactly this structure; [run] executes a program under a schedule of
    failures, [wp] reasons about all schedules at once, and [pool_step]
    interleaves the statements of concurrent programs. *)
From S2P Require Import Prelude.

Section Prog.
Context {D : Type}.

Inductive prog (A : Type) : Type :=
| Ret (a : A)
| Peek (k : D -> prog A)
| Stmt (upd : D -> D) (k : D -> prog A) (fail : prog A).

Fixpoint bind {A B} (p : prog A) (f : A -> prog B) : prog B :=
  match p with
  | Ret _ a => f a
  | Peek _ k => Peek _ (fun d => bind (k d) f)
  | Stmt _ u k e => Stmt _ u (fun d => bind (k d) f) (bind e f)
  end.

(** One run, under a schedule that says which statements fail. *)
Fixpoint run {A} (p : prog A) (faults : list bool) (d : D) : A * D :=
  match p with
  | Ret _ a => (a, d)
  | Peek _ k => run (k d) faults d
  | Stmt _ u k e =>
      match faults with
      | true :: fs => run e fs d
      | false :: fs => run (k d) fs (u d)
      | [] => run (k d) [] (u d)
      end
  end.

(** The run in which every statement succeeds. *)
Definition run_ok {A} (p : prog A) (d : D) : A * D := run p [] d.

(** Weakest precondition: the postcondition holds whatever fails. *)
Fixpoint wp {A} (p : prog A) (Q : A -> D -> Prop) (d : D) : Prop :=
  match p with
  | Ret _ a => Q a d
  | Peek _ k => wp (k d) Q d
  | Stmt _ u k e => wp (k d) Q (u d) /\ wp e Q d
  end.

(** Rely-guarantee: started in [d0] and interrupted before each statement
    by others whose steps stay within [R], every statement keeps [I] and
    stays within [R], and the value returned satisfies [Q] in every state
    that follows. *)
Fixpoint rg {A} (I : D -> Prop) (R : D -> D -> Prop) (p : prog A)
    (Q : A -> D -> Prop) (d0 : D) : Prop :=
  match p with
  | Ret _ a => forall d, R d0 d -> I d -> Q a d
  | Peek _ k => forall d, R d0 d -> I d -> rg I R (k d) Q d
  | Stmt _ u k e => forall d, R d0 d -> I d ->
      I (u d) /\ R d (u d) /\ rg I R (k d) Q (u d) /\ rg I R e Q d
  end.

(** Every statement of the program, in whatever state it runs, stays within
    [G]: how one component describes what it leaves alone to another. *)
Fixpoint within {A} (G : D -> D -> Prop) (p : prog A) : Prop :=
  match p with
  | Ret _ _ => True
  | Peek _ k => forall d, within G (k d)
  | Stmt _ u k e => (forall d, G d (u d) /\ within G (k d)) /\ within G e
  end.

Lemma run_no_fault {A} (p : prog A) fs d : true ∉ fs -> run p fs d = run_ok p d.
Proof.
  unfold run_ok. revert fs d. induction p as [a|k IH|u k IH e IHe]; intros fs d Hf; cbn; [done|by apply IH|].
  destruct fs as [|[] fs]; [done|set_solver|]. apply IH. set_solver.
Qed.

Lemma run_ok_bind {A B} (p : prog A) (f : A -> prog B) d :
  run_ok (bind p f) d = let '(a, d') := run_ok p d in run_ok (f a) d'.
Proof. revert d. unfold run_ok. induction p as [a|k IH|u k IH e IHe]; intros d; simpl; auto. Qed.

Lemma wp_bind {A B} (p : prog A) (f : A -> prog B) Q d :
  wp (bind p f) Q d <-> wp p (fun a d' => wp (f a) Q d') d.
Proof.
  revert d. induction p as [a|k IH|u k IH e IHe]; intros d; simpl.
  - done.
  - apply IH.
  - rewrite IH, IHe. done.
Qed.

Lemma wp_mono {A} (p : prog A) (Q Q' : A -> D -> Prop) d :
  (forall a d', Q a d' -> Q' a d') -> wp p Q d -> wp p Q' d.
Proof.
  intros HQ. revert d. induction p as [a|k IH|u k IH e IHe]; intros d; simpl; auto.
  intros [H1 H2]. split; auto.
Qed.

Lemma wp_and {A} (p : prog A) (Q Q' : A -> D -> Prop) d :
  wp p Q d -> wp p Q' d -> wp p (fun a d' => Q a d' /\ Q' a d') d.
Proof.
  revert d. induction p as [a|k IH|u k IH e IHe]; intros d; simpl; auto.
  intros [H1 H2] [H3 H4]. split; auto.
Qed.

Lemma wp_run {A} (p : prog A) (Q : A -> D -> Prop) d fs :
  wp p Q d -> Q (run p fs d).1 (run p fs d).2.
Proof.
  revert d fs. induction p as [a|k IH|u k IH e IHe]; intros d fs; simpl; auto.
  intros [H1 H2]. destruct fs as [|[] fs]; auto.
Qed.

Lemma wp_of_runs {A} (p : prog A) (Q : A -> D -> Prop) d :
  (forall fs, Q (run p fs d).1 (run p fs d).2) -> wp p Q d.
Proof.
  revert d. induction p as [a|k IH|u k IH e IHe]; intros d H; simpl.
  - apply (H []).
  - apply IH. exact H.
  - split.
    + apply IH. intros fs. apply (H (false :: fs)).
    + apply IHe. intros fs. apply (H (true :: fs)).
Qed.

Lemma within_wp {A} G `{!PreOrder G} (p : prog A) d :
  within G p -> wp p (fun _ d' => G d d') d.
Proof.
  revert d. induction p as [a|k IH|u k IH e IHe]; intros d; simpl.
  - intros _. reflexivity.
  - intros H. by apply IH.
  - intros [H1 H2]. destruct (H1 d) as [Hu Hk]. split; [|auto].
    eapply wp_mono; [|by apply IH]. simpl. intros _ d' Hd'. by etrans.
Qed.

Lemma wp_run_ok {A} (p : prog A) (Q : A -> D -> Prop) d :
  wp p Q d -> Q (run_ok p d).1 (run_ok p d).2.
Proof. apply wp_run. Qed.

Section RelyGuarantee.
Context (I : D -> Prop) (R : D -> D -> Prop) `{!PreOrder R}.

Lemma rg_later {A} (p : prog A) Q d0 d1 : R d0 d1 -> rg I R p Q d0 -> rg I R p Q d1.
Proof. intros H01. destruct p; simpl; intros H d Hd; apply H; by etrans. Qed.

Lemma rg_mono {A} (p : prog A) (Q Q' : A -> D -> Prop) d0 :
  (forall a d, I d -> Q a d -> Q' a d) -> rg I R p Q d0 -> rg I R p Q' d0.
Proof.
  intros HQ. revert d0. induction p as [a|k IH|u k IH e IHe]; intros d0; simpl.
  - auto.
  - intros H d Hd HI. eauto.
  - intros H d Hd HI. destruct (H d Hd HI) as (?&?&?&?). split_and!; auto.
Qed.

Lemma rg_bind {A B} (p : prog A) (f : A -> prog B) Q d0 :
  I d0 -> rg I R p (fun a d => rg I R (f a) Q d) d0 -> rg I R (bind p f) Q d0.
Proof.
  revert d0. induction p as [a|k IH|u k IH e IHe]; intros d0 HI0; simpl.
  - intros H. by apply H.
  - intros H d Hd HI. auto.
  - intros H d Hd HI. destruct (H d Hd HI) as (?&?&?&?). split_and!; auto.
Qed.

Lemma within_rg {A} G (p : prog A) d0 :
  (forall d d', I d -> G d d' -> I d' /\ R d d') ->
  within G p -> rg I R p (fun _ _ => True) d0.
Proof.
  intros HG. revert d0. induction p as [a|k IH|u k IH e IHe]; intros d0; simpl; auto.
  intros [H1 H2] d _ HI. destruct (H1 d) as [Hu Hk].
  destruct (HG d (u d) HI Hu). split_and!; auto.
Qed.

(** A fact that no step within [R] undoes is still true at the end. *)
Lemma rg_stable {A} (p : prog A) (P : D -> Prop) Q d0 :
  (forall d d', R d d' -> P d -> P d') -> P d0 -> rg I R p Q d0 ->
  rg I R p (fun a d => Q a d /\ P d) d0.
Proof.
  intros HP. revert d0. induction p as [a|k IH|u k IH e IHe]; intros d0 HP0; simpl.
  - intros H d Hd HI. eauto.
  - intros H d Hd HI. eauto.
  - intros H d Hd HI. destruct (H d Hd HI) as (?&?&?&?). split_and!; eauto.
Qed.

(** Without interruptions: a run under any failure schedule. *)
Lemma rg_wp {A} (p : prog A) Q d :
  I d -> rg I R p Q d -> wp p (fun a d' => I d' /\ R d d' /\ Q a d') d.
Proof.
  revert d. induction p as [a|k IH|u k IH e IHe]; intros d HI H; simpl in *.
  - split_and!; [done|reflexivity|by apply H].
  - apply IH; [done|]. by apply H.
  - destruct (H d ltac:(reflexivity) HI) as (?&?&?&?). split; [|auto].
    eapply wp_mono; [|by apply IH]. simpl. intros b d' (?&?&?).
    split_and!; [done|by etrans|done].
Qed.
End RelyGuarantee.

(** ** Concurrent calls *)
Inductive prog_step {A} : prog A * D -> prog A * D -> Prop :=
| step_peek k d : prog_step (Peek _ k, d) (k d, d)
| step_stmt u k e d : prog_step (Stmt _ u k e, d) (k d, u d)
| step_fail u k e d : prog_step (Stmt _ u k e, d) (e, d).

(** A pool of running calls; [env] is what the rest of the world may do to
    the database between two statements (the clock ticking, for one). *)
Inductive pool_step {A} (env : D -> D -> Prop) : list (prog A) * D -> list (prog A) * D -> Prop :=
| pool_call ps d i p p' d' :
    ps !! i = Some p -> prog_step (p, d) (p', d') ->
    pool_step env (ps, d) (<[i := p']> ps, d')
| pool_env ps d d' : env d d' -> pool_step env (ps, d) (ps, d').

Section Pool.
Context (I : D -> Prop) (R : D -> D -> Prop) `{!PreOrder R} {A : Type}.
Context (env : D -> D -> Prop) (env_ok : forall d d', I d -> env d d' -> I d' /\ R d d').

Lemma rg_step (p p' : prog A) Q d d' :
  rg I R p Q d -> I d -> prog_step (p, d) (p', d') -> rg I R p' Q d' /\ I d' /\ R d d'.
Proof.
  intros Hp Hd Hs. inversion Hs; subst; simpl in Hp.
  - split_and!; [by apply Hp|done|reflexivity].
  - destruct (Hp d) as (?&?&?&?); [reflexivity|done|]. done.
  - destruct (Hp d') as (?&?&?&?); [reflexivity|done|]. split_and!; [done|done|reflexivity].
Qed.

(** Rule induction over all interleavings and failures: if every call of the
    pool, relying on the others, keeps [I] and stays within [R], then so does
    every reachable state, and the calls that returned satisfy their
    postconditions there. *)
Theorem pool_invariant (ps ps' : list (prog A)) (Q : nat -> A -> D -> Prop) d d' :
  (forall i p, ps !! i = Some p -> rg I R p (Q i) d) -> I d ->
  rtc (pool_step env) (ps, d) (ps', d') ->
  I d' /\ R d d' /\ (forall i a, ps' !! i = Some (Ret _ a) -> Q i a d').
Proof.
  intros Hps Hd Hr.
  remember (ps, d) as s eqn:Es. remember (ps', d') as s' eqn:Es'.
  revert ps d ps' d' Es Es' Hps Hd.
  induction Hr as [s|s1 s2 s3 H12 H23 IH]; intros ps d ps' d' -> E Hps Hd.
  - inversion E; subst. split_and!; [done|reflexivity|].
    intros i a Hi. apply (Hps i (Ret _ a)); [done|reflexivity|done].
  - inversion H12 as [ps1 d1 i p p' d2 Hi Hs|ps1 d1 d2 He]; subst.
    + destruct (rg_step p p' (Q i) d d2) as (Hp'&Hd2&HR); auto.
      destruct (IH _ _ _ _ eq_refl eq_refl) as (?&?&?); auto.
      { intros j q. rewrite list_lookup_insert_Some. intros [(<-&<-&_)|[_ Hj]]; [done|].
        eapply rg_later; [done|exact HR|]. by apply Hps. }
      split_and!; auto. by etrans.
    + destruct (env_ok _ _ Hd He) as [Hd2 HR].
      destruct (IH _ _ _ _ eq_refl eq_refl) as (?&?&?); auto.
      { intros j q Hj. eapply rg_later; [done|exact HR|]. by apply Hps. }
      split_and!; auto. by etrans.
Qed.
End Pool.

(** An executable scheduler: each entry names the call that moves and says
    whether its statement fails. *)
Definition step_prog {A} (p : prog A) (fault : bool) (d : D) : prog A * D :=
  match p with
  | Ret _ a => (Ret _ a, d)
  | Peek _ k => (k d, d)
  | Stmt _ u k e => if fault then (e, d) else (k d, u d)
  end.

Fixpoint run_schedule {A} (sched : list (nat * bool)) (ps : list (prog A)) (d : D)
  : list (prog A) * D :=
  match sched with
  | [] => (ps, d)
  | (i, fault) :: rest =>
      match ps !! i with
      | Some p => let '(p', d') := step_prog p fault d in run_schedule rest (<[i := p']> ps) d'
      | None => run_schedule rest ps d
      end
  end.

Lemma run_schedule_reachable {A} env sched (ps : list (prog A)) d :
  rtc (pool_step env) (ps, d) (run_schedule sched ps d).
Proof.
  revert ps d. induction sched as [|[i f] sched IH]; intros ps d; simpl; [reflexivity|].
  destruct (ps !! i) as [p|] eqn:Hi; [|apply IH].
  destruct p as [a|k|u k e]; simpl.
  - rewrite list_insert_id by done. apply IH.
  - eapply rtc_l; [|apply IH]. eapply pool_call; [done|constructor].
  - destruct f.
    + eapply rtc_l; [|apply IH]. eapply pool_call; [done|constructor].
    + eapply rtc_l; [|apply IH]. eapply pool_call; [done|constructor].
Qed.

(** The values returned by the calls that have finished. *)
Definition returned {A} (p : prog A) : option A :=
  match p with Ret _ a => Some a | _ => None end.
End Prog.
Arguments prog D A : clear implicits.
Arguments Ret {D A} a.
Arguments Peek {D A} k.
Arguments Stmt {D A} upd k fail.

(** ** Statements and error propagation *)
Section Statements.
Context {D E : Type} (db_error : E).

(** One SQL statement that always has an answer; its failure is the driver's
    error. *)
Definition exec {B} (upd : D -> D) (ans : D -> B) : prog D (outcome E B) :=
  Stmt upd (fun d => Ret (Ok (ans d))) (Ret (Err db_error)).

(** A statement whose answer may itself be an error of the code's own
    (no rows, no row affected, a unique constraint it recognises). *)
Definition exec_o {B} (upd : D -> D) (ans : D -> outcome E B) : prog D (outcome E B) :=
  Stmt upd (fun d => Ret (ans d)) (Ret (Err db_error)).

Definition query {B} (ans : D -> B) : prog D (outcome E B) := exec (fun d => d) ans.
Definition query_o {B} (ans : D -> outcome E B) : prog D (outcome E B) :=
  exec_o (fun d => d) ans.
End Statements.

Definition bind_ok {D E A B} (p : prog D (outcome E A)) (f : A -> prog D (outcome E B))
  : prog D (outcome E B) :=
  bind p (fun o => match o with
                   | Ok a => f a
                   | Err e => Ret (Err e)
                   | Panic w => Ret (Panic w)
                   end).

(** [let? x := p in q]: run [p], return its error if it has one (Go's
    [if err != nil { return err }]); [let! x := p in q] keeps the outcome. *)
Declare Scope prog_scope.
Delimit Scope prog_scope with prog.
Notation "'let?' x := p 'in' q" := (bind_ok p (fun x => q))
  (at level 10, x name, p at level 200, q at level 200) : prog_scope.
Notation "'let?' ' x := p 'in' q" := (bind_ok p (fun x => q))
  (at level 10, x strict pattern, p at level 200, q at level 200) : prog_scope.
Notation "'let!' x := p 'in' q" := (bind p (fun x => q))
  (at level 10, x name, p at level 200, q at level 200) : prog_scope.
Open Scope prog_scope.

(** Run [f] on every element; errors are handled by [f] itself. *)
Fixpoint for_each {D A} (xs : list A) (f : A -> prog D unit) : prog D unit :=
  match xs with
  | [] => Ret tt
  | x :: rest => bind (f x) (fun _ => for_each rest f)
  end.

Lemma within_for_each {D A} G (xs : list A) (f : A -> prog D unit) :
  (forall x, within G (f x)) -> within G (for_each xs f).
Proof.
  intros Hf. induction xs as [|x xs IH]; simpl; [done|].
  generalize (Hf x). generalize (f x). intros p. induction p as [a|k IHp|u k IHp e IHe]; simpl; auto.
  intros [H1 H2]. split; [|auto]. intros d. destruct (H1 d). auto.
Qed.

Lemma within_bind {D A B} G (p : prog D A) (f : A -> prog D B) :
  within G p -> (forall a, within G (f a)) -> within G (bind p f).
Proof.
  intros Hp Hf. induction p as [a|k IH|u k IH e IHe]; simpl in *; auto.
  destruct Hp as [H1 H2]. split; [|auto]. intros d. destruct (H1 d). auto.
Qed.

Lemma within_bind_ok {D E A B} G (p : prog D (outcome E A)) (f : A -> prog D (outcome E B)) :
  within G p -> (forall a, within G (f a)) -> within G (bind_ok p f).
Proof. intros Hp Hf. apply within_bind; [done|]. intros [a|e|w]; simpl; auto. Qed.

Lemma within_mono {D A} (G G' : D -> D -> Prop) (p : prog D A) :
  (forall d d', G d d' -> G' d d') -> within G p -> within G' p.
Proof.
  intros HG. induction p as [a|k IH|u k IH e IHe]; simpl; auto.
  intros [H1 H2]. split; [|auto]. intros d. destruct (H1 d). auto.
Qed.

Lemma run_ok_bind_ok {D E A B} (p : prog D (outcome E A)) (f : A -> prog D (outcome E B)) d :
  run_ok (bind_ok p f) d =
  match run_ok p d with
  | (Ok a, d') => run_ok (f a) d'
  | (Err e, d') => (Err e, d')
  | (Panic w, d') => (Panic w, d')
  end.
Proof. unfold bind_ok. rewrite run_ok_bind. by destruct (run_ok p d) as [[a|e|w] d']. Qed.

Lemma wp_bind_ok {D E A B} (p : prog D (outcome E A)) (f : A -> prog D (outcome E B)) Q d :
  wp p (fun o d' => match o with
                    | Ok a => wp (f a) Q d'
                    | Err e => Q (Err e) d'
                    | Panic w => Q (Panic w) d'
                    end) d ->
  wp (bind_ok p f) Q d.
Proof.
  intros H. unfold bind_ok. apply wp_bind. eapply wp_mono; [|exact H].
  simpl. intros [a|e|w] d'; done.
Qed.

Lemma wp_for_each {D A} (Inv : D -> Prop) (xs : list A) (f : A -> prog D unit) d :
  (forall x d, x ∈ xs -> Inv d -> wp (f x) (fun _ d' => Inv d') d) -> Inv d -> wp (for_each xs f) (fun _ d' => Inv d') d.
Proof.
  revert d. induction xs as [|x xs IH]; intros d Hf Hd; cbn [for_each]; [done|]. apply wp_bind.
  eapply wp_mono; [|apply Hf; [by left|done]]. simpl. intros _ d' Hd'. apply IH; [|done].
  intros y d1 Hy. apply Hf. by right.
Qed.

Section RGRules.
Context {D E : Type} (I : D -> Prop) (R : D -> D -> Prop) `{!PreOrder R}.

Lemma rg_bind_ok {A B} (p : prog D (outcome E A)) (f : A -> prog D (outcome E B)) Q d0 :
  I d0 ->
  rg I R p (fun o d => match o with
                       | Ok a => rg I R (f a) Q d
                       | Err e => rg I R (Ret (Err e)) Q d
                       | Panic w => rg I R (Ret (Panic w)) Q d
                       end) d0 ->
  rg I R (bind_ok p f) Q d0.
Proof.
  intros HI H. apply rg_bind; [done|done|]. eapply rg_mono; [|exact H].
  simpl. intros [a|e|w] d _; done.
Qed.

(** A statement that writes: its effect must be within the guarantee. *)
Lemma rg_exec_o {B} (e : E) (u : D -> D) (ans : D -> outcome E B) Q d0 :
  (forall d, R d0 d -> I d ->
     I (u d) /\ R d (u d) /\
     (forall d', R (u d) d' -> I d' -> Q (ans d) d') /\
     (forall d', R d d' -> I d' -> Q (Err e) d')) ->
  rg I R (exec_o e u ans) Q d0.
Proof. simpl. auto. Qed.

Lemma rg_exec {B} (e : E) (u : D -> D) (ans : D -> B) Q d0 :
  (forall d, R d0 d -> I d ->
     I (u d) /\ R d (u d) /\
     (forall d', R (u d) d' -> I d' -> Q (Ok (ans d)) d') /\
     (forall d', R d d' -> I d' -> Q (Err e) d')) ->
  rg I R (exec e u ans) Q d0.
Proof. simpl. auto. Qed.

(** A statement that only reads: what it saw, it saw in a state [d] that the
    later ones follow. *)
Lemma rg_query_o {B} (e : E) (ans : D -> outcome E B) Q d0 :
  (forall d d', R d0 d -> I d -> R d d' -> I d' -> Q (ans d) d' /\ Q (Err e) d') ->
  rg I R (query_o e ans) Q d0.
Proof.
  simpl. intros H d Hd HI. split_and!; [done|reflexivity| |].
  - intros d' Hd' HI'. by apply (H d d').
  - intros d' Hd' HI'. by apply (H d d').
Qed.

Lemma rg_query {B} (e : E) (ans : D -> B) Q d0 :
  (forall d d', R d0 d -> I d -> R d d' -> I d' -> Q (Ok (ans d)) d' /\ Q (Err e) d') ->
  rg I R (query e ans) Q d0.
Proof.
  simpl. intros H d Hd HI. split_and!; [done|reflexivity| |].
  - intros d' Hd' HI'. by apply (H d d').
  - intros d' Hd' HI'. by apply (H d d').
Qed.

Lemma rg_for_each {A} (xs : list A) (f : A -> prog D unit) Q d0 :
  I d0 ->
  (forall x d, x ∈ xs -> R d0 d -> I d -> rg I R (f x) (fun _ _ => True) d) ->
  (forall d, R d0 d -> I d -> Q tt d) ->
  rg I R (for_each xs f) Q d0.
Proof.
  revert d0. induction xs as [|x xs IH]; intros d0 HI Hf HQ; simpl; [done|].
  apply rg_bind; [done|done|].
  assert (rg I R (f x) (fun _ d => R d0 d) d0) as Hx.
  { assert (rg I R (f x) (fun _ _ => True) d0) as H by (apply Hf; [set_solver|reflexivity|done]).
    clear -H PreOrder0. revert H. generalize (f x). intros p.
    assert (forall d1, R d0 d1 -> rg I R p (fun _ _ => True) d1 -> rg I R p (fun _ d => R d0 d) d1) as G.
    { induction p as [a|k IHp|u k IHp e IHe]; intros d1 H1; simpl.
      - intros _ d Hd _. by etrans.
      - intros H d Hd HI. apply IHp; [by etrans|auto].
      - intros H d Hd HI. destruct (H d Hd HI) as (?&?&?&?). split_and!; auto.
        + apply IHp; [|done]. etrans; [exact H1|]. by etrans.
        + apply IHe; [by etrans|done]. }
    apply G. reflexivity. }
  eapply rg_mono; [|exact Hx]. simpl. intros _ d Hd HR. apply IH; [done| |].
  - intros y d' Hy Hd' HI'. apply Hf; [set_solver|by etrans|done].
  - intros d' Hd' HI'. apply HQ; [by etrans|done].
Qed.

Lemma rg_ret {A} (a : A) Q d0 :
  (forall d, R d0 d -> I d -> Q a d) -> rg I R (Ret a) Q d0.
Proof. done. Qed.
End RGRules.

(** Statements and the guarantee they stay within. *)
Section WithinRules.
Context {D E : Type} (G : D -> D -> Prop).

Lemma within_exec_o {B} (e : E) (u : D -> D) (ans : D -> outcome E B) :
  (forall d, G d (u d)) -> within G (exec_o e u ans).
Proof. intros H. simpl. auto. Qed.

Lemma within_exec {B} (e : E) (u : D -> D) (ans : D -> B) :
  (forall d, G d (u d)) -> within G (exec e u ans).
Proof. intros H. simpl. auto. Qed.

Lemma within_query_o {B} `{!Reflexive G} (e : E) (ans : D -> outcome E B) : within G (query_o e ans).
Proof. by apply within_exec_o. Qed.

Lemma within_query {B} `{!Reflexive G} (e : E) (ans : D -> B) : within G (query e ans).
Proof. by apply within_exec. Qed.
End WithinRules.

(** ** Programs between two frames *)
Lemma within_and {D A} (G G' : D -> D -> Prop) (p : prog D A) : within G p -> within G' p -> within (fun d d' => G d d' /\ G' d d') p.
Proof.
  induction p as [a|k IH|u k IH e IHe]; cbn [within]; [done|intros H H' d; by apply IH|].
  intros [H1 H2] [H1' H2']. split; [|by apply IHe]. intros d. destruct (H1 d), (H1' d). split; [by split|by apply IH].
Qed.
(** What a program promises in a weaker setting it also promises in a stronger
    one it is safe in. *)
Lemma rg_inherit {D A} (I I' : D -> Prop) (R R' : D -> D -> Prop) (p : prog D A) Q Q' d0 :
  (forall d, I' d -> I d) -> (forall d d', R' d d' -> R d d') -> rg I R p Q d0 -> rg I' R' p Q' d0 -> rg I' R' p (fun a d => Q a d /\ Q' a d) d0.
Proof.
  intros HI HR. revert d0. induction p as [a|k IH|u k IH e IHe]; intros d0; cbn [rg].
  - intros H H' d Hd Hi. split; [apply H|apply H']; auto.
  - intros H H' d Hd Hi. apply IH; [apply H|apply H']; auto.
  - intros H H' d Hd Hi. destruct (H d) as (_&_&H1&H2); [by apply HR|by apply HI|]. destruct (H' d Hd Hi) as (?&?&H3&H4). split_and!; auto.
Qed.
(** Statements that are safe in every state a fact leads to. *)
Lemma within_rg_from {D A} (I : D -> Prop) (R : D -> D -> Prop) `{!PreOrder R} G (p : prog D A) d0 :
  (forall d d', R d0 d -> I d -> G d d' -> I d' /\ R d d') -> within G p -> rg I R p (fun _ _ => True) d0.
Proof.
  intros HG. assert (forall d1, R d0 d1 -> within G p -> rg I R p (fun _ _ => True) d1) as H; [|apply H; reflexivity].
  induction p as [a|k IH|u k IH e IHe]; intros d1 H1; cbn [within rg]; [done| |].
  - intros Hw d Hd _. apply IH; [by etrans|done].
  - intros [Hw He] d Hd Hi. destruct (Hw d) as [Hu Hk]. destruct (HG d (u d)) as [Hi' Hr]; [by etrans|done..|].
    split_and!; [done|done|apply IH; [by repeat (etrans; [eassumption|])|done]|apply IHe; [by etrans|done]].
Qed.

(** Follow the structure of a program down to the statements that write. *)
Ltac within_steps :=
  repeat first
    [ done
    | progress cbv beta zeta
    | apply within_query; apply _
    | apply within_query_o; apply _
    | apply within_bind_ok; [|intros ?]
    | apply within_bind; [|intros ?]
    | match goal with
      | |- within _ (match ?x with _ => _ end) => destruct x
      | |- within _ (if ?x then _ else _) => destruct x
      end ].

(** Execute a program symbolically inside [wp]. *)
Ltac wp_step :=
  first [ progress cbn [wp bind bind_ok exec exec_o query query_o for_each]
        | split
        | match goal with
          | |- wp (match ?x with _ => _ end) _ _ => let E := fresh "Hm" in destruct x eqn:E
          | |- wp (if ?x then _ else _) _ _ => let E := fresh "Hm" in destruct x eqn:E
          end ].

(** Discharge statements that only read, when nothing is claimed of the
    answer. *)
Ltac rg_reads :=
  repeat first
    [ done
    | apply rg_bind_ok; [apply _|assumption|]
    | apply rg_bind; [apply _|assumption|]
    | apply rg_query; [apply _|]; intros ??????; split; [|done]
    | apply rg_query_o; [apply _|]; intros ??????; split; [|done] ].

(** Sequence after a call of which only the outcome's kind matters. *)
Ltac rg_next H :=
  apply rg_bind_ok; [apply _|assumption|];
  eapply rg_mono; [|apply H];
  [let d := fresh "d" in let Hd := fresh "Hd" in let Hq := fresh "Hq" in
   intros [x|?|?] d Hd Hq; [revert x d Hd Hq|done|done]
  |try assumption].
