(* ===== verification/Table.v ===== *)
(** * Tables

    A table is its rows in insertion order together with the AUTOINCREMENT
    counter; [INSERT], [UPDATE ... WHERE], [DELETE ... WHERE] and the point
    lookup are functions of it.  The order in which the engine visits the rows
    of an unordered result set is not documented by SQL: it is a parameter,
    [Engine], of which only that it visits every row once is used. *)
From S2P Require Import Prelude.

Class Engine := {
  scan : forall {A : Type}, list A -> list A;
  scan_perm : forall {A : Type} (l : list A), Permutation (scan l) l
}.

(** The engine that visits rows in rowid order; used by the examples. *)
Definition rowid_engine : Engine := {|
  scan := fun _ l => l;
  scan_perm := fun A l => Permutation_refl l
|}.

Class Row (R : Type) := row_id : R -> Z.

Record table (R : Type) := mkTable { rows : list R; next_id : Z }.
Arguments mkTable {R} rows next_id.
Arguments rows {R} t.
Arguments next_id {R} t.

Definition empty_table {R} : table R := mkTable [] 1.

Section Table.
Context {R : Type} `{!Row R}.
Implicit Types (t : table R) (r : R) (p : R -> bool).

Definition select p t : list R := filter (fun r => p r = true) (rows t).
Definition find_row p t : option R := head (select p t).
Definition by_id (id : Z) r : bool := row_id r =? id.
Definition find_id (id : Z) t : option R := find_row (by_id id) t.
Definition insert_row (mk : Z -> R) t : table R :=
  mkTable (rows t ++ [mk (next_id t)]) (next_id t + 1).
Definition update_rows p (f : R -> R) t : table R :=
  mkTable (map_if p f (rows t)) (next_id t).
Definition delete_rows p t : table R :=
  mkTable (filter (fun r => p r = false) (rows t)) (next_id t).
Definition affected p t : Z := count_if p (rows t).

(** [SELECT ... WHERE p ORDER BY le]. *)
Definition select_by `{!Engine} (le : R -> R -> Prop) `{!forall a b, Decision (le a b)} p t : list R :=
  merge_sort le (scan (select p t)).

(** Ids are unique and below the counter. *)
Definition table_ok t : Prop :=
  NoDup (row_id <$> rows t) /\ forall r, r ∈ rows t -> row_id r < next_id t.

Lemma elem_of_select p t r : r ∈ select p t <-> p r = true /\ r ∈ rows t.
Proof. unfold select. rewrite list_elem_of_filter. done. Qed.

Lemma elem_of_select_by `{!Engine} le `{!forall a b, Decision (le a b)} p t r :
  r ∈ select_by le p t <-> p r = true /\ r ∈ rows t.
Proof.
  unfold select_by. rewrite merge_sort_Permutation, scan_perm. apply elem_of_select.
Qed.

Lemma select_by_perm `{!Engine} le `{!forall a b, Decision (le a b)} p t :
  Permutation (select_by le p t) (select p t).
Proof. unfold select_by. rewrite merge_sort_Permutation, scan_perm. done. Qed.

Lemma find_row_Some p t r : find_row p t = Some r -> p r = true /\ r ∈ rows t.
Proof.
  unfold find_row. intros H. apply elem_of_select.
  destruct (select p t); simplify_eq/=. set_solver.
Qed.

Lemma find_row_None p t : find_row p t = None -> forall r, r ∈ rows t -> p r = false.
Proof.
  unfold find_row. intros H r Hr. destruct (p r) eqn:E; [|done].
  assert (r ∈ select p t) by (apply elem_of_select; auto).
  destruct (select p t); [set_solver | done].
Qed.

Lemma find_row_is_Some p t r : r ∈ rows t -> p r = true -> is_Some (find_row p t).
Proof.
  intros Hr Hp. destruct (find_row p t) eqn:E; [eauto|].
  rewrite (find_row_None _ _ E r Hr) in Hp. done.
Qed.

Lemma find_id_Some id t r : find_id id t = Some r -> row_id r = id /\ r ∈ rows t.
Proof. intros H. apply find_row_Some in H as [H ?]. split; [by apply Z.eqb_eq | done]. Qed.

Lemma NoDup_fmap_unique {A B} (f : A -> B) (l : list A) x y :
  NoDup (f <$> l) -> x ∈ l -> y ∈ l -> f x = f y -> x = y.
Proof.
  intros Hn Hx Hy Hf. apply list_elem_of_lookup in Hx as [i Hi].
  apply list_elem_of_lookup in Hy as [j Hj].
  assert (i = j) as ->; [|congruence].
  eapply (NoDup_lookup (f <$> l)); [done|by rewrite list_lookup_fmap, Hi|].
  by rewrite list_lookup_fmap, Hj, Hf.
Qed.

Lemma table_ok_unique t r r' :
  table_ok t -> r ∈ rows t -> r' ∈ rows t -> row_id r = row_id r' -> r = r'.
Proof. intros [Hn _]. by apply NoDup_fmap_unique. Qed.

Lemma find_id_intro t r : table_ok t -> r ∈ rows t -> find_id (row_id r) t = Some r.
Proof.
  intros Hok Hr. destruct (find_row_is_Some (by_id (row_id r)) t r Hr) as [r' Hr'].
  { by apply Z.eqb_refl. }
  unfold find_id. rewrite Hr'. apply find_id_Some in Hr' as [He Hr'].
  f_equal. by eapply table_ok_unique.
Qed.

Lemma table_ok_empty : table_ok empty_table.
Proof. split; [constructor|]. simpl. set_solver. Qed.

Lemma table_ok_insert mk t :
  (forall id, row_id (mk id) = id) -> table_ok t -> table_ok (insert_row mk t).
Proof.
  intros Hmk [Hn Hlt]. split; simpl.
  - rewrite fmap_app. apply NoDup_app. split_and!; [done| |apply NoDup_singleton].
    intros x Hx. simpl. rewrite Hmk, list_elem_of_singleton.
    apply list_elem_of_fmap in Hx as (r&->&Hr). specialize (Hlt r Hr). lia.
  - intros r. rewrite elem_of_app, list_elem_of_singleton.
    intros [Hr| ->]; [specialize (Hlt r Hr)|rewrite Hmk]; lia.
Qed.

Lemma map_if_ids p f (l : list R) :
  (forall r, row_id (f r) = row_id r) -> row_id <$> map_if p f l = row_id <$> l.
Proof.
  intros Hf. unfold map_if. rewrite <- list_fmap_compose.
  apply list_fmap_ext. intros i r _. simpl. by destruct (p r).
Qed.

Lemma table_ok_update p f t :
  (forall r, row_id (f r) = row_id r) -> table_ok t -> table_ok (update_rows p f t).
Proof.
  intros Hf [Hn Hlt]. split; simpl.
  - by rewrite map_if_ids.
  - intros r. rewrite elem_of_map_if. intros (r0&Hr0&->). specialize (Hlt r0 Hr0).
    by destruct (p r0); rewrite ?Hf.
Qed.

Lemma table_ok_delete p t : table_ok t -> table_ok (delete_rows p t).
Proof.
  intros [Hn Hlt]. split; simpl.
  - eapply sublist_NoDup; [exact Hn|]. apply fmap_sublist, sublist_filter.
  - intros r. rewrite list_elem_of_filter. intros [_ Hr]. auto.
Qed.

Lemma elem_of_delete_rows p t r : r ∈ rows (delete_rows p t) <-> p r = false /\ r ∈ rows t.
Proof. unfold delete_rows. simpl. by rewrite list_elem_of_filter. Qed.

Lemma delete_rows_ext p q t : (forall r, p r = q r) -> delete_rows p t = delete_rows q t.
Proof. intros H. unfold delete_rows. f_equal. apply list_filter_iff. intros r. by rewrite H. Qed.

Lemma delete_rows_none p t : (forall r, r ∈ rows t -> p r = false) -> delete_rows p t = t.
Proof.
  destruct t as [l n]. unfold delete_rows. simpl. intros H. f_equal. induction l as [|r l IH]; [done|].
  rewrite filter_cons, decide_True by (apply H; by left). f_equal. apply IH. intros x Hx. apply H. by right.
Qed.

Lemma update_rows_ext p f g t : (forall r, f r = g r) -> update_rows p f t = update_rows p g t.
Proof. intros H. unfold update_rows, map_if. f_equal. apply list_fmap_ext. intros i r _. by rewrite H. Qed.

Lemma delete_rows_delete p q t : delete_rows q (delete_rows p t) = delete_rows (fun r => p r || q r) t.
Proof.
  unfold delete_rows. simpl. f_equal. rewrite list_filter_filter. apply list_filter_iff.
  intros r. rewrite orb_false_iff. tauto.
Qed.

Lemma update_rows_update f g t :
  update_rows (fun _ => true) g (update_rows (fun _ => true) f t) = update_rows (fun _ => true) (fun r => g (f r)) t.
Proof. unfold update_rows, map_if. simpl. f_equal. by rewrite <- list_fmap_compose. Qed.

Lemma update_rows_none p f t : affected p t = 0 -> update_rows p f t = t.
Proof. intros H. unfold update_rows. rewrite map_if_none by done. by destruct t. Qed.

(** The row an [UPDATE ... WHERE id = ?] leaves behind. *)
Lemma find_id_update p f t id :
  (forall r, row_id (f r) = row_id r) ->
  find_id id (update_rows p f t) =
  (fun r => if p r then f r else r) <$> find_id id t.
Proof.
  intros Hf. unfold find_id, find_row, select, update_rows, map_if. simpl.
  induction (rows t) as [|r l IH]; [done|]. simpl. rewrite !filter_cons.
  assert (by_id id (if p r then f r else r) = by_id id r) as ->.
  { unfold by_id. by destruct (p r); rewrite ?Hf. }
  destruct (decide (by_id id r = true)); done.
Qed.

Lemma find_id_insert_fresh mk t :
  (forall id, row_id (mk id) = id) -> table_ok t ->
  find_id (next_id t) (insert_row mk t) = Some (mk (next_id t)).
Proof.
  intros Hmk Hok. rewrite <- (Hmk (next_id t)) at 1.
  apply find_id_intro; [by apply table_ok_insert|]. simpl. set_solver.
Qed.

Lemma find_id_insert_old mk t id r :
  (forall id, row_id (mk id) = id) -> table_ok t ->
  find_id id t = Some r -> find_id id (insert_row mk t) = Some r.
Proof.
  intros Hmk Hok Hf. apply find_id_Some in Hf as [<- Hr].
  apply find_id_intro; [by apply table_ok_insert|]. simpl. set_solver.
Qed.

(** RowsAffected is zero exactly when no row is found. *)
Lemma affected_find p t : (affected p t =? 0) = match find_row p t with Some _ => false | None => true end.
Proof.
  unfold affected, count_if, find_row, select. by destruct (filter _ (rows t)).
Qed.

Lemma affected_id_pos t id p :
  affected (fun r => by_id id r && p r) t = 0 \/
  exists r, r ∈ rows t /\ row_id r = id /\ p r = true.
Proof.
  unfold affected. destruct (decide (count_if (fun r => by_id id r && p r) (rows t) = 0)) as [|Hn]; [by left|].
  right. unfold count_if in Hn.
  destruct (filter (fun r => by_id id r && p r = true) (rows t)) as [|r l] eqn:E; [done|].
  exists r. assert (r ∈ filter (fun r => by_id id r && p r = true) (rows t)) as Hr by (rewrite E; set_solver).
  apply list_elem_of_filter in Hr as [Hb Hr]. unfold by_id in *. guards. done.
Qed.
End Table.

#[export] Hint Resolve table_ok_empty table_ok_insert table_ok_update table_ok_delete : synapbus.
