(* ===== verification/Schema.v ===== *)
(** * The database schema

    The row types of the tables the modelled components share, with the
    column names of [internal/storage/schema] and the field names of the Go
    structs, and the database itself.  A nullable column is an [option]; a
    timestamp is a number of seconds.  String-typed enumerations carry an
    [Other] constructor for every string the code does not name. *)
From S2P Require Import Prelude Prog Table.
From Stdlib Require Export SpecFloat.

(** ** JSON text

    The value of a JSON text as [encoding/json] sees it.  A number keeps its
    lexeme; an object keeps its members in source order, duplicates
    included. *)
#[local] Set Warnings "-register-all".
Inductive json : Type :=
| JNull
| JBool (b : bool)
| JNum (lexeme : string)
| JStr (s : string)
| JArr (l : list json)
| JObj (members : list (string * json)).

(** A [string] or [json.RawMessage] that should hold JSON: empty, the text of
    a JSON value, or something else. *)
Inductive rawjson : Type :=
| RawEmpty
| RawJson (v : json)
| RawInvalid (s : string).

(** [json.Valid]. *)
Definition json_Valid (r : rawjson) : bool :=
  match r with RawJson _ => true | _ => false end.

(** The raw message [{}] that stands in for absent metadata. *)
Definition raw_empty_object : rawjson := RawJson (JObj []).

(** ** Agents *)
Inductive TriggerMode := TriggerModePassive | TriggerModeReactive | TriggerModeDisabled
  | TriggerModeOther (s : string).
#[export] Instance TriggerMode_eq_dec : EqDecision TriggerMode.
Proof. solve_decision. Defined.

(** A member of the object [k8s_env_json]: a JSON string, or the text of any
    other value. *)
Inductive EnvValue := EnvString (s : string) | EnvRaw (text : string).

(** NULL and the empty string both read as the empty string in the columns
    [k8s_image], [harness_name], [local_command], [harness_config_json] and
    [quarantine_reason]; [K8sEnvJSON] is the object [k8s_env_json] holds, if it
    holds one. *)
Record Agent := mkAgent {
  Agent_ID : Z;
  Agent_Name : string;
  DisplayName : string;
  Agent_Type : string;
  Capabilities : rawjson;
  Agent_OwnerID : Z;
  APIKeyHash : string;
  Agent_Status : string;
  Agent_CreatedAt : Z;
  Agent_UpdatedAt : Z;
  Agent_TriggerMode : TriggerMode;
  CooldownSeconds : Z;
  DailyTriggerBudget : Z;
  MaxTriggerDepth : Z;
  K8sImage : string;
  K8sEnvJSON : option (list (string * EnvValue));
  K8sResourcePreset : string;
  PendingWork : bool;
  HarnessName : string;
  LocalCommand : string;
  HarnessConfigJSON : string;
  Agent_ConfigHash : string;
  ParentAgentID : option Z;
  Agent_SpawnDepth : Z;
  Agent_SystemPrompt : string;
  Agent_AutonomyTier : string;
  ToolScopeJSON : string;
  QuarantinedAt : option Z;
  QuarantineReason : string
}.

(** ** Messages *)
Inductive MsgStatus := StatusPending | StatusProcessing | StatusDone | StatusFailed
  | StatusOther (s : string).
#[export] Instance MsgStatus_eq_dec : EqDecision MsgStatus.
Proof. solve_decision. Defined.

Record Message := mkMessage {
  Msg_ID : Z;
  Msg_ConversationID : Z;
  FromAgent : string;
  to_agent : option string;
  Msg_ChannelID : option Z;
  ReplyTo : option Z;
  Body : string;
  Priority : Z;
  Status : MsgStatus;
  Metadata : rawjson;
  claimed_by : option string;
  ClaimedAt : option Z;
  Msg_CreatedAt : Z;
  Msg_UpdatedAt : Z
}.

Record Conversation := mkConversation {
  Conv_ID : Z;
  Subject : string;
  Conv_CreatedBy : string;
  Conv_ChannelID : option Z
}.

Record InboxState := mkInboxState {
  Inbox_ID : Z;
  Inbox_AgentName : string;
  Inbox_ConversationID : Z;
  LastReadMessageID : Z
}.

(** ** Channels, invites and auctions *)
Inductive ChannelType := TypeStandard | TypeBlackboard | TypeAuction | TypeOther (s : string).
Inductive MemberRole := RoleOwner | RoleMember | RoleOther (s : string).
Inductive InviteStatus := InviteStatusPending | InviteStatusAccepted | InviteStatusDeclined.
Inductive TaskStatus := TaskStatusOpen | TaskStatusAssigned | TaskStatusCompleted | TaskStatusCancelled.
Inductive BidStatus := BidStatusPending | BidStatusAccepted | BidStatusRejected.
#[export] Instance ChannelType_eq_dec : EqDecision ChannelType.
Proof. solve_decision. Defined.
#[export] Instance MemberRole_eq_dec : EqDecision MemberRole.
Proof. solve_decision. Defined.
#[export] Instance InviteStatus_eq_dec : EqDecision InviteStatus.
Proof. solve_decision. Defined.
#[export] Instance TaskStatus_eq_dec : EqDecision TaskStatus.
Proof. solve_decision. Defined.
#[export] Instance BidStatus_eq_dec : EqDecision BidStatus.
Proof. solve_decision. Defined.

(** The workflow settings of a channel; durations are kept as text. *)
Record ChannelSettings := mkChannelSettings {
  WorkflowEnabled : bool;
  AutoApprove : bool;
  StalemateRemindAfter : string;
  StalemateEscalateAfter : string;
  PublishThreshold : spec_float;
  ApproveThreshold : spec_float
}.

Record Channel := mkChannel {
  Ch_ID : Z;
  Ch_Name : string;
  Ch_Description : string;
  Ch_Topic : string;
  Ch_Type : ChannelType;
  IsPrivate : bool;
  IsSystem : bool;
  Ch_CreatedBy : string;
  Ch_Settings : ChannelSettings;
  Ch_CreatedAt : Z;
  Ch_UpdatedAt : Z
}.

Record Membership := mkMembership {
  Mem_ID : Z;
  Mem_ChannelID : Z;
  Mem_AgentName : string;
  Mem_Role : MemberRole;
  JoinedAt : Z
}.

Record ChannelInvite := mkChannelInvite {
  Inv_ID : Z;
  Inv_ChannelID : Z;
  Inv_AgentName : string;
  InvitedBy : string;
  Inv_CreatedAt : Z;
  Inv_Status : InviteStatus
}.

Record Task := mkTask {
  Task_ID : Z;
  Task_ChannelID : Z;
  PostedBy : string;
  Task_Title : string;
  Task_Description : string;
  Requirements : rawjson;
  Deadline : option Z;
  Task_Status : TaskStatus;
  AssignedTo : string;
  Task_CreatedAt : Z;
  Task_UpdatedAt : Z
}.

Record Bid := mkBid {
  Bid_ID : Z;
  Bid_TaskID : Z;
  Bid_AgentName : string;
  Bid_Capabilities : rawjson;
  TimeEstimate : string;
  Bid_Message : string;
  Bid_Status : BidStatus;
  Bid_CreatedAt : Z
}.

(** ** Goals and their task trees *)
Inductive GoalStatus := GoalDraft | GoalActive | GoalPaused | GoalCompleted | GoalCancelled
  | GoalStuck | GoalOther (s : string).
#[export] Instance GoalStatus_eq_dec : EqDecision GoalStatus.
Proof. solve_decision. Defined.

Record Goal := mkGoal {
  Goal_ID : Z;
  Slug : string;
  Goal_Title : string;
  Goal_Description : string;
  OwnerUserID : Z;
  Goal_ChannelID : Z;
  CoordinatorAgentID : option Z;
  RootTaskID : option Z;
  Goal_Status : GoalStatus;
  Goal_BudgetTokens : option Z;
  Goal_BudgetDollarsCents : option Z;
  MaxSpawnDepth : Z;
  Alert80PctPosted : bool;
  Goal_UpdatedAt : Z;
  Goal_CompletedAt : option Z;
  CompletionSummary : option string;
  Goal_CompletionMessageID : option Z
}.

Inductive GTStatus := GTProposed | GTApproved | GTClaimed | GTInProgress
  | GTAwaitingVerification | GTDone | GTFailed | GTCancelled | GTOther (s : string).
#[export] Instance GTStatus_eq_dec : EqDecision GTStatus.
Proof. solve_decision. Defined.

Record AncestryNode := mkAncestryNode {
  Anc_ID : Z;
  Anc_Title : string;
  Anc_AcceptanceCriteria : string
}.

Record GoalTask := mkGoalTask {
  GT_ID : Z;
  GT_GoalID : Z;
  ParentTaskID : option Z;
  Ancestry : list AncestryNode;
  GT_Depth : Z;
  GT_Title : string;
  GT_Description : string;
  GT_AcceptanceCriteria : string;
  CreatedByAgentID : option Z;
  CreatedByUserID : option Z;
  AssigneeAgentID : option Z;
  GT_Status : GTStatus;
  billing_code : option string;
  GT_BudgetTokens : option Z;
  GT_BudgetDollarsCents : option Z;
  SpentTokens : Z;
  SpentDollarsCents : Z;
  GT_HeartbeatConfig : option string;
  GT_VerifierConfig : option string;
  ClaimMessageID : option Z;
  GT_CompletionMessageID : option Z;
  failure_reason : option string;
  GT_ClaimedAt : option Z;
  GT_StartedAt : option Z;
  GT_CompletedAt : option Z
}.

(** ** Reactions and trust *)
Inductive ReactionType := ReactionApprove | ReactionReject | ReactionInProgress | ReactionDone
  | ReactionPublished | ReactionAwarded | ReactionOther (s : string).
#[export] Instance ReactionType_eq_dec : EqDecision ReactionType.
Proof. solve_decision. Defined.

Record Reaction := mkReaction {
  Rx_ID : Z;
  Rx_MessageID : Z;
  Rx_AgentName : string;
  Rx_Reaction : ReactionType;
  Rx_Metadata : rawjson;
  Rx_CreatedAt : Z
}.

Record TrustScore := mkTrustScore {
  TS_ID : Z;
  TS_AgentName : string;
  TS_ActionType : string;
  Score : spec_float;
  AdjustmentsCount : Z;
  LastAdjustedAt : option Z
}.

(** ** Reactive runs *)
Inductive RunStatus := RunQueued | RunRunning | RunSucceeded | RunFailed | RunCooldownSkipped
  | RunBudgetExhausted | RunDepthExceeded | RunOther (s : string).
#[export] Instance RunStatus_eq_dec : EqDecision RunStatus.
Proof. solve_decision. Defined.

Record ReactiveRun := mkReactiveRun {
  Run_ID : Z;
  Run_AgentName : string;
  TriggerMessageID : option Z;
  TriggerEvent : string;
  TriggerDepth : Z;
  TriggerFrom : string;
  Run_Status : RunStatus;
  K8sJobName : string;
  K8sNamespace : string;
  StartedAt : option Z;
  CompletedAt : option Z;
  ErrorLog : string;
  Run_CreatedAt : Z
}.

(** ** Dead letters *)
Record DeadLetter := mkDeadLetter {
  DL_ID : Z;
  DL_OwnerID : Z;
  OriginalMessageID : Z;
  DL_ToAgent : string;
  DL_FromAgent : string;
  DL_Body : string;
  DL_Subject : string;
  DL_Priority : Z;
  DL_Metadata : rawjson;
  Acknowledged : bool;
  DL_CreatedAt : Z
}.

(** ** Memory and its consolidation

    The owner of a memory is the decimal text of the owner's id.  A date of
    [memory_dream_usage] is a number of days. *)
Inductive ConsolidationStatus := JobStatusPending | JobStatusDispatched | JobStatusRunning | JobStatusSucceeded
  | JobStatusPartial | JobStatusFailed | JobStatusExpired | JobStatusCircuitBroken | JobStatusOther (s : string).
#[export] Instance ConsolidationStatus_eq_dec : EqDecision ConsolidationStatus.
Proof. solve_decision. Defined.

(** What a memory tool recorded in the [actions] array of its job. *)
Inductive ArgValue := ArgInt (z : Z) | ArgStr (s : string) | ArgInts (l : list Z).
Record Action := mkAction {
  act_tool : string;
  act_target : Z;
  act_args : list (string * ArgValue);
  act_at : Z
}.

Record Job := mkJob {
  Job_ID : Z;
  Job_OwnerID : string;
  JobType : string;
  Job_Status : ConsolidationStatus;
  TriggerReason : string;
  Job_DispatchToken : option string;
  HarnessRunID : option string;
  Actions : list Action;
  Job_Summary : option string;
  Job_Error : option string;
  LeaseUntil : option Z;
  Job_StartedAt : option Z;
  FinishedAt : option Z;
  Job_CreatedAt : Z;
  Slot : Z
}.

Record Link := mkLink {
  Link_ID : Z;
  SrcMessageID : Z;
  DstMessageID : Z;
  RelationType : string;
  Link_OwnerID : string;
  CreatedBy : string;
  Link_Metadata : json;
  Link_CreatedAt : Z
}.

(** Row of [memory_core], under its key (owner, agent). *)
Record CoreMemory := mkCoreMemory {
  Blob : string;
  Core_UpdatedAt : Z;
  UpdatedBy : string
}.

(** Row of [memory_pins], under its key (owner, message). *)
Record Pin := mkPin {
  PinnedBy : string;
  Note : string;
  PinnedAt : Z
}.

(** Row of [memory_dispatch_tokens], under its token. *)
Record DispatchToken := mkDispatchToken {
  Tok_OwnerID : string;
  Tok_JobID : Z;
  Tok_IssuedAt : Z;
  Tok_ExpiresAt : Z;
  Tok_UsedAt : option Z;
  RevokedAt : option Z
}.

(** Row of [memory_dream_usage], under its key (day, owner). *)
Record DreamUsage := mkDreamUsage {
  TokensIn : Z;
  TokensOut : Z;
  JobsStarted : Z;
  JobsSucceeded : Z;
  JobsFailed : Z;
  JobsCircuitBroken : Z
}.

Record InjectionRecord := mkInjectionRecord {
  Inj_ID : Z;
  Inj_OwnerID : string;
  Inj_AgentName : string;
  ToolName : string;
  PacketSizeChars : Z;
  PacketItemsCount : Z;
  MessageIDs : list Z;
  CoreBlobIncluded : bool;
  Inj_CreatedAt : Z
}.

(** ** Attachments and embeddings

    The files under [attachments/] are in [cas_files], by their digest. *)
Record Attachment := mkAttachment {
  Att_ID : Z;
  Hash : string;
  OriginalFilename : string;
  Size : Z;
  MIMEType : string;
  Att_MessageID : option Z;
  UploadedBy : string;
  Att_CreatedAt : Z
}.

(** Row of [embeddings], under its message. *)
Record EmbeddingRecord := mkEmbeddingRecord {
  Provider : string;
  Emb_Model : string;
  Dimensions : Z;
  EmbeddedAt : Z
}.

Inductive QueueStatus := QueuePending | QueueProcessing | QueueCompleted | QueueFailed.
#[export] Instance QueueStatus_eq_dec : EqDecision QueueStatus.
Proof. solve_decision. Defined.

Record QueueItem := mkQueueItem {
  Q_ID : Z;
  Q_MessageID : Z;
  Q_Status : QueueStatus;
  Q_Attempts : Z;
  Q_LastError : option string;
  Q_CreatedAt : Z;
  Q_CompletedAt : option Z
}.

#[export] Instance Agent_row : Row Agent := Agent_ID.
#[export] Instance Conversation_row : Row Conversation := Conv_ID.
#[export] Instance Message_row : Row Message := Msg_ID.
#[export] Instance InboxState_row : Row InboxState := Inbox_ID.
#[export] Instance Channel_row : Row Channel := Ch_ID.
#[export] Instance Membership_row : Row Membership := Mem_ID.
#[export] Instance ChannelInvite_row : Row ChannelInvite := Inv_ID.
#[export] Instance Task_row : Row Task := Task_ID.
#[export] Instance Bid_row : Row Bid := Bid_ID.
#[export] Instance Goal_row : Row Goal := Goal_ID.
#[export] Instance GoalTask_row : Row GoalTask := GT_ID.
#[export] Instance Reaction_row : Row Reaction := Rx_ID.
#[export] Instance TrustScore_row : Row TrustScore := TS_ID.
#[export] Instance ReactiveRun_row : Row ReactiveRun := Run_ID.
#[export] Instance DeadLetter_row : Row DeadLetter := DL_ID.
#[export] Instance Job_row : Row Job := Job_ID.
#[export] Instance Link_row : Row Link := Link_ID.
#[export] Instance InjectionRecord_row : Row InjectionRecord := Inj_ID.
#[export] Instance Attachment_row : Row Attachment := Att_ID.
#[export] Instance QueueItem_row : Row QueueItem := Q_ID.

(** ** The database

    One SQLite file: every table, and the clock that [CURRENT_TIMESTAMP] and
    [time.Now()] read (seconds, UTC). *)
Record db := mkDb {
  clock : Z;
  agents : table Agent;
  conversations : table Conversation;
  messages : table Message;
  inbox_state : table InboxState;
  channels : table Channel;
  channel_members : table Membership;
  channel_invites : table ChannelInvite;
  tasks : table Task;
  task_bids : table Bid;
  goals : table Goal;
  goal_tasks : table GoalTask;
  message_reactions : table Reaction;
  agent_trust : table TrustScore;
  reactive_runs : table ReactiveRun;
  dead_letters : table DeadLetter;
  memory_jobs : table Job;
  memory_links : table Link;
  memory_core : gmap (string * string) CoreMemory;
  memory_pins : gmap (string * Z) Pin;
  dispatch_tokens : gmap string DispatchToken;
  dream_usage : gmap (Z * string) DreamUsage;
  memory_injections : table InjectionRecord;
  attachments : table Attachment;
  cas_files : gmap string string;
  embeddings : gmap Z EmbeddingRecord;
  embedding_queue : table QueueItem
}.

Definition empty_db : db :=
  mkDb 0 empty_table empty_table empty_table empty_table empty_table empty_table empty_table empty_table empty_table empty_table empty_table empty_table empty_table empty_table empty_table empty_table empty_table ∅ ∅ ∅ ∅ empty_table empty_table ∅ ∅ empty_table.

Definition set_clock (v : Z) (d : db) : db :=
  mkDb v (agents d) (conversations d) (messages d) (inbox_state d) (channels d) (channel_members d) (channel_invites d) (tasks d) (task_bids d) (goals d) (goal_tasks d) (message_reactions d) (agent_trust d) (reactive_runs d) (dead_letters d) (memory_jobs d) (memory_links d) (memory_core d) (memory_pins d) (dispatch_tokens d) (dream_usage d) (memory_injections d) (attachments d) (cas_files d) (embeddings d) (embedding_queue d).
Definition set_agents (v : table Agent) (d : db) : db :=
  mkDb (clock d) v (conversations d) (messages d) (inbox_state d) (channels d) (channel_members d) (channel_invites d) (tasks d) (task_bids d) (goals d) (goal_tasks d) (message_reactions d) (agent_trust d) (reactive_runs d) (dead_letters d) (memory_jobs d) (memory_links d) (memory_core d) (memory_pins d) (dispatch_tokens d) (dream_usage d) (memory_injections d) (attachments d) (cas_files d) (embeddings d) (embedding_queue d).
Definition set_conversations (v : table Conversation) (d : db) : db :=
  mkDb (clock d) (agents d) v (messages d) (inbox_state d) (channels d) (channel_members d) (channel_invites d) (tasks d) (task_bids d) (goals d) (goal_tasks d) (message_reactions d) (agent_trust d) (reactive_runs d) (dead_letters d) (memory_jobs d) (memory_links d) (memory_core d) (memory_pins d) (dispatch_tokens d) (dream_usage d) (memory_injections d) (attachments d) (cas_files d) (embeddings d) (embedding_queue d).
Definition set_messages (v : table Message) (d : db) : db :=
  mkDb (clock d) (agents d) (conversations d) v (inbox_state d) (channels d) (channel_members d) (channel_invites d) (tasks d) (task_bids d) (goals d) (goal_tasks d) (message_reactions d) (agent_trust d) (reactive_runs d) (dead_letters d) (memory_jobs d) (memory_links d) (memory_core d) (memory_pins d) (dispatch_tokens d) (dream_usage d) (memory_injections d) (attachments d) (cas_files d) (embeddings d) (embedding_queue d).
Definition set_inbox_state (v : table InboxState) (d : db) : db :=
  mkDb (clock d) (agents d) (conversations d) (messages d) v (channels d) (channel_members d) (channel_invites d) (tasks d) (task_bids d) (goals d) (goal_tasks d) (message_reactions d) (agent_trust d) (reactive_runs d) (dead_letters d) (memory_jobs d) (memory_links d) (memory_core d) (memory_pins d) (dispatch_tokens d) (dream_usage d) (memory_injections d) (attachments d) (cas_files d) (embeddings d) (embedding_queue d).
Definition set_channels (v : table Channel) (d : db) : db :=
  mkDb (clock d) (agents d) (conversations d) (messages d) (inbox_state d) v (channel_members d) (channel_invites d) (tasks d) (task_bids d) (goals d) (goal_tasks d) (message_reactions d) (agent_trust d) (reactive_runs d) (dead_letters d) (memory_jobs d) (memory_links d) (memory_core d) (memory_pins d) (dispatch_tokens d) (dream_usage d) (memory_injections d) (attachments d) (cas_files d) (embeddings d) (embedding_queue d).
Definition set_channel_members (v : table Membership) (d : db) : db :=
  mkDb (clock d) (agents d) (conversations d) (messages d) (inbox_state d) (channels d) v (channel_invites d) (tasks d) (task_bids d) (goals d) (goal_tasks d) (message_reactions d) (agent_trust d) (reactive_runs d) (dead_letters d) (memory_jobs d) (memory_links d) (memory_core d) (memory_pins d) (dispatch_tokens d) (dream_usage d) (memory_injections d) (attachments d) (cas_files d) (embeddings d) (embedding_queue d).
Definition set_channel_invites (v : table ChannelInvite) (d : db) : db :=
  mkDb (clock d) (agents d) (conversations d) (messages d) (inbox_state d) (channels d) (channel_members d) v (tasks d) (task_bids d) (goals d) (goal_tasks d) (message_reactions d) (agent_trust d) (reactive_runs d) (dead_letters d) (memory_jobs d) (memory_links d) (memory_core d) (memory_pins d) (dispatch_tokens d) (dream_usage d) (memory_injections d) (attachments d) (cas_files d) (embeddings d) (embedding_queue d).
Definition set_tasks (v : table Task) (d : db) : db :=
  mkDb (clock d) (agents d) (conversations d) (messages d) (inbox_state d) (channels d) (channel_members d) (channel_invites d) v (task_bids d) (goals d) (goal_tasks d) (message_reactions d) (agent_trust d) (reactive_runs d) (dead_letters d) (memory_jobs d) (memory_links d) (memory_core d) (memory_pins d) (dispatch_tokens d) (dream_usage d) (memory_injections d) (attachments d) (cas_files d) (embeddings d) (embedding_queue d).
Definition set_task_bids (v : table Bid) (d : db) : db :=
  mkDb (clock d) (agents d) (conversations d) (messages d) (inbox_state d) (channels d) (channel_members d) (channel_invites d) (tasks d) v (goals d) (goal_tasks d) (message_reactions d) (agent_trust d) (reactive_runs d) (dead_letters d) (memory_jobs d) (memory_links d) (memory_core d) (memory_pins d) (dispatch_tokens d) (dream_usage d) (memory_injections d) (attachments d) (cas_files d) (embeddings d) (embedding_queue d).
Definition set_goals (v : table Goal) (d : db) : db :=
  mkDb (clock d) (agents d) (conversations d) (messages d) (inbox_state d) (channels d) (channel_members d) (channel_invites d) (tasks d) (task_bids d) v (goal_tasks d) (message_reactions d) (agent_trust d) (reactive_runs d) (dead_letters d) (memory_jobs d) (memory_links d) (memory_core d) (memory_pins d) (dispatch_tokens d) (dream_usage d) (memory_injections d) (attachments d) (cas_files d) (embeddings d) (embedding_queue d).
Definition set_goal_tasks (v : table GoalTask) (d : db) : db :=
  mkDb (clock d) (agents d) (conversations d) (messages d) (inbox_state d) (channels d) (channel_members d) (channel_invites d) (tasks d) (task_bids d) (goals d) v (message_reactions d) (agent_trust d) (reactive_runs d) (dead_letters d) (memory_jobs d) (memory_links d) (memory_core d) (memory_pins d) (dispatch_tokens d) (dream_usage d) (memory_injections d) (attachments d) (cas_files d) (embeddings d) (embedding_queue d).
Definition set_message_reactions (v : table Reaction) (d : db) : db :=
  mkDb (clock d) (agents d) (conversations d) (messages d) (inbox_state d) (channels d) (channel_members d) (channel_invites d) (tasks d) (task_bids d) (goals d) (goal_tasks d) v (agent_trust d) (reactive_runs d) (dead_letters d) (memory_jobs d) (memory_links d) (memory_core d) (memory_pins d) (dispatch_tokens d) (dream_usage d) (memory_injections d) (attachments d) (cas_files d) (embeddings d) (embedding_queue d).
Definition set_agent_trust (v : table TrustScore) (d : db) : db :=
  mkDb (clock d) (agents d) (conversations d) (messages d) (inbox_state d) (channels d) (channel_members d) (channel_invites d) (tasks d) (task_bids d) (goals d) (goal_tasks d) (message_reactions d) v (reactive_runs d) (dead_letters d) (memory_jobs d) (memory_links d) (memory_core d) (memory_pins d) (dispatch_tokens d) (dream_usage d) (memory_injections d) (attachments d) (cas_files d) (embeddings d) (embedding_queue d).
Definition set_reactive_runs (v : table ReactiveRun) (d : db) : db :=
  mkDb (clock d) (agents d) (conversations d) (messages d) (inbox_state d) (channels d) (channel_members d) (channel_invites d) (tasks d) (task_bids d) (goals d) (goal_tasks d) (message_reactions d) (agent_trust d) v (dead_letters d) (memory_jobs d) (memory_links d) (memory_core d) (memory_pins d) (dispatch_tokens d) (dream_usage d) (memory_injections d) (attachments d) (cas_files d) (embeddings d) (embedding_queue d).
Definition set_dead_letters (v : table DeadLetter) (d : db) : db :=
  mkDb (clock d) (agents d) (conversations d) (messages d) (inbox_state d) (channels d) (channel_members d) (channel_invites d) (tasks d) (task_bids d) (goals d) (goal_tasks d) (message_reactions d) (agent_trust d) (reactive_runs d) v (memory_jobs d) (memory_links d) (memory_core d) (memory_pins d) (dispatch_tokens d) (dream_usage d) (memory_injections d) (attachments d) (cas_files d) (embeddings d) (embedding_queue d).
Definition set_memory_jobs (v : table Job) (d : db) : db :=
  mkDb (clock d) (agents d) (conversations d) (messages d) (inbox_state d) (channels d) (channel_members d) (channel_invites d) (tasks d) (task_bids d) (goals d) (goal_tasks d) (message_reactions d) (agent_trust d) (reactive_runs d) (dead_letters d) v (memory_links d) (memory_core d) (memory_pins d) (dispatch_tokens d) (dream_usage d) (memory_injections d) (attachments d) (cas_files d) (embeddings d) (embedding_queue d).
Definition set_memory_links (v : table Link) (d : db) : db :=
  mkDb (clock d) (agents d) (conversations d) (messages d) (inbox_state d) (channels d) (channel_members d) (channel_invites d) (tasks d) (task_bids d) (goals d) (goal_tasks d) (message_reactions d) (agent_trust d) (reactive_runs d) (dead_letters d) (memory_jobs d) v (memory_core d) (memory_pins d) (dispatch_tokens d) (dream_usage d) (memory_injections d) (attachments d) (cas_files d) (embeddings d) (embedding_queue d).
Definition set_memory_core (v : gmap (string * string) CoreMemory) (d : db) : db :=
  mkDb (clock d) (agents d) (conversations d) (messages d) (inbox_state d) (channels d) (channel_members d) (channel_invites d) (tasks d) (task_bids d) (goals d) (goal_tasks d) (message_reactions d) (agent_trust d) (reactive_runs d) (dead_letters d) (memory_jobs d) (memory_links d) v (memory_pins d) (dispatch_tokens d) (dream_usage d) (memory_injections d) (attachments d) (cas_files d) (embeddings d) (embedding_queue d).
Definition set_memory_pins (v : gmap (string * Z) Pin) (d : db) : db :=
  mkDb (clock d) (agents d) (conversations d) (messages d) (inbox_state d) (channels d) (channel_members d) (channel_invites d) (tasks d) (task_bids d) (goals d) (goal_tasks d) (message_reactions d) (agent_trust d) (reactive_runs d) (dead_letters d) (memory_jobs d) (memory_links d) (memory_core d) v (dispatch_tokens d) (dream_usage d) (memory_injections d) (attachments d) (cas_files d) (embeddings d) (embedding_queue d).
Definition set_dispatch_tokens (v : gmap string DispatchToken) (d : db) : db :=
  mkDb (clock d) (agents d) (conversations d) (messages d) (inbox_state d) (channels d) (channel_members d) (channel_invites d) (tasks d) (task_bids d) (goals d) (goal_tasks d) (message_reactions d) (agent_trust d) (reactive_runs d) (dead_letters d) (memory_jobs d) (memory_links d) (memory_core d) (memory_pins d) v (dream_usage d) (memory_injections d) (attachments d) (cas_files d) (embeddings d) (embedding_queue d).
Definition set_dream_usage (v : gmap (Z * string) DreamUsage) (d : db) : db :=
  mkDb (clock d) (agents d) (conversations d) (messages d) (inbox_state d) (channels d) (channel_members d) (channel_invites d) (tasks d) (task_bids d) (goals d) (goal_tasks d) (message_reactions d) (agent_trust d) (reactive_runs d) (dead_letters d) (memory_jobs d) (memory_links d) (memory_core d) (memory_pins d) (dispatch_tokens d) v (memory_injections d) (attachments d) (cas_files d) (embeddings d) (embedding_queue d).
Definition set_memory_injections (v : table InjectionRecord) (d : db) : db :=
  mkDb (clock d) (agents d) (conversations d) (messages d) (inbox_state d) (channels d) (channel_members d) (channel_invites d) (tasks d) (task_bids d) (goals d) (goal_tasks d) (message_reactions d) (agent_trust d) (reactive_runs d) (dead_letters d) (memory_jobs d) (memory_links d) (memory_core d) (memory_pins d) (dispatch_tokens d) (dream_usage d) v (attachments d) (cas_files d) (embeddings d) (embedding_queue d).
Definition set_attachments (v : table Attachment) (d : db) : db :=
  mkDb (clock d) (agents d) (conversations d) (messages d) (inbox_state d) (channels d) (channel_members d) (channel_invites d) (tasks d) (task_bids d) (goals d) (goal_tasks d) (message_reactions d) (agent_trust d) (reactive_runs d) (dead_letters d) (memory_jobs d) (memory_links d) (memory_core d) (memory_pins d) (dispatch_tokens d) (dream_usage d) (memory_injections d) v (cas_files d) (embeddings d) (embedding_queue d).
Definition set_cas_files (v : gmap string string) (d : db) : db :=
  mkDb (clock d) (agents d) (conversations d) (messages d) (inbox_state d) (channels d) (channel_members d) (channel_invites d) (tasks d) (task_bids d) (goals d) (goal_tasks d) (message_reactions d) (agent_trust d) (reactive_runs d) (dead_letters d) (memory_jobs d) (memory_links d) (memory_core d) (memory_pins d) (dispatch_tokens d) (dream_usage d) (memory_injections d) (attachments d) v (embeddings d) (embedding_queue d).
Definition set_embeddings (v : gmap Z EmbeddingRecord) (d : db) : db :=
  mkDb (clock d) (agents d) (conversations d) (messages d) (inbox_state d) (channels d) (channel_members d) (channel_invites d) (tasks d) (task_bids d) (goals d) (goal_tasks d) (message_reactions d) (agent_trust d) (reactive_runs d) (dead_letters d) (memory_jobs d) (memory_links d) (memory_core d) (memory_pins d) (dispatch_tokens d) (dream_usage d) (memory_injections d) (attachments d) (cas_files d) v (embedding_queue d).
Definition set_embedding_queue (v : table QueueItem) (d : db) : db :=
  mkDb (clock d) (agents d) (conversations d) (messages d) (inbox_state d) (channels d) (channel_members d) (channel_invites d) (tasks d) (task_bids d) (goals d) (goal_tasks d) (message_reactions d) (agent_trust d) (reactive_runs d) (dead_letters d) (memory_jobs d) (memory_links d) (memory_core d) (memory_pins d) (dispatch_tokens d) (dream_usage d) (memory_injections d) (attachments d) (cas_files d) (embeddings d) v.

(** ** Errors

    The errors the services return, one constructor per message of the code;
    [EDb] is any error of the database driver. *)
Inductive error : Type :=
| EDb
| ErrNoRows
| ENilAgent
(* messaging *)
| EBodyEmpty | ENoRecipient | ETwoRecipients | EPriorityRange | EMetadataInvalid
| EAgentNotFound (name : string)
| EMessageNotFound (id : Z)
| ENotProcessing (id : Z) (current : MsgStatus)
| ENotClaimedBy (id : Z) (agent : string)
| ENotFoundOrNotClaimed
(* channels *)
| ErrChannelNotFound | ErrChannelNameConflict | ErrNotChannelMember | ErrNotChannelOwner
| ErrOwnerCannotLeave | ErrNotInvited | ErrInvalidChannelName | ErrSystemChannel | EKickSelf
(* auctions *)
| ENotAuctionChannel (got : ChannelType) | EDeadlinePast
| ETaskNotFound (id : Z) | EBidNotFound (id : Z)
| ETaskNotOpen (current : TaskStatus) | ETaskNotAssigned (current : TaskStatus)
| EBidOnOwnTask | EAlreadyBid (agent : string) (task : Z)
| ENotPoster | EBidOfOtherTask (bid task : Z) | ENotAssignee
(* goals *)
| EGoalFields | ErrGoalNotFound | EIllegalGoalTransition (from to : GoalStatus)
| ErrGoalTaskNotFound | ErrAlreadyClaimed | ErrIllegalTransition (from to : GTStatus)
| ErrAncestryOverflow
(* reactions *)
| ErrInvalidReaction | ErrReactionLimit | EAlreadyClaimedBy (agent : string) | EReactionNotFound
(* agents *)
| EAgentNameRequired | EAgentType | ECapabilitiesInvalid | EAgentIDNotFound (id : Z)
| ENotAgentOwner | EInvalidAPIKey | ENoSuchActiveAgent (name : string)
(* harness and reactor *)
| EUnknownHarness (name : string) | ENoBackend (agent : string)
| ERunNotFailed (current : RunStatus) | ERetryRunLost | EBackend (what : string)
(* memory *)
| EDeadLetterNotFound | EPurgeFilter
| EMemoryFields | ENegativeSlot | ErrJobAlreadyInFlight
| EJobNotPending (id : Z) | EJobNotLeasable (id : Z) | EActionNil | EInvalidCompletion (s : ConsolidationStatus)
| ErrCoreMemoryTooLarge | ErrLinkTypeReserved | EConsolidationLink (relation : string)
| ErrAgentUnowned | ECircuitBroken (reason : string) | EDreamAgentNotFound (name : string)
| ETool (code : string)
(* attachments *)
| ErrAttachmentNotFound | ErrFileTooLarge | ErrEmptyFile | ErrFileMissing
(* search *)
| EUnknownSearchMode (mode : string) | ENoEmbeddingProvider
(* webhooks *)
| EInvalidEvent (e : string) | ENoEvents | EWebhookURL (why : string) | EMaxWebhooks (count : Z) | EWebhookNotFound | EDeliveryNotFound
(* API keys *)
| EKeyName | EKeyFormat | EInvalidKey | EKeyNotFound.

(** Programs over the SynapBus database. *)
Abbreviation M A := (prog db (outcome error A)).

(** [time.Now()]. *)
Definition time_now : prog db Z := Peek (fun d => Ret (clock d)).

(** The rest of the world, between two statements: the clock moves forward. *)
Definition tick (d d' : db) : Prop := exists s, 0 <= s /\ d' = set_clock (clock d + s) d.
