(* ===== verification/Messaging.v ===== *)
(** * Messaging (internal/messaging: service.go, store.go, stalemate.go)

    Direct and channel messages, the per-agent inbox with its read pointers,
    the claim / done / failed work queue, and the worker that fails claims that
    time out.  Each store method is one definition (one SQL statement, or the
    sequence of statements it runs); each service method composes them with the
    guards of the Go code. *)
From S2P Require Import Prelude Prog Table Schema.

(** ** Text helpers *)

(** The White_Space characters of Unicode as [strings.TrimSpace] strips them,
    on UTF-8 bytes. *)
Definition ascii_space (c : Ascii.ascii) : bool :=
  let n := Ascii.nat_of_ascii c in
  bool_decide (n = 9 \/ n = 10 \/ n = 11 \/ n = 12 \/ n = 13 \/ n = 32)%nat.

(** [strings.TrimSpace(s) == ""]: only white space runes. *)
Fixpoint is_blank (s : string) : bool :=
  match s with
  | EmptyString => true
  | String a s1 =>
      let n := Ascii.nat_of_ascii a in
      if ascii_space a then is_blank s1
      else match s1 with
      | EmptyString => false
      | String b s2 =>
          let m := Ascii.nat_of_ascii b in
          if bool_decide (n = 194 /\ (m = 133 \/ m = 160))%nat then is_blank s2
          else match s2 with
          | EmptyString => false
          | String c s3 =>
              let k := Ascii.nat_of_ascii c in
              if bool_decide
                   ((n = 225 /\ m = 154 /\ k = 128) \/
                    (n = 226 /\ m = 128 /\ (128 <= k <= 138 \/ k = 168 \/ k = 169 \/ k = 175)) \/
                    (n = 226 /\ m = 129 /\ k = 159) \/
                    (n = 227 /\ m = 128 /\ k = 128))%nat
              then is_blank s3 else false
          end
      end
  end.

Definition str_empty (s : string) : bool := bool_decide (s = "").
Definition nullable (s : string) : option string := if str_empty s then None else Some s.
Definition opt_is {A} `{EqDecision A} (o : option A) (a : A) : bool := bool_decide (o = Some a).

(** Go's zero [time.Time], in Unix seconds. *)
Definition zero_time : Z := -62135596800.

(** ** JSON objects as Go maps *)

(** What [encoding/json] does to a number on the way through a [float64]
    (none when it is out of range), and to a string with invalid UTF-8. *)
Class GoJson := {
  float_text : string -> option string;
  utf8_coerce : string -> string
}.

(** Members are kept sorted by key, as [json.Marshal] writes a map; setting a
    key replaces it. *)
Fixpoint obj_set {A} (k : string) (v : A) (ms : list (string * A)) : list (string * A) :=
  match ms with
  | [] => [(k, v)]
  | (k', v') :: rest =>
      match String.compare k k' with
      | Lt => (k, v) :: ms
      | Eq => (k, v) :: rest
      | Gt => (k', v') :: obj_set k v rest
      end
  end.

Fixpoint obj_get {A} (k : string) (ms : list (string * A)) : option A :=
  match ms with
  | [] => None
  | (k', v') :: rest => if String.eqb k k' then Some v' else obj_get k rest
  end.

(** The value that [json.Unmarshal] into [any] and [json.Marshal] leave. *)
Fixpoint json_recode `{GoJson} (v : json) : option json :=
  match v with
  | JNum s => JNum <$> float_text s
  | JArr l =>
      (fix go l := match l with
                   | [] => Some []
                   | x :: r => match json_recode x, go r with
                               | Some x', Some r' => Some (x' :: r')
                               | _, _ => None
                               end
                   end) l ≫= fun l' => Some (JArr l')
  | JObj ms =>
      (fix go ms acc := match ms with
                        | [] => Some (JObj acc)
                        | (k, x) :: r => match json_recode x with
                                         | Some x' => go r (obj_set k x' acc)
                                         | None => None
                                         end
                        end) ms []
  | _ => Some v
  end.

(** [json.Unmarshal] into a [map[string]any]: a map, the nil map for [null],
    or an error. *)
Inductive map_decode := DecodedMap (ms : list (string * json)) | DecodedNil | DecodeError.

Definition unmarshal_map `{GoJson} (r : rawjson) : map_decode :=
  match r with
  | RawJson JNull => DecodedNil
  | RawJson (JObj ms) =>
      match json_recode (JObj ms) with
      | Some (JObj ms') => DecodedMap ms'
      | _ => DecodeError
      end
  | _ => DecodeError
  end.

(** ** Read options *)
Record ReadOptions := mkReadOptions {
  opt_Status : option MsgStatus;      (** [None]: no filter *)
  opt_FromAgent : string;
  opt_ConversationID : option Z;
  opt_MinPriority : Z;
  opt_Limit : Z;
  opt_Offset : Z;
  opt_After : option Z;               (** [None]: empty or unparsable *)
  opt_Before : option Z;
  IncludeRead : bool;
  MarkRead : bool
}.

Record SendOptions := mkSendOptions {
  so_Subject : string;
  so_Priority : Z;
  so_Metadata : rawjson;
  so_ChannelID : option Z;
  so_ConversationID : option Z;
  so_ReplyTo : option Z;
  so_Attachments : list string
}.

Record PaginatedMessages := mkPaginatedMessages {
  pm_Messages : list Message;
  pm_Total : Z;
  pm_Offset : Z;
  pm_Limit : Z
}.

(** ** The store *)
Section Store.
Context `{!Engine}.

(** ORDER BY priority DESC, created_at ASC. *)
Definition queue_order (a b : Message) : Prop :=
  Priority b < Priority a \/ (Priority a = Priority b /\ Msg_CreatedAt a <= Msg_CreatedAt b).
#[export] Instance queue_order_dec a b : Decision (queue_order a b).
Proof. unfold queue_order. apply _. Defined.

Definition newest_first (a b : Message) : Prop := Msg_CreatedAt b <= Msg_CreatedAt a.
#[export] Instance newest_first_dec a b : Decision (newest_first a b).
Proof. unfold newest_first. apply _. Defined.

Definition oldest_first (a b : Message) : Prop := Msg_CreatedAt a <= Msg_CreatedAt b.
#[export] Instance oldest_first_dec a b : Decision (oldest_first a b).
Proof. unfold oldest_first. apply _. Defined.

Definition InsertConversation (conv : Conversation) : M Conversation :=
  exec EDb
    (fun d => set_conversations (insert_row (fun id =>
       mkConversation id (Subject conv) (Conv_CreatedBy conv) (Conv_ChannelID conv)) (conversations d)) d)
    (fun d => mkConversation (next_id (conversations d)) (Subject conv) (Conv_CreatedBy conv) (Conv_ChannelID conv)).

Definition conv_newest (a b : Conversation) : Prop := Conv_ID b <= Conv_ID a.
#[export] Instance conv_newest_dec a b : Decision (conv_newest a b).
Proof. unfold conv_newest. apply _. Defined.

Definition between (a b : string) (m : Message) : bool :=
  (String.eqb (FromAgent m) a && opt_is (to_agent m) b) ||
  (String.eqb (FromAgent m) b && opt_is (to_agent m) a).

Definition FindConversation (subject fromAgent toAgent : string) : M Conversation :=
  query_o EDb (fun d =>
    match select_by conv_newest (fun c =>
            String.eqb (Subject c) subject && bool_decide (Conv_ChannelID c = None) &&
            existsb (fun m => (Msg_ConversationID m =? Conv_ID c) && between fromAgent toAgent m)
                    (rows (messages d))) (conversations d) with
    | c :: _ => Ok c
    | [] => Err ErrNoRows
    end).

Definition GetConversation (id : Z) : M Conversation :=
  query_o EDb (fun d => match find_id id (conversations d) with
                        | Some c => Ok c
                        | None => Err ErrNoRows
                        end).

(** The row an INSERT writes for a message; the CHECK constraint bounds the
    priority. *)
Definition message_row (msg : Message) (now id : Z) : Message :=
  mkMessage id (Msg_ConversationID msg) (FromAgent msg) (to_agent msg) (Msg_ChannelID msg)
    (ReplyTo msg) (Body msg) (Priority msg) (Status msg)
    (match Metadata msg with RawEmpty => raw_empty_object | r => r end)
    None None now now.

Definition priority_in_range (p : Z) : bool := (1 <=? p) && (p <=? 10).

(** Returns the message with its new id, as the Go code fills [msg.ID]. *)
Definition InsertMessage (msg : Message) : M Message :=
  exec_o EDb
    (fun d => if priority_in_range (Priority msg)
              then set_messages (insert_row (message_row msg (clock d)) (messages d)) d
              else d)
    (fun d => if priority_in_range (Priority msg)
              then Ok (mkMessage (next_id (messages d)) (Msg_ConversationID msg) (FromAgent msg)
                    (to_agent msg) (Msg_ChannelID msg) (ReplyTo msg) (Body msg) (Priority msg)
                    (Status msg) (Metadata msg) (claimed_by msg) (ClaimedAt msg)
                    (Msg_CreatedAt msg) (Msg_UpdatedAt msg))
              else Err EDb).

(** The read pointer of an agent in a conversation; 0 when there is none. *)
Definition last_read (d : db) (agentName : string) (conv : Z) : Z :=
  match find_row (fun s => String.eqb (Inbox_AgentName s) agentName &&
                           (Inbox_ConversationID s =? conv)) (inbox_state d) with
  | Some s => LastReadMessageID s
  | None => 0
  end.

(** buildInboxConditions, as the predicate the WHERE clause denotes. *)
Definition buildInboxConditions (d : db) (agentName : string) (opts : ReadOptions) (m : Message) : bool :=
  opt_is (to_agent m) agentName &&
  (IncludeRead opts || (last_read d agentName (Msg_ConversationID m) <? Msg_ID m)) &&
  match opt_Status opts with None => true | Some st => bool_decide (Status m = st) end &&
  (str_empty (opt_FromAgent opts) || String.eqb (FromAgent m) (opt_FromAgent opts)) &&
  match opt_ConversationID opts with None => true | Some c => Msg_ConversationID m =? c end &&
  (negb (0 <? opt_MinPriority opts) || (opt_MinPriority opts <=? Priority m)) &&
  match opt_After opts with None => true | Some t => t <=? Msg_CreatedAt m end &&
  match opt_Before opts with None => true | Some t => Msg_CreatedAt m <=? t end.

Definition inbox_page (d : db) (agentName : string) (opts : ReadOptions) : list Message :=
  page (default_limit 50 (opt_Limit opts)) (default_offset (opt_Offset opts))
    (select_by queue_order (buildInboxConditions d agentName opts) (messages d)).

Definition GetInboxMessages (agentName : string) (opts : ReadOptions) : M (list Message) :=
  query EDb (fun d => inbox_page d agentName opts).

Definition CountInboxMessages (agentName : string) (opts : ReadOptions) : M Z :=
  query EDb (fun d => affected (buildInboxConditions d agentName opts) (messages d)).

(** INSERT ... ON CONFLICT DO UPDATE SET last_read = MAX(...). *)
Definition upsert_inbox (agentName : string) (conv msgID : Z) (t : table InboxState) : table InboxState :=
  let key s := String.eqb (Inbox_AgentName s) agentName && (Inbox_ConversationID s =? conv) in
  match find_row key t with
  | Some _ => update_rows key (fun s => mkInboxState (Inbox_ID s) (Inbox_AgentName s)
                (Inbox_ConversationID s) (Z.max (LastReadMessageID s) msgID)) t
  | None => insert_row (fun id => mkInboxState id agentName conv msgID) t
  end.

Definition UpdateInboxState (agentName : string) (conv msgID : Z) : M unit :=
  exec EDb (fun d => set_inbox_state (upsert_inbox agentName conv msgID (inbox_state d)) d) (fun _ => tt).

Definition claimable (agentName : string) (m : Message) : bool :=
  opt_is (to_agent m) agentName && bool_decide (Status m = StatusPending).

Definition claim_row (agentName : string) (now : Z) (m : Message) : Message :=
  mkMessage (Msg_ID m) (Msg_ConversationID m) (FromAgent m) (to_agent m) (Msg_ChannelID m)
    (ReplyTo m) (Body m) (Priority m) StatusProcessing (Metadata m) (Some agentName) (Some now)
    (Msg_CreatedAt m) now.

Definition with_status (status : MsgStatus) (meta : option rawjson) (now : Z) (m : Message) : Message :=
  mkMessage (Msg_ID m) (Msg_ConversationID m) (FromAgent m) (to_agent m) (Msg_ChannelID m)
    (ReplyTo m) (Body m) (Priority m) status (default (Metadata m) meta) (claimed_by m) (ClaimedAt m)
    (Msg_CreatedAt m) now.

Definition in_ids (ids : list Z) (m : Message) : bool := bool_decide (Msg_ID m ∈ ids).

(** Three statements: select the ids, claim those still pending, fetch them. *)
Definition store_ClaimMessages (agentName : string) (limit : Z) : M (list Message) :=
  let? ids := query EDb (fun d =>
      Msg_ID <$> page (default_limit 10 limit) 0 (select_by queue_order (claimable agentName) (messages d))) in
  match ids with
  | [] => Ret (Ok [])
  | _ =>
      let? _ := exec EDb
        (fun d => set_messages (update_rows
           (fun m => in_ids ids m && bool_decide (Status m = StatusPending))
           (claim_row agentName (clock d)) (messages d)) d) (fun _ => tt) in
      query EDb (fun d => select_by queue_order (in_ids ids) (messages d))
  end.

Definition UpdateMessageStatus (id : Z) (status : MsgStatus) (claimedBy : string)
    (metadata : option rawjson) : M unit :=
  let key m := by_id id m && opt_is (claimed_by m) claimedBy in
  exec_o EDb
    (fun d => set_messages (update_rows key (with_status status metadata (clock d)) (messages d)) d)
    (fun d => if affected key (messages d) =? 0 then Err ENotFoundOrNotClaimed else Ok tt).

Definition store_GetMessageByID (id : Z) : M Message :=
  query_o EDb (fun d => match find_id id (messages d) with
                        | Some m => Ok m
                        | None => Err ErrNoRows
                        end).

Definition AgentExists (name : string) : M bool :=
  query EDb (fun d => negb (affected (fun a => String.eqb (Agent_Name a) name &&
                                     String.eqb (Agent_Status a) "active") (agents d) =? 0)).

Definition CountPendingDMs (agentName : string) : M Z :=
  query EDb (fun d => affected (fun m => claimable agentName m &&
                                  bool_decide (Msg_ChannelID m = None)) (messages d)).

Definition GetPendingDMs (agentName : string) (limit : Z) : M (list Message) :=
  query EDb (fun d => page (default_limit 10 limit) 0
    (select_by newest_first (fun m => opt_is (to_agent m) agentName &&
       bool_decide (Status m = StatusPending \/ Status m = StatusProcessing) &&
       bool_decide (Msg_ChannelID m = None) && negb (String.eqb (FromAgent m) "system")) (messages d))).

Definition GetSystemNotifications (agentName : string) (limit : Z) : M (list Message) :=
  query EDb (fun d => page (default_limit 5 limit) 0
    (select_by newest_first (fun m => opt_is (to_agent m) agentName &&
       String.eqb (FromAgent m) "system" && bool_decide (Status m = StatusPending)) (messages d))).

Definition GetConversationMessages (conv : Z) : M (list Message) :=
  query EDb (fun d => select_by oldest_first (fun m => Msg_ConversationID m =? conv) (messages d)).

Definition store_GetReplies (messageID : Z) : M (list Message) :=
  query EDb (fun d => select_by oldest_first (fun m => opt_is (ReplyTo m) messageID) (messages d)).

Definition store_GetChannelMessages (channelID limit offset : Z) : M (list Message) :=
  query EDb (fun d => page (default_limit 50 limit) (default_offset offset)
    (select_by oldest_first (fun m => opt_is (Msg_ChannelID m) channelID) (messages d))).

Definition CountChannelMessages (channelID : Z) : M Z :=
  query EDb (fun d => affected (fun m => opt_is (Msg_ChannelID m) channelID) (messages d)).

Definition GetReplyCounts (ids : list Z) : M (gmap Z Z) :=
  match ids with
  | [] => Ret (Ok ∅)
  | _ => query EDb (fun d =>
      foldr (fun m acc => match ReplyTo m with
                          | Some r => if bool_decide (r ∈ ids)
                                      then <[r := default 0 (acc !! r) + 1]> acc else acc
                          | None => acc
                          end) ∅ (rows (messages d)))
  end.
End Store.

(** ** The components messaging calls *)

(** The part of the database messaging owns. *)
Definition same_messaging (d d' : db) : Prop :=
  messages d' = messages d /\ inbox_state d' = inbox_state d /\
  conversations d' = conversations d /\ agents d' = agents d.

#[export] Instance same_messaging_preorder : PreOrder same_messaging.
Proof. split; [done|]. unfold same_messaging. intros a b c; naive_solver congruence. Qed.

(** The part of the database the channel service owns. *)
Definition same_channels (d d' : db) : Prop :=
  channels d' = channels d /\ channel_members d' = channel_members d /\ channel_invites d' = channel_invites d.

#[export] Instance same_channels_preorder : PreOrder same_channels.
Proof. split; [done|]. unfold same_channels. intros a b c; naive_solver congruence. Qed.

(** [AttachmentLinker]: links an uploaded blob to a message.  Messaging and the
    channels rely on it to leave their tables alone. *)
Class AttachmentLinker := {
  AttachToMessage : string -> Z -> M unit;
  AttachToMessage_frame : forall hash id, within same_messaging (AttachToMessage hash id);
  AttachToMessage_channels : forall hash id, within same_channels (AttachToMessage hash id)
}.

(** No linker configured ([s.attLinker == nil]). *)
Definition nil_linker : AttachmentLinker.
Proof.
  by refine {| AttachToMessage := fun _ _ => Ret (Ok tt) |}.
Defined.

(** ** The service *)
Section Service.
Context `{!Engine, !GoJson, !AttachmentLinker}.

(** "For DMs, verify recipient agent exists". *)
Definition send_check_recipient (to : string) : M unit :=
  if str_empty to then Ret (Ok tt)
  else let? exists_ := AgentExists to in
       if exists_ then Ret (Ok tt) else Ret (Err (EAgentNotFound to)).

(** "Find or create conversation", the finding half: [conv] may stay nil. *)
Definition send_find_conversation (from to : string) (opts : SendOptions) : M (option Conversation) :=
  match so_ConversationID opts with
  | Some c => let? conv := GetConversation c in Ret (Ok (Some conv))
  | None =>
      if negb (str_empty (so_Subject opts)) && negb (str_empty to) then
        let! r := FindConversation (so_Subject opts) from to in
        match r with
        | Ok conv => Ret (Ok (Some conv))
        | Err ErrNoRows => Ret (Ok None)
        | Err e => Ret (Err e)
        | Panic w => Ret (Panic w)
        end
      else Ret (Ok None)
  end.

Definition send_ensure_conversation (from : string) (opts : SendOptions)
    (found : option Conversation) : M Conversation :=
  match found with
  | Some conv => Ret (Ok conv)
  | None => InsertConversation (mkConversation 0 (so_Subject opts) from (so_ChannelID opts))
  end.

Definition send_link_attachments (opts : SendOptions) (msg : Message) : prog db unit :=
  for_each (so_Attachments opts) (fun hash =>
    let! _ := AttachToMessage hash (Msg_ID msg) in Ret tt).

Definition new_message (from to body : string) (opts : SendOptions) (priority : Z)
    (metadata : rawjson) (conv : Conversation) : Message :=
  mkMessage 0 (Conv_ID conv) from (nullable to) (so_ChannelID opts) (so_ReplyTo opts) body
    priority StatusPending metadata None None zero_time zero_time.

(** SendMessage after its input validation. *)
Definition send_persist (from to body : string) (opts : SendOptions) (priority : Z)
    (metadata : rawjson) : M Message :=
  let? _ := send_check_recipient to in
  let? found := send_find_conversation from to opts in
  let? conv := send_ensure_conversation from opts found in
  let? msg := InsertMessage (new_message from to body opts priority metadata conv) in
  let! _ := send_link_attachments opts msg in
  Ret (Ok msg).

Definition SendMessage (from to body : string) (opts : SendOptions) : M Message :=
  if is_blank body then Ret (Err EBodyEmpty)
  else if str_empty to && bool_decide (so_ChannelID opts = None) then Ret (Err ENoRecipient)
  else if negb (str_empty to) && negb (bool_decide (so_ChannelID opts = None))
  then Ret (Err ETwoRecipients)
  else
  let priority := if so_Priority opts =? 0 then 5 else so_Priority opts in
  if (priority <? 1) || (10 <? priority) then Ret (Err EPriorityRange)
  else match so_Metadata opts with
       | RawInvalid _ => Ret (Err EMetadataInvalid)
       | RawEmpty => send_persist from to body opts priority raw_empty_object
       | RawJson v => send_persist from to body opts priority (RawJson v)
       end.

(** [conversationMaxID] after the loop over the returned messages. *)
Definition conversationMaxID (msgs : list Message) : gmap Z Z :=
  foldl (fun acc m =>
    if default 0 (acc !! Msg_ConversationID m) <? Msg_ID m
    then <[Msg_ConversationID m := Msg_ID m]> acc else acc) ∅ msgs.

Definition ReadInbox (agentName : string) (opts : ReadOptions) : M PaginatedMessages :=
  let? msgs := GetInboxMessages agentName opts in
  let? total := CountInboxMessages agentName opts in
  let limit := default_limit 50 (opt_Limit opts) in
  let! _ :=
    if MarkRead opts then
      for_each (scan (map_to_list (conversationMaxID msgs))) (fun '(convID, maxMsgID) =>
        let! _ := UpdateInboxState agentName convID maxMsgID in Ret tt)
    else Ret tt in
  Ret (Ok (mkPaginatedMessages msgs total (opt_Offset opts) limit)).

Definition ClaimMessages (agentName : string) (limit : Z) : M (list Message) :=
  store_ClaimMessages agentName (default_limit 10 limit).

Definition GetMessageByID (id : Z) : M Message :=
  let! r := store_GetMessageByID id in
  match r with
  | Err ErrNoRows => Ret (Err (EMessageNotFound id))
  | o => Ret o
  end.

(** The guards MarkDone and MarkFailed share. *)
Definition claim_guard (messageID : Z) (agentName : string) (msg : Message) : option error :=
  if negb (bool_decide (Status msg = StatusProcessing))
  then Some (ENotProcessing messageID (Status msg))
  else if negb (String.eqb (default "" (claimed_by msg)) agentName)
  then Some (ENotClaimedBy messageID agentName)
  else None.

Definition MarkDone (messageID : Z) (agentName : string) : M unit :=
  let? msg := GetMessageByID messageID in
  match claim_guard messageID agentName msg with
  | Some e => Ret (Err e)
  | None => UpdateMessageStatus messageID StatusDone agentName None
  end.

Definition MarkFailed (messageID : Z) (agentName reason : string) : M unit :=
  let? msg := GetMessageByID messageID in
  match claim_guard messageID agentName msg with
  | Some e => Ret (Err e)
  | None =>
      let set_error ms := RawJson (JObj (obj_set "error" (JStr (utf8_coerce reason)) ms)) in
      match unmarshal_map (Metadata msg) with
      | DecodedNil => Ret (Panic "assignment to entry in nil map")
      | DecodedMap ms => UpdateMessageStatus messageID StatusFailed agentName (Some (set_error ms))
      | DecodeError => UpdateMessageStatus messageID StatusFailed agentName (Some (set_error []))
      end
  end.

Definition GetReplies (messageID : Z) : M (list Message) := store_GetReplies messageID.

Definition GetChannelMessages (channelID limit offset : Z) : M PaginatedMessages :=
  let? msgs := store_GetChannelMessages channelID limit offset in
  let? total := CountChannelMessages channelID in
  Ret (Ok (mkPaginatedMessages msgs total offset (default_limit 50 limit))).

Definition service_GetConversation (id : Z) : M (Conversation * list Message) :=
  let? conv := GetConversation id in
  let? msgs := GetConversationMessages id in
  Ret (Ok (conv, msgs)).

(** The workflow state EnrichMessages derives, from its own tables of
    priorities and states. *)
Definition enrich_priority (r : ReactionType) : option Z :=
  match r with
  | ReactionApprove => Some 2 | ReactionInProgress => Some 3 | ReactionReject => Some 4
  | ReactionDone => Some 5 | ReactionPublished => Some 6 | _ => None
  end.

Definition enrich_state (r : ReactionType) : string :=
  match r with
  | ReactionApprove => "approved" | ReactionInProgress => "in_progress"
  | ReactionReject => "rejected" | ReactionDone => "done"
  | ReactionPublished => "published" | _ => ""
  end.

Definition enrich_workflow_state (channelID : option Z) (rxs : list ReactionType) : string :=
  let '(_, ws) := foldl (fun '(highest, ws) r =>
      match enrich_priority r with
      | Some p => if highest <? p then (p, enrich_state r) else (highest, ws)
      | None => (highest, ws)
      end) (0, "") rxs in
  if str_empty ws && negb (bool_decide (channelID = None)) then "proposed" else ws.

(** ** The stalemate worker *)
Definition timed_out (cutoff : Z) (m : Message) : bool :=
  bool_decide (Status m = StatusProcessing) &&
  match to_agent m with
  | Some a => negb (str_empty a) && negb (String.eqb a "system")
  | None => false
  end &&
  match ClaimedAt m with Some t => t <? cutoff | None => false end.

Definition timeout_meta : rawjson := RawJson (JObj [("error", JStr "claim timeout exceeded")]).

(** The re-checked UPDATE of one stale message; its answer is RowsAffected. *)
Definition fail_stale (cutoff id : Z) : M Z :=
  let key m := by_id id m && bool_decide (Status m = StatusProcessing) &&
               match ClaimedAt m with Some t => t <? cutoff | None => false end in
  exec EDb (fun d => set_messages (update_rows key
               (with_status StatusFailed (Some timeout_meta) (clock d)) (messages d)) d)
           (fun d => affected key (messages d)).

Fixpoint fail_each (cutoff : Z) (ids : list Z) (count : Z) : prog db Z :=
  match ids with
  | [] => Ret count
  | id :: rest =>
      let! r := fail_stale cutoff id in
      match r with
      | Ok n => fail_each cutoff rest (if n =? 0 then count else count + 1)
      | _ => fail_each cutoff rest count
      end
  end.

Definition failTimedOutProcessing (processingTimeout : Z) : prog db Z :=
  let! now := time_now in
  let cutoff := now - processingTimeout in
  let! r := query EDb (fun d => Msg_ID <$> scan (select (timed_out cutoff) (messages d))) in
  match r with
  | Ok ids => fail_each cutoff ids 0
  | _ => Ret 0
  end.
End Service.
