(* ===== verification/MessagingFacts.v ===== *)
(** * Messaging: invariants, functional behaviour, concurrency *)
From S2P Require Import Prelude Prog Table Schema Messaging.

(** ** Well-formed message tables and how they may change *)
Definition status_rank (s : MsgStatus) : Z :=
  match s with StatusPending => 0 | StatusProcessing => 1 | _ => 2 end.

Record msg_ok (m : Message) : Prop := {
  mo_priority : 1 <= Priority m <= 10;
  mo_pending : Status m = StatusPending <-> claimed_by m = None;
  mo_claimant : forall a, claimed_by m = Some a -> to_agent m = Some a
}.

(** One message, earlier and later: what was sent never changes, work never
    goes back, and a claim is never handed to someone else. *)
Record msg_step (m m' : Message) : Prop := {
  ms_same : (Msg_ID m', Msg_ConversationID m', FromAgent m', to_agent m', Msg_ChannelID m',
             ReplyTo m', Body m', Priority m', Msg_CreatedAt m') =
            (Msg_ID m, Msg_ConversationID m, FromAgent m, to_agent m, Msg_ChannelID m,
             ReplyTo m, Body m, Priority m, Msg_CreatedAt m);
  ms_rank : status_rank (Status m) <= status_rank (Status m');
  ms_claim : forall a, claimed_by m = Some a -> claimed_by m' = Some a
}.

#[export] Instance msg_step_preorder : PreOrder msg_step.
Proof.
  split.
  - intros m. by constructor.
  - intros a b c [H1 H2 H3] [H4 H5 H6]. constructor; [congruence|lia|auto].
Qed.

Lemma msg_step_id m m' : msg_step m m' -> Msg_ID m' = Msg_ID m /\ to_agent m' = to_agent m.
Proof. intros [H _ _]. by simplify_eq. Qed.

Definition inbox_key (s : InboxState) : string * Z := (Inbox_AgentName s, Inbox_ConversationID s).

Record messaging_ok (d : db) : Prop := {
  mk_table : table_ok (messages d);
  mk_rows : forall m, m ∈ rows (messages d) -> msg_ok m;
  mk_inbox : table_ok (inbox_state d);
  mk_keys : NoDup (inbox_key <$> rows (inbox_state d))
}.

Record messaging_le (d d' : db) : Prop := {
  ml_messages : forall m, m ∈ rows (messages d) -> exists m', m' ∈ rows (messages d') /\ msg_step m m';
  ml_pointers : forall a c, last_read d a c <= last_read d' a c
}.

#[export] Instance messaging_le_preorder : PreOrder messaging_le.
Proof.
  split.
  - intros d. split; [|lia]. intros m Hm. exists m. by split.
  - intros d1 d2 d3 [H1 H2] [H3 H4]. split.
    + intros m Hm. destruct (H1 m Hm) as (m2&Hm2&?). destruct (H3 m2 Hm2) as (m3&?&?).
      exists m3. split; [done|]. by etrans.
    + intros a c. etrans; [apply H2|apply H4].
Qed.

Lemma same_messaging_ok d d' : same_messaging d d' -> messaging_ok d -> messaging_ok d'.
Proof. intros (E1&E2&_) []. split; by rewrite ?E1, ?E2. Qed.

Lemma same_messaging_le d d' : same_messaging d d' -> messaging_le d d'.
Proof.
  intros (E1&E2&_). split.
  - intros m Hm. exists m. by rewrite E1.
  - intros a c. unfold last_read. rewrite E2. lia.
Qed.

(** *** Steps that write the message table *)
Lemma messaging_update d p f :
  (forall m, Msg_ID (f m) = Msg_ID m) ->
  (forall m, m ∈ rows (messages d) -> p m = true -> msg_ok m -> msg_ok (f m) /\ msg_step m (f m)) ->
  messaging_ok d ->
  messaging_ok (set_messages (update_rows p f (messages d)) d) /\
  messaging_le d (set_messages (update_rows p f (messages d)) d).
Proof.
  intros Hid Hf [Ht Hr Hi Hk]. split.
  - split; simpl; try done.
    + by apply table_ok_update.
    + intros m. rewrite elem_of_map_if. intros (m0&Hm0&->).
      destruct (p m0) eqn:E; [apply Hf|]; auto.
  - split; simpl; [|intros; unfold last_read; simpl; lia].
    intros m Hm. exists (if p m then f m else m). split.
    + apply elem_of_map_if. eauto.
    + destruct (p m) eqn:E; [apply Hf; auto|done].
Qed.

Lemma messaging_insert d mk :
  (forall id, Msg_ID (mk id) = id) -> (forall id, msg_ok (mk id)) -> messaging_ok d ->
  messaging_ok (set_messages (insert_row mk (messages d)) d) /\
  messaging_le d (set_messages (insert_row mk (messages d)) d).
Proof.
  intros Hid Hok [Ht Hr Hi Hk]. split.
  - split; simpl; try done.
    + by apply table_ok_insert.
    + intros m. rewrite elem_of_app, list_elem_of_singleton. intros [?| ->]; auto.
  - split; simpl; [|intros; unfold last_read; simpl; lia].
    intros m Hm. exists m. split; [set_solver|done].
Qed.

(** *** Read pointers *)
Lemma inbox_key_eqb a c s :
  String.eqb (Inbox_AgentName s) a && (Inbox_ConversationID s =? c) = true <-> inbox_key s = (a, c).
Proof.
  unfold inbox_key. rewrite andb_true_iff, String.eqb_eq, Z.eqb_eq. naive_solver.
Qed.

Lemma last_read_Some d a c s :
  NoDup (inbox_key <$> rows (inbox_state d)) -> s ∈ rows (inbox_state d) ->
  inbox_key s = (a, c) -> last_read d a c = LastReadMessageID s.
Proof.
  intros Hn Hs Hk. unfold last_read.
  destruct (find_row_is_Some (fun s => String.eqb (Inbox_AgentName s) a &&
     (Inbox_ConversationID s =? c)) (inbox_state d) s Hs) as [s' Hs'].
  { by apply inbox_key_eqb. }
  rewrite Hs'. apply find_row_Some in Hs' as [Hk' Hin]. apply inbox_key_eqb in Hk'.
  f_equal. eapply (NoDup_fmap_unique inbox_key); eauto. congruence.
Qed.

Lemma last_read_None d a c :
  (forall s, s ∈ rows (inbox_state d) -> inbox_key s <> (a, c)) -> last_read d a c = 0.
Proof.
  intros H. unfold last_read. destruct (find_row _ _) as [s|] eqn:E; [|done].
  apply find_row_Some in E as [Hk Hs]. apply inbox_key_eqb in Hk. by apply H in Hs.
Qed.

Lemma last_read_cases d a c :
  (exists s, s ∈ rows (inbox_state d) /\ inbox_key s = (a, c)) \/
  (forall s, s ∈ rows (inbox_state d) -> inbox_key s <> (a, c)).
Proof.
  destruct (find_row (fun s => String.eqb (Inbox_AgentName s) a &&
     (Inbox_ConversationID s =? c)) (inbox_state d)) as [s|] eqn:E.
  - left. apply find_row_Some in E as [Hk Hs]. apply inbox_key_eqb in Hk. eauto.
  - right. intros s Hs Hk. pose proof (find_row_None _ _ E s Hs) as Hf.
    apply inbox_key_eqb in Hk. cbv beta in Hf. congruence.
Qed.

Lemma upsert_inbox_ok a c n t :
  table_ok t -> NoDup (inbox_key <$> rows t) ->
  table_ok (upsert_inbox a c n t) /\ NoDup (inbox_key <$> rows (upsert_inbox a c n t)).
Proof.
  intros Ht Hn. unfold upsert_inbox. destruct (find_row _ t) as [s|] eqn:E; simpl.
  - split; [by apply table_ok_update|]. unfold map_if. rewrite <- list_fmap_compose.
    erewrite list_fmap_ext; [exact Hn|]. intros i s' _. simpl. by destruct (_ && _).
  - split; [by apply table_ok_insert|]. rewrite fmap_app. apply NoDup_app. split_and!.
    + done.
    + intros k Hk. simpl. rewrite list_elem_of_singleton. intros ->.
      apply list_elem_of_fmap in Hk as (s&Hs&Hin). simpl in Hs.
      pose proof (find_row_None _ _ E s Hin) as Hf. symmetry in Hs.
      apply (proj2 (inbox_key_eqb a c s)) in Hs. cbv beta in Hf. congruence.
    + apply NoDup_singleton.
Qed.

(** The pointer after an upsert: the maximum at the key, untouched elsewhere. *)
Lemma upsert_inbox_last_read d a c n a' c' :
  0 <= n -> messaging_ok d ->
  last_read (set_inbox_state (upsert_inbox a c n (inbox_state d)) d) a' c' =
  if bool_decide ((a', c') = (a, c)) then Z.max (last_read d a c) n else last_read d a' c'.
Proof.
  intros Hpos [_ _ Ht Hn]. destruct (upsert_inbox_ok a c n _ Ht Hn) as [_ Hn'].
  set (d' := set_inbox_state _ d).
  assert (forall s, s ∈ rows (inbox_state d') -> inbox_key s = (a', c') ->
            last_read d' a' c' = LastReadMessageID s) as Hlr by (intros; by apply last_read_Some).
  unfold d' in Hlr |- *. clear d'. simpl in Hlr. unfold upsert_inbox in *.
  destruct (find_row _ (inbox_state d)) as [s|] eqn:E.
  - pose proof (find_row_Some _ _ _ E) as [Hks Hs]. pose proof (proj1 (inbox_key_eqb a c s) Hks) as Hk.
    destruct (last_read_cases d a' c') as [(s'&Hs'&Hk')|Hnone].
    + rewrite (last_read_Some d a' c' s') by done. erewrite Hlr.
      2: { simpl. apply elem_of_map_if. exists s'. by split. }
      2: { split_guard; exact Hk'. }
      case_bool_decide as Hd.
      * injection Hd as -> ->. rewrite (proj2 (inbox_key_eqb a c s') Hk').
        by rewrite (last_read_Some d a c s').
      * split_guard; [|done]. apply inbox_key_eqb in Hg. congruence.
    + rewrite bool_decide_false; [|intros Hd; apply (Hnone s); congruence].
      rewrite (last_read_None d) by done. apply last_read_None. simpl.
      intros s'. rewrite elem_of_map_if. intros (s0&Hs0&->) Hk0. apply (Hnone s0 Hs0).
      revert Hk0. by split_guard.
  - assert (forall s, s ∈ rows (inbox_state d) -> inbox_key s <> (a, c)) as Hnone.
    { intros s Hs Hk. pose proof (find_row_None _ _ E s Hs) as Hf.
      apply inbox_key_eqb in Hk. cbv beta in Hf. congruence. }
    case_bool_decide as Hd.
    + injection Hd as -> ->.
      rewrite (Hlr (mkInboxState (next_id (inbox_state d)) a c n)) by (simpl; set_solver || done).
      rewrite last_read_None by done. simpl. lia.
    + destruct (last_read_cases d a' c') as [(s'&Hs'&Hk')|Hnone'].
      * rewrite (last_read_Some d a' c' s') by done. apply Hlr; [simpl; set_solver|done].
      * rewrite (last_read_None d) by done. apply last_read_None. simpl.
        intros s'. rewrite elem_of_app, list_elem_of_singleton. intros [Hs'| ->]; [by apply Hnone'|].
        unfold inbox_key. simpl. congruence.
Qed.

Lemma upsert_inbox_le d a c n :
  0 <= n -> messaging_ok d ->
  messaging_ok (set_inbox_state (upsert_inbox a c n (inbox_state d)) d) /\
  messaging_le d (set_inbox_state (upsert_inbox a c n (inbox_state d)) d).
Proof.
  intros Hpos Hok. pose proof Hok as [Ht Hr Hi Hk].
  destruct (upsert_inbox_ok a c n _ Hi Hk). split; [by split|]. split.
  - intros m Hm. by exists m.
  - intros a' c'. rewrite upsert_inbox_last_read by done. case_bool_decide; simplify_eq; lia.
Qed.

(** ** Every call keeps the invariant, whatever runs between its statements *)
Lemma clock_ok d s : messaging_ok d ->
  messaging_ok (set_clock s d) /\ messaging_le d (set_clock s d).
Proof.
  intros [Ht Hr Hi Hk]. split; [by split|]. split; [|done].
  intros m Hm. by exists m.
Qed.

Lemma tick_ok d d' : messaging_ok d -> tick d d' -> messaging_ok d' /\ messaging_le d d'.
Proof. intros Hok (s&_&->). by apply clock_ok. Qed.

Lemma found_message d id m : find_id id (messages d) = Some m ->
  Msg_ID m = id /\ m ∈ rows (messages d).
Proof. apply find_id_Some. Qed.

(** The row of a message at a later time. *)
Lemma later_message d d' m m' :
  messaging_ok d' -> messaging_le d d' -> m ∈ rows (messages d) -> m' ∈ rows (messages d') ->
  Msg_ID m' = Msg_ID m -> msg_step m m'.
Proof.
  intros Hok [Hle _] Hm Hm' Hid. destruct (Hle m Hm) as (m2&Hm2&Hs).
  destruct (msg_step_id _ _ Hs) as [Hid2 _].
  assert (m' = m2) as ->; [|done].
  eapply (table_ok_unique (messages d')); [apply Hok|done|done|].
  unfold row_id, Message_row. congruence.
Qed.

Section Calls.
Context {HEng : Engine} {HJson : GoJson} {HAtt : AttachmentLinker}.
Abbreviation I := messaging_ok.
Abbreviation R := messaging_le.

Lemma claim_row_step agent now m :
  claimable agent m = true -> msg_ok m ->
  msg_ok (claim_row agent now m) /\ msg_step m (claim_row agent now m).
Proof.
  unfold claimable, opt_is. intros Hc [Hp Hs Hcl]. guards. split.
  - split; simpl; [done|naive_solver|]. intros a [= <-]. done.
  - split; simpl; [done| |].
    + match goal with H : Status m = _ |- _ => rewrite H end. simpl. lia.
    + intros a Ha. destruct Hs as [Hs _]. rewrite Hs in Ha by done. done.
Qed.

Lemma with_status_step st meta now m :
  status_rank st = 2 -> Status m <> StatusPending -> msg_ok m ->
  msg_ok (with_status st meta now m) /\ msg_step m (with_status st meta now m).
Proof.
  intros Hst Hn [Hp Hs Hcl]. split.
  - split; simpl; [done| |done]. split.
    + intros ->. done.
    + intros Hc. by apply Hs in Hc.
  - split; simpl; [done| |done]. destruct (Status m); simpl; lia.
Qed.

(** The message has left the queue in the hands of the agent. *)
Definition finished (id : Z) (agent : string) (d : db) : Prop :=
  exists m, m ∈ rows (messages d) /\ Msg_ID m = id /\ claimed_by m = Some agent /\
            to_agent m = Some agent /\ status_rank (Status m) = 2.

Lemma finished_later id agent d d' : messaging_ok d' -> R d d' -> finished id agent d -> finished id agent d'.
Proof.
  intros Hok [Hle _] (m&Hm&<-&Hc&Ht&Hr). destruct (Hle m Hm) as (m'&Hm'&Hs).
  pose proof (msg_step_id _ _ Hs) as [Hid Hto]. destruct Hs as [_ Hrank Hcl].
  exists m'. split_and!; [done|done|auto|congruence|].
  destruct (Status m'); simpl in *; lia.
Qed.

Lemma rg_UpdateMessageStatus id st agent meta d0 :
  status_rank st = 2 ->
  rg I R (UpdateMessageStatus id st agent meta)
    (fun o d => o = Ok tt -> finished id agent d) d0.
Proof.
  intros Hst. apply rg_exec_o. intros d HR HI.
  destruct (messaging_update d (fun m => by_id id m && opt_is (claimed_by m) agent)
              (with_status st meta (clock d))) as [HI' HR']; [done| |done|].
  { intros m Hm Hk Hok. unfold opt_is in Hk. guards. apply with_status_step; [done| |done].
    intros Hp. apply (mo_pending m Hok) in Hp. congruence. }
  split_and!; [done|done| |done].
  intros d' Hd' HI2 Hok. destruct (_ =? 0) eqn:E in Hok; [done|]. clear Hok. guards.
  eapply finished_later; [done|exact Hd'|].
  destruct (affected_id_pos (messages d) id (fun m => opt_is (claimed_by m) agent)) as [?|(m&Hm&Hid&Hc)]; [done|].
  unfold opt_is in Hc. guards.
  exists (with_status st meta (clock d) m). simpl. split_and!; try done.
  - apply elem_of_map_if. exists m. split; [done|]. unfold by_id, opt_is.
    rewrite Hid, Z.eqb_refl, bool_decide_true by done. done.
  - eapply mo_claimant; [|done]. by apply (mk_rows d HI).
Qed.

Lemma rg_GetMessageByID id d0 (Q : outcome error Message -> db -> Prop) :
  (forall o d, R d0 d -> I d -> (forall m, o = Ok m -> Msg_ID m = id) -> Q o d) ->
  I d0 -> rg I R (GetMessageByID id) Q d0.
Proof.
  intros HQ HI0. unfold GetMessageByID. apply rg_bind; [apply _|done|].
  apply rg_query_o; [apply _|]. intros d d' Hd0 HI Hd1 HI'.
  split; [|simpl; intros; apply HQ; [by do 2 etrans|done|done]].
  destruct (find_id id (messages d)) as [m|] eqn:E; simpl; intros d2 Hd2 HI2.
  - apply HQ; [by do 2 etrans|done|]. intros ? [= <-]. by apply found_message in E as [? _].
  - apply HQ; [by do 2 etrans|done|done].
Qed.

Lemma rg_MarkDone id agent d0 :
  I d0 -> rg I R (MarkDone id agent) (fun o d => o = Ok tt -> finished id agent d) d0.
Proof.
  intros HI. unfold MarkDone. apply rg_bind_ok; [apply _|done|].
  apply rg_GetMessageByID; [|done]. intros [m|e|w] d HR HI' _; [|done|done].
  destruct (claim_guard id agent m); [done|]. by apply rg_UpdateMessageStatus.
Qed.

Lemma rg_MarkFailed id agent reason d0 :
  I d0 -> rg I R (MarkFailed id agent reason) (fun o d => o = Ok tt -> finished id agent d) d0.
Proof.
  intros HI. unfold MarkFailed. apply rg_bind_ok; [apply _|done|].
  apply rg_GetMessageByID; [|done]. intros [m|e|w] d HR HI' _; [|done|done].
  destruct (claim_guard id agent m); [done|].
  destruct (unmarshal_map (Metadata m)); [by apply rg_UpdateMessageStatus|done|by apply rg_UpdateMessageStatus].
Qed.

(** *** Claiming *)
Definition addressed (agent : string) (ids : list Z) (d : db) : Prop :=
  forall id, id ∈ ids -> exists m, m ∈ rows (messages d) /\ Msg_ID m = id /\ to_agent m = Some agent.

Definition claimed (agent : string) (ids : list Z) (d : db) : Prop :=
  forall id, id ∈ ids -> exists m, m ∈ rows (messages d) /\ Msg_ID m = id /\
    to_agent m = Some agent /\ claimed_by m = Some agent.

(** What a claim returns: the agent's own messages, claimed by it. *)
Definition claim_result (agent : string) (ms : list Message) (d : db) : Prop :=
  forall m, m ∈ ms -> to_agent m = Some agent /\ claimed_by m = Some agent /\
    Status m <> StatusPending /\ exists m', m' ∈ rows (messages d) /\ msg_step m m'.

Lemma addressed_later agent ids d d' : R d d' -> addressed agent ids d -> addressed agent ids d'.
Proof.
  intros [Hle _] H id Hid. destruct (H id Hid) as (m&Hm&Hi&Ht).
  destruct (Hle m Hm) as (m'&Hm'&Hs). pose proof (msg_step_id _ _ Hs) as [? ?].
  exists m'. split_and!; [done|congruence|congruence].
Qed.

Lemma claimed_later agent ids d d' : R d d' -> claimed agent ids d -> claimed agent ids d'.
Proof.
  intros [Hle _] H id Hid. destruct (H id Hid) as (m&Hm&Hi&Ht&Hc).
  destruct (Hle m Hm) as (m'&Hm'&Hs). pose proof (msg_step_id _ _ Hs) as [? ?].
  exists m'. split_and!; [done|congruence|congruence|by apply Hs].
Qed.

Lemma claim_result_later agent ms d d' : R d d' -> claim_result agent ms d -> claim_result agent ms d'.
Proof.
  intros [Hle _] H m Hm. destruct (H m Hm) as (?&?&?&m1&Hm1&Hs).
  destruct (Hle m1 Hm1) as (m2&?&?). split_and!; [done|done|done|].
  exists m2. split; [done|by etrans].
Qed.

Lemma claim_update_claims agent ids d :
  I d -> addressed agent ids d ->
  let d' := set_messages (update_rows (fun m => in_ids ids m && bool_decide (Status m = StatusPending))
              (claim_row agent (clock d)) (messages d)) d in
  I d' /\ R d d' /\ claimed agent ids d'.
Proof.
  intros HI Ha. destruct (messaging_update d
    (fun m => in_ids ids m && bool_decide (Status m = StatusPending))
    (claim_row agent (clock d))) as [HI' HR']; [done| |done|split_and!; [done|done|]].
  - intros m Hm Hk Hok. unfold in_ids in Hk. guards. apply claim_row_step; [|done].
    destruct (Ha (Msg_ID m)) as (m0&Hm0&Hid&Hto); [done|].
    assert (m0 = m) as -> by (eapply (table_ok_unique (messages d)); [apply HI|done..]).
    unfold claimable, opt_is. rewrite !bool_decide_true by done. done.
  - intros id Hid. destruct (Ha id Hid) as (m&Hm&<-&Hto).
    exists (if in_ids ids m && bool_decide (Status m = StatusPending)
            then claim_row agent (clock d) m else m).
    split; [apply elem_of_map_if; by exists m|].
    unfold in_ids. rewrite bool_decide_true by done. simpl.
    destruct (bool_decide _) eqn:E; [done|]. guards.
    split_and!; [done|done|]. pose proof (mk_rows d HI m Hm) as [_ Hp Hc].
    destruct (claimed_by m) as [a|] eqn:Ec; [|by destruct E; apply Hp].
    rewrite <- Hto. symmetry. by apply Hc.
Qed.

Lemma rg_ClaimMessages agent limit d0 :
  I d0 -> rg I R (ClaimMessages agent limit)
    (fun o d => forall ms, o = Ok ms -> claim_result agent ms d) d0.
Proof.
  intros HI0. unfold ClaimMessages, store_ClaimMessages.
  apply rg_bind_ok; [apply _|done|]. apply rg_query; [apply _|].
  intros d d' _ HI Hd' HI'. split; [|done].
  set (ids := Msg_ID <$> _). assert (addressed agent ids d') as Ha.
  { eapply addressed_later; [exact Hd'|]. intros id Hid.
    apply list_elem_of_fmap in Hid as (m&->&Hm). apply elem_of_page, elem_of_select_by in Hm as [Hc Hm].
    unfold claimable, opt_is in Hc. guards. by exists m. }
  clearbody ids. destruct ids as [|i ids'] eqn:Eids.
  { simpl. intros d2 _ _ ms [= <-] m Hm. set_solver. }
  rewrite <- Eids in *. clear Eids.
  apply rg_bind_ok; [apply _|done|]. apply rg_exec. intros d2 Hd2 HI2.
  pose proof (claim_update_claims agent ids d2 HI2 (addressed_later _ _ _ _ Hd2 Ha)) as (HI3&HR3&Hc3).
  split_and!; [done|done| |done]. intros d4 Hd4 HI4.
  apply rg_query; [apply _|]. intros d5 d6 Hd5 HI5 Hd6 HI6. split; [|done].
  intros ms [= <-]. eapply claim_result_later; [exact Hd6|].
  intros m Hm. apply elem_of_select_by in Hm as [Hin Hm]. unfold in_ids in Hin. guards.
  assert (claimed agent ids d5) as Hc5 by (eapply claimed_later; [|exact Hc3]; by etrans).
  destruct (Hc5 (Msg_ID m)) as (m0&Hm0&Hid&Hto&Hcl); [done|].
  assert (m0 = m) as -> by (eapply (table_ok_unique (messages d5)); [apply HI5|done..]).
  split_and!; [done|done| |by exists m].
  intros Hp. apply (mk_rows d5 HI5 m Hm) in Hp. congruence.
Qed.

(** *** Sending *)
Lemma same_messaging_step d d' : I d -> same_messaging d d' -> I d' /\ R d d'.
Proof. intros HI H. split; [by eapply same_messaging_ok|by apply same_messaging_le]. Qed.

Lemma message_row_ok msg now id :
  priority_in_range (Priority msg) = true -> Status msg = StatusPending -> msg_ok (message_row msg now id).
Proof. unfold priority_in_range. intros Hp Hs. guards. split; simpl; [lia|done|done]. Qed.

(** A message of this content is in the table. *)
Definition delivered (from : string) (to : option string) (body : string) (id : Z) (d : db) : Prop :=
  exists m, m ∈ rows (messages d) /\ Msg_ID m = id /\ FromAgent m = from /\ to_agent m = to /\ Body m = body.

Lemma delivered_later from to body id d d' : R d d' -> delivered from to body id d -> delivered from to body id d'.
Proof.
  intros [Hle _] (m&Hm&?&?&?&?). destruct (Hle m Hm) as (m'&Hm'&[Hs _ _]).
  exists m'. simplify_eq. by split_and!.
Qed.

Lemma rg_InsertMessage msg d0 :
  Status msg = StatusPending ->
  rg I R (InsertMessage msg) (fun o d => forall m, o = Ok m ->
    delivered (FromAgent msg) (to_agent msg) (Body msg) (Msg_ID m) d) d0.
Proof.
  intros Hs. apply rg_exec_o. intros d _ HI. cbv beta.
  destruct (priority_in_range (Priority msg)) eqn:Hp.
  2: { split_and!; [done|reflexivity|done|done]. }
  destruct (messaging_insert d (message_row msg (clock d))) as [HI' HR']; [done| |done|].
  { intros id. by apply message_row_ok. }
  split_and!; [done|done| |done]. intros d' Hd' _ m [= <-]. simpl.
  eapply delivered_later; [exact Hd'|]. exists (message_row msg (clock d) (next_id (messages d))).
  simpl. split_and!; try done. set_solver.
Qed.

Lemma rg_InsertConversation conv d0 :
  rg I R (InsertConversation conv) (fun _ _ => True) d0.
Proof.
  apply rg_exec. intros d _ HI. split_and!; [by destruct HI; split| |done|done].
  split; [|done]. intros m Hm. by exists m.
Qed.

Lemma rg_send_check_recipient to d0 : I d0 -> rg I R (send_check_recipient to) (fun _ _ => True) d0.
Proof. intros HI. unfold send_check_recipient. split_guard; [done|]. rg_reads; by split_guard. Qed.

Lemma rg_send_find_conversation from to opts d0 :
  I d0 -> rg I R (send_find_conversation from to opts) (fun _ _ => True) d0.
Proof.
  intros HI. unfold send_find_conversation. destruct (so_ConversationID opts).
  - rg_reads; by destruct (find_id _ _).
  - split_guard; [|done]. rg_reads. by destruct (select_by _ _ _).
Qed.

Lemma rg_send_link_attachments opts msg d0 :
  I d0 -> rg I R (send_link_attachments opts msg) (fun _ d => R d0 d) d0.
Proof.
  intros HI. apply rg_for_each; [apply _|done| |done]. intros hash d _ _ HId.
  apply rg_bind; [apply _|done|]. apply rg_mono with (Q := fun _ _ => True); [done|].
  eapply within_rg; [apply same_messaging_step|apply AttachToMessage_frame].
Qed.

Lemma rg_send_persist from to body opts priority metadata d0 :
  I d0 -> rg I R (send_persist from to body opts priority metadata)
    (fun o d => forall m, o = Ok m -> delivered from (nullable to) body (Msg_ID m) d) d0.
Proof.
  intros HI. unfold send_persist.
  rg_next (rg_send_check_recipient to). intros _ d HId _.
  rg_next (rg_send_find_conversation from to opts). intros found d1 HI1 _.
  apply rg_bind_ok; [apply _|done|].
  apply rg_mono with (Q := fun _ _ => True).
  2: { destruct found; [done|apply rg_InsertConversation]. }
  intros [conv|?|?] d2 HI2 _; [|done|done].
  apply rg_bind_ok; [apply _|done|]. eapply rg_mono; [|by apply rg_InsertMessage].
  intros [m|?|?] d3 HI3 Hd; [|done|done].
  apply rg_bind; [apply _|done|]. eapply rg_mono; [|by apply rg_send_link_attachments].
  intros a d4 _ Hd4 d5 Hd5 _ m' [= <-]. simpl in Hd4. eapply delivered_later; [|by apply Hd]. by etrans.
Qed.

Lemma rg_SendMessage from to body opts d0 :
  I d0 -> rg I R (SendMessage from to body opts)
    (fun o d => forall m, o = Ok m -> delivered from (nullable to) body (Msg_ID m) d) d0.
Proof.
  intros HI. unfold SendMessage. repeat (split_guard; [done|]).
  destruct (so_Metadata opts); [by apply rg_send_persist..|done].
Qed.

(** *** Reading *)
Lemma conversationMaxID_snoc ms m :
  conversationMaxID (ms ++ [m]) =
  if default 0 (conversationMaxID ms !! Msg_ConversationID m) <? Msg_ID m
  then <[Msg_ConversationID m := Msg_ID m]> (conversationMaxID ms) else conversationMaxID ms.
Proof. unfold conversationMaxID. by rewrite foldl_app. Qed.

(** The map holds, per conversation, the largest id returned. *)
Lemma conversationMaxID_max ms c :
  match conversationMaxID ms !! c with
  | Some v => 0 < v /\ exists m, m ∈ ms /\ Msg_ConversationID m = c /\ Msg_ID m = v
  | None => True
  end /\
  forall m, m ∈ ms -> Msg_ConversationID m = c -> Msg_ID m <= default 0 (conversationMaxID ms !! c).
Proof.
  induction ms as [|m ms [IH1 IH2]] using rev_ind; [by split; [|set_solver]|].
  rewrite conversationMaxID_snoc. destruct (Z.ltb_spec (default 0 (conversationMaxID ms !! Msg_ConversationID m)) (Msg_ID m)) as [Hlt|Hge].
  - destruct (decide (Msg_ConversationID m = c)) as [<-|Hne].
    + rewrite lookup_insert_eq. simpl. split.
      * split; [destruct (conversationMaxID ms !! _); simpl in *; lia|]. exists m. set_solver.
      * intros m'. rewrite elem_of_app, list_elem_of_singleton. intros [Hm'| ->] Hc; [|lia].
        specialize (IH2 m' Hm' Hc). lia.
    + rewrite lookup_insert_ne by done. split.
      * destruct (conversationMaxID ms !! c); [|done]. destruct IH1 as (?&m'&?&?&?).
        split; [done|]. exists m'. set_solver.
      * intros m'. rewrite elem_of_app, list_elem_of_singleton. intros [Hm'| ->] Hc; [auto|done].
  - split.
    + destruct (conversationMaxID ms !! c); [|done]. destruct IH1 as (?&m'&?&?&?).
      split; [done|]. exists m'. set_solver.
    + intros m'. rewrite elem_of_app, list_elem_of_singleton. intros [Hm'| ->] Hc; [auto|].
      rewrite <- Hc. lia.
Qed.

Lemma conversationMaxID_nonneg ms c v : conversationMaxID ms !! c = Some v -> 0 <= v.
Proof. intros H. destruct (conversationMaxID_max ms c) as [H1 _]. rewrite H in H1. lia. Qed.

Lemma rg_UpdateInboxState agent c n d0 (Q : outcome error unit -> db -> Prop) :
  0 <= n -> (forall o d, Q o d) -> rg I R (UpdateInboxState agent c n) Q d0.
Proof.
  intros Hn HQ. apply rg_exec. intros d _ HI.
  destruct (upsert_inbox_le d agent c n Hn HI). split_and!; auto.
Qed.

Lemma rg_ReadInbox agent opts d0 :
  I d0 -> rg I R (ReadInbox agent opts)
    (fun o d => forall p, o = Ok p -> forall m, m ∈ pm_Messages p ->
       to_agent m = Some agent /\ exists m', m' ∈ rows (messages d) /\ msg_step m m') d0.
Proof.
  intros HI0. unfold ReadInbox. apply rg_bind_ok; [apply _|done|].
  apply rg_query; [apply _|]. intros d d1 _ HI Hd1 HI1. split; [|done].
  apply rg_bind_ok; [apply _|done|]. apply rg_query; [apply _|].
  intros d2 d3 Hd2 HI2 Hd3 HI3. split; [|done].
  apply rg_bind; [apply _|done|]. apply rg_mono with (Q := fun _ d' => R d d').
  - intros [] d4 HI4 Hd4 d5 Hd5 HI5 p [= <-] m Hm. simpl in Hm.
    apply elem_of_page, elem_of_select_by in Hm as [Hc Hm]. split.
    + unfold buildInboxConditions, opt_is in Hc. by guards.
    + assert (R d d5) as [Hle _] by (by etrans). destruct (Hle m Hm) as (m'&?&?). eauto.
  - split_guard; [|intros d4 Hd4 _; by do 3 (etrans; [eassumption|])].
    apply rg_for_each; [apply _|done| |intros d4 Hd4 _; by do 3 (etrans; [eassumption|])].
    intros [c v] d4 Hx Hd4 HI4. apply rg_bind; [apply _|done|].
    apply rg_UpdateInboxState; [|done]. rewrite scan_perm in Hx.
    apply elem_of_map_to_list in Hx. by eapply conversationMaxID_nonneg.
Qed.

(** *** Failing timed-out claims *)
Lemma rg_fail_each cutoff ids count d0 :
  I d0 -> rg I R (fail_each cutoff ids count) (fun n _ => count <= n) d0.
Proof.
  revert count d0. induction ids as [|id ids IH]; intros count d0 HI; simpl; [done|].
  intros d Hd HId.
  destruct (messaging_update d (fun m => by_id id m && bool_decide (Status m = StatusProcessing) &&
               match ClaimedAt m with Some t => t <? cutoff | None => false end)
              (with_status StatusFailed (Some timeout_meta) (clock d))) as [HI' HR']; [done| |done|].
  { intros m Hm Hk Hok. guards. apply with_status_step; [done|congruence|done]. }
  split_and!; [done|done| |by apply IH].
  eapply rg_mono; [|by apply IH]. simpl. intros n d2 _. split_guard; lia.
Qed.

Lemma rg_failTimedOutProcessing timeout d0 :
  I d0 -> rg I R (failTimedOutProcessing timeout) (fun n _ => 0 <= n) d0.
Proof.
  intros HI0. unfold failTimedOutProcessing. intros d Hd HI. simpl.
  intros d1 Hd1 HI1. split_and!; [done|reflexivity| |done]. by apply rg_fail_each.
Qed.
End Calls.

(** ** Concurrent messaging *)
Section Pools.
Context {HEng : Engine} {HJson : GoJson} {HAtt : AttachmentLinker}.

(** The calls that change messages or read pointers. *)
Inductive msg_call :=
| CallSend (from to body : string) (opts : SendOptions)
| CallRead (agent : string) (opts : ReadOptions)
| CallClaim (agent : string) (limit : Z)
| CallDone (id : Z) (agent : string)
| CallFail (id : Z) (agent reason : string)
| CallStalemate (timeout : Z).

Inductive msg_answer :=
| AnsMessage (o : outcome error Message)
| AnsPage (o : outcome error PaginatedMessages)
| AnsClaimed (o : outcome error (list Message))
| AnsUnit (o : outcome error unit)
| AnsCount (n : Z).

Definition call_prog (c : msg_call) : prog db msg_answer :=
  match c with
  | CallSend from to body opts => let! o := SendMessage from to body opts in Ret (AnsMessage o)
  | CallRead agent opts => let! o := ReadInbox agent opts in Ret (AnsPage o)
  | CallClaim agent limit => let! o := ClaimMessages agent limit in Ret (AnsClaimed o)
  | CallDone id agent => let! o := MarkDone id agent in Ret (AnsUnit o)
  | CallFail id agent reason => let! o := MarkFailed id agent reason in Ret (AnsUnit o)
  | CallStalemate timeout => let! n := failTimedOutProcessing timeout in Ret (AnsCount n)
  end.

(** What a successful answer promises about the database from then on. *)
Definition answer_ok (c : msg_call) (a : msg_answer) (d : db) : Prop :=
  match c, a with
  | CallSend from to body _, AnsMessage (Ok m) => delivered from (nullable to) body (Msg_ID m) d
  | CallRead agent _, AnsPage (Ok p) => forall m, m ∈ pm_Messages p ->
      to_agent m = Some agent /\ exists m', m' ∈ rows (messages d) /\ msg_step m m'
  | CallClaim agent _, AnsClaimed (Ok ms) => claim_result agent ms d
  | CallDone id agent, AnsUnit (Ok tt) => finished id agent d
  | CallFail id agent _, AnsUnit (Ok tt) => finished id agent d
  | _, _ => True
  end.

Lemma answer_ok_later c a d d' : messaging_ok d' -> messaging_le d d' -> answer_ok c a d -> answer_ok c a d'.
Proof.
  intros HI HR. destruct c, a as [[]|[]|[]|[[]| |]|]; simpl; auto.
  - by apply delivered_later.
  - intros H m Hm. destruct (H m Hm) as (?&m1&Hm1&?). split; [done|].
    destruct HR as [Hle _]. destruct (Hle m1 Hm1) as (m2&?&?). exists m2. split; [done|by etrans].
  - by apply claim_result_later.
  - by apply finished_later.
  - by apply finished_later.
Qed.

(** A call whose own lemma gives its answer, which later states keep. *)
Ltac answered lem :=
  eapply rg_mono; [|by apply lem];
  let o := fresh "o" in let H := fresh "H" in let Hd := fresh "Hd" in
  intros o ? ? H ? Hd ?; eapply answer_ok_later; [done|exact Hd|];
  cbv beta in H; destruct o as [[]| |]; simpl; solve [exact I | exact (H _ eq_refl) | exact (H eq_refl)].

Lemma rg_call c d : messaging_ok d ->
  rg messaging_ok messaging_le (call_prog c) (fun a d' => answer_ok c a d') d.
Proof.
  intros HI. destruct c; cbv beta iota delta [call_prog]; (apply rg_bind; [apply _|done|]).
  - answered rg_SendMessage.
  - answered rg_ReadInbox.
  - answered rg_ClaimMessages.
  - answered rg_MarkDone.
  - answered rg_MarkFailed.
  - eapply rg_mono; [|by apply rg_failTimedOutProcessing]. done.
Qed.

Lemma call_pool_lookup (cs : list msg_call) (i : nat) p : (call_prog <$> cs) !! i = Some p -> exists c, cs !! i = Some c /\ p = call_prog c.
Proof. rewrite list_lookup_fmap. destruct (cs !! i); naive_solver. Qed.

(** C1. Any number of concurrent sends, reads, claims, completions, failures
    and stalemate sweeps, interleaved statement by statement with any of them
    failing anywhere: the tables stay well formed; no message disappears,
    changes what was sent, goes back in its life cycle or passes from one
    claimant to another; no read pointer moves back; and every call that
    succeeded told the truth (the message was delivered, the messages claimed
    are the agent's, the message is finished). *)
Theorem messaging_history (cs : list msg_call) (d : db) (ps : list (prog db msg_answer)) (d' : db)
    (Hinit : messaging_ok d)
    (Hrun : rtc (pool_step tick) (call_prog <$> cs, d) (ps, d')) :
  messaging_ok d' /\ messaging_le d d' /\
  (forall i c a, cs !! i = Some c -> ps !! i = Some (Ret a) -> answer_ok c a d').
Proof.
  destruct (pool_invariant messaging_ok messaging_le tick tick_ok (call_prog <$> cs) ps
    (fun i a d2 => forall c, cs !! i = Some c -> answer_ok c a d2) d d') as (HI&HR&HQ).
  - intros i p Hp. apply call_pool_lookup in Hp as (c&Hc&->).
    eapply rg_mono; [|by apply rg_call]. simpl. intros a d2 _ Ha c' Hc'. by simplify_eq.
  - done.
  - done.
  - split_and!; [done|done|]. intros i c a Hc Ha. by eapply HQ.
Qed.
End Pools.
