(* ===== verification/MessagingSpec.v ===== *)
(** * Messaging: what one call does, and what it does not promise

    The sequential behaviour of the service methods, under every failure
    schedule ([wp]) or with none ([run_ok]), and concrete runs that show the
    limits of the code's guarantees. *)
From S2P Require Import Prelude Prog Table Schema Messaging MessagingFacts.

Section Spec.
Context {HEng : Engine} {HJson : GoJson} {HAtt : AttachmentLinker}.

(** ** Sending *)
Definition effective_priority (opts : SendOptions) : Z :=
  if so_Priority opts =? 0 then 5 else so_Priority opts.
Definition effective_metadata (opts : SendOptions) : rawjson :=
  match so_Metadata opts with RawEmpty => raw_empty_object | r => r end.

(** The inputs SendMessage accepts before it looks at the database. *)
Definition send_input_ok (to body : string) (opts : SendOptions) : Prop :=
  is_blank body = false /\
  (str_empty to = true <-> so_ChannelID opts <> None) /\
  1 <= effective_priority opts <= 10 /\
  (forall s, so_Metadata opts <> RawInvalid s).

Lemma send_cases from to body opts :
  (send_input_ok to body opts /\
   SendMessage from to body opts =
     send_persist from to body opts (effective_priority opts) (effective_metadata opts)) \/
  (~ send_input_ok to body opts /\ exists e, SendMessage from to body opts = Ret (Err e)).
Proof.
  unfold SendMessage, send_input_ok, effective_priority, effective_metadata.
  destruct (is_blank body); [right; split; [by intros [? _]|eauto]|].
  destruct (str_empty to) eqn:Et; destruct (so_ChannelID opts) as [c|] eqn:Ec; simpl.
  2, 3: right; split; [intros (_&Hc&_); naive_solver|eauto].
  all: destruct ((_ <? 1) || (10 <? _)) eqn:Ep;
    [right; split; [intros (_&_&Hp&_); apply orb_true_iff in Ep as [Ep|Ep]; guards; lia|eauto]|guards].
  all: destruct (so_Metadata opts) eqn:Em;
    [left|left|right; split; [intros (_&_&_&Hm); by eapply Hm|eauto]].
  all: split_and!; try done; try lia.
Qed.

Lemma wp_send_check_recipient to d :
  wp (send_check_recipient to) (fun _ d' => d' = d) d.
Proof. unfold send_check_recipient. repeat wp_step; done. Qed.

Lemma wp_send_find_conversation from to opts d :
  wp (send_find_conversation from to opts) (fun _ d' => d' = d) d.
Proof. unfold send_find_conversation. repeat wp_step; done. Qed.

Lemma wp_send_ensure_conversation from opts found d :
  wp (send_ensure_conversation from opts found)
    (fun _ d' => messages d' = messages d /\ clock d' = clock d) d.
Proof. unfold send_ensure_conversation. repeat wp_step; done. Qed.

Lemma wp_send_link_attachments opts msg d :
  wp (send_link_attachments opts msg) (fun _ d' => same_messaging d d') d.
Proof.
  apply within_wp; [apply _|]. apply within_for_each. intros hash.
  apply within_bind; [apply AttachToMessage_frame|done].
Qed.

(** The message table after SendMessage returns [o]: one new pending row on
    success, unchanged otherwise. *)
Definition send_effect (from to body : string) (opts : SendOptions) (d : db)
    (o : outcome error Message) (d' : db) : Prop :=
  match o with
  | Ok m => exists conv,
      messages d' = insert_row (message_row (new_message from to body opts
         (effective_priority opts) (effective_metadata opts) conv) (clock d)) (messages d) /\
      Msg_ID m = next_id (messages d)
  | _ => messages d' = messages d
  end.

Lemma wp_send_persist from to body opts d :
  wp (send_persist from to body opts (effective_priority opts) (effective_metadata opts))
    (send_effect from to body opts d) d.
Proof.
  unfold send_persist.
  apply wp_bind_ok. eapply wp_mono; [|apply wp_send_check_recipient]. intros [[]|?|?] d1 ->; [|done..].
  apply wp_bind_ok. eapply wp_mono; [|apply wp_send_find_conversation]. intros [found|?|?] d1 ->; [|done..].
  apply wp_bind_ok. eapply wp_mono; [|apply wp_send_ensure_conversation].
  intros [conv|?|?] d1 [Hm1 Hc1]; [|done..].
  apply wp_bind_ok. unfold InsertMessage. simpl. split; [|done].
  destruct (priority_in_range _); [|done]. apply wp_bind.
  eapply wp_mono; [|apply wp_send_link_attachments]. intros _ d2 (Hm2&_). simpl in *.
  exists conv. by rewrite Hm2, Hm1, Hc1.
Qed.

Lemma wp_SendMessage from to body opts d :
  wp (SendMessage from to body opts) (fun o d' =>
    send_effect from to body opts d o d' /\ (is_ok o = true -> send_input_ok to body opts)) d.
Proof.
  destruct (send_cases from to body opts) as [[Hv ->]|[Hv [e ->]]]; [|done].
  eapply wp_mono; [|apply wp_send_persist]. auto.
Qed.

(** SendMessage, whatever fails on the way, either returns a message and
    has appended exactly one row (pending, unclaimed, of the validated
    priority and metadata, with the id it returns), or returns an error and
    the message table is what it was; and it accepts nothing its validation
    rejects. *)
Theorem send_message_effect from to body opts d :
  wp (SendMessage from to body opts) (fun o d' =>
    send_effect from to body opts d o d' /\ (is_ok o = true -> send_input_ok to body opts)) d.
Proof. apply wp_SendMessage. Qed.

(** ** Peeking *)

(** Without [MarkRead], ReadInbox never changes the database, whatever
    the filters, the page and the failures. *)
Theorem read_inbox_peek agent opts d (Hpeek : MarkRead opts = false) :
  wp (ReadInbox agent opts) (fun _ d' => d' = d) d.
Proof. unfold ReadInbox. rewrite Hpeek. repeat wp_step; done. Qed.

(** ** Done and failed *)
Definition only_status_changed (id : Z) (st : MsgStatus) (agent : string) (d d' : db) : Prop :=
  exists m meta, find_id id (messages d) = Some m /\ Status m = StatusProcessing /\
    claimed_by m = Some agent /\
    d' = set_messages (update_rows (fun x => by_id id x && opt_is (claimed_by x) agent)
           (with_status st meta (clock d)) (messages d)) d.

Lemma claim_guard_None id agent m :
  agent <> "" -> claim_guard id agent m = None ->
  Status m = StatusProcessing /\ claimed_by m = Some agent.
Proof.
  unfold claim_guard. intros Ha. repeat (split_guard; [done|]). intros _. guards.
  split; [done|]. destruct (claimed_by m) as [a|]; simpl in *; congruence.
Qed.

Lemma wp_GetMessageByID id d (Q : outcome error Message -> db -> Prop) :
  Q (Err EDb) d ->
  match find_id id (messages d) with
  | Some m => Q (Ok m) d
  | None => Q (Err (EMessageNotFound id)) d
  end -> wp (GetMessageByID id) Q d.
Proof. intros H1 H2. unfold GetMessageByID. simpl. split; [|done]. by destruct (find_id id (messages d)). Qed.

Lemma wp_finish id st agent meta m d :
  agent <> "" -> find_id id (messages d) = Some m -> claim_guard id agent m = None ->
  wp (UpdateMessageStatus id st agent meta)
    (fun o d' => match o with Ok _ => only_status_changed id st agent d d'
                  | Err _ => d' = d | Panic _ => False end) d.
Proof.
  intros Ha Hf Hg. destruct (claim_guard_None _ _ _ Ha Hg) as [Hs Hc].
  unfold UpdateMessageStatus. cbn [wp exec_o]. split; [|done].
  destruct (_ =? 0) eqn:E; [|by exists m, meta].
  guards. rewrite update_rows_none by done. by destruct d.
Qed.

(** MarkDone succeeds only for a message in processing status claimed by
    the caller, then changes the status of that message to done and nothing
    else; on any error the database is untouched. *)
Theorem mark_done_effect id agent d (Hagent : agent <> "") :
  wp (MarkDone id agent) (fun o d' =>
    match o with Ok _ => only_status_changed id StatusDone agent d d' | _ => d' = d end) d.
Proof.
  unfold MarkDone. apply wp_bind_ok. apply wp_GetMessageByID; [done|].
  destruct (find_id id (messages d)) as [m|] eqn:Hf; [|done].
  destruct (claim_guard id agent m) eqn:Hg; [done|].
  eapply wp_mono; [|by eapply wp_finish]. by intros [?|?|?] d' Hd'.
Qed.

(** MarkFailed has the same guard and effect with status failed, or
    panics without touching the database; it panics only for a message whose
    metadata is the JSON value null. *)
Theorem mark_failed_effect id agent reason d (Hagent : agent <> "") :
  wp (MarkFailed id agent reason) (fun o d' =>
    match o with
    | Ok _ => only_status_changed id StatusFailed agent d d'
    | Err _ => d' = d
    | Panic _ => d' = d /\ exists m, find_id id (messages d) = Some m /\ Metadata m = RawJson JNull
    end) d.
Proof.
  unfold MarkFailed. apply wp_bind_ok. apply wp_GetMessageByID; [done|].
  destruct (find_id id (messages d)) as [m|] eqn:Hf; [|done].
  destruct (claim_guard id agent m) eqn:Hg; [done|].
  destruct (unmarshal_map (Metadata m)) eqn:Hu.
  - eapply wp_mono; [|by eapply wp_finish]. by intros [?|?|?] d' Hd'.
  - split; [done|]. exists m. split; [done|]. revert Hu. unfold unmarshal_map.
    destruct (Metadata m) as [|[]|]; try done. by destruct (json_recode _) as [[]|].
  - eapply wp_mono; [|by eapply wp_finish]. by intros [?|?|?] d' Hd'.
Qed.
End Spec.

(** ** Claiming, one call at a time *)
Section Claiming.
Context {HEng : Engine}.

(** The ids a claim picks: the first [limit] of the agent's pending messages
    by priority, then age. *)
Definition claim_picks (agent : string) (limit : Z) (d : db) : list Z :=
  Msg_ID <$> page (default_limit 10 limit) 0 (select_by queue_order (claimable agent) (messages d)).

Lemma default_limit_idem n l : 0 < n -> default_limit n (default_limit n l) = default_limit n l.
Proof.
  intros Hn. pose proof (default_limit_pos n l Hn). unfold default_limit at 1.
  destruct (Z.leb_spec (default_limit n l) 0); lia.
Qed.

Definition claimed_table (agent : string) (ids : list Z) (d : db) : table Message :=
  update_rows (fun m => in_ids ids m && bool_decide (Status m = StatusPending))
    (claim_row agent (clock d)) (messages d).

Lemma run_ClaimMessages agent limit d :
  run_ok (ClaimMessages agent limit) d =
  match claim_picks agent limit d with
  | [] => (Ok [], d)
  | ids => let t := claimed_table agent ids d in
           (Ok (select_by queue_order (in_ids ids) t), set_messages t d)
  end.
Proof.
  unfold ClaimMessages, store_ClaimMessages. rewrite run_ok_bind_ok. unfold run_ok. simpl.
  rewrite default_limit_idem by lia. fold (claim_picks agent limit d).
  by destruct (claim_picks agent limit d).
Qed.

Lemma claim_picks_pending agent limit d id :
  id ∈ claim_picks agent limit d -> exists m, m ∈ rows (messages d) /\ Msg_ID m = id /\
    to_agent m = Some agent /\ Status m = StatusPending.
Proof.
  unfold claim_picks. intros Hid. apply list_elem_of_fmap in Hid as (m&->&Hm).
  apply elem_of_page, elem_of_select_by in Hm as [Hc Hm]. exists m.
  unfold claimable, opt_is in Hc. guards. done.
Qed.

Section Picked.
Context (agent : string) (ids : list Z) (d : db) (Hok : messaging_ok d).
Context (Hpick : forall id, id ∈ ids -> exists m, m ∈ rows (messages d) /\ Msg_ID m = id /\
  to_agent m = Some agent /\ Status m = StatusPending).

Lemma claimed_table_ids : Msg_ID <$> rows (claimed_table agent ids d) = Msg_ID <$> rows (messages d).
Proof. by apply map_if_ids. Qed.

Lemma claimed_table_rows m :
  m ∈ rows (claimed_table agent ids d) -> Msg_ID m ∈ ids ->
  to_agent m = Some agent /\ Status m = StatusProcessing /\ claimed_by m = Some agent /\
  ClaimedAt m = Some (clock d).
Proof.
  intros Hm Hin. apply elem_of_map_if in Hm as (m0&Hm0&->).
  assert (Msg_ID m0 ∈ ids) as Hin0 by (revert Hin; by split_guard).
  destruct (Hpick _ Hin0) as (m1&Hm1&Hid&Hto&Hp).
  assert (m1 = m0) as -> by (eapply (table_ok_unique (messages d)); [apply Hok|done..]).
  unfold in_ids. rewrite !bool_decide_true by done. done.
Qed.

Lemma claimed_table_select :
  NoDup ids ->
  Permutation (Msg_ID <$> select_by queue_order (in_ids ids) (claimed_table agent ids d)) ids.
Proof.
  intros Hnd. rewrite select_by_perm. apply NoDup_Permutation; [| done |].
  - eapply sublist_NoDup; [|apply fmap_sublist, sublist_filter]. rewrite claimed_table_ids. apply Hok.
  - intros id. rewrite list_elem_of_fmap. split.
    + intros (m&->&Hm). apply elem_of_select in Hm as [Hm _]. by apply bool_decide_eq_true in Hm.
    + intros Hid. destruct (Hpick id Hid) as (m&Hm&<-&_).
      assert (Msg_ID m ∈ Msg_ID <$> rows (claimed_table agent ids d)) as Hm'.
      { rewrite claimed_table_ids. apply list_elem_of_fmap. by exists m. }
      apply list_elem_of_fmap in Hm' as (m'&Hm'&Hin). exists m'. split; [done|].
      apply elem_of_select. split; [|done]. unfold in_ids. rewrite <- Hm'. by apply bool_decide_eq_true.
Qed.
End Picked.

Lemma claim_picks_length agent limit d :
  Z.of_nat (length (claim_picks agent limit d)) <= default_limit 10 limit.
Proof.
  unfold claim_picks. rewrite length_fmap.
  pose proof (page_length (default_limit 10 limit) 0 (select_by queue_order (claimable agent) (messages d))).
  pose proof (default_limit_pos 10 limit ltac:(lia)). lia.
Qed.

Lemma claim_picks_NoDup agent limit d : messaging_ok d -> NoDup (claim_picks agent limit d).
Proof.
  intros Hok. unfold claim_picks. eapply sublist_NoDup; [|apply fmap_sublist, page_sublist].
  rewrite select_by_perm. eapply sublist_NoDup; [apply Hok|]. apply fmap_sublist, sublist_filter.
Qed.

#[local] Instance queue_order_trans : Transitive queue_order.
Proof. unfold queue_order. intros a b c. lia. Qed.
#[local] Instance queue_order_total : Total queue_order.
Proof. intros a b. unfold queue_order. lia. Qed.
Lemma queue_sorted p (t : table Message) : StronglySorted queue_order (select_by queue_order p t).
Proof. apply (StronglySorted_merge_sort queue_order). Qed.

(** What is left out of a page comes after what is on it. *)
Lemma page_first {A} (le : A -> A -> Prop) n (l : list A) x y :
  StronglySorted le l -> x ∈ page n 0 l -> y ∈ l -> y ∉ page n 0 l -> le x y.
Proof.
  unfold page. cbn. rewrite drop_0. rewrite <- (take_drop (Z.to_nat n) l) at 1 3. intros Hs Hx Hy Hn.
  apply elem_of_app in Hy as [Hy|Hy]; [done|]. eapply (StronglySorted_app_1_elem_of le); [exact Hs|done|done].
Qed.

(** The rows that were picked, by their ids. *)
Lemma picked_id agent limit d m : messaging_ok d -> m ∈ rows (messages d) ->
  Msg_ID m ∈ claim_picks agent limit d <-> m ∈ page (default_limit 10 limit) 0 (select_by queue_order (claimable agent) (messages d)).
Proof.
  intros Hok Hm. unfold claim_picks. rewrite list_elem_of_fmap. split; [|by eauto]. intros (x&Hid&Hx).
  assert (x ∈ rows (messages d)) as Hx' by (by apply elem_of_page, elem_of_select_by in Hx as [_ Hx]).
  by rewrite (table_ok_unique (messages d) m x (ltac:(apply Hok)) Hm Hx' Hid).
Qed.

Lemma claimed_table_alt agent limit d ids : messaging_ok d -> Permutation ids (claim_picks agent limit d) ->
  claimed_table agent (claim_picks agent limit d) d = update_rows (in_ids ids) (claim_row agent (clock d)) (messages d).
Proof.
  intros Hok Hp. unfold claimed_table, update_rows, map_if. f_equal. apply list_fmap_ext. intros i m Hi. apply list_elem_of_lookup_2 in Hi.
  unfold in_ids. rewrite (bool_decide_ext (Msg_ID m ∈ ids) (Msg_ID m ∈ claim_picks agent limit d)) by (by rewrite Hp).
  case_bool_decide as Hin; [|done]. apply picked_id in Hin; [|done..]. apply elem_of_page, elem_of_select_by in Hin as [Hc _].
  unfold claimable in Hc. guards. by rewrite bool_decide_true.
Qed.

Lemma claim_nothing agent d : set_messages (update_rows (in_ids []) (claim_row agent (clock d)) (messages d)) d = d.
Proof.
  assert (update_rows (in_ids []) (claim_row agent (clock d)) (messages d) = messages d) as ->; [|by destruct d].
  unfold update_rows, map_if. destruct (messages d) as [l n]. cbn. f_equal. rewrite <- (list_fmap_id l) at 2. apply list_fmap_ext.
  intros i m _. unfold in_ids. by rewrite bool_decide_false by set_solver.
Qed.

(** The rows fetched are the rows picked, claimed. *)
Lemma claimed_rows agent limit d : messaging_ok d ->
  Permutation (select_by queue_order (in_ids (claim_picks agent limit d)) (claimed_table agent (claim_picks agent limit d) d))
    (claim_row agent (clock d) <$> page (default_limit 10 limit) 0 (select_by queue_order (claimable agent) (messages d))).
Proof.
  intros Hok. pose proof (claim_picks_NoDup agent limit d Hok) as Hnd.
  pose proof (claimed_table_select agent _ d Hok (claim_picks_pending agent limit d) Hnd) as Hids.
  rewrite (claimed_table_alt agent limit d _ Hok (reflexivity _)) in *. apply NoDup_Permutation.
  - apply (NoDup_fmap_1 Msg_ID). by rewrite Hids.
  - apply (NoDup_fmap_1 Msg_ID). rewrite <- list_fmap_compose. exact Hnd.
  - intros m. rewrite elem_of_select_by, list_elem_of_fmap. cbn [rows update_rows]. rewrite elem_of_map_if. unfold in_ids. split.
    + intros [Hm (x&Hx&->)]. destruct (bool_decide (Msg_ID x ∈ _)) eqn:E; [|guards; done]. apply bool_decide_eq_true in E.
      exists x. split; [done|]. by apply picked_id.
    + intros (x&->&Hx). assert (x ∈ rows (messages d)) as Hx' by (by apply elem_of_page, elem_of_select_by in Hx as [_ ?]).
      pose proof (proj2 (picked_id agent limit d x Hok Hx') Hx) as Hid. split; [by apply bool_decide_eq_true|].
      exists x. by rewrite bool_decide_true.
Qed.

(** C2. Run without interference, ClaimMessages answers in queue order with as
    many of the agent's pending messages as there are, up to the limit (10 by
    default), none of those left out coming before them in the queue.  In the
    database exactly these rows are now in processing and claimed by the agent,
    as answered, and nothing else has changed. *)
Theorem claim_messages_effect agent limit d (Hok : messaging_ok d) :
  exists ms,
    let d' := set_messages (update_rows (in_ids (Msg_ID <$> ms)) (claim_row agent (clock d)) (messages d)) d in
    run_ok (ClaimMessages agent limit) d = (Ok ms, d') /\
    StronglySorted queue_order ms /\
    Z.of_nat (length ms) = Z.min (default_limit 10 limit) (affected (claimable agent) (messages d)) /\
    NoDup (Msg_ID <$> ms) /\
    (forall m, m ∈ ms -> m ∈ rows (messages d') /\ to_agent m = Some agent /\ Status m = StatusProcessing /\
       claimed_by m = Some agent /\ ClaimedAt m = Some (clock d) /\
       exists m0, m0 ∈ rows (messages d) /\ claimable agent m0 = true /\ m = claim_row agent (clock d) m0) /\
    (forall m w, m ∈ rows (messages d) -> claimable agent m = true -> Msg_ID m ∉ Msg_ID <$> ms -> w ∈ ms -> queue_order w m).
Proof.
  set (ms := select_by queue_order (in_ids (claim_picks agent limit d)) (claimed_table agent (claim_picks agent limit d) d)).
  pose proof (claimed_rows agent limit d Hok) as Hp. fold ms in Hp.
  assert (Permutation (Msg_ID <$> ms) (claim_picks agent limit d)) as Hids by (rewrite Hp, <- list_fmap_compose; done).
  exists ms. cbv zeta. rewrite <- (claimed_table_alt agent limit d _ Hok Hids). split_and!.
  - rewrite run_ClaimMessages. destruct (claim_picks agent limit d) as [|i l] eqn:E; [|done].
    apply Permutation_nil_r, fmap_nil_inv in Hids. rewrite Hids. f_equal.
    rewrite <- E, (claimed_table_alt agent limit d []) by (by rewrite ?E). by rewrite claim_nothing.
  - apply queue_sorted.
  - rewrite (Permutation_length Hp), length_fmap. unfold page, affected, count_if. change (Z.to_nat 0) with 0%nat.
    rewrite drop_0, length_take, (Permutation_length (select_by_perm queue_order _ _)). pose proof (default_limit_pos 10 limit ltac:(lia)).
    change (filter _ (rows (messages d))) with (select (claimable agent) (messages d)). lia.
  - rewrite Hids. by apply claim_picks_NoDup.
  - intros m Hm. assert (m ∈ rows (claimed_table agent (claim_picks agent limit d) d)) as Hin by (by apply elem_of_select_by in Hm as [_ ?]).
    rewrite Hp in Hm. apply list_elem_of_fmap in Hm as (m0&->&Hm0). apply elem_of_page, elem_of_select_by in Hm0 as [Hc Hm0].
    split; [exact Hin|]. do 4 (split; [by unfold claimable, opt_is in Hc; guards|]). by exists m0.
  - intros m w Hm Hc Hn Hw. rewrite Hids in Hn. rewrite (picked_id agent limit d m Hok Hm) in Hn.
    rewrite Hp in Hw. apply list_elem_of_fmap in Hw as (w0&->&Hw0).
    change (queue_order w0 m). eapply page_first; [apply queue_sorted|exact Hw0| |exact Hn]. by apply elem_of_select_by.
Qed.
End Claiming.

(** ** Marking read *)
Section MarkingRead.
Context {HEng : Engine}.

Lemma run_mark_each agent (l : list (Z * Z)) d :
  messaging_ok d -> (forall c v, (c, v) ∈ l -> 0 <= v) -> NoDup l.*1 ->
  let d' := (run_ok (for_each l (fun '(c, v) =>
              let! _ := UpdateInboxState agent c v in Ret tt)) d).2 in
  messaging_ok d' /\ messages d' = messages d /\
  (forall a c, last_read d' a c =
     if bool_decide (a = agent)
     then match (list_to_map l : gmap Z Z) !! c with
          | Some v => Z.max (last_read d a c) v | None => last_read d a c end
     else last_read d a c).
Proof.
  revert d. induction l as [|[c v] l IH]; intros d Hok Hpos Hnd; simpl.
  { split_and!; [done|done|]. intros a c. by case_bool_decide. }
  destruct (upsert_inbox_le d agent c v) as [Hok1 _]; [apply (Hpos c); set_solver|done|].
  apply NoDup_cons in Hnd as [Hnin Hnd]. simpl in *.
  destruct (IH (set_inbox_state (upsert_inbox agent c v (inbox_state d)) d)) as (H1&H2&H3);
    [done|intros; apply (Hpos c0); set_solver|done|].
  unfold run_ok in *. simpl in *. split_and!; [done|done|]. intros a c'.
  rewrite H3, upsert_inbox_last_read by (done || (apply (Hpos c); set_solver)).
  destruct (decide (a = agent)) as [->|Hne].
  - rewrite bool_decide_true by done. destruct (decide (c' = c)) as [->|Hc].
    + rewrite lookup_insert_eq, bool_decide_true by done.
      by rewrite not_elem_of_list_to_map_1.
    + rewrite lookup_insert_ne by done. rewrite bool_decide_false by congruence. done.
  - rewrite !(bool_decide_false (a = agent)) by done. rewrite bool_decide_false by congruence. done.
Qed.

(** ReadInbox with [MarkRead], run without interference, returns the page
    of the inbox, moves the caller's read pointer of each conversation to the
    largest id returned from it (never backwards), and touches neither the
    messages nor anyone else's pointers. *)
Theorem read_inbox_marks agent opts d (Hok : messaging_ok d) (Hmark : MarkRead opts = true) :
  exists total d', run_ok (ReadInbox agent opts) d =
      (Ok (mkPaginatedMessages (inbox_page d agent opts) total (opt_Offset opts)
             (default_limit 50 (opt_Limit opts))), d') /\
    messages d' = messages d /\
    (forall a c, last_read d' a c =
       if bool_decide (a = agent)
       then match conversationMaxID (inbox_page d agent opts) !! c with
            | Some v => Z.max (last_read d a c) v
            | None => last_read d a c
            end
       else last_read d a c).
Proof.
  set (ms := inbox_page d agent opts).
  set (l := scan (map_to_list (conversationMaxID ms))).
  assert (forall c v, (c, v) ∈ l <-> conversationMaxID ms !! c = Some v) as Hl.
  { intros c v. unfold l. rewrite scan_perm. apply elem_of_map_to_list. }
  assert (NoDup l.*1) as Hnd.
  { unfold l. rewrite scan_perm. apply NoDup_fst_map_to_list. }
  destruct (run_mark_each agent l d Hok) as (_&Hm&Hr).
  { intros c v Hcv. apply Hl in Hcv. by eapply conversationMaxID_nonneg. }
  { done. }
  eexists _, _. split.
  - unfold ReadInbox. rewrite Hmark, run_ok_bind_ok. unfold GetInboxMessages, CountInboxMessages.
    unfold run_ok at 1. simpl. fold ms. unfold run_ok at 1. simpl.
    fold l. change (run ?p [] d) with (run_ok p d). rewrite run_ok_bind.
    rewrite (surjective_pairing (run_ok (for_each l _) d)). reflexivity.
  - split; [exact Hm|]. intros a c. rewrite Hr. case_bool_decide; [|done].
    assert ((list_to_map l : gmap Z Z) !! c = conversationMaxID ms !! c) as ->.
    { destruct (conversationMaxID ms !! c) as [v|] eqn:E.
      - apply elem_of_list_to_map_1; [done|]. by apply Hl.
      - apply not_elem_of_list_to_map_1. rewrite list_elem_of_fmap. intros ([c' v]&->&Hcv).
        apply Hl in Hcv. simpl in *. congruence. } done.
Qed.
End MarkingRead.

(** ** Concrete runs *)
Module Runs.
#[local] Instance eng : Engine := rowid_engine.
#[local] Instance gojson : GoJson := {| float_text := Some; utf8_coerce := fun s => s |}.
#[local] Instance linker : AttachmentLinker := nil_linker.

Definition agent_named (id : Z) (name : string) : Agent :=
  mkAgent id name "" "ai" raw_empty_object 1 "" "active" 0 0 TriggerModePassive 600 8 5 "" None "default"
    false "" "" "" "" None 0 "" "supervised" "[]" None "".

(** Two registered agents and an empty mailbox. *)
Definition two_agents : db :=
  set_agents (mkTable [agent_named 1 "alice"; agent_named 2 "bob"] 3) (set_clock 1000 empty_db).

Definition plain (subject : string) (priority : Z) (meta : rawjson) : SendOptions :=
  mkSendOptions subject priority meta None None None [].
Definition unread (limit : Z) (mark : bool) : ReadOptions :=
  mkReadOptions None "" None 0 limit 0 None None false mark.

Lemma two_agents_ok : messaging_ok two_agents.
Proof. split; simpl; [apply table_ok_empty|set_solver|apply table_ok_empty|constructor]. Qed.

(** Run a list of calls one after the other. *)
Definition run_next (s : list msg_answer * db) (c : msg_call) : list msg_answer * db :=
  let '(a, d') := run_ok (call_prog c) s.2 in (s.1 ++ [a], d').
Definition run_calls (cs : list msg_call) (d : db) : list msg_answer * db :=
  foldl run_next ([], d) cs.

Lemma run_calls_ok cs d : messaging_ok d -> messaging_ok (run_calls cs d).2.
Proof.
  unfold run_calls. intros Hd.
  assert (forall cs out d, messaging_ok d -> messaging_ok (foldl run_next (out, d) cs).2) as H; [|by apply H].
  clear. intros cs. induction cs as [|c cs IH]; intros out d Hd; simpl; [done|].
  unfold run_next at 2. simpl.
  pose proof (wp_run_ok _ _ _ (rg_wp messaging_ok messaging_le _ _ d Hd (rg_call c d Hd))) as [Hok _].
  destruct (run_ok (call_prog c) d) as [a d'] eqn:E. by apply IH.
Qed.

(** One message for bob. *)
Definition one_message : db :=
  (run_calls [CallSend "alice" "bob" "build it" (plain "work" 0 RawEmpty)] two_agents).2.

Lemma one_message_ok : messaging_ok one_message.
Proof. apply run_calls_ok, two_agents_ok. Qed.

Definition claimed_ids (a : msg_answer) : list Z :=
  match a with AnsClaimed (Ok ms) => Msg_ID <$> ms | _ => [] end.

(** *** The theorems above at a concrete input *)
Lemma messaging_history_witness :
  messaging_ok one_message /\
  let '(ps, d') := run_schedule [(0, false); (1, true)]%nat
                     (call_prog <$> [CallClaim "bob" 1; CallDone 1 "bob"]) one_message in
  messaging_ok d'.
Proof.
  split; [exact one_message_ok|].
  pose proof (run_schedule_reachable tick [(0, false); (1, true)]%nat
    (call_prog <$> [CallClaim "bob" 1; CallDone 1 "bob"]) one_message) as Hr.
  destruct (run_schedule _ _ _) as [ps d'].
  exact (proj1 (messaging_history _ one_message ps d' one_message_ok Hr)).
Defined.

Lemma read_inbox_peek_witness :
  MarkRead (unread 5 false) = false /\ (run_ok (ReadInbox "bob" (unread 5 false)) one_message).2 = one_message.
Proof.
  split; [reflexivity|].
  exact (wp_run_ok _ _ _ (read_inbox_peek "bob" (unread 5 false) one_message eq_refl)).
Defined.

Definition claimed_message : db := (run_ok (ClaimMessages "bob" 1) one_message).2.

Lemma mark_done_effect_witness :
  "bob" <> EmptyString /\ (run_ok (MarkDone 1 "bob") claimed_message).1 = Ok tt /\
  only_status_changed 1 StatusDone "bob" claimed_message (run_ok (MarkDone 1 "bob") claimed_message).2.
Proof.
  assert ("bob" <> EmptyString) as Hb by discriminate. split; [exact Hb|].
  assert ((run_ok (MarkDone 1 "bob") claimed_message).1 = Ok tt) as E by (vm_compute; reflexivity).
  split; [exact E|].
  pose proof (wp_run_ok _ _ _ (mark_done_effect 1 "bob" claimed_message Hb)) as H. cbv beta in H.
  rewrite E in H. exact H.
Defined.

Lemma mark_failed_effect_witness :
  "bob" <> EmptyString /\ (run_ok (MarkFailed 1 "bob" "oops") claimed_message).1 = Ok tt /\
  only_status_changed 1 StatusFailed "bob" claimed_message (run_ok (MarkFailed 1 "bob" "oops") claimed_message).2.
Proof.
  assert ("bob" <> EmptyString) as Hb by discriminate. split; [exact Hb|].
  assert ((run_ok (MarkFailed 1 "bob" "oops") claimed_message).1 = Ok tt) as E by (vm_compute; reflexivity).
  split; [exact E|].
  pose proof (wp_run_ok _ _ _ (mark_failed_effect 1 "bob" "oops" claimed_message Hb)) as H. cbv beta in H.
  rewrite E in H. exact H.
Defined.

Lemma claim_messages_effect_witness :
  messaging_ok one_message /\ exists ms, run_ok (ClaimMessages "bob" 1) one_message =
    (Ok ms, set_messages (update_rows (in_ids (Msg_ID <$> ms)) (claim_row "bob" (clock one_message)) (messages one_message)) one_message) /\ length ms = 1%nat.
Proof.
  split; [exact one_message_ok|].
  destruct (claim_messages_effect "bob" 1 one_message one_message_ok) as (ms&E&_&Hl&_).
  exists ms. split; [exact E|]. change (Z.min _ _) with 1 in Hl. lia.
Defined.

Lemma read_inbox_marks_witness :
  messaging_ok one_message /\ MarkRead (unread 5 true) = true /\
  exists d', (run_ok (ReadInbox "bob" (unread 5 true)) one_message).2 = d' /\ messages d' = messages one_message.
Proof.
  split; [exact one_message_ok|]. split; [reflexivity|].
  destruct (read_inbox_marks "bob" (unread 5 true) one_message one_message_ok eq_refl) as (total&d'&E&Hm&_).
  exists d'. split; [by rewrite E|exact Hm].
Defined.

(** Claiming is not exclusive between two workers of one agent: the three
    statements of ClaimMessages may interleave so that both calls succeed and
    return the same message. *)
Theorem claim_race_double_delivery :
  exists d ps d' a1 a2 id, messaging_ok d /\
    rtc (pool_step tick) (call_prog <$> [CallClaim "bob" 1; CallClaim "bob" 1], d) (ps, d') /\
    ps = [Ret a1; Ret a2] /\ id ∈ claimed_ids a1 /\ id ∈ claimed_ids a2.
Proof.
  set (sched := [(0, false); (1, false); (0, false); (1, false); (0, false); (1, false)]%nat).
  set (pool := call_prog <$> [CallClaim "bob" 1; CallClaim "bob" 1]).
  exists one_message, (run_schedule sched pool one_message).1, (run_schedule sched pool one_message).2.
  assert (exists a1 a2, (run_schedule sched pool one_message).1 = [Ret a1; Ret a2] /\
    claimed_ids a1 = [1] /\ claimed_ids a2 = [1]) as (a1&a2&E&H1&H2).
  { vm_compute. eexists _, _. split_and!; reflexivity. }
  exists a1, a2, 1. rewrite H1, H2. split_and!; [apply one_message_ok| |done|left|left].
  rewrite <- surjective_pairing. apply run_schedule_reachable.
Qed.

(** Reading with [MarkRead] can hide messages that were never returned:
    with a page of one, the newer message of higher priority is returned, the
    pointer moves past the older one, and the older one is gone from the
    unread inbox although no call ever returned it. *)
Theorem mark_read_hides_unseen :
  exists cs d id, messaging_ok d /\
    (exists m, m ∈ rows (messages d) /\ Msg_ID m = id /\ to_agent m = Some "bob" /\ Status m = StatusPending) /\
    cs = [CallRead "bob" (unread 1 true); CallRead "bob" (unread 50 true)] /\
    (forall p, AnsPage (Ok p) ∈ (run_calls cs d).1 -> id ∉ Msg_ID <$> pm_Messages p) /\
    Forall (fun a => exists p, a = AnsPage (Ok p)) (run_calls cs d).1 /\
    (exists p, last (run_calls cs d).1 = Some (AnsPage (Ok p)) /\ pm_Messages p = []).
Proof.
  set (d := (run_calls [CallSend "alice" "bob" "low" (plain "t" 1 RawEmpty);
                        CallSend "alice" "bob" "high" (plain "t" 9 RawEmpty)] two_agents).2).
  eexists _, d, 1. split_and!; [apply run_calls_ok, two_agents_ok| |reflexivity| | |].
  - exists (nth 0 (rows (messages d)) (mkMessage 0 0 "" None None None "" 0 StatusPending RawEmpty None None 0 0)).
    split_and!; [vm_compute; left|reflexivity..].
  - intros p Hp Hin. vm_compute in Hp. apply elem_of_cons in Hp as [[= ->]|Hp].
    + vm_compute in Hin. apply list_elem_of_singleton in Hin. done.
    + apply list_elem_of_singleton in Hp as [= ->]. vm_compute in Hin. set_solver.
  - vm_compute. repeat constructor; eexists; reflexivity.
  - eexists. split; vm_compute; reflexivity.
Qed.

(** A message accepted with the metadata [null] (valid JSON) can never be
    failed: MarkFailed writes to the nil map that [json.Unmarshal] leaves and
    panics. *)
Theorem mark_failed_null_metadata_panics :
  exists why, (run_calls [CallSend "alice" "bob" "x" (plain "" 0 (RawJson JNull));
                          CallClaim "bob" 10; CallFail 1 "bob" "crashed"] two_agents).1 !! 2%nat
              = Some (AnsUnit (Panic why)).
Proof. eexists. vm_compute. reflexivity. Qed.
End Runs.
