(* ===== verification/MessagingQueries.v ===== *)
(** * Messaging queries (internal/messaging/store.go, service.go)

    The read side of messaging: direct-message threads and partners, unread
    counts, effective read positions, mentions, and the filtered full-text
    search with its access rule.  [WHERE] clauses over nullable columns are
    written in SQL's three-valued logic. *)
From S2P Require Import Prelude Prog Table Schema Messaging.

(** ** Three-valued logic *)

(** [None] is NULL. *)
Abbreviation tri := (option bool).

Definition t_and (a b : tri) : tri :=
  match a, b with
  | Some false, _ | _, Some false => Some false
  | Some true, Some true => Some true
  | _, _ => None
  end.
Definition t_not (a : tri) : tri := negb <$> a.
Definition t_or (a b : tri) : tri := t_not (t_and (t_not a) (t_not b)).
Definition t_all (l : list tri) : tri := foldr t_and (Some true) l.
Definition t_eq {A} `{EqDecision A} (a : option A) (b : A) : tri := (fun x => bool_decide (x = b)) <$> a.
Definition t_in {A} `{EqDecision A} (a : option A) (l : list A) : tri :=
  match l with [] => Some false | _ => (fun x => bool_decide (x ∈ l)) <$> a end.
Definition t_null {A} (a : option A) : tri := Some (match a with None => true | Some _ => false end).
(** A row is kept when the clause is true, not when it is NULL. *)
Definition holds (t : tri) : bool := bool_decide (t = Some true).

(** SQLite's [LOWER] and [LIKE] fold ASCII letters only. *)
Definition lower_ascii (a : Ascii.ascii) : Ascii.ascii :=
  let n := Ascii.nat_of_ascii a in
  if ((65 <=? n) && (n <=? 90))%nat then Ascii.ascii_of_nat (n + 32) else a.
Fixpoint sql_lower (s : string) : string :=
  match s with EmptyString => EmptyString | String a r => String (lower_ascii a) (sql_lower r) end.

(** The rest of a string after its first UTF-8 character. *)
Fixpoint skip_continuation (s : string) : string :=
  match s with
  | String a r => let n := Ascii.nat_of_ascii a in
                  if ((128 <=? n) && (n <=? 191))%nat then skip_continuation r else s
  | EmptyString => EmptyString
  end.
Definition skip_char (s : string) : option string :=
  match s with
  | EmptyString => None
  | String a r => Some (if (192 <=? Ascii.nat_of_ascii a)%nat then skip_continuation r else r)
  end.

(** All suffixes of a string, itself first. *)
Fixpoint suffixes (s : string) : list string :=
  s :: match s with EmptyString => [] | String _ r => suffixes r end.

(** [s LIKE pattern]: [%] is any sequence, [_] any one character. *)
Fixpoint sql_like (pattern s : string) {struct pattern} : bool :=
  match pattern with
  | EmptyString => str_empty s
  | String p rest =>
      if bool_decide (Ascii.nat_of_ascii p = 37%nat) then existsb (sql_like rest) (suffixes s)
      else if bool_decide (Ascii.nat_of_ascii p = 95%nat)
      then match skip_char s with Some s' => sql_like rest s' | None => false end
      else match s with
           | String a s' => bool_decide (lower_ascii a = lower_ascii p) && sql_like rest s'
           | EmptyString => false
           end
  end.

(** ** Direct messages *)
Definition is_dm (m : Message) : bool := bool_decide (Msg_ChannelID m = None).

(** (from_agent IN (agents) AND to_agent = peer) OR
    (from_agent = peer AND to_agent IN (agents)). *)
Definition dm_between (agents : list string) (peer : string) (m : Message) : bool :=
  holds (t_or (t_and (Some (bool_decide (FromAgent m ∈ agents))) (t_eq (to_agent m) peer))
              (t_and (Some (bool_decide (FromAgent m = peer))) (t_in (to_agent m) agents))).

Record DMPartner := mkDMPartner {
  dp_Name : string;
  dp_LastMessage : string;
  dp_LastTime : Z;
  dp_Unread : Z
}.

Record DMUnreadCount := mkDMUnreadCount {
  du_Agent : string;
  du_UnreadCount : Z;
  du_LastMessageID : Z
}.

Definition maxZ (l : list Z) : option Z :=
  match l with [] => None | x :: r => Some (foldl Z.max x r) end.
Definition minZ (l : list Z) : option Z :=
  match l with [] => None | x :: r => Some (foldl Z.min x r) end.

Section Queries.
Context {HEng : Engine}.

Definition GetDMMessages (agents : list string) (peerAgent : string) (limit : Z) : M (list Message) :=
  let limit := default_limit 50 limit in
  match agents with
  | [] => Ret (Ok [])
  | _ => query EDb (fun d => page limit 0
           (select_by newest_first (fun m => is_dm m && dm_between agents peerAgent m) (messages d)))
  end.

(** The other party of a direct message of one of [agents]. *)
Definition peer_of (agents : list string) (m : Message) : option string :=
  if bool_decide (FromAgent m ∈ agents) then to_agent m else Some (FromAgent m).

Definition involves (agents : list string) (m : Message) : bool :=
  is_dm m && holds (t_or (Some (bool_decide (FromAgent m ∈ agents))) (t_in (to_agent m) agents)).

(** [b.String[:80] + "..."] beyond 80 bytes. *)
Definition preview (body : string) : string :=
  if (80 <? String.length body)%nat then String.substring 0 80 body +:+ "..." else body.

Definition partner_newest (a b : string * Message) : Prop := newest_first a.2 b.2.
#[export] Instance partner_newest_dec a b : Decision (partner_newest a b).
Proof. unfold partner_newest. apply _. Defined.

(** rn = 1 of each partition, then ORDER BY last_time DESC LIMIT 50. *)
Definition partner_rows (agents : list string) (d : db) : list (string * Message) :=
  let mine := select (involves agents) (messages d) in
  let peers := omap (peer_of agents) mine in
  let newest_with p := head (select_by newest_first
        (fun m => involves agents m && bool_decide (peer_of agents m = Some p)) (messages d)) in
  page 50 0 (merge_sort partner_newest (scan
    (omap (fun p => (fun m => (p, m)) <$> newest_with p)
          (filter (fun p => p <> EmptyString) (remove_dups peers))))).

Definition unread_from (agents : list string) (p : string) (d : db) : Z :=
  affected (fun m => is_dm m && bool_decide (FromAgent m = p) && holds (t_in (to_agent m) agents) &&
                     bool_decide (Status m = StatusPending \/ Status m = StatusProcessing)) (messages d).

(** One COUNT query per partner that is not owned; its failure leaves 0. *)
Fixpoint count_unread (agents : list string) (ps : list DMPartner) : prog db (list DMPartner) :=
  match ps with
  | [] => Ret []
  | p :: rest =>
      if bool_decide (dp_Name p ∈ agents)
      then let! ps' := count_unread agents rest in Ret (p :: ps')
      else let! r := query EDb (unread_from agents (dp_Name p)) in
           let! ps' := count_unread agents rest in
           Ret (match r with
                | Ok n => mkDMPartner (dp_Name p) (dp_LastMessage p) (dp_LastTime p) n :: ps'
                | _ => p :: ps'
                end)
  end.

Definition GetDMPartners (allAgents : list string) : M (list DMPartner) :=
  match allAgents with
  | [] => Ret (Ok [])
  | _ =>
      let? partners := query EDb (fun d =>
        (fun '(p, m) => mkDMPartner p (preview (Body m)) (Msg_CreatedAt m) 0) <$> partner_rows allAgents d) in
      let! counted := count_unread allAgents partners in
      Ret (Ok counted)
  end.

Definition dm_to (agentName : string) (m : Message) : bool :=
  opt_is (to_agent m) agentName && is_dm m && negb (String.eqb (FromAgent m) "system").

Definition GetDMUnreadCounts (agentName : string) : M (list DMUnreadCount) :=
  query EDb (fun d =>
    let mine := select (dm_to agentName) (messages d) in
    (fun a => let g := filter (fun m => FromAgent m = a) mine in
              mkDMUnreadCount a
                (count_if (fun m => last_read d agentName (Msg_ConversationID m) <? Msg_ID m) g)
                (default 0 (maxZ (Msg_ID <$> g))))
    <$> merge_sort str_le (remove_dups (FromAgent <$> mine))).

(** ** Effective read positions *)
Definition GetLastReadForChannel (agentName : string) (channelID : Z) : M Z :=
  query EDb (fun d =>
    default 0 (minZ (last_read d agentName <$>
      remove_dups (Msg_ConversationID <$> select (fun m => opt_is (Msg_ChannelID m) channelID) (messages d))))).

Definition dm_conversations (agents : list string) (peer : string) (keep : Message -> bool) (d : db) : list Z :=
  remove_dups (Msg_ConversationID <$> select (fun m => is_dm m && keep m && dm_between agents peer m) (messages d)).

Definition GetLastReadForDM (agentNames : list string) (peerAgent : string) : M Z :=
  match agentNames with
  | [] => Ret (Ok 0)
  | _ => query EDb (fun d =>
      default 0 (maxZ (LastReadMessageID <$> select (fun s =>
        bool_decide (Inbox_AgentName s ∈ agentNames) &&
        bool_decide (Inbox_ConversationID s ∈ dm_conversations agentNames peerAgent (fun _ => true) d))
        (inbox_state d))))
  end.

Definition GetConversationIDsForChannel (channelID lastMessageID : Z) : M (list Z) :=
  query EDb (fun d => scan (remove_dups (Msg_ConversationID <$>
    select (fun m => opt_is (Msg_ChannelID m) channelID && (Msg_ID m <=? lastMessageID)) (messages d)))).

Definition GetConversationIDsForDM (agentNames : list string) (peerAgent : string) (lastMessageID : Z) : M (list Z) :=
  match agentNames with
  | [] => Ret (Ok [])
  | _ => query EDb (fun d => scan (dm_conversations agentNames peerAgent (fun m => Msg_ID m <=? lastMessageID) d))
  end.

(** ** Mentions: body LIKE '%@' || agent || '%' in the agent's channels. *)
Definition GetRecentMentions (agentName : string) (limit : Z) : M (list Message) :=
  query EDb (fun d => page (default_limit 10 limit) 0 (select_by newest_first (fun m =>
    match Msg_ChannelID m with
    | Some c => existsb (fun x => (Mem_ChannelID x =? c) && String.eqb (Mem_AgentName x) agentName)
                        (rows (channel_members d))
    | None => false
    end &&
    sql_like ("%@" +:+ agentName +:+ "%") (Body m) &&
    negb (String.eqb (FromAgent m) agentName)) (messages d))).
End Queries.

(** ** Search *)
Record SearchOptions := mkSearchOptions {
  sr_FromAgent : string;
  sr_ToAgent : string;
  sr_ChannelID : option Z;
  sr_MinPriority : Z;
  sr_Status : option MsgStatus;       (** [None]: the empty string *)
  sr_Limit : Z;
  sr_Offset : Z;
  sr_After : option Z;                (** [None]: empty or unparsable *)
  sr_Before : option Z;
  sr_Channel : string;
  sr_Channels : list string;
  sr_ExcludeChannels : list string;
  sr_Agents : list string;
  sr_ExcludeAgents : list string
}.

(** The length in bytes of the white space character a string starts with, 0
    when it starts with none. *)
Definition space_len (s : string) : nat :=
  match s with
  | EmptyString => 0
  | String a s1 =>
      if ascii_space a then 1
      else match s1 with
      | EmptyString => 0
      | String b s2 =>
          if is_blank (String a (String b EmptyString)) then 2
          else match s2 with
          | EmptyString => 0
          | String c _ => if is_blank (String a (String b (String c EmptyString))) then 3 else 0
          end
      end
  end.

Definition flush (cur : string) (rest : list string) : list string :=
  if str_empty cur then rest else cur :: rest.

(** [strings.Fields]; surrounding space does not matter to it, so the
    [TrimSpace] before it shows only in the empty case. *)
Fixpoint fields_from (s : string) (skip : nat) (cur : string) : list string :=
  match s with
  | EmptyString => flush cur []
  | String a r =>
      match skip with
      | S k => fields_from r k cur
      | O => match space_len s with
             | O => fields_from r O (cur +:+ String a EmptyString)
             | S k => flush cur (fields_from r k EmptyString)
             end
      end
  end.
Definition Fields (s : string) : list string := fields_from s O EmptyString.

Definition dquote : Ascii.ascii := Ascii.ascii_of_nat 34.

(** [strings.ReplaceAll(tok, dquote, dquote dquote)]. *)
Fixpoint double_quotes (s : string) : string :=
  match s with
  | EmptyString => EmptyString
  | String a r => if bool_decide (a = dquote) then String a (String a (double_quotes r))
                  else String a (double_quotes r)
  end.

Fixpoint ends_with_quote (s : string) : bool :=
  match s with
  | EmptyString => false
  | String a EmptyString => bool_decide (a = dquote)
  | String _ r => ends_with_quote r
  end.

(** [len(tok) >= 2 && tok[0] == dquote && tok[len(tok)-1] == dquote]. *)
Definition already_quoted (tok : string) : bool :=
  match tok with
  | String a (String _ _ as r) => bool_decide (a = dquote) && ends_with_quote r
  | _ => false
  end.

Definition quote_token (tok : string) : string :=
  if already_quoted tok then tok
  else String dquote (double_quotes tok +:+ String dquote EmptyString).

Fixpoint join (sep : string) (l : list string) : string :=
  match l with
  | [] => EmptyString
  | [x] => x
  | x :: rest => x +:+ sep +:+ join sep rest
  end.

Definition sanitizeFTS5Query (query : string) : string :=
  if is_blank query then EmptyString else join " " (quote_token <$> Fields query).

(** SQLite's full-text index over the messages: the matching rows by rank, or
    a syntax error.  The index only returns rows it holds, each once. *)
Class FTS := {
  fts_query : string -> list Message -> option (list Message);
  fts_query_rows : forall q l r, fts_query q l = Some r -> NoDup l -> NoDup r /\ forall m, m ∈ r -> m ∈ l
}.

Section Search.
Context {HEng : Engine} {HFTS : FTS}.

Definition channel_ids (d : db) (p : string -> bool) : list Z :=
  Ch_ID <$> select (fun c => p (Ch_Name c)) (channels d).

Definition is_member (d : db) (agentName : string) (channelID : Z) : bool :=
  existsb (fun x => (Mem_ChannelID x =? channelID) && String.eqb (Mem_AgentName x) agentName)
          (rows (channel_members d)).

(** The access rule: (m.to_agent = ? OR m.from_agent = ? OR (m.channel_id IS
    NOT NULL AND m.to_agent = '' AND EXISTS (...))). *)
Definition search_access (d : db) (agentName : string) (m : Message) : tri :=
  t_or (t_or (t_eq (to_agent m) agentName) (Some (bool_decide (FromAgent m = agentName))))
       (t_and (t_and (t_not (t_null (Msg_ChannelID m))) (t_eq (to_agent m) EmptyString))
              (Some (match Msg_ChannelID m with Some c => is_member d agentName c | None => false end))).

Definition opt_cond (present : bool) (c : tri) : list tri := if present then [c] else [].

(** buildSearchConditions, without the MATCH clause the join carries. *)
Definition buildSearchConditions (d : db) (agentName : string) (opts : SearchOptions) (m : Message) : list tri :=
  [search_access d agentName m] ++
  opt_cond (negb (str_empty (sr_FromAgent opts))) (Some (bool_decide (FromAgent m = sr_FromAgent opts))) ++
  opt_cond (negb (str_empty (sr_ToAgent opts))) (t_eq (to_agent m) (sr_ToAgent opts)) ++
  opt_cond (0 <? sr_MinPriority opts) (Some (sr_MinPriority opts <=? Priority m)) ++
  match sr_Status opts with Some st => [Some (bool_decide (Status m = st))] | None => [] end ++
  match sr_ChannelID opts with Some c => [t_eq (Msg_ChannelID m) c] | None => [] end ++
  opt_cond (negb (str_empty (sr_Channel opts)))
    (t_in (Msg_ChannelID m) (channel_ids d (fun n => String.eqb (sql_lower n) (sql_lower (sr_Channel opts))))) ++
  opt_cond (negb (bool_decide (sr_Channels opts = [])))
    (t_in (Msg_ChannelID m) (channel_ids d (fun n => bool_decide (sql_lower n ∈ sr_Channels opts)))) ++
  opt_cond (negb (bool_decide (sr_ExcludeChannels opts = [])))
    (t_or (t_null (Msg_ChannelID m))
          (t_not (t_in (Msg_ChannelID m) (channel_ids d (fun n => bool_decide (sql_lower n ∈ sr_ExcludeChannels opts)))))) ++
  opt_cond (negb (bool_decide (sr_Agents opts = [])))
    (t_or (Some (bool_decide (FromAgent m ∈ sr_Agents opts))) (t_in (to_agent m) (sr_Agents opts))) ++
  opt_cond (negb (bool_decide (sr_ExcludeAgents opts = [])))
    (t_and (Some (negb (bool_decide (FromAgent m ∈ sr_ExcludeAgents opts))))
           (t_or (t_eq (to_agent m) EmptyString) (t_not (t_in (to_agent m) (sr_ExcludeAgents opts))))) ++
  match sr_After opts with Some t => [Some (t <=? Msg_CreatedAt m)] | None => [] end ++
  match sr_Before opts with Some t => [Some (Msg_CreatedAt m <=? t)] | None => [] end.

Definition search_keeps (d : db) (agentName : string) (opts : SearchOptions) (m : Message) : bool :=
  holds (t_all (buildSearchConditions d agentName opts m)).

(** The rows of the query before paging: by rank with a query, newest first
    without one. *)
Definition search_rows (d : db) (agentName query : string) (opts : SearchOptions) : option (list Message) :=
  if str_empty query
  then Some (select_by newest_first (search_keeps d agentName opts) (messages d))
  else filter (fun m => search_keeps d agentName opts m = true)
       <$> fts_query (sanitizeFTS5Query query) (rows (messages d)).

Definition store_SearchMessages (agentName query : string) (opts : SearchOptions) : M (list Message) :=
  query_o EDb (fun d => match search_rows d agentName query opts with
                        | Some l => Ok (page (default_limit 20 (sr_Limit opts)) (default_offset (sr_Offset opts)) l)
                        | None => Err EDb
                        end).

Definition CountSearchMessages (agentName query : string) (opts : SearchOptions) : M Z :=
  query_o EDb (fun d => match search_rows d agentName query opts with
                        | Some l => Ok (Z.of_nat (length l))
                        | None => Err EDb
                        end).

Definition SearchMessages (agentName query : string) (opts : SearchOptions) : M PaginatedMessages :=
  let? messages := store_SearchMessages agentName query opts in
  let? total := CountSearchMessages agentName query opts in
  Ret (Ok (mkPaginatedMessages messages total (sr_Offset opts) (default_limit 20 (sr_Limit opts)))).
End Search.

(** ** The mark-read endpoint (internal/api/notifications_handler.go)

    After its validation: collect the conversations, then move the read pointer
    of each; an update that fails is logged and skipped. *)
Section MarkingRead.
Context {HEng : Engine}.

Definition mark_conversations (agentName : string) (lastMessageID : Z) (convIDs : list Z) : prog db unit :=
  for_each convIDs (fun convID =>
    let! _ := UpdateInboxState agentName convID lastMessageID in Ret tt).

Definition mark_channel_read (agentName : string) (channelID lastMessageID : Z) : M unit :=
  let? convIDs := GetConversationIDsForChannel channelID lastMessageID in
  let! _ := mark_conversations agentName lastMessageID convIDs in Ret (Ok tt).

Definition mark_dm_read (agentName peer : string) (lastMessageID : Z) : M unit :=
  let? convIDs := GetConversationIDsForDM [agentName] peer lastMessageID in
  let! _ := mark_conversations agentName lastMessageID convIDs in Ret (Ok tt).
End MarkingRead.
