(* ===== verification/MessagingQueriesSpec.v ===== *)
(** * Messaging queries: access, phrases, read positions *)
From S2P Require Import Prelude Prog Table Schema Messaging MessagingFacts MessagingSpec MessagingQueries.

(** ** Three-valued logic *)
Lemma holds_true t : holds t = true <-> t = Some true.
Proof. apply bool_decide_eq_true. Qed.

Lemma t_and_true a b : t_and a b = Some true <-> a = Some true /\ b = Some true.
Proof. destruct a as [[]|], b as [[]|]; simpl; naive_solver. Qed.

Lemma t_or_true a b : t_or a b = Some true <-> a = Some true \/ b = Some true.
Proof. destruct a as [[]|], b as [[]|]; vm_compute; naive_solver. Qed.

Lemma t_eq_true {A} `{EqDecision A} (a : option A) b : t_eq a b = Some true <-> a = Some b.
Proof. destruct a; simpl; [|naive_solver]. case_bool_decide; naive_solver. Qed.

Lemma t_in_true {A} `{EqDecision A} (a : option A) (l : list A) :
  t_in a l = Some true <-> exists x, a = Some x /\ x ∈ l.
Proof.
  destruct l as [|y l]; simpl; [set_solver|]. destruct a as [x|]; simpl; [|naive_solver].
  case_bool_decide; naive_solver.
Qed.

Lemma t_all_true l : t_all l = Some true <-> forall t, t ∈ l -> t = Some true.
Proof.
  induction l as [|t l IH]; simpl; [set_solver|].
  change (foldr t_and (Some true) l) with (t_all l). rewrite t_and_true, IH. set_solver.
Qed.

Lemma t_decide_true (P : Prop) `{Decision P} : Some (bool_decide P) = Some true <-> P.
Proof. case_bool_decide; naive_solver. Qed.

(** ** Search *)

(** What a caller may see: messages it sent or received directly, and those
    addressed to nobody in channels it belongs to. *)
Definition may_see (d : db) (agentName : string) (m : Message) : Prop :=
  to_agent m = Some agentName \/ FromAgent m = agentName \/
  (to_agent m = Some EmptyString /\ exists c, Msg_ChannelID m = Some c /\ is_member d agentName c = true).

Lemma search_access_may_see d agentName m :
  search_access d agentName m = Some true <-> may_see d agentName m.
Proof.
  unfold search_access, may_see. rewrite !t_or_true, !t_and_true, !t_eq_true, t_decide_true.
  destruct (Msg_ChannelID m) as [c|]; simpl.
  - split.
    + intros [[?|?]|[[_ ?] [= ?]]]; eauto 10.
    + intros [?|[?|(?&c'&[= <-]&->)]]; auto.
  - naive_solver.
Qed.

Section Search.
Context {HEng : Engine} {HFTS : FTS}.

Lemma search_keeps_access d agentName opts m :
  search_keeps d agentName opts m = true -> may_see d agentName m.
Proof.
  unfold search_keeps. rewrite holds_true, t_all_true. intros H.
  apply search_access_may_see, H. unfold buildSearchConditions. set_solver.
Qed.

Lemma search_rows_kept d agentName query opts l :
  NoDup (rows (messages d)) -> search_rows d agentName query opts = Some l ->
  NoDup l /\ forall m, m ∈ l -> m ∈ rows (messages d) /\ search_keeps d agentName opts m = true.
Proof.
  intros Hn. unfold search_rows. destruct (str_empty query).
  - intros [= <-]. split.
    + rewrite select_by_perm. by apply NoDup_filter.
    + intros m Hm. apply elem_of_select_by in Hm. tauto.
  - destruct (fts_query _ _) as [r|] eqn:E; [|done]. intros [= <-].
    destruct (fts_query_rows _ _ _ E Hn) as [Hr Hin]. split; [by apply NoDup_filter|].
    intros m Hm. apply list_elem_of_filter in Hm as [Hk Hm]. auto.
Qed.

(** Searching, with any query, filters and page, returns each message at most
    once, only messages that are stored and that the caller may see (sent by
    it, addressed to it, or, as the access rule says, in a channel it belongs
    to), never more than the limit or the total, and changes nothing; the only
    error is the database driver's. *)
Theorem search_scoped agentName query opts d (Hok : messaging_ok d) :
  wp (SearchMessages agentName query opts) (fun o d' => d' = d /\
    match o with
    | Ok p =>
        NoDup (Msg_ID <$> pm_Messages p) /\
        Z.of_nat (length (pm_Messages p)) <= Z.min (pm_Limit p) (pm_Total p) /\
        forall m, m ∈ pm_Messages p -> m ∈ rows (messages d) /\ may_see d agentName m
    | Err e => e = EDb
    | Panic _ => False
    end) d.
Proof.
  unfold SearchMessages, store_SearchMessages, CountSearchMessages. simpl.
  assert (NoDup (rows (messages d))) as Hn by (eapply NoDup_fmap_1; apply Hok).
  split; [|done]. destruct (search_rows d agentName query opts) as [l|] eqn:E; simpl; [|done].
  rewrite E. split; [|done]. split; [done|]. simpl.
  destruct (search_rows_kept _ _ _ _ _ Hn E) as [Hl Hk]. split_and!.
  - assert (NoDup (page (default_limit 20 (sr_Limit opts)) (default_offset (sr_Offset opts)) l)) as Hp
      by (eapply sublist_NoDup; [exact Hl|apply page_sublist]).
    apply NoDup_fmap_2_strong; [|done]. intros x y Hx Hy Hxy. apply elem_of_page in Hx, Hy.
    eapply (table_ok_unique (messages d)); [apply Hok|by apply Hk..|done].
  - pose proof (page_length (default_limit 20 (sr_Limit opts)) (default_offset (sr_Offset opts)) l) as H1.
    pose proof (sublist_length _ _ (page_sublist (default_limit 20 (sr_Limit opts)) (default_offset (sr_Offset opts)) l)) as H2.
    pose proof (default_limit_pos 20 (sr_Limit opts) ltac:(lia)). lia.
  - intros m Hm. apply elem_of_page in Hm. destruct (Hk m Hm). split; [done|]. by eapply search_keeps_access.
Qed.

(** No message addressed to the empty name: what [InsertMessage] stores. *)
Definition recipients_null (d : db) : Prop :=
  forall m, m ∈ rows (messages d) -> to_agent m <> Some EmptyString.

(** The access rule compares the recipient of a channel message with the empty
    string, while the store writes NULL there: as long as no recipient is the
    empty string, search returns nothing but messages the caller sent or was
    sent, never the channel posts of others. *)
Theorem search_hides_channels agentName query opts d (Hok : messaging_ok d) (Hnull : recipients_null d) :
  wp (SearchMessages agentName query opts) (fun o _ =>
    match o with
    | Ok p => forall m, m ∈ pm_Messages p -> to_agent m = Some agentName \/ FromAgent m = agentName
    | _ => True
    end) d.
Proof.
  assert (NoDup (rows (messages d))) as Hn by (eapply NoDup_fmap_1; apply Hok).
  unfold SearchMessages, store_SearchMessages, CountSearchMessages. simpl.
  split; [|done]. destruct (search_rows d agentName query opts) as [l|] eqn:E; simpl; [|done].
  rewrite E. split; [|done]. simpl. intros m Hm. apply elem_of_page in Hm.
  destruct (search_rows_kept _ _ _ _ _ Hn E) as [_ Hk]. destruct (Hk m Hm) as [Hin Hkeep].
  destruct (search_keeps_access _ _ _ _ Hkeep) as [|[|[He _]]]; [by left|by right|].
  by destruct (Hnull m Hin).
Qed.
End Search.

(** ** Search phrases

    FTS5 reads a string literal between double quotes, a doubled quote standing
    for one, and a query of several literals as all of them; [parse_phrases] is
    that reading. *)
Fixpoint parse_literal (s : string) : option (string * string) :=
  match s with
  | EmptyString => None
  | String a r =>
      if bool_decide (a = dquote)
      then match r with
           | String b r' => if bool_decide (b = dquote)
                            then (fun '(t, rest) => (String dquote t, rest)) <$> parse_literal r'
                            else Some (EmptyString, r)
           | EmptyString => Some (EmptyString, EmptyString)
           end
      else (fun '(t, rest) => (String a t, rest)) <$> parse_literal r
  end.

Fixpoint parse_phrases (fuel : nat) (s : string) : option (list string) :=
  match fuel with
  | O => None
  | S f =>
      match s with
      | String a r =>
          if bool_decide (a = dquote)
          then match parse_literal r with
               | Some (t, EmptyString) => Some [t]
               | Some (t, String b rest) =>
                   if ascii_space b then cons t <$> parse_phrases f rest else None
               | None => None
               end
          else None
      | EmptyString => None
      end
  end.

Definition not_quote_led (s : string) : Prop :=
  match s with EmptyString => True | String b _ => b <> dquote end.

Lemma parse_literal_quoted tok rest : not_quote_led rest ->
  parse_literal (double_quotes tok +:+ String dquote rest) = Some (tok, rest).
Proof.
  intros Hr. induction tok as [|a tok IH].
  - destruct rest as [|b rest]; [done|]. simpl in *. by rewrite bool_decide_false.
  - cbn [double_quotes]. case_bool_decide as Ha.
    + subst a. change (parse_literal (String dquote (String dquote (double_quotes tok +:+ String dquote rest))) =
                       Some (String dquote tok, rest)). simpl. rewrite IH. done.
    + change (parse_literal (String a (double_quotes tok +:+ String dquote rest)) = Some (String a tok, rest)).
      simpl. rewrite bool_decide_false, IH by done. done.
Qed.

Lemma string_app_assoc (a b c : string) : (a +:+ b) +:+ c = a +:+ (b +:+ c).
Proof. induction a as [|x a IH]; [done|]. exact (f_equal (String x) IH). Qed.

Lemma parse_join toks fuel :
  toks <> [] -> (length toks <= fuel)%nat -> Forall (fun t => already_quoted t = false) toks ->
  parse_phrases fuel (join " " (quote_token <$> toks)) = Some toks.
Proof.
  revert fuel. induction toks as [|t toks IH]; intros fuel; [done|]. intros _ Hf Hq.
  apply Forall_cons in Hq as [Ht Hq]. destruct fuel as [|fuel]; [simpl in Hf; lia|].
  assert (quote_token t = String dquote (double_quotes t +:+ String dquote EmptyString)) as Hqt
    by (unfold quote_token; by rewrite Ht).
  destruct toks as [|t2 toks].
  - simpl. rewrite Hqt. cbn [parse_phrases]. rewrite bool_decide_true by done.
    by rewrite parse_literal_quoted.
  - assert (join " " (quote_token <$> t :: t2 :: toks) =
            String dquote (double_quotes t +:+ String dquote (String (Ascii.ascii_of_nat 32) (join " " (quote_token <$> t2 :: toks))))) as ->.
    { change (join " " (quote_token <$> t :: t2 :: toks))
        with (quote_token t +:+ " " +:+ join " " (quote_token <$> t2 :: toks)). rewrite Hqt.
      generalize (join " " (quote_token <$> t2 :: toks)). intros j.
      exact (f_equal (String dquote) (string_app_assoc (double_quotes t) (String dquote EmptyString) (" " +:+ j))). }
    set (j := join _ _) in *. cbn [parse_phrases]. rewrite bool_decide_true by done.
    rewrite parse_literal_quoted by done.
    change (ascii_space (Ascii.ascii_of_nat 32)) with true. cbv iota. rewrite IH; [done|done|simpl in *; lia|done].
Qed.


(** The sanitized query is read back by FTS5 as exactly the words of the
    query, operators and quotes inside them included, as long as no word
    already starts and ends with a quote. *)
Theorem sanitize_reads_back query (Hq : is_blank query = false) (Hne : Fields query <> [])
    (Hplain : Forall (fun t => already_quoted t = false) (Fields query)) :
  parse_phrases (length (Fields query)) (sanitizeFTS5Query query) = Some (Fields query).
Proof. unfold sanitizeFTS5Query. rewrite Hq. by apply parse_join. Qed.

(** ** Marking a thread read *)
Lemma for_each_fmap {D A B} (g : A -> B) (xs : list A) (f : B -> prog D unit) d :
  run_ok (for_each xs (fun x => f (g x))) d = run_ok (for_each (g <$> xs) f) d.
Proof.
  revert d. induction xs as [|x xs IH]; intros d; [done|]. rewrite fmap_cons. cbn [for_each].
  rewrite !run_ok_bind. destruct (run_ok (f (g x)) d) as [u d1]. apply IH.
Qed.

Section MarkingDMs.
Context {HEng : Engine}.

Lemma run_mark_conversations agent L (convs : list Z) d :
  messaging_ok d -> 0 <= L -> NoDup convs ->
  let d' := (run_ok (mark_conversations agent L convs) d).2 in
  messages d' = messages d /\
  forall a c, last_read d' a c =
    if bool_decide (a = agent /\ c ∈ convs) then Z.max (last_read d a c) L else last_read d a c.
Proof.
  intros Hok HL Hn. unfold mark_conversations.
  rewrite (for_each_fmap (fun c => (c, L)) convs (fun '(c, v) => let! _ := UpdateInboxState agent c v in Ret tt)).
  destruct (run_mark_each agent ((fun c => (c, L)) <$> convs) d Hok) as (_&Hm&Hr).
  { intros c v Hcv. apply list_elem_of_fmap in Hcv as (?&[= -> ->]&_). done. }
  { rewrite <- list_fmap_compose. by rewrite list_fmap_id. }
  split; [done|]. intros a c. rewrite Hr. destruct (decide (a = agent)) as [->|Ha].
  - rewrite (bool_decide_true (agent = agent)) by done. case_bool_decide as Hc.
    + rewrite (elem_of_list_to_map_1 _ c L); [done| |].
      * rewrite <- list_fmap_compose. by rewrite list_fmap_id.
      * apply list_elem_of_fmap. exists c. naive_solver.
    + rewrite not_elem_of_list_to_map_1; [done|]. rewrite <- list_fmap_compose.
      rewrite list_fmap_id. naive_solver.
  - rewrite !bool_decide_false by naive_solver. done.
Qed.

(** Marking a thread with a peer read up to a message leaves nothing of
    that thread up to it unread for the agent, in whatever conversations
    its messages are, never moves a pointer back or beyond the message asked
    for, and touches nobody else's pointers and no message. *)
Theorem mark_dm_read_clears agent peer L d (Hok : messaging_ok d) (HL : 0 <= L) :
  exists d', run_ok (mark_dm_read agent peer L) d = (Ok tt, d') /\ messages d' = messages d /\
    (forall m, m ∈ rows (messages d) -> Msg_ChannelID m = None -> FromAgent m = peer ->
       to_agent m = Some agent -> Msg_ID m <= L -> Msg_ID m <= last_read d' agent (Msg_ConversationID m)) /\
    (forall c, last_read d agent c <= last_read d' agent c <= Z.max (last_read d agent c) L) /\
    (forall a c, a <> agent -> last_read d' a c = last_read d a c).
Proof.
  set (convs := scan (dm_conversations [agent] peer (fun m => Msg_ID m <=? L) d)).
  destruct (run_mark_conversations agent L convs d Hok HL) as [Hm Hr].
  { unfold convs. rewrite scan_perm. apply NoDup_remove_dups. }
  exists (run_ok (mark_conversations agent L convs) d).2. split_and!.
  - unfold mark_dm_read. rewrite run_ok_bind_ok. unfold run_ok at 1. simpl. fold convs.
    rewrite run_ok_bind. by destruct (run_ok (mark_conversations agent L convs) d).
  - done.
  - intros m Hin Hch Hfrom Hto Hle. rewrite Hr, bool_decide_true; [lia|]. split; [done|].
    unfold convs, dm_conversations. rewrite scan_perm, elem_of_remove_dups, list_elem_of_fmap.
    exists m. split; [done|]. apply elem_of_select. split; [|done].
    unfold is_dm, dm_between. rewrite bool_decide_true by done. rewrite (proj2 (Z.leb_le _ _)) by done.
    apply (proj2 (holds_true _)), t_or_true. right. apply t_and_true. split; [by rewrite t_decide_true|].
    apply t_in_true. exists agent. set_solver.
  - intros c. rewrite Hr. case_bool_decide; lia.
  - intros a c Ha. rewrite Hr, bool_decide_false by naive_solver. done.
Qed.
End MarkingDMs.

(** ** Concrete runs *)
Module QueryRuns.
#[local] Instance fts_none : FTS.
Proof. refine {| fts_query := fun _ _ => Some [] |}. intros q l r [= <-] _. split; [constructor|set_solver]. Defined.
#[local] Existing Instance Runs.eng.
#[local] Existing Instance Runs.gojson.
#[local] Existing Instance Runs.linker.

Definition search_all : SearchOptions :=
  mkSearchOptions "" "" None 0 None 0 0 None None "" [] [] [] [].

(** Alice and bob are members of channel 1; alice posts there, and writes to
    bob. *)
Definition channel_db : db :=
  (Runs.run_calls
     [CallSend "alice" "" "standup at ten" (mkSendOptions "" 0 RawEmpty (Some 1) None None []);
      CallSend "alice" "bob" "lunch?" (Runs.plain "" 0 RawEmpty)]
     (set_channel_members (mkTable [mkMembership 1 1 "alice" RoleOwner 0; mkMembership 2 1 "bob" RoleMember 0] 3)
       (set_channels (mkTable [mkChannel 1 "general" "" "" TypeStandard false false "alice"
         (mkChannelSettings false false "24h" "72h" S754_nan S754_nan) 0 0] 2) Runs.two_agents))).2.

Lemma channel_db_ok : messaging_ok channel_db.
Proof. apply Runs.run_calls_ok. split; simpl; [apply table_ok_empty|set_solver|apply table_ok_empty|constructor]. Qed.

Lemma channel_db_null : recipients_null channel_db.
Proof.
  intros m Hm. assert (Forall (fun m => to_agent m <> Some EmptyString) (rows (messages channel_db))) as H.
  { vm_compute. repeat constructor; discriminate. }
  by apply (proj1 (Forall_forall _ _) H).
Qed.

Lemma search_scoped_witness :
  messaging_ok channel_db /\ exists p, (run_ok (SearchMessages "bob" "" search_all) channel_db).1 = Ok p /\
    NoDup (Msg_ID <$> pm_Messages p).
Proof.
  split; [exact channel_db_ok|].
  pose proof (wp_run_ok _ _ _ (search_scoped "bob" "" search_all channel_db channel_db_ok)) as [_ H].
  destruct (run_ok (SearchMessages "bob" "" search_all) channel_db) as [[p|e|w] d'] eqn:E.
  - exists p. split; [reflexivity|]. exact (proj1 H).
  - vm_compute in E. discriminate E.
  - destruct H.
Defined.

Lemma search_hides_channels_witness :
  messaging_ok channel_db /\ recipients_null channel_db /\
  (exists m, m ∈ rows (messages channel_db) /\ Msg_ChannelID m = Some 1 /\ is_member channel_db "bob" 1 = true /\
     forall p, (run_ok (SearchMessages "bob" "" search_all) channel_db).1 = Ok p -> m ∉ pm_Messages p).
Proof.
  split; [exact channel_db_ok|]. split; [exact channel_db_null|].
  exists (nth 0 (rows (messages channel_db)) (mkMessage 0 0 "" None None None "" 0 StatusPending RawEmpty None None 0 0)).
  split; [vm_compute; left|]. split; [reflexivity|]. split; [reflexivity|]. intros p E Hm.
  pose proof (wp_run_ok _ _ _ (search_hides_channels "bob" "" search_all channel_db channel_db_ok channel_db_null)) as H.
  cbv beta in H. rewrite E in H. destruct (H _ Hm) as [Hto|Hfrom].
  - vm_compute in Hto. discriminate Hto.
  - vm_compute in Hfrom. discriminate Hfrom.
Defined.

Lemma sanitize_reads_back_witness :
  is_blank "from alice  NOT bob" = false /\
  parse_phrases 4 (sanitizeFTS5Query "from alice  NOT bob") = Some ["from"; "alice"; "NOT"; "bob"].
Proof.
  split; [reflexivity|].
  apply (sanitize_reads_back "from alice  NOT bob"); [reflexivity|discriminate|repeat constructor].
Defined.

Lemma mark_dm_read_clears_witness :
  messaging_ok channel_db /\ 2 <= last_read (run_ok (mark_dm_read "bob" "alice" 2) channel_db).2 "bob" 2.
Proof.
  split; [exact channel_db_ok|].
  destruct (mark_dm_read_clears "bob" "alice" 2 channel_db channel_db_ok ltac:(lia)) as (d'&E&_&H&_).
  rewrite E. change d' with ((@Ok error unit tt, d').2). cbn [snd].
  apply (H (nth 1 (rows (messages channel_db)) (mkMessage 0 0 "" None None None "" 0 StatusPending RawEmpty None None 0 0)));
    [vm_compute; right; left|reflexivity|reflexivity|reflexivity|vm_compute; discriminate].
Defined.
End QueryRuns.
