(* ===== verification/GoalTasks.v ===== *)
(** * Goal tasks (internal/goaltasks: types.go, service.go, store.go)

    The work tree of a goal: creation of a whole tree in one transaction with
    the denormalized ancestry, the optimistic-lock claim, the task state
    machine, spend counters and their roll-up over a subtree. *)
From S2P Require Import Prelude Prog Table Schema.

(** ** The state machine *)
Definition legalTransition (from to : GTStatus) : bool :=
  if bool_decide (to = GTCancelled)
  then negb (bool_decide (from = GTDone)) && negb (bool_decide (from = GTFailed)) &&
       negb (bool_decide (from = GTCancelled))
  else match from with
       | GTProposed => bool_decide (to = GTApproved)
       | GTApproved => bool_decide (to = GTClaimed)
       | GTClaimed => bool_decide (to = GTInProgress) || bool_decide (to = GTAwaitingVerification)
       | GTInProgress => bool_decide (to = GTAwaitingVerification)
       | GTAwaitingVerification => bool_decide (to = GTDone) || bool_decide (to = GTFailed)
       | _ => false
       end.

(** The CHECK constraint of the status column. *)
Definition status_allowed (s : GTStatus) : bool :=
  match s with GTOther _ => false | _ => true end.

(** ** Ancestry *)
Definition MaxAncestryBytes : Z := 16 * 1024.

(** The size of the JSON text [json.Marshal] writes for a chain.  The byte
    counts of the string escapes and of the decimal ids are those of
    [encoding/json]; [json_string_len] and [decimal_len] give them. *)
Definition byte_json_len (a : Ascii.ascii) : Z :=
  let n := Z.of_nat (Ascii.nat_of_ascii a) in
  if bool_decide (n = 34 \/ n = 92 \/ n = 8 \/ n = 12 \/ n = 10 \/ n = 13 \/ n = 9) then 2
  else if bool_decide (n < 32 \/ n = 60 \/ n = 62 \/ n = 38) then 6
  else 1.

(** The line separators U+2028 and U+2029 are three bytes in UTF-8 and are
    written as six.  Text is assumed to be valid UTF-8. *)
Fixpoint json_string_body (s : string) : Z :=
  match s with
  | EmptyString => 0
  | String a r =>
      let here := byte_json_len a in
      match r with
      | String b (String c _) =>
          let n := Ascii.nat_of_ascii a in let m := Ascii.nat_of_ascii b in
          let k := Ascii.nat_of_ascii c in
          if bool_decide (n = 226 /\ m = 128 /\ (k = 168 \/ k = 169))%nat
          then here + 3 + json_string_body r else here + json_string_body r
      | _ => here + json_string_body r
      end
  end.
Definition json_string_len (s : string) : Z := 2 + json_string_body s.

Fixpoint pos_digits (fuel : nat) (n : Z) : Z :=
  match fuel with
  | O => 0
  | S f => if n <? 10 then 1 else 1 + pos_digits f (n / 10)
  end.
(** An int64 has at most 19 decimal digits. *)
Definition decimal_len (n : Z) : Z :=
  if n <? 0 then 1 + pos_digits 20 (- n) else pos_digits 20 n.

(** {"id":N,"title":S} with ,"acceptance_criteria":S unless it is empty. *)
Definition ancestry_node_len (a : AncestryNode) : Z :=
  6 + decimal_len (Anc_ID a) + 9 + json_string_len (Anc_Title a) +
  (if bool_decide (Anc_AcceptanceCriteria a = "") then 0
   else 23 + json_string_len (Anc_AcceptanceCriteria a)) + 1.

(** The chain: [null] for a nil slice, brackets and commas otherwise. *)
Definition ancestry_json_len (nodes : list AncestryNode) : Z :=
  match nodes with
  | [] => 4
  | _ => 1 + Z.of_nat (length nodes) + foldr (fun a n => ancestry_node_len a + n) 0 nodes
  end.

(** marshalAncestry: the chain itself, or the overflow error. *)
Definition marshalAncestry (nodes : list AncestryNode) : outcome error (list AncestryNode) :=
  if MaxAncestryBytes <? ancestry_json_len nodes then Err ErrAncestryOverflow else Ok nodes.

(** ** The input tree *)
#[local] Set Warnings "-register-all".
Inductive TreeNode : Type := mkTreeNode {
  TN_Title : string;
  TN_Description : string;
  TN_AcceptanceCriteria : string;
  TN_BillingCode : string;
  TN_BudgetTokens : option Z;
  TN_BudgetDollarsCents : option Z;
  TN_VerifierConfig : option string;
  TN_HeartbeatConfig : option string;
  Children : list TreeNode
}.

Record CreateTreeInput := mkCreateTreeInput {
  in_GoalID : Z;
  in_CreatedByAgent : option Z;
  in_CreatedByUser : option Z;
  in_Root : TreeNode;
  in_InitialStatus : option GTStatus;   (** [None]: the empty string *)
  in_DefaultBilling : string
}.

Record Extras := mkExtras {
  ex_FailureReason : string;
  ex_CompletionMessageID : option Z
}.

Definition nullableString (s : string) : option string :=
  if bool_decide (s = "") then None else Some s.

(** [COALESCE(new, old)]. *)
Definition coalesce {A} (new old : option A) : option A :=
  match new with Some _ => new | None => old end.

(** ** The store *)

(** The row an INSERT writes; the columns it does not name take their
    defaults. *)
Definition task_row (t : GoalTask) (id : Z) : GoalTask :=
  mkGoalTask id (GT_GoalID t) (ParentTaskID t) (Ancestry t) (GT_Depth t) (GT_Title t)
    (GT_Description t) (GT_AcceptanceCriteria t) (CreatedByAgentID t) (CreatedByUserID t)
    (AssigneeAgentID t) (GT_Status t) (billing_code t) (GT_BudgetTokens t)
    (GT_BudgetDollarsCents t) 0 0 (GT_HeartbeatConfig t) (GT_VerifierConfig t)
    None None None None None None.

(** The CHECK constraints of the table. *)
Definition task_row_allowed (t : GoalTask) : bool :=
  status_allowed (GT_Status t) &&
  negb (bool_decide (CreatedByAgentID t = None /\ CreatedByUserID t = None)).

(** Insert inside a transaction that has already written [tbl]. *)
Definition Insert (t : GoalTask) (tbl : table GoalTask) : outcome error (Z * table GoalTask) :=
  match marshalAncestry (Ancestry t) with
  | Ok _ => if task_row_allowed t then Ok (next_id tbl, insert_row (task_row t) tbl) else Err EDb
  | Err e => Err e
  | Panic w => Panic w
  end.

Definition Get (id : Z) : M GoalTask :=
  query_o EDb (fun d => match find_id id (goal_tasks d) with
                        | Some t => Ok t
                        | None => Err ErrGoalTaskNotFound
                        end).

Definition ListByGoal (goalID : Z) : M (list GoalTask) :=
  query EDb (fun d => select (fun t => GT_GoalID t =? goalID) (goal_tasks d)).

Definition claim_task (agentID now : Z) (claimMessageID : option Z) (t : GoalTask) : GoalTask :=
  mkGoalTask (GT_ID t) (GT_GoalID t) (ParentTaskID t) (Ancestry t) (GT_Depth t) (GT_Title t)
    (GT_Description t) (GT_AcceptanceCriteria t) (CreatedByAgentID t) (CreatedByUserID t)
    (Some agentID) GTClaimed (billing_code t) (GT_BudgetTokens t)
    (GT_BudgetDollarsCents t) (SpentTokens t) (SpentDollarsCents t) (GT_HeartbeatConfig t)
    (GT_VerifierConfig t) claimMessageID (GT_CompletionMessageID t) (failure_reason t)
    (Some now) (GT_StartedAt t) (GT_CompletedAt t).

(** WHERE id = ? AND assignee_agent_id IS NULL AND status = 'approved'. *)
Definition claimable_task (taskID : Z) (t : GoalTask) : bool :=
  by_id taskID t && (bool_decide (AssigneeAgentID t = None) && bool_decide (GT_Status t = GTApproved)).

Definition ClaimAtomic (taskID agentID : Z) (claimMessageID : option Z) : M unit :=
  let! now := time_now in
  exec_o EDb
    (fun d => set_goal_tasks (update_rows (claimable_task taskID) (claim_task agentID now claimMessageID)
                (goal_tasks d)) d)
    (fun d => if affected (claimable_task taskID) (goal_tasks d) =? 0 then Err ErrAlreadyClaimed else Ok tt).

Definition is_terminal (s : GTStatus) : bool :=
  match s with GTDone | GTFailed | GTCancelled => true | _ => false end.

Definition move_task (newStatus : GTStatus) (now : Z) (extras : Extras) (t : GoalTask) : GoalTask :=
  mkGoalTask (GT_ID t) (GT_GoalID t) (ParentTaskID t) (Ancestry t) (GT_Depth t) (GT_Title t)
    (GT_Description t) (GT_AcceptanceCriteria t) (CreatedByAgentID t) (CreatedByUserID t)
    (AssigneeAgentID t) newStatus (billing_code t) (GT_BudgetTokens t)
    (GT_BudgetDollarsCents t) (SpentTokens t) (SpentDollarsCents t) (GT_HeartbeatConfig t)
    (GT_VerifierConfig t) (ClaimMessageID t)
    (coalesce (ex_CompletionMessageID extras) (GT_CompletionMessageID t))
    (coalesce (nullableString (ex_FailureReason extras)) (failure_reason t))
    (GT_ClaimedAt t)
    (coalesce (GT_StartedAt t) (if bool_decide (newStatus = GTInProgress) then Some now else None))
    (if is_terminal newStatus then Some now else GT_CompletedAt t).

(** An unconditional UPDATE; the CHECK constraint on status applies when a row
    matches. *)
Definition TransitionStatus (taskID : Z) (newStatus : GTStatus) (extras : Extras) : M unit :=
  let! now := time_now in
  let rejected d := negb (status_allowed newStatus) && negb (affected (by_id taskID) (goal_tasks d) =? 0) in
  exec_o EDb
    (fun d => if rejected d then d
              else set_goal_tasks (update_rows (by_id taskID) (move_task newStatus now extras) (goal_tasks d)) d)
    (fun d => if rejected d then Err EDb else Ok tt).

Definition spend_task (tokens dollarsCents : Z) (t : GoalTask) : GoalTask :=
  mkGoalTask (GT_ID t) (GT_GoalID t) (ParentTaskID t) (Ancestry t) (GT_Depth t) (GT_Title t)
    (GT_Description t) (GT_AcceptanceCriteria t) (CreatedByAgentID t) (CreatedByUserID t)
    (AssigneeAgentID t) (GT_Status t) (billing_code t) (GT_BudgetTokens t)
    (GT_BudgetDollarsCents t) (SpentTokens t + tokens) (SpentDollarsCents t + dollarsCents)
    (GT_HeartbeatConfig t) (GT_VerifierConfig t) (ClaimMessageID t) (GT_CompletionMessageID t)
    (failure_reason t) (GT_ClaimedAt t) (GT_StartedAt t) (GT_CompletedAt t).

Definition AddSpend (taskID tokens dollarsCents : Z) : M unit :=
  exec EDb (fun d => set_goal_tasks (update_rows (by_id taskID) (spend_task tokens dollarsCents) (goal_tasks d)) d)
           (fun _ => tt).

(** *** The recursive CTE

    One round of [UNION ALL]: the rows whose parent is in the queue.  The
    recursion stops when a round adds nothing; [length rows + 1] rounds are
    enough for a forest, and a cycle (which no operation creates) would make
    the SQL run forever: [None]. *)
Definition children_of (ids : list Z) (tbl : list GoalTask) : list Z :=
  ids ≫= fun id => GT_ID <$> filter (fun t => ParentTaskID t = Some id) tbl.

Fixpoint cte_rounds (fuel : nat) (frontier : list Z) (tbl : list GoalTask) : option (list Z) :=
  match frontier with
  | [] => Some []
  | _ => match fuel with
         | O => None
         | S f => (fun rest => frontier ++ rest) <$> cte_rounds f (children_of frontier tbl) tbl
         end
  end.

Definition subtree (root : Z) (tbl : table GoalTask) : option (list Z) :=
  cte_rounds (S (length (rows tbl))) (GT_ID <$> filter (fun t => GT_ID t = root) (rows tbl)) (rows tbl).

Definition sumZ (l : list Z) : Z := foldr Z.add 0 l.

Definition rollup (root : Z) (tbl : table GoalTask) : option (Z * Z * Z) :=
  (fun ids => let ts := filter (fun t => GT_ID t ∈ ids) (rows tbl) in
              (sumZ (SpentTokens <$> ts), sumZ (SpentDollarsCents <$> ts), Z.of_nat (length ts)))
  <$> subtree root tbl.

(** A query that never ends is the driver's error when the context expires. *)
Definition RollupCosts (root : Z) : M (Z * Z * Z) :=
  query_o EDb (fun d => match rollup root (goal_tasks d) with Some r => Ok r | None => Err EDb end).

Record Spend := mkSpend { Tokens : Z; DollarsCents : Z }.

(** [GROUP BY billing_code]: one row per value, NULL included, in no order the
    query fixes; a later row with the same key (NULL and the empty string both
    read as the empty key) overwrites the earlier one in the Go map. *)
Definition billing_groups `{!Engine} (ts : list GoalTask) : list (option string) :=
  scan (remove_dups (billing_code <$> ts)).

Definition billing_spend (ts : list GoalTask) (c : option string) : Spend :=
  let g := filter (fun t => billing_code t = c) ts in
  mkSpend (sumZ (SpentTokens <$> g)) (sumZ (SpentDollarsCents <$> g)).

Definition by_billing_code `{!Engine} (ts : list GoalTask) : gmap string Spend :=
  foldl (fun out c => <[default EmptyString c := billing_spend ts c]> out) ∅ (billing_groups ts).

Definition RollupByBillingCode `{!Engine} (root : Z) : M (gmap string Spend) :=
  query_o EDb (fun d => match subtree root (goal_tasks d) with
                        | Some ids => Ok (by_billing_code (filter (fun t => GT_ID t ∈ ids) (rows (goal_tasks d))))
                        | None => Err EDb
                        end).

(** ** The service *)

Definition tree_task (inp : CreateTreeInput) (status : GTStatus) (node : TreeNode)
    (parentID : option Z) (depth : Z) (ancestry : list AncestryNode) : GoalTask :=
  let billing := if bool_decide (TN_BillingCode node = "") then in_DefaultBilling inp else TN_BillingCode node in
  mkGoalTask 0 (in_GoalID inp) parentID ancestry depth (TN_Title node) (TN_Description node)
    (TN_AcceptanceCriteria node) (in_CreatedByAgent inp) (in_CreatedByUser inp) None status
    (nullableString billing) (TN_BudgetTokens node) (TN_BudgetDollarsCents node) 0 0
    (TN_HeartbeatConfig node) (TN_VerifierConfig node) None None None None None None.

(** The closure [walk] of CreateTree, over the table the transaction sees and
    the list of ids allocated so far. *)
Section Walk.
Context (inp : CreateTreeInput) (status : GTStatus).

Fixpoint walk (node : TreeNode) (parentID : option Z) (depth : Z) (ancestry : list AncestryNode)
    (st : table GoalTask * list Z) {struct node} : outcome error (Z * (table GoalTask * list Z)) :=
  match Insert (tree_task inp status node parentID depth ancestry) st.1 with
  | Err e => Err e
  | Panic w => Panic w
  | Ok (id, tbl) =>
      let childAncestry := ancestry ++ [mkAncestryNode id (TN_Title node) (TN_AcceptanceCriteria node)] in
      match (fix walk_children (cs : list TreeNode) st :=
               match cs with
               | [] => Ok st
               | c :: rest =>
                   match walk c (Some id) (depth + 1) childAncestry st with
                   | Ok (_, st') => walk_children rest st'
                   | Err e => Err e
                   | Panic w => Panic w
                   end
               end) (Children node) (tbl, st.2 ++ [id]) with
      | Ok st' => Ok (id, st')
      | Err e => Err e
      | Panic w => Panic w
      end
  end.
End Walk.

(** One transaction: either everything is committed or nothing is, so it is one
    atomic step of the database. *)
Definition CreateTree (inp : CreateTreeInput) : M (Z * list Z) :=
  let status := default GTApproved (in_InitialStatus inp) in
  let result d := walk inp status (in_Root inp) None 0 [] (goal_tasks d, []) in
  exec_o EDb
    (fun d => match result d with Ok (_, (tbl, _)) => set_goal_tasks tbl d | _ => d end)
    (fun d => match result d with
              | Ok (root, (_, ids)) => Ok (root, ids)
              | Err e => Err e
              | Panic w => Panic w
              end).

Definition Claim (taskID agentID : Z) (claimMessageID : option Z) : M unit :=
  ClaimAtomic taskID agentID claimMessageID.

Definition Transition (taskID : Z) (newStatus : GTStatus) (extras : Extras) : M unit :=
  let? t := Get taskID in
  if negb (legalTransition (GT_Status t) newStatus)
  then Ret (Err (ErrIllegalTransition (GT_Status t) newStatus))
  else TransitionStatus taskID newStatus extras.
