(* ===== verification/GoalTasksFacts.v ===== *)
(** * Goal tasks: tree invariant, exclusive claims, transitions, roll-ups *)
From S2P Require Import Prelude Prog Table Schema GoalTasks.

(** ** The state machine *)
Definition gt_rank (s : GTStatus) : Z :=
  match s with
  | GTProposed => 0 | GTApproved => 1 | GTClaimed => 2 | GTInProgress => 3
  | GTAwaitingVerification => 4 | _ => 5
  end.

(** The task state machine only moves forward: every legal transition
    strictly increases the rank of the status, so no task passes through more
    than five of them; done, failed and cancelled are final, and every other
    named status can be cancelled. *)
Theorem legalTransition_forward :
  (forall from to, legalTransition from to = true ->
     gt_rank from < gt_rank to \/ exists s, from = GTOther s) /\
  (forall from to, is_terminal from = true -> legalTransition from to = false) /\
  (forall from, is_terminal from = false -> legalTransition from GTCancelled = true).
Proof.
  unfold legalTransition. split_and!.
  - intros from to. destruct from, to; first [by intros H; discriminate H | by left | by right; eauto].
  - intros from to Hf. destruct from, to; try done.
  - intros from Hf. by destruct from.
Qed.

(** ** Well-formed trees *)
Lemma nullableString_ne s : nullableString s <> Some EmptyString.
Proof. unfold nullableString. case_bool_decide; congruence. Qed.

Definition ancestry_entry (t : GoalTask) : AncestryNode :=
  mkAncestryNode (GT_ID t) (GT_Title t) (GT_AcceptanceCriteria t).

Definition child_of (t p : GoalTask) : Prop :=
  GT_ID p < GT_ID t /\ Ancestry t = Ancestry p ++ [ancestry_entry p] /\
  GT_Depth t = GT_Depth p + 1 /\ GT_GoalID t = GT_GoalID p.

Definition task_placed (l : list GoalTask) (t : GoalTask) : Prop :=
  match ParentTaskID t with
  | None => Ancestry t = [] /\ GT_Depth t = 0
  | Some pid => exists p, p ∈ l /\ GT_ID p = pid /\ child_of t p
  end.

(** The task trees: ids are unique, every parent is an older task of the same
    goal, every task carries the exact chain from the root to its parent, and
    the chain fits its cap; an absent billing code is NULL, never the empty
    string. *)
Record tree_ok (tbl : table GoalTask) : Prop := {
  tr_table : table_ok tbl;
  tr_placed : forall t, t ∈ rows tbl -> task_placed (rows tbl) t;
  tr_cap : forall t, t ∈ rows tbl -> ancestry_json_len (Ancestry t) <= MaxAncestryBytes;
  tr_billing : forall t, t ∈ rows tbl -> billing_code t <> Some EmptyString
}.

(** What never changes in a task once created. *)
Definition frozen (t : GoalTask) :=
  (GT_ID t, GT_GoalID t, ParentTaskID t, Ancestry t, GT_Depth t, GT_Title t, GT_AcceptanceCriteria t,
   billing_code t).

Lemma frozen_fields t t' : frozen t' = frozen t ->
  GT_ID t' = GT_ID t /\ GT_GoalID t' = GT_GoalID t /\ ParentTaskID t' = ParentTaskID t /\
  Ancestry t' = Ancestry t /\ GT_Depth t' = GT_Depth t /\ billing_code t' = billing_code t.
Proof. unfold frozen. intros [=]. done. Qed.

Lemma frozen_child t t' p p' :
  frozen t' = frozen t -> frozen p' = frozen p -> child_of t p -> child_of t' p'.
Proof. unfold frozen, child_of, ancestry_entry. intros; simplify_eq. naive_solver congruence. Qed.

Lemma tree_ok_update p f tbl :
  (forall t, frozen (f t) = frozen t) -> tree_ok tbl -> tree_ok (update_rows p f tbl).
Proof.
  intros Hf [Ht Hp Hc Hb]. assert (forall t, GT_ID (f t) = GT_ID t) as Hid.
  { intros t. specialize (Hf t). unfold frozen in Hf. congruence. }
  assert (forall t, frozen (if p t then f t else t) = frozen t) as Hf'.
  { intros t. by destruct (p t). }
  split.
  - by apply table_ok_update.
  - intros t'. simpl. rewrite elem_of_map_if. intros (t&Hin&->). specialize (Hp t Hin).
    specialize (Hf' t) as Ht'. unfold task_placed in *.
    apply frozen_fields in Ht' as Hff. destruct Hff as (_&_&->&->&->&_).
    destruct (ParentTaskID t) as [pid|].
    + destruct Hp as (q&Hq&Hqid&Hch). exists (if p q then f q else q). split_and!.
      * apply elem_of_map_if. eauto.
      * by destruct (frozen_fields _ _ (Hf' q)) as (->&_).
      * eapply frozen_child; [apply Hf'|apply Hf'|exact Hch].
    + done.
  - intros t'. simpl. rewrite elem_of_map_if. intros (t&Hin&->). specialize (Hc t Hin).
    by destruct (frozen_fields _ _ (Hf' t)) as (_&_&_&->&_).
  - intros t'. simpl. rewrite elem_of_map_if. intros (t&Hin&->). specialize (Hb t Hin).
    by destruct (frozen_fields _ _ (Hf' t)) as (_&_&_&_&_&->).
Qed.

Lemma task_placed_more l l' t : (forall p, p ∈ l -> p ∈ l') -> task_placed l t -> task_placed l' t.
Proof.
  intros Hsub. unfold task_placed. destruct (ParentTaskID t); [|done]. intros (p&?&?). eauto.
Qed.

(** ** Creating a tree *)
Section TreeInd.
Context (P : TreeNode -> Prop).
Context (step : forall n, Forall P (Children n) -> P n).

Fixpoint TreeNode_nested_ind (n : TreeNode) : P n :=
  step n ((fix go (l : list TreeNode) : Forall P l :=
             match l with
             | [] => Forall_nil_2 P
             | c :: rest => Forall_cons_2 P c rest (TreeNode_nested_ind c) (go rest)
             end) (Children n)).
End TreeInd.

Fixpoint tree_size (n : TreeNode) : nat :=
  S ((fix go l := match l with [] => O | c :: r => (tree_size c + go r)%nat end) (Children n)).
Definition forest_size (l : list TreeNode) : nat := foldr (fun c n => tree_size c + n)%nat O l.

Lemma tree_size_unfold n : tree_size n = S (forest_size (Children n)).
Proof. destruct n as [? ? ? ? ? ? ? ? cs]. simpl. f_equal. Qed.

Section Walking.
Context (inp : CreateTreeInput) (status : GTStatus).

(** [walk] over a list of siblings, as the loop in [walk] runs it. *)
Fixpoint walk_list (cs : list TreeNode) (parentID : option Z) (depth : Z) (anc : list AncestryNode)
    (st : table GoalTask * list Z) : outcome error (table GoalTask * list Z) :=
  match cs with
  | [] => Ok st
  | c :: rest =>
      match walk inp status c parentID depth anc st with
      | Ok (_, st') => walk_list rest parentID depth anc st'
      | Err e => Err e
      | Panic w => Panic w
      end
  end.

Lemma walk_unfold node parentID depth anc st :
  walk inp status node parentID depth anc st =
  match Insert (tree_task inp status node parentID depth anc) st.1 with
  | Err e => Err e
  | Panic w => Panic w
  | Ok (id, tbl) =>
      match walk_list (Children node) (Some id) (depth + 1)
              (anc ++ [mkAncestryNode id (TN_Title node) (TN_AcceptanceCriteria node)]) (tbl, st.2 ++ [id]) with
      | Ok st' => Ok (id, st')
      | Err e => Err e
      | Panic w => Panic w
      end
  end.
Proof.
  destruct node as [ti de ac bi bt bd ve he cs]. simpl. destruct (Insert _ _) as [[id tbl]|e|w]; [|done..].
  set (st0 := (tbl, st.2 ++ [id])). clearbody st0.
  match goal with |- match ?f cs st0 with _ => _ end = match ?g with _ => _ end =>
    assert (f cs st0 = g) as E; [|by rewrite E] end.
  revert st0. induction cs as [|c rest IH]; intros st0; simpl; [done|].
  destruct (walk _ _ _ _ _ _ _) as [[? ?]|?|?]; [apply IH|done..].
Qed.

(** Where the children of a node hang. *)
Definition parent_ready (tbl : table GoalTask) (parentID : option Z) (depth : Z) (anc : list AncestryNode) : Prop :=
  match parentID with
  | None => anc = [] /\ depth = 0
  | Some pid => exists p, p ∈ rows tbl /\ GT_ID p = pid /\ anc = Ancestry p ++ [ancestry_entry p] /\
                depth = GT_Depth p + 1 /\ GT_GoalID p = in_GoalID inp
  end.

(** What a walk adds to the table: rows at the end, with the next ids. *)
Record walked (n : nat) (st st' : table GoalTask * list Z) : Prop := {
  wk_ok : tree_ok st'.1;
  wk_rows : exists new, rows st'.1 = rows st.1 ++ new /\ length new = n /\
              GT_ID <$> new = seqZ (next_id st.1) (Z.of_nat n) /\
              (forall t, t ∈ new -> GT_GoalID t = in_GoalID inp /\ GT_Status t = status);
  wk_next : next_id st'.1 = next_id st.1 + Z.of_nat n;
  wk_ids : st'.2 = st.2 ++ seqZ (next_id st.1) (Z.of_nat n)
}.

Lemma walked_trans n m st1 st2 st3 : walked n st1 st2 -> walked m st2 st3 -> walked (n + m) st1 st3.
Proof.
  intros [_ (l1&Hr1&Hn1&Hs1&Hg1) Hx1 Hi1] [Hok (l2&Hr2&Hn2&Hs2&Hg2) Hx2 Hi2]. split.
  - done.
  - exists (l1 ++ l2). rewrite Hr2, Hr1, length_app, fmap_app, Hs1, Hs2, Hx1, Nat2Z.inj_add.
    split_and!; [by rewrite app_assoc|lia|symmetry; apply seqZ_app; lia|set_solver].
  - lia.
  - rewrite Hi2, Hi1, Hx1, <- app_assoc. f_equal. rewrite Nat2Z.inj_add. symmetry. apply seqZ_app; lia.
Qed.

Lemma parent_ready_walked n st st' parentID depth anc :
  walked n st st' -> parent_ready st.1 parentID depth anc -> parent_ready st'.1 parentID depth anc.
Proof.
  intros [_ (l&Hr&_) _ _]. unfold parent_ready. destruct parentID; [|done].
  intros (p&Hp&?). exists p. rewrite Hr. set_solver.
Qed.

Lemma Insert_walked node parentID depth anc st id tbl :
  tree_ok st.1 -> parent_ready st.1 parentID depth anc ->
  Insert (tree_task inp status node parentID depth anc) st.1 = Ok (id, tbl) ->
  id = next_id st.1 /\ walked 1 st (tbl, st.2 ++ [id]) /\
  parent_ready tbl (Some id) (depth + 1)
    (anc ++ [mkAncestryNode id (TN_Title node) (TN_AcceptanceCriteria node)]).
Proof.
  intros [Ht Hp Hc Hb] Hpar. unfold Insert, marshalAncestry. simpl.
  destruct (Z.ltb_spec MaxAncestryBytes (ancestry_json_len anc)) as [|Hcap]; [done|].
  destruct (task_row_allowed _); [|done]. intros [= <- <-]. split; [done|].
  set (t := task_row (tree_task inp status node parentID depth anc) (next_id st.1)).
  set (tbl := insert_row _ st.1).
  assert (t ∈ rows tbl) as Hin by (simpl; set_solver). split.
  - split; simpl.
    + split; [by apply table_ok_insert| | |].
      * intros t'. simpl. rewrite elem_of_app, list_elem_of_singleton. intros [Hin'| ->].
        -- eapply task_placed_more; [|by apply Hp]. set_solver.
        -- unfold task_placed. simpl. destruct parentID as [pid|]; [|by destruct Hpar].
           destruct Hpar as (p&Hpin&Hpid&Ha&Hd&Hg). exists p. split_and!; [set_solver|done|].
           destruct Ht as [_ Hlt]. specialize (Hlt p Hpin). unfold row_id, GoalTask_row in Hlt.
           unfold child_of, t. simpl. done.
      * intros t'. simpl. rewrite elem_of_app, list_elem_of_singleton. intros [?| ->]; [auto|simpl; lia].
      * intros t'. simpl. rewrite elem_of_app, list_elem_of_singleton. intros [?| ->]; [auto|].
        simpl. apply nullableString_ne.
    + exists [t]. split_and!; [done|done|done|].
      intros t' Ht'. apply list_elem_of_singleton in Ht'. by subst.
    + lia.
    + done.
  - exists t. split_and!; [done|done|done|done|done].
Qed.

Lemma walk_list_walked cs parentID depth anc :
  Forall (fun n => forall parentID depth anc st id st', tree_ok st.1 ->
    parent_ready st.1 parentID depth anc ->
    walk inp status n parentID depth anc st = Ok (id, st') ->
    id = next_id st.1 /\ walked (tree_size n) st st') cs ->
  forall st st', tree_ok st.1 -> parent_ready st.1 parentID depth anc ->
    walk_list cs parentID depth anc st = Ok st' -> walked (forest_size cs) st st'.
Proof.
  induction 1 as [|c cs Hc _ IH]; intros st st' Hok Hpar; simpl.
  - intros [= <-]. split; [done| |lia|by rewrite app_nil_r].
    exists []. rewrite app_nil_r. split_and!; [done|done|done|set_solver].
  - destruct (walk _ _ _ _ _ _ _) as [[id st1]|?|?] eqn:E; [|done..]. intros Hrest.
    destruct (Hc _ _ _ _ _ _ Hok Hpar E) as [_ Hw].
    eapply walked_trans; [exact Hw|]. apply IH; [apply Hw|by eapply parent_ready_walked|done].
Qed.

Lemma walk_walked node : forall parentID depth anc st id st',
  tree_ok st.1 -> parent_ready st.1 parentID depth anc ->
  walk inp status node parentID depth anc st = Ok (id, st') ->
  id = next_id st.1 /\ walked (tree_size node) st st'.
Proof.
  induction node as [node IH] using TreeNode_nested_ind.
  intros parentID depth anc st id st' Hok Hpar. rewrite walk_unfold.
  destruct (Insert _ _) as [[id1 tbl]|?|?] eqn:E; [|done..].
  destruct (Insert_walked _ _ _ _ _ _ _ Hok Hpar E) as (->&Hw1&Hpar1).
  destruct (walk_list _ _ _ _ _) as [st2|?|?] eqn:E2; [|done..]. intros [= <- <-]. split; [done|].
  rewrite tree_size_unfold. apply (walked_trans 1 _ _ _ _ Hw1).
  eapply (walk_list_walked _ _ _ _ IH); [apply Hw1|exact Hpar1|exact E2].
Qed.

(** Insertions never panic, and the only errors are the cap and the
    database's own. *)
Lemma walk_no_panic node : forall parentID depth anc st w,
  walk inp status node parentID depth anc st <> Panic w.
Proof.
  induction node as [node IH] using TreeNode_nested_ind. intros parentID depth anc st w.
  rewrite walk_unfold. unfold Insert, marshalAncestry. destruct (_ <? _); [done|].
  destruct (task_row_allowed _); [|done].
  match goal with |- context [walk_list ?cs ?p ?dd ?a ?s0] => generalize p dd a s0 end.
  intros p0 dp0 a0 s0.
  assert (forall s, walk_list (Children node) p0 dp0 a0 s <> Panic w) as H.
  { induction IH as [|c cs Hc _ IHl]; intros s; simpl; [done|].
    destruct (walk _ _ c _ _ _ _) as [[? ?]|?|?] eqn:E; [apply IHl|done|]. intros [= ->]. by eapply Hc. }
  specialize (H s0). destruct (walk_list _ _ _ _ s0); [done|done|congruence].
Qed.
End Walking.

(** [CreateTree] is all or nothing.  When it succeeds, the tasks of the
    input tree, and only they, were appended with the next ids in preorder, the
    root first, all with the goal and the status asked for, and every task
    still carries the exact chain of its ancestors, within the size cap; when
    it fails, the database is what it was. *)
Theorem create_tree_effect inp d (Hok : tree_ok (goal_tasks d)) :
  let n := Z.of_nat (tree_size (in_Root inp)) in
  let next := next_id (goal_tasks d) in
  wp (CreateTree inp) (fun o d' =>
    match o with
    | Ok (root, ids) =>
        root = next /\ ids = seqZ next n /\ tree_ok (goal_tasks d') /\
        d' = set_goal_tasks (goal_tasks d') d /\
        exists new, rows (goal_tasks d') = rows (goal_tasks d) ++ new /\ GT_ID <$> new = ids /\
          forall t, t ∈ new -> GT_GoalID t = in_GoalID inp /\ GT_Status t = default GTApproved (in_InitialStatus inp)
    | Err e => d' = d
    | Panic _ => False
    end) d.
Proof.
  cbn zeta. unfold CreateTree, exec_o. cbn [wp].
  destruct (walk _ _ _ _ _ _ _) as [[root [tbl ids]]|e|w] eqn:E; cbn zeta.
  - split; [|done]. apply walk_walked in E as [-> Hw]; [|done|done].
    destruct Hw as [Htree (new&Hr&Hl&Hs&Hg) Hx Hi]. simpl in *. subst ids.
    split_and!; [done|done|done|by destruct d|]. by exists new.
  - by split.
  - by apply walk_no_panic in E.
Qed.
