(* ===== verification/GoalTasksSpec.v ===== *)
(** * Goal tasks: interleavings of calls, claims, transitions and roll-ups *)
From S2P Require Import Prelude Prog Table Schema GoalTasks GoalTasksFacts.

(** ** What any sequence of calls preserves *)
Definition trees (d : db) : Prop := tree_ok (goal_tasks d).

(** A task, earlier and later: its place in the tree and its text are fixed
    and an assignee is never replaced. *)
Definition task_later (t t' : GoalTask) : Prop :=
  frozen t' = frozen t /\ (forall a, AssigneeAgentID t = Some a -> AssigneeAgentID t' = Some a).

Definition tasks_later (d d' : db) : Prop :=
  forall t, t ∈ rows (goal_tasks d) -> exists t', t' ∈ rows (goal_tasks d') /\ task_later t t'.

#[export] Instance tasks_later_preorder : PreOrder tasks_later.
Proof.
  split.
  - intros d t Ht. exists t. by repeat split.
  - intros d1 d2 d3 H12 H23 t Ht. destruct (H12 t Ht) as (t2&Ht2&Hf&Ha).
    destruct (H23 t2 Ht2) as (t3&Ht3&Hf'&Ha'). exists t3. split; [done|]. split; [congruence|auto].
Qed.

Definition tree_step (d d' : db) : Prop := trees d -> trees d' /\ tasks_later d d'.

Lemma tree_step_refl d : tree_step d d.
Proof. intros ?. split; [done|reflexivity]. Qed.

Lemma tick_tree d d' : trees d -> tick d d' -> trees d' /\ tasks_later d d'.
Proof. intros Ht (s&_&->). split; [done|]. intros t Hin. exists t. by repeat split. Qed.

Lemma tree_step_update d p f :
  (forall t, frozen (f t) = frozen t) ->
  (forall t, t ∈ rows (goal_tasks d) -> p t = true -> task_later t (f t)) ->
  tree_step d (set_goal_tasks (update_rows p f (goal_tasks d)) d).
Proof.
  intros Hf Hl Hok. split.
  - by apply tree_ok_update.
  - intros t Ht. exists (if p t then f t else t). split.
    + simpl. apply elem_of_map_if. eauto.
    + destruct (p t) eqn:E; [auto|by repeat split].
Qed.

(** *** The writes of the store *)
Lemma claim_step tid a m now d :
  tree_step d (set_goal_tasks (update_rows (claimable_task tid) (claim_task a now m) (goal_tasks d)) d).
Proof.
  apply tree_step_update; [done|]. intros t _ Hc. split; [done|]. intros b Hb.
  unfold claimable_task in Hc. guards. congruence.
Qed.

Lemma move_step tid st now ex d :
  tree_step d (set_goal_tasks (update_rows (by_id tid) (move_task st now ex) (goal_tasks d)) d).
Proof. by apply tree_step_update. Qed.

Lemma spend_step tid tok cents d :
  tree_step d (set_goal_tasks (update_rows (by_id tid) (spend_task tok cents) (goal_tasks d)) d).
Proof. by apply tree_step_update. Qed.

Lemma create_step inp st root tbl ids d :
  walk inp st (in_Root inp) None 0 [] (goal_tasks d, []) = Ok (root, (tbl, ids)) ->
  tree_step d (set_goal_tasks tbl d).
Proof.
  intros E Hok. apply walk_walked in E as [_ Hw]; [|done|done].
  destruct Hw as [Htree (new&Hr&_) _ _]. split; [done|].
  intros t Ht. exists t. simpl in *. rewrite Hr. split; [set_solver|by repeat split].
Qed.

(** ** The calls *)
Inductive task_call :=
| CClaim (taskID agentID : Z) (claimMessageID : option Z)
| CTransition (taskID : Z) (newStatus : GTStatus) (extras : Extras)
| CAddSpend (taskID tokens dollarsCents : Z)
| CCreateTree (inp : CreateTreeInput)
| CRollup (root : Z).

Definition task_call_prog (c : task_call) : M unit :=
  let unit_of {A} (p : M A) : M unit := bind p (fun o => Ret (outcome_map (fun _ => tt) o)) in
  match c with
  | CClaim t a m => Claim t a m
  | CTransition t s ex => Transition t s ex
  | CAddSpend t k c => AddSpend t k c
  | CCreateTree inp => unit_of (CreateTree inp)
  | CRollup r => unit_of (RollupCosts r)
  end.

Lemma task_call_within c : within tree_step (task_call_prog c).
Proof.
  destruct c as [t a m|t s ex|t k z|inp|r]; cbn [task_call_prog].
  - simpl. intros d0. split; [|done]. intros d. split; [apply claim_step|done].
  - simpl. split; [|done]. intros d. split; [apply tree_step_refl|].
    destruct (find_id _ _) as [tk|]; [|done]. destruct (negb _); [done|]. simpl.
    intros d1. split; [|done]. intros d2. split; [|done].
    destruct (_ && _); [apply tree_step_refl|apply move_step].
  - simpl. split; [|done]. intros d. split; [apply spend_step|done].
  - simpl. split; [|done]. intros d. destruct (walk _ _ _ _ _ _ _) as [[root [tbl ids]]|e|w] eqn:E; simpl.
    + split; [by eapply create_step|done].
    + split; [apply tree_step_refl|done].
    + split; [apply tree_step_refl|done].
  - simpl. split; [|done]. intros d. by split; [apply tree_step_refl|].
Qed.

Definition assigned_to (taskID agentID : Z) (d : db) : Prop :=
  exists t, t ∈ rows (goal_tasks d) /\ GT_ID t = taskID /\ AssigneeAgentID t = Some agentID.

Lemma assigned_later taskID agentID d d' :
  tasks_later d d' -> assigned_to taskID agentID d -> assigned_to taskID agentID d'.
Proof.
  intros Hl (t&Ht&Hid&Ha). destruct (Hl t Ht) as (t'&Ht'&Hf&Ha'). exists t'.
  destruct (frozen_fields _ _ Hf) as (->&_). auto.
Qed.

Lemma assigned_unique taskID a b d :
  trees d -> assigned_to taskID a d -> assigned_to taskID b d -> a = b.
Proof.
  intros [Hok _ _ _] (t&Ht&Hid&Ha) (t'&Ht'&Hid'&Hb).
  assert (t = t') as -> by (eapply table_ok_unique; [done..|]; unfold row_id, GoalTask_row; congruence).
  congruence.
Qed.

(** What the answer of a call guarantees from then on. *)
Definition task_answer (c : task_call) (o : outcome error unit) (d : db) : Prop :=
  match c, o with
  | CClaim t a _, Ok _ => assigned_to t a d
  | _, _ => True
  end.

Lemma claim_rg t a m d : trees d -> rg trees tasks_later (Claim t a m) (task_answer (CClaim t a m)) d.
Proof.
  intros _. unfold Claim, ClaimAtomic, time_now. simpl. intros d1 _ _ d2 _ Hd2.
  destruct (claim_step t a m (clock d1) d2 Hd2) as [Hok Hle].
  split_and!; [done|done| |done].
  intros d3 Hd3 _. destruct (Z.eqb_spec (affected (claimable_task t) (goal_tasks d2)) 0) as [|Hn]; [done|].
  simpl. destruct (affected_id_pos (goal_tasks d2) t
    (fun r => bool_decide (AssigneeAgentID r = None) && bool_decide (GT_Status r = GTApproved)))
    as [H0|(r&Hr&Hid&Hp)]; [by destruct Hn|].
  eapply assigned_later; [exact Hd3|]. exists (claim_task a (clock d1) m r). split_and!; [|done|done].
  simpl. apply elem_of_map_if. exists r. split; [done|].
  unfold claimable_task, by_id. unfold row_id, GoalTask_row in *. by rewrite Hid, Z.eqb_refl, Hp.
Qed.

Lemma task_call_rg c d : trees d -> rg trees tasks_later (task_call_prog c) (task_answer c) d.
Proof.
  intros Hd. destruct c as [t a m|t s ex|t k z|inp|r]; [by apply claim_rg| ..].
  all: eapply rg_mono; [..|eapply (within_rg _ _ tree_step); [|apply task_call_within]]; [done|];
       intros d1 d2 H1 H2; by apply H2.
Qed.

(** A pool of calls, all interleavings and failures. *)
Lemma task_pool (cs : list task_call) (d : db) ps d' :
  trees d -> rtc (pool_step tick) (task_call_prog <$> cs, d) (ps, d') ->
  trees d' /\ tasks_later d d' /\
  forall (i : nat) c o, cs !! i = Some c -> ps !! i = Some (Ret o) -> task_answer c o d'.
Proof.
  intros Hd Hr.
  destruct (pool_invariant trees tasks_later tick tick_tree (task_call_prog <$> cs) ps
    (fun i o d => forall c, cs !! i = Some c -> task_answer c o d) d d') as (H1&H2&H3); [..|eauto].
  - intros i p Hp. rewrite list_lookup_fmap in Hp. apply fmap_Some in Hp as (c&Hc&->).
    eapply rg_mono; [..|by apply task_call_rg]. intros o d1 _ Ho c' Hc'. by simplify_eq.
  - done.
  - exact Hr.
Qed.

(** ** Claims *)

(** C10. Whatever claims, transitions, spend updates, tree creations and
    roll-ups run concurrently, statement by statement, with any of them
    failing at any point: the trees stay well formed, no task disappears or
    changes its place, goal or text, an assignee is never replaced, and every
    claim that reported success names the assignee. *)
Theorem goal_task_history (cs : list task_call) (d : db) (ps : list (M unit)) (d' : db)
    (Hok : tree_ok (goal_tasks d))
    (Hrun : rtc (pool_step tick) (task_call_prog <$> cs, d) (ps, d')) :
  tree_ok (goal_tasks d') /\
  (forall t, t ∈ rows (goal_tasks d) -> exists t', t' ∈ rows (goal_tasks d') /\ task_later t t') /\
  (forall (i : nat) taskID agentID msg, cs !! i = Some (CClaim taskID agentID msg) ->
     ps !! i = Some (Ret (Ok tt)) -> assigned_to taskID agentID d').
Proof.
  destruct (task_pool cs d ps d' Hok Hrun) as (H1&H2&H3). split_and!; [done|done|].
  intros i taskID agentID msg Hc Hp. apply (H3 i _ _ Hc Hp).
Qed.

(** C3. A task is claimed once: of any number of concurrent claims of one
    task, under any interleaving and any failures, no two by different agents
    both succeed. *)
Theorem claim_exclusive (cs : list task_call) (d : db) (ps : list (M unit)) (d' : db)
    (i j : nat) taskID a b ma mb
    (Hok : tree_ok (goal_tasks d))
    (Hrun : rtc (pool_step tick) (task_call_prog <$> cs, d) (ps, d'))
    (Hi : cs !! i = Some (CClaim taskID a ma)) (Hj : cs !! j = Some (CClaim taskID b mb))
    (Hab : a <> b) :
  ~ (ps !! i = Some (Ret (Ok tt)) /\ ps !! j = Some (Ret (Ok tt))).
Proof.
  destruct (task_pool cs d ps d' Hok Hrun) as (H1&_&H3). intros [Hwi Hwj].
  apply Hab, (assigned_unique taskID a b d' H1); [apply (H3 i _ _ Hi Hwi)|apply (H3 j _ _ Hj Hwj)].
Qed.

(** ** Transitions *)

(** [Transition], run alone with any statement failing: it succeeds only
    along an edge of the state machine, and then moves exactly that task,
    stamping [started_at] once and [completed_at] on a terminal status; every
    error, the illegal edge included, leaves the database as it was. *)
Theorem transition_effect taskID new ex d :
  wp (Transition taskID new ex) (fun o d' =>
    match o with
    | Ok _ => exists t, find_id taskID (goal_tasks d) = Some t /\ legalTransition (GT_Status t) new = true /\
        d' = set_goal_tasks (goal_tasks d') d /\
        find_id taskID (goal_tasks d') = Some (move_task new (clock d) ex t) /\
        (forall id, id <> taskID -> find_id id (goal_tasks d') = find_id id (goal_tasks d))
    | Err (ErrIllegalTransition from to) => d' = d /\ to = new /\ legalTransition from new = false /\
        GT_Status <$> find_id taskID (goal_tasks d) = Some from
    | Err ErrGoalTaskNotFound => d' = d /\ find_id taskID (goal_tasks d) = None
    | Err e => d' = d /\ e = EDb
    | Panic _ => False
    end) d.
Proof.
  unfold Transition, Get. simpl. split; [|done].
  destruct (find_id taskID (goal_tasks d)) as [t|] eqn:Ef; simpl; [|done].
  destruct (legalTransition (GT_Status t) new) eqn:El; simpl.
  - split; [|done]. assert (status_allowed new = true) as Hs.
    { destruct new as [| | | | | | | |s]; try done. by destruct (GT_Status t). }
    rewrite Hs. simpl. exists t. split_and!; [done|done|done| |].
    + rewrite find_id_update, Ef by done. simpl. unfold by_id.
      apply find_id_Some in Ef as [-> _]. by rewrite Z.eqb_refl.
    + intros id Hid. rewrite find_id_update by done.
      destruct (find_id id (goal_tasks d)) as [t'|] eqn:Et; [|done]. simpl.
      apply find_id_Some in Et as [Et _]. unfold by_id. by rewrite Et, (proj2 (Z.eqb_neq _ _) Hid).
  - split_and!; [done|done|done|done].
Qed.

(** ** Roll-ups *)

(** [c] is a child of [p] in the table. *)
Definition parent_edge (tbl : table GoalTask) (p c : Z) : Prop :=
  exists t, t ∈ rows tbl /\ GT_ID t = c /\ ParentTaskID t = Some p.

(** The tasks a roll-up from [root] counts: [root], if it exists, and what hangs
    below it. *)
Definition in_subtree (tbl : table GoalTask) (root id : Z) : Prop :=
  (exists t, t ∈ rows tbl /\ GT_ID t = root) /\ rtc (parent_edge tbl) root id.

Lemma elem_of_children ids tbl id :
  id ∈ children_of ids (rows tbl) <-> exists p, p ∈ ids /\ parent_edge tbl p id.
Proof.
  unfold children_of, parent_edge. rewrite list_elem_of_bind. split.
  - intros (p&Hid&Hp). apply list_elem_of_fmap in Hid as (t&->&Ht).
    apply list_elem_of_filter in Ht as [Hpar Ht]. eauto 10.
  - intros (p&Hp&t&Ht&<-&Hpar). exists p. split; [|done].
    apply list_elem_of_fmap. exists t. split; [done|]. by apply list_elem_of_filter.
Qed.

#[local] Arguments children_of : simpl never.

Lemma cte_rounds_elem fuel fr tbl ids :
  cte_rounds fuel fr (rows tbl) = Some ids ->
  forall id, id ∈ ids <-> exists r, r ∈ fr /\ rtc (parent_edge tbl) r id.
Proof.
  revert fr ids. induction fuel as [|fuel IH]; intros fr ids; destruct fr as [|f fr]; simpl.
  - intros [= <-] id. set_solver.
  - done.
  - intros [= <-] id. set_solver.
  - destruct (cte_rounds _ _ _) as [rest|] eqn:E; [|done]. intros [= <-] id.
    change (id ∈ (f :: fr) ++ rest <-> exists r, r ∈ f :: fr /\ rtc (parent_edge tbl) r id).
    rewrite elem_of_app, (IH _ _ E id). split.
    + intros [H|(r&Hr&Hrest)]; [eauto using rtc_refl|].
      apply elem_of_children in Hr as (p&Hp&He). exists p. split; [done|]. by eapply rtc_l.
    + intros (r&Hr&Hpath). inversion Hpath as [|? c ? He Hrest]; subst; [by left|]. right.
      exists c. split; [|done]. apply elem_of_children. eauto.
Qed.

(** How many tasks are younger than [id]: it bounds the depth below [id]. *)
Definition younger (tbl : table GoalTask) (id : Z) : nat :=
  length (filter (fun t => id < GT_ID t) (rows tbl)).

Lemma younger_edge tbl p c : tree_ok tbl -> parent_edge tbl p c -> (younger tbl c < younger tbl p)%nat.
Proof.
  intros [_ Hplaced _ _] (t&Ht&<-&Hpar). assert (p < GT_ID t) as Hlt.
  { specialize (Hplaced t Ht). unfold task_placed in Hplaced. rewrite Hpar in Hplaced.
    destruct Hplaced as (q&_&<-&Hlt&_). done. }
  clear Hplaced Hpar. unfold younger. apply list_elem_of_split in Ht as (l1&l2&->).
  rewrite !filter_app, !filter_cons, !length_app.
  rewrite decide_False by lia. rewrite decide_True by done. simpl.
  assert (forall l : list GoalTask, (length (filter (fun u => (GT_ID t < GT_ID u)%Z) l) <=
     length (filter (fun u => (p < GT_ID u)%Z) l))%nat) as H.
  { intros l. induction l as [|u l IH]; [done|]. rewrite !filter_cons.
    repeat case_decide; simpl; lia. }
  specialize (H l1) as H1. specialize (H l2) as H2. lia.
Qed.

Lemma cte_rounds_total fuel fr tbl :
  tree_ok tbl -> (forall f, f ∈ fr -> (younger tbl f < fuel)%nat) -> is_Some (cte_rounds fuel fr (rows tbl)).
Proof.
  intros Hok. revert fr. induction fuel as [|fuel IH]; intros fr Hf; destruct fr as [|f fr]; simpl; [eauto| |eauto|].
  - specialize (Hf f ltac:(set_solver)). lia.
  - apply fmap_is_Some, IH. intros c Hc. apply elem_of_children in Hc as (p&Hp&He).
    specialize (Hf p Hp). pose proof (younger_edge tbl p c Hok He). lia.
Qed.

Lemma subtree_spec tbl root : tree_ok tbl ->
  exists ids, subtree root tbl = Some ids /\ forall id, id ∈ ids <-> in_subtree tbl root id.
Proof.
  intros Hok. destruct (cte_rounds_total (S (length (rows tbl)))
    (GT_ID <$> filter (fun t => GT_ID t = root) (rows tbl)) tbl Hok) as [ids Hids].
  { intros f _. unfold younger. pose proof (length_filter (fun t => f < GT_ID t) (rows tbl)). lia. }
  exists ids. split; [done|]. intros id. rewrite (cte_rounds_elem _ _ _ _ Hids).
  unfold in_subtree. split.
  - intros (r&Hr&Hp). apply list_elem_of_fmap in Hr as (t&->&Ht).
    apply list_elem_of_filter in Ht as [<- Ht]. eauto.
  - intros [(t&Ht&<-) Hp]. exists (GT_ID t). split; [|done]. apply list_elem_of_fmap.
    exists t. split; [done|]. by apply list_elem_of_filter.
Qed.

(** [ids] lists exactly the subtree below [root]. *)
Definition subtree_ids (tbl : table GoalTask) (root : Z) (ids : list Z) : Prop :=
  subtree root tbl = Some ids /\ forall id, id ∈ ids <-> in_subtree tbl root id.

(** C12. The recursive query terminates on well-formed trees and is exact: the
    roll-up counts each task at or below the root once, and nothing else. *)
Theorem rollup_exact (tbl : table GoalTask) root (Hok : tree_ok tbl) :
  exists ts, rollup root tbl = Some (sumZ (SpentTokens <$> ts), sumZ (SpentDollarsCents <$> ts), Z.of_nat (length ts)) /\
    ts `sublist_of` rows tbl /\ forall t, t ∈ ts <-> t ∈ rows tbl /\ in_subtree tbl root (GT_ID t).
Proof.
  destruct (subtree_spec tbl root Hok) as (ids&E&Hids).
  exists (filter (fun t => GT_ID t ∈ ids) (rows tbl)). unfold rollup. rewrite E. split_and!; [done| |].
  - apply sublist_filter.
  - intros t. rewrite list_elem_of_filter, Hids. naive_solver.
Qed.

Lemma spend_edges p f tbl (Hf : forall t, frozen (f t) = frozen t) a b :
  parent_edge (update_rows p f tbl) a b <-> parent_edge tbl a b.
Proof.
  assert (forall t, frozen (if p t then f t else t) = frozen t) as Hf' by (intros t; by destruct (p t)).
  unfold parent_edge. simpl. split.
  - intros (t'&Ht'&Hid&Hp). apply elem_of_map_if in Ht' as (t&Ht&->). exists t.
    destruct (frozen_fields _ _ (Hf' t)) as (<-&_&<-&_). done.
  - intros (t&Ht&Hid&Hp). exists (if p t then f t else t).
    destruct (frozen_fields _ _ (Hf' t)) as (->&_&->&_). rewrite elem_of_map_if. eauto.
Qed.

Lemma spend_in_subtree p f tbl (Hf : forall t, frozen (f t) = frozen t) root id :
  in_subtree (update_rows p f tbl) root id <-> in_subtree tbl root id.
Proof.
  unfold in_subtree. split; intros [(t&Ht&Hid) Hp].
  - simpl in Ht. apply elem_of_map_if in Ht as (u&Hu&->). split.
    + exists u. split; [done|]. rewrite <- Hid. destruct (p u); [|done]. by destruct (frozen_fields _ _ (Hf u)) as (->&_).
    + clear Hid. induction Hp; [apply rtc_refl|]. eapply rtc_l; [|eassumption..]. by apply (spend_edges p f tbl Hf).
  - split.
    + exists (if p t then f t else t). simpl. rewrite elem_of_map_if. split; [eauto|].
      destruct (p t); [|done]. by destruct (frozen_fields _ _ (Hf t)) as (->&_).
    + clear Ht Hid. induction Hp; [apply rtc_refl|]. eapply rtc_l; [|eassumption..]. by apply (spend_edges p f tbl Hf).
Qed.

(** Spending on one task adds to the sum once when the task is listed. *)
Lemma sum_spend (g : GoalTask -> Z) (inc tid k c : Z) (l : list GoalTask) :
  (forall t, g (spend_task k c t) = g t + inc) -> NoDup (GT_ID <$> l) ->
  sumZ (g <$> map_if (by_id tid) (spend_task k c) l) =
  sumZ (g <$> l) + (if decide (tid ∈ GT_ID <$> l) then inc else 0).
Proof.
  intros Hg. induction l as [|t l IH]; [done|].
  intros [Hnin Hn]%NoDup_cons. specialize (IH Hn). unfold sumZ, map_if in *. rewrite !fmap_cons. simpl.
  rewrite IH. clear IH. unfold by_id, row_id, GoalTask_row.
  destruct (Z.eqb_spec (GT_ID t) tid) as [<-|Hne].
  - rewrite Hg, (decide_False (P := GT_ID t ∈ _ <$> l)) by done. rewrite decide_True by set_solver. lia.
  - repeat case_decide; [lia|set_solver|set_solver|lia].
Qed.

Lemma filter_map_if_ids (ids ids' : list Z) p f (l : list GoalTask) :
  (forall t, GT_ID (f t) = GT_ID t) -> (forall id, id ∈ ids' <-> id ∈ ids) ->
  filter (fun t => GT_ID t ∈ ids') (map_if p f l) = map_if p f (filter (fun t => GT_ID t ∈ ids) l).
Proof.
  intros Hf Hids. induction l as [|t l IH]; [done|].
  unfold map_if in *. rewrite fmap_cons, !filter_cons, IH.
  assert (GT_ID (if p t then f t else t) = GT_ID t) as -> by (destruct (p t); auto).
  specialize (Hids (GT_ID t)). repeat case_decide; [done|tauto|tauto|done].
Qed.

Lemma in_subtree_exists tbl root id : in_subtree tbl root id -> id ∈ GT_ID <$> rows tbl.
Proof.
  intros [(t&Ht&Hid) Hp]. apply list_elem_of_fmap. apply rtc_inv_r in Hp as [<-|(z&_&u&Hu&<-&_)]; eauto.
Qed.

Lemma spend_rollup tbl root tid k c : tree_ok tbl ->
  exists t0 c0 n, rollup root tbl = Some (t0, c0, n) /\
  exists ids, subtree_ids tbl root ids /\
  rollup root (update_rows (by_id tid) (spend_task k c) tbl) =
  Some (t0 + (if decide (tid ∈ ids) then k else 0), c0 + (if decide (tid ∈ ids) then c else 0), n).
Proof.
  intros Hok. set (tbl' := update_rows _ _ tbl).
  assert (tree_ok tbl') as Hok' by (by apply tree_ok_update).
  destruct (subtree_spec tbl root Hok) as (ids&E&Hids). destruct (subtree_spec tbl' root Hok') as (ids'&E'&Hids').
  unfold rollup. rewrite E, E'. do 3 eexists. split; [done|]. exists ids. split; [done|].
  simpl. unfold tbl'. simpl. rewrite (filter_map_if_ids ids ids').
  - set (ts := filter _ _). assert (NoDup (GT_ID <$> ts)) as Hn.
    { destruct Hok as [[Hn _] _ _ _]. eapply sublist_NoDup; [exact Hn|]. apply fmap_sublist, sublist_filter. }
    assert (tid ∈ GT_ID <$> ts <-> tid ∈ ids) as Hin.
    { rewrite list_elem_of_fmap. unfold ts. setoid_rewrite list_elem_of_filter. split.
      - intros (t&->&?&_). done.
      - intros H. assert (tid ∈ GT_ID <$> rows tbl) as (t&->&Ht)%list_elem_of_fmap; [|eauto].
        by apply (in_subtree_exists tbl root), Hids. }
    rewrite (sum_spend SpentTokens k), (sum_spend SpentDollarsCents c) by done.
    unfold map_if. rewrite length_fmap. by rewrite !(decide_ext _ _ _ _ Hin).
  - done.
  - intros id. rewrite Hids, Hids'. by apply spend_in_subtree.
Qed.

(** Spend recorded on a task reaches exactly the roll-ups of the task and
    its ancestors: the roll-up of a root at or above it grows by the amount
    recorded, every other roll-up is unchanged, and the number of tasks counted
    is the same. *)
Theorem add_spend_rolls_up tid k c d (Hok : tree_ok (goal_tasks d)) :
  wp (AddSpend tid k c) (fun o d' =>
    match o with
    | Ok _ => tree_ok (goal_tasks d') /\ forall root, exists t0 c0 n,
        rollup root (goal_tasks d) = Some (t0, c0, n) /\
        ((in_subtree (goal_tasks d) root tid /\ rollup root (goal_tasks d') = Some (t0 + k, c0 + c, n)) \/
         (~ in_subtree (goal_tasks d) root tid /\ rollup root (goal_tasks d') = Some (t0, c0, n)))
    | _ => d' = d
    end) d.
Proof.
  simpl. split; [|done]. split; [by apply tree_ok_update|]. intros root.
  destruct (spend_rollup (goal_tasks d) root tid k c Hok) as (t0&c0&n&E&ids&[_ Hids]&E').
  exists t0, c0, n. split; [done|]. rewrite E', <- Hids. case_decide; [by left|right].
  split; [done|]. by rewrite !Z.add_0_r.
Qed.

(** ** Spend per billing code *)
Lemma lookup_insert_all (f : option string -> Spend) (l : list (option string)) (m : gmap string Spend) code :
  NoDup l -> (forall c, c ∈ l -> c <> Some EmptyString) ->
  foldl (fun out c => <[default EmptyString c := f c]> out) m l !! code =
  (let c := nullableString code in if decide (c ∈ l) then Some (f c) else m !! code).
Proof.
  cbn zeta. revert m. induction l as [|c l IH]; intros m; [done|].
  intros [Hnin Hn]%NoDup_cons Hne. simpl. rewrite IH; [|done|set_solver].
  assert (default EmptyString c = code <-> nullableString code = c) as Hiff.
  { assert (c <> Some EmptyString) by (apply Hne; set_solver).
    unfold nullableString. case_bool_decide; destruct c as [s|]; simpl; naive_solver congruence. }
  destruct (decide (nullableString code = c)) as [E|E].
  - rewrite !E. rewrite (decide_False (P := c ∈ l)) by done. rewrite decide_True by set_solver.
    apply lookup_insert_Some. left. tauto.
  - rewrite lookup_insert_ne by tauto. repeat case_decide; [done|set_solver|set_solver|done].
Qed.

Section Billing.
Context {HEng : Engine}.

(** The per-billing-code roll-up loses nothing on well-formed trees: a
    code has an entry exactly when some task of the subtree carries it (the
    empty key stands for no code), and the entry is the spend of exactly the
    tasks of the subtree that carry it, whatever order the groups come in. *)
Theorem rollup_by_billing_code_exact root d (Hok : tree_ok (goal_tasks d)) :
  exists m, run_ok (RollupByBillingCode root) d = (Ok m, d) /\
  forall code, exists ts,
    ts `sublist_of` rows (goal_tasks d) /\
    (forall t, t ∈ ts <-> t ∈ rows (goal_tasks d) /\ in_subtree (goal_tasks d) root (GT_ID t) /\
                          billing_code t = nullableString code) /\
    m !! code = match ts with
                | [] => None
                | _ => Some (mkSpend (sumZ (SpentTokens <$> ts)) (sumZ (SpentDollarsCents <$> ts)))
                end.
Proof.
  destruct (subtree_spec (goal_tasks d) root Hok) as (ids&E&Hids).
  unfold RollupByBillingCode, run_ok. simpl. rewrite E. eexists. split; [done|]. intros code.
  set (sub := filter _ _).
  exists (filter (fun t => billing_code t = nullableString code) sub). split_and!.
  - etrans; apply sublist_filter.
  - intros t. unfold sub. rewrite !list_elem_of_filter, Hids. naive_solver.
  - unfold by_billing_code, billing_groups.
    assert (forall c, c ∈ scan (remove_dups (billing_code <$> sub)) <-> exists t, t ∈ sub /\ billing_code t = c) as Hc.
    { intros c. rewrite scan_perm, elem_of_remove_dups, list_elem_of_fmap. naive_solver. }
    rewrite lookup_insert_all.
    + cbn zeta. unfold billing_spend. destruct (filter _ sub) as [|t l] eqn:Ef.
      * case_decide as Hin; [|apply lookup_empty]. apply Hc in Hin as (t&Ht&Hb).
        assert (t ∈ filter (fun t => billing_code t = nullableString code) sub) by (by apply list_elem_of_filter).
        rewrite Ef in *. set_solver.
      * assert (t ∈ filter (fun t => billing_code t = nullableString code) sub) as Ht by (rewrite Ef; set_solver).
        apply list_elem_of_filter in Ht as [Hb Ht]. rewrite decide_True; [done|]. apply Hc. eauto.
    + rewrite scan_perm. apply NoDup_remove_dups.
    + intros c. rewrite Hc. intros (t&Ht&<-). apply list_elem_of_filter in Ht as [_ Ht].
      by apply (tr_billing _ Hok).
Qed.
End Billing.

(** ** Concrete runs *)
Module GoalTaskRuns.
Definition leaf (title billing : string) : TreeNode :=
  mkTreeNode title "" "" billing None None None None [].
Definition sample_input : CreateTreeInput :=
  mkCreateTreeInput 7 (Some 1) None
    (mkTreeNode "root" "" "ships" "" None None None None [leaf "a" "eng"; leaf "b" ""]) None "ops".
Definition sample : db := (run_ok (CreateTree sample_input) empty_db).2.

Lemma sample_ok : tree_ok (goal_tasks sample).
Proof.
  destruct (walk sample_input GTApproved (in_Root sample_input) None 0 [] (goal_tasks empty_db, []))
    as [[r [tbl ids]]|e|w] eqn:E; [|by vm_compute in E..].
  assert (goal_tasks sample = tbl) as ->.
  { assert (Ok (r, (goal_tasks sample, [1; 2; 3])) = @Ok error _ (r, (tbl, ids))) as [=]; [|done].
    rewrite <- E. assert (r = 1) as -> by (vm_compute in E; congruence). vm_compute. reflexivity. }
  apply walk_walked in E as [_ Hw]; [apply Hw| |done]. split; simpl; [apply table_ok_empty|set_solver..].
Qed.

Lemma create_tree_effect_witness :
  tree_ok (goal_tasks empty_db) /\
  exists root ids d', run_ok (CreateTree sample_input) empty_db = (Ok (root, ids), d') /\ root = 1 /\ ids = [1; 2; 3].
Proof.
  assert (tree_ok (goal_tasks empty_db)) as Hok by (split; simpl; [apply table_ok_empty|set_solver..]).
  split; [exact Hok|]. pose proof (wp_run_ok _ _ _ (create_tree_effect sample_input empty_db Hok)) as H.
  destruct (run_ok (CreateTree sample_input) empty_db) as [[[root ids]|e|w] d'] eqn:E.
  - exists root, ids, d'. split; [reflexivity|]. destruct H as (->&->&_). split; reflexivity.
  - vm_compute in E. discriminate E.
  - vm_compute in E. discriminate E.
Defined.

Lemma rollup_exact_witness :
  tree_ok (goal_tasks sample) /\ exists ts : list GoalTask, rollup 1 (goal_tasks sample) = Some (0, 0, Z.of_nat (length ts)) /\ length ts = 3%nat.
Proof.
  split; [exact sample_ok|]. destruct (rollup_exact (goal_tasks sample) 1 sample_ok) as (ts&E&_&_).
  assert (rollup 1 (goal_tasks sample) = Some (0, 0, 3)) as E' by (vm_compute; reflexivity).
  rewrite E' in E |- *. injection E as _ _ E3. exists ts. split; [by rewrite <- E3|lia].
Defined.

Lemma add_spend_rolls_up_witness :
  tree_ok (goal_tasks sample) /\
  rollup 1 (goal_tasks (run_ok (AddSpend 2 50 3) sample).2) = Some (50, 3, 3).
Proof.
  split; [exact sample_ok|].
  destruct (wp_run_ok _ _ _ (add_spend_rolls_up 2 50 3 sample sample_ok)) as [_ H].
  destruct (H 1) as (t0&c0&n&E&[[_ E']|[_ E']]).
  - vm_compute in E. injection E as <- <- <-. exact E'.
  - vm_compute in E, E'. congruence.
Defined.

Lemma rollup_by_billing_code_exact_witness :
  tree_ok (goal_tasks sample) /\ exists m : gmap string Spend,
    run_ok (@RollupByBillingCode rowid_engine 1) sample = (Ok m, sample) /\
    m !! "ops" = Some (mkSpend 0 0).
Proof.
  split; [exact sample_ok|].
  destruct (@rollup_by_billing_code_exact rowid_engine 1 sample sample_ok) as (m&E&_).
  exists m. split; [exact E|]. vm_compute in E. injection E as <-. reflexivity.
Defined.

Definition two_claims : list task_call := [CClaim 1 10 None; CClaim 1 11 None].
Definition claim_schedule : list (nat * bool) :=
  [(0, false); (1, false); (1, false); (0, false)]%nat.

Lemma goal_task_history_witness :
  tree_ok (goal_tasks sample) /\
  assigned_to 1 11 (run_schedule claim_schedule (task_call_prog <$> two_claims) sample).2.
Proof.
  split; [exact sample_ok|].
  pose proof (run_schedule_reachable tick claim_schedule (task_call_prog <$> two_claims) sample) as Hr.
  destruct (run_schedule _ _ _) as [ps d'] eqn:E.
  destruct (goal_task_history two_claims sample ps d' sample_ok Hr) as (_&_&H).
  apply (H 1%nat 1 11 None); [reflexivity|]. vm_compute in E. injection E as <- _. reflexivity.
Defined.

Lemma claim_exclusive_witness :
  let '(ps, d') := run_schedule claim_schedule (task_call_prog <$> two_claims) sample in
  tree_ok (goal_tasks sample) /\ ps = [Ret (Err ErrAlreadyClaimed); Ret (Ok tt)] /\
  ~ (ps !! 0%nat = Some (Ret (Ok tt)) /\ ps !! 1%nat = Some (Ret (Ok tt))).
Proof.
  pose proof (run_schedule_reachable tick claim_schedule (task_call_prog <$> two_claims) sample) as Hr.
  destruct (run_schedule _ _ _) as [ps d'] eqn:E. split_and!.
  - exact sample_ok.
  - vm_compute in E. injection E as <- _. reflexivity.
  - apply (claim_exclusive two_claims sample ps d' 0 1 1 10 11 None None sample_ok Hr); [reflexivity|reflexivity|lia].
Defined.

(** [Transition] checks the edge and writes the new status in two
    statements: of two concurrent transitions both can succeed, and a task
    that has reached [done], a final status, is then moved to [cancelled]. *)
Theorem transition_race :
  exists d1 d2 ps1 ps2,
    let approve := run_ok (Transition 1 GTClaimed (mkExtras "" None)) sample in
    let d0 := (run_ok (Transition 1 GTAwaitingVerification (mkExtras "" None)) approve.2).2 in
    let calls := task_call_prog <$> [CTransition 1 GTDone (mkExtras "" None);
                                     CTransition 1 GTCancelled (mkExtras "" None)] in
    rtc (pool_step tick) (calls, d0) (ps1, d1) /\ rtc (pool_step tick) (ps1, d1) (ps2, d2) /\
    ps2 = [Ret (Ok tt); Ret (Ok tt)] /\
    GT_Status <$> find_id 1 (goal_tasks d1) = Some GTDone /\
    GT_Status <$> find_id 1 (goal_tasks d2) = Some GTCancelled /\
    legalTransition GTDone GTCancelled = false.
Proof.
  cbn zeta. match goal with |- context [rtc _ (?cs, ?s) _] => set (calls := cs); set (d0 := s) end.
  pose proof (run_schedule_reachable tick [(0, false); (1, false); (0, false); (0, false)]%nat calls d0) as H1.
  destruct (run_schedule _ calls d0) as [ps1 d1] eqn:E1.
  pose proof (run_schedule_reachable tick [(1, false); (1, false)]%nat ps1 d1) as H2.
  destruct (run_schedule _ ps1 d1) as [ps2 d2] eqn:E2.
  exists d1, d2, ps1, ps2. cbn zeta. split; [exact H1|]. split; [exact H2|].
  vm_compute in E1. injection E1 as <- <-. vm_compute in E2. injection E2 as <- <-. by split_and!.
Qed.
End GoalTaskRuns.
