(* ===== verification/Goals.v ===== *)
(** * Goals (internal/goals: types.go, service.go, store.go)

    Top-level objectives: creation with a unique slug and a backing channel,
    the status machine, the completion verdict and the budget evaluation. *)
From S2P Require Import Prelude Float64 Prog Table Schema.
From stdpp Require Import pretty.
#[local] Open Scope Z_scope.

(** ** Slugs *)
Definition dash : Ascii.ascii := Ascii.ascii_of_nat 45.

Definition is_lower (a : Ascii.ascii) : bool :=
  let n := Ascii.nat_of_ascii a in ((97 <=? n) && (n <=? 122))%nat.
Definition is_digit (a : Ascii.ascii) : bool :=
  let n := Ascii.nat_of_ascii a in ((48 <=? n) && (n <=? 57))%nat.
Definition is_alnum (a : Ascii.ascii) : bool := is_lower a || is_digit a.

(** Space, dash, underscore, slash, dot. *)
Definition is_separator (a : Ascii.ascii) : bool :=
  let n := Ascii.nat_of_ascii a in bool_decide (n = 32 \/ n = 45 \/ n = 95 \/ n = 47 \/ n = 46)%nat.

(** What [strings.ToLower] leaves of a text once every rune outside ASCII is
    dropped: ASCII capitals fold, and two runes outside ASCII have an ASCII
    lower case, U+0130 (bytes C4 B0) and the Kelvin sign (E2 84 AA). *)
Fixpoint to_lower (s : list Ascii.ascii) : list Ascii.ascii :=
  match s with
  | [] => []
  | a :: r =>
      let n := Ascii.nat_of_ascii a in
      if ((65 <=? n) && (n <=? 90))%nat then Ascii.ascii_of_nat (n + 32) :: to_lower r
      else match r with
      | b :: r2 =>
          if bool_decide (n = 196 /\ Ascii.nat_of_ascii b = 176)%nat then Ascii.ascii_of_nat 105 :: to_lower r2
          else match r2 with
          | c :: r3 =>
              if bool_decide (n = 226 /\ Ascii.nat_of_ascii b = 132 /\ Ascii.nat_of_ascii c = 170)%nat
              then Ascii.ascii_of_nat 107 :: to_lower r3 else a :: to_lower r
          | [] => a :: to_lower r
          end
      | [] => a :: to_lower r
      end
  end.

(** One iteration of the loop: the builder (reversed) and [prevDash]. *)
Definition slug_step (st : list Ascii.ascii * bool) (a : Ascii.ascii) : list Ascii.ascii * bool :=
  let '(b, prevDash) := st in
  if is_alnum a then (a :: b, false)
  else if is_separator a
       then if negb prevDash && negb (bool_decide (b = [])) then (dash :: b, true) else st
       else st.

Fixpoint trim_dashes (l : list Ascii.ascii) : list Ascii.ascii :=
  match l with
  | a :: r => if bool_decide (a = dash) then trim_dashes r else l
  | [] => []
  end.

(** [TrimSpace] in front changes nothing: white space never starts a slug, and
    the dash it would leave at the end is trimmed. *)
Definition slugify (title : string) : string :=
  let '(b, _) := foldl slug_step ([], false) (to_lower (String.list_ascii_of_string title)) in
  let out := trim_dashes (rev (trim_dashes b)) in
  if bool_decide (out = []) then "goal" else String.string_of_list_ascii out.

(** ** The store *)
Record CreateGoalInput := mkCreateGoalInput {
  cg_Title : string;
  cg_Description : string;
  cg_OwnerUserID : Z;
  cg_OwnerUsername : string;
  cg_CoordinatorAgentID : option Z;
  cg_BudgetTokens : option Z;
  cg_BudgetDollarsCents : option Z;
  cg_MaxSpawnDepth : Z
}.

Definition slug_taken (slug : string) (d : db) : bool :=
  negb (affected (fun g => String.eqb (Slug g) slug) (goals d) =? 0).

Definition SlugExists (slug : string) : M bool := query EDb (slug_taken slug).

Definition goal_status_allowed (s : GoalStatus) : bool :=
  match s with GoalOther _ => false | _ => true end.

Definition goal_row (g : Goal) (now id : Z) : Goal :=
  mkGoal id (Slug g) (Goal_Title g) (Goal_Description g) (OwnerUserID g) (Goal_ChannelID g)
    (CoordinatorAgentID g) None (Goal_Status g) (Goal_BudgetTokens g) (Goal_BudgetDollarsCents g)
    (MaxSpawnDepth g) false now None None None.

(** The INSERT, with the UNIQUE constraint on the slug and the CHECK on the
    status. *)
Definition goal_insertable (g : Goal) (d : db) : bool :=
  negb (slug_taken (Slug g) d) && goal_status_allowed (Goal_Status g).

Definition Insert (g : Goal) : M Z :=
  exec_o EDb
    (fun d => if goal_insertable g d then set_goals (insert_row (goal_row g (clock d)) (goals d)) d else d)
    (fun d => if goal_insertable g d then Ok (next_id (goals d)) else Err EDb).

Definition Get (id : Z) : M Goal :=
  query_o EDb (fun d => match find_id id (goals d) with
                        | Some g => Ok g
                        | None => Err ErrGoalNotFound
                        end).

Definition goal_newest (a b : Goal) : Prop := Goal_ID b <= Goal_ID a.
#[export] Instance goal_newest_dec a b : Decision (goal_newest a b).
Proof. unfold goal_newest. apply _. Defined.

Definition List `{!Engine} (ownerUserID : option Z) (limit : Z) : M (list Goal) :=
  let limit := if (limit <=? 0) || (500 <? limit) then 100 else limit in
  query EDb (fun d => page limit 0 (select_by goal_newest
    (fun g => match ownerUserID with Some o => OwnerUserID g =? o | None => true end) (goals d))).

Definition with_goal_status (st : GoalStatus) (now : Z) (g : Goal) : Goal :=
  mkGoal (Goal_ID g) (Slug g) (Goal_Title g) (Goal_Description g) (OwnerUserID g) (Goal_ChannelID g)
    (CoordinatorAgentID g) (RootTaskID g) st (Goal_BudgetTokens g) (Goal_BudgetDollarsCents g)
    (MaxSpawnDepth g) (Alert80PctPosted g) now (Goal_CompletedAt g) (CompletionSummary g)
    (Goal_CompletionMessageID g).

(** An UPDATE of one goal, refused when the row it would write breaks a
    constraint. *)
Definition update_goal_if (allowed : db -> bool) (id : Z) (f : Goal -> Goal) : M unit :=
  let rejected d := negb (allowed d) && negb (affected (by_id id) (goals d) =? 0) in
  exec_o EDb (fun d => if rejected d then d else set_goals (update_rows (by_id id) f (goals d)) d)
             (fun d => if rejected d then Err EDb else Ok tt).
(** The CHECK on the new status. *)
Definition update_goal (id : Z) (st : option GoalStatus) (f : Goal -> Goal) : M unit :=
  update_goal_if (fun _ => match st with Some s => goal_status_allowed s | None => true end) id f.

Definition SetRootTask (goalID rootTaskID : Z) : M unit :=
  let! now := time_now in
  update_goal goalID None (fun g =>
    mkGoal (Goal_ID g) (Slug g) (Goal_Title g) (Goal_Description g) (OwnerUserID g) (Goal_ChannelID g)
      (CoordinatorAgentID g) (Some rootTaskID) (Goal_Status g) (Goal_BudgetTokens g)
      (Goal_BudgetDollarsCents g) (MaxSpawnDepth g) (Alert80PctPosted g) now (Goal_CompletedAt g)
      (CompletionSummary g) (Goal_CompletionMessageID g)).

Definition SetStatus (goalID : Z) (newStatus : GoalStatus) : M unit :=
  let! now := time_now in
  update_goal goalID (Some newStatus) (with_goal_status newStatus now).

Definition completion_time (newStatus : GoalStatus) (now : Z) (old : option Z) : option Z :=
  match newStatus with GoalCompleted | GoalStuck | GoalCancelled => Some now | _ => old end.

Definition with_completion (st : GoalStatus) (summary : string) (messageID now : Z) (g : Goal) : Goal :=
  mkGoal (Goal_ID g) (Slug g) (Goal_Title g) (Goal_Description g) (OwnerUserID g) (Goal_ChannelID g)
    (CoordinatorAgentID g) (RootTaskID g) st (Goal_BudgetTokens g) (Goal_BudgetDollarsCents g)
    (MaxSpawnDepth g) (Alert80PctPosted g) now (completion_time st now (Goal_CompletedAt g))
    (Some summary) (Some messageID).

(** The message must be on record; 0, which stands for no message, is the id of
    none. *)
Definition completion_allowed (newStatus : GoalStatus) (messageID : Z) (d : db) : bool :=
  goal_status_allowed newStatus && negb (affected (by_id messageID) (messages d) =? 0).
Definition SetCompletion (goalID : Z) (newStatus : GoalStatus) (summary : string) (messageID : Z) : M unit :=
  let! now := time_now in
  update_goal_if (completion_allowed newStatus messageID) goalID (with_completion newStatus summary messageID now).

Definition with_alert (g : Goal) : Goal :=
  mkGoal (Goal_ID g) (Slug g) (Goal_Title g) (Goal_Description g) (OwnerUserID g) (Goal_ChannelID g)
    (CoordinatorAgentID g) (RootTaskID g) (Goal_Status g) (Goal_BudgetTokens g)
    (Goal_BudgetDollarsCents g) (MaxSpawnDepth g) true (Goal_UpdatedAt g) (Goal_CompletedAt g)
    (CompletionSummary g) (Goal_CompletionMessageID g).

Definition MarkSoftAlertPosted (goalID : Z) : M unit := update_goal goalID None with_alert.

(** ** The service *)

(** [ChannelCreator]: creates the backing channel.  Goals relies on it to leave
    the goals alone. *)
Class ChannelCreator := {
  CreateGoalChannel : string -> string -> string -> string -> M Z;
  CreateGoalChannel_frame : forall slug title description owner,
    within (fun d d' => goals d' = goals d) (CreateGoalChannel slug title description owner)
}.

(** [fmt.Sprintf("%s-%d", baseSlug, i)]. *)
Definition numbered (base : string) (i : Z) : string := base +:+ "-" +:+ pretty i.

(** The loop [for i := 2; i < 100; i++], [n] iterations left. *)
Fixpoint slug_loop (base : string) (n : nat) (i : Z) (slug : string) : M string :=
  match n with
  | O => Ret (Ok slug)
  | S n' =>
      let? exists_ := SlugExists slug in
      if exists_ then slug_loop base n' (i + 1) (numbered base i) else Ret (Ok slug)
  end.

Definition new_goal (inp : CreateGoalInput) (slug : string) (channelID : Z) : Goal :=
  mkGoal 0 slug (cg_Title inp) (cg_Description inp) (cg_OwnerUserID inp) channelID
    (cg_CoordinatorAgentID inp) None GoalDraft (cg_BudgetTokens inp) (cg_BudgetDollarsCents inp)
    (if cg_MaxSpawnDepth inp <=? 0 then 3 else cg_MaxSpawnDepth inp) false 0 None None None.

Definition with_goal_id (id : Z) (g : Goal) : Goal :=
  mkGoal id (Slug g) (Goal_Title g) (Goal_Description g) (OwnerUserID g) (Goal_ChannelID g)
    (CoordinatorAgentID g) (RootTaskID g) (Goal_Status g) (Goal_BudgetTokens g)
    (Goal_BudgetDollarsCents g) (MaxSpawnDepth g) (Alert80PctPosted g) (Goal_UpdatedAt g)
    (Goal_CompletedAt g) (CompletionSummary g) (Goal_CompletionMessageID g).

Definition CreateGoal `{!ChannelCreator} (inp : CreateGoalInput) : M Goal :=
  if bool_decide (cg_Title inp = "" \/ cg_Description inp = "") then Ret (Err EGoalFields)
  else
    let base := slugify (cg_Title inp) in
    let? slug := slug_loop base 98 2 base in
    let? channelID := CreateGoalChannel slug (cg_Title inp) (cg_Description inp) (cg_OwnerUsername inp) in
    let g := new_goal inp slug channelID in
    let? id := Insert g in
    Ret (Ok (with_goal_id id g)).

Definition legalTransition (from to : GoalStatus) : bool :=
  match from with
  | GoalDraft => bool_decide (to = GoalActive \/ to = GoalCompleted \/ to = GoalStuck \/ to = GoalCancelled)
  | GoalActive => bool_decide (to = GoalPaused \/ to = GoalCompleted \/ to = GoalStuck \/ to = GoalCancelled)
  | GoalPaused => bool_decide (to = GoalActive \/ to = GoalCompleted \/ to = GoalStuck \/ to = GoalCancelled)
  | GoalStuck => bool_decide (to = GoalActive \/ to = GoalCompleted \/ to = GoalCancelled)
  | _ => false
  end.

Definition TransitionStatus (goalID : Z) (newStatus : GoalStatus) : M unit :=
  let? g := Get goalID in
  if negb (legalTransition (Goal_Status g) newStatus)
  then Ret (Err (EIllegalGoalTransition (Goal_Status g) newStatus))
  else SetStatus goalID newStatus.

Definition Complete (goalID : Z) (newStatus : GoalStatus) (summary : string) (messageID : Z) : M unit :=
  let? g := Get goalID in
  if bool_decide (Goal_Status g = newStatus) then Ret (Ok tt)
  else if negb (legalTransition (Goal_Status g) newStatus)
  then Ret (Err (EIllegalGoalTransition (Goal_Status g) newStatus))
  else SetCompletion goalID newStatus summary messageID.

(** ** The budget *)

Record BudgetVerdict := mkBudgetVerdict {
  PercentBudget : spec_float;
  TriggerSoftAlert : bool;
  TriggerHardPause : bool
}.

Definition zero_verdict : BudgetVerdict := mkBudgetVerdict (S754_zero false) false false.

Definition budget_verdict (g : Goal) (spentCents : Z) : BudgetVerdict :=
  match Goal_BudgetDollarsCents g with
  | None => zero_verdict
  | Some b =>
      if b <=? 0 then zero_verdict
      else
        let pct := f64_mul (f64_div (f64_of_Z spentCents) (f64_of_Z b)) (f64_of_Z 100) in
        mkBudgetVerdict pct
          (f64_ge pct (f64_of_Z 80) && negb (Alert80PctPosted g))
          (f64_ge pct (f64_of_Z 100) && bool_decide (Goal_Status g = GoalActive))
  end.

Definition EvaluateBudget (goalID spentCents : Z) : M BudgetVerdict :=
  let? g := Get goalID in Ret (Ok (budget_verdict g spentCents)).
