(* ===== verification/GoalsSpec.v ===== *)
(** * Goals: canonical slugs, creation, transitions, completion, budget *)
From S2P Require Import Prelude Float64 Prog Table Schema Goals.
From stdpp Require Import pretty.
#[local] Open Scope Z_scope.

(** ** Slugs *)
Definition slug_char (a : Ascii.ascii) : Prop := is_alnum a = true \/ a = dash.

Fixpoint no_double (l : list Ascii.ascii) : Prop :=
  match l with
  | a :: r => (a = dash -> head r <> Some dash) /\ no_double r
  | [] => True
  end.

(** Lower-case letters and digits, in words separated by single dashes. *)
Record canonical (l : list Ascii.ascii) : Prop := {
  cn_nonempty : l <> [];
  cn_chars : Forall slug_char l;
  cn_head : head l <> Some dash;
  cn_last : last l <> Some dash;
  cn_single : no_double l
}.

Lemma dash_not_alnum : is_alnum dash = false.
Proof. reflexivity. Qed.

Lemma no_double_snoc l a : no_double l -> (a = dash -> last l <> Some dash) -> no_double (l ++ [a]).
Proof.
  induction l as [|x l IH]; simpl; [done|]. intros [Hx Hl] Ha. split.
  - destruct l as [|y l]; simpl in *; [|done]. intros -> [= ->]. by apply Ha.
  - apply IH; [done|]. intros ->. specialize (Ha eq_refl). by destruct l.
Qed.

Lemma last_rev {A} (l : list A) : last (rev l) = head l.
Proof. destruct l as [|x l]; [done|]. simpl. apply last_snoc. Qed.

Lemma head_rev {A} (l : list A) : head (rev l) = last l.
Proof. rewrite <- (rev_involutive l) at 2. by rewrite last_rev. Qed.

Lemma no_double_rev l : no_double l -> no_double (rev l).
Proof.
  induction l as [|x l IH]; simpl; [done|]. intros [Hx Hl]. apply no_double_snoc; [auto|].
  intros ->. rewrite last_rev. auto.
Qed.

(** The state of the builder: reversed, no leading dash in the slug, single
    dashes, and [prevDash] tells whether it ends in one. *)
Record builder_ok (st : list Ascii.ascii * bool) : Prop := {
  bo_chars : Forall slug_char st.1;
  bo_first : last st.1 <> Some dash;
  bo_single : no_double st.1;
  bo_prev : st.2 = true <-> head st.1 = Some dash
}.

Lemma slug_step_ok st a : builder_ok st -> builder_ok (slug_step st a).
Proof.
  destruct st as [b prev]. intros [Hc Hf Hs Hp]. simpl in *.
  destruct (is_alnum a) eqn:Ea; simpl.
  - assert (a <> dash) as Hne by (intros ->; by rewrite dash_not_alnum in Ea).
    split; simpl; [constructor; [by left|done]| |by split; [intros ->|]|split; [done|intros [= ->]; done]].
    destruct b as [|x b]; simpl in *; congruence.
  - destruct (is_separator a); [|done].
    destruct (negb prev && negb (bool_decide (b = []))) eqn:E; [|done]. guards.
    split; simpl; [constructor; [by right|done]| | |done].
    + destruct b as [|x b]; [done|]. done.
    + split; [|done]. intros _. destruct prev; [done|]. by intros Hh%Hp.
Qed.

Lemma slug_fold_ok l st : builder_ok st -> builder_ok (foldl slug_step st l).
Proof. revert st. induction l as [|a l IH]; intros st H; simpl; [done|]. by apply IH, slug_step_ok. Qed.

Lemma trim_dashes_spec l :
  Forall slug_char l -> no_double l -> last l <> Some dash ->
  head (trim_dashes l) <> Some dash /\ Forall slug_char (trim_dashes l) /\
  no_double (trim_dashes l) /\ last (trim_dashes l) <> Some dash.
Proof.
  induction l as [|a l IH]; simpl; [done|]. intros Hc [Hd Hs] Hl.
  apply Forall_cons in Hc as Hc'. destruct Hc' as [Ha Hc']. case_bool_decide as E.
  - apply IH; [done|done|]. by destruct l.
  - split_and!; [simpl; congruence|done|done|done].
Qed.

Lemma trim_dashes_id l : head l <> Some dash -> trim_dashes l = l.
Proof. destruct l as [|a l]; simpl; [done|]. intros H. rewrite bool_decide_false; congruence. Qed.

Lemma canonical_goal : canonical (String.list_ascii_of_string "goal").
Proof. split; simpl; [done|repeat constructor|done|done|naive_solver]. Qed.

Lemma slugify_is_canonical title : canonical (String.list_ascii_of_string (slugify title)).
Proof.
  unfold slugify. set (l := to_lower _).
  assert (builder_ok (foldl slug_step ([], false) l)) as H.
  { apply slug_fold_ok. split; simpl; [constructor|done|done|done]. }
  destruct (foldl slug_step ([], false) l) as [b prev]. destruct H as [Hc Hf Hs _]. simpl in *.
  destruct (trim_dashes_spec b Hc Hs Hf) as (H1&H2&H3&H4). set (t := trim_dashes b) in *.
  rewrite trim_dashes_id by (by rewrite head_rev). case_bool_decide as E; [apply canonical_goal|].
  rewrite String.list_ascii_of_string_of_list_ascii. split.
  - done.
  - by apply Forall_rev.
  - by rewrite head_rev.
  - by rewrite last_rev.
  - by apply no_double_rev.
Qed.

Lemma to_lower_id l : Forall slug_char l -> to_lower l = l.
Proof.
  assert (forall a, slug_char a -> let n := Ascii.nat_of_ascii a in
    (97 <= n <= 122 \/ 48 <= n <= 57 \/ n = 45)%nat) as Hn.
  { intros a [Ha| ->]; [|vm_compute; lia]. unfold is_alnum, is_lower, is_digit in Ha. cbn zeta.
    apply orb_true_iff in Ha as [Ha|Ha]; apply andb_true_iff in Ha as [H1%Nat.leb_le H2%Nat.leb_le]; lia. }
  induction 1 as [|a l Ha _ IH]; [done|]. specialize (Hn a Ha). cbn zeta in Hn. cbn [to_lower].
  assert (((65 <=? Ascii.nat_of_ascii a) && (Ascii.nat_of_ascii a <=? 90))%nat = false) as ->.
  { apply andb_false_iff. rewrite !Nat.leb_gt. lia. }
  destruct l as [|b l]; [done|]. rewrite bool_decide_false by lia. rewrite IH.
  destruct l as [|c l]; [done|]. rewrite bool_decide_false by lia. done.
Qed.

Lemma slug_fold_canonical l b prev :
  Forall slug_char l -> no_double l -> (b = [] -> head l <> Some dash) ->
  (prev = true -> head l <> Some dash) ->
  (foldl slug_step (b, prev) l).1 = rev l ++ b.
Proof.
  revert b prev. induction l as [|a l IH]; intros b prev Hc Hs Hb Hp; [done|].
  apply Forall_cons in Hc as [Ha Hc]. simpl in Hs. destruct Hs as [Hd Hs]. simpl.
  rewrite <- app_assoc. simpl. destruct (is_alnum a) eqn:E; [by apply IH|].
  destruct Ha as [Ha| ->]; [congruence|]. change (is_separator dash) with true. cbv iota.
  assert (prev = false) as -> by (destruct prev; [by destruct (Hp eq_refl)|done]).
  rewrite bool_decide_false; [|intros Hnil; by destruct (Hb Hnil)]. simpl. apply IH; [done|done|done|auto].
Qed.

Lemma slugify_canonical_id s : canonical (String.list_ascii_of_string s) -> slugify s = s.
Proof.
  intros [Hne Hc Hh Hl Hs]. unfold slugify. rewrite to_lower_id by done.
  pose proof (slug_fold_canonical (String.list_ascii_of_string s) [] false Hc Hs (fun _ => Hh) ltac:(done)) as H.
  destruct (foldl _ _ _) as [b prev]. simpl in H. subst b. rewrite app_nil_r.
  rewrite (trim_dashes_id (rev (String.list_ascii_of_string s))) by (by rewrite head_rev). rewrite rev_involutive.
  rewrite trim_dashes_id by done. rewrite bool_decide_false by done.
  apply String.string_of_list_ascii_of_string.
Qed.

(** Every title has a slug of lower-case letters and digits in words
    separated by single dashes, never empty, and slugs are fixed points:
    slugifying one again gives it back. *)
Theorem slugify_canonical title :
  canonical (String.list_ascii_of_string (slugify title)) /\ slugify (slugify title) = slugify title.
Proof. split; [|apply slugify_canonical_id]; apply slugify_is_canonical. Qed.

(** ** Creation *)
Definition slug_candidate (base : string) (k : nat) : string :=
  match k with O => base | S k' => numbered base (Z.of_nat k' + 2) end.

(** The first of the first [n] candidates that is free, the next one when none
    is. *)
Definition picked (base : string) (n : nat) (d : db) (slug : string) : Prop :=
  exists k, (k <= n)%nat /\ slug = slug_candidate base k /\
    (forall j, (j < k)%nat -> slug_taken (slug_candidate base j) d = true) /\
    ((k < n)%nat -> slug_taken slug d = false).

Lemma slug_loop_wp base n m d Q :
  (forall j, (j < m)%nat -> slug_taken (slug_candidate base j) d = true) ->
  (forall slug, picked base (m + n) d slug -> Q (Ok slug) d) -> Q (Err EDb) d ->
  wp (slug_loop base n (Z.of_nat m + 2) (slug_candidate base m)) Q d.
Proof.
  intros Hm HQ HE. revert m Hm HQ. induction n as [|n IH]; intros m Hm HQ; simpl.
  - apply HQ. exists m. split_and!; [lia|done|done|lia].
  - split; [|done]. destruct (slug_taken (slug_candidate base m) d) eqn:Et.
    + replace (Z.of_nat m + 2 + 1) with (Z.of_nat (S m) + 2) by lia. apply (IH (S m)).
      * intros j Hj. destruct (decide (j = m)) as [->|]; [done|]. apply Hm. lia.
      * intros slug Hs. apply HQ. by rewrite <- Nat.add_succ_comm.
    + apply HQ. exists m. split_and!; [lia|done|done|done].
Qed.

Section Creation.
Context {HChan : ChannelCreator}.

Lemma same_goals_preorder : PreOrder (fun d d' : db => goals d' = goals d).
Proof. split; [done|]. intros a b c H1 H2. by rewrite H2. Qed.

(** [CreateGoal], whatever fails on the way, either appends exactly one
    draft goal, under the first free slug among the title's slug and its
    numbered variants -2 to -99, with a spawn depth of at least one and the
    id it returns, or leaves the goals as they were. *)
Theorem create_goal_effect inp d :
  wp (CreateGoal inp) (fun o d' =>
    match o with
    | Ok g => exists now, goals d' = insert_row (goal_row g now) (goals d) /\
        Goal_ID g = next_id (goals d) /\ Goal_Status g = GoalDraft /\ 1 <= MaxSpawnDepth g /\
        slug_taken (Slug g) d = false /\ picked (slugify (cg_Title inp)) 98 d (Slug g)
    | _ => goals d' = goals d
    end) d.
Proof.
  unfold CreateGoal. case_bool_decide; [done|]. cbn zeta. apply wp_bind_ok.
  apply (slug_loop_wp (slugify (cg_Title inp)) 98 0); [lia| |done].
  intros slug Hslug. cbn iota. apply wp_bind_ok. pose proof same_goals_preorder.
  eapply wp_mono; [|apply (within_wp (fun d d1 : db => goals d1 = goals d)); apply CreateGoalChannel_frame].
  intros [ch|e|w] d1 Hd1; cbv beta in Hd1; cbn iota; [|done..].
  unfold Insert. simpl. split; [|done]. unfold goal_insertable. simpl.
  assert (slug_taken slug d1 = slug_taken slug d) as -> by (unfold slug_taken; by rewrite Hd1).
  destruct (slug_taken slug d) eqn:Et; simpl; [done|]. exists (clock d1). rewrite Hd1.
  split_and!; [done|done|done| |done|done].
  destruct (Z.leb_spec (cg_MaxSpawnDepth inp) 0); simpl; lia.
Qed.
End Creation.

(** ** What any sequence of calls preserves *)
Record goals_ok (d : db) : Prop := {
  gk_table : table_ok (goals d);
  gk_slugs : NoDup (Slug <$> rows (goals d));
  gk_status : forall g, g ∈ rows (goals d) -> goal_status_allowed (Goal_Status g) = true
}.

Definition identity_of (g : Goal) :=
  (Goal_ID g, Slug g, Goal_Title g, Goal_Description g, OwnerUserID g, Goal_ChannelID g,
   Goal_BudgetTokens g, Goal_BudgetDollarsCents g, MaxSpawnDepth g).

(** A goal, earlier and later: who and what it is for is fixed, the soft alert
    is not retracted, and a completion time is not erased. *)
Definition goal_later (g g' : Goal) : Prop :=
  identity_of g' = identity_of g /\ (Alert80PctPosted g = true -> Alert80PctPosted g' = true) /\
  (is_Some (Goal_CompletedAt g) -> is_Some (Goal_CompletedAt g')).

Definition goals_later (d d' : db) : Prop :=
  forall g, g ∈ rows (goals d) -> exists g', g' ∈ rows (goals d') /\ goal_later g g'.

#[export] Instance goals_later_preorder : PreOrder goals_later.
Proof.
  split.
  - intros d g Hg. exists g. by repeat split.
  - intros d1 d2 d3 H12 H23 g Hg. destruct (H12 g Hg) as (g2&Hg2&Hi&Ha&Hc).
    destruct (H23 g2 Hg2) as (g3&Hg3&Hi'&Ha'&Hc'). exists g3. split_and!; [done|].
    split_and!; [congruence|auto|auto].
Qed.

Definition goals_step (d d' : db) : Prop := goals_ok d -> goals_ok d' /\ goals_later d d'.

Lemma goals_same_step d d' : goals d' = goals d -> goals_step d d'.
Proof.
  intros E [H1 H2 H3]. split; [split; by rewrite E|]. intros g Hg. exists g. rewrite E. by repeat split.
Qed.

Lemma goals_update_step id (allowed : db -> bool) f d :
  (forall g, goal_later g (f g)) ->
  (forall g, allowed d = true -> goal_status_allowed (Goal_Status g) = true -> goal_status_allowed (Goal_Status (f g)) = true) ->
  goals_step d (if negb (allowed d) && negb (affected (by_id id) (goals d) =? 0) then d else set_goals (update_rows (by_id id) f (goals d)) d).
Proof.
  intros Hl Hst Hok. destruct (negb (allowed d) && _) eqn:Erej; [split; [done|reflexivity]|].
  assert (forall g, Goal_ID (f g) = Goal_ID g /\ Slug (f g) = Slug g) as Hid.
  { intros g. destruct (Hl g) as [H _]. unfold identity_of in H. by simplify_eq. }
  destruct Hok as [H1 H2 H3]. split; [split|]; simpl.
  - apply table_ok_update; [|done]. intros g. apply Hid.
  - assert (Slug <$> map_if (by_id id) f (rows (goals d)) = Slug <$> rows (goals d)) as ->; [|done].
    unfold map_if. rewrite <- list_fmap_compose. apply list_fmap_ext. intros i g _. simpl.
    destruct (by_id id g); [apply Hid|done].
  - intros g'. rewrite elem_of_map_if. intros (g&Hg&->). destruct (by_id id g) eqn:Eb; [|auto].
    destruct (allowed d); [by auto|]. simpl in Erej. guards.
    assert (by_id id g = false) as Hf by (by eapply (proj1 (count_if_0 _ _))). congruence.
  - intros g Hg. exists (if by_id id g then f g else g). split; [apply elem_of_map_if; eauto|].
    destruct (by_id id g); [done|by repeat split].
Qed.

Lemma goals_insert_step g d :
  goals_step d (if goal_insertable g d then set_goals (insert_row (goal_row g (clock d)) (goals d)) d else d).
Proof.
  intros Hok. destruct (goal_insertable g d) eqn:E; [|split; [done|reflexivity]].
  unfold goal_insertable, slug_taken in E. guards. destruct Hok as [H1 H2 H3].
  match goal with H : affected _ _ = 0 |- _ => rename H into Hfree end. split; [split|]; simpl.
  - by apply table_ok_insert.
  - rewrite fmap_app. apply NoDup_app. split_and!; [done| |apply NoDup_singleton].
    intros s Hs. simpl. rewrite list_elem_of_singleton. intros ->.
    apply list_elem_of_fmap in Hs as (g'&Hs&Hg').
    pose proof (proj1 (count_if_0 _ _) Hfree g' Hg') as Hf. simpl in Hf. guards. by destruct Hf.
  - intros g'. rewrite elem_of_app, list_elem_of_singleton. intros [?| ->]; auto.
  - intros g' Hg'. exists g'. split; [set_solver|by repeat split].
Qed.

(** ** The calls *)
Inductive goal_call :=
| GCreate (inp : CreateGoalInput)
| GTransition (goalID : Z) (newStatus : GoalStatus)
| GComplete (goalID : Z) (newStatus : GoalStatus) (summary : string) (messageID : Z)
| GAlert (goalID : Z)
| GRoot (goalID rootTaskID : Z)
| GEvaluate (goalID spentCents : Z).

Section Calls.
Context {HChan : ChannelCreator}.

Definition goal_call_prog (c : goal_call) : M unit :=
  let unit_of {A} (p : M A) : M unit := bind p (fun o => Ret (outcome_map (fun _ => tt) o)) in
  match c with
  | GCreate inp => unit_of (CreateGoal inp)
  | GTransition g s => TransitionStatus g s
  | GComplete g s t m => Complete g s t m
  | GAlert g => MarkSoftAlertPosted g
  | GRoot g t => SetRootTask g t
  | GEvaluate g n => unit_of (EvaluateBudget g n)
  end.

Lemma Get_within id : within goals_step (Get id).
Proof. simpl. split; [|done]. intros d. split; [by apply goals_same_step|done]. Qed.

Lemma update_goal_if_within allowed id f :
  (forall g, goal_later g (f g)) ->
  (forall d g, allowed d = true -> goal_status_allowed (Goal_Status g) = true -> goal_status_allowed (Goal_Status (f g)) = true) ->
  within goals_step (update_goal_if allowed id f).
Proof. intros H1 H2. simpl. split; [|done]. intros d. split; [by apply goals_update_step; [|intros g; apply H2]|done]. Qed.
Lemma update_goal_within id st f :
  (forall g, goal_later g (f g)) -> (forall g, Goal_Status (f g) = default (Goal_Status g) st) ->
  within goals_step (update_goal id st f).
Proof. intros H1 H2. apply update_goal_if_within; [done|]. intros _ g Ha Hg. rewrite H2. by destruct st. Qed.

Lemma slug_loop_within base n i slug : within goals_step (slug_loop base n i slug).
Proof.
  revert i slug. induction n as [|n IH]; intros i slug; [done|]. apply within_bind_ok.
  - simpl. split; [|done]. intros d. split; [by apply goals_same_step|done].
  - intros []; [apply IH|done].
Qed.

Lemma goal_call_within c : within goals_step (goal_call_prog c).
Proof.
  destruct c as [inp|g s|g s t m|g|g t|g n]; cbn [goal_call_prog].
  - apply within_bind; [|done]. unfold CreateGoal. case_bool_decide; [done|].
    apply within_bind_ok; [apply slug_loop_within|]. intros slug. apply within_bind_ok.
    { eapply within_mono; [|apply CreateGoalChannel_frame]. simpl. by apply goals_same_step. }
    intros ch. apply within_bind_ok; [|done]. simpl. split; [|done]. intros d.
    split; [apply goals_insert_step|done].
  - apply within_bind_ok; [apply Get_within|]. intros a. destruct (negb _); [done|].
    apply within_bind; [done|]. intros now. apply update_goal_within; [by repeat split|done].
  - apply within_bind_ok; [apply Get_within|]. intros a. case_bool_decide; [done|].
    destruct (negb _); [done|]. apply within_bind; [done|]. intros now. apply update_goal_if_within.
    + intros x. repeat split; [done|]. simpl. intros [v Hv]. unfold completion_time. destruct s; eauto.
    + intros d x [Ha _]%andb_prop _. exact Ha.
  - apply update_goal_within; [by repeat split|done].
  - apply within_bind; [done|]. intros now. apply update_goal_within; [by repeat split|done].
  - apply within_bind; [|done]. apply within_bind_ok; [apply Get_within|done].
Qed.

Lemma tick_goals d d' : goals_ok d -> tick d d' -> goals_ok d' /\ goals_later d d'.
Proof. intros Ht (s&_&->). by apply goals_same_step. Qed.

(** Whatever creations, transitions, completions, alerts and evaluations
    run concurrently, with any statement failing: slugs and ids stay unique
    and statuses legal, no goal disappears or changes owner, channel or
    budget, the soft alert is posted at most once, and a completion time is
    never erased. *)
Theorem goals_history (cs : list goal_call) (d : db) (ps : list (M unit)) (d' : db)
    (Hok : goals_ok d) (Hrun : rtc (pool_step tick) (goal_call_prog <$> cs, d) (ps, d')) :
  goals_ok d' /\ forall g, g ∈ rows (goals d) -> exists g', g' ∈ rows (goals d') /\ goal_later g g'.
Proof.
  destruct (pool_invariant goals_ok goals_later tick tick_goals (goal_call_prog <$> cs) ps
    (fun _ _ _ => True) d d') as (H1&H2&_); [|done|done|done].
  intros i p Hp. rewrite list_lookup_fmap in Hp. apply fmap_Some in Hp as (c&_&->).
  eapply (within_rg _ _ goals_step); [|apply goal_call_within]. intros d1 d2 H1 H2. by apply H2.
Qed.
End Calls.

(** ** Transitions and completion *)

(** The goal of that id moved by [f], everything else as it was. *)
Definition only_goal (id : Z) (f : Goal -> Goal) (d d' : db) : Prop :=
  d' = set_goals (goals d') d /\
  find_id id (goals d') = f <$> find_id id (goals d) /\
  forall i, i <> id -> find_id i (goals d') = find_id i (goals d).

Lemma only_goal_update id f d :
  (forall g, Goal_ID (f g) = Goal_ID g) ->
  only_goal id f d (set_goals (update_rows (by_id id) f (goals d)) d).
Proof.
  intros Hf. split_and!; [done| |]; simpl.
  - rewrite find_id_update by done. destruct (find_id id (goals d)) as [g|] eqn:E; [|done]. simpl.
    apply find_id_Some in E as [E _]. unfold by_id. by rewrite E, Z.eqb_refl.
  - intros i Hi. rewrite find_id_update by done. destruct (find_id i (goals d)) as [g|] eqn:E; [|done]. simpl.
    apply find_id_Some in E as [E _]. unfold by_id. by rewrite E, (proj2 (Z.eqb_neq _ _) Hi).
Qed.

Lemma legal_allowed from to : legalTransition from to = true -> goal_status_allowed to = true.
Proof. destruct to; [done..|]. by destruct from. Qed.

(** [Complete], run alone with any statement failing, is idempotent (a goal
    already in the target status is left alone), moves a goal only along a
    legal edge, recording the summary, the message, which must be on record, and,
    for the three ending statuses, the time; a completed or cancelled goal is
    never moved; and every error leaves the database as it was. *)
Theorem complete_effect id new summary msg d :
  wp (Complete id new summary msg) (fun o d' =>
    match o with
    | Ok _ => exists g, find_id id (goals d) = Some g /\
        ((Goal_Status g = new /\ d' = d) \/
         (legalTransition (Goal_Status g) new = true /\ completion_allowed new msg d = true /\
          Goal_Status g <> GoalCompleted /\ Goal_Status g <> GoalCancelled /\
          only_goal id (with_completion new summary msg (clock d)) d d'))
    | Err e => d' = d /\ (e = EDb \/ (e = ErrGoalNotFound /\ find_id id (goals d) = None) \/
        exists g, find_id id (goals d) = Some g /\ e = EIllegalGoalTransition (Goal_Status g) new /\
                  legalTransition (Goal_Status g) new = false)
    | Panic _ => False
    end) d.
Proof.
  unfold Complete, Get. apply wp_bind_ok. simpl. split; [|auto].
  destruct (find_id id (goals d)) as [g|] eqn:Ef; simpl; [|eauto 10].
  case_bool_decide; [naive_solver|]. destruct (legalTransition (Goal_Status g) new) eqn:El; simpl; [|naive_solver].
  split; [|by auto]. destruct (completion_allowed new msg d) eqn:Ea; simpl.
  - exists g. split; [done|]. right.
    split_and!; [done|done|intros E; by rewrite E in El|intros E; by rewrite E in El|by apply only_goal_update].
  - assert ((affected (by_id id) (goals d) =? 0) = false) as -> by (by rewrite affected_find; unfold find_id in Ef; rewrite Ef). simpl. auto.
Qed.

(** [TransitionStatus], run alone, moves a goal only along a legal edge, and
    then changes nothing but its status and its update time. *)
Theorem goal_transition_effect id new d :
  wp (TransitionStatus id new) (fun o d' =>
    match o with
    | Ok _ => exists g, find_id id (goals d) = Some g /\ legalTransition (Goal_Status g) new = true /\
        only_goal id (with_goal_status new (clock d)) d d'
    | Err e => d' = d /\ (e = EDb \/ (e = ErrGoalNotFound /\ find_id id (goals d) = None) \/
        exists g, find_id id (goals d) = Some g /\ e = EIllegalGoalTransition (Goal_Status g) new /\
                  legalTransition (Goal_Status g) new = false)
    | Panic _ => False
    end) d.
Proof.
  unfold TransitionStatus, Get. apply wp_bind_ok. simpl. split; [|auto].
  destruct (find_id id (goals d)) as [g|] eqn:Ef; simpl; [|eauto 10].
  destruct (legalTransition (Goal_Status g) new) eqn:El; simpl; [|naive_solver].
  rewrite (legal_allowed _ _ El). simpl. split; [|by auto]. exists g.
  split_and!; [done|done|by apply only_goal_update].
Qed.

(** ** The budget *)

(** [EvaluateBudget] never changes the database; a goal without a positive
    dollar budget gets the empty verdict; the soft alert is asked for only
    while it has not been posted, so never again once
    [MarkSoftAlertPosted] has run; and the hard pause only for an active goal. *)
Theorem evaluate_budget_effect id spent d :
  wp (EvaluateBudget id spent) (fun o d' => d' = d /\
    match o with
    | Ok v => exists g, find_id id (goals d) = Some g /\ v = budget_verdict g spent /\
        (default 0 (Goal_BudgetDollarsCents g) <= 0 -> v = zero_verdict) /\
        (TriggerSoftAlert v = true -> Alert80PctPosted g = false) /\
        (TriggerHardPause v = true -> Goal_Status g = GoalActive) /\
        TriggerSoftAlert (budget_verdict (with_alert g) spent) = false
    | Err e => e = EDb \/ find_id id (goals d) = None
    | Panic _ => False
    end) d.
Proof.
  unfold EvaluateBudget, Get. apply wp_bind_ok. simpl. split; [|auto].
  destruct (find_id id (goals d)) as [g|] eqn:Ef; [|auto]. simpl. split; [done|].
  exists g. split; [done|]. split; [done|]. unfold budget_verdict. simpl.
  destruct (Goal_BudgetDollarsCents g) as [b|]; simpl; [|done].
  destruct (Z.leb_spec b 0) as [Hb|Hb]; simpl; [done|]. rewrite andb_false_r. split_and!; [lia| | |done].
  - intros H. by guards.
  - intros H. by guards.
Qed.

(** ** Concrete runs *)
Module GoalRuns.
#[local] Instance chan : ChannelCreator.
Proof. refine {| CreateGoalChannel := fun _ _ _ _ => Ret (Ok 9) |}. done. Defined.

Definition input (title : string) : CreateGoalInput :=
  mkCreateGoalInput title "text" 1 "owner" None None (Some 1000) 0.
Definition verdict : Message := mkMessage 5 1 "critic" (Some "ann") None None "FINAL" 5 StatusPending RawEmpty None None 0 0.
Definition spoken : db := set_messages (mkTable [verdict] 6) empty_db.
Definition one_goal : db := (run_ok (CreateGoal (input "Write the docs!")) spoken).2.
Definition paused : db :=
  (run_ok (TransitionStatus 1 GoalPaused) (run_ok (TransitionStatus 1 GoalActive) one_goal).2).2.

Lemma one_goal_ok : goals_ok one_goal.
Proof.
  split.
  - assert (goals one_goal = insert_row (goal_row (new_goal (input "Write the docs!") "write-the-docs" 9) 0) empty_table)
      as -> by (vm_compute; reflexivity). apply table_ok_insert; [done|apply table_ok_empty].
  - vm_compute. constructor; [set_solver|constructor].
  - intros g Hg. assert (rows (goals one_goal) =
      [goal_row (new_goal (input "Write the docs!") "write-the-docs" 9) 0 1]) as E by (vm_compute; reflexivity).
    rewrite E in Hg. apply list_elem_of_singleton in Hg as ->. reflexivity.
Qed.

Lemma goals_history_witness :
  goals_ok one_goal /\ goals_ok (run_schedule [(0, false); (1, false); (0, false)]%nat
    (goal_call_prog <$> [GCreate (input "Write the docs"); GTransition 1 GoalActive]) one_goal).2.
Proof.
  split; [exact one_goal_ok|].
  pose proof (run_schedule_reachable tick [(0, false); (1, false); (0, false)]%nat
    (goal_call_prog <$> [GCreate (input "Write the docs"); GTransition 1 GoalActive]) one_goal) as Hr.
  destruct (run_schedule _ _ _) as [ps d']. exact (proj1 (goals_history _ one_goal ps d' one_goal_ok Hr)).
Defined.

(** The budget thresholds at the exact boundaries. *)
Example soft_at_80 : TriggerSoftAlert (budget_verdict (new_goal (input "t") "t" 1) 800) = true /\
  TriggerSoftAlert (budget_verdict (new_goal (input "t") "t" 1) 799) = false.
Proof. split; vm_compute; reflexivity. Qed.

(** A goal is closed with the message that says why, never without one: the
    message is optional for the callers, and the 0 that stands for none is
    written as a reference and refused by the database. *)
Theorem closing_needs_a_message :
  (run_ok (Complete 1 GoalCompleted "done" 5) paused).1 = Ok tt /\ (run_ok (Complete 1 GoalCompleted "done" 0) paused).1 = Err EDb.
Proof. split; by vm_compute. Qed.

(** [Complete] reads the status in one statement and writes it in another:
    a resume racing a completion can put a completed goal back to active,
    after [Complete] reported success. *)
Theorem complete_race_demotes :
  exists d1 d2 ps1 ps2,
    let calls := goal_call_prog <$> [GComplete 1 GoalCompleted "done" 5; GTransition 1 GoalActive] in
    rtc (pool_step tick) (calls, paused) (ps1, d1) /\ rtc (pool_step tick) (ps1, d1) (ps2, d2) /\
    ps1 !! 0%nat = Some (Ret (Ok tt)) /\ ps2 = [Ret (Ok tt); Ret (Ok tt)] /\
    Goal_Status <$> find_id 1 (goals d1) = Some GoalCompleted /\
    Goal_Status <$> find_id 1 (goals d2) = Some GoalActive /\
    legalTransition GoalCompleted GoalActive = false.
Proof.
  cbn zeta. match goal with |- context [rtc _ (?cs, _) _] => set (calls := cs) end.
  pose proof (run_schedule_reachable tick [(0, false); (1, false); (0, false); (0, false)]%nat calls paused) as H1.
  destruct (run_schedule _ calls paused) as [ps1 d1] eqn:E1.
  pose proof (run_schedule_reachable tick [(1, false); (1, false)]%nat ps1 d1) as H2.
  destruct (run_schedule _ ps1 d1) as [ps2 d2] eqn:E2.
  exists d1, d2, ps1, ps2. cbn zeta. split; [exact H1|]. split; [exact H2|].
  vm_compute in E1. injection E1 as <- <-. vm_compute in E2. injection E2 as <- <-. by split_and!.
Qed.
End GoalRuns.
