(* ===== verification/Trust.v ===== *)
(** * Trust (internal/trust: delegation.go, config_hash.go, model.go, service.go, store.go)

    The delegation cap of a spawned agent, the identity hash of an agent
    configuration, and the per-agent trust scores. *)
From S2P Require Import Prelude Float64 Prog Table Schema.

(** ** Delegation *)
Definition TierSupervised : string := "supervised".
Definition TierAssisted : string := "assisted".
Definition TierAutonomous : string := "autonomous".

Definition tierRank (t : string) : option Z :=
  if String.eqb t TierSupervised then Some 1
  else if String.eqb t TierAssisted then Some 2
  else if String.eqb t TierAutonomous then Some 3
  else None.

Record Grant := mkGrant {
  AutonomyTier : string;
  ToolScope : list string;
  BudgetTokens : Z;
  BudgetDollarsCents : Z;
  SpawnDepth : Z
}.

(** The violations, one constructor per message of the code. *)
Inductive violation :=
| UnknownTier (tier : string)
| TierExceedsParent (proposed parent : string)
| ToolNotInScope (tool : string)
| BudgetNegative (label : string) (proposed : Z)
| BudgetExceeds (label : string) (proposed parent : Z)
| DepthExceeds (depth max : Z).

Definition capBudget (label : string) (parent proposed : Z) (violations : list violation)
    : Z * list violation :=
  if parent =? 0
  then if proposed <? 0 then (0, violations ++ [BudgetNegative label proposed]) else (proposed, violations)
  else if proposed =? 0 then (parent, violations)
  else if parent <? proposed then (parent, violations ++ [BudgetExceeds label proposed parent])
  else if proposed <? 0 then (0, violations ++ [BudgetNegative label proposed])
  else (proposed, violations).

Definition DelegationCap (parent proposed : Grant) (maxDepth : Z) : Grant * list violation :=
  let parentRank := default 1 (tierRank (AutonomyTier parent)) in
  let proposedRank := default 1 (tierRank (AutonomyTier proposed)) in
  let v0 := match tierRank (AutonomyTier proposed) with
            | None => [UnknownTier (AutonomyTier proposed)]
            | Some _ => []
            end in
  let '(tier, v1) := if parentRank <? proposedRank
    then (AutonomyTier parent, v0 ++ [TierExceedsParent (AutonomyTier proposed) (AutonomyTier parent)])
    else (AutonomyTier proposed, v0) in
  let allowed := filter (fun t => t ∈ ToolScope parent) (ToolScope proposed) in
  let disallowed := filter (fun t => t ∉ ToolScope parent) (ToolScope proposed) in
  let v2 := v1 ++ (ToolNotInScope <$> sort_strings disallowed) in
  let '(tokens, v3) := capBudget "budget_tokens" (BudgetTokens parent) (BudgetTokens proposed) v2 in
  let '(dollars, v4) := capBudget "budget_dollars_cents" (BudgetDollarsCents parent) (BudgetDollarsCents proposed) v3 in
  let depth := wrap64 (SpawnDepth parent + 1) in
  let v5 := if maxDepth <? depth then v4 ++ [DepthExceeds depth maxDepth] else v4 in
  (mkGrant tier (sort_strings allowed) tokens dollars depth, v5).

(** ** Configuration identity *)
Record MCPServerRef := mkMCPServerRef { srv_Name : string; srv_URL : string; srv_Transport : string }.

Record AgentConfig := mkAgentConfig {
  cfg_Model : string;
  cfg_SystemPrompt : string;
  cfg_ToolScope : list string;
  cfg_Skills : list string;
  cfg_Subagents : list string;
  cfg_MCPServers : list MCPServerRef
}.

(** [sort.Slice] with a less function on keys: some permutation in key order;
    which one, for equal keys, is not specified.  The digest of the marshalled
    text (json.Marshal, SHA-256, hex) is a function of the value marshalled. *)
Class GoHash := {
  sort_slice : (MCPServerRef -> string) -> list MCPServerRef -> list MCPServerRef;
  sort_slice_perm : forall key l, Permutation (sort_slice key l) l;
  sort_slice_sorted : forall key l, Sorted (fun a b => str_le (key a) (key b)) (sort_slice key l);
  sha256_hex : json -> string
}.

(** [json.Marshal] writes a nil slice, which is what copying an empty one gives,
    as [null]. *)
Definition json_strings (l : list string) : json :=
  match l with [] => JNull | _ => JArr (JStr <$> l) end.

Definition canonical_config `{!GoHash} (cfg : AgentConfig) : json :=
  JObj [("mcp_servers", JArr ((fun s => JObj [("name", JStr (srv_Name s)); ("transport", JStr (srv_Transport s));
                                               ("url", JStr (srv_URL s))])
                              <$> sort_slice srv_Name (cfg_MCPServers cfg)));
        ("model", JStr (cfg_Model cfg));
        ("skills", json_strings (sort_strings (cfg_Skills cfg)));
        ("subagents", json_strings (sort_strings (cfg_Subagents cfg)));
        ("system_prompt", JStr (cfg_SystemPrompt cfg));
        ("tool_scope", json_strings (sort_strings (cfg_ToolScope cfg)))].

Definition ConfigHash `{!GoHash} (cfg : AgentConfig) : string := sha256_hex (canonical_config cfg).

(** ** Scores *)
Definition ApprovalIncrement : spec_float := f64_lit 5 100.
Definition RejectionDecrement : spec_float := f64_lit 10 100.
Definition MinScore : spec_float := f64_zero.
Definition MaxScore : spec_float := f64_one.

Definition ClampScore (score : spec_float) : spec_float :=
  if f64_lt score MinScore then MinScore
  else if f64_lt MaxScore score then MaxScore else score.

Definition score_key (agentName actionType : string) (ts : TrustScore) : bool :=
  String.eqb (TS_AgentName ts) agentName && String.eqb (TS_ActionType ts) actionType.

Definition no_score (agentName actionType : string) : TrustScore :=
  mkTrustScore 0 agentName actionType f64_zero 0 None.

Definition store_GetScore (agentName actionType : string) : M TrustScore :=
  query EDb (fun d => default (no_score agentName actionType) (find_row (score_key agentName actionType) (agent_trust d))).

Definition score_order (a b : TrustScore) : Prop := str_le (TS_ActionType a) (TS_ActionType b).
#[export] Instance score_order_dec a b : Decision (score_order a b).
Proof. unfold score_order. apply _. Defined.

Definition GetAllScores `{!Engine} (agentName : string) : M (list TrustScore) :=
  query EDb (fun d => select_by score_order (fun ts => String.eqb (TS_AgentName ts) agentName) (agent_trust d)).

Definition bump_score (delta : spec_float) (now : Z) (ts : TrustScore) : TrustScore :=
  mkTrustScore (TS_ID ts) (TS_AgentName ts) (TS_ActionType ts) (sql_clamp (f64_add (Score ts) delta))
    (AdjustmentsCount ts + 1) (Some now).

(** INSERT ... ON CONFLICT(agent_name, action_type) DO UPDATE; the score column
    is NOT NULL, and SQLite stores a NaN as NULL. *)
Definition upsert_score (agentName actionType : string) (delta : spec_float) (now : Z) (t : table TrustScore)
    : option (table TrustScore) :=
  match find_row (score_key agentName actionType) t with
  | Some ts =>
      if f64_is_nan (sql_clamp (f64_add (Score ts) delta)) then None
      else Some (update_rows (score_key agentName actionType) (bump_score delta now) t)
  | None =>
      if f64_is_nan (sql_clamp delta) then None
      else Some (insert_row (fun id => mkTrustScore id agentName actionType (sql_clamp delta) 1 (Some now)) t)
  end.

Definition UpsertScore (agentName actionType : string) (delta : spec_float) : M TrustScore :=
  let? _ := exec_o EDb
    (fun d => match upsert_score agentName actionType delta (clock d) (agent_trust d) with
              | Some t => set_agent_trust t d
              | None => d
              end)
    (fun d => match upsert_score agentName actionType delta (clock d) (agent_trust d) with
              | Some _ => Ok tt
              | None => Err EDb
              end) in
  store_GetScore agentName actionType.

Definition RecordApproval (agentName actionType : string) : M TrustScore :=
  UpsertScore agentName actionType ApprovalIncrement.

Definition RecordRejection (agentName actionType : string) : M TrustScore :=
  UpsertScore agentName actionType (f64_neg RejectionDecrement).

(** The summary map; a later row of the same action would overwrite. *)
Definition GetScores `{!Engine} (agentName : string) : M (gmap string spec_float) :=
  let? scores := GetAllScores agentName in
  Ret (Ok (foldl (fun m ts => <[TS_ActionType ts := Score ts]> m) ∅ scores)).

Definition GetScore (agentName actionType : string) : M spec_float :=
  let? ts := store_GetScore agentName actionType in Ret (Ok (Score ts)).

Definition CheckAutonomy (agentName actionType : string) (threshold : spec_float) : M (bool * spec_float) :=
  let? score := GetScore agentName actionType in
  Ret (Ok (f64_ge score threshold, score)).
