(* ===== verification/TrustSpec.v ===== *)
(** * Trust: the delegation cap, configuration identity, bounded scores *)
From S2P Require Import Prelude Float64 Prog Table Schema Trust.

(** ** Delegation *)
Definition rank (tier : string) : Z := default 1 (tierRank tier).

(** A budget within its cap; a zero cap is no cap. *)
Definition budget_within (cap b : Z) : Prop := 0 <= b /\ (cap = 0 \/ b <= cap).

(** What a child may propose: a known tier no higher than the parent's, tools
    the parent has, budgets within the parent's, and room for one more level. *)
Record conforms (parent proposed : Grant) (maxDepth : Z) : Prop := {
  cf_tier : is_Some (tierRank (AutonomyTier proposed)) /\ rank (AutonomyTier proposed) <= rank (AutonomyTier parent);
  cf_tools : forall t, t ∈ ToolScope proposed -> t ∈ ToolScope parent;
  cf_tokens : BudgetTokens proposed = 0 \/ budget_within (BudgetTokens parent) (BudgetTokens proposed);
  cf_dollars : BudgetDollarsCents proposed = 0 \/ budget_within (BudgetDollarsCents parent) (BudgetDollarsCents proposed);
  cf_depth : wrap64 (SpawnDepth parent + 1) <= maxDepth
}.

(** The effective grant is within the parent's on every dimension. *)
Record no_more_than (parent g : Grant) : Prop := {
  nm_tier : rank (AutonomyTier g) <= rank (AutonomyTier parent);
  nm_tools : forall t, t ∈ ToolScope g -> t ∈ ToolScope parent;
  nm_tokens : budget_within (BudgetTokens parent) (BudgetTokens g);
  nm_dollars : budget_within (BudgetDollarsCents parent) (BudgetDollarsCents g)
}.

Lemma capBudget_spec label p c v :
  0 <= p ->
  exists extra, (capBudget label p c v).2 = v ++ extra /\
    budget_within p (capBudget label p c v).1 /\
    (extra = [] <-> c = 0 \/ budget_within p c) /\
    (budget_within p c -> c <> 0 -> (capBudget label p c v).1 = c) /\
    (c = 0 -> (capBudget label p c v).1 = p).
Proof.
  intros Hp. unfold capBudget, budget_within.
  destruct (Z.eqb_spec p 0); [|destruct (Z.eqb_spec c 0); [|destruct (Z.ltb_spec p c)]].
  - destruct (Z.ltb_spec c 0); simpl; eexists; (split; [try done; by rewrite app_nil_r|]); split_and!; (try lia);
      split; intros; try done; lia.
  - exists []. simpl. rewrite app_nil_r. split_and!; try lia; try done. split; [by left|done].
  - eexists. split; [done|]. simpl. split_and!; try lia. split; [done|lia].
  - destruct (Z.ltb_spec c 0); simpl.
    + eexists. split; [done|]. split_and!; try lia. split; [done|lia].
    + exists []. rewrite app_nil_r. split_and!; try lia; try done. split; [lia|done].
Qed.

Lemma elem_of_sort_strings t l : t ∈ sort_strings l <-> t ∈ l.
Proof. by rewrite sort_strings_perm. Qed.

Lemma sort_strings_nil l : sort_strings l = [] <-> l = [].
Proof.
  split; [|by intros ->]. intros H. pose proof (sort_strings_perm l) as Hp. rewrite H in Hp.
  by apply Permutation_nil_l in Hp.
Qed.

Lemma disallowed_nil (scope l : list string) :
  ToolNotInScope <$> sort_strings (filter (fun t => t ∉ scope) l) = [] <-> forall t, t ∈ l -> t ∈ scope.
Proof.
  split.
  - intros E%fmap_nil_inv. apply (proj1 (sort_strings_nil _)) in E. intros t Hin. destruct (decide (t ∈ scope)) as [|Hn]; [done|].
    assert (t ∈ filter (fun t => t ∉ scope) l) as H by (by apply list_elem_of_filter).
    rewrite E in H. set_solver.
  - intros H. assert (filter (fun t => t ∉ scope) l = []) as ->; [|done].
    destruct (filter _ _) as [|t l'] eqn:E; [done|].
    assert (t ∈ filter (fun t => t ∉ scope) l) as Hin by (rewrite E; set_solver).
    apply list_elem_of_filter in Hin as [Hn Hin]. by destruct (Hn (H t Hin)).
Qed.

(** What the steps of [DelegationCap] produce, dimension by dimension. *)
Lemma DelegationCap_spec parent proposed maxDepth :
  0 <= BudgetTokens parent -> 0 <= BudgetDollarsCents parent ->
  let '(eff, viol) := DelegationCap parent proposed maxDepth in
  no_more_than parent eff /\ (viol = [] <-> conforms parent proposed maxDepth) /\
  SpawnDepth eff = wrap64 (SpawnDepth parent + 1) /\
  (rank (AutonomyTier proposed) <= rank (AutonomyTier parent) -> AutonomyTier eff = AutonomyTier proposed) /\
  ToolScope eff = sort_strings (filter (fun t => t ∈ ToolScope parent) (ToolScope proposed)).
Proof.
  intros Ht Hd. unfold DelegationCap. fold (rank (AutonomyTier parent)) (rank (AutonomyTier proposed)).
  destruct (if rank _ <? rank _ then _ else _) as [tier v1] eqn:E1.
  set (v2 := v1 ++ _).
  destruct (capBudget_spec "budget_tokens" (BudgetTokens parent) (BudgetTokens proposed) v2 Ht) as (x3&E3&W3&N3&_&_).
  destruct (capBudget _ (BudgetTokens parent) _ v2) as [tok v3]. simpl in E3, W3. subst v3.
  destruct (capBudget_spec "budget_dollars_cents" (BudgetDollarsCents parent) (BudgetDollarsCents proposed) (v2 ++ x3) Hd)
    as (x4&E4&W4&N4&_&_).
  destruct (capBudget _ (BudgetDollarsCents parent) _ _) as [dol v4]. simpl in E4, W4. subst v4.
  assert ((v1 = [] <-> is_Some (tierRank (AutonomyTier proposed)) /\ rank (AutonomyTier proposed) <= rank (AutonomyTier parent)) /\
          rank tier <= rank (AutonomyTier parent) /\
          (rank (AutonomyTier proposed) <= rank (AutonomyTier parent) -> tier = AutonomyTier proposed)) as (N1&R1&S1).
  { destruct (Z.ltb_spec (rank (AutonomyTier parent)) (rank (AutonomyTier proposed))); injection E1 as <- <-.
    - split_and!; [split; [by intros [_ ?]%app_nil|lia]|lia|lia].
    - split_and!; [|done|done]. destruct (tierRank (AutonomyTier proposed)) as [r|]; [split; eauto|].
      split; [done|]. intros [[? ?] _]. done. }
  pose proof (disallowed_nil (ToolScope parent) (ToolScope proposed)) as N2.
  split_and!; simpl.
  - split; simpl; [done| |done|done]. intros t. rewrite elem_of_sort_strings, list_elem_of_filter. tauto.
  - destruct (Z.ltb_spec maxDepth (wrap64 (SpawnDepth parent + 1))); simpl.
    + split; [by intros [_ ?]%app_nil|]. intros []. lia.
    + unfold v2. rewrite !app_nil, N1, N2, N3, N4. split; [intros; split; tauto|intros []; tauto].
  - done.
  - done.
  - done.
Qed.

(** C7. The child never gets more than the parent: whatever it proposes, the
    effective grant is within the parent's on tier, tools and both budgets,
    one level deeper, and the violations are empty exactly when the proposal
    conforms to the parent's grant and the depth limit. *)
Theorem delegation_cap_enforces parent proposed maxDepth
    (Ht : 0 <= BudgetTokens parent) (Hd : 0 <= BudgetDollarsCents parent) :
  let '(eff, viol) := DelegationCap parent proposed maxDepth in
  no_more_than parent eff /\ SpawnDepth eff = wrap64 (SpawnDepth parent + 1) /\
  (viol = [] <-> conforms parent proposed maxDepth).
Proof.
  pose proof (DelegationCap_spec parent proposed maxDepth Ht Hd) as H.
  destruct (DelegationCap parent proposed maxDepth) as [eff viol]. tauto.
Qed.

Lemma capBudget_idem label p c v v' : 0 <= p -> 0 <= c ->
  (capBudget label p (capBudget label p c v).1 v').1 = (capBudget label p c v).1.
Proof.
  intros Hp Hc. unfold capBudget.
  repeat match goal with
         | |- context [?a =? ?b] => destruct (Z.eqb_spec a b); simpl; try lia
         | |- context [?a <? ?b] => destruct (Z.ltb_spec a b); simpl; try lia
         end; simpl in *; lia.
Qed.

Lemma capBudget_value label p c v v' : (capBudget label p c v).1 = (capBudget label p c v').1.
Proof. unfold capBudget. by repeat case_match. Qed.

(** The budgets and the tier of the effective grant, without the violations. *)
Lemma DelegationCap_fields parent proposed maxDepth :
  let eff := (DelegationCap parent proposed maxDepth).1 in
  AutonomyTier eff = (if rank (AutonomyTier parent) <? rank (AutonomyTier proposed)
                      then AutonomyTier parent else AutonomyTier proposed) /\
  BudgetTokens eff = (capBudget "budget_tokens" (BudgetTokens parent) (BudgetTokens proposed) []).1 /\
  BudgetDollarsCents eff = (capBudget "budget_dollars_cents" (BudgetDollarsCents parent) (BudgetDollarsCents proposed) []).1 /\
  SpawnDepth eff = wrap64 (SpawnDepth parent + 1) /\
  ToolScope eff = sort_strings (filter (fun t => t ∈ ToolScope parent) (ToolScope proposed)).
Proof.
  cbn zeta. unfold DelegationCap. fold (rank (AutonomyTier parent)) (rank (AutonomyTier proposed)).
  destruct (if rank _ <? rank _ then _ else _) as [tier v1] eqn:E1. set (v2 := v1 ++ _).
  rewrite (capBudget_value "budget_tokens" _ _ [] v2).
  destruct (capBudget "budget_tokens" _ _ v2) as [tok v3].
  rewrite (capBudget_value "budget_dollars_cents" _ _ [] v3).
  destruct (capBudget "budget_dollars_cents" _ _ v3) as [dol v4]. simpl.
  split_and!; try done. by destruct (_ <? _); injection E1.
Qed.

Lemma sort_filter_idem (scope l : list string) :
  sort_strings (filter (fun t => t ∈ scope) (sort_strings (filter (fun t => t ∈ scope) l))) =
  sort_strings (filter (fun t => t ∈ scope) l).
Proof.
  apply sort_strings_unique. rewrite sort_strings_perm, list_filter_filter.
  erewrite list_filter_iff; [reflexivity|]. simpl. tauto.
Qed.

(** The cap is canonical: capping an effective grant again under the same
    parent leaves it as it is, and the order in which tools are listed, by
    parent or child, changes neither the grant nor the violations. *)
Theorem delegation_cap_canonical parent proposed maxDepth
    (Ht : 0 <= BudgetTokens parent) (Hd : 0 <= BudgetDollarsCents parent)
    (Ht' : 0 <= BudgetTokens proposed) (Hd' : 0 <= BudgetDollarsCents proposed) :
  (DelegationCap parent (DelegationCap parent proposed maxDepth).1 maxDepth).1 =
    (DelegationCap parent proposed maxDepth).1 /\
  forall ptools ctools, Permutation (ToolScope parent) ptools -> Permutation (ToolScope proposed) ctools ->
    DelegationCap (mkGrant (AutonomyTier parent) ptools (BudgetTokens parent) (BudgetDollarsCents parent) (SpawnDepth parent))
                  (mkGrant (AutonomyTier proposed) ctools (BudgetTokens proposed) (BudgetDollarsCents proposed) (SpawnDepth proposed))
                  maxDepth = DelegationCap parent proposed maxDepth.
Proof.
  split.
  - destruct (DelegationCap_fields parent proposed maxDepth) as (H1&H2&H3&H4&H5).
    set (eff := (DelegationCap parent proposed maxDepth).1) in *.
    destruct (DelegationCap_fields parent eff maxDepth) as (G1&G2&G3&G4&G5).
    destruct (DelegationCap parent eff maxDepth).1 as [a1 a2 a3 a4 a5]. destruct eff as [b1 b2 b3 b4 b5]. simpl in *.
    subst. f_equal.
    + destruct (Z.ltb_spec (rank (AutonomyTier parent)) (rank (AutonomyTier proposed))).
      * by rewrite Z.ltb_irrefl.
      * destruct (Z.ltb_spec (rank (AutonomyTier parent)) (rank (AutonomyTier proposed))); [lia|done].
    + apply sort_filter_idem.
    + by apply capBudget_idem.
    + by apply capBudget_idem.
  - intros ptools ctools Hp Hc. unfold DelegationCap. simpl.
    assert (forall P P' : string -> Prop, forall `{!forall t, Decision (P t)} `{!forall t, Decision (P' t)},
      (forall t, P t <-> P' t) -> sort_strings (filter P ctools) = sort_strings (filter P' (ToolScope proposed))) as E.
    { intros P P' ? ? HP. apply sort_strings_unique. rewrite (list_filter_iff P P') by done. by rewrite Hc. }
    rewrite (E (fun t => t ∈ ptools) (fun t => t ∈ ToolScope parent) _ _) by (intros t; by rewrite Hp).
    rewrite (E (fun t => t ∉ ptools) (fun t => t ∉ ToolScope parent) _ _) by (intros t; by rewrite Hp).
    done.
Qed.

(** A negative proposal escapes the cap one level down: it is reported, but
    the effective budget is 0, which in a parent means unlimited, so the
    grandchild may be granted, without a violation, more than the root had. *)
Theorem negative_budget_unlimited :
  let root := mkGrant TierAssisted [] 100 100 0 in
  let child := DelegationCap root (mkGrant TierAssisted [] (-1) 1 0) 5 in
  let grandchild := DelegationCap child.1 (mkGrant TierAssisted [] 1000000 1 0) 5 in
  child.2 = [BudgetNegative "budget_tokens" (-1)] /\ BudgetTokens child.1 = 0 /\
  grandchild.2 = [] /\ BudgetTokens root < BudgetTokens grandchild.1.
Proof. vm_compute. done. Qed.

(** ** Configuration identity *)

(** The same configuration up to the order of its lists. *)
Record same_config (c c' : AgentConfig) : Prop := {
  sc_model : cfg_Model c = cfg_Model c';
  sc_prompt : cfg_SystemPrompt c = cfg_SystemPrompt c';
  sc_tools : Permutation (cfg_ToolScope c) (cfg_ToolScope c');
  sc_skills : Permutation (cfg_Skills c) (cfg_Skills c');
  sc_subagents : Permutation (cfg_Subagents c) (cfg_Subagents c');
  sc_servers : Permutation (cfg_MCPServers c) (cfg_MCPServers c')
}.

Lemma Sorted_keys {A} (key : A -> string) (l : list A) :
  Sorted (fun a b => str_le (key a) (key b)) l -> StronglySorted str_le (key <$> l).
Proof.
  intros H. apply Sorted_StronglySorted in H; [|intros a b c; apply str_le_trans].
  induction H as [|x l Hl IH Hx]; simpl; constructor; [done|]. by apply Forall_fmap.
Qed.

Lemma sorted_by_key_unique {A} (key : A -> string) (l l' : list A) :
  Permutation l l' -> NoDup (key <$> l) ->
  Sorted (fun a b => str_le (key a) (key b)) l -> Sorted (fun a b => str_le (key a) (key b)) l' -> l = l'.
Proof.
  intros Hp Hn Hs Hs'.
  assert (key <$> l = key <$> l') as E.
  { apply (StronglySorted_unique str_le); [by apply Sorted_keys..|by rewrite Hp]. }
  apply list_eq. intros i. pose proof (f_equal (fun k => k !! i) E) as Ei. simpl in Ei.
  rewrite !list_lookup_fmap in Ei.
  destruct (l !! i) as [x|] eqn:Ex, (l' !! i) as [y|] eqn:Ey; try done. injection Ei as Ei. f_equal.
  eapply (NoDup_fmap_unique key l); [done| | |done].
  - by eapply list_elem_of_lookup_2.
  - rewrite Hp. by eapply list_elem_of_lookup_2.
Qed.

Section Identity.
Context {HHash : GoHash}.

(** The identity of an agent does not depend on the order in which its
    tools, skills, subagents and servers are listed, as long as no two of its
    servers share a name. *)
Theorem config_hash_order_independent c c' (Hsame : same_config c c')
    (Hnames : NoDup (srv_Name <$> cfg_MCPServers c)) :
  ConfigHash c = ConfigHash c'.
Proof.
  destruct Hsame as [H1 H2 H3 H4 H5 H6]. unfold ConfigHash, canonical_config.
  assert (sort_slice srv_Name (cfg_MCPServers c) = sort_slice srv_Name (cfg_MCPServers c')) as ->.
  { apply (sorted_by_key_unique srv_Name); [by rewrite !sort_slice_perm| |apply sort_slice_sorted..].
    by rewrite sort_slice_perm. }
  rewrite H1, H2, (sort_strings_unique _ _ H3), (sort_strings_unique _ _ H4), (sort_strings_unique _ _ H5). done.
Qed.
End Identity.

(** ** Scores *)
Definition score_pair (ts : TrustScore) : string * string := (TS_AgentName ts, TS_ActionType ts).

(** One row per agent and action, every score in [0, 1]. *)
Record scores_ok (d : db) : Prop := {
  so_table : table_ok (agent_trust d);
  so_keys : NoDup (score_pair <$> rows (agent_trust d));
  so_unit : forall ts, ts ∈ rows (agent_trust d) -> in_unit (Score ts)
}.

Definition adjusted (ts ts' : TrustScore) : Prop :=
  score_pair ts' = score_pair ts /\ TS_ID ts' = TS_ID ts /\ AdjustmentsCount ts <= AdjustmentsCount ts'.

Definition scores_later (d d' : db) : Prop :=
  forall ts, ts ∈ rows (agent_trust d) -> exists ts', ts' ∈ rows (agent_trust d') /\ adjusted ts ts'.

#[export] Instance scores_later_preorder : PreOrder scores_later.
Proof.
  split.
  - intros d ts Hts. exists ts. by repeat split.
  - intros d1 d2 d3 H12 H23 ts Hts. destruct (H12 ts Hts) as (t2&Ht2&Hp&Hi&Ha).
    destruct (H23 t2 Ht2) as (t3&Ht3&Hp'&Hi'&Ha'). exists t3. split; [done|].
    split_and!; [congruence|congruence|lia].
Qed.

Lemma score_key_pair a t ts : score_key a t ts = true <-> score_pair ts = (a, t).
Proof.
  unfold score_key, score_pair. rewrite andb_true_iff, !String.eqb_eq. split; [intros [-> ->]|intros [=]]; done.
Qed.

Lemma clamp_unit_or_nan x : f64_is_nan (sql_clamp x) = false -> in_unit (sql_clamp x).
Proof.
  intros H. apply sql_clamp_unit. destruct x; done.
Qed.

Lemma upsert_score_ok a t delta now d tbl :
  scores_ok d -> upsert_score a t delta now (agent_trust d) = Some tbl ->
  scores_ok (set_agent_trust tbl d) /\ scores_later d (set_agent_trust tbl d).
Proof.
  intros [Ht Hk Hu]. unfold upsert_score. destruct (find_row _ _) as [ts|] eqn:Ef.
  - destruct (f64_is_nan _) eqn:En; [done|]. intros [= <-].
    assert (forall x, score_pair (if score_key a t x then bump_score delta now x else x) = score_pair x) as Hp
      by (intros x; by destruct (score_key a t x)).
    split; [split|]; simpl.
    + by apply table_ok_update.
    + unfold map_if. rewrite <- list_fmap_compose. erewrite list_fmap_ext; [exact Hk|]. intros i x _. apply Hp.
    + intros x. rewrite elem_of_map_if. intros (y&Hy&->). destruct (score_key a t y) eqn:Ey; [|auto].
      simpl. apply clamp_unit_or_nan. apply find_row_Some in Ef as [Ets Hts].
      assert (y = ts) as ->; [|done]. apply (NoDup_fmap_unique score_pair (rows (agent_trust d))); [done..|].
      apply score_key_pair in Ey, Ets. congruence.
    + intros x Hx. exists (if score_key a t x then bump_score delta now x else x). split.
      * apply elem_of_map_if. eauto.
      * destruct (score_key a t x); repeat split; simpl; lia.
  - destruct (f64_is_nan _) eqn:En; [done|]. intros [= <-]. split; [split|]; simpl.
    + by apply table_ok_insert.
    + rewrite fmap_app. apply NoDup_app. split_and!; [done| |apply NoDup_singleton].
      intros p Hp. simpl. rewrite list_elem_of_singleton. intros ->.
      apply list_elem_of_fmap in Hp as (x&Hx&Hin). symmetry in Hx.
      pose proof (find_row_None _ _ Ef x Hin) as Hf. by rewrite (proj2 (score_key_pair a t x) Hx) in Hf.
    + intros x. rewrite elem_of_app, list_elem_of_singleton. intros [?| ->]; [auto|]. by apply clamp_unit_or_nan.
    + intros x Hx. exists x. split; [set_solver|by repeat split].
Qed.

(** *** The calls *)
Inductive trust_call :=
| TApprove (agentName actionType : string)
| TReject (agentName actionType : string)
| TCheck (agentName actionType : string) (threshold : spec_float).

Definition trust_call_prog (c : trust_call) : M spec_float :=
  match c with
  | TApprove a t => let? ts := RecordApproval a t in Ret (Ok (Score ts))
  | TReject a t => let? ts := RecordRejection a t in Ret (Ok (Score ts))
  | TCheck a t th => let? r := CheckAutonomy a t th in Ret (Ok r.2)
  end.

Lemma upsert_rg a t delta d : scores_ok d ->
  rg scores_ok scores_later (UpsertScore a t delta)
    (fun o _ => forall ts, o = Ok ts -> in_unit (Score ts)) d.
Proof.
  intros Hd. unfold UpsertScore. apply rg_bind_ok; [apply _|done|].
  apply rg_exec_o. intros d1 _ Hd1.
  destruct (upsert_score a t delta (clock d1) (agent_trust d1)) as [tbl|] eqn:E.
  - destruct (upsert_score_ok _ _ _ _ _ _ Hd1 E) as [Hok Hle]. split_and!; [done|done| |done].
    intros d2 _ _. cbn iota. apply rg_query; [apply _|]. intros d3 d4 _ Hd3 _ _. split; [|done].
    intros ts [= <-]. destruct (find_row _ _) as [ts|] eqn:Ef; simpl; [|split; reflexivity].
    apply find_row_Some in Ef as [_ Hin]. by apply (so_unit d3).
  - split_and!; [done|reflexivity|done|done].
Qed.

Lemma trust_call_rg c d : scores_ok d ->
  rg scores_ok scores_later (trust_call_prog c) (fun o _ => forall s, o = Ok s -> in_unit s) d.
Proof.
  intros Hd. destruct c as [a t|a t|a t th]; cbv beta iota delta [trust_call_prog].
  - apply rg_bind_ok; [apply _|done|]. eapply rg_mono; [|by apply upsert_rg].
    intros [ts|e|w] d1 _ H d2 _ _ s [= <-]. by apply H.
  - apply rg_bind_ok; [apply _|done|]. eapply rg_mono; [|by apply upsert_rg].
    intros [ts|e|w] d1 _ H d2 _ _ s [= <-]. by apply H.
  - unfold CheckAutonomy, GetScore, store_GetScore. simpl. intros d1 _ Hd1.
    split_and!; [done|reflexivity| |done]. intros d2 _ _ s [= <-].
    destruct (find_row _ _) as [ts|] eqn:Ef; simpl; [|split; reflexivity].
    apply find_row_Some in Ef as [_ Hin]. by apply (so_unit d1).
Qed.

Lemma tick_scores d d' : scores_ok d -> tick d d' -> scores_ok d' /\ scores_later d d'.
Proof. intros [H1 H2 H3] (s&_&->). split; [by split|]. intros ts Hts. exists ts. by repeat split. Qed.

(** Trust scores stay in [0, 1]: under any interleaving of approvals,
    rejections and autonomy checks, with any statement failing, there is one
    score per agent and action, every stored and every reported score is a
    number between 0 and 1, and no adjustment is forgotten. *)
Theorem trust_scores_bounded (cs : list trust_call) (d : db) (ps : list (M spec_float)) (d' : db)
    (Hok : scores_ok d) (Hrun : rtc (pool_step tick) (trust_call_prog <$> cs, d) (ps, d')) :
  scores_ok d' /\ scores_later d d' /\
  forall (i : nat) s, ps !! i = Some (Ret (Ok s)) -> in_unit s.
Proof.
  destruct (pool_invariant scores_ok scores_later tick tick_scores (trust_call_prog <$> cs) ps
    (fun _ o _ => forall s, o = Ok s -> in_unit s) d d') as (H1&H2&H3); [|done|done|].
  - intros i p Hp. rewrite list_lookup_fmap in Hp. apply fmap_Some in Hp as (c&_&->). by apply trust_call_rg.
  - split_and!; [done|done|]. intros i s Hi. by apply (H3 i _ Hi).
Qed.

(** An adjustment, run alone, moves one score: the pair's score becomes the
    clamped sum of what it was (0 when there was none) and the adjustment, every
    other pair keeps its row, and the score returned is the one stored; when it
    fails before the write, nothing changes. *)
Theorem upsert_score_effect a t delta d (Hok : scores_ok d) (Hdelta : f64_is_nan delta = false) :
  let before := find_row (score_key a t) (agent_trust d) in
  wp (UpsertScore a t delta) (fun o d' =>
    match o with
    | Ok ts =>
        find_row (score_key a t) (agent_trust d') = Some ts /\
        Score ts = sql_clamp (match before with Some b => f64_add (Score b) delta | None => delta end) /\
        AdjustmentsCount ts = match before with Some b => AdjustmentsCount b + 1 | None => 1 end /\
        (forall x, score_pair x <> (a, t) -> (x ∈ rows (agent_trust d) <-> x ∈ rows (agent_trust d')))
    | Err e => e = EDb
    | Panic _ => False
    end) d.
Proof.
  cbn zeta. unfold UpsertScore, store_GetScore. simpl. split; [|done].
  unfold upsert_score. destruct (find_row (score_key a t) (agent_trust d)) as [b|] eqn:Ef.
  - destruct (f64_is_nan (sql_clamp _)) eqn:En; simpl; [done|]. split; [|done].
    set (tbl := update_rows _ _ _).
    assert (find_row (score_key a t) tbl = Some (bump_score delta (clock d) b)) as E.
    { unfold tbl. clear -Ef. unfold find_row, select, update_rows, map_if in *. simpl in *.
      induction (rows (agent_trust d)) as [|x l IH]; [done|]. rewrite fmap_cons. rewrite !filter_cons in *.
      destruct (score_key a t x) eqn:Ex.
      - rewrite decide_True in Ef by done. injection Ef as ->. by rewrite decide_True by exact Ex.
      - rewrite decide_False in Ef by congruence. rewrite decide_False by congruence. by apply IH. }
    rewrite E. simpl. split_and!; [done|done|done|]. intros x Hx. unfold tbl. simpl. rewrite elem_of_map_if.
    assert (forall y, score_key a t y = true -> x <> y /\ x <> bump_score delta (clock d) y) as Hne.
    { intros y Hy%score_key_pair. split; intros ->; by apply Hx. }
    split.
    + intros Hin. exists x. split; [done|]. destruct (score_key a t x) eqn:E'; [|done]. by destruct (Hne x E').
    + intros (y&Hy&Hxy). destruct (score_key a t y) eqn:E'; [by destruct (Hne y E')|by subst].
  - destruct (f64_is_nan (sql_clamp _)) eqn:En; simpl; [done|]. split; [|done].
    assert (find_row (score_key a t) (insert_row (fun id => mkTrustScore id a t (sql_clamp delta) 1 (Some (clock d)))
      (agent_trust d)) = Some (mkTrustScore (next_id (agent_trust d)) a t (sql_clamp delta) 1 (Some (clock d)))) as E.
    { clear -Ef. unfold find_row, select in *. simpl. rewrite filter_app.
      destruct (filter _ (rows _)); [|done]. simpl. rewrite filter_cons, decide_True; [done|].
      by apply score_key_pair. }
    rewrite E. simpl. split_and!; [done|done|done|]. intros x Hx.
    rewrite elem_of_app, list_elem_of_singleton. split; [by left|]. intros [?| ->]; [done|]. by destruct Hx.
Qed.

(** ** Concrete runs *)
Module TrustRuns.
(** A stable sort on keys, and some digest. *)
#[local] Instance stable_hash : GoHash.
Proof.
  refine {| sort_slice := fun key l => merge_sort (fun a b => str_le (key a) (key b)) l;
            sha256_hex := fun _ => "digest" |}.
  - intros key l. apply merge_sort_Permutation.
  - intros key l. apply Sorted_merge_sort. intros a b. apply str_le_total.
Defined.

Definition server (name url : string) : MCPServerRef := mkMCPServerRef name url "http".
Definition config (tools : list string) (servers : list MCPServerRef) : AgentConfig :=
  mkAgentConfig "model" "prompt" tools [] [] servers.

Lemma config_hash_order_independent_witness :
  ConfigHash (config ["b"; "a"] [server "y" "u1"; server "x" "u2"]) =
  ConfigHash (config ["a"; "b"] [server "x" "u2"; server "y" "u1"]).
Proof.
  apply config_hash_order_independent.
  - split; try reflexivity; apply perm_swap.
  - apply (bool_decide_unpack _). vm_compute. exact I.
Defined.

(** Two servers of the same name make the identity depend on the order they
    are listed in: the canonical text of one configuration is not that of
    the same configuration with the two exchanged. *)
Theorem config_hash_same_name_order :
  let c := config [] [server "db" "http://a"; server "db" "http://b"] in
  let c' := config [] [server "db" "http://b"; server "db" "http://a"] in
  same_config c c' /\ canonical_config c <> canonical_config c'.
Proof.
  split.
  - split; try reflexivity. apply perm_swap.
  - vm_compute. intros [=].
Qed.

Definition parent : Grant := mkGrant TierAssisted ["read"; "write"] 1000 500 1.
Definition proposal : Grant := mkGrant TierAutonomous ["shell"; "read"] 5000 0 0.

Lemma delegation_cap_enforces_witness :
  0 <= BudgetTokens parent /\ 0 <= BudgetDollarsCents parent /\
  (DelegationCap parent proposal 5).1 = mkGrant TierAssisted ["read"] 1000 500 2 /\
  no_more_than parent (DelegationCap parent proposal 5).1.
Proof.
  split; [vm_compute; discriminate|]. split; [vm_compute; discriminate|]. split; [vm_compute; reflexivity|].
  pose proof (delegation_cap_enforces parent proposal 5 ltac:(vm_compute; discriminate) ltac:(vm_compute; discriminate)) as H.
  destruct (DelegationCap parent proposal 5) as [eff viol]. exact (proj1 H).
Defined.

Lemma delegation_cap_canonical_witness :
  (DelegationCap parent (DelegationCap parent proposal 5).1 5).1 = (DelegationCap parent proposal 5).1.
Proof. apply delegation_cap_canonical; vm_compute; discriminate. Defined.

Lemma empty_scores : scores_ok empty_db.
Proof. split; simpl; [apply table_ok_empty|constructor|set_solver]. Qed.

Lemma trust_scores_bounded_witness :
  scores_ok empty_db /\
  scores_ok (run_schedule [(0, false); (1, false); (0, false); (1, false)]%nat
    (trust_call_prog <$> [TReject "bob" "publish"; TApprove "bob" "publish"]) empty_db).2.
Proof.
  split; [exact empty_scores|].
  pose proof (run_schedule_reachable tick [(0, false); (1, false); (0, false); (1, false)]%nat
    (trust_call_prog <$> [TReject "bob" "publish"; TApprove "bob" "publish"]) empty_db) as Hr.
  destruct (run_schedule _ _ _) as [ps d'].
  exact (proj1 (trust_scores_bounded _ empty_db ps d' empty_scores Hr)).
Defined.

Lemma upsert_score_effect_witness :
  scores_ok empty_db /\ f64_is_nan ApprovalIncrement = false /\
  exists ts, (run_ok (UpsertScore "bob" "publish" ApprovalIncrement) empty_db).1 = Ok ts /\
    Score ts = sql_clamp ApprovalIncrement /\ AdjustmentsCount ts = 1.
Proof.
  split; [exact empty_scores|]. split; [reflexivity|].
  pose proof (wp_run_ok _ _ _ (upsert_score_effect "bob" "publish" ApprovalIncrement empty_db empty_scores eq_refl)) as H.
  cbv beta in H. destruct (run_ok (UpsertScore "bob" "publish" ApprovalIncrement) empty_db) as [[ts|e|w] d'] eqn:E.
  - exists ts. destruct H as (_&Hs&Hc&_). split; [reflexivity|]. split; [exact Hs|exact Hc].
  - vm_compute in E. discriminate E.
  - destruct H.
Defined.
End TrustRuns.
