(* ===== verification/Reactions.v ===== *)
(** * Reactions (internal/reactions: model.go, service.go, store.go)

    Reactions on messages and the workflow state they stand for, the toggle
    with its exclusive claim, the trust adjustment a human verdict causes, and
    the enrichment of messages (internal/messaging/service.go) that shows the
    state to readers. *)
From S2P Require Import Prelude Float64 Prog Table Schema Messaging Trust.

(** ** Workflow states *)
Inductive WorkflowState := StateProposed | StateApproved | StateInProgress | StateRejected
  | StateDone | StatePublished | StateAwarded | StateUnknown (s : string).
#[export] Instance WorkflowState_eq_dec : EqDecision WorkflowState.
Proof. solve_decision. Defined.

Definition reactionPriority (r : ReactionType) : option Z :=
  match r with
  | ReactionApprove => Some 2 | ReactionInProgress => Some 3 | ReactionReject => Some 4
  | ReactionAwarded => Some 5 | ReactionDone => Some 6 | ReactionPublished => Some 7
  | ReactionOther _ => None
  end.

Definition reactionToState (r : ReactionType) : option WorkflowState :=
  match r with
  | ReactionApprove => Some StateApproved | ReactionReject => Some StateRejected
  | ReactionInProgress => Some StateInProgress | ReactionAwarded => Some StateAwarded
  | ReactionDone => Some StateDone | ReactionPublished => Some StatePublished
  | ReactionOther _ => None
  end.

Definition IsTerminalState (s : WorkflowState) : bool :=
  match s with StateRejected | StateDone | StatePublished => true | _ => false end.

Definition MaxReactionsPerMessage : Z := 100.

Definition IsValidReaction (r : ReactionType) : bool :=
  match r with ReactionOther _ => false | _ => true end.

(** The loop keeps the highest priority and its state; the map lookup of a
    state cannot fail where the one of the priority succeeded. *)
Definition workflow_step (best : Z * WorkflowState) (r : ReactionType) : Z * WorkflowState :=
  match reactionPriority r with
  | Some p => if best.1 <? p then (p, default (StateUnknown "") (reactionToState r)) else best
  | None => best
  end.

Definition ComputeWorkflowState (reactions : list Reaction) : WorkflowState :=
  match reactions with
  | [] => StateProposed
  | _ => (foldl workflow_step (0, StateProposed) (Rx_Reaction <$> reactions)).2
  end.

(** ** The store *)
Definition reaction_key (messageID : Z) (agentName : string) (r : ReactionType) (x : Reaction) : bool :=
  (Rx_MessageID x =? messageID) && String.eqb (Rx_AgentName x) agentName && bool_decide (Rx_Reaction x = r).

Definition on_message (messageID : Z) (x : Reaction) : bool := Rx_MessageID x =? messageID.

(** The INSERT, with UNIQUE(message_id, agent_name, reaction) and the CHECK on
    the reaction. *)
Definition reaction_insertable (r : Reaction) (d : db) : bool :=
  (affected (reaction_key (Rx_MessageID r) (Rx_AgentName r) (Rx_Reaction r)) (message_reactions d) =? 0) &&
  IsValidReaction (Rx_Reaction r).

Definition reaction_row (r : Reaction) (now id : Z) : Reaction :=
  mkReaction id (Rx_MessageID r) (Rx_AgentName r) (Rx_Reaction r)
    (match Rx_Metadata r with RawEmpty => raw_empty_object | m => m end) now.

Definition Insert (r : Reaction) : M Z :=
  exec_o EDb
    (fun d => if reaction_insertable r d
              then set_message_reactions (insert_row (reaction_row r (clock d)) (message_reactions d)) d else d)
    (fun d => if reaction_insertable r d then Ok (next_id (message_reactions d)) else Err EDb).

Definition Delete (messageID : Z) (agentName : string) (r : ReactionType) : M unit :=
  exec_o EDb
    (fun d => set_message_reactions (delete_rows (reaction_key messageID agentName r) (message_reactions d)) d)
    (fun d => if affected (reaction_key messageID agentName r) (message_reactions d) =? 0
              then Err EReactionNotFound else Ok tt).

Definition reaction_oldest (a b : Reaction) : Prop := Rx_CreatedAt a <= Rx_CreatedAt b.
#[export] Instance reaction_oldest_dec a b : Decision (reaction_oldest a b).
Proof. unfold reaction_oldest. apply _. Defined.

Section Store.
Context {HEng : Engine}.

Definition GetByMessageID (messageID : Z) : M (list Reaction) :=
  query EDb (fun d => select_by reaction_oldest (on_message messageID) (message_reactions d)).

(** result[r.MessageID] = append(result[r.MessageID], r), in row order. *)
Definition group_reactions (all : list Reaction) : gmap Z (list Reaction) :=
  foldl (fun m r => <[Rx_MessageID r := default [] (m !! Rx_MessageID r) ++ [r]]> m) ∅ all.

Definition GetByMessageIDs (messageIDs : list Z) : M (gmap Z (list Reaction)) :=
  match messageIDs with
  | [] => Ret (Ok ∅)
  | _ => query EDb (fun d => group_reactions
           (select_by reaction_oldest (fun r => bool_decide (Rx_MessageID r ∈ messageIDs)) (message_reactions d)))
  end.

Definition Exists (messageID : Z) (agentName : string) (r : ReactionType) : M bool :=
  query EDb (fun d => negb (affected (reaction_key messageID agentName r) (message_reactions d) =? 0)).

Definition CountByMessage (messageID : Z) : M Z :=
  query EDb (fun d => affected (on_message messageID) (message_reactions d)).

(** The loop over the map [reactionToState]: no two types share a state. *)
Definition type_of_state (s : WorkflowState) : option ReactionType :=
  match s with
  | StateApproved => Some ReactionApprove | StateInProgress => Some ReactionInProgress
  | StateRejected => Some ReactionReject | StateDone => Some ReactionDone
  | StatePublished => Some ReactionPublished | StateAwarded => Some ReactionAwarded
  | StateProposed | StateUnknown _ => None
  end.

Definition in_channel (channelID : Z) (m : Message) : bool := opt_is (Msg_ChannelID m) channelID.

(** No reactions at all, or some reaction of the state's type. *)
Definition state_candidate (d : db) (channelID : Z) (rt : option ReactionType) (m : Message) : bool :=
  in_channel channelID m &&
  match rt with
  | None => affected (on_message (Msg_ID m)) (message_reactions d) =? 0
  | Some t => negb (affected (fun r => on_message (Msg_ID m) r && bool_decide (Rx_Reaction r = t))
                      (message_reactions d) =? 0)
  end.

Definition GetMessageIDsByState (channelID : Z) (state : WorkflowState) : M (list Z) :=
  match state, type_of_state state with
  | StateProposed, rt | _, (Some _ as rt) =>
      query EDb (fun d => Msg_ID <$> select_by newest_first (state_candidate d channelID rt) (messages d))
  | _, None => Ret (Err (EBackend "unknown workflow state"))
  end.
End Store.

(** ** The service *)
Record ToggleResult := mkToggleResult {
  tr_Added : bool;                       (** action "added", else "removed" *)
  tr_Reaction : option Reaction
}.

Record WorkflowStateChangeEvent := mkStateChange {
  ev_MessageID : Z;
  ev_OldState : WorkflowState;
  ev_NewState : WorkflowState;
  ev_TriggeredBy : string;
  ev_Reaction : ReactionType
}.

(** The part of the database reactions own. *)
Definition same_reactions (d d' : db) : Prop :=
  message_reactions d' = message_reactions d /\ messages d' = messages d.

#[export] Instance same_reactions_preorder : PreOrder same_reactions.
Proof. split; [done|]. unfold same_reactions. intros a b c; naive_solver congruence. Qed.

(** AgentTypeChecker, TrustAdjuster and MessageAuthorResolver, the components a
    verdict of a human reaches through; none of them touches the reactions. *)
Class TrustWiring := {
  GetAgentType : string -> M string;
  GetMessageAuthor : Z -> M string;
  TA_RecordApproval : string -> string -> M unit;
  TA_RecordRejection : string -> string -> M unit;
  GetAgentType_frame : forall a, within same_reactions (GetAgentType a);
  GetMessageAuthor_frame : forall m, within same_reactions (GetMessageAuthor m);
  TA_RecordApproval_frame : forall a t, within same_reactions (TA_RecordApproval a t);
  TA_RecordRejection_frame : forall a t, within same_reactions (TA_RecordRejection a t)
}.

Section Service.
Context {HEng : Engine} {HTrust : TrustWiring}.

(** Whether a state-change notifier is configured; what it is told is part of
    the result. *)
Variable notifier : bool.

(** "Capture old workflow state": an error reads as no reactions. *)
Definition capture_state (messageID : Z) : prog db WorkflowState :=
  if notifier
  then let! r := GetByMessageID messageID in
       Ret (match r with Ok rs => ComputeWorkflowState rs | _ => ComputeWorkflowState [] end)
  else Ret (StateUnknown "").

Definition notifyStateChangeIfNeeded (messageID : Z) (oldState : WorkflowState) (agentName : string)
    (reactionType : ReactionType) : prog db (option WorkflowStateChangeEvent) :=
  if notifier
  then let! r := GetByMessageID messageID in
       Ret (match r with
            | Ok rs => let newState := ComputeWorkflowState rs in
                       if bool_decide (newState = oldState) then None
                       else Some (mkStateChange messageID oldState newState agentName reactionType)
            | _ => None
            end)
  else Ret None.

Definition adjustTrustIfNeeded (messageID : Z) (reactorName : string) (reactionType : ReactionType) : prog db unit :=
  if negb (bool_decide (reactionType = ReactionApprove)) && negb (bool_decide (reactionType = ReactionReject))
  then Ret tt
  else
    let! reactorType := GetAgentType reactorName in
    match reactorType with
    | Ok rt =>
        if negb (String.eqb rt "human") then Ret tt else
        let! author := GetMessageAuthor messageID in
        match author with
        | Ok a =>
            if str_empty a then Ret tt else
            let! authorType := GetAgentType a in
            match authorType with
            | Ok at_ =>
                if negb (String.eqb at_ "ai") then Ret tt
                else let! _ := (if bool_decide (reactionType = ReactionApprove)
                                then TA_RecordApproval a "publish" else TA_RecordRejection a "publish") in
                     Ret tt
            | _ => Ret tt
            end
        | _ => Ret tt
        end
    | _ => Ret tt
    end.

(** The first in_progress reaction of someone else, if any. *)
Definition other_claim (agentName : string) (existing : list Reaction) : option string :=
  Rx_AgentName <$> head (filter (fun r => Rx_Reaction r = ReactionInProgress /\ Rx_AgentName r <> agentName) existing).

Definition check_claim (messageID : Z) (agentName : string) (reactionType : ReactionType) : M unit :=
  if bool_decide (reactionType = ReactionInProgress)
  then let? existing := GetByMessageID messageID in
       match other_claim agentName existing with
       | Some a => Ret (Err (EAlreadyClaimedBy a))
       | None => Ret (Ok tt)
       end
  else Ret (Ok tt).

Definition toggle_off (messageID : Z) (agentName : string) (reactionType : ReactionType)
    (oldState : WorkflowState) : M (ToggleResult * option WorkflowStateChangeEvent) :=
  let? _ := Delete messageID agentName reactionType in
  let! ev := notifyStateChangeIfNeeded messageID oldState agentName reactionType in
  Ret (Ok (mkToggleResult false None, ev)).

Definition toggle_on (messageID : Z) (agentName : string) (reactionType : ReactionType) (metadata : rawjson)
    (oldState : WorkflowState) : M (ToggleResult * option WorkflowStateChangeEvent) :=
  let? _ := check_claim messageID agentName reactionType in
  let? count := CountByMessage messageID in
  if MaxReactionsPerMessage <=? count then Ret (Err ErrReactionLimit)
  else
    let metadata := match metadata with RawEmpty => raw_empty_object | m => m end in
    let r id := mkReaction id messageID agentName reactionType metadata zero_time in
    let? id := Insert (r 0) in
    let! ev := notifyStateChangeIfNeeded messageID oldState agentName reactionType in
    let! _ := adjustTrustIfNeeded messageID agentName reactionType in
    Ret (Ok (mkToggleResult true (Some (r id)), ev)).

Definition Toggle (messageID : Z) (agentName : string) (reactionType : ReactionType) (metadata : rawjson)
    : M (ToggleResult * option WorkflowStateChangeEvent) :=
  if negb (IsValidReaction reactionType) then Ret (Err ErrInvalidReaction)
  else
    let! oldState := capture_state messageID in
    let? exists_ := Exists messageID agentName reactionType in
    if exists_ then toggle_off messageID agentName reactionType oldState
    else toggle_on messageID agentName reactionType metadata oldState.

Definition Remove (messageID : Z) (agentName : string) (reactionType : ReactionType) : M unit :=
  if negb (IsValidReaction reactionType) then Ret (Err ErrInvalidReaction)
  else Delete messageID agentName reactionType.

Definition GetReactions (messageID : Z) : M (list Reaction * WorkflowState) :=
  let? reactions := GetByMessageID messageID in
  Ret (Ok (reactions, ComputeWorkflowState reactions)).

Definition ListByState (channelID : Z) (state : WorkflowState) : M (list Z) :=
  let? candidates := GetMessageIDsByState channelID state in
  if bool_decide (state = StateProposed) then Ret (Ok candidates)
  else
    let? reactionsMap := GetByMessageIDs candidates in
    Ret (Ok (filter (fun id => ComputeWorkflowState (default [] (reactionsMap !! id)) = state) candidates)).
End Service.

(** ** The adapters of cmd/synapbus/main.go *)
Definition agent_type (name : string) : M string :=
  query_o EDb (fun d =>
    match find_row (fun a => String.eqb (Agent_Name a) name && String.eqb (Agent_Status a) "active") (agents d) with
    | Some a => Ok (Agent_Type a)
    | None => Err (EAgentNotFound name)
    end).

Definition message_author (messageID : Z) : M string :=
  let? m := GetMessageByID messageID in Ret (Ok (FromAgent m)).

Definition trust_approval (agentName actionType : string) : M unit :=
  let? _ := RecordApproval agentName actionType in Ret (Ok tt).
Definition trust_rejection (agentName actionType : string) : M unit :=
  let? _ := RecordRejection agentName actionType in Ret (Ok tt).

Lemma upsert_frame a t delta : within same_reactions (UpsertScore a t delta).
Proof.
  apply within_bind_ok; [|by intros []].
  simpl. split; [|done]. intros d. split; [by destruct (upsert_score _ _ _ _ _)|done].
Qed.

#[export] Instance main_wiring : TrustWiring.
Proof.
  refine {| GetAgentType := agent_type; GetMessageAuthor := message_author;
            TA_RecordApproval := trust_approval; TA_RecordRejection := trust_rejection |}.
  - intros a. simpl. done.
  - intros m. apply within_bind_ok; [|done]. apply within_bind; [done|]. by intros [?|[]|?].
  - intros a t. apply within_bind_ok; [apply upsert_frame|done].
  - intros a t. apply within_bind_ok; [apply upsert_frame|done].
Defined.

(** ** Enrichment (internal/messaging/service.go) *)
Record AttachmentInfo := mkAttachmentInfo {
  Hash : string; OriginalFilename : string; Size : Z; MIMEType : string; IsImage : bool
}.

Record ReactionInfo := mkReactionInfo {
  ri_AgentName : string; ri_Reaction : ReactionType; ri_Metadata : rawjson; ri_CreatedAt : Z
}.

(** A message as the readers get it: the row and what the enrichment adds. *)
Record EnrichedMessage := mkEnriched {
  en_Message : Message;
  ReplyCount : Z;
  Attachments : list AttachmentInfo;
  en_WorkflowState : string;
  en_Reactions : list ReactionInfo
}.

(** The reading half of the attachment linker. *)
Class AttachmentReader := { GetByMessageID_att : Z -> M (list AttachmentInfo) }.

Section Enrich.
Context {HEng : Engine} {HRead : AttachmentReader}.

(** The adapter of main.go: the service's map with the summary of each
    reaction. *)
Definition reaction_infos (rxs : list Reaction) : list ReactionInfo :=
  (fun r => mkReactionInfo (Rx_AgentName r) (Rx_Reaction r) (Rx_Metadata r) (Rx_CreatedAt r)) <$> rxs.

Fixpoint load_attachments (ms : list EnrichedMessage) : prog db (list EnrichedMessage) :=
  match ms with
  | [] => Ret []
  | m :: rest =>
      let! r := GetByMessageID_att (Msg_ID (en_Message m)) in
      let! rest' := load_attachments rest in
      Ret ((match r with
            | Ok atts => mkEnriched (en_Message m) (ReplyCount m) atts (en_WorkflowState m) (en_Reactions m)
            | _ => m
            end) :: rest')
  end.

Definition with_reactions (rxMap : gmap Z (list Reaction)) (m : EnrichedMessage) : EnrichedMessage :=
  let rxs := reaction_infos (default [] (rxMap !! Msg_ID (en_Message m))) in
  mkEnriched (en_Message m) (ReplyCount m) (Attachments m)
    (enrich_workflow_state (Msg_ChannelID (en_Message m)) (ri_Reaction <$> rxs)) rxs.

Definition EnrichMessages (msgs : list Message) : prog db (list EnrichedMessage) :=
  match msgs with
  | [] => Ret []
  | _ =>
      let ids := Msg_ID <$> msgs in
      let! counts := GetReplyCounts ids in
      let counted := (fun m => mkEnriched m (match counts with
                                             | Ok c => default 0 (c !! Msg_ID m)
                                             | _ => 0
                                             end) [] "" []) <$> msgs in
      let! attached := load_attachments counted in
      let! rx := GetByMessageIDs ids in
      Ret (match rx with
           | Ok rxMap => with_reactions rxMap <$> attached
           | _ => attached
           end)
  end.
End Enrich.
