(* ===== verification/ReactionsSpec.v ===== *)
(** * Reactions: derived state, exact listing, toggling, claims *)
From S2P Require Import Prelude Float64 Prog Table Schema Messaging MessagingFacts MessagingSpec Trust Reactions.

(** ** The derived state *)
Definition prio (r : ReactionType) : Z := default 0 (reactionPriority r).

Definition state_of_prio (p : Z) : WorkflowState :=
  match p with
  | 2 => StateApproved | 3 => StateInProgress | 4 => StateRejected | 5 => StateAwarded
  | 6 => StateDone | 7 => StatePublished | _ => StateProposed
  end.

Definition top_prio (rs : list ReactionType) : Z := foldr (fun r p => Z.max (prio r) p) 0 rs.

Lemma prio_cases r : (reactionPriority r = None /\ prio r = 0) \/
  (reactionPriority r = Some (prio r) /\ reactionToState r = Some (state_of_prio (prio r)) /\ 2 <= prio r).
Proof. destruct r; vm_compute; auto; right; repeat split; discriminate. Qed.

Lemma prio_inj r r' : prio r = prio r' -> 0 < prio r -> r = r'.
Proof. destruct r, r'; vm_compute; try done. Qed.

Lemma workflow_fold l z :
  0 <= z -> foldl workflow_step (z, state_of_prio z) l =
  (Z.max z (top_prio l), state_of_prio (Z.max z (top_prio l))).
Proof.
  revert z. induction l as [|r l IH]; intros z Hz; simpl.
  - by rewrite Z.max_l by lia.
  - unfold workflow_step at 2. simpl. destruct (prio_cases r) as [[-> Hp]|(->&->&Hp)].
    + rewrite IH by done. rewrite Hp. by replace (Z.max 0 (top_prio l)) with (top_prio l)
        by (clear; induction l; simpl; lia).
    + simpl. destruct (Z.ltb_spec z (prio r)).
      * rewrite IH by lia. f_equal; [|f_equal]; lia.
      * rewrite IH by lia. f_equal; [|f_equal]; lia.
Qed.

Lemma compute_state_prio rs : ComputeWorkflowState rs = state_of_prio (top_prio (Rx_Reaction <$> rs)).
Proof.
  unfold ComputeWorkflowState. destruct rs as [|r rs]; [done|].
  change StateProposed with (state_of_prio 0). rewrite workflow_fold by lia. cbn [snd].
  f_equal. apply Z.max_r. generalize (Rx_Reaction <$> r :: rs). clear. intros l. induction l; simpl; lia.
Qed.

Lemma top_prio_spec l : (top_prio l = 0 /\ forall r, r ∈ l -> prio r = 0) \/
  (exists r, r ∈ l /\ prio r = top_prio l /\ 0 < prio r).
Proof.
  induction l as [|r l IH]; simpl; [left; set_solver|]. assert (0 <= prio r) by (destruct r; vm_compute; discriminate).
  destruct IH as [[E H0]|(r'&Hr'&E&Hp)].
  - destruct (decide (prio r = 0)) as [Er|Er]; [left|right].
    + rewrite E, Er. split; [done|]. intros x [->|Hx]%elem_of_cons; auto.
    + exists r. rewrite E. split; [set_solver|]. lia.
  - right. destruct (Z.max_spec (prio r) (top_prio l)) as [[? ->]|[? ->]].
    + exists r'. split; [set_solver|]. lia.
    + exists r. split; [set_solver|]. lia.
Qed.

Lemma top_prio_perm l l' : Permutation l l' -> top_prio l = top_prio l'.
Proof. induction 1; simpl; lia. Qed.

Lemma top_prio_ge l r : r ∈ l -> prio r <= top_prio l.
Proof. induction 1 as [x l|x y l _ IH]; simpl; lia. Qed.

(** The workflow state is the one of the strongest reaction: it is the same
    for every order of the reactions, it is "proposed" exactly when no known
    reaction is there, and otherwise it is the state of every reaction whose
    priority no other exceeds. *)
Theorem workflow_state_strongest (rs : list Reaction) :
  (forall rs', Permutation rs rs' -> ComputeWorkflowState rs' = ComputeWorkflowState rs) /\
  (ComputeWorkflowState rs = StateProposed <-> forall r, r ∈ rs -> IsValidReaction (Rx_Reaction r) = false) /\
  (forall r, r ∈ rs -> IsValidReaction (Rx_Reaction r) = true ->
     (forall r', r' ∈ rs -> prio (Rx_Reaction r') <= prio (Rx_Reaction r)) ->
     Some (ComputeWorkflowState rs) = reactionToState (Rx_Reaction r)).
Proof.
  split_and!.
  - intros rs' Hp. rewrite !compute_state_prio. f_equal. apply top_prio_perm. by rewrite Hp.
  - rewrite compute_state_prio. destruct (top_prio_spec (Rx_Reaction <$> rs)) as [[-> H]|(r&Hr&E&Hp)].
    + split; [intros _|done]. intros r Hr. specialize (H (Rx_Reaction r) ltac:(by apply list_elem_of_fmap_2)).
      by destruct (Rx_Reaction r).
    + split.
      * rewrite <- E. by destruct r.
      * intros H. apply list_elem_of_fmap in Hr as (x&->&Hx). specialize (H x Hx). by destruct (Rx_Reaction x).
  - intros r Hr Hv Hmax. rewrite compute_state_prio.
    assert (top_prio (Rx_Reaction <$> rs) = prio (Rx_Reaction r)) as ->.
    { apply Z.le_antisymm; [|apply top_prio_ge; by apply list_elem_of_fmap_2].
      destruct (top_prio_spec (Rx_Reaction <$> rs)) as [[-> _]|(x&Hx&<-&_)].
      - destruct (Rx_Reaction r); vm_compute; discriminate.
      - apply list_elem_of_fmap in Hx as (y&->&Hy). by apply Hmax. }
    by destruct (Rx_Reaction r).
Qed.

(** ** What readers are shown *)
Definition state_name (s : WorkflowState) : string :=
  match s with
  | StateProposed => "proposed" | StateApproved => "approved" | StateInProgress => "in_progress"
  | StateRejected => "rejected" | StateDone => "done" | StatePublished => "published"
  | StateAwarded => "awarded" | StateUnknown s => s
  end.

(** The enrichment's own priorities, as an order. *)
Definition enrich_best (l : list ReactionType) : Z :=
  foldr (fun r p => Z.max (default 0 (enrich_priority r)) p) 0 l.
Definition enrich_name (p : Z) : string :=
  match p with 2 => "approved" | 3 => "in_progress" | 4 => "rejected" | 5 => "done" | 6 => "published" | _ => "" end.

Lemma enrich_fold l z : 0 <= z ->
  foldl (fun '(highest, ws) r =>
        match enrich_priority r with
        | Some p => if highest <? p then (p, enrich_state r) else (highest, ws)
        | None => (highest, ws)
        end) (z, enrich_name z) l = (Z.max z (enrich_best l), enrich_name (Z.max z (enrich_best l))).
Proof.
  revert z. induction l as [|r l IH]; intros z Hz; [simpl; by rewrite Z.max_l by lia|].
  assert ((enrich_priority r = None) \/ exists p, enrich_priority r = Some p /\ enrich_state r = enrich_name p /\ 0 < p) as Hr
    by (destruct r; vm_compute; eauto 10).
  cbn [foldl]. destruct Hr as [E|(p&E&E'&Hp)]; rewrite E.
  - rewrite IH by done. simpl. rewrite E. simpl.
    by replace (Z.max 0 (enrich_best l)) with (enrich_best l) by (clear; induction l; simpl; lia).
  - rewrite E'. simpl. rewrite E. simpl. destruct (Z.ltb_spec z p); rewrite IH by lia; f_equal; [|f_equal| |f_equal]; lia.
Qed.

Lemma enrich_best_prio l : ReactionAwarded ∉ l ->
  (forall r, r ∈ l -> IsValidReaction r = true) ->
  enrich_name (enrich_best l) = (if bool_decide (l = []) then "" else state_name (state_of_prio (top_prio l))) /\
  (top_prio l <= 4 -> enrich_best l = top_prio l) /\ (4 < top_prio l -> 5 < top_prio l /\ enrich_best l = top_prio l - 1).
Proof.
  intros Hna Hv.
  assert ((top_prio l <= 4 -> enrich_best l = top_prio l) /\ (4 < top_prio l -> 5 < top_prio l /\ enrich_best l = top_prio l - 1)) as Hb.
  { induction l as [|r l IH]; [done|]. destruct IH as [H1 H2]; [set_solver|set_solver|].
    assert (r <> ReactionAwarded) by set_solver. assert (IsValidReaction r = true) by (apply Hv; set_solver).
    assert (0 <= top_prio l) by (clear; induction l; simpl; lia). simpl.
    destruct r; try done; unfold prio, enrich_priority; simpl; lia. }
  split; [|done]. destruct l as [|r l]; [done|]. rewrite bool_decide_false by done. destruct Hb as [H1 H2].
  assert (2 <= top_prio (r :: l) <= 7) as Hr.
  { destruct (top_prio_spec (r :: l)) as [[E H0]|(x&Hx&<-&Hp)].
    - specialize (H0 r ltac:(set_solver)). specialize (Hv r ltac:(set_solver)). by destruct r.
    - destruct x; vm_compute in Hp |- *; try done; split; discriminate. }
  destruct (decide (top_prio (r :: l) <= 4)) as [Hle|Hle].
  - rewrite (H1 Hle). assert (top_prio (r :: l) = 2 \/ top_prio (r :: l) = 3 \/ top_prio (r :: l) = 4) as Hc by lia.
    by destruct Hc as [->|[->| ->]].
  - destruct (H2 ltac:(lia)) as [H3 ->].
    assert (top_prio (r :: l) = 6 \/ top_prio (r :: l) = 7) as Hc by lia. by destruct Hc as [->| ->].
Qed.

(** What [EnrichMessages] shows for a channel message is the derived workflow
    state, as long as no bid of the message was awarded. *)
Theorem enrich_agrees (rs : list Reaction) (ch : Z)
    (Hv : forall r, r ∈ rs -> IsValidReaction (Rx_Reaction r) = true)
    (Hna : forall r, r ∈ rs -> Rx_Reaction r <> ReactionAwarded) :
  enrich_workflow_state (Some ch) (Rx_Reaction <$> rs) = state_name (ComputeWorkflowState rs).
Proof.
  assert (ReactionAwarded ∉ Rx_Reaction <$> rs) as H1.
  { intros (r&E&Hr)%list_elem_of_fmap. by apply (Hna r Hr). }
  destruct (enrich_best_prio (Rx_Reaction <$> rs) H1) as [H _].
  { intros t (r&->&Hr)%list_elem_of_fmap. by apply Hv. }
  unfold enrich_workflow_state. change "" with (enrich_name 0) at 1. rewrite enrich_fold by lia.
  assert (Z.max 0 (enrich_best (Rx_Reaction <$> rs)) = enrich_best (Rx_Reaction <$> rs)) as ->
    by (generalize (Rx_Reaction <$> rs); clear; intros l; induction l; simpl; lia).
  rewrite H, compute_state_prio. rewrite (bool_decide_false (Some ch = None)) by done.
  case_bool_decide as Hnil; [by rewrite Hnil|].
  generalize (top_prio (Rx_Reaction <$> rs)). intros p.
  assert (str_empty (state_name (state_of_prio p)) = false) as ->; [|done].
  unfold state_of_prio. by repeat case_match.
Qed.

(** ** Listing by state *)
Record reactions_ok (d : db) : Prop := {
  ro_table : table_ok (message_reactions d);
  ro_keys : NoDup ((fun r => (Rx_MessageID r, Rx_AgentName r, Rx_Reaction r)) <$> rows (message_reactions d));
  ro_valid : forall r, r ∈ rows (message_reactions d) -> IsValidReaction (Rx_Reaction r) = true
}.

(** The state of a message in the database. *)
Definition state_of (d : db) (id : Z) : WorkflowState :=
  ComputeWorkflowState (select (on_message id) (message_reactions d)).

Lemma compute_state_perm rs rs' : Permutation rs rs' -> ComputeWorkflowState rs = ComputeWorkflowState rs'.
Proof. intros H. rewrite !compute_state_prio. f_equal. apply top_prio_perm. by rewrite H. Qed.

Lemma group_lookup_acc (l : list Reaction) (m : gmap Z (list Reaction)) id :
  default [] (foldl (fun m r => <[Rx_MessageID r := default [] (m !! Rx_MessageID r) ++ [r]]> m) m l !! id) =
  default [] (m !! id) ++ filter (fun r => on_message id r = true) l.
Proof.
  revert m. induction l as [|r l IH]; intros m; [simpl; by rewrite app_nil_r|]. simpl. rewrite IH, filter_cons.
  destruct (on_message id r) eqn:E; unfold on_message in E; guards.
  - subst id. rewrite lookup_insert_eq, decide_True by done. simpl. by rewrite <- app_assoc.
  - rewrite lookup_insert_ne by done. by rewrite decide_False by done.
Qed.

Section Listing.
Context {HEng : Engine}.

Lemma grouped_state d (ids : list Z) id : id ∈ ids ->
  ComputeWorkflowState (default [] (group_reactions
    (select_by reaction_oldest (fun r => bool_decide (Rx_MessageID r ∈ ids)) (message_reactions d)) !! id)) =
  state_of d id.
Proof.
  intros Hid. unfold group_reactions. rewrite group_lookup_acc, lookup_empty. simpl.
  apply compute_state_perm. rewrite select_by_perm. unfold select. rewrite list_filter_filter.
  erewrite list_filter_iff; [reflexivity|]. intros r. simpl. unfold on_message. rewrite Z.eqb_eq.
  split; [tauto|]. intros E. split; [done|]. rewrite E. by apply bool_decide_eq_true.
Qed.

Lemma state_prio_bound l : 0 <= top_prio l <= 7.
Proof. induction l as [|r l IH]; simpl; [lia|]. destruct r; unfold prio; simpl; lia. Qed.

(** A message in a state other than proposed has a reaction of its type, and
    one in the proposed state has none at all. *)
Lemma state_candidate_complete d ch s m : reactions_ok d ->
  (forall x, s <> StateUnknown x) -> in_channel ch m = true -> state_of d (Msg_ID m) = s ->
  state_candidate d ch (type_of_state s) m = true.
Proof.
  intros Hok Hs Hch Hst. unfold state_candidate. rewrite Hch. simpl. unfold state_of in Hst.
  rewrite compute_state_prio in Hst. set (rs := select (on_message (Msg_ID m)) (message_reactions d)) in *.
  destruct (top_prio_spec (Rx_Reaction <$> rs)) as [[E H0]|(r&Hr&E&Hp)].
  - rewrite E in Hst. subst s. simpl. apply Z.eqb_eq, count_if_0. intros r Hr.
    destruct (on_message (Msg_ID m) r) eqn:Em; [|done].
    assert (r ∈ rs) as Hin by (by apply elem_of_select).
    specialize (H0 (Rx_Reaction r) ltac:(by apply list_elem_of_fmap_2)).
    pose proof (ro_valid d Hok r Hr) as Hv. by destruct (Rx_Reaction r).
  - apply list_elem_of_fmap in Hr as (x&->&Hx). apply elem_of_select in Hx as [Hm Hin].
    assert (type_of_state s = Some (Rx_Reaction x)) as ->.
    { rewrite <- Hst, <- E. pose proof (ro_valid d Hok x Hin). by destruct (Rx_Reaction x). }
    apply negb_true_iff, Z.eqb_neq. intros H0. pose proof (proj1 (count_if_0 _ _) H0 x Hin) as Hf.
    simpl in Hf. rewrite Hm, bool_decide_true in Hf by done. done.
Qed.

Lemma no_candidate_proposed d ch m : state_candidate d ch None m = true -> state_of d (Msg_ID m) = StateProposed.
Proof.
  unfold state_candidate, state_of. intros H. guards.
  assert (select (on_message (Msg_ID m)) (message_reactions d) = []) as ->; [|done].
  match goal with H : affected _ _ = 0 |- _ => pose proof (proj1 (count_if_0 _ _) H) as Hn end.
  destruct (select _ _) as [|r l] eqn:E; [done|].
  assert (r ∈ select (on_message (Msg_ID m)) (message_reactions d)) as Hr by (rewrite E; set_solver).
  apply elem_of_select in Hr as [Hr1 Hr2]. rewrite (Hn r Hr2) in Hr1. done.
Qed.

(** [ListByState] is exact: for each of the seven states it returns, once
    each, the messages of the channel whose derived state is that state, and
    no others. *)
Theorem list_by_state_exact ch s d (Hok : reactions_ok d) (Hmsgs : table_ok (messages d))
    (Hs : forall x, s <> StateUnknown x) :
  exists ids, run_ok (ListByState ch s) d = (Ok ids, d) /\ NoDup ids /\
    forall id, id ∈ ids <-> exists m, m ∈ rows (messages d) /\ Msg_ID m = id /\
                                      Msg_ChannelID m = Some ch /\ state_of d id = s.
Proof.
  set (cands := Msg_ID <$> select_by newest_first (state_candidate d ch (type_of_state s)) (messages d)).
  assert (run_ok (GetMessageIDsByState ch s) d = (Ok cands, d)) as Hc by (by destruct s; [..|destruct (Hs s)]).
  assert (NoDup cands) as Hnd.
  { unfold cands. rewrite select_by_perm. eapply sublist_NoDup; [apply Hmsgs|]. apply fmap_sublist, sublist_filter. }
  assert (forall id, (id ∈ cands /\ state_of d id = s) <-> exists m, m ∈ rows (messages d) /\ Msg_ID m = id /\
    Msg_ChannelID m = Some ch /\ state_of d id = s) as Hchar.
  { intros id. unfold cands. rewrite list_elem_of_fmap. setoid_rewrite elem_of_select_by. split.
    - intros [(m&->&Hk&Hin) Hst]. exists m. unfold state_candidate, in_channel, opt_is in Hk. guards. done.
    - intros (m&Hin&<-&Hch&Hst). split; [|done]. exists m. split; [done|]. split; [|done].
      apply state_candidate_complete; auto. unfold in_channel, opt_is. by apply bool_decide_eq_true. }
  unfold ListByState. rewrite run_ok_bind_ok, Hc. case_bool_decide as Hp.
  - exists cands. split; [done|]. split; [done|]. intros id. rewrite <- Hchar. split; [|tauto]. intros Hid.
    split; [done|]. unfold cands in Hid. apply list_elem_of_fmap in Hid as (m&->&Hm).
    apply elem_of_select_by in Hm as [Hm _]. subst s. by eapply no_candidate_proposed.
  - rewrite run_ok_bind_ok. set (grp := group_reactions (select_by reaction_oldest
      (fun r => bool_decide (Rx_MessageID r ∈ cands)) (message_reactions d))).
    assert (exists g, run_ok (GetByMessageIDs cands) d = (Ok g, d) /\ (cands = [] \/ g = grp)) as (g&->&Hg).
    { destruct cands as [|c cs] eqn:E; [by exists ∅; auto|]. eexists. split; [done|]. by right. }
    eexists. split; [done|]. split; [by apply NoDup_filter|]. intros id.
    rewrite list_elem_of_filter, <- Hchar. destruct Hg as [-> | ->]; [set_solver|].
    split; intros [H1 H2]; (split; [|done]) || idtac.
    + split; [done|]. rewrite <- H1. symmetry. by apply grouped_state.
    + unfold grp. by rewrite grouped_state.
Qed.
End Listing.

(** ** Toggling *)
Section Toggling.
Context {HEng : Engine} {HTrust : TrustWiring}.
Variable notifier : bool.

Lemma wp_notify mid old a rt d :
  wp (notifyStateChangeIfNeeded notifier mid old a rt) (fun ev d' => d' = d /\
    forall e, ev = Some e -> ev_NewState e = state_of d mid /\ ev_OldState e = old /\ ev_NewState e <> ev_OldState e) d.
Proof.
  unfold notifyStateChangeIfNeeded. destruct notifier; [|by split]. simpl. split; [|by split].
  split; [done|]. intros e. case_bool_decide as E; [done|]. intros [= <-]. simpl.
  assert (ComputeWorkflowState (select_by reaction_oldest (on_message mid) (message_reactions d)) = state_of d mid) as E2
    by (apply compute_state_perm, select_by_perm).
  rewrite E2 in E |- *. done.
Qed.

Lemma adjust_within mid a rt : within same_reactions (adjustTrustIfNeeded mid a rt).
Proof.
  unfold adjustTrustIfNeeded. destruct (_ && _); [done|].
  apply within_bind; [apply GetAgentType_frame|]. intros [t|?|?]; [|done..]. destruct (negb _); [done|].
  apply within_bind; [apply GetMessageAuthor_frame|]. intros [au|?|?]; [|done..]. destruct (str_empty au); [done|].
  apply within_bind; [apply GetAgentType_frame|]. intros [t'|?|?]; [|done..]. destruct (negb _); [done|].
  apply within_bind; [|done]. case_bool_decide; [apply TA_RecordApproval_frame|apply TA_RecordRejection_frame].
Qed.

Lemma wp_check_claim mid a rt d :
  wp (check_claim mid a rt) (fun o d' => d' = d /\
    match o with
    | Ok _ => rt = ReactionInProgress -> forall r, r ∈ rows (message_reactions d) -> on_message mid r = true ->
                Rx_Reaction r = ReactionInProgress -> Rx_AgentName r = a
    | Err e => e = EDb \/ exists b, e = EAlreadyClaimedBy b /\ b <> a
    | Panic _ => False
    end) d.
Proof.
  unfold check_claim. case_bool_decide as Hrt; [|by split]. simpl. split; [|auto].
  unfold other_claim. destruct (filter _ _) as [|r l] eqn:E; simpl.
  - split; [done|]. intros _ r Hr Hm Hp. destruct (decide (Rx_AgentName r = a)) as [|Hne]; [done|].
    assert (r ∈ filter (fun r => Rx_Reaction r = ReactionInProgress /\ Rx_AgentName r <> a)
      (select_by reaction_oldest (on_message mid) (message_reactions d))) as Hin.
    { apply list_elem_of_filter. split; [done|]. by apply elem_of_select_by. }
    rewrite E in Hin. set_solver.
  - split; [done|]. right. exists (Rx_AgentName r). split; [done|].
    assert (r ∈ filter (fun r => Rx_Reaction r = ReactionInProgress /\ Rx_AgentName r <> a)
      (select_by reaction_oldest (on_message mid) (message_reactions d))) as Hin by (rewrite E; set_solver).
    by apply list_elem_of_filter in Hin as [[_ ?] _].
Qed.

(** The effect of a toggle that answered [o], on the reactions. *)
Definition toggled (mid : Z) (a : string) (rt : ReactionType) (meta : rawjson) (d : db)
    (o : outcome error (ToggleResult * option WorkflowStateChangeEvent)) (d' : db) : Prop :=
  messages d' = messages d /\
  match o with
  | Ok (res, ev) =>
      (forall e, ev = Some e -> ev_NewState e = state_of d' mid /\ ev_NewState e <> ev_OldState e) /\
      if tr_Added res
      then affected (reaction_key mid a rt) (message_reactions d) = 0 /\
           (exists now, message_reactions d' = insert_row (fun id => mkReaction id mid a rt
              (match meta with RawEmpty => raw_empty_object | m => m end) now) (message_reactions d)) /\
           affected (on_message mid) (message_reactions d) < MaxReactionsPerMessage /\
           (rt = ReactionInProgress -> forall r, r ∈ rows (message_reactions d) -> on_message mid r = true ->
              Rx_Reaction r = ReactionInProgress -> Rx_AgentName r = a)
      else affected (reaction_key mid a rt) (message_reactions d) <> 0 /\
           message_reactions d' = delete_rows (reaction_key mid a rt) (message_reactions d)
  | Err _ => message_reactions d' = message_reactions d
  | Panic _ => False
  end.

Lemma wp_toggle_off mid a rt meta old d : affected (reaction_key mid a rt) (message_reactions d) <> 0 ->
  wp (toggle_off notifier mid a rt old) (toggled mid a rt meta d) d.
Proof.
  intros Hex. unfold toggle_off. apply wp_bind_ok. unfold Delete. simpl. split; [|done].
  rewrite (proj2 (Z.eqb_neq _ _) Hex). apply wp_bind. eapply wp_mono; [|apply wp_notify].
  simpl. intros ev d' [-> Hev]. split; [done|]. split; [|done]. intros e He. by destruct (Hev e He) as (?&_&?).
Qed.

Lemma wp_toggle_on mid a rt meta old d : IsValidReaction rt = true ->
  affected (reaction_key mid a rt) (message_reactions d) = 0 ->
  wp (toggle_on notifier mid a rt meta old) (toggled mid a rt meta d) d.
Proof.
  intros Hv Hfree. unfold toggle_on. apply wp_bind_ok. eapply wp_mono; [|apply wp_check_claim].
  intros [u|e|w] d' [-> Hcl]; [|done|done]. simpl. split; [|done].
  destruct (Z.leb_spec MaxReactionsPerMessage (affected (on_message mid) (message_reactions d))); [done|].
  cbn zeta. set (r := mkReaction 0 _ _ _ _ _).
  assert (reaction_insertable r d = true) as Hins by (unfold reaction_insertable; cbn; by rewrite Hfree, Hv).
  unfold Insert, exec_o. cbn [wp bind_ok bind]. rewrite Hins. cbn iota. split; [|done].
  apply wp_bind. eapply wp_mono; [|apply wp_notify]. intros ev d' [-> Hev]. apply wp_bind.
  eapply wp_mono; [|apply (within_wp same_reactions), adjust_within]. simpl. intros _ d' [Hr Hm].
  split; [done|]. split.
  - intros e He. unfold state_of. rewrite Hr. by destruct (Hev e He) as (?&_&?).
  - split_and!; [done| |done|done]. exists (clock d). rewrite Hr. simpl. by destruct meta.
Qed.

Lemma wp_toggle mid a rt meta d :
  wp (Toggle notifier mid a rt meta) (toggled mid a rt meta d) d.
Proof.
  unfold Toggle. destruct (IsValidReaction rt) eqn:Hv; simpl; [|done].
  apply wp_bind. assert (wp (capture_state notifier mid) (fun _ d' => d' = d) d) as Hcap.
  { unfold capture_state. by destruct notifier. }
  eapply wp_mono; [|exact Hcap]. intros old d' ->. simpl. split; [|done].
  destruct (Z.eqb_spec (affected (reaction_key mid a rt) (message_reactions d)) 0); simpl.
  - by apply wp_toggle_on.
  - by apply wp_toggle_off.
Qed.

(** [Toggle], run alone with any statement failing: it removes the
    caller's reaction if it was there; otherwise it adds it, only below the
    limit of 100 and, for [in_progress], only when nobody else has claimed
    the message; an error leaves the reactions as they were; a state change
    is announced only with the state the message then has. *)
Theorem toggle_effect mid a rt meta d :
  wp (Toggle notifier mid a rt meta) (fun o d' =>
    toggled mid a rt meta d o d' /\ (is_ok o = true -> IsValidReaction rt = true)) d.
Proof.
  destruct (IsValidReaction rt) eqn:Hv.
  - eapply wp_mono; [|apply wp_toggle]. auto.
  - unfold Toggle. rewrite Hv. simpl. done.
Qed.
End Toggling.

(** ** Toggling twice *)
Lemma delete_inserted mid a rt (t : table Reaction) r :
  affected (reaction_key mid a rt) t = 0 -> reaction_key mid a rt r = true ->
  rows (delete_rows (reaction_key mid a rt) (mkTable (rows t ++ [r]) (next_id t + 1))) = rows t.
Proof.
  unfold affected. rewrite count_if_0. intros H Hr. simpl. rewrite filter_app, filter_cons, decide_False by congruence.
  rewrite filter_nil, app_nil_r. induction (rows t) as [|x l IH]; [done|].
  rewrite filter_cons, decide_True by (apply H; set_solver). f_equal. apply IH. set_solver.
Qed.

Lemma delete_none mid a rt (t : table Reaction) :
  affected (reaction_key mid a rt) (delete_rows (reaction_key mid a rt) t) = 0.
Proof. unfold affected. apply count_if_0. simpl. intros r Hr. by apply list_elem_of_filter in Hr as [? _]. Qed.

Section Twice.
Context {HEng : Engine} {HTrust : TrustWiring}.

Lemma capture_run notifier mid d : exists old, run_ok (capture_state notifier mid) d = (old, d).
Proof. unfold capture_state, run_ok. by destruct notifier; eexists. Qed.

(** A toggle undoes a toggle: after two successful toggles of the same
    reaction in a row, one added and the other removed it; adding and then
    removing leaves exactly the reactions that were there, and no claim or
    limit stands in the way of the second. *)
Theorem toggle_twice notifier mid a rt meta meta' d r1 d1
    (H1 : run_ok (Toggle notifier mid a rt meta) d = (Ok r1, d1)) (Hadd : tr_Added r1.1 = true) :
  exists r2 d2, run_ok (Toggle notifier mid a rt meta') d1 = (Ok r2, d2) /\ tr_Added r2.1 = false /\
    rows (message_reactions d2) = rows (message_reactions d).
Proof.
  pose proof (wp_run_ok _ _ _ (wp_toggle notifier mid a rt meta d)) as [Hm1 T1]. rewrite H1 in Hm1, T1.
  destruct r1 as [res1 ev1]. simpl in T1, Hadd. destruct T1 as [_ T1]. rewrite Hadd in T1.
  destruct T1 as (Hfree&(now&Hrows)&_). set (r := mkReaction (next_id (message_reactions d)) mid a rt
    (match meta with RawEmpty => raw_empty_object | m => m end) now).
  assert (reaction_key mid a rt r = true) as Hkey.
  { unfold reaction_key. simpl. by rewrite Z.eqb_refl, String.eqb_refl, bool_decide_true. }
  assert (affected (reaction_key mid a rt) (message_reactions d1) <> 0) as Hex.
  { rewrite Hrows. intros H0. pose proof (proj1 (count_if_0 _ _) H0 r) as Hf. simpl in Hf.
    rewrite Hkey in Hf. discriminate Hf. set_solver. }
  assert (IsValidReaction rt = true) as Hv.
  { destruct (IsValidReaction rt) eqn:E; [done|]. unfold Toggle in H1. rewrite E in H1. done. }
  pose proof (wp_run_ok _ _ _ (wp_toggle notifier mid a rt meta' d1)) as [_ T2].
  assert (exists res ev d2, run_ok (Toggle notifier mid a rt meta') d1 = (Ok (res, ev), d2) /\ tr_Added res = false)
    as (res&ev&d2&H2&Hres).
  { unfold Toggle. rewrite Hv. cbn [negb]. rewrite run_ok_bind.
    destruct (capture_run notifier mid d1) as [old ->].
    rewrite run_ok_bind_ok. unfold run_ok at 1. simpl. rewrite (proj2 (Z.eqb_neq _ _) Hex). simpl.
    unfold toggle_off. rewrite run_ok_bind_ok. unfold run_ok at 1. simpl.
    rewrite (proj2 (Z.eqb_neq _ _) Hex). rewrite run_ok_bind.
    destruct (run_ok (notifyStateChangeIfNeeded _ _ _ _ _) _) as [e d3].
    exists (mkToggleResult false None), e, d3. split; reflexivity. }
  rewrite H2 in T2. simpl in T2. rewrite Hres in T2. destruct T2 as [_ [_ T2]].
  exists (res, ev), d2. split; [done|]. split; [done|]. rewrite T2, Hrows. by apply delete_inserted.
Qed.
End Twice.

(** ** Concrete runs *)
Module ReactionRuns.
#[local] Existing Instance Runs.eng.
#[local] Existing Instance Runs.gojson.
#[local] Existing Instance Runs.linker.

Definition channel_message : db :=
  (Runs.run_calls [CallSend "alice" "" "who takes this?" (mkSendOptions "" 0 RawEmpty (Some 1) None None [])]
     Runs.two_agents).2.
Definition approved : db := (run_ok (Toggle true 1 "alice" ReactionApprove RawEmpty) channel_message).2.

Lemma approved_ok : reactions_ok approved /\ table_ok (messages approved).
Proof.
  assert (rows (message_reactions approved) = [mkReaction 1 1 "alice" ReactionApprove raw_empty_object 1000] /\
          next_id (message_reactions approved) = 2) as [E1 E2] by (vm_compute; split; reflexivity).
  split; [split|].
  - split; rewrite ?E1, ?E2; simpl; [apply NoDup_singleton|]. intros r ->%list_elem_of_singleton. vm_compute. done.
  - rewrite E1. apply NoDup_singleton.
  - rewrite E1. by intros r ->%list_elem_of_singleton.
  - assert (messages approved = messages channel_message) as -> by (vm_compute; reflexivity).
    apply (Runs.run_calls_ok _ _ Runs.two_agents_ok).
Qed.

Lemma list_by_state_exact_witness :
  reactions_ok approved /\ table_ok (messages approved) /\
  exists ids, run_ok (ListByState 1 StateApproved) approved = (Ok ids, approved) /\ NoDup ids.
Proof.
  destruct approved_ok as [H1 H2]. split; [exact H1|]. split; [exact H2|].
  destruct (list_by_state_exact 1 StateApproved approved H1 H2) as (ids&E&Hn&_); [discriminate|].
  exists ids. split; [exact E|exact Hn].
Defined.

Lemma toggle_twice_witness :
  exists r1 d1 r2 d2, run_ok (Toggle true 1 "bob" ReactionInProgress RawEmpty) approved = (Ok r1, d1) /\
    run_ok (Toggle true 1 "bob" ReactionInProgress RawEmpty) d1 = (Ok r2, d2) /\
    rows (message_reactions d2) = rows (message_reactions approved).
Proof.
  destruct (run_ok (Toggle true 1 "bob" ReactionInProgress RawEmpty) approved) as [[r1|e|w] d1] eqn:E1;
    [|vm_compute in E1; discriminate E1..].
  destruct (toggle_twice true 1 "bob" ReactionInProgress RawEmpty RawEmpty approved r1 d1 E1) as (r2&d2&E2&_&Hr).
  { vm_compute in E1. injection E1 as <- _. reflexivity. }
  exists r1, d1, r2, d2. split; [reflexivity|]. split; [exact E2|exact Hr].
Defined.

Definition rx (a : string) (t : ReactionType) : Reaction := mkReaction 1 1 a t RawEmpty 0.

Lemma enrich_agrees_witness :
  enrich_workflow_state (Some 1) (Rx_Reaction <$> [rx "a" ReactionDone; rx "b" ReactionReject]) =
  state_name (ComputeWorkflowState [rx "a" ReactionDone; rx "b" ReactionReject]).
Proof.
  apply enrich_agrees; intros r [->|[->|H]%elem_of_cons]%elem_of_cons; try done; by apply elem_of_nil in H.
Defined.

(** The two derivations of the state disagree on an awarded bid: the
    service reports "awarded", the enriched message says "proposed". *)
Theorem enrich_ignores_awarded :
  ComputeWorkflowState [rx "poster" ReactionAwarded] = StateAwarded /\
  enrich_workflow_state (Some 1) (Rx_Reaction <$> [rx "poster" ReactionAwarded]) = "proposed".
Proof. split; vm_compute; reflexivity. Qed.

(** The claim is checked and made in different statements: two agents that
    toggle [in_progress] on the same message at the same time can both be
    told they hold it. *)
Theorem claim_toggle_race :
  exists ps d',
    rtc (pool_step tick) ([Toggle false 1 "alice" ReactionInProgress RawEmpty;
                           Toggle false 1 "bob" ReactionInProgress RawEmpty], channel_message) (ps, d') /\
    (exists r1 r2, ps = [Ret (Ok r1); Ret (Ok r2)] /\ tr_Added r1.1 = true /\ tr_Added r2.1 = true) /\
    Rx_AgentName <$> filter (fun r => Rx_Reaction r = ReactionInProgress) (rows (message_reactions d')) = ["alice"; "bob"].
Proof.
  set (pool := [Toggle false 1 "alice" ReactionInProgress RawEmpty; Toggle false 1 "bob" ReactionInProgress RawEmpty]).
  set (sched := [(0, false); (0, false); (1, false); (1, false); (0, false); (0, false); (1, false); (1, false)]%nat).
  exists (run_schedule sched pool channel_message).1, (run_schedule sched pool channel_message).2.
  split; [rewrite <- surjective_pairing; apply run_schedule_reachable|].
  split; [vm_compute; eexists _, _; split_and!; reflexivity|vm_compute; reflexivity].
Qed.
End ReactionRuns.
