(* ===== verification/Agents.v ===== *)
(** * Agents (internal/agents: types.go, store.go, service.go)

    The registry of agents: registration with a hashed API key, authentication,
    ownership, key revocation, deregistration, and the trigger, Kubernetes and
    harness settings the reactor reads.  Rows are never deleted: deregistration
    makes them inactive, and every query looks at active rows only. *)
From S2P Require Import Prelude Prog Table Schema Messaging.

(** ** The store *)
Definition is_active (a : Agent) : bool := String.eqb (Agent_Status a) "active".

(** WHERE name = ? AND status = 'active'. *)
Definition active_named (name : string) (a : Agent) : bool := String.eqb (Agent_Name a) name && is_active a.

Definition name_in_use (name : string) (d : db) : bool :=
  negb (affected (fun a => String.eqb (Agent_Name a) name) (agents d) =? 0).

(** The row an INSERT writes: the columns it does not name, the trigger
    settings among them, take the defaults of the migrations. *)
Definition agent_row (agent : Agent) (now id : Z) : Agent :=
  mkAgent id (Agent_Name agent) (DisplayName agent) (Agent_Type agent)
    (match Capabilities agent with RawEmpty => raw_empty_object | c => c end)
    (Agent_OwnerID agent) (APIKeyHash agent) "active" now now
    TriggerModePassive 600 8 5 "" None "default" false "" "" ""
    "" None 0 "" "supervised" "[]" None "".

(** UNIQUE (name) and the CHECK on the type. *)
Definition agent_insertable (agent : Agent) (d : db) : bool :=
  negb (name_in_use (Agent_Name agent) d) &&
  (String.eqb (Agent_Type agent) "ai" || String.eqb (Agent_Type agent) "human").

Definition or_default (v dflt : Z) : Z := if v =? 0 then dflt else v.

(** The struct as CreateAgent leaves it. *)
Definition created_agent (agent : Agent) (id : Z) : Agent :=
  mkAgent id (Agent_Name agent) (DisplayName agent) (Agent_Type agent) (Capabilities agent)
    (Agent_OwnerID agent) (APIKeyHash agent) "active" (Agent_CreatedAt agent) (Agent_UpdatedAt agent)
    (if bool_decide (Agent_TriggerMode agent = TriggerModeOther "") then TriggerModePassive
     else Agent_TriggerMode agent)
    (or_default (CooldownSeconds agent) 600) (or_default (DailyTriggerBudget agent) 8)
    (or_default (MaxTriggerDepth agent) 5) (K8sImage agent) (K8sEnvJSON agent)
    (if str_empty (K8sResourcePreset agent) then "default" else K8sResourcePreset agent)
    (PendingWork agent) (HarnessName agent) (LocalCommand agent) (HarnessConfigJSON agent)
    (Agent_ConfigHash agent) (ParentAgentID agent) (Agent_SpawnDepth agent) (Agent_SystemPrompt agent)
    (Agent_AutonomyTier agent) (ToolScopeJSON agent) (QuarantinedAt agent) (QuarantineReason agent).

Definition CreateAgent (agent : Agent) : M Agent :=
  exec_o EDb
    (fun d => if agent_insertable agent d
              then set_agents (insert_row (agent_row agent (clock d)) (agents d)) d else d)
    (fun d => if agent_insertable agent d then Ok (created_agent agent (next_id (agents d))) else Err EDb).

(** An UPDATE of the active row of that name. *)
Definition update_active (name : string) (f : Z -> Agent -> Agent) : M unit :=
  exec EDb (fun d => set_agents (update_rows (active_named name) (f (clock d)) (agents d)) d) (fun _ => tt).

Definition with_trigger_config (mode : TriggerMode) (cooldown budget maxDepth now : Z) (a : Agent) : Agent :=
  mkAgent (Agent_ID a) (Agent_Name a) (DisplayName a) (Agent_Type a) (Capabilities a)
    (Agent_OwnerID a) (APIKeyHash a) (Agent_Status a) (Agent_CreatedAt a) now mode cooldown budget
    maxDepth (K8sImage a) (K8sEnvJSON a) (K8sResourcePreset a) (PendingWork a) (HarnessName a)
    (LocalCommand a) (HarnessConfigJSON a) (Agent_ConfigHash a) (ParentAgentID a)
    (Agent_SpawnDepth a) (Agent_SystemPrompt a) (Agent_AutonomyTier a) (ToolScopeJSON a)
    (QuarantinedAt a) (QuarantineReason a).

Definition UpdateTriggerConfig (name : string) (mode : TriggerMode) (cooldown budget maxDepth : Z) : M unit :=
  update_active name (with_trigger_config mode cooldown budget maxDepth).

Definition with_k8s_image (image : string) (env : option (list (string * EnvValue))) (preset : string)
    (now : Z) (a : Agent) : Agent :=
  mkAgent (Agent_ID a) (Agent_Name a) (DisplayName a) (Agent_Type a) (Capabilities a)
    (Agent_OwnerID a) (APIKeyHash a) (Agent_Status a) (Agent_CreatedAt a) now (Agent_TriggerMode a)
    (CooldownSeconds a) (DailyTriggerBudget a) (MaxTriggerDepth a) image env preset (PendingWork a)
    (HarnessName a) (LocalCommand a) (HarnessConfigJSON a) (Agent_ConfigHash a) (ParentAgentID a)
    (Agent_SpawnDepth a) (Agent_SystemPrompt a) (Agent_AutonomyTier a) (ToolScopeJSON a)
    (QuarantinedAt a) (QuarantineReason a).

Definition UpdateK8sImage (name image : string) (env : option (list (string * EnvValue))) (preset : string) : M unit :=
  update_active name (with_k8s_image image env preset).

(** Empty leaves a column unchanged, a dash clears it. *)
Definition set_or_clear (v old : string) : string :=
  if str_empty v then old else if String.eqb v "-" then "" else v.

Definition with_harness_config (harnessName localCommand harnessConfigJSON : string) (now : Z) (a : Agent) : Agent :=
  mkAgent (Agent_ID a) (Agent_Name a) (DisplayName a) (Agent_Type a) (Capabilities a)
    (Agent_OwnerID a) (APIKeyHash a) (Agent_Status a) (Agent_CreatedAt a) now (Agent_TriggerMode a)
    (CooldownSeconds a) (DailyTriggerBudget a) (MaxTriggerDepth a) (K8sImage a) (K8sEnvJSON a)
    (K8sResourcePreset a) (PendingWork a) (set_or_clear harnessName (HarnessName a))
    (set_or_clear localCommand (LocalCommand a))
    (set_or_clear harnessConfigJSON (HarnessConfigJSON a)) (Agent_ConfigHash a) (ParentAgentID a)
    (Agent_SpawnDepth a) (Agent_SystemPrompt a) (Agent_AutonomyTier a) (ToolScopeJSON a)
    (QuarantinedAt a) (QuarantineReason a).

Definition UpdateHarnessConfig (name harnessName localCommand harnessConfigJSON : string) : M unit :=
  if str_empty harnessName && str_empty localCommand && str_empty harnessConfigJSON then Ret (Ok tt)
  else exec_o EDb
    (fun d => set_agents (update_rows (active_named name)
                (with_harness_config harnessName localCommand harnessConfigJSON (clock d)) (agents d)) d)
    (fun d => if affected (active_named name) (agents d) =? 0 then Err ErrNoRows else Ok tt).

Definition with_pending (pending : bool) (a : Agent) : Agent :=
  mkAgent (Agent_ID a) (Agent_Name a) (DisplayName a) (Agent_Type a) (Capabilities a)
    (Agent_OwnerID a) (APIKeyHash a) (Agent_Status a) (Agent_CreatedAt a) (Agent_UpdatedAt a)
    (Agent_TriggerMode a) (CooldownSeconds a) (DailyTriggerBudget a) (MaxTriggerDepth a)
    (K8sImage a) (K8sEnvJSON a) (K8sResourcePreset a) pending (HarnessName a) (LocalCommand a)
    (HarnessConfigJSON a) (Agent_ConfigHash a) (ParentAgentID a) (Agent_SpawnDepth a)
    (Agent_SystemPrompt a) (Agent_AutonomyTier a) (ToolScopeJSON a) (QuarantinedAt a)
    (QuarantineReason a).

Definition SetPendingWork (name : string) (pending : bool) : M unit :=
  update_active name (fun _ => with_pending pending).

Definition GetAgentByName (name : string) : M Agent :=
  query_o EDb (fun d => match find_row (active_named name) (agents d) with
                        | Some a => Ok a
                        | None => Err ErrNoRows
                        end).

Definition store_GetAgentByID (id : Z) : M Agent :=
  query_o EDb (fun d => match find_row (fun a => by_id id a && is_active a) (agents d) with
                        | Some a => Ok a
                        | None => Err ErrNoRows
                        end).

Definition with_profile (displayName : string) (caps : rawjson) (hash : string) (now : Z) (a : Agent) : Agent :=
  mkAgent (Agent_ID a) (Agent_Name a) displayName (Agent_Type a) caps (Agent_OwnerID a) hash
    (Agent_Status a) (Agent_CreatedAt a) now (Agent_TriggerMode a) (CooldownSeconds a)
    (DailyTriggerBudget a) (MaxTriggerDepth a) (K8sImage a) (K8sEnvJSON a) (K8sResourcePreset a)
    (PendingWork a) (HarnessName a) (LocalCommand a) (HarnessConfigJSON a) (Agent_ConfigHash a)
    (ParentAgentID a) (Agent_SpawnDepth a) (Agent_SystemPrompt a) (Agent_AutonomyTier a)
    (ToolScopeJSON a) (QuarantinedAt a) (QuarantineReason a).

(** Writes every profile column from the struct. *)
Definition store_UpdateAgent (agent : Agent) : M unit :=
  update_active (Agent_Name agent) (with_profile (DisplayName agent)
    (match Capabilities agent with RawEmpty => raw_empty_object | c => c end) (APIKeyHash agent)).

Definition inactive (now : Z) (a : Agent) : Agent :=
  mkAgent (Agent_ID a) (Agent_Name a) (DisplayName a) (Agent_Type a) (Capabilities a)
    (Agent_OwnerID a) (APIKeyHash a) "inactive" (Agent_CreatedAt a) now (Agent_TriggerMode a)
    (CooldownSeconds a) (DailyTriggerBudget a) (MaxTriggerDepth a) (K8sImage a) (K8sEnvJSON a)
    (K8sResourcePreset a) (PendingWork a) (HarnessName a) (LocalCommand a) (HarnessConfigJSON a)
    (Agent_ConfigHash a) (ParentAgentID a) (Agent_SpawnDepth a) (Agent_SystemPrompt a)
    (Agent_AutonomyTier a) (ToolScopeJSON a) (QuarantinedAt a) (QuarantineReason a).

Definition DeactivateAgent (name : string) : M unit :=
  exec_o EDb
    (fun d => set_agents (update_rows (active_named name) (inactive (clock d)) (agents d)) d)
    (fun d => if affected (active_named name) (agents d) =? 0 then Err (EAgentNotFound name) else Ok tt).

Definition agent_name_le (a b : Agent) : Prop := str_le (Agent_Name a) (Agent_Name b).
#[export] Instance agent_name_le_dec a b : Decision (agent_name_le a b).
Proof. unfold agent_name_le. apply _. Defined.

Section Lists.
Context {HEng : Engine}.

(** WHERE status = 'active' AND ... ORDER BY name. *)
Definition active_by_name (p : Agent -> bool) : M (list Agent) :=
  query EDb (fun d => select_by agent_name_le (fun a => is_active a && p a) (agents d)).

Definition ListReactiveAgents : M (list Agent) :=
  active_by_name (fun a => bool_decide (Agent_TriggerMode a = TriggerModeReactive)).
Definition ListActiveAgents : M (list Agent) := active_by_name (fun _ => true).
Definition store_ListAllActiveAgents : M (list Agent) :=
  active_by_name (fun a => negb (String.eqb (Agent_Type a) "human")).
Definition ListAgentsByOwner (ownerID : Z) : M (list Agent) :=
  active_by_name (fun a => Agent_OwnerID a =? ownerID).

(** LIMIT 1 without an order. *)
Definition GetHumanAgentByOwner (ownerID : Z) : M Agent :=
  query_o EDb (fun d =>
    match scan (select (fun a => (Agent_OwnerID a =? ownerID) && String.eqb (Agent_Type a) "human" && is_active a)
                  (agents d)) with
    | a :: _ => Ok a
    | [] => Err ErrNoRows
    end).
End Lists.

(** ** The service *)

(** The part of the database the agent registry owns. *)
Definition same_agents (d d' : db) : Prop := agents d' = agents d.
#[export] Instance same_agents_preorder : PreOrder same_agents.
Proof. split; [done|]. unfold same_agents. intros a b c; congruence. Qed.

(** crypto/rand, bcrypt and the dead-letter store.  A digest verifies the key
    it was made from; randomness and hashing only take time, and capturing dead
    letters leaves the registry alone. *)
Class Credentials := {
  rand_Read : M string;
  GenerateFromPassword : string -> M string;
  CompareHashAndPassword : string -> string -> bool;
  rand_Read_frame : within tick rand_Read;
  GenerateFromPassword_frame : forall k, within tick (GenerateFromPassword k);
  GenerateFromPassword_verifies : forall k d,
    wp (GenerateFromPassword k) (fun o _ => forall h, o = Ok h -> CompareHashAndPassword h k = true) d
}.

Class DeadLetters := {
  CaptureDeadLetters : Z -> string -> M Z;
  CaptureDeadLetters_frame : forall owner name, within same_agents (CaptureDeadLetters owner name)
}.

Definition hex_digit (n : nat) : Ascii.ascii :=
  Ascii.ascii_of_nat (if (n <? 10)%nat then 48 + n else 87 + n).

(** [hex.EncodeToString]. *)
Fixpoint hex_encode (s : string) : string :=
  match s with
  | EmptyString => EmptyString
  | String c r => let n := Ascii.nat_of_ascii c in
                  String (hex_digit (n / 16)) (String (hex_digit (n mod 16)) (hex_encode r))
  end.

Section Service.
Context {HEng : Engine} {HCred : Credentials} {HDead : DeadLetters}.

Definition generateAPIKey : M string :=
  let? b := rand_Read in Ret (Ok (hex_encode b)).

(** A fresh key and its digest. *)
Definition new_key : M (string * string) :=
  let? apiKey := generateAPIKey in
  let? hash := GenerateFromPassword apiKey in
  Ret (Ok (apiKey, hash)).

Definition register_struct (name displayName agentType : string) (caps : rawjson) (ownerID : Z) (hash : string) : Agent :=
  mkAgent 0 name displayName agentType caps ownerID hash "" zero_time zero_time
    (TriggerModeOther "") 0 0 0 "" None "" false "" "" "" "" None 0 "" "" "" None "".

Definition Register (name displayName agentType : string) (capabilities : rawjson) (ownerID : Z) : M (Agent * string) :=
  if str_empty name then Ret (Err EAgentNameRequired)
  else
    let agentType := if str_empty agentType then "ai" else agentType in
    if negb (String.eqb agentType "ai") && negb (String.eqb agentType "human") then Ret (Err EAgentType)
    else
      let capabilities := match capabilities with RawEmpty => raw_empty_object | c => c end in
      if negb (json_Valid capabilities) then Ret (Err ECapabilitiesInvalid)
      else
        let? '(apiKey, hash) := new_key in
        let? agent := CreateAgent (register_struct name displayName agentType capabilities ownerID hash) in
        Ret (Ok (agent, apiKey)).

Definition Authenticate (apiKey : string) : M Agent :=
  let? agents := ListActiveAgents in
  match filter (fun a => CompareHashAndPassword (APIKeyHash a) apiKey = true) agents with
  | a :: _ => Ret (Ok a)
  | [] => Ret (Err EInvalidAPIKey)
  end.

(** "if err == sql.ErrNoRows": the service's own not-found error. *)
Definition or_not_found {A} (e : error) (p : M A) : M A :=
  let! r := p in
  match r with Err ErrNoRows => Ret (Err e) | o => Ret o end.

Definition GetAgent (name : string) : M Agent := or_not_found (EAgentNotFound name) (GetAgentByName name).
Definition GetAgentByID (id : Z) : M Agent := or_not_found (EAgentIDNotFound id) (store_GetAgentByID id).

Definition with_details (displayName : string) (capabilities : rawjson) (a : Agent) : Agent :=
  with_profile (if str_empty displayName then DisplayName a else displayName)
    (match capabilities with RawEmpty => Capabilities a | c => c end) (APIKeyHash a) (Agent_UpdatedAt a) a.

Definition UpdateAgent (name displayName : string) (capabilities : rawjson) : M Agent :=
  let? agent := GetAgent name in
  match capabilities with
  | RawInvalid _ => Ret (Err ECapabilitiesInvalid)
  | _ => let? _ := store_UpdateAgent (with_details displayName capabilities agent) in
         Ret (Ok (with_details displayName capabilities agent))
  end.

Definition Deregister (name : string) (ownerID : Z) : M unit :=
  let? agent := GetAgent name in
  if negb (Agent_OwnerID agent =? ownerID) then Ret (Err ENotAgentOwner)
  else
    let! _ := CaptureDeadLetters (Agent_OwnerID agent) name in
    DeactivateAgent name.

Definition ListAgents (ownerID : Z) : M (list Agent) := ListAgentsByOwner ownerID.
Definition ListAllActiveAgents : M (list Agent) := store_ListAllActiveAgents.

Definition with_key (hash : string) (a : Agent) : Agent :=
  with_profile (DisplayName a) (Capabilities a) hash (Agent_UpdatedAt a) a.

Definition RevokeKey (name : string) (ownerID : Z) : M (Agent * string) :=
  let? agent := GetAgent name in
  if negb (Agent_OwnerID agent =? ownerID) then Ret (Err ENotAgentOwner)
  else
    let? '(apiKey, hash) := new_key in
    let? _ := store_UpdateAgent (with_key hash agent) in
    Ret (Ok (with_key hash agent, apiKey)).

Definition GetHumanAgentForUser (ownerID : Z) : M (option Agent) :=
  let! r := GetHumanAgentByOwner ownerID in
  Ret (match r with
       | Ok a => Ok (Some a)
       | Err ErrNoRows => Ok None
       | Err e => Err e
       | Panic w => Panic w
       end).

Definition EnsureHumanAgent (username displayName : string) (ownerID : Z) : M (option Agent) :=
  let? agents := ListAgentsByOwner ownerID in
  match filter (fun a => String.eqb (Agent_Type a) "human" && is_active a = true) agents with
  | a :: _ => Ret (Ok (Some a))
  | [] =>
      let displayName := if str_empty displayName then username else displayName in
      let! r := Register username displayName "human" RawEmpty ownerID in
      match r with
      | Ok (agent, _) => Ret (Ok (Some agent))
      | Err _ =>
          let! r := Register (username +:+ "-human") displayName "human" RawEmpty ownerID in
          Ret (match r with Ok (agent, _) => Ok (Some agent) | Err _ => Ok None | Panic w => Panic w end)
      | Panic w => Ret (Panic w)
      end
  end.

Definition EnsureSystemAgent (ownerID : Z) : M Agent :=
  let! r := GetAgentByName "system" in
  match r with
  | Ok agent => Ret (Ok agent)
  | _ =>
      let! r := Register "system" "System" "ai" (RawJson (JObj [("role", JStr "system-notifications")])) ownerID in
      match r with
      | Ok (agent, _) => Ret (Ok agent)
      | Err e => let! r2 := GetAgentByName "system" in
                 Ret (match r2 with Ok agent => Ok agent | _ => Err e end)
      | Panic w => Ret (Panic w)
      end
  end.
End Service.
