(* ===== verification/AgentsSpec.v ===== *)
(** * Agents: identities under concurrency, keys, registration *)
From S2P Require Import Prelude Prog Table Schema Messaging Agents.

(** ** What any sequence of calls preserves *)
Record agents_ok (d : db) : Prop := {
  ak_table : table_ok (agents d);
  ak_names : NoDup (Agent_Name <$> rows (agents d));
  ak_types : forall a, a ∈ rows (agents d) -> Agent_Type a = "ai" \/ Agent_Type a = "human"
}.

Definition identity (a : Agent) :=
  (Agent_ID a, Agent_Name a, Agent_Type a, Agent_OwnerID a, Agent_CreatedAt a, ParentAgentID a).

(** An agent, earlier and later: who it is and whose is fixed, and an inactive
    agent stays inactive. *)
Definition agent_later (a a' : Agent) : Prop :=
  identity a' = identity a /\ (is_active a' = true -> is_active a = true).

Definition agents_later (d d' : db) : Prop :=
  forall a, a ∈ rows (agents d) -> exists a', a' ∈ rows (agents d') /\ agent_later a a'.

#[export] Instance agents_later_preorder : PreOrder agents_later.
Proof.
  split.
  - intros d a Ha. exists a. by repeat split.
  - intros d1 d2 d3 H12 H23 a Ha. destruct (H12 a Ha) as (a2&Ha2&Hi&Hact).
    destruct (H23 a2 Ha2) as (a3&Ha3&Hi'&Hact'). exists a3. split; [done|]. split; [congruence|auto].
Qed.

Definition agents_step (d d' : db) : Prop := agents_ok d -> agents_ok d' /\ agents_later d d'.

Lemma agents_same_step d d' : same_agents d d' -> agents_step d d'.
Proof.
  intros E [H1 H2 H3]. unfold same_agents in E. split; [split; by rewrite E|].
  intros a Ha. exists a. rewrite E. by repeat split.
Qed.

Lemma tick_agents d d' : agents_ok d -> tick d d' -> agents_ok d' /\ agents_later d d'.
Proof. intros Ht (s&_&->). by apply agents_same_step. Qed.

Lemma agents_update_step p f d :
  (forall a, agent_later a (f a)) -> agents_step d (set_agents (update_rows p f (agents d)) d).
Proof.
  intros Hl [H1 H2 H3].
  assert (forall a, Agent_ID (f a) = Agent_ID a /\ Agent_Name (f a) = Agent_Name a /\ Agent_Type (f a) = Agent_Type a) as Hid.
  { intros a. destruct (Hl a) as [H _]. unfold identity in H. by simplify_eq. }
  split; [split|]; simpl.
  - apply table_ok_update; [|done]. intros a. apply Hid.
  - unfold map_if. rewrite <- list_fmap_compose. erewrite list_fmap_ext; [exact H2|].
    intros i a _. simpl. destruct (p a); [apply Hid|done].
  - intros a'. rewrite elem_of_map_if. intros (a&Ha&->). destruct (p a); [|auto].
    destruct (Hid a) as (_&_&->). auto.
  - intros a Ha. exists (if p a then f a else a). split; [apply elem_of_map_if; eauto|].
    destruct (p a); [done|by repeat split].
Qed.

Lemma name_in_use_false name d :
  name_in_use name d = false <-> name ∉ Agent_Name <$> rows (agents d).
Proof.
  unfold name_in_use. rewrite negb_false_iff, Z.eqb_eq. unfold affected. rewrite count_if_0. split.
  - intros H Hin. apply list_elem_of_fmap in Hin as (a&->&Ha). apply H in Ha. by rewrite String.eqb_refl in Ha.
  - intros H a Ha. apply String.eqb_neq. intros <-. apply H. apply list_elem_of_fmap. eauto.
Qed.

Lemma agents_insert_step agent d : agent_insertable agent d = true ->
  agents_step d (set_agents (insert_row (agent_row agent (clock d)) (agents d)) d).
Proof.
  unfold agent_insertable. intros E [H1 H2 H3]. guards.
  match goal with H : name_in_use _ _ = false |- _ => apply name_in_use_false in H as Hfree end.
  split; [split|]; simpl.
  - by apply table_ok_insert.
  - rewrite fmap_app. apply NoDup_app. split_and!; [done| |apply NoDup_singleton].
    intros x Hx. simpl. rewrite list_elem_of_singleton. by intros ->.
  - intros a. rewrite elem_of_app, list_elem_of_singleton. intros [?| ->]; [auto|]. simpl.
    match goal with H : (_ || _) = true |- _ => apply orb_true_iff in H as [H|H] end; guards; auto.
  - intros a Ha. exists a. split; [set_solver|by repeat split].
Qed.

(** ** The calls *)
Inductive agent_call :=
| ARegister (name displayName agentType : string) (capabilities : rawjson) (ownerID : Z)
| AAuthenticate (apiKey : string)
| AUpdate (name displayName : string) (capabilities : rawjson)
| ADeregister (name : string) (ownerID : Z)
| ARevokeKey (name : string) (ownerID : Z)
| AEnsureHuman (username displayName : string) (ownerID : Z)
| AEnsureSystem (ownerID : Z)
| ATrigger (name : string) (mode : TriggerMode) (cooldown budget maxDepth : Z)
| AK8s (name image : string) (env : option (list (string * EnvValue))) (preset : string)
| AHarness (name harnessName localCommand harnessConfigJSON : string)
| APending (name : string) (pending : bool).

Section Calls.
Context {HEng : Engine} {HCred : Credentials} {HDead : DeadLetters}.

(** The agent a call answers with, if it does. *)
Definition agent_call_prog (c : agent_call) : M (option Agent) :=
  let some_of {A} (f : A -> option Agent) (p : M A) : M (option Agent) :=
    bind p (fun o => Ret (outcome_map f o)) in
  match c with
  | ARegister n dn t caps o => some_of (fun r => Some r.1) (Register n dn t caps o)
  | AAuthenticate k => some_of Some (Authenticate k)
  | AUpdate n dn caps => some_of Some (UpdateAgent n dn caps)
  | ADeregister n o => some_of (fun _ => None) (Deregister n o)
  | ARevokeKey n o => some_of (fun r => Some r.1) (RevokeKey n o)
  | AEnsureHuman u dn o => EnsureHumanAgent u dn o
  | AEnsureSystem o => some_of Some (EnsureSystemAgent o)
  | ATrigger n m c b x => some_of (fun _ => None) (UpdateTriggerConfig n m c b x)
  | AK8s n i e p => some_of (fun _ => None) (UpdateK8sImage n i e p)
  | AHarness n h l j => some_of (fun _ => None) (UpdateHarnessConfig n h l j)
  | APending n b => some_of (fun _ => None) (SetPendingWork n b)
  end.

Abbreviation I := agents_ok.
Abbreviation R := agents_later.

(** What an answer says, in every later state. *)
Definition owned_agent (name : string) (ownerID : Z) (d : db) : Prop :=
  exists a, a ∈ rows (agents d) /\ Agent_Name a = name /\ Agent_OwnerID a = ownerID.
Definition retired (name : string) (ownerID : Z) (d : db) : Prop :=
  exists a, a ∈ rows (agents d) /\ Agent_Name a = name /\ Agent_OwnerID a = ownerID /\ is_active a = false.
Definition known (a : Agent) (d : db) : Prop :=
  exists a', a' ∈ rows (agents d) /\ agent_later a a'.

(** The agent as it was read: active, with the digest of this key. *)
Definition let_in (a : Agent) (apiKey : string) : Prop := is_active a = true /\ CompareHashAndPassword (APIKeyHash a) apiKey = true.

Definition agent_answer (c : agent_call) (o : outcome error (option Agent)) (d : db) : Prop :=
  match c, o with
  | ARegister n _ _ _ owner, Ok _ => owned_agent n owner d
  | AAuthenticate k, Ok (Some a) => known a d /\ let_in a k
  | ADeregister n owner, Ok _ => retired n owner d
  | ARevokeKey n owner, Ok _ => owned_agent n owner d
  | _, _ => True
  end.

Lemma owned_later n o d d' : R d d' -> owned_agent n o d -> owned_agent n o d'.
Proof.
  intros Hle (a&Ha&<-&<-). destruct (Hle a Ha) as (a'&Ha'&Hi&_). exists a'. unfold identity in Hi. by simplify_eq.
Qed.

Lemma retired_later n o d d' : R d d' -> retired n o d -> retired n o d'.
Proof.
  intros Hle (a&Ha&<-&<-&Hact). destruct (Hle a Ha) as (a'&Ha'&Hi&Hact'). exists a'.
  unfold identity in Hi. simplify_eq. split_and!; [done..|]. destruct (is_active a'); [|done].
  by rewrite Hact' in Hact.
Qed.

Lemma known_later a d d' : R d d' -> known a d -> known a d'.
Proof.
  intros Hle (b&Hb&Hi&Hact). destruct (Hle b Hb) as (b'&Hb'&Hi'&Hact'). exists b'.
  split; [done|]. split; [congruence|auto].
Qed.

(** *** Calls that only keep the invariant *)
Lemma query_within {B} (ans : db -> outcome error B) : within agents_step (query_o EDb ans).
Proof. simpl. split; [|done]. intros d. split; [by apply agents_same_step|done]. Qed.

Lemma update_active_within name f :
  (forall now a, agent_later a (f now a)) -> within agents_step (update_active name f).
Proof. intros Hf. simpl. split; [|done]. intros d. split; [by apply agents_update_step|done]. Qed.

Lemma same_agents_within {A} (p : prog db A) : within same_agents p -> within agents_step p.
Proof. apply within_mono, agents_same_step. Qed.

Lemma CreateAgent_within agent : within agents_step (CreateAgent agent).
Proof.
  simpl. split; [|done]. intros d. split; [|done].
  destruct (agent_insertable agent d) eqn:E; [by apply agents_insert_step|by apply agents_same_step].
Qed.

Lemma tick_same_agents {A} (p : prog db A) : within tick p -> within same_agents p.
Proof. apply within_mono. by intros d d' (s&_&->). Qed.

Lemma new_key_within : within same_agents new_key.
Proof.
  apply within_bind_ok; [apply within_bind_ok; [apply tick_same_agents, rand_Read_frame|done]|]. intros k.
  apply within_bind_ok; [apply tick_same_agents, GenerateFromPassword_frame|done].
Qed.

Lemma Register_within n dn t caps o : within agents_step (Register n dn t caps o).
Proof.
  unfold Register. destruct (str_empty n); [done|]. destruct (_ && _); [done|]. destruct (negb _); [done|].
  apply within_bind_ok; [apply same_agents_within, new_key_within|]. intros [k h].
  apply within_bind_ok; [apply CreateAgent_within|done].
Qed.

Lemma GetAgent_within n : within agents_step (GetAgent n).
Proof. apply within_bind; [apply query_within|]. by intros [?|[]|?]. Qed.

Lemma UpdateAgent_within n dn caps : within agents_step (UpdateAgent n dn caps).
Proof.
  apply within_bind_ok; [apply GetAgent_within|]. intros a.
  destruct caps; [| |done]; (apply within_bind_ok; [apply update_active_within; by repeat split|done]).
Qed.

Lemma EnsureHumanAgent_within u dn o : within agents_step (EnsureHumanAgent u dn o).
Proof.
  apply within_bind_ok; [simpl; split; [|done]; intros d; split; [by apply agents_same_step|done]|].
  intros l. destruct (filter _ l); [|done]. apply within_bind; [apply Register_within|].
  intros [[? ?]|e|w]; [done| |done]. apply within_bind; [apply Register_within|done].
Qed.

Lemma EnsureSystemAgent_within o : within agents_step (EnsureSystemAgent o).
Proof.
  apply within_bind; [apply query_within|]. intros [a|e|w]; [done| |];
    (apply within_bind; [apply Register_within|]; intros [[? ?]|e'|w']; [done| |done];
     apply within_bind; [apply query_within|done]).
Qed.

(** *** Calls whose answers stay true *)
Lemma rg_same {A} (p : prog db A) d0 : within same_agents p -> rg I R p (fun _ _ => True) d0.
Proof. apply within_rg. intros d d' HI H. by apply agents_same_step. Qed.

Lemma rg_GetAgent name d0 : I d0 ->
  rg I R (GetAgent name) (fun o d => forall a, o = Ok a -> known a d /\ Agent_Name a = name) d0.
Proof.
  intros HI. apply rg_bind; [apply _|done|]. apply rg_query_o; [apply _|].
  intros d d' _ _ Hd' HI'. split; [|by intros ????].
  destruct (find_row _ _) as [b|] eqn:E; [|by intros ????]. intros d2 Hd2 _ a [= <-].
  apply find_row_Some in E as [Hb Hin]. unfold active_named in Hb. guards. split; [|done].
  eapply known_later; [exact Hd2|]. destruct (Hd' b Hin) as (b'&Hb'&Hl). by exists b'.
Qed.

Lemma rg_Register n dn t caps o d0 : I d0 ->
  rg I R (Register n dn t caps o) (fun r d => forall x, r = Ok x -> owned_agent n o d) d0.
Proof.
  intros HI. unfold Register. destruct (str_empty n); [done|]. destruct (_ && _); [done|].
  destruct (negb _); [done|]. apply rg_bind_ok; [apply _|done|].
  eapply rg_mono; [|apply rg_same, new_key_within]. intros [[k h]|e|w] d1 HI1 _; [|done|done].
  apply rg_bind_ok; [apply _|done|]. apply rg_exec_o. intros d2 Hd2 HI2. cbv beta.
  destruct (agent_insertable _ d2) eqn:E; [|by split_and!].
  destruct (agents_insert_step _ d2 E HI2) as [HI3 Hle]. split_and!; [done|done| |done].
  intros d3 Hd3 _ d4 Hd4 _ x _. eapply owned_later; [exact Hd4|]. eapply owned_later; [exact Hd3|].
  eexists. split; [simpl; apply elem_of_app; right; by apply list_elem_of_singleton|done].
Qed.

Lemma rg_Authenticate k d0 : I d0 ->
  rg I R (Authenticate k) (fun o d => forall a, o = Ok a -> known a d /\ let_in a k) d0.
Proof.
  intros HI. apply rg_bind_ok; [apply _|done|]. apply rg_query; [apply _|].
  intros d d' _ _ Hd' HI'. split; [|done].
  destruct (filter _ _) as [|a l] eqn:E; [done|]. intros d2 Hd2 _ b [= <-].
  assert (CompareHashAndPassword (APIKeyHash a) k = true /\
    a ∈ select_by agent_name_le (fun a => is_active a && true) (agents d)) as [Hk Ha].
  { apply (list_elem_of_filter (fun a => CompareHashAndPassword (APIKeyHash a) k = true)). unfold active_by_name in E. rewrite E. set_solver. }
  apply elem_of_select_by in Ha as [Hact Ha]. rewrite andb_true_r in Hact. split; [|done].
  eapply known_later; [exact Hd2|]. destruct (Hd' a Ha) as (a'&Ha'&Hl). by exists a'.
Qed.

Lemma rg_Deregister n o d0 : I d0 -> rg I R (Deregister n o) (fun r d => r = Ok tt -> retired n o d) d0.
Proof.
  intros HI. apply rg_bind_ok; [apply _|done|]. eapply rg_mono; [|by apply rg_GetAgent].
  intros [a|e|w] d1 HI1 Ha; [|done|done]. destruct (Ha a eq_refl) as [Hk Hn].
  destruct (Z.eqb_spec (Agent_OwnerID a) o) as [<-|]; [|done]. cbn [negb].
  apply rg_bind; [apply _|done|].
  eapply rg_mono; [|apply (rg_stable _ _ _ (known a));
    [intros; by eapply known_later|done|apply rg_same, CaptureDeadLetters_frame]].
  intros _ d2 HI2 [_ Hk2]. apply rg_exec_o. intros d3 Hd3 HI3.
  destruct (agents_update_step (active_named n) (inactive (clock d3)) d3) as [HI4 Hle]; [by repeat split|done|].
  split_and!; [done|done| |done].
  intros d4 Hd4 _ _. eapply retired_later; [exact Hd4|].
  destruct (known_later _ _ _ Hd3 Hk2) as (b&Hb&Hi&_).
  assert (Agent_Name b = n /\ Agent_OwnerID b = Agent_OwnerID a) as [Hnb Hob]
    by (unfold identity in Hi; by simplify_eq).
  exists (if active_named n b then inactive (clock d3) b else b).
  split; [simpl; apply elem_of_map_if; eauto|]. unfold active_named. rewrite Hnb, String.eqb_refl. simpl.
  by destruct (is_active b) eqn:E.
Qed.

Lemma rg_RevokeKey n o d0 : I d0 -> rg I R (RevokeKey n o) (fun r d => forall x, r = Ok x -> owned_agent n o d) d0.
Proof.
  intros HI. apply rg_bind_ok; [apply _|done|]. eapply rg_mono; [|by apply rg_GetAgent].
  intros [a|e|w] d1 HI1 Ha; [|done|done]. destruct (Ha a eq_refl) as [Hk Hn].
  destruct (Z.eqb_spec (Agent_OwnerID a) o) as [<-|]; [|done]. cbn [negb].
  assert (owned_agent n (Agent_OwnerID a) d1) as Ho.
  { destruct Hk as (b&Hb&Hi&_). unfold identity in Hi. exists b. by simplify_eq. }
  eapply rg_mono; [|apply (rg_stable _ _ _ (owned_agent n (Agent_OwnerID a)));
    [intros; by eapply owned_later|done|]].
  { intros r d _ [_ H] x _. exact H. }
  eapply (within_rg _ _ agents_step); [intros ????; auto|].
  apply within_bind_ok; [apply same_agents_within, new_key_within|]. intros [k h].
  apply within_bind_ok; [apply update_active_within; by repeat split|done].
Qed.

Lemma rg_then {A} (f : A -> option Agent) (p : M A) (Q : outcome error (option Agent) -> db -> Prop) d0 : I d0 ->
  rg I R p (fun o d => forall d', R d d' -> I d' -> Q (outcome_map f o) d') d0 ->
  rg I R (bind p (fun o => Ret (outcome_map f o))) Q d0.
Proof. intros HI H. apply rg_bind; [apply _|done|]. eapply rg_mono; [|exact H]. simpl. auto. Qed.

Lemma rg_quiet {A} (p : prog db A) d0 : within agents_step p -> rg I R p (fun _ _ => True) d0.
Proof. apply within_rg. intros d d' HI H. by apply H. Qed.

Lemma rg_agent_call c d0 : I d0 -> rg I R (agent_call_prog c) (agent_answer c) d0.
Proof.
  intros HI. destruct c; cbn [agent_call_prog].
  - apply rg_then; [done|]. eapply rg_mono; [|by apply rg_Register].
    intros [[a k]|e|w] d _ H d' Hd' _; [|done|done]. eapply owned_later; [exact Hd'|by eapply H].
  - apply rg_then; [done|]. eapply rg_mono; [|by apply rg_Authenticate].
    intros [a|e|w] d _ H d' Hd' _; [|done|done]. destruct (H a eq_refl) as [H1 H2]. split; [by eapply known_later|done].
  - apply rg_then; [done|]. eapply rg_mono; [|by apply rg_quiet, UpdateAgent_within]. by intros [].
  - apply rg_then; [done|]. eapply rg_mono; [|by apply rg_Deregister].
    intros [[]|e|w] d _ H d' Hd' _; [|done|done]. eapply retired_later; [exact Hd'|by apply H].
  - apply rg_then; [done|]. eapply rg_mono; [|by apply rg_RevokeKey].
    intros [[a k]|e|w] d _ H d' Hd' _; [|done|done]. eapply owned_later; [exact Hd'|by eapply H].
  - eapply rg_mono; [|by apply rg_quiet, EnsureHumanAgent_within]. by intros [].
  - apply rg_then; [done|]. eapply rg_mono; [|by apply rg_quiet, EnsureSystemAgent_within]. by intros [].
  - apply rg_then; [done|]. eapply rg_mono; [|apply rg_quiet, update_active_within; by repeat split]. by intros [].
  - apply rg_then; [done|]. eapply rg_mono; [|apply rg_quiet, update_active_within; by repeat split]. by intros [].
  - apply rg_then; [done|]. eapply rg_mono; [|apply rg_quiet]; [by intros []|].
    unfold UpdateHarnessConfig. destruct (_ && _); [done|]. simpl. split; [|done]. intros d.
    split; [by apply agents_update_step|done].
  - apply rg_then; [done|]. eapply rg_mono; [|apply rg_quiet, update_active_within; by repeat split]. by intros [].
Qed.

(** C5. Whatever registrations, authentications, updates, key revocations,
    deregistrations and settings run concurrently, with any statement failing:
    ids and names stay unique, no agent disappears or changes its name, type or
    owner, an inactive agent stays inactive; and of the answers, in every later
    state: a registered agent, and one that was given a new key, is its owner's;
    a deregistered one is inactive for good; an authenticated one is in the
    registry, and was active with the digest of the key given when it was read.
    Nothing is said of the key a revocation answers: [revoked_key_restored]. *)
Theorem agents_history (cs : list agent_call) (d : db) (ps : list (M (option Agent))) (d' : db)
    (Hok : agents_ok d) (Hrun : rtc (pool_step tick) (agent_call_prog <$> cs, d) (ps, d')) :
  agents_ok d' /\
  (forall a, a ∈ rows (agents d) -> exists a', a' ∈ rows (agents d') /\ agent_later a a') /\
  (forall (i : nat) c o, cs !! i = Some c -> ps !! i = Some (Ret o) -> agent_answer c o d').
Proof.
  destruct (pool_invariant agents_ok agents_later tick tick_agents (agent_call_prog <$> cs) ps
    (fun i o d => forall c, cs !! i = Some c -> agent_answer c o d) d d') as (H1&H2&H3); [|done|done|].
  - intros i p Hp. rewrite list_lookup_fmap in Hp. apply fmap_Some in Hp as (c&Hc&->).
    eapply rg_mono; [|by apply rg_agent_call]. intros o d1 _ H c' Hc'. by simplify_eq.
  - split_and!; [done|done|]. intros i c o Hc Hp. by eapply H3.
Qed.
End Calls.

(** ** One call at a time *)
Section Calls1.
Context {HEng : Engine} {HCred : Credentials} {HDead : DeadLetters}.

(** Authentication accepts a key exactly when it is the key of an active
    agent, and then answers with such an agent; it never changes the database,
    whatever fails. *)
Theorem authenticate_exact (apiKey : string) (d : db) :
  (exists o, run_ok (Authenticate apiKey) d = (o, d) /\
     (is_ok o = true <-> exists a, a ∈ rows (agents d) /\ is_active a = true /\
                                  CompareHashAndPassword (APIKeyHash a) apiKey = true) /\
     (forall a, o = Ok a -> a ∈ rows (agents d) /\ is_active a = true /\
                            CompareHashAndPassword (APIKeyHash a) apiKey = true)) /\
  wp (Authenticate apiKey) (fun _ d' => d' = d) d.
Proof.
  assert (forall a, a ∈ filter (fun a => CompareHashAndPassword (APIKeyHash a) apiKey = true)
            (select_by agent_name_le (fun a => is_active a && true) (agents d)) <->
          a ∈ rows (agents d) /\ is_active a = true /\ CompareHashAndPassword (APIKeyHash a) apiKey = true) as Hin.
  { intros a. rewrite list_elem_of_filter, elem_of_select_by, andb_true_r. naive_solver. }
  unfold Authenticate, ListActiveAgents, active_by_name. split.
  - rewrite run_ok_bind_ok. cbn [run_ok run query exec].
    destruct (filter _ _) as [|a l].
    + eexists. split; [done|]. split; [|done]. split; [done|].
      intros (a&H). apply Hin in H. set_solver.
    + assert (a ∈ a :: l) as Ha%Hin by set_solver. eexists. split; [done|].
      split; [split; [eauto|done]|]. by intros b [= <-].
  - apply wp_bind_ok. cbn [wp query exec]. split; [|done]. by destruct (filter _ _).
Qed.

(** The agents a call leaves alone. *)
Lemma wp_same_agents {A} (p : prog db A) d : within same_agents p -> wp p (fun _ d' => same_agents d d') d.
Proof. apply within_wp, _. Qed.

Lemma wp_new_key d :
  wp new_key (fun o d' => same_agents d d' /\
    forall k h, o = Ok (k, h) -> CompareHashAndPassword h k = true) d.
Proof.
  apply wp_and; [apply wp_same_agents, new_key_within|].
  unfold new_key. apply wp_bind_ok. eapply wp_mono; [|apply (wp_same_agents generateAPIKey d)].
  2: { apply within_bind_ok; [apply tick_same_agents, rand_Read_frame|done]. }
  intros [key|e|w] d1 _; [|done|done]. apply wp_bind_ok.
  eapply wp_mono; [|apply GenerateFromPassword_verifies]. simpl. intros [h|e|w] d2 H; [|done|done].
  intros k h' [= <- <-]. by apply H.
Qed.

(** The key opens the registry of [d]. *)
Definition accepted (apiKey : string) (d : db) : Prop := is_ok (run_ok (Authenticate apiKey) d).1 = true.

Lemma accepted_intro apiKey d a : a ∈ rows (agents d) -> is_active a = true ->
  CompareHashAndPassword (APIKeyHash a) apiKey = true -> accepted apiKey d.
Proof.
  intros Ha Hact Hk. unfold accepted, Authenticate, ListActiveAgents, active_by_name.
  rewrite run_ok_bind_ok. cbn [run_ok run query exec]. destruct (filter _ _) as [|b l] eqn:E; [|done].
  assert (a ∈ ([] : list Agent)) as H; [|set_solver]. rewrite <- E.
  rewrite list_elem_of_filter, elem_of_select_by, andb_true_r. done.
Qed.

(** The inputs Register accepts before it looks at the database. *)
Definition registrable (name agentType : string) (capabilities : rawjson) : bool :=
  negb (str_empty name) && (str_empty agentType || String.eqb agentType "ai" || String.eqb agentType "human") &&
  match capabilities with RawInvalid _ => false | _ => true end.

Definition register_post (name displayName agentType : string) (capabilities : rawjson) (ownerID : Z)
    (d : db) (o : outcome error (Agent * string)) (d' : db) : Prop :=
  match o with
  | Ok (a, apiKey) => exists hash now,
      agents d' = insert_row (agent_row (register_struct name displayName
        (if str_empty agentType then "ai" else agentType)
        (match capabilities with RawEmpty => raw_empty_object | c => c end) ownerID hash) now) (agents d) /\
      registrable name agentType capabilities = true /\ name_in_use name d = false /\
      Agent_ID a = next_id (agents d) /\ accepted apiKey d'
  | _ => same_agents d d'
  end.

(** Register, whatever fails, either appends exactly one active row (of
    the given name and owner, passive, with the default limits) whose key it
    returns, and that key then authenticates, or changes no agent; and it
    accepts only valid input and a name never used before. *)
Theorem register_effect name displayName agentType capabilities ownerID d :
  wp (Register name displayName agentType capabilities ownerID)
     (register_post name displayName agentType capabilities ownerID d) d.
Proof.
  unfold Register. destruct (str_empty name) eqn:En; [done|].
  destruct (negb _ && negb _) eqn:Et; [done|]. destruct (negb (json_Valid _)) eqn:Ec; [done|].
  apply wp_bind_ok. eapply wp_mono; [|apply wp_new_key].
  intros [[k h]|e|w] d1 [Hs Hk]; [|done|done]. specialize (Hk k h eq_refl).
  apply wp_bind_ok. cbn [wp CreateAgent exec_o]. split; [|done].
  destruct (agent_insertable _ d1) eqn:Ei; [|done]. unfold agent_insertable in Ei. guards.
  eexists h, (clock d1). split_and!; simpl.
  - by rewrite Hs.
  - unfold registrable. rewrite En. simpl. apply andb_true_iff. split.
    + destruct (str_empty agentType); [done|]. cbn [orb]. by destruct (String.eqb agentType "ai"), (String.eqb agentType "human").
    + destruct capabilities; done.
  - unfold name_in_use in *. simpl in *. unfold same_agents in Hs. by rewrite <- Hs.
  - by rewrite Hs.
  - eapply accepted_intro; [simpl; apply elem_of_app; right; by apply list_elem_of_singleton|done|done].
Qed.

Definition revoke_post (name : string) (ownerID : Z) (d : db) (o : outcome error (Agent * string)) (d' : db) : Prop :=
  match o with
  | Ok (a, apiKey) => exists old hash now,
      find_row (active_named name) (agents d) = Some old /\ Agent_OwnerID old = ownerID /\
      agents d' = update_rows (active_named name) (with_profile (DisplayName old)
         (match Capabilities old with RawEmpty => raw_empty_object | c => c end) hash now) (agents d) /\
      accepted apiKey d'
  | _ => same_agents d d'
  end.

Lemma wp_GetAgent name d :
  wp (GetAgent name) (fun o d' => d' = d /\
    forall a, o = Ok a -> find_row (active_named name) (agents d) = Some a) d.
Proof.
  apply wp_bind. cbn [wp GetAgentByName query_o exec_o]. split; [|done].
  destruct (find_row _ _) as [a|]; simpl; (split; [done|]); [by intros b [= <-]|done].
Qed.

(** RevokeKey, whatever fails, either gives the active agent of that name
    a new key, which then authenticates, changing nothing else, or changes no
    agent; and it does so only for the agent's owner. *)
Theorem revoke_key_effect name ownerID d :
  wp (RevokeKey name ownerID) (revoke_post name ownerID d) d.
Proof.
  unfold RevokeKey. apply wp_bind_ok. eapply wp_mono; [|apply wp_GetAgent].
  intros [a|e|w] d0 [-> Ha]; [|done|done]. specialize (Ha a eq_refl).
  destruct (Z.eqb_spec (Agent_OwnerID a) ownerID) as [Ho|]; [|done]. cbn [negb].
  apply wp_bind_ok. eapply wp_mono; [|apply wp_new_key].
  intros [[k h]|e|w] d1 [Hs Hk]; [|done|done]. specialize (Hk k h eq_refl). unfold same_agents in Hs.
  apply wp_bind_ok. cbn [wp store_UpdateAgent update_active exec]. split; [|done].
  apply find_row_Some in Ha as Hin. destruct Hin as [Hact Hin].
  assert (Agent_Name a = name) as En by (unfold active_named in Hact; guards; done).
  exists a, h, (clock d1). split_and!; [done|done| |].
  - simpl. by rewrite Hs, En.
  - eapply (accepted_intro _ _ (with_profile (DisplayName a) _ h (clock d1) a)); [| |done].
    + simpl. rewrite Hs, En. apply elem_of_map_if. exists a. by rewrite Hact.
    + unfold active_named in Hact. by guards.
Qed.
End Calls1.

(** ** Concrete runs *)
Module AgentRuns.
#[local] Instance eng : Engine := rowid_engine.

(** A hash that tags the key it digests, and a generator of one key. *)
#[local] Instance cred : Credentials.
Proof.
  refine {| rand_Read := Ret (Ok "r"); GenerateFromPassword := fun k => Ret (Ok ("#" +:+ k));
            CompareHashAndPassword := fun h k => String.eqb h ("#" +:+ k) |}; try done.
  intros k d. simpl. intros h [= <-]. apply String.eqb_refl.
Defined.
#[local] Instance dead : DeadLetters.
Proof. by refine {| CaptureDeadLetters := fun _ _ => Ret (Ok 0) |}. Defined.

Lemma empty_agents_ok : agents_ok empty_db.
Proof. split; simpl; [apply table_ok_empty|constructor|set_solver]. Qed.

(** One agent, bob of owner 7, whose key is [old]. *)
Definition bob : Agent := agent_row (register_struct "bob" "Bob" "ai" raw_empty_object 7 "#old") 0 1.
Definition bob_db : db := set_agents (mkTable [bob] 2) empty_db.

Lemma bob_ok : agents_ok bob_db.
Proof.
  split; simpl; [split; simpl; [apply NoDup_singleton|]|apply NoDup_singleton|].
  - intros a Ha%list_elem_of_singleton. subst a. done.
  - intros a Ha%list_elem_of_singleton. subst a. by left.
Qed.

Lemma agents_history_witness :
  agents_ok bob_db /\
  retired "bob" 7 (run_schedule [(0, false); (0, false)]%nat (agent_call_prog <$> [ADeregister "bob" 7]) bob_db).2.
Proof.
  split; [exact bob_ok|].
  pose proof (run_schedule_reachable tick [(0, false); (0, false)]%nat (agent_call_prog <$> [ADeregister "bob" 7]) bob_db) as Hr.
  destruct (run_schedule _ _ _) as [ps d'] eqn:E.
  destruct (agents_history [ADeregister "bob" 7] bob_db ps d' bob_ok Hr) as (_&_&H).
  apply (H 0%nat (ADeregister "bob" 7) (Ok None)); [reflexivity|]. vm_compute in E. injection E as <- _. reflexivity.
Defined.

(** UpdateAgent writes the whole row it read, digest of the key included: when
    it interleaves with a revocation, the revocation answers with a new key,
    but the old key still authenticates and the new one does not. *)
Theorem revoked_key_restored : exists ps d',
  let schedule := [(0, false); (1, false); (1, false); (0, false)]%nat in
  run_schedule schedule (agent_call_prog <$> [AUpdate "bob" "Robert" RawEmpty; ARevokeKey "bob" 7]) bob_db = (ps, d') /\
  (exists a, ps !! 1%nat = Some (Ret (Ok (Some a))) /\ APIKeyHash a = "#72") /\
  accepted "old" d' /\ ~ accepted "72" d'.
Proof.
  eexists _, _. split; [vm_compute; reflexivity|]. split.
  - eexists. split; [vm_compute; reflexivity|reflexivity].
  - split; [vm_compute; reflexivity|]. vm_compute. discriminate.
Qed.
End AgentRuns.
