(* ===== verification/Reactor.v ===== *)
(** * The reactor (internal/reactor: store.go, reactor.go, poller.go, notifier.go;
      internal/harness/registry.go; the adapter of cmd/synapbus/main.go)

    A direct message to a reactive agent starts a run of it, on Kubernetes or
    through the harness registry, unless its trigger settings forbid it: the
    decision chain, the rows of [reactive_runs] that record every evaluation,
    the completion of runs, the coalesced follow-up run, and manual retries.
    What a call starts, a goroutine or a Kubernetes job, is part of its answer
    ([launch]); a goroutine ([spawn]) is run as a call of its own. *)
From stdpp Require Import pretty.
From S2P Require Import Prelude Prog Table Schema Messaging MessagingQueries Trust Reactions Agents.

(** ** The store of runs *)

(** Runs that count against the daily budget and the cooldown. *)
Definition countable (s : RunStatus) : bool :=
  bool_decide (s = RunRunning \/ s = RunSucceeded \/ s = RunFailed).

Definition run_row (r : ReactiveRun) (now id : Z) : ReactiveRun :=
  mkReactiveRun id (Run_AgentName r) (TriggerMessageID r) (TriggerEvent r) (TriggerDepth r) (TriggerFrom r)
    (Run_Status r) (K8sJobName r) (K8sNamespace r) (StartedAt r) None (ErrorLog r) now.

Definition InsertRun (r : ReactiveRun) : M Z :=
  let! now := time_now in
  exec EDb (fun d => set_reactive_runs (insert_row (run_row r now) (reactive_runs d)) d)
           (fun d => next_id (reactive_runs d)).

Definition with_run_status (status : RunStatus) (jobName namespace : string) (startedAt : option Z)
    (r : ReactiveRun) : ReactiveRun :=
  mkReactiveRun (Run_ID r) (Run_AgentName r) (TriggerMessageID r) (TriggerEvent r) (TriggerDepth r)
    (TriggerFrom r) status jobName namespace startedAt (CompletedAt r) (ErrorLog r) (Run_CreatedAt r).

Definition UpdateRunStatus (id : Z) (status : RunStatus) (jobName namespace : string) (startedAt : option Z) : M unit :=
  exec EDb (fun d => set_reactive_runs (update_rows (by_id id)
              (with_run_status status jobName namespace startedAt) (reactive_runs d)) d) (fun _ => tt).

Definition completed_run (status : RunStatus) (errorLog : string) (completedAt : Z) (r : ReactiveRun) : ReactiveRun :=
  mkReactiveRun (Run_ID r) (Run_AgentName r) (TriggerMessageID r) (TriggerEvent r) (TriggerDepth r)
    (TriggerFrom r) status (K8sJobName r) (K8sNamespace r) (StartedAt r) (Some completedAt) errorLog (Run_CreatedAt r).

Definition CompleteRun (id : Z) (status : RunStatus) (errorLog : string) (completedAt : Z) : M unit :=
  exec EDb (fun d => set_reactive_runs (update_rows (by_id id)
              (completed_run status errorLog completedAt) (reactive_runs d)) d) (fun _ => tt).

Definition GetRunByID (id : Z) : M ReactiveRun :=
  query_o EDb (fun d => match find_id id (reactive_runs d) with
                        | Some r => Ok r
                        | None => Err ErrNoRows
                        end).

Definition run_newest (a b : ReactiveRun) : Prop := Run_CreatedAt b <= Run_CreatedAt a.
#[export] Instance run_newest_dec a b : Decision (run_newest a b).
Proof. unfold run_newest. apply _. Defined.

(** An empty filter is absent. *)
Definition run_listed (agentName : string) (status : option RunStatus) (r : ReactiveRun) : bool :=
  (str_empty agentName || String.eqb (Run_AgentName r) agentName) &&
  match status with Some s => bool_decide (Run_Status r = s) | None => true end.

(** LIMIT takes a negative number as no limit, OFFSET one as 0. *)
Definition sql_page {A} (limit offset : Z) (l : list A) : list A :=
  if limit <? 0 then drop (Z.to_nat offset) l else page limit offset l.

(** The start of the day of [now], in UTC. *)
Definition start_of_day (now : Z) : Z := now - now mod 86400.

Definition of_agent (agentName : string) (r : ReactiveRun) : bool := String.eqb (Run_AgentName r) agentName.

Definition today_run (agentName : string) (now : Z) (r : ReactiveRun) : bool :=
  of_agent agentName r && countable (Run_Status r) && (start_of_day now <=? Run_CreatedAt r).

Definition CountTodayRuns (agentName : string) : M Z :=
  let! now := time_now in
  query EDb (fun d => affected (today_run agentName now) (reactive_runs d)).

(** MAX(created_at) of the countable runs; NULL when there are none. *)
Definition last_run_time (agentName : string) (d : db) : option Z :=
  maxZ (Run_CreatedAt <$> select (fun r => of_agent agentName r && countable (Run_Status r)) (reactive_runs d)).

Definition GetLastRunTime (agentName : string) : M (option Z) := query EDb (last_run_time agentName).

Definition running_run (agentName : string) (r : ReactiveRun) : bool :=
  of_agent agentName r && bool_decide (Run_Status r = RunRunning).

Definition IsAgentRunning (agentName : string) : M bool :=
  query EDb (fun d => 0 <? affected (running_run agentName) (reactive_runs d)).

Section RunLists.
Context {HEng : Engine}.

Definition ListRuns (agentName : string) (status : option RunStatus) (limit offset : Z) : M (list ReactiveRun * Z) :=
  let? total := query EDb (fun d => affected (run_listed agentName status) (reactive_runs d)) in
  let? runs := query EDb (fun d => sql_page limit offset
                            (select_by run_newest (run_listed agentName status) (reactive_runs d))) in
  Ret (Ok (runs, total)).

Definition GetActiveRuns : M (list ReactiveRun) :=
  query EDb (fun d => scan (select (fun r => bool_decide (Run_Status r = RunRunning)) (reactive_runs d))).
End RunLists.

(** ** Backends *)

(** [strings.Contains]. *)
Definition str_contains (sub s : string) : bool := existsb (String.prefix sub) (suffixes s).

(** A word in double quotes, as it appears in a JSON key. *)
Definition quoted (w : string) : string := String dquote (w +:+ String dquote EmptyString).

Inductive backend := backendK8s | backendSubprocess | backendDocker | backendWebhook | backendNone.
#[export] Instance backend_eq_dec : EqDecision backend.
Proof. solve_decision. Defined.

Definition named_backend (name : string) : option backend :=
  if String.eqb name "k8sjob" then Some backendK8s
  else if String.eqb name "subprocess" then Some backendSubprocess
  else if String.eqb name "docker" then Some backendDocker
  else if String.eqb name "webhook" then Some backendWebhook
  else None.

Definition agentBackendKind (agent : Agent) : backend :=
  match named_backend (HarnessName agent) with
  | Some b => b
  | None =>
      if negb (str_empty (K8sImage agent)) then backendK8s
      else if str_contains (quoted "docker") (HarnessConfigJSON agent) then backendDocker
      else if negb (str_empty (LocalCommand agent)) then backendSubprocess
      else if str_contains (quoted "url") (HarnessConfigJSON agent) then backendWebhook
      else backendNone
  end.

(** Registry.Get. *)
Definition registry_Get (byName : list string) (name : string) : outcome error string :=
  if bool_decide (name ∈ byName) then Ok name else Err (EUnknownHarness name).

(** Registry.Resolve with the default policy: the name of the backend. *)
Definition Resolve (byName : list string) (agent : Agent) : outcome error string :=
  let has name := bool_decide (name ∈ byName) in
  if negb (str_empty (HarnessName agent)) && has (HarnessName agent) then Ok (HarnessName agent)
  else if negb (str_empty (K8sImage agent)) && has "k8sjob" then Ok "k8sjob"
  else if str_contains (quoted "docker") (HarnessConfigJSON agent) && has "docker" then Ok "docker"
  else if negb (str_empty (LocalCommand agent)) && has "subprocess" then Ok "subprocess"
  else if str_contains (quoted "url") (HarnessConfigJSON agent) && has "webhook" then Ok "webhook"
  else if has "k8sjob" then Ok "k8sjob"
  else if has "subprocess" then Ok "subprocess"
  else if has "webhook" then Ok "webhook"
  else Err (ENoBackend (Agent_Name agent)).

(** ** Events, jobs and requests *)
Record MessageEvent := mkMessageEvent {
  EventType : string;
  ev_Message : Z;
  ev_FromAgent : string;
  ev_ToAgent : string;
  ev_Channel : string;
  ev_Body : string;
  ev_Priority : Z;
  ev_Metadata : string;
  ev_Depth : Z;
  MentionedAgents : list string
}.

Record K8sHandler := mkK8sHandler {
  h_AgentName : string;
  h_Image : string;
  h_Events : list string;
  h_Namespace : string;
  ResourcesMemory : string;
  ResourcesCPU : string;
  h_Env : gmap string string;
  TimeoutSeconds : Z;
  h_Status : string;
  h_Args : list string;
  VolumeMounts : list (string * string * bool);      (** name, mount path, read-only *)
  Volumes : list (string * string * bool)            (** name, host path, empty dir *)
}.

Record JobMessage := mkJobMessage {
  jm_MessageID : Z;
  jm_FromAgent : string;
  jm_Body : string;
  jm_Event : string;
  jm_Channel : string;
  jm_Timestamp : Z
}.

Inductive JobConditionType := JobComplete | JobFailed | JobConditionOther.
#[export] Instance JobConditionType_eq_dec : EqDecision JobConditionType.
Proof. solve_decision. Defined.

(** What the poller reads of a Job's status. *)
Record JobStatus := mkJobStatus {
  Conditions : list (JobConditionType * bool * string * string);   (** type, is "True", reason, message *)
  js_Failed : Z
}.

Record ExecRequest := mkExecRequest {
  req_AgentName : string;
  ReactiveRunID : Z;
  req_MessageID : Z;
  req_FromAgent : string;
  req_ToAgent : string;
  req_Body : string;
  req_Env : gmap string string
}.

Record ExecResult := mkExecResult { ExitCode : Z; Logs : string }.

(** A goroutine [r.runHarness(runID, agent, event, req)]. *)
Record spawn := mkSpawn {
  sp_RunID : Z;
  sp_Agent : Agent;
  sp_Event : MessageEvent;
  sp_Request : ExecRequest
}.

(** What a call starts outside the database: that goroutine, or a job in the
    cluster with the id of its row, if the row could be written. *)
Inductive launch := LaunchHarness (s : spawn) | LaunchJob (agentName jobName : string) (runID : option Z).
Definition launch_id (x : launch) : option Z := match x with LaunchHarness s => Some (sp_RunID s) | LaunchJob _ _ id => id end.
Definition launch_agent (x : launch) : string := match x with LaunchHarness s => Agent_Name (sp_Agent s) | LaunchJob n _ _ => n end.

(** What everything else a reactor call reaches leaves alone, while time
    passes. *)
Definition rest_of_world (d d' : db) : Prop :=
  reactive_runs d' = reactive_runs d /\ agents d' = agents d /\ clock d <= clock d'.
#[export] Instance rest_of_world_preorder : PreOrder rest_of_world.
Proof.
  split; [done|]. intros a b c (H1&H2&H3) (H4&H5&H6). split_and!; [congruence|congruence|lia].
Qed.

(** k8s.JobRunner and the Kubernetes client of the poller. *)
Class JobRunner := {
  IsAvailable : bool;
  runner_Namespace : string;
  CreateJob : K8sHandler -> JobMessage -> M string;
  GetJobLogs : string -> string -> M string;
  GetJob : string -> string -> M JobStatus;
  CreateJob_frame : forall h m, within rest_of_world (CreateJob h m);
  GetJobLogs_frame : forall ns job, within rest_of_world (GetJobLogs ns job);
  GetJob_frame : forall ns job, within rest_of_world (GetJob ns job)
}.

(** The harness registry: the names registered ([None]: not wired), what
    their Execute does, and the secrets injected into a request. *)
Class Harnesses := {
  registry : option (list string);
  backend_Execute : string -> Agent -> ExecRequest -> M (option ExecResult);
  error_text : error -> string;
  BuildEnvMap : Z -> Z -> Z -> M (gmap string string);
  backend_Execute_frame : forall b a r, within rest_of_world (backend_Execute b a r);
  BuildEnvMap_frame : forall u a t, within rest_of_world (BuildEnvMap u a t)
}.

(** ReactionNotifier and FailureNotifier. *)
Class Notifiers := {
  AddReaction : Z -> string -> ReactionType -> M unit;
  NotifyFailure : string -> string -> string -> string -> Z -> string -> M unit;
  AddReaction_frame : forall m a t, within rest_of_world (AddReaction m a t);
  NotifyFailure_frame : forall o a f e ms s, within rest_of_world (NotifyFailure o a f e ms s)
}.

(** ** The reactor *)
Section Reactor.
Context {HEng : Engine} {HRun : JobRunner} {HHar : Harnesses} {HNot : Notifiers}.

Definition react (messageID : Z) (agentName : string) (reactionType : ReactionType) : prog db unit :=
  if messageID <=? 0 then Ret tt
  else let! _ := AddReaction messageID agentName reactionType in Ret tt.

Definition message_ref (id : Z) : option Z := if 0 <? id then Some id else None.

Definition skipped_run (agentName : string) (event : MessageEvent) (status : RunStatus) (errorLog : string) : ReactiveRun :=
  mkReactiveRun 0 agentName (message_ref (ev_Message event)) (EventType event) (ev_Depth event)
    (ev_FromAgent event) status "" "" None None errorLog zero_time.

Definition recordSkippedRun (agentName : string) (event : MessageEvent) (status : RunStatus) (errorLog : string)
    : prog db unit :=
  let! _ := InsertRun (skipped_run agentName event status errorLog) in Ret tt.

Definition notifyFailure (agent : Agent) (event : MessageEvent) (durationMs : Z) (errorSummary : string) : prog db unit :=
  let! ownerAgent := GetHumanAgentByOwner (Agent_OwnerID agent) in
  match ownerAgent with
  | Ok owner =>
      let! _ := NotifyFailure (Agent_Name owner) (Agent_Name agent) (ev_FromAgent event) (EventType event)
                  durationMs errorSummary in Ret tt
  | _ => Ret tt
  end.

(** [strings.Trim] of the quotes of a raw value: no JSON value but a string,
    which is not raw here, starts or ends with one. *)
Definition env_text (v : EnvValue) : string := match v with EnvString s => s | EnvRaw t => t end.

(** The loop over the decoded object; a repeated key keeps its last value. *)
Definition handler_env (env : option (list (string * EnvValue))) : gmap string string :=
  foldl (fun m '(k, v) => <[k := env_text v]> m) ∅ (default [] env).

Definition buildHandler (agent : Agent) (depth : Z) : K8sHandler :=
  let small := String.eqb (K8sResourcePreset agent) "small" in
  mkK8sHandler (Agent_Name agent) (K8sImage agent) ["message.received"; "message.mentioned"] ""
    (if small then "512Mi" else "2Gi") (if small then "100m" else "500m")
    (<["SYNAPBUS_TRIGGER_DEPTH" := pretty depth]> (handler_env (K8sEnvJSON agent))) 3600 "active"
    (if String.eqb (Agent_Name agent) "social-commenter"
     then ["--max-turns"; "80"; "--model"; "claude-opus-4-6"]
     else ["--max-turns"; "50"; "--model"; "claude-sonnet-4-6"])
    [("claude-config", "/app/.claude", false); ("workspace", "/app/workspace", false)]
    [("claude-config", "/home/user/.claude", false); ("workspace", "", true)].

Definition job_body (body : string) : string :=
  if (4096 <? String.length body)%nat then String.substring 0 4096 body +:+ " [truncated]" else body.

Definition job_run (agentName : string) (event : MessageEvent) (depth : Z) (jobName ns : string) (now : Z) : ReactiveRun :=
  mkReactiveRun 0 agentName (Some (ev_Message event)) (EventType event) depth (ev_FromAgent event) RunRunning
    jobName ns (Some now) None "" zero_time.

(** The Job first, its row second; a row that cannot be written is logged. *)
Definition createJob (agent : Agent) (event : MessageEvent) (depth : Z) : M (list launch) :=
  let! sent := time_now in
  let msg := mkJobMessage (ev_Message event) (ev_FromAgent event) (job_body (ev_Body event)) (EventType event)
               (ev_Channel event) sent in
  let! job := CreateJob (buildHandler agent depth) msg in
  match job with
  | Err e =>
      let errMsg := "K8s Job creation failed: " +:+ error_text e in
      let! _ := recordSkippedRun (Agent_Name agent) event RunFailed errMsg in
      let! _ := notifyFailure agent event 0 errMsg in
      Ret (Err e)
  | Panic w => Ret (Panic w)
  | Ok jobName =>
      let! now := time_now in
      let! inserted := InsertRun (job_run (Agent_Name agent) event depth jobName runner_Namespace now) in
      let! _ := SetPendingWork (Agent_Name agent) false in
      Ret (Ok [LaunchJob (Agent_Name agent) jobName (match inserted with Ok id => Some id | _ => None end)])
  end.

Definition harness_run (agentName : string) (event : MessageEvent) (depth now : Z) : ReactiveRun :=
  mkReactiveRun 0 agentName (message_ref (ev_Message event)) (EventType event) depth (ev_FromAgent event)
    RunRunning "" "" (Some now) None "" zero_time.

Definition harness_request (agent : Agent) (event : MessageEvent) (depth runID : Z) (secrets : gmap string string) : ExecRequest :=
  mkExecRequest (Agent_Name agent) runID (ev_Message event) (ev_FromAgent event) (ev_ToAgent event) (ev_Body event)
    (secrets ∪ <["SYNAPBUS_TRIGGER_DEPTH" := pretty depth]>
              (<["SYNAPBUS_EVENT" := EventType event]>
              (<["SYNAPBUS_FROM_AGENT" := ev_FromAgent event]> ∅))).

Definition dispatchHarness (agent : Agent) (event : MessageEvent) (depth : Z) : M (list launch) :=
  let! now := time_now in
  let? runID := InsertRun (harness_run (Agent_Name agent) event depth now) in
  let! _ := SetPendingWork (Agent_Name agent) false in
  let! _ := react (ev_Message event) (Agent_Name agent) ReactionInProgress in
  let! secrets := BuildEnvMap (Agent_OwnerID agent) (Agent_ID agent) 0 in
  let env := match secrets with Ok m => m | _ => ∅ end in
  Ret (Ok [LaunchHarness (mkSpawn runID agent event (harness_request agent event depth runID env))]).

(** The precondition of the chosen backend: the reason it cannot run, if any. *)
Definition backend_refusal (kind : backend) (agent : Agent) : option string :=
  match kind with
  | backendNone => Some "no backend configured (set k8s_image, local_command, or harness_config_json.url)"
  | backendK8s => if IsAvailable then None else Some "K8s runner not available"
  | _ => match registry with
         | None => Some "harness registry not wired"
         | Some byName => match Resolve byName agent with
                          | Err e => Some ("harness resolve: " +:+ error_text e)
                          | _ => None
                          end
         end
  end.

(** A Duration of that many seconds: the product wraps around, the difference
    of two times saturates. *)
Definition seconds_wrapped (s : Z) : Z := wrap64 (s * 1000000000).
Definition seconds_saturated (s : Z) : Z := Z.max int64_min (Z.min int64_max (s * 1000000000)).

Definition on_cooldown (agent : Agent) (lastRun : option Z) (now : Z) : bool :=
  match lastRun with
  | None => false
  | Some t => seconds_saturated (now - t) <? seconds_wrapped (CooldownSeconds agent)
  end.

(** Set pending_work and record why the run did not start. *)
Definition defer_run (agentName : string) (event : MessageEvent) (status : RunStatus) : M (list launch) :=
  let! _ := SetPendingWork agentName true in
  let! _ := recordSkippedRun agentName event status "" in
  Ret (Ok []).

Definition skip_run (agentName : string) (event : MessageEvent) (status : RunStatus) (errorLog : string) : M (list launch) :=
  let! _ := recordSkippedRun agentName event status errorLog in Ret (Ok []).

(** "All checks pass": dispatch through the backend. *)
Definition start_run (agent : Agent) (kind : backend) (event : MessageEvent) (depth : Z) : M (list launch) :=
  if bool_decide (kind = backendK8s)
  then createJob agent event depth
  else dispatchHarness agent event depth.

(** Steps 6 to 10: depth, daily budget, cooldown, busy, dispatch. *)
Definition rate_limits (agent : Agent) (kind : backend) (agentName : string) (event : MessageEvent) : M (list launch) :=
  let depth := ev_Depth event in
  if MaxTriggerDepth agent <=? depth then skip_run agentName event RunDepthExceeded ""
  else
    let? todayCount := CountTodayRuns agentName in
    if DailyTriggerBudget agent <=? todayCount then skip_run agentName event RunBudgetExhausted ""
    else
      let? lastRun := GetLastRunTime agentName in
      let! now := time_now in
      if on_cooldown agent lastRun now then defer_run agentName event RunCooldownSkipped
      else
        let? running := IsAgentRunning agentName in
        if running then defer_run agentName event RunQueued
        else start_run agent kind event depth.

Definition evaluateTrigger (agentName : string) (event : MessageEvent) : M (list launch) :=
  if String.eqb (ev_FromAgent event) "system" then Ret (Ok [])
  else
    let! r := GetAgentByName agentName in
    match r with
    | Err _ => Ret (Ok [])
    | Panic w => Ret (Panic w)
    | Ok agent =>
        if negb (bool_decide (Agent_TriggerMode agent = TriggerModeReactive)) then Ret (Ok [])
        else if bool_decide (is_Some (QuarantinedAt agent))
        then skip_run agentName event RunFailed ("agent quarantined: " +:+ QuarantineReason agent)
        else match backend_refusal (agentBackendKind agent) agent with
             | Some reason => skip_run agentName event RunFailed reason
             | None => rate_limits agent (agentBackendKind agent) agentName event
             end
    end.

(** "@mentions in channel messages": everyone mentioned but the author. *)
Fixpoint trigger_each (mentioned : list string) (event : MessageEvent) : M (list launch) :=
  match mentioned with
  | [] => Ret (Ok [])
  | m :: rest =>
      if String.eqb m (ev_FromAgent event) then trigger_each rest event
      else
        let! r := evaluateTrigger m event in
        match r with
        | Panic w => Ret (Panic w)
        | _ => let? spawned := trigger_each rest event in
               Ret (Ok (match r with Ok s => s | _ => [] end ++ spawned))
        end
  end.

Definition Dispatch (event : MessageEvent) : M (list launch) :=
  if String.eqb (EventType event) "message.received" then evaluateTrigger (ev_ToAgent event) event
  else if String.eqb (EventType event) "message.mentioned" then trigger_each (MentionedAgents event) event
  else Ret (Ok []).

Definition coalesced_event (agentName : string) : MessageEvent :=
  mkMessageEvent "message.received" 0 "__coalesced__" agentName ""
    "Coalesced trigger: process all pending messages." 0 "" 0 [].

Definition checkPendingWork (agentName : string) : M (list launch) :=
  let! r := GetAgentByName agentName in
  match r with
  | Ok agent =>
      if negb (PendingWork agent) then Ret (Ok [])
      else
        let! _ := SetPendingWork agentName false in
        let! s := evaluateTrigger agentName (coalesced_event agentName) in
        Ret (match s with Ok l => Ok l | Err _ => Ok [] | Panic w => Panic w end)
  | Err _ => Ret (Ok [])
  | Panic w => Ret (Panic w)
  end.

(** Registry.Execute: resolve, then run the backend. *)
Definition registry_Execute (agent : Agent) (req : ExecRequest) : M (option ExecResult) :=
  match registry with
  | None => Ret (Panic "nil registry")
  | Some byName => match Resolve byName agent with
                   | Ok name => backend_Execute name agent req
                   | Err e => Ret (Err e)
                   | Panic w => Ret (Panic w)
                   end
  end.

Definition last_bytes (n : nat) (s : string) : string :=
  if (n <? String.length s)%nat then String.substring (String.length s - n) n s else s.

(** The terminal status of a run and its log. *)
Definition harness_outcome (res : outcome error (option ExecResult)) : RunStatus * string :=
  match res with
  | Err e => (RunFailed, error_text e)
  | Ok (Some r) => if ExitCode r =? 0 then (RunSucceeded, "") else (RunFailed, last_bytes (Z.to_nat 8192) (Logs r))
  | _ => (RunSucceeded, "")
  end.

(** The goroutine.  Its context expires an hour after it starts: from then on
    the statements that use it fail. *)
Definition runHarness (s : spawn) : M (list launch) :=
  let agent := sp_Agent s in
  let event := sp_Event s in
  let! startedAt := time_now in
  let! res := registry_Execute agent (sp_Request s) in
  match res with
  | Panic w => Ret (Panic w)
  | _ =>
      let! completedAt := time_now in
      let '(status, errorLog) := harness_outcome res in
      let! _ := (if 3600 <=? completedAt - startedAt then Ret (Err EDb)
                 else CompleteRun (sp_RunID s) status errorLog completedAt) in
      let! _ := (match status with
                 | RunFailed =>
                     let! _ := react (ev_Message event) (Agent_Name agent) ReactionReject in
                     notifyFailure agent event (1000 * (completedAt - startedAt)) errorLog
                 | _ => react (ev_Message event) (Agent_Name agent) ReactionDone
                 end) in
      checkPendingWork (Agent_Name agent)
  end.

(** "Create a synthetic event for the retry". *)
Definition retry_event (run : ReactiveRun) : MessageEvent :=
  mkMessageEvent (TriggerEvent run) (default 0 (TriggerMessageID run)) (TriggerFrom run) (Run_AgentName run) "" "" 0 ""
    (TriggerDepth run) [].

Definition RetryRun (runID : Z) : M ReactiveRun :=
  let? run := GetRunByID runID in
  if negb (bool_decide (Run_Status run = RunFailed)) then Ret (Err (ERunNotFailed (Run_Status run)))
  else
    let? agent := GetAgentByName (Run_AgentName run) in
    let? _ := createJob agent (retry_event run) (TriggerDepth run) in
    let! r := ListRuns (Run_AgentName run) (Some RunRunning) 1 0 in
    match r with
    | Ok (run' :: _, _) => Ret (Ok run')
    | Panic w => Ret (Panic w)
    | _ => Ret (Err ERetryRunLost)
    end.

(** ** The poller *)

(** [strings.Split(logs, "\n")], the last 100 of them. *)
Fixpoint split_lines_from (s cur : string) : list string :=
  match s with
  | EmptyString => [cur]
  | String a r => if bool_decide (Ascii.nat_of_ascii a = 10%nat) then cur :: split_lines_from r EmptyString
                  else split_lines_from r (cur +:+ String a EmptyString)
  end.
Definition newline : string := String (Ascii.ascii_of_nat 10) EmptyString.
Definition last_lines (n : nat) (s : string) : string :=
  let lines := split_lines_from s EmptyString in
  join newline (drop (length lines - n) lines).

Definition poller_event (run : ReactiveRun) : MessageEvent :=
  mkMessageEvent (TriggerEvent run) 0 (TriggerFrom run) "" "" "" 0 "" 0 [].

Definition handleJobComplete (run : ReactiveRun) (success : bool) (failureReason : string) : M (list launch) :=
  let! now := time_now in
  let! _ :=
    (if success then let! _ := CompleteRun (Run_ID run) RunSucceeded "" now in Ret tt
     else
       let! logs := GetJobLogs (K8sNamespace run) (K8sJobName run) in
       let errorLog := match logs with
                       | Ok l => if str_empty l then failureReason else last_lines 100 l
                       | _ => failureReason
                       end in
       let! _ := CompleteRun (Run_ID run) RunFailed errorLog now in
       let durationMs := match StartedAt run with Some t => 1000 * (now - t) | None => 0 end in
       let! agent := GetAgentByName (Run_AgentName run) in
       match agent with
       | Ok a => notifyFailure a (poller_event run) durationMs
                   ("Job " +:+ K8sJobName run +:+ " failed: " +:+ failureReason)
       | _ => Ret tt
       end) in
  checkPendingWork (Run_AgentName run).

(** The first condition that is true and terminal, else the count of failed
    pods: whether and how the job ended. *)
Definition job_verdict (job : JobStatus) : option (bool * string) :=
  match head (filter (fun c => c.1.1.2 = true /\ c.1.1.1 <> JobConditionOther) (Conditions job)) with
  | Some (JobComplete, _, _, _) => Some (true, EmptyString)
  | Some (_, _, reason, message) =>
      Some (false, if str_empty message then reason else reason +:+ ": " +:+ message)
  | None => if 0 <? js_Failed job then Some (false, "job failed (pod failure)") else None
  end.

Definition checkJob (run : ReactiveRun) : M (list launch) :=
  let! job := GetJob (K8sNamespace run) (K8sJobName run) in
  match job with
  | Ok j => match job_verdict j with
            | Some (success, reason) => handleJobComplete run success reason
            | None => Ret (Ok [])
            end
  | Err _ => Ret (Ok [])
  | Panic w => Ret (Panic w)
  end.

Fixpoint check_jobs (runs : list ReactiveRun) : M (list launch) :=
  match runs with
  | [] => Ret (Ok [])
  | run :: rest =>
      if str_empty (K8sJobName run) || str_empty (K8sNamespace run) then check_jobs rest
      else let? s := checkJob run in
           let? s' := check_jobs rest in Ret (Ok (s ++ s'))
  end.

Definition pollActiveRuns : M (list launch) :=
  let! runs := GetActiveRuns in
  match runs with
  | Ok l => check_jobs l
  | Err _ => Ret (Ok [])
  | Panic w => Ret (Panic w)
  end.
End Reactor.

(** ** The notifiers of cmd/synapbus/main.go *)
Definition duration_text (durationMs : Z) : string :=
  if 0 <? durationMs
  then let secs := Z.quot durationMs 1000 in
       if 60 <=? secs then pretty (Z.quot secs 60) +:+ "m" +:+ pretty (Z.rem secs 60) +:+ "s"
       else pretty secs +:+ "s"
  else "< 1s".

Definition truncateError (s : string) (maxLen : nat) : string :=
  if (String.length s <=? maxLen)%nat then s else String.substring 0 maxLen s +:+ "...".

Definition failure_body (agentName triggerFrom triggerEvent : string) (durationMs : Z) (errorSummary : string) : string :=
  let nl := newline in
  "⚠️ **Reactive run failed** for **" +:+ agentName +:+ "**" +:+ nl +:+ nl +:+
  "**Trigger**: " +:+ triggerEvent +:+ " from " +:+ triggerFrom +:+ nl +:+
  "**Duration**: " +:+ duration_text durationMs +:+ nl +:+
  "**Error**: " +:+ truncateError errorSummary 500 +:+ nl +:+ nl +:+
  "View details in Agent Runs page.".

Section Wiring.
Context {HEng : Engine} {HJson : GoJson} {HAtt : AttachmentLinker}.

Definition DM_NotifyFailure (ownerAgentName agentName triggerFrom triggerEvent : string) (durationMs : Z)
    (errorSummary : string) : M unit :=
  let? _ := SendMessage "system" ownerAgentName
              (failure_body agentName triggerFrom triggerEvent durationMs errorSummary)
              (mkSendOptions "" 7 RawEmpty None None None []) in
  Ret (Ok tt).

(** reactorReactionAdapter: a toggle, whose answer is dropped. *)
Definition reactor_AddReaction (messageID : Z) (agentName : string) (reactionType : ReactionType) : M unit :=
  let? _ := Toggle (HTrust := main_wiring) true messageID agentName reactionType RawEmpty in Ret (Ok tt).

Lemma DM_NotifyFailure_within o a f e ms s : within rest_of_world (DM_NotifyFailure o a f e ms s).
Proof.
  unfold DM_NotifyFailure, SendMessage, send_persist, send_check_recipient, send_find_conversation,
    send_ensure_conversation, InsertConversation, InsertMessage.
  within_steps.
Qed.

Lemma reactor_AddReaction_within m a t : within rest_of_world (reactor_AddReaction m a t).
Proof.
  unfold reactor_AddReaction, Toggle, capture_state, toggle_off, toggle_on, check_claim,
    notifyStateChangeIfNeeded, adjustTrustIfNeeded, GetAgentType, GetMessageAuthor, TA_RecordApproval,
    TA_RecordRejection, main_wiring, agent_type, message_author, trust_approval, trust_rejection,
    RecordApproval, RecordRejection, UpsertScore, GetMessageByID, Insert.
  within_steps; apply within_exec_o; intros d.
  1: by destruct (reaction_insertable _ d).
  all: by destruct (upsert_score _ _ _ _ _).
Qed.

(** What the reactor relies on holds of the components it is wired to. *)
#[export] Instance main_notifiers : Notifiers := {|
  AddReaction := reactor_AddReaction;
  NotifyFailure := DM_NotifyFailure;
  AddReaction_frame := reactor_AddReaction_within;
  NotifyFailure_frame := DM_NotifyFailure_within
|}.
End Wiring.
