(* ===== verification/ReactorSpec.v ===== *)
(** * The reactor: when a run starts, limits no history exceeds, backends

    [may_trigger] is what the decision chain checks; the theorems say that no
    run starts without it, and that, for calls one after the other, an agent
    never has two runs on record at a time nor more runs in a day than its
    budget, and what is started is on record but for a job whose row could not
    be written. *)
From S2P Require Import Prelude Prog Table Schema Messaging MessagingQueries Trust Reactions Agents AgentsSpec Reactor.

(** ** Counting *)
Lemma count_if_app {A} (p : A -> bool) xs ys : count_if p (xs ++ ys) = count_if p xs + count_if p ys.
Proof. unfold count_if. rewrite filter_app, length_app. lia. Qed.

Lemma count_if_one {A} (p : A -> bool) x : count_if p [x] = if p x then 1 else 0.
Proof. unfold count_if. rewrite filter_cons. by destruct (p x). Qed.

Lemma count_if_le {A} (p q : A -> bool) xs :
  (forall x, x ∈ xs -> p x = true -> q x = true) -> count_if p xs <= count_if q xs.
Proof.
  unfold count_if. induction xs as [|x xs IH]; intros H; [done|]. rewrite !filter_cons.
  assert (forall y, y ∈ xs -> p y = true -> q y = true) as H' by (intros y Hy; apply H; set_solver).
  specialize (IH H'). specialize (H x ltac:(set_solver)).
  destruct (decide (p x = true)) as [Hp|]; destruct (decide (q x = true)) as [Hq|Hq]; simpl; try lia.
  by destruct (Hq (H Hp)).
Qed.

Lemma count_if_map_if {A} (p c : A -> bool) f (xs : list A) :
  (forall x, c x = true -> p (f x) = true -> p x = true) -> count_if p (map_if c f xs) <= count_if p xs.
Proof.
  intros H. unfold map_if. induction xs as [|x xs IH]; [done|].
  change (count_if p ([if c x then f x else x] ++ ((fun x => if c x then f x else x) <$> xs)) <= count_if p ([x] ++ xs)).
  rewrite !count_if_app, !count_if_one. destruct (c x) eqn:Ec; [|lia].
  destruct (p (f x)) eqn:Ep; [rewrite (H x) by done|destruct (p x)]; lia.
Qed.

(** ** When a run may start *)
Record may_trigger (agentName : string) (event : MessageEvent) (kind : backend) (a : Agent) (d : db) : Prop := {
  mt_agent : find_row (active_named agentName) (agents d) = Some a;
  mt_from : ev_FromAgent event <> "system";
  mt_mode : Agent_TriggerMode a = TriggerModeReactive;
  mt_trusted : QuarantinedAt a = None;
  mt_kind : agentBackendKind a = kind;
  mt_depth : ev_Depth event < MaxTriggerDepth a;
  mt_budget : affected (today_run agentName (clock d)) (reactive_runs d) < DailyTriggerBudget a;
  mt_cooldown : on_cooldown a (last_run_time agentName d) (clock d) = false;
  mt_idle : affected (running_run agentName) (reactive_runs d) = 0
}.

(** ** The tables, and their limits *)
Record runs_ok (d : db) : Prop := {
  rk_agents : agents_ok d;
  rk_table : table_ok (reactive_runs d);
  rk_past : forall r, r ∈ rows (reactive_runs d) -> Run_CreatedAt r <= clock d;
  rk_started : forall r, r ∈ rows (reactive_runs d) -> is_Some (StartedAt r) -> countable (Run_Status r) = true;
  rk_running : forall r, r ∈ rows (reactive_runs d) -> Run_Status r = RunRunning -> is_Some (StartedAt r)
}.

(** Runs an agent started on the day that begins at [day]. *)
Definition started_on (agentName : string) (day : Z) (r : ReactiveRun) : bool :=
  of_agent agentName r && bool_decide (is_Some (StartedAt r)) && (start_of_day (Run_CreatedAt r) =? day).

Record limits_ok (d : db) : Prop := {
  lk_runs : runs_ok d;
  lk_one : forall agentName, affected (running_run agentName) (reactive_runs d) <= 1;
  lk_budget : forall a day, a ∈ rows (agents d) ->
    affected (started_on (Agent_Name a) day) (reactive_runs d) <= Z.max 0 (DailyTriggerBudget a)
}.

Lemma start_of_day_le now : start_of_day now <= now.
Proof. unfold start_of_day. pose proof (Z.mod_pos_bound now 86400). lia. Qed.

Lemma start_of_day_mono a b : a <= b -> start_of_day a <= start_of_day b.
Proof.
  unfold start_of_day. intros H.
  rewrite (Z.mod_eq a 86400), (Z.mod_eq b 86400) by lia.
  pose proof (Z.div_le_mono a b 86400 ltac:(lia) H). lia.
Qed.

Lemma start_of_day_idem a : start_of_day (start_of_day a) = start_of_day a.
Proof.
  unfold start_of_day. rewrite (Z.mod_eq a 86400) at 2 by lia.
  replace (a - (a - 86400 * (a / 86400))) with ((a / 86400) * 86400) by lia. rewrite Z.mod_mul by lia. lia.
Qed.

Lemma runs_rest d d' : rest_of_world d d' -> runs_ok d -> runs_ok d'.
Proof.
  intros (Hr&Ha&Hc) [[H1 H2 H3] H4 H5 H6 H7]. split; [split|..]; rewrite ?Hr, ?Ha; try done.
  intros r H. specialize (H5 r H). lia.
Qed.

Lemma limits_rest d d' : rest_of_world d d' -> limits_ok d -> limits_ok d'.
Proof.
  intros Hrest [H1 H2 H3]. split; [by eapply runs_rest|..]; destruct Hrest as (Hr&Ha&_); by rewrite ?Hr, ?Ha.
Qed.

(** A row for an evaluation that started nothing. *)
Definition refused_run (r : ReactiveRun) : Prop := Run_Status r <> RunRunning /\ StartedAt r = None.

Definition with_run (r : ReactiveRun) (now : Z) (d : db) : db :=
  set_reactive_runs (insert_row (run_row r now) (reactive_runs d)) d.

Lemma runs_insert r d :
  (is_Some (StartedAt r) -> countable (Run_Status r) = true) -> (Run_Status r = RunRunning -> is_Some (StartedAt r)) ->
  runs_ok d -> runs_ok (with_run r (clock d) d).
Proof.
  intros Hs Hr [[H1 H2 H3] H4 H5 H6 H7]. split; [done|..]; simpl.
  - by apply table_ok_insert.
  - intros x. rewrite elem_of_app, list_elem_of_singleton. intros [?| ->]; [auto|]. simpl. lia.
  - intros x. rewrite elem_of_app, list_elem_of_singleton. intros [?| ->]; auto.
  - intros x. rewrite elem_of_app, list_elem_of_singleton. intros [?| ->]; auto.
Qed.

Lemma affected_insert (p : ReactiveRun -> bool) r now (t : table ReactiveRun) :
  affected p (insert_row (run_row r now) t) = affected p t + if p (run_row r now (next_id t)) then 1 else 0.
Proof. unfold affected. simpl. by rewrite count_if_app, count_if_one. Qed.

Lemma limits_refused r d : refused_run r -> limits_ok d -> limits_ok (with_run r (clock d) d).
Proof.
  intros [Hs Hn] [H1 H2 H3]. split.
  - apply runs_insert; [|done|done]. rewrite Hn. by intros [].
  - intros n. unfold with_run. simpl. rewrite affected_insert. unfold running_run at 2. simpl.
    rewrite (bool_decide_eq_false_2 _ Hs), andb_false_r, Z.add_0_r. apply H2.
  - intros a day Ha. unfold with_run. simpl. rewrite affected_insert. unfold started_on at 2. simpl.
    rewrite Hn. rewrite bool_decide_false by (by intros []). rewrite andb_false_r, Z.add_0_r. by apply H3.
Qed.

(** Starting a run the decision chain allowed, possibly on a later day. *)
Lemma limits_start agentName event kind a r d0 d :
  may_trigger agentName event kind a d0 -> rest_of_world d0 d -> limits_ok d0 ->
  Run_AgentName r = agentName -> Run_Status r = RunRunning -> is_Some (StartedAt r) ->
  limits_ok (with_run r (clock d) d).
Proof.
  intros Hmay Hrest Hok Hname Hrun Hst. pose proof (limits_rest _ _ Hrest Hok) as [H1 H2 H3].
  destruct Hrest as (Er&Ea&Hc). destruct Hmay as [Ha _ _ _ _ _ Hb _ Hi]. split.
  - apply runs_insert; [|done|done]. by rewrite Hrun.
  - intros n. unfold with_run. simpl. rewrite affected_insert. unfold running_run at 2, of_agent. simpl.
    rewrite Hname, Hrun. destruct (String.eqb_spec agentName n) as [<-|]; simpl.
    + rewrite Er, Hi. lia.
    + rewrite Z.add_0_r. apply H2.
  - intros b day Hin. unfold with_run. simpl. rewrite affected_insert. unfold started_on at 2, of_agent. simpl.
    rewrite Hname. destruct (String.eqb_spec agentName (Agent_Name b)) as [En|]; simpl.
    2: { rewrite Z.add_0_r. by apply H3. }
    rewrite (bool_decide_eq_true_2 _ Hst). simpl.
    destruct (Z.eqb_spec (start_of_day (clock d)) day) as [<-|]; [|rewrite Z.add_0_r; by apply H3].
    assert (b = a) as ->.
    { apply find_row_Some in Ha as [Hact Hina]. unfold active_named in Hact. guards.
      eapply (NoDup_fmap_unique Agent_Name); [apply H1|done|by rewrite Ea|congruence]. }
    rewrite <- En. enough (affected (started_on agentName (start_of_day (clock d))) (reactive_runs d)
      <= affected (today_run agentName (clock d0)) (reactive_runs d0)) by lia.
    rewrite Er. apply count_if_le. intros x Hx. unfold started_on, today_run. intros Hp. guards.
    apply andb_true_iff. split; [apply andb_true_iff; split|]; [done| |].
    + destruct Hok as [[_ _ _ Hs _] _ _]. by apply Hs.
    + apply Z.leb_le. pose proof (start_of_day_le (Run_CreatedAt x)). pose proof (start_of_day_mono _ _ Hc). lia.
Qed.

Lemma limits_complete id status log now d :
  status = RunSucceeded \/ status = RunFailed -> limits_ok d ->
  limits_ok (set_reactive_runs (update_rows (by_id id) (completed_run status log now) (reactive_runs d)) d).
Proof.
  intros Hst [[H1 H2 H3 H4 H5] H6 H7].
  assert (status <> RunRunning /\ countable status = true) as [Hn Hc] by (destruct Hst as [-> | ->]; done).
  split; [split; [by destruct H1; split|..]|..]; simpl.
  - by apply table_ok_update.
  - intros r. rewrite elem_of_map_if. intros (x&Hx&->). destruct (by_id id x); simpl; auto.
  - intros r. rewrite elem_of_map_if. intros (x&Hx&->). destruct (by_id id x); simpl; [done|auto].
  - intros r. rewrite elem_of_map_if. intros (x&Hx&->). destruct (by_id id x); simpl; [done|auto].
  - intros n. etrans; [|apply (H6 n)]. apply count_if_map_if. intros x _. unfold running_run. simpl.
    rewrite (bool_decide_eq_false_2 _ Hn), andb_false_r. done.
  - intros a day Ha. etrans; [|apply (H7 a day Ha)]. apply count_if_map_if. by intros x _.
Qed.

Lemma limits_pending name b d : limits_ok d ->
  limits_ok (set_agents (update_rows (active_named name) (with_pending b) (agents d)) d).
Proof.
  intros [[H1 H2 H3 H4 H5] H6 H7].
  destruct (agents_update_step (active_named name) (with_pending b) d) as [H1' _]; [by repeat split|done|].
  split; [split; [done|exact H2|exact H3|exact H4|exact H5]|exact H6|]. simpl. intros a day. rewrite elem_of_map_if. intros (x&Hx&->).
  pose proof (H7 x day Hx). by destruct (active_named name x).
Qed.

(** ** Calls that keep the limits, whatever fails *)

(** No run on record disappears or changes its agent or its start. *)
Definition tracked (d d' : db) : Prop :=
  next_id (reactive_runs d) <= next_id (reactive_runs d') /\
  forall r, r ∈ rows (reactive_runs d) -> exists r', r' ∈ rows (reactive_runs d') /\
    Run_ID r' = Run_ID r /\ Run_AgentName r' = Run_AgentName r /\ StartedAt r' = StartedAt r.
#[local] Instance tracked_preorder : PreOrder tracked.
Proof.
  split; [intros d; split; [done|]; intros r Hr; by exists r|]. intros a b c [H1 H2] [H3 H4]. split; [lia|].
  intros r Hr. destruct (H2 r Hr) as (r1&Hr1&E1&E2&E3). destruct (H4 r1 Hr1) as (r2&Hr2&F1&F2&F3). exists r2. split_and!; congruence.
Qed.
Lemma tracked_rest d d' : rest_of_world d d' -> tracked d d'.
Proof. intros (E&_). unfold tracked. rewrite E. split; [done|]. intros r Hr. by exists r. Qed.
Lemma tracked_insert r d : tracked d (with_run r (clock d) d).
Proof. split; simpl; [lia|]. intros x Hx. exists x. split; [|done]. apply elem_of_app. by left. Qed.

Definition on_track (d d' : db) : Prop := limits_ok d' /\ tracked d d'.
Lemma on_track_rest d d' : limits_ok d -> rest_of_world d d' -> on_track d d'.
Proof. intros Hd H. split; [by eapply limits_rest|by apply tracked_rest]. Qed.
Lemma on_track_then d0 d d' : on_track d0 d -> on_track d d' -> on_track d0 d'.
Proof. intros [_ H1] [H2 H3]. split; [done|by etrans]. Qed.

(** What calls start is on record: under an id of its own, which was free
    before, with the agent and the start. *)
Definition launched (o : outcome error (list launch)) : list launch := match o with Ok l => l | _ => [] end.
Definition on_row (x : launch) (id : Z) (d : db) : Prop :=
  exists r, r ∈ rows (reactive_runs d) /\ Run_ID r = id /\ Run_AgentName r = launch_agent x /\ is_Some (StartedAt r).
Definition fresh (d : db) (l : list launch) (d' : db) : Prop :=
  NoDup (omap launch_id l) /\
  forall x id, x ∈ l -> launch_id x = Some id -> on_row x id d' /\ next_id (reactive_runs d) <= id < next_id (reactive_runs d').

Lemma on_row_later x id d d' : tracked d d' -> on_row x id d -> on_row x id d'.
Proof.
  intros [_ H] (r&Hr&E1&E2&E3). destruct (H r Hr) as (r'&Hr'&F1&F2&F3). exists r'. split_and!; [done|congruence|congruence|by rewrite F3].
Qed.
Lemma fresh_nil d d' : fresh d [] d'.
Proof. split; [constructor|]. intros x id Hx. by apply elem_of_nil in Hx. Qed.
Lemma fresh_one d x id d' : launch_id x = Some id -> on_row x id d' -> next_id (reactive_runs d) <= id < next_id (reactive_runs d') -> fresh d [x] d'.
Proof.
  intros E Hx Hi. split; [|by intros y i ->%list_elem_of_singleton Ei; simplify_eq]. cbn. rewrite E. apply NoDup_singleton.
Qed.
Lemma fresh_unrecorded d n j d' : fresh d [LaunchJob n j None] d'.
Proof. split; [constructor|]. by intros x id ->%list_elem_of_singleton [=]. Qed.
Lemma fresh_after d d1 l d' : tracked d d1 -> fresh d1 l d' -> fresh d l d'.
Proof. intros [H _] [H1 H2]. split; [done|]. intros x id Hx E. destruct (H2 x id Hx E). split; [done|lia]. Qed.
Lemma fresh_before d l d1 d' : fresh d l d1 -> tracked d1 d' -> fresh d l d'.
Proof.
  intros [H1 H2] H. split; [done|]. intros x id Hx E. destruct (H2 x id Hx E). split; [by eapply on_row_later|]. destruct H. lia.
Qed.
Lemma fresh_app d l1 d1 l2 d' : fresh d l1 d1 -> tracked d d1 -> tracked d1 d' -> fresh d1 l2 d' -> fresh d (l1 ++ l2) d'.
Proof.
  intros F1 T T' F2. pose proof (fresh_before _ _ _ _ F1 T') as F1'. pose proof (fresh_after _ _ _ _ T F2) as F2'. split.
  - rewrite omap_app. apply NoDup_app. split_and!; [apply F1| |apply F2].
    intros id (x&Hx&E)%list_elem_of_omap (y&Hy&E')%list_elem_of_omap. destruct F1 as [_ F1], F2 as [_ F2].
    destruct (F1 x id Hx E) as [_ ?], (F2 y id Hy E') as [_ ?]. lia.
  - intros x id [Hx|Hx]%elem_of_app E; [by apply F1'|by apply F2'].
Qed.
Lemma fresh_sublist d l l' d' : l' `sublist_of` l -> fresh d l d' -> fresh d l' d'.
Proof.
  intros Hs [H1 H2]. split; [|intros x id Hx; apply H2; by eapply elem_of_sublist].
  eapply sublist_NoDup; [exact H1|]. clear -Hs. induction Hs as [|x l1 l2 H IH|x l1 l2 H IH]; cbn; [done|..]; destruct (launch_id x); by constructor || done.
Qed.

Definition keeps {A} (p : prog db A) : Prop := forall d, limits_ok d -> wp p (fun _ d' => on_track d d') d.

Lemma keeps_ret {A} (a : A) : keeps (Ret a).
Proof. intros d Hd. by split. Qed.
#[local] Hint Resolve keeps_ret : core.

Lemma keeps_bind {A B} (p : prog db A) (f : A -> prog db B) : keeps p -> (forall a, keeps (f a)) -> keeps (bind p f).
Proof.
  intros Hp Hf d Hd. apply wp_bind. eapply wp_mono; [|by apply Hp]. intros a d1 [H1 H]. eapply wp_mono; [|by apply Hf].
  intros b d2 H2. by eapply on_track_then.
Qed.

Lemma keeps_rest {A} (p : prog db A) : within rest_of_world p -> keeps p.
Proof.
  intros Hp d Hd. eapply wp_mono; [|apply (within_wp rest_of_world p d Hp)]. intros a d' H. by apply on_track_rest.
Qed.

Lemma keeps_pending name b : keeps (SetPendingWork name b).
Proof. intros d Hd. cbn. split; [|by split]. split; [by apply limits_pending|]. split; [done|]. intros r Hr. by exists r. Qed.

Lemma keeps_complete id status log now : status = RunSucceeded \/ status = RunFailed -> keeps (CompleteRun id status log now).
Proof.
  intros Hst d Hd. cbn. split; [|by split]. split; [by apply limits_complete|]. split; [done|]. intros r Hr. simpl.
  exists (if by_id id r then completed_run status log now r else r). split; [by apply elem_of_map_if; exists r|by destruct (by_id id r)].
Qed.

Lemma keeps_insert r : refused_run r -> keeps (InsertRun r).
Proof. intros Hr d Hd. cbn. split; [|by split]. split; [by apply limits_refused|apply tracked_insert]. Qed.

(** Calls that answer with what they start. *)
Definition starts (p : M (list launch)) : Prop :=
  forall d, limits_ok d -> wp p (fun o d' => on_track d d' /\ fresh d (launched o) d') d.
Lemma starts_none o : launched o = [] -> starts (Ret o).
Proof. intros E d Hd. cbn. rewrite E. split; [by split|apply fresh_nil]. Qed.
Lemma starts_after {A} (p : prog db A) (f : A -> M (list launch)) : keeps p -> (forall a, starts (f a)) -> starts (bind p f).
Proof.
  intros Hp Hf d Hd. apply wp_bind. eapply wp_mono; [|by apply Hp]. intros a d1 [H1 HT]. eapply wp_mono; [|by apply Hf].
  intros o d2 [H2 F]. split; [by eapply on_track_then|by eapply fresh_after].
Qed.
Lemma starts_after_ok {A} (p : M A) (f : A -> M (list launch)) : keeps p -> (forall a, starts (f a)) -> starts (bind_ok p f).
Proof. intros Hp Hf. apply starts_after; [done|]. intros [a|e|w]; [apply Hf|by apply starts_none..]. Qed.
(** One call after another, both answers counted. *)
Lemma starts_append (p : M (list launch)) l d0 d : starts p -> on_track d0 d -> fresh d0 l d ->
  wp (let? s := p in Ret (Ok (l ++ s))) (fun o d' => on_track d0 d' /\ fresh d0 (launched o) d') d.
Proof.
  intros Hp [H1 T1] F1. apply wp_bind_ok. eapply wp_mono; [|by apply Hp]. intros o d2 [[H2 T2] F2].
  assert (on_track d0 d2) by (split; [done|by etrans]).
  destruct o as [s|e|w]; split; try done; [by eapply fresh_app|apply fresh_nil..].
Qed.
Lemma starts_map (p : M (list launch)) (f : outcome error (list launch) -> outcome error (list launch)) :
  starts p -> (forall o, launched (f o) `sublist_of` launched o) -> starts (let! o := p in Ret (f o)).
Proof.
  intros Hp Hf d Hd. apply wp_bind. eapply wp_mono; [|by apply Hp]. intros o d1 [H1 F]. cbn. split; [done|].
  eapply fresh_sublist; [apply Hf|exact F].
Qed.

Section Calls.
Context {HEng : Engine} {HRun : JobRunner} {HHar : Harnesses} {HNot : Notifiers}.

Lemma keeps_skipped name ev status log : status <> RunRunning -> keeps (recordSkippedRun name ev status log).
Proof. intros Hs. apply keeps_bind; [|done]. by apply keeps_insert. Qed.

Lemma react_within m n t : within rest_of_world (react m n t).
Proof. unfold react. destruct (_ <=? _); [done|]. apply within_bind; [apply AddReaction_frame|done]. Qed.

Lemma notify_within a ev ms s : within rest_of_world (notifyFailure a ev ms s).
Proof.
  apply within_bind; [apply within_query_o, _|]. intros [o|?|?]; [|done|done].
  apply within_bind; [apply NotifyFailure_frame|done].
Qed.

(** Insert a run the decision chain allowed in [d0]. *)
Lemma wp_start agentName event kind a r d0 d :
  may_trigger agentName event kind a d0 -> rest_of_world d0 d -> limits_ok d0 ->
  Run_AgentName r = agentName -> Run_Status r = RunRunning -> is_Some (StartedAt r) ->
  wp (InsertRun r) (fun o d' => on_track d d' /\ forall id x, o = Ok id -> launch_id x = Some id -> launch_agent x = agentName -> fresh d [x] d') d.
Proof.
  intros Hmay Hrest Hok Hn Hs Hst. pose proof (limits_rest _ _ Hrest Hok). cbn. split; [|by split].
  split; [split; [by eapply limits_start|apply tracked_insert]|]. intros id x [= <-] Ex Ea. eapply fresh_one; [exact Ex| |simpl; lia].
  exists (run_row r (clock d) (next_id (reactive_runs d))). simpl. split; [apply elem_of_app; right; by apply list_elem_of_singleton|].
  by rewrite Ea.
Qed.

Lemma active_name name a d : find_row (active_named name) (agents d) = Some a -> Agent_Name a = name.
Proof. intros H. apply find_row_Some in H as [H _]. unfold active_named in H. by guards. Qed.

Lemma starts_skipped_then {A} name ev status log (q : prog db A) (o : outcome error (list launch)) :
  status <> RunRunning -> keeps q -> launched o = [] ->
  starts (let! _ := recordSkippedRun name ev status log in let! _ := q in Ret o).
Proof. intros Hs Hq Ho. apply starts_after; [by apply keeps_skipped|]. intros _. apply starts_after; [done|]. intros _. by apply starts_none. Qed.

(** The rest of a call, which answers with something of the same record. *)
Lemma fresh_same d x y d' : launch_id y = launch_id x -> launch_agent y = launch_agent x -> fresh d [x] d' -> fresh d [y] d'.
Proof.
  intros Ei Ea [H1 H2]. split; [cbn in *; by rewrite Ei|]. intros z id ->%list_elem_of_singleton E. rewrite Ei in E.
  destruct (H2 x id) as [Hrow ?]; [by apply list_elem_of_singleton|done|]. split; [|done]. unfold on_row in *. by rewrite Ea.
Qed.
Lemma wp_started {A} (p : prog db A) (g : A -> outcome error (list launch)) d0 d x :
  keeps p -> on_track d0 d -> fresh d0 [x] d -> (forall a, exists y, g a = Ok [y] /\ launch_id y = launch_id x /\ launch_agent y = launch_agent x) ->
  wp (let! a := p in Ret (g a)) (fun o d' => on_track d0 d' /\ fresh d0 (launched o) d') d.
Proof.
  intros Hp Hd F Hg. apply wp_bind. eapply wp_mono; [|apply Hp, Hd]. intros a d' H. cbn. split; [by eapply on_track_then|].
  destruct (Hg a) as (y&->&Ei&Ea). cbn. eapply fresh_same; [exact Ei|exact Ea|]. eapply fresh_before; [exact F|apply H].
Qed.

Lemma createJob_starts agentName event kind a depth d0 : may_trigger agentName event kind a d0 -> limits_ok d0 ->
  wp (createJob a event depth) (fun o d' => on_track d0 d' /\ fresh d0 (launched o) d') d0.
Proof.
  intros Hmay Hok. pose proof (active_name _ _ _ (mt_agent _ _ _ _ _ Hmay)) as Hn. unfold createJob.
  apply wp_bind. cbn [wp time_now]. apply wp_bind. eapply wp_mono; [|apply (within_wp rest_of_world), CreateJob_frame].
  intros [job|e|w] d Hrest; [| |split; [by apply on_track_rest|apply fresh_nil]]; pose proof (on_track_rest _ _ Hok Hrest) as Hd.
  - apply wp_bind. cbn [wp time_now]. apply wp_bind.
    eapply wp_mono; [|by eapply (wp_start agentName event kind a)]. intros inserted d1 [H1 F].
    set (x := LaunchJob (Agent_Name a) job (match inserted with Ok id => Some id | _ => None end)).
    eapply (wp_started _ (fun _ => Ok [x]) d0 d1 x); [apply keeps_pending|by eapply on_track_then| |by eauto].
    eapply fresh_after; [by apply tracked_rest|]. destruct inserted as [id|e|w]; [by eapply F|apply fresh_unrecorded..].
  - eapply wp_mono; [|eapply (starts_skipped_then _ _ _ _ _ (Err e)); [done|apply keeps_rest, notify_within|done|apply Hd]].
    cbv beta. intros o d' [H F]. split; [by eapply on_track_then|]. eapply fresh_after; [apply Hd|done].
Qed.

Lemma dispatchHarness_starts agentName event kind a depth d0 : may_trigger agentName event kind a d0 -> limits_ok d0 ->
  wp (dispatchHarness a event depth) (fun o d' => on_track d0 d' /\ fresh d0 (launched o) d') d0.
Proof.
  intros Hmay Hok. pose proof (active_name _ _ _ (mt_agent _ _ _ _ _ Hmay)) as Hn. unfold dispatchHarness.
  apply wp_bind. cbn [wp time_now]. apply wp_bind_ok.
  eapply wp_mono; [|by eapply (wp_start agentName event kind a)]. intros [id|?|?] d1 [H1 F]; [|split; [done|apply fresh_nil]..].
  set (x := LaunchHarness (mkSpawn id a event (harness_request a event depth id ∅))).
  assert (fresh d0 [x] d1) as Fx by (by apply (F id)).
  apply wp_bind. eapply wp_mono; [|apply keeps_pending, H1]. intros ? d2 H2.
  apply wp_bind. eapply wp_mono; [|apply (keeps_rest (react _ _ _)), H2; apply react_within]. intros ? d3 H3.
  pose proof (on_track_then _ _ _ H2 H3) as H23. pose proof (on_track_then _ _ _ H1 H23) as H13.
  eapply (wp_started _ _ d0 d3 x); [apply keeps_rest, BuildEnvMap_frame|done|eapply fresh_before; [exact Fx|apply H23]|by eauto].
Qed.

Lemma starts_defer name ev status : status <> RunRunning -> starts (defer_run name ev status).
Proof.
  intros Hs. apply starts_after; [apply keeps_pending|]. intros _. apply starts_after; [by apply keeps_skipped|]. intros _. by apply starts_none.
Qed.

Lemma starts_skip name ev status log : status <> RunRunning -> starts (skip_run name ev status log).
Proof. intros Hs. apply starts_after; [by apply keeps_skipped|]. intros _. by apply starts_none. Qed.

Lemma wp_read {A B} (ans : db -> A) (f : A -> M B) (Q : outcome error B -> db -> Prop) d :
  wp (f (ans d)) Q d -> Q (Err EDb) d -> wp (let? x := query EDb ans in f x) Q d.
Proof. by split. Qed.

Lemma wp_now {A} (f : Z -> prog db A) (Q : A -> db -> Prop) d :
  wp (f (clock d)) Q d -> wp (let! now := time_now in f now) Q d.
Proof. done. Qed.

Lemma wp_count_today {B} name (f : Z -> M B) (Q : outcome error B -> db -> Prop) d :
  wp (f (affected (today_run name (clock d)) (reactive_runs d))) Q d -> Q (Err EDb) d ->
  wp (let? x := CountTodayRuns name in f x) Q d.
Proof. by split. Qed.

(** The decision chain: every outcome is a silent return, a refusal on record,
    or the start of a run that [may_trigger] allows. *)
Lemma wp_evaluateTrigger agentName event (Q : outcome error (list launch) -> db -> Prop) d :
  (forall o, (forall s, o = Ok s -> s = []) -> Q o d) ->
  (forall st log, st <> RunRunning -> wp (skip_run agentName event st log) Q d) ->
  (forall st, st <> RunRunning -> wp (defer_run agentName event st) Q d) ->
  (forall a kind, may_trigger agentName event kind a d -> backend_refusal kind a = None ->
     wp (start_run a kind event (ev_Depth event)) Q d) ->
  wp (evaluateTrigger agentName event) Q d.
Proof.
  intros H0 Hskip Hdefer Hstart. unfold evaluateTrigger.
  destruct (String.eqb_spec (ev_FromAgent event) "system"); [apply H0; by intros s [= <-]|].
  apply wp_bind. cbn [wp GetAgentByName query_o exec_o]. split; [|apply H0; by intros s [= <-]].
  destruct (find_row _ _) as [a|] eqn:Ea; [|apply H0; by intros s [= <-]].
  destruct (negb (bool_decide (Agent_TriggerMode a = _))) eqn:Em; [apply H0; by intros s [= <-]|]. guards.
  case_bool_decide as Eq; [by apply Hskip|]. destruct (backend_refusal _ a) as [reason|] eqn:Er; [by apply Hskip|].
  unfold rate_limits. destruct (Z.leb_spec (MaxTriggerDepth a) (ev_Depth event)); [by apply Hskip|].
  apply wp_count_today; [|by apply H0].
  destruct (Z.leb_spec (DailyTriggerBudget a) (affected (today_run agentName (clock d)) (reactive_runs d))); [by apply Hskip|].
  apply wp_read; [|by apply H0]. apply wp_now. destruct (on_cooldown _ _ _) eqn:Ec; [by apply Hdefer|].
  apply wp_read; [|by apply H0].
  destruct (Z.ltb_spec 0 (affected (running_run agentName) (reactive_runs d))) as [|Hidle]; [by apply Hdefer|].
  apply Hstart; [|done]. split; try done; [by apply eq_None_not_Some|].
  pose proof (count_if_nonneg (running_run agentName) (rows (reactive_runs d))). unfold affected in *. lia.
Qed.

Lemma starts_evaluateTrigger name ev : starts (evaluateTrigger name ev).
Proof.
  intros d Hd. apply wp_evaluateTrigger.
  - intros o Ho. split; [by split|]. destruct o as [l|e|w]; cbn; [rewrite (Ho l eq_refl)|..]; apply fresh_nil.
  - intros st log Hs. by apply starts_skip.
  - intros st Hs. by apply starts_defer.
  - intros a kind Hmay _. unfold start_run. case_bool_decide; [by eapply createJob_starts|by eapply dispatchHarness_starts].
Qed.

Lemma keeps_query {B} (ans : db -> outcome error B) : keeps (query_o EDb ans).
Proof. intros d Hd. cbn. split; by split. Qed.

Lemma starts_Dispatch ev : starts (Dispatch ev).
Proof.
  unfold Dispatch. destruct (String.eqb _ _); [apply starts_evaluateTrigger|]. destruct (String.eqb _ _); [|by apply starts_none].
  induction (MentionedAgents ev) as [|m rest IH]; [by apply starts_none|]. simpl. destruct (String.eqb _ _); [done|].
  intros d Hd. apply wp_bind. eapply wp_mono; [|by apply starts_evaluateTrigger]. intros o d1 [[H1 T1] F1].
  destruct o as [l|e|w]; [| |by split]; by apply starts_append.
Qed.

Lemma starts_checkPendingWork name : starts (checkPendingWork name).
Proof.
  apply starts_after; [apply keeps_query|]. intros [a|e|w]; [|by apply starts_none..]. destruct (negb _); [by apply starts_none|].
  apply starts_after; [apply keeps_pending|]. intros _. apply starts_map; [apply starts_evaluateTrigger|]. by intros [].
Qed.

Lemma registry_Execute_within a r : within rest_of_world (registry_Execute a r).
Proof.
  unfold registry_Execute. destruct registry; [|done]. destruct (Resolve _ _); [apply backend_Execute_frame|done|done].
Qed.

Lemma harness_outcome_status res : let '(st, _) := harness_outcome res in st = RunSucceeded \/ st = RunFailed.
Proof. unfold harness_outcome. destruct res as [[r|]|e|w]; auto. destruct (_ =? _); auto. Qed.

Lemma keeps_now : keeps time_now.
Proof. intros d Hd. by split. Qed.

Lemma starts_runHarness s : starts (runHarness s).
Proof.
  apply starts_after; [apply keeps_now|]. intros t0. apply starts_after; [apply keeps_rest, registry_Execute_within|].
  intros res. destruct res as [r|e|w]; [| |by apply starts_none]; (apply starts_after; [apply keeps_now|]; intros t1;
    match goal with |- context [harness_outcome ?r] => pose proof (harness_outcome_status r) as Hst end;
    destruct (harness_outcome _) as [st log];
    apply starts_after; [destruct (_ <=? _); [done|by apply keeps_complete]|]; intros _;
    apply starts_after; [|intros _; apply starts_checkPendingWork]; apply keeps_rest;
    destruct Hst as [-> | ->]; [apply react_within|apply within_bind; [apply react_within|intros _; apply notify_within]]).
Qed.

Lemma starts_handleJobComplete r ok reason : starts (handleJobComplete r ok reason).
Proof.
  apply starts_after; [apply keeps_now|]. intros now. apply starts_after; [|intros _; apply starts_checkPendingWork].
  destruct ok; [apply keeps_bind; [apply keeps_complete; auto|done]|].
  apply keeps_bind; [apply keeps_rest, GetJobLogs_frame|]. intros logs.
  apply keeps_bind; [apply keeps_complete; auto|]. intros _. apply keeps_bind; [apply keeps_query|].
  intros [a|e|w]; [apply keeps_rest, notify_within|done|done].
Qed.

Lemma starts_checkJob r : starts (checkJob r).
Proof.
  apply starts_after; [apply keeps_rest, GetJob_frame|]. intros [j|e|w]; [|by apply starts_none..].
  destruct (job_verdict j) as [[]|]; [apply starts_handleJobComplete|by apply starts_none].
Qed.

Lemma starts_pollActiveRuns : starts pollActiveRuns.
Proof.
  apply starts_after; [intros d Hd; cbn; split; by split|]. intros [l|e|w]; [|by apply starts_none..].
  induction l as [|r l IH]; [by apply starts_none|]. simpl. destruct (_ || _); [done|].
  intros d Hd. apply wp_bind. eapply wp_mono; [|by apply starts_checkJob]. intros o d1 [[H1 T1] F1].
  destruct o as [s|e|w]; [|by split..]. by apply starts_append.
Qed.

(** *** Calls one after the other *)
Inductive reactor_call :=
| RDispatch (event : MessageEvent)
| RHarness (s : spawn)
| RJobDone (run : ReactiveRun) (success : bool) (reason : string)
| RPoll
| RCheckPending (agentName : string).

Definition reactor_prog (c : reactor_call) : M (list launch) :=
  match c with
  | RDispatch ev => Dispatch ev
  | RHarness s => runHarness s
  | RJobDone r ok reason => handleJobComplete r ok reason
  | RPoll => pollActiveRuns
  | RCheckPending n => checkPendingWork n
  end.

(** Each call with the seconds that pass before it and the statements of it
    that fail: what was started, and the database. *)
Definition reactor_calls := list (nat * list bool * reactor_call).
Fixpoint run_reactor (cs : reactor_calls) (d : db) : list launch * db :=
  match cs with
  | [] => ([], d)
  | (s, faults, c) :: rest =>
      let '(o, d1) := run (reactor_prog c) faults (set_clock (clock d + Z.of_nat s) d) in
      let '(l, d2) := run_reactor rest d1 in
      (launched o ++ l, d2)
  end.

Lemma tick_rest d s : rest_of_world d (set_clock (clock d + Z.of_nat s) d).
Proof. split_and!; simpl; [done|done|lia]. Qed.

Lemma starts_call c : starts (reactor_prog c).
Proof.
  destruct c; [apply starts_Dispatch|apply starts_runHarness|apply starts_handleJobComplete|apply starts_pollActiveRuns
              |apply starts_checkPendingWork].
Qed.

(** *** Where nothing fails, everything started is on record *)
Definition calm (p : M (list launch)) : Prop := forall d, Forall (fun x => is_Some (launch_id x)) (launched (run_ok p d).1).
Lemma calm_none o : launched o = [] -> calm (Ret o).
Proof. intros E d. unfold run_ok. cbn. rewrite E. constructor. Qed.
Lemma calm_after {A} (p : prog db A) (f : A -> M (list launch)) : (forall a, calm (f a)) -> calm (bind p f).
Proof. intros Hf d. rewrite run_ok_bind. destruct (run_ok p d) as [a d']. apply Hf. Qed.
Lemma calm_after_ok {A} (p : M A) (f : A -> M (list launch)) : (forall a, calm (f a)) -> calm (bind_ok p f).
Proof. intros Hf. apply calm_after. intros [a|e|w]; [apply Hf|by apply calm_none..]. Qed.
Lemma calm_one x : is_Some (launch_id x) -> calm (Ret (Ok [x])).
Proof. intros H d. by repeat constructor. Qed.
Lemma calm_append (p : M (list launch)) l : calm p -> Forall (fun x => is_Some (launch_id x)) l -> calm (let? s := p in Ret (Ok (l ++ s))).
Proof.
  intros Hp Hl d. rewrite run_ok_bind_ok. specialize (Hp d). destruct (run_ok p d) as [[s|e|w] d']; [|constructor..].
  by apply Forall_app.
Qed.

#[local] Create HintDb calm.
Ltac calm :=
  repeat first
    [ solve [auto with calm nocore] | by apply calm_none | by apply calm_one | apply calm_after_ok; intros ? | apply calm_after; intros ?
    | match goal with
      | |- calm (if ?b then _ else _) => destruct b
      | |- calm (match ?x with _ => _ end) => destruct x
      | |- calm (let _ := _ in _) => cbv zeta
      end ].
Lemma calm_createJob a event depth : calm (createJob a event depth).
Proof.
  unfold createJob. do 2 (apply calm_after; intros ?). case_match; [|calm..]. apply calm_after. intros now d. rewrite run_ok_bind.
  change (run_ok (InsertRun ?r) d) with (@Ok error _ (next_id (reactive_runs d)), with_run r (clock d) d). cbv iota beta.
  apply (calm_after (SetPendingWork _ _) (fun _ => Ret (Ok [LaunchJob _ _ (Some _)]))). intros ?. by apply calm_one.
Qed.
#[local] Hint Resolve calm_createJob : calm.
Lemma calm_evaluateTrigger n ev : calm (evaluateTrigger n ev).
Proof.
  unfold evaluateTrigger, rate_limits, skip_run, defer_run, start_run, dispatchHarness. calm.
Qed.
#[local] Hint Resolve calm_evaluateTrigger : calm.
Lemma calm_trigger_each l ev : calm (trigger_each l ev).
Proof.
  induction l as [|m l IH]; [by apply calm_none|]. cbn [trigger_each]. destruct (String.eqb _ _); [done|]. intros d. rewrite run_ok_bind.
  pose proof (calm_evaluateTrigger m ev d) as H. destruct (run_ok (evaluateTrigger m ev) d) as [[s|e|w] d']; [by apply calm_append|by apply (calm_append _ [])|constructor].
Qed.
#[local] Hint Resolve calm_trigger_each : calm.
Lemma calm_checkPendingWork n : calm (checkPendingWork n).
Proof.
  unfold checkPendingWork. apply calm_after. intros [a|e|w]; [|by apply calm_none..]. destruct (negb _); [by apply calm_none|]. apply calm_after. intros _ d.
  rewrite run_ok_bind. pose proof (calm_evaluateTrigger n (coalesced_event n) d) as H. by destruct (run_ok (evaluateTrigger _ _) d) as [[s|e|w] d'].
Qed.
#[local] Hint Resolve calm_checkPendingWork : calm.
Lemma calm_check_jobs l : calm (check_jobs l).
Proof.
  induction l as [|r l IH]; [by apply calm_none|]. cbn [check_jobs]. destruct (_ || _); [done|]. intros d. rewrite run_ok_bind_ok.
  assert (calm (checkJob r)) as H by (unfold checkJob, handleJobComplete; calm).
  specialize (H d). destruct (run_ok (checkJob r) d) as [[s|e|w] d']; [by apply calm_append|constructor..].
Qed.
#[local] Hint Resolve calm_check_jobs : calm.
Lemma calm_call c : calm (reactor_prog c).
Proof.
  destruct c; cbn [reactor_prog].
  - unfold Dispatch. calm.
  - unfold runHarness. calm.
  - unfold handleJobComplete. calm.
  - unfold pollActiveRuns. calm.
  - apply calm_checkPendingWork.
Qed.
Lemma unrecorded_fault c fs d x : x ∈ launched (run (reactor_prog c) fs d).1 -> launch_id x = None -> true ∈ fs.
Proof.
  intros Hx E. destruct (decide (true ∈ fs)) as [|Hn]; [done|]. rewrite run_no_fault in Hx by done.
  pose proof (calm_call c d) as H. rewrite Forall_forall in H. destruct (H x Hx) as [? E']. congruence.
Qed.

(** C4. Triggers, completions and polls that run one after the other, with any
    of their statements failing: among the runs on record no agent ever has two
    running, and on no day (UTC) does an agent start more of them than its daily
    budget.  Whatever the calls start, goroutines and jobs, is on record under
    an id of its own, with its agent and as started; the one exception is a job
    whose row could not be written, in a call with a failing statement. *)
Theorem reactor_limits (cs : reactor_calls) (d : db) (Hinit : limits_ok d) :
  let '(l, d') := run_reactor cs d in
  limits_ok d' /\
  NoDup (omap launch_id l) /\
  (forall x id, x ∈ l -> launch_id x = Some id -> on_row x id d') /\
  (forall x, x ∈ l -> launch_id x = None -> exists s faults c, (s, faults, c) ∈ cs /\ true ∈ faults).
Proof.
  assert (forall cs d, limits_ok d -> on_track d (run_reactor cs d).2 /\ fresh d (run_reactor cs d).1 (run_reactor cs d).2 /\
    forall x, x ∈ (run_reactor cs d).1 -> launch_id x = None -> exists s faults c, (s, faults, c) ∈ cs /\ true ∈ faults) as H.
  { clear. intros cs. induction cs as [|[[s faults] c] cs IH]; intros d Hd; cbn [run_reactor].
    { split; [by split|]. split; [apply fresh_nil|]. intros x Hx. by apply elem_of_nil in Hx. }
    pose proof (on_track_rest _ _ Hd (tick_rest d s)) as Ht. set (d0 := set_clock _ d) in *.
    destruct (wp_run (reactor_prog c) _ d0 faults (starts_call c d0 (proj1 Ht))) as [Hc F].
    pose proof (unrecorded_fault c faults d0) as Hu. destruct (run (reactor_prog c) faults d0) as [o d1]. cbn in Hc, F, Hu.
    destruct (IH d1 (proj1 Hc)) as (H1&F1&U1). destruct (run_reactor cs d1) as [l d2]. cbn in *.
    pose proof (on_track_then _ _ _ Ht Hc) as H01. split; [by eapply on_track_then|]. split.
    - eapply (fresh_app d _ d1); [by eapply fresh_after; [apply Ht|]|apply H01|apply H1|done].
    - intros x [Hx|Hx]%elem_of_app E; [exists s, faults, c; split; [by left|by eapply Hu]|].
      destruct (U1 x Hx E) as (s'&fs&c'&Hin&Hf). exists s', fs, c'. split; [by right|done]. }
  destruct (H cs d Hinit) as ([Hl _]&[Hn Hr]&Hu). destruct (run_reactor cs d) as [l d']. split_and!; [done|done| |done].
  intros x id Hx E. by destruct (Hr x id Hx E).
Qed.

(** ** One evaluation *)

(** What an evaluation may leave: the runs as they were, or one more row; as
    they were also when the row of a job could not be written. *)
Definition trigger_post (agentName : string) (event : MessageEvent) (d : db)
    (o : outcome error (list launch)) (d' : db) : Prop :=
  (reactive_runs d' = reactive_runs d /\ forall l x, o = Ok l -> x ∈ l -> launch_id x = None /\
     exists a, may_trigger agentName event backendK8s a d /\ backend_refusal backendK8s a = None) \/
  exists r now, reactive_runs d' = insert_row (run_row r now) (reactive_runs d) /\
    Run_AgentName r = agentName /\ TriggerFrom r = ev_FromAgent event /\ TriggerEvent r = EventType event /\
    (Run_Status r = RunRunning -> exists a kind,
       may_trigger agentName event kind a d /\ backend_refusal kind a = None) /\
    forall l x, o = Ok l -> x ∈ l -> Run_Status r = RunRunning /\ launch_id x = Some (next_id (reactive_runs d)).

Definition same_runs (d d' : db) : Prop := reactive_runs d' = reactive_runs d.
#[local] Instance same_runs_preorder : PreOrder same_runs.
Proof. split; [done|]. unfold same_runs. intros a b c; congruence. Qed.

Lemma rest_same_runs {A} (p : prog db A) : within rest_of_world p -> within same_runs p.
Proof. apply within_mono. by intros d d' (H&_). Qed.

Lemma pending_same_runs name b : within same_runs (SetPendingWork name b).
Proof. by apply within_exec. Qed.

Lemma wp_same_runs {A} (p : prog db A) d : within same_runs p -> wp p (fun _ d' => same_runs d d') d.
Proof. apply within_wp, _. Qed.

(** A row inserted in a state with the runs of [d], nothing else written. *)
Lemma post_insert agentName event d0 d r now o : same_runs d0 d ->
  Run_AgentName r = agentName -> TriggerFrom r = ev_FromAgent event -> TriggerEvent r = EventType event ->
  (Run_Status r = RunRunning -> exists a kind, may_trigger agentName event kind a d0 /\ backend_refusal kind a = None) ->
  (forall l x, o = Ok l -> x ∈ l -> Run_Status r = RunRunning /\ launch_id x = Some (next_id (reactive_runs d0))) ->
  forall d', same_runs (with_run r now d) d' -> trigger_post agentName event d0 o d'.
Proof.
  unfold same_runs. intros Hs Hn Hf He Hrun Hl d' Hd'. right. exists r, now. simpl in Hd'. rewrite Hd', Hs. by split_and!.
Qed.

Lemma wp_skip_post agentName event st log d0 d : st <> RunRunning -> same_runs d0 d ->
  wp (skip_run agentName event st log) (trigger_post agentName event d0) d.
Proof.
  intros Hs Hd. cbn. split; [|left; split; [done|by intros l x [= <-] Hx%elem_of_nil]].
  by eapply (post_insert _ _ _ d (skipped_run agentName event st log)); [..|intros l s [= <-]; set_solver|].
Qed.

Lemma wp_defer_post agentName event st d : st <> RunRunning ->
  wp (defer_run agentName event st) (trigger_post agentName event d) d.
Proof. intros Hs. split; by apply (wp_skip_post agentName event st ""). Qed.

Lemma createJob_post agentName event a d :
  may_trigger agentName event backendK8s a d -> backend_refusal backendK8s a = None ->
  wp (createJob a event (ev_Depth event)) (trigger_post agentName event d) d.
Proof.
  intros Hmay Hb. pose proof (active_name _ _ _ (mt_agent _ _ _ _ _ Hmay)) as <-. unfold createJob.
  apply wp_now. apply wp_bind. eapply wp_mono; [|apply (wp_same_runs (CreateJob _ _)), rest_same_runs, CreateJob_frame].
  intros [job|e|w] d1 Hs; [| |left; by split].
  - apply wp_now. apply wp_bind. cbn [wp InsertRun bind time_now exec]. split.
    + apply wp_bind. eapply wp_mono; [|apply (wp_same_runs (SetPendingWork _ _)), pending_same_runs].
      intros ? d2 H2. cbn. eapply (post_insert _ _ _ d1 (job_run (Agent_Name a) event (ev_Depth event) job runner_Namespace (clock d1)) (clock d1)); [done..|by eauto| |exact H2].
      intros l x [= <-] ->%list_elem_of_singleton. split; [done|]. cbn. by rewrite Hs.
    + apply wp_bind. eapply wp_mono; [|apply (wp_same_runs (SetPendingWork _ _)), pending_same_runs].
      intros ? d2 H2. cbn. left. split; [unfold same_runs in *; congruence|]. intros l x [= <-] ->%list_elem_of_singleton. by eauto.
  - apply wp_bind. cbn [wp recordSkippedRun InsertRun bind time_now exec]. split; apply wp_bind;
      (eapply wp_mono; [|apply (wp_same_runs (notifyFailure _ _ _ _)), rest_same_runs, notify_within]); intros ? d2 H2; cbn.
    + eapply (post_insert _ _ _ d1 (skipped_run (Agent_Name a) event RunFailed _) (clock d1)); [done..|by intros l s|exact H2].
    + left. split; [unfold same_runs in *; congruence|done].
Qed.

Lemma dispatch_rest_post a event depth id d :
  wp (let! _ := SetPendingWork (Agent_Name a) false in
      let! _ := react (ev_Message event) (Agent_Name a) ReactionInProgress in
      let! secrets := BuildEnvMap (Agent_OwnerID a) (Agent_ID a) 0 in
      let env := match secrets with Ok m => m | _ => ∅ end in
      Ret (Ok [LaunchHarness (mkSpawn id a event (harness_request a event depth id env))]))
     (fun o d' => same_runs d d' /\ forall l x, o = @Ok error _ l -> x ∈ l -> launch_id x = Some id) d.
Proof.
  apply wp_and.
  - apply wp_same_runs. apply within_bind; [apply pending_same_runs|]. intros _.
    apply within_bind; [apply rest_same_runs, react_within|]. intros _.
    apply within_bind; [apply rest_same_runs, BuildEnvMap_frame|done].
  - do 3 (apply wp_bind; eapply wp_mono; [|by apply wp_same_runs, (pending_same_runs (Agent_Name a) false)
      || by apply wp_same_runs, rest_same_runs, react_within || by apply wp_same_runs, rest_same_runs, BuildEnvMap_frame];
      intros ? ? _). cbn. intros l s [= <-] ->%list_elem_of_singleton. done.
Qed.

Lemma dispatchHarness_post agentName event kind a d :
  may_trigger agentName event kind a d -> backend_refusal kind a = None ->
  wp (dispatchHarness a event (ev_Depth event)) (trigger_post agentName event d) d.
Proof.
  intros Hmay Hb. pose proof (active_name _ _ _ (mt_agent _ _ _ _ _ Hmay)) as <-. unfold dispatchHarness.
  apply wp_now. apply wp_bind_ok. cbn [wp InsertRun bind time_now exec]. split; [|by left].
  eapply wp_mono; [|apply dispatch_rest_post]. intros o d2 [Hs Hid].
  eapply (post_insert _ _ _ d (harness_run (Agent_Name a) event (ev_Depth event) (clock d)) (clock d)); [done..| | |exact Hs].
  - eauto.
  - intros l s E Hin. split; [done|]. by eapply Hid.
Qed.

(** Whatever statement fails, one evaluation of a trigger writes at most
    one row; the row says [running] only if, in the state the evaluation
    started from, the agent is active, reactive, not quarantined, has a
    backend, is below its depth, daily budget and off its cooldown, has no
    running run, and the sender is not the system; a goroutine is started only
    for such a row, and so is a job, or for one that could not be written. *)
Theorem trigger_guarded agentName event d :
  wp (evaluateTrigger agentName event) (trigger_post agentName event d) d.
Proof.
  apply wp_evaluateTrigger.
  - intros o Ho. left. split; [done|]. intros l x E Hx. rewrite (Ho l E) in Hx. by apply elem_of_nil in Hx.
  - intros st log Hs. by apply wp_skip_post.
  - intros st Hs. by apply wp_defer_post.
  - intros a kind Hmay Hb. unfold start_run. case_bool_decide; [|by eapply dispatchHarness_post].
    subst. by apply createJob_post.
Qed.
End Calls.
