(* ===== verification/ReactorRuns.v ===== *)
(** * The reactor: runs that start, runs that complete, backends

    The converse of [ReactorSpec]: a trigger that may start a run does start
    one, and an undisturbed run that returns in time gets its
    terminal status. *)
From S2P Require Import Prelude Prog Table Schema Messaging MessagingQueries Trust Reactions Agents AgentsSpec Reactor ReactorSpec.

(** ** Which backend runs an agent *)

(** The name each kind is registered under. *)
Definition backend_name (k : backend) : option string :=
  match k with
  | backendK8s => Some "k8sjob"
  | backendSubprocess => Some "subprocess"
  | backendDocker => Some "docker"
  | backendWebhook => Some "webhook"
  | backendNone => None
  end.

Lemma named_backend_name n b : named_backend n = Some b -> backend_name b = Some n.
Proof.
  unfold named_backend. repeat (match goal with |- context [String.eqb n ?x] => destruct (String.eqb_spec n x) as [->|] end;
    [by intros [= <-]|]). done.
Qed.

Lemma named_backend_empty n b : named_backend n = Some b -> str_empty n = false.
Proof. by destruct n. Qed.

(** The reactor predicts the backend the registry will pick: with the
    four names of [main] registered, [Resolve] agrees with [agentBackendKind]
    on every agent, and falls back to Kubernetes where the reactor sees no
    backend. *)
Theorem resolve_agrees (byName : list string) (a : Agent)
    (Hnames : forall n, n ∈ byName <-> is_Some (named_backend n)) :
  Resolve byName a = Ok (default "k8sjob" (backend_name (agentBackendKind a))).
Proof.
  assert (forall n, bool_decide (n ∈ byName) = bool_decide (is_Some (named_backend n))) as Hb.
  { intros n. apply bool_decide_ext, Hnames. }
  unfold Resolve, agentBackendKind. cbv zeta. rewrite !Hb.
  destruct (named_backend (HarnessName a)) as [b|] eqn:En.
  - rewrite (named_backend_empty _ _ En), (named_backend_name _ _ En). done.
  - rewrite bool_decide_false by (by intros []). rewrite andb_false_r. simpl.
    rewrite !andb_true_r. destruct (str_empty (K8sImage a)); simpl; [|done].
    destruct (str_contains _ _); simpl; [done|]. destruct (str_empty (LocalCommand a)); simpl; [|done].
    by destruct (str_contains _ _).
Qed.

(** ** Runs are only appended by evaluations *)
Definition runs_grow (d d' : db) : Prop :=
  exists l, rows (reactive_runs d') = rows (reactive_runs d) ++ l.
#[export] Instance runs_grow_preorder : PreOrder runs_grow.
Proof.
  split; [intros d; exists []; by rewrite app_nil_r|].
  intros a b c [l Hl] [m Hm]. exists (l ++ m). by rewrite Hm, Hl, app_assoc.
Qed.

Lemma rest_grows d d' : rest_of_world d d' -> runs_grow d d'.
Proof. intros (H&_). exists []. by rewrite H, app_nil_r. Qed.

Lemma find_id_grow id r d d' : runs_grow d d' -> find_id id (reactive_runs d) = Some r -> find_id id (reactive_runs d') = Some r.
Proof.
  intros [l Hl]. unfold find_id, find_row, select. rewrite Hl. rewrite filter_app.
  destruct (filter _ (rows (reactive_runs d))); [done|]. simpl. done.
Qed.

Section Runs.
Context {HEng : Engine} {HRun : JobRunner} {HHar : Harnesses} {HNot : Notifiers}.

Lemma rest_within_grow {A} (p : prog db A) : within rest_of_world p -> within runs_grow p.
Proof. apply within_mono, rest_grows. Qed.

Lemma pending_grows name b : within runs_grow (SetPendingWork name b).
Proof. apply within_exec. intros d. exists []. by rewrite app_nil_r. Qed.

Lemma insert_grows {B} (e : error) mk (ans : db -> B) :
  within runs_grow (exec e (fun d => set_reactive_runs (insert_row mk (reactive_runs d)) d) ans).
Proof. apply within_exec. intros d. by eexists. Qed.

#[local] Create HintDb grows.
#[local] Hint Resolve pending_grows insert_grows rest_within_grow CreateJob_frame AddReaction_frame NotifyFailure_frame
  BuildEnvMap_frame : grows.

Ltac grows := within_steps; eauto with grows.

Lemma evaluateTrigger_grows name ev : within runs_grow (evaluateTrigger name ev).
Proof.
  unfold evaluateTrigger, rate_limits, start_run, skip_run, defer_run, GetAgentByName, CountTodayRuns, GetLastRunTime,
    IsAgentRunning, createJob, dispatchHarness, recordSkippedRun, InsertRun, react, notifyFailure, GetHumanAgentByOwner.
  grows.
Qed.
#[local] Hint Resolve evaluateTrigger_grows : grows.

Lemma checkPendingWork_grows name : within runs_grow (checkPendingWork name).
Proof.
  apply within_bind; [apply within_query_o, _|]. intros [a|?|?]; [|done|done]. destruct (negb _); [done|].
  apply within_bind; [auto with grows|]. intros _. apply within_bind; [auto with grows|done].
Qed.

(** ** A run that is over *)

(** What follows the update of the row leaves the row alone. *)
Lemma finish_row {A} id status log t0 t1 (p : prog db A) r d :
  within runs_grow p -> find_id id (reactive_runs d) = Some r ->
  find_id id (reactive_runs (run_ok (let! _ := (if 3600 <=? t1 - t0 then Ret (Err EDb) else CompleteRun id status log t1) in p) d).2)
    = Some (if t1 - t0 <? 3600 then completed_run status log t1 r else r).
Proof.
  intros Hp Hr. rewrite run_ok_bind.
  assert (forall d', runs_grow d' (run_ok p d').2) as Hgrow by (intros d'; by apply (wp_run_ok _ _ d' (within_wp runs_grow p d' Hp))).
  destruct (Z.leb_spec 3600 (t1 - t0)), (Z.ltb_spec (t1 - t0) 3600); try lia.
  { by apply (find_id_grow id r d). }
  eapply find_id_grow; [apply Hgrow|]. simpl. rewrite find_id_update by done. rewrite Hr. simpl.
  apply find_id_Some in Hr as [<- _]. unfold by_id. by rewrite Z.eqb_refl.
Qed.

Lemma announce_grows status s ms log :
  within runs_grow (let! _ := (match status with
    | RunFailed => let! _ := react (ev_Message (sp_Event s)) (Agent_Name (sp_Agent s)) ReactionReject in
                   notifyFailure (sp_Agent s) (sp_Event s) ms log
    | _ => react (ev_Message (sp_Event s)) (Agent_Name (sp_Agent s)) ReactionDone
    end) in checkPendingWork (Agent_Name (sp_Agent s))).
Proof.
  apply within_bind; [|intros ?; apply checkPendingWork_grows]. apply rest_within_grow.
  destruct status; try apply react_within. apply within_bind; [apply react_within|intros ?; apply notify_within].
Qed.

(** Whatever fails, the row of the run is afterwards as it was or terminal with
    the verdict on what the backend answered. *)
Definition run_over (s : spawn) (r : ReactiveRun) (d : db) : Prop :=
  exists res t, find_id (sp_RunID s) (reactive_runs d) = Some (completed_run (harness_outcome res).1 (harness_outcome res).2 t r).
Lemma wp_grows {A} (p : prog db A) (Q : db -> Prop) id r d : within runs_grow p -> find_id id (reactive_runs d) = Some r ->
  (forall d', find_id id (reactive_runs d') = Some r -> Q d') -> wp p (fun _ d' => Q d') d.
Proof.
  intros Hp Hr HQ. eapply wp_mono; [|apply (within_wp runs_grow p d Hp)]. intros a d' H. apply HQ. eapply find_id_grow; [exact H|exact Hr].
Qed.
Lemma runHarness_row s r d : find_id (sp_RunID s) (reactive_runs d) = Some r ->
  wp (runHarness s) (fun _ d' => find_id (sp_RunID s) (reactive_runs d') = Some r \/ run_over s r d') d.
Proof.
  intros Hr. unfold runHarness. apply wp_bind. cbn [wp time_now]. apply wp_bind. cbv beta.
  apply (wp_mono _ (fun res d1 => find_id (sp_RunID s) (reactive_runs d1) = Some r));
    [|by eapply wp_grows; [apply rest_within_grow, registry_Execute_within|exact Hr|]].
  intros res d1 H1. assert (forall d2, find_id (sp_RunID s) (reactive_runs d2) = Some r -> find_id (sp_RunID s) (reactive_runs d2) = Some r \/ run_over s r d2) by auto.
  destruct res as [o|e|w]; [| |by left]; apply wp_bind; cbn [wp time_now].
  all: match goal with |- context [harness_outcome ?x] => pose proof (surjective_pairing (harness_outcome x)) as Ev end; rewrite Ev; apply wp_bind.
  all: destruct (3600 <=? _); [cbn [wp]; by eapply wp_grows; [apply announce_grows|exact H1|]|]; cbn [wp CompleteRun exec exec_o]; split; [|by eapply wp_grows; [apply announce_grows|exact H1|]].
  all: match goal with |- context [completed_run (harness_outcome ?x).1 _ ?t] => eapply (wp_grows _ _ _ (completed_run (harness_outcome x).1 (harness_outcome x).2 t r)) end.
  all: try apply announce_grows; try (intros d2 H2; right; by do 2 eexists).
  all: change (reactive_runs (set_reactive_runs ?t ?d)) with t; rewrite find_id_update, H1 by done; cbn [fmap option_fmap option_map]; apply find_id_Some in H1 as [<- _].
  all: unfold by_id; by rewrite Z.eqb_refl.
Qed.

(** C11. The goroutine of a run, undisturbed: if the backend is back within
    the hour, the row of the run is terminal with the backend's verdict, its
    log and the time it came back, whatever the goroutine does next; if the
    backend takes an hour or more, the context of the update has expired and
    the row stays as it was.  Whatever statement fails, the row is afterwards
    terminal with the verdict on what the backend answered, or as it was. *)
Theorem run_completes (s : spawn) (r : ReactiveRun) (d : db)
    (Hrow : find_id (sp_RunID s) (reactive_runs d) = Some r)
    (Hpanic : forall w, (run_ok (registry_Execute (sp_Agent s) (sp_Request s)) d).1 <> Panic w) :
  (let '(res, d1) := run_ok (registry_Execute (sp_Agent s) (sp_Request s)) d in
  let '(status, errorLog) := harness_outcome res in
  find_id (sp_RunID s) (reactive_runs (run_ok (runHarness s) d).2) =
    Some (if clock d1 - clock d <? 3600 then completed_run status errorLog (clock d1) r else r) /\
  status <> RunRunning) /\
  wp (runHarness s) (fun _ d' => find_id (sp_RunID s) (reactive_runs d') = Some r \/ run_over s r d') d.
Proof.
  split; [|by apply runHarness_row].
  pose proof (wp_run_ok _ _ d (within_wp rest_of_world _ d (registry_Execute_within (sp_Agent s) (sp_Request s)))) as (Hr&_).
  unfold runHarness. rewrite run_ok_bind. change (run_ok time_now d) with (clock d, d). cbv iota beta.
  rewrite run_ok_bind. destruct (run_ok (registry_Execute _ _) d) as [res d1]. simpl in Hr, Hpanic.
  assert (match res with Panic _ => False | _ => True end) as Hp by (destruct res; [done..|by eapply Hpanic]).
  rewrite <- Hr in Hrow. pose proof (harness_outcome_status res) as Hst.
  destruct res as [o|e|w]; [| |done].
  all: rewrite run_ok_bind; change (run_ok time_now d1) with (clock d1, d1); cbv iota beta.
  all: destruct (harness_outcome _) as [status errorLog]; split; [|by destruct Hst as [-> | ->]].
  all: by apply finish_row; [apply announce_grows|].
Qed.
(** ** A trigger that may start a run *)

(** A job is not a goroutine. *)
Lemma createJob_jobs a event depth d : wp (createJob a event depth) (fun o _ => forall s, o <> Ok [LaunchHarness s]) d.
Proof.
  assert (forall A (p : prog db A) (k : A -> M (list launch)) (Q : outcome error (list launch) -> Prop) d,
    (forall a d, wp (k a) (fun o _ => Q o) d) -> wp (bind p k) (fun o _ => Q o) d) as H.
  { intros A p k Q d' Hk. apply wp_bind, wp_of_runs. auto. }
  unfold createJob. do 2 (apply H; clear d; intros ? d). case_match; [..|done]; repeat (apply H; clear d; intros ? d); done.
Qed.
Lemma run_ok_react m n t d : rest_of_world d (run_ok (react m n t) d).2.
Proof. apply (wp_run_ok _ (fun _ d' => rest_of_world d d')), within_wp, react_within. apply _. Qed.

Lemma run_ok_env u a t d : rest_of_world d (run_ok (BuildEnvMap u a t) d).2.
Proof. apply (wp_run_ok _ (fun _ d' => rest_of_world d d')), within_wp, BuildEnvMap_frame. apply _. Qed.

Lemma run_ok_dispatch a event depth d :
  exists env d', run_ok (dispatchHarness a event depth) d =
    (Ok [LaunchHarness (mkSpawn (next_id (reactive_runs d)) a event
           (harness_request a event depth (next_id (reactive_runs d)) env))], d') /\
  reactive_runs d' = insert_row (run_row (harness_run (Agent_Name a) event depth (clock d)) (clock d)) (reactive_runs d) /\
  agents d' = update_rows (active_named (Agent_Name a)) (with_pending false) (agents d).
Proof.
  unfold dispatchHarness. rewrite run_ok_bind. change (run_ok time_now d) with (clock d, d). cbv iota beta.
  rewrite run_ok_bind_ok. change (run_ok (InsertRun ?r) d) with (@Ok error _ (next_id (reactive_runs d)), with_run r (clock d) d).
  cbv iota beta. set (d1 := with_run _ _ _).
  rewrite run_ok_bind. change (run_ok (SetPendingWork ?n ?b) d1) with
    (@Ok error _ tt, set_agents (update_rows (active_named n) (with_pending b) (agents d1)) d1). cbv iota beta. set (d2 := set_agents _ _).
  rewrite run_ok_bind. pose proof (run_ok_react (ev_Message event) (Agent_Name a) ReactionInProgress d2) as Hr.
  destruct (run_ok (react _ _ _) d2) as [[] d3]. simpl in Hr.
  rewrite run_ok_bind. pose proof (run_ok_env (Agent_OwnerID a) (Agent_ID a) 0 d3) as He.
  destruct (run_ok (BuildEnvMap _ _ _) d3) as [env d4]. simpl in He.
  eexists _, d4. split; [reflexivity|]. destruct Hr as (Hr&Ha&_), He as (Hr'&Ha'&_). by rewrite Hr', Hr, Ha', Ha.
Qed.

(** The decision chain lets through what [may_trigger] describes. *)
Lemma evaluate_allowed agentName event kind a d :
  may_trigger agentName event kind a d -> backend_refusal kind a = None ->
  run_ok (evaluateTrigger agentName event) d = run_ok (start_run a kind event (ev_Depth event)) d.
Proof.
  intros [Ha Hf Hm Ht Hk Hd Hb Hc Hi] Hr. unfold evaluateTrigger.
  rewrite (proj2 (String.eqb_neq _ _) Hf). rewrite run_ok_bind.
  change (run_ok (GetAgentByName agentName) d) with
    (match find_row (active_named agentName) (agents d) with Some a => Ok a | None => Err ErrNoRows end, d).
  rewrite Ha. cbv iota beta. rewrite Hm, bool_decide_true by done. cbv iota beta. simpl negb. cbv iota.
  rewrite bool_decide_false by (rewrite Ht; by intros []). rewrite Hk, Hr. unfold rate_limits. cbv zeta.
  rewrite (proj2 (Z.leb_gt _ _) Hd), run_ok_bind_ok.
  change (run_ok (CountTodayRuns agentName) d) with (@Ok error _ (affected (today_run agentName (clock d)) (reactive_runs d)), d).
  cbv iota beta. rewrite (proj2 (Z.leb_gt _ _) Hb), run_ok_bind_ok.
  change (run_ok (GetLastRunTime agentName) d) with (@Ok error _ (last_run_time agentName d), d). cbv iota beta.
  rewrite run_ok_bind. change (run_ok time_now d) with (clock d, d). cbv iota beta. rewrite Hc, run_ok_bind_ok.
  change (run_ok (IsAgentRunning agentName) d) with (@Ok error _ (0 <? affected (running_run agentName) (reactive_runs d)), d).
  cbv iota beta. by rewrite Hi.
Qed.

(** Undisturbed, a trigger of an agent that does not run on Kubernetes
    starts a goroutine exactly when the agent is active, reactive, not
    quarantined, below its depth, daily budget and off its cooldown, idle, the
    sender is not the system, and its backend resolves; the run is then on
    record as running and the agent's pending work is cleared. *)
Theorem trigger_exact (agentName : string) (event : MessageEvent) (d : db) :
  (exists s, (run_ok (evaluateTrigger agentName event) d).1 = Ok [LaunchHarness s]) <->
  (exists a kind, may_trigger agentName event kind a d /\ backend_refusal kind a = None /\ kind <> backendK8s /\
     let d' := (run_ok (evaluateTrigger agentName event) d).2 in
     reactive_runs d' = insert_row (run_row (harness_run agentName event (ev_Depth event) (clock d)) (clock d)) (reactive_runs d) /\
     agents d' = update_rows (active_named agentName) (with_pending false) (agents d)).
Proof.
  assert (forall a kind, may_trigger agentName event kind a d -> backend_refusal kind a = None -> kind <> backendK8s ->
    (exists s, (run_ok (evaluateTrigger agentName event) d).1 = Ok [LaunchHarness s]) /\
    let d' := (run_ok (evaluateTrigger agentName event) d).2 in
    reactive_runs d' = insert_row (run_row (harness_run agentName event (ev_Depth event) (clock d)) (clock d)) (reactive_runs d) /\
    agents d' = update_rows (active_named agentName) (with_pending false) (agents d)) as Hstart.
  { intros a kind Hmay Hr Hk. rewrite (evaluate_allowed _ _ _ _ _ Hmay Hr). unfold start_run. rewrite bool_decide_false by done.
    destruct (run_ok_dispatch a event (ev_Depth event) d) as (env&d'&->&H). rewrite (active_name _ _ _ (mt_agent _ _ _ _ _ Hmay)) in H.
    split; [by eexists|exact H]. }
  split; [|intros (a&kind&Hmay&Hr&Hk&_); by eapply Hstart].
  assert (wp (evaluateTrigger agentName event) (fun o _ => (exists s, o = Ok [LaunchHarness s]) -> exists a kind,
    may_trigger agentName event kind a d /\ backend_refusal kind a = None /\ kind <> backendK8s) d) as Hwp.
  { apply wp_evaluateTrigger.
    - intros o Ho [s ->]. by specialize (Ho _ eq_refl).
    - intros st log _. cbn. split; by intros [s [=]].
    - intros st _. cbn. repeat split; by intros [s [=]].
    - intros a kind Hmay Hr. unfold start_run. case_bool_decide as Hk.
      + eapply wp_mono; [|by apply createJob_jobs]. intros o d' Ho [s Hs]. by destruct (Ho s Hs).
      + eapply wp_mono; [|apply (wp_of_runs _ (fun _ _ => True)); done]. intros o d' _ _. eauto. }
  intros Hs. apply (wp_run_ok _ _ d) in Hwp. destruct (Hwp Hs) as (a&kind&H1&H2&H3). exists a, kind.
  do 3 (split; [done|]). by destruct (Hstart a kind H1 H2 H3).
Qed.
End Runs.
