(* ===== verification/ReactorHistory.v ===== *)
(** * The reactor under concurrency

    What holds of the runs however triggers, completions, polls and retries
    interleave, and, in [ReactorRaces], what does not. *)
From S2P Require Import Prelude Prog Table Schema Messaging MessagingQueries Trust Reactions Agents AgentsSpec Reactor ReactorSpec ReactorRuns.

Section Runs.
Context {HEng : Engine} {HRun : JobRunner} {HHar : Harnesses} {HNot : Notifiers}.

(** ** The runs *)
Record run_wf (r : ReactiveRun) : Prop := {
  wf_started : Run_Status r = RunRunning -> is_Some (StartedAt r) /\ CompletedAt r = None;
  wf_countable : is_Some (StartedAt r) -> countable (Run_Status r) = true
}.

Record runs_wf (d : db) : Prop := {
  ws_table : table_ok (reactive_runs d);
  ws_rows : forall r, r ∈ rows (reactive_runs d) -> run_wf r
}.

(** A run, earlier and later: what triggered it and when it started are fixed,
    a run that is over does not resume, a completion time is not erased. *)
Definition run_identity (r : ReactiveRun) :=
  (Run_ID r, Run_AgentName r, TriggerMessageID r, TriggerEvent r, TriggerDepth r, TriggerFrom r, StartedAt r, Run_CreatedAt r).

Definition run_later (r r' : ReactiveRun) : Prop :=
  run_identity r' = run_identity r /\ (Run_Status r' = RunRunning -> Run_Status r = RunRunning) /\
  (is_Some (CompletedAt r) -> is_Some (CompletedAt r')).

Definition runs_later (d d' : db) : Prop :=
  forall r, r ∈ rows (reactive_runs d) -> exists r', r' ∈ rows (reactive_runs d') /\ run_later r r'.
#[export] Instance runs_later_preorder : PreOrder runs_later.
Proof.
  split; [intros d r Hr; by exists r|].
  intros a b c Hab Hbc r Hr. destruct (Hab r Hr) as (r1&Hr1&E1&S1&C1). destruct (Hbc r1 Hr1) as (r2&Hr2&E2&S2&C2).
  exists r2. split; [done|]. split; [congruence|auto].
Qed.

Definition runs_step (d d' : db) : Prop := runs_wf d -> runs_wf d' /\ runs_later d d'.
#[export] Instance runs_step_reflexive : Reflexive runs_step.
Proof. intros d H. by split. Qed.

Lemma same_runs_step d d' : same_runs d d' -> runs_step d d'.
Proof. unfold same_runs. intros E [H1 H2]. split; [split; by rewrite E|]. intros r Hr. exists r. by rewrite E. Qed.

Lemma quiet_step {A} (p : prog db A) : within rest_of_world p -> within runs_step p.
Proof. apply within_mono. intros d d' (H&_). by apply same_runs_step. Qed.

Lemma pending_step name b : within runs_step (SetPendingWork name b).
Proof. apply within_exec. intros d. by apply same_runs_step. Qed.

(** The rows the reactor inserts. *)
Definition run_new (r : ReactiveRun) : Prop := forall now id, run_wf (run_row r now id).

Lemma insert_step {B} (e : error) r now (ans : db -> B) : run_new r ->
  within runs_step (exec e (fun d => set_reactive_runs (insert_row (run_row r now) (reactive_runs d)) d) ans).
Proof.
  intros Hr. apply within_exec. intros d [H1 H2]. split; [split; simpl|].
  - by apply table_ok_insert.
  - intros x. rewrite elem_of_app, list_elem_of_singleton. intros [?| ->]; auto.
  - intros x Hx. exists x. split; [simpl; set_solver|done].
Qed.

Lemma skipped_new n ev st log : st <> RunRunning -> run_new (skipped_run n ev st log).
Proof. intros Hs now id. split; simpl; [done|by intros []]. Qed.

Lemma job_new n ev depth job ns now : run_new (job_run n ev depth job ns now).
Proof. intros t id. by split. Qed.

Lemma harness_new n ev depth now : run_new (harness_run n ev depth now).
Proof. intros t id. by split. Qed.

Lemma complete_step id st log t : st = RunSucceeded \/ st = RunFailed -> within runs_step (CompleteRun id st log t).
Proof.
  intros Hst. assert (st <> RunRunning /\ countable st = true) as [Hn Hc] by (destruct Hst as [-> | ->]; done).
  apply within_exec. intros d [H1 H2]. split; [split; simpl|].
  - by apply table_ok_update.
  - intros r. rewrite elem_of_map_if. intros (x&Hx&->). destruct (by_id id x); [|auto]. by split.
  - intros r Hr. exists (if by_id id r then completed_run st log t r else r). split; [simpl; apply elem_of_map_if; eauto|].
    destruct (by_id id r); [|done]. split; [done|]. by split.
Qed.
#[local] Create HintDb runs_step.
#[local] Hint Resolve pending_step insert_step quiet_step skipped_new job_new harness_new CreateJob_frame AddReaction_frame
  NotifyFailure_frame BuildEnvMap_frame GetJob_frame GetJobLogs_frame react_within notify_within : runs_step.
#[local] Hint Extern 1 (_ <> RunRunning) => discriminate : runs_step.

Lemma createJob_step a ev depth : within runs_step (createJob a ev depth).
Proof.
  unfold createJob, InsertRun, recordSkippedRun, notifyFailure, GetHumanAgentByOwner. within_steps; eauto with runs_step.
Qed.

Lemma evaluateTrigger_step name ev : within runs_step (evaluateTrigger name ev).
Proof.
  unfold evaluateTrigger, rate_limits, start_run, skip_run, defer_run, GetAgentByName, CountTodayRuns, GetLastRunTime,
    IsAgentRunning, createJob, dispatchHarness, recordSkippedRun, InsertRun, react, notifyFailure, GetHumanAgentByOwner.
  within_steps; eauto with runs_step.
Qed.

Lemma checkPendingWork_step name : within runs_step (checkPendingWork name).
Proof.
  apply within_bind; [apply within_query_o, _|]. intros [a|?|?]; [|done|done]. destruct (negb _); [done|].
  apply within_bind; [auto with runs_step|]. intros _. apply within_bind; [apply evaluateTrigger_step|done].
Qed.

Lemma Dispatch_step ev : within runs_step (Dispatch ev).
Proof.
  unfold Dispatch. destruct (String.eqb _ _); [apply evaluateTrigger_step|]. destruct (String.eqb _ _); [|done].
  induction (MentionedAgents ev) as [|m rest IH]; [done|]. simpl. destruct (String.eqb _ _); [done|].
  apply within_bind; [apply evaluateTrigger_step|]. intros [s|e|w]; [| |done]; by apply within_bind_ok.
Qed.

Lemma runHarness_step s : within runs_step (runHarness s).
Proof.
  unfold runHarness. apply within_bind; [done|]. intros t0. apply within_bind; [apply quiet_step, registry_Execute_within|].
  intros res. pose proof (harness_outcome_status res) as Hst.
  destruct res as [r|e|w]; [| |done]; (apply within_bind; [done|]; intros t1; destruct (harness_outcome _) as [st log];
    apply within_bind; [destruct (_ <=? _); [done|by apply complete_step]|]; intros _;
    apply within_bind; [|intros _; apply checkPendingWork_step]; apply quiet_step;
    destruct Hst as [-> | ->]; [apply react_within|apply within_bind; [apply react_within|intros _; apply notify_within]]).
Qed.

Lemma handleJobComplete_step r ok reason : within runs_step (handleJobComplete r ok reason).
Proof.
  apply within_bind; [done|]. intros now. apply within_bind; [|intros _; apply checkPendingWork_step].
  destruct ok; [apply within_bind; [apply complete_step; auto|done]|].
  apply within_bind; [apply quiet_step, GetJobLogs_frame|]. intros logs.
  apply within_bind; [apply complete_step; auto|]. intros _. apply within_bind; [apply within_query_o, _|].
  intros [a|e|w]; [apply quiet_step, notify_within|done|done].
Qed.

Lemma pollActiveRuns_step : within runs_step pollActiveRuns.
Proof.
  apply within_bind; [apply within_query, _|]. intros [l|e|w]; [|done|done].
  induction l as [|r l IH]; [done|]. simpl. destruct (_ || _); [done|]. apply within_bind_ok.
  - apply within_bind; [apply quiet_step, GetJob_frame|]. intros [j|e|w]; [|done|done].
    destruct (job_verdict j) as [[]|]; [apply handleJobComplete_step|done].
  - intros s. by apply within_bind_ok.
Qed.

Lemma reactor_prog_step c : within runs_step (reactor_prog c).
Proof.
  destruct c; [apply Dispatch_step|apply runHarness_step|apply handleJobComplete_step|apply pollActiveRuns_step
              |apply checkPendingWork_step].
Qed.
(** *** What the answers say *)
Definition recorded (x : launch) (d : db) : Prop := forall id, launch_id x = Some id -> on_row x id d.

Definition all_recorded (o : outcome error (list launch)) (d : db) : Prop :=
  forall l s, o = Ok l -> s ∈ l -> recorded s d.

Lemma recorded_later s d d' : runs_later d d' -> recorded s d -> recorded s d'.
Proof.
  intros Hd H id Hid. destruct (H id Hid) as (r&Hr&Hi&Hn&Hs). destruct (Hd r Hr) as (r'&Hr'&E&_). exists r'. split; [done|].
  unfold run_identity in E. injection E as E1 E2 _ _ _ _ E3 _. by rewrite E1, E2, E3.
Qed.

Lemma all_recorded_later o d d' : runs_later d d' -> all_recorded o d -> all_recorded o d'.
Proof. intros Hd H l s El Hs. eapply recorded_later; [done|by eapply H]. Qed.

Abbreviation guar := (rg runs_wf runs_later).

Lemma rg_runs_step {A} (p : prog db A) d0 : within runs_step p -> guar p (fun _ _ => True) d0.
Proof. apply within_rg. intros d d' HI H. by apply H. Qed.

(** Programs whose goroutines are all on record. *)
Definition truthful (p : M (list launch)) : Prop := forall d0, runs_wf d0 -> guar p all_recorded d0.

Lemma truthful_none o : (forall l, o = Ok l -> l = []) -> truthful (Ret o).
Proof. intros H d0 _ d _ _ l s E Hs. apply H in E as ->. set_solver. Qed.

Lemma truthful_bind {A} (p : prog db A) f : within runs_step p -> (forall a, truthful (f a)) -> truthful (bind p f).
Proof.
  intros Hp Hf d0 HI. apply rg_bind; [apply _|done|]. eapply rg_mono; [|by apply rg_runs_step].
  intros a d Hd _. by apply Hf.
Qed.

Lemma truthful_then (p : M (list launch)) f :
  truthful p -> (forall o d0, runs_wf d0 -> all_recorded o d0 -> guar (f o) all_recorded d0) -> truthful (bind p f).
Proof.
  intros Hp Hf d0 HI. apply rg_bind; [apply _|done|]. eapply rg_mono; [|by apply Hp]. intros o d Hd Ho. by apply Hf.
Qed.

(** The row of a run, and all that bears its id. *)
Lemma rg_InsertRun r d0 : run_new r -> is_Some (StartedAt r) -> runs_wf d0 ->
  guar (InsertRun r) (fun o d => forall x, launch_id x = match o with Ok id => Some id | _ => None end ->
    launch_agent x = Run_AgentName r -> recorded x d) d0.
Proof.
  intros Hr Hst HI. apply rg_bind; [apply _|done|]. intros d1 Hd1 HI1 d1' Hd1' HI1'. cbv beta. apply rg_exec. intros d2 Hd2 HI2.
  destruct (insert_step EDb r (clock d1) (fun _ : db => tt) Hr) as [Hs _].
  destruct (Hs d2) as [Hs' _]. destruct (Hs' HI2) as [HI3 H23]. split_and!; [done|done| |].
  - intros d3 Hd3 _ x Ex Ea. apply (recorded_later x _ _ Hd3). intros id E. rewrite Ex in E. injection E as <-.
    exists (run_row r (clock d1) (next_id (reactive_runs d2))). split; [simpl; apply elem_of_app; right; by apply list_elem_of_singleton|]. by rewrite Ea.
  - intros d3 _ _ x Ex _ id E. rewrite Ex in E. discriminate.
Qed.
(** What is recorded stays so, whatever the rest of the call does. *)
Lemma truthful_rest {A} (p : prog db A) x d0 : within runs_step p -> runs_wf d0 -> recorded x d0 -> guar p (fun _ d' => recorded x d') d0.
Proof.
  intros Hp HI Hx. eapply rg_mono; [|apply (rg_stable _ _ _ (recorded x)); [intros; by eapply recorded_later|exact Hx|by apply rg_runs_step]].
  by intros ? ? _ [].
Qed.
Lemma truthful_one x y d0 : launch_id y = launch_id x -> launch_agent y = launch_agent x -> recorded x d0 -> guar (Ret (Ok [y])) all_recorded d0.
Proof.
  intros Ei Ea Hx d Hd _ l z [= <-] ->%list_elem_of_singleton id E. rewrite Ei in E. destruct (recorded_later x d0 d Hd Hx id E) as (r&Hr&H).
  exists r. by rewrite Ea.
Qed.

Lemma truthful_dispatch a ev depth : truthful (dispatchHarness a ev depth).
Proof.
  apply truthful_bind; [done|]. intros now d0 HI. apply rg_bind_ok; [apply _|done|].
  eapply rg_mono; [|by apply rg_InsertRun; [apply harness_new|by eexists|]]. intros [id|e|w] d1 HI1 H1; [|by apply (truthful_none (Err e))|by apply (truthful_none (Panic w))].
  set (x := LaunchHarness (mkSpawn id a ev (harness_request a ev depth id ∅))). specialize (H1 x eq_refl eq_refl).
  apply rg_bind; [apply _|done|]. eapply rg_mono; [|by apply (truthful_rest _ x), H1; [apply pending_step|]]. intros ? d5 HI5 H5.
  apply rg_bind; [apply _|done|]. eapply rg_mono; [|by apply (truthful_rest _ x), H5; [apply quiet_step, react_within|]]. intros ? d6 HI6 H6.
  apply rg_bind; [apply _|done|]. eapply rg_mono; [|by apply (truthful_rest _ x), H6; [apply quiet_step, BuildEnvMap_frame|]].
  intros ? d7 HI7 H7. by apply (truthful_one x).
Qed.

Ltac nothing := apply truthful_none; by (let l := fresh in let E := fresh in intros l E; simplify_eq).

Lemma truthful_createJob a ev depth : truthful (createJob a ev depth).
Proof.
  apply truthful_bind; [done|]. intros sent. apply truthful_bind; [apply quiet_step, CreateJob_frame|]. intros [job|e|w]; [| |nothing].
  - apply truthful_bind; [done|]. intros now d0 HI. apply rg_bind; [apply _|done|].
    eapply rg_mono; [|by apply rg_InsertRun; [apply job_new|by eexists|]]. intros inserted d1 HI1 H1.
    set (x := LaunchJob (Agent_Name a) job (match inserted with Ok id => Some id | _ => None end)). specialize (H1 x eq_refl eq_refl).
    apply rg_bind; [apply _|done|]. eapply rg_mono; [|by apply (truthful_rest _ x), H1; [apply pending_step|]]. intros ? d5 HI5 H5.
    by apply (truthful_one x).
  - apply truthful_bind; [unfold recordSkippedRun, InsertRun; within_steps; eauto with runs_step|]. intros _.
    apply truthful_bind; [apply quiet_step, notify_within|]. intros _. nothing.
Qed.

Lemma truthful_start a kind ev depth : truthful (start_run a kind ev depth).
Proof.
  unfold start_run. case_bool_decide; [apply truthful_createJob|apply truthful_dispatch].
Qed.

Lemma truthful_skip name ev st log : st <> RunRunning -> truthful (skip_run name ev st log).
Proof.
  intros Hs. apply truthful_bind; [|intros ?; nothing].
  unfold recordSkippedRun, InsertRun. within_steps; eauto with runs_step.
Qed.

Lemma truthful_defer name ev st : st <> RunRunning -> truthful (defer_run name ev st).
Proof. intros Hs. apply truthful_bind; [apply pending_step|]. intros _. by apply truthful_skip. Qed.

Lemma truthful_query {B} (q : M B) f : within runs_step q -> (forall b, truthful (f b)) -> truthful (bind_ok q f).
Proof. intros Hq Hf. apply truthful_bind; [done|]. intros [b|e|w]; [apply Hf|nothing..]. Qed.

Lemma truthful_evaluate name ev : truthful (evaluateTrigger name ev).
Proof.
  unfold evaluateTrigger. destruct (String.eqb _ _); [nothing|].
  apply truthful_bind; [apply within_query_o, _|].
  intros [a|e|w]; [|nothing|nothing].
  destruct (negb _); [nothing|]. case_bool_decide; [by apply truthful_skip|].
  destruct (backend_refusal _ a); [by apply truthful_skip|]. unfold rate_limits. destruct (_ <=? _); [by apply truthful_skip|].
  apply truthful_query; [intros d0; apply (within_query runs_step)|]. intros n. destruct (_ <=? _); [by apply truthful_skip|].
  apply truthful_query; [apply within_query, _|]. intros last. apply truthful_bind; [done|]. intros now.
  destruct (on_cooldown _ _ _); [by apply truthful_defer|].
  apply truthful_query; [apply within_query, _|]. intros []; [by apply truthful_defer|apply truthful_start].
Qed.

Lemma truthful_after s (q : M (list launch)) d0 : truthful q -> runs_wf d0 -> all_recorded (Ok s) d0 ->
  guar (let? s' := q in Ret (Ok (s ++ s'))) all_recorded d0.
Proof.
  intros Hq HI Ho. apply rg_bind; [apply _|done|].
  eapply rg_mono; [|apply (rg_stable _ _ _ (all_recorded (Ok s))); [intros; by eapply all_recorded_later|exact Ho|by apply Hq]].
  intros [s'|e|w] d1 HI1 [Hs' Hs]; [|by apply (truthful_none (Err e))|by apply (truthful_none (Panic w))].
  intros d2 Hd2 _. eapply all_recorded_later; [exact Hd2|].
  intros l x [= <-] [Hx|Hx]%elem_of_app; [by eapply Hs|by eapply Hs'].
Qed.

Lemma truthful_both (p q : M (list launch)) : truthful p -> truthful q ->
  truthful (let? s := p in let? s' := q in Ret (Ok (s ++ s'))).
Proof.
  intros Hp Hq. apply truthful_then; [done|]. intros [s|e|w] d0 HI Ho; [by apply truthful_after|by apply (truthful_none (Err e))|by apply (truthful_none (Panic w))].
Qed.

Lemma truthful_forgive (p : M (list launch)) (f : outcome error (list launch) -> outcome error (list launch)) :
  truthful p -> (forall o l, f o = Ok l -> o = Ok l \/ l = []) -> truthful (let! o := p in Ret (f o)).
Proof.
  intros Hp Hf. apply truthful_then; [done|]. intros o d0 _ Ho d1 Hd1 _ l s El Hs.
  destruct (Hf o l El) as [->| ->]; [|set_solver]. eapply recorded_later; [exact Hd1|by eapply Ho].
Qed.

Lemma truthful_checkPending name : truthful (checkPendingWork name).
Proof.
  apply truthful_bind; [apply within_query_o, _|].
  intros [a|e|w]; [|nothing|nothing].
  destruct (negb _); [nothing|]. apply truthful_bind; [apply pending_step|]. intros _.
  apply truthful_forgive; [apply truthful_evaluate|]. intros [x|e|w] l [= <-]; auto.
Qed.

Lemma truthful_Dispatch ev : truthful (Dispatch ev).
Proof.
  unfold Dispatch. destruct (String.eqb _ _); [apply truthful_evaluate|].
  destruct (String.eqb _ _); [|nothing].
  induction (MentionedAgents ev) as [|m rest IH]; [nothing|]. simpl.
  destruct (String.eqb _ _); [done|].
  apply truthful_then; [apply truthful_evaluate|].
  intros [s|e|w] d0 HI Ho; [by apply truthful_after| |by apply (truthful_none (Panic w))].
  apply truthful_after; [done|done|]. intros l s [= <-] Hs. set_solver.
Qed.

Lemma truthful_runHarness s : truthful (runHarness s).
Proof.
  apply truthful_bind; [done|]. intros t0. apply truthful_bind; [apply quiet_step, registry_Execute_within|].
  intros res. pose proof (harness_outcome_status res) as Hst.
  destruct res as [r|e|w]; [| |nothing]; (apply truthful_bind; [done|]; intros t1; destruct (harness_outcome _) as [st log];
    apply truthful_bind; [destruct (_ <=? _); [done|by apply complete_step]|]; intros _;
    apply truthful_bind; [|intros _; apply truthful_checkPending]; apply quiet_step;
    destruct Hst as [-> | ->]; [apply react_within|apply within_bind; [apply react_within|intros _; apply notify_within]]).
Qed.

Lemma truthful_handleJobComplete r ok reason : truthful (handleJobComplete r ok reason).
Proof.
  apply truthful_bind; [done|]. intros now. apply truthful_bind; [|intros _; apply truthful_checkPending].
  destruct ok; [apply within_bind; [apply complete_step; auto|done]|].
  apply within_bind; [apply quiet_step, GetJobLogs_frame|]. intros logs.
  apply within_bind; [apply complete_step; auto|]. intros _. apply within_bind; [apply within_query_o, _|].
  intros [a|e|w]; [apply quiet_step, notify_within|done|done].
Qed.

Lemma truthful_poll : truthful pollActiveRuns.
Proof.
  apply truthful_bind; [apply within_query, _|]. intros [l|e|w]; [|nothing|nothing].
  induction l as [|r l IH]; [nothing|]. simpl. destruct (_ || _); [done|]. apply truthful_both; [|done].
  apply truthful_bind; [apply quiet_step, GetJob_frame|]. intros [j|e|w]; [|nothing|nothing].
  destruct (job_verdict j) as [[]|]; [apply truthful_handleJobComplete|nothing].
Qed.

Lemma truthful_reactor_prog c : truthful (reactor_prog c).
Proof.
  destruct c; [apply truthful_Dispatch|apply truthful_runHarness|apply truthful_handleJobComplete|apply truthful_poll
              |apply truthful_checkPending].
Qed.

(** ** Concurrent calls, retries among them *)
Inductive run_call :=
| RCall (c : reactor_call)
| RRetry (runID : Z).

Definition run_call_prog (c : run_call) : M (list launch * option ReactiveRun) :=
  match c with
  | RCall c => let? s := reactor_prog c in Ret (Ok (s, None))
  | RRetry runID => let? r := RetryRun runID in Ret (Ok ([], Some r))
  end.

(** What an answer says was started has its run on record, as started, unless
    it is a job whose row could not be written; a retry answers
    with a run on record of the agent of the run retried. *)
Definition run_answer (c : run_call) (o : outcome error (list launch * option ReactiveRun)) (d : db) : Prop :=
  forall l r, o = Ok (l, r) ->
    (forall s, s ∈ l -> recorded s d) /\
    match c, r with
    | RRetry runID, Some r => exists r0 r1, r0 ∈ rows (reactive_runs d) /\ r1 ∈ rows (reactive_runs d) /\
        Run_ID r0 = runID /\ run_later r r1 /\
        (Run_AgentName r0 <> "" -> Run_AgentName r0 = Run_AgentName r)
    | _, _ => True
    end.
Definition on_record (r : ReactiveRun) (d : db) : Prop := exists r', r' ∈ rows (reactive_runs d) /\ run_later r r'.

Lemma on_record_later r d d' : runs_later d d' -> on_record r d -> on_record r d'.
Proof.
  intros Hd (r1&Hr1&E1&S1&C1). destruct (Hd r1 Hr1) as (r2&Hr2&E2&S2&C2). exists r2.
  split; [done|]. split; [congruence|auto].
Qed.

Lemma on_record_now r d d' : runs_later d d' -> r ∈ rows (reactive_runs d) -> on_record r d'.
Proof. intros Hd Hr. by apply Hd. Qed.

Lemma rg_GetRunByID id d0 : runs_wf d0 -> guar (GetRunByID id) (fun o d => forall r, o = Ok r -> Run_ID r = id /\ on_record r d) d0.
Proof.
  intros HI. apply rg_query_o; [apply _|]. intros d d' _ _ Hd' _. split; [|by intros r [=]].
  destruct (find_id _ _) as [r|] eqn:E; [|by intros r [=]]. intros r' [= <-]. apply find_id_Some in E as [<- Hr].
  split; [done|by eapply on_record_now].
Qed.

Lemma rg_newest_running name d0 : runs_wf d0 ->
  guar (ListRuns name (Some RunRunning) 1 0)
    (fun o d => forall r l n, o = Ok (r :: l, n) -> on_record r d /\ (name <> "" -> Run_AgentName r = name)) d0.
Proof.
  intros HI. apply rg_bind_ok; [apply _|done|]. apply rg_query; [apply _|]. intros d d' _ _ Hd' HI'.
  split; [|by intros d2 _ _ r l n [=]]. apply rg_bind_ok; [apply _|done|]. apply rg_query; [apply _|].
  intros d1 d2 _ _ Hd2 HI2. split; [|by intros d3 _ _ r l n [=]].
  intros d3 Hd3 _ r l n E. injection E as E _.
  assert (r ∈ select_by run_newest (run_listed name (Some RunRunning)) (reactive_runs d1)) as Hr.
  { unfold sql_page, page in E. simpl in E. rewrite ?drop_0 in E.
    destruct (select_by _ _ _) as [|x xs]; simpl in E; [done|]. injection E as <- _. set_solver. }
  apply elem_of_select_by in Hr as [Hl Hr]. split; [eapply on_record_now; [|exact Hr]; by etrans|].
  intros Hne. unfold run_listed in Hl. apply andb_true_iff in Hl as [Hl _].
  apply orb_true_iff in Hl as [Hl|Hl]; [by destruct name|by apply String.eqb_eq].
Qed.

Lemma rg_RetryRun id d0 : runs_wf d0 ->
  guar (RetryRun id) (fun o d => forall r, o = Ok r -> exists r0 r1, r0 ∈ rows (reactive_runs d) /\ r1 ∈ rows (reactive_runs d) /\
        Run_ID r0 = id /\ run_later r r1 /\ (Run_AgentName r0 <> "" -> Run_AgentName r0 = Run_AgentName r)) d0.
Proof.
  intros HI. apply rg_bind_ok; [apply _|done|]. eapply rg_mono; [|by apply rg_GetRunByID].
  intros [run|e|w] d1 HI1 H1; [|by intros d _ _ r [=]..]. destruct (H1 run eq_refl) as [Hid Hrec].
  destruct (negb _); [by intros d _ _ r [=]|].
  apply rg_bind_ok; [apply _|done|]. eapply rg_mono; [|apply (rg_stable _ _ _ (on_record run));
    [intros; by eapply on_record_later|exact Hrec|apply rg_runs_step, within_query_o, _]].
  intros [a|e|w] d2 HI2 [_ Hrec2]; [|by intros d _ _ r [=]..].
  apply rg_bind_ok; [apply _|done|]. eapply rg_mono; [|apply (rg_stable _ _ _ (on_record run));
    [intros; by eapply on_record_later|exact Hrec2|apply rg_runs_step, createJob_step]].
  intros [started|e|w] d3 HI3 [_ Hrec3]; [|by intros d _ _ r [=]..].
  apply rg_bind; [apply _|done|]. eapply rg_mono; [|apply (rg_stable _ _ _ (on_record run));
    [intros; by eapply on_record_later|exact Hrec3|by apply rg_newest_running]].
  intros [[[|r l] n]|e|w] d4 HI4 [H4 Hrec4]; [by intros d _ _ x [=]| |by intros d _ _ x [=]..].
  destruct (H4 _ _ _ eq_refl) as [Hr Hname]. intros d5 Hd5 _ x [= <-].
  destruct (on_record_later _ _ _ Hd5 Hr) as (r1&Hr1&Hl1). destruct (on_record_later _ _ _ Hd5 Hrec4) as (r0&Hr0&E0&_).
  unfold run_identity in E0. injection E0 as E1 E2. exists r0, r1. split_and!; [done|done|congruence|done|].
  intros Hne. rewrite E2 in *. by rewrite Hname.
Qed.

Lemma rg_run_call c d0 : runs_wf d0 -> guar (run_call_prog c) (run_answer c) d0.
Proof.
  intros HI. destruct c as [c|id]; cbn [run_call_prog]; (apply rg_bind_ok; [apply _|done|]).
  - eapply rg_mono; [|by apply truthful_reactor_prog]. intros [s|e|w] d _ H; [|by intros d' _ _ l r [=]..].
    intros d' Hd' _ l r [= <- <-]. split; [|done]. intros x Hx. eapply recorded_later; [exact Hd'|by eapply H].
  - eapply rg_mono; [|by apply rg_RetryRun]. intros [r|e|w] d _ H; [|by intros d' _ _ l x [=]..].
    intros d' Hd' _ l x [= <- <-]. split; [set_solver|]. destruct (H r eq_refl) as (r0&r1&Hr0&Hr1&Hid&Hl&Hn).
    destruct (Hd' r0 Hr0) as (r0'&Hr0'&E0&_). destruct (on_record_later r d d' Hd') as (r1'&Hr1'&Hl1); [by exists r1|].
    unfold run_identity in E0. injection E0 as E1 E2. exists r0', r1'. split_and!; [done|done|congruence|done|by rewrite E2].
Qed.

(** What others may do to the database between two statements: anything but
    touch the runs. *)
Definition outside (d d' : db) : Prop := reactive_runs d' = reactive_runs d.

(** However triggers, goroutines, completions, polls and manual retries
    interleave, with any statement failing and the agents and the clock
    changing underneath: run ids stay unique; a running row has a start time
    and no completion time, and a row with a start time counts against the
    budget; no run disappears, changes what triggered it or resumes once over;
    every goroutine in an answer has its run on record as started; and a
    retry answers with a run of the same agent. *)
Theorem reactor_history (cs : list run_call) (d : db) (ps : list (M (list launch * option ReactiveRun))) (d' : db)
    (Hinit : runs_wf d) (Hrun : rtc (pool_step outside) (run_call_prog <$> cs, d) (ps, d')) :
  runs_wf d' /\ runs_later d d' /\
  (forall i c o, cs !! i = Some c -> ps !! i = Some (Ret o) -> run_answer c o d').
Proof.
  destruct (pool_invariant runs_wf runs_later outside
    ltac:(intros x y Hx Hxy; by apply same_runs_step) (run_call_prog <$> cs) ps
    (fun i o d => forall c, cs !! i = Some c -> run_answer c o d) d d') with (2 := Hinit) (3 := Hrun) as (H1&H2&H3).
  - intros i p Hp. rewrite list_lookup_fmap in Hp. destruct (cs !! i) as [c|] eqn:Hi; [|done]. injection Hp as <-.
    eapply rg_mono; [|by apply rg_run_call]. intros o x _ H c' [= <-]. exact H.
  - split_and!; [done|done|]. intros i c o Hc Ho. by apply (H3 i o Ho).
Qed.
End Runs.

(** ** Concrete runs *)
Module ReactorRaces.
#[local] Instance eng : Engine := rowid_engine.

#[local] Instance jobs : JobRunner.
Proof.
  by refine {| IsAvailable := true; runner_Namespace := "synapbus"; CreateJob := fun _ _ => Ret (Ok "job-1");
    GetJobLogs := fun _ _ => Ret (Ok EmptyString); GetJob := fun _ _ => Ret (Ok (mkJobStatus [] 0)) |}.
Defined.

(** Backends that take [secs] seconds and succeed. *)
Definition taking (secs : nat) : Harnesses.
Proof.
  refine {| registry := Some ["k8sjob"; "subprocess"; "webhook"];
    backend_Execute := fun _ _ _ => Stmt (fun d => set_clock (clock d + Z.of_nat secs) d)
      (fun _ => Ret (Ok (Some (mkExecResult 0 EmptyString)))) (Ret (Err EDb));
    error_text := fun _ => "failed"; BuildEnvMap := fun _ _ _ => Ret (Ok ∅) |}; intros _ _ _; [|done].
  split; [|done]. intros d. split; [|done]. split_and!; simpl; [done|done|lia].
Defined.

#[local] Instance silent : Notifiers.
Proof. by refine {| AddReaction := fun _ _ _ => Ret (Ok tt); NotifyFailure := fun _ _ _ _ _ _ => Ret (Ok tt) |}. Defined.

(** A reactive agent run as a subprocess. *)
Definition worker (budget : Z) (quarantined : option Z) : Agent :=
  mkAgent 1 "worker" "Worker" "ai" raw_empty_object 7 "#k" "active" 0 0 TriggerModeReactive 600 budget 5 "" None
    "default" false "" "run" "" "" None 0 "" "supervised" "[]" quarantined "drift".

Definition noon : Z := 43200.
Definition worker_db (budget : Z) (quarantined : option Z) : db :=
  set_clock noon (set_agents (mkTable [worker budget quarantined] 2) empty_db).

Definition dm (id : Z) : MessageEvent := mkMessageEvent "message.received" id "alice" "worker" "" "hi" 5 "{}" 0 [].

Lemma worker_agents_ok budget q : agents_ok (worker_db budget q).
Proof.
  split; simpl.
  - split; simpl; [apply NoDup_singleton|]. intros a Ha%list_elem_of_singleton. by subst.
  - apply NoDup_singleton.
  - intros a Ha%list_elem_of_singleton. subst. by left.
Qed.

Lemma worker_ok budget q : limits_ok (worker_db budget q).
Proof.
  split; [split; [apply worker_agents_ok|apply table_ok_empty|..]; simpl; set_solver|done|].
  intros a day _. apply Z.le_max_l.
Qed.

Lemma worker_wf budget q : runs_wf (worker_db budget q).
Proof. split; [apply table_ok_empty|simpl; set_solver]. Qed.

Definition running_now (d : db) : Z := affected (running_run "worker") (reactive_runs d).

Definition two_messages : reactor_calls := [(0%nat, [], RDispatch (dm 1)); (5%nat, [], RDispatch (dm 2))].
Lemma reactor_limits_witness :
  limits_ok (worker_db 2 None) /\
  let '(l, d') := run_reactor (HHar := taking 60) two_messages (worker_db 2 None) in
  running_now d' <= 1 /\ launch_id <$> l = [Some 1] /\ forall x, x ∈ l -> launch_id x = Some 1 -> on_row x 1 d'.
Proof.
  split; [apply worker_ok|]. pose proof (reactor_limits (HHar := taking 60) two_messages (worker_db 2 None) (worker_ok 2 None)) as H.
  assert (launch_id <$> (run_reactor (HHar := taking 60) two_messages (worker_db 2 None)).1 = [Some 1]) as E by (vm_compute; reflexivity).
  destruct (run_reactor _ _) as [l d']. destruct H as ([_ H1 _]&_&H2&_). split; [apply (H1 "worker")|]. split; [exact E|]. intros x Hx. by apply H2.
Defined.

Lemma resolve_agrees_witness :
  Resolve ["k8sjob"; "subprocess"; "docker"; "webhook"] (worker 2 None) = Ok "subprocess".
Proof.
  apply (resolve_agrees ["k8sjob"; "subprocess"; "docker"; "webhook"] (worker 2 None)). intros n. unfold named_backend.
  repeat (match goal with |- context [String.eqb n ?x] => destruct (String.eqb_spec n x) as [->|] end; [split; [by eexists|set_solver]|]).
  split; [set_solver|by intros []].
Defined.

(** The state after the first trigger: run 1 is running. *)
Definition busy_db : db := (run_ok (evaluateTrigger (HHar := taking 60) "worker" (dm 1)) (worker_db 2 None)).2.

Definition first_run : ReactiveRun :=
  run_row (harness_run "worker" (dm 1) 0 noon) noon 1.
Definition first_spawn : spawn :=
  mkSpawn 1 (worker 2 None) (dm 1) (harness_request (worker 2 None) (dm 1) 0 1 ∅).

Lemma run_completes_witness :
  find_id 1 (reactive_runs busy_db) = Some first_run /\
  Run_Status <$> find_id 1 (reactive_runs (run_ok (runHarness (HHar := taking 60) first_spawn) busy_db).2) = Some RunSucceeded.
Proof.
  split; [vm_compute; reflexivity|].
  pose proof (run_completes (HHar := taking 60) first_spawn first_run busy_db ltac:(vm_compute; reflexivity)
    ltac:(intros w; vm_compute; discriminate)) as H.
  change (run_ok (registry_Execute (HHar := taking 60) (sp_Agent first_spawn) (sp_Request first_spawn)) busy_db)
    with (@Ok error _ (Some (mkExecResult 0 EmptyString)), set_clock (clock busy_db + 60) busy_db) in H.
  cbv iota beta in H. change (harness_outcome (Ok (Some (mkExecResult 0 EmptyString)))) with (RunSucceeded, EmptyString) in H.
  destruct H as [[H _] _]. change (sp_RunID first_spawn) with 1 in H. rewrite H. reflexivity.
Defined.

Lemma reactor_history_witness :
  runs_wf (worker_db 2 None) /\
  runs_wf (run_schedule [(0, false); (1, false); (0, true)]%nat
    (run_call_prog (HHar := taking 60) <$> [RCall (RDispatch (dm 1)); RCall RPoll]) (worker_db 2 None)).2.
Proof.
  split; [apply worker_wf|].
  pose proof (run_schedule_reachable outside [(0, false); (1, false); (0, true)]%nat
    (run_call_prog (HHar := taking 60) <$> [RCall (RDispatch (dm 1)); RCall RPoll]) (worker_db 2 None)) as Hr.
  destruct (run_schedule _ _ _) as [ps d'].
  by apply (reactor_history (HHar := taking 60) [RCall (RDispatch (dm 1)); RCall RPoll] (worker_db 2 None) ps d' (worker_wf 2 None)).
Defined.

(** Two messages that arrive together: both evaluations find the agent idle,
    and it runs twice at once, over its cooldown. *)
Theorem double_dispatch : exists ps d',
  let calls := run_call_prog (HHar := taking 60) <$> [RCall (RDispatch (dm 1)); RCall (RDispatch (dm 2))] in
  rtc (pool_step outside) (calls, worker_db 2 None) (ps, d') /\ running_now d' = 2.
Proof.
  set (sched := concat (repeat [(0, false); (1, false)]%nat 20)).
  pose proof (run_schedule_reachable outside sched
    (run_call_prog (HHar := taking 60) <$> [RCall (RDispatch (dm 1)); RCall (RDispatch (dm 2))]) (worker_db 2 None)) as Hr.
  eexists _, _. split; [exact Hr|]. vm_compute. reflexivity.
Qed.

(** An agent that runs in the cluster. *)
Definition cluster_worker : Agent :=
  mkAgent 1 "worker" "Worker" "ai" raw_empty_object 7 "#k" "active" 0 0 TriggerModeReactive 600 1 5 "worker:1" None
    "default" false "" "" "" "" None 0 "" "supervised" "[]" None "".
Definition cluster_db : db := set_clock noon (set_agents (mkTable [cluster_worker] 2) empty_db).
(** The job is created before its row is written, and a row that cannot be
    written is only logged: the agent is taken for idle, its budget of one run a
    day for unspent, and the next message starts a second job at once. *)
Theorem unrecorded_job_runs_twice :
  let '(l, d') := run_reactor (HHar := taking 60) [(0%nat, [false; false; false; false; true], RDispatch (dm 1)); (1%nat, [], RDispatch (dm 2))] cluster_db in
  l = [LaunchJob "worker" "job-1" None; LaunchJob "worker" "job-1" (Some 1)] /\ running_now d' = 1 /\ DailyTriggerBudget cluster_worker = 1.
Proof. by vm_compute. Qed.
(** The error of the update that completes a run is dropped: the backend is
    back after a minute, and the run is on record as running for good. *)
Theorem lost_completion :
  let d := (run (runHarness (HHar := taking 60) first_spawn) [false; true] busy_db).2 in
  running_now d = 1 /\ (run_ok (evaluateTrigger (HHar := taking 60) "worker" (dm 2)) (set_clock (noon + 864000) d)).1 = Ok [].
Proof. by vm_compute. Qed.

(** A run of an hour: its row is never completed, and the agent is busy for
    good. *)
Theorem hour_long_run_never_ends :
  let d := (run_ok (runHarness (HHar := taking 3600) first_spawn) busy_db).2 in
  running_now d = 1 /\
  run_ok (evaluateTrigger (HHar := taking 60) "worker" (dm 2)) (set_clock (noon + 864000) d) =
  run_ok (defer_run "worker" (dm 2) RunQueued) (set_clock (noon + 864000) d).
Proof. by vm_compute. Qed.

(** A message during the cooldown sets pending_work; once the cooldown is
    over the poller does not pick it up. *)
Theorem cooldown_strands_message :
  let d1 := (run_ok (runHarness (HHar := taking 60) first_spawn) busy_db).2 in
  let d2 := (run_ok (evaluateTrigger (HHar := taking 60) "worker" (dm 2)) d1).2 in
  let d3 := (run_ok (pollActiveRuns (HHar := taking 60)) (set_clock (noon + 864000) d2)).2 in
  on_cooldown (worker 2 None) (last_run_time "worker" d3) (clock d3) = false /\
  PendingWork <$> rows (agents d3) = [true] /\ running_now d3 = 0.
Proof. by vm_compute. Qed.

(** The refusal of a quarantined agent is recorded as failed and uses up its
    daily budget: lifted, the agent may not run that day although it never
    ran. *)
Theorem refusal_uses_budget :
  let d1 := (run_ok (evaluateTrigger (HHar := taking 60) "worker" (dm 1)) (worker_db 1 (Some 0))).2 in
  let d2 := set_agents (mkTable [worker 1 None] 2) d1 in
  let d3 := (run_ok (evaluateTrigger (HHar := taking 60) "worker" (dm 2)) d2).2 in
  affected (started_on "worker" 0) (reactive_runs d3) = 0 /\
  Run_Status <$> rows (reactive_runs d3) = [RunFailed; RunBudgetExhausted].
Proof. by vm_compute. Qed.

(** A retry starts a Kubernetes job for an agent run as a subprocess, while
    the agent is busy and its budget is spent. *)
Theorem retry_bypasses_limits :
  let failed := run_row (skipped_run "worker" (dm 1) RunFailed "x") 0 2 in
  let d := set_agents (mkTable [worker 0 None] 2) (set_reactive_runs (mkTable [first_run; failed] 3) busy_db) in
  agentBackendKind (worker 0 None) = backendSubprocess /\
  let '(o, d') := run_ok (RetryRun (HHar := taking 60) 2) d in
  is_ok o = true /\ running_now d' = 2 /\ K8sJobName <$> rows (reactive_runs d') = [""; ""; "job-1"].
Proof. by vm_compute. Qed.
End ReactorRaces.
