(* ===== verification/Memory.v ===== *)
(** * Memory stores (internal/messaging: memory_channels.go, memory_core.go,
      memory_links.go, memory_pins.go, memory_status.go, memory_injections.go,
      consolidation_jobs.go, dispatch_tokens.go, dream_usage.go;
      internal/storage/schema/028 to 030)

    The tables behind an owner's shared memory: the jobs that consolidate it
    with their state machine and in-flight slots, the tokens that authorise an
    agent to work on a job, the daily usage that breaks the circuit, the links
    between memories, the core blobs, the pins, the injection log, and the
    view that derives a memory's status from the recorded actions. *)
From stdpp Require Import pretty.
From S2P Require Import Prelude Prog Table Schema Messaging MessagingQueries Agents.

(** ** Memory channels *)
Definition MemoryChannelNames : list string := ["open-brain"].
Definition MemoryChannelPrefixes : list string := ["reflections-"].

Definition matchesMemoryChannelName (name : string) : bool :=
  bool_decide (name ∈ MemoryChannelNames) || existsb (fun p => String.prefix p name) MemoryChannelPrefixes.

(** [name = 'open-brain' OR name LIKE 'reflections-%']. *)
Definition memory_channel (c : Channel) : bool :=
  bool_decide (Ch_Name c ∈ MemoryChannelNames) ||
  existsb (fun p => sql_like (p +:+ "%") (Ch_Name c)) MemoryChannelPrefixes.

(** The owner's id as text; [""] when there is no such agent or its owner is 0. *)
Definition agent_named (name : string) (a : Agent) : bool := String.eqb (Agent_Name a) name.

(** agents.OwnerFor. *)
Definition OwnerFor (agentName : string) : M string :=
  query_o EDb (fun d => match find_row (agent_named agentName) (agents d) with
                        | None => Err (EAgentNotFound agentName)
                        | Some a => if Agent_OwnerID a =? 0 then Err ErrAgentUnowned else Ok (pretty (Agent_OwnerID a))
                        end).

(** ** Consolidation jobs *)
Definition JobTypeReflection : string := "reflection".
Definition JobTypeCoreRewrite : string := "core_rewrite".
Definition JobTypeDedupContradiction : string := "dedup_contradiction".
Definition JobTypeLinkGen : string := "link_gen".

(** The CHECK constraints of the table. *)
Definition job_type_ok (jobType : string) : bool :=
  bool_decide (jobType ∈ [JobTypeReflection; JobTypeCoreRewrite; JobTypeDedupContradiction; JobTypeLinkGen]).
Definition job_status_ok (s : ConsolidationStatus) : bool :=
  match s with JobStatusCircuitBroken | JobStatusOther _ => false | _ => true end.

Definition in_flight (s : ConsolidationStatus) : bool :=
  bool_decide (s = JobStatusPending \/ s = JobStatusDispatched \/ s = JobStatusRunning).

(** The key of the partial unique index. *)
Definition slot_key (ownerID jobType : string) (slot : Z) (j : Job) : bool :=
  String.eqb (Job_OwnerID j) ownerID && String.eqb (JobType j) jobType && (Slot j =? slot) && in_flight (Job_Status j).

Definition slot_busy (ownerID jobType : string) (slot : Z) (d : db) : bool :=
  negb (affected (slot_key ownerID jobType slot) (memory_jobs d) =? 0).

Definition job_row (ownerID jobType triggerReason : string) (slot now id : Z) : Job :=
  mkJob id ownerID jobType JobStatusPending triggerReason None None [] None None None None None now slot.

Definition CreateOnSlot (ownerID jobType triggerReason : string) (slot : Z) : M Z :=
  if str_empty ownerID then Ret (Err EMemoryFields)
  else if str_empty jobType then Ret (Err EMemoryFields)
  else if slot <? 0 then Ret (Err ENegativeSlot)
  else exec_o EDb
    (fun d => if job_type_ok jobType && negb (slot_busy ownerID jobType slot d)
              then set_memory_jobs (insert_row (job_row ownerID jobType triggerReason slot (clock d)) (memory_jobs d)) d
              else d)
    (fun d => if job_type_ok jobType
              then if slot_busy ownerID jobType slot d then Err ErrJobAlreadyInFlight else Ok (next_id (memory_jobs d))
              else Err EDb).

Definition Create (ownerID jobType triggerReason : string) : M Z := CreateOnSlot ownerID jobType triggerReason 0.

(** The slots from [slot] on, [n] of them. *)
Fixpoint next_slot (ownerID jobType triggerReason : string) (n : nat) (slot : Z) : M (Z * Z) :=
  match n with
  | O => Ret (Err ErrJobAlreadyInFlight)
  | S n' =>
      let! r := CreateOnSlot ownerID jobType triggerReason slot in
      match r with
      | Ok id => Ret (Ok (id, slot))
      | Err ErrJobAlreadyInFlight => next_slot ownerID jobType triggerReason n' (slot + 1)
      | Err e => Ret (Err e)
      | Panic w => Ret (Panic w)
      end
  end.

Definition CreateNextAvailableSlot (ownerID jobType triggerReason : string) (maxSlots : Z) : M (Z * Z) :=
  let maxSlots := if maxSlots <=? 0 then 1 else maxSlots in
  next_slot ownerID jobType triggerReason (Z.to_nat maxSlots) 0.

Definition with_dispatch (harnessRunID token : string) (j : Job) : Job :=
  mkJob (Job_ID j) (Job_OwnerID j) (JobType j) JobStatusDispatched (TriggerReason j) (Some token) (Some harnessRunID)
    (Actions j) (Job_Summary j) (Job_Error j) (LeaseUntil j) (Job_StartedAt j) (FinishedAt j) (Job_CreatedAt j) (Slot j).

(** An UPDATE of the job with that id in one of the statuses; no row is an
    error. *)
Definition update_job (jobID : Z) (allowed : list ConsolidationStatus) (f : Z -> Job -> Job) (none : error) : M unit :=
  let p j := by_id jobID j && bool_decide (Job_Status j ∈ allowed) in
  exec_o EDb (fun d => set_memory_jobs (update_rows p (f (clock d)) (memory_jobs d)) d)
             (fun d => if affected p (memory_jobs d) =? 0 then Err none else Ok tt).

Definition Dispatch_job (jobID : Z) (harnessRunID token : string) : M unit :=
  update_job jobID [JobStatusPending] (fun _ => with_dispatch harnessRunID token) (EJobNotPending jobID).

Definition with_lease (until now : Z) (j : Job) : Job :=
  mkJob (Job_ID j) (Job_OwnerID j) (JobType j) JobStatusRunning (TriggerReason j) (Job_DispatchToken j) (HarnessRunID j)
    (Actions j) (Job_Summary j) (Job_Error j) (Some until) (Some now) (FinishedAt j) (Job_CreatedAt j) (Slot j).

Definition Lease (jobID until : Z) : M unit :=
  update_job jobID [JobStatusDispatched; JobStatusPending] (with_lease until) (EJobNotLeasable jobID).

Definition with_actions (actions : list Action) (j : Job) : Job :=
  mkJob (Job_ID j) (Job_OwnerID j) (JobType j) (Job_Status j) (TriggerReason j) (Job_DispatchToken j) (HarnessRunID j)
    actions (Job_Summary j) (Job_Error j) (LeaseUntil j) (Job_StartedAt j) (FinishedAt j) (Job_CreatedAt j) (Slot j).

(** One transaction: read the array, append, write it back. *)
Definition AppendAction (jobID : Z) (action : Action) : M unit :=
  exec_o EDb (fun d => set_memory_jobs (update_rows (by_id jobID) (fun j => with_actions (Actions j ++ [action]) j) (memory_jobs d)) d)
             (fun d => match find_id jobID (memory_jobs d) with Some _ => Ok tt | None => Err ErrNoRows end).

(** COALESCE(NULLIF(?, ''), old). *)
Definition nullif_empty (new : string) (old : option string) : option string := if str_empty new then old else Some new.

Definition with_completion (status : ConsolidationStatus) (summary errMsg : string) (now : Z) (j : Job) : Job :=
  mkJob (Job_ID j) (Job_OwnerID j) (JobType j) status (TriggerReason j) (Job_DispatchToken j) (HarnessRunID j)
    (Actions j) (nullif_empty summary (Job_Summary j)) (nullif_empty errMsg (Job_Error j)) None (Job_StartedAt j)
    (Some (default now (FinishedAt j))) (Job_CreatedAt j) (Slot j).

Definition completion_status (s : ConsolidationStatus) : bool :=
  bool_decide (s ∈ [JobStatusSucceeded; JobStatusPartial; JobStatusFailed; JobStatusExpired; JobStatusCircuitBroken]).

(** The CHECK constraint fails the UPDATE when it meets a row. *)
Definition Complete (jobID : Z) (status : ConsolidationStatus) (summary errMsg : string) : M unit :=
  if negb (completion_status status) then Ret (Err (EInvalidCompletion status))
  else exec_o EDb
    (fun d => if job_status_ok status
              then set_memory_jobs (update_rows (by_id jobID) (with_completion status summary errMsg (clock d)) (memory_jobs d)) d
              else d)
    (fun d => if job_status_ok status || (affected (by_id jobID) (memory_jobs d) =? 0) then Ok tt else Err EDb).

Definition Get (jobID : Z) : M Job :=
  query_o EDb (fun d => match find_id jobID (memory_jobs d) with Some j => Ok j | None => Err ErrNoRows end).

Definition job_newest (a b : Job) : Prop :=
  Job_CreatedAt b < Job_CreatedAt a \/ Job_CreatedAt a = Job_CreatedAt b /\ Job_ID b <= Job_ID a.
#[export] Instance job_newest_dec a b : Decision (job_newest a b).
Proof. unfold job_newest. apply _. Defined.
Definition job_last (a b : Job) : Prop := Job_ID b <= Job_ID a.
#[export] Instance job_last_dec a b : Decision (job_last a b).
Proof. unfold job_last. apply _. Defined.

Definition active_job (ownerID jobType : string) (j : Job) : bool :=
  String.eqb (Job_OwnerID j) ownerID && String.eqb (JobType j) jobType && in_flight (Job_Status j).

Section JobQueries.
Context {HEng : Engine}.

Definition ListRecent (ownerID : string) (limit : Z) : M (list Job) :=
  let limit := default_limit 50 limit in
  query EDb (fun d => page limit 0 (select_by job_newest (fun j => String.eqb (Job_OwnerID j) ownerID) (memory_jobs d))).

Definition ActiveJob (ownerID jobType : string) : M (option Job) :=
  query EDb (fun d => head (select_by job_last (active_job ownerID jobType) (memory_jobs d))).
End JobQueries.

(** ** Dispatch tokens *)
Definition DispatchTokenTTL : Z := 900.

(** [base64.RawURLEncoding.EncodeToString]: three bytes to four characters, no
    padding. *)
Definition base64_char (n : Z) : Ascii.ascii :=
  Ascii.ascii_of_N (Z.to_N
    (if n <? 26 then 65 + n else if n <? 52 then 97 + (n - 26) else if n <? 62 then 48 + (n - 52)
     else if n =? 62 then 45 else 95)).
Definition byte_val (a : Ascii.ascii) : Z := Z.of_N (Ascii.N_of_ascii a).
Fixpoint base64_url (s : string) : string :=
  match s with
  | EmptyString => EmptyString
  | String a EmptyString =>
      let n := byte_val a in
      String (base64_char (Z.shiftr n 2)) (String (base64_char (Z.shiftl (Z.land n 3) 4)) EmptyString)
  | String a (String b EmptyString) =>
      let n := Z.shiftl (byte_val a) 8 + byte_val b in
      String (base64_char (Z.shiftr n 10)) (String (base64_char (Z.land (Z.shiftr n 4) 63))
        (String (base64_char (Z.shiftl (Z.land n 15) 2)) EmptyString))
  | String a (String b (String c r)) =>
      let n := Z.shiftl (byte_val a) 16 + Z.shiftl (byte_val b) 8 + byte_val c in
      String (base64_char (Z.shiftr n 18)) (String (base64_char (Z.land (Z.shiftr n 12) 63))
        (String (base64_char (Z.land (Z.shiftr n 6) 63)) (String (base64_char (Z.land n 63)) (base64_url r))))
  end.

(** PRIMARY KEY (token) and the foreign key to the job. *)
Definition token_insertable (token : string) (jobID : Z) (d : db) : bool :=
  bool_decide (dispatch_tokens d !! token = None) && negb (affected (by_id jobID) (memory_jobs d) =? 0).

Definition InsertToken (token ownerID : string) (jobID now : Z) : M unit :=
  exec_o EDb
    (fun d => if token_insertable token jobID d
              then set_dispatch_tokens (<[token := mkDispatchToken ownerID jobID now (now + DispatchTokenTTL) None None]> (dispatch_tokens d)) d
              else d)
    (fun d => if token_insertable token jobID d then Ok tt else Err EDb).

(** Why a token does not authorise [ownerID] for [jobID] at [now], in the order
    of the checks. *)
Definition token_valid (t : DispatchToken) (ownerID : string) (jobID now : Z) : bool :=
  bool_decide (RevokedAt t = None) && (now <? Tok_ExpiresAt t) && String.eqb (Tok_OwnerID t) ownerID && (Tok_JobID t =? jobID).

Definition stamp_used (now : Z) (t : DispatchToken) : DispatchToken :=
  mkDispatchToken (Tok_OwnerID t) (Tok_JobID t) (Tok_IssuedAt t) (Tok_ExpiresAt t)
    (Some (default now (Tok_UsedAt t))) (RevokedAt t).

Definition stamp_revoked (now : Z) (t : DispatchToken) : DispatchToken :=
  mkDispatchToken (Tok_OwnerID t) (Tok_JobID t) (Tok_IssuedAt t) (Tok_ExpiresAt t) (Tok_UsedAt t)
    (Some (default now (RevokedAt t))).

Definition StampUsed (token : string) (now : Z) : M unit :=
  exec EDb (fun d => set_dispatch_tokens (alter (stamp_used now) token (dispatch_tokens d)) d) (fun _ => tt).

Definition Validate (token ownerID : string) (jobID : Z) : M bool :=
  if str_empty token then Ret (Ok false)
  else
    let? t := query EDb (fun d => dispatch_tokens d !! token) in
    match t with
    | None => Ret (Ok false)
    | Some t =>
        let! now := time_now in
        if negb (token_valid t ownerID jobID now) then Ret (Ok false)
        else if bool_decide (Tok_UsedAt t = None)
        then let! now := time_now in let? _ := StampUsed token now in Ret (Ok true)
        else Ret (Ok true)
    end.

Definition Revoke (token : string) : M unit :=
  if str_empty token then Ret (Ok tt)
  else
    let! now := time_now in
    exec EDb (fun d => set_dispatch_tokens (alter (stamp_revoked now) token (dispatch_tokens d)) d) (fun _ => tt).

Section Tokens.
Context {HCred : Credentials}.

Definition Issue (ownerID : string) (jobID : Z) : M (string * Z) :=
  if str_empty ownerID then Ret (Err EMemoryFields)
  else if jobID =? 0 then Ret (Err EMemoryFields)
  else
    let? raw := rand_Read in
    let token := base64_url raw in
    let! now := time_now in
    let? _ := InsertToken token ownerID jobID now in
    Ret (Ok (token, now + DispatchTokenTTL)).
End Tokens.

(** ** Daily usage and the circuit breaker *)

(** The date of the store's clock, UTC. *)
Definition utcDate (now : Z) : Z := now / 86400.

Definition no_usage : DreamUsage := mkDreamUsage 0 0 0 0 0 0.

Definition add_usage (u v : DreamUsage) : DreamUsage :=
  mkDreamUsage (TokensIn u + TokensIn v) (TokensOut u + TokensOut v) (JobsStarted u + JobsStarted v)
    (JobsSucceeded u + JobsSucceeded v) (JobsFailed u + JobsFailed v) (JobsCircuitBroken u + JobsCircuitBroken v).

Definition usage_upsert (ownerID : string) (delta : DreamUsage) : M unit :=
  if str_empty ownerID then Ret (Err EMemoryFields)
  else
    let! now := time_now in
    exec EDb (fun d => set_dream_usage (partial_alter (fun u => Some (add_usage (default no_usage u) delta))
                         (utcDate now, ownerID) (dream_usage d)) d) (fun _ => tt).

Definition RecordStart (ownerID : string) : M unit := usage_upsert ownerID (mkDreamUsage 0 0 1 0 0 0).

Definition completion_usage (tokensIn tokensOut : Z) (status : ConsolidationStatus) : DreamUsage :=
  match status with
  | JobStatusSucceeded | JobStatusPartial => mkDreamUsage tokensIn tokensOut 0 1 0 0
  | JobStatusCircuitBroken => mkDreamUsage tokensIn tokensOut 0 0 0 1
  | _ => mkDreamUsage tokensIn tokensOut 0 0 1 0
  end.

Definition RecordCompletion (ownerID : string) (tokensIn tokensOut : Z) (status : ConsolidationStatus) : M unit :=
  usage_upsert ownerID (completion_usage tokensIn tokensOut status).

Definition Today (ownerID : string) : M DreamUsage :=
  if str_empty ownerID then Ret (Err EMemoryFields)
  else
    let! now := time_now in
    query EDb (fun d => default no_usage (dream_usage d !! (utcDate now, ownerID))).

(** The rows of a date before the cutoff. *)
Definition usage_before (cutoff : Z) (k : Z * string) : bool := k.1 <? cutoff.

Definition Cleanup_usage (olderThanDays : Z) : M Z :=
  if olderThanDays <=? 0 then Ret (Ok 0)
  else
    let! now := time_now in
    exec EDb (fun d => set_dream_usage (filter (fun kv => usage_before (utcDate now - olderThanDays) kv.1 = false) (dream_usage d)) d)
             (fun d => Z.of_nat (size (filter (fun kv => usage_before (utcDate now - olderThanDays) kv.1 = true) (dream_usage d)))).

Record MemoryConfig := mkMemoryConfig {
  DreamParallel : Z;
  DreamWallclockBudget : Z;         (** seconds *)
  DreamWatermark : Z;
  DreamAgent : string;
  DreamRecentWindow : Z;            (** seconds *)
  DreamDailyTokenLimitIn : Z;
  DreamDailyTokenLimitOut : Z;
  DreamDailyJobLimit : Z;
  CoreMemoryMaxBytes : Z
}.

Definition DefaultMemoryConfig : MemoryConfig :=
  mkMemoryConfig 1 600 20 "claude-code" (336 * 3600) 1000000 200000 100 2048.

(** Which daily limit is reached: the reason code. *)
Definition gate_reason (cfg : MemoryConfig) (u : DreamUsage) : option string :=
  if (0 <? DreamDailyTokenLimitIn cfg) && (DreamDailyTokenLimitIn cfg <=? TokensIn u) then Some "tokens_in_exceeded"
  else if (0 <? DreamDailyTokenLimitOut cfg) && (DreamDailyTokenLimitOut cfg <=? TokensOut u) then Some "tokens_out_exceeded"
  else if (0 <? DreamDailyJobLimit cfg) && (DreamDailyJobLimit cfg <=? JobsStarted u) then Some "jobs_exceeded"
  else None.

(** UsageGate.Allow: the reason to refuse, if any; an error allows. *)
Definition Allow (cfg : MemoryConfig) (ownerID : string) : M (option string) :=
  let? u := Today ownerID in Ret (Ok (gate_reason cfg u)).

(** ** Links *)
Definition autoLinkTypes : list string := ["mention"; "reply_to"; "channel_cooccurrence"].
Definition consolidationLinkTypes : list string := ["duplicate_of"; "superseded_by"].
Definition semanticLinkTypes : list string := ["refines"; "contradicts"; "examples"; "related"].
Definition IsAutoLinkType (relType : string) : bool := bool_decide (relType ∈ autoLinkTypes).

(** The CHECK and UNIQUE constraints of the table. *)
Definition link_type_ok (relType : string) : bool :=
  bool_decide (relType ∈ semanticLinkTypes ++ consolidationLinkTypes ++ autoLinkTypes).
Definition same_link (src dst : Z) (relType : string) (l : Link) : bool :=
  (SrcMessageID l =? src) && (DstMessageID l =? dst) && String.eqb (RelationType l) relType.
Definition link_insertable (src dst : Z) (relType : string) (d : db) : bool :=
  link_type_ok relType && (affected (same_link src dst relType) (memory_links d) =? 0).

Definition InsertLink (src dst : Z) (relType ownerID createdBy : string) (metadata : json) : M Z :=
  exec_o EDb
    (fun d => if link_insertable src dst relType d
              then set_memory_links (insert_row (fun id => mkLink id src dst relType ownerID createdBy metadata (clock d)) (memory_links d)) d
              else d)
    (fun d => if link_insertable src dst relType d then Ok (next_id (memory_links d)) else Err EDb).

(** Who may write which type. *)
Definition link_reserved (relType createdBy : string) : bool :=
  if String.prefix "agent:" createdBy
  then bool_decide (relType ∈ autoLinkTypes) || bool_decide (relType ∈ consolidationLinkTypes)
  else if String.prefix "auto:" createdBy then negb (bool_decide (relType ∈ autoLinkTypes))
  else false.

Definition metadata_or_empty (m : option json) : json := default (JObj []) m.

Definition Add (src dst : Z) (relType ownerID createdBy : string) (metadata : option json) : M Z :=
  if (src =? 0) || (dst =? 0) then Ret (Err EMemoryFields)
  else if str_empty relType || str_empty ownerID || str_empty createdBy then Ret (Err EMemoryFields)
  else if link_reserved relType createdBy then Ret (Err ErrLinkTypeReserved)
  else InsertLink src dst relType ownerID createdBy (metadata_or_empty metadata).

Definition AddConsolidationLink (src dst : Z) (relType ownerID createdBy : string) (metadata : option json) : M Z :=
  if negb (bool_decide (relType ∈ consolidationLinkTypes)) then Ret (Err (EConsolidationLink relType))
  else InsertLink src dst relType ownerID createdBy (metadata_or_empty metadata).

Definition link_oldest (a b : Link) : Prop := Link_ID a <= Link_ID b.
#[export] Instance link_oldest_dec a b : Decision (link_oldest a b).
Proof. unfold link_oldest. apply _. Defined.
Definition link_newest (a b : Link) : Prop := Link_ID b <= Link_ID a.
#[export] Instance link_newest_dec a b : Decision (link_newest a b).
Proof. unfold link_newest. apply _. Defined.

Section LinkQueries.
Context {HEng : Engine}.

Definition ListByMessage (msgID : Z) : M (list Link) :=
  query EDb (fun d => select_by link_oldest (fun l => (SrcMessageID l =? msgID) || (DstMessageID l =? msgID)) (memory_links d)).

Definition ListByOwner (ownerID : string) (types : list string) (limit : Z) : M (list Link) :=
  let limit := default_limit 100 limit in
  query EDb (fun d => page limit 0 (select_by link_newest
    (fun l => String.eqb (Link_OwnerID l) ownerID && (bool_decide (types = []) || bool_decide (RelationType l ∈ types)))
    (memory_links d))).
End LinkQueries.

(** ** Core memory *)

(** NewCoreMemoryStore. *)
Definition core_max_bytes (maxBytes : Z) : Z := if maxBytes <=? 0 then 2048 else maxBytes.

Definition Core_Get (ownerID agentName : string) : M (option CoreMemory) :=
  query EDb (fun d => memory_core d !! (ownerID, agentName)).

Definition Core_Set (maxBytes : Z) (ownerID agentName blob updatedBy : string) : M unit :=
  if maxBytes <? Z.of_nat (String.length blob) then Ret (Err ErrCoreMemoryTooLarge)
  else if str_empty ownerID || str_empty agentName || str_empty updatedBy then Ret (Err EMemoryFields)
  else exec EDb (fun d => set_memory_core (<[(ownerID, agentName) := mkCoreMemory blob (clock d) updatedBy]> (memory_core d)) d)
                (fun _ => tt).

Definition Core_Delete (ownerID agentName : string) : M unit :=
  exec EDb (fun d => set_memory_core (delete (ownerID, agentName) (memory_core d)) d) (fun _ => tt).

Definition core_by_agent (a b : (string * string) * CoreMemory) : Prop := str_le a.1.2 b.1.2.
#[export] Instance core_by_agent_dec a b : Decision (core_by_agent a b).
Proof. unfold core_by_agent, str_le. apply _. Defined.

Definition Core_List (ownerID : string) : M (list ((string * string) * CoreMemory)) :=
  query EDb (fun d => merge_sort core_by_agent
    (filter (fun kv => String.eqb kv.1.1 ownerID = true) (map_to_list (memory_core d)))).

Definition GetForInjection (ownerID agentName : string) : M string :=
  let? r := Core_Get ownerID agentName in Ret (Ok (match r with Some c => Blob c | None => EmptyString end)).

(** ** Pins *)
Definition Pin_memory (ownerID : string) (msgID : Z) (pinnedBy note : string) : M unit :=
  if str_empty ownerID then Ret (Err EMemoryFields)
  else if msgID =? 0 then Ret (Err EMemoryFields)
  else
    let pinnedBy := if str_empty pinnedBy then "human:" +:+ ownerID else pinnedBy in
    exec EDb (fun d => set_memory_pins (<[(ownerID, msgID) := mkPin pinnedBy note (clock d)]> (memory_pins d)) d) (fun _ => tt).

Definition Unpin (ownerID : string) (msgID : Z) : M unit :=
  exec EDb (fun d => set_memory_pins (delete (ownerID, msgID) (memory_pins d)) d) (fun _ => tt).

Definition pin_newest (a b : (string * Z) * Pin) : Prop := PinnedAt b.2 <= PinnedAt a.2.
#[export] Instance pin_newest_dec a b : Decision (pin_newest a b).
Proof. unfold pin_newest. apply _. Defined.

Section Pins.
Context {HEng : Engine}.

Definition ListPinsForOwner (ownerID : string) : M (list ((string * Z) * Pin)) :=
  query EDb (fun d => merge_sort pin_newest
    (scan (filter (fun kv => String.eqb kv.1.1 ownerID = true) (map_to_list (memory_pins d))))).

Definition ListForOwner (ownerID : string) : M (list Z) :=
  let? l := ListPinsForOwner ownerID in Ret (Ok ((fun kv => kv.1.2) <$> l)).
End Pins.

(** ** The injection log *)
Definition injection_row (r : InjectionRecord) (now id : Z) : InjectionRecord :=
  mkInjectionRecord id (Inj_OwnerID r) (Inj_AgentName r) (ToolName r) (PacketSizeChars r) (PacketItemsCount r)
    (MessageIDs r) (CoreBlobIncluded r) (if Inj_CreatedAt r =? zero_time then now else Inj_CreatedAt r).

Definition Record_injection (r : InjectionRecord) : M unit :=
  exec EDb (fun d => set_memory_injections (insert_row (injection_row r (clock d)) (memory_injections d)) d) (fun _ => tt).

Definition Cleanup_injections (olderThan : Z) : M Z :=
  if olderThan <=? 0 then Ret (Ok 0)
  else
    let! now := time_now in
    let old (r : InjectionRecord) := Inj_CreatedAt r <? now - olderThan in
    exec EDb (fun d => set_memory_injections (delete_rows old (memory_injections d)) d)
             (fun d => affected old (memory_injections d)).

(** ** The status of a memory: the view [memory_status] *)
Inductive MemStatus := MemoryStatusActive | MemoryStatusSoftDeleted | MemoryStatusSuperseded.
#[export] Instance MemStatus_eq_dec : EqDecision MemStatus.
Proof. solve_decision. Defined.

Record MemoryStatus := mkMemoryStatus {
  MS_Status : MemStatus;
  SupersededBy : option Z;
  SoftDeletedAt : option Z;
  Reason : string
}.

Definition arg_int (k : string) (a : Action) : option Z :=
  match list_find (fun kv => kv.1 = k) (act_args a) with Some (_, (_, ArgInt z)) => Some z | _ => None end.
Definition arg_str (k : string) (a : Action) : option string :=
  match list_find (fun kv => kv.1 = k) (act_args a) with Some (_, (_, ArgStr s)) => Some s | _ => None end.

(** A row of the common table expression: an action of a finished job. *)
Record ActionRow := mkActionRow { ar_owner : string; ar_action : Action; ar_at : option Z }.

Definition finished_job (j : Job) : bool :=
  bool_decide (Job_Status j = JobStatusSucceeded \/ Job_Status j = JobStatusPartial).

Definition job_actions (j : Job) : list ActionRow := (fun a => mkActionRow (Job_OwnerID j) a (FinishedAt j)) <$> Actions j.

Definition supersedes (r : ActionRow) : bool := String.eqb (act_tool (ar_action r)) "memory_supersede".
Definition deletes (r : ActionRow) : bool :=
  String.eqb (act_tool (ar_action r)) "memory_mark_duplicate" &&
  match arg_int "keep_id" (ar_action r) with Some k => negb (k =? act_target (ar_action r)) | None => false end.

Definition maxS (l : list string) : option string := last (sort_strings l).

(** The row of a group. *)
Definition group_status (g : list ActionRow) : MemoryStatus :=
  let sup := filter (fun r => supersedes r = true) g in
  let del := filter (fun r => deletes r = true) g in
  mkMemoryStatus
    (if bool_decide (is_Some (maxZ (omap ar_at sup))) then MemoryStatusSuperseded
     else if bool_decide (is_Some (maxZ (omap ar_at del))) then MemoryStatusSoftDeleted
     else MemoryStatusActive)
    (maxZ (omap (fun r => arg_int "b_id" (ar_action r)) sup))
    (maxZ (omap ar_at del))
    (default EmptyString (maxS (omap (fun r => arg_str "reason" (ar_action r)) g))).

Definition in_group (k : Z * string) (r : ActionRow) : bool :=
  (act_target (ar_action r) =? k.1) && String.eqb (ar_owner r) k.2.

Section Status.
Context {HEng : Engine}.

Definition action_rows (d : db) : list ActionRow := select finished_job (memory_jobs d) ≫= job_actions.

(** Its groups, keyed by message and owner. *)
Definition status_groups (d : db) : list (Z * string) :=
  scan (remove_dups ((fun r => (act_target (ar_action r), ar_owner r)) <$> action_rows d)).

Definition memory_status (d : db) : list ((Z * string) * MemoryStatus) :=
  (fun k => (k, group_status (filter (fun r => in_group k r = true) (action_rows d)))) <$> status_groups d.

(** [out[id] = ms] for every row of the view: of two owners' rows of one
    message the last one stays. *)
Definition MemoryStatuses (msgIDs : list Z) : M (gmap Z MemoryStatus) :=
  if bool_decide (msgIDs = []) then Ret (Ok ∅)
  else query EDb (fun d => foldl (fun m '(k, s) => <[k.1 := s]> m) ∅
    (filter (fun kv => bool_decide (kv.1.1 ∈ msgIDs) = true) (memory_status d))).

Definition StatusByID (msgIDs : list Z) : M (gmap Z MemStatus) :=
  let? m := MemoryStatuses msgIDs in Ret (Ok (MS_Status <$> m)).
End Status.
