(* ===== verification/Dream.v ===== *)
(** * The consolidator (internal/messaging/consolidator.go, consolidator_prompts.go)

    The worker that dispatches consolidation jobs: per owner, when enough
    unprocessed memories have piled up or the nightly pass is due, behind a
    daily circuit breaker.  A job is created, given a token, flipped to
    dispatched and run by a goroutine, which is part of the answer of the call
    that starts it ([dream_spawn]). *)
From stdpp Require Import pretty.
From S2P Require Import Prelude Prog Table Schema Messaging MessagingQueries Agents Memory.

(** ** Requests *)

(** The prompt of a job; the texts are constants. *)
Inductive Prompt := promptReflection | promptCoreRewrite | promptDedupContradiction | promptLinkGen | promptNone.

Definition PromptFor (jobType : string) : Prompt :=
  if String.eqb jobType JobTypeReflection then promptReflection
  else if String.eqb jobType JobTypeCoreRewrite then promptCoreRewrite
  else if String.eqb jobType JobTypeDedupContradiction then promptDedupContradiction
  else if String.eqb jobType JobTypeLinkGen then promptLinkGen
  else promptNone.

(** A variable of the environment holds a text or the prompt. *)
Record HarnessExecRequest := mkHarnessExecRequest {
  her_RunID : string;
  her_AgentName : string;
  her_Body : Prompt;
  her_Env : gmap string (string + Prompt);
  MaxWallClock : Z
}.

Record HarnessExecResult := mkHarnessExecResult {
  her_ExitCode : Z;
  her_Logs : string;
  her_TokensIn : Z;
  her_TokensOut : Z
}.

(** The goroutine [w.runJob(ownerID, jobID, jobType, tok, runID, agent)]. *)
Record dream_spawn := mkDreamSpawn {
  ds_OwnerID : string;
  ds_JobID : Z;
  ds_JobType : string;
  ds_Token : string;
  ds_RunID : string;
  ds_Agent : Agent
}.

(** What running an agent leaves alone, while time passes: what the agent
    does to the memory it does through the memory tools, calls of their own. *)
Definition memory_untouched (d d' : db) : Prop :=
  memory_jobs d' = memory_jobs d /\ dispatch_tokens d' = dispatch_tokens d /\ dream_usage d' = dream_usage d /\
  memory_links d' = memory_links d /\ memory_core d' = memory_core d /\ agents d' = agents d /\ clock d <= clock d'.
#[export] Instance memory_untouched_preorder : PreOrder memory_untouched.
Proof.
  split; [by repeat split|]. intros a b c (?&?&?&?&?&?&?) (?&?&?&?&?&?&?). split_and!; first [congruence|lia].
Qed.

(** The harness, the source of run ids, and the text of an error. *)
Class DreamHarness := {
  Execute : Agent -> HarnessExecRequest -> M (option HarnessExecResult);
  uuid_NewString : prog db string;
  err_text : error -> string;
  Execute_frame : forall a r, within memory_untouched (Execute a r);
  uuid_frame : within memory_untouched uuid_NewString
}.

(** [mapHarnessResult]; [expired]: the deadline of the context has passed. *)
Definition mapHarnessResult (err_text : error -> string) (res : outcome error (option HarnessExecResult)) (expired : bool)
    : ConsolidationStatus * string * string :=
  if expired then (JobStatusPartial, "wallclock budget exhausted", "context deadline exceeded")
  else match res with
       | Err e => (JobStatusFailed, "", err_text e)
       | Ok (Some r) => if her_ExitCode r =? 0 then (JobStatusSucceeded, "completed cleanly", "")
                        else (JobStatusPartial, "exit code " +:+ pretty (her_ExitCode r), "")
       | _ => (JobStatusFailed, "", "nil result")
       end.

(** Past 03:00 UTC of the day, and not yet run since. *)
Definition isDeepPassDue (now last : Z) : bool :=
  let threeAM := utcDate now * 86400 + 10800 in (threeAM <=? now) && (last <? threeAM).

(** ** The worker *)
Record ConsolidatorWorker := mkConsolidatorWorker {
  w_cfg : MemoryConfig;
  w_usage : bool;          (** is the usage store wired *)
  w_gate : bool;           (** is the gate wired *)
  w_injections : bool      (** is the injection log cleaned up here *)
}.

Section Consolidator.
Context {HEng : Engine} {HCred : Credentials} {HDream : DreamHarness} (w : ConsolidatorWorker).

Definition recent_window : Z := if DreamRecentWindow (w_cfg w) <=? 0 then 14 * 86400 else DreamRecentWindow (w_cfg w).
Definition wallclock : Z := if DreamWallclockBudget (w_cfg w) <=? 0 then 600 else DreamWallclockBudget (w_cfg w).

(** A store call when the store is wired; its error is dropped. *)
Definition when_usage (p : M unit) : prog db unit := if w_usage w then let! _ := p in Ret tt else Ret tt.

(** Complete the job as failed and return the error. *)
Definition abandon {A} (jobID : Z) (what : string) (e : error) : M A :=
  let! _ := Complete jobID JobStatusFailed "" what in Ret (Err e).

Definition launchOne (ownerID jobType : string) (jobID : Z) : M (list dream_spawn) :=
  let! issued := Issue ownerID jobID in
  match issued with
  | Err e => abandon jobID ("token issue: " +:+ err_text e) e
  | Panic p => Ret (Panic p)
  | Ok (tok, _) =>
      let! found := GetAgent (DreamAgent (w_cfg w)) in
      match found with
      | Err _ => abandon jobID "dream agent not found" (EDreamAgentNotFound (DreamAgent (w_cfg w)))
      | Panic p => Ret (Panic p)
      | Ok agent =>
          let! runID := uuid_NewString in
          let! flipped := Dispatch_job jobID runID tok in
          match flipped with
          | Err e => abandon jobID ("dispatch flip: " +:+ err_text e) e
          | Panic p => Ret (Panic p)
          | Ok _ =>
              let! _ := when_usage (RecordStart ownerID) in
              Ret (Ok [mkDreamSpawn ownerID jobID jobType tok runID agent])
          end
      end
  end.

(** The row that records a refused dispatch. *)
Definition refuse_job (ownerID jobType reason : string) : M Z :=
  let? jobID := Create ownerID jobType ("circuit_broken:" +:+ reason) in
  let! _ := Complete jobID JobStatusCircuitBroken ("circuit_broken: " +:+ reason) "" in
  Ret (Ok jobID).

Definition gate_verdict (ownerID : string) : prog db (option string) :=
  if w_gate w then let! r := Allow (w_cfg w) ownerID in Ret (match r with Ok reason => reason | _ => None end)
  else Ret None.

(** The code repeats [launchOne] here, error handling included. *)
Definition tryDispatch (ownerID jobType trigger : string) : prog db (list dream_spawn) :=
  let! refused := gate_verdict ownerID in
  match refused with
  | Some reason =>
      let! _ := refuse_job ownerID jobType reason in
      let! _ := when_usage (RecordCompletion ownerID 0 0 JobStatusCircuitBroken) in
      Ret []
  | None =>
      let! created := Create ownerID jobType trigger in
      match created with
      | Ok jobID => let! l := launchOne ownerID jobType jobID in Ret (match l with Ok s => s | _ => [] end)
      | _ => Ret []
      end
  end.

(** The slots from [slot] on, [n] of them: the ids so far, the error that
    ended the loop, the goroutines started. *)
Fixpoint force_slots (ownerID jobType : string) (n : nat) (slot : Z) (out : list Z) (started : list dream_spawn)
    : prog db (list Z * option error * list dream_spawn) :=
  match n with
  | O => Ret (out, None, started)
  | S n' =>
      let! created := CreateOnSlot ownerID jobType ("manual:" +:+ ownerID) slot in
      match created with
      | Ok jobID =>
          let! l := launchOne ownerID jobType jobID in
          match l with
          | Ok s => force_slots ownerID jobType n' (slot + 1) (out ++ [jobID]) (started ++ s)
          | Err e => Ret (out, Some e, started)
          | Panic p => Ret (out, Some (EBackend p), started)
          end
      | Err ErrJobAlreadyInFlight =>
          if bool_decide (out = []) && (slot =? 0)
          then
            let! active := ActiveJob ownerID jobType in
            match active with
            | Ok (Some j) => Ret ([Job_ID j], None, started)
            | _ => force_slots ownerID jobType n' (slot + 1) out started
            end
          else force_slots ownerID jobType n' (slot + 1) out started
      | Err e => Ret (out, Some e, started)
      | Panic p => Ret (out, Some (EBackend p), started)
      end
  end.

Definition ForceRunN (ownerID jobType : string) (parallel : Z) : prog db (list Z * option error * list dream_spawn) :=
  let parallel := if parallel <=? 0 then 1 else parallel in
  let parallel := if String.eqb jobType JobTypeCoreRewrite then 1 else parallel in
  let! refused := gate_verdict ownerID in
  match refused with
  | Some reason =>
      let! r := refuse_job ownerID jobType reason in
      match r with
      | Ok jobID =>
          let! _ := when_usage (RecordCompletion ownerID 0 0 JobStatusCircuitBroken) in
          Ret ([jobID], Some (ECircuitBroken reason), [])
      | _ => Ret ([], Some (ECircuitBroken reason), [])
      end
  | None => force_slots ownerID jobType (Z.to_nat parallel) 0 [] []
  end.

Definition ForceRun (ownerID jobType : string) : prog db (outcome error Z * list dream_spawn) :=
  let! r := ForceRunN ownerID jobType 1 in
  let '(ids, err, started) := r in
  Ret (match err, ids with
       | Some e, _ => Err e
       | None, id :: _ => Ok id
       | None, [] => Ok 0
       end, started).

Definition job_env (s : dream_spawn) : gmap string (string + Prompt) :=
  <["SYNAPBUS_DISPATCH_TOKEN" := inl (ds_Token s)]>
    (<["SYNAPBUS_CONSOLIDATION_JOB_ID" := inl (pretty (ds_JobID s))]>
      (<["SYNAPBUS_JOB_TYPE" := inl (ds_JobType s)]>
        (<["SYNAPBUS_OWNER_ID" := inl (ds_OwnerID s)]>
          (<["SYNAPBUS_DREAM_PROMPT" := inr (PromptFor (ds_JobType s))]> ∅)))).

Definition job_request (s : dream_spawn) : HarnessExecRequest :=
  mkHarnessExecRequest (ds_RunID s) (Agent_Name (ds_Agent s)) (PromptFor (ds_JobType s)) (job_env s) wallclock.

(** The tokens a result reports; 0 without one. *)
Definition result_tokens (res : outcome error (option HarnessExecResult)) : Z * Z :=
  match res with Ok (Some r) => (her_TokensIn r, her_TokensOut r) | _ => (0, 0) end.

(** The run: its context ends [wallclock] seconds after it began. *)
Definition runJob (s : dream_spawn) : prog db unit :=
  let! began := time_now in
  let! _ := Lease (ds_JobID s) (began + wallclock) in
  let! res := Execute (ds_Agent s) (job_request s) in
  let! now := time_now in
  let '(status, summary, errMsg) := mapHarnessResult err_text res (wallclock <=? now - began) in
  let! _ := Complete (ds_JobID s) status summary errMsg in
  let! _ := Revoke (ds_Token s) in
  let '(tIn, tOut) := result_tokens res in
  when_usage (RecordCompletion (ds_OwnerID s) tIn tOut status).

(** The goroutine: when the worker is stopped before a slot of the semaphore
    is free, it returns without running the job. *)
Definition dream_goroutine (stopped : bool) (s : dream_spawn) : prog db unit :=
  if stopped then Ret tt else runJob s.

(** ** Triggers *)
Definition MemoryChannelIDs : M (list Z) :=
  query EDb (fun d => Ch_ID <$> scan (select memory_channel (channels d))).

(** SELECT DISTINCT CAST(owner_id AS TEXT) FROM agents WHERE owner_id > 0. *)
Definition listOwners : M (list string) :=
  query EDb (fun d => scan (remove_dups (pretty <$> (filter (fun o => 0 < o) (Agent_OwnerID <$> rows (agents d)))))).

(** A message whose author belongs to the owner. *)
Definition authored_by_owner (ownerID : string) (d : db) (m : Message) : bool :=
  existsb (fun a => String.eqb (FromAgent m) (Agent_Name a) && String.eqb (pretty (Agent_OwnerID a)) ownerID) (rows (agents d)).

Definition memory_message (chans : list Z) (m : Message) : bool :=
  match Msg_ChannelID m with Some c => bool_decide (c ∈ chans) | None => false end.

(** MAX(finished_at) of the owner's reflection jobs that finished. *)
Definition last_reflection (ownerID : string) (d : db) : option Z :=
  maxZ (omap FinishedAt (select (fun j => String.eqb (Job_OwnerID j) ownerID && String.eqb (JobType j) JobTypeReflection &&
                                        finished_job j) (memory_jobs d))).

Definition unprocessedCount (ownerID : string) : M Z :=
  let? chans := MemoryChannelIDs in
  if bool_decide (chans = []) then Ret (Ok 0)
  else
    let! lastFinished := query EDb (last_reflection ownerID) in
    let! now := time_now in
    let since := match lastFinished with Ok (Some t) => t | _ => zero_time end in
    let windowStart := now - recent_window in
    let since := if since <? windowStart then windowStart else since in
    query EDb (fun d => affected (fun m => memory_message chans m && authored_by_owner ownerID d m && (since <? Msg_CreatedAt m))
                                 (messages d)).

Definition ownerActiveSince (ownerID : string) (since : Z) : prog db bool :=
  if str_empty ownerID then Ret false
  else
    let! r := query (E := error) EDb (fun d => existsb (fun m => authored_by_owner ownerID d m && (since <? Msg_CreatedAt m)) (rows (messages d))) in
    Ret (match r with Ok b => b | _ => false end).

Definition watermark_pass (owner : string) : prog db (list dream_spawn) :=
  let! n := unprocessedCount owner in
  match n with
  | Ok count =>
      if DreamWatermark (w_cfg w) <=? count
      then
        let trigger := "watermark:" +:+ pretty count in
        let! s1 := tryDispatch owner JobTypeReflection trigger in
        let! s2 := tryDispatch owner JobTypeLinkGen trigger in
        let! s3 := tryDispatch owner JobTypeDedupContradiction trigger in
        Ret (s1 ++ s2 ++ s3)
      else Ret []
  | _ => Ret []
  end.

Definition deep_pass (owner : string) : prog db (list dream_spawn) :=
  let! now := time_now in
  let! active := ownerActiveSince owner (now - recent_window) in
  if active then tryDispatch owner JobTypeCoreRewrite "cron:nightly" else Ret [].

Fixpoint owners_pass (deepPassDue : bool) (owners : list string) : prog db (list dream_spawn) :=
  match owners with
  | [] => Ret []
  | owner :: rest =>
      let! s1 := watermark_pass owner in
      let! s2 := (if deepPassDue then deep_pass owner else Ret []) in
      let! s3 := owners_pass deepPassDue rest in
      Ret (s1 ++ s2 ++ s3)
  end.

(** One evaluation: the times of the last deep pass and of the last clean-up
    go in and come out. *)
Definition worker_tick (lastDeepPass lastHourlyCleanup : Z) : prog db (list dream_spawn * Z * Z) :=
  let! now := time_now in
  let due := w_injections w && (3600 <=? now - lastHourlyCleanup) in
  let! _ := (if due then let! _ := Cleanup_injections 86400 in Ret tt else Ret tt) in
  let cleaned := if due then now else lastHourlyCleanup in
  let! owners := listOwners in
  match owners with
  | Ok l =>
      let deepPassDue := isDeepPassDue now lastDeepPass in
      let! s := owners_pass deepPassDue l in
      Ret (s, (if deepPassDue then now else lastDeepPass), cleaned)
  | _ => Ret ([], lastDeepPass, cleaned)
  end.
End Consolidator.
