(* ===== verification/MemoryTools.v ===== *)
(** * Memory tools (internal/mcp/memory_tools.go; internal/messaging/auto_links.go)

    The six tools a dispatched agent may call on its owner's memory, each
    behind the dispatch token in the request, each recorded in the actions of
    the job the token is bound to; and the links the messaging layer adds by
    itself when a memory is posted. *)
From stdpp Require Import pretty.
From S2P Require Import Prelude Prog Table Schema Messaging MessagingQueries Agents Memory Dream.

(** The answers of the tools. *)
Inductive tool_answer :=
| ListedMemories (items : list (Z * string * string * string * Z)) (maxID : Z)   (** id, author, channel, body, time *)
| WroteReflection (memoryID : Z) (channel : string) (linksCreated : Z)
| RewroteCore (previous : string) (newChars : Z)
| MarkedDuplicate (keepID loserID linkID : Z)
| Superseded (aID bID linkID : Z)
| AddedLink (linkID : Z).

(** ** The request's lists of ids *)

(** [strings.TrimSpace] on ASCII text, and [strings.Split(s, ",")]. *)
Definition is_space (a : Ascii.ascii) : bool :=
  let n := Ascii.nat_of_ascii a in ((9 <=? n) && (n <=? 13))%nat || (n =? 32)%nat.
Fixpoint skip_space (s : string) : string :=
  match s with String a r => if is_space a then skip_space r else s | EmptyString => EmptyString end.
Fixpoint split_on (sep : Ascii.ascii) (s cur : string) : list string :=
  match s with
  | EmptyString => [cur]
  | String a r => if Ascii.eqb a sep then cur :: split_on sep r EmptyString
                  else split_on sep r (cur +:+ String a EmptyString)
  end.

(** The decimal digits a string starts with, as a number; [None] without one. *)
Definition digit_of (a : Ascii.ascii) : option Z :=
  let n := Z.of_nat (Ascii.nat_of_ascii a) in if (48 <=? n) && (n <=? 57) then Some (n - 48) else None.
Fixpoint leading_digits (s : string) (acc : option Z) : option Z :=
  match s with
  | String a r => match digit_of a with
                  | Some k => leading_digits r (Some (default 0 acc * 10 + k))
                  | None => acc
                  end
  | EmptyString => acc
  end.

(** [fmt.Sscanf(p, "%d", &v)] into an int64: a sign, then digits; a number out
    of range is an error, and what follows it is left unread. *)
Definition scan_int (p : string) : option Z :=
  let '(neg, digits) := match p with
                        | String a r => if bool_decide (Ascii.nat_of_ascii a = 45%nat) then (true, r)
                                        else if bool_decide (Ascii.nat_of_ascii a = 43%nat) then (false, r)
                                        else (false, p)
                        | EmptyString => (false, p)
                        end in
  match leading_digits digits None with
  | Some v => let v := if (neg : bool) then - v else v in
              if (int64_min <=? v) && (v <=? int64_max) then Some v else None
  | None => None
  end.

Definition parseInt64CSV (s : string) : list Z :=
  omap (fun p => match scan_int (skip_space p) with
                 | Some v => if 0 <? v then Some v else None
                 | None => None
                 end) (split_on (Ascii.ascii_of_nat 44) s EmptyString).

Section Tools.
Context {HEng : Engine} (deps : MemoryConfig) (maxBytes : Z).

(** ** Shared checks *)
Definition tool_error {A} (code : string) : M A := Ret (Err (ETool code)).

(** The token of the request against the owner it names: the job it is bound
    to. *)
Definition authorizeForOwner (token : option string) (ownerID : string) : M Z :=
  match token with
  | None => tool_error "dispatch_token_missing"
  | Some tok =>
      let! row := query EDb (fun d => dispatch_tokens d !! tok) in
      match row with
      | Ok (Some t) =>
          let! now := time_now in
          if negb (bool_decide (RevokedAt t = None)) then tool_error "dispatch_token_revoked"
          else if negb (now <? Tok_ExpiresAt t) then tool_error "dispatch_token_expired"
          else if negb (String.eqb (Tok_OwnerID t) ownerID) then tool_error "dispatch_token_owner_mismatch"
          else
            let! v := Validate tok ownerID (Tok_JobID t) in
            match v with
            | Ok _ => Ret (Ok (Tok_JobID t))
            | Err _ => tool_error "dispatch_token_missing"
            | Panic p => Ret (Panic p)
            end
      | _ => tool_error "dispatch_token_missing"
      end
  end.

(** Best effort: the error is logged. *)
Definition recordAction (jobID : Z) (tool : string) (targetID : Z) (args : list (string * ArgValue)) : prog db unit :=
  let! now := time_now in
  let! _ := AppendAction jobID (mkAction tool targetID args now) in Ret tt.

(** (exists, is the owner's); a failing query says no. *)
Definition messageBelongsTo (msgID : Z) (ownerID : string) : prog db (bool * bool) :=
  let! m := query_o EDb (fun d => match find_id msgID (messages d) with Some m => Ok (FromAgent m) | None => Err ErrNoRows end) in
  match m with
  | Ok from => let! o := OwnerFor from in
               Ret (true, match o with Ok owner => String.eqb owner ownerID | _ => false end)
  | _ => Ret (false, false)
  end.

Fixpoint check_owned (ids : list Z) (ownerID : string) : M unit :=
  match ids with
  | [] => Ret (Ok tt)
  | id :: rest =>
      let! b := messageBelongsTo id ownerID in
      if negb b.1 then tool_error "source_not_found"
      else if negb b.2 then tool_error "not_same_owner"
      else check_owned rest ownerID
  end.

(** An error of a store inside a tool. *)
Definition or_internal {A} (p : M A) : M A :=
  let! r := p in
  match r with Ok a => Ret (Ok a) | Err _ => tool_error "internal" | Panic w => Ret (Panic w) end.

(** ** Listing *)
Definition consolidated (d : db) (id : Z) : bool :=
  existsb (fun l => (DstMessageID l =? id) && bool_decide (RelationType l ∈ ["refines"; "duplicate_of"; "superseded_by"]))
          (rows (memory_links d)).

(** [DreamRecentWindow / 24h], at least a day, else 14. *)
Definition window_days : Z := let n := Z.quot (DreamRecentWindow deps) 86400 in if n <? 1 then 14 else n.

Definition unprocessed (owner : string) (chans : list Z) (since now : Z) (d : db) (m : Message) : bool :=
  memory_message chans m && authored_by_owner owner d m && (since <? Msg_ID m) &&
  (now - window_days * 86400 <? Msg_CreatedAt m) && negb (sql_like "dream:%" (FromAgent m)) && negb (consolidated d (Msg_ID m)).

Definition msg_oldest (a b : Message) : Prop := Msg_ID a <= Msg_ID b.
#[local] Instance msg_oldest_dec a b : Decision (msg_oldest a b).
Proof. unfold msg_oldest. apply _. Defined.

Definition channel_name (d : db) (m : Message) : option string :=
  match Msg_ChannelID m with Some c => Ch_Name <$> find_id c (channels d) | None => None end.

Definition listed_item (d : db) (m : Message) : option (Z * string * string * string * Z) :=
  (fun c => (Msg_ID m, FromAgent m, c, Body m, Msg_CreatedAt m)) <$> channel_name d m.

Definition clamp_limit (limit : Z) : Z := let l := if limit <=? 0 then 50 else limit in if 200 <? l then 200 else l.

Definition max_listed (since : Z) (items : list (Z * string * string * string * Z)) : Z :=
  foldl (fun m it => if m <? it.1.1.1.1 then it.1.1.1.1 else m) since items.

Definition handleListUnprocessed (token : option string) (owner : string) (since limit : Z) : M tool_answer :=
  if str_empty owner then tool_error "invalid_request"
  else
    let? jobID := authorizeForOwner token owner in
    let limit := clamp_limit limit in
    let? memIDs := or_internal MemoryChannelIDs in
    if bool_decide (memIDs = []) then Ret (Ok (ListedMemories [] since))
    else
      let? items := or_internal (query EDb (fun d =>
        page limit 0 (omap (listed_item d) (select_by msg_oldest (unprocessed owner memIDs since (clock d) d) (messages d))))) in
      let! _ := recordAction jobID "memory_list_unprocessed" 0
                  [("since_message_id", ArgInt since); ("limit", ArgInt limit); ("returned", ArgInt (Z.of_nat (length items)))] in
      Ret (Ok (ListedMemories items (max_listed since items))).

(** ** Writing *)

(** The first channel LIKE 'reflections-%', else open-brain; id 0 for none. *)
Definition ch_oldest (a b : Channel) : Prop := Ch_ID a <= Ch_ID b.
#[local] Instance ch_oldest_dec a b : Decision (ch_oldest a b).
Proof. unfold ch_oldest. apply _. Defined.

Definition pickReflectionChannel (ownerID : string) : M (Z * string) :=
  let? first := query EDb (fun d => head (select_by ch_oldest (fun c => sql_like "reflections-%" (Ch_Name c)) (channels d))) in
  match first with
  | Some c => Ret (Ok (Ch_ID c, Ch_Name c))
  | None => query EDb (fun d => match find_row (fun c => String.eqb (Ch_Name c) "open-brain") (channels d) with
                                | Some c => (Ch_ID c, Ch_Name c)
                                | None => (0, EmptyString)
                                end)
  end.

(** Plain INSERTs, past the messaging service. *)
Definition reflection_message (convID channelID : Z) (from body : string) : Message :=
  mkMessage 0 convID from None (Some channelID) None body 5 StatusPending
    (RawJson (JObj [("tags", JArr [JStr "reflection"])])) None None zero_time zero_time.

Fixpoint link_sources (newID : Z) (sources : list Z) (owner : string) (created : Z) : prog db Z :=
  match sources with
  | [] => Ret created
  | sid :: rest =>
      let! r := Add newID sid "refines" owner ("agent:dream:" +:+ owner) None in
      link_sources newID rest owner (if is_ok r then created + 1 else created)
  end.

Definition handleWriteReflection (token : option string) (owner body sources : string) : M tool_answer :=
  if str_empty owner || str_empty body then tool_error "invalid_request"
  else
    let? jobID := authorizeForOwner token owner in
    let sourceIDs := parseInt64CSV sources in
    let? _ := check_owned sourceIDs owner in
    let? ch := or_internal (pickReflectionChannel owner) in
    if ch.1 =? 0 then tool_error "internal"
    else
      let dreamAgent := "dream:" +:+ owner in
      let? conv := or_internal (InsertConversation (mkConversation 0 EmptyString dreamAgent (Some ch.1))) in
      let? msg := or_internal (InsertMessage (reflection_message (Conv_ID conv) ch.1 dreamAgent body)) in
      let! created := link_sources (Msg_ID msg) sourceIDs owner 0 in
      let! _ := recordAction jobID "memory_write_reflection" (Msg_ID msg)
                  [("source_message_ids", ArgInts sourceIDs); ("channel", ArgStr ch.2)] in
      Ret (Ok (WroteReflection (Msg_ID msg) ch.2 created)).

Definition handleRewriteCore (token : option string) (owner agent blob : string) : M tool_answer :=
  if str_empty owner || str_empty agent then tool_error "invalid_request"
  else
    let? jobID := authorizeForOwner token owner in
    let! target := OwnerFor agent in
    match target with
    | Err (EAgentNotFound _) => tool_error "source_not_found"
    | Err _ => tool_error "internal"
    | Panic p => Ret (Panic p)
    | Ok targetOwner =>
        if negb (String.eqb targetOwner owner) then tool_error "not_same_owner"
        else
          let! prev := Core_Get owner agent in
          let! r := Core_Set maxBytes owner agent blob ("agent:dream:" +:+ owner) in
          match r with
          | Err ErrCoreMemoryTooLarge => tool_error "core_memory_too_large"
          | Err _ => tool_error "internal"
          | Panic p => Ret (Panic p)
          | Ok _ =>
              let chars := Z.of_nat (String.length blob) in
              let! _ := recordAction jobID "memory_rewrite_core" 0
                          [("owner_id", ArgStr owner); ("agent_name", ArgStr agent); ("new_chars", ArgInt chars)] in
              Ret (Ok (RewroteCore (match prev with Ok (Some c) => Blob c | _ => EmptyString end) chars))
          end
    end.

Definition reason_json (reason : string) : json := JObj [("reason", JStr reason)].

Definition handleMarkDuplicate (token : option string) (owner : string) (aID bID keepID : Z) (reason : string) : M tool_answer :=
  if str_empty owner || (aID =? 0) || (bID =? 0) || (keepID =? 0) then tool_error "invalid_request"
  else if negb (keepID =? aID) && negb (keepID =? bID) then tool_error "keep_id_not_in_pair"
  else
    let? jobID := authorizeForOwner token owner in
    let? _ := check_owned [aID; bID] owner in
    let loserID := if keepID =? aID then bID else aID in
    let? linkID := or_internal (AddConsolidationLink loserID keepID "duplicate_of" owner ("agent:dream:" +:+ owner)
                                  (Some (reason_json reason))) in
    let! _ := recordAction jobID "memory_mark_duplicate" loserID
                [("a_id", ArgInt aID); ("b_id", ArgInt bID); ("keep_id", ArgInt keepID); ("reason", ArgStr reason)] in
    Ret (Ok (MarkedDuplicate keepID loserID linkID)).

Definition handleSupersede (token : option string) (owner : string) (aID bID : Z) (reason : string) : M tool_answer :=
  if str_empty owner || (aID =? 0) || (bID =? 0) then tool_error "invalid_request"
  else
    let? jobID := authorizeForOwner token owner in
    let? _ := check_owned [aID; bID] owner in
    let? linkID := or_internal (AddConsolidationLink aID bID "superseded_by" owner ("agent:dream:" +:+ owner)
                                  (Some (reason_json reason))) in
    let! _ := recordAction jobID "memory_supersede" aID
                [("a_id", ArgInt aID); ("b_id", ArgInt bID); ("reason", ArgStr reason)] in
    Ret (Ok (Superseded aID bID linkID)).

(** [metadata]: the object the argument holds, if it holds one. *)
Definition handleAddLink (token : option string) (owner : string) (srcID dstID : Z) (relType : string) (metadata : option json)
    : M tool_answer :=
  if str_empty owner || (srcID =? 0) || (dstID =? 0) || str_empty relType then tool_error "invalid_request"
  else
    let? jobID := authorizeForOwner token owner in
    let? _ := check_owned [srcID; dstID] owner in
    let! r := Add srcID dstID relType owner ("agent:dream:" +:+ owner) metadata in
    match r with
    | Err ErrLinkTypeReserved => tool_error "relation_type_reserved"
    | Err _ => tool_error "internal"
    | Panic p => Ret (Panic p)
    | Ok linkID =>
        let! _ := recordAction jobID "memory_add_link" dstID
                    [("src_id", ArgInt srcID); ("dst_id", ArgInt dstID); ("relation_type", ArgStr relType)] in
        Ret (Ok (AddedLink linkID))
    end.

(** The tools as [RegisterAllOnServer] puts them on the server. *)
Inductive tool_call :=
| memory_list_unprocessed (since limit : Z)
| memory_write_reflection (body sources : string)
| memory_rewrite_core (agent blob : string)
| memory_mark_duplicate (aID bID keepID : Z) (reason : string)
| memory_supersede (aID bID : Z) (reason : string)
| memory_add_link (srcID dstID : Z) (relType : string) (metadata : option json).

Definition call_tool (token : option string) (owner : string) (c : tool_call) : M tool_answer :=
  match c with
  | memory_list_unprocessed since limit => handleListUnprocessed token owner since limit
  | memory_write_reflection body sources => handleWriteReflection token owner body sources
  | memory_rewrite_core agent blob => handleRewriteCore token owner agent blob
  | memory_mark_duplicate aID bID keepID reason => handleMarkDuplicate token owner aID bID keepID reason
  | memory_supersede aID bID reason => handleSupersede token owner aID bID reason
  | memory_add_link srcID dstID relType metadata => handleAddLink token owner srcID dstID relType metadata
  end.
End Tools.

(** ** Links the messaging layer adds *)

(** A JSON number as [float64] and then as [int64]. *)
Class GoNumber := { int64_of_number : string -> Z }.

Definition is_alpha (a : Ascii.ascii) : bool :=
  let n := Ascii.nat_of_ascii a in ((65 <=? n) && (n <=? 90))%nat || ((97 <=? n) && (n <=? 122))%nat.
Definition mention_char (a : Ascii.ascii) : bool :=
  let n := Ascii.nat_of_ascii a in is_alpha a || ((48 <=? n) && (n <=? 57))%nat || (n =? 95)%nat || (n =? 45)%nat.

(** The longest prefix of mention characters, at most [n] of them. *)
Fixpoint mention_tail (n : nat) (s : string) : string :=
  match n, s with
  | S n', String a r => if mention_char a then String a (mention_tail n' r) else EmptyString
  | _, _ => EmptyString
  end.

(** [@([A-Za-z][A-Za-z0-9_\-]{1,63})] at the start of [s], past the [@]. *)
Definition auto_mention_at (s : string) : option string :=
  match s with
  | String a r => if is_alpha a then match mention_tail 63 r with
                                     | EmptyString => None
                                     | t => Some (String a t)
                                     end
                  else None
  | EmptyString => None
  end.

(** [FindAllStringSubmatch]: the names, from left to right; [skip] characters
    belong to the match before. *)
Fixpoint auto_mentions (skip : nat) (s : string) : list string :=
  match s with
  | EmptyString => []
  | String a r =>
      match skip with
      | S k => auto_mentions k r
      | O => if (Ascii.nat_of_ascii a =? 64)%nat
             then match auto_mention_at r with
                  | Some name => name :: auto_mentions (String.length name) r
                  | None => auto_mentions 0 r
                  end
             else auto_mentions 0 r
      end
  end.

Section AutoLinks.
Context {HEng : Engine} {HJson : GoJson} {HNum : GoNumber}.

Definition channelNameByID (id : Z) : M string :=
  query_o EDb (fun d => match find_id id (channels d) with Some c => Ok (Ch_Name c) | None => Err ErrNoRows end).

(** [itoaInt64]: the digits from the last to the first, in a buffer of 20;
    negating the smallest number leaves it negative. *)
Fixpoint itoa_digits (n : nat) (v : Z) (buf : string) : string :=
  match n with
  | O => buf
  | S n' => if 0 <? v then itoa_digits n' (Z.quot v 10) (String (Ascii.ascii_of_N (Z.to_N (48 + Z.rem v 10))) buf) else buf
  end.

Definition itoaInt64 (v : Z) : string :=
  if v =? 0 then "0"
  else
    let neg := v <? 0 in
    let buf := itoa_digits 20 (if neg then wrap64 (- v) else v) EmptyString in
    if neg then "-" +:+ buf else buf.

(** "" on any error. *)
Definition resolveOwnerString (fromAgent : string) : prog db string :=
  let! o := query_o EDb (fun d => match find_row (agent_named fromAgent) (agents d) with
                                  | Some a => Ok (Agent_OwnerID a)
                                  | None => Err ErrNoRows
                                  end) in
  Ret (match o with Ok id => if id =? 0 then EmptyString else itoaInt64 id | _ => EmptyString end).

Definition extractReplyToFromMetadata (meta : rawjson) : Z :=
  match unmarshal_map meta with
  | DecodedMap ms => match list_find (fun kv => kv.1 = "reply_to_message_id") ms with
                     | Some (_, (_, JNum n)) => int64_of_number n
                     | _ => 0
                     end
  | _ => 0
  end.

(** MAX(id) of the matching messages; 0 for none, and on an error. *)
Definition latest_message (p : Message -> bool) : prog db Z :=
  let! r := query (E := error) EDb (fun d => maxZ (Msg_ID <$> select p (messages d))) in
  Ret (match r with Ok (Some id) => id | _ => 0 end).

Definition in_channel (c : Z) (m : Message) : bool := bool_decide (Msg_ChannelID m = Some c).

Definition mostRecentMessageFromAgentInChannel (channelID : Z) (agent : string) (excludeID : Z) : prog db Z :=
  latest_message (fun m => in_channel channelID m && String.eqb (FromAgent m) agent && negb (Msg_ID m =? excludeID)).

Definition mostRecentMessageInChannel (channelID excludeID : Z) : prog db Z :=
  latest_message (fun m => in_channel channelID m && (Msg_ID m <? excludeID)).

Definition auto_link (src dst : Z) (rule owner : string) : prog db unit :=
  let! _ := Add src dst rule owner ("auto:" +:+ rule) None in Ret tt.

Definition link_mentions (msg : Message) (channelID : Z) (owner : string) : prog db unit :=
  for_each (auto_mentions 0 (Body msg)) (fun target =>
    if String.eqb target (FromAgent msg) then Ret tt
    else
      let! dst := mostRecentMessageFromAgentInChannel channelID target (Msg_ID msg) in
      if dst =? 0 then Ret tt else auto_link (Msg_ID msg) dst "mention" owner).

Definition reply_target (msg : Message) : Z :=
  match ReplyTo msg with
  | Some r => if r =? 0 then extractReplyToFromMetadata (Metadata msg) else r
  | None => extractReplyToFromMetadata (Metadata msg)
  end.

Definition OnMessageSent (msg : Message) : prog db unit :=
  if Msg_ID msg =? 0 then Ret tt
  else
    match Msg_ChannelID msg with
    | None => Ret tt
    | Some channelID =>
        let! name := channelNameByID channelID in
        match name with
        | Ok n =>
            if negb (matchesMemoryChannelName n) then Ret tt
            else
              let! owner := resolveOwnerString (FromAgent msg) in
              if str_empty owner then Ret tt
              else
                let reply := reply_target msg in
                let! _ := (if reply =? 0 then Ret tt else auto_link (Msg_ID msg) reply "reply_to" owner) in
                let! _ := link_mentions msg channelID owner in
                let! prev := mostRecentMessageInChannel channelID (Msg_ID msg) in
                if prev =? 0 then Ret tt else auto_link (Msg_ID msg) prev "channel_cooccurrence" owner
        | _ => Ret tt
        end
    end.
End AutoLinks.
