(* ===== verification/MemorySpec.v ===== *)
(** * Memory: what the tables keep, whatever runs

    The invariant of the consolidation tables and the order in which their
    rows may change, kept by every statement of the stores, the worker, the
    tools and the automatic links. *)
From stdpp Require Import pretty.
From S2P Require Import Prelude Prog Table Schema Messaging MessagingQueries Agents Memory Dream MemoryTools.

Create HintDb memory.

(** As [within_steps], but through the calls spelt in the goal only. *)
Ltac within_walk :=
  repeat first
    [ done
    | progress cbv beta zeta
    | match goal with
      | |- within _ (query _ _) => apply within_query; apply _
      | |- within _ (query_o _ _) => apply within_query_o; apply _
      | |- within _ (bind_ok _ _) => apply within_bind_ok; [|intros ?]
      | |- within _ (bind time_now _) => apply within_bind; [done|intros ?]
      | |- within _ (bind _ _) => apply within_bind; [|intros ?]
      | |- within _ (match ?x with _ => _ end) => destruct x
      | |- within _ (if ?x then _ else _) => destruct x
      end ].

(** ** The invariant *)
Record job_wf (j : Job) : Prop := {
  jw_type : job_type_ok (JobType j) = true;
  jw_status : job_status_ok (Job_Status j) = true;
  jw_over : FinishedAt j = None <-> in_flight (Job_Status j) = true;
  jw_lease : is_Some (LeaseUntil j) <-> Job_Status j = JobStatusRunning;
  jw_token : Job_Status j = JobStatusDispatched -> is_Some (Job_DispatchToken j)
}.

Definition job_slot (j : Job) : string * string * Z := (Job_OwnerID j, JobType j, Slot j).

(** Who wrote a link: the agents' and the automatic ones keep to their types. *)
Record link_wf (l : Link) : Prop := {
  lw_type : link_type_ok (RelationType l) = true;
  lw_agent : String.prefix "agent:" (CreatedBy l) = true -> IsAutoLinkType (RelationType l) = false
}.

Definition link_key (l : Link) : Z * Z * string := (SrcMessageID l, DstMessageID l, RelationType l).

Section Invariant.
Context (maxBytes : Z).

Record memory_ok (d : db) : Prop := {
  mo_jobs : table_ok (memory_jobs d);
  mo_job : forall j, j ∈ rows (memory_jobs d) -> job_wf j;
  mo_slots : forall i j, i ∈ rows (memory_jobs d) -> j ∈ rows (memory_jobs d) ->
    in_flight (Job_Status i) = true -> in_flight (Job_Status j) = true -> job_slot i = job_slot j -> Job_ID i = Job_ID j;
  mo_links : table_ok (memory_links d);
  mo_link : forall l, l ∈ rows (memory_links d) -> link_wf l;
  mo_link_keys : NoDup (link_key <$> rows (memory_links d));
  mo_tokens : forall k t, dispatch_tokens d !! k = Some t ->
    Tok_ExpiresAt t = Tok_IssuedAt t + DispatchTokenTTL /\ exists j, j ∈ rows (memory_jobs d) /\ Job_ID j = Tok_JobID t;
  mo_core : forall k c, memory_core d !! k = Some c -> Z.of_nat (String.length (Blob c)) <= maxBytes
}.

(** ** How rows may change *)

(** A job, earlier and later: what it is and where is fixed, one that is over
    stays over with its time, and recorded actions stay. *)
Definition job_identity (j : Job) := (Job_ID j, Job_OwnerID j, JobType j, TriggerReason j, Job_CreatedAt j, Slot j).
Record job_later (j j' : Job) : Prop := {
  jl_identity : job_identity j' = job_identity j;
  jl_over : in_flight (Job_Status j) = false -> in_flight (Job_Status j') = false;
  jl_finished : forall t, FinishedAt j = Some t -> FinishedAt j' = Some t;
  jl_actions : exists l, Actions j' = Actions j ++ l
}.

(** A token stays bound to its job and owner; a revocation stays. *)
Record token_later (t t' : DispatchToken) : Prop := {
  tl_bound : (Tok_OwnerID t', Tok_JobID t', Tok_IssuedAt t', Tok_ExpiresAt t') =
             (Tok_OwnerID t, Tok_JobID t, Tok_IssuedAt t, Tok_ExpiresAt t);
  tl_revoked : forall s, RevokedAt t = Some s -> RevokedAt t' = Some s;
  tl_used : forall s, Tok_UsedAt t = Some s -> Tok_UsedAt t' = Some s
}.

Record memory_later (d d' : db) : Prop := {
  ml_jobs : forall j, j ∈ rows (memory_jobs d) -> exists j', j' ∈ rows (memory_jobs d') /\ job_later j j';
  ml_tokens : forall k t, dispatch_tokens d !! k = Some t -> exists t', dispatch_tokens d' !! k = Some t' /\ token_later t t';
  ml_links : forall l, l ∈ rows (memory_links d) -> l ∈ rows (memory_links d')
}.

Lemma job_later_refl j : job_later j j.
Proof. split; [done..|]. exists []. by rewrite app_nil_r. Qed.

Lemma job_later_trans i j k : job_later i j -> job_later j k -> job_later i k.
Proof.
  intros [E1 O1 F1 [l1 A1]] [E2 O2 F2 [l2 A2]]. split; [congruence|auto|auto|].
  exists (l1 ++ l2). by rewrite A2, A1, app_assoc.
Qed.

Lemma token_later_refl t : token_later t t.
Proof. by split. Qed.

Lemma token_later_trans a b c : token_later a b -> token_later b c -> token_later a c.
Proof. intros [E1 R1 U1] [E2 R2 U2]. split; [congruence|auto|auto]. Qed.

#[export] Instance memory_later_preorder : PreOrder memory_later.
Proof.
  split.
  - intros d. split; [|intros k t H; exists t; split; [done|apply token_later_refl]|done].
    intros j Hj. exists j. split; [done|apply job_later_refl].
  - intros a b c [J1 T1 L1] [J2 T2 L2]. split.
    + intros i Hi. destruct (J1 i Hi) as (j&Hj&H1). destruct (J2 j Hj) as (k&Hk&H2). exists k.
      split; [done|by eapply job_later_trans].
    + intros k t Ht. destruct (T1 k t Ht) as (t1&Ht1&H1). destruct (T2 k t1 Ht1) as (t2&Ht2&H2). exists t2.
      split; [done|by eapply token_later_trans].
    + auto.
Qed.

Definition memory_step (d d' : db) : Prop := memory_ok d -> memory_ok d' /\ memory_later d d'.
#[export] Instance memory_step_reflexive : Reflexive memory_step.
Proof. intros d H. by split. Qed.

(** The tables the invariant is about. *)
Definition same_memory (d d' : db) : Prop :=
  memory_jobs d' = memory_jobs d /\ dispatch_tokens d' = dispatch_tokens d /\ memory_links d' = memory_links d /\
  memory_core d' = memory_core d.

Lemma same_memory_step d d' : same_memory d d' -> memory_step d d'.
Proof.
  intros (E1&E2&E3&E4) [H1 H2 H3 H4 H5 H6 H7 H8]. split; [split; rewrite ?E1, ?E2, ?E3, ?E4; done|].
  split; rewrite ?E1, ?E2, ?E3; [|intros k t H; exists t; split; [done|apply token_later_refl]|done].
  intros j Hj. exists j. split; [done|apply job_later_refl].
Qed.

(** ** Each kind of statement *)
Lemma jobs_update_step p f d :
  (forall j, p j = true -> job_wf j -> job_wf (f j)) ->
  (forall j, p j = true -> job_later j (f j) /\ (in_flight (Job_Status (f j)) = true -> in_flight (Job_Status j) = true)) ->
  memory_step d (set_memory_jobs (update_rows p f (memory_jobs d)) d).
Proof.
  intros Hw Hl [H1 H2 H3 H4 H5 H6 H7 H8].
  set (g := fun j => if p j then f j else j).
  assert (forall j, job_later j (g j)) as Hlater.
  { intros j. unfold g. destruct (p j) eqn:E; [by apply Hl|apply job_later_refl]. }
  assert (forall j, in_flight (Job_Status (g j)) = true -> in_flight (Job_Status j) = true) as Hfl.
  { intros j. unfold g. destruct (p j) eqn:E; [by apply Hl|done]. }
  assert (forall j, Job_ID (g j) = Job_ID j /\ job_slot (g j) = job_slot j) as Hid.
  { intros j. destruct (Hlater j) as [E _ _ _]. unfold job_identity in E. injection E as E1 E2 E3 _ _ E6.
    split; [done|]. unfold job_slot. by rewrite E2, E3, E6. }
  split; [split; simpl; try done|split; simpl; [|intros k t H; exists t; split; [done|apply token_later_refl]|done]].
  - unfold table_ok. change (rows (update_rows p f (memory_jobs d))) with (g <$> rows (memory_jobs d)).
    destruct H1 as [H1 H1']. split.
    + rewrite <- list_fmap_compose. erewrite list_fmap_ext; [exact H1|]. intros i x _. apply Hid.
    + intros r. rewrite list_elem_of_fmap. intros (x&->&Hx). change (row_id (g x)) with (Job_ID (g x)).
      destruct (Hid x) as [-> _]. by apply H1'.
  - intros j. rewrite elem_of_map_if. intros (x&Hx&->). destruct (p x) eqn:E; auto.
  - intros i j Hi Hj Hfi Hfj Hs. apply elem_of_map_if in Hi as (x&Hx&->), Hj as (y&Hy&->).
    change (if p x then f x else x) with (g x) in *. change (if p y then f y else y) with (g y) in *.
    destruct (Hid x) as [-> Ex], (Hid y) as [-> Ey]. apply H3; [done|done|by apply Hfl|by apply Hfl|congruence].
  - intros k t Ht. destruct (H7 k t Ht) as [He (j&Hj&Ej)]. split; [done|]. exists (g j).
    split; [by apply list_elem_of_fmap_2|]. by rewrite (proj1 (Hid j)).
  - intros j Hj. exists (g j). split; [by apply list_elem_of_fmap_2|apply Hlater].
Qed.

Lemma slot_busy_false o ty s d : slot_busy o ty s d = false ->
  forall j, j ∈ rows (memory_jobs d) -> in_flight (Job_Status j) = true -> job_slot j <> (o, ty, s).
Proof.
  unfold slot_busy. rewrite negb_false_iff, Z.eqb_eq. unfold affected. rewrite count_if_0. intros H j Hj Hf E.
  apply H in Hj. unfold job_slot in E. injection E as <- <- <-. unfold slot_key in Hj.
  by rewrite !String.eqb_refl, Z.eqb_refl, Hf in Hj.
Qed.

Lemma jobs_insert_step o ty tr s d : job_type_ok ty = true -> slot_busy o ty s d = false ->
  memory_step d (set_memory_jobs (insert_row (job_row o ty tr s (clock d)) (memory_jobs d)) d).
Proof.
  intros Hty Hfree [H1 H2 H3 H4 H5 H6 H7 H8]. pose proof (slot_busy_false _ _ _ _ Hfree) as Hs.
  split; [split; simpl; try done|split; simpl; [|intros k t H; exists t; split; [done|apply token_later_refl]|done]].
  - by apply table_ok_insert.
  - intros j. rewrite elem_of_app, list_elem_of_singleton. intros [?| ->]; [auto|]. split; simpl; [done|done|done|by split; [intros []|]|done].
  - intros i j. rewrite !elem_of_app, !list_elem_of_singleton. intros [Hi| ->] [Hj| ->] Hfi Hfj E; [auto| | |done].
    + by destruct (Hs i Hi Hfi).
    + by destruct (Hs j Hj Hfj).
  - intros k t Ht. destruct (H7 k t Ht) as [He (j&Hj&Ej)]. split; [done|]. exists j. split; [set_solver|done].
  - intros j Hj. exists j. split; [set_solver|apply job_later_refl].
Qed.

Lemma CreateOnSlot_step o ty tr s : within memory_step (CreateOnSlot o ty tr s).
Proof.
  unfold CreateOnSlot. destruct (str_empty o); [done|]. destruct (str_empty ty); [done|]. destruct (s <? 0); [done|].
  apply within_exec_o. intros d. destruct (job_type_ok ty) eqn:Et, (slot_busy o ty s d) eqn:Es; simpl; try done.
  by apply jobs_insert_step.
Qed.

Lemma update_job_step id al f none :
  (forall now j, Job_Status j ∈ al -> job_wf j -> job_wf (f now j)) ->
  (forall now j, Job_Status j ∈ al -> job_later j (f now j) /\
     (in_flight (Job_Status (f now j)) = true -> in_flight (Job_Status j) = true)) ->
  within memory_step (update_job id al f none).
Proof.
  intros Hw Hl. apply within_exec_o. intros d. apply jobs_update_step; intros j Hp; apply andb_true_iff in Hp as [_ Hp];
    apply bool_decide_eq_true in Hp; auto.
Qed.

Lemma Dispatch_job_step id run tok : within memory_step (Dispatch_job id run tok).
Proof.
  apply update_job_step; intros now j Hs%list_elem_of_singleton.
  - intros [W1 W2 W3 W4 W5]. split; simpl; [done|done| |..].
    + rewrite W3. by rewrite Hs.
    + rewrite W4. by rewrite Hs.
    + intros _. by eexists.
  - split; [|by rewrite Hs]. split; simpl; [done|by rewrite Hs|done|]. exists []. by rewrite app_nil_r.
Qed.

Lemma leasable_in_flight st : st ∈ [JobStatusDispatched; JobStatusPending] -> in_flight st = true.
Proof. intros [-> | ->%list_elem_of_singleton]%elem_of_cons; done. Qed.

Lemma Lease_step id t : within memory_step (Lease id t).
Proof.
  apply update_job_step; intros now j Hs%leasable_in_flight.
  - intros [W1 W2 W3 W4 W5]. split; simpl; [done|done| |by split; [|by eexists]|done]. by rewrite W3, Hs.
  - split; [|done]. split; simpl; [done|by rewrite Hs|done|]. exists []. by rewrite app_nil_r.
Qed.

Lemma AppendAction_step id a : within memory_step (AppendAction id a).
Proof.
  apply within_exec_o. intros d. apply jobs_update_step; intros j _.
  - by intros [W1 W2 W3 W4 W5].
  - split; [|done]. split; [done..|]. by eexists.
Qed.

Lemma Complete_step id st sum err : within memory_step (Complete id st sum err).
Proof.
  unfold Complete. destruct (completion_status st) eqn:Hc; [|done]. simpl negb. cbv iota.
  apply within_exec_o. intros d. destruct (job_status_ok st) eqn:Hok; [|done].
  assert (in_flight st = false /\ st <> JobStatusRunning /\ st <> JobStatusDispatched) as (Hf&Hr&Hd) by (destruct st; try done).
  apply jobs_update_step; intros j _.
  - intros [W1 W2 W3 W4 W5]. split; simpl; [done|done| |..|done].
    + by rewrite Hf.
    + split; [by intros []|done].
  - split; [|by simpl; rewrite Hf]. split; simpl; [done|by rewrite Hf|by intros t ->|]. exists []. by rewrite app_nil_r.
Qed.
Lemma InsertToken_step tok o id now : within memory_step (InsertToken tok o id now).
Proof.
  apply within_exec_o. intros d. destruct (token_insertable tok id d) eqn:Ei; [|done].
  unfold token_insertable in Ei. apply andb_true_iff in Ei as [Ei Hj]. apply bool_decide_eq_true in Ei.
  rewrite negb_true_iff, affected_find in Hj. destruct (find_row _ _) as [j|] eqn:Ej; [|done].
  apply find_row_Some in Ej as [Ej Hin]. apply Z.eqb_eq in Ej.
  intros [H1 H2 H3 H4 H5 H6 H7 H8]. split; [split; simpl; try done|split; simpl; [| |done]].
  - intros k t. rewrite lookup_insert_Some. intros [[<- <-]|[_ Hk]]; [|by eapply H7]. split; [done|by exists j].
  - intros x Hx. exists x. split; [done|apply job_later_refl].
  - intros k t Hk. exists t. split; [|apply token_later_refl]. rewrite lookup_insert_ne; [done|]. by intros <-; rewrite Ei in Hk.
Qed.

Lemma alter_token_step tok f d : (forall t, token_later t (f t)) ->
  memory_step d (set_dispatch_tokens (alter f tok (dispatch_tokens d)) d).
Proof.
  intros Hf [H1 H2 H3 H4 H5 H6 H7 H8]. split; [split; simpl; try done|split; simpl; [| |done]].
  - intros k t. rewrite lookup_alter_Some. intros [(<-&t'&Ht&->)|[_ Hk]]; [|by eapply H7].
    destruct (H7 _ _ Ht) as [He Hj]. destruct (Hf t') as [Eb _ _]. injection Eb as E1 E2 E3 E4. by rewrite E4, E3, E2.
  - intros x Hx. exists x. split; [done|apply job_later_refl].
  - intros k t Hk. destruct (decide (tok = k)) as [<-|Hne].
    + exists (f t). split; [by rewrite lookup_alter_eq, Hk|done].
    + exists t. split; [by rewrite lookup_alter_ne|apply token_later_refl].
Qed.

Lemma StampUsed_step tok now : within memory_step (StampUsed tok now).
Proof. apply within_exec. intros d. apply alter_token_step. intros t. split; [done|done|]. intros s Hs. simpl. by rewrite Hs. Qed.

Lemma Revoke_step tok : within memory_step (Revoke tok).
Proof.
  unfold Revoke. destruct (str_empty tok); [done|]. apply within_bind; [done|]. intros now.
  apply within_exec. intros d. apply alter_token_step. intros t. split; [done| |done]. intros s Hs. simpl. by rewrite Hs.
Qed.

Lemma Validate_step tok o id : within memory_step (Validate tok o id).
Proof.
  unfold Validate. within_steps; apply StampUsed_step.
Qed.

Lemma InsertLink_step src dst ty o by_ m : (String.prefix "agent:" by_ = true -> IsAutoLinkType ty = false) ->
  within memory_step (InsertLink src dst ty o by_ m).
Proof.
  intros Hby. apply within_exec_o. intros d. destruct (link_insertable src dst ty d) eqn:Ei; [|done].
  unfold link_insertable in Ei. apply andb_true_iff in Ei as [Ht Ei].
  apply Z.eqb_eq in Ei. unfold affected in Ei. rewrite count_if_0 in Ei.
  intros [H1 H2 H3 H4 H5 H6 H7 H8]. split; [split; simpl; try done|split; simpl; [| |set_solver]].
  - by apply table_ok_insert.
  - intros l. rewrite elem_of_app, list_elem_of_singleton. intros [?| ->]; [auto|]. by split.
  - rewrite fmap_app. apply NoDup_app. split_and!; [done| |apply NoDup_singleton].
    intros k Hk. simpl. rewrite list_elem_of_singleton. intros ->. apply list_elem_of_fmap in Hk as (l&E&Hl).
    apply Ei in Hl. injection E as E1 E2 E3. unfold same_link in Hl. rewrite <- E1, <- E2, <- E3 in Hl.
    by rewrite !Z.eqb_refl, String.eqb_refl in Hl.
  - intros x Hx. exists x. split; [done|apply job_later_refl].
  - intros k t Hk. exists t. split; [done|apply token_later_refl].
Qed.

Lemma Add_step src dst ty o by_ m : within memory_step (Add src dst ty o by_ m).
Proof.
  unfold Add. destruct (_ || _); [done|]. destruct (_ || _); [done|]. destruct (link_reserved ty by_) eqn:E; [done|].
  apply InsertLink_step. intros Hp. unfold link_reserved in E. rewrite Hp in E. by apply orb_false_iff in E as [E _].
Qed.

Lemma AddConsolidationLink_step src dst ty o by_ m : within memory_step (AddConsolidationLink src dst ty o by_ m).
Proof.
  unfold AddConsolidationLink. case_bool_decide as Hty; [|done]. simpl negb. cbv iota. apply InsertLink_step.
  intros _. by apply elem_of_cons in Hty as [->|Hty%list_elem_of_singleton]; [|subst ty].
Qed.

Lemma Core_Set_step o a blob by_ : within memory_step (Core_Set maxBytes o a blob by_).
Proof.
  unfold Core_Set. destruct (Z.ltb_spec maxBytes (Z.of_nat (String.length blob))); [done|]. destruct (_ || _); [done|].
  apply within_exec. intros d [H1 H2 H3 H4 H5 H6 H7 H8]. split; [split; simpl; try done|split; simpl; [| |done]].
  - intros k c. rewrite lookup_insert_Some. intros [[<- <-]|[_ Hk]]; [done|by eapply H8].
  - intros x Hx. exists x. split; [done|apply job_later_refl].
  - intros k t Hk. exists t. split; [done|apply token_later_refl].
Qed.

Lemma Core_Delete_step o a : within memory_step (Core_Delete o a).
Proof.
  apply within_exec. intros d [H1 H2 H3 H4 H5 H6 H7 H8]. split; [split; simpl; try done|split; simpl; [| |done]].
  - intros k c. rewrite lookup_delete_Some. intros [_ Hk]. by eapply H8.
  - intros x Hx. exists x. split; [done|apply job_later_refl].
  - intros k t Hk. exists t. split; [done|apply token_later_refl].
Qed.

(** Statements on other tables. *)
Lemma elsewhere_step {A} (p : prog db A) : within same_memory p -> within memory_step p.
Proof. apply within_mono, same_memory_step. Qed.

Lemma untouched_step {A} (p : prog db A) : within memory_untouched p -> within memory_step p.
Proof. apply within_mono. intros d d' (?&?&?&?&?&_). by apply same_memory_step. Qed.

Lemma tick_step {A} (p : prog db A) : within tick p -> within memory_step p.
Proof. apply within_mono. intros d d' (s&_&->). by apply same_memory_step. Qed.

Lemma usage_step o u : within memory_step (usage_upsert o u).
Proof.
  unfold usage_upsert. destruct (str_empty o); [done|]. apply within_bind; [done|]. intros now.
  apply elsewhere_step. by apply within_exec.
Qed.

Lemma Cleanup_injections_step n : within memory_step (Cleanup_injections n).
Proof.
  unfold Cleanup_injections. destruct (n <=? 0); [done|]. apply within_bind; [done|]. intros now.
  apply elsewhere_step. by apply within_exec.
Qed.

Lemma InsertMessage_step m : within memory_step (InsertMessage m).
Proof. apply elsewhere_step, within_exec_o. intros d. by destruct (priority_in_range _). Qed.

Lemma InsertConversation_step c : within memory_step (InsertConversation c).
Proof. by apply elsewhere_step, within_exec. Qed.
End Invariant.

#[export] Hint Resolve CreateOnSlot_step Dispatch_job_step Lease_step AppendAction_step Complete_step InsertToken_step
  StampUsed_step Revoke_step Validate_step Add_step AddConsolidationLink_step Core_Set_step Core_Delete_step untouched_step
  tick_step usage_step Cleanup_injections_step InsertMessage_step InsertConversation_step : memory.
