(* ===== verification/MemoryHistory.v ===== *)
(** * Memory under concurrency

    The worker's evaluations and forced runs, the goroutines of its jobs, the
    tools of the dispatched agents and the automatic links, interleaved. *)
From stdpp Require Import pretty.
From S2P Require Import Prelude Prog Table Schema Messaging MessagingQueries Agents Memory Dream MemoryTools MemorySpec.

Section History.
Context {HEng : Engine} {HCred : Credentials} {HDream : DreamHarness} {HJson : GoJson} {HNum : GoNumber}.
Context (w : ConsolidatorWorker) (maxBytes : Z).

Abbreviation step := (memory_step maxBytes).

Lemma GetAgent_quiet n : within step (GetAgent n).
Proof. apply within_bind; [apply within_query_o, _|]. by intros [?|[]|?]. Qed.

Lemma Issue_step o id : within step (Issue o id).
Proof.
  unfold Issue. destruct (str_empty o); [done|]. destruct (id =? 0); [done|].
  apply within_bind_ok; [apply tick_step, rand_Read_frame|]. intros raw. apply within_bind; [done|]. intros now.
  apply within_bind_ok; [apply InsertToken_step|done].
Qed.

Lemma when_usage_step p : within step p -> within step (when_usage w p).
Proof. intros Hp. unfold when_usage. destruct (w_usage w); [by apply within_bind|done]. Qed.

Lemma abandon_step {A} id what e : within step (abandon (A := A) id what e).
Proof. apply within_bind; [apply Complete_step|done]. Qed.

Lemma launchOne_step o ty id : within step (launchOne w o ty id).
Proof.
  unfold launchOne. apply within_bind; [apply Issue_step|]. intros [[tok ?]|e|p]; [|apply abandon_step|done].
  apply within_bind; [apply GetAgent_quiet|]. intros [a|e|p]; [|apply abandon_step|done].
  apply within_bind; [apply untouched_step, uuid_frame|]. intros run.
  apply within_bind; [apply Dispatch_job_step|]. intros [[]|e|p]; [|apply abandon_step|done].
  apply within_bind; [apply when_usage_step, usage_step|done].
Qed.

Lemma refuse_job_step o ty r : within step (refuse_job o ty r).
Proof.
  apply within_bind_ok; [apply CreateOnSlot_step|]. intros id. apply within_bind; [apply Complete_step|done].
Qed.

Lemma gate_verdict_step o : within step (gate_verdict w o).
Proof.
  unfold gate_verdict, Allow, Today. destruct (w_gate w); [|done]. apply within_bind; [|done].
  destruct (str_empty o); [done|]. within_walk.
Qed.

Lemma tryDispatch_step o ty tr : within step (tryDispatch w o ty tr).
Proof.
  apply within_bind; [apply gate_verdict_step|]. intros [r|].
  - apply within_bind; [apply refuse_job_step|]. intros _. apply within_bind; [apply when_usage_step, usage_step|done].
  - apply within_bind; [apply CreateOnSlot_step|]. intros [id|e|p]; [|done|done].
    apply within_bind; [apply launchOne_step|done].
Qed.

Lemma force_slots_step o ty n : forall slot out st, within step (force_slots w o ty n slot out st).
Proof.
  induction n as [|n IH]; intros slot out st; [done|]. cbn [force_slots]. apply within_bind; [apply CreateOnSlot_step|].
  intros [id|e|p]; [| |done].
  - apply within_bind; [apply launchOne_step|]. by intros [s|e|p].
  - destruct e; try done. destruct (_ && _); [|apply IH]. apply within_bind; [apply within_query, _|].
    intros [[j|]|e|p]; [done|apply IH..].
Qed.

Lemma ForceRunN_step o ty n : within step (ForceRunN w o ty n).
Proof.
  apply within_bind; [apply gate_verdict_step|]. intros [r|]; [|apply force_slots_step].
  apply within_bind; [apply refuse_job_step|]. intros [id|e|p]; [|done|done].
  apply within_bind; [apply when_usage_step, usage_step|done].
Qed.

Lemma runJob_step s : within step (runJob w s).
Proof.
  apply within_bind; [done|]. intros began. apply within_bind; [apply Lease_step|]. intros ?.
  apply within_bind; [apply untouched_step, Execute_frame|]. intros res. apply within_bind; [done|]. intros now.
  destruct (mapHarnessResult _ _ _) as [[st sum] err]. apply within_bind; [apply Complete_step|]. intros ?.
  apply within_bind; [apply Revoke_step|]. intros ?. destruct (result_tokens res). apply when_usage_step, usage_step.
Qed.

Lemma goroutine_step stopped s : within step (dream_goroutine w stopped s).
Proof. destruct stopped; [done|apply runJob_step]. Qed.

Lemma owners_pass_step due l : within step (owners_pass w due l).
Proof.
  induction l as [|o l IH]; [done|]. cbn [owners_pass]. apply within_bind; [|intros s1; apply within_bind].
  - unfold watermark_pass, unprocessedCount, MemoryChannelIDs. within_walk; apply tryDispatch_step.
  - destruct due; [|done]. unfold deep_pass, ownerActiveSince. within_walk; apply tryDispatch_step.
  - intros s2. by apply within_bind.
Qed.

Lemma worker_tick_step a b : within step (worker_tick w a b).
Proof.
  apply within_bind; [done|]. intros now. apply within_bind.
  { destruct (_ && _); [|done]. apply within_bind; [apply Cleanup_injections_step|done]. }
  intros _. apply within_bind; [apply within_query, _|]. intros [l|e|p]; [|done|done].
  apply within_bind; [apply owners_pass_step|done].
Qed.

(** *** The tools *)
Lemma authorize_step tok o : within step (authorizeForOwner tok o).
Proof. unfold authorizeForOwner. within_walk; apply Validate_step. Qed.

Lemma record_step id tool tgt args : within step (recordAction id tool tgt args).
Proof. apply within_bind; [done|]. intros now. apply within_bind; [apply AppendAction_step|done]. Qed.

Lemma check_owned_step ids o : within step (check_owned ids o).
Proof.
  induction ids as [|id ids IH]; [done|]. cbn [check_owned]. apply within_bind.
  - unfold messageBelongsTo, OwnerFor. within_walk.
  - intros [[] []]; done.
Qed.

Lemma or_internal_step {A} (p : M A) : within step p -> within step (or_internal p).
Proof. intros Hp. apply within_bind; [done|]. by intros []. Qed.

Lemma authorized_step {A} tok o (f : Z -> M A) : (forall id, within step (f id)) ->
  within step (let? id := authorizeForOwner tok o in f id).
Proof. intros Hf. by apply within_bind_ok; [apply authorize_step|]. Qed.

Lemma link_sources_step n l o c : within step (link_sources n l o c).
Proof. revert c. induction l as [|s l IH]; intros c; [done|]. cbn [link_sources]. apply within_bind; [apply Add_step|]. intros r. apply IH. Qed.
#[local] Hint Resolve authorize_step record_step check_owned_step link_sources_step : memory.

Lemma handleListUnprocessed_step cfg tok o since limit : within step (handleListUnprocessed cfg tok o since limit).
Proof.
  unfold handleListUnprocessed. destruct (str_empty o); [done|]. apply authorized_step. intros id.
  apply within_bind_ok; [apply or_internal_step, within_query, _|]. intros l. destruct (bool_decide _); [done|].
  apply within_bind_ok; [apply or_internal_step, within_query, _|]. intros items. apply within_bind; [apply record_step|done].
Qed.

Lemma handleWriteReflection_step tok o body src : within step (handleWriteReflection tok o body src).
Proof.
  unfold handleWriteReflection. destruct (_ || _); [done|]. apply authorized_step. intros id.
  apply within_bind_ok; [apply check_owned_step|]. intros _.
  apply within_bind_ok; [apply or_internal_step; unfold pickReflectionChannel; within_walk|]. intros ch.
  destruct (_ =? _); [done|]. apply within_bind_ok; [apply or_internal_step, InsertConversation_step|]. intros conv.
  apply within_bind_ok; [apply or_internal_step, InsertMessage_step|]. intros msg.
  apply within_bind; [apply link_sources_step|]. intros n. apply within_bind; [apply record_step|done].
Qed.

Lemma handleRewriteCore_step tok o a blob : within step (handleRewriteCore maxBytes tok o a blob).
Proof.
  unfold handleRewriteCore. destruct (_ || _); [done|]. apply authorized_step. intros id.
  apply within_bind; [unfold OwnerFor; within_walk|]. intros [t|[]|p]; try done. destruct (negb _); [done|].
  apply within_bind; [apply within_query, _|]. intros prev. apply within_bind; [apply Core_Set_step|].
  intros [[]|[]|p]; try done. apply within_bind; [apply record_step|done].
Qed.

Lemma handleMarkDuplicate_step tok o a b k r : within step (handleMarkDuplicate tok o a b k r).
Proof.
  unfold handleMarkDuplicate. destruct (_ || _); [done|]. destruct (_ && _); [done|]. apply authorized_step. intros id.
  apply within_bind_ok; [apply check_owned_step|]. intros _.
  apply within_bind_ok; [apply or_internal_step, AddConsolidationLink_step|]. intros l. apply within_bind; [apply record_step|done].
Qed.

Lemma handleSupersede_step tok o a b r : within step (handleSupersede tok o a b r).
Proof.
  unfold handleSupersede. destruct (_ || _); [done|]. apply authorized_step. intros id.
  apply within_bind_ok; [apply check_owned_step|]. intros _.
  apply within_bind_ok; [apply or_internal_step, AddConsolidationLink_step|]. intros l. apply within_bind; [apply record_step|done].
Qed.

Lemma handleAddLink_step tok o s d t m : within step (handleAddLink tok o s d t m).
Proof.
  unfold handleAddLink. destruct (_ || _); [done|]. apply authorized_step. intros id.
  apply within_bind_ok; [apply check_owned_step|]. intros _. apply within_bind; [apply Add_step|].
  intros [l|[]|p]; try done. apply within_bind; [apply record_step|done].
Qed.

Lemma tool_step cfg tok o c : within step (call_tool cfg maxBytes tok o c).
Proof.
  destruct c; [apply handleListUnprocessed_step|apply handleWriteReflection_step|apply handleRewriteCore_step
    |apply handleMarkDuplicate_step|apply handleSupersede_step|apply handleAddLink_step].
Qed.

Lemma OnMessageSent_step m : within step (OnMessageSent m).
Proof.
  unfold OnMessageSent. destruct (_ =? 0); [done|]. destruct (Msg_ChannelID m) as [c|]; [|done].
  apply within_bind; [apply within_query_o, _|]. intros [n|e|p]; [|done|done]. destruct (negb _); [done|].
  apply within_bind; [unfold resolveOwnerString, OwnerFor; within_walk|]. intros o. destruct (str_empty o); [done|].
  assert (forall s t rule, within step (auto_link s t rule o)) as Hl.
  { intros s t rule. apply within_bind; [apply Add_step|done]. }
  apply within_bind; [destruct (_ =? 0); [done|apply Hl]|]. intros _. apply within_bind.
  - apply within_for_each. intros t. destruct (String.eqb _ _); [done|].
    apply within_bind; [unfold mostRecentMessageFromAgentInChannel, latest_message; within_walk|]. intros dst.
    destruct (dst =? 0); [done|apply Hl].
  - intros _. apply within_bind; [unfold mostRecentMessageInChannel, latest_message; within_walk|]. intros prev.
    destruct (prev =? 0); [done|apply Hl].
Qed.

(** ** What the started goroutines carry *)

Definition token_bound (tok o : string) (id : Z) (d : db) : Prop :=
  exists t, dispatch_tokens d !! tok = Some t /\ Tok_OwnerID t = o /\ Tok_JobID t = id.
Definition job_of (o : string) (id : Z) (d : db) : Prop :=
  exists j, j ∈ rows (memory_jobs d) /\ Job_ID j = id /\ Job_OwnerID j = o.

(** Its token is on record for its owner and its job, a job of that owner. *)
Definition spawn_bound (s : dream_spawn) (d : db) : Prop :=
  token_bound (ds_Token s) (ds_OwnerID s) (ds_JobID s) d /\ job_of (ds_OwnerID s) (ds_JobID s) d.

Lemma token_bound_later tok o id d d' : memory_later d d' -> token_bound tok o id d -> token_bound tok o id d'.
Proof.
  intros [_ Ht _] (t&H&Ho&Hj). destruct (Ht _ _ H) as (t'&H'&[E _ _]). injection E as E1 E2 _ _.
  exists t'. split_and!; [done|congruence|congruence].
Qed.

Lemma job_of_later o id d d' : memory_later d d' -> job_of o id d -> job_of o id d'.
Proof.
  intros [Hj _ _] (j&H&Hi&Ho). destruct (Hj _ H) as (j'&H'&[E _ _ _]). unfold job_identity in E. injection E as E1 E2 _ _ _ _.
  exists j'. split_and!; [done|congruence|congruence].
Qed.

Lemma spawn_bound_later s d d' : memory_later d d' -> spawn_bound s d -> spawn_bound s d'.
Proof. intros Hd [Ht Hj]. split; [by eapply token_bound_later|by eapply job_of_later]. Qed.

Definition all_bound (l : list dream_spawn) (d : db) : Prop := Forall (fun s => spawn_bound s d) l.

Lemma all_bound_later l d d' : memory_later d d' -> all_bound l d -> all_bound l d'.
Proof. intros Hd H. eapply Forall_impl; [exact H|]. intros s. by apply spawn_bound_later. Qed.

Abbreviation ok := (memory_ok maxBytes).
Abbreviation guar := (rg ok memory_later).

Lemma rg_memory_step {A} (p : prog db A) d0 : within step p -> guar p (fun _ _ => True) d0.
Proof. apply within_rg. intros d d' HI H. by apply H. Qed.

(** A step of the worker leaves a fact that lasts in place. *)
Lemma rg_keeps {A} (p : prog db A) (P : db -> Prop) d0 : (forall d d', memory_later d d' -> P d -> P d') ->
  within step p -> P d0 -> guar p (fun _ d => P d) d0.
Proof.
  intros HP Hp H0. eapply rg_mono; [|by apply (rg_stable _ _ _ P (fun _ _ => True) _ HP H0), rg_memory_step]. by intros a d _ [_ ?].
Qed.

(** The goroutines a value carries ([sp]) are all bound. *)
Definition sound {A} (sp : A -> list dream_spawn) (p : prog db A) : Prop :=
  forall d0, ok d0 -> guar p (fun a d => all_bound (sp a) d) d0.

Lemma sound_ret {A} (sp : A -> list dream_spawn) a : sp a = [] -> sound sp (Ret a).
Proof. intros E d0 _ d _ _. rewrite E. constructor. Qed.

Lemma sound_bind {A B} (sp : B -> list dream_spawn) (p : prog db A) (f : A -> prog db B) :
  within step p -> (forall a, sound sp (f a)) -> sound sp (bind p f).
Proof.
  intros Hp Hf d0 HI. apply rg_bind; [apply _|done|]. eapply rg_mono; [|by apply rg_memory_step]. intros a d Hd _. by apply Hf.
Qed.

(** After goroutines [l]: the rest may carry them along. *)
Definition sound_after {A} (l : list dream_spawn) (sp : A -> list dream_spawn) (p : prog db A) : Prop :=
  forall d0, ok d0 -> all_bound l d0 -> guar p (fun a d => all_bound (sp a) d) d0.

Lemma sound_then {A B} (sq : A -> list dream_spawn) (sp : B -> list dream_spawn) (p : prog db A) (f : A -> prog db B) :
  sound sq p -> (forall a, sound_after (sq a) sp (f a)) -> sound sp (bind p f).
Proof.
  intros Hp Hf d0 HI. apply rg_bind; [apply _|done|]. eapply rg_mono; [|by apply Hp]. intros a d Hd Ha. by apply Hf.
Qed.

Lemma sound_after_ret {A} l (sp : A -> list dream_spawn) a : sp a ⊆ l -> sound_after l sp (Ret a).
Proof.
  intros Hs d0 _ Hl d Hd _. eapply all_bound_later; [exact Hd|]. unfold all_bound in *. rewrite Forall_forall in *. auto.
Qed.

Lemma sound_after_bind {A B} l (sp : B -> list dream_spawn) (p : prog db A) (f : A -> prog db B) :
  within step p -> (forall a, sound_after l sp (f a)) -> sound_after l sp (bind p f).
Proof.
  intros Hp Hf d0 HI Hl. apply rg_bind; [apply _|done|].
  eapply rg_mono; [|apply (rg_keeps p (all_bound l)); [intros ??; apply all_bound_later|done|done]].
  intros a d Hd Ha. by apply Hf.
Qed.

Lemma sound_after_then {A B} l (sq : A -> list dream_spawn) (sp : B -> list dream_spawn) (p : prog db A) (f : A -> prog db B) :
  sound_after l sq p -> (forall a, sound_after (l ++ sq a) sp (f a)) -> sound_after l sp (bind p f).
Proof.
  intros Hp Hf d0 HI Hl. apply rg_bind; [apply _|done|].
  eapply rg_mono; [|apply (rg_stable _ _ _ (all_bound l)); [intros ??; apply all_bound_later|done|by apply Hp]].
  intros a d Hd [Ha Hl']. apply Hf; [done|]. by apply Forall_app.
Qed.

Lemma sound_sound_after {A} l (sp : A -> list dream_spawn) p : sound sp p -> sound_after l sp p.
Proof. intros H d0 HI _. by apply H. Qed.

(** *** The worker *)
Definition started (o : outcome error (list dream_spawn)) : list dream_spawn := match o with Ok l => l | _ => [] end.

Lemma rg_CreateOnSlot o ty tr slot d0 : ok d0 ->
  guar (CreateOnSlot o ty tr slot) (fun r d => forall id, r = Ok id -> job_of o id d) d0.
Proof.
  intros HI. unfold CreateOnSlot.
  destruct (str_empty o); [by intros d _ _ id [=]|]. destruct (str_empty ty); [by intros d _ _ id [=]|].
  destruct (slot <? 0); [by intros d _ _ id [=]|].
  apply rg_exec_o. intros d Hd HId. destruct (job_type_ok ty) eqn:Et; simpl; [|by split_and!; [|reflexivity|intros ???? [=]..]].
  destruct (slot_busy o ty slot d) eqn:Es; simpl; [by split_and!; [|reflexivity|intros ???? [=]..]|].
  destruct (jobs_insert_step maxBytes o ty tr slot d Et Es HId) as [HI' Hl]. split_and!; [done|done| |by intros ???? [=]].
  intros d' Hd' _ id [= <-]. eapply job_of_later; [exact Hd'|]. eexists. split; [simpl; apply elem_of_app; right; by apply list_elem_of_singleton|done].
Qed.

Lemma rg_Issue o id d0 : ok d0 ->
  guar (Issue o id) (fun r d => forall tok e, r = Ok (tok, e) -> token_bound tok o id d) d0.
Proof.
  intros HI. unfold Issue. destruct (str_empty o); [by intros d _ _ t e [=]|]. destruct (id =? 0); [by intros d _ _ t e [=]|].
  apply rg_bind_ok; [apply _|done|]. eapply rg_mono; [|apply rg_memory_step, tick_step, rand_Read_frame].
  intros [raw|e|p] d1 HI1 _; [|by intros d _ _ t e' [=]..].
  apply rg_bind; [apply _|done|]. intros d2 Hd2 HI2 d3 Hd3 HI3. cbv beta.
  apply rg_bind_ok; [apply _|done|]. apply rg_exec_o. intros d4 Hd4 HI4.
  pose proof (InsertToken_step maxBytes (base64_url raw) o id (clock d2)) as [Hs _]. destruct (Hs d4) as [Hs' _].
  destruct (Hs' HI4) as [HI5 Hl5]. split_and!; [done|done| |by intros d _ _ d' _ _ t e [=]].
  destruct (token_insertable _ id d4) eqn:Ei; [|by intros d _ _ d' _ _ t e [=]].
  intros d5 Hd5 HI6 d6 Hd6 _ t e [= <- <-]. eapply token_bound_later; [exact (transitivity Hd5 Hd6)|].
  exists (mkDispatchToken o id (clock d2) (clock d2 + DispatchTokenTTL) None None). split; [apply lookup_insert_eq|done].
Qed.

Lemma rg_launchOne o ty id d0 : ok d0 -> job_of o id d0 ->
  guar (launchOne w o ty id) (fun r d => all_bound (started r) d) d0.
Proof.
  intros HI Hj. unfold launchOne.
  assert (forall A (p : M A) (f : outcome error A -> M (list dream_spawn)) d, within step p -> (forall a, sound started (f a)) -> ok d ->
            guar (bind p f) (fun r d => all_bound (started r) d) d) as Hskip.
  { intros A p f d Hp Hf Hd. by apply (sound_bind started p f). }
  assert (forall what (e : error), sound started (abandon id what e)) as Hab.
  { intros what e. apply sound_bind; [apply Complete_step|]. intros ?. by apply sound_ret. }
  apply rg_bind; [apply _|done|]. eapply rg_mono;
    [|apply (rg_stable _ _ _ (job_of o id)); [intros ??; apply job_of_later|exact Hj|by apply rg_Issue]].
  intros [[tok e]|e|p] d1 HI1 [Ht Hj1]; [|by apply Hab|by intros d _ _; constructor].
  specialize (Ht tok e eq_refl).
  set (P := fun d => token_bound tok o id d /\ job_of o id d).
  assert (forall d d', memory_later d d' -> P d -> P d') as HP.
  { intros d d' Hd [? ?]. split; [by eapply token_bound_later|by eapply job_of_later]. }
  assert (P d1) as H1 by done.
  apply rg_bind; [apply _|done|]. eapply rg_mono; [|apply (rg_keeps _ P); [exact HP|apply GetAgent_quiet|exact H1]].
  intros [a|e1|p1] d2 HI2 H2; [|by apply Hab|by intros d _ _; constructor].
  apply rg_bind; [apply _|done|]. eapply rg_mono; [|apply (rg_keeps _ P); [exact HP|apply untouched_step, uuid_frame|exact H2]].
  intros run d3 HI3 H3. apply rg_bind; [apply _|done|].
  eapply rg_mono; [|apply (rg_keeps _ P); [exact HP|apply Dispatch_job_step|exact H3]].
  intros [[]|e4|p4] d4 HI4 H4; [|by apply Hab|by intros d _ _; constructor].
  apply rg_bind; [apply _|done|].
  eapply rg_mono; [|apply (rg_keeps _ P); [exact HP|apply when_usage_step, usage_step|exact H4]].
  intros ? d5 HI5 H5 d6 Hd6 _. constructor; [|constructor]. by eapply (HP d5).
Qed.

(** A job just created, then launched. *)
Lemma sound_create_launch {B} (sp : B -> list dream_spawn) o ty tr slot (f : outcome error Z -> prog db B) :
  (forall id d0, ok d0 -> job_of o id d0 -> guar (f (Ok id)) (fun a d => all_bound (sp a) d) d0) ->
  (forall r, (forall id, r <> Ok id) -> sound sp (f r)) -> sound sp (bind (CreateOnSlot o ty tr slot) f).
Proof.
  intros Hok Hno d0 HI. apply rg_bind; [apply _|done|]. eapply rg_mono; [|by apply rg_CreateOnSlot].
  intros [id|e|p] d HId Hj; [by apply Hok, Hj|by apply Hno|by apply Hno].
Qed.

Lemma sound_tryDispatch o ty tr : sound (fun l => l) (tryDispatch w o ty tr).
Proof.
  apply sound_bind; [apply gate_verdict_step|]. intros [r|].
  - apply sound_bind; [apply refuse_job_step|]. intros _. apply sound_bind; [apply when_usage_step, usage_step|].
    intros _. by apply sound_ret.
  - apply sound_create_launch.
    + intros id d0 HI Hj. apply rg_bind; [apply _|done|]. eapply rg_mono; [|by apply rg_launchOne].
      intros r d HId Hr d' Hd' _. eapply all_bound_later; [exact Hd'|]. by destruct r.
    + intros [id|e|p] Hr; [by destruct (Hr id)|by apply sound_ret..].
Qed.

Lemma sound_force_slots o ty n : forall slot out st, sound_after st snd (force_slots w o ty n slot out st).
Proof.
  induction n as [|n IH]; intros slot out st; [by apply sound_after_ret|]. cbn [force_slots].
  intros d0 HI Hst. apply rg_bind; [apply _|done|].
  eapply rg_mono; [|apply (rg_stable _ _ _ (all_bound st)); [intros ??; apply all_bound_later|exact Hst|by apply rg_CreateOnSlot]].
  intros [id|e|p] d1 HI1 [Hj Hst1]; [| |by apply (sound_after_ret st snd (_, _, st))].
  - apply rg_bind; [apply _|done|]. eapply rg_mono;
      [|apply (rg_stable _ _ _ (all_bound st)); [intros ??; apply all_bound_later|exact Hst1|by apply rg_launchOne, Hj]].
    intros [s|e|p] d2 HI2 [Hs Hst2]; [|by apply (sound_after_ret st snd (_, _, st))..].
    apply IH; [done|]. by apply Forall_app.
  - destruct e; try by apply (sound_after_ret st snd (_, _, st)).
    destruct (_ && _); [|by apply IH].
    apply (sound_after_bind st snd); [apply within_query, _| |done|done].
    intros [[j|]|e|p]; [by apply sound_after_ret|apply IH..].
Qed.

Lemma sound_ForceRunN o ty n : sound snd (ForceRunN w o ty n).
Proof.
  apply sound_bind; [apply gate_verdict_step|]. intros [r|].
  - apply sound_bind; [apply refuse_job_step|]. intros [id|e|p]; [|by apply sound_ret..].
    apply sound_bind; [apply when_usage_step, usage_step|]. intros ?. by apply sound_ret.
  - intros d0 HI. apply sound_force_slots; [done|constructor].
Qed.

Abbreviation bound_list := (sound (fun l : list dream_spawn => l)).

(** Two calls one after the other, their goroutines together. *)
Lemma sound_app2 (p q : prog db (list dream_spawn)) : bound_list p -> bound_list q ->
  bound_list (let! s := p in let! s' := q in Ret (s ++ s')).
Proof.
  intros Hp Hq. apply (sound_then (fun l => l)); [done|]. intros s1. apply (sound_after_then _ (fun l => l)).
  - by apply sound_sound_after.
  - intros s2. by apply sound_after_ret.
Qed.

Lemma sound_app3 (p q r : prog db (list dream_spawn)) : bound_list p -> bound_list q -> bound_list r ->
  bound_list (let! s := p in let! s' := q in let! s'' := r in Ret (s ++ s' ++ s'')).
Proof.
  intros Hp Hq Hr. apply (sound_then (fun l => l)); [done|]. intros s1. apply (sound_after_then _ (fun l => l)); [by apply sound_sound_after|].
  intros s2. apply (sound_after_then _ (fun l => l)); [by apply sound_sound_after|]. intros s3. apply sound_after_ret. by rewrite app_assoc.
Qed.

Lemma sound_watermark_pass o : bound_list (watermark_pass w o).
Proof.
  apply sound_bind; [unfold unprocessedCount, MemoryChannelIDs; within_walk|]. intros [n|e|p]; [|by apply sound_ret..].
  destruct (_ <=? _); [|by apply sound_ret]. apply sound_app3; apply sound_tryDispatch.
Qed.

Lemma sound_deep_pass o : bound_list (deep_pass w o).
Proof.
  apply sound_bind; [done|]. intros now. apply sound_bind; [unfold ownerActiveSince; within_walk|].
  intros []; [apply sound_tryDispatch|by apply sound_ret].
Qed.

Lemma sound_owners_pass due l : bound_list (owners_pass w due l).
Proof.
  induction l as [|o l IH]; [by apply sound_ret|]. cbn [owners_pass].
  apply sound_app3; [apply sound_watermark_pass| |done]. destruct due; [apply sound_deep_pass|by apply sound_ret].
Qed.

Lemma sound_worker_tick a b : sound (fun r => r.1.1) (worker_tick w a b).
Proof.
  apply sound_bind; [done|]. intros now. apply sound_bind.
  { destruct (_ && _); [|done]. apply within_bind; [apply Cleanup_injections_step|done]. }
  intros _. apply sound_bind; [apply within_query, _|]. intros [l|e|p]; [|by apply sound_ret..].
  apply (sound_then (fun l => l)); [apply sound_owners_pass|]. intros s. by apply sound_after_ret.
Qed.

(** ** Concurrent calls *)
Inductive memory_call :=
| CallTick (lastDeepPass lastHourlyCleanup : Z)
| CallForce (ownerID jobType : string) (parallel : Z)
| CallGoroutine (stopped : bool) (s : dream_spawn)
| CallTool (token : option string) (owner : string) (c : tool_call)
| CallPosted (msg : Message)
| CallAddLink (src dst : Z) (relType ownerID createdBy : string) (metadata : option json)
| CallRevoke (token : string)
| CallSetCore (ownerID agentName blob updatedBy : string)
| CallDeleteCore (ownerID agentName : string).

(** A call without goroutines. *)
Definition plain {A} (p : prog db A) : prog db (list dream_spawn) := let! _ := p in Ret [].

Definition memory_prog (c : memory_call) : prog db (list dream_spawn) :=
  match c with
  | CallTick a b => let! r := worker_tick w a b in Ret r.1.1
  | CallForce o ty n => let! r := ForceRunN w o ty n in Ret r.2
  | CallGoroutine stopped s => plain (dream_goroutine w stopped s)
  | CallTool tok o c => plain (call_tool (w_cfg w) maxBytes tok o c)
  | CallPosted m => plain (OnMessageSent m)
  | CallAddLink s d t o by_ m => plain (Add s d t o by_ m)
  | CallRevoke tok => plain (Revoke tok)
  | CallSetCore o a blob by_ => plain (Core_Set maxBytes o a blob by_)
  | CallDeleteCore o a => plain (Core_Delete o a)
  end.

Lemma sound_plain {A} (p : prog db A) : within step p -> bound_list (plain p).
Proof. intros Hp. apply sound_bind; [done|]. intros ?. by apply sound_ret. Qed.

Lemma sound_map {A} (sp : A -> list dream_spawn) (p : prog db A) : sound sp p -> bound_list (let! r := p in Ret (sp r)).
Proof. intros Hp. apply (sound_then sp); [done|]. intros a. by apply sound_after_ret. Qed.

Lemma memory_prog_sound c : bound_list (memory_prog c).
Proof.
  destruct c; cbn [memory_prog].
  - apply (sound_map (fun r => r.1.1)), sound_worker_tick.
  - apply (sound_map snd), sound_ForceRunN.
  - apply sound_plain, goroutine_step.
  - apply sound_plain, tool_step.
  - apply sound_plain, OnMessageSent_step.
  - apply sound_plain, Add_step.
  - apply sound_plain, Revoke_step.
  - apply sound_plain, Core_Set_step.
  - apply sound_plain, Core_Delete_step.
Qed.

(** C8. However evaluations of the worker, forced runs, the goroutines of the
    jobs, the tools of the dispatched agents, automatic links and revocations
    interleave, with any statement failing and the messages, agents and clock
    changing underneath: job ids stay unique and no owner has two jobs in
    flight of one type on one slot; a job is over exactly when it has a finish
    time, leased exactly when it runs, and once over it stays over; agents
    never write the reserved link types, no link is doubled, core blobs keep
    within their size; a token stays bound to its job and owner and a revoked
    one revoked; and every goroutine started carries a token on record for its
    owner and its job, a job of that owner. *)
Theorem memory_history (cs : list memory_call) (d : db) (ps : list (prog db (list dream_spawn))) (d' : db)
    (Hinit : memory_ok maxBytes d) (Hrun : rtc (pool_step same_memory) (memory_prog <$> cs, d) (ps, d')) :
  memory_ok maxBytes d' /\ memory_later d d' /\
  (forall i l s, ps !! i = Some (Ret l) -> s ∈ l -> spawn_bound s d').
Proof.
  destruct (pool_invariant (memory_ok maxBytes) memory_later same_memory
    ltac:(intros x y Hx Hxy; by apply (same_memory_step maxBytes)) (memory_prog <$> cs) ps
    (fun _ l d => all_bound l d) d d') with (2 := Hinit) (3 := Hrun) as (H1&H2&H3).
  - intros i p Hp. rewrite list_lookup_fmap in Hp. destruct (cs !! i) as [c|]; [|done]. injection Hp as <-.
    by apply memory_prog_sound.
  - split_and!; [done|done|]. intros i l s Hl Hs. specialize (H3 i l Hl). unfold all_bound in H3.
    rewrite Forall_forall in H3. by apply H3.
Qed.
End History.
