(* ===== verification/MemoryEffects.v ===== *)
(** * Memory: what a tool, a run and the gate do

    [tool_authorized]: what a tool may touch, and with whose token.
    [run_job_completes]: a job that runs is over, its token dead, its slot
    free.  [try_dispatch_exact]: when the worker dispatches.
    [memory_status_exact]: what the status view says. *)
From stdpp Require Import pretty.
From S2P Require Import Prelude Prog Table Schema Messaging MessagingQueries Agents Memory Dream MemoryTools MemorySpec MemoryHistory.

(** ** The tools *)

(** The token is the owner's, not revoked, not expired. *)
Definition authorises (owner tok : string) (t : DispatchToken) (d : db) : Prop :=
  dispatch_tokens d !! tok = Some t /\ RevokedAt t = None /\ clock d < Tok_ExpiresAt t /\ Tok_OwnerID t = owner.

Definition owned_agent (owner : string) (d : db) (name : string) : Prop :=
  exists a, a ∈ rows (agents d) /\ Agent_Name a = name /\ Agent_OwnerID a <> 0 /\ pretty (Agent_OwnerID a) = owner.
Definition owned_message (owner : string) (d : db) (id : Z) : Prop :=
  exists m, m ∈ rows (messages d) /\ Msg_ID m = id /\ owned_agent owner d (FromAgent m).

Definition dream_author (owner : string) : string := "dream:" +:+ owner.

Section Frame.
Context (owner tok : string) (job : Z) (reflects : bool) (ids : list Z) (agts : list string).

(** A link a tool may add: the owner's, to one of [ids], from one of them
    unless it comes from the reflection just written. *)
Definition tool_link (l : Link) : Prop :=
  Link_OwnerID l = owner /\ CreatedBy l = "agent:dream:" +:+ owner /\ DstMessageID l ∈ ids /\
  (reflects = true \/ SrcMessageID l ∈ ids).

(** What a call leaves alone: of the jobs it appends to the actions of [job]
    only; of the core blobs it writes those of [agts] only. *)
Record tool_frame (d d' : db) : Prop := {
  tf_jobs : exists acts, memory_jobs d' = update_rows (by_id job) (fun j => with_actions (Actions j ++ acts) j) (memory_jobs d);
  tf_tokens : forall k, k <> tok -> dispatch_tokens d' !! k = dispatch_tokens d !! k;
  tf_token : forall t, dispatch_tokens d !! tok = Some t -> exists t', dispatch_tokens d' !! tok = Some t' /\ token_later t t';
  tf_links : exists l, rows (memory_links d') = rows (memory_links d) ++ l /\ Forall tool_link l;
  tf_core : forall k, (k.1 = owner -> k.2 ∉ agts) -> memory_core d' !! k = memory_core d !! k;
  tf_messages : exists l, rows (messages d') = rows (messages d) ++ l /\ Forall (fun m => FromAgent m = dream_author owner) l /\
    (reflects = false -> l = []);
  tf_rest : agents d' = agents d /\ channels d' = channels d /\ dream_usage d' = dream_usage d /\ memory_pins d' = memory_pins d
}.

Lemma with_actions_nil (t : table Job) : update_rows (by_id job) (fun j => with_actions (Actions j ++ []) j) t = t.
Proof.
  destruct t as [l n]. unfold update_rows. simpl. f_equal. unfold map_if. rewrite <- (list_fmap_id l) at 2.
  apply list_fmap_ext. intros i j _. rewrite app_nil_r. destruct (by_id _ _); by destruct j.
Qed.

Lemma with_actions_app (t : table Job) a b :
  update_rows (by_id job) (fun j => with_actions (Actions j ++ b) j)
    (update_rows (by_id job) (fun j => with_actions (Actions j ++ a) j) t) =
  update_rows (by_id job) (fun j => with_actions (Actions j ++ a ++ b) j) t.
Proof.
  destruct t as [l n]. unfold update_rows. simpl. f_equal. unfold map_if. rewrite <- list_fmap_compose.
  apply list_fmap_ext. intros i j _. simpl. destruct (by_id job j) eqn:E; [|by rewrite E].
  change (by_id job (with_actions _ j)) with (by_id job j). rewrite E. simpl. by rewrite <- app_assoc.
Qed.

#[export] Instance tool_frame_preorder : PreOrder tool_frame.
Proof.
  split.
  - intros d. split; try done.
    + exists []. by rewrite with_actions_nil.
    + intros t Ht. exists t. split; [done|apply token_later_refl].
    + exists []. by rewrite app_nil_r.
    + exists []. split_and!; [by rewrite app_nil_r|constructor|done].
  - intros a b c [[a1 J1] T1 K1 [l1 [L1 F1]] C1 [m1 (M1&G1&N1)] (R1&R2&R3&R4)] [[a2 J2] T2 K2 [l2 [L2 F2]] C2 [m2 (M2&G2&N2)] (S1&S2&S3&S4)].
    split.
    + exists (a1 ++ a2). by rewrite J2, J1, with_actions_app.
    + intros k Hk. by rewrite T2, T1.
    + intros t Ht. destruct (K1 t Ht) as (t1&Ht1&H1). destruct (K2 t1 Ht1) as (t2&Ht2&H2). exists t2.
      split; [done|by eapply token_later_trans].
    + exists (l1 ++ l2). rewrite L2, L1, app_assoc. split; [done|by apply Forall_app].
    + intros k Hk. by rewrite C2, C1.
    + exists (m1 ++ m2). rewrite M2, M1, app_assoc. split_and!; [done|by apply Forall_app|]. intros H. by rewrite N1, N2.
    + by rewrite S1, S2, S3, S4.
Qed.

Abbreviation frame := (within tool_frame).

Definition frame_refl : forall d, tool_frame d d := PreOrder_Reflexive.

(** Statements that touch none of the tables the frame is about. *)
Definition same_tool_tables (d d' : db) : Prop :=
  memory_jobs d' = memory_jobs d /\ dispatch_tokens d' = dispatch_tokens d /\ memory_links d' = memory_links d /\
  memory_core d' = memory_core d /\ messages d' = messages d /\ agents d' = agents d /\ channels d' = channels d /\
  dream_usage d' = dream_usage d /\ memory_pins d' = memory_pins d.

Lemma same_tool_frame d d' : same_tool_tables d d' -> tool_frame d d'.
Proof.
  intros (E1&E2&E3&E4&E5&E6&E7&E8&E9). destruct (frame_refl d) as [H1 H2 H3 H4 H5 H6 H7].
  split; rewrite ?E1, ?E2, ?E3, ?E4, ?E5, ?E6, ?E7, ?E8, ?E9; done.
Qed.

Lemma set_jobs_frame d a : tool_frame d (set_memory_jobs (update_rows (by_id job) (fun j => with_actions (Actions j ++ [a]) j) (memory_jobs d)) d).
Proof. destruct (frame_refl d) as [H1 H2 H3 H4 H5 H6 H7]. split; simpl; try done. by exists [a]. Qed.

Lemma record_frame tool tgt args : frame (recordAction job tool tgt args).
Proof.
  apply within_bind; [done|]. intros now. apply within_bind; [|done]. apply within_exec_o. intros d. apply set_jobs_frame.
Qed.

Lemma insert_link_frame d l : tool_link (l (next_id (memory_links d))) ->
  tool_frame d (set_memory_links (insert_row l (memory_links d)) d).
Proof.
  intros Hl. destruct (frame_refl d) as [H1 H2 H3 H4 H5 H6 H7]. split; simpl; try done.
  eexists. split; [done|]. by constructor.
Qed.

Abbreviation agent_author := ("agent:dream:" +:+ owner).

Lemma InsertLink_frame src dst ty m : dst ∈ ids -> reflects = true \/ src ∈ ids ->
  frame (InsertLink src dst ty owner agent_author m).
Proof.
  intros Hd Hs. apply within_exec_o. intros d. destruct (link_insertable _ _ _ _); [|done]. by apply insert_link_frame.
Qed.

Lemma Add_frame src dst ty m : dst ∈ ids -> reflects = true \/ src ∈ ids -> frame (Add src dst ty owner agent_author m).
Proof.
  intros Hd Hs. unfold Add. destruct (_ || _); [done|]. destruct (_ || _); [done|]. destruct (link_reserved _ _); [done|].
  by apply InsertLink_frame.
Qed.

Lemma AddConsolidationLink_frame src dst ty m : dst ∈ ids -> reflects = true \/ src ∈ ids ->
  frame (AddConsolidationLink src dst ty owner agent_author m).
Proof. intros Hd Hs. unfold AddConsolidationLink. destruct (negb _); [done|]. by apply InsertLink_frame. Qed.

Lemma link_sources_frame n l c : reflects = true -> (forall x, x ∈ l -> x ∈ ids) -> frame (link_sources n l owner c).
Proof.
  intros Hr. revert c. induction l as [|s l IH]; intros c Hl; [done|]. cbn [link_sources].
  apply within_bind; [apply Add_frame; [set_solver|by left]|]. intros r. apply IH. set_solver.
Qed.

Lemma Core_Set_frame maxBytes a blob : a ∈ agts -> frame (Core_Set maxBytes owner a blob agent_author).
Proof.
  intros Ha. unfold Core_Set. destruct (_ <? _); [done|]. destruct (_ || _); [done|]. apply within_exec. intros d.
  destruct (frame_refl d) as [H1 H2 H3 H4 H5 H6 H7]. split; simpl; try done.
  intros k Hk. apply lookup_insert_ne. intros <-. by apply Hk.
Qed.

Lemma InsertMessage_frame conv ch body : reflects = true ->
  frame (InsertMessage (reflection_message conv ch (dream_author owner) body)).
Proof.
  intros Hr. apply within_exec_o. intros d. simpl. destruct (frame_refl d) as [H1 H2 H3 H4 H5 H6 H7].
  split; simpl; try done. eexists. split_and!; [done|by constructor|by rewrite Hr].
Qed.

Lemma InsertConversation_frame c : frame (InsertConversation c).
Proof. apply within_exec. intros d. by apply same_tool_frame. Qed.

Lemma stamp_frame d now : tool_frame d (set_dispatch_tokens (alter (stamp_used now) tok (dispatch_tokens d)) d).
Proof.
  destruct (frame_refl d) as [H1 H2 H3 H4 H5 H6 H7]. split; simpl; try done.
  - intros k Hk. by rewrite lookup_alter_ne.
  - intros t Ht. exists (stamp_used now t). split; [by rewrite lookup_alter_eq, Ht|]. split; [done|done|].
    intros s Hs. simpl. by rewrite Hs.
Qed.

Lemma or_internal_frame {A} (p : M A) : frame p -> frame (or_internal p).
Proof. intros Hp. apply within_bind; [done|]. by intros []. Qed.
End Frame.

#[export] Hint Resolve record_frame Add_frame AddConsolidationLink_frame link_sources_frame Core_Set_frame InsertMessage_frame
  InsertConversation_frame or_internal_frame : memory.

Section Tools.
Context {HEng : Engine} (cfg : MemoryConfig) (maxBytes : Z).

(** The call failed and nothing happened, or the token was good and what
    happened stays within the frame of the owner's own messages and agents. *)
Definition framed (owner tok : string) (job : Z) (reflects : bool) (d0 d d' : db) : Prop :=
  exists ids agts, Forall (owned_message owner d0) ids /\ Forall (owned_agent owner d0) agts /\
    tool_frame owner tok job reflects ids agts d d'.
Definition tool_post (token : option string) (owner : string) (reflects : bool) (d : db) (r : outcome error tool_answer) (d' : db) : Prop :=
  (is_ok r = false /\ d' = d) \/
  exists tok t, token = Some tok /\ authorises owner tok t d /\ framed owner tok (Tok_JobID t) reflects d d d'.

Lemma framed_refl owner tok job refl d0 d : framed owner tok job refl d0 d d.
Proof. exists [], []. split_and!; [constructor..|apply frame_refl]. Qed.

Lemma within_framed {A} owner tok job refl ids agts d0 d (p : prog db A) :
  Forall (owned_message owner d0) ids -> Forall (owned_agent owner d0) agts ->
  within (tool_frame owner tok job refl ids agts) p -> wp p (fun _ d' => framed owner tok job refl d0 d d') d.
Proof.
  intros Hi Ha Hp. eapply wp_mono; [|apply (within_wp (tool_frame owner tok job refl ids agts)), Hp].
  intros a d' Hf. by exists ids, agts.
Qed.

Lemma wp_Validate owner tok t d : authorises owner tok t d ->
  wp (Validate tok owner (Tok_JobID t)) (fun r d' =>
    match r with
    | Ok _ => d' = d \/ exists now, d' = set_dispatch_tokens (alter (stamp_used now) tok (dispatch_tokens d)) d
    | Err _ => d' = d
    | Panic _ => False
    end) d.
Proof.
  intros (Ht&Hr&He&Ho). unfold Validate. destruct (str_empty tok); [by left|].
  simpl. split; [|done]. rewrite Ht. simpl. unfold token_valid. rewrite Hr, Ho, String.eqb_refl, Z.eqb_refl.
  rewrite bool_decide_true by done. rewrite (proj2 (Z.ltb_lt _ _)) by done. simpl.
  case_bool_decide; simpl; [|by left]. split; [|done]. right. by exists (clock d).
Qed.

Lemma wp_authorized token owner refl (f : Z -> M tool_answer) d :
  (forall tok t d1, authorises owner tok t d -> messages d1 = messages d -> agents d1 = agents d ->
     wp (f (Tok_JobID t)) (fun _ d' => framed owner tok (Tok_JobID t) refl d d1 d') d1) ->
  wp (let? id := authorizeForOwner token owner in f id) (tool_post token owner refl d) d.
Proof.
  intros Hf. apply wp_bind. unfold authorizeForOwner, tool_error. destruct token as [tok|]; [|by left].
  simpl. split; [|by left]. destruct (dispatch_tokens d !! tok) as [t|] eqn:Ht; [|by left]. simpl.
  destruct (bool_decide (RevokedAt t = None)) eqn:Hr; [|by left]. simpl.
  destruct (Z.ltb_spec (clock d) (Tok_ExpiresAt t)) as [He|]; [|by left]. simpl.
  destruct (String.eqb_spec (Tok_OwnerID t) owner) as [Ho|]; [|by left]. apply bool_decide_eq_true in Hr.
  assert (authorises owner tok t d) as Hau by done. apply wp_bind. eapply wp_mono; [|by apply wp_Validate].
  intros [v|e|p] d1; [|intros ->; by left|done]. intros Hd1. simpl.
  assert (messages d1 = messages d /\ agents d1 = agents d) as [Hm Hag] by by destruct Hd1 as [->|[now ->]].
  eapply wp_mono; [|by apply Hf]. intros r d' (ids&agts&Hi&Ha&Hfr). right. exists tok, t. split_and!; [done|done|].
  exists ids, agts. split_and!; [done|done|]. etrans; [|exact Hfr].
  destruct Hd1 as [->|[now ->]]; [apply frame_refl|apply stamp_frame].
Qed.

Lemma wp_OwnerFor name d : wp (OwnerFor name) (fun r d' => d' = d /\ forall o, r = Ok o -> owned_agent o d name) d.
Proof.
  unfold OwnerFor. simpl. split; [|done]. split; [done|]. intros o. destruct (find_row _ _) as [a|] eqn:E; [|done].
  apply find_row_Some in E as [E Ha]. apply String.eqb_eq in E. destruct (Z.eqb_spec (Agent_OwnerID a) 0); [done|].
  intros [= <-]. by exists a.
Qed.

Lemma wp_messageBelongsTo id owner d :
  wp (messageBelongsTo id owner) (fun b d' => d' = d /\ (b.1 = true -> b.2 = true -> owned_message owner d id)) d.
Proof.
  unfold messageBelongsTo. apply wp_bind. cbn [query_o exec_o wp]. split; [|done].
  destruct (find_id id (messages d)) as [m|] eqn:Em; [|done]. apply wp_bind.
  eapply wp_mono; [|apply wp_OwnerFor]. intros o d' [-> Ho]. split; [done|]. intros _ Hown.
  destruct o as [o|e|p]; [|done|done]. simpl in Hown. apply String.eqb_eq in Hown as ->.
  apply find_id_Some in Em as [Em Hm]. exists m. split_and!; [done|done|by apply Ho].
Qed.

Lemma wp_check_owned ids owner d :
  wp (check_owned ids owner) (fun r d' => d' = d /\ (is_ok r = true -> Forall (owned_message owner d) ids)) d.
Proof.
  induction ids as [|id ids IH]; [by simpl|]. cbn [check_owned]. apply wp_bind.
  eapply wp_mono; [|apply wp_messageBelongsTo]. intros [[] []] d' [-> Ho]; simpl; [|done..].
  eapply wp_mono; [|exact IH]. intros r d' [-> Hr]. split; [done|]. intros Hok. constructor; [by apply Ho|by apply Hr].
Qed.

Lemma wp_owned ids owner tok job refl (f : M tool_answer) d d1 : messages d1 = messages d -> agents d1 = agents d ->
  (Forall (owned_message owner d) ids -> within (tool_frame owner tok job refl ids []) f) ->
  wp (let? _ := check_owned ids owner in f) (fun _ d' => framed owner tok job refl d d1 d') d1.
Proof.
  intros Hm Ha Hf. apply wp_bind. eapply wp_mono; [|apply wp_check_owned]. intros r d2 [-> Hr].
  destruct r as [[]|e|p]; [|apply framed_refl|apply framed_refl]. specialize (Hr eq_refl).
  assert (Forall (owned_message owner d) ids) as Hi.
  { eapply Forall_impl; [exact Hr|]. unfold owned_message, owned_agent. by rewrite Hm, Ha. }
  by apply (within_framed _ _ _ _ ids []); [|constructor|apply Hf].
Qed.

Definition reflects (c : tool_call) : bool := match c with memory_write_reflection _ _ => true | _ => false end.

Lemma refused token owner refl d e : tool_post token owner refl d (Err e) d.
Proof. by left. Qed.

Lemma wp_list token owner since limit d :
  wp (handleListUnprocessed cfg token owner since limit) (tool_post token owner false d) d.
Proof.
  unfold handleListUnprocessed. destruct (str_empty owner); [apply refused|]. apply wp_authorized. intros tok t d1 _ _ _.
  apply (within_framed _ _ _ _ [] []); [constructor..|].
  apply within_bind_ok; [apply or_internal_frame, within_query, _|]. intros l. destruct (bool_decide _); [done|].
  apply within_bind_ok; [apply or_internal_frame, within_query, _|]. intros items. apply within_bind; [apply record_frame|done].
Qed.

Lemma wp_reflect token owner body sources d :
  wp (handleWriteReflection token owner body sources) (tool_post token owner true d) d.
Proof.
  unfold handleWriteReflection. destruct (_ || _); [apply refused|]. apply wp_authorized. intros tok t d1 _ Hm Ha.
  apply (wp_owned (parseInt64CSV sources)); [done|done|]. intros Hi.
  apply within_bind_ok; [apply or_internal_frame; unfold pickReflectionChannel; within_walk|]. intros ch.
  destruct (_ =? _); [done|]. apply within_bind_ok; [apply or_internal_frame, InsertConversation_frame|]. intros conv.
  apply within_bind_ok; [by apply or_internal_frame, InsertMessage_frame|]. intros msg.
  apply within_bind; [by apply link_sources_frame|]. intros n. apply within_bind; [apply record_frame|done].
Qed.

Lemma wp_rewrite token owner agent blob d :
  wp (handleRewriteCore maxBytes token owner agent blob) (tool_post token owner false d) d.
Proof.
  unfold handleRewriteCore. destruct (_ || _); [apply refused|]. apply wp_authorized. intros tok t d1 _ Hm Ha.
  apply wp_bind. eapply wp_mono; [|apply wp_OwnerFor]. intros target d2 [-> Ht].
  destruct target as [o|[]|p]; try apply framed_refl. destruct (String.eqb_spec o owner) as [->|]; [|apply framed_refl].
  assert (owned_agent owner d agent) as Hown.
  { specialize (Ht owner eq_refl). unfold owned_agent in *. by rewrite Ha in Ht. }
  apply (within_framed _ _ _ _ [] [agent]); [constructor|by repeat constructor|].
  apply within_bind; [apply within_query, _|]. intros prev. apply within_bind; [apply Core_Set_frame; by apply list_elem_of_singleton|].
  intros [[]|[]|p]; try done. apply within_bind; [apply record_frame|done].
Qed.

Lemma wp_pair token owner aID bID src dst ty m tool tgt args (ans : Z -> tool_answer) d :
  src ∈ [aID; bID] -> dst ∈ [aID; bID] ->
  wp (let? jobID := authorizeForOwner token owner in
      let? _ := check_owned [aID; bID] owner in
      let? linkID := or_internal (AddConsolidationLink src dst ty owner ("agent:dream:" +:+ owner) m) in
      let! _ := recordAction jobID tool tgt args in Ret (Ok (ans linkID))) (tool_post token owner false d) d.
Proof.
  intros Hs Hd. apply wp_authorized. intros tok t d1 _ Hm Ha. apply wp_owned; [done|done|]. intros Hi.
  apply within_bind_ok; [apply or_internal_frame, AddConsolidationLink_frame; auto|]. intros l.
  apply within_bind; [apply record_frame|done].
Qed.

Lemma wp_link token owner src dst ty m d : wp (handleAddLink token owner src dst ty m) (tool_post token owner false d) d.
Proof.
  unfold handleAddLink. destruct (_ || _); [apply refused|]. apply wp_authorized. intros tok t d1 _ Hm Ha.
  apply wp_owned; [done|done|]. intros Hi. apply within_bind; [apply Add_frame; [set_solver|right; set_solver]|].
  intros [l|[]|p]; try done. apply within_bind; [apply record_frame|done].
Qed.

(** C14. Whatever statement fails, a memory tool either fails without changing
    anything, or the token in the request is on record, not revoked, not
    expired and the named owner's, and then the call changes at most: the
    recorded actions of the one job the token is bound to; the use stamp of
    the token itself; links of that owner to messages of its own agents (from
    such messages too, unless the tool writes a reflection); core blobs of its
    own agents; and messages in the name of its dream agent, for a reflection
    only.  Agents, channels, usage and pins never change. *)
Theorem tool_authorized (token : option string) (owner : string) (c : tool_call) (d : db) :
  wp (call_tool cfg maxBytes token owner c) (tool_post token owner (reflects c) d) d.
Proof.
  destruct c; cbn [call_tool reflects];
    [apply wp_list|apply wp_reflect|apply wp_rewrite| | |apply wp_link].
  - unfold handleMarkDuplicate. destruct (_ || _); [apply refused|].
    destruct (Z.eqb_spec keepID aID), (Z.eqb_spec keepID bID); simpl; subst; try apply refused; apply wp_pair; set_solver.
  - unfold handleSupersede. destruct (_ || _); [apply refused|]. apply wp_pair; set_solver.
Qed.
End Tools.

(** ** A run *)
Section Run.
Context {HEng : Engine} {HCred : Credentials} {HDream : DreamHarness} (w : ConsolidatorWorker).

Lemma result_status et res expired : let st := (mapHarnessResult et res expired).1.1 in
  completion_status st = true /\ job_status_ok st = true /\ in_flight st = false.
Proof. unfold mapHarnessResult. destruct expired; [done|]. destruct res as [[r|]|e|p]; try done. by destruct (her_ExitCode r =? 0). Qed.

Lemma run_ok_Lease id until d :
  (run_ok (Lease id until) d).2 =
  set_memory_jobs (update_rows (fun j => by_id id j && bool_decide (Job_Status j ∈ [JobStatusDispatched; JobStatusPending]))
                     (with_lease until (clock d)) (memory_jobs d)) d.
Proof. done. Qed.

Lemma run_ok_Complete id st sum err d : completion_status st = true -> job_status_ok st = true ->
  (run_ok (Complete id st sum err) d).2 =
  set_memory_jobs (update_rows (by_id id) (with_completion st sum err (clock d)) (memory_jobs d)) d.
Proof. intros Hc Hs. unfold Complete. rewrite Hc. unfold run_ok. simpl. by rewrite Hs. Qed.

Lemma run_ok_Revoke tok d : tok <> EmptyString ->
  (run_ok (Revoke tok) d).2 = set_dispatch_tokens (alter (stamp_revoked (clock d)) tok (dispatch_tokens d)) d.
Proof. by destruct tok. Qed.

Definition leased (s : dream_spawn) (d : db) : db := (run_ok (Lease (ds_JobID s) (clock d + wallclock w)) d).2.

Lemma run_ok_now {A} (f : Z -> prog db A) d : run_ok (bind time_now f) d = run_ok (f (clock d)) d.
Proof. done. Qed.

(** A call whose answer is dropped. *)
Lemma run_ok_then {A B} (p : prog db A) (q : prog db B) d : run_ok (let! _ := p in q) d = run_ok q (run_ok p d).2.
Proof. rewrite run_ok_bind. by destruct (run_ok p d). Qed.

(** The database after a run: the two updates, then the usage. *)
Lemma run_ok_runJob s d : ds_Token s <> EmptyString ->
  let '(res, d1) := run_ok (Execute (ds_Agent s) (job_request w s)) (leased s d) in
  let '(st, sum, err) := mapHarnessResult err_text res (wallclock w <=? clock d1 - clock d) in
  let d2 := set_memory_jobs (update_rows (by_id (ds_JobID s)) (with_completion st sum err (clock d1)) (memory_jobs d1)) d1 in
  let d3 := set_dispatch_tokens (alter (stamp_revoked (clock d1)) (ds_Token s) (dispatch_tokens d1)) d2 in
  (run_ok (runJob w s) d).2 =
  (run_ok (when_usage w (RecordCompletion (ds_OwnerID s) (result_tokens res).1 (result_tokens res).2 st)) d3).2.
Proof.
  intros Ht. unfold runJob. rewrite run_ok_now, run_ok_then. fold (leased s d). rewrite run_ok_bind.
  destruct (run_ok (Execute (ds_Agent s) (job_request w s)) (leased s d)) as [res d1]. rewrite run_ok_now.
  pose proof (result_status err_text res (wallclock w <=? clock d1 - clock d)) as (Hc&Hs&_).
  destruct (mapHarnessResult _ _ _) as [[st sum] err]. rewrite !run_ok_then.
  rewrite run_ok_Complete, run_ok_Revoke by done. by destruct (result_tokens res).
Qed.

Lemma leased_job s d j : find_id (ds_JobID s) (memory_jobs d) = Some j ->
  exists j', find_id (ds_JobID s) (memory_jobs (leased s d)) = Some j' /\
    job_identity j' = job_identity j /\ Actions j' = Actions j /\ FinishedAt j' = FinishedAt j.
Proof.
  intros Hj. unfold leased. rewrite run_ok_Lease. simpl. rewrite (find_id_update (R := Job)) by done. rewrite Hj. simpl.
  by destruct (_ && _); eexists.
Qed.

(** A row in flight after the two updates is another job, in flight before. *)
Lemma run_in_flight s d st sum err now j : in_flight st = false ->
  j ∈ rows (update_rows (by_id (ds_JobID s)) (with_completion st sum err now) (memory_jobs (leased s d))) ->
  in_flight (Job_Status j) = true ->
  Job_ID j <> ds_JobID s /\ exists j0, j0 ∈ rows (memory_jobs d) /\ Job_ID j0 = Job_ID j /\ job_slot j0 = job_slot j /\
    in_flight (Job_Status j0) = true.
Proof.
  intros Hst Hj Hf. apply elem_of_map_if in Hj as (j1&Hj1&Ej). destruct (by_id (ds_JobID s) j1) eqn:Eid.
  - subst j. simpl in Hf. congruence.
  - subst j1. split; [by apply Z.eqb_neq|]. unfold leased in Hj1. rewrite run_ok_Lease in Hj1.
    apply elem_of_map_if in Hj1 as (j0&Hj0&Ej). exists j0. destruct (_ && _) eqn:El; subst; [|done].
    split_and!; [done|done|done|]. apply andb_true_iff in El as [_ El]. apply bool_decide_eq_true in El.
    by apply leasable_in_flight.
Qed.

Lemma when_usage_frame p d : within (fun d d' => memory_jobs d' = memory_jobs d /\ dispatch_tokens d' = dispatch_tokens d) p ->
  memory_jobs (run_ok (when_usage w p) d).2 = memory_jobs d /\ dispatch_tokens (run_ok (when_usage w p) d).2 = dispatch_tokens d.
Proof.
  intros Hp. unfold when_usage. destruct (w_usage w); [|done]. rewrite run_ok_then.
  assert (PreOrder (fun d d' : db => memory_jobs d' = memory_jobs d /\ dispatch_tokens d' = dispatch_tokens d)) as HP.
  { split; [done|]. intros a b c [? ?] [? ?]. split; congruence. }
  exact (wp_run_ok p _ d (within_wp _ p d Hp)).
Qed.

Lemma usage_frame o u : within (fun d d' => memory_jobs d' = memory_jobs d /\ dispatch_tokens d' = dispatch_tokens d) (usage_upsert o u).
Proof. unfold usage_upsert. destruct (str_empty o); [done|]. apply within_bind; [done|]. intros now. by apply within_exec. Qed.

(** What is added to the usage of the day. *)
Definition usage_after (o : string) (u : DreamUsage) (now : Z) (m : gmap (Z * string) DreamUsage) : gmap (Z * string) DreamUsage :=
  if w_usage w && negb (str_empty o)
  then partial_alter (fun x => Some (add_usage (default no_usage x) u)) (utcDate now, o) m else m.

Lemma run_ok_usage o u d : (run_ok (when_usage w (usage_upsert o u)) d).2 = set_dream_usage (usage_after o u (clock d) (dream_usage d)) d.
Proof.
  unfold when_usage, usage_after, usage_upsert. destruct (w_usage w), (str_empty o); first [reflexivity|by destruct d].
Qed.

(** C15. A job in flight whose goroutine runs undisturbed is over afterwards,
    whatever the harness answers and even when its deadline passed: its status
    is the verdict on that answer, its finish time the moment the harness
    returned, its identity and recorded actions are kept; its slot is free
    again, so that the owner's next job of the type can be created; its token
    is revoked and no other token or job changes.  Besides these two tables
    only the usage of the owner for the day changes, by what the run used and
    by one for the verdict; the rest is as the harness left it. *)
Theorem run_job_completes (maxBytes : Z) (s : dream_spawn) (j : Job) (d : db)
    (Hok : memory_ok maxBytes d) (Htok : ds_Token s <> EmptyString)
    (Hj : find_id (ds_JobID s) (memory_jobs d) = Some j) (Hfl : in_flight (Job_Status j) = true) :
  let '(res, d1) := run_ok (Execute (ds_Agent s) (job_request w s)) (leased s d) in
  let '(st, sum, err) := mapHarnessResult err_text res (wallclock w <=? clock d1 - clock d) in
  let d' := (run_ok (runJob w s) d).2 in
  (exists j', find_id (ds_JobID s) (memory_jobs d') = Some j' /\ Job_Status j' = st /\ in_flight st = false /\
     FinishedAt j' = Some (clock d1) /\ LeaseUntil j' = None /\ job_identity j' = job_identity j /\ Actions j' = Actions j) /\
  slot_busy (Job_OwnerID j) (JobType j) (Slot j) d' = false /\
  dispatch_tokens d' = alter (stamp_revoked (clock d1)) (ds_Token s) (dispatch_tokens d) /\
  (forall id, id <> ds_JobID s -> find_id id (memory_jobs d') = find_id id (memory_jobs d)) /\
  dream_usage d' = usage_after (ds_OwnerID s) (completion_usage (result_tokens res).1 (result_tokens res).2 st) (clock d1) (dream_usage d) /\
  d' = set_dream_usage (dream_usage d') (set_dispatch_tokens (dispatch_tokens d') (set_memory_jobs (memory_jobs d') d1)).
Proof.
  pose proof (run_ok_runJob s d Htok) as Hrun.
  pose proof (wp_run_ok _ _ _ (within_wp memory_untouched _ (leased s d) (Execute_frame (ds_Agent s) (job_request w s)))) as Hun.
  destruct (run_ok (Execute _ _) (leased s d)) as [res d1]. simpl in Hun. destruct Hun as (Ej&Et&Eu&_).
  pose proof (result_status err_text res (wallclock w <=? clock d1 - clock d)) as (_&_&Hst).
  destruct (mapHarnessResult _ _ _) as [[st sum] err]. simpl in Hst. cbv zeta in Hrun |- *. rewrite Hrun.
  unfold RecordCompletion. rewrite run_ok_usage.
  simpl. rewrite Ej, Et, Eu. pose proof (mo_job _ _ Hok j (proj2 (find_id_Some _ _ _ Hj))) as [_ _ Hover _ _].
  destruct (leased_job s d j Hj) as (jl&Hjl&Hid&Hact&Hfin). rewrite (proj2 Hover Hfl) in Hfin.
  split_and!.
  - exists (with_completion st sum err (clock d1) jl). rewrite (find_id_update (R := Job)) by done. rewrite Hjl. simpl.
    apply find_id_Some in Hjl as [Hjl _]. unfold by_id. change (row_id jl) with (Job_ID jl) in *. rewrite Hjl, Z.eqb_refl.
    split_and!; try done. by rewrite Hfin.
  - unfold slot_busy. rewrite negb_false_iff, Z.eqb_eq. unfold affected. rewrite count_if_0. intros x Hx.
    destruct (slot_key _ _ _ x) eqn:Ek; [|done]. exfalso. unfold slot_key in Ek. guards.
    simpl in Hx. rewrite ?Ej in Hx.
    destruct (run_in_flight s d st sum err (clock d1) x Hst Hx) as (Hne&x0&Hx0&Ei&Es&Hf0); [done|].
    apply Hne. rewrite <- Ei. apply find_id_Some in Hj as [<- Hjin].
    apply (mo_slots _ _ Hok); [done|done|done|done|]. unfold job_slot in *. congruence.
  - done.
  - intros id Hne. rewrite (find_id_update (R := Job)) by done. unfold leased. rewrite run_ok_Lease. simpl.
    rewrite (find_id_update (R := Job)) by done. destruct (find_id id (memory_jobs d)) as [x|] eqn:Ex; [|done]. simpl.
    apply find_id_Some in Ex as [Ex _]. change (row_id x) with (Job_ID x) in Ex.
    assert (by_id (ds_JobID s) x = false) as Eb by (apply Z.eqb_neq; change (row_id x) with (Job_ID x); congruence).
    rewrite Eb. simpl. by rewrite Eb.
  - done.
  - done.
Qed.
End Run.

(** ** A dispatch *)
Section Dispatch.
Context {HEng : Engine} {HCred : Credentials} {HDream : DreamHarness} (w : ConsolidatorWorker).

(** What a launch needs: random bytes that give a new token, and the agent. *)
Definition launchable (d : db) : bool :=
  match (run_ok rand_Read d).1 with
  | Ok raw => bool_decide (dispatch_tokens d !! base64_url raw = None) &&
              is_ok (run_ok (GetAgent (DreamAgent (w_cfg w))) d).1
  | _ => false
  end.

(** A goroutine for the job, which is dispatched with its token. *)
Definition launched (o ty : string) (id : Z) (j : Job) (s : dream_spawn) (d d' : db) : Prop :=
  ds_OwnerID s = o /\ ds_JobID s = id /\ ds_JobType s = ty /\ Agent_Name (ds_Agent s) = DreamAgent (w_cfg w) /\
  (exists j', find_id id (memory_jobs d') = Some j' /\ Job_Status j' = JobStatusDispatched /\
     Job_DispatchToken j' = Some (ds_Token s) /\ HarnessRunID j' = Some (ds_RunID s) /\ job_identity j' = job_identity j) /\
  exists now, clock d <= now /\ dispatch_tokens d !! ds_Token s = None /\
    dispatch_tokens d' = <[ds_Token s := mkDispatchToken o id now (now + DispatchTokenTTL) None None]> (dispatch_tokens d).

Definition failed_job (id : Z) (j : Job) (d' : db) : Prop :=
  exists j', find_id id (memory_jobs d') = Some j' /\ Job_Status j' = JobStatusFailed /\ job_identity j' = job_identity j.

Lemma run_GetAgent n d : (run_ok (GetAgent n) d).2 = d /\ forall a, (run_ok (GetAgent n) d).1 = Ok a -> Agent_Name a = n.
Proof.
  unfold GetAgent, or_not_found, GetAgentByName, run_ok. simpl.
  destruct (find_row _ _) as [a|] eqn:E; simpl; [|by split]. split; [done|]. intros x [= <-].
  apply find_row_Some in E as [E _]. unfold active_named in E. by guards.
Qed.

Lemma run_GetAgent_agents n d d2 : agents d2 = agents d -> (run_ok (GetAgent n) d2).1 = (run_ok (GetAgent n) d).1.
Proof. intros E. unfold GetAgent, or_not_found, GetAgentByName, run_ok. simpl. rewrite E. by destruct (find_row _ _). Qed.

Lemma run_abandon {A} id what e j d : find_id id (memory_jobs d) = Some j ->
  exists r d', run_ok (abandon (A := A) id what e) d = (r, d') /\ is_ok r = false /\ failed_job id j d'.
Proof.
  intros Hj. unfold abandon. rewrite run_ok_then, run_ok_Complete by done. eexists _, _. split_and!; [done|done|].
  exists (with_completion JobStatusFailed "" what (clock d) j). simpl. rewrite (find_id_update (R := Job)) by done. rewrite Hj. simpl.
  apply find_id_Some in Hj as [Hj _]. unfold by_id. by rewrite Hj, Z.eqb_refl.
Qed.

Lemma run_Dispatch_job id run tok j d : find_id id (memory_jobs d) = Some j -> Job_Status j = JobStatusPending ->
  exists d', run_ok (Dispatch_job id run tok) d = (Ok tt, d') /\
    d' = set_memory_jobs (update_rows (fun j => by_id id j && bool_decide (Job_Status j ∈ [JobStatusPending]))
           (with_dispatch run tok) (memory_jobs d)) d /\
    find_id id (memory_jobs d') = Some (with_dispatch run tok j).
Proof.
  intros Hj Hp. unfold Dispatch_job, update_job, run_ok. simpl.
  pose proof (find_id_Some _ _ _ Hj) as [Hid Hin].
  assert (by_id id j && bool_decide (Job_Status j ∈ [JobStatusPending]) = true) as Hpj.
  { unfold by_id. rewrite Hid, Z.eqb_refl, Hp. by apply bool_decide_eq_true, list_elem_of_singleton. }
  rewrite affected_find.
  destruct (find_row_is_Some (fun j => by_id id j && bool_decide (Job_Status j ∈ [JobStatusPending])) _ _ Hin Hpj) as [x ->].
  eexists. split_and!; [done|done|]. simpl. rewrite (find_id_update (R := Job)) by done. rewrite Hj. simpl. by rewrite Hpj.
Qed.

#[local] Instance tick_preorder : PreOrder tick.
Proof.
  split.
  - intros d. exists 0. split; [done|]. rewrite Z.add_0_r. by destruct d.
  - intros a b c (s&Hs&->) (t&Ht&->). exists (s + t). split; [lia|]. simpl. by rewrite Z.add_assoc.
Qed.

Lemma str_nonempty o : o <> EmptyString -> str_empty o = false.
Proof. by destruct o. Qed.

Lemma run_Issue o id raw d0 d : o <> EmptyString -> id <> 0 -> run_ok rand_Read d0 = (Ok raw, d) ->
  run_ok (Issue o id) d0 =
  (if token_insertable (base64_url raw) id d
   then (Ok (base64_url raw, clock d + DispatchTokenTTL),
         set_dispatch_tokens (<[base64_url raw := mkDispatchToken o id (clock d) (clock d + DispatchTokenTTL) None None]>
           (dispatch_tokens d)) d)
   else (Err EDb, d)).
Proof.
  intros Ho Hid Hr. unfold Issue. rewrite (str_nonempty o) by done.
  rewrite (proj2 (Z.eqb_neq id 0)) by done. rewrite run_ok_bind_ok, Hr. cbv beta iota zeta. rewrite run_ok_now, run_ok_bind_ok.
  unfold InsertToken, run_ok. simpl. by destruct (token_insertable _ id d).
Qed.

Lemma run_when_usage p d : within (fun d d' => memory_jobs d' = memory_jobs d /\ dispatch_tokens d' = dispatch_tokens d) p ->
  exists d', run_ok (when_usage w p) d = (tt, d') /\ memory_jobs d' = memory_jobs d /\ dispatch_tokens d' = dispatch_tokens d.
Proof.
  intros Hp. destruct (when_usage_frame w p d Hp) as [H1 H2]. destruct (run_ok (when_usage w p) d) as [[] d'].
  by exists d'.
Qed.

Lemma run_launch o ty id j d : o <> EmptyString -> id <> 0 -> find_id id (memory_jobs d) = Some j ->
  Job_Status j = JobStatusPending -> (forall p, (run_ok rand_Read d).1 <> Panic p) ->
  exists r d', run_ok (launchOne w o ty id) d = (r, d') /\
    if launchable d then exists s, r = Ok [s] /\ launched o ty id j s d d' else is_ok r = false /\ failed_job id j d'.
Proof.
  intros Ho Hid Hj Hp Hnp. unfold launchOne, launchable.
  pose proof (wp_run_ok _ _ _ (within_wp tick _ d rand_Read_frame)) as Htick.
  destruct (run_ok rand_Read d) as [[raw|e|p] d1] eqn:Er; simpl in Htick, Hnp; cbn [fst]; [| |by destruct (Hnp p)].
  2: { rewrite run_ok_bind. unfold Issue. rewrite (str_nonempty o) by done.
       rewrite (proj2 (Z.eqb_neq id 0)) by done. rewrite run_ok_bind_ok, Er. cbv iota beta.
       destruct Htick as (t&_&->). by apply run_abandon. }
  destruct Htick as (t&Ht&Ed1). rewrite run_ok_bind, (run_Issue o id raw d d1) by done.
  assert (token_insertable (base64_url raw) id d1 = bool_decide (dispatch_tokens d !! base64_url raw = None)) as ->.
  { subst d1. unfold token_insertable. simpl. rewrite affected_find. unfold find_id in Hj. rewrite Hj. apply andb_true_r. }
  case_bool_decide as Hfresh; cbn [andb]; cbv iota beta.
  2: by apply run_abandon; subst.
  set (tok := base64_url raw) in *. match goal with |- context [run_ok (bind (GetAgent _) _) ?x] => set (d2 := x) end.
  rewrite run_ok_bind. destruct (run_GetAgent (DreamAgent (w_cfg w)) d2) as [Ed3 Hname].
  assert ((run_ok (GetAgent (DreamAgent (w_cfg w))) d2).1 = (run_ok (GetAgent (DreamAgent (w_cfg w))) d).1) as Esame by (subst d2 d1; by apply run_GetAgent_agents).
  destruct (run_ok (GetAgent _) d2) as [found d3] eqn:Eg. simpl in Ed3, Hname, Esame. subst d3. rewrite <- Esame.
  assert (find_id id (memory_jobs d2) = Some j) as Hj2 by (by subst d2 d1).
  destruct found as [a|e|p]; cbn [is_ok]; cbv iota.
  2: by apply run_abandon.
  2: { unfold GetAgent, or_not_found, GetAgentByName, run_ok in Eg. simpl in Eg. by destruct (find_row _ _). }
  rewrite run_ok_bind. pose proof (wp_run_ok _ _ _ (within_wp memory_untouched _ d2 uuid_frame)) as Hun.
  destruct (run_ok uuid_NewString d2) as [run d4]. simpl in Hun. destruct Hun as (Ej&Et&_).
  assert (find_id id (memory_jobs d4) = Some j) as Hj4 by by rewrite Ej.
  rewrite run_ok_bind. destruct (run_Dispatch_job id run tok j d4 Hj4 Hp) as (d5&->&Ed5&Hj5). cbv iota.
  rewrite run_ok_bind. destruct (run_when_usage (RecordStart o) d5 (usage_frame _ _)) as (d6&->&E6&T6).
  eexists _, _. split; [done|]. eexists. split; [done|]. unfold launched. simpl. rewrite E6, T6.
  split_and!; [done|done|done|by apply Hname| |].
  - eexists. split; [exact Hj5|]. done.
  - exists (clock d1). subst d5. simpl. rewrite Et. subst d2 d1. simpl. split_and!; [lia|done|done].
Qed.

(** The gate's answer, and whether slot 0 takes a new job. *)
Definition gate_answer (o : string) (d : db) : option string :=
  if w_gate w && negb (str_empty o)
  then gate_reason (w_cfg w) (default no_usage (dream_usage d !! (utcDate (clock d), o)))
  else None.
Definition creatable (o ty : string) (d : db) : bool :=
  negb (str_empty o) && negb (str_empty ty) && job_type_ok ty && negb (slot_busy o ty 0 d).
Definition created (o ty tr : string) (d : db) : db := set_memory_jobs (insert_row (job_row o ty tr 0 (clock d)) (memory_jobs d)) d.

Lemma run_gate o d : run_ok (gate_verdict w o) d = (gate_answer o d, d).
Proof. unfold gate_verdict, gate_answer, Allow, Today, run_ok. destruct (w_gate w); [|done]. simpl. by destruct (str_empty o). Qed.

Lemma run_Create o ty tr d :
  if creatable o ty d then run_ok (Create o ty tr) d = (Ok (next_id (memory_jobs d)), created o ty tr d)
  else exists e, run_ok (Create o ty tr) d = (Err e, d).
Proof.
  unfold Create, CreateOnSlot, creatable, run_ok. destruct (str_empty o); simpl; [by eexists|]. destruct (str_empty ty); simpl; [by eexists|].
  destruct (job_type_ok ty); simpl; [|by eexists]. destruct (slot_busy o ty 0 d); simpl; [by eexists|done].
Qed.

Lemma run_refuse_job o ty r d : let d1 := created o ty ("circuit_broken:" +:+ r) d in
  (run_ok (refuse_job o ty r) d).2 = if creatable o ty d then d1 else d.
Proof.
  intros d1. unfold refuse_job. rewrite run_ok_bind_ok. pose proof (run_Create o ty ("circuit_broken:" +:+ r) d) as H.
  destruct (creatable o ty d); [rewrite H|by destruct H as [e ->]]. cbv iota. by rewrite run_ok_then.
Qed.

(** An undisturbed evaluation of a trigger.  When slot 0 of the owner's
    jobs of the type is taken (or the job is malformed) nothing happens.
    Otherwise a job is created: below the daily limits, with a dream agent and
    a fresh token, it ends up dispatched and exactly one goroutine starts,
    carrying the job's id, its owner and its token, just issued for fifteen
    minutes; without them it ends up failed and nothing starts.  Over a limit
    the job is left pending, since the schema does not know the status that
    should end it. *)
Theorem try_dispatch_exact (o ty tr : string) (d : db) (Hid : 0 < next_id (memory_jobs d))
    (Hok : table_ok (memory_jobs d)) (Hrand : forall d0 p, (run_ok rand_Read d0).1 <> Panic p) :
  let '(l, d') := run_ok (tryDispatch w o ty tr) d in
  if creatable o ty d then
    match gate_answer o d with
    | Some r => l = [] /\ memory_jobs d' = memory_jobs (created o ty ("circuit_broken:" +:+ r) d) /\
                dispatch_tokens d' = dispatch_tokens d
    | None =>
        let j := job_row o ty tr 0 (clock d) (next_id (memory_jobs d)) in
        let d1 := created o ty tr d in
        if launchable d1 then exists s, l = [s] /\ launched o ty (Job_ID j) j s d1 d' else l = [] /\ failed_job (Job_ID j) j d'
    end
  else l = [] /\ memory_jobs d' = memory_jobs d /\ dispatch_tokens d' = dispatch_tokens d.
Proof.
  unfold tryDispatch. rewrite run_ok_bind, run_gate. destruct (gate_answer o d) as [r|].
  - rewrite run_ok_then, run_refuse_job, run_ok_then.
    match goal with |- context [run_ok (when_usage w ?p) ?x] => destruct (run_when_usage p x (usage_frame _ _)) as (d2&->&E2&T2) end.
    destruct (creatable o ty d); simpl; by rewrite E2, T2.
  - rewrite run_ok_bind. pose proof (run_Create o ty tr d) as H. destruct (creatable o ty d) eqn:Hc; [rewrite H|by destruct H as [e ->]].
    unfold creatable in Hc. guards. rewrite run_ok_bind.
    destruct (run_launch o ty (next_id (memory_jobs d)) (job_row o ty tr 0 (clock d) (next_id (memory_jobs d))) (created o ty tr d))
      as (x&d'&->&Hx); [by intros ->|lia|by apply (find_id_insert_fresh (R := Job))|done|by apply Hrand|].
    simpl run_ok. destruct (launchable _); [|destruct Hx as [Hx ?]; by destruct x].
    destruct Hx as (s&->&Hs). by exists s.
Qed.
End Dispatch.

(** ** The status view *)
Section StatusView.
Context {HEng : Engine}.

(** A finished job of the owner has recorded such an action on the message. *)
Definition recorded_action (p : Action -> bool) (k : Z * string) (d : db) : Prop :=
  exists j a, j ∈ rows (memory_jobs d) /\ finished_job j = true /\ Job_OwnerID j = k.2 /\
    a ∈ Actions j /\ act_target a = k.1 /\ p a = true.

Definition is_supersede (a : Action) : bool := String.eqb (act_tool a) "memory_supersede".
Definition is_duplicate (a : Action) : bool :=
  String.eqb (act_tool a) "memory_mark_duplicate" &&
  match arg_int "keep_id" a with Some k => negb (k =? act_target a) | None => false end.

Lemma elem_of_action_rows d r : r ∈ action_rows d <->
  exists j a, j ∈ rows (memory_jobs d) /\ finished_job j = true /\ a ∈ Actions j /\ r = mkActionRow (Job_OwnerID j) a (FinishedAt j).
Proof.
  unfold action_rows, job_actions. rewrite list_elem_of_bind. setoid_rewrite list_elem_of_fmap. setoid_rewrite elem_of_select.
  naive_solver.
Qed.

Lemma maxZ_is_Some (l : list Z) : is_Some (maxZ l) <-> l <> [].
Proof. destruct l; simpl; split; try done; by intros []. Qed.

(** The rows of a group with a given kind of action have a time. *)
Lemma group_has maxBytes d k (p : Action -> bool) : memory_ok maxBytes d ->
  is_Some (maxZ (omap ar_at (filter (fun r => p (ar_action r) = true) (filter (fun r => in_group k r = true) (action_rows d))))) <->
  recorded_action p k d.
Proof.
  intros Hok. rewrite maxZ_is_Some. split.
  - intros Hne. destruct (filter _ (filter _ _)) as [|r l] eqn:E; [done|].
    assert (r ∈ r :: l) as Hr by set_solver. rewrite <- E in Hr. apply list_elem_of_filter in Hr as [Hp Hr].
    apply list_elem_of_filter in Hr as [Hk Hr]. apply elem_of_action_rows in Hr as (j&a&Hj&Hf&Ha&->).
    unfold in_group in Hk. simpl in *. guards. by exists j, a.
  - intros (j&a&Hj&Hf&Ho&Ha&Ht&Hp) Hnil.
    set (r := mkActionRow (Job_OwnerID j) a (FinishedAt j)).
    assert (r ∈ filter (fun r => p (ar_action r) = true) (filter (fun r => in_group k r = true) (action_rows d))) as Hr.
    { apply list_elem_of_filter. split; [done|]. apply list_elem_of_filter. split.
      - unfold in_group. simpl. by rewrite Ht, Ho, Z.eqb_refl, String.eqb_refl.
      - apply elem_of_action_rows. by exists j, a. }
    assert (exists t, FinishedAt j = Some t) as [t Ht'].
    { destruct (FinishedAt j) as [t|] eqn:E; [by exists t|]. pose proof (mo_job _ _ Hok j Hj) as [_ _ Hover _ _].
      apply Hover in E. unfold finished_job in Hf. apply bool_decide_eq_true in Hf. by destruct Hf as [Hf|Hf]; rewrite Hf in E. }
    assert (t ∈ omap ar_at (filter (fun r => p (ar_action r) = true) (filter (fun r => in_group k r = true) (action_rows d)))) as Hin.
    { apply list_elem_of_omap. by exists r. }
    rewrite Hnil in Hin. by apply elem_of_nil in Hin.
Qed.

(** The status view has exactly one row for each message and owner on
    which a finished job of the owner recorded an action.  Its status is
    superseded exactly when one of these is a memory_supersede of the message;
    otherwise soft-deleted exactly when one is a memory_mark_duplicate that
    keeps the other message; otherwise active.  Actions of jobs that are
    pending, running, failed, expired or refused never count. *)
Theorem memory_status_exact (maxBytes : Z) (d : db) (Hok : memory_ok maxBytes d) :
  NoDup (memory_status d).*1 /\
  (forall k, (exists s, (k, s) ∈ memory_status d) <-> recorded_action (fun _ => true) k d) /\
  (forall k s, (k, s) ∈ memory_status d ->
     (MS_Status s = MemoryStatusSuperseded <-> recorded_action is_supersede k d) /\
     (MS_Status s = MemoryStatusSoftDeleted <-> ~ recorded_action is_supersede k d /\ recorded_action is_duplicate k d)).
Proof.
  assert (forall k, k ∈ status_groups d <-> recorded_action (fun _ => true) k d) as Hgroups.
  { intros k. unfold status_groups. rewrite (scan_perm _), elem_of_remove_dups, list_elem_of_fmap.
    setoid_rewrite elem_of_action_rows. unfold recorded_action. destruct k. split.
    - intros (r&E&j&a&Hj&Hf&Ha&->). simpl in E. injection E as -> ->. by exists j, a.
    - intros (j&a&Hj&Hf&Ho&Ha&Ht&_). simpl in *. subst. eexists. split; [|by exists j, a]. done. }
  split_and!.
  - unfold memory_status. rewrite <- list_fmap_compose. simpl. rewrite list_fmap_id. unfold status_groups.
    rewrite (scan_perm _). apply NoDup_remove_dups.
  - intros k. rewrite <- Hgroups. unfold memory_status. setoid_rewrite list_elem_of_fmap. naive_solver.
  - intros k s Hs. unfold memory_status in Hs. apply list_elem_of_fmap in Hs as (k'&E&Hk). injection E as <- ->.
    unfold group_status. simpl.
    pose proof (group_has maxBytes d k is_supersede Hok) as H1. pose proof (group_has maxBytes d k is_duplicate Hok) as H2.
    fold supersedes in H1. unfold supersedes, deletes. unfold is_supersede, is_duplicate in *.
    case_bool_decide as Hs1; [rewrite <- H1; naive_solver|]. case_bool_decide as Hs2; rewrite <- H1, <- H2; naive_solver.
Qed.
End StatusView.

(** ** The two ways to write an owner *)

Lemma itoa_digits_pretty n v buf : 0 <= v < 10 ^ Z.of_nat n -> itoa_digits n v buf = pretty.pretty_N_go (Z.to_N v) buf.
Proof.
  revert v buf. induction n as [|n IH]; intros v buf Hv.
  - assert (v = 0) as -> by (simpl in Hv; lia). done.
  - cbn [itoa_digits]. destruct (Z.ltb_spec 0 v) as [Hp|]; [|by assert (v = 0) as -> by lia].
    rewrite IH by (rewrite Z.quot_div_nonneg by lia; split; [apply Z.div_pos; lia|];
      apply Z.div_lt_upper_bound; [lia|]; rewrite Nat2Z.inj_succ, Z.pow_succ_r in Hv by lia; lia).
    rewrite (pretty.pretty_N_go_step (Z.to_N v)) by lia.
    rewrite Z.quot_div_nonneg, Z.rem_mod_nonneg by lia. rewrite Z2N.inj_div by lia. f_equal. f_equal.
    unfold pretty.pretty_N_char. pose proof (Z.mod_pos_bound v 10 ltac:(lia)) as Hm.
    assert (Z.to_N v `mod` 10 = Z.to_N (v `mod` 10))%N as -> by (rewrite Z2N.inj_mod by lia; done).
    assert (exists k, v `mod` 10 = k /\ 0 <= k < 10) as (k&->&Hk) by (by eexists).
    assert (k = 0 \/ k = 1 \/ k = 2 \/ k = 3 \/ k = 4 \/ k = 5 \/ k = 6 \/ k = 7 \/ k = 8 \/ k = 9) as Hc by lia.
    by destruct_or! Hc; subst k.
Qed.

Lemma pretty_positive p : pretty (N.pos p) = itoa_digits 20 (Z.pos p) EmptyString \/ 10 ^ 20 <= Z.pos p.
Proof.
  destruct (Z.leb_spec (10 ^ 20) (Z.pos p)); [by right|left].
  rewrite itoa_digits_pretty by lia. done.
Qed.

(** [itoaInt64] mirrors [strconv.FormatInt], as it says, on every int64 but
    the smallest, of which it writes the sign only. *)
Theorem itoa_agrees (v : Z) : in_int64 v ->
  itoaInt64 v = if decide (v = int64_min) then "-" else pretty v.
Proof.
  intros Hv. destruct (decide (v = int64_min)) as [->|Hne]; [by vm_compute|].
  unfold itoaInt64, in_int64, int64_min, int64_max in *. destruct v as [|p|p]; [done| |].
  - destruct (pretty_positive p) as [E|E]; [|lia]. exact (eq_sym E).
  - change (Z.neg p =? 0) with false. change (Z.neg p <? 0) with true. cbv iota zeta.
    rewrite wrap64_id by (unfold in_int64, int64_min, int64_max; lia). destruct (pretty_positive p) as [E|E]; [|lia].
    change (- Z.neg p) with (Z.pos p). by rewrite <- E.
Qed.
