(* ===== verification/MemoryRuns.v ===== *)
(** * Memory: concrete runs

    Witnesses of the theorems about the consolidation of memory, and runs that
    show where it promises less than its comments say. *)
From stdpp Require Import pretty.
From S2P Require Import Prelude Float64 Prog Table Schema Messaging MessagingQueries Agents Memory Dream MemoryTools MemorySpec MemoryHistory MemoryEffects.

Module MemoryRuns.
#[local] Instance eng : Engine := rowid_engine.
#[local] Instance gojson : GoJson := {| float_text := Some; utf8_coerce := fun s => s |}.
#[local] Instance gonumber : GoNumber := {| int64_of_number := fun _ => 0 |}.
#[local] Instance cred : Credentials.
Proof.
  refine {| rand_Read := Ret (Ok "raw"); GenerateFromPassword := fun k => Ret (Ok ("#" +:+ k));
            CompareHashAndPassword := fun h k => String.eqb h ("#" +:+ k) |}; try done.
  intros k d. simpl. intros h [= <-]. apply String.eqb_refl.
Defined.

(** A harness that takes a minute and succeeds. *)
#[local] Instance harness : DreamHarness.
Proof.
  refine {| Execute := fun _ _ => Stmt (fun d => set_clock (clock d + 60) d)
              (fun _ => Ret (Ok (Some (mkHarnessExecResult 0 "" 1000 200)))) (Ret (Err EDb));
            uuid_NewString := Ret "run-1"; err_text := fun _ => "failed" |}; [|done].
  intros _ _. split; [|done]. intros d. split; [|done]. unfold memory_untouched. simpl. split_and!; try done. lia.
Defined.

Definition an_agent (id : Z) (name : string) (owner : Z) : Agent :=
  mkAgent id name name "ai" raw_empty_object owner "#k" "active" 0 0 TriggerModePassive 600 8 5 "" None
    "default" false "" "" "" "" None 0 "" "supervised" "[]" None "".
Definition no_settings : ChannelSettings := mkChannelSettings false false "" "" f64_zero f64_zero.
Definition a_channel (id : Z) (name : string) (owner : string) : Channel :=
  mkChannel id name "" "" TypeStandard false false owner no_settings 0 0.
Definition a_memory (id : Z) (from body : string) (at_ : Z) : Message :=
  mkMessage id 1 from None (Some 1) None body 5 StatusPending raw_empty_object None None at_ at_.

Definition noon : Z := 86400 * 100 + 43200.
Definition base_db : db :=
  set_clock noon
    (set_agents (mkTable [an_agent 1 "claude-code" 7; an_agent 2 "alice" 7; an_agent 3 "bob" 8] 4)
      (set_channels (mkTable [a_channel 1 "open-brain" "alice"] 2)
        (set_messages (mkTable [a_memory 1 "alice" "the sky is blue" (noon - 100); a_memory 2 "alice" "sky: blue" (noon - 50)] 3) empty_db))).

Lemma base_ok : memory_ok 2048 base_db.
Proof. by split; simpl; try apply table_ok_empty; try set_solver; try constructor. Qed.

(** The worker, with usage and gate wired. *)
Definition worker : ConsolidatorWorker := mkConsolidatorWorker DefaultMemoryConfig true true true.

Definition dispatch_db : db := (run_ok (tryDispatch worker "7" JobTypeReflection "watermark:20") base_db).2.
Definition goroutine : dream_spawn := mkDreamSpawn "7" 1 JobTypeReflection "cmF3" "run-1" (an_agent 1 "claude-code" 7).

Example token_of_three_bytes : base64_url "raw" = "cmF3".
Proof. reflexivity. Qed.
Example dispatched : (run_ok (tryDispatch worker "7" JobTypeReflection "watermark:20") base_db).1 = [goroutine].
Proof. by vm_compute. Qed.

Lemma try_dispatch_exact_witness :
  creatable "7" JobTypeReflection base_db = true /\ gate_answer worker "7" base_db = None /\
  exists s, (run_ok (tryDispatch worker "7" JobTypeReflection "watermark:20") base_db).1 = [s].
Proof.
  split_and!; [by vm_compute|by vm_compute|].
  pose proof (try_dispatch_exact worker "7" JobTypeReflection "watermark:20" base_db ltac:(done) (mo_jobs _ _ base_ok) ltac:(done)) as H.
  destruct (run_ok (tryDispatch worker "7" JobTypeReflection "watermark:20") base_db) as [l d'].
  change (creatable "7" JobTypeReflection base_db) with true in H.
  change (gate_answer worker "7" base_db) with (@None string) in H. cbv iota zeta in H.
  change (launchable worker (created "7" JobTypeReflection "watermark:20" base_db)) with true in H.
  destruct H as (s&->&_). by exists s.
Defined.

Lemma run_keeps_ok {A} (p : prog db A) d : within (memory_step 2048) p -> memory_ok 2048 d -> memory_ok 2048 (run_ok p d).2.
Proof.
  intros Hp Hd. pose proof (wp_run_ok _ _ _ (rg_wp (memory_ok 2048) memory_later _ _ d Hd
    (within_rg (memory_ok 2048) memory_later (memory_step 2048) p d ltac:(intros x y HI H; by apply H) Hp))) as (H&_).
  exact H.
Qed.

Lemma dispatch_db_ok : memory_ok 2048 dispatch_db.
Proof. apply run_keeps_ok; [apply tryDispatch_step|apply base_ok]. Qed.

Definition pending_job : Job := job_row "7" JobTypeReflection "watermark:20" 0 noon 1.

Lemma run_job_completes_witness :
  find_id 1 (memory_jobs dispatch_db) = Some (with_dispatch "run-1" "cmF3" pending_job) /\
  slot_busy "7" JobTypeReflection 0 dispatch_db = true /\
  slot_busy "7" JobTypeReflection 0 (run_ok (runJob worker goroutine) dispatch_db).2 = false.
Proof.
  split_and!; [by vm_compute|by vm_compute|].
  pose proof (run_job_completes worker 2048 goroutine (with_dispatch "run-1" "cmF3" pending_job) dispatch_db dispatch_db_ok
    ltac:(done) ltac:(by vm_compute) ltac:(done)) as H.
  destruct (run_ok (Execute _ _) _) as [res d1]. destruct (mapHarnessResult _ _ _) as [[st sum] err]. cbv zeta in H.
  destruct H as (_&H&_). exact H.
Defined.

(** The dispatched agent marks one of two memories as the duplicate. *)
Definition marked_db : db :=
  (run_ok (handleMarkDuplicate (Some "cmF3") "7" 1 2 1 "same") (run_ok (Lease 1 (noon + 600)) dispatch_db).2).2.
Definition done_db : db := (run_ok (runJob worker goroutine) marked_db).2.

Example marked_status : memory_status done_db = [((2, "7"), mkMemoryStatus MemoryStatusSoftDeleted None (Some (noon + 60)) "same")].
Proof. by vm_compute. Qed.

Lemma done_db_ok : memory_ok 2048 done_db.
Proof.
  apply run_keeps_ok; [apply runJob_step|]. apply run_keeps_ok; [apply handleMarkDuplicate_step|].
  apply run_keeps_ok; [apply Lease_step|]. apply dispatch_db_ok.
Qed.

Lemma memory_status_exact_witness : memory_ok 2048 done_db /\ recorded_action is_duplicate (2, "7") done_db.
Proof.
  split; [apply done_db_ok|].
  apply (proj2 (proj2 (memory_status_exact 2048 done_db done_db_ok)) (2, "7")
    (mkMemoryStatus MemoryStatusSoftDeleted None (Some (noon + 60)) "same")); [|done].
  rewrite marked_status. by apply list_elem_of_singleton.
Defined.

(** Two evaluations of the worker and a tool call with a made-up token. *)
Definition calls : list memory_call :=
  [CallForce "7" JobTypeLinkGen 2; CallForce "7" JobTypeLinkGen 2; CallTool (Some "x") "7" (memory_supersede 1 2 "r")].
Definition sched : list (nat * bool) := concat (repeat [(0, false); (1, false); (2, false)]%nat 12).

Lemma memory_history_witness :
  memory_ok 2048 base_db /\ memory_ok 2048 (run_schedule sched (memory_prog worker 2048 <$> calls) base_db).2.
Proof.
  split; [apply base_ok|].
  pose proof (run_schedule_reachable same_memory sched (memory_prog worker 2048 <$> calls) base_db) as Hr.
  destruct (run_schedule _ _ _) as [ps d'].
  by apply (memory_history worker 2048 calls base_db ps d' base_ok).
Defined.

(** ** Where it promises less *)

(** Over a daily limit the refusal itself cannot be recorded: the row stays
    pending, holds the slot, and every later evaluation, on any later day,
    finds the owner's jobs of the type in flight. *)
Definition spent_db : db := set_dream_usage (<[(utcDate noon, "7") := mkDreamUsage 1000000 0 0 0 0 0]> ∅) base_db.

Theorem refusal_wedges_slot :
  let d := (run_ok (tryDispatch worker "7" JobTypeReflection "watermark:20") spent_db).2 in
  Job_Status <$> rows (memory_jobs d) = [JobStatusPending] /\
  (run_ok (Complete 1 JobStatusCircuitBroken "circuit_broken: tokens_in_exceeded" "") d).1 = Err EDb /\
  gate_answer worker "7" (set_clock (noon + 86400) d) = None /\
  (run_ok (tryDispatch worker "7" JobTypeReflection "watermark:20") (set_clock (noon + 86400) d)) = ([], set_clock (noon + 86400) d).
Proof. by vm_compute. Qed.

(** A worker stopped before its goroutine got a slot of the semaphore leaves
    the job dispatched; nothing expires it, and the slot is taken for good. *)
Theorem stopped_worker_wedges_slot :
  let d := set_clock (noon + 864000) (run_ok (dream_goroutine worker true goroutine) dispatch_db).2 in
  Job_Status <$> rows (memory_jobs d) = [JobStatusDispatched] /\
  (run_ok (tryDispatch worker "7" JobTypeReflection "watermark:20") d) = ([], d).
Proof. by vm_compute. Qed.

(** After the duplicate is marked the list of unprocessed memories holds the
    soft-deleted one and no longer the one that was kept. *)
Theorem duplicate_hides_kept :
  match (run_ok (handleListUnprocessed DefaultMemoryConfig (Some "cmF3") "7" 0 50) marked_db).1 with
  | Ok (ListedMemories items m) => items = [(2, "alice", "open-brain", "sky: blue", noon - 50)]
  | _ => False
  end.
Proof. by vm_compute. Qed.

(** The reflection goes to the first reflections channel there is, another
    owner's here. *)
Theorem reflection_in_foreign_channel :
  let d := set_channels (mkTable [a_channel 1 "open-brain" "alice"; a_channel 2 "reflections-8" "bob"; a_channel 3 "reflections-7" "alice"] 4) dispatch_db in
  (run_ok (handleWriteReflection (Some "cmF3") "7" "skies are blue" "1,2") d).1 = Ok (WroteReflection 3 "reflections-8" 2).
Proof. by vm_compute. Qed.

(** A token authorises any number of calls until it expires. *)
Theorem token_reused :
  let d1 := (run_ok (handleListUnprocessed DefaultMemoryConfig (Some "cmF3") "7" 0 50) dispatch_db).2 in
  let d2 := (run_ok (handleListUnprocessed DefaultMemoryConfig (Some "cmF3") "7" 0 50) d1).2 in
  length (concat (Actions <$> rows (memory_jobs d2))) = 2%nat.
Proof. by vm_compute. Qed.

(** A channel the store's LIKE counts as memory and the prefix test does not. *)
Theorem memory_channel_case : memory_channel (a_channel 1 "Reflections-7" "alice") = true /\ matchesMemoryChannelName "Reflections-7" = false.
Proof. by vm_compute. Qed.
End MemoryRuns.
