(* ===== verification/Retention.v ===== *)
(** * Retention and dead letters (internal/messaging: deadletter_store.go,
      retention.go)

    What becomes of messages nobody will read: the copies kept for the owner of
    an agent that is removed, the warnings before old messages are deleted, the
    deletion itself with everything that hangs on a message, and the purge an
    administrator asks for. *)
From stdpp Require Import pretty.
From S2P Require Import Prelude Prog Table Schema Messaging MessagingQueries Agents.

(** ** Dead letters *)

(** Messages of the agent that nobody has finished, with the subject of their
    conversation. *)
Definition undelivered (agentName : string) (m : Message) : bool :=
  opt_is (to_agent m) agentName && bool_decide (Status m = StatusPending \/ Status m = StatusProcessing).

Definition subject_of (d : db) (m : Message) : string :=
  match find_id (Msg_ConversationID m) (conversations d) with Some c => Subject c | None => EmptyString end.

Definition dead_letter (ownerID : Z) (agentName : string) (now : Z) (ms : Message * string) (id : Z) : DeadLetter :=
  mkDeadLetter id ownerID (Msg_ID ms.1) agentName (FromAgent ms.1) (Body ms.1) ms.2 (Priority ms.1) (Metadata ms.1) false now.

(** The INSERTs of one transaction. *)
Definition insert_dead_letters (ownerID : Z) (agentName : string) (pending : list (Message * string)) (d : db) : db :=
  foldl (fun d ms => set_dead_letters (insert_row (dead_letter ownerID agentName (clock d) ms) (dead_letters d)) d) d pending.

Section DeadLetterStore.
Context {HEng : Engine}.

Definition store_CaptureDeadLetters (ownerID : Z) (agentName : string) : M Z :=
  let? pending := query EDb (fun d => (fun m => (m, subject_of d m)) <$> scan (select (undelivered agentName) (messages d))) in
  if bool_decide (pending = []) then Ret (Ok 0)
  else exec EDb (insert_dead_letters ownerID agentName pending) (fun _ => Z.of_nat (length pending)).

Definition letter_newest (a b : DeadLetter) : Prop := DL_CreatedAt b <= DL_CreatedAt a.
#[export] Instance letter_newest_dec a b : Decision (letter_newest a b).
Proof. unfold letter_newest. apply _. Defined.

Definition unacknowledged (ownerID : Z) (l : DeadLetter) : bool := (DL_OwnerID l =? ownerID) && negb (Acknowledged l).

Definition CountUnacknowledged (ownerID : Z) : M Z :=
  query EDb (fun d => affected (unacknowledged ownerID) (dead_letters d)).

Definition ListDeadLetters (ownerID : Z) (includeAcknowledged : bool) (limit : Z) : M (list DeadLetter * Z) :=
  let limit := default_limit 50 limit in
  let? letters := query EDb (fun d => page limit 0
    (select_by letter_newest (fun l => (DL_OwnerID l =? ownerID) && (includeAcknowledged || negb (Acknowledged l))) (dead_letters d))) in
  let? unackCount := CountUnacknowledged ownerID in
  Ret (Ok (letters, unackCount)).

Definition acknowledge (l : DeadLetter) : DeadLetter :=
  mkDeadLetter (DL_ID l) (DL_OwnerID l) (OriginalMessageID l) (DL_ToAgent l) (DL_FromAgent l) (DL_Body l) (DL_Subject l)
    (DL_Priority l) (DL_Metadata l) true (DL_CreatedAt l).

Definition AcknowledgeDeadLetter (id ownerID : Z) : M unit :=
  let p l := by_id id l && (DL_OwnerID l =? ownerID) in
  exec_o EDb (fun d => set_dead_letters (update_rows p acknowledge (dead_letters d)) d)
             (fun d => if affected p (dead_letters d) =? 0 then Err EDeadLetterNotFound else Ok tt).

Lemma insert_dead_letters_agents ownerID agentName l d : same_agents d (insert_dead_letters ownerID agentName l d).
Proof. unfold insert_dead_letters. revert d. induction l as [|x l IH]; intros d; simpl; [done|]. by etrans; [|apply IH]. Qed.

(** What the agent service removes an agent with. *)
#[export] Instance dead_letter_store : DeadLetters.
Proof.
  refine {| CaptureDeadLetters := store_CaptureDeadLetters |}. intros owner name.
  apply within_bind_ok; [by apply within_query|]. intros l. case_bool_decide; [done|].
  apply within_exec. intros d. apply insert_dead_letters_agents.
Defined.
End DeadLetterStore.

(** ** Configuration; durations in nanoseconds *)
Record RetentionConfig := mkRetentionConfig {
  RetentionPeriod : Z;
  WarningWindow : Z;
  CleanupInterval : Z;
  Enabled : bool
}.

Definition time_Hour : Z := 3600000000000.

Definition DefaultRetentionConfig : RetentionConfig :=
  mkRetentionConfig (365 * 24 * time_Hour) (30 * 24 * time_Hour) (24 * time_Hour) true.

(** [strconv.Atoi]. *)
Fixpoint all_digits (s : string) (acc : Z) : option Z :=
  match s with
  | EmptyString => Some acc
  | String a r => let n := Z.of_nat (Ascii.nat_of_ascii a) in
                  if (48 <=? n) && (n <=? 57) then all_digits r (acc * 10 + (n - 48)) else None
  end.
Definition digits_value (s : string) : option Z := match s with EmptyString => None | _ => all_digits s 0 end.
Definition Atoi (s : string) : option Z :=
  let v := match s with
           | String a r => if bool_decide (Ascii.nat_of_ascii a = 45%nat) then Z.opp <$> digits_value r
                           else if bool_decide (Ascii.nat_of_ascii a = 43%nat) then digits_value r
                           else digits_value s
           | EmptyString => None
           end in
  match v with Some v => if (int64_min <=? v) && (v <=? int64_max) then Some v else None | None => None end.

(** [strings.HasSuffix] and [strings.TrimSuffix] with a non-empty suffix. *)
Fixpoint trim_suffix (suf s : string) : option string :=
  if String.eqb s suf then Some EmptyString
  else match s with
       | EmptyString => None
       | String a r => String a <$> trim_suffix suf r
       end.
Definition is_blank (a : Ascii.ascii) : bool :=
  let n := Ascii.nat_of_ascii a in ((9 <=? n) && (n <=? 13))%nat || (n =? 32)%nat.
Fixpoint trim_left (s : string) : string :=
  match s with String a r => if is_blank a then trim_left r else s | EmptyString => EmptyString end.
Fixpoint trim_right (s : string) : string :=
  match s with
  | EmptyString => EmptyString
  | String a r => let r' := trim_right r in if is_blank a && str_empty r' then EmptyString else String a r'
  end.
(** [strings.TrimSpace] on ASCII text. *)
Definition trim_space (s : string) : string := trim_right (trim_left s).

(** [time.ParseDuration] and [Duration.String]. *)
Class GoDuration := { ParseDuration : string -> option Z; duration_string : Z -> string }.

Section Config.
Context {HDur : GoDuration}.

Definition with_period (p : Z) : RetentionConfig :=
  mkRetentionConfig p (WarningWindow DefaultRetentionConfig) (CleanupInterval DefaultRetentionConfig) true.
Definition retention_disabled : RetentionConfig :=
  mkRetentionConfig 0 (WarningWindow DefaultRetentionConfig) (CleanupInterval DefaultRetentionConfig) false.

(** [time.Duration(n) * a * 24 * time.Hour], wrapping. *)
Definition months_duration (n : Z) : Z := wrap64 (wrap64 (wrap64 (n * 30) * 24) * time_Hour).
Definition days_duration (n : Z) : Z := wrap64 (wrap64 (n * 24) * time_Hour).

(** A positive number before the suffix. *)
Definition counted (suf s : string) : option Z :=
  match trim_suffix suf s with
  | Some r => match Atoi r with Some n => if 0 <? n then Some n else None | None => None end
  | None => None
  end.

Definition ParseRetentionPeriod (s : string) : RetentionConfig :=
  if String.eqb s "" || String.eqb s "0" then retention_disabled
  else
    let s := trim_space s in
    match (if bool_decide (trim_suffix "ms" s = None) then counted "m" s else None) with
    | Some months => with_period (months_duration months)
    | None =>
        match counted "d" s with
        | Some days => with_period (days_duration days)
        | None => match ParseDuration s with
                  | Some d => if 0 <? d then with_period d else retention_disabled
                  | None => retention_disabled
                  end
        end
    end.

(** Whole days of a duration.  The code divides in [float64]; the rounding of
    a duration within a few microseconds of a whole day is not modelled. *)
Definition whole_days (d : Z) : Z := Z.quot d (24 * time_Hour).

Definition days_text (n : Z) : string := if n =? 1 then "1 day" else pretty n +:+ " days".
Definition months_text (n : Z) : string := if n =? 1 then "1 month" else pretty n +:+ " months".

Definition RetentionPeriodHuman (c : RetentionConfig) : string :=
  if negb (Enabled c) then "disabled"
  else
    let days := whole_days (RetentionPeriod c) in
    if Z.rem days 30 =? 0 then months_text (Z.quot days 30) else days_text days.

Definition formatDuration (d : Z) : string :=
  let days := whole_days d in
  if (Z.rem days 30 =? 0) && (0 <? days) then months_text (Z.quot days 30)
  else if 0 <? days then days_text days
  else duration_string d.

(** [time.Now().Add(-d)]: before it, in whole seconds of the clock. *)
Definition add_duration (now d : Z) : Z := now * 1000000000 + d.
Definition before_nanos (t nanos : Z) : bool := t * 1000000000 <? nanos.
End Config.

(** ** Deleting messages and what hangs on them *)

Definition hangs_on (ids : list Z) (o : option Z) : bool := match o with Some m => bool_decide (m ∈ ids) | None => false end.
Definition clear_if (ids : list Z) (o : option Z) : option Z := if hangs_on ids o then None else o.

Definition goal_without (ids : list Z) (g : Goal) : Goal :=
  mkGoal (Goal_ID g) (Slug g) (Goal_Title g) (Goal_Description g) (OwnerUserID g) (Goal_ChannelID g) (CoordinatorAgentID g)
    (RootTaskID g) (Goal_Status g) (Goal_BudgetTokens g) (Goal_BudgetDollarsCents g) (MaxSpawnDepth g) (Alert80PctPosted g)
    (Goal_UpdatedAt g) (Goal_CompletedAt g) (CompletionSummary g) (clear_if ids (Goal_CompletionMessageID g)).
Definition goal_task_without (ids : list Z) (t : GoalTask) : GoalTask :=
  mkGoalTask (GT_ID t) (GT_GoalID t) (ParentTaskID t) (Ancestry t) (GT_Depth t) (GT_Title t) (GT_Description t)
    (GT_AcceptanceCriteria t) (CreatedByAgentID t) (CreatedByUserID t) (AssigneeAgentID t) (GT_Status t) (billing_code t)
    (GT_BudgetTokens t) (GT_BudgetDollarsCents t) (SpentTokens t) (SpentDollarsCents t) (GT_HeartbeatConfig t)
    (GT_VerifierConfig t) (clear_if ids (ClaimMessageID t)) (clear_if ids (GT_CompletionMessageID t)) (failure_reason t)
    (GT_ClaimedAt t) (GT_StartedAt t) (GT_CompletedAt t).

Definition message_in (ids : list Z) (m : Message) : bool := bool_decide (Msg_ID m ∈ ids).

(** The foreign keys without an action: a reply that stays, an attachment. *)
Definition deletion_blocked (ids : list Z) (d : db) : bool :=
  existsb (fun m => negb (message_in ids m) && hangs_on ids (ReplyTo m)) (rows (messages d)) ||
  existsb (fun a => hangs_on ids (Att_MessageID a)) (rows (attachments d)).

(** The rows [DELETE FROM messages WHERE id IN (...)] takes with it, by ON
    DELETE CASCADE and SET NULL of the other tables. *)
Definition drop_messages (ids : list Z) (d : db) : db :=
  set_messages (delete_rows (message_in ids) (messages d))
  (set_message_reactions (delete_rows (fun r => bool_decide (Rx_MessageID r ∈ ids)) (message_reactions d))
  (set_embeddings (filter (fun kv => kv.1 ∉ ids) (embeddings d))
  (set_embedding_queue (delete_rows (fun q => bool_decide (Q_MessageID q ∈ ids)) (embedding_queue d))
  (set_goals (update_rows (fun _ => true) (goal_without ids) (goals d))
  (set_goal_tasks (update_rows (fun _ => true) (goal_task_without ids) (goal_tasks d)) d))))).

(** [None] when a foreign key forbids it. *)
Definition delete_messages (ids : list Z) (d : db) : option db :=
  if deletion_blocked ids d then None else Some (drop_messages ids d).

(** The queue entries, the embeddings and the attachment rows, deleted first. *)
Definition delete_hangers (ids : list Z) (d : db) : db :=
  set_embedding_queue (delete_rows (fun q => bool_decide (Q_MessageID q ∈ ids)) (embedding_queue d))
  (set_embeddings (filter (fun kv => kv.1 ∉ ids) (embeddings d))
  (set_attachments (delete_rows (fun a => hangs_on ids (Att_MessageID a)) (attachments d)) d)).

(** Conversations without messages; a read pointer to one of them forbids the
    whole DELETE. *)
Definition orphan (d : db) (c : Conversation) : bool :=
  negb (existsb (fun m => Msg_ConversationID m =? Conv_ID c) (rows (messages d))).
Definition orphan_read (d : db) : bool :=
  existsb (fun c => orphan d c && existsb (fun s => Inbox_ConversationID s =? Conv_ID c) (rows (inbox_state d))) (rows (conversations d)).
Definition delete_orphans (d : db) : option (db * Z) :=
  if orphan_read d then None
  else Some (set_conversations (delete_rows (orphan d) (conversations d)) d, affected (orphan d) (conversations d)).

Definition clean_orphans : M Z :=
  exec_o EDb (fun d => match delete_orphans d with Some (d', _) => d' | None => d end)
             (fun d => match delete_orphans d with Some (_, n) => Ok n | None => Err EDb end).

(** *** Files *)

(** Where the retention code looks for a file: [attachments/ab/abcd...]. *)
Definition retention_path (hash : string) : string := String.substring 0 2 hash +:+ "/" +:+ hash.

(** [os.Remove]; a missing file is not an error here. *)
Definition remove_file (path : string) : prog db unit :=
  Stmt (fun d => set_cas_files (delete path (cas_files d)) d) (fun _ => Ret tt) (Ret tt).

Definition hash_references (hash : string) : M Z :=
  query EDb (fun d => affected (fun a => String.eqb (Hash a) hash) (attachments d)).

Definition cleanupAttachmentFiles (hashes : list string) : prog db unit :=
  for_each hashes (fun hash =>
    let! count := hash_references hash in
    match count with
    | Ok n => if 0 <? n then Ret tt else remove_file (retention_path hash)
    | _ => Ret tt
    end).

Section Cleanup.
Context {HEng : Engine}.

Definition hashes_of (ids : list Z) (d : db) : list string :=
  scan (remove_dups (Hash <$> select (fun a => hangs_on ids (Att_MessageID a)) (attachments d))).

(** One transaction; it is rolled back when the messages cannot be deleted. *)
Definition batch_result (ids : list Z) (d : db) : option db := delete_messages ids (delete_hangers ids d).

Definition delete_batch_tx (ids : list Z) : M (Z * list string) :=
  exec_o EDb (fun d => default d (batch_result ids d))
             (fun d => match batch_result ids d with
                       | Some _ => Ok (affected (message_in ids) (messages d), hashes_of ids d)
                       | None => Err EDb
                       end).

Definition deleteBatch (ids : list Z) : prog db Z :=
  if bool_decide (ids = []) then Ret 0
  else
    let! r := delete_batch_tx ids in
    match r with
    | Ok (deleted, hashes) => let! _ := cleanupAttachmentFiles hashes in Ret deleted
    | _ => Ret 0
    end.

Definition batchSize : nat := 500.

(** The slices of the loop, [n] at most. *)
Fixpoint delete_batches (n : nat) (ids : list Z) (total : Z) : prog db Z :=
  match n, ids with
  | S n', _ :: _ => let! deleted := deleteBatch (take batchSize ids) in delete_batches n' (drop batchSize ids) (total + deleted)
  | _, _ => Ret total
  end.

Definition expired (cutoff : Z) (m : Message) : bool :=
  before_nanos (Msg_CreatedAt m) cutoff && negb (bool_decide (Status m = StatusProcessing)).

Definition deleteExpiredMessages (cfg : RetentionConfig) : prog db Z :=
  let! now := time_now in
  let cutoff := add_duration now (- RetentionPeriod cfg) in
  let! found := query (E := error) EDb (fun d => Msg_ID <$> scan (select (expired cutoff) (messages d))) in
  match found with
  | Ok ids =>
      if bool_decide (ids = []) then Ret 0
      else
        let! total := delete_batches (length ids) ids 0 in
        let! _ := clean_orphans in
        Ret total
  | _ => Ret 0
  end.
End Cleanup.

(** ** Warnings *)

(** [SELECT last_insert_rowid()] after an INSERT of this call gave [id]: the
    answer when nobody else inserted on the connection in between. *)
Class LastInsert := {
  last_insert_rowid : Z -> prog db Z;
  last_insert_run : forall id d, run_ok (last_insert_rowid id) d = (id, d);
  last_insert_frame : forall id, within eq (last_insert_rowid id)
}.

Definition system : string := "system".

Section Warnings.
Context {HEng : Engine} {HDur : GoDuration} {HIns : LastInsert} (cfg : RetentionConfig).

(** A warning of the system in the conversation since [rewarn]. *)
Definition already_warned (d : db) (conv rewarn : Z) : bool :=
  existsb (fun w => (Msg_ConversationID w =? conv) && String.eqb (FromAgent w) system &&
                    sql_like "%will be permanently deleted%" (Body w) && negb (before_nanos (Msg_CreatedAt w) (rewarn + 1)))
          (rows (messages d)).

Definition warning_due (d : db) (warningCutoff retentionCutoff rewarn : Z) (m : Message) : bool :=
  before_nanos (Msg_CreatedAt m) warningCutoff && negb (before_nanos (Msg_CreatedAt m) retentionCutoff) &&
  negb (String.eqb (FromAgent m) system) && negb (already_warned d (Msg_ConversationID m) rewarn).

(** The DISTINCT rows: conversation, subject, recipient, author. *)
Definition warning_rows (warningCutoff retentionCutoff rewarn : Z) (d : db) : list (Z * string * option string * string) :=
  scan (remove_dups (omap (fun m => (fun c => (Conv_ID c, Subject c, to_agent m, FromAgent m)) <$>
                                    find_id (Msg_ConversationID m) (conversations d))
    (select (warning_due d warningCutoff retentionCutoff rewarn) (messages d)))).

(** A row without recipient does not scan and is skipped. *)
Definition warn_target (r : Z * string * option string * string) : option (string * string * string) :=
  match r.1.2 with Some to => Some (r.1.1.2, to, r.2) | None => None end.

(** Each agent once, with the subject of its first row. *)
Definition add_agent (subject : string) (st : list (string * string) * list string) (agent : string) : list (string * string) * list string :=
  if String.eqb agent "" || String.eqb agent system || bool_decide (agent ∈ st.2) then st
  else (st.1 ++ [(agent, subject)], st.2 ++ [agent]).
Definition agents_to_warn (targets : list (string * string * string)) : list (string * string) :=
  (foldl (fun st t => add_agent t.1.1 (add_agent t.1.1 st t.1.2) t.2) ([], []) targets).1.

Definition warning_body (subject : string) : string :=
  "Conversation '" +:+ (if String.eqb subject "" then "(no subject)" else subject) +:+ "' has messages older than " +:+
  RetentionPeriodHuman cfg +:+ ". These will be permanently deleted in approximately " +:+
  formatDuration (WarningWindow cfg) +:+ ".".

(** The foreign key to the conversation. *)
Definition insert_warning (convID : Z) (agent body : string) : M unit :=
  let msg := mkMessage 0 convID system (Some agent) None None body 5 StatusPending raw_empty_object None None zero_time zero_time in
  exec_o EDb (fun d => match find_id convID (conversations d) with
                       | Some _ => set_messages (insert_row (message_row msg (clock d)) (messages d)) d
                       | None => d
                       end)
             (fun d => match find_id convID (conversations d) with Some _ => Ok tt | None => Err EDb end).

Definition warn_agent (agent subject : string) : prog db Z :=
  let! conv := InsertConversation (mkConversation 0 "Retention Warning" system None) in
  match conv with
  | Ok c =>
      let! convID := last_insert_rowid (Conv_ID c) in
      let! r := insert_warning convID agent (warning_body subject) in
      Ret (if is_ok r then 1 else 0)
  | _ => Ret 0
  end.

Fixpoint warn_agents (l : list (string * string)) (warned : Z) : prog db Z :=
  match l with
  | [] => Ret warned
  | (agent, subject) :: rest => let! n := warn_agent agent subject in warn_agents rest (warned + n)
  end.

Definition sendRetentionWarnings : prog db Z :=
  if WarningWindow cfg <=? 0 then Ret 0
  else
    let! t1 := time_now in
    let warningCutoff := add_duration t1 (- wrap64 (RetentionPeriod cfg - WarningWindow cfg)) in
    let! t2 := time_now in
    let retentionCutoff := add_duration t2 (- RetentionPeriod cfg) in
    let! t3 := time_now in
    let rewarn := add_duration t3 (- CleanupInterval cfg) in
    let! found := query (E := error) EDb (warning_rows warningCutoff retentionCutoff rewarn) in
    match found with
    | Ok l => warn_agents (agents_to_warn (omap warn_target l)) 0
    | _ => Ret 0
    end.

(** Warnings, then the deletion; the vacuum only compacts the file.  The
    answer is what the worker keeps for its status. *)
Definition runCleanup : prog db (Z * Z) :=
  let! warned := sendRetentionWarnings in
  let! deleted := deleteExpiredMessages cfg in
  let! now := time_now in
  Ret (now, deleted).
End Warnings.

(** ** The age distribution *)
Definition days_ago (now n : Z) : Z := add_duration now (- (n * 24 * time_Hour)).

(** A count, 0 when the query fails. *)
Definition count_messages (p : Message -> bool) : prog db Z :=
  let! r := query (E := error) EDb (fun d => affected p (messages d)) in Ret (match r with Ok n => n | _ => 0 end).

Definition in_bucket (younger older : option Z) (m : Message) : bool :=
  match younger with Some c => before_nanos (Msg_CreatedAt m) c | None => true end &&
  match older with Some c => negb (before_nanos (Msg_CreatedAt m) c) | None => true end.

(** The five buckets, the youngest first, and their sum. *)
Definition messageAgeDistribution : prog db (list Z * Z) :=
  let! now := time_now in
  let b1 := days_ago now 30 in
  let b2 := days_ago now 90 in
  let b3 := days_ago now 180 in
  let b4 := days_ago now 365 in
  let! n1 := count_messages (in_bucket None (Some b1)) in
  let! n2 := count_messages (in_bucket (Some b1) (Some b2)) in
  let! n3 := count_messages (in_bucket (Some b2) (Some b3)) in
  let! n4 := count_messages (in_bucket (Some b3) (Some b4)) in
  let! n5 := count_messages (in_bucket (Some b4) None) in
  Ret ([n1; n2; n3; n4; n5], n1 + n2 + n3 + n4 + n5).

(** ** Purging *)
Section Purge.
Context {HEng : Engine}.

Record PurgeCounts := mkPurgeCounts {
  deleted_messages : Z;
  deleted_embeddings : Z;
  deleted_attachments : Z;
  cleaned_conversations : Z
}.

(** The conditions that are asked for. *)
Definition purged (cutoff : option Z) (agent channel : string) (d : db) (m : Message) : bool :=
  match cutoff with Some c => before_nanos (Msg_CreatedAt m) c | None => true end &&
  (String.eqb agent "" || String.eqb (FromAgent m) agent || opt_is (to_agent m) agent) &&
  (String.eqb channel "" ||
   match Msg_ChannelID m with
   | Some c => existsb (fun ch => (Ch_ID ch =? c) && String.eqb (Ch_Name ch) channel) (rows (channels d))
   | None => false
   end).

(** SQLITE_MAX_VARIABLE_NUMBER: a statement with more parameters fails. *)
Definition variable_limit : Z := 32766.
Definition too_many (ids : list Z) : bool := variable_limit <? Z.of_nat (length ids).

(** The transaction, with one parameter per message: the errors of its
    statements are dropped. *)
Definition purge_deletes (ids : list Z) (d : db) : db :=
  if too_many ids then d
  else let d1 := delete_hangers ids d in default d1 (delete_messages ids d1).
Definition purge_tx (ids : list Z) (d : db) : db * Z :=
  let d1 := purge_deletes ids d in
  match delete_orphans d1 with Some (d2, n) => (d2, n) | None => (d1, 0) end.

Definition embeddings_of (ids : list Z) (d : db) : Z := Z.of_nat (size (filter (fun kv => kv.1 ∈ ids) (embeddings d))).

(** A failing count reads as 0. *)
Definition purge_files (hashes : list string) : prog db unit :=
  for_each hashes (fun hash =>
    let! count := hash_references hash in
    if match count with Ok n => n | _ => 0 end =? 0 then remove_file (retention_path hash) else Ret tt).

Definition PurgeMessages (olderThan : Z) (agent channel : string) : M PurgeCounts :=
  if (olderThan =? 0) && String.eqb agent "" && String.eqb channel "" then Ret (Err EPurgeFilter)
  else
    let! now := time_now in
    let cutoff := if 0 <? olderThan then Some (add_duration now (- olderThan)) else None in
    if (olderThan <=? 0) && String.eqb agent "" && String.eqb channel "" then Ret (Err EDb)   (* an empty WHERE *)
    else
      let? ids := query EDb (fun d => Msg_ID <$> scan (select (purged cutoff agent channel d) (messages d))) in
      if bool_decide (ids = []) then Ret (Ok (mkPurgeCounts 0 0 0 0))
      else
        let? '(counts, hashes) := exec EDb (fun d => (purge_tx ids d).1)
            (fun d => if too_many ids then (mkPurgeCounts (Z.of_nat (length ids)) 0 0 (purge_tx ids d).2, [])
                      else (mkPurgeCounts (Z.of_nat (length ids)) (embeddings_of ids d)
                              (affected (fun a => hangs_on ids (Att_MessageID a)) (attachments d)) (purge_tx ids d).2,
                            hashes_of ids d)) in
        let! _ := purge_files hashes in
        Ret (Ok counts)
  .
End Purge.
