(* ===== verification/RetentionSpec.v ===== *)
(** * Retention: what is deleted

    [delete_expired_effect], [delete_expired_complete]: which messages a
    cleanup deletes.  [purge_effect]: what a purge deletes and what it
    reports. *)
From stdpp Require Import pretty.
From S2P Require Import Prelude Prog Table Schema Messaging MessagingQueries Agents Retention.

(** ** The database without some messages *)

(** Without the messages [ids] and everything that hangs on them. *)
Definition without (ids : list Z) (d : db) : db := drop_messages ids (delete_hangers ids d).

(** A reply to one of them that would stay. *)
Definition reply_blocked (ids : list Z) (d : db) : bool :=
  existsb (fun m => negb (message_in ids m) && hangs_on ids (ReplyTo m)) (rows (messages d)).

Definition swept (d : db) : db := set_conversations (delete_rows (orphan d) (conversations d)) d.

Lemma hangs_on_app ids ids' o : hangs_on (ids ++ ids') o = hangs_on ids o || hangs_on ids' o.
Proof.
  destruct o as [x|]; [|done]. simpl. rewrite <- bool_decide_or. apply bool_decide_ext, elem_of_app.
Qed.

Lemma in_app_bool (x : Z) ids ids' : bool_decide (x ∈ ids ++ ids') = bool_decide (x ∈ ids) || bool_decide (x ∈ ids').
Proof. rewrite <- bool_decide_or. apply bool_decide_ext, elem_of_app. Qed.

Lemma clear_if_app ids ids' o : clear_if ids' (clear_if ids o) = clear_if (ids ++ ids') o.
Proof. unfold clear_if. rewrite hangs_on_app. by destruct (hangs_on ids o), (hangs_on ids' o) eqn:?. Qed.

Lemma batch_result_eq ids d : batch_result ids d = if reply_blocked ids d then None else Some (without ids d).
Proof.
  assert (existsb (fun a => hangs_on ids (Att_MessageID a)) (rows (attachments (delete_hangers ids d))) = false) as Ha.
  { apply existsb_none. intros a Ha. by apply (elem_of_delete_rows (fun a => hangs_on ids (Att_MessageID a))) in Ha as [? _]. }
  unfold batch_result, delete_messages, deletion_blocked. by rewrite Ha, orb_false_r.
Qed.

(** Field by field. *)
Lemma without_eq ids d : without ids d =
  mkDb (clock d) (agents d) (conversations d) (delete_rows (message_in ids) (messages d)) (inbox_state d) (channels d)
    (channel_members d) (channel_invites d) (tasks d) (task_bids d)
    (update_rows (fun _ => true) (goal_without ids) (goals d))
    (update_rows (fun _ => true) (goal_task_without ids) (goal_tasks d))
    (delete_rows (fun r => bool_decide (Rx_MessageID r ∈ ids)) (message_reactions d)) (agent_trust d) (reactive_runs d)
    (dead_letters d) (memory_jobs d) (memory_links d) (memory_core d) (memory_pins d) (dispatch_tokens d)
    (dream_usage d) (memory_injections d) (delete_rows (fun a => hangs_on ids (Att_MessageID a)) (attachments d))
    (cas_files d) (filter (fun kv => kv.1 ∉ ids) (filter (fun kv => kv.1 ∉ ids) (embeddings d)))
    (delete_rows (fun q => bool_decide (Q_MessageID q ∈ ids))
      (delete_rows (fun q => bool_decide (Q_MessageID q ∈ ids)) (embedding_queue d))).
Proof. reflexivity. Qed.

Lemma without_app ids ids' d : without ids' (without ids d) = without (ids ++ ids') d.
Proof.
  assert (forall e : gmap Z EmbeddingRecord, filter (fun kv => kv.1 ∉ ids') (filter (fun kv => kv.1 ∉ ids) e) = filter (fun kv => kv.1 ∉ ids ++ ids') e) as Hemb.
  { intros e. rewrite map_filter_filter. apply map_filter_ext. intros i x _. simpl. rewrite not_elem_of_app. tauto. }
  assert (forall (e : gmap Z EmbeddingRecord) (l : list Z), filter (fun kv => kv.1 ∉ l) (filter (fun kv => kv.1 ∉ l) e) = filter (fun kv => kv.1 ∉ l) e) as Hid.
  { intros e l. rewrite map_filter_filter. apply map_filter_ext. intros i x _. simpl. tauto. }
  rewrite (without_eq ids' (without ids d)), (without_eq (ids ++ ids') d), (without_eq ids d).
  cbn [clock agents conversations messages inbox_state channels channel_members channel_invites tasks task_bids goals goal_tasks message_reactions agent_trust reactive_runs dead_letters memory_jobs memory_links memory_core memory_pins dispatch_tokens dream_usage memory_injections attachments cas_files embeddings embedding_queue].
  rewrite !Hid, !Hemb, !delete_rows_delete, !update_rows_update. f_equal.
  - apply delete_rows_ext. intros m. unfold message_in. by rewrite in_app_bool.
  - apply update_rows_ext. intros g. unfold goal_without. simpl. by rewrite clear_if_app.
  - apply update_rows_ext. intros g. unfold goal_task_without. simpl. by rewrite !clear_if_app.
  - apply delete_rows_ext. intros m. by rewrite in_app_bool.
  - apply delete_rows_ext. intros m. by rewrite hangs_on_app.
  - apply delete_rows_ext. intros q. rewrite in_app_bool.
    by destruct (bool_decide (Q_MessageID q ∈ ids)), (bool_decide (Q_MessageID q ∈ ids')).
Qed.

Lemma without_nil d : without [] d = d.
Proof.
  assert (forall (A : Type) (p : A -> bool) (t : table A), (forall r, p r = false) -> delete_rows p t = t) as Hdel by (intros; by apply delete_rows_none).
  assert (forall (A : Type) (f : A -> A) (t : table A), (forall r, f r = r) -> update_rows (fun _ => true) f t = t) as Hupd.
  { intros A f [l n] Hf. unfold update_rows, map_if. simpl. f_equal.
    rewrite <- (list_fmap_id l) at 2. apply list_fmap_ext. intros i x _. apply Hf. }
  assert (forall o, hangs_on [] o = false) as Hh by (by intros [x|]).
  assert (forall o, clear_if [] o = o) as Hc by (intros o; unfold clear_if; by rewrite Hh).
  assert (forall e : gmap Z EmbeddingRecord, filter (fun kv => kv.1 ∉ ([] : list Z)) e = e) as Hemb.
  { intros e. apply map_filter_id. intros i x _. simpl. apply not_elem_of_nil. }
  rewrite without_eq. transitivity (mkDb (clock d) (agents d) (conversations d) (messages d) (inbox_state d) (channels d)
    (channel_members d) (channel_invites d) (tasks d) (task_bids d) (goals d) (goal_tasks d) (message_reactions d) (agent_trust d)
    (reactive_runs d) (dead_letters d) (memory_jobs d) (memory_links d) (memory_core d) (memory_pins d) (dispatch_tokens d)
    (dream_usage d) (memory_injections d) (attachments d) (cas_files d) (embeddings d) (embedding_queue d)); [|by destruct d].
  rewrite !Hemb. f_equal;
    try (rewrite !Hdel by (intros r; unfold message_in; first [apply Hh|apply bool_decide_eq_false, not_elem_of_nil]); done);
    apply Hupd; intros [];
    unfold goal_without, goal_task_without; simpl; by rewrite ?Hc.
Qed.

(** The files are no part of it. *)
Lemma without_files ids f d : without ids (set_cas_files f d) = set_cas_files f (without ids d).
Proof. rewrite !without_eq. reflexivity. Qed.

Lemma without_messages ids d : messages (without ids d) = delete_rows (message_in ids) (messages d).
Proof. by rewrite without_eq. Qed.
Lemma without_cas_files ids d : cas_files (without ids d) = cas_files d.
Proof. by rewrite without_eq. Qed.
#[local] Opaque without.

Lemma attachments_files f d : attachments (set_cas_files f d) = attachments d. Proof. done. Qed.
Lemma messages_files f d : messages (set_cas_files f d) = messages d. Proof. done. Qed.
Lemma cas_files_files f d : cas_files (set_cas_files f d) = f. Proof. done. Qed.
Lemma set_files_files f f' d : set_cas_files f' (set_cas_files f d) = set_cas_files f' d. Proof. done. Qed.
Lemma set_files_id d : set_cas_files (cas_files d) d = d. Proof. by destruct d. Qed.

Lemma reply_blocked_app ids ids' d : reply_blocked ids d = false -> reply_blocked ids' (without ids d) = false ->
  reply_blocked (ids ++ ids') d = false.
Proof.
  unfold reply_blocked. rewrite !existsb_none. intros H1 H2 m Hm. unfold message_in. rewrite in_app_bool, hangs_on_app.
  destruct (bool_decide (Msg_ID m ∈ ids)) eqn:E1; [done|]. destruct (bool_decide (Msg_ID m ∈ ids')) eqn:E2; [done|]. simpl.
  specialize (H1 m Hm). unfold message_in in H1. rewrite E1 in H1. simpl in H1. rewrite H1. simpl.
  specialize (H2 m). unfold message_in in H2. rewrite E2 in H2. apply H2. apply elem_of_delete_rows. split; [exact E1|exact Hm].
Qed.

Lemma count_if_or {A} (p q : A -> bool) l :
  count_if (fun x => p x || q x) l = count_if p l + count_if q (filter (fun x => p x = false) l).
Proof.
  induction l as [|x l IH]; [done|]. rewrite !count_if_cons, filter_cons. destruct (p x); simpl; [lia|].
  rewrite count_if_cons. lia.
Qed.

Lemma affected_app ids ids' d :
  affected (message_in (ids ++ ids')) (messages d) = affected (message_in ids) (messages d) + affected (message_in ids') (messages (without ids d)).
Proof.
  rewrite without_eq. unfold affected, delete_rows. cbn [messages rows]. rewrite <- count_if_or.
  apply count_if_ext. intros m _. apply in_app_bool.
Qed.

(** ** Files *)

(** [f] is what is left of the files after the messages [gone]: a file is
    removed only when it was kept for a removed attachment and no attachment
    needs its content any more. *)
Definition files_after (f : gmap string string) (gone : list Z) (d : db) : Prop :=
  f ⊆ cas_files d /\
  forall p, is_Some (cas_files d !! p) -> f !! p = None ->
    exists a, a ∈ rows (attachments d) /\ hangs_on gone (Att_MessageID a) = true /\ p = retention_path (Hash a) /\
              forall a', a' ∈ rows (attachments (without gone d)) -> Hash a' <> Hash a.

Lemma files_after_nil ids d : files_after (cas_files d) ids d.
Proof. split; [done|]. intros p [x Hx]. by rewrite Hx. Qed.

Lemma elem_of_attachments_without a ids d : a ∈ rows (attachments (without ids d)) <->
  hangs_on ids (Att_MessageID a) = false /\ a ∈ rows (attachments d).
Proof. rewrite without_eq. cbn [attachments]. by rewrite elem_of_delete_rows. Qed.

Lemma files_after_set f f' ids d : files_after f' ids (set_cas_files f d) <->
  f' ⊆ f /\ forall p, is_Some (f !! p) -> f' !! p = None ->
    exists a, a ∈ rows (attachments d) /\ hangs_on ids (Att_MessageID a) = true /\ p = retention_path (Hash a) /\
              forall a', a' ∈ rows (attachments (without ids d)) -> Hash a' <> Hash a.
Proof.
  unfold files_after. rewrite without_files, !cas_files_files, !attachments_files. reflexivity.
Qed.

Lemma files_after_app f f' ids ids' d : files_after f ids d -> files_after f' ids' (set_cas_files f (without ids d)) ->
  files_after f' (ids ++ ids') d.
Proof.
  intros [H1 H2] H34. rewrite files_after_set in H34. destruct H34 as [H3 H4]. split; [by etrans|]. intros p Hp Hn. destruct (f !! p) eqn:E.
  - destruct (H4 p ltac:(by eexists) Hn) as (a&Ha&Hh&->&Hun). apply elem_of_attachments_without in Ha as [_ Ha].
    exists a. rewrite hangs_on_app, Hh, orb_true_r. split_and!; try done. intros a' Ha'. apply Hun. by rewrite without_app.
  - destruct (H2 p Hp E) as (a&Ha&Hh&->&Hun). exists a. rewrite hangs_on_app, Hh. split_and!; try done.
    intros a' Ha'. apply Hun. rewrite <- without_app in Ha'. by apply elem_of_attachments_without in Ha' as [_ Ha'].
Qed.

(** ** Deleting in batches *)

(** [n] messages, those of [gone], are removed with all that hangs on them;
    none of them is replied to by a message that stays. *)
Definition removed (gone : list Z) (n : Z) (d d' : db) : Prop :=
  reply_blocked gone d = false /\ n = affected (message_in gone) (messages d) /\
  exists f, d' = set_cas_files f (without gone d) /\ files_after f gone d.

Lemma removed_nil d : removed [] 0 d d.
Proof.
  split_and!.
  - apply existsb_none. intros m _. by destruct (ReplyTo m).
  - unfold affected. symmetry. apply count_if_0. done.
  - exists (cas_files d). split; [by rewrite without_nil, set_files_id|apply files_after_nil].
Qed.

Lemma reply_blocked_files ids f d : reply_blocked ids (set_cas_files f d) = reply_blocked ids d.
Proof. done. Qed.

Lemma removed_app g1 g2 n1 n2 d d1 d2 : removed g1 n1 d d1 -> removed g2 n2 d1 d2 -> removed (g1 ++ g2) (n1 + n2) d d2.
Proof.
  intros (B1&->&f&->&F1) (B2&->&f'&->&F2). rewrite reply_blocked_files in B2. split_and!.
  - by apply reply_blocked_app.
  - by rewrite messages_files, affected_app.
  - exists f'. split; [|by eapply files_after_app]. by rewrite without_files, without_app, set_files_files.
Qed.

Section Batches.
Context {HEng : Engine}.

Lemma elem_of_hashes_of ids d h : h ∈ hashes_of ids d -> exists a, a ∈ rows (attachments d) /\ hangs_on ids (Att_MessageID a) = true /\ Hash a = h.
Proof.
  unfold hashes_of. rewrite (scan_perm _), elem_of_remove_dups. intros (a&->&Ha)%list_elem_of_fmap.
  apply elem_of_select in Ha as [? ?]. by exists a.
Qed.

Lemma wp_clean_files (Inv : gmap string string -> Prop) hashes d :
  (forall h f, h ∈ hashes -> Inv f -> (forall a, a ∈ rows (attachments d) -> Hash a <> h) -> Inv (delete (retention_path h) f)) ->
  Inv (cas_files d) -> wp (cleanupAttachmentFiles hashes) (fun _ d' => exists f, d' = set_cas_files f d /\ Inv f) d.
Proof.
  intros Hdel H0. apply wp_for_each; [|exists (cas_files d); by rewrite set_files_id].
  intros h d1 Hh (f&->&Hf). apply wp_bind. split; [|by exists f]. cbn [wp].
  destruct (Z.ltb_spec 0 (affected (fun a => String.eqb (Hash a) h) (attachments (set_cas_files f d)))) as [|Hz]; cbn [wp]; [by exists f|].
  split; [|by exists f]. exists (delete (retention_path h) f). split; [done|]. apply Hdel; [done..|]. intros a Ha E.
  assert (affected (fun x => String.eqb (Hash x) h) (attachments d) = 0) as Hc.
  { pose proof (count_if_nonneg (fun x => String.eqb (Hash x) h) (rows (attachments d))). unfold affected in *. simpl in *. lia. }
  apply count_if_0 with (x := a) in Hc; [|done]. rewrite E, String.eqb_refl in Hc. done.
Qed.

Lemma wp_cleanup ids d :
  wp (cleanupAttachmentFiles (hashes_of ids d)) (fun _ d' => exists f, d' = set_cas_files f (without ids d) /\ files_after f ids d) (without ids d).
Proof.
  apply wp_clean_files; [|rewrite without_cas_files; apply files_after_nil].
  intros h f Hh [H1 H2] Hun. split; [etrans; [apply delete_subseteq|done]|].
  intros p Hp Hn. destruct (decide (p = retention_path h)) as [->|Hne]; [|rewrite lookup_delete_ne in Hn by done; by apply H2].
  apply elem_of_hashes_of in Hh as (a&Ha&Hi&<-). by exists a.
Qed.

Lemma wp_deleteBatch ids d :
  wp (deleteBatch ids) (fun n d' => exists gone, gone ⊆ ids /\ removed gone n d d') d.
Proof.
  assert (exists gone, gone ⊆ ids /\ removed gone 0 d d) as Hnone by (exists []; split; [set_solver|apply removed_nil]).
  unfold deleteBatch. case_bool_decide; [done|]. apply wp_bind. unfold delete_batch_tx.
  split; [|done]. rewrite batch_result_eq. destruct (reply_blocked ids d) eqn:E; [done|]. simpl default. apply wp_bind.
  eapply wp_mono; [|apply wp_cleanup]. simpl. intros _ d' Hd'. exists ids. split; [done|]. by split_and!.
Qed.

Lemma wp_delete_batches n ids total d :
  wp (delete_batches n ids total) (fun t d' => exists gone k, gone ⊆ ids /\ removed gone k d d' /\ t = total + k) d.
Proof.
  revert ids total d. induction n as [|n IH]; intros ids total d.
  { exists [], 0. split_and!; [set_solver|apply removed_nil|lia]. }
  destruct ids as [|x ids']; [exists [], 0; split_and!; [set_solver|apply removed_nil|lia]|].
  remember (x :: ids') as ids. cbn [delete_batches]. rewrite Heqids at 1. apply wp_bind.
  eapply wp_mono; [|apply wp_deleteBatch]. simpl. intros k d1 (g&Hg&Hr).
  eapply wp_mono; [|apply IH]. simpl. intros t d' (g'&k'&Hg'&Hr'&->).
  exists (g ++ g'), (k + k'). split_and!; [|by eapply removed_app|lia].
  intros i [Hi|Hi]%elem_of_app.
  - apply Hg in Hi. by apply subseteq_take in Hi.
  - apply Hg' in Hi. by apply subseteq_drop in Hi.
Qed.

(** ** The cleanup *)
Definition expiry_cutoff (cfg : RetentionConfig) (d : db) : Z := add_duration (clock d) (- RetentionPeriod cfg).

(** Conversations are cleaned when no read pointer forbids it. *)
Definition swept_if_free (d : db) : db := if orphan_read d then d else swept d.

Lemma selected_ids (p : Message -> bool) d m : table_ok (messages d) -> m ∈ rows (messages d) ->
  message_in (Msg_ID <$> scan (select p (messages d))) m = p m.
Proof.
  intros Hok Hm. unfold message_in. destruct (p m) eqn:Ep.
  - apply bool_decide_eq_true, list_elem_of_fmap. exists m. split; [done|]. rewrite (scan_perm _). by apply elem_of_select.
  - apply bool_decide_eq_false. intros (m'&E&Hm')%list_elem_of_fmap. rewrite (scan_perm _) in Hm'. apply elem_of_select in Hm' as [Hp Hin].
    rewrite (table_ok_unique (messages d) m m' Hok Hm Hin E) in Ep. congruence.
Qed.


(** Whatever statement fails, a cleanup of expired messages removes some
    set of messages with all that hangs on them (attachment rows, reactions,
    embeddings, queue entries; goals and goal tasks forget them) and nothing
    else.  Every message removed is older than the retention period and was
    not being processed; none that stays replies to one removed; the answer is
    their number; a file goes only when no attachment needs its content any
    more; and a conversation goes only when it is empty and unread by all. *)
Theorem delete_expired_effect (cfg : RetentionConfig) (d : db) (Hok : table_ok (messages d)) :
  wp (deleteExpiredMessages cfg)
     (fun n d' => exists gone d1, removed gone n d d1 /\ (d' = d1 \/ d' = swept_if_free d1) /\
        forall m, m ∈ rows (messages d) -> Msg_ID m ∈ gone -> expired (expiry_cutoff cfg d) m = true) d.
Proof.
  assert (exists gone d1, removed gone 0 d d1 /\ (d = d1 \/ d = swept_if_free d1) /\
    forall m, m ∈ rows (messages d) -> Msg_ID m ∈ gone -> expired (expiry_cutoff cfg d) m = true) as Hnone.
  { exists [], d. split_and!; [apply removed_nil|by left|by intros m _ ?%elem_of_nil]. }
  unfold deleteExpiredMessages, time_now. cbn [bind wp query exec]. split; [|done]. cbn [bind wp].
  case_bool_decide; [done|]. apply wp_bind. eapply wp_mono; [|apply wp_delete_batches].
  cbv beta. intros t d1 (gone&k&Hsub&Hr&->). rewrite Z.add_0_l. apply wp_bind.
  assert (forall m, m ∈ rows (messages d) -> Msg_ID m ∈ gone -> expired (expiry_cutoff cfg d) m = true) as Hexp.
  { intros m Hm Hg. rewrite <- (selected_ids (expired (expiry_cutoff cfg d)) d) by done. apply bool_decide_eq_true, Hsub, Hg. }
  unfold clean_orphans. cbn [exec_o wp]. split.
  - cbn [wp]. exists gone, d1. split_and!; [done| |done]. right. unfold swept_if_free, delete_orphans. by destruct (orphan_read d1).
  - cbn [wp]. exists gone, d1. split_and!; [done|by left|done].
Qed.

(** *** Undisturbed *)
Lemma run_deleteBatch ids d : ids <> [] -> reply_blocked ids d = false ->
  exists n d', run_ok (deleteBatch ids) d = (n, d') /\ removed ids n d d'.
Proof.
  intros Hne Hb. unfold deleteBatch. rewrite bool_decide_false by done. rewrite run_ok_bind.
  unfold delete_batch_tx, exec_o, run_ok at 1. cbn [run]. rewrite batch_result_eq, Hb. cbn [run default from_option id]. rewrite run_ok_bind.
  pose proof (wp_run_ok _ _ _ (wp_cleanup ids d)) as H. destruct (run_ok (cleanupAttachmentFiles _) _) as [[] d'].
  eexists _, _. split; [done|]. by split_and!.
Qed.

(** Replies to the messages come from none, or all are in one batch. *)
Definition deletable (ids : list Z) (d : db) : Prop :=
  (forall m, m ∈ rows (messages d) -> hangs_on ids (ReplyTo m) = false) \/
  (length ids <= batchSize)%nat /\ reply_blocked ids d = false.

Lemma hangs_on_sub ids ids' o : ids ⊆ ids' -> hangs_on ids' o = false -> hangs_on ids o = false.
Proof. destruct o as [x|]; [|done]. simpl. rewrite !bool_decide_eq_false. auto. Qed.

Lemma run_delete_batches n ids total d : (length ids <= n)%nat -> deletable ids d ->
  exists k d', run_ok (delete_batches n ids total) d = (total + k, d') /\ removed ids k d d'.
Proof.
  revert ids total d. induction n as [|n IH]; intros ids total d Hn Hdel.
  { destruct ids; [|simpl in Hn; lia]. exists 0, d. split; [by rewrite Z.add_0_r|apply removed_nil]. }
  destruct (decide (ids = [])) as [->|Hne]; [exists 0, d; split; [by rewrite Z.add_0_r|apply removed_nil]|].
  assert (delete_batches (S n) ids total = (let! deleted := deleteBatch (take batchSize ids) in delete_batches n (drop batchSize ids) (total + deleted))) as ->
    by (by destruct ids).
  rewrite run_ok_bind.
  assert (take batchSize ids <> []) as Htk by (by destruct ids).
  destruct (run_deleteBatch (take batchSize ids) d) as (k&d1&->&Hr); [done| |].
  { destruct Hdel as [Hno|[Hl Hb]]; [|by rewrite take_ge].
    apply existsb_none. intros m Hm. rewrite (hangs_on_sub _ ids); [by rewrite andb_false_r|apply subseteq_take|by apply Hno]. }
  destruct (IH (drop batchSize ids) (total + k) d1) as (k'&d'&->&Hr').
  - rewrite length_drop. unfold batchSize. destruct ids; simpl in *; lia.
  - left. destruct Hr as (_&_&f&->&_). intros m Hm. apply elem_of_delete_rows in Hm as [_ Hm].
    destruct Hdel as [Hno|[Hl _]]; [|rewrite drop_ge by done; by destruct (ReplyTo m)].
    eapply hangs_on_sub; [apply subseteq_drop|by apply Hno].
  - exists (k + k'), d'. split; [f_equal; lia|]. rewrite <- (take_drop batchSize ids). by eapply removed_app.
Qed.

Lemma delete_rows_same {R} `{!Row R} (p q : R -> bool) (t : table R) : (forall r, r ∈ rows t -> p r = q r) -> delete_rows p t = delete_rows q t.
Proof.
  destruct t as [l n]. unfold delete_rows. simpl. intros H. f_equal. induction l as [|r l IH]; [done|].
  rewrite !filter_cons, (H r) by by left. rewrite IH by (intros x Hx; apply H; by right). done.
Qed.

Lemma affected_same {R} `{!Row R} (p q : R -> bool) (t : table R) : (forall r, r ∈ rows t -> p r = q r) -> affected p t = affected q t.
Proof. apply count_if_ext. Qed.

Lemma swept_if_free_messages d : messages (swept_if_free d) = messages d.
Proof. unfold swept_if_free. by destruct (orphan_read d). Qed.

Definition expired_ids (cfg : RetentionConfig) (d : db) : list Z := Msg_ID <$> scan (select (expired (expiry_cutoff cfg d)) (messages d)).

Lemma message_in_expired cfg d m : table_ok (messages d) -> m ∈ rows (messages d) ->
  message_in (expired_ids cfg d) m = expired (expiry_cutoff cfg d) m.
Proof. apply selected_ids. Qed.

Lemma deletable_perm ids ids' d : Permutation ids ids' -> deletable ids' d -> deletable ids d.
Proof.
  intros HP [Hno|[Hl Hb]]; [left|right].
  - intros m Hm. eapply hangs_on_sub; [|by apply Hno]. by rewrite HP.
  - split; [by rewrite HP|]. rewrite <- Hb. unfold reply_blocked.
    assert (forall o, hangs_on ids o = hangs_on ids' o) as Hh by (intros [x|]; [|done]; apply bool_decide_ext; by rewrite HP).
    assert (forall m, message_in ids m = message_in ids' m) as Hm by (intros m; apply bool_decide_ext; by rewrite HP).
    induction (rows (messages d)) as [|m l IH]; [done|]. cbn [existsb]. by rewrite Hh, Hm, IH.
Qed.

Lemma run_deleteExpired cfg d : deletable (expired_ids cfg d) d ->
  exists n d1, removed (expired_ids cfg d) n d d1 /\
    run_ok (deleteExpiredMessages cfg) d = (n, if bool_decide (expired_ids cfg d = []) then d1 else swept_if_free d1).
Proof.
  intros Hdel. unfold deleteExpiredMessages. rewrite run_ok_bind. change (run_ok time_now d) with (clock d, d). cbv iota beta.
  rewrite run_ok_bind. change (run_ok (query EDb _) d) with (Ok (E := error) (expired_ids cfg d), d). cbv iota beta.
  case_bool_decide as He.
  - exists 0, d. rewrite He. split; [apply removed_nil|done].
  - rewrite run_ok_bind. destruct (run_delete_batches (length (expired_ids cfg d)) (expired_ids cfg d) 0 d) as (k&d1&->&Hr); [done..|].
    exists k, d1. split; [done|]. rewrite run_ok_bind.
    unfold clean_orphans, swept_if_free, delete_orphans, exec_o, run_ok. cbn [run]. by destruct (orphan_read d1).
Qed.

(** No row of the other tables still belongs to a message without it. *)
Definition no_remains (id : Z) (d : db) : Prop :=
  (forall a, a ∈ rows (attachments d) -> Att_MessageID a <> Some id) /\
  (forall r, r ∈ rows (message_reactions d) -> Rx_MessageID r <> id) /\
  (forall q, q ∈ rows (embedding_queue d) -> Q_MessageID q <> id) /\
  embeddings d !! id = None.

Lemma without_no_remains ids id d : id ∈ ids -> no_remains id (without ids d).
Proof.
  intros Hid. split_and!.
  - intros a Ha E. apply elem_of_delete_rows in Ha as [Hh _]. rewrite E in Hh. simpl in Hh. by rewrite bool_decide_true in Hh.
  - intros r Hr E. apply elem_of_delete_rows in Hr as [Hh _]. by rewrite E, bool_decide_true in Hh.
  - intros r Hr E. apply elem_of_delete_rows in Hr as [Hh _]. by rewrite E, bool_decide_true in Hh.
  - apply map_lookup_filter_None. right. simpl. naive_solver.
Qed.

Lemma no_remains_files id f d : no_remains id d -> no_remains id (set_cas_files f d).
Proof. done. Qed.

Lemma no_remains_swept id d : no_remains id d -> no_remains id (swept_if_free d).
Proof. unfold swept_if_free. by destruct (orphan_read d). Qed.

(** An undisturbed cleanup is complete: when no message replies to an
    expired one, or when only expired ones do and at most one batch of 500 is
    expired, every expired message is deleted and nothing else, the answer is
    their number, and afterwards no attachment, reaction, embedding or queue
    entry of them is left. *)
Theorem delete_expired_complete (cfg : RetentionConfig) (d : db) (Hok : table_ok (messages d))
    (Hdel : deletable (Msg_ID <$> select (expired (expiry_cutoff cfg d)) (messages d)) d) :
  let p := expired (expiry_cutoff cfg d) in
  let '(n, d') := run_ok (deleteExpiredMessages cfg) d in
  messages d' = delete_rows p (messages d) /\ n = affected p (messages d) /\
  forall m, m ∈ rows (messages d) -> p m = true -> no_remains (Msg_ID m) d'.
Proof.
  intros p. destruct (run_deleteExpired cfg d) as (n&d1&(_&->&f&->&_)&->).
  { eapply deletable_perm; [|exact Hdel]. unfold expired_ids. by rewrite (scan_perm _). }
  assert (forall m, m ∈ rows (messages d) -> message_in (expired_ids cfg d) m = p m) as Hin by (intros m Hm; by apply message_in_expired).
  set (d1 := set_cas_files f (without (expired_ids cfg d) d)).
  assert (messages d1 = delete_rows p (messages d)) as Hm1.
  { unfold d1. rewrite messages_files, without_messages. by apply delete_rows_same. }
  assert (forall m, m ∈ rows (messages d) -> p m = true -> no_remains (Msg_ID m) d1) as Hr1.
  { intros m Hm Hp. apply no_remains_files, without_no_remains. rewrite <- Hin in Hp by done. by apply bool_decide_eq_true in Hp. }
  assert (affected (message_in (expired_ids cfg d)) (messages d) = affected p (messages d)) as -> by by apply affected_same.
  clearbody d1. case_bool_decide; [done|]. rewrite swept_if_free_messages. split_and!; [done..|].
  intros m Hm Hp. by apply no_remains_swept, Hr1.
Qed.
End Batches.

(** ** A purge *)

(** The messages and what hangs on them are gone; when a reply that stays
    forbids that, what hangs on them is gone all the same; when they are too
    many for one statement, nothing is. *)
Definition purge_outcome (ids : list Z) (d : db) : db :=
  swept_if_free (if too_many ids then d else if reply_blocked ids d then delete_hangers ids d else without ids d).

Lemma purge_tx_outcome ids d : (purge_tx ids d).1 = purge_outcome ids d.
Proof.
  unfold purge_tx, purge_deletes, purge_outcome. pose proof (batch_result_eq ids d) as E. unfold batch_result in E.
  destruct (too_many ids); [|rewrite E; destruct (reply_blocked ids d)]; cbn [default from_option id];
    unfold delete_orphans, swept_if_free; by destruct (orphan_read _).
Qed.

Section PurgeSpec.
Context {HEng : Engine}.

Definition purge_cutoff (olderThan : Z) (d : db) : option Z :=
  if 0 <? olderThan then Some (add_duration (clock d) (- olderThan)) else None.

Lemma wp_purge_files hashes d0 : wp (purge_files hashes) (fun _ d' => exists f, d' = set_cas_files f d0 /\ f ⊆ cas_files d0) d0.
Proof.
  apply wp_for_each; [|exists (cas_files d0); split; [by destruct d0|done]].
  intros h d Hh (f&->&Hf). apply wp_bind.
  assert (wp (remove_file (retention_path h)) (fun _ d' => exists f', d' = set_cas_files f' d0 /\ f' ⊆ cas_files d0) (set_cas_files f d0)) as Hrm.
  { split; [|by exists f]. exists (delete (retention_path h) f). split; [done|]. etrans; [apply delete_subseteq|done]. }
  split; [|exact Hrm]. cbn [wp].
  match goal with |- wp (if ?b then _ else _) _ _ => destruct b end; [exact Hrm|by exists f].
Qed.

(** Whatever statement fails, a purge without any filter is refused, an
    error changes nothing, and otherwise the messages selected are exactly
    those the filters describe: they are removed with all that hangs on them,
    unless they are more than a statement can name, in which case nothing is
    removed, or a message that stays replies to one of them, in which case they
    all stay but lose their attachments and embeddings.  Nothing else changes
    but files and empty conversations, and the count reported is always that of
    the messages selected. *)
Theorem purge_effect (olderThan : Z) (agent channel : string) (d : db) (Hok : table_ok (messages d)) :
  wp (PurgeMessages olderThan agent channel)
     (fun r d' => match r with
        | Ok c => let p := purged (purge_cutoff olderThan d) agent channel d in
                  (0 < olderThan \/ agent <> "" \/ channel <> "") /\ deleted_messages c = affected p (messages d) /\
                  (affected p (messages d) = 0 /\ d' = d \/
                   exists ids f, (forall m, m ∈ rows (messages d) -> message_in ids m = p m) /\
                     d' = set_cas_files f (purge_outcome ids d) /\ f ⊆ cas_files d)
        | Err _ => d' = d
        | Panic _ => False
        end) d.
Proof.
  set (p := purged (purge_cutoff olderThan d) agent channel d).
  unfold PurgeMessages, time_now. destruct (_ && _ && _) eqn:E1; [done|]. cbn [bind wp].
  destruct ((olderThan <=? 0) && _ && _) eqn:E2; [done|].
  assert (0 < olderThan \/ agent <> "" \/ channel <> "") as Hfil.
  { destruct (Z.leb_spec olderThan 0); [|by left]. right.
    destruct (String.eqb_spec agent ""), (String.eqb_spec channel ""); simpl in E2; auto; done. }
  apply wp_bind_ok. split; [|done]. cbn [wp]. fold (purge_cutoff olderThan d). fold p.
  set (ids := Msg_ID <$> scan (select p (messages d))).
  assert (Z.of_nat (length ids) = affected p (messages d)) as Hlen.
  { unfold ids. rewrite length_fmap, (scan_perm _). done. }
  case_bool_decide as He; [cbn [wp]; cbn [deleted_messages]; rewrite He in Hlen; simpl in Hlen; split_and!; auto|].
  apply wp_bind_ok. split; [|done]. cbn [wp]. rewrite purge_tx_outcome.
  destruct (too_many ids) eqn:Emany; apply wp_bind;
    (eapply wp_mono; [|apply wp_purge_files]); simpl; intros _ d' (f&->&Hf); (split_and!; [done|done|]); right; exists ids, f;
    (split_and!; [intros m Hm; by apply selected_ids|done|]); (etrans; [exact Hf|]); unfold purge_outcome, swept_if_free; rewrite Emany;
    [|destruct (reply_blocked ids d)]; by destruct (orphan_read _).
Qed.
End PurgeSpec.
