(* ===== verification/RetentionHistory.v ===== *)
(** * Retention under concurrency

    [retention_history]: cleanups, purges, captures and acknowledgements of
    dead letters, interleaved in any way, leave none of the references the schema
    declares dangling and lose no dead letter.  [age_distribution_total], [period_roundtrip].
    [RetentionRuns]: the witnesses, and runs in which the code deletes less,
    or more, than it says. *)
From stdpp Require Import pretty.
From S2P Require Import Prelude Prog Table Schema Messaging MessagingQueries Agents Retention RetentionSpec.

(** ** References *)
Definition has_message (d : db) (id : Z) : Prop := exists m, m ∈ rows (messages d) /\ Msg_ID m = id.
Definition has_conversation (d : db) (id : Z) : Prop := exists c, c ∈ rows (conversations d) /\ Conv_ID c = id.

(** Every reference to a message or a conversation that the schema declares
    has its target. *)
Record refs_ok (d : db) : Prop := {
  ro_reply : forall m r, m ∈ rows (messages d) -> ReplyTo m = Some r -> has_message d r;
  ro_conversation : forall m, m ∈ rows (messages d) -> has_conversation d (Msg_ConversationID m);
  ro_inbox : forall s, s ∈ rows (inbox_state d) -> has_conversation d (Inbox_ConversationID s);
  ro_attachment : forall a id, a ∈ rows (attachments d) -> Att_MessageID a = Some id -> has_message d id;
  ro_reaction : forall r, r ∈ rows (message_reactions d) -> has_message d (Rx_MessageID r);
  ro_queue : forall q, q ∈ rows (embedding_queue d) -> has_message d (Q_MessageID q);
  ro_embedding : forall id e, embeddings d !! id = Some e -> has_message d id;
  ro_goal : forall g id, g ∈ rows (goals d) -> Goal_CompletionMessageID g = Some id -> has_message d id;
  ro_claim : forall t id, t ∈ rows (goal_tasks d) -> ClaimMessageID t = Some id -> has_message d id;
  ro_completion : forall t id, t ∈ rows (goal_tasks d) -> GT_CompletionMessageID t = Some id -> has_message d id
}.

(** A dead letter stays; it may be acknowledged. *)
Definition letters_later (d d' : db) : Prop :=
  forall l, l ∈ rows (dead_letters d) -> l ∈ rows (dead_letters d') \/ acknowledge l ∈ rows (dead_letters d').

#[export] Instance letters_later_preorder : PreOrder letters_later.
Proof.
  split; [by left|]. intros a b c Hab Hbc l Hl. destruct (Hab l Hl) as [H|H].
  - by apply Hbc.
  - destruct (Hbc _ H) as [?|?]; by right.
Qed.

Lemma has_message_kept d ids id : has_message d id -> id ∉ ids ->
  exists m, m ∈ rows (delete_rows (message_in ids) (messages d)) /\ Msg_ID m = id.
Proof.
  intros (m&Hm&E) Hid. exists m. split; [|done]. apply elem_of_delete_rows. split; [|done].
  unfold message_in. apply bool_decide_eq_false. by rewrite E.
Qed.

Lemma hangs_on_false ids o id : hangs_on ids o = false -> o = Some id -> id ∉ ids.
Proof. intros H ->. by apply bool_decide_eq_false in H. Qed.

Lemma clear_if_Some ids o id : clear_if ids o = Some id -> o = Some id /\ id ∉ ids.
Proof. unfold clear_if. destruct (hangs_on ids o) eqn:E; [done|]. intros H. split; [done|by eapply hangs_on_false]. Qed.

Lemma delete_hangers_refs ids d : refs_ok d -> refs_ok (delete_hangers ids d).
Proof.
  intros [H1 H2 H3 H4 H5 H6 H7 H8 H9 H10]. split; try done; simpl.
  - intros a id Ha. apply elem_of_delete_rows in Ha as [_ Ha]. by apply H4.
  - intros q Hq. apply elem_of_delete_rows in Hq as [_ Hq]. by apply H6.
  - intros id e. rewrite map_lookup_filter_Some. intros [He _]. by eapply H7.
Qed.

Lemma elem_of_update_all {R} `{!Row R} (f : R -> R) (t : table R) x :
  x ∈ rows (update_rows (fun _ => true) f t) -> exists y, y ∈ rows t /\ x = f y.
Proof. unfold update_rows. simpl. by rewrite elem_of_map_if. Qed.

Lemma without_refs ids d : refs_ok d -> reply_blocked ids d = false -> refs_ok (without ids d).
Proof.
  intros [H1 H2 H3 H4 H5 H6 H7 H8 H9 H10] Hb. unfold reply_blocked in Hb. rewrite existsb_none in Hb. rewrite without_eq.
  split; cbn [messages inbox_state message_reactions embeddings embedding_queue goals goal_tasks attachments].
  - intros m r Hm Hr. apply elem_of_delete_rows in Hm as [Hk Hm]. apply (has_message_kept d); [by eapply H1|].
    specialize (Hb m Hm). rewrite Hk in Hb. cbn [negb andb] in Hb. by eapply hangs_on_false.
  - intros m Hm. apply elem_of_delete_rows in Hm as [_ Hm]. by apply H2.
  - exact H3.
  - intros a id Ha Hid. apply elem_of_delete_rows in Ha as [Hh Ha]. apply (has_message_kept d); [by eapply H4|by eapply hangs_on_false].
  - intros r Hr. apply elem_of_delete_rows in Hr as [Hh Hr]. apply (has_message_kept d); [by apply H5|by apply bool_decide_eq_false in Hh].
  - intros q Hq. apply elem_of_delete_rows in Hq as [Hh Hq]. apply elem_of_delete_rows in Hq as [_ Hq].
    apply (has_message_kept d); [by apply H6|by apply bool_decide_eq_false in Hh].
  - intros id e He. apply map_lookup_filter_Some in He as [He Hn]. apply map_lookup_filter_Some in He as [He _].
    apply (has_message_kept d); [by eapply H7|done].
  - intros g id Hg Hid. apply elem_of_update_all in Hg as (g'&Hg&->). apply clear_if_Some in Hid as [Hid Hn].
    apply (has_message_kept d); [by eapply H8|done].
  - intros g id Hg Hid. apply elem_of_update_all in Hg as (g'&Hg&->). apply clear_if_Some in Hid as [Hid Hn].
    apply (has_message_kept d); [by eapply H9|done].
  - intros g id Hg Hid. apply elem_of_update_all in Hg as (g'&Hg&->). apply clear_if_Some in Hid as [Hid Hn].
    apply (has_message_kept d); [by eapply H10|done].
Qed.

Lemma swept_refs d : refs_ok d -> refs_ok (swept_if_free d).
Proof.
  intros Hok. unfold swept_if_free. destruct (orphan_read d) eqn:E; [done|]. unfold orphan_read in E. rewrite existsb_none in E.
  destruct Hok as [H1 H2 H3 H4 H5 H6 H7 H8 H9 H10]. split; try done; simpl.
  - intros m Hm. destruct (H2 m Hm) as (c&Hc&Ec). exists c. split; [|done]. apply elem_of_delete_rows. split; [|done].
    unfold orphan. apply negb_false_iff, existsb_some. exists m. split; [done|]. by apply Z.eqb_eq.
  - intros s Hs. destruct (H3 s Hs) as (c&Hc&Ec). exists c. split; [|done]. apply elem_of_delete_rows. split; [|done].
    specialize (E c Hc). destruct (orphan d c); [|done]. simpl in E. rewrite existsb_none in E. specialize (E s Hs).
    apply Z.eqb_neq in E. congruence.
Qed.

(** ** Steps *)
Definition refs_step (d d' : db) : Prop := refs_ok d -> refs_ok d' /\ letters_later d d'.
#[export] Instance refs_step_preorder : PreOrder refs_step.
Proof.
  split; [by intros d H; split|]. intros a b c H1 H2 Ha. destruct (H1 Ha) as [Hb L1]. destruct (H2 Hb) as [Hc L2].
  split; [done|by etrans].
Qed.

(** Only files and the clock changed. *)
Lemma refs_step_files f d : refs_step d (set_cas_files f d).
Proof. intros [H1 H2 H3 H4 H5 H6 H7 H8 H9 H10]. split; [by split|by left]. Qed.

Lemma swept_step d : refs_step d (swept_if_free d).
Proof. intros H. split; [by apply swept_refs|]. unfold swept_if_free. by destruct (orphan_read d); left. Qed.

Lemma within_remove_file p : within refs_step (remove_file p).
Proof. split; [|done]. intros d. split; [apply refs_step_files|done]. Qed.

Lemma within_if {A} (G : db -> db -> Prop) (b : bool) (p q : prog db A) : within G p -> within G q -> within G (if b then p else q).
Proof. by destruct b. Qed.

Section Steps.
Context {HEng : Engine} {HDur : GoDuration} {HIns : LastInsert}.

Lemma batch_refs_step ids d : refs_step d (default d (batch_result ids d)).
Proof.
  intros H. rewrite batch_result_eq. destruct (reply_blocked ids d) eqn:E; cbn [default from_option id].
  { by split. }
  split; [by apply without_refs|]. rewrite without_eq. by left.
Qed.

Lemma within_deleteBatch ids : within refs_step (deleteBatch ids).
Proof.
  unfold deleteBatch. case_bool_decide; [done|]. apply within_bind.
  - split; [|done]. intros d. split; [apply batch_refs_step|]. by destruct (match batch_result ids d with Some _ => _ | None => _ end).
  - intros [[n hashes]|e|w]; try done. apply within_bind; [|done]. apply within_for_each. intros h.
    apply within_bind; [by apply within_query|]. intros [k|e|w]; try done. apply within_if; [done|apply within_remove_file].
Qed.

Lemma within_delete_batches n ids total : within refs_step (delete_batches n ids total).
Proof.
  revert ids total. induction n as [|n IH]; intros ids total; [done|]. destruct ids as [|x ids']; [done|].
  cbn [delete_batches]. apply within_bind; [apply within_deleteBatch|]. intros k. apply IH.
Qed.

Lemma within_clean_orphans : within refs_step clean_orphans.
Proof.
  split; [|done]. intros d. unfold delete_orphans.
  pose proof (swept_step d) as H. unfold swept_if_free in H. by destruct (orphan_read d).
Qed.

Lemma within_deleteExpired cfg : within refs_step (deleteExpiredMessages cfg).
Proof.
  apply within_bind; [done|]. intros now. apply within_bind; [by apply within_query|]. intros [ids|e|w]; try done.
  case_bool_decide; [done|]. apply within_bind; [apply within_delete_batches|]. intros t.
  apply within_bind; [apply within_clean_orphans|done].
Qed.
Lemma purge_outcome_step ids d : refs_step d (purge_outcome ids d).
Proof.
  unfold purge_outcome. etrans; [|apply swept_step]. destruct (too_many ids); [done|]. destruct (reply_blocked ids d) eqn:E; intros H.
  - split; [by apply delete_hangers_refs|by left].
  - split; [by apply without_refs|]. rewrite without_eq. by left.
Qed.

Lemma within_purge olderThan agent channel : within refs_step (PurgeMessages olderThan agent channel).
Proof.
  unfold PurgeMessages. destruct (_ && _ && _); [done|]. apply within_bind; [done|]. intros now. destruct (_ && _ && _); [done|].
  apply within_bind_ok; [by apply within_query|]. intros ids. case_bool_decide; [done|].
  apply within_bind_ok; [apply within_exec; intros d; rewrite purge_tx_outcome; apply purge_outcome_step|].
  intros [c hashes]. apply within_bind; [|done]. apply within_for_each. intros h.
  apply within_bind; [by apply within_query|]. intros r. apply within_if; [apply within_remove_file|done].
Qed.

(** *** Insertions *)
Lemma insert_conversation_step mk d : refs_step d (set_conversations (insert_row mk (conversations d)) d).
Proof.
  intros [H1 H2 H3 H4 H5 H6 H7 H8 H9 H10]. split; [|by left].
  assert (forall id, has_conversation d id -> has_conversation (set_conversations (insert_row mk (conversations d)) d) id) as Hc.
  { intros id (c&Hc&E). exists c. split; [|done]. apply elem_of_app. by left. }
  split; try done; intros x Hx; apply Hc; auto.
Qed.

(** A message without a reply, into a conversation on record. *)
Lemma insert_message_step mk d : (forall id, ReplyTo (mk id) = None) ->
  (forall id, has_conversation d (Msg_ConversationID (mk id))) -> refs_step d (set_messages (insert_row mk (messages d)) d).
Proof.
  intros Hr Hc [H1 H2 H3 H4 H5 H6 H7 H8 H9 H10]. split; [|by left].
  assert (forall id, has_message d id -> has_message (set_messages (insert_row mk (messages d)) d) id) as Hm.
  { intros id (m&Hm&E). exists m. split; [|done]. apply elem_of_app. by left. }
  split; try done.
  - intros m r [Hin| ->%list_elem_of_singleton]%elem_of_app E; [by eapply Hm, H1|]. by rewrite Hr in E.
  - intros m [Hin| ->%list_elem_of_singleton]%elem_of_app; [by apply H2|apply Hc].
  - intros a id Ha Hid. by eapply Hm, H4.
  - intros r Hin. by apply Hm, H5.
  - intros q Hq. by apply Hm, H6.
  - intros id e He. by eapply Hm, H7.
  - intros g id Hg Hid. by eapply Hm, H8.
  - intros g id Hg Hid. by eapply Hm, H9.
  - intros g id Hg Hid. by eapply Hm, H10.
Qed.

Lemma within_warn_agent cfg agent subject : within refs_step (warn_agent cfg agent subject).
Proof.
  apply within_bind; [apply within_exec; intros d; apply insert_conversation_step|]. intros [c|e|w]; try done.
  apply within_bind; [eapply within_mono; [|apply last_insert_frame]; by intros d d' ->|]. intros convID.
  apply within_bind; [|done]. apply within_exec_o. intros d.
  destruct (find_id convID (conversations d)) as [cv|] eqn:E; [|reflexivity].
  apply find_id_Some in E as [E Hin]. apply insert_message_step; [done|]. intros id. by exists cv.
Qed.

Lemma within_warn_agents cfg l n : within refs_step (warn_agents cfg l n).
Proof.
  revert n. induction l as [|[agent subject] l IH]; intros n; [done|]. cbn [warn_agents].
  apply within_bind; [apply within_warn_agent|]. intros k. apply IH.
Qed.

Lemma within_runCleanup cfg : within refs_step (runCleanup cfg).
Proof.
  apply within_bind.
  - unfold sendRetentionWarnings. apply within_if; [done|]. do 3 (apply within_bind; [done|]; intros ?).
    apply within_bind; [by apply within_query|]. intros [l|e|w]; try done. apply within_warn_agents.
  - intros n. apply within_bind; [apply within_deleteExpired|done].
Qed.

(** *** Dead letters *)
Lemma insert_dead_letters_rows owner agent l d :
  insert_dead_letters owner agent l d =
  set_dead_letters (mkTable (rows (dead_letters d) ++ imap (fun i ms => dead_letter owner agent (clock d) ms (next_id (dead_letters d) + Z.of_nat i)) l)
                      (next_id (dead_letters d) + Z.of_nat (length l))) d.
Proof.
  unfold insert_dead_letters. revert d. induction l as [|x l IH]; intros d; cbn [foldl].
  - rewrite app_nil_r, Z.add_0_r. by destruct d as [? ? ? ? ? ? ? ? ? ? ? ? ? ? ? []].
  - rewrite IH. set (t := insert_row (dead_letter owner agent (clock d) x) (dead_letters d)).
    change (set_dead_letters _ (set_dead_letters t d)) with (set_dead_letters (mkTable (rows t ++
      imap (fun i ms => dead_letter owner agent (clock d) ms (next_id t + Z.of_nat i)) l) (next_id t + Z.of_nat (length l))) d).
    f_equal. f_equal; cbn [rows next_id insert_row t length imap]; [|lia]. rewrite <- app_assoc, Z.add_0_r. f_equal. cbn [app]. f_equal.
    apply imap_ext. intros i y _. cbn [compose]. f_equal. lia.
Qed.

Lemma dead_letters_step t d : (forall l, l ∈ rows (dead_letters d) -> l ∈ rows t \/ acknowledge l ∈ rows t) ->
  refs_step d (set_dead_letters t d).
Proof. intros Hl [H1 H2 H3 H4 H5 H6 H7 H8 H9 H10]. split; [by split|done]. Qed.

Lemma within_capture owner agent : within refs_step (store_CaptureDeadLetters owner agent).
Proof.
  apply within_bind_ok; [by apply within_query|]. intros l. case_bool_decide; [done|]. apply within_exec. intros d.
  rewrite insert_dead_letters_rows. apply dead_letters_step. intros x Hx. left. apply elem_of_app. by left.
Qed.

Lemma within_acknowledge id owner : within refs_step (AcknowledgeDeadLetter id owner).
Proof.
  apply within_exec_o. intros d. apply dead_letters_step. intros l Hl.
  destruct (by_id id l && (DL_OwnerID l =? owner)) eqn:E; [right|left]; apply elem_of_map_if; exists l; by rewrite E.
Qed.
End Steps.

(** ** Histories *)
Inductive retention_call :=
| CallCleanup (cfg : RetentionConfig)
| CallPurge (olderThan : Z) (agent channel : string)
| CallCapture (ownerID : Z) (agentName : string)
| CallAcknowledge (id ownerID : Z)
| CallListLetters (ownerID : Z) (includeAcknowledged : bool) (limit : Z)
| CallDistribution.

Section History.
Context {HEng : Engine} {HDur : GoDuration} {HIns : LastInsert}.

Definition drop_answer {A} (p : prog db A) : prog db unit := let! _ := p in Ret tt.

Definition retention_prog (c : retention_call) : prog db unit :=
  match c with
  | CallCleanup cfg => drop_answer (runCleanup cfg)
  | CallPurge olderThan agent channel => drop_answer (PurgeMessages olderThan agent channel)
  | CallCapture owner agent => drop_answer (store_CaptureDeadLetters owner agent)
  | CallAcknowledge id owner => drop_answer (AcknowledgeDeadLetter id owner)
  | CallListLetters owner incl limit => drop_answer (ListDeadLetters owner incl limit)
  | CallDistribution => drop_answer messageAgeDistribution
  end.

Lemma within_drop {A} G (p : prog db A) : within G p -> within G (drop_answer p).
Proof. intros H. by apply within_bind. Qed.

Lemma within_count p : within refs_step (count_messages p).
Proof. apply within_bind; [by apply within_query|done]. Qed.

Lemma retention_prog_step c : within refs_step (retention_prog c).
Proof.
  destruct c; apply within_drop.
  - apply within_runCleanup.
  - apply within_purge.
  - apply within_capture.
  - apply within_acknowledge.
  - apply within_bind_ok; [by apply within_query|]. intros l. apply within_bind_ok; [by apply within_query|done].
  - apply within_bind; [done|]. intros now. do 5 (apply within_bind; [apply within_count|]; intros ?). done.
Qed.

(** C13. However cleanups, purges, captures and acknowledgements of dead
    letters interleave, with each other and with statements of other services
    that themselves keep the foreign keys, any of them failing: no reply,
    attachment, reaction, embedding, queue entry, goal or goal task refers to a
    message that is gone, no message or read pointer to a conversation that is
    gone, and no dead letter is lost or altered but by being acknowledged.
    These are the references the schema declares; those it does not (of memory
    links and pins, webhook deliveries, reactive runs and dead letters) may
    name deleted messages, as [RetentionRuns.links_left_behind] shows. *)
Theorem retention_history (cs : list retention_call) (d : db) (ps : list (prog db unit)) (d' : db)
    (Hinit : refs_ok d) (Hrun : rtc (pool_step refs_step) (retention_prog <$> cs, d) (ps, d')) :
  refs_ok d' /\ letters_later d d'.
Proof.
  destruct (pool_invariant refs_ok letters_later refs_step ltac:(intros x y Hx Hxy; by apply Hxy)
    (retention_prog <$> cs) ps (fun _ _ _ => True) d d') with (2 := Hinit) (3 := Hrun) as (H1&H2&_); [|done].
  intros i p Hp. rewrite list_lookup_fmap in Hp. destruct (cs !! i) as [c|]; [|done]. injection Hp as <-.
  apply (within_rg _ _ refs_step); [by intros x y Hx Hxy; apply Hxy|]. apply retention_prog_step.
Qed.

(** Capturing copies the unfinished messages of the agent, once each, for the
    owner; the messages themselves stay as they are. *)
Theorem capture_effect (owner : Z) (agent : string) (d : db) :
  wp (store_CaptureDeadLetters owner agent)
     (fun r d' => match r with
        | Ok n => exists ms, Permutation ms (select (undelivered agent) (messages d)) /\ n = Z.of_nat (length ms) /\
            d' = set_dead_letters (mkTable (rows (dead_letters d) ++
                   imap (fun i m => dead_letter owner agent (clock d) (m, subject_of d m) (next_id (dead_letters d) + Z.of_nat i)) ms)
                   (next_id (dead_letters d) + n)) d
        | _ => d' = d
        end) d.
Proof.
  apply wp_bind_ok. split; [|done]. cbn [wp].
  set (l := scan (select (undelivered agent) (messages d))).
  assert (Permutation l (select (undelivered agent) (messages d))) as HP by apply scan_perm.
  case_bool_decide as E.
  - cbn [wp]. exists []. apply fmap_nil_inv in E. rewrite E in HP. split_and!; [done|done|].
    rewrite app_nil_r, Z.add_0_r. by destruct d as [? ? ? ? ? ? ? ? ? ? ? ? ? ? ? []].
  - split; [|done]. cbn [wp]. exists l. rewrite length_fmap. split_and!; [done|done|].
    rewrite insert_dead_letters_rows, length_fmap. f_equal. f_equal. f_equal. by rewrite imap_fmap.
Qed.
End History.

(** ** The age distribution *)

(** An undisturbed age distribution puts every message in exactly one of
    the five buckets: the total is the number of messages. *)
Theorem age_distribution_total (d : db) :
  let '(buckets, total) := (run_ok messageAgeDistribution d).1 in
  total = foldr Z.add 0 buckets /\ total = Z.of_nat (length (rows (messages d))).
Proof.
  unfold messageAgeDistribution, count_messages, time_now, run_ok. cbn [bind run query exec fst].
  set (b1 := days_ago (clock d) 30). set (b2 := days_ago (clock d) 90). set (b3 := days_ago (clock d) 180). set (b4 := days_ago (clock d) 365).
  assert (b4 <= b3 <= b2 /\ b2 <= b1) as Hb by (unfold b1, b2, b3, b4, days_ago, add_duration, time_Hour; lia).
  clearbody b1 b2 b3 b4. split; [simpl; lia|]. unfold affected. induction (rows (messages d)) as [|m l IH]; [done|].
  rewrite !count_if_cons. cbn [length]. unfold in_bucket at 1 3 5 7 9. unfold before_nanos.
  destruct (Z.ltb_spec (Msg_CreatedAt m * 1000000000) b1), (Z.ltb_spec (Msg_CreatedAt m * 1000000000) b2),
    (Z.ltb_spec (Msg_CreatedAt m * 1000000000) b3), (Z.ltb_spec (Msg_CreatedAt m * 1000000000) b4); cbn [negb andb]; lia.
Qed.

(** ** The period that is parsed is the period that is shown *)
Section Period.
Context {HDur : GoDuration}.

Lemma append_nonempty (x suf : string) : x <> EmptyString -> x +:+ suf <> suf.
Proof.
  intros Hx E. apply (f_equal String.length) in E.
  assert (forall y, String.length (y +:+ suf) = (String.length y + String.length suf)%nat) as Hl by (induction y as [|b y IH]; [done|]; exact (f_equal S IH)).
  rewrite Hl in E. destruct x; [done|]. simpl in E. lia.
Qed.

Lemma trim_suffix_app (x suf : string) : trim_suffix suf (x +:+ suf) = Some x.
Proof.
  induction x as [|a x IH].
  - change (EmptyString +:+ suf) with suf. destruct suf as [|a suf]; [done|]. cbn [trim_suffix]. by rewrite String.eqb_refl.
  - change (String a x +:+ suf) with (String a (x +:+ suf)). cbn [trim_suffix].
    destruct (String.eqb_spec (String a (x +:+ suf)) suf) as [E|_]; [|by rewrite IH].
    by destruct (append_nonempty (String a x) suf).
Qed.

Lemma trim_suffix_Some (suf s r : string) : trim_suffix suf s = Some r -> s = r +:+ suf.
Proof.
  revert r. induction s as [|a s IH]; intros r; cbn [trim_suffix].
  - destruct (String.eqb_spec EmptyString suf) as [<-|]; [by intros [= <-]|done].
  - destruct (String.eqb_spec (String a s) suf) as [<-|]; [by intros [= <-]|]. intros (r'&E&->)%fmap_Some.
    change (String a s = String a (r' +:+ suf)). f_equal. by apply IH.
Qed.

(** The last character of a text. *)
Fixpoint last_char (s : string) : option Ascii.ascii :=
  match s with EmptyString => None | String a EmptyString => Some a | String _ r => last_char r end.

Lemma last_char_cons a b r : last_char (String a (String b r)) = last_char (String b r).
Proof. done. Qed.

Lemma last_char_app (x : string) suf : suf <> EmptyString -> last_char (x +:+ suf) = last_char suf.
Proof.
  intros Hs. induction x as [|a x IH]; [done|]. change (String a x +:+ suf) with (String a (x +:+ suf)).
  destruct (x +:+ suf) as [|b r] eqn:E; [|by rewrite last_char_cons].
  destruct x; [by destruct suf|discriminate].
Qed.

Lemma trim_suffix_last suf s : suf <> EmptyString -> last_char s <> last_char suf -> trim_suffix suf s = None.
Proof.
  intros Hs Hl. destruct (trim_suffix suf s) as [r|] eqn:E; [|done]. apply trim_suffix_Some in E as ->.
  by rewrite last_char_app in Hl.
Qed.

Lemma append_char (x : string) c : exists a r, x +:+ String c EmptyString = String a r.
Proof. destruct x as [|a x]; [by exists c, EmptyString|by exists a, (x +:+ String c EmptyString)]. Qed.

Lemma trim_right_app (x : string) c : is_blank c = false -> trim_right (x +:+ String c EmptyString) = x +:+ String c EmptyString.
Proof.
  intros Hc. induction x as [|a x IH].
  - change (trim_right (String c EmptyString) = String c EmptyString). cbn [trim_right]. by rewrite Hc.
  - change (trim_right (String a (x +:+ String c EmptyString)) = String a (x +:+ String c EmptyString)). cbn [trim_right]. rewrite IH.
    destruct (append_char x c) as (b&r&->). cbn [str_empty]. by rewrite andb_false_r.
Qed.

Lemma digit_char (v : N) : (v < 10)%N -> Ascii.nat_of_ascii (pretty_N_char v) = (48 + N.to_nat v)%nat.
Proof. intros H. by do 10 (destruct v as [|v] using N.peano_ind; [done|clear IHv]; try lia). Qed.

Lemma all_digits_go (x : N) s : all_digits (pretty_N_go x s) 0 = all_digits s (Z.of_N x).
Proof.
  revert s. induction (N.lt_wf_0 x) as [x _ IH]. intros s. destruct (decide (x = 0)%N) as [->|Hx]; [done|].
  rewrite pretty_N_go_step by lia. rewrite IH by (apply N.div_lt; lia). cbn [all_digits].
  pose proof (N.mod_lt x 10 ltac:(lia)) as Hm. pose proof (N.div_mod x 10 ltac:(lia)) as Hd. rewrite digit_char by done.
  generalize dependent (x `mod` 10)%N. intros k Hm Hd. replace (Z.of_nat (48 + N.to_nat k)) with (48 + Z.of_N k) by lia.
  destruct (Z.leb_spec 48 (48 + Z.of_N k)); [|lia]. destruct (Z.leb_spec (48 + Z.of_N k) 57); [|lia]. cbn [andb].
  f_equal. rewrite Hd at 2. lia.
Qed.

Lemma all_digits_head s v : s <> EmptyString -> all_digits s 0 = Some v ->
  exists a r, s = String a r /\ (48 <= Ascii.nat_of_ascii a <= 57)%nat.
Proof.
  destruct s as [|a r]; [done|]. intros _. cbn [all_digits]. destruct (_ && _) eqn:E; [|done]. intros _. exists a, r. split; [done|].
  apply andb_true_iff in E as [H1%Z.leb_le H2%Z.leb_le]. lia.
Qed.

Lemma pretty_pos (p : positive) : pretty (Z.pos p) = pretty_N_go (N.pos p) EmptyString.
Proof. done. Qed.

Lemma Atoi_pretty (n : Z) : 0 < n <= int64_max -> Atoi (pretty n) = Some n /\ exists a r, pretty n = String a r /\ (48 <= Ascii.nat_of_ascii a <= 57)%nat.
Proof.
  intros Hn. destruct n as [|p|p]; [lia| |lia]. rewrite pretty_pos.
  assert (all_digits (pretty_N_go (N.pos p) EmptyString) 0 = Some (Z.pos p)) as Hd by by rewrite all_digits_go.
  assert (pretty_N_go (N.pos p) EmptyString <> EmptyString) as Hne by (intros E; rewrite E in Hd; simpl in Hd; congruence).
  destruct (all_digits_head _ _ Hne Hd) as (a&r&E&Ha). rewrite E in *. split; [|by eauto].
  unfold Atoi. rewrite !bool_decide_false by lia. unfold digits_value. rewrite Hd. unfold int64_min, int64_max in *.
  rewrite (proj2 (Z.leb_le _ _)), (proj2 (Z.leb_le _ _)); [done|lia..].
Qed.

Lemma digit_not_blank a : (48 <= Ascii.nat_of_ascii a <= 57)%nat -> is_blank a = false.
Proof.
  intros H. unfold is_blank. apply orb_false_iff. split; [apply andb_false_iff; right; apply Nat.leb_gt; lia|apply Nat.eqb_neq; lia].
Qed.

(** A positive number and its unit are what the parser sees. *)
Lemma parse_counted (n : Z) c : 0 < n <= int64_max -> is_blank c = false -> (48 <= Ascii.nat_of_ascii c)%nat -> c <> Ascii.ascii_of_nat 48 ->
  let s := pretty n +:+ String c EmptyString in
  trim_space s = s /\ String.eqb s "" = false /\ String.eqb s "0" = false /\ counted (String c EmptyString) s = Some n.
Proof.
  intros Hn Hb Hc H0 s. destruct (Atoi_pretty n Hn) as (Hat&a&r&E&Ha).
  assert (s = String a (r +:+ String c EmptyString)) as Es by (unfold s; by rewrite E). split_and!.
  - unfold trim_space. rewrite Es. cbn [trim_left]. rewrite (digit_not_blank a Ha). rewrite <- Es. by apply trim_right_app.
  - by rewrite Es.
  - apply String.eqb_neq. intros Hs. apply (f_equal last_char) in Hs. unfold s in Hs. rewrite last_char_app in Hs by done.
    injection Hs as Hs. by apply H0; rewrite Hs.
  - unfold counted, s. rewrite trim_suffix_app, Hat. by rewrite (proj2 (Z.ltb_lt 0 n)) by lia.
Qed.

Lemma parse_months (n : Z) : 0 < n <= 3558 -> ParseRetentionPeriod (pretty n +:+ "m") = with_period (n * 30 * 24 * time_Hour).
Proof.
  intros Hn. destruct (parse_counted n (Ascii.ascii_of_nat 109)) as (Ht&E1&E2&Hc); [unfold int64_max; lia|done|vm_compute; lia|done|].
  change (String (Ascii.ascii_of_nat 109) EmptyString) with "m" in Ht, E1, E2, Hc.
  unfold ParseRetentionPeriod. rewrite E1, E2, Ht. cbn [orb]. rewrite trim_suffix_last, Hc by (rewrite ?last_char_app; done).
  rewrite bool_decide_true by done. unfold months_duration, time_Hour. rewrite (wrap64_id (n * 30)), (wrap64_id (n * 30 * 24)), wrap64_id
    by (unfold in_int64, int64_min, int64_max; lia). done.
Qed.

Lemma parse_days (n : Z) : 0 < n <= 106751 -> ParseRetentionPeriod (pretty n +:+ "d") = with_period (n * 24 * time_Hour).
Proof.
  intros Hn. destruct (parse_counted n (Ascii.ascii_of_nat 100)) as (Ht&E1&E2&Hc); [unfold int64_max; lia|done|vm_compute; lia|done|].
  change (String (Ascii.ascii_of_nat 100) EmptyString) with "d" in Ht, E1, E2, Hc.
  unfold ParseRetentionPeriod. rewrite E1, E2, Ht. cbn [orb].
  assert (counted "m" (pretty n +:+ "d") = None) as Hm by (unfold counted; by rewrite trim_suffix_last by (rewrite ?last_char_app; done)).
  rewrite Hm, Hc. destruct (bool_decide _); unfold days_duration, time_Hour; by rewrite (wrap64_id (n * 24)), wrap64_id
    by (unfold in_int64, int64_min, int64_max; lia).
Qed.

(** A period given in months or days is shown as it was given, and is
    that many months of 30 days or days, as long as it fits in a duration: 3558
    months, 106751 days.  A number of days is shown in months when it is a
    whole number of them. *)
Theorem period_roundtrip (n : Z) (Hn : 0 < n) :
  (n <= 3558 ->
     RetentionPeriod (ParseRetentionPeriod (pretty n +:+ "m")) = n * 30 * 24 * time_Hour /\
     RetentionPeriodHuman (ParseRetentionPeriod (pretty n +:+ "m")) = months_text n) /\
  (n <= 106751 ->
     RetentionPeriod (ParseRetentionPeriod (pretty n +:+ "d")) = n * 24 * time_Hour /\
     RetentionPeriodHuman (ParseRetentionPeriod (pretty n +:+ "d")) =
       if Z.rem n 30 =? 0 then months_text (Z.quot n 30) else days_text n).
Proof.
  assert (forall k, Z.quot (k * 24 * time_Hour) (24 * time_Hour) = k) as Hq.
  { intros k. unfold time_Hour. replace (k * 24 * 3600000000000) with (k * (24 * 3600000000000)) by lia. by apply Z.quot_mul. }
  split; intros Hmax; [rewrite parse_months by lia|rewrite parse_days by lia]; (split; [done|]);
    unfold RetentionPeriodHuman, with_period, whole_days; cbn [Enabled RetentionPeriod negb]; rewrite Hq; [|done].
  rewrite Z.rem_mul, Z.quot_mul by lia. done.
Qed.
End Period.
