(* ===== verification/RetentionRuns.v ===== *)
(** * Retention: witnesses and concrete runs

    The theorems of [RetentionSpec] and [RetentionHistory] at concrete
    databases, and runs in which the code deletes less, or more, than it
    says. *)
From stdpp Require Import pretty.
From S2P Require Import Prelude Prog Table Schema Messaging MessagingQueries Agents Retention RetentionSpec RetentionHistory.

Module RetentionRuns.
#[local] Existing Instance rowid_engine.

(** Seconds are the only unit of this clock; what it prints is not looked at. *)
#[local] Instance no_duration : GoDuration := { ParseDuration := fun _ => None; duration_string := fun _ => "" }.

(** A connection nobody else uses. *)
#[local] Instance own_connection : LastInsert.
Proof. refine {| last_insert_rowid := fun id => Ret id |}; done. Defined.

Definition day : Z := 86400.
Definition year_config : RetentionConfig := DefaultRetentionConfig.

Definition msg (id conv age : Z) (reply : option Z) (st : MsgStatus) : Message :=
  mkMessage id conv "alice" (Some "bob") None reply "hello" 5 st raw_empty_object None None (1000 * day - age * day) 0.

Definition upload (id : Z) (message : option Z) (hash : string) : Attachment := mkAttachment id hash "a.txt" 3 "text/plain" message "alice" 0.

(** Day 1000: two messages of the first days, with an attachment and a
    reaction, one being processed, and a recent one. *)
Definition old_db : db :=
  set_clock (1000 * day)
  (set_conversations (mkTable [mkConversation 1 "plan" "alice" None; mkConversation 2 "news" "alice" None] 3)
  (set_messages (mkTable [msg 1 1 900 None StatusPending; msg 2 1 800 (Some 1) StatusDone; msg 3 2 700 None StatusProcessing; msg 4 2 3 None StatusPending] 5)
  (set_attachments (mkTable [upload 1 (Some 1) "abcdef"; upload 2 (Some 4) "fedcba"] 3)
  (set_cas_files (<["ab/cd/abcdef" := "xyz"]> (<["fe/dc/fedcba" := "zyx"]> ∅))
  (set_message_reactions (mkTable [mkReaction 1 2 "bob" ReactionDone raw_empty_object 0] 2) empty_db))))).

Lemma old_db_ok : table_ok (messages old_db).
Proof.
  split; [by apply (bool_decide_unpack (NoDup (Msg_ID <$> rows (messages old_db))))|].
  intros m Hm. change (row_id m) with (Msg_ID m). repeat (apply elem_of_cons in Hm as [->|Hm]; [done|]). by apply elem_of_nil in Hm.
Qed.

Lemma has_message_b d id : existsb (fun m => Msg_ID m =? id) (rows (messages d)) = true -> has_message d id.
Proof. intros (m&Hm&E%Z.eqb_eq)%existsb_some. by exists m. Qed.
Lemma has_conversation_b d id : existsb (fun c => Conv_ID c =? id) (rows (conversations d)) = true -> has_conversation d id.
Proof. intros (m&Hm&E%Z.eqb_eq)%existsb_some. by exists m. Qed.

Lemma old_db_refs : refs_ok old_db.
Proof.
  split; intros *; try (by intros ?%elem_of_nil); try done; intros Hin;
    repeat (apply elem_of_cons in Hin as [->|Hin]); try (by apply elem_of_nil in Hin); simpl; try (intros [= <-]);
    first [done|by apply has_message_b|by apply has_conversation_b].
Qed.

Lemma delete_expired_effect_witness : table_ok (messages old_db) /\
  wp (deleteExpiredMessages year_config)
     (fun n d' => exists gone d1, removed gone n old_db d1 /\ (d' = d1 \/ d' = swept_if_free d1) /\
        forall m, m ∈ rows (messages old_db) -> Msg_ID m ∈ gone -> expired (expiry_cutoff year_config old_db) m = true) old_db.
Proof. split; [apply old_db_ok|apply (delete_expired_effect year_config old_db), old_db_ok]. Defined.

Lemma old_db_deletable : deletable (Msg_ID <$> select (expired (expiry_cutoff year_config old_db)) (messages old_db)) old_db.
Proof. right. split; [vm_compute; lia|by vm_compute]. Qed.

(** The two old messages go, and so does the conversation they leave empty. *)
Lemma delete_expired_complete_witness :
  (let '(n, d') := run_ok (deleteExpiredMessages year_config) old_db in
   messages d' = delete_rows (expired (expiry_cutoff year_config old_db)) (messages old_db) /\
   n = affected (expired (expiry_cutoff year_config old_db)) (messages old_db) /\
   forall m, m ∈ rows (messages old_db) -> expired (expiry_cutoff year_config old_db) m = true -> no_remains (Msg_ID m) d') /\
  (run_ok (deleteExpiredMessages year_config) old_db).1 = 2 /\
  (Conv_ID <$> rows (conversations (run_ok (deleteExpiredMessages year_config) old_db).2)) = [2].
Proof.
  split; [exact (delete_expired_complete year_config old_db old_db_ok old_db_deletable)|]. split; by vm_compute.
Defined.

Lemma purge_effect_witness : table_ok (messages old_db) /\
  wp (PurgeMessages (30 * 24 * time_Hour) "alice" "")
     (fun r d' => match r with
        | Ok c => let p := purged (purge_cutoff (30 * 24 * time_Hour) old_db) "alice" "" old_db in
                  (0 < 30 * 24 * time_Hour \/ "alice" <> "" \/ "" <> "") /\ deleted_messages c = affected p (messages old_db) /\
                  (affected p (messages old_db) = 0 /\ d' = old_db \/
                   exists ids f, (forall m, m ∈ rows (messages old_db) -> message_in ids m = p m) /\
                     d' = set_cas_files f (purge_outcome ids old_db) /\ f ⊆ cas_files old_db)
        | Err _ => d' = old_db
        | Panic _ => False
        end) old_db.
Proof. split; [apply old_db_ok|apply (purge_effect (30 * 24 * time_Hour) "alice" "" old_db), old_db_ok]. Defined.

Lemma retention_history_witness :
  let cs := [CallCleanup year_config; CallCapture 7 "bob"; CallPurge (30 * 24 * time_Hour) "" ""] in
  let r := run_schedule [(1%nat, false); (0%nat, false); (1%nat, false); (0%nat, false); (2%nat, false); (0%nat, false); (2%nat, false)] (retention_prog <$> cs) old_db in
  refs_ok r.2 /\ letters_later old_db r.2.
Proof.
  intros cs r. apply (retention_history cs old_db r.1 r.2 old_db_refs).
  rewrite <- surjective_pairing. apply run_schedule_reachable.
Defined.

Lemma period_roundtrip_witness : 0 < 12 /\ 12 <= 3558 /\
  RetentionPeriodHuman (ParseRetentionPeriod (pretty 12 +:+ "m")) = months_text 12 /\ months_text 12 = "12 months".
Proof.
  assert (0 < 12) as H1 by lia. assert (12 <= 3558) as H2 by lia.
  split_and!; [exact H1|exact H2|exact (proj2 (proj1 (period_roundtrip 12 H1) H2))|by vm_compute].
Defined.

(** ** Where the code does something else *)

(** A recent reply to an old message: the batch the old message is in cannot
    be deleted, so nothing is, at no cleanup. *)
Definition replied_db : db :=
  set_messages (mkTable [msg 1 1 900 None StatusDone; msg 2 2 800 None StatusDone; msg 3 1 3 (Some 1) StatusPending] 4) old_db.

Theorem reply_blocks_batch :
  affected (expired (expiry_cutoff year_config replied_db)) (messages replied_db) = 2 /\
  (run_ok (deleteExpiredMessages year_config) replied_db).1 = 0 /\
  messages (run_ok (deleteExpiredMessages year_config) replied_db).2 = messages replied_db.
Proof. split_and!; by vm_compute. Qed.

(** A purge in the same situation loses the attachments, keeps the messages
    and reports them deleted. *)
Theorem purge_reports_kept :
  let '(r, d') := run_ok (PurgeMessages (365 * 24 * time_Hour) "" "") replied_db in
  (exists c, r = Ok c /\ deleted_messages c = 2 /\ deleted_attachments c = 1) /\
  messages d' = messages replied_db /\ length (rows (attachments d')) = 1%nat.
Proof. vm_compute. split_and!; [by eexists|done..]. Qed.

(** The files are sought where the content store does not put them: after the
    cleanup the file is still there, and no row leads to it. *)
Theorem file_left_behind :
  let d' := (run_ok (deleteExpiredMessages year_config) old_db).2 in
  cas_files d' !! "ab/cd/abcdef" = Some "xyz" /\ forall a, a ∈ rows (attachments d') -> Hash a <> "abcdef".
Proof. vm_compute. split; [done|]. intros a [->|H%elem_of_nil]%elem_of_cons; done. Qed.

(** One conversation that somebody has read and that is empty now: no empty
    conversation is ever cleaned again. *)
Definition read_db : db := set_inbox_state (mkTable [mkInboxState 1 "bob" 1 2] 2) old_db.
Theorem read_pointer_blocks_sweep :
  let '(n, d') := run_ok (deleteExpiredMessages year_config) read_db in
  n = 2 /\ (Conv_ID <$> rows (conversations d')) = [1; 2] /\ existsb (orphan d') (rows (conversations d')) = true.
Proof. vm_compute. split_and!; done. Qed.

(** A period that does not fit in a duration wraps: 4000 months are negative,
    so that every message that is not being processed is expired at once. *)
Theorem period_wraps :
  let cfg := ParseRetentionPeriod "4000m" in
  Enabled cfg = true /\ RetentionPeriod cfg < 0 /\
  (run_ok (deleteExpiredMessages cfg) old_db).1 = 3.
Proof. vm_compute. split_and!; done. Qed.

(** The warning goes to a conversation of its own, the check for an earlier
    warning looks in the conversation that is warned of: the next cleanup
    warns again, however short the interval is. *)
Definition aging_db : db := set_messages (mkTable [msg 1 1 350 None StatusPending] 2) old_db.
Theorem warned_again :
  let '(n, d') := run_ok (sendRetentionWarnings year_config) aging_db in
  n = 2 /\ (run_ok (sendRetentionWarnings year_config) d').1 = 2.
Proof. vm_compute. split; done. Qed.

(** A message claimed after the cleanup selected it is deleted while it is
    being processed. *)
Definition claim_it : prog db unit :=
  Stmt (fun d => set_messages (update_rows (by_id 1) (fun m => mkMessage (Msg_ID m) (Msg_ConversationID m) (FromAgent m) (to_agent m)
          (Msg_ChannelID m) (ReplyTo m) (Body m) (Priority m) StatusProcessing (Metadata m) (Some "bob") (Some 0) (Msg_CreatedAt m) 0) (messages d)) d)
       (fun _ => Ret tt) (Ret tt).
Theorem claimed_deleted :
  let ps := [drop_answer (deleteExpiredMessages year_config); claim_it] in
  let old := set_messages (mkTable [msg 1 1 900 None StatusPending] 2) old_db in
  let mid := run_schedule [(0%nat, false); (0%nat, false); (1%nat, false)] ps old in
  (Status <$> rows (messages mid.2)) = [StatusProcessing] /\
  (Status <$> rows (messages (run_schedule [(0%nat, false); (0%nat, false)] mid.1 mid.2).2)) = [].
Proof. vm_compute. split; done. Qed.

(** Memory links and pins name messages without a foreign key: the cleanup
    that deletes the messages leaves them, naming messages that are gone. *)
Definition linked_db : db :=
  set_memory_links (mkTable [mkLink 1 1 4 "related" "1" "alice" (JObj []) 0] 2)
    (set_memory_pins {[ ("1", 1) := mkPin "1" "" 0 ]} old_db).
Theorem links_left_behind :
  let d' := (run_ok (deleteExpiredMessages year_config) linked_db).2 in
  memory_links d' = memory_links linked_db /\ memory_pins d' = memory_pins linked_db /\
  has_message linked_db 1 /\ ~ has_message d' 1.
Proof.
  cbv zeta. split_and!; [by vm_compute|by vm_compute|by apply has_message_b|].
  intros (m&Hm&E). revert m Hm E. set (l := rows _). assert (l = [msg 3 2 700 None StatusProcessing; msg 4 2 3 None StatusPending]) as ->
    by (by vm_compute). intros m Hm. repeat (apply elem_of_cons in Hm as [->|Hm]; [done|]). by apply elem_of_nil in Hm.
Qed.
End RetentionRuns.
