(* ===== verification/Channels.v ===== *)
(** * Channels (internal/channels: validate.go, store.go, service.go;
      internal/messaging/mentions.go; cmd/synapbus/goals_adapter.go)

    Named channels with their members and invitations: creation, joining (by
    invitation when the channel is private), leaving, kicking, deletion,
    listing, settings, broadcast with @mentions, and the per-owner my-agents
    channel.  Foreign keys are on in production, so inserting a membership of
    an absent channel fails and deleting a channel that messages,
    conversations or auction tasks still name fails. *)
From stdpp Require Import pretty.
From S2P Require Import Prelude Float64 Prog Table Schema Messaging MessagingQueries Goals.

(** ** Names *)
Definition is_upper (a : Ascii.ascii) : bool :=
  let n := Ascii.nat_of_ascii a in (65 <=? n)%nat && (n <=? 90)%nat.
Definition alnum_char (a : Ascii.ascii) : bool := is_upper a || is_alnum a.

(** [a-zA-Z0-9_-] *)
Definition name_char (a : Ascii.ascii) : bool :=
  alnum_char a || Ascii.eqb a (Ascii.ascii_of_nat 95) || Ascii.eqb a dash.

Fixpoint all_chars (p : Ascii.ascii -> bool) (s : string) : bool :=
  match s with EmptyString => true | String a r => p a && all_chars p r end.

(** [^[a-zA-Z0-9][a-zA-Z0-9_-]*$] *)
Definition channelNameRegex (s : string) : bool :=
  match s with EmptyString => false | String a r => alnum_char a && all_chars name_char r end.

Definition ValidateChannelName (name : string) : outcome error unit :=
  if str_empty name then Err ErrInvalidChannelName
  else if (64 <? String.length name)%nat then Err ErrInvalidChannelName
  else if negb (channelNameRegex name) then Err ErrInvalidChannelName
  else Ok tt.

Definition is_ascii (a : Ascii.ascii) : bool := (Ascii.nat_of_ascii a <? 128)%nat.

(** [strings.ToLower]: on ASCII text it folds the capitals; the Unicode tables
    are a parameter. *)
Class GoUnicode := {
  ToLower : string -> string;
  ToLower_ascii : forall s, all_chars is_ascii s = true -> ToLower s = sql_lower s
}.

Definition NormalizeChannelName `{!GoUnicode} (name : string) : string := ToLower name.

(** ** Mentions

    [(?:^|[^a-zA-Z0-9.@])@([a-zA-Z0-9][a-zA-Z0-9_-]{0,63})], all matches, left
    to right and without overlap. *)
Definition at_sign : Ascii.ascii := Ascii.ascii_of_nat 64.

(** [[^a-zA-Z0-9.@]] *)
Definition boundary_char (a : Ascii.ascii) : bool :=
  negb (alnum_char a || Ascii.eqb a (Ascii.ascii_of_nat 46) || Ascii.eqb a at_sign).

(** The longest prefix of at most [n] name characters. *)
Fixpoint take_name (n : nat) (s : string) : string :=
  match n, s with
  | S n', String a r => if name_char a then String a (take_name n' r) else EmptyString
  | _, _ => EmptyString
  end.

Definition name_at (s : string) : option string :=
  match s with
  | String a r => if alnum_char a then Some (String a (take_name 63 r)) else None
  | EmptyString => None
  end.

(** [ok]: the text begins here, or the character before is a boundary that no
    earlier match consumed; [skip]: characters the last match consumed. *)
Fixpoint find_mentions (ok : bool) (s : string) (skip : nat) : list string :=
  match s with
  | EmptyString => []
  | String a r =>
      match skip with
      | S k => find_mentions false r k
      | O => match (if ok && Ascii.eqb a at_sign then name_at r else None) with
             | Some name => name :: find_mentions false r (String.length name)
             | None => find_mentions (boundary_char a) r O
             end
      end
  end.

(** The loop with its [seen] map: the first of equal names stays. *)
Fixpoint dedup_from (seen : list string) (l : list string) : list string :=
  match l with
  | [] => []
  | x :: r => if bool_decide (x ∈ seen) then dedup_from seen r else x :: dedup_from (x :: seen) r
  end.

Definition ParseMentions (body : string) : list string :=
  dedup_from [] (sql_lower <$> find_mentions true body O).

(** ** The store *)
Definition default_settings : ChannelSettings :=
  mkChannelSettings false false "24h" "72h" (f64_lit 8 10) (f64_lit 6 10).

(** The struct CreateChannel fills before the INSERT. *)
Definition channel_row (ch : Channel) (now id : Z) : Channel :=
  mkChannel id (Ch_Name ch) (Ch_Description ch) (Ch_Topic ch) (Ch_Type ch) (IsPrivate ch) (IsSystem ch)
    (Ch_CreatedBy ch) default_settings now now.

Definition with_channel_id (id : Z) (ch : Channel) : Channel :=
  mkChannel id (Ch_Name ch) (Ch_Description ch) (Ch_Topic ch) (Ch_Type ch) (IsPrivate ch) (IsSystem ch)
    (Ch_CreatedBy ch) (Ch_Settings ch) (Ch_CreatedAt ch) (Ch_UpdatedAt ch).

Definition named (name : string) (c : Channel) : bool := String.eqb (Ch_Name c) name.
Definition name_taken (d : db) (name : string) : bool := negb (affected (named name) (channels d) =? 0).

(** The CHECK on the type. *)
Definition channel_type_allowed (t : ChannelType) : bool :=
  match t with TypeOther _ => false | _ => true end.

Definition channel_insertable (ch : Channel) (d : db) : bool :=
  negb (name_taken d (Ch_Name ch)) && channel_type_allowed (Ch_Type ch).

(** SQLite checks the CHECK constraints of a row before its UNIQUE ones. *)
Definition store_CreateChannel (ch : Channel) : M Channel :=
  exec_o EDb
    (fun d => if channel_insertable ch d
              then set_channels (insert_row (channel_row ch (clock d)) (channels d)) d else d)
    (fun d => if negb (channel_type_allowed (Ch_Type ch)) then Err EDb
              else if name_taken d (Ch_Name ch) then Err ErrChannelNameConflict
              else Ok (with_channel_id (next_id (channels d)) ch)).

Definition store_GetChannel (id : Z) : M Channel :=
  query_o EDb (fun d => match find_id id (channels d) with
                        | Some c => Ok c
                        | None => Err ErrChannelNotFound
                        end).

(** LOWER on both sides, SQLite's ASCII folding. *)
Definition store_GetChannelByName (name : string) : M Channel :=
  query_o EDb (fun d =>
    match find_row (fun c => String.eqb (sql_lower (Ch_Name c)) (sql_lower name)) (channels d) with
    | Some c => Ok c
    | None => Err ErrChannelNotFound
    end).

Definition member_key (channelID : Z) (agentName : string) (m : Membership) : bool :=
  (Mem_ChannelID m =? channelID) && String.eqb (Mem_AgentName m) agentName.
Definition invite_key (channelID : Z) (agentName : string) (i : ChannelInvite) : bool :=
  (Inv_ChannelID i =? channelID) && String.eqb (Inv_AgentName i) agentName.
Definition pending_key (channelID : Z) (agentName : string) (i : ChannelInvite) : bool :=
  invite_key channelID agentName i && bool_decide (Inv_Status i = InviteStatusPending).

Definition has_member (d : db) (channelID : Z) (agentName : string) : bool :=
  negb (affected (member_key channelID agentName) (channel_members d) =? 0).
Definition has_pending (d : db) (channelID : Z) (agentName : string) : bool :=
  negb (affected (pending_key channelID agentName) (channel_invites d) =? 0).

(** Whether the foreign key [channel_id] names a channel. *)
Definition channel_exists (d : db) (channelID : Z) : bool :=
  negb (affected (by_id channelID) (channels d) =? 0).

Definition visible_to (d : db) (agentName : string) (c : Channel) : bool :=
  negb (IsPrivate c) || has_member d (Ch_ID c) agentName || has_pending d (Ch_ID c) agentName.

Definition by_name (a b : Channel) : Prop := str_le (Ch_Name a) (Ch_Name b).
#[export] Instance by_name_dec a b : Decision (by_name a b).
Proof. unfold by_name. apply _. Defined.

Definition with_meta (description topic : string) (now : Z) (c : Channel) : Channel :=
  mkChannel (Ch_ID c) (Ch_Name c) description topic (Ch_Type c) (IsPrivate c) (IsSystem c)
    (Ch_CreatedBy c) (Ch_Settings c) (Ch_CreatedAt c) now.

Definition with_settings (s : ChannelSettings) (now : Z) (c : Channel) : Channel :=
  mkChannel (Ch_ID c) (Ch_Name c) (Ch_Description c) (Ch_Topic c) (Ch_Type c) (IsPrivate c) (IsSystem c)
    (Ch_CreatedBy c) s (Ch_CreatedAt c) now.

Definition update_channel (id : Z) (f : Z -> Channel -> Channel) : M unit :=
  exec_o EDb
    (fun d => set_channels (update_rows (by_id id) (f (clock d)) (channels d)) d)
    (fun d => if affected (by_id id) (channels d) =? 0 then Err ErrChannelNotFound else Ok tt).

Definition store_UpdateChannel (ch : Channel) : M unit :=
  update_channel (Ch_ID ch) (with_meta (Ch_Description ch) (Ch_Topic ch)).

Definition store_UpdateChannelSettings (id : Z) (s : ChannelSettings) : M unit :=
  update_channel id (with_settings s).

(** A row of messages, conversations or tasks holds the channel back. *)
Definition channel_referenced (d : db) (id : Z) : bool :=
  existsb (fun m => opt_is (Msg_ChannelID m) id) (rows (messages d)) ||
  existsb (fun c => opt_is (Conv_ChannelID c) id) (rows (conversations d)) ||
  existsb (fun t => Task_ChannelID t =? id) (rows (tasks d)).

(** ON DELETE CASCADE: members, invites, goals and the tasks of those goals. *)
Definition delete_cascade (id : Z) (d : db) : db :=
  let gone := Goal_ID <$> select (fun g => Goal_ChannelID g =? id) (goals d) in
  set_channels (delete_rows (by_id id) (channels d))
  (set_channel_members (delete_rows (fun m => Mem_ChannelID m =? id) (channel_members d))
  (set_channel_invites (delete_rows (fun i => Inv_ChannelID i =? id) (channel_invites d))
  (set_goal_tasks (delete_rows (fun t => bool_decide (GT_GoalID t ∈ gone)) (goal_tasks d))
  (set_goals (delete_rows (fun g => Goal_ChannelID g =? id) (goals d)) d)))).

Definition store_DeleteChannel (id : Z) : M unit :=
  exec_o EDb
    (fun d => if channel_referenced d id then d else delete_cascade id d)
    (fun d => if affected (by_id id) (channels d) =? 0 then Err ErrChannelNotFound
              else if channel_referenced d id then Err EDb else Ok tt).

Definition member_role_allowed (r : MemberRole) : bool :=
  match r with RoleOther _ => false | _ => true end.

(** A duplicate reads as success; the CHECK and the foreign key do not. *)
Definition AddMember (channelID : Z) (agentName : string) (role : MemberRole) : M unit :=
  exec_o EDb
    (fun d => if member_role_allowed role && negb (has_member d channelID agentName) && channel_exists d channelID
              then set_channel_members (insert_row (fun id => mkMembership id channelID agentName role (clock d))
                     (channel_members d)) d
              else d)
    (fun d => if negb (member_role_allowed role) then Err EDb
              else if has_member d channelID agentName then Ok tt
              else if channel_exists d channelID then Ok tt else Err EDb).

Definition RemoveMember (channelID : Z) (agentName : string) : M unit :=
  exec_o EDb
    (fun d => set_channel_members (delete_rows (member_key channelID agentName) (channel_members d)) d)
    (fun d => if has_member d channelID agentName then Ok tt else Err ErrNotChannelMember).

Definition GetMember (channelID : Z) (agentName : string) : M Membership :=
  query_o EDb (fun d => match find_row (member_key channelID agentName) (channel_members d) with
                        | Some m => Ok m
                        | None => Err ErrNotChannelMember
                        end).

Definition joined_first (a b : Membership) : Prop := JoinedAt a <= JoinedAt b.
#[export] Instance joined_first_dec a b : Decision (joined_first a b).
Proof. unfold joined_first. apply _. Defined.

Definition store_IsMember (channelID : Z) (agentName : string) : M bool :=
  query EDb (fun d => has_member d channelID agentName).

Definition CountMembers (channelID : Z) : M Z :=
  query EDb (fun d => affected (fun m => Mem_ChannelID m =? channelID) (channel_members d)).

Definition with_invite (status : InviteStatus) (invitedBy : string) (i : ChannelInvite) : ChannelInvite :=
  mkChannelInvite (Inv_ID i) (Inv_ChannelID i) (Inv_AgentName i) invitedBy (Inv_CreatedAt i) status.

(** INSERT ... ON CONFLICT(channel_id, agent_name) DO UPDATE. *)
Definition upsert_invite (channelID : Z) (agentName invitedBy : string) (now : Z) (t : table ChannelInvite)
    : table ChannelInvite :=
  if affected (invite_key channelID agentName) t =? 0
  then insert_row (fun id => mkChannelInvite id channelID agentName invitedBy now InviteStatusPending) t
  else update_rows (invite_key channelID agentName) (with_invite InviteStatusPending invitedBy) t.

Definition CreateInvite (channelID : Z) (agentName invitedBy : string) : M unit :=
  exec_o EDb
    (fun d => if channel_exists d channelID
              then set_channel_invites (upsert_invite channelID agentName invitedBy (clock d) (channel_invites d)) d
              else d)
    (fun d => if channel_exists d channelID then Ok tt else Err EDb).

Definition GetInvite (channelID : Z) (agentName : string) : M ChannelInvite :=
  query_o EDb (fun d => match find_row (invite_key channelID agentName) (channel_invites d) with
                        | Some i => Ok i
                        | None => Err ErrNotInvited
                        end).

Definition HasPendingInvite (channelID : Z) (agentName : string) : M bool :=
  query EDb (fun d => has_pending d channelID agentName).

Definition AcceptInvite (channelID : Z) (agentName : string) : M unit :=
  exec_o EDb
    (fun d => set_channel_invites (update_rows (pending_key channelID agentName)
                (fun i => with_invite InviteStatusAccepted (InvitedBy i) i) (channel_invites d)) d)
    (fun d => if has_pending d channelID agentName then Ok tt else Err ErrNotInvited).

Record ChannelSummary := mkChannelSummary {
  cs_ID : Z; cs_Name : string; UnreadCount : Z; LastMessageID : Z; LastMessageAt : option Z
}.

(** The three correlated subqueries of GetChannelSummaries. *)
Definition read_up_to (d : db) (agentName : string) (conv : Z) : Z :=
  default 0 (maxZ (LastReadMessageID <$> select (fun s => String.eqb (Inbox_AgentName s) agentName &&
                                            (Inbox_ConversationID s =? conv)) (inbox_state d))).

Definition channel_summary (d : db) (agentName : string) (c : Channel) : ChannelSummary :=
  let posts := select (fun m => opt_is (Msg_ChannelID m) (Ch_ID c)) (messages d) in
  mkChannelSummary (Ch_ID c) (Ch_Name c)
    (count_if (fun m => (read_up_to d agentName (Msg_ConversationID m) <? Msg_ID m) &&
                        negb (String.eqb (FromAgent m) agentName)) posts)
    (default 0 (maxZ (Msg_ID <$> posts)))
    (maxZ (Msg_CreatedAt <$> posts)).

Section Store.
Context {HEng : Engine}.

Definition store_ListChannels (agentName : string) : M (list Channel) :=
  query EDb (fun d => select_by by_name (visible_to d agentName) (channels d)).

Definition CountChannels (agentName : string) : M Z :=
  query EDb (fun d => affected (visible_to d agentName) (channels d)).

Definition GetMembers (channelID : Z) : M (list Membership) :=
  query EDb (fun d => select_by joined_first (fun m => Mem_ChannelID m =? channelID) (channel_members d)).

(** The JOIN keeps the channels the agent belongs to. *)
Definition GetChannelSummaries (agentName : string) : M (list ChannelSummary) :=
  query EDb (fun d => channel_summary d agentName <$>
    select_by by_name (fun c => has_member d (Ch_ID c) agentName) (channels d)).
End Store.

(** ** The service *)
Record CreateChannelRequest := mkCreateChannelRequest {
  req_Name : string;
  req_Description : string;
  req_Topic : string;
  req_Type : ChannelType;              (** the empty string is [TypeOther ""] *)
  req_IsPrivate : bool;
  req_IsSystem : bool;
  req_CreatedBy : string
}.

Record ChannelWithCount := mkChannelWithCount { cc_Channel : Channel; MemberCount : Z }.
Record PaginatedChannels := mkPaginatedChannels {
  pc_Channels : list ChannelWithCount; pc_Total : Z; pc_Offset : Z; pc_Limit : Z
}.

(** The in-memory paging ListChannelsPaginated and ListTasksPaginated share:
    [start + limit] is a 64-bit sum, and slicing with [end < start] panics. *)
Definition slice_page {E A} (l : list A) (limit offset : Z) : outcome E (list A) :=
  let total := Z.of_nat (length l) in
  let start := if total <? offset then total else offset in
  let end_ := wrap64 (start + limit) in
  let end_ := if total <? end_ then total else end_ in
  if end_ <? start then Panic "slice bounds out of range"
  else Ok (take (Z.to_nat (end_ - start)) (drop (Z.to_nat start) l)).

Section Service.
Context {HEng : Engine} {HJson : GoJson} {HLink : AttachmentLinker} {HLow : GoUnicode}.

Definition requested_channel (req : CreateChannelRequest) : Channel :=
  mkChannel 0 (NormalizeChannelName (req_Name req)) (req_Description req) (req_Topic req)
    (if bool_decide (req_Type req = TypeOther "") then TypeStandard else req_Type req)
    (req_IsPrivate req) (req_IsSystem req) (req_CreatedBy req)
    (mkChannelSettings false false "" "" f64_zero f64_zero) zero_time zero_time.

Definition CreateChannel (req : CreateChannelRequest) : M Channel :=
  match ValidateChannelName (req_Name req) with
  | Err e => Ret (Err e)
  | Panic w => Ret (Panic w)
  | Ok _ =>
      let? ch := store_CreateChannel (requested_channel req) in
      let? _ := AddMember (Ch_ID ch) (req_CreatedBy req) RoleOwner in
      Ret (Ok ch)
  end.

Definition JoinChannel (channelID : Z) (agentName : string) : M unit :=
  let? ch := store_GetChannel channelID in
  let? isMember := store_IsMember channelID agentName in
  if isMember then Ret (Ok tt)
  else
    let? _ := (if IsPrivate ch
               then let? hasInvite := HasPendingInvite channelID agentName in
                    if negb hasInvite then Ret (Err ErrNotInvited)
                    else AcceptInvite channelID agentName
               else Ret (Ok tt)) in
    AddMember channelID agentName RoleMember.

Definition LeaveChannel (channelID : Z) (agentName : string) : M unit :=
  let? ch := store_GetChannel channelID in
  if IsSystem ch then Ret (Err ErrSystemChannel)
  else
    let? member := GetMember channelID agentName in
    if bool_decide (Mem_Role member = RoleOwner) then Ret (Err ErrOwnerCannotLeave)
    else RemoveMember channelID agentName.

Definition DeleteChannel (channelID : Z) : M unit :=
  let? ch := store_GetChannel channelID in
  if IsSystem ch then Ret (Err ErrSystemChannel) else store_DeleteChannel channelID.

(** "Verify ... is the owner", the guard four operations share. *)
Definition require_owner (channelID : Z) (agentName : string) : M unit :=
  let? member := GetMember channelID agentName in
  if negb (bool_decide (Mem_Role member = RoleOwner)) then Ret (Err ErrNotChannelOwner) else Ret (Ok tt).

Definition InviteToChannel (channelID : Z) (agentName inviterAgent : string) : M unit :=
  let? ch := store_GetChannel channelID in
  let? _ := require_owner channelID inviterAgent in
  let? isMember := store_IsMember channelID agentName in
  if isMember then Ret (Ok tt) else CreateInvite channelID agentName inviterAgent.

Definition KickFromChannel (channelID : Z) (agentName kickerAgent : string) : M unit :=
  let? ch := store_GetChannel channelID in
  let? _ := require_owner channelID kickerAgent in
  if String.eqb agentName kickerAgent then Ret (Err EKickSelf)
  else RemoveMember channelID agentName.

(** The loop that counts the members of each listed channel. *)
Fixpoint count_each (chs : list Channel) : M (list ChannelWithCount) :=
  match chs with
  | [] => Ret (Ok [])
  | ch :: rest =>
      let? count := CountMembers (Ch_ID ch) in
      let? result := count_each rest in
      Ret (Ok (mkChannelWithCount ch count :: result))
  end.

Definition ListChannels (agentName : string) : M (list ChannelWithCount) :=
  let? chList := store_ListChannels agentName in count_each chList.

Definition ListChannelsPaginated (agentName : string) (opt_limit opt_offset : Z) : M PaginatedChannels :=
  let? allChannels := store_ListChannels agentName in
  let limit := default_limit 50 opt_limit in
  let offset := default_offset opt_offset in
  match slice_page allChannels limit offset with
  | Ok p =>
      let? result := count_each p in
      Ret (Ok (mkPaginatedChannels result (Z.of_nat (length allChannels)) offset limit))
  | Err e => Ret (Err e)
  | Panic w => Ret (Panic w)
  end.

Definition GetChannel (id : Z) : M Channel := store_GetChannel id.
Definition IsMember (channelID : Z) (agentName : string) : M bool := store_IsMember channelID agentName.
Definition GetChannelByName (name : string) : M Channel := store_GetChannelByName (NormalizeChannelName name).

Definition UpdateChannel (channelID : Z) (description topic : option string) (agentName : string) : M Channel :=
  let? ch := store_GetChannel channelID in
  let? _ := require_owner channelID agentName in
  let? _ := store_UpdateChannel (with_meta (default (Ch_Description ch) description)
              (default (Ch_Topic ch) topic) (Ch_UpdatedAt ch) ch) in
  store_GetChannel channelID.

Definition UpdateChannelSettings (channelID : Z) (s : ChannelSettings) : M Channel :=
  let? _ := store_UpdateChannelSettings channelID s in store_GetChannel channelID.

(** *** Broadcast *)

(** Mentions of members other than the sender, in order of first mention. *)
Definition mentioned_members (fromAgent body : string) (members : list Membership) : list string :=
  filter (fun name => name <> fromAgent /\ name ∈ (Mem_AgentName <$> members)) (ParseMentions body).

Definition json_string (s : string) : json := JStr (utf8_coerce s).

(** The metadata of the channel post, keys sorted as [json.Marshal] writes
    them; user metadata that is not JSON makes Marshal fail, and the ignored
    error leaves the empty text. *)
Definition channel_meta (chName : string) (metadata : rawjson) (mentioned : list string) : rawjson :=
  let name := [("channel_name", json_string chName)] in
  let agents_ := match mentioned with
                 | [] => []
                 | _ => [("mentioned_agents", JArr (json_string <$> mentioned))]
                 end in
  match metadata with
  | RawEmpty => RawJson (JObj (name ++ agents_))
  | RawJson v => RawJson (JObj (name ++ agents_ ++ [("user_metadata", v)]))
  | RawInvalid _ => RawEmpty
  end.

Definition inbox_meta (channelID : Z) (chName : string) (postID : Z) : rawjson :=
  RawJson (JObj [("channel_id", JNum (pretty channelID)); ("channel_message_id", JNum (pretty postID));
                 ("channel_name", json_string chName); ("mention", JBool true)]).

Definition post_options (ch : Channel) (channelID priority : Z) (metadata : rawjson) (replyTo : option Z)
    (attachments : list string) : SendOptions :=
  mkSendOptions ("channel:" +:+ Ch_Name ch) priority metadata (Some channelID) None replyTo attachments.

Definition notice_options (ch : Channel) (priority : Z) (metadata : rawjson) : SendOptions :=
  mkSendOptions ("channel:" +:+ Ch_Name ch) priority metadata None None None [].

(** "Deliver inbox notifications only to @mentioned members"; a failure is
    logged and skipped. *)
Definition notify_mentioned (ch : Channel) (channelID : Z) (fromAgent body : string) (priority postID : Z)
    (mentioned : list string) (members : list Membership) : prog db unit :=
  for_each members (fun m =>
    if String.eqb (Mem_AgentName m) fromAgent || negb (bool_decide (Mem_AgentName m ∈ mentioned)) then Ret tt
    else let! _ := SendMessage fromAgent (Mem_AgentName m) body
                     (notice_options ch priority (inbox_meta channelID (Ch_Name ch) postID)) in
         Ret tt).

(** "Verify sender is a member; auto-join public channels on first send." *)
Definition ensure_sender (ch : Channel) (channelID : Z) (fromAgent : string) : M unit :=
  let? isMember := store_IsMember channelID fromAgent in
  if isMember then Ret (Ok tt)
  else if IsPrivate ch then Ret (Err ErrNotChannelMember)
  else JoinChannel channelID fromAgent.

Definition BroadcastMessage (channelID : Z) (fromAgent body : string) (priority : Z) (metadata : rawjson)
    (replyTo : option Z) (attachments : list string) : M (list Message) :=
  let? ch := store_GetChannel channelID in
  let? _ := ensure_sender ch channelID fromAgent in
  let? members := GetMembers channelID in
  let mentioned := mentioned_members fromAgent body members in
  let? channelMsg := SendMessage fromAgent "" body
    (post_options ch channelID priority (channel_meta (Ch_Name ch) metadata mentioned) replyTo attachments) in
  let! _ := notify_mentioned ch channelID fromAgent body priority (Msg_ID channelMsg) mentioned members in
  Ret (Ok [channelMsg]).

(** *** My-agents channels *)
Definition MyAgentsChannelName (username : string) : string :=
  NormalizeChannelName ("my-agents-" +:+ username).

Definition my_agents_request (username humanAgentName : string) : CreateChannelRequest :=
  mkCreateChannelRequest (MyAgentsChannelName username)
    ("Private command channel for all agents owned by " +:+ username) "" TypeStandard true true humanAgentName.

(** AddMember unless already a member. *)
Definition ensure_member (channelID : Z) (agentName : string) (role : MemberRole) : M unit :=
  let? isMember := store_IsMember channelID agentName in
  if isMember then Ret (Ok tt) else AddMember channelID agentName role.

Definition EnsureMyAgentsChannel (username humanAgentName : string) : M unit :=
  let! r := store_GetChannelByName (MyAgentsChannelName username) in
  match r with
  | Ok ch => ensure_member (Ch_ID ch) humanAgentName RoleOwner
  | Err ErrChannelNotFound =>
      let! c := CreateChannel (my_agents_request username humanAgentName) in
      match c with
      | Ok _ => Ret (Ok tt)
      | Err ErrChannelNameConflict => Ret (Ok tt)
      | Err e => Ret (Err e)
      | Panic w => Ret (Panic w)
      end
  | Err e => Ret (Err e)
  | Panic w => Ret (Panic w)
  end.

Definition JoinMyAgentsChannel (username agentName : string) : M unit :=
  let! r := store_GetChannelByName (MyAgentsChannelName username) in
  match r with
  | Ok ch => ensure_member (Ch_ID ch) agentName RoleMember
  | Err ErrChannelNotFound => Ret (Ok tt)
  | Err e => Ret (Err e)
  | Panic w => Ret (Panic w)
  end.

(** *** The channel of a goal (cmd/synapbus/goals_adapter.go) *)
Definition goal_channel_request (slug title ownerUsername : string) : CreateChannelRequest :=
  mkCreateChannelRequest ("goal-" +:+ slug) ("Goal: " +:+ title) title TypeBlackboard true true ownerUsername.

Definition svc_CreateGoalChannel (slug title description ownerUsername : string) : M Z :=
  let? ch := CreateChannel (goal_channel_request slug title ownerUsername) in Ret (Ok (Ch_ID ch)).

(** What goals rely on holds of the real channel service. *)
#[export] Instance svcGoalChannelCreator : ChannelCreator.
Proof.
  refine {| CreateGoalChannel := svc_CreateGoalChannel |}.
  intros slug title description owner. apply within_bind_ok; [|done].
  unfold CreateChannel. destruct (ValidateChannelName _) as [[]|e|w]; [|done|done].
  apply within_bind_ok.
  - simpl. split; [|done]. intros d. split; [by destruct (channel_insertable _ d)|done].
  - intros ch. apply within_bind_ok; [|done]. simpl. split; [|done].
    intros d. split; [|done]. by destruct (_ && channel_exists d (Ch_ID ch)).
Defined.
End Service.
