(* ===== verification/Auction.v ===== *)
(** * Task auctions (internal/channels: task_types.go, task_store.go,
      swarm_service.go)

    Tasks posted on auction channels, the bids on them, acceptance,
    completion, and the batched expiry of open tasks past their deadline. *)
From S2P Require Import Prelude Prog Table Schema Messaging Channels.

(** ** Status values *)
Definition task_status_text (s : TaskStatus) : string :=
  match s with
  | TaskStatusOpen => "open" | TaskStatusAssigned => "assigned"
  | TaskStatusCompleted => "completed" | TaskStatusCancelled => "cancelled"
  end.
Definition bid_status_text (s : BidStatus) : string :=
  match s with
  | BidStatusPending => "pending" | BidStatusAccepted => "accepted" | BidStatusRejected => "rejected"
  end.

Definition ValidTaskStatus (s : string) : bool :=
  bool_decide (s = "open" \/ s = "assigned" \/ s = "completed" \/ s = "cancelled").
Definition ValidBidStatus (s : string) : bool :=
  bool_decide (s = "pending" \/ s = "accepted" \/ s = "rejected").

(** ** The store *)
Definition object_or (r : rawjson) : rawjson := match r with RawEmpty => raw_empty_object | r => r end.

Definition task_new (t : Task) (now id : Z) : Task :=
  mkTask id (Task_ChannelID t) (PostedBy t) (Task_Title t) (Task_Description t) (object_or (Requirements t))
    (Deadline t) (Task_Status t) (AssignedTo t) now now.

Definition with_task_id (id : Z) (t : Task) : Task :=
  mkTask id (Task_ChannelID t) (PostedBy t) (Task_Title t) (Task_Description t) (Requirements t)
    (Deadline t) (Task_Status t) (AssignedTo t) (Task_CreatedAt t) (Task_UpdatedAt t).

Definition CreateTask (t : Task) : M Task :=
  exec_o EDb
    (fun d => if channel_exists d (Task_ChannelID t)
              then set_tasks (insert_row (task_new t (clock d)) (tasks d)) d else d)
    (fun d => if channel_exists d (Task_ChannelID t) then Ok (with_task_id (next_id (tasks d)) t) else Err EDb).

Definition GetTask (id : Z) : M Task :=
  query_o EDb (fun d => match find_id id (tasks d) with
                        | Some t => Ok t
                        | None => Err (ETaskNotFound id)
                        end).

(** The WHERE clause of ListTasks and CountTasks; the empty status is no
    filter. *)
Definition task_listed (channelID : Z) (status : string) (t : Task) : bool :=
  (Task_ChannelID t =? channelID) &&
  (str_empty status || String.eqb (task_status_text (Task_Status t)) status).

Definition task_newest (a b : Task) : Prop := Task_CreatedAt b <= Task_CreatedAt a.
#[export] Instance task_newest_dec a b : Decision (task_newest a b).
Proof. unfold task_newest. apply _. Defined.

Definition bid_oldest (a b : Bid) : Prop := Bid_CreatedAt a <= Bid_CreatedAt b.
#[export] Instance bid_oldest_dec a b : Decision (bid_oldest a b).
Proof. unfold bid_oldest. apply _. Defined.

(** [assigned_to] is only written when the new value is not empty. *)
Definition with_task_status (status : TaskStatus) (assignedTo : string) (now : Z) (t : Task) : Task :=
  mkTask (Task_ID t) (Task_ChannelID t) (PostedBy t) (Task_Title t) (Task_Description t) (Requirements t)
    (Deadline t) status (if str_empty assignedTo then AssignedTo t else assignedTo) (Task_CreatedAt t) now.

Definition UpdateTaskStatus (id : Z) (status : TaskStatus) (assignedTo : string) : M unit :=
  exec_o EDb
    (fun d => set_tasks (update_rows (by_id id) (with_task_status status assignedTo (clock d)) (tasks d)) d)
    (fun d => if affected (by_id id) (tasks d) =? 0 then Err (ETaskNotFound id) else Ok tt).

Definition bid_key (taskID : Z) (agentName : string) (b : Bid) : bool :=
  (Bid_TaskID b =? taskID) && String.eqb (Bid_AgentName b) agentName.
Definition has_bid (d : db) (taskID : Z) (agentName : string) : bool :=
  negb (affected (bid_key taskID agentName) (task_bids d) =? 0).
Definition task_exists (d : db) (taskID : Z) : bool := negb (affected (by_id taskID) (tasks d) =? 0).

Definition bid_new (b : Bid) (now id : Z) : Bid :=
  mkBid id (Bid_TaskID b) (Bid_AgentName b) (object_or (Bid_Capabilities b)) (TimeEstimate b) (Bid_Message b)
    BidStatusPending now.

(** UNIQUE(task_id, agent_name) is reported as the bid already made; the
    foreign key is checked at the end of the statement. *)
Definition CreateBid (b : Bid) : M Bid :=
  exec_o EDb
    (fun d => if negb (has_bid d (Bid_TaskID b) (Bid_AgentName b)) && task_exists d (Bid_TaskID b)
              then set_task_bids (insert_row (bid_new b (clock d)) (task_bids d)) d else d)
    (fun d => if has_bid d (Bid_TaskID b) (Bid_AgentName b)
              then Err (EAlreadyBid (Bid_AgentName b) (Bid_TaskID b))
              else if task_exists d (Bid_TaskID b)
              then Ok (mkBid (next_id (task_bids d)) (Bid_TaskID b) (Bid_AgentName b) (Bid_Capabilities b)
                         (TimeEstimate b) (Bid_Message b) BidStatusPending (Bid_CreatedAt b))
              else Err EDb).

Definition GetBid (bidID : Z) : M Bid :=
  query_o EDb (fun d => match find_id bidID (task_bids d) with
                        | Some b => Ok b
                        | None => Err (EBidNotFound bidID)
                        end).

Definition with_bid_status (status : BidStatus) (b : Bid) : Bid :=
  mkBid (Bid_ID b) (Bid_TaskID b) (Bid_AgentName b) (Bid_Capabilities b) (TimeEstimate b) (Bid_Message b)
    status (Bid_CreatedAt b).

Definition UpdateBidStatus (bidID : Z) (status : BidStatus) : M unit :=
  exec_o EDb
    (fun d => set_task_bids (update_rows (by_id bidID) (with_bid_status status) (task_bids d)) d)
    (fun d => if affected (by_id bidID) (task_bids d) =? 0 then Err (EBidNotFound bidID) else Ok tt).

Definition expireTasksBatchSize : Z := 500.

Definition expirable (now : Z) (t : Task) : bool :=
  bool_decide (Task_Status t = TaskStatusOpen) &&
  match Deadline t with Some dl => dl <? now | None => false end.

Definition CancelTasksByChannel (channelID : Z) : M Z :=
  let key t := (Task_ChannelID t =? channelID) && bool_decide (Task_Status t = TaskStatusOpen) in
  exec EDb
    (fun d => set_tasks (update_rows key (with_task_status TaskStatusCancelled "" (clock d)) (tasks d)) d)
    (fun d => affected key (tasks d)).

Record PaginatedTasks := mkPaginatedTasks { pt_Tasks : list Task; pt_Total : Z; pt_Offset : Z; pt_Limit : Z }.

Section Auction.
Context {HEng : Engine}.

Definition store_ListTasks (channelID : Z) (status : string) : M (list Task) :=
  query EDb (fun d => select_by task_newest (task_listed channelID status) (tasks d)).

Definition CountTasks (channelID : Z) (status : string) : M Z :=
  query EDb (fun d => affected (task_listed channelID status) (tasks d)).

Definition GetBids (taskID : Z) : M (list Bid) :=
  query EDb (fun d => select_by bid_oldest (fun b => Bid_TaskID b =? taskID) (task_bids d)).

(** SELECT rowid ... LIMIT 500, in whatever order the engine visits them. *)
Definition expire_batch (now : Z) (d : db) : list Z :=
  take (Z.to_nat expireTasksBatchSize) (Task_ID <$> scan (select (expirable now) (tasks d))).

Definition in_batch (ids : list Z) (t : Task) : bool := bool_decide (Task_ID t ∈ ids).

(** The UPDATE of one batch; its answer is RowsAffected. *)
Definition expire_update (now : Z) : M Z :=
  exec EDb
    (fun d => set_tasks (update_rows (in_batch (expire_batch now d))
                           (with_task_status TaskStatusCancelled "" (clock d)) (tasks d)) d)
    (fun d => affected (in_batch (expire_batch now d)) (tasks d)).

(** The [for] loop, [fuel] iterations at most; [None] when they did not
    suffice.  The failure of the first statement of an iteration stands for
    a context that is done. *)
Fixpoint expire_loop (fuel : nat) (now total : Z) : M (option Z) :=
  match fuel with
  | O => Ret (Ok None)
  | S fuel' =>
      let? _ := query EDb (fun _ => tt) in
      let? rowsAffected := expire_update now in
      let total := total + rowsAffected in
      if rowsAffected <? expireTasksBatchSize then Ret (Ok (Some total))
      else expire_loop fuel' now total
  end.

Definition store_ExpireTasks (fuel : nat) : M (option Z) :=
  let! now := time_now in
  let? hasWork := query EDb (fun d => negb (affected (expirable now) (tasks d) =? 0)) in
  if negb hasWork then Ret (Ok (Some 0)) else expire_loop fuel now 0.

(** ** The service *)
Definition PostTask (channelID : Z) (agentName title description : string) (requirements : rawjson)
    (deadline : option Z) : M Task :=
  let? ch := store_GetChannel channelID in
  if negb (bool_decide (Ch_Type ch = TypeAuction)) then Ret (Err (ENotAuctionChannel (Ch_Type ch)))
  else
    let? isMember := store_IsMember channelID agentName in
    if negb isMember then Ret (Err ErrNotChannelMember)
    else
      let! now := time_now in
      if match deadline with Some dl => dl <? now | None => false end then Ret (Err EDeadlinePast)
      else CreateTask (mkTask 0 channelID agentName title description (object_or requirements) deadline
                         TaskStatusOpen "" zero_time zero_time).

Definition BidOnTask (taskID : Z) (agentName : string) (capabilities : rawjson)
    (timeEstimate message : string) : M Bid :=
  let? task := GetTask taskID in
  if negb (bool_decide (Task_Status task = TaskStatusOpen)) then Ret (Err (ETaskNotOpen (Task_Status task)))
  else if String.eqb (PostedBy task) agentName then Ret (Err EBidOnOwnTask)
  else
    let? isMember := store_IsMember (Task_ChannelID task) agentName in
    if negb isMember then Ret (Err ErrNotChannelMember)
    else CreateBid (mkBid 0 taskID agentName (object_or capabilities) timeEstimate message
                      BidStatusPending zero_time).

(** "Reject all other bids": failures are logged and skipped. *)
Definition reject_others (bidID : Z) (allBids : list Bid) : prog db unit :=
  for_each allBids (fun b =>
    if negb (Bid_ID b =? bidID) && bool_decide (Bid_Status b = BidStatusPending)
    then let! _ := UpdateBidStatus (Bid_ID b) BidStatusRejected in Ret tt
    else Ret tt).

Definition AcceptBid (taskID bidID : Z) (agentName : string) : M unit :=
  let? task := GetTask taskID in
  if negb (String.eqb (PostedBy task) agentName) then Ret (Err ENotPoster)
  else if negb (bool_decide (Task_Status task = TaskStatusOpen)) then Ret (Err (ETaskNotOpen (Task_Status task)))
  else
    let? bid := GetBid bidID in
    if negb (Bid_TaskID bid =? taskID) then Ret (Err (EBidOfOtherTask bidID taskID))
    else
      let? _ := UpdateTaskStatus taskID TaskStatusAssigned (Bid_AgentName bid) in
      let? _ := UpdateBidStatus bidID BidStatusAccepted in
      let? allBids := GetBids taskID in
      let! _ := reject_others bidID allBids in
      Ret (Ok tt).

Definition CompleteTask (taskID : Z) (agentName : string) : M unit :=
  let? task := GetTask taskID in
  if bool_decide (Task_Status task = TaskStatusCompleted) && String.eqb (AssignedTo task) agentName
  then Ret (Ok tt)
  else if negb (bool_decide (Task_Status task = TaskStatusAssigned))
  then Ret (Err (ETaskNotAssigned (Task_Status task)))
  else if negb (String.eqb (AssignedTo task) agentName) then Ret (Err ENotAssignee)
  else UpdateTaskStatus taskID TaskStatusCompleted "".

Definition ListTasks (channelID : Z) (status : string) : M (list Task) := store_ListTasks channelID status.

Definition ListTasksPaginated (channelID : Z) (status : string) (opt_limit opt_offset : Z) : M PaginatedTasks :=
  let? ts := store_ListTasks channelID status in
  let limit := default_limit 50 opt_limit in
  let offset := default_offset opt_offset in
  match slice_page ts limit offset with
  | Ok p => Ret (Ok (mkPaginatedTasks p (Z.of_nat (length ts)) offset limit))
  | Err e => Ret (Err e)
  | Panic w => Ret (Panic w)
  end.

Definition GetTaskWithBids (taskID : Z) : M (Task * list Bid) :=
  let? task := GetTask taskID in
  let? bids := GetBids taskID in
  Ret (Ok (task, bids)).

Definition ExpireTasks (fuel : nat) : M (option Z) := store_ExpireTasks fuel.
End Auction.
