(* ===== verification/AuctionSpec.v ===== *)
(** * Auctions: batched expiry, the life of a task, bids, races

    [auction_history] is about calls one after the other: what failing
    statements leave, and what holds while no accept has one.  [bids_history] is
    what concurrent calls cannot break. *)
From S2P Require Import Prelude Prog Table Schema Messaging MessagingSpec Channels Auction.

(** ** Expiry *)
Definition cancelled (now : Z) (t : Task) : Task := with_task_status TaskStatusCancelled "" now t.

Lemma cancelled_not_expirable now c t : expirable now (cancelled c t) = false.
Proof. done. Qed.

(** The single unbounded UPDATE the batches stand for. *)
Definition expire_all (now : Z) (d : db) : db :=
  set_tasks (update_rows (expirable now) (cancelled (clock d)) (tasks d)) d.

Definition expirable_count (now : Z) (d : db) : Z := affected (expirable now) (tasks d).

Lemma map_if_twice {A} (p q : A -> bool) (f : A -> A) (l : list A) :
  (forall x, x ∈ l -> q x = true -> p x = true /\ p (f x) = false) ->
  map_if p f (map_if q f l) = map_if p f l.
Proof.
  intros H. unfold map_if. rewrite <- list_fmap_compose. apply list_fmap_ext. intros i x Hi. simpl.
  apply list_elem_of_lookup_2 in Hi. destruct (q x) eqn:E; [|done].
  destruct (H x Hi E) as [-> ->]. done.
Qed.

Lemma map_if_or (p q : Task -> bool) f (d : db) :
  (forall t, t ∈ rows (tasks d) -> p t = true -> q (f t) = true -> False) ->
  set_tasks (update_rows (fun t => p t || q t) f (tasks d)) d =
  set_tasks (update_rows q f (update_rows p f (tasks d))) (set_tasks (update_rows p f (tasks d)) d).
Proof.
  intros H. unfold set_tasks, update_rows. simpl. f_equal. f_equal. unfold map_if.
  rewrite <- list_fmap_compose. apply list_fmap_ext. intros i t Hi. simpl. apply list_elem_of_lookup_2 in Hi.
  destruct (p t) eqn:E; simpl; [|done]. destruct (q (f t)) eqn:Eq; [|done]. by destruct (H t).
Qed.

Lemma map_if_ext {A} (p q : A -> bool) (f : A -> A) (l : list A) :
  (forall x, x ∈ l -> p x = q x) -> map_if p f l = map_if q f l.
Proof.
  intros H. unfold map_if. apply list_fmap_ext. intros i x Hi. simpl.
  apply list_elem_of_lookup_2 in Hi. by rewrite H.
Qed.

(** Rows selected by a duplicate-free list of their ids. *)
Lemma count_by_ids {R} `{!Row R} (l : list R) (ids : list Z) :
  NoDup (row_id <$> l) -> NoDup ids -> (forall i, i ∈ ids -> i ∈ row_id <$> l) ->
  count_if (fun r => bool_decide (row_id r ∈ ids)) l = Z.of_nat (length ids).
Proof.
  intros Hl Hi Hsub. unfold count_if. f_equal. rewrite <- (length_fmap row_id). apply Permutation_length.
  apply NoDup_Permutation; [|done|].
  - eapply sublist_NoDup; [exact Hl|]. apply fmap_sublist, sublist_filter.
  - intros i. rewrite list_elem_of_fmap. split.
    + intros (r&->&[Hr _]%list_elem_of_filter). by apply bool_decide_eq_true in Hr.
    + intros Hin. destruct (proj1 (list_elem_of_fmap _ _ _) (Hsub i Hin)) as (r&->&Hr).
      exists r. split; [done|]. apply list_elem_of_filter. split; [by apply bool_decide_eq_true|done].
Qed.

(** The rows a conditional update leaves for a predicate it falsifies. *)
Lemma count_if_split {A} (p q : A -> bool) (f : A -> A) (l : list A) :
  (forall x, x ∈ l -> q x = true -> p x = true /\ p (f x) = false) ->
  count_if p (map_if q f l) = count_if p l - count_if q l.
Proof.
  intros H. induction l as [|x l IH]; [done|]. change (map_if q f (x :: l)) with ((if q x then f x else x) :: map_if q f l).
  rewrite !count_if_cons, IH by (intros y Hy; apply H; set_solver).
  destruct (q x) eqn:E; [|lia]. destruct (H x ltac:(set_solver) E) as [-> ->]. lia.
Qed.

Section Expiry.
Context {HEng : Engine}.

Lemma batch_ids now d : table_ok (tasks d) ->
  NoDup (expire_batch now d) /\
  (forall i, i ∈ expire_batch now d -> exists t, t ∈ rows (tasks d) /\ Task_ID t = i /\ expirable now t = true) /\
  Z.of_nat (length (expire_batch now d)) = Z.min expireTasksBatchSize (expirable_count now d) /\
  (expirable_count now d < expireTasksBatchSize -> forall t, t ∈ rows (tasks d) -> expirable now t = true ->
     Task_ID t ∈ expire_batch now d).
Proof.
  intros [Hn _]. unfold expire_batch.
  assert (length (Task_ID <$> scan (select (expirable now) (tasks d))) = Z.to_nat (expirable_count now d)) as Hlen.
  { rewrite length_fmap, scan_perm. unfold expirable_count, affected, count_if, select. by rewrite Nat2Z.id. }
  split_and!.
  - eapply sublist_NoDup; [|apply sublist_take]. rewrite scan_perm.
    eapply sublist_NoDup; [exact Hn|]. apply fmap_sublist, sublist_filter.
  - intros i Hi. eapply elem_of_sublist in Hi; [|apply sublist_take].
    apply list_elem_of_fmap in Hi as (t&->&Ht). rewrite scan_perm, elem_of_select in Ht. naive_solver.
  - rewrite length_take, Hlen. pose proof (count_if_nonneg (expirable now) (rows (tasks d))).
    unfold expirable_count, affected in *. unfold expireTasksBatchSize. lia.
  - intros Hlt t Ht He. rewrite take_ge by (rewrite Hlen; lia).
    apply list_elem_of_fmap. exists t. split; [done|]. by rewrite scan_perm, elem_of_select.
Qed.
Definition after_batch (now : Z) (d : db) : db :=
  set_tasks (update_rows (in_batch (expire_batch now d)) (cancelled (clock d)) (tasks d)) d.

Lemma batch_expirable now d t : table_ok (tasks d) -> t ∈ rows (tasks d) ->
  in_batch (expire_batch now d) t = true -> expirable now t = true.
Proof.
  intros Hok Ht Hin. apply bool_decide_eq_true in Hin.
  destruct (batch_ids now d Hok) as (_&Hb&_). destruct (Hb _ Hin) as (t'&Ht'&Hid&He).
  by rewrite <- (table_ok_unique (tasks d) t' t Hok Ht' Ht Hid).
Qed.

Lemma batch_step now d : table_ok (tasks d) ->
  table_ok (tasks (after_batch now d)) /\
  expire_all now (after_batch now d) = expire_all now d /\
  affected (in_batch (expire_batch now d)) (tasks d) = Z.min expireTasksBatchSize (expirable_count now d) /\
  expirable_count now (after_batch now d) =
    expirable_count now d - Z.min expireTasksBatchSize (expirable_count now d) /\
  (expirable_count now d < expireTasksBatchSize -> after_batch now d = expire_all now d).
Proof.
  intros Hok. destruct (batch_ids now d Hok) as (Hnd&Hin&Hlen&Hall).
  assert (forall t, t ∈ rows (tasks d) -> in_batch (expire_batch now d) t = true ->
            expirable now t = true /\ expirable now (cancelled (clock d) t) = false) as Hsub
    by (intros t Ht Hb; split; [by eapply batch_expirable|apply cancelled_not_expirable]).
  assert (affected (in_batch (expire_batch now d)) (tasks d) = Z.min expireTasksBatchSize (expirable_count now d)) as Haff.
  { rewrite <- Hlen. apply count_by_ids; [apply Hok|done|]. intros i Hi.
    destruct (Hin i Hi) as (t&Ht&<-&_). apply list_elem_of_fmap. eauto. }
  split_and!; [|  |done| |].
  - by apply table_ok_update.
  - unfold expire_all, after_batch, update_rows. simpl. by rewrite map_if_twice.
  - unfold expirable_count at 1. unfold after_batch, affected, update_rows. simpl.
    rewrite count_if_split by done. by rewrite <- Haff.
  - intros Hlt. unfold after_batch, expire_all, update_rows. f_equal. f_equal.
    apply map_if_ext. intros t Ht. destruct (expirable now t) eqn:E.
    + by apply bool_decide_eq_true, Hall.
    + destruct (in_batch _ t) eqn:Eb; [|done]. destruct (Hsub t Ht Eb). congruence.
Qed.

Lemma expire_update_run now d :
  run_ok (expire_update now) d = (Ok (affected (in_batch (expire_batch now d)) (tasks d)), after_batch now d).
Proof. done. Qed.

Lemma expire_loop_run now total d fuel : table_ok (tasks d) ->
  expirable_count now d < expireTasksBatchSize * Z.of_nat fuel ->
  run_ok (expire_loop fuel now total) d = (Ok (Some (total + expirable_count now d)), expire_all now d).
Proof.
  revert total d. induction fuel as [|fuel IH]; intros total d Hok Hf.
  { pose proof (count_if_nonneg (expirable now) (rows (tasks d))). unfold expirable_count, affected in Hf. lia. }
  destruct (batch_step now d Hok) as (Hok'&Hall&Haff&Hcnt&Hlast).
  cbn [expire_loop]. rewrite run_ok_bind_ok. cbn [run_ok query exec run]. rewrite run_ok_bind_ok.
  rewrite expire_update_run, Haff.
  destruct (Z.ltb_spec (Z.min expireTasksBatchSize (expirable_count now d)) expireTasksBatchSize).
  - rewrite <- Hlast by lia. unfold run_ok. simpl. do 3 f_equal. lia.
  - rewrite IH; [|done|lia]. rewrite Hcnt, Hall. do 3 f_equal. lia.
Qed.

(** The rows an expiry may have touched, whatever failed: each is as it was,
    or it was expirable and is cancelled now. *)
Definition expired_some (now : Z) (d d' : db) : Prop :=
  exists p, (forall t, t ∈ rows (tasks d) -> p t = true -> expirable now t = true) /\
    d' = set_tasks (update_rows p (cancelled (clock d)) (tasks d)) d.

Lemma expired_none now d : expired_some now d d.
Proof.
  exists (fun _ => false). split; [done|]. rewrite update_rows_none; [by destruct d|].
  unfold affected. by apply count_if_0.
Qed.

Lemma expired_more now d d' : table_ok (tasks d) -> expired_some now d d' ->
  table_ok (tasks d') /\ expired_some now d (after_batch now d').
Proof.
  intros Hok (p&Hp&->). split; [by apply table_ok_update|]. set (d' := set_tasks _ d).
  assert (table_ok (tasks d')) as Hok' by (by apply table_ok_update).
  set (q := in_batch (expire_batch now d')).
  exists (fun t => p t || q t). split.
  - intros t Ht. destruct (p t) eqn:E; [by intros; apply Hp|]. simpl. intros Hq.
    eapply (batch_expirable now d' t); [done| |done]. simpl. apply elem_of_map_if. exists t. by rewrite E.
  - change (set_tasks (update_rows q (cancelled (clock d)) (tasks d')) d' =
            set_tasks (update_rows (fun t => p t || q t) (cancelled (clock d)) (tasks d)) d).
    rewrite map_if_or; [done|]. intros t Ht Hpt Hq.
    apply (batch_expirable now d') in Hq; [by rewrite cancelled_not_expirable in Hq|done|].
    simpl. apply elem_of_map_if. exists t. by rewrite Hpt.
Qed.

Lemma expire_loop_wp now total d0 d fuel : table_ok (tasks d0) -> expired_some now d0 d ->
  expirable_count now d < expireTasksBatchSize * Z.of_nat fuel ->
  wp (expire_loop fuel now total) (fun o d' => o <> Ok None /\ expired_some now d0 d') d.
Proof.
  intros Hok0. revert total d. induction fuel as [|fuel IH]; intros total d Hd Hf.
  { pose proof (count_if_nonneg (expirable now) (rows (tasks d))). unfold expirable_count, affected in Hf. lia. }
  destruct (expired_more now d0 d Hok0 Hd) as [Hok Hd'].
  destruct (batch_step now d Hok) as (Hok'&_&Haff&Hcnt&_).
  cbn [expire_loop]. apply wp_bind_ok. cbn [wp query exec]. split; [|done].
  apply wp_bind_ok. cbn [wp expire_update exec]. split; [|done]. rewrite Haff.
  destruct (Z.ltb_spec (Z.min expireTasksBatchSize (expirable_count now d)) expireTasksBatchSize); [done|].
  apply (IH _ (after_batch now d)); [done|]. rewrite Hcnt. lia.
Qed.

(** The expiry worker's batches of 500 amount to one unbounded UPDATE: with
    more iterations allowed than there are full batches, the loop ends, reports
    the number of open tasks past their deadline, and cancels exactly those.
    When statements fail or the context expires it still ends, and has only
    ever cancelled tasks that were open past their deadline. *)
Theorem expire_tasks_exact d fuel
    (Hok : table_ok (tasks d))
    (Hfuel : affected (expirable (clock d)) (tasks d) < expireTasksBatchSize * Z.of_nat fuel) :
  run_ok (ExpireTasks fuel) d =
    (Ok (Some (affected (expirable (clock d)) (tasks d))),
     set_tasks (update_rows (expirable (clock d)) (with_task_status TaskStatusCancelled "" (clock d)) (tasks d)) d) /\
  wp (ExpireTasks fuel) (fun o d' => o <> Ok None /\ expired_some (clock d) d d') d.
Proof.
  change (affected (expirable (clock d)) (tasks d)) with (expirable_count (clock d) d) in *.
  unfold ExpireTasks, store_ExpireTasks, time_now. split.
  - rewrite run_ok_bind. cbn [run_ok run]. rewrite run_ok_bind_ok. cbn [run_ok query exec run].
    rewrite negb_involutive. destruct (Z.eqb_spec (affected (expirable (clock d)) (tasks d)) 0) as [E|E].
    + unfold run_ok. simpl. unfold expirable_count. rewrite update_rows_none, E by done. by destruct d.
    + rewrite expire_loop_run by done. done.
  - apply wp_bind. cbn [wp]. apply wp_bind_ok. cbn [wp query exec]. split; [|split; [done|apply expired_none]].
    rewrite negb_involutive. destruct (affected _ _ =? 0); [split; [done|apply expired_none]|].
    apply expire_loop_wp; [done|apply expired_none|done].
Qed.
End Expiry.

(** ** Bids under concurrency *)

(** What never changes of a task and of a bid. *)
Definition task_kept (t t' : Task) : Prop :=
  Task_ID t' = Task_ID t /\ Task_ChannelID t' = Task_ChannelID t /\ PostedBy t' = PostedBy t /\
  Task_Title t' = Task_Title t /\ Requirements t' = Requirements t /\ Deadline t' = Deadline t.
Definition bid_kept (b b' : Bid) : Prop :=
  Bid_ID b' = Bid_ID b /\ Bid_TaskID b' = Bid_TaskID b /\ Bid_AgentName b' = Bid_AgentName b /\
  Bid_Capabilities b' = Bid_Capabilities b /\ Bid_Message b' = Bid_Message b.

Definition kept {R} (K : R -> R -> Prop) (t t' : table R) : Prop :=
  forall r, r ∈ rows t -> exists r', r' ∈ rows t' /\ K r r'.
Definition auction_le (d d' : db) : Prop :=
  kept task_kept (tasks d) (tasks d') /\ kept bid_kept (task_bids d) (task_bids d').

#[export] Instance task_kept_preorder : PreOrder task_kept.
Proof. split; [repeat split|]. unfold task_kept. intros a b c; naive_solver congruence. Qed.
#[export] Instance bid_kept_preorder : PreOrder bid_kept.
Proof. split; [repeat split|]. unfold bid_kept. intros a b c; naive_solver congruence. Qed.
#[export] Instance kept_preorder {R} (K : R -> R -> Prop) `{!PreOrder K} : PreOrder (kept K).
Proof.
  split.
  - intros t r Hr. by exists r.
  - intros t1 t2 t3 H12 H23 r Hr. destruct (H12 r Hr) as (r2&Hr2&?). destruct (H23 r2 Hr2) as (r3&?&?).
    exists r3. split; [done|by etrans].
Qed.
#[export] Instance auction_le_preorder : PreOrder auction_le.
Proof.
  split; [by intros d; split|]. intros a b c [? ?] [? ?]. split; by etrans.
Qed.

Definition bidder (b : Bid) : Z * string := (Bid_TaskID b, Bid_AgentName b).

(** Every bid is on a task of somebody else, and an agent bids once per task. *)
Definition bids_ok (d : db) : Prop :=
  table_ok (tasks d) /\ table_ok (task_bids d) /\ NoDup (bidder <$> rows (task_bids d)) /\
  forall b, b ∈ rows (task_bids d) ->
    exists t, t ∈ rows (tasks d) /\ Task_ID t = Bid_TaskID b /\ PostedBy t <> Bid_AgentName b.

Lemma kept_update {R} `{!Row R} (K : R -> R -> Prop) `{!PreOrder K} p f (t : table R) :
  (forall r, K r (f r)) -> kept K t (update_rows p f t).
Proof.
  intros HK r Hr. exists (if p r then f r else r). split; [|by destruct (p r)].
  simpl. apply elem_of_map_if. eauto.
Qed.

Lemma kept_insert {R} `{!Row R} (K : R -> R -> Prop) `{!PreOrder K} mk (t : table R) :
  kept K t (insert_row mk t).
Proof. intros r Hr. exists r. split; [simpl; set_solver|done]. Qed.

(** A write to the tasks only. *)
Lemma bids_ok_tasks d tbl : bids_ok d -> table_ok tbl -> kept task_kept (tasks d) tbl ->
  bids_ok (set_tasks tbl d) /\ auction_le d (set_tasks tbl d).
Proof.
  intros (Ht&Hb&Hn&Hp) Htbl Hk. split; [|by split].
  split_and!; [done|done|done|]. intros b Hin. destruct (Hp b Hin) as (t&Htin&Hid&Hne).
  destruct (Hk t Htin) as (t'&Ht'&K). exists t'. unfold task_kept in K. naive_solver congruence.
Qed.

Lemma bids_ok_task_update d p f : (forall t, task_kept t (f t)) -> bids_ok d ->
  let d' := set_tasks (update_rows p f (tasks d)) d in bids_ok d' /\ auction_le d d'.
Proof.
  intros Hf Hok. apply bids_ok_tasks; [done| |by apply (kept_update task_kept)].
  apply table_ok_update; [intros t; apply (Hf t)|apply Hok].
Qed.

Lemma bids_ok_bid_update d p f : (forall b, bid_kept b (f b)) -> bids_ok d ->
  let d' := set_task_bids (update_rows p f (task_bids d)) d in bids_ok d' /\ auction_le d d'.
Proof.
  intros Hf (Ht&Hb&Hn&Hp). split; [|split; [done|by apply (kept_update bid_kept)]].
  split_and!; simpl; [done|apply table_ok_update; [intros b; apply (Hf b)|done]| |].
  - replace (bidder <$> map_if p f (rows (task_bids d))) with (bidder <$> rows (task_bids d)); [done|].
    unfold map_if. rewrite <- list_fmap_compose. apply list_fmap_ext. intros i b _. simpl.
    destruct (p b); [|done]. destruct (Hf b) as (_&E1&E2&_). unfold bidder. by rewrite E1, E2.
  - intros b (b0&Hb0&->)%elem_of_map_if. destruct (Hp b0 Hb0) as (t&?&?&?). exists t.
    destruct (p b0); [|done]. destruct (Hf b0) as (_&E1&E2&_). by rewrite E1, E2.
Qed.

Lemma has_bid_false d task agent : has_bid d task agent = false ->
  forall b, b ∈ rows (task_bids d) -> bidder b <> (task, agent).
Proof.
  unfold has_bid, affected. intros H b Hb [= <- <-]. guards. rewrite count_if_0 in H.
  specialize (H b Hb). unfold bid_key in H. by rewrite Z.eqb_refl, String.eqb_refl in H.
Qed.

Lemma bids_ok_insert d b t : bids_ok d -> has_bid d (Bid_TaskID b) (Bid_AgentName b) = false ->
  t ∈ rows (tasks d) -> Task_ID t = Bid_TaskID b -> PostedBy t <> Bid_AgentName b ->
  let d' := set_task_bids (insert_row (bid_new b (clock d)) (task_bids d)) d in bids_ok d' /\ auction_le d d'.
Proof.
  intros (Ht&Hb&Hn&Hp) Hfresh Hin Hid Hne. split; [|split; [done|by apply (kept_insert bid_kept)]].
  split_and!; simpl; [done|by apply table_ok_insert| |].
  - rewrite fmap_app. apply NoDup_app. split_and!; [done| |apply NoDup_singleton].
    intros k (b0&->&Hb0)%list_elem_of_fmap. simpl. rewrite list_elem_of_singleton.
    by apply (has_bid_false _ _ _ Hfresh).
  - intros b0. rewrite elem_of_app, list_elem_of_singleton. intros [Hb0| ->]; [by apply Hp|]. by exists t.
Qed.

Section Bidding.
Context {HEng : Engine}.
Abbreviation I := bids_ok.
Abbreviation R := auction_le.

Lemma auction_tick d d' : I d -> tick d d' -> I d' /\ R d d'.
Proof. intros Hok (s&_&->). by split. Qed.

(** A call that is a single write of the tasks or of the bids. *)
Lemma rg_task_update {B} p (f : db -> Task -> Task) (ans : db -> outcome error B) d0 :
  (forall d t, task_kept t (f d t)) -> I d0 ->
  rg I R (exec_o EDb (fun d => set_tasks (update_rows (p d) (f d) (tasks d)) d) ans) (fun _ _ => True) d0.
Proof.
  intros Hf HI. apply rg_exec_o. intros d _ Hd. destruct (bids_ok_task_update d (p d) (f d) (Hf d) Hd). done.
Qed.

Lemma rg_UpdateTaskStatus id st who d0 : I d0 -> rg I R (UpdateTaskStatus id st who) (fun _ _ => True) d0.
Proof. apply (rg_task_update (fun _ => by_id id)). done. Qed.

Lemma rg_UpdateBidStatus id st d0 : I d0 -> rg I R (UpdateBidStatus id st) (fun _ _ => True) d0.
Proof.
  intros HI. apply rg_exec_o. intros d _ Hd.
  destruct (bids_ok_bid_update d (by_id id) (with_bid_status st) ltac:(done) Hd). done.
Qed.

(** The task read, in every later state. *)
Definition task_seen (t : Task) (d : db) : Prop := exists t', t' ∈ rows (tasks d) /\ task_kept t t'.

Lemma task_seen_later t d d' : R d d' -> task_seen t d -> task_seen t d'.
Proof. intros [Hk _] (t1&Ht1&K). destruct (Hk t1 Ht1) as (t2&?&?). exists t2. split; [done|by etrans]. Qed.

Lemma rg_GetTask id d0 (Q : outcome error Task -> db -> Prop) :
  (forall e d, R d0 d -> I d -> Q (Err e) d) ->
  (forall t d, R d0 d -> I d -> Task_ID t = id -> task_seen t d -> Q (Ok t) d) ->
  rg I R (GetTask id) Q d0.
Proof.
  intros He Ho. apply rg_query_o; [apply _|]. intros d d' H0 Hd H1 Hd'. split; [|apply He; [by etrans|done]].
  destruct (find_id id (tasks d)) as [t|] eqn:E; [|apply He; [by etrans|done]].
  apply find_id_Some in E as [<- Ht]. apply Ho; [by etrans|done|done|].
  eapply task_seen_later; [done|]. by exists t.
Qed.

Lemma rg_CreateTask t d0 : I d0 -> rg I R (CreateTask t) (fun _ _ => True) d0.
Proof.
  intros HI. apply rg_exec_o. intros d _ Hd. destruct (channel_exists _ _); [|done].
  destruct (bids_ok_tasks d (insert_row (task_new t (clock d)) (tasks d)) Hd) as [? ?]; [| |done].
  - by apply table_ok_insert; [|apply Hd].
  - by apply (kept_insert task_kept).
Qed.

Definition bid_recorded (task : Z) (agent : string) (d : db) : Prop :=
  exists b, b ∈ rows (task_bids d) /\ bidder b = (task, agent).

Lemma bid_recorded_later task agent d d' : R d d' -> bid_recorded task agent d -> bid_recorded task agent d'.
Proof.
  intros [_ Hk] (b&Hb&E). destruct (Hk b Hb) as (b'&Hb'&_&E1&E2&_). exists b'. split; [done|].
  unfold bidder in *. by rewrite E1, E2.
Qed.

Lemma rg_CreateBid b t d0 : I d0 -> task_seen t d0 -> Task_ID t = Bid_TaskID b -> PostedBy t <> Bid_AgentName b ->
  rg I R (CreateBid b) (fun o d => is_ok o = true -> bid_recorded (Bid_TaskID b) (Bid_AgentName b) d) d0.
Proof.
  intros HI Hseen Hid Hne. apply rg_exec_o. intros d H0 Hd.
  destruct (task_seen_later _ _ _ H0 Hseen) as (t'&Ht'&K).
  destruct (has_bid d (Bid_TaskID b) (Bid_AgentName b)) eqn:Eb; simpl; [by split_and!|].
  destruct (task_exists _ _); [|by split_and!].
  destruct (bids_ok_insert d b t' Hd Eb Ht') as [? ?]; [unfold task_kept in K; naive_solver congruence..|].
  split_and!; [done|done| |done]. intros d' Hd' _ _. eapply bid_recorded_later; [done|].
  eexists. split; [simpl; apply elem_of_app; right; by apply list_elem_of_singleton|done].
Qed.

Lemma rg_BidOnTask task agent caps est msg d0 : I d0 ->
  rg I R (BidOnTask task agent caps est msg) (fun o d => is_ok o = true -> bid_recorded task agent d) d0.
Proof.
  intros HI. unfold BidOnTask. apply rg_bind_ok; [apply _|done|]. apply rg_GetTask; [done|].
  intros t d _ Hd <- Hseen. destruct (negb (bool_decide _)); [done|].
  destruct (String.eqb (PostedBy t) agent) eqn:Ep; [done|]. guards.
  apply rg_bind_ok; [apply _|done|]. apply rg_query; [apply _|].
  intros d1 d2 H1 Hd1 H2 Hd2. split; [|done]. destruct (negb (has_member _ _ _)); [done|].
  eapply rg_mono; [|eapply rg_CreateBid]; [done|done| |done|done].
  eapply task_seen_later; [|exact Hseen]. by etrans.
Qed.

Lemma rg_PostTask ch agent title desc req dl d0 : I d0 ->
  rg I R (PostTask ch agent title desc req dl) (fun _ _ => True) d0.
Proof.
  intros HI. apply rg_bind_ok; [apply _|done|]. apply rg_query_o; [apply _|]. intros d d' _ _ _ Hd'.
  split; [|done]. destruct (find_id _ _) as [c|]; [|done]. destruct (negb _); [done|].
  apply rg_bind_ok; [apply _|done|]. apply rg_query; [apply _|]. intros d1 d2 _ _ _ Hd2.
  split; [|done]. destruct (negb _); [done|]. intros d3 _ Hd3. cbn [bind time_now].
  destruct (match dl with Some _ => _ | None => _ end); [done|]. by apply rg_CreateTask.
Qed.

Lemma rg_AcceptBid task bid agent d0 : I d0 -> rg I R (AcceptBid task bid agent) (fun _ _ => True) d0.
Proof.
  intros HI. apply rg_bind_ok; [apply _|done|]. apply rg_GetTask; [done|]. intros t d _ Hd _ _.
  destruct (negb _); [done|]. destruct (negb (bool_decide _)); [done|].
  apply rg_bind_ok; [apply _|done|]. apply rg_query_o; [apply _|]. intros d1 d2 _ _ _ Hd2. split; [|done].
  destruct (find_id bid _) as [b|]; [|done]. destruct (negb _); [done|].
  rg_next (rg_UpdateTaskStatus task TaskStatusAssigned (Bid_AgentName b)). intros _ d3 Hd3 _.
  rg_next (rg_UpdateBidStatus bid BidStatusAccepted). intros _ d4 Hd4 _.
  apply rg_bind_ok; [apply _|done|]. apply rg_query; [apply _|]. intros d5 d6 _ _ _ Hd6. split; [|done].
  apply rg_bind; [apply _|done|]. apply rg_for_each; [apply _|done| |done].
  intros b' d7 _ _ Hd7. destruct (negb _ && _); [|done].
  apply rg_bind; [apply _|done|]. eapply rg_mono; [|by apply rg_UpdateBidStatus]. done.
Qed.

Lemma rg_CompleteTask task agent d0 : I d0 -> rg I R (CompleteTask task agent) (fun _ _ => True) d0.
Proof.
  intros HI. apply rg_bind_ok; [apply _|done|]. apply rg_GetTask; [done|]. intros t d _ Hd _ _.
  destruct (_ && _); [done|]. destruct (negb (bool_decide _)); [done|]. destruct (negb _); [done|].
  by apply rg_UpdateTaskStatus.
Qed.

Lemma rg_expire_loop fuel now total d0 : I d0 -> rg I R (expire_loop fuel now total) (fun _ _ => True) d0.
Proof.
  revert total d0. induction fuel as [|fuel IH]; intros total d0 HI; [done|].
  apply rg_bind_ok; [apply _|done|]. apply rg_query; [apply _|]. intros d d' _ _ _ Hd'. split; [|done].
  apply rg_bind_ok; [apply _|done|]. apply rg_exec. intros d1 _ Hd1.
  destruct (bids_ok_task_update d1 (in_batch (expire_batch now d1)) (with_task_status TaskStatusCancelled "" (clock d1))
    ltac:(done) Hd1) as [? ?].
  split_and!; [done|done| |done]. intros d2 _ Hd2. destruct (_ <? _); [done|]. by apply IH.
Qed.

Lemma rg_ExpireTasks fuel d0 : I d0 -> rg I R (ExpireTasks fuel) (fun _ _ => True) d0.
Proof.
  intros HI d _ Hd. cbn [bind]. apply rg_bind_ok; [apply _|done|]. apply rg_query; [apply _|].
  intros d1 d2 _ _ _ Hd2. split; [|done]. destruct (negb _); [done|]. by apply rg_expire_loop.
Qed.

Lemma rg_CancelTasksByChannel ch d0 : I d0 -> rg I R (CancelTasksByChannel ch) (fun _ _ => True) d0.
Proof.
  apply (rg_task_update (fun _ t => (Task_ChannelID t =? ch) && bool_decide (Task_Status t = TaskStatusOpen))
    (fun d => with_task_status TaskStatusCancelled "" (clock d))). done.
Qed.
End Bidding.

(** ** Accepting a bid, undisturbed *)

(** What accepting [bidID] on [taskID] makes of a bid. *)
Definition award (taskID bidID : Z) (b : Bid) : Bid :=
  if Bid_ID b =? bidID then with_bid_status BidStatusAccepted b
  else if (Bid_TaskID b =? taskID) && bool_decide (Bid_Status b = BidStatusPending)
  then with_bid_status BidStatusRejected b else b.

Definition awarded (taskID : Z) (bid : Bid) (d : db) : db :=
  set_task_bids (mkTable (award taskID (Bid_ID bid) <$> rows (task_bids d)) (next_id (task_bids d)))
    (set_tasks (update_rows (by_id taskID) (with_task_status TaskStatusAssigned (Bid_AgentName bid) (clock d)) (tasks d)) d).

(** The specification: the guards in the code's order, then the award. *)
Definition accept_spec (taskID bidID : Z) (agent : string) (d : db) : outcome error unit * db :=
  match find_id taskID (tasks d), find_id bidID (task_bids d) with
  | None, _ => (Err (ETaskNotFound taskID), d)
  | Some t, ob =>
      if negb (bool_decide (PostedBy t = agent)) then (Err ENotPoster, d)
      else if negb (bool_decide (Task_Status t = TaskStatusOpen)) then (Err (ETaskNotOpen (Task_Status t)), d)
      else match ob with
           | None => (Err (EBidNotFound bidID), d)
           | Some b => if negb (Bid_TaskID b =? taskID) then (Err (EBidOfOtherTask bidID taskID), d)
                       else (Ok tt, awarded taskID b d)
           end
  end.

Section Accept.
Context {HEng : Engine}.

Definition rejectable (bidID : Z) (b : Bid) : bool :=
  negb (Bid_ID b =? bidID) && bool_decide (Bid_Status b = BidStatusPending).

Lemma run_reject_others bidID l d :
  run_ok (reject_others bidID l) d =
  (tt, set_task_bids (update_rows (fun b => bool_decide (Bid_ID b ∈ Bid_ID <$> filter (fun b => rejectable bidID b = true) l))
         (with_bid_status BidStatusRejected) (task_bids d)) d).
Proof.
  revert d. induction l as [|b l IH]; intros d.
  { unfold run_ok. cbn [reject_others for_each run filter list_filter fmap list_fmap].
    rewrite update_rows_none; [by destruct d|]. unfold affected. apply count_if_0. intros x _.
    apply bool_decide_eq_false. set_solver. }
  unfold reject_others in *. cbn [for_each]. rewrite run_ok_bind. fold (rejectable bidID b).
  rewrite filter_cons. destruct (rejectable bidID b) eqn:E.
  - rewrite decide_True by done. rewrite run_ok_bind. cbn [run_ok UpdateBidStatus exec_o run]. rewrite IH.
    unfold set_task_bids, update_rows, map_if. simpl. rewrite <- list_fmap_compose. do 3 f_equal.
    apply list_fmap_ext. intros i x _. simpl. unfold by_id, row_id, Bid_row.
    destruct (Z.eqb_spec (Bid_ID x) (Bid_ID b)) as [Hx|Hx].
    + rewrite (bool_decide_true (Bid_ID x ∈ Bid_ID b :: _)) by (rewrite Hx; set_solver). by case_bool_decide.
    + case_bool_decide as H1; [rewrite bool_decide_true by set_solver|rewrite bool_decide_false by set_solver]; done.
  - rewrite decide_False by congruence. cbn [run_ok run]. apply IH.
Qed.

Lemma run_AcceptBid taskID bidID agent d : table_ok (task_bids d) -> table_ok (tasks d) ->
  run_ok (AcceptBid taskID bidID agent) d = accept_spec taskID bidID agent d.
Proof.
  intros Hb Ht. unfold AcceptBid, accept_spec. rewrite run_ok_bind_ok. cbn [run_ok GetTask query_o exec_o run].
  destruct (find_id taskID (tasks d)) as [t|] eqn:Et; [|done].
  replace (String.eqb (PostedBy t) agent) with (bool_decide (PostedBy t = agent))
    by (case_bool_decide as E; symmetry; [by apply String.eqb_eq|by apply String.eqb_neq]).
  destruct (negb _); [done|]. destruct (negb _); [done|].
  rewrite run_ok_bind_ok. cbn [run_ok GetBid query_o exec_o run].
  destruct (find_id bidID (task_bids d)) as [b|] eqn:Eb; [|done].
  destruct (Bid_TaskID b =? taskID) eqn:Ebt; cbn [negb]; [|done]. cbv iota. guards.
  rewrite run_ok_bind_ok. cbn [run_ok UpdateTaskStatus exec_o run].
  unfold find_id in Et, Eb. rewrite affected_find, Et. cbv beta iota.
  rewrite run_ok_bind_ok. cbn [run_ok UpdateBidStatus exec_o run]. simpl task_bids. rewrite affected_find, Eb. cbv beta iota.
  rewrite run_ok_bind_ok. cbn [run_ok GetBids query exec run]. rewrite run_ok_bind, run_reject_others.
  unfold run_ok. cbn [run]. f_equal. unfold awarded, set_task_bids, update_rows. simpl. f_equal. f_equal.
  unfold map_if. rewrite <- list_fmap_compose. apply list_fmap_ext. intros i x Hx. simpl.
  apply list_elem_of_lookup_2 in Hx. apply (find_id_Some bidID) in Eb as [<- Hbin].
  unfold award, by_id, row_id, Bid_row.
  destruct (Z.eqb_spec (Bid_ID x) (Bid_ID b)) as [Hxb|Hxb].
  - rewrite bool_decide_false; [done|]. intros (y&Hy&[Hr _]%list_elem_of_filter)%list_elem_of_fmap.
    unfold rejectable in Hr. simpl in Hy. rewrite <- Hy, Hxb, Z.eqb_refl in Hr. done.
  - destruct ((Bid_TaskID x =? taskID) && bool_decide (Bid_Status x = BidStatusPending)) eqn:E.
    + rewrite bool_decide_true; [done|]. apply list_elem_of_fmap. exists x. split; [done|]. guards.
      apply list_elem_of_filter. split.
      * unfold rejectable. rewrite (proj2 (Z.eqb_neq _ _)) by done. by apply bool_decide_eq_true.
      * apply elem_of_select_by. split; [by apply Z.eqb_eq|]. simpl. apply list_elem_of_fmap. exists x.
        by rewrite (proj2 (Z.eqb_neq _ _)) by done.
    + rewrite bool_decide_false; [done|]. intros (y&Hy&[Hr Hin]%list_elem_of_filter)%list_elem_of_fmap.
      apply elem_of_select_by in Hin as [Hyt Hyr]. simpl in Hyr. unfold rejectable in Hr.
      apply list_elem_of_fmap in Hyr as (z&->&Hz).
      assert (z = x) as ->.
      { apply (table_ok_unique (task_bids d)); [done..|]. simpl in Hy. unfold row_id, Bid_row. rewrite Hy. by destruct (Bid_ID z =? Bid_ID b). }
      rewrite (proj2 (Z.eqb_neq (Bid_ID x) (Bid_ID b)) Hxb) in Hr, Hyt. guards. unfold andb in E.
      by rewrite (proj2 (Z.eqb_eq _ _) Hyt), bool_decide_true in E.
Qed.
End Accept.

(** ** The life of a task, one call at a time *)

(** A task and its bids agree: nothing is decided while it is open (or was
    cancelled open); once assigned, the assignee is the bidder of one of its
    bids and no other bid is accepted.  [strict]: that bid is accepted and
    every other bid is rejected; an accept one of whose statements failed may
    leave bids undecided. *)
Definition decided (strict : bool) (st : BidStatus) (b : Bid) : Prop :=
  Bid_Status b = st \/ (strict = false /\ Bid_Status b = BidStatusPending).

Definition settled (strict : bool) (d : db) (t : Task) : Prop :=
  match Task_Status t with
  | TaskStatusOpen | TaskStatusCancelled =>
      AssignedTo t = "" /\
      forall b, b ∈ rows (task_bids d) -> Bid_TaskID b = Task_ID t -> Bid_Status b = BidStatusPending
  | TaskStatusAssigned | TaskStatusCompleted =>
      exists w, w ∈ rows (task_bids d) /\ Bid_TaskID w = Task_ID t /\ decided strict BidStatusAccepted w /\
        Bid_AgentName w = AssignedTo t /\
        forall b, b ∈ rows (task_bids d) -> Bid_TaskID b = Task_ID t -> Bid_ID b <> Bid_ID w ->
          decided strict BidStatusRejected b
  end.

Definition auction_ok (strict : bool) (d : db) : Prop :=
  bids_ok d /\ forall t, t ∈ rows (tasks d) -> settled strict d t.

(** Open, then assigned and completed with the assignee fixed, or cancelled. *)
Definition task_step (t t' : Task) : Prop :=
  task_kept t t' /\
  (Task_Status t = TaskStatusOpen \/
   (AssignedTo t' = AssignedTo t /\
    (Task_Status t' = Task_Status t \/
     (Task_Status t = TaskStatusAssigned /\ Task_Status t' = TaskStatusCompleted)))).

#[export] Instance task_step_preorder : PreOrder task_step.
Proof.
  split.
  - intros t. split; [done|]. right. split; [done|by left].
  - intros a b c [K1 H1] [K2 H2]. split; [by etrans|]. naive_solver congruence.
Qed.

Section Strict.
Context (strict : bool).

Definition auction_steps (d0 d : db) : Prop := auction_ok strict d /\ kept task_step (tasks d0) (tasks d).

Lemma settled_same_bids d d' t t' : settled strict d t -> task_bids d' = task_bids d -> Task_ID t' = Task_ID t ->
  AssignedTo t' = AssignedTo t ->
  (Task_Status t' = Task_Status t \/ (Task_Status t = TaskStatusAssigned /\ Task_Status t' = TaskStatusCompleted) \/
   (Task_Status t = TaskStatusOpen /\ Task_Status t' = TaskStatusCancelled)) -> settled strict d' t'.
Proof.
  unfold settled. intros Hs Hb Hid Ha Hst. rewrite Hb, Hid, Ha.
  destruct Hst as [->|[[E ->]|[E ->]]]; [done| |]; by rewrite E in Hs.
Qed.

(** A conditional move of the status that keeps the assignee. *)
Lemma steps_update d0 d p st now : auction_steps d0 d ->
  (forall t, t ∈ rows (tasks d) -> p t = true ->
     (Task_Status t = TaskStatusAssigned /\ st = TaskStatusCompleted) \/
     (Task_Status t = TaskStatusOpen /\ st = TaskStatusCancelled)) ->
  auction_steps d0 (set_tasks (update_rows p (with_task_status st "" now) (tasks d)) d).
Proof.
  intros [[Hok Hset] Hk] Hp. split; [split|].
  - by apply bids_ok_task_update.
  - intros t' (t&Ht&->)%elem_of_map_if. destruct (p t) eqn:E; [|by apply Hset].
    eapply settled_same_bids; [by apply Hset|done|done|done|]. simpl. destruct (Hp t Ht E) as [[? ->]|[? ->]]; auto.
  - etrans; [exact Hk|]. intros t Ht. exists (if p t then with_task_status st "" now t else t).
    split; [apply elem_of_map_if; eauto|]. destruct (p t) eqn:E; [|done]. split; [done|].
    destruct (Hp t Ht E) as [[? ->]|[? ->]]; [right|by left]. split; [done|by right].
Qed.

Lemma steps_new_task d0 d t now : auction_steps d0 d -> Task_Status t = TaskStatusOpen -> AssignedTo t = "" ->
  auction_steps d0 (set_tasks (insert_row (task_new t now) (tasks d)) d).
Proof.
  intros [[Hok Hset] Hk] Ho Ha. split; [split|].
  - apply bids_ok_tasks; [done|apply table_ok_insert; [done|apply Hok]|by apply (kept_insert task_kept)].
  - intros t'. simpl. rewrite elem_of_app, list_elem_of_singleton. intros [Ht'| ->]; [by apply Hset|].
    unfold settled. simpl. rewrite Ho. split; [done|]. intros b Hb Hid.
    destruct Hok as ((_&Hlt)&_&_&Hfk). destruct (Hfk b Hb) as (t1&Ht1&E&_). specialize (Hlt t1 Ht1).
    unfold row_id, Task_row in Hlt. simpl in Hid. lia.
  - etrans; [exact Hk|]. by apply (kept_insert task_step).
Qed.

Lemma steps_new_bid d0 d b t now : auction_steps d0 d -> has_bid d (Bid_TaskID b) (Bid_AgentName b) = false ->
  t ∈ rows (tasks d) -> Task_ID t = Bid_TaskID b -> PostedBy t <> Bid_AgentName b ->
  Task_Status t = TaskStatusOpen -> now = clock d ->
  auction_steps d0 (set_task_bids (insert_row (bid_new b now) (task_bids d)) d).
Proof.
  intros [[Hok Hset] Hk] Hfresh Ht Hid Hne Ho ->. split; [split|done].
  - by eapply bids_ok_insert.
  - intros t' Ht'. specialize (Hset t' Ht'). unfold settled in *. simpl.
    destruct (decide (Task_ID t' = Task_ID t)) as [E|E].
    + assert (t' = t) as -> by (by eapply (table_ok_unique (tasks d)); [apply Hok|..]).
      rewrite Ho in *. destruct Hset as [Ha Hb]. split; [done|].
      intros b'. rewrite elem_of_app, list_elem_of_singleton. intros [Hb'| ->]; auto.
    + destruct (Task_Status t').
      1,4: destruct Hset as [Ha Hb]; split; [done|]; intros b';
           rewrite elem_of_app, list_elem_of_singleton; intros [Hb'| ->]; [auto|simpl; congruence].
      all: destruct Hset as (w&Hw&?&?&?&Hb); exists w; split_and!; [set_solver|done|done|done|];
           intros b'; rewrite elem_of_app, list_elem_of_singleton; intros [Hb'| ->]; [auto|simpl; congruence].
Qed.

Lemma award_kept task bid b : bid_kept b (award task bid b).
Proof. unfold award. destruct (_ =? _); [done|]. by destruct (_ && _). Qed.

Lemma bids_ok_award d task bid : bids_ok d ->
  bids_ok (set_task_bids (mkTable (award task bid <$> rows (task_bids d)) (next_id (task_bids d))) d).
Proof.
  intros Hok. destruct (bids_ok_bid_update d (fun _ => true) (award task bid)) as [H _]; [by intros; apply award_kept|done|].
  done.
Qed.

(** Accepting [b] settles its own task... *)
Lemma settled_award_own d t b now : table_ok (task_bids d) -> settled strict d t -> Task_Status t = TaskStatusOpen ->
  b ∈ rows (task_bids d) -> Bid_TaskID b = Task_ID t ->
  settled strict (awarded (Task_ID t) b d) (with_task_status TaskStatusAssigned (Bid_AgentName b) now t).
Proof.
  intros Hok Hset Ho Hb Hbt. unfold settled in *. rewrite Ho in Hset. destruct Hset as [Ha Hpend]. simpl.
  assert (award (Task_ID t) (Bid_ID b) b = with_bid_status BidStatusAccepted b) as Hw
    by (unfold award; by rewrite Z.eqb_refl).
  exists (with_bid_status BidStatusAccepted b). split_and!; [|done|by left| |].
  - apply list_elem_of_fmap. by exists b.
  - simpl. rewrite Ha. unfold str_empty. by case_bool_decide.
  - intros b' (b1&->&Hb1)%list_elem_of_fmap. destruct (award_kept (Task_ID t) (Bid_ID b) b1) as (E1&E2&_).
    simpl. rewrite E1, E2. intros Hbt1 Hne. unfold award.
    rewrite (proj2 (Z.eqb_neq _ _) Hne), (proj2 (Z.eqb_eq _ _) Hbt1). rewrite bool_decide_true by auto. by left.
Qed.

(** ... and leaves the others settled. *)
Lemma settled_award_other d t t1 b : table_ok (task_bids d) -> b ∈ rows (task_bids d) ->
  Bid_TaskID b = Task_ID t -> Task_ID t1 <> Task_ID t -> settled strict d t1 -> settled strict (awarded (Task_ID t) b d) t1.
Proof.
  intros Hok Hb Hbt E Hset. unfold settled in *. simpl.
  assert (forall b1, Bid_TaskID b1 = Task_ID t1 -> b1 ∈ rows (task_bids d) -> award (Task_ID t) (Bid_ID b) b1 = b1) as Hsame.
  { intros b1 E1 Hin. unfold award. destruct (Z.eqb_spec (Bid_ID b1) (Bid_ID b)) as [E2|_].
    - assert (b1 = b) as -> by (by eapply (table_ok_unique (task_bids d))). congruence.
    - by rewrite (proj2 (Z.eqb_neq _ _)) by congruence. }
  assert (forall b', b' ∈ award (Task_ID t) (Bid_ID b) <$> rows (task_bids d) -> Bid_TaskID b' = Task_ID t1 ->
            b' ∈ rows (task_bids d)) as Hback.
  { intros b' (b1&->&Hb1)%list_elem_of_fmap. destruct (award_kept (Task_ID t) (Bid_ID b) b1) as (_&E2&_).
    rewrite E2. intros E1. by rewrite Hsame. }
  destruct (Task_Status t1).
  1,4: destruct Hset as [Ha Hp]; split; [done|]; intros b' Hb' Hid; apply Hp; auto.
  all: destruct Hset as (w&Hw&?&?&?&Hr); exists w; split_and!; [|done|done|done|intros b' Hb' Hid; apply Hr; auto];
       apply list_elem_of_fmap; exists w; by rewrite Hsame.
Qed.

Lemma steps_award d0 d t b : auction_steps d0 d -> t ∈ rows (tasks d) -> Task_Status t = TaskStatusOpen ->
  b ∈ rows (task_bids d) -> Bid_TaskID b = Task_ID t -> auction_steps d0 (awarded (Task_ID t) b d).
Proof.
  intros [[Hok Hset] Hk] Ht Ho Hb Hbt. split; [split|].
  - assert (bids_ok (set_tasks (update_rows (by_id (Task_ID t)) (with_task_status TaskStatusAssigned (Bid_AgentName b) (clock d)) (tasks d)) d)) as H
      by (by apply bids_ok_task_update). by apply (bids_ok_award _ (Task_ID t) (Bid_ID b)) in H.
  - intros t' (t1&Ht1&->)%elem_of_map_if. unfold by_id, row_id, Task_row.
    destruct (Z.eqb_spec (Task_ID t1) (Task_ID t)) as [E|E].
    + assert (t1 = t) as -> by (by eapply (table_ok_unique (tasks d)); [apply Hok|..]).
      apply settled_award_own; auto; apply Hok.
    + apply settled_award_other; auto; apply Hok.
  - etrans; [exact Hk|]. intros t1 Ht1. eexists. split; [apply elem_of_map_if; by exists t1|].
    unfold by_id, row_id, Task_row. destruct (Z.eqb_spec (Task_ID t1) (Task_ID t)) as [E|E]; [|done].
    assert (t1 = t) as -> by (by eapply (table_ok_unique (tasks d)); [apply Hok|..]). split; [done|by left].
Qed.

End Strict.

Section Calls.
Context {HEng : Engine}.

Section Strict_calls.
Context (strict : bool).
Abbreviation auction_steps := (auction_steps strict).

Lemma steps_PostTask d0 d ch agent title desc req dl : auction_steps d0 d ->
  wp (PostTask ch agent title desc req dl) (fun _ d' => auction_steps d0 d') d.
Proof.
  intros H. apply wp_bind_ok. cbn [wp store_GetChannel query_o exec_o]. split; [|done].
  destruct (find_id _ _) as [c|]; [|done]. destruct (negb _); [done|].
  apply wp_bind_ok. cbn [wp store_IsMember query exec]. split; [|done]. destruct (negb _); [done|].
  cbn [bind time_now wp]. destruct (match dl with Some _ => _ | None => _ end); [done|].
  cbn [wp CreateTask exec_o]. split; [|done]. destruct (channel_exists _ _); [|done]. by apply steps_new_task.
Qed.

Lemma steps_BidOnTask d0 d task agent caps est msg : auction_steps d0 d ->
  wp (BidOnTask task agent caps est msg) (fun _ d' => auction_steps d0 d') d.
Proof.
  intros H. apply wp_bind_ok. cbn [wp GetTask query_o exec_o]. split; [|done].
  destruct (find_id task (tasks d)) as [t|] eqn:E; [|done]. apply find_id_Some in E as [Hid Ht].
  destruct (negb _) eqn:Eo; [done|]. destruct (String.eqb _ _) eqn:Ep; [done|]. guards.
  apply wp_bind_ok. cbn [wp store_IsMember query exec]. split; [|done]. destruct (negb _); [done|].
  cbn [wp CreateBid exec_o]. split; [|done]. destruct (_ && _) eqn:Eb; [|done]. guards.
  eapply (steps_new_bid strict d0 d _ t); [done|done|done|done|by simpl|done|done].
Qed.

Lemma steps_CompleteTask d0 d task agent : auction_steps d0 d ->
  wp (CompleteTask task agent) (fun _ d' => auction_steps d0 d') d.
Proof.
  intros H. apply wp_bind_ok. cbn [wp GetTask query_o exec_o]. split; [|done].
  destruct (find_id task (tasks d)) as [t|] eqn:E; [|done]. apply find_id_Some in E as [Hid Ht].
  destruct (bool_decide (Task_Status t = TaskStatusCompleted) && _); [done|].
  destruct (negb (bool_decide (Task_Status t = TaskStatusAssigned))) eqn:Es; [done|].
  destruct (negb (String.eqb _ _)); [done|]. guards.
  cbn [wp UpdateTaskStatus exec_o]. split; [|done]. apply steps_update; [done|].
  intros t' Ht' Hb. unfold by_id in Hb. guards. left. split; [|done].
  assert (t' = t) as ->; [|done]. eapply (table_ok_unique (tasks d)); [apply H|done|done|congruence].
Qed.

Lemma steps_expire_loop d0 d fuel now total : auction_steps d0 d ->
  wp (expire_loop fuel now total) (fun _ d' => auction_steps d0 d') d.
Proof.
  revert d total. induction fuel as [|fuel IH]; intros d total H; [done|].
  apply wp_bind_ok. cbn [wp query exec]. split; [|done].
  apply wp_bind_ok. cbn [wp expire_update exec].
  assert (auction_steps d0 (after_batch now d)) as H'.
  { apply steps_update; [done|]. intros t Ht Hb. right. apply batch_expirable in Hb; [|apply H|done].
    unfold expirable in Hb. by guards. }
  split; [|done]. destruct (_ <? _); [done|]. by apply IH.
Qed.

Lemma steps_ExpireTasks d0 d fuel : auction_steps d0 d ->
  wp (ExpireTasks fuel) (fun _ d' => auction_steps d0 d') d.
Proof.
  intros H. cbn [wp ExpireTasks store_ExpireTasks time_now bind]. apply wp_bind_ok. cbn [wp query exec].
  split; [|done]. destruct (negb _); [done|]. by apply steps_expire_loop.
Qed.

Lemma steps_CancelTasksByChannel d0 d ch : auction_steps d0 d ->
  wp (CancelTasksByChannel ch) (fun _ d' => auction_steps d0 d') d.
Proof.
  intros H. cbn [wp CancelTasksByChannel exec]. split; [|done]. apply steps_update; [done|].
  intros t Ht Hb. right. by guards.
Qed.

Lemma steps_AcceptBid d0 d task bid agent : auction_steps d0 d ->
  auction_steps d0 (run_ok (AcceptBid task bid agent) d).2.
Proof.
  intros H. rewrite run_AcceptBid by apply H. unfold accept_spec.
  destruct (find_id task (tasks d)) as [t|] eqn:E; [|done]. apply find_id_Some in E as [<- Ht].
  destruct (negb _); [done|]. destruct (negb (bool_decide (Task_Status _ = _))) eqn:Eo; [done|]. guards.
  destruct (find_id bid (task_bids d)) as [b|] eqn:E; [|done]. apply find_id_Some in E as [_ Hb].
  destruct (negb _) eqn:Eb; [done|]. guards. by apply steps_award.
Qed.

End Strict_calls.

(** ** Accepting a bid when statements fail *)

(** The task is assigned, and its bids are being decided for [bid]. *)
Definition accepting (d0 : db) (task bid : Z) (d : db) : Prop :=
  bids_ok d /\ kept task_step (tasks d0) (tasks d) /\
  (forall t, t ∈ rows (tasks d) -> Task_ID t <> task -> settled false d t) /\
  (forall t, t ∈ rows (tasks d) -> Task_ID t = task -> Task_Status t = TaskStatusAssigned /\
     exists w, w ∈ rows (task_bids d) /\ Bid_ID w = bid /\ Bid_TaskID w = task /\ decided false BidStatusAccepted w /\
       Bid_AgentName w = AssignedTo t /\
       forall b, b ∈ rows (task_bids d) -> Bid_TaskID b = task -> Bid_ID b <> bid -> decided false BidStatusRejected b).

Lemma accepting_steps d0 task bid d : accepting d0 task bid d -> auction_steps false d0 d.
Proof.
  intros (Hok&Hk&Ho&Hw). split; [split; [done|]|done]. intros t Ht.
  destruct (decide (Task_ID t = task)) as [E|E]; [|by apply Ho].
  destruct (Hw t Ht E) as (Es&w&Hin&Hid&Hwt&Hd&Ha&Hr). unfold settled. rewrite Es, E.
  exists w. split_and!; [done..|]. intros b Hb Hbt Hne. apply Hr; [done|done|congruence].
Qed.

Lemma assigned_accepting d0 d t b : auction_steps false d0 d -> t ∈ rows (tasks d) -> Task_Status t = TaskStatusOpen ->
  b ∈ rows (task_bids d) -> Bid_TaskID b = Task_ID t ->
  accepting d0 (Task_ID t) (Bid_ID b)
    (set_tasks (update_rows (by_id (Task_ID t)) (with_task_status TaskStatusAssigned (Bid_AgentName b) (clock d)) (tasks d)) d).
Proof.
  intros [[Hok Hset] Hk] Ht Ho Hb Hbt.
  assert (forall t1, t1 ∈ rows (tasks d) -> Task_ID t1 = Task_ID t -> t1 = t) as Hu
    by (intros t1 Ht1 E; by eapply (table_ok_unique (tasks d)); [apply Hok|..]).
  split_and!; [by apply bids_ok_task_update| | |].
  - etrans; [exact Hk|]. intros t1 Ht1. eexists. split; [apply elem_of_map_if; by exists t1|].
    unfold by_id, row_id, Task_row. destruct (Z.eqb_spec (Task_ID t1) (Task_ID t)) as [E|E]; [|done].
    rewrite (Hu t1 Ht1 E). split; [done|by left].
  - intros t' (t1&Ht1&->)%elem_of_map_if. unfold by_id, row_id, Task_row.
    destruct (Z.eqb_spec (Task_ID t1) (Task_ID t)) as [E|E]; [by intros []|]. intros _. by apply Hset.
  - intros t' (t1&Ht1&->)%elem_of_map_if. unfold by_id, row_id, Task_row.
    destruct (Z.eqb_spec (Task_ID t1) (Task_ID t)) as [E|E]; [|done]. rewrite (Hu t1 Ht1 E). intros _. split; [done|].
    specialize (Hset t Ht). unfold settled in Hset. rewrite Ho in Hset. destruct Hset as [Ha Hp].
    exists b. split_and!; [done|done|done|right; auto| |intros; right; auto].
    simpl. rewrite Ha. unfold str_empty. by case_bool_decide.
Qed.

Lemma accepting_status d0 task bid d x : accepting d0 task bid d ->
  (forall y, y ∈ rows (task_bids d) -> Bid_ID y = x -> Bid_TaskID y = task) ->
  accepting d0 task bid (set_task_bids (update_rows (by_id x)
    (with_bid_status (if x =? bid then BidStatusAccepted else BidStatusRejected)) (task_bids d)) d).
Proof.
  intros (Hok&Hk&Ho&Hw) Hx. set (st := if x =? bid then _ else _).
  destruct (bids_ok_bid_update d (by_id x) (with_bid_status st) ltac:(done) Hok) as [Hok' _].
  assert (forall b', b' ∈ map_if (by_id x) (with_bid_status st) (rows (task_bids d)) ->
    exists b, b ∈ rows (task_bids d) /\ Bid_ID b' = Bid_ID b /\ Bid_TaskID b' = Bid_TaskID b /\
      ((Bid_ID b = x /\ Bid_TaskID b = task /\ Bid_Status b' = st) \/ b' = b)) as Hback.
  { intros b' (b&Hb&->)%elem_of_map_if. exists b. split; [done|]. unfold by_id, row_id, Bid_row.
    destruct (Z.eqb_spec (Bid_ID b) x) as [E|E]; split_and!; try done; [left; auto|by right]. }
  assert (forall b, b ∈ rows (task_bids d) -> (Bid_ID b = x -> False) -> b ∈ map_if (by_id x) (with_bid_status st) (rows (task_bids d))) as Hfwd.
  { intros b Hb Hne. apply elem_of_map_if. exists b. split; [done|]. unfold by_id, row_id, Bid_row.
    by destruct (Z.eqb_spec (Bid_ID b) x). }
  split_and!; [done|done| |]; simpl.
  - intros t Ht Hne. specialize (Ho t Ht Hne). unfold settled in *. simpl. destruct (Task_Status t).
    1,4: destruct Ho as [Ha Hp]; split; [done|]; intros b' Hb' Hid; destruct (Hback b' Hb') as (b&Hb&_&E2&[(_&E3&_)| ->]);
         [congruence|auto].
    all: destruct Ho as (w&Hwin&Hwt&?&?&Hr); exists w; split_and!; [apply Hfwd; [done|]; intros E; apply Hx in E; [congruence|done]|done..|];
         intros b' Hb' Hid Hn; destruct (Hback b' Hb') as (b&Hb&_&E2&[(_&E3&_)| ->]); [congruence|auto].
  - intros t Ht E. destruct (Hw t Ht E) as (Es&w&Hwin&Hwid&Hwt&Hwd&Hwa&Hr). split; [done|].
    exists (if by_id x w then with_bid_status st w else w).
    split; [apply elem_of_map_if; eauto|]. unfold by_id, row_id, Bid_row. split_and!.
    + destruct (Bid_ID w =? x); exact Hwid.
    + destruct (Bid_ID w =? x); exact Hwt.
    + rewrite Hwid. subst st. destruct (Z.eqb_spec bid x) as [<-|]; [|done]. rewrite Z.eqb_refl. by left.
    + destruct (Bid_ID w =? x); exact Hwa.
    + intros b' Hb' Hid Hn. destruct (Hback b' Hb') as (b&Hb&E1&E2&[(E3&E4&E5)| ->]); [|by apply Hr].
      left. rewrite E5. subst st. by rewrite (proj2 (Z.eqb_neq _ _)) by congruence.
Qed.

Lemma accepting_same d0 task bid d d' x st : accepting d0 task bid d ->
  d' = set_task_bids (update_rows (by_id x) (with_bid_status st) (task_bids d)) d ->
  forall y', y' ∈ rows (task_bids d') -> exists y, y ∈ rows (task_bids d) /\ Bid_ID y' = Bid_ID y /\ Bid_TaskID y' = Bid_TaskID y.
Proof. intros _ -> y' (y&Hy&->)%elem_of_map_if. exists y. split; [done|]. by destruct (by_id x y). Qed.

Lemma wp_reject_others d0 task bid l d : accepting d0 task bid d ->
  (forall x, x ∈ l -> forall y, y ∈ rows (task_bids d) -> Bid_ID y = Bid_ID x -> Bid_TaskID y = task) ->
  wp (reject_others bid l) (fun _ d' => accepting d0 task bid d') d.
Proof.
  revert d. induction l as [|x l IH]; intros d Hd Hl; [done|]. unfold reject_others in *. cbn [for_each].
  assert (forall y, y ∈ l -> forall z, z ∈ rows (task_bids d) -> Bid_ID z = Bid_ID y -> Bid_TaskID z = task) as Hl'
    by (intros y Hy; apply Hl; by right).
  destruct (_ && _) eqn:E; [|by apply IH]. guards. cbn [wp bind UpdateBidStatus exec_o]. split; [|by apply IH].
  pose proof (accepting_status _ _ _ _ (Bid_ID x) Hd (Hl x (list_elem_of_here _ _))) as Hn.
  rewrite (proj2 (Z.eqb_neq _ _)) in Hn by done. cbn [wp bind].
  assert (forall y, y ∈ l -> forall z, z ∈ rows (task_bids (set_task_bids (update_rows (by_id (Bid_ID x)) (with_bid_status BidStatusRejected) (task_bids d)) d)) ->
    Bid_ID z = Bid_ID y -> Bid_TaskID z = task) as Hl2.
  { intros y Hy z Hz Ez. destruct (accepting_same _ _ _ _ _ _ _ Hd eq_refl z Hz) as (z0&Hz0&E1&E2).
    rewrite E2. apply (Hl' y Hy z0); [done|congruence]. }
  by apply IH.
Qed.

Lemma wp_AcceptBid d0 d task bid agent : auction_steps false d0 d ->
  wp (AcceptBid task bid agent) (fun _ d' => auction_steps false d0 d') d.
Proof.
  intros H. apply wp_bind_ok. cbn [wp GetTask query_o exec_o]. split; [|done].
  destruct (find_id task (tasks d)) as [t|] eqn:E; [|done]. apply find_id_Some in E as [<- Ht].
  destruct (negb _); [done|]. destruct (negb (bool_decide (Task_Status t = _))) eqn:Eo; [done|]. guards.
  apply wp_bind_ok. cbn [wp GetBid query_o exec_o]. split; [|done].
  destruct (find_id bid (task_bids d)) as [b|] eqn:E; [|done]. apply find_id_Some in E as [<- Hb].
  destruct (negb _) eqn:Eb; [done|]. guards.
  pose proof (assigned_accepting d0 d t b H Ht Eo Hb Eb) as H1.
  apply wp_bind_ok. cbn [wp UpdateTaskStatus exec_o]. split; [|done].
  set (d1 := set_tasks _ d) in *. change (task_bids d) with (task_bids d1) in Hb.
  assert (forall y, y ∈ rows (task_bids d1) -> Bid_ID y = Bid_ID b -> Bid_TaskID y = Task_ID t) as Hy.
  { intros y Hy Ey. assert (y = b) as ->; [|done]. eapply (table_ok_unique (task_bids d1)); [apply H1|done..]. }
  destruct (affected _ _ =? 0); [by eapply accepting_steps|].
  apply wp_bind_ok. cbn [wp UpdateBidStatus exec_o]. split; [|by eapply accepting_steps].
  pose proof (accepting_status _ _ _ _ (Bid_ID b) H1 Hy) as H2. rewrite Z.eqb_refl in H2. set (d2 := set_task_bids _ d1) in *.
  destruct (affected _ _ =? 0); [by eapply accepting_steps|].
  apply wp_bind_ok. cbn [wp GetBids query exec]. split; [|by eapply accepting_steps].
  apply wp_bind. eapply wp_mono; [|apply (wp_reject_others d0 (Task_ID t) (Bid_ID b)); [exact H2|]].
  - intros ? d' H3. cbn [wp bind]. eapply accepting_steps, H3.
  - intros x [Hx Hin]%elem_of_select_by y Hyin Ey. guards.
    assert (y = x) as ->; [|done]. eapply (table_ok_unique (task_bids d2)); [apply H2|done..].
Qed.

(** ** The calls of the auction *)
Inductive auction_call :=
| CallPost (ch : Z) (agent title desc : string) (req : rawjson) (dl : option Z)
| CallBid (task : Z) (agent : string) (caps : rawjson) (est msg : string)
| CallAccept (task bid : Z) (agent : string)
| CallComplete (task : Z) (agent : string)
| CallExpire (fuel : nat)
| CallCancelChannel (ch : Z).

Definition auction_prog (c : auction_call) : M unit :=
  match c with
  | CallPost ch agent title desc req dl => let? _ := PostTask ch agent title desc req dl in Ret (Ok tt)
  | CallBid task agent caps est msg => let? _ := BidOnTask task agent caps est msg in Ret (Ok tt)
  | CallAccept task bid agent => AcceptBid task bid agent
  | CallComplete task agent => CompleteTask task agent
  | CallExpire fuel => let? _ := ExpireTasks fuel in Ret (Ok tt)
  | CallCancelChannel ch => let? _ := CancelTasksByChannel ch in Ret (Ok tt)
  end.

(** One after the other, each with the seconds that pass before it and the
    statements of it that fail. *)
Definition auction_calls := list (Z * list bool * auction_call).
Fixpoint run_auction (cs : auction_calls) (d : db) : db :=
  match cs with
  | [] => d
  | (s, faults, c) :: rest => run_auction rest (run (auction_prog c) faults (set_clock (clock d + s) d)).2
  end.

Lemma wp_then_ok {A} (p : M A) (Q : db -> Prop) d :
  wp p (fun _ d' => Q d') d -> wp (let? _ := p in Ret (Ok tt)) (fun _ d' => Q d') d.
Proof. intros H. apply wp_bind_ok. eapply wp_mono; [|exact H]. by intros [] d' H'. Qed.

(** In a strict state only an accept can leave bids undecided, when one of
    its statements fails. *)
Definition whole (strict : bool) (faults : list bool) (c : auction_call) : Prop :=
  match c with CallAccept _ _ _ => strict = true -> true ∉ faults | _ => True end.

Lemma steps_call strict d0 d c faults : whole strict faults c -> auction_steps strict d0 d ->
  auction_steps strict d0 (run (auction_prog c) faults d).2.
Proof.
  intros Hw H.
  assert (forall p : M unit, wp p (fun _ d' => auction_steps strict d0 d') d -> auction_steps strict d0 (run p faults d).2) as Hrun
    by (intros p Hp; by apply (wp_run _ _ _ faults) in Hp).
  destruct c; unfold auction_prog.
  - by apply Hrun, wp_then_ok, steps_PostTask.
  - by apply Hrun, wp_then_ok, steps_BidOnTask.
  - destruct strict; [|by apply Hrun, wp_AcceptBid]. rewrite run_no_fault by (by apply Hw). by apply steps_AcceptBid.
  - by apply Hrun, steps_CompleteTask.
  - by apply Hrun, wp_then_ok, steps_ExpireTasks.
  - by apply Hrun, wp_then_ok, steps_CancelTasksByChannel.
Qed.

Lemma steps_run_auction strict d0 d cs : (forall s faults c, (s, faults, c) ∈ cs -> whole strict faults c) ->
  auction_steps strict d0 d -> auction_steps strict d0 (run_auction cs d).
Proof.
  revert d. induction cs as [|[[s faults] c] cs IH]; intros d Hc H; [done|].
  apply IH; [intros s' fs' c' Hin; apply (Hc s'); by right|].
  apply steps_call; [apply (Hc s); by left|exact H].
Qed.

(** C9. Calls that run one after the other, any of their statements failing,
    keep the auction consistent: a task that is open (or was cancelled) has
    only pending bids and no assignee; the assignee of an assigned or
    completed task is the bidder of one of its bids and no other bid on it is
    accepted; a task only moves open, assigned, completed or open, cancelled,
    and once assigned its assignee never changes.  While no statement of an
    accept fails, moreover, the assignee's bid is accepted and all other bids
    on the task are rejected. *)
Theorem auction_history (cs : auction_calls) (d : db) (Hinit : auction_ok false d) :
  auction_ok false (run_auction cs d) /\ kept task_step (tasks d) (tasks (run_auction cs d)) /\
  (auction_ok true d ->
   (forall s faults task bid agent, (s, faults, CallAccept task bid agent) ∈ cs -> true ∉ faults) ->
   auction_ok true (run_auction cs d)).
Proof.
  destruct (steps_run_auction false d d cs) as [H1 H2]; [by intros s faults [] _|by split|].
  split_and!; [done|done|]. intros Hs Hw. apply (steps_run_auction true d); [|by split].
  intros s faults c Hin. destruct c; simpl; [done|done|intros _; by eapply Hw|done..].
Qed.

(** Accepting a bid does what its specification says on every branch: the
    caller must have posted the task, the task must be open, the bid must be
    one of its bids; then the task goes to the bidder, the bid is accepted and
    the other pending bids on the task are rejected, and nothing else
    changes. *)
Theorem accept_bid_exact (taskID bidID : Z) (agent : string) (d : db)
    (Htasks : table_ok (tasks d)) (Hbids : table_ok (task_bids d)) :
  run_ok (AcceptBid taskID bidID agent) d = accept_spec taskID bidID agent d.
Proof. by apply run_AcceptBid. Qed.

Definition complete_spec (taskID : Z) (agent : string) (d : db) : outcome error unit * db :=
  match find_id taskID (tasks d) with
  | None => (Err (ETaskNotFound taskID), d)
  | Some t =>
      match Task_Status t with
      | TaskStatusCompleted => (if bool_decide (AssignedTo t = agent) then Ok tt else Err (ETaskNotAssigned TaskStatusCompleted), d)
      | TaskStatusAssigned =>
          if bool_decide (AssignedTo t = agent)
          then (Ok tt, set_tasks (update_rows (by_id taskID) (with_task_status TaskStatusCompleted "" (clock d)) (tasks d)) d)
          else (Err ENotAssignee, d)
      | st => (Err (ETaskNotAssigned st), d)
      end
  end.

(** Completing a task succeeds for the assignee of an assigned task, which
    becomes completed, and again, without effect, once it is completed; in
    every other case it reports why and changes nothing. *)
Theorem complete_task_exact (taskID : Z) (agent : string) (d : db) :
  run_ok (CompleteTask taskID agent) d = complete_spec taskID agent d.
Proof.
  unfold CompleteTask, complete_spec. rewrite run_ok_bind_ok. cbn [run_ok GetTask query_o exec_o run].
  destruct (find_id taskID (tasks d)) as [t|] eqn:E; [|done].
  replace (String.eqb (AssignedTo t) agent) with (bool_decide (AssignedTo t = agent))
    by (case_bool_decide as Ea; symmetry; [by apply String.eqb_eq|by apply String.eqb_neq]).
  unfold find_id in E.
  destruct (Task_Status t) eqn:Es; cbn -[affected Z.eqb]; [done| | |done];
    destruct (bool_decide (AssignedTo t = agent)); try done.
  change (bool_decide (TaskStatusAssigned = TaskStatusCompleted)) with false.
  change (bool_decide (TaskStatusAssigned = TaskStatusAssigned)) with true.
  cbn -[affected Z.eqb]. unfold run_ok. cbn [run UpdateTaskStatus exec_o]. by rewrite affected_find, E.
Qed.

(** What a successful answer promises from then on. *)
Definition auction_answer (c : auction_call) (o : outcome error unit) (d : db) : Prop :=
  match c with
  | CallBid task agent _ _ _ => is_ok o = true -> bid_recorded task agent d
  | _ => True
  end.

Lemma rg_then_ok {A} (p : M A) (Q : bool -> db -> Prop) d :
  bids_ok d -> (forall b d d', auction_le d d' -> Q b d -> Q b d') ->
  rg bids_ok auction_le p (fun o d => Q (is_ok o) d) d ->
  rg bids_ok auction_le (let? _ := p in Ret (Ok tt)) (fun o d => Q (is_ok o) d) d.
Proof.
  intros Hd HQ H. apply rg_bind_ok; [apply _|done|]. eapply rg_mono; [|exact H].
  intros [a|e|w] d1 Hd1 Ho d2 Hd2 _; by eapply HQ.
Qed.

Lemma rg_auction_call c d : bids_ok d ->
  rg bids_ok auction_le (auction_prog c) (fun o d' => auction_answer c o d') d.
Proof.
  intros Hd. destruct c as [? ? ? ? ? ?|task agent caps est msg|? ? ?|? ?|?|?]; unfold auction_prog.
  - apply (rg_then_ok _ (fun _ _ => True)); [done|done|]. by apply rg_PostTask.
  - apply (rg_then_ok _ (fun b d => b = true -> bid_recorded task agent d)); [done| |by apply rg_BidOnTask].
    intros b d1 d2 Hle Hb Ho. eapply bid_recorded_later; [done|auto].
  - by apply rg_AcceptBid.
  - by apply rg_CompleteTask.
  - apply (rg_then_ok _ (fun _ _ => True)); [done|done|]. by apply rg_ExpireTasks.
  - apply (rg_then_ok _ (fun _ _ => True)); [done|done|]. by apply rg_CancelTasksByChannel.
Qed.

(** Whatever calls run at once, interleaved and failing anywhere: no agent
    ever has two bids on one task, no bid is on a task of the bidder's own,
    every bid's task exists, no task or bid disappears or changes what was
    posted, and a bid that was accepted as submitted is there. *)
Theorem bids_history (cs : list auction_call) (d : db) (ps : list (M unit)) (d' : db)
    (Hinit : bids_ok d)
    (Hrun : rtc (pool_step tick) (auction_prog <$> cs, d) (ps, d')) :
  bids_ok d' /\ auction_le d d' /\
  (forall i c o, cs !! i = Some c -> ps !! i = Some (Ret o) -> auction_answer c o d').
Proof.
  destruct (pool_invariant bids_ok auction_le tick auction_tick (auction_prog <$> cs) ps
    (fun i o d2 => forall c, cs !! i = Some c -> auction_answer c o d2) d d') as (HI&HR&HQ).
  - intros i p. rewrite list_lookup_fmap. intros Hp. destruct (cs !! i) as [c|] eqn:Hc; simplify_eq/=.
    eapply rg_mono; [|by apply rg_auction_call]. simpl. intros o d2 _ Ho c' Hc'. by simplify_eq.
  - done.
  - done.
  - split_and!; [done|done|]. intros i c o Hc Ho. by eapply HQ.
Qed.
End Calls.

(** ** Concrete runs *)
Module AuctionRuns.
#[local] Existing Instance Runs.eng.

(** Two bids on an open task of an auction channel. *)
Definition jobs : Channel :=
  mkChannel 1 "jobs" "" "" TypeAuction false false "ann" default_settings 0 0.
Definition member (id : Z) (who : string) : Membership := mkMembership id 1 who RoleMember 0.
Definition market : db :=
  set_channels (mkTable [jobs] 2)
    (set_channel_members (mkTable [member 1 "ann"; member 2 "bob"; member 3 "cyd"] 4) empty_db).
Definition opening : auction_calls :=
  [(0, [], CallPost 1 "ann" "paint" "" RawEmpty (Some 100));
   (1, [], CallBid 1 "bob" RawEmpty "1d" ""); (1, [], CallBid 1 "cyd" RawEmpty "2d" "")].
Definition opened : db := run_auction opening market.

Lemma market_ok strict : auction_ok strict market.
Proof.
  split; [split_and!; try apply table_ok_empty; [constructor|]|]; intros ? H; by apply elem_of_nil in H.
Qed.

Lemma opened_ok strict : auction_ok strict opened.
Proof.
  apply (steps_run_auction strict market); [|split; [apply market_ok|reflexivity]].
  intros s faults c Hin. unfold opening in Hin. rewrite !elem_of_cons in Hin.
  destruct Hin as [E|[E|[E|E]]]; [simplify_eq; done..|by apply elem_of_nil in E].
Qed.

(** Two accepts of the same open task by its poster, each reading it before
    the other writes, both succeed: both bids stay accepted and the task goes
    to whichever bidder was written last. *)
Theorem accept_race : exists ps d',
  rtc (pool_step tick) ([AcceptBid 1 1 "ann"; AcceptBid 1 2 "ann"], opened) (ps, d') /\
  ps = [Ret (Ok tt); Ret (Ok tt)] /\
  (Bid_Status <$> rows (task_bids d')) = [BidStatusAccepted; BidStatusAccepted] /\
  (AssignedTo <$> rows (tasks d')) = ["cyd"].
Proof.
  pose proof (run_schedule_reachable tick
    [(0%nat, false); (1%nat, false); (0%nat, false); (1%nat, false);
     (0%nat, false); (1%nat, false); (0%nat, false); (1%nat, false);
     (0%nat, false); (1%nat, false)]
    [AcceptBid 1 1 "ann"; AcceptBid 1 2 "ann"] opened) as H.
  revert H. vm_compute. intros H. do 2 eexists. split; [exact H|]. by split_and!.
Qed.

(** The writes of an accept are not one transaction: when the second fails
    the caller gets an error, the task stays assigned although no bid is
    accepted, and trying again is refused because the task is not open. *)
Theorem accept_half_done :
  let '(o, d') := run (AcceptBid 1 1 "ann") [false; false; false; true] opened in
  o = Err EDb /\ (Task_Status <$> rows (tasks d')) = [TaskStatusAssigned] /\
  (Bid_Status <$> rows (task_bids d')) = [BidStatusPending; BidStatusPending] /\
  (run_ok (AcceptBid 1 1 "ann") d').1 = Err (ETaskNotOpen TaskStatusAssigned).
Proof. vm_compute. by split_and!. Qed.

Definition late : db := set_clock 200 opened.

Lemma expire_tasks_exact_witness :
  affected (expirable (clock late)) (tasks late) = 1 /\
  run_ok (ExpireTasks 1) late = (Ok (Some (affected (expirable (clock late)) (tasks late))),
    set_tasks (update_rows (expirable (clock late)) (with_task_status TaskStatusCancelled "" (clock late)) (tasks late)) late).
Proof.
  split; [vm_compute; reflexivity|].
  refine (proj1 (expire_tasks_exact late 1 _ _)); [exact (proj1 (proj1 (opened_ok true)))|vm_compute; reflexivity].
Defined.

Definition failed_accept : auction_calls := [(1, [false; false; false; true], CallAccept 1 1 "ann")].
Definition whole_sale : auction_calls := [(1, [], CallAccept 1 2 "ann"); (1, [true], CallComplete 1 "cyd")].

Lemma auction_history_witness : auction_ok false (run_auction failed_accept opened) /\ auction_ok true (run_auction whole_sale opened).
Proof.
  split; [exact (proj1 (auction_history failed_accept opened (opened_ok false)))|].
  refine (proj2 (proj2 (auction_history whole_sale opened (opened_ok false))) (opened_ok true) _).
  intros s faults task bid agent Hin. unfold whole_sale in Hin.
  apply elem_of_cons in Hin as [E|Hin]; [injection E as _ -> _ _ _; apply not_elem_of_nil|].
  apply elem_of_cons in Hin as [E|Hin]; [discriminate E|by apply elem_of_nil in Hin].
Defined.

Lemma accept_bid_exact_witness :
  run_ok (AcceptBid 1 2 "ann") opened = accept_spec 1 2 "ann" opened /\
  (Bid_Status <$> rows (task_bids (run_ok (AcceptBid 1 2 "ann") opened).2)) = [BidStatusRejected; BidStatusAccepted].
Proof. split; [apply accept_bid_exact; apply (opened_ok true)|vm_compute; reflexivity]. Defined.

Lemma bids_history_witness : exists ps d',
  rtc (pool_step tick) (auction_prog <$> [CallBid 1 "dan" RawEmpty "" ""; CallAccept 1 1 "ann"], opened) (ps, d') /\
  bids_ok d'.
Proof.
  set (r := run_schedule [(1%nat, false); (0%nat, false); (1%nat, false)]
    (auction_prog <$> [CallBid 1 "dan" RawEmpty "" ""; CallAccept 1 1 "ann"]) opened).
  assert (rtc (pool_step tick) (auction_prog <$> [CallBid 1 "dan" RawEmpty "" ""; CallAccept 1 1 "ann"], opened) (r.1, r.2)) as Hr
    by (subst r; rewrite <- surjective_pairing; apply run_schedule_reachable).
  exists r.1, r.2. split; [exact Hr|].
  apply (bids_history [CallBid 1 "dan" RawEmpty "" ""; CallAccept 1 1 "ann"] opened r.1 r.2); [apply (opened_ok true)|exact Hr].
Defined.
End AuctionRuns.
