(* ===== verification/ChannelsSpec.v ===== *)
(** * Channels: mentions, paging, membership, deletion, broadcast *)
From stdpp Require Import pretty.
From S2P Require Import Prelude Float64 Prog Table Schema Messaging MessagingSpec MessagingQueries Goals Channels.

(** ** Mentions *)

(** A mention may start here: at the beginning or after a boundary character. *)
Definition starts_ok (pre : string) : Prop :=
  pre = "" \/ exists p c, pre = p +:+ String c "" /\ boundary_char c = true.

(** No name character follows. *)
Definition ends_ok (post : string) : Prop :=
  match post with String c _ => name_char c = false | EmptyString => True end.

(** [pre@name post], with the name well formed and at most 64 long. *)
Definition mentions_at (body pre name post : string) : Prop :=
  body = pre +:+ String at_sign (name +:+ post) /\ starts_ok pre /\
  channelNameRegex name = true /\ (String.length name <= 64)%nat.

Lemma append_cons pre a r : pre +:+ String a r = (pre +:+ String a "") +:+ r.
Proof. induction pre as [|b pre IH]; [done|]. exact (f_equal (String b) IH). Qed.

Lemma take_name_spec n s : exists post, s = take_name n s +:+ post /\
  all_chars name_char (take_name n s) = true /\ (String.length (take_name n s) <= n)%nat.
Proof.
  revert s. induction n as [|n IH]; intros s; [exists s; split_and!; [by destruct s|by destruct s|simpl; lia]|].
  destruct s as [|a r]; [exists ""; split_and!; [done|done|simpl; lia]|]. simpl.
  destruct (name_char a) eqn:E; [|exists (String a r); split_and!; [done|done|simpl; lia]].
  destruct (IH r) as (post&H1&H2&H3). exists post. simpl. rewrite E, H2.
  split_and!; [exact (f_equal (String a) H1)|done|lia].
Qed.

Lemma name_at_Some s name : name_at s = Some name ->
  exists post, s = name +:+ post /\ channelNameRegex name = true /\ (String.length name <= 64)%nat.
Proof.
  destruct s as [|a r]; [done|]. cbn [name_at]. destruct (alnum_char a) eqn:E; [|done]. intros H.
  assert (name = String a (take_name 63 r)) as -> by congruence.
  destruct (take_name_spec 63 r) as (post&H1&H2&H3). exists post. cbn [channelNameRegex String.length]. rewrite E, H2.
  split_and!; [exact (f_equal (String a) H1)|done|lia].
Qed.

Lemma take_name_all n name post : all_chars name_char name = true -> (String.length name <= n)%nat ->
  ends_ok post -> take_name n (name +:+ post) = name.
Proof.
  revert name. induction n as [|n IH]; intros [|a name]; simpl; intros Ha Hl Hp; try done; try lia.
  - destruct post as [|c post]; [done|]. simpl in Hp |- *. by rewrite Hp.
  - apply andb_true_iff in Ha as [-> Ha]. rewrite IH; [done|done|lia|done].
Qed.

Lemma name_at_all name post : channelNameRegex name = true -> (String.length name <= 64)%nat ->
  ends_ok post -> name_at (name +:+ post) = Some name.
Proof.
  destruct name as [|a name]; [done|]. cbn [channelNameRegex String.length].
  intros [Ea Ha]%andb_true_iff Hl Hp. change (String a name +:+ post) with (String a (name +:+ post)).
  cbn [name_at]. rewrite Ea, take_name_all; [done|done|lia|done].
Qed.

Lemma find_mentions_sound s pre ok skip m : (ok = true -> starts_ok pre) -> m ∈ find_mentions ok s skip ->
  exists pre' post, mentions_at (pre +:+ s) pre' m post.
Proof.
  revert pre ok skip. induction s as [|a r IH]; intros pre ok skip Hok; [by intros ?%elem_of_nil|].
  assert (forall ok' skip', (ok' = true -> boundary_char a = true) -> m ∈ find_mentions ok' r skip' ->
            exists pre' post, mentions_at (pre +:+ String a r) pre' m post) as Hrec.
  { intros ok' skip' Hb Hm. rewrite append_cons. eapply IH; [|exact Hm].
    intros Ht. right. exists pre, a. auto. }
  simpl. destruct skip as [|k]; [|by apply Hrec].
  destruct (ok && Ascii.eqb a at_sign) eqn:E; [|by apply Hrec].
  apply andb_true_iff in E as [-> ->%Ascii.eqb_eq].
  destruct (name_at r) as [name|] eqn:En; [|by apply Hrec].
  rewrite elem_of_cons. intros [->|Hm]; [|by eapply Hrec].
  apply name_at_Some in En as (post&->&Hr&Hl). exists pre, post. split_and!; auto.
Qed.

(** How many characters from here on a match may have consumed. *)
Fixpoint lead (s : string) : nat :=
  match s with String a r => if name_char a then S (lead r) else O | EmptyString => O end.

Lemma take_name_lead n s : (String.length (take_name n s) <= lead s)%nat.
Proof.
  revert s. induction n as [|n IH]; intros [|a r]; simpl; try lia.
  destruct (name_char a); simpl; [|lia]. specialize (IH r). lia.
Qed.

Lemma name_at_lead s name : name_at s = Some name -> (String.length name <= lead s)%nat.
Proof.
  destruct s as [|a r]; [done|]. cbn [name_at lead]. destruct (alnum_char a) eqn:E; [|done]. intros H.
  assert (name = String a (take_name 63 r)) as -> by congruence.
  unfold name_char. rewrite E. cbn [orb String.length]. pose proof (take_name_lead 63 r). lia.
Qed.

Lemma find_mentions_after p c ok skip name post :
  boundary_char c = true -> name_char c = false -> channelNameRegex name = true ->
  (String.length name <= 64)%nat -> ends_ok post ->
  (skip <= lead (p +:+ String c (String at_sign (name +:+ post))))%nat ->
  name ∈ find_mentions ok (p +:+ String c (String at_sign (name +:+ post))) skip.
Proof.
  intros Hb Hc Hn Hl Hp. set (rest := String at_sign (name +:+ post)).
  revert ok skip. induction p as [|a p IH]; intros ok skip.
  - change ("" +:+ String c rest) with (String c rest). cbn [find_mentions lead].
    rewrite Hc. intros Hs. assert (skip = O) as -> by lia.
    assert (Ascii.eqb c at_sign = false) as ->.
    { unfold boundary_char in Hb. apply negb_true_iff, orb_false_iff in Hb as [_ Hb]. done. }
    rewrite andb_false_r, Hb. unfold rest. cbn [find_mentions].
    change (true && Ascii.eqb at_sign at_sign) with true. rewrite name_at_all by done. set_solver.
  - change (String a p +:+ String c rest) with (String a (p +:+ String c rest)). cbn [find_mentions lead].
    destruct skip as [|k].
    + intros _. destruct (if ok && Ascii.eqb a at_sign then _ else _) as [nm|] eqn:E; [|apply IH; lia].
      apply elem_of_cons. right. apply IH. destruct (ok && _); [|done]. by apply name_at_lead.
    + intros Hs. apply IH. destruct (name_char a); lia.
Qed.

Lemma dedup_from_spec seen l : NoDup (dedup_from seen l) /\
  forall x, x ∈ dedup_from seen l <-> x ∈ l /\ x ∉ seen.
Proof.
  revert seen. induction l as [|y l IH]; intros seen; simpl; [split; [constructor|set_solver]|].
  case_bool_decide as Hy.
  - destruct (IH seen) as [H1 H2]. split; [done|]. intros x. rewrite H2. set_solver.
  - destruct (IH (y :: seen)) as [H1 H2]. split.
    + constructor; [|done]. rewrite H2. set_solver.
    + intros x. rewrite elem_of_cons, H2, !elem_of_cons. destruct (decide (x = y)); set_solver.
Qed.

(** ParseMentions returns, in lower case and once each, names that occur as
    mentions in the text: after an [@] that starts the text or follows a
    character other than a letter, digit, dot or [@] (so never inside an e-mail
    address).  And it misses none whose preceding character is not a name
    character and which ends where its name ends. *)
Theorem parse_mentions_spec (body : string) :
  NoDup (ParseMentions body) /\
  (forall m, m ∈ ParseMentions body ->
     exists pre name post, m = sql_lower name /\ mentions_at body pre name post) /\
  (forall pre name post, mentions_at body pre name post -> ends_ok post ->
     (forall p c, pre = p +:+ String c "" -> name_char c = false) ->
     sql_lower name ∈ ParseMentions body).
Proof.
  unfold ParseMentions. destruct (dedup_from_spec [] (sql_lower <$> find_mentions true body 0)) as [Hnd Hin].
  split_and!; [done| |].
  - intros m [(name&->&Hm)%list_elem_of_fmap _]%Hin.
    destruct (find_mentions_sound body "" true 0 name) as (pre&post&H); [by left|done|]. eauto.
  - intros pre name post (->&Hs&Hr&Hl) Hp Hc. apply Hin. split; [|set_solver].
    apply list_elem_of_fmap_2. destruct Hs as [->|(p&c&->&Hb)].
    + simpl. rewrite name_at_all by done. set_solver.
    + rewrite <- append_cons. apply find_mentions_after; [done|by eapply Hc|done|done|done|lia].
Qed.

(** ** Paging in memory *)

(** The in-memory paging of channels and tasks returns the page that LIMIT
      and OFFSET would, whatever the offset, unless the 64-bit sum of start and
      limit overflows; then it panics. *)
Theorem slice_page_spec {A} (l : list A) (limit offset : Z)
    (Hlimit : 0 < limit <= int64_max) (Hoffset : 0 <= offset)
    (Hlen : Z.of_nat (length l) <= int64_max) :
  @slice_page error A l limit offset =
  if Z.min offset (Z.of_nat (length l)) + limit <=? int64_max
  then Ok (page limit offset l) else Panic "slice bounds out of range".
Proof.
  unfold slice_page, page. set (n := Z.of_nat (length l)) in *.
  replace (if n <? offset then n else offset) with (Z.min offset n) by (destruct (Z.ltb_spec n offset); lia).
  assert (0 <= n) by lia. destruct (Z.leb_spec (Z.min offset n + limit) int64_max) as [Hle|Hgt].
  - rewrite wrap64_id by (unfold in_int64, int64_min; lia).
    replace (if n <? Z.min offset n + limit then n else Z.min offset n + limit) with (Z.min n (Z.min offset n + limit))
      by (destruct (Z.ltb_spec n (Z.min offset n + limit)); lia).
    rewrite (proj2 (Z.ltb_ge _ _)) by lia. f_equal.
    destruct (Z.leb_spec offset n) as [Ho|Ho].
    + rewrite (Z.min_l offset n) by done. destruct (Z.leb_spec (offset + limit) n).
      * rewrite Z.min_r by lia. by replace (offset + limit - offset) with limit by lia.
      * rewrite Z.min_l by lia. rewrite !take_ge; [done|rewrite length_drop; lia..].
    + rewrite !drop_ge by lia. by rewrite !take_nil.
  - assert (wrap64 (Z.min offset n + limit) = Z.min offset n + limit - 2 ^ 64) as ->.
    { unfold wrap64, int64_max in *.
      rewrite <- (Zmod_unique (Z.min offset n + limit + 2 ^ 63) (2 ^ 64) 1 (Z.min offset n + limit - 2 ^ 63)); lia. }
    unfold int64_max in *. rewrite (proj2 (Z.ltb_ge n _)) by lia. by rewrite (proj2 (Z.ltb_lt _ _)) by lia.
Qed.

(** ** Creating *)
Section Creating.
Context {HLow : GoUnicode}.

Lemma name_char_ascii a : name_char a = true -> is_ascii a = true.
Proof.
  unfold name_char, alnum_char, is_upper, is_alnum, is_lower, is_digit, is_ascii, dash. intros H.
  destruct a as [[] [] [] [] [] [] [] []]; try reflexivity; vm_compute in H; discriminate.
Qed.

Lemma all_chars_impl (p q : Ascii.ascii -> bool) s : (forall a, p a = true -> q a = true) ->
  all_chars p s = true -> all_chars q s = true.
Proof.
  intros H. induction s as [|a s IH]; simpl; [done|]. intros [Ha Hs]%andb_true_iff. by rewrite H, IH.
Qed.

Lemma regex_chars s : channelNameRegex s = true -> all_chars name_char s = true.
Proof.
  destruct s as [|a s]; [done|]. cbn [channelNameRegex all_chars]. intros [Ha H]%andb_true_iff.
  unfold name_char at 1. by rewrite Ha, H.
Qed.

Lemma ToLower_name s : channelNameRegex s = true -> ToLower s = sql_lower s.
Proof.
  intros H. apply ToLower_ascii. apply (all_chars_impl name_char); [apply name_char_ascii|by apply regex_chars].
Qed.

Lemma validate_cases name :
  (ValidateChannelName name = Ok tt /\ channelNameRegex name = true /\ (String.length name <= 64)%nat) \/
  (ValidateChannelName name = Err ErrInvalidChannelName /\
   ~ (channelNameRegex name = true /\ (String.length name <= 64)%nat)).
Proof.
  unfold ValidateChannelName. destruct (str_empty name) eqn:E.
  { unfold str_empty in E. guards. subst. right. split; [done|]. by intros [? _]. }
  destruct (64 <? String.length name)%nat eqn:El.
  { apply Nat.ltb_lt in El. right. split; [done|]. lia. }
  apply Nat.ltb_ge in El. destruct (channelNameRegex name); [left|right]; simpl; [done|]. split; [done|by intros []].
Qed.

(** The row CreateChannel inserts. *)
Definition created (req : CreateChannelRequest) (d : db) : Channel :=
  channel_row (requested_channel req) (clock d) (next_id (channels d)).

Definition with_channel (req : CreateChannelRequest) (d : db) : db :=
  set_channels (insert_row (channel_row (requested_channel req) (clock d)) (channels d)) d.

Definition with_owner (ch : Z) (owner : string) (d : db) : db :=
  set_channel_members (insert_row (fun id => mkMembership id ch owner RoleOwner (clock d)) (channel_members d)) d.

(** CreateChannel accepts exactly the well-formed names that are free after
    lower-casing (and the known types); on success the channel is stored under
    the lower-cased name, with the default settings, and its creator is its
    owner.  A refused request changes nothing; only the failure of the second
    statement leaves a channel behind, without a member. *)
Theorem create_channel_effect (req : CreateChannelRequest) (d : db)
    (Hmembers : forall m, m ∈ rows (channel_members d) -> Mem_ChannelID m < next_id (channels d)) :
  wp (CreateChannel req) (fun o d' =>
    match o with
    | Ok ch => channelNameRegex (req_Name req) = true /\ (String.length (req_Name req) <= 64)%nat /\
        name_taken d (sql_lower (req_Name req)) = false /\
        Ch_ID ch = next_id (channels d) /\ Ch_Name ch = sql_lower (req_Name req) /\
        d' = with_owner (Ch_ID ch) (req_CreatedBy req) (with_channel req d)
    | Err e => d' = d \/ (e = EDb /\ d' = with_channel req d)
    | Panic _ => False
    end) d /\
  ((run_ok (CreateChannel req) d).1 = Err ErrChannelNameConflict <->
   channelNameRegex (req_Name req) = true /\ (String.length (req_Name req) <= 64)%nat /\
   channel_type_allowed (Ch_Type (requested_channel req)) = true /\
   name_taken d (sql_lower (req_Name req)) = true).
Proof.
  unfold CreateChannel. destruct (validate_cases (req_Name req)) as [(->&Hr&Hl)|[-> Hn]].
  2: { split; [by left|]. unfold run_ok. simpl. split; [done|]. naive_solver. }
  assert (Ch_Name (requested_channel req) = sql_lower (req_Name req)) as Hname by (by apply ToLower_name).
  unfold store_CreateChannel, channel_insertable. rewrite Hname.
  assert (has_member (with_channel req d) (next_id (channels d)) (req_CreatedBy req) = false) as Hfresh.
  { unfold has_member. apply negb_false_iff, Z.eqb_eq, count_if_0. intros m Hm.
    unfold member_key. apply Hmembers in Hm. rewrite (proj2 (Z.eqb_neq _ _)) by lia. done. }
  assert (channel_exists (with_channel req d) (next_id (channels d)) = true) as Hex.
  { unfold channel_exists. rewrite affected_find.
    destruct (find_row_is_Some (by_id (next_id (channels d))) (channels (with_channel req d)) (created req d)) as [c ->]; [| |done].
    - simpl. apply elem_of_app. right. by apply list_elem_of_singleton.
    - apply Z.eqb_refl. }
  split.
  - apply wp_bind_ok. cbn [wp exec_o]. split; [|by left].
    destruct (channel_type_allowed _); [|rewrite andb_false_r; by left].
    destruct (name_taken d _) eqn:Et; cbn [negb andb]; [by left|].
    apply wp_bind_ok. cbn [wp AddMember exec_o]. fold (with_channel req d). cbn [Ch_ID with_channel_id].
    rewrite Hfresh, Hex. cbn [member_role_allowed negb andb]. split; [|by right]. by split_and!.
  - rewrite run_ok_bind_ok. cbn [run_ok exec_o run].
    destruct (channel_type_allowed _); cbn [negb]; [|split; [done|naive_solver]].
    destruct (name_taken d _) eqn:Et; [by split|]. cbn [negb andb]. fold (with_channel req d).
    rewrite run_ok_bind_ok. cbn [run_ok AddMember exec_o run Ch_ID with_channel_id]. rewrite Hfresh, Hex.
    split; [done|naive_solver].
Qed.
End Creating.

(** ** Membership, one call at a time *)

(** Step past a statement of a fault-free run. *)
Ltac refold_run := repeat match goal with
  | |- context [run ?p [] ?d] => change (run p [] d) with (run_ok p d)
  end.
Definition joined (ch : Z) (agent : string) (role : MemberRole) (d : db) : db :=
  set_channel_members (insert_row (fun id => mkMembership id ch agent role (clock d)) (channel_members d)) d.

Definition invite_accepted (ch : Z) (agent : string) (d : db) : db :=
  set_channel_invites (update_rows (pending_key ch agent) (fun i => with_invite InviteStatusAccepted (InvitedBy i) i)
    (channel_invites d)) d.

Definition left_channel (ch : Z) (agent : string) (d : db) : db :=
  set_channel_members (delete_rows (member_key ch agent) (channel_members d)) d.

Definition is_owner (d : db) (ch : Z) (agent : string) : bool :=
  match find_row (member_key ch agent) (channel_members d) with
  | Some m => bool_decide (Mem_Role m = RoleOwner)
  | None => false
  end.

Lemma has_member_find d ch agent :
  has_member d ch agent = match find_row (member_key ch agent) (channel_members d) with Some _ => true | None => false end.
Proof. unfold has_member. rewrite affected_find. by destruct (find_row _ _). Qed.

Lemma channel_exists_find d ch :
  channel_exists d ch = match find_id ch (channels d) with Some _ => true | None => false end.
Proof. unfold channel_exists, find_id. rewrite affected_find. by destruct (find_row _ _). Qed.

(** JoinChannel without failures, as a function of the database. *)
Definition join_spec (ch : Z) (agent : string) (d : db) : outcome error unit * db :=
  match find_id ch (channels d) with
  | None => (Err ErrChannelNotFound, d)
  | Some c =>
      if has_member d ch agent then (Ok tt, d)
      else if negb (IsPrivate c) then (Ok tt, joined ch agent RoleMember d)
      else if has_pending d ch agent then (Ok tt, joined ch agent RoleMember (invite_accepted ch agent d))
      else (Err ErrNotInvited, d)
  end.

(** Joining: a member stays as is; a public channel takes anyone; a private
      one takes only an agent with a pending invitation, which is used up;
      anyone else is refused without a trace.  When statements fail, success
      still means exactly this, and an error has at most used up the
      invitation. *)
Theorem join_channel_exact (ch : Z) (agent : string) (d : db) :
  run_ok (JoinChannel ch agent) d = join_spec ch agent d /\
  wp (JoinChannel ch agent) (fun o d' =>
    (o, d') = join_spec ch agent d \/
    (o = Err EDb /\ (d' = d \/ d' = invite_accepted ch agent d))) d.
Proof.
  unfold JoinChannel, join_spec. pose proof (channel_exists_find d ch) as Hex.
  assert (channel_exists (invite_accepted ch agent d) ch = channel_exists d ch) as Hex' by done.
  assert (has_member (invite_accepted ch agent d) ch agent = has_member d ch agent) as Hm' by done.
  split.
  - rewrite run_ok_bind_ok. cbn [run_ok store_GetChannel query_o exec_o run].
    destruct (find_id ch (channels d)) as [c|]; [|done].
    rewrite run_ok_bind_ok. cbn [run_ok store_IsMember query exec run].
    destruct (has_member d ch agent) eqn:Em; [done|]. refold_run. rewrite run_ok_bind_ok.
    destruct (IsPrivate c); cbn [negb].
    + rewrite run_ok_bind_ok. cbn [run_ok HasPendingInvite query exec run].
      destruct (has_pending d ch agent) eqn:Ep; cbn [negb]; [|done].
      cbn [run_ok AcceptInvite exec_o run]. rewrite Ep. fold (invite_accepted ch agent d).
      unfold run_ok. cbn [AddMember exec_o run member_role_allowed negb andb]. by rewrite Hm', Hex', Hex.
    + unfold run_ok. cbn [AddMember exec_o run member_role_allowed negb andb]. by rewrite Em, Hex.
  - apply wp_bind_ok. cbn [wp store_GetChannel query_o exec_o]. split; [|by auto].
    destruct (find_id ch (channels d)) as [c|]; [|by left].
    apply wp_bind_ok. cbn [wp store_IsMember query exec]. split; [|by auto].
    destruct (has_member d ch agent) eqn:Em; [by left|]. apply wp_bind_ok.
    destruct (IsPrivate c); cbn [negb].
    + apply wp_bind_ok. cbn [wp HasPendingInvite query exec]. split; [|by auto].
      destruct (has_pending d ch agent) eqn:Ep; cbn [negb]; [|by left].
      cbn [wp AcceptInvite exec_o]. rewrite Ep. fold (invite_accepted ch agent d). split; [|by auto].
      cbn [wp AddMember exec_o member_role_allowed negb andb]. rewrite Hm', Hex', Hex. split; [by left|by auto].
    + cbn [wp AddMember exec_o member_role_allowed negb andb]. rewrite Em, Hex. split; [by left|by auto].
Qed.

Lemma wp_require_owner ch agent d (Q : outcome error unit -> db -> Prop) :
  (is_owner d ch agent = true -> Q (Ok tt) d) ->
  (forall e, (e = EDb \/ e = ErrNotChannelMember \/ e = ErrNotChannelOwner) -> Q (Err e) d) ->
  wp (require_owner ch agent) Q d.
Proof.
  unfold require_owner, is_owner. intros H1 H2. apply wp_bind_ok. cbn [wp GetMember query_o exec_o]. split; [|auto].
  destruct (find_row _ _) as [m|]; [|auto]. destruct (bool_decide (Mem_Role m = RoleOwner)); simpl; auto.
Qed.

Lemma wp_store_GetChannel ch d (Q : outcome error Channel -> db -> Prop) :
  (forall e, Q (Err e) d) -> (forall c, find_id ch (channels d) = Some c -> Q (Ok c) d) ->
  wp (store_GetChannel ch) Q d.
Proof.
  intros H1 H2. cbn [wp store_GetChannel query_o exec_o]. split; [|auto]. destruct (find_id _ _); auto.
Qed.

Definition channel_edited (ch : Z) (description topic : option string) (c : Channel) (d : db) : db :=
  set_channels (update_rows (by_id ch) (with_meta (default (Ch_Description c) description)
    (default (Ch_Topic c) topic) (clock d)) (channels d)) d.

(** Only an owner moderates: whatever fails, inviting, kicking and editing
      change the database only when the caller owns the channel, and then by
      one invitation of a non-member, by the removal of somebody else, or in
      the description and topic.  Only leaving changes the members on one's own
      behalf: never an owner's, and never in a system channel. *)
Theorem owner_guards (ch : Z) (agent caller : string) (description topic : option string) (d : db) :
  wp (InviteToChannel ch agent caller) (fun o d' => d' = d \/
    (o = Ok tt /\ is_owner d ch caller = true /\ has_member d ch agent = false /\
     d' = set_channel_invites (upsert_invite ch agent caller (clock d) (channel_invites d)) d)) d /\
  wp (KickFromChannel ch agent caller) (fun o d' => d' = d \/
    (is_owner d ch caller = true /\ agent <> caller /\ d' = left_channel ch agent d)) d /\
  wp (UpdateChannel ch description topic caller) (fun o d' => d' = d \/
    (exists c, find_id ch (channels d) = Some c /\ is_owner d ch caller = true /\
     d' = channel_edited ch description topic c d)) d /\
  wp (LeaveChannel ch agent) (fun o d' => d' = d \/
    (exists c, find_id ch (channels d) = Some c /\ IsSystem c = false /\ is_owner d ch agent = false /\
     d' = left_channel ch agent d)) d.
Proof.
  split_and!.
  - apply wp_bind_ok, wp_store_GetChannel; [by left|]. intros c _.
    apply wp_bind_ok, wp_require_owner; [|by left]. intros Ho.
    apply wp_bind_ok. cbn [wp store_IsMember query exec]. split; [|by left].
    destruct (has_member d ch agent) eqn:Em; [by left|]. cbn [wp CreateInvite exec_o]. split; [|by left].
    destruct (channel_exists d ch); [by right|by left].
  - apply wp_bind_ok, wp_store_GetChannel; [by left|]. intros c _.
    apply wp_bind_ok, wp_require_owner; [|by left]. intros Ho.
    destruct (String.eqb agent caller) eqn:Ea; [by left|]. guards.
    cbn [wp RemoveMember exec_o]. split; [|by left]. by right.
  - apply wp_bind_ok, wp_store_GetChannel; [by left|]. intros c Hc.
    apply wp_bind_ok, wp_require_owner; [|by left]. intros Ho.
    apply wp_bind_ok. apply find_id_Some in Hc as Hid. destruct Hid as [Hid _].
    cbn [wp store_UpdateChannel update_channel exec_o]. split; [|by left].
    assert (Ch_ID (with_meta (default (Ch_Description c) description) (default (Ch_Topic c) topic) (Ch_UpdatedAt c) c) = ch) as -> by done.
    destruct (affected _ _ =? 0) eqn:E.
    + left. rewrite update_rows_none; [by destruct d|by apply Z.eqb_eq].
    + apply wp_store_GetChannel; intros; right; exists c; by split_and!.
  - apply wp_bind_ok, wp_store_GetChannel; [by left|]. intros c Hc.
    destruct (IsSystem c) eqn:Es; [by left|]. apply wp_bind_ok. cbn [wp GetMember query_o exec_o]. split; [|by left].
    destruct (find_row (member_key ch agent) (channel_members d)) as [m|] eqn:Em; [|by left].
    destruct (bool_decide (Mem_Role m = RoleOwner)) eqn:Er; [by left|].
    cbn [wp RemoveMember exec_o]. split; [|by left]. right. exists c. split_and!; try done.
    unfold is_owner. by rewrite Em.
Qed.

(** DeleteChannel refuses system channels and channels that messages,
      conversations or auction tasks name; otherwise it removes the channel with
      its members, invitations, goals and their tasks.  Any other outcome leaves
      the database as it was. *)
Theorem delete_channel_effect (ch : Z) (d : db) :
  wp (DeleteChannel ch) (fun o d' =>
    match o with
    | Ok _ => (exists c, find_id ch (channels d) = Some c /\ IsSystem c = false) /\
        channel_referenced d ch = false /\ d' = delete_cascade ch d
    | Err _ => d' = d
    | Panic _ => False
    end) d /\
  (channel_referenced d ch = true -> is_ok (run_ok (DeleteChannel ch) d).1 = false).
Proof.
  split.
  - apply wp_bind_ok, wp_store_GetChannel; [done|]. intros c Hc. destruct (IsSystem c) eqn:Es; [done|].
    pose proof (channel_exists_find d ch) as Hex. rewrite Hc in Hex. unfold channel_exists in Hex.
    apply negb_true_iff in Hex. cbn [wp store_DeleteChannel exec_o]. rewrite Hex. split; [|done].
    destruct (channel_referenced d ch) eqn:Er; [done|]. split_and!; eauto.
  - intros Hr. unfold DeleteChannel. rewrite run_ok_bind_ok. cbn [run_ok store_GetChannel query_o exec_o run].
    destruct (find_id ch (channels d)) as [c|]; [|done]. destruct (IsSystem c); [done|].
    unfold run_ok. cbn [store_DeleteChannel exec_o run]. rewrite Hr. by destruct (_ =? 0).
Qed.

(** ** Broadcast *)
Lemma filter_sublist_impl {A} (P Q : A -> Prop) `{!forall x, Decision (P x), !forall x, Decision (Q x)} (l : list A) :
  (forall x, P x -> Q x) -> filter P l `sublist_of` filter Q l.
Proof.
  intros HPQ. induction l as [|x l IH]; [done|]. rewrite !filter_cons.
  destruct (decide (P x)) as [Hp|Hp]; [rewrite decide_True by auto; by constructor|].
  destruct (decide (Q x)); [by constructor|done].
Qed.

Section Broadcast.
Context {HEng : Engine} {HJson : GoJson} {HLink : AttachmentLinker}.

Lemma SendMessage_channels from to body opts : within same_channels (SendMessage from to body opts).
Proof.
  unfold SendMessage, send_persist. repeat case_match; try done.
  all: apply within_bind_ok; [unfold send_check_recipient; case_match; [done|by apply within_bind_ok; [|intros []]]|intros _].
  all: apply within_bind_ok; [unfold send_find_conversation; case_match; [by apply within_bind_ok|];
       case_match; [|done]; apply within_bind; [done|by intros [|[]|]]|].
  all: intros found; apply within_bind_ok; [destruct found; [done|]; simpl; split; [|done]; intros d; by split|intros conv].
  all: apply within_bind_ok; [simpl; split; [|done]; intros d; split; [by repeat case_match|done]|intros msg].
  all: apply within_bind; [|done]; apply within_for_each; intros hash;
       apply within_bind; [apply AttachToMessage_channels|done].
Qed.

Lemma wp_send from to body opts d :
  wp (SendMessage from to body opts) (fun o d' => same_channels d d' /\
    send_effect from to body opts d o d' /\ (is_ok o = true -> send_input_ok to body opts)) d.
Proof. apply wp_and; [apply within_wp; [apply _|apply SendMessage_channels]|apply wp_SendMessage]. Qed.

(** A notification of [a]. *)
Definition notice_to (from body a : string) (m : Message) : Prop :=
  to_agent m = Some a /\ FromAgent m = from /\ Body m = body /\ Msg_ChannelID m = None /\ Status m = StatusPending.

Definition to_notify (from : string) (mentioned : list string) (members : list Membership) : list string :=
  filter (fun a => a <> from /\ a ∈ mentioned) (Mem_AgentName <$> members).

Lemma wp_notifyMentions c ch from body prio post mentioned members d :
  wp (notify_mentioned c ch from body prio post mentioned members) (fun _ d' => same_channels d d' /\
    exists who new, rows (messages d') = rows (messages d) ++ new /\
      who `sublist_of` to_notify from mentioned members /\ Forall2 (notice_to from body) who new) d.
Proof.
  unfold notify_mentioned, to_notify. revert d. induction members as [|m ms IH]; intros d.
  { simpl. split; [done|]. exists [], []. by rewrite app_nil_r. }
  cbn [for_each fmap list_fmap]. apply wp_bind. rewrite filter_cons.
  destruct (String.eqb (Mem_AgentName m) from || negb (bool_decide (Mem_AgentName m ∈ mentioned))) eqn:E.
  - rewrite decide_False; [apply IH|]. intros [H1 H2]. apply orb_true_iff in E as [E|E]; by guards.
  - guards. rewrite decide_True by done. apply wp_bind. eapply wp_mono; [|apply wp_send].
    intros o d1 (Hc1&He&Hin). cbn [wp]. eapply wp_mono; [|apply IH].
    intros _ d2 (Hc2&who&new&Hr&Hs&Hf). split; [by etrans|]. destruct o as [msg|e|w]; simpl in He.
    + destruct He as (conv&Hm&_). destruct (Hin eq_refl) as (_&Hto&_). rewrite Hm in Hr. simpl in Hr.
      exists (Mem_AgentName m :: who). eexists. rewrite Hr, <- app_assoc. split_and!; [done|by constructor|].
      constructor; [|done]. unfold notice_to. simpl. unfold nullable.
      destruct (str_empty (Mem_AgentName m)); [|done]. by destruct (proj1 Hto eq_refl).
    + exists who, new. rewrite Hr, He. split_and!; [done|by constructor|done].
    + exists who, new. rewrite Hr, He. split_and!; [done|by constructor|done].
Qed.

Lemma wp_ensure_sender c ch from d : find_id ch (channels d) = Some c ->
  wp (ensure_sender c ch from) (fun o d' => messages d' = messages d /\
    match o with
    | Ok _ => has_member d' ch from = true /\
        (d' = d /\ has_member d ch from = true \/ IsPrivate c = false /\ d' = joined ch from RoleMember d)
    | _ => IsPrivate c = true -> d' = d
    end) d.
Proof.
  intros Hc. apply wp_bind_ok. cbn [wp store_IsMember query exec]. split; [|done].
  destruct (has_member d ch from) eqn:Em; [by split_and!; auto|]. destruct (IsPrivate c) eqn:Ep; [done|].
  apply wp_bind_ok, wp_store_GetChannel; [done|]. intros c' Hc'. assert (c' = c) as -> by congruence.
  apply wp_bind_ok. cbn [wp store_IsMember query exec]. split; [|done]. rewrite Em, Ep.
  cbn [bind_ok bind wp AddMember exec_o member_role_allowed negb andb].
  rewrite Em. pose proof (channel_exists_find d ch) as Hex. rewrite Hc in Hex. rewrite Hex. cbn [negb andb].
  split; [|done]. split; [done|]. split; [|by right].
  rewrite has_member_find. destruct (find_row_is_Some (member_key ch from) (channel_members (joined ch from RoleMember d))
    (mkMembership (next_id (channel_members d)) ch from RoleMember (clock d))) as [m Hm].
  - simpl. apply elem_of_app. right. by apply list_elem_of_singleton.
  - unfold member_key. simpl. by rewrite Z.eqb_refl, String.eqb_refl.
  - unfold joined in Hm. by rewrite Hm.
Qed.

(** A broadcast, whatever fails on the way, appends at most one post to the
    channel followed by private notifications.  A post is there exactly when
    the call succeeds, and then its author is a member (in a private channel,
    was one before).  Every notification goes to a member other than the
    author whom the text mentions, carries the text, and no mentioned member
    is notified more often than he is a member. *)
Theorem broadcast_effect ch from body prio meta reply atts d :
  wp (BroadcastMessage ch from body prio meta reply atts) (fun o d' =>
    exists new, rows (messages d') = rows (messages d) ++ new /\
    match new with
    | [] => is_ok o = false
    | post :: notices =>
        (exists m, o = Ok [m] /\ Msg_ID m = Msg_ID post) /\
        FromAgent post = from /\ Msg_ChannelID post = Some ch /\ to_agent post = None /\ Body post = body /\
        has_member d' ch from = true /\
        (forall c, find_id ch (channels d) = Some c -> IsPrivate c = true -> has_member d ch from = true) /\
        exists who members, Forall2 (notice_to from body) who notices /\
          Permutation members (select (fun m => Mem_ChannelID m =? ch) (channel_members d')) /\
          who `sublist_of` filter (fun a => a <> from /\ a ∈ ParseMentions body) (Mem_AgentName <$> members)
    end) d.
Proof.
  assert (forall o d', is_ok o = false -> messages d' = messages d -> exists new : list Message,
    rows (messages d') = rows (messages d) ++ new /\
    match new with [] => @is_ok error (list Message) o = false | _ :: _ => False end) as Hnone.
  { intros o d' Ho ->. exists []. by rewrite app_nil_r. }
  apply wp_bind_ok, wp_store_GetChannel; [intros e; exists []; by rewrite app_nil_r|]. intros c Hc.
  apply wp_bind_ok. eapply wp_mono; [|by apply wp_ensure_sender].
  intros [[]|e|w] d1 [Hm1 H1]; [|exists []; by rewrite Hm1, app_nil_r..]. destruct H1 as [Hmem Hd1].
  apply wp_bind_ok. cbn [wp GetMembers query exec]. split; [|exists []; by rewrite Hm1, app_nil_r].
  set (members := select_by joined_first _ _).
  apply wp_bind_ok. eapply wp_mono; [|apply wp_send].
  intros [post|e|w] d2 (Hc2&He&Hin); simpl in He; [|exists []; by rewrite He, Hm1, app_nil_r..].
  destruct He as (conv&Hm2&Hid). apply wp_bind. eapply wp_mono; [|apply wp_notifyMentions].
  intros _ d3 (Hc3&who&new&Hr&Hs&Hf). cbn [wp]. rewrite Hm2, Hm1 in Hr. simpl in Hr. rewrite <- app_assoc in Hr.
  eexists. split; [exact Hr|]. cbn [app]. destruct Hc2 as (_&Hcm2&_), Hc3 as (_&Hcm3&_).
  split_and!; [exists post; by rewrite Hid, Hm1|done|done|done|done| | |].
  - unfold has_member in *. by rewrite Hcm3, Hcm2.
  - intros c' Hc' Hp. assert (c' = c) as -> by congruence. destruct Hd1 as [[-> ?]|[? _]]; [done|congruence].
  - exists who, members. split_and!; [done|rewrite Hcm3, Hcm2; apply select_by_perm|].
    etrans; [exact Hs|]. apply filter_sublist_impl. intros a [Ha Hin']. split; [done|].
    by apply list_elem_of_filter in Hin' as [_ ?].
Qed.
End Broadcast.
