(* ===== verification/ChannelsHistory.v ===== *)
(** * Channels: what concurrent calls cannot break

    The invariant of the channel tables under any interleaving of the
    service's calls: who can be in a private channel, and the uniqueness of
    names, memberships and invitations. *)
From S2P Require Import Prelude Float64 Prog Table Schema Messaging MessagingSpec MessagingQueries Goals Channels ChannelsSpec.

Definition member_name (m : Membership) : Z * string := (Mem_ChannelID m, Mem_AgentName m).
Definition invite_name (i : ChannelInvite) : Z * string := (Inv_ChannelID i, Inv_AgentName i).

(** What no operation changes of a channel. *)
Definition channel_fixed (c c' : Channel) : Prop :=
  Ch_ID c' = Ch_ID c /\ Ch_Name c' = Ch_Name c /\ Ch_Type c' = Ch_Type c /\
  IsPrivate c' = IsPrivate c /\ IsSystem c' = IsSystem c /\ Ch_CreatedBy c' = Ch_CreatedBy c.
#[export] Instance channel_fixed_preorder : PreOrder channel_fixed.
Proof. split; [repeat split|]. unfold channel_fixed. intros a b c; naive_solver congruence. Qed.

Definition has_channel (d : db) (id : Z) : Prop := exists c, c ∈ rows (channels d) /\ Ch_ID c = id.

(** Ids are never reused and channels keep their nature; an invitation lasts as
    long as its channel. *)
Definition channels_le (d d' : db) : Prop :=
  next_id (channels d) <= next_id (channels d') /\
  (forall c', c' ∈ rows (channels d') -> Ch_ID c' < next_id (channels d) ->
     exists c, c ∈ rows (channels d) /\ channel_fixed c c') /\
  (forall i, i ∈ rows (channel_invites d) -> Inv_ChannelID i < next_id (channels d) ->
     has_channel d' (Inv_ChannelID i) ->
     exists i', i' ∈ rows (channel_invites d') /\ invite_name i' = invite_name i).

#[export] Instance channels_le_preorder : PreOrder channels_le.
Proof.
  split.
  - intros d. split_and!; [lia|intros c Hc _; by exists c|intros i Hi _ _; by exists i].
  - intros a b c (N1&C1&I1) (N2&C2&I2). split_and!; [lia| |].
    + intros c' Hc' Hlt. destruct (C2 c' Hc') as (c2&Hc2&F2); [lia|]. pose proof F2 as (Hid&_).
      destruct (C1 c2 Hc2) as (c1&Hc1&F1); [lia|]. exists c1. split; [done|by etrans].
    + intros i Hi Hlt (c'&Hc'&Hid). destruct (C2 c' Hc') as (c2&Hc2&F2); [lia|]. pose proof F2 as (Hid2&_).
      destruct (I1 i Hi Hlt) as (i1&Hi1&E1); [exists c2; split; [done|lia]|].
      assert (Inv_ChannelID i1 = Inv_ChannelID i) as Ei by (unfold invite_name in E1; congruence).
      destruct (I2 i1 Hi1) as (i2&Hi2&E2); [lia|exists c'; split; [done|lia]|]. exists i2. split; [done|congruence].
Qed.

Definition valid_name (c : Channel) : Prop :=
  exists n, channelNameRegex n = true /\ (String.length n <= 64)%nat /\ Ch_Name c = sql_lower n.

Section History.
Context {HEng : Engine} {HJson : GoJson} {HLink : AttachmentLinker} {HLow : GoUnicode}.

(** For which users' my-agents channels which agents were ever put forward. *)
Context (asked : string -> string -> Prop).
Definition my_agents (c : Channel) (agent : string) : Prop :=
  exists user, asked user agent /\ sql_lower (Ch_Name c) = sql_lower (MyAgentsChannelName user).

(** Members of a private channel own it, were invited, or were put forward for
    the user whose my-agents channel it is. *)
Definition admissible (d : db) (ch : Z) (agent : string) (role : MemberRole) : Prop :=
  forall c, c ∈ rows (channels d) -> Ch_ID c = ch -> IsPrivate c = true ->
    role = RoleOwner \/ (exists i, i ∈ rows (channel_invites d) /\ invite_name i = (ch, agent)) \/ my_agents c agent.

Definition channels_ok (d : db) : Prop :=
  (table_ok (channels d) /\ table_ok (channel_members d) /\ table_ok (channel_invites d)) /\
  (NoDup (Ch_Name <$> rows (channels d)) /\ NoDup (member_name <$> rows (channel_members d)) /\
   NoDup (invite_name <$> rows (channel_invites d))) /\
  (forall c, c ∈ rows (channels d) -> valid_name c) /\
  (forall i, i ∈ rows (channel_invites d) -> has_channel d (Inv_ChannelID i)) /\
  (forall m, m ∈ rows (channel_members d) -> has_channel d (Mem_ChannelID m)) /\
  (forall m, m ∈ rows (channel_members d) -> admissible d (Mem_ChannelID m) (Mem_AgentName m) (Mem_Role m)).

Abbreviation I := channels_ok.
Abbreviation R := channels_le.

Lemma same_channels_step d d' : I d -> same_channels d d' -> I d' /\ R d d'.
Proof.
  intros Hd (E1&E2&E3). split.
  - unfold channels_ok, admissible, has_channel in *. by rewrite E1, E2, E3.
  - unfold channels_le, has_channel. rewrite E1, E3. split_and!; [lia|intros c Hc _; by exists c|intros i Hi _ _; by exists i].
Qed.

Lemma channels_tick d d' : I d -> tick d d' -> I d' /\ R d d'.
Proof. intros Hd (s&_&->). by apply same_channels_step. Qed.

Lemma named_false d name : name_taken d name = false -> name ∉ (Ch_Name <$> rows (channels d)).
Proof.
  unfold name_taken, affected. intros H (c&->&Hc)%list_elem_of_fmap. guards. rewrite count_if_0 in H.
  specialize (H c Hc). unfold named in H. by rewrite String.eqb_refl in H.
Qed.

Lemma has_channel_lt d id : table_ok (channels d) -> has_channel d id -> id < next_id (channels d).
Proof. intros [_ H] (c&Hc&<-). by apply H. Qed.

(** A new channel under a free, valid name. *)
Lemma channels_insert d ch now : I d -> name_taken d (Ch_Name ch) = false -> valid_name ch ->
  let d' := set_channels (insert_row (channel_row ch now) (channels d)) d in I d' /\ R d d'.
Proof.
  intros ((Tc&Tm&Ti)&(Nc&Nm&Ni)&Hv&Hi&Hm&Ha) Hfree Hval. intros d'.
  assert (forall id, has_channel d id -> has_channel d' id) as Hup.
  { intros id (c&Hc&<-). exists c. split; [simpl; set_solver|done]. }
  assert (forall c, c ∈ rows (channels d') -> Ch_ID c < next_id (channels d) -> c ∈ rows (channels d)) as Hdown.
  { intros c. simpl. rewrite elem_of_app, list_elem_of_singleton. intros [?| ->]; [done|simpl; lia]. }
  split; [split_and!; simpl; try done|split_and!; simpl].
  - by apply table_ok_insert.
  - rewrite fmap_app. apply NoDup_app. split_and!; [done| |apply NoDup_singleton].
    intros n Hn. simpl. rewrite list_elem_of_singleton. intros ->. by apply named_false in Hfree.
  - intros c. rewrite elem_of_app, list_elem_of_singleton. intros [?| ->]; auto.
  - intros i Hin. auto.
  - intros m Hin. auto.
  - intros m Hin c Hc Hid. apply Ha; [done| |done]. apply Hdown; [done|].
    rewrite Hid. by apply has_channel_lt, Hm.
  - lia.
  - intros c Hc Hlt. exists c. split; [by apply Hdown|done].
  - intros i Hin _ _. by exists i.
Qed.

(** Edits of the mutable columns. *)
Lemma channels_update d p f : (forall c, channel_fixed c (f c)) -> I d ->
  let d' := set_channels (update_rows p f (channels d)) d in I d' /\ R d d'.
Proof.
  intros Hf ((Tc&Tm&Ti)&(Nc&Nm&Ni)&Hv&Hi&Hm&Ha). intros d'.
  assert (forall c', c' ∈ rows (channels d') -> exists c, c ∈ rows (channels d) /\ channel_fixed c c') as Hdown.
  { intros c' (c&Hc&->)%elem_of_map_if. exists c. split; [done|]. destruct (p c); [apply Hf|done]. }
  assert (forall id, has_channel d id -> has_channel d' id) as Hup.
  { intros id (c&Hc&<-). exists (if p c then f c else c). split; [apply elem_of_map_if; eauto|].
    destruct (p c); [apply (Hf c)|done]. }
  split; [split_and!; simpl; try done|split_and!; simpl].
  - apply table_ok_update; [intros c; apply (Hf c)|done].
  - replace (Ch_Name <$> map_if p f (rows (channels d))) with (Ch_Name <$> rows (channels d)); [done|].
    unfold map_if. rewrite <- list_fmap_compose. apply list_fmap_ext. intros k c _. simpl.
    destruct (p c); [|done]. by destruct (Hf c) as (_&->&_).
  - intros c' Hc'. destruct (Hdown c' Hc') as (c&Hc&_&En&_). destruct (Hv c Hc) as (n&?&?&?). exists n. by rewrite En.
  - intros i Hin. auto.
  - intros m Hin. auto.
  - intros m Hin c' Hc' Hid Hp. destruct (Hdown c' Hc') as (c&Hc&E1&E2&_&E4&_).
    destruct (Ha m Hin c Hc) as [?|[?|(u&Hu&Hn)]]; [congruence|congruence|by left|by right; left|].
    right; right. exists u. by rewrite E2.
  - lia.
  - intros c Hc _. by apply Hdown.
  - intros i Hin _ _. by exists i.
Qed.

Lemma has_member_false d ch agent : has_member d ch agent = false ->
  (ch, agent) ∉ (member_name <$> rows (channel_members d)).
Proof.
  unfold has_member, affected. intros H (m&E&Hm)%list_elem_of_fmap. guards. rewrite count_if_0 in H.
  specialize (H m Hm). unfold member_key in H. unfold member_name in E. injection E as E1 E2. rewrite <- E1, <- E2 in H.
  by rewrite Z.eqb_refl, String.eqb_refl in H.
Qed.

Lemma channel_exists_has d ch : channel_exists d ch = true -> has_channel d ch.
Proof.
  rewrite channel_exists_find. destruct (find_id ch (channels d)) as [c|] eqn:E; [|done]. intros _.
  apply find_id_Some in E as [<- ?]. by exists c.
Qed.

Lemma members_insert d ch agent role : I d -> has_member d ch agent = false -> channel_exists d ch = true ->
  admissible d ch agent role -> I (joined ch agent role d) /\ R d (joined ch agent role d).
Proof.
  intros ((Tc&Tm&Ti)&(Nc&Nm&Ni)&Hv&Hi&Hm&Ha) Hfresh Hex Hadm.
  split; [|split_and!; [simpl; lia|intros c Hc _; by exists c|intros i Hin _ _; by exists i]].
  split_and!; simpl; try done.
  - by apply table_ok_insert.
  - rewrite fmap_app. apply NoDup_app. split_and!; [done| |apply NoDup_singleton].
    intros n Hn. simpl. rewrite list_elem_of_singleton. intros ->. by apply has_member_false in Hfresh.
  - intros m. rewrite elem_of_app, list_elem_of_singleton. intros [?| ->]; [by apply Hm|by apply channel_exists_has].
  - intros m. rewrite elem_of_app, list_elem_of_singleton. intros [?| ->]; [by apply Ha|done].
Qed.

Lemma NoDup_delete {A B} `{!Row A} (f : A -> B) p (t : table A) :
  NoDup (f <$> rows t) -> NoDup (f <$> rows (delete_rows p t)).
Proof. intros H. eapply sublist_NoDup; [exact H|]. apply fmap_sublist, sublist_filter. Qed.

Lemma elem_of_delete {A} `{!Row A} p (t : table A) r : r ∈ rows (delete_rows p t) <-> p r = false /\ r ∈ rows t.
Proof. simpl. by rewrite list_elem_of_filter. Qed.

Lemma members_delete d p : I d ->
  let d' := set_channel_members (delete_rows p (channel_members d)) d in I d' /\ R d d'.
Proof.
  intros ((Tc&Tm&Ti)&(Nc&Nm&Ni)&Hv&Hi&Hm&Ha).
  split; [|split_and!; [simpl; lia|intros c Hc _; by exists c|intros i Hin _ _; by exists i]].
  split_and!; try done.
  - by apply table_ok_delete.
  - by apply NoDup_delete.
  - intros m [_ Hin]%elem_of_delete. by apply Hm.
  - intros m [_ Hin]%elem_of_delete. by apply Ha.
Qed.

(** A write of the invitations that keeps every invitation's name. *)
Lemma invites_write d t : I d -> table_ok t -> NoDup (invite_name <$> rows t) ->
  (forall i, i ∈ rows t -> has_channel d (Inv_ChannelID i)) ->
  (forall i, i ∈ rows (channel_invites d) -> exists i', i' ∈ rows t /\ invite_name i' = invite_name i) ->
  I (set_channel_invites t d) /\ R d (set_channel_invites t d).
Proof.
  intros ((Tc&Tm&Ti)&(Nc&Nm&Ni)&Hv&Hi&Hm&Ha) Tt Nt Ht Hkeep.
  split; [|split_and!; [simpl; lia|intros c Hc _; by exists c|intros i Hin _ _; by apply Hkeep]].
  split_and!; try done. intros m Hin c Hc Hid Hp.
  destruct (Ha m Hin c Hc Hid Hp) as [?|[(i&Hii&E)|?]]; [by left| |by right; right].
  right; left. destruct (Hkeep i Hii) as (i'&?&?). exists i'. split; [done|congruence].
Qed.

Lemma invites_update d p f : (forall i, row_id (f i) = row_id i /\ invite_name (f i) = invite_name i) -> I d ->
  let d' := set_channel_invites (update_rows p f (channel_invites d)) d in I d' /\ R d d'.
Proof.
  intros Hf Hd. pose proof Hd as ((_&_&Ti)&(_&_&Ni)&_&Hi&_). apply invites_write; [done| | | |].
  - apply table_ok_update; [apply Hf|done].
  - replace (invite_name <$> rows (update_rows p f (channel_invites d))) with (invite_name <$> rows (channel_invites d)); [done|].
    simpl. unfold map_if. rewrite <- list_fmap_compose. apply list_fmap_ext. intros k i _. simpl.
    destruct (p i); [|done]. by destruct (Hf i) as [_ ->].
  - intros i' (i&Hin&->)%elem_of_map_if. destruct (p i); [|by apply Hi].
    destruct (Hf i) as [_ E]. unfold invite_name in E. injection E as -> _. by apply Hi.
  - intros i Hin. exists (if p i then f i else i). split; [apply elem_of_map_if; eauto|].
    destruct (p i); [apply Hf|done].
Qed.

Lemma invites_upsert d ch agent by_ : I d -> channel_exists d ch = true ->
  let d' := set_channel_invites (upsert_invite ch agent by_ (clock d) (channel_invites d)) d in I d' /\ R d d'.
Proof.
  intros Hd Hex. unfold upsert_invite. destruct (affected _ _ =? 0) eqn:E; [|by apply invites_update].
  pose proof Hd as ((_&_&Ti)&(_&_&Ni)&_&Hi&_). apply invites_write; [done| | | |].
  - by apply table_ok_insert.
  - simpl. rewrite fmap_app. apply NoDup_app. split_and!; [done| |apply NoDup_singleton].
    intros n (i&->&Hin)%list_elem_of_fmap. simpl. rewrite list_elem_of_singleton. intros En.
    guards. unfold affected in E. rewrite count_if_0 in E. specialize (E i Hin). unfold invite_key in E.
    unfold invite_name in En. injection En as E1 E2. by rewrite E1, E2, Z.eqb_refl, String.eqb_refl in E.
  - intros i. simpl. rewrite elem_of_app, list_elem_of_singleton. intros [?| ->]; [by apply Hi|by apply channel_exists_has].
  - intros i Hin. exists i. split; [simpl; set_solver|done].
Qed.

Lemma channels_cascade d id : I d -> I (delete_cascade id d) /\ R d (delete_cascade id d).
Proof.
  intros ((Tc&Tm&Ti)&(Nc&Nm&Ni)&Hv&Hi&Hm&Ha).
  assert (forall x, has_channel d x -> x <> id -> has_channel (delete_cascade id d) x) as Hup.
  { intros x (c&Hc&<-) Hne. exists c. split; [|done]. apply elem_of_delete. split; [by apply Z.eqb_neq|done]. }
  split; [split_and!|split_and!].
  1-3: by apply table_ok_delete.
  1-3: by apply NoDup_delete.
  - intros c [_ Hc]%elem_of_delete. by apply Hv.
  - intros i [Hne Hin]%elem_of_delete. guards. by apply Hup; [apply Hi|].
  - intros m [Hne Hin]%elem_of_delete. guards. by apply Hup; [apply Hm|].
  - intros m [Hne Hin]%elem_of_delete c [_ Hc]%elem_of_delete Hid Hp. guards.
    destruct (Ha m Hin c Hc Hid Hp) as [?|[(i&Hii&E)|?]]; [by left| |by right; right].
    right; left. exists i. split; [|done]. apply elem_of_delete. split; [|done].
    unfold invite_name in E. injection E as -> _. by apply Z.eqb_neq.
  - simpl. lia.
  - intros c [_ Hc]%elem_of_delete _. by exists c.
  - intros i Hin _ (c&[Hne _]%elem_of_delete&Hid). exists i. split; [|done].
    apply elem_of_delete. split; [|done]. unfold by_id, row_id, Channel_row in Hne. by rewrite <- Hid.
Qed.

(** ** The operations, relying on each other *)

(** A statement whose effect is one of the writes above. *)
Lemma rg_write {B} (u : db -> db) (ans : db -> outcome error B) d0 :
  (forall d, R d0 d -> I d -> I (u d) /\ R d (u d)) -> rg I R (exec_o EDb u ans) (fun _ _ => True) d0.
Proof. intros H. apply rg_exec_o. intros d H0 Hd. destruct (H d H0 Hd). done. Qed.

Lemma rg_AddMember ch agent role d0 : I d0 ->
  (forall d, R d0 d -> I d -> admissible d ch agent role) ->
  rg I R (AddMember ch agent role) (fun _ _ => True) d0.
Proof.
  intros HI Hadm. apply rg_write. intros d H0 Hd.
  destruct (member_role_allowed role && negb (has_member d ch agent) && channel_exists d ch) eqn:E; [|done].
  guards. apply members_insert; auto.
Qed.

Lemma rg_RemoveMember ch agent d0 : I d0 -> rg I R (RemoveMember ch agent) (fun _ _ => True) d0.
Proof. intros HI. apply rg_write. intros d _ Hd. by apply members_delete. Qed.

(** A read of a channel: it tells its nature for as long as it exists. *)
Lemma channel_read_later d d' c c' : I d -> I d' -> R d d' -> c ∈ rows (channels d) -> c' ∈ rows (channels d') ->
  Ch_ID c' = Ch_ID c -> channel_fixed c c'.
Proof.
  intros Hd Hd' (_&Hc&_) Hin Hin' Hid. pose proof Hd as ((Tc&_)&_).
  destruct (Hc c' Hin') as (c1&Hc1&F); [rewrite Hid; by apply Tc|]. pose proof F as (E&_).
  assert (c1 = c) as ->; [|done]. apply (table_ok_unique (channels d)); [done..|]. unfold row_id, Channel_row. congruence.
Qed.

Lemma rg_GetChannel_then {B} ch (f : Channel -> M B) d0 : I d0 ->
  (forall c d, R d0 d -> I d -> c ∈ rows (channels d) -> Ch_ID c = ch -> rg I R (f c) (fun _ _ => True) d) ->
  rg I R (let? c := store_GetChannel ch in f c) (fun _ _ => True) d0.
Proof.
  intros HI Hf. cbn [bind_ok bind store_GetChannel query_o exec_o]. intros d H0 Hd. split_and!; [done|done| |done].
  destruct (find_id ch (channels d)) as [c|] eqn:E; [|done].
  apply find_id_Some in E as [Hid Hin]. by apply Hf.
Qed.

Lemma rg_read_then {A B} (ans : db -> A) (f : A -> M B) d0 : I d0 ->
  (forall d, R d0 d -> I d -> rg I R (f (ans d)) (fun _ _ => True) d) ->
  rg I R (let? a := query EDb ans in f a) (fun _ _ => True) d0.
Proof.
  intros HI Hf. cbn [bind_ok bind query exec]. intros d H0 Hd. split_and!; [done|done| |done]. by apply Hf.
Qed.

Lemma rg_owner_then {B} ch agent (p : M B) d0 : I d0 ->
  (forall d, I d -> rg I R p (fun _ _ => True) d) ->
  rg I R (let? _ := require_owner ch agent in p) (fun _ _ => True) d0.
Proof.
  intros HI Hp. apply rg_bind_ok; [apply _|done|]. apply rg_bind_ok; [apply _|done|].
  apply rg_query_o; [apply _|]. intros d d' _ _ _ Hd'. split; [|done].
  destruct (find_row _ _) as [m|]; [|done]. destruct (negb _); [done|]. intros d2 _ Hd2. by apply Hp.
Qed.

Lemma rg_CreateChannel req d0 : I d0 -> rg I R (CreateChannel req) (fun _ _ => True) d0.
Proof.
  intros HI. unfold CreateChannel. destruct (validate_cases (req_Name req)) as [(->&Hr&Hl)|[-> _]]; [|done].
  assert (valid_name (requested_channel req)) as Hval by (exists (req_Name req); split_and!; [done|done|by apply ToLower_name]).
  cbn [bind_ok bind store_CreateChannel exec_o]. intros d _ Hd.
  destruct (channel_insertable (requested_channel req) d) eqn:Ei.
  - unfold channel_insertable in Ei. guards. rewrite H, H0. cbn [negb].
    destruct (channels_insert d (requested_channel req) (clock d) Hd) as [HI' HR']; [done|done|].
    split_and!; [done|done| |done]. cbn [Ch_ID with_channel_id].
    apply rg_bind_ok; [apply _|done|]. eapply rg_mono; [|apply rg_AddMember; [done|]].
    + by intros [] d' _ _.
    + intros d' _ _ c _ _ _. by left.
  - split_and!; [done|reflexivity| |done]. unfold channel_insertable in Ei.
    destruct (name_taken d _); [by destruct (channel_type_allowed _)|]. cbn [negb andb] in Ei. by rewrite Ei.
Qed.

Lemma pending_invited d ch agent : has_pending d ch agent = true ->
  exists i, i ∈ rows (channel_invites d) /\ invite_name i = (ch, agent).
Proof.
  unfold has_pending. rewrite affected_find. destruct (find_row _ _) as [i|] eqn:E; [|done]. intros _.
  apply find_row_Some in E as [Hp Hi]. unfold pending_key, invite_key in Hp. guards.
  exists i. split; [done|]. unfold invite_name. congruence.
Qed.

Lemma rg_JoinChannel ch agent d0 : I d0 -> rg I R (JoinChannel ch agent) (fun _ _ => True) d0.
Proof.
  intros HI. apply rg_GetChannel_then; [done|]. intros c d _ Hd Hc Hid.
  apply rg_read_then; [done|]. intros d1 H1 Hd1. destruct (has_member d1 ch agent); [done|].
  destruct (IsPrivate c) eqn:Ep.
  - apply rg_bind_ok; [apply _|done|]. apply rg_bind_ok; [apply _|done|]. apply rg_query; [apply _|].
    intros d2 d3 _ Hd2 _ Hd3. split; [|done]. destruct (negb _); [done|].
    apply rg_exec_o. intros d4 _ Hd4.
    destruct (invites_update d4 (pending_key ch agent) (fun i => with_invite InviteStatusAccepted (InvitedBy i) i)) as [HI' HR']; [done|done|].
    split_and!; [done|done| |done]. intros d5 H5 Hd5. destruct (has_pending d4 ch agent) eqn:Epend; [|done].
    apply rg_AddMember; [done|]. intros d6 H6 Hd6 c6 Hc6 Hid6 _. right; left.
    destruct (pending_invited _ _ _ Epend) as (i&Hi&Ei). pose proof Hd4 as ((Tc4&_)&_&_&Hic&_).
    assert (Inv_ChannelID i = ch) as Eic by (unfold invite_name in Ei; congruence).
    assert (R d4 d6) as (_&_&HR46) by (etrans; [exact HR'|]; by etrans).
    destruct (HR46 i Hi) as (i'&Hi'&Ei'); [by apply has_channel_lt, Hic|exists c6; split; [done|congruence]|].
    exists i'. split; [done|congruence].
  - apply rg_bind_ok; [apply _|done|]. intros d2 H2 Hd2. apply rg_AddMember; [done|].
    intros d6 H6 Hd6 c6 Hc6 Hid6 Hp6.
    assert (channel_fixed c c6) as (_&_&_&E&_); [|congruence].
    apply (channel_read_later d d6); [done|done| |done|done|congruence]. etrans; [exact H1|]. by etrans.
Qed.

Lemma rg_LeaveChannel ch agent d0 : I d0 -> rg I R (LeaveChannel ch agent) (fun _ _ => True) d0.
Proof.
  intros HI. apply rg_GetChannel_then; [done|]. intros c d _ Hd _ _. destruct (IsSystem c); [done|].
  apply rg_bind_ok; [apply _|done|]. apply rg_query_o; [apply _|]. intros d1 d2 _ _ _ Hd2. split; [|done].
  destruct (find_row _ _) as [m|]; [|done]. destruct (bool_decide _); [done|]. by apply rg_RemoveMember.
Qed.

Lemma rg_DeleteChannel ch d0 : I d0 -> rg I R (DeleteChannel ch) (fun _ _ => True) d0.
Proof.
  intros HI. apply rg_GetChannel_then; [done|]. intros c d _ Hd _ _. destruct (IsSystem c); [done|].
  apply rg_write. intros d1 _ Hd1. destruct (channel_referenced d1 ch); [done|]. by apply channels_cascade.
Qed.

Lemma rg_InviteToChannel ch agent inviter d0 : I d0 -> rg I R (InviteToChannel ch agent inviter) (fun _ _ => True) d0.
Proof.
  intros HI. apply rg_GetChannel_then; [done|]. intros c d _ Hd _ _. apply rg_owner_then; [done|]. intros d1 Hd1.
  apply rg_read_then; [done|]. intros d2 _ Hd2. destruct (has_member _ _ _); [done|].
  apply rg_write. intros d3 _ Hd3. destruct (channel_exists d3 ch) eqn:E; [|done]. by apply invites_upsert.
Qed.

Lemma rg_KickFromChannel ch agent kicker d0 : I d0 -> rg I R (KickFromChannel ch agent kicker) (fun _ _ => True) d0.
Proof.
  intros HI. apply rg_GetChannel_then; [done|]. intros c d _ Hd _ _. apply rg_owner_then; [done|]. intros d1 Hd1.
  destruct (String.eqb _ _); [done|]. by apply rg_RemoveMember.
Qed.

Lemma rg_update_channel ch f d0 : (forall now c, channel_fixed c (f now c)) -> I d0 ->
  rg I R (update_channel ch f) (fun _ _ => True) d0.
Proof. intros Hf HI. apply rg_write. intros d _ Hd. by apply channels_update. Qed.

Lemma rg_UpdateChannel ch desc topic agent d0 : I d0 -> rg I R (UpdateChannel ch desc topic agent) (fun _ _ => True) d0.
Proof.
  intros HI. apply rg_GetChannel_then; [done|]. intros c d _ Hd _ _. apply rg_owner_then; [done|]. intros d1 Hd1.
  apply rg_bind_ok; [apply _|done|]. eapply rg_mono; [|by apply rg_update_channel].
  intros [] d2 Hd2 _; [|done..]. apply rg_query_o; [apply _|done].
Qed.

Lemma rg_UpdateChannelSettings ch st d0 : I d0 -> rg I R (UpdateChannelSettings ch st) (fun _ _ => True) d0.
Proof.
  intros HI. apply rg_bind_ok; [apply _|done|]. eapply rg_mono; [|by apply rg_update_channel].
  intros [] d2 Hd2 _; [|done..]. apply rg_query_o; [apply _|done].
Qed.

Lemma rg_ensure_member ch agent role d0 : I d0 ->
  (forall d, R d0 d -> I d -> admissible d ch agent role) ->
  rg I R (ensure_member ch agent role) (fun _ _ => True) d0.
Proof.
  intros HI Hadm. apply rg_read_then; [done|]. intros d H0 Hd. destruct (has_member _ _ _); [done|].
  apply rg_AddMember; [done|]. intros d' H' Hd'. apply Hadm; [by etrans|done].
Qed.

Lemma rg_by_name_then {B} name (f : outcome error Channel -> M B) d0 : I d0 ->
  (forall e d, I d -> rg I R (f (Err e)) (fun _ _ => True) d) ->
  (forall c d, I d -> c ∈ rows (channels d) -> sql_lower (Ch_Name c) = sql_lower name ->
     rg I R (f (Ok c)) (fun _ _ => True) d) ->
  rg I R (let! r := store_GetChannelByName name in f r) (fun _ _ => True) d0.
Proof.
  intros HI He Hok. cbn [bind store_GetChannelByName query_o exec_o]. intros d _ Hd.
  split_and!; [done|reflexivity| |by apply He].
  destruct (find_row _ _) as [c|] eqn:E; [|by apply He]. apply find_row_Some in E as [En Hc]. guards. by apply Hok.
Qed.

Lemma rg_EnsureMyAgentsChannel user human d0 : I d0 ->
  rg I R (EnsureMyAgentsChannel user human) (fun _ _ => True) d0.
Proof.
  intros HI. apply rg_by_name_then; [done| |].
  - intros e d Hd. destruct e; try done. apply rg_bind; [apply _|done|].
    eapply rg_mono; [|by apply rg_CreateChannel]. intros [|e|] d' Hd' _; try done. by destruct e.
  - intros c d Hd _ _. apply rg_ensure_member; [done|]. intros d' _ _ c' _ _ _. by left.
Qed.

Lemma rg_JoinMyAgentsChannel user agent d0 : asked user agent -> I d0 ->
  rg I R (JoinMyAgentsChannel user agent) (fun _ _ => True) d0.
Proof.
  intros Hask HI. apply rg_by_name_then; [done| |].
  - intros e d Hd. by destruct e.
  - intros c d Hd Hc Hn. apply rg_ensure_member; [done|]. intros d' H' Hd' c' Hc' Hid _. right; right.
    exists user. split; [done|]. destruct (channel_read_later d d' c c' Hd Hd' H' Hc Hc' Hid) as (_&->&_). done.
Qed.

Lemma rg_frame {A} (p : prog db A) d0 : within same_channels p -> rg I R p (fun _ _ => True) d0.
Proof. apply within_rg. apply same_channels_step. Qed.

Lemma rg_BroadcastMessage ch from body prio meta reply atts d0 : I d0 ->
  rg I R (BroadcastMessage ch from body prio meta reply atts) (fun _ _ => True) d0.
Proof.
  intros HI. apply rg_GetChannel_then; [done|]. intros c d _ Hd _ _.
  apply rg_bind_ok; [apply _|done|].
  assert (rg I R (ensure_sender c ch from) (fun _ _ => True) d) as Hs.
  { apply rg_read_then; [done|]. intros d1 _ Hd1. destruct (has_member _ _ _); [done|].
    destruct (IsPrivate c); [done|]. by apply rg_JoinChannel. }
  eapply rg_mono; [|exact Hs]. intros [] d1 Hd1 _; [|done..].
  apply rg_read_then; [done|]. intros d2 _ Hd2. apply rg_bind_ok; [apply _|done|].
  eapply rg_mono; [|apply rg_frame, SendMessage_channels]. intros [post|e|w] d3 Hd3 _; [|done..].
  apply rg_bind; [apply _|done|]. eapply rg_mono; [|apply rg_frame]; [done|].
  apply within_for_each. intros m. destruct (_ || _); [done|].
  apply within_bind; [apply SendMessage_channels|done].
Qed.

(** ** All the calls *)
Inductive channel_call :=
| CallCreate (req : CreateChannelRequest)
| CallJoin (ch : Z) (agent : string)
| CallLeave (ch : Z) (agent : string)
| CallDelete (ch : Z)
| CallInvite (ch : Z) (agent inviter : string)
| CallKick (ch : Z) (agent kicker : string)
| CallUpdate (ch : Z) (description topic : option string) (agent : string)
| CallSettings (ch : Z) (st : ChannelSettings)
| CallEnsureMyAgents (user human : string)
| CallJoinMyAgents (user agent : string)
| CallBroadcast (ch : Z) (from body : string) (prio : Z) (meta : rawjson) (reply : option Z) (atts : list string).

Definition channel_prog (c : channel_call) : M unit :=
  match c with
  | CallCreate req => let? _ := CreateChannel req in Ret (Ok tt)
  | CallJoin ch agent => JoinChannel ch agent
  | CallLeave ch agent => LeaveChannel ch agent
  | CallDelete ch => DeleteChannel ch
  | CallInvite ch agent inviter => InviteToChannel ch agent inviter
  | CallKick ch agent kicker => KickFromChannel ch agent kicker
  | CallUpdate ch desc topic agent => let? _ := UpdateChannel ch desc topic agent in Ret (Ok tt)
  | CallSettings ch st => let? _ := UpdateChannelSettings ch st in Ret (Ok tt)
  | CallEnsureMyAgents user human => EnsureMyAgentsChannel user human
  | CallJoinMyAgents user agent => JoinMyAgentsChannel user agent
  | CallBroadcast ch from body prio meta reply atts =>
      let? _ := BroadcastMessage ch from body prio meta reply atts in Ret (Ok tt)
  end.

Lemma rg_then_ret {A} (p : M A) d : I d -> rg I R p (fun _ _ => True) d ->
  rg I R (let? _ := p in Ret (Ok tt)) (fun _ _ => True) d.
Proof. intros Hd H. apply rg_bind_ok; [apply _|done|]. eapply rg_mono; [|exact H]. by intros [] ? _ _. Qed.

Lemma rg_channel_call c d : (forall user agent, c = CallJoinMyAgents user agent -> asked user agent) ->
  I d -> rg I R (channel_prog c) (fun _ _ => True) d.
Proof.
  intros Hask Hd. destruct c; unfold channel_prog.
  - by apply rg_then_ret, rg_CreateChannel.
  - by apply rg_JoinChannel.
  - by apply rg_LeaveChannel.
  - by apply rg_DeleteChannel.
  - by apply rg_InviteToChannel.
  - by apply rg_KickFromChannel.
  - by apply rg_then_ret, rg_UpdateChannel.
  - by apply rg_then_ret, rg_UpdateChannelSettings.
  - by apply rg_EnsureMyAgentsChannel.
  - apply rg_JoinMyAgentsChannel; [by apply Hask|done].
  - by apply rg_then_ret, rg_BroadcastMessage.
Qed.

(** C6. Whatever channel operations run at once, interleaved statement by
    statement and failing anywhere: channel names stay valid, lower-case and
    unique, an agent is a member of a channel at most once and invited at most
    once, members and invitations are of existing channels, and every member
    of a private channel is an owner, was invited, or was put forward for the
    my-agents channel of the user whose channel it is, by a call among these or
    before.  Channel ids are never reused and no operation turns a private
    channel public or changes a channel's name or type. *)
Theorem channels_history (cs : list channel_call) (d : db) (ps : list (M unit)) (d' : db)
    (Hask : forall user agent, CallJoinMyAgents user agent ∈ cs -> asked user agent)
    (Hinit : channels_ok d)
    (Hrun : rtc (pool_step tick) (channel_prog <$> cs, d) (ps, d')) :
  channels_ok d' /\ channels_le d d'.
Proof.
  destruct (pool_invariant channels_ok channels_le tick channels_tick (channel_prog <$> cs) ps
    (fun _ _ _ => True) d d') as (HI&HR&_); [|done|done|done].
  intros i p. rewrite list_lookup_fmap. intros Hp. destruct (cs !! i) as [c|] eqn:E; simplify_eq/=. apply rg_channel_call; [|done].
  intros user agent ->. apply Hask. by eapply list_elem_of_lookup_2.
Qed.
End History.

(** ** Concrete runs *)
Module ChannelRuns.
#[local] Existing Instance Runs.eng.
#[local] Existing Instance Runs.gojson.
#[local] Existing Instance Runs.linker.
#[local] Instance unicode : GoUnicode := {| ToLower := sql_lower; ToLower_ascii := fun s _ => eq_refl |}.

Definition request (name : string) (private : bool) (by_ : string) : CreateChannelRequest :=
  mkCreateChannelRequest name "" "" (TypeOther "") private false by_.

(** A private channel "secret" of ann with an invitation for bob. *)
Definition secret : db :=
  (run_ok (let? _ := CreateChannel (request "Secret" true "ann") in InviteToChannel 1 "bob" "ann") empty_db).2.

Definition nobody (user agent : string) : Prop := False.
Lemma empty_ok : channels_ok nobody empty_db.
Proof.
  split_and!; try apply table_ok_empty; try apply NoDup_nil_2; intros ? H; by apply elem_of_nil in H.
Qed.

Lemma secret_ok : channels_ok nobody secret.
Proof.
  assert (forall d c, (forall user agent, c <> CallJoinMyAgents user agent) -> channels_ok nobody d -> channels_ok nobody (run_ok (channel_prog c) d).2) as Hcall.
  { intros d c Hc Hd. pose proof (rg_wp (channels_ok nobody) channels_le _ _ d Hd (rg_channel_call nobody c d (fun u a E => Hc u a E) Hd)) as H.
    apply wp_run_ok in H. apply H. }
  pose proof (Hcall _ (CallCreate (request "Secret" true "ann")) ltac:(done) empty_ok) as H1.
  pose proof (Hcall _ (CallInvite 1 "bob" "ann") ltac:(done) H1) as H2. vm_compute in H2 |- *. exact H2.
Qed.

(** The acceptance of an invitation and the membership are two statements:
    when the second fails the invitation is used up without a membership, and
    the agent is refused when it tries again. *)
Theorem join_half_done :
  let '(o, d') := run (JoinChannel 1 "bob") [false; false; false; false; true] secret in
  o = Err EDb /\ has_member d' 1 "bob" = false /\ (run_ok (JoinChannel 1 "bob") d').1 = Err ErrNotInvited.
Proof. vm_compute. by split_and!. Qed.

(** EnsureMyAgentsChannel adopts any channel of the right name: when
    somebody else created it, publicly, and the user's human agent joined it,
    the call succeeds although the channel is neither private nor a system
    channel and the human does not own it. *)
Theorem my_agents_adopts :
  let d := (run_ok (let? _ := CreateChannel (request "my-agents-bob" false "mallory") in JoinChannel 1 "bob") empty_db).2 in
  run_ok (EnsureMyAgentsChannel "bob" "bob") d = (Ok tt, d) /\
  is_owner d 1 "bob" = false /\ is_owner d 1 "mallory" = true /\ (IsPrivate <$> rows (channels d)) = [false].
Proof. vm_compute. by split_and!. Qed.

(** Mentions are lower-cased and then compared exactly with the members:
    a member whose name has a capital letter is never notified. *)
Theorem mention_capital_missed :
  let d := (run_ok (let? _ := CreateChannel (request "general" false "ann") in JoinChannel 1 "Bob") empty_db).2 in
  (length (rows (messages (run_ok (BroadcastMessage 1 "ann" "ping @Bob" 5 RawEmpty None []) d).2)) = 1)%nat /\
  has_member d 1 "Bob" = true.
Proof. vm_compute. by split. Qed.

Lemma slice_page_spec_witness :
  @slice_page error nat [1; 2; 3]%nat 2 1 = Ok [2; 3]%nat /\
  @slice_page error nat [1; 2; 3]%nat int64_max 1 = Panic "slice bounds out of range".
Proof.
  split; (rewrite slice_page_spec; [vm_compute; reflexivity|vm_compute; split; congruence|lia|vm_compute; congruence]).
Defined.

Lemma create_channel_effect_witness :
  exists ch, run_ok (CreateChannel (request "Secret" true "ann")) empty_db =
    (Ok ch, with_owner 1 "ann" (with_channel (request "Secret" true "ann") empty_db)) /\ Ch_Name ch = "secret".
Proof.
  pose proof (create_channel_effect (request "Secret" true "ann") empty_db
    (fun m H => match elem_of_nil m with conj F _ => False_ind _ (F H) end)) as [H _].
  apply wp_run_ok in H. vm_compute in H |- *. destruct H as (_&_&_&_&_&H).
  eexists. split; [reflexivity|reflexivity].
Defined.

Lemma channels_history_witness : exists ps d',
  rtc (pool_step tick) (channel_prog <$> [CallJoin 1 "bob"; CallKick 1 "bob" "ann"], secret) (ps, d') /\
  channels_ok nobody d'.
Proof.
  set (r := run_schedule (repeat (0%nat, false) 5 ++ repeat (1%nat, false) 3)
    (channel_prog <$> [CallJoin 1 "bob"; CallKick 1 "bob" "ann"]) secret).
  assert (rtc (pool_step tick) (channel_prog <$> [CallJoin 1 "bob"; CallKick 1 "bob" "ann"], secret) (r.1, r.2)) as Hr
    by (subst r; rewrite <- surjective_pairing; apply run_schedule_reachable).
  exists r.1, r.2. split; [exact Hr|].
  apply (channels_history nobody [CallJoin 1 "bob"; CallKick 1 "bob" "ann"] secret r.1 r.2); [|exact secret_ok|exact Hr].
  intros user agent H. unfold nobody. repeat (apply elem_of_cons in H as [[=]|H]). by apply elem_of_nil in H.
Defined.
End ChannelRuns.
