(* ===== verification/Attachments.v ===== *)
(** * Attachments (internal/attachments)

    Files are stored under the digest of their content, their metadata in the
    table [attachments]; a file may have several rows.  The garbage collection
    removes what no message refers to.  [attachment_linker] is what messaging
    attaches files with. *)
From S2P Require Import Prelude Prog Table Schema Messaging MessagingQueries Channels Retention.

(** [crypto/sha256] in hexadecimal, and [net/http]'s content sniffing. *)
Class GoSha256 := {
  sha256_hex : string -> string;
  sha256_hex_length : forall s, String.length (sha256_hex s) = 64%nat
}.
Class ContentSniffer := {
  DetectContentType : string -> string;
  DetectContentType_valid : forall s, DetectContentType s <> EmptyString
}.

(** 50 MB. *)
Definition MaxFileSize : Z := 50 * 1024 * 1024.

(** [c.baseDir/hash[0:2]/hash[2:4]/hash], relative to the base directory. *)
Definition shardPath (hash : string) : string :=
  String.substring 0 2 hash +:+ "/" +:+ String.substring 2 2 hash +:+ "/" +:+ hash.

Definition size_of (content : string) : Z := Z.of_nat (String.length content).

(** ** The content store *)
Section CAS.
Context {HSha : GoSha256}.

(** A file that is there already is kept. *)
Definition store_file (content : string) (d : db) : db :=
  let path := shardPath (sha256_hex content) in
  match cas_files d !! path with Some _ => d | None => set_cas_files (<[path := content]> (cas_files d)) d end.

(** The temporary file is left out: it is renamed, or removed on every path. *)
Definition cas_Write (content : string) : M (string * Z) :=
  if size_of content =? 0 then Ret (Err ErrEmptyFile)
  else exec EDb (store_file content) (fun _ => (sha256_hex content, size_of content)).

Definition cas_Read (hash : string) : M string :=
  query_o EDb (fun d => match cas_files d !! shardPath hash with Some c => Ok c | None => Err ErrAttachmentNotFound end).

Definition cas_Exists (hash : string) : prog db bool :=
  let! r := query (E := error) EDb (fun d => bool_decide (is_Some (cas_files d !! shardPath hash))) in
  Ret (match r with Ok b => b | _ => false end).

(** [os.Stat], then [os.Remove], which fails when the file is gone since. *)
Definition cas_Delete (hash : string) : M Z :=
  let? info := query EDb (fun d => size_of <$> cas_files d !! shardPath hash) in
  match info with
  | None => Ret (Ok 0)
  | Some size =>
      exec_o EDb (fun d => set_cas_files (delete (shardPath hash) (cas_files d)) d)
                 (fun d => if bool_decide (is_Some (cas_files d !! shardPath hash)) then Ok size else Err EDb)
  end.
End CAS.

(** ** MIME types *)
Definition extensionMIMETypes : list (string * string) :=
  [(".css", "text/css"); (".csv", "text/csv"); (".doc", "application/msword");
   (".docx", "application/vnd.openxmlformats-officedocument.wordprocessingml.document"); (".gif", "image/gif");
   (".html", "text/html"); (".jpeg", "image/jpeg"); (".jpg", "image/jpeg"); (".js", "application/javascript");
   (".json", "application/json"); (".md", "text/markdown"); (".mp3", "audio/mpeg"); (".mp4", "video/mp4");
   (".pdf", "application/pdf"); (".png", "image/png");
   (".pptx", "application/vnd.openxmlformats-officedocument.presentationml.presentation"); (".svg", "image/svg+xml");
   (".tar", "application/x-tar"); (".txt", "text/plain"); (".wav", "audio/wav"); (".webp", "image/webp");
   (".xlsx", "application/vnd.openxmlformats-officedocument.spreadsheetml.sheet"); (".xml", "application/xml");
   (".yaml", "text/yaml"); (".yml", "text/yaml"); (".zip", "application/zip")].

Definition imageTypes : list string := ["image/jpeg"; "image/png"; "image/gif"; "image/webp"; "image/svg+xml"].

Definition lookup_text (k : string) (l : list (string * string)) : option string :=
  match filter (fun kv => kv.1 = k) l with (_, v) :: _ => Some v | [] => None end.

(** [filepath.Ext]: from the last dot of the last element of the path. *)
Fixpoint ext_from (s : string) (found : string) : string :=
  match s with
  | EmptyString => found
  | String a r =>
      if bool_decide (Ascii.nat_of_ascii a = 47%nat) then ext_from r EmptyString
      else if bool_decide (Ascii.nat_of_ascii a = 46%nat) then ext_from r s
      else ext_from r found
  end.
Definition filepath_Ext (path : string) : string := ext_from path EmptyString.

(** The text before the first semicolon, trimmed; all of it without one. *)
Fixpoint before_semicolon (s : string) : option string :=
  match s with
  | EmptyString => None
  | String a r => if bool_decide (Ascii.nat_of_ascii a = 59%nat) then Some EmptyString else String a <$> before_semicolon r
  end.
Definition isGenericMIME (mimeType : string) : bool :=
  let base := match before_semicolon mimeType with Some b => trim_space b | None => mimeType end in
  String.eqb base "application/octet-stream" || String.eqb base "text/plain".

Definition DefaultFilename (mimeType : string) : string :=
  if String.prefix "image/png" mimeType then "untitled.png"
  else if String.prefix "image/jpeg" mimeType then "untitled.jpg"
  else if String.prefix "image/gif" mimeType then "untitled.gif"
  else if String.prefix "image/webp" mimeType then "untitled.webp"
  else if String.prefix "image/svg" mimeType then "untitled.svg"
  else if String.eqb mimeType "application/pdf" then "untitled.pdf"
  else if String.prefix "text/" mimeType then "untitled.txt"
  else "untitled.bin".

Definition IsImageType (mimeType : string) : bool := bool_decide (mimeType ∈ imageTypes).
Definition IsAllowedType (mimeType : string) : bool := true.

Section MIME.
Context {HUni : GoUnicode} {HSniff : ContentSniffer}.

Definition DetectMIMEType (content filename : string) : string :=
  let detected := if str_empty content then EmptyString else DetectContentType content in
  if negb (str_empty detected) && negb (isGenericMIME detected) then detected
  else
    match (if str_empty filename then None else lookup_text (ToLower (filepath_Ext filename)) extensionMIMETypes) with
    | Some mime => mime
    | None => if negb (str_empty detected) then detected else "application/octet-stream"
    end.
End MIME.

(** ** Metadata *)
Definition attachment_row (a : Attachment) (now id : Z) : Attachment :=
  mkAttachment id (Hash a) (OriginalFilename a) (Size a) (MIMEType a) (Att_MessageID a) (UploadedBy a) now.

(** The foreign key to the message. *)
Definition message_there (o : option Z) (d : db) : bool :=
  match o with Some id => bool_decide (is_Some (find_id id (messages d))) | None => true end.

Definition InsertMetadata (a : Attachment) : M unit :=
  exec_o EDb (fun d => if message_there (Att_MessageID a) d
                       then set_attachments (insert_row (attachment_row a (clock d)) (attachments d)) d else d)
             (fun d => if message_there (Att_MessageID a) d then Ok tt else Err EDb).

Definition att_newest (a b : Attachment) : Prop := Att_CreatedAt b <= Att_CreatedAt a.
#[export] Instance att_newest_dec a b : Decision (att_newest a b).
Proof. unfold att_newest. apply _. Defined.
Definition att_oldest (a b : Attachment) : Prop := Att_CreatedAt a <= Att_CreatedAt b.
#[export] Instance att_oldest_dec a b : Decision (att_oldest a b).
Proof. unfold att_oldest. apply _. Defined.

Definition DeleteByHash (hash : string) : M unit :=
  exec EDb (fun d => set_attachments (delete_rows (fun a => String.eqb (Hash a) hash) (attachments d)) d) (fun _ => tt).

Definition CountReferences (hash : string) : M Z := hash_references hash.

(** A row that refers to a message on record. *)
Definition linked (d : db) (a : Attachment) : bool :=
  match Att_MessageID a with Some id => bool_decide (is_Some (find_id id (messages d))) | None => false end.

(** The WHERE clause takes the unlinked rows; the groups of HAVING are made of
    these only. *)
Definition orphan_hashes (d : db) : list string :=
  let kept := select (fun a => negb (linked d a)) (attachments d) in
  filter (fun h => count_if (fun a => String.eqb (Hash a) h && linked d a) kept = 0) (remove_dups (Hash <$> kept)).

Section Service.
Context {HEng : Engine} {HSha : GoSha256} {HUni : GoUnicode} {HSniff : ContentSniffer}.

Definition GetByHash (hash : string) : M (list Attachment) :=
  query EDb (fun d => select_by att_newest (fun a => String.eqb (Hash a) hash) (attachments d)).

Definition store_GetByMessageID (messageID : Z) : M (list Attachment) :=
  query EDb (fun d => select_by att_oldest (fun a => bool_decide (Att_MessageID a = Some messageID)) (attachments d)).

Definition FindOrphanHashes : M (list string) := query EDb (fun d => scan (orphan_hashes d)).

(** ** The service *)

(** The content as the reader gives it, up to one byte more than allowed;
    [None] when reading fails. *)
Record UploadRequest := mkUploadRequest {
  req_Content : option string;
  req_Filename : string;
  req_MIMEType : string;
  req_MessageID : option Z;
  req_UploadedBy : string
}.
Record UploadResult := mkUploadResult { res_Hash : string; res_Size : Z; res_MIMEType : string; res_Filename : string }.

Definition upload_mime (req : UploadRequest) (content : string) : string :=
  if str_empty (req_MIMEType req) then DetectMIMEType (String.substring 0 512 content) (req_Filename req) else req_MIMEType req.
Definition upload_filename (req : UploadRequest) (mimeType : string) : string :=
  if str_empty (req_Filename req) then DefaultFilename mimeType else req_Filename req.

Definition Upload (req : UploadRequest) : M UploadResult :=
  match req_Content req with
  | None => Ret (Err EDb)
  | Some content =>
      if size_of content =? 0 then Ret (Err ErrEmptyFile)
      else if MaxFileSize <? size_of content then Ret (Err ErrFileTooLarge)
      else
        let mimeType := upload_mime req content in
        let filename := upload_filename req mimeType in
        let? '(hash, size) := cas_Write content in
        let? _ := InsertMetadata (mkAttachment 0 hash filename size mimeType (req_MessageID req) (req_UploadedBy req) 0) in
        Ret (Ok (mkUploadResult hash size mimeType filename))
  end.

Record DownloadResult := mkDownloadResult { dl_Content : string; dl_Hash : string; dl_Filename : string; dl_MIMEType : string; dl_Size : Z }.

Definition Download (hash : string) : M DownloadResult :=
  let? atts := GetByHash hash in
  match atts with
  | [] => Ret (Err ErrAttachmentNotFound)
  | meta :: _ =>
      let! content := cas_Read hash in
      match content with
      | Ok c => Ret (Ok (mkDownloadResult c hash (OriginalFilename meta) (MIMEType meta) (Size meta)))
      | Err ErrAttachmentNotFound => Ret (Err ErrFileMissing)
      | Err e => Ret (Err e)
      | Panic w => Ret (Panic w)
      end
  end.

(** A new row for the message, copied from the newest. *)
Definition AttachFile (hash : string) (messageID : Z) : M unit :=
  let? atts := GetByHash hash in
  match atts with
  | [] => Ret (Err ErrAttachmentNotFound)
  | meta :: _ => InsertMetadata (mkAttachment 0 (Hash meta) (OriginalFilename meta) (Size meta) (MIMEType meta) (Some messageID) (UploadedBy meta) 0)
  end.

Definition GetByMessageID (messageID : Z) : M (list Attachment) := store_GetByMessageID messageID.

Record GCResult := mkGCResult { FilesRemoved : Z; BytesReclaimed : Z }.

(** A hash whose file or rows cannot be deleted is passed over. *)
Fixpoint collect (orphans : list string) (result : GCResult) : prog db GCResult :=
  match orphans with
  | [] => Ret result
  | hash :: rest =>
      let! deleted := cas_Delete hash in
      match deleted with
      | Ok size =>
          let! r := DeleteByHash hash in
          match r with
          | Ok _ => collect rest (mkGCResult (FilesRemoved result + 1) (BytesReclaimed result + size))
          | _ => collect rest result
          end
      | _ => collect rest result
      end
  end.

Definition GarbageCollect : M GCResult :=
  let? orphans := FindOrphanHashes in
  let! result := collect orphans (mkGCResult 0 0) in
  Ret (Ok result).

(** What the adapter of the main program shows of an attachment. *)
Record AttachmentInfo := mkAttachmentInfo { ai_Hash : string; ai_Filename : string; ai_Size : Z; ai_MIMEType : string; IsImage : bool }.
Definition attachment_infos (messageID : Z) : M (list AttachmentInfo) :=
  let? atts := GetByMessageID messageID in
  Ret (Ok ((fun a => mkAttachmentInfo (Hash a) (OriginalFilename a) (Size a) (MIMEType a) (IsImageType (MIMEType a))) <$> atts)).

Lemma AttachFile_within (G : db -> db -> Prop) `{!Reflexive G} hash id :
  (forall t d, G d (set_attachments t d)) -> within G (AttachFile hash id).
Proof.
  intros HG. apply within_bind_ok; [by apply within_query|]. intros [|meta rest]; [done|].
  apply within_exec_o. intros d. by destruct (message_there _ d).
Qed.

#[export] Instance attachment_linker : AttachmentLinker.
Proof.
  refine {| AttachToMessage := AttachFile |}; intros hash id; by apply AttachFile_within.
Defined.
End Service.
