(* ===== verification/AttachmentsSpec.v ===== *)
(** * Attachments: content addressing, upload and download, collection

    [attachments_history]: the address of every file is the digest of its
    content, whatever runs.  [upload_effect], [upload_download]: what is
    uploaded can be downloaded.  [gc_effect], [gc_exact]: what the garbage
    collection removes; [AttachmentRuns] shows that this is more than its
    comment says. *)
From stdpp Require Import pretty.
From S2P Require Import Prelude Prog Table Schema Messaging MessagingQueries Channels Retention Attachments.

(** ** Paths *)
Lemma append_inj_r (x y s t : string) : x +:+ s = y +:+ t -> String.length s = String.length t -> s = t.
Proof.
  assert (forall z u, String.length (z +:+ u) = (String.length z + String.length u)%nat) as Hl.
  { intros z u. induction z as [|a z IH]; [done|]. exact (f_equal S IH). }
  revert y. induction x as [|a x IH]; intros y E HL.
  - destruct y as [|b y]; [done|]. apply (f_equal String.length) in E.
    change (EmptyString +:+ s) with s in E. rewrite Hl in E. simpl in E. lia.
  - destruct y as [|b y].
    + apply (f_equal String.length) in E. rewrite Hl in E. change (EmptyString +:+ t) with t in E. simpl in E. lia.
    + change (String a (x +:+ s) = String b (y +:+ t)) in E. injection E as _ E. by apply (IH y).
Qed.

Lemma shardPath_inj h h' : String.length h = String.length h' -> shardPath h = shardPath h' -> h = h'.
Proof.
  intros HL E. unfold shardPath in E.
  assert (forall x y z : string, x +:+ (y +:+ z) = (x +:+ y) +:+ z) as Hassoc.
  { intros x y z. induction x as [|a x IH]; [done|]. exact (f_equal (String a) IH). }
  rewrite !Hassoc in E. by eapply append_inj_r.
Qed.

Section Spec.
Context {HEng : Engine} {HSha : GoSha256} {HUni : GoUnicode} {HSniff : ContentSniffer}.

(** ** The invariant *)

(** A file is stored under the digest of its content. *)
Definition cas_ok (d : db) : Prop :=
  forall p c, cas_files d !! p = Some c -> p = shardPath (sha256_hex c) /\ 0 < size_of c <= MaxFileSize.

(** A row describes some content of that digest. *)
Definition row_describes (a : Attachment) : Prop :=
  (exists c, Hash a = sha256_hex c /\ Size a = size_of c) /\ 0 < Size a <= MaxFileSize /\
  OriginalFilename a <> EmptyString /\ MIMEType a <> EmptyString.

Definition attachments_ok (d : db) : Prop := cas_ok d /\ forall a, a ∈ rows (attachments d) -> row_describes a.

(** What other services do: they may remove rows and files, never add any. *)
Definition only_removed (d d' : db) : Prop :=
  cas_files d' ⊆ cas_files d /\ forall a, a ∈ rows (attachments d') -> a ∈ rows (attachments d).

#[export] Instance only_removed_preorder : PreOrder only_removed.
Proof.
  split; [intros d; split; [reflexivity|done]|]. intros a b c [H1 H2] [H3 H4]. split; [by etrans|]. auto.
Qed.

Lemma only_removed_ok d d' : only_removed d d' -> attachments_ok d -> attachments_ok d'.
Proof. intros [H1 H2] [H3 H4]. split; [|auto]. intros p c Hp. apply H3. by eapply lookup_weaken. Qed.

Definition att_step (d d' : db) : Prop := attachments_ok d -> attachments_ok d'.
#[export] Instance att_step_preorder : PreOrder att_step.
Proof. split; [by intros d H|]. intros a b c H1 H2 H. auto. Qed.

Lemma extension_nonempty k v : lookup_text k extensionMIMETypes = Some v -> v <> EmptyString.
Proof.
  unfold lookup_text. destruct (filter _ extensionMIMETypes) as [|[k' v'] l] eqn:E; [done|]. intros [= <-].
  assert ((k', v') ∈ extensionMIMETypes) as Hin by (eapply list_elem_of_filter; rewrite E; by left).
  unfold extensionMIMETypes in Hin. repeat (apply elem_of_cons in Hin as [[= -> ->]|Hin]; [done|]). by apply elem_of_nil in Hin.
Qed.

Lemma DetectMIMEType_nonempty content filename : DetectMIMEType content filename <> EmptyString.
Proof.
  unfold DetectMIMEType. set (det := if str_empty content then EmptyString else DetectContentType content). clearbody det.
  destruct (_ && _) eqn:E; [by destruct det|].
  destruct (if str_empty filename then None else _) as [mime|] eqn:El; [|by destruct det].
  destruct (str_empty filename); [done|]. by eapply extension_nonempty.
Qed.

Lemma upload_mime_nonempty req c : upload_mime req c <> EmptyString.
Proof. unfold upload_mime. destruct (req_MIMEType req) eqn:E; [apply DetectMIMEType_nonempty|done]. Qed.

Lemma upload_filename_nonempty req m : upload_filename req m <> EmptyString.
Proof.
  unfold upload_filename, DefaultFilename. destruct (req_Filename req) eqn:E; [|done]. cbn [str_empty].
  by repeat case_match.
Qed.

(** ** Steps *)
Lemma within_removal {A} (p : prog db A) : within only_removed p -> within att_step p.
Proof. apply within_mono. intros d d' H Hok. by eapply only_removed_ok. Qed.

Lemma write_step c d : 0 < size_of c <= MaxFileSize ->
  att_step d (store_file c d).
Proof.
  intros Hc [H1 H2]. unfold store_file. destruct (cas_files d !! _) eqn:E; [by split|]. split; [|exact H2].
  intros p c' Hp. simpl in Hp. apply lookup_insert_Some in Hp as [[<- <-]|[_ Hp]]; [done|by apply H1].
Qed.

Lemma insert_attachment_step a d : row_describes a ->
  att_step d (if message_there (Att_MessageID a) d then set_attachments (insert_row (attachment_row a (clock d)) (attachments d)) d else d).
Proof.
  intros Ha [H1 H2]. destruct (message_there _ d); [|by split]. split; [exact H1|].
  intros x [Hx| ->%list_elem_of_singleton]%elem_of_app; [by apply H2|]. exact Ha.
Qed.

Lemma within_InsertMetadata a : row_describes a -> within att_step (InsertMetadata a).
Proof. intros Ha. apply within_exec_o. intros d. by apply insert_attachment_step. Qed.

Definition upload_row (req : UploadRequest) (c : string) : Attachment :=
  mkAttachment 0 (sha256_hex c) (upload_filename req (upload_mime req c)) (size_of c) (upload_mime req c) (req_MessageID req) (req_UploadedBy req) 0.

Lemma upload_row_describes req c : 0 < size_of c <= MaxFileSize -> row_describes (upload_row req c).
Proof.
  intros Hc. split_and!; [by exists c|apply Hc|apply Hc|apply upload_filename_nonempty|apply upload_mime_nonempty].
Qed.

(** The guards of an upload, and what follows them. *)
Lemma Upload_eq req : Upload req =
  match req_Content req with
  | None => Ret (Err EDb)
  | Some c =>
      if size_of c =? 0 then Ret (Err ErrEmptyFile)
      else if MaxFileSize <? size_of c then Ret (Err ErrFileTooLarge)
      else let? '(hash, size) := cas_Write c in
           let? _ := InsertMetadata (mkAttachment 0 hash (upload_filename req (upload_mime req c)) size (upload_mime req c) (req_MessageID req) (req_UploadedBy req) 0) in
           Ret (Ok (mkUploadResult hash size (upload_mime req c) (upload_filename req (upload_mime req c))))
  end.
Proof. done. Qed.

Lemma size_of_nonneg c : 0 <= size_of c.
Proof. unfold size_of. lia. Qed.

Lemma cas_Delete_removes h : within only_removed (cas_Delete h).
Proof.
  apply within_bind_ok; [by apply within_query|]. intros [size|]; [|done]. apply within_exec_o. intros d. split; [|done].
  apply delete_subseteq.
Qed.

Lemma DeleteByHash_removes h : within only_removed (DeleteByHash h).
Proof. apply within_exec. intros d. split; [reflexivity|]. intros a Ha. by apply elem_of_delete_rows in Ha as [_ ?]. Qed.

Lemma collect_removes l r : within only_removed (collect l r).
Proof.
  revert r. induction l as [|h l IH]; intros r; [done|]. cbn [collect]. apply within_bind; [apply cas_Delete_removes|].
  intros [size|e|w]; try apply IH. apply within_bind; [apply DeleteByHash_removes|]. intros [[]|e|w]; apply IH.
Qed.

Lemma GarbageCollect_removes : within only_removed GarbageCollect.
Proof.
  apply within_bind_ok; [by apply within_query|]. intros l. apply within_bind; [apply collect_removes|done].
Qed.

(** ** Histories *)
Inductive attachment_call :=
| CallUpload (req : UploadRequest)
| CallDownload (hash : string)
| CallAttach (hash : string) (messageID : Z)
| CallGetByMessageID (messageID : Z)
| CallGarbageCollect.

Inductive attachment_answer :=
| AnsUpload (r : outcome error UploadResult)
| AnsDownload (r : outcome error DownloadResult)
| AnsOther.

Definition attachment_prog (c : attachment_call) : prog db attachment_answer :=
  match c with
  | CallUpload req => let! r := Upload req in Ret (AnsUpload r)
  | CallDownload hash => let! r := Download hash in Ret (AnsDownload r)
  | CallAttach hash id => let! _ := AttachFile hash id in Ret AnsOther
  | CallGetByMessageID id => let! _ := attachment_infos id in Ret AnsOther
  | CallGarbageCollect => let! _ := GarbageCollect in Ret AnsOther
  end.

(** An upload answers with the digest and the size of what was sent, a
    download with content of the digest it was asked for. *)
Definition answer_ok (c : attachment_call) (a : attachment_answer) : Prop :=
  match c, a with
  | CallUpload req, AnsUpload (Ok r) =>
      exists content, req_Content req = Some content /\ res_Hash r = sha256_hex content /\ res_Size r = size_of content /\
        0 < size_of content <= MaxFileSize
  | CallDownload hash, AnsDownload (Ok r) =>
      dl_Hash r = hash /\ sha256_hex (dl_Content r) = hash /\ 0 < size_of (dl_Content r) <= MaxFileSize
  | _, _ => True
  end.

Definition anyhow (d d' : db) : Prop := True.
#[local] Instance anyhow_preorder : PreOrder anyhow.
Proof. by split. Qed.
Abbreviation guar := (rg attachments_ok anyhow).

Lemma rg_step_of {A} (p : prog db A) d0 : within att_step p -> guar p (fun _ _ => True) d0.
Proof. apply (within_rg _ _ att_step). intros d d' HI H. by split; [apply H|]. Qed.

Lemma rg_answered {A B} (p : prog db A) (f : A -> B) (P : A -> Prop) (Q : B -> Prop) d0 : attachments_ok d0 ->
  (forall a, P a -> Q (f a)) -> guar p (fun a _ => P a) d0 -> guar (let! a := p in Ret (f a)) (fun b _ => Q b) d0.
Proof.
  intros HI HPQ Hp. apply rg_bind; [apply _|done|]. eapply rg_mono; [|exact Hp]. intros a d _ HP d' _ _. by apply HPQ.
Qed.

Lemma rg_Upload req d0 : attachments_ok d0 ->
  guar (Upload req) (fun r _ => answer_ok (CallUpload req) (AnsUpload r)) d0.
Proof.
  intros HI. rewrite Upload_eq. destruct (req_Content req) as [c|] eqn:Ec; [|done].
  destruct (Z.eqb_spec (size_of c) 0); [done|]. destruct (Z.ltb_spec MaxFileSize (size_of c)); [done|].
  assert (0 < size_of c <= MaxFileSize) as Hc by (pose proof (size_of_nonneg c); lia).
  apply rg_bind_ok; [apply _|done|]. unfold cas_Write. rewrite (proj2 (Z.eqb_neq (size_of c) 0)) by done.
  apply rg_exec. intros d _ HId. split; [by apply write_step|]. split; [done|]. split; [|by intros d' _ HI' d'' _ _].
  intros d' _ HI'. apply rg_bind_ok; [apply _|done|].
  eapply rg_mono; [|apply rg_step_of, within_InsertMetadata, upload_row_describes, Hc].
  intros [[]|e|w] d2 _ _ d3 _ _; [|done..]. simpl. by exists c.
Qed.

Lemma rg_Download hash d0 : attachments_ok d0 ->
  guar (Download hash) (fun r _ => answer_ok (CallDownload hash) (AnsDownload r)) d0.
Proof.
  intros HI. apply rg_bind_ok; [apply _|done|]. apply rg_query; [apply _|]. intros d d' _ [_ Hrows] _ HI'. split; [|done].
  destruct (select_by att_newest _ (attachments d)) as [|meta rest] eqn:E; [done|].
  assert (meta ∈ select_by att_newest (fun a => String.eqb (Hash a) hash) (attachments d)) as Hm by (rewrite E; by left).
  apply elem_of_select_by in Hm as [Hh%String.eqb_eq Hm]. destruct (Hrows meta Hm) as ((c0&Hc0&_)&_).
  apply rg_bind; [apply _|done|]. apply rg_query_o; [apply _|]. intros d1 d2 _ [Hcas _] _ _. split; [|done].
  destruct (cas_files d1 !! shardPath hash) as [c|] eqn:Ec; [|done]. destruct (Hcas _ _ Ec) as [Hp Hsz].
  assert (sha256_hex c = hash) as Hd.
  { symmetry. apply shardPath_inj; [|done]. rewrite <- Hh, Hc0. by rewrite !sha256_hex_length. }
  intros d3 _ _. simpl. split; [done|]. split; [done|]. exact Hsz.
Qed.

Lemma attachment_prog_ok c d0 : attachments_ok d0 -> guar (attachment_prog c) (fun a _ => answer_ok c a) d0.
Proof.
  intros HI. destruct c as [req|hash|hash id|id|]; cbn [attachment_prog].
  - apply (rg_answered _ _ (fun r => answer_ok (CallUpload req) (AnsUpload r))); [done|done|by apply rg_Upload].
  - apply (rg_answered _ _ (fun r => answer_ok (CallDownload hash) (AnsDownload r))); [done|done|by apply rg_Download].
  - apply (rg_answered _ _ (fun _ => True)); [done|done|]. apply rg_bind_ok; [apply _|done|].
    apply rg_query; [apply _|]. intros d d' _ [_ Hrows] _ HI'. split; [|done]. destruct (select_by att_newest _ (attachments d)) as [|meta rest] eqn:E; [done|].
    assert (meta ∈ select_by att_newest (fun a => String.eqb (Hash a) hash) (attachments d)) as Hm by (rewrite E; by left).
    apply elem_of_select_by in Hm as [_ Hm]. apply rg_step_of, within_InsertMetadata. exact (Hrows meta Hm).
  - apply (rg_answered _ _ (fun _ => True)); [done|done|]. apply rg_step_of.
    unfold attachment_infos, GetByMessageID, store_GetByMessageID. apply within_bind_ok; [apply within_query; apply _|done].
  - apply (rg_answered _ _ (fun _ => True)); [done|done|]. apply rg_step_of, within_removal, GarbageCollect_removes.
Qed.

(** C21. However uploads, downloads, attachments to messages, listings and
    garbage collections interleave, with any statement or file operation
    failing and other services deleting rows and files: every file is stored
    under the digest of its content, is not empty and within the size limit,
    every row describes a content of its digest with its size, a name and a
    type; and every successful download, whatever ran meanwhile, delivers
    content of exactly the digest asked for. *)
Theorem attachments_history (cs : list attachment_call) (d : db) (ps : list (prog db attachment_answer)) (d' : db)
    (Hinit : attachments_ok d) (Hrun : rtc (pool_step att_step) (attachment_prog <$> cs, d) (ps, d')) :
  attachments_ok d' /\ forall i c a, cs !! i = Some c -> ps !! i = Some (Ret a) -> answer_ok c a.
Proof.
  destruct (pool_invariant attachments_ok anyhow att_step ltac:(intros x y Hx Hxy; by split; [apply Hxy|])
    (attachment_prog <$> cs) ps (fun i a _ => forall c, cs !! i = Some c -> answer_ok c a) d d') with (2 := Hinit) (3 := Hrun) as (H1&_&H3).
  - intros i p Hp. rewrite list_lookup_fmap in Hp. destruct (cs !! i) as [c|] eqn:Ec; [|done]. injection Hp as <-.
    eapply rg_mono; [|by apply attachment_prog_ok]. intros a d1 _ Ha c' [= <-]. exact Ha.
  - split; [done|]. intros i c a Hc Ha. by apply (H3 i a Ha).
Qed.

(** ** One call at a time *)

(** Whatever fails, an upload is refused, or leaves the database as it was but
    for the file, or adds exactly one row for the file it stored. *)
Theorem upload_effect (req : UploadRequest) (d : db) :
  wp (Upload req)
     (fun r d' => match r with
        | Ok res => exists c, req_Content req = Some c /\ 0 < size_of c <= MaxFileSize /\ message_there (req_MessageID req) d = true /\
            res_Hash res = sha256_hex c /\ res_Size res = size_of c /\
            d' = set_attachments (insert_row (attachment_row (upload_row req c) (clock d)) (attachments d)) (store_file c d)
        | Err _ => d' = d \/ exists c, req_Content req = Some c /\ d' = store_file c d
        | Panic _ => False
        end) d.
Proof.
  rewrite Upload_eq. destruct (req_Content req) as [c|] eqn:Ec; [|by left].
  destruct (Z.eqb_spec (size_of c) 0); [by left|]. destruct (Z.ltb_spec MaxFileSize (size_of c)); [by left|].
  assert (0 < size_of c <= MaxFileSize) as Hc by (pose proof (size_of_nonneg c); lia).
  apply wp_bind_ok. unfold cas_Write. rewrite (proj2 (Z.eqb_neq (size_of c) 0)) by done. split; [|by left]. cbn [wp].
  assert (messages (store_file c d) = messages d /\ attachments (store_file c d) = attachments d /\ clock (store_file c d) = clock d) as (Em&Ea&Ek).
  { unfold store_file. by destruct (cas_files d !! _). }
  apply wp_bind_ok. unfold InsertMetadata. cbn [Att_MessageID].
  assert (message_there (req_MessageID req) (store_file c d) = message_there (req_MessageID req) d) as Et.
  { unfold message_there. by rewrite Em. }
  split; [|right; by exists c]. cbn [wp]. rewrite Et, Ea, Ek. destruct (message_there (req_MessageID req) d); [|right; by exists c].
  exists c. split; [done|]. split; [exact Hc|]. by split_and!.
Qed.

(** C22. Undisturbed, an upload of one byte to 50 MB, for a message on record
    or none, succeeds, and a download by the digest it answers with delivers
    the content uploaded, whatever rows and files were there before, as long
    as no other content on disk has that digest. *)
Theorem upload_download (req : UploadRequest) (c : string) (d : db)
    (Hc : req_Content req = Some c) (Hsize : 0 < size_of c <= MaxFileSize) (Hmsg : message_there (req_MessageID req) d = true)
    (Hcol : forall c', cas_files d !! shardPath (sha256_hex c) = Some c' -> c' = c) :
  exists res dl, (run_ok (Upload req) d).1 = Ok res /\
    (run_ok (Download (res_Hash res)) (run_ok (Upload req) d).2).1 = Ok dl /\ dl_Content dl = c.
Proof.
  assert (run_ok (Upload req) d = (Ok (mkUploadResult (sha256_hex c) (size_of c) (upload_mime req c) (upload_filename req (upload_mime req c))),
    set_attachments (insert_row (attachment_row (upload_row req c) (clock (store_file c d))) (attachments (store_file c d))) (store_file c d))) as E.
  { rewrite Upload_eq, Hc, (proj2 (Z.eqb_neq (size_of c) 0)), (proj2 (Z.ltb_ge _ _)) by lia. rewrite run_ok_bind_ok.
    unfold cas_Write. rewrite (proj2 (Z.eqb_neq (size_of c) 0)) by lia.
    change (run_ok (exec EDb (store_file c) (fun _ => (sha256_hex c, size_of c))) d) with (Ok (E := error) (sha256_hex c, size_of c), store_file c d).
    cbv iota beta. rewrite run_ok_bind_ok. unfold InsertMetadata, exec_o, run_ok. cbn [run Att_MessageID].
    assert (message_there (req_MessageID req) (store_file c d) = true) as -> by (rewrite <- Hmsg; unfold message_there, store_file; by destruct (cas_files d !! _)).
    done. }
  rewrite E. cbn [fst snd]. set (d1 := set_attachments _ (store_file c d)).
  eexists. cut (exists dl, (run_ok (Download (sha256_hex c)) d1).1 = Ok dl /\ dl_Content dl = c).
  { intros (dl&H1&H2). exists dl. split; [reflexivity|]. by split. }
  unfold Download. rewrite run_ok_bind_ok.
  unfold GetByHash, query, exec, run_ok at 1. cbn [run].
  destruct (select_by att_newest (fun a => String.eqb (Hash a) (sha256_hex c)) (attachments d1)) as [|meta rest] eqn:Es.
  - exfalso. assert (attachment_row (upload_row req c) (clock (store_file c d)) (next_id (attachments (store_file c d))) ∈
      select_by att_newest (fun a => String.eqb (Hash a) (sha256_hex c)) (attachments d1)) as Hin.
    { apply elem_of_select_by. split; [apply String.eqb_refl|]. apply elem_of_app. right. by apply list_elem_of_singleton. }
    rewrite Es in Hin. by apply elem_of_nil in Hin.
  - rewrite run_ok_bind. unfold cas_Read, query_o, exec_o, run_ok at 1. cbn [run].
    assert (cas_files d1 !! shardPath (sha256_hex c) = Some c) as ->.
    { change (cas_files (store_file c d) !! shardPath (sha256_hex c) = Some c). unfold store_file.
      destruct (cas_files d !! shardPath (sha256_hex c)) as [c'|] eqn:Ef; [by rewrite Ef, (Hcol c')|]. apply lookup_insert_eq. }
    eexists. split; [reflexivity|done].
Qed.

(** *** Garbage collection *)

(** A digest is collected as soon as one of its rows is unlinked. *)
Lemma elem_of_orphan_hashes h d : h ∈ orphan_hashes d <-> exists a, a ∈ rows (attachments d) /\ Hash a = h /\ linked d a = false.
Proof.
  unfold orphan_hashes. rewrite list_elem_of_filter, elem_of_remove_dups, list_elem_of_fmap. split.
  - intros [_ (a&->&Ha)]. apply elem_of_select in Ha as [Hl%negb_true_iff Ha]. by exists a.
  - intros (a&Ha&<-&Hl). split.
    + apply count_if_0. intros x Hx. apply elem_of_select in Hx as [Hx%negb_true_iff _]. by rewrite Hx, andb_false_r.
    + exists a. split; [done|]. apply elem_of_select. by rewrite Hl.
Qed.

Lemma run_collect l r d : let '(res, d') := run_ok (collect l r) d in
  FilesRemoved res = FilesRemoved r + Z.of_nat (length l) /\
  attachments d' = delete_rows (fun a => bool_decide (Hash a ∈ l)) (attachments d) /\ messages d' = messages d /\
  (forall p, p ∈ (shardPath <$> l) -> cas_files d' !! p = None) /\
  (forall p, p ∉ (shardPath <$> l) -> cas_files d' !! p = cas_files d !! p).
Proof.
  revert r d. induction l as [|h l IH]; intros r d; cbn [collect].
  { split_and!; [simpl; lia| |done|by intros p ?%elem_of_nil|done]. symmetry. by apply delete_rows_none. }
  rewrite run_ok_bind.
  assert (exists size, run_ok (cas_Delete h) d = (Ok size, set_cas_files (delete (shardPath h) (cas_files d)) d)) as [size ->].
  { unfold cas_Delete. rewrite run_ok_bind_ok. unfold query, exec, run_ok at 1. cbn [run].
    destruct (cas_files d !! shardPath h) as [c|] eqn:E; simpl fmap; cbv iota.
    - eexists. unfold exec_o, run_ok. cbn [run]. rewrite E. done.
    - eexists. unfold run_ok. cbn [run]. rewrite delete_id by done. by destruct d. }
  set (d1 := set_cas_files (delete (shardPath h) (cas_files d)) d). rewrite run_ok_bind.
  change (run_ok (DeleteByHash h) d1) with (Ok (E := error) tt, set_attachments (delete_rows (fun a => String.eqb (Hash a) h) (attachments d1)) d1).
  cbv iota beta. set (d2 := set_attachments _ d1).
  specialize (IH (mkGCResult (FilesRemoved r + 1) (BytesReclaimed r + size)) d2).
  destruct (run_ok (collect l _) d2) as [res d']. destruct IH as (H1&H2&H3&H4&H5). split_and!.
  - rewrite H1. simpl. lia.
  - rewrite H2. change (attachments d2) with (delete_rows (fun a => String.eqb (Hash a) h) (attachments d)). rewrite delete_rows_delete.
    apply delete_rows_ext. intros a. destruct (String.eqb_spec (Hash a) h); simpl; symmetry.
    + apply bool_decide_eq_true, elem_of_cons. by left.
    + apply bool_decide_ext. rewrite elem_of_cons. tauto.
  - by rewrite H3.
  - intros p [->|Hp]%elem_of_cons; [|by apply H4]. destruct (decide (shardPath h ∈ shardPath <$> l)); [by apply H4|].
    rewrite H5 by done. apply lookup_delete_eq.
  - intros p Hp. rewrite fmap_cons, not_elem_of_cons in Hp. destruct Hp as [Hne Hp]. rewrite H5 by done. by apply lookup_delete_ne.
Qed.

(** An undisturbed garbage collection removes exactly the digests that
    have a row without a message on record: all their rows, also those linked
    to messages, and their files; nothing else; and it answers with their
    number. *)
Theorem gc_exact (d : db) :
  let '(r, d') := run_ok GarbageCollect d in
  let gone h := exists a, a ∈ rows (attachments d) /\ Hash a = h /\ linked d a = false in
  (exists res, r = Ok res /\ FilesRemoved res = Z.of_nat (length (orphan_hashes d))) /\
  (forall a, a ∈ rows (attachments d') <-> a ∈ rows (attachments d) /\ ~ gone (Hash a)) /\
  (forall h, gone h -> cas_files d' !! shardPath h = None) /\
  (forall p, (forall h, gone h -> p <> shardPath h) -> cas_files d' !! p = cas_files d !! p) /\
  messages d' = messages d.
Proof.
  unfold GarbageCollect. rewrite run_ok_bind_ok. unfold FindOrphanHashes, query, exec, run_ok at 1. cbn [run]. rewrite run_ok_bind.
  pose proof (run_collect (scan (orphan_hashes d)) (mkGCResult 0 0) d) as H. destruct (run_ok (collect _ _) d) as [res d'].
  destruct H as (H1&H2&H3&H4&H5). cbn [FilesRemoved] in H1.
  assert (forall h, h ∈ scan (orphan_hashes d) <-> exists a, a ∈ rows (attachments d) /\ Hash a = h /\ linked d a = false) as Hg.
  { intros h. rewrite (scan_perm _). apply elem_of_orphan_hashes. }
  split_and!.
  - exists res. split; [done|]. by rewrite H1, (scan_perm _).
  - intros a. rewrite H2, elem_of_delete_rows, bool_decide_eq_false, Hg. tauto.
  - intros h Hh. apply H4, list_elem_of_fmap. exists h. split; [done|]. by apply Hg.
  - intros p Hp. apply H5. intros (h&->&Hh)%list_elem_of_fmap. apply Hg in Hh. by apply (Hp h).
  - exact H3.
Qed.
End Spec.

(** ** Attachments: witnesses and concrete runs *)

(** The paths the retention worker removes and the paths of the content store
    never coincide. *)
Theorem retention_misses `{!GoSha256} (h : string) (c : string) :
  String.length h = 64%nat -> retention_path h <> shardPath (sha256_hex c).
Proof.
  intros Hl E. apply (f_equal String.length) in E. unfold retention_path, shardPath in E.
  assert (forall z u, String.length (z +:+ u) = (String.length z + String.length u)%nat) as Happ.
  { intros z u. induction z as [|a z IH]; [done|]. exact (f_equal S IH). }
  assert (forall n s, (n <= String.length s)%nat -> String.length (String.substring 0 n s) = n) as Hsub.
  { induction n as [|n IH]; intros [|a s] Hn; simpl in *; try lia. rewrite IH; lia. }
  assert (forall m s, (m + 2 <= String.length s)%nat -> String.length (String.substring m 2 s) = 2%nat) as Hsub2.
  { induction m as [|m IH]; intros s Hn; [by apply Hsub|]. destruct s as [|a s]; simpl in *; [lia|]. apply IH. lia. }
  pose proof (sha256_hex_length c) as Hc.
  rewrite !Happ, (Hsub 2%nat h), (Hsub2 0%nat (sha256_hex c)), (Hsub2 2%nat (sha256_hex c)), Hl, Hc in E by lia. simpl in E. lia.
Qed.

Module AttachmentRuns.
#[local] Existing Instance rowid_engine.
#[local] Instance unicode : GoUnicode := {| ToLower := sql_lower; ToLower_ascii := fun s _ => eq_refl |}.

(** A stand-in for the digest: the content, padded to 64 characters. *)
Fixpoint pad (n : nat) (s : string) : string :=
  match n, s with
  | O, _ => EmptyString
  | S n', EmptyString => String (Ascii.ascii_of_nat 48) (pad n' EmptyString)
  | S n', String a r => String a (pad n' r)
  end.
Lemma pad_length n s : String.length (pad n s) = n.
Proof. revert s. induction n as [|n IH]; intros [|a s]; simpl; by rewrite ?IH. Qed.
#[local] Instance sha : GoSha256 := {| sha256_hex := pad 64; sha256_hex_length := pad_length 64 |}.
#[local] Instance sniff : ContentSniffer.
Proof. by refine {| DetectContentType := fun _ => "text/plain; charset=utf-8" |}. Defined.

Definition a_message (id : Z) : Message := mkMessage id 1 "alice" (Some "bob") None None "see attached" 5 StatusPending raw_empty_object None None 0 0.
Definition a_request (message : option Z) : UploadRequest := mkUploadRequest (Some "a,b") "table.CSV" "" message "alice".
Definition start_db : db := set_messages (mkTable [a_message 1] 2) (set_conversations (mkTable [mkConversation 1 "" "alice" None] 2) empty_db).

Lemma start_db_ok : attachments_ok start_db.
Proof. split; [by intros p c H; apply (lookup_empty_Some p c) in H|by intros a ?%elem_of_nil]. Qed.

(** The sniffed type is generic; the extension, whatever its case, decides. *)
Example mime_by_extension : (run_ok (Upload (a_request None)) start_db).1 = Ok (mkUploadResult (pad 64 "a,b") 3 "text/csv" "table.CSV").
Proof. by vm_compute. Qed.

Lemma attachments_history_witness :
  let cs := [CallUpload (a_request (Some 1)); CallDownload (pad 64 "a,b"); CallGarbageCollect] in
  let r := run_schedule [(0%nat, false); (2%nat, false); (0%nat, false); (1%nat, false); (1%nat, false)] (attachment_prog <$> cs) start_db in
  attachments_ok r.2 /\
  (forall i c a, cs !! i = Some c -> r.1 !! i = Some (Ret a) -> answer_ok c a) /\
  returned <$> r.1 !! 1%nat = Some (Some (AnsDownload (Ok (mkDownloadResult "a,b" (pad 64 "a,b") "table.CSV" "text/csv" 3)))).
Proof.
  intros cs r.
  destruct (attachments_history cs start_db r.1 r.2 start_db_ok) as [H1 H2].
  - rewrite <- surjective_pairing. apply run_schedule_reachable.
  - split; [exact H1|]. split; [exact H2|]. by vm_compute.
Defined.

Lemma upload_download_witness : 0 < size_of "a,b" <= MaxFileSize /\
  exists res dl, (run_ok (Upload (a_request (Some 1))) start_db).1 = Ok res /\
    (run_ok (Download (res_Hash res)) (run_ok (Upload (a_request (Some 1))) start_db).2).1 = Ok dl /\ dl_Content dl = "a,b".
Proof.
  assert (0 < size_of "a,b" <= MaxFileSize) as H by (unfold size_of, MaxFileSize; simpl; lia).
  split; [exact H|]. apply (upload_download (a_request (Some 1)) "a,b" start_db eq_refl H eq_refl).
  intros c' Hc. by apply (lookup_empty_Some (M := gmap string) _ c') in Hc.
Defined.

(** Uploaded first and attached to a message then, as the tools do it, the
    file has an unlinked row: the next collection destroys the attachment of
    the message. *)
Definition attached_db : db := (run_ok (AttachFile (pad 64 "a,b") 1) (run_ok (Upload (a_request None)) start_db).2).2.
Theorem gc_destroys_linked :
  (exists a, a ∈ rows (attachments attached_db) /\ linked attached_db a = true) /\
  let d' := (run_ok GarbageCollect attached_db).2 in
  rows (attachments d') = [] /\ (run_ok (Download (pad 64 "a,b")) d').1 = Err ErrAttachmentNotFound /\
  (run_ok (GetByMessageID 1) d').1 = Ok [].
Proof.
  split; [|by vm_compute]. eexists (mkAttachment 2 (pad 64 "a,b") "table.CSV" 3 "text/csv" (Some 1) "alice" 0). vm_compute. split; [|done].
  apply elem_of_cons. right. by apply list_elem_of_singleton.
Qed.

(** A collection between the upload and the message: the upload is gone. *)
Theorem gc_destroys_fresh_upload :
  let d1 := (run_ok (Upload (a_request None)) start_db).2 in
  let d2 := (run_ok GarbageCollect d1).2 in
  cas_files d2 = ∅ /\ (run_ok (AttachFile (pad 64 "a,b") 1) d2).1 = Err ErrAttachmentNotFound.
Proof. split; by vm_compute. Qed.

(** An upload of a content that the collection is about to remove: it answers
    with success, and its file is gone while its row stays. *)
Theorem upload_races_gc :
  let d1 := (run_ok (Upload (a_request None)) start_db).2 in
  let cs := [CallGarbageCollect; CallUpload (a_request (Some 1))] in
  let r := run_schedule [(0%nat, false); (0%nat, false); (1%nat, false); (0%nat, false); (0%nat, false); (1%nat, false)] (attachment_prog <$> cs) d1 in
  (exists res, returned <$> r.1 !! 1%nat = Some (Some (AnsUpload (Ok res)))) /\
  length (rows (attachments r.2)) = 1%nat /\
  (run_ok (Download (pad 64 "a,b")) r.2).1 = Err ErrFileMissing.
Proof. vm_compute. split_and!; [by eexists|done..]. Qed.
End AttachmentRuns.
