(* ===== verification/Embeddings.v ===== *)
(** * Embeddings (internal/search: store.go, pipeline.go)

    The queue of messages to embed, the record of those embedded, and the
    batch a worker of the pipeline processes.  The provider of vectors and the
    index that holds them are interfaces: neither touches the database. *)
From S2P Require Import Prelude Prog Table Schema Messaging MessagingQueries Retention.

Class EmbeddingProvider := {
  vector : Type;
  Embed : string -> M vector;
  EmbedBatch : list string -> M (list (option vector));
  provider_Name : string;
  provider_Dimensions : Z;
  Embed_frame : forall t, within eq (Embed t);
  EmbedBatch_frame : forall ts, within eq (EmbedBatch ts)
}.

(** The HNSW graph; a result is the key of a node and its distance, a
    [float32]. *)
Class VectorIndex `{!EmbeddingProvider} := {
  AddVector : Z -> vector -> M unit;
  index_Search : vector -> Z -> M (list (Z * spec_float));
  index_Delete : Z -> prog db bool;
  index_Len : prog db Z;
  AddVector_frame : forall id v, within eq (AddVector id v);
  index_Search_frame : forall v k, within eq (index_Search v k);
  index_Delete_frame : forall id, within eq (index_Delete id);
  index_Len_frame : within eq index_Len
}.

(** What an error says. *)
Class ErrorText := { error_text : error -> string }.

(** ** The record of what is embedded *)

Definition on_record (id : Z) (d : db) : bool := bool_decide (is_Some (find_id id (messages d))).

(** INSERT OR REPLACE; the foreign key to the message. *)
Definition SaveEmbedding (messageID : Z) (provider model : string) (dimensions : Z) : M unit :=
  exec_o EDb (fun d => if on_record messageID d
                       then set_embeddings (<[messageID := mkEmbeddingRecord provider model dimensions (clock d)]> (embeddings d)) d
                       else d)
             (fun d => if on_record messageID d then Ok tt else Err EDb).

Definition DeleteEmbedding (messageID : Z) : M unit :=
  exec EDb (fun d => set_embeddings (delete messageID (embeddings d)) d) (fun _ => tt).
Definition DeleteAllEmbeddings : M unit := exec EDb (fun d => set_embeddings ∅ d) (fun _ => tt).
Definition EmbeddingCount : M Z := query EDb (fun d => Z.of_nat (size (embeddings d))).

Definition embedded_newest (a b : Z * EmbeddingRecord) : Prop := EmbeddedAt b.2 <= EmbeddedAt a.2.
#[export] Instance embedded_newest_dec a b : Decision (embedded_newest a b).
Proof. unfold embedded_newest. apply _. Defined.

(** ** The queue *)
Definition q_message (id : Z) (q : QueueItem) : bool := Q_MessageID q =? id.
Definition q_is (st : QueueStatus) (q : QueueItem) : bool := bool_decide (Q_Status q = st).
Definition queued (id : Z) (d : db) : bool := negb (affected (q_message id) (embedding_queue d) =? 0).
Definition queue_row (messageID now id : Z) : QueueItem := mkQueueItem id messageID QueuePending 0 None now None.

(** INSERT OR IGNORE: a message in the queue already is left as it is, a
    missing message is an error all the same. *)
Definition Enqueue (messageID : Z) : M unit :=
  exec_o EDb (fun d => if on_record messageID d && negb (queued messageID d)
                       then set_embedding_queue (insert_row (queue_row messageID (clock d)) (embedding_queue d)) d else d)
             (fun d => if on_record messageID d || queued messageID d then Ok tt else Err EDb).

Definition q_oldest (a b : QueueItem) : Prop := Q_CreatedAt a <= Q_CreatedAt b.
#[export] Instance q_oldest_dec a b : Decision (q_oldest a b).
Proof. unfold q_oldest. apply _. Defined.

Definition with_q_status (st : QueueStatus) (q : QueueItem) : QueueItem :=
  mkQueueItem (Q_ID q) (Q_MessageID q) st (Q_Attempts q) (Q_LastError q) (Q_CreatedAt q) (Q_CompletedAt q).
Definition claim_item (q : QueueItem) : QueueItem :=
  mkQueueItem (Q_ID q) (Q_MessageID q) QueueProcessing (Q_Attempts q + 1) (Q_LastError q) (Q_CreatedAt q) (Q_CompletedAt q).
Definition complete_item (now : Z) (q : QueueItem) : QueueItem :=
  mkQueueItem (Q_ID q) (Q_MessageID q) QueueCompleted (Q_Attempts q) (Q_LastError q) (Q_CreatedAt q) (Some now).
Definition fail_item (errMsg : string) (q : QueueItem) : QueueItem :=
  mkQueueItem (Q_ID q) (Q_MessageID q) QueueFailed (Q_Attempts q) (Some errMsg) (Q_CreatedAt q) (Q_CompletedAt q).

Definition MarkCompleted (messageID : Z) : M unit :=
  exec EDb (fun d => set_embedding_queue (update_rows (q_message messageID) (complete_item (clock d)) (embedding_queue d)) d) (fun _ => tt).
Definition MarkFailed (messageID : Z) (errMsg : string) : M unit :=
  exec EDb (fun d => set_embedding_queue (update_rows (q_message messageID) (fail_item errMsg) (embedding_queue d)) d) (fun _ => tt).

Definition retryable (maxAttempts : Z) (q : QueueItem) : bool := q_is QueueFailed q && (Q_Attempts q <? maxAttempts).
Definition RequeueFailed (maxAttempts : Z) : M Z :=
  exec EDb (fun d => set_embedding_queue (update_rows (retryable maxAttempts) (with_q_status QueuePending) (embedding_queue d)) d)
           (fun d => affected (retryable maxAttempts) (embedding_queue d)).

Definition stale (cutoff : Z) (q : QueueItem) : bool := q_is QueueProcessing q && before_nanos (Q_CreatedAt q) cutoff.
Definition ResetStale (olderThan : Z) : M Z :=
  let! now := time_now in
  let cutoff := add_duration now (- olderThan) in
  exec EDb (fun d => set_embedding_queue (update_rows (stale cutoff) (with_q_status QueuePending) (embedding_queue d)) d)
           (fun d => affected (stale cutoff) (embedding_queue d)).

Definition PendingCount : M Z := query EDb (fun d => affected (fun q => q_is QueuePending q || q_is QueueProcessing q) (embedding_queue d)).
Definition FailedCount : M Z := query EDb (fun d => affected (q_is QueueFailed) (embedding_queue d)).
Definition ClearQueue : M unit := exec EDb (fun d => set_embedding_queue (mkTable [] (next_id (embedding_queue d))) d) (fun _ => tt).

(** SQLite's TRIM: spaces only. *)
Fixpoint only_spaces (s : string) : bool :=
  match s with EmptyString => true | String a r => bool_decide (Ascii.nat_of_ascii a = 32%nat) && only_spaces r end.
Definition unembedded (d : db) (m : Message) : bool :=
  bool_decide (embeddings d !! Msg_ID m = None) && negb (queued (Msg_ID m) d) && negb (only_spaces (Body m)).

Definition GetMessageBody (messageID : Z) : M string :=
  query_o ErrNoRows (fun d => match find_id messageID (messages d) with Some m => Ok (Body m) | None => Err ErrNoRows end).

Record EmbeddingStatsResult := mkEmbeddingStats {
  es_Provider : string; es_TotalEmbedded : Z; es_PendingCount : Z; es_FailedCount : Z; es_Dimensions : Z }.

Section Queue.
Context {HEng : Engine}.

(** The newest embedding. *)
Definition newest_embedding (d : db) : option EmbeddingRecord :=
  snd <$> head (merge_sort embedded_newest (scan (map_to_list (embeddings d)))).

Definition GetEmbeddingProvider : M string :=
  query EDb (fun d => match newest_embedding d with Some e => Provider e | None => EmptyString end).

Definition Stats : M EmbeddingStatsResult :=
  let? newest := query EDb newest_embedding in
  let! total := EmbeddingCount in
  let! pending := PendingCount in
  let! failed := FailedCount in
  let count (o : outcome error Z) := match o with Ok n => n | _ => 0 end in
  Ret (Ok (mkEmbeddingStats (match newest with Some e => Provider e | None => EmptyString end)
             (count total) (count pending) (count failed) (match newest with Some e => Dimensions e | None => 0 end))).

(** One INSERT ... SELECT, in the order of the scan. *)
Definition enqueue_all (ids : list Z) (d : db) : db :=
  foldl (fun d id => set_embedding_queue (insert_row (queue_row id (clock d)) (embedding_queue d)) d) d ids.
Definition EnqueueAllMessages : M Z :=
  exec EDb (fun d => enqueue_all (Msg_ID <$> scan (select (unembedded d) (messages d))) d)
           (fun d => affected (unembedded d) (messages d)).

(** The transaction: select, then mark each. *)
Definition dequeue_picks (batchSize : Z) (d : db) : list QueueItem := page batchSize 0 (select_by q_oldest (q_is QueuePending) (embedding_queue d)).
Definition Dequeue (batchSize : Z) : M (list QueueItem) :=
  exec EDb
    (fun d => set_embedding_queue (update_rows (fun q => bool_decide (Q_ID q ∈ (Q_ID <$> dequeue_picks batchSize d))) claim_item (embedding_queue d)) d)
    (dequeue_picks batchSize).
End Queue.

(** ** The pipeline *)
Definition OnMessageCreated (messageID : Z) (body : string) : prog db unit :=
  if str_empty (trim_space body) then Ret tt else let! _ := Enqueue messageID in Ret tt.

Section Pipeline.
Context {HEng : Engine} {HProv : EmbeddingProvider} {HIdx : VectorIndex} {HErr : ErrorText}.

Definition OnMessageDeleted (messageID : Z) : prog db unit :=
  let! _ := DeleteEmbedding messageID in
  let! _ := index_Delete messageID in
  Ret tt.

(** A message that cannot be read, or has nothing to embed, is done with. *)
Fixpoint gather (items : list QueueItem) : prog db (list (Z * string)) :=
  match items with
  | [] => Ret []
  | item :: rest =>
      let! body := GetMessageBody (Q_MessageID item) in
      match body with
      | Ok b =>
          if str_empty (trim_space b) then let! _ := MarkCompleted (Q_MessageID item) in gather rest
          else let! batch := gather rest in Ret ((Q_MessageID item, b) :: batch)
      | _ => let! _ := MarkCompleted (Q_MessageID item) in gather rest
      end
  end.

Definition store_vector (id : Z) (v : vector) : prog db unit :=
  let! added := AddVector id v in
  match added with
  | Ok _ =>
      let! saved := SaveEmbedding id provider_Name provider_Name provider_Dimensions in
      match saved with
      | Ok _ => let! _ := MarkCompleted id in Ret tt
      | Err e => let! _ := MarkFailed id (error_text e) in Ret tt
      | Panic _ => Ret tt
      end
  | Err e => let! _ := MarkFailed id (error_text e) in Ret tt
  | Panic _ => Ret tt
  end.

(** The vectors may be fewer than the messages, and nil. *)
Fixpoint store_results (batch : list (Z * string)) (vectors : list (option vector)) : prog db unit :=
  match batch with
  | [] => Ret tt
  | (id, _) :: rest =>
      let! _ := match vectors with
                | Some v :: _ => store_vector id v
                | _ => let! _ := MarkFailed id "empty embedding returned" in Ret tt
                end in
      store_results rest (tail vectors)
  end.

Definition processBatch (batchSize retryMaxAttempts : Z) : prog db unit :=
  let! items := Dequeue (default_limit 10 batchSize) in
  match items with
  | Ok items =>
      let! batch := gather items in
      if bool_decide (batch = []) then Ret tt
      else
        let! vectors := EmbedBatch batch.*2 in
        match vectors with
        | Ok vs => store_results batch vs
        | Err e =>
            let! _ := for_each batch.*1 (fun id => let! _ := MarkFailed id (error_text e) in Ret tt) in
            let! _ := RequeueFailed retryMaxAttempts in
            Ret tt
        | Panic _ => Ret tt
        end
  | _ => Ret tt
  end.

(** At start-up: another provider than the last one starts afresh, and what is
    not embedded is queued. *)
Definition start_up (rebuild : prog db unit) : prog db unit :=
  let! existing := GetEmbeddingProvider in
  let name := match existing with Ok n => n | _ => EmptyString end in
  let! _ := (if negb (str_empty name) && negb (String.eqb name provider_Name)
             then let! _ := DeleteAllEmbeddings in let! _ := ClearQueue in rebuild
             else Ret tt) in
  let! _ := EnqueueAllMessages in
  Ret tt.
End Pipeline.
