(* ===== verification/EmbeddingsSpec.v ===== *)
(** * Embeddings: the queue and its worker

    [embedding_history]: what no interleaving of workers, events, start-ups
    and deletions can break in the queue.  [process_batch_exact]: an
    undisturbed batch is embedded, recorded and completed, and nothing else
    changes.  [EmbeddingRuns] shows items that are never embedded. *)
From S2P Require Import Prelude Prog Table Schema Messaging MessagingQueries Retention Embeddings.

(** ** The invariant of the queue *)
Definition item_ok (q : QueueItem) : Prop :=
  0 <= Q_Attempts q /\ (Q_Status q = QueueCompleted -> is_Some (Q_CompletedAt q)) /\
  (Q_Status q = QueueFailed -> is_Some (Q_LastError q)).

Definition queue_ok (d : db) : Prop :=
  table_ok (embedding_queue d) /\ NoDup (Q_MessageID <$> rows (embedding_queue d)) /\
  (forall q, q ∈ rows (embedding_queue d) -> item_ok q) /\ NoDup (Msg_ID <$> rows (messages d)).

(** An item keeps its message and its age, its attempts only grow, and an item
    that was removed does not come back under its id. *)
Definition same_item (q q' : QueueItem) : Prop :=
  Q_ID q' = Q_ID q /\ Q_MessageID q' = Q_MessageID q /\ Q_CreatedAt q' = Q_CreatedAt q /\ Q_Attempts q <= Q_Attempts q'.
Definition queue_after (d d' : db) : Prop :=
  next_id (embedding_queue d) <= next_id (embedding_queue d') /\
  forall q', q' ∈ rows (embedding_queue d') ->
    next_id (embedding_queue d) <= Q_ID q' \/ exists q, q ∈ rows (embedding_queue d) /\ same_item q q'.

Lemma same_item_refl q : same_item q q.
Proof. by repeat split. Qed.

Lemma queue_after_id d d' : embedding_queue d' = embedding_queue d -> queue_after d d'.
Proof. intros E. split; rewrite E; [lia|]. intros q Hq. right. exists q. split; [done|apply same_item_refl]. Qed.

#[export] Instance queue_after_preorder : PreOrder queue_after.
Proof.
  split; [intros d; by apply queue_after_id|]. intros a b c [N1 H1] [N2 H2]. split; [lia|]. intros q Hq.
  destruct (H2 q Hq) as [?|(q1&Hq1&E1&E2&E3&E4)]; [left; lia|].
  destruct (H1 q1 Hq1) as [?|(q0&Hq0&F1&F2&F3&F4)]; [left; lia|]. right. exists q0. split; [done|].
  split_and!; [congruence..|lia].
Qed.

Definition queue_step (d d' : db) : Prop := queue_ok d -> queue_ok d' /\ queue_after d d'.
#[export] Instance queue_step_preorder : PreOrder queue_step.
Proof.
  split; [intros d H; by split|]. intros a b c H1 H2 H. destruct (H1 H) as [Hb Ha]. destruct (H2 Hb) as [Hc Hb']. split; [done|by etrans].
Qed.

(** ** Steps *)
Lemma queue_step_frame d d' : embedding_queue d' = embedding_queue d -> messages d' = messages d -> queue_step d d'.
Proof.
  intros E1 E2 H. split; [|by apply queue_after_id]. unfold queue_ok. by rewrite E1, E2.
Qed.

Lemma queue_step_update p f d :
  (forall q, item_ok q -> item_ok (f q) /\ same_item q (f q)) ->
  queue_step d (set_embedding_queue (update_rows p f (embedding_queue d)) d).
Proof.
  intros Hf (Ht&Hn&Hq&Hm).
  assert (forall q, q ∈ rows (update_rows p f (embedding_queue d)) -> exists q0, q0 ∈ rows (embedding_queue d) /\ item_ok q /\ same_item q0 q) as Hrow.
  { intros q (q0&Hq0&->)%elem_of_map_if. exists q0. split; [done|]. destruct (p q0); [by apply Hf, Hq|].
    split; [by apply Hq|apply same_item_refl]. }
  assert (forall g : QueueItem -> Z, (forall q, item_ok q -> g (f q) = g q) ->
    g <$> rows (update_rows p f (embedding_queue d)) = g <$> rows (embedding_queue d)) as Hg.
  { intros g Hgf. simpl. unfold map_if. rewrite <- list_fmap_compose. apply list_fmap_ext. intros i q Hi. simpl.
    destruct (p q); [|done]. apply Hgf, Hq. by eapply list_elem_of_lookup_2. }
  split.
  - unfold queue_ok. cbn [embedding_queue set_embedding_queue messages]. split_and!.
    + split; [|intros q Hq'; destruct (Hrow q Hq') as (q0&Hq0&_&E&_); unfold row_id, QueueItem_row; rewrite E; by apply Ht].
      unfold row_id, QueueItem_row. rewrite (Hg Q_ID); [apply Ht|]. intros q Hok. apply (Hf q Hok).
    + rewrite (Hg Q_MessageID); [done|]. intros q Hok. apply (Hf q Hok).
    + intros q Hq'. by destruct (Hrow q Hq') as (q0&_&?&_).
    + done.
  - split; [cbn; lia|]. intros q Hq'. right. destruct (Hrow q Hq') as (q0&?&_&?). by exists q0.
Qed.

Lemma queue_step_insert mk d :
  (forall id, Q_ID (mk id) = id) -> (forall id, item_ok (mk id)) ->
  (forall id, Q_MessageID (mk id) ∉ Q_MessageID <$> rows (embedding_queue d)) ->
  queue_step d (set_embedding_queue (insert_row mk (embedding_queue d)) d).
Proof.
  intros Hid Hok Hnew (Ht&Hn&Hq&Hm). split.
  - unfold queue_ok. cbn [embedding_queue set_embedding_queue messages]. split_and!; [| | |done].
    + by apply table_ok_insert.
    + cbn [insert_row rows]. rewrite fmap_app. apply NoDup_app. split_and!; [done| |apply NoDup_singleton].
      intros x Hx ->%list_elem_of_singleton. by eapply Hnew.
    + intros q [Hin| ->%list_elem_of_singleton]%elem_of_app; [by apply Hq|done].
  - split; [cbn; lia|]. intros q [Hin| ->%list_elem_of_singleton]%elem_of_app.
    + right. exists q. split; [done|apply same_item_refl].
    + left. rewrite Hid. lia.
Qed.

(** Deletions by anyone: a message takes its item with it. *)
Lemma queue_step_shrink p d d' :
  embedding_queue d' = delete_rows p (embedding_queue d) -> NoDup (Msg_ID <$> rows (messages d')) -> queue_step d d'.
Proof.
  intros E Hm (Ht&Hn&Hq&_). unfold queue_ok, queue_after. rewrite E. split_and!; [by apply table_ok_delete| | |done|simpl; lia|].
  - eapply sublist_NoDup; [exact Hn|]. apply fmap_sublist, sublist_filter.
  - intros q [_ Hin]%elem_of_delete_rows. by apply Hq.
  - intros q Hin%elem_of_delete_rows. right. exists q. split; [apply Hin|apply same_item_refl].
Qed.

Lemma queued_false id d : queued id d = false -> id ∉ Q_MessageID <$> rows (embedding_queue d).
Proof.
  unfold queued, affected. rewrite negb_false_iff, Z.eqb_eq, count_if_0. intros H (q&->&Hq)%list_elem_of_fmap.
  specialize (H q Hq). unfold q_message in H. by apply Z.eqb_neq in H.
Qed.

Lemma queue_row_ok m now id : item_ok (queue_row m now id).
Proof. split; [simpl; lia|]. by split. Qed.

Lemma within_queue_update {B} (e : error) p (f : db -> QueueItem -> QueueItem) (ans : db -> B) :
  (forall d q, item_ok q -> item_ok (f d q) /\ same_item q (f d q)) ->
  within queue_step (exec e (fun d => set_embedding_queue (update_rows (p d) (f d) (embedding_queue d)) d) ans).
Proof. intros Hf. apply within_exec. intros d. apply queue_step_update, Hf. Qed.

Lemma item_ok_status st q : st <> QueueCompleted -> st <> QueueFailed ->
  item_ok q -> item_ok (with_q_status st q) /\ same_item q (with_q_status st q).
Proof. intros H1 H2 (Ha&_&_). split; [|by repeat split]. by split_and!. Qed.

Lemma within_MarkCompleted id : within queue_step (MarkCompleted id).
Proof.
  apply (within_queue_update _ (fun _ => q_message id) (fun d => complete_item (clock d))). intros d q (Ha&_&_).
  split; [|by repeat split]. split_and!; [done|by eexists|done].
Qed.

Lemma within_MarkFailed id msg : within queue_step (MarkFailed id msg).
Proof.
  apply (within_queue_update _ (fun _ => q_message id) (fun _ => fail_item msg)). intros d q (Ha&_&_).
  split; [|by repeat split]. split_and!; [done|done|by eexists].
Qed.

Lemma within_RequeueFailed n : within queue_step (RequeueFailed n).
Proof.
  apply (within_queue_update _ (fun _ => retryable n) (fun _ => with_q_status QueuePending)). intros d q. by apply item_ok_status.
Qed.

Lemma within_ResetStale n : within queue_step (ResetStale n).
Proof.
  intros d. apply (within_queue_update _ (fun _ => stale _) (fun _ => with_q_status QueuePending)). intros d' q. by apply item_ok_status.
Qed.

Lemma within_Enqueue id : within queue_step (Enqueue id).
Proof.
  apply within_exec_o. intros d. destruct (on_record id d && negb (queued id d)) eqn:E; [|reflexivity]. guards.
  apply queue_step_insert; [done|intros ?; apply queue_row_ok|]. intros ?. by apply queued_false.
Qed.

Lemma within_ClearQueue : within queue_step ClearQueue.
Proof.
  apply within_exec. intros d H. split; [|split; [simpl; lia|by intros q Hq%elem_of_nil]].
  destruct H as (_&_&_&Hm). split_and!; [split; [constructor|by intros q Hq%elem_of_nil]|constructor|by intros q Hq%elem_of_nil|done].
Qed.

Lemma within_embeddings {B} (e : error) (f : db -> gmap Z EmbeddingRecord) (ans : db -> B) :
  within queue_step (exec e (fun d => set_embeddings (f d) d) ans).
Proof. apply within_exec. intros d. by apply queue_step_frame. Qed.

Section Spec.
Context {HEng : Engine}.

Lemma queue_step_enqueue_all ids d : NoDup ids ->
  (forall id, id ∈ ids -> id ∉ Q_MessageID <$> rows (embedding_queue d)) -> queue_step d (enqueue_all ids d).
Proof.
  revert d. unfold enqueue_all. induction ids as [|id ids IH]; intros d Hn Hnew; [reflexivity|].
  apply NoDup_cons in Hn as [Hid Hn]. cbn [foldl]. etrans.
  - apply (queue_step_insert (queue_row id (clock d))); [done|intros ?; apply queue_row_ok|]. intros ?. apply Hnew. by left.
  - apply IH; [done|]. intros x Hx. cbn [embedding_queue set_embedding_queue insert_row rows]. rewrite fmap_app, elem_of_app.
    intros [H|H]; [revert H; apply Hnew; by right|]. apply list_elem_of_singleton in H. by subst x.
Qed.

Lemma within_EnqueueAllMessages : within queue_step EnqueueAllMessages.
Proof.
  apply within_exec. intros d Hok. apply queue_step_enqueue_all; [| |done].
  - eapply NoDup_Permutation_proper; [apply fmap_Permutation, scan_perm|]. eapply sublist_NoDup; [apply Hok|]. apply fmap_sublist, sublist_filter.
  - intros id. rewrite (fmap_Permutation Msg_ID _ _ (scan_perm _)). intros (m&->&[Hm _]%elem_of_select)%list_elem_of_fmap.
    unfold unembedded in Hm. guards. by apply queued_false.
Qed.

Lemma claim_item_ok q : item_ok q -> item_ok (claim_item q) /\ same_item q (claim_item q).
Proof.
  intros (Ha&_&_). split; [split_and!; [simpl; lia|done..]|]. split_and!; [done..|simpl; lia].
Qed.

Lemma within_Dequeue n : within queue_step (Dequeue n).
Proof. apply (within_queue_update _ (fun d q => bool_decide (Q_ID q ∈ (Q_ID <$> dequeue_picks n d))) (fun _ => claim_item)). intros d. apply claim_item_ok. Qed.

Context {HProv : EmbeddingProvider} {HIdx : VectorIndex} {HErr : ErrorText}.

Lemma within_frame {A} (p : prog db A) : within eq p -> within queue_step p.
Proof. apply within_mono. intros d d' ->. reflexivity. Qed.

Lemma within_store_vector id v : within queue_step (store_vector id v).
Proof.
  apply within_bind; [apply within_frame, AddVector_frame|]. intros [[]|e|w]; [|by apply within_bind; [apply within_MarkFailed|]|done].
  apply within_bind.
  - apply within_exec_o. intros d. destruct (on_record id d); [by apply queue_step_frame|reflexivity].
  - intros [[]|e|w]; [|by apply within_bind; [apply within_MarkFailed|]|done]. by apply within_bind; [apply within_MarkCompleted|].
Qed.

Lemma within_store_results batch vs : within queue_step (store_results batch vs).
Proof.
  revert vs. induction batch as [|[id b] batch IH]; intros vs; [done|]. cbn [store_results]. apply within_bind; [|intros _; apply IH].
  destruct vs as [|[v|] vs]; try (by apply within_bind; [apply within_MarkFailed|]). apply within_store_vector.
Qed.

Lemma within_gather items : within queue_step (gather items).
Proof.
  induction items as [|q items IH]; [done|]. cbn [gather]. apply within_bind; [apply within_query_o; apply _|].
  intros [b|e|w]; [|by apply within_bind; [apply within_MarkCompleted|]..].
  destruct (str_empty _); [by apply within_bind; [apply within_MarkCompleted|]|]. by apply within_bind.
Qed.

Lemma within_processBatch n r : within queue_step (processBatch n r).
Proof.
  apply within_bind; [apply within_Dequeue|]. intros [items|e|w]; [|done..]. apply within_bind; [apply within_gather|]. intros batch.
  case_bool_decide; [done|]. apply within_bind; [apply within_frame, EmbedBatch_frame|]. intros [vs|e|w]; [apply within_store_results| |done].
  apply within_bind; [apply within_for_each; intros id; by apply within_bind; [apply within_MarkFailed|]|].
  intros _. by apply within_bind; [apply within_RequeueFailed|].
Qed.

Lemma within_start_up rebuild : within eq rebuild -> within queue_step (start_up rebuild).
Proof.
  intros Hr. apply within_bind; [apply within_query; apply _|]. intros existing. apply within_bind; [|intros _; by apply within_bind; [apply within_EnqueueAllMessages|]].
  destruct (_ && _); [|done]. apply within_bind; [apply within_embeddings|]. intros _. apply within_bind; [apply within_ClearQueue|]. intros _. by apply within_frame.
Qed.

(** ** Histories *)
Inductive embedding_call :=
| CallCreated (messageID : Z) (body : string)
| CallDeleted (messageID : Z)
| CallProcess (batchSize retryMaxAttempts : Z)
| CallStartUp
| CallResetStale (olderThan : Z)
| CallStats.

Definition embedding_prog (rebuild : prog db unit) (c : embedding_call) : prog db unit :=
  match c with
  | CallCreated id body => OnMessageCreated id body
  | CallDeleted id => OnMessageDeleted id
  | CallProcess n r => processBatch n r
  | CallStartUp => start_up rebuild
  | CallResetStale t => let! _ := ResetStale t in Ret tt
  | CallStats => let! _ := Stats in Ret tt
  end.

(** Other services add messages, and delete them with what hangs on them. *)
Definition others (d d' : db) : Prop :=
  NoDup (Msg_ID <$> rows (messages d')) /\ exists p, embedding_queue d' = delete_rows p (embedding_queue d).

Lemma within_embedding_prog rebuild c : within eq rebuild -> within queue_step (embedding_prog rebuild c).
Proof.
  intros Hr. destruct c as [id body|id|n r| |t|]; cbn [embedding_prog].
  - unfold OnMessageCreated. destruct (str_empty _); [done|]. by apply within_bind; [apply within_Enqueue|].
  - apply within_bind; [apply within_embeddings|]. intros _. by apply within_bind; [apply within_frame, index_Delete_frame|].
  - apply within_processBatch.
  - by apply within_start_up.
  - by apply within_bind; [apply within_ResetStale|].
  - apply within_bind; [|done]. apply within_bind_ok; [apply within_query; apply _|]. intros newest.
    repeat (apply within_bind; [apply within_query; apply _|intros ?]). done.
Qed.

(** However the workers of the pipeline, the events of new and deleted
    messages, start-ups and resets interleave, with any statement or call of
    the provider failing, and messages coming and going: no message is queued
    twice, a completed item says when and a failed one why, an item keeps its
    message and place and its attempts never decrease, and the id of an item
    is not used again. *)
Theorem embedding_history (rebuild : prog db unit) (cs : list embedding_call) (d : db) ps (d' : db)
  (Hr : within eq rebuild) (Hinit : queue_ok d) (Hrun : rtc (pool_step others) (embedding_prog rebuild <$> cs, d) (ps, d')) :
  queue_ok d' /\ queue_after d d'.
Proof.
  destruct (pool_invariant queue_ok queue_after others
    ltac:(intros x y Hx [Hm [p E]]; exact (queue_step_shrink p x y E Hm Hx))
    (embedding_prog rebuild <$> cs) ps (fun _ _ _ => True) d d') with (2 := Hinit) (3 := Hrun) as (H1&H2&_); [|done].
  intros i p Hp. rewrite list_lookup_fmap in Hp. destruct (cs !! i) as [c|]; [|done]. injection Hp as <-.
  eapply (within_rg _ _ queue_step); [|by apply within_embedding_prog]. intros x y Hx Hxy. by apply Hxy.
Qed.

(** ** One batch *)

(** The items of these messages, completed. *)
Definition completed_for (ids : list Z) (now : Z) (t : table QueueItem) : table QueueItem :=
  update_rows (fun q => bool_decide (Q_MessageID q ∈ ids)) (complete_item now) t.

Lemma update_rows_twice p1 p2 f1 f2 (t : table QueueItem) :
  update_rows p2 f2 (update_rows p1 f1 t) =
  update_rows (fun _ => true) (fun q => let q1 := if p1 q then f1 q else q in if p2 q1 then f2 q1 else q1) t.
Proof. unfold update_rows, map_if. simpl. f_equal. by rewrite <- list_fmap_compose. Qed.

Lemma update_rows_agree (p : QueueItem -> bool) (f g : QueueItem -> QueueItem) (t : table QueueItem) :
  (forall q, q ∈ rows t -> (if p q then f q else q) = g q) -> update_rows p f t = update_rows (fun _ => true) g t.
Proof.
  intros H. unfold update_rows, map_if. f_equal. apply list_fmap_ext. intros i q Hi. apply H. by eapply list_elem_of_lookup_2.
Qed.

Lemma completed_for_nil now t : completed_for [] now t = t.
Proof.
  unfold completed_for. apply update_rows_none, count_if_0. intros q _. apply bool_decide_eq_false. apply not_elem_of_nil.
Qed.

Lemma completed_for_app a b now t : completed_for a now (completed_for b now t) = completed_for (a ++ b) now t.
Proof.
  unfold completed_for. rewrite update_rows_twice. symmetry. apply update_rows_agree. intros q _. cbv zeta.
  destruct (decide (Q_MessageID q ∈ b)) as [Hb|Hb].
  - rewrite (bool_decide_true (Q_MessageID q ∈ b)) by done. cbn [Q_MessageID complete_item].
    rewrite bool_decide_true by (apply elem_of_app; by right). by case_bool_decide.
  - rewrite (bool_decide_false (Q_MessageID q ∈ b)) by done. rewrite (bool_decide_ext _ (Q_MessageID q ∈ a)); [done|].
    rewrite elem_of_app. tauto.
Qed.

Lemma MarkCompleted_run id d :
  run_ok (MarkCompleted id) d = (Ok tt, set_embedding_queue (completed_for [id] (clock d) (embedding_queue d)) d).
Proof.
  unfold MarkCompleted. cbn. do 2 f_equal. unfold completed_for, update_rows, map_if. f_equal. apply list_fmap_ext. intros i q _.
  unfold q_message. destruct (Z.eqb_spec (Q_MessageID q) id) as [->|Hne].
  - rewrite bool_decide_true; [done|]. by left.
  - rewrite bool_decide_false; [done|]. by rewrite list_elem_of_singleton.
Qed.

(** What an item has to embed: the body of its message, unless blank. *)
Definition to_embed (d : db) (q : QueueItem) : option string :=
  match find_id (Q_MessageID q) (messages d) with
  | Some m => if str_empty (trim_space (Body m)) then None else Some (Body m)
  | None => None
  end.
Definition embeddable (d : db) (items : list QueueItem) : list (Z * string) :=
  omap (fun q => option_map (fun b => (Q_MessageID q, b)) (to_embed d q)) items.
Definition settled (d : db) (items : list QueueItem) : list Z :=
  omap (fun q => match to_embed d q with None => Some (Q_MessageID q) | Some _ => None end) items.

Definition record_all (ids : list Z) (r : EmbeddingRecord) (m : gmap Z EmbeddingRecord) : gmap Z EmbeddingRecord :=
  foldr (fun id m => <[id := r]> m) m ids.

Lemma record_all_lookup ids r m id : record_all ids r m !! id = if bool_decide (id ∈ ids) then Some r else m !! id.
Proof.
  induction ids as [|x ids IH]; [by rewrite bool_decide_false by apply not_elem_of_nil|]. cbn [record_all foldr].
  destruct (decide (id = x)) as [->|Hne].
  - rewrite lookup_insert_eq, bool_decide_true; [done|by left].
  - rewrite lookup_insert_ne by done. fold (record_all ids r m). rewrite IH. rewrite (bool_decide_ext (id ∈ x :: ids) (id ∈ ids)); [done|]. rewrite elem_of_cons. tauto.
Qed.

(** The database after items were completed and vectors recorded. *)
Definition after_batch (ids : list Z) (recorded : list Z) (d : db) : db :=
  set_embeddings (record_all recorded (mkEmbeddingRecord provider_Name provider_Name provider_Dimensions (clock d)) (embeddings d))
    (set_embedding_queue (completed_for ids (clock d) (embedding_queue d)) d).

Lemma after_batch_frame ids recorded d :
  messages (after_batch ids recorded d) = messages d /\ clock (after_batch ids recorded d) = clock d.
Proof. done. Qed.

Lemma after_batch_nil d : after_batch [] [] d = d.
Proof. unfold after_batch. rewrite completed_for_nil. by destruct d. Qed.

Lemma after_batch_after ids1 ids2 rec1 rec2 d :
  after_batch ids2 rec2 (after_batch ids1 rec1 d) = after_batch (ids2 ++ ids1) (rec2 ++ rec1) d.
Proof.
  unfold after_batch. cbn [embeddings embedding_queue clock set_embeddings set_embedding_queue].
  unfold record_all. by rewrite completed_for_app, foldr_app.
Qed.

Lemma to_embed_frame ids recorded d q : to_embed (after_batch ids recorded d) q = to_embed d q.
Proof. done. Qed.

Lemma MarkCompleted_after id d : run_ok (MarkCompleted id) d = (Ok tt, after_batch [id] [] d).
Proof. by rewrite MarkCompleted_run. Qed.

Lemma after_batch_ext a b r s d : (forall x, x ∈ a <-> x ∈ b) -> (forall x, x ∈ r <-> x ∈ s) -> after_batch a r d = after_batch b s d.
Proof.
  intros H H'. unfold after_batch. f_equal.
  - apply map_eq. intros id. rewrite !record_all_lookup. by rewrite (bool_decide_ext _ _ (H' id)).
  - unfold completed_for. f_equal. unfold update_rows, map_if. f_equal.
    apply list_fmap_ext. intros i q _. by rewrite (bool_decide_ext _ _ (H (Q_MessageID q))).
Qed.

Lemma snoc_in {A} (x y : A) l : y ∈ l ++ [x] <-> y ∈ x :: l.
Proof. rewrite elem_of_app, list_elem_of_singleton, elem_of_cons. tauto. Qed.

Lemma gather_run items d : run_ok (gather items) d = (embeddable d items, after_batch (settled d items) [] d).
Proof.
  revert d. induction items as [|q items IH]; intros d; [by rewrite after_batch_nil|].
  cbn [gather]. rewrite run_ok_bind. unfold GetMessageBody, query_o, exec_o. cbn [run_ok run].
  assert (embeddable d (q :: items) = match to_embed d q with Some b => (Q_MessageID q, b) :: embeddable d items | None => embeddable d items end) as ->
    by (unfold embeddable; cbn [omap list_omap]; by destruct (to_embed d q)).
  assert (settled d (q :: items) = match to_embed d q with None => Q_MessageID q :: settled d items | Some _ => settled d items end) as ->
    by (unfold settled; cbn [omap list_omap]; by destruct (to_embed d q)).
  unfold to_embed. destruct (find_id (Q_MessageID q) (messages d)) as [m|].
  - destruct (str_empty (trim_space (Body m))).
    + rewrite run_ok_bind, MarkCompleted_after, IH, after_batch_after, (after_batch_ext _ _ _ _ _ (fun x => snoc_in _ x _) (fun x => iff_refl _)). done.
    + rewrite run_ok_bind, IH. done.
  - rewrite run_ok_bind, MarkCompleted_after, IH, after_batch_after, (after_batch_ext _ _ _ _ _ (fun x => snoc_in _ x _) (fun x => iff_refl _)). done.
Qed.

(** A provider and an index that work: a vector for every text, always
    accepted. *)
Context (vec : string -> vector).
Definition provider_works : Prop := forall ts d, run_ok (EmbedBatch ts) d = (Ok ((fun t => Some (vec t)) <$> ts), d).
Definition index_works : Prop := forall id v d, run_ok (AddVector id v) d = (Ok tt, d).

Lemma store_results_run batch d : index_works ->
  (forall id, id ∈ batch.*1 -> on_record id d = true) ->
  run_ok (store_results batch ((fun t => Some (vec t)) <$> batch.*2)) d = (tt, after_batch batch.*1 batch.*1 d).
Proof.
  intros Hidx. revert d. induction batch as [|[id b] batch IH]; intros d Hrec; [by rewrite after_batch_nil|].
  assert (on_record id d = true) as Hid by (apply Hrec; by left).
  cbn [store_results fmap list_fmap fst snd tail]. rewrite run_ok_bind. unfold store_vector. rewrite run_ok_bind, Hidx, run_ok_bind.
  unfold SaveEmbedding, exec_o. cbn [run_ok run]. rewrite Hid, run_ok_bind.
  assert (forall r, set_embeddings (<[id := r]> (embeddings d)) d = set_embeddings (record_all [id] r (embeddings d)) (set_embedding_queue (completed_for [] (clock d) (embedding_queue d)) d)) as E
    by (intros r; rewrite completed_for_nil; by destruct d).
  rewrite E. fold (after_batch [] [id] d). rewrite MarkCompleted_after. cbn [run_ok run].
  rewrite after_batch_after. fold (fmap (M := list) (fun t => Some (vec t))).
  change (list_fmap string (option vector) (fun t => Some (vec t)) (list_fmap _ _ snd batch)) with ((fun t => Some (vec t)) <$> batch.*2).
  rewrite IH; [|intros x Hx; apply Hrec; by right]. rewrite after_batch_after.
  f_equal. apply after_batch_ext; intros x; apply snoc_in.
Qed.

(** The items a batch takes: the oldest pending ones. *)
Definition picked (n : Z) (d : db) (q : QueueItem) : bool := bool_decide (Q_ID q ∈ (Q_ID <$> dequeue_picks n d)).

Lemma picks_in n d q : q ∈ dequeue_picks n d -> q ∈ rows (embedding_queue d) /\ Q_Status q = QueuePending.
Proof. intros H%elem_of_page. apply elem_of_select_by in H as [Hp Hq]. unfold q_is in Hp. by guards. Qed.

Lemma picked_message n d q : queue_ok d -> q ∈ rows (embedding_queue d) ->
  picked n d q = bool_decide (Q_MessageID q ∈ (Q_MessageID <$> dequeue_picks n d)).
Proof.
  intros (Ht&Hn&_&_) Hq. apply bool_decide_ext. rewrite !list_elem_of_fmap. split; intros (x&E&Hx); exists x; (split; [|done]).
  - f_equal. apply (NoDup_fmap_unique Q_ID (rows (embedding_queue d))); [apply Ht|done|by apply picks_in in Hx as [? _]|done].
  - f_equal. apply (NoDup_fmap_unique Q_MessageID (rows (embedding_queue d))); [done|done|by apply picks_in in Hx as [? _]|done].
Qed.

Lemma completed_claimed n d : queue_ok d ->
  completed_for (Q_MessageID <$> dequeue_picks n d) (clock d) (update_rows (picked n d) claim_item (embedding_queue d)) =
  update_rows (picked n d) (fun q => complete_item (clock d) (claim_item q)) (embedding_queue d).
Proof.
  intros Hok. unfold completed_for. rewrite update_rows_twice. symmetry. apply update_rows_agree. intros q Hq. cbv zeta.
  pose proof (picked_message n d q Hok Hq) as E. destruct (picked n d q) eqn:Ep; cbn [Q_MessageID claim_item]; by rewrite <- E.
Qed.

Lemma batch_split d items x : x ∈ (embeddable d items).*1 ++ settled d items <-> x ∈ Q_MessageID <$> items.
Proof.
  rewrite elem_of_app, !list_elem_of_fmap. unfold embeddable, settled. setoid_rewrite list_elem_of_omap. split.
  - intros [([id b]&->&q&Hq&E)|(q&Hq&E)]; exists q; destruct (to_embed d q); simplify_eq/=; done.
  - intros (q&->&Hq). destruct (to_embed d q) as [b|] eqn:E; [left|right].
    + exists (Q_MessageID q, b). split; [done|]. exists q. by rewrite E.
    + exists q. by rewrite E.
Qed.

Lemma embeddable_on_record d items id : id ∈ (embeddable d items).*1 -> on_record id d = true.
Proof.
  rewrite list_elem_of_fmap. unfold embeddable. setoid_rewrite list_elem_of_omap. intros ([i b]&->&q&Hq&E).
  unfold to_embed in E. destruct (find_id _ _) as [m|] eqn:Ef; [|done]. simpl. apply bool_decide_eq_true. exists m.
  destruct (str_empty _); simplify_eq/=. done.
Qed.

Lemma Dequeue_run n d :
  run_ok (Dequeue n) d = (Ok (dequeue_picks n d), set_embedding_queue (update_rows (picked n d) claim_item (embedding_queue d)) d).
Proof. done. Qed.

Lemma processBatch_run n r d : provider_works -> index_works ->
  let items := dequeue_picks (default_limit 10 n) d in
  let d1 := set_embedding_queue (update_rows (picked (default_limit 10 n) d) claim_item (embedding_queue d)) d in
  run_ok (processBatch n r) d = (tt, after_batch (Q_MessageID <$> items) (embeddable d items).*1 d1).
Proof.
  intros Hp Hi items d1. unfold processBatch. rewrite run_ok_bind, Dequeue_run. fold items. fold d1. cbv beta iota.
  rewrite run_ok_bind, gather_run. cbv beta iota.
  change (embeddable d1 items) with (embeddable d items). change (settled d1 items) with (settled d items).
  case_bool_decide as Eb.
  - cbn [run_ok run]. f_equal. apply after_batch_ext; intros x; [|by rewrite Eb]. by rewrite <- (batch_split d items x), Eb.
  - rewrite run_ok_bind, Hp. cbv beta iota. rewrite store_results_run, after_batch_after; [|done|intros id Hid; exact (embeddable_on_record d items id Hid)].
    f_equal. apply after_batch_ext; intros x; [apply batch_split|]. by rewrite app_nil_r.
Qed.

(** Undisturbed, with a provider and an index that work, one round of a
    worker takes the oldest pending items up to the batch size, counts the
    attempt and completes each of them, and records an embedding of the
    provider exactly for those whose message is on record and not blank;
    nothing else changes. *)
Theorem process_batch_exact (n r : Z) (d : db) (Hok : queue_ok d) (Hp : provider_works) (Hi : index_works) :
  let size := default_limit 10 n in
  let d' := (run_ok (processBatch n r) d).2 in
  embedding_queue d' = update_rows (picked size d) (fun q => complete_item (clock d) (claim_item q)) (embedding_queue d) /\
  (forall id, embeddings d' !! id =
     if bool_decide (id ∈ (embeddable d (dequeue_picks size d)).*1)
     then Some (mkEmbeddingRecord provider_Name provider_Name provider_Dimensions (clock d)) else embeddings d !! id) /\
  d' = set_embeddings (embeddings d') (set_embedding_queue (embedding_queue d') d).
Proof.
  cbv zeta. rewrite (processBatch_run n r d Hp Hi). cbn [snd]. split_and!.
  - unfold after_batch. cbn [embedding_queue set_embeddings set_embedding_queue clock]. by apply completed_claimed.
  - intros id. unfold after_batch. cbn [embeddings set_embeddings set_embedding_queue clock]. by rewrite record_all_lookup.
  - done.
Qed.
End Spec.

Module EmbeddingRuns.
#[local] Existing Instance rowid_engine.
#[local] Instance no_text : ErrorText := {| error_text := fun _ => "database is locked" |}.
#[local] Instance echo : EmbeddingProvider.
Proof.
  by refine {| vector := string; Embed := fun t => Ret (Ok t); EmbedBatch := fun ts => Ret (Ok (Some <$> ts));
               provider_Name := "echo"; provider_Dimensions := 8 |}.
Defined.
#[local] Instance lists : VectorIndex.
Proof.
  by refine {| AddVector := fun _ _ => Ret (Ok tt); index_Search := fun _ _ => Ret (Ok []);
               index_Delete := fun _ => Ret true; index_Len := Ret 0 |}.
Defined.

Definition a_message (id : Z) (body : string) : Message := mkMessage id 1 "alice" (Some "bob") None None body 5 StatusPending raw_empty_object None None 0 0.
Definition waiting (id : Z) (st : QueueStatus) : QueueItem := mkQueueItem id id st 0 None 0 None.
Definition two_messages (st : QueueStatus) : db :=
  set_clock 10 (set_embedding_queue (mkTable [waiting 1 st; waiting 2 st] 3)
    (set_messages (mkTable [a_message 1 "hello"; a_message 2 "  "] 3) empty_db)).

Lemma two_ok : queue_ok (two_messages QueuePending).
Proof.
  assert (forall q, q ∈ rows (embedding_queue (two_messages QueuePending)) -> q = waiting 1 QueuePending \/ q = waiting 2 QueuePending) as Hq.
  { intros q [?|[?|[]%elem_of_nil]%elem_of_cons]%elem_of_cons; auto. }
  split_and!.
  - split; [by apply (bool_decide_unpack (NoDup [1; 2])); vm_compute|]. by intros q [-> | ->]%Hq.
  - by apply (bool_decide_unpack (NoDup [1; 2])); vm_compute.
  - intros q [-> | ->]%Hq; by repeat split.
  - by apply (bool_decide_unpack (NoDup [1; 2])); vm_compute.
Qed.

Lemma process_batch_exact_witness :
  queue_ok (two_messages QueuePending) /\
  let d' := (run_ok (processBatch 0 3) (two_messages QueuePending)).2 in
  embedding_queue d' = update_rows (picked 10 (two_messages QueuePending)) (fun q => complete_item 10 (claim_item q)) (embedding_queue (two_messages QueuePending)) /\
  embeddings d' !! 1 = Some (mkEmbeddingRecord "echo" "echo" 8 10) /\ embeddings d' !! 2 = None.
Proof.
  split; [exact two_ok|].
  destruct (process_batch_exact (HProv := echo) (HIdx := lists) (fun t => t) 0 3 (two_messages QueuePending) two_ok (fun ts d => eq_refl) (fun id v d => eq_refl)) as (H1&H2&_).
  cbv zeta. split; [exact H1|]. split; [exact (H2 1)|exact (H2 2)].
Defined.

Lemma embedding_history_witness :
  let cs := [CallProcess 1 3; CallProcess 1 3; CallCreated 1 "hello"] in
  let r := run_schedule [(0%nat, false); (1%nat, false); (1%nat, true); (2%nat, false)] (embedding_prog (Ret tt) <$> cs) (two_messages QueuePending) in
  queue_ok r.2 /\ queue_after (two_messages QueuePending) r.2.
Proof.
  intros cs r. apply (embedding_history (Ret tt) cs (two_messages QueuePending) r.1 r.2 I two_ok).
  rewrite <- surjective_pairing. apply run_schedule_reachable.
Defined.

(** A worker stopped between taking its items and completing them leaves them
    in processing: at the next start they are in the queue already, no worker
    takes them, and nothing calls [ResetStale]. *)
Theorem stopped_items_wait :
  let d' := (run_ok (processBatch 0 3) (run_ok (start_up (Ret tt)) (two_messages QueueProcessing)).2).2 in
  d' = two_messages QueueProcessing.
Proof. by vm_compute. Qed.

(** One failed read of the body, and the message counts as embedded: it is
    completed without an embedding, and a later start does not queue it
    again. *)
Theorem failed_read_completes :
  let d' := (run_ok (start_up (Ret tt)) (run (processBatch 1 3) [false; true] (two_messages QueuePending)).2).2 in
  embeddings d' !! 1 = None /\ Q_Status <$> find_id 1 (embedding_queue d') = Some QueueCompleted.
Proof. by vm_compute. Qed.

(** Rounds of one item each take the items in turn. *)
Example two_rounds :
  let d1 := (run_ok (processBatch 1 3) (two_messages QueuePending)).2 in
  Q_Status <$> rows (embedding_queue d1) = [QueueCompleted; QueuePending] /\
  Q_Status <$> rows (embedding_queue (run_ok (processBatch 1 3) d1).2) = [QueueCompleted; QueueCompleted].
Proof. by vm_compute. Qed.
End EmbeddingRuns.
