(* ===== verification/Search.v ===== *)
(** * Unified search (internal/search/service.go)

    Semantic, full-text and hybrid search.  The provider and the index of
    vectors are those of [Embeddings]; [provider != nil && index != nil] is the
    argument [HasSemanticSearch].  Scores are [float64], distances [float32]. *)
From S2P Require Import Prelude Float64 Prog Table Schema Messaging MessagingQueries Retention Embeddings.

(** The order in which Go ranges over a map: any. *)
Class GoMapOrder := {
  range_order : forall {A : Type}, list A -> list A;
  range_perm : forall {A : Type} (l : list A), Permutation (range_order l) l
}.

(** ** Floating point *)
Definition f64_sub (x y : spec_float) : spec_float := SFsub 53 1024 x y.
Definition f32_sub (x y : spec_float) : spec_float := SFsub 24 128 x y.
Definition f32_one : spec_float := Eval vm_compute in binary_normalize 24 128 1 0 false.
(** [float64(x)] of a [float32]: exact. *)
Definition f64_of_f32 (x : spec_float) : spec_float :=
  match x with
  | S754_finite s m e => binary_normalize 53 1024 (if s then Zneg m else Zpos m) e s
  | _ => x
  end.

(** ** Options and results *)
Definition ModeAuto : string := "auto".
Definition ModeSemantic : string := "semantic".
Definition ModeFulltext : string := "fulltext".
Definition DefaultMinSimilarity : spec_float := Eval vm_compute in f64_lit 1 4.
Definition rrfK : Z := 60.

Record UnifiedOptions := mkUnifiedOptions {
  us_Query : string;
  us_Mode : string;
  us_Limit : Z;
  us_ChannelID : option Z;
  us_FromAgent : string;
  us_MinPriority : Z;
  us_After : option Z;
  us_Before : option Z;
  us_MinSimilarity : spec_float
}.

Record SearchResult := mkSearchResult {
  sres_Message : Message;
  SimilarityScore : spec_float;
  RelevanceScore : spec_float;
  MatchType : string
}.

Record SearchResponse := mkSearchResponse {
  Results : list SearchResult;
  SearchMode : string;
  TotalResults : Z;
  Warning : string
}.

(** ** Ranking *)
Definition rrf_score (rank : nat) : spec_float := f64_div f64_one (f64_add (f64_of_Z rrfK) (f64_of_Z (Z.of_nat rank + 1))).

Record scored := mkScored { result : SearchResult; score : spec_float }.
Definition result_id (r : SearchResult) : Z := Msg_ID (sres_Message r).
Definition mark_hybrid (r : SearchResult) : SearchResult :=
  mkSearchResult (sres_Message r) (SimilarityScore r) (RelevanceScore r) "hybrid".

(** One ranking into the map; the second one marks what it finds there. *)
Fixpoint add_ranking (second : bool) (rank : nat) (l : list SearchResult) (byID : gmap Z scored) : gmap Z scored :=
  match l with
  | [] => byID
  | r :: rest =>
      let s := rrf_score rank in
      add_ranking second (S rank) rest
        (match byID !! result_id r with
         | Some e => <[result_id r := mkScored (if second then mark_hybrid (result e) else result e) (f64_add (score e) s)]> byID
         | None => <[result_id r := mkScored r s]> byID
         end)
  end.

(** The insertion sort: the part sorted so far is kept last element first, and
    the new element moves towards the front while its score is larger. *)
Fixpoint sift (x : scored) (sorted_rev : list scored) : list scored :=
  match sorted_rev with
  | y :: rest => if f64_lt (score y) (score x) then y :: sift x rest else x :: y :: rest
  | [] => [x]
  end.
Definition insertion_sort (l : list scored) : list scored := reverse (foldl (fun acc x => sift x acc) [] l).

(** [xs[:limit]] when there are more. *)
Definition truncate_to {A} (limit : Z) (l : list A) : list A :=
  if limit <? Z.of_nat (length l) then take (Z.to_nat limit) l else l.

Definition search_limit (limit : Z) : Z := let l := default_limit 10 limit in if 100 <? l then 100 else l.

(** A message as the service reads it: without the message it replies to. *)
Definition without_reply (m : Message) : Message :=
  mkMessage (Msg_ID m) (Msg_ConversationID m) (FromAgent m) (to_agent m) (Msg_ChannelID m) None (Body m) (Priority m)
    (Status m) (Metadata m) (claimed_by m) (ClaimedAt m) (Msg_CreatedAt m) (Msg_UpdatedAt m).
Definition getMessageByID (id : Z) : M Message :=
  query_o ErrNoRows (fun d => match find_id id (messages d) with Some m => Ok (without_reply m) | None => Err ErrNoRows end).

Definition ToAgent (m : Message) : string := default EmptyString (to_agent m).

Definition canAgentAccessMessage (agentName : string) (msg : Message) : prog db bool :=
  if negb (str_empty (ToAgent msg))
  then Ret (String.eqb (FromAgent msg) agentName || String.eqb (ToAgent msg) agentName)
  else match Msg_ChannelID msg with
       | Some c =>
           let! count := (query EDb (fun d => count_if (fun x => (Mem_ChannelID x =? c) && String.eqb (Mem_AgentName x) agentName)
                                                       (rows (channel_members d))) : M Z) in
           Ret (match count with Ok n => 0 <? n | _ => false end)
       | None => Ret (String.eqb (FromAgent msg) agentName)
       end.

Definition matchesFilters (msg : Message) (opts : UnifiedOptions) : bool :=
  negb (match us_ChannelID opts with Some c => negb (bool_decide (Msg_ChannelID msg = Some c)) | None => false end) &&
  negb (negb (str_empty (us_FromAgent opts)) && negb (String.eqb (FromAgent msg) (us_FromAgent opts))) &&
  negb ((0 <? us_MinPriority opts) && (Priority msg <? us_MinPriority opts)) &&
  negb (match us_After opts with Some t => Msg_CreatedAt msg <? t | None => false end) &&
  negb (match us_Before opts with Some t => t <? Msg_CreatedAt msg | None => false end).

Definition similarity_of (distance : spec_float) : spec_float :=
  let s := f64_of_f32 (f32_sub f32_one distance) in if f64_lt s f64_zero then f64_zero else s.
Definition min_similarity (opts : UnifiedOptions) : spec_float :=
  if f64_le (us_MinSimilarity opts) f64_zero then DefaultMinSimilarity else us_MinSimilarity opts.

(** The loop over the nearest vectors: [found] is the number collected. *)
Fixpoint collect_semantic (agentName : string) (opts : UnifiedOptions) (limit : Z) (found : list SearchResult)
    (nearest : list (Z * spec_float)) : prog db (list SearchResult) :=
  match nearest with
  | [] => Ret found
  | (id, distance) :: rest =>
      let! got := getMessageByID id in
      match got with
      | Ok msg =>
          let! access := canAgentAccessMessage agentName msg in
          if negb access then collect_semantic agentName opts limit found rest
          else if negb (matchesFilters msg opts) then collect_semantic agentName opts limit found rest
          else if f64_lt (similarity_of distance) (min_similarity opts) then collect_semantic agentName opts limit found rest
          else let found' := found ++ [mkSearchResult msg (similarity_of distance) f64_zero ModeSemantic] in
               if limit <=? Z.of_nat (length found') then Ret found'
               else collect_semantic agentName opts limit found' rest
      | _ => collect_semantic agentName opts limit found rest
      end
  end.

Definition relevance (i : nat) : spec_float := f64_sub f64_one (f64_mul (f64_of_Z (Z.of_nat i)) (f64_lit 1 20)).
Definition fulltext_options (opts : UnifiedOptions) (limit : Z) : SearchOptions :=
  mkSearchOptions (us_FromAgent opts) EmptyString (us_ChannelID opts) (us_MinPriority opts) None limit 0 None None EmptyString [] [] [] [].

Definition with_warning (w : string) (r : SearchResponse) : SearchResponse := mkSearchResponse (Results r) (SearchMode r) (TotalResults r) w.
Definition with_mode (m : string) (r : SearchResponse) : SearchResponse := mkSearchResponse (Results r) m (TotalResults r) (Warning r).

Section Search.
Context {HEng : Engine} {HFTS : FTS} {HProv : EmbeddingProvider} {HIdx : VectorIndex} {HErr : ErrorText} {HMap : GoMapOrder}.

Definition mergeRRF (semantic fulltext : list SearchResult) (limit : Z) : list SearchResult :=
  let byID := add_ranking true 0 fulltext (add_ranking false 0 semantic ∅) in
  result <$> truncate_to limit (insertion_sort (range_order (map_to_list byID).*2)).

Definition fulltextSearch (agentName : string) (opts : UnifiedOptions) (limit : Z) : M SearchResponse :=
  let? paginated := SearchMessages agentName (us_Query opts) (fulltext_options opts limit) in
  let results := imap (fun i msg => mkSearchResult msg f64_zero (relevance i) ModeFulltext) (pm_Messages paginated) in
  Ret (Ok (mkSearchResponse results ModeFulltext (Z.of_nat (length results)) EmptyString)).

Definition semanticSearch (agentName : string) (opts : UnifiedOptions) (limit : Z) : M SearchResponse :=
  if str_empty (us_Query opts) then fulltextSearch agentName opts limit
  else
    let? queryVec := Embed (us_Query opts) in
    let overfetch := if limit * 5 <? 50 then 50 else limit * 5 in
    let? results := index_Search queryVec overfetch in
    if bool_decide (results = [])
    then let? resp := fulltextSearch agentName opts limit in
         Ret (Ok (with_warning "no vectors in index, using fulltext" resp))
    else let! searchResults := collect_semantic agentName opts limit [] results in
         Ret (Ok (mkSearchResponse searchResults ModeSemantic (Z.of_nat (length searchResults)) EmptyString)).

(** Which answer, when both searches are done. *)
Definition combine (sem ft : outcome error SearchResponse) (limit : Z) : outcome error SearchResponse :=
  match sem, ft with
  | Panic w, _ => Panic w
  | _, Panic w => Panic w
  | Err e, Err _ => Err e
  | Err _, Ok f => Ok (with_mode ModeFulltext f)
  | Ok s, Err _ => if bool_decide (Results s = []) then Ok (mkSearchResponse [] ModeAuto 0 EmptyString) else Ok (with_mode ModeAuto s)
  | Ok s, Ok f =>
      if bool_decide (Results s = []) then Ok (with_mode ModeFulltext f)
      else if bool_decide (Results f = []) then Ok (with_mode ModeAuto s)
      else let merged := mergeRRF (Results s) (Results f) limit in
           Ok (mkSearchResponse merged ModeAuto (Z.of_nat (length merged)) EmptyString)
  end.

Definition hybridSearch (agentName : string) (opts : UnifiedOptions) (limit : Z) : M SearchResponse :=
  let! sem := semanticSearch agentName opts limit in
  let! ft := fulltextSearch agentName opts limit in
  Ret (combine sem ft limit).

Definition Search (HasSemanticSearch : bool) (agentName : string) (opts : UnifiedOptions) : M SearchResponse :=
  let limit := search_limit (us_Limit opts) in
  let mode := if str_empty (us_Mode opts) then ModeAuto else us_Mode opts in
  if String.eqb mode ModeAuto then
    if HasSemanticSearch then
      let! len := index_Len in
      if (0 <? len) && negb (str_empty (us_Query opts)) then hybridSearch agentName opts limit
      else fulltextSearch agentName opts limit
    else fulltextSearch agentName opts limit
  else if String.eqb mode ModeSemantic then
    if negb HasSemanticSearch then Ret (Err ENoEmbeddingProvider)
    else
      let! sem := semanticSearch agentName opts limit in
      match sem with
      | Err err =>
          let? resp := fulltextSearch agentName opts limit in
          Ret (Ok (with_warning ("semantic search failed: " +:+ error_text err +:+ ", using fulltext fallback") resp))
      | o => Ret o
      end
  else if String.eqb mode ModeFulltext then fulltextSearch agentName opts limit
  else Ret (Err (EUnknownSearchMode mode)).

Definition IndexSize (has_index : bool) : prog db Z := if has_index then index_Len else Ret 0.
Definition ProviderName (has_provider : bool) : string := if has_provider then provider_Name else EmptyString.

Definition SearchMessagesCompat (HasSemanticSearch : bool) (agentName query : string) (opts : SearchOptions) : M (list Message * string) :=
  let? resp := Search HasSemanticSearch agentName
    (mkUnifiedOptions query ModeAuto (sr_Limit opts) (sr_ChannelID opts) (sr_FromAgent opts) (sr_MinPriority opts) None None f64_zero) in
  Ret (Ok (sres_Message <$> Results resp, if str_empty (trim_space query) then ModeFulltext else SearchMode resp)).
End Search.
