(* ===== verification/SearchSpec.v ===== *)
(** * Unified search: what a caller may find, and in which order

    [search_visible]: whatever mode and whatever fails, only messages the
    caller may see and asked for, within the limit, and nothing changes.
    [rrf_exact]: the merged ranking is the union of both rankings by the sum
    of their reciprocal ranks. *)
From S2P Require Import Prelude Float64 Prog Table Schema Messaging MessagingFacts MessagingSpec MessagingQueries MessagingQueriesSpec Retention Embeddings Search.

(** ** Floating-point order *)
Lemma f64_le_trans x y z : f64_le x y = true -> f64_le y z = true -> f64_le x z = true.
Proof.
  unfold f64_le, SFleb. destruct x as [sx|sx| |sx mx ex], y as [sy|sy| |sy my ey], z as [sz|sz| |sz mz ez]; simpl;
    try done; try (destruct sx; done); try (destruct sy; done); try (destruct sz; done);
    try (destruct sx, sy; done); try (destruct sy, sz; done); try (destruct sx, sz; done); try (destruct sx, sy, sz; done).
  change (Pos.compare_cont Eq) with Pos.compare.
  destruct sx, sy, sz; try done; destruct (Z.compare_spec ex ey), (Z.compare_spec ey ez), (Z.compare_spec ex ez); try lia; try done;
    destruct (Pos.compare_spec mx my), (Pos.compare_spec my mz), (Pos.compare_spec mx mz); try lia; done.
Qed.

(** ** The insertion sort *)
Definition ranked_desc (x y : scored) : Prop := f64_le (score y) (score x) = true.
#[export] Instance ranked_desc_trans : Transitive ranked_desc.
Proof. intros x y z H1 H2. unfold ranked_desc in *. by eapply f64_le_trans. Qed.

Definition a_number (x : scored) : Prop := f64_is_nan (score x) = false.

Lemma sift_perm x l : Permutation (sift x l) (x :: l).
Proof.
  induction l as [|y l IH]; [done|]. cbn [sift]. destruct (f64_lt _ _); [|done]. rewrite IH. constructor.
Qed.

Lemma sift_sorted x l : a_number x -> Forall a_number l -> StronglySorted (flip ranked_desc) l ->
  StronglySorted (flip ranked_desc) (sift x l).
Proof.
  intros Hx Hl Hs. induction Hs as [|y l Hs IH Hy]; cbn [sift]; [by repeat constructor|]. apply Forall_cons in Hl as [Hny Hl].
  destruct (f64_lt (score y) (score x)) eqn:E.
  - constructor; [by apply IH|]. rewrite sift_perm. constructor; [by apply f64_lt_le|done].
  - assert (flip ranked_desc x y) as Hxy by (by apply f64_not_lt_le). constructor; [by constructor|].
    constructor; [done|]. eapply Forall_impl; [exact Hy|]. intros z Hyz. unfold flip in *. by etrans.
Qed.

Lemma insertion_foldl l acc : Forall a_number l -> Forall a_number acc -> StronglySorted (flip ranked_desc) acc ->
  let r := foldl (fun acc x => sift x acc) acc l in Permutation r (l ++ acc) /\ StronglySorted (flip ranked_desc) r.
Proof.
  revert acc. induction l as [|x l IH]; intros acc Hl Ha Hs; cbn [foldl]; [done|]. apply Forall_cons in Hl as [Hx Hl].
  destruct (IH (sift x acc)) as [H1 H2]; [done| |by apply sift_sorted|].
  - rewrite sift_perm. by constructor.
  - split; [|done]. rewrite H1, sift_perm. symmetry. apply Permutation_middle.
Qed.

Lemma StronglySorted_reverse {A} (R : relation A) l : StronglySorted R l -> StronglySorted (flip R) (reverse l).
Proof.
  induction 1 as [|x l Hs IH Hx]; [constructor|]. rewrite reverse_cons. apply StronglySorted_app_2; [|done|by repeat constructor].
  intros y z Hy Hz. rewrite elem_of_reverse in Hy. apply list_elem_of_singleton in Hz. subst z. rewrite Forall_forall in Hx. exact (Hx y Hy).
Qed.

Lemma insertion_sort_spec l : Forall a_number l ->
  Permutation (insertion_sort l) l /\ StronglySorted ranked_desc (insertion_sort l).
Proof.
  intros Hl. destruct (insertion_foldl l []) as [H1 H2]; [done|constructor|constructor|]. split.
  - unfold insertion_sort. by rewrite reverse_Permutation, H1, app_nil_r.
  - exact (StronglySorted_reverse _ _ H2).
Qed.

(** ** The fusion of two rankings *)

(** A result of a ranking and its place. *)
Fixpoint placed (rank : nat) (l : list SearchResult) (id : Z) : option (SearchResult * nat) :=
  match l with
  | [] => None
  | r :: rest => if bool_decide (result_id r = id) then Some (r, rank) else placed (S rank) rest id
  end.

Lemma placed_None rank l id : placed rank l id = None <-> id ∉ result_id <$> l.
Proof.
  revert rank. induction l as [|r l IH]; intros rank; cbn [placed]; [split; [intros _; apply not_elem_of_nil|done]|].
  rewrite fmap_cons, not_elem_of_cons. case_bool_decide; [naive_solver|]. rewrite IH. naive_solver.
Qed.

Lemma placed_Some rank l id r i : placed rank l id = Some (r, i) ->
  r ∈ l /\ result_id r = id /\ (rank <= i < rank + length l)%nat.
Proof.
  revert rank. induction l as [|r' l IH]; intros rank; cbn [placed]; [done|]. case_bool_decide.
  - intros [= -> ->]. split; [by left|]. split; [done|]. simpl. lia.
  - intros (H1&H2&H3)%IH. split; [by right|]. split; [done|]. simpl. lia.
Qed.

Definition fused (second : bool) (p : option (SearchResult * nat)) (o : option scored) : option scored :=
  match p, o with
  | Some (_, i), Some e => Some (mkScored (if second then mark_hybrid (result e) else result e) (f64_add (score e) (rrf_score i)))
  | Some (r, i), None => Some (mkScored r (rrf_score i))
  | None, o => o
  end.

Lemma add_ranking_lookup second rank l byID id : NoDup (result_id <$> l) ->
  add_ranking second rank l byID !! id = fused second (placed rank l id) (byID !! id).
Proof.
  revert rank byID. induction l as [|r l IH]; intros rank byID Hn; [cbn; by destruct (byID !! id)|].
  cbn [add_ranking placed]. cbv zeta. rewrite fmap_cons in Hn. apply NoDup_cons in Hn as [Hr Hn]. rewrite IH by done.
  case_bool_decide as E.
  - subst id. apply (placed_None (S rank)) in Hr. rewrite Hr. cbn [fused].
    destruct (byID !! result_id r) as [e|]; by rewrite lookup_insert_eq.
  - f_equal. destruct (byID !! result_id r) as [e|]; by rewrite lookup_insert_ne.
Qed.

(** The score of a message: the sum of its reciprocal ranks. *)
Definition rrf_of (sem ft : list SearchResult) (id : Z) : spec_float :=
  match placed 0 sem id, placed 0 ft id with
  | Some (_, i), Some (_, j) => f64_add (rrf_score i) (rrf_score j)
  | Some (_, i), None => rrf_score i
  | None, Some (_, j) => rrf_score j
  | None, None => f64_zero
  end.

Definition merged_map (sem ft : list SearchResult) : gmap Z scored := add_ranking true 0 ft (add_ranking false 0 sem ∅).

Lemma merged_lookup sem ft id : NoDup (result_id <$> sem) -> NoDup (result_id <$> ft) ->
  merged_map sem ft !! id = fused true (placed 0 ft id) (fused false (placed 0 sem id) None).
Proof. intros H1 H2. unfold merged_map. by rewrite !add_ranking_lookup, lookup_empty. Qed.

Lemma merged_entry sem ft id e : NoDup (result_id <$> sem) -> NoDup (result_id <$> ft) ->
  merged_map sem ft !! id = Some e ->
  result_id (result e) = id /\ score e = rrf_of sem ft id /\ (id ∈ result_id <$> sem \/ id ∈ result_id <$> ft) /\
  exists r, (r ∈ sem \/ r ∈ ft) /\ sres_Message (result e) = sres_Message r.
Proof.
  intros H1 H2. rewrite merged_lookup by done. unfold rrf_of, fused.
  destruct (placed 0 sem id) as [[r i]|] eqn:Es, (placed 0 ft id) as [[r' j]|] eqn:Ef; intros [= <-]; cbn [result score].
  - apply placed_Some in Es as (Hr&<-&_). split_and!; [done|done|left; by apply list_elem_of_fmap_2|]. exists r. by split; [left|].
  - apply placed_Some in Es as (Hr&<-&_). split_and!; [done|done|left; by apply list_elem_of_fmap_2|]. exists r. by split; [left|].
  - apply placed_Some in Ef as (Hr&<-&_). split_and!; [done|done|right; by apply list_elem_of_fmap_2|]. exists r'. by split; [right|].
Qed.

Lemma merged_is_Some sem ft id : NoDup (result_id <$> sem) -> NoDup (result_id <$> ft) ->
  id ∈ result_id <$> sem \/ id ∈ result_id <$> ft -> is_Some (merged_map sem ft !! id).
Proof.
  intros H1 H2 H. rewrite merged_lookup by done. unfold fused.
  destruct (placed 0 sem id) as [[r i]|] eqn:Es, (placed 0 ft id) as [[r' j]|] eqn:Ef; try by eexists.
  apply placed_None in Es, Ef. tauto.
Qed.

(** Ranks below a hundred have scores that are numbers, alone and summed. *)
Definition ranks : list nat := seq 0 100.
Lemma rrf_numbers i j : (i < 100)%nat -> (j < 100)%nat ->
  f64_is_nan (rrf_score i) = false /\ f64_is_nan (f64_add (rrf_score i) (rrf_score j)) = false.
Proof.
  intros Hi Hj.
  assert (forallb (fun i => negb (f64_is_nan (rrf_score i)) && forallb (fun j => negb (f64_is_nan (f64_add (rrf_score i) (rrf_score j)))) ranks) ranks = true) as H
    by by vm_compute.
  rewrite forallb_forall in H. specialize (H i ltac:(apply in_seq; lia)). apply andb_true_iff in H as [Ha Hb].
  rewrite forallb_forall in Hb. specialize (Hb j ltac:(apply in_seq; lia)). by guards.
Qed.

Lemma rrf_of_number sem ft id : (length sem <= 100)%nat -> (length ft <= 100)%nat -> f64_is_nan (rrf_of sem ft id) = false.
Proof.
  intros H1 H2. unfold rrf_of.
  destruct (placed 0 sem id) as [[r i]|] eqn:Es, (placed 0 ft id) as [[r' j]|] eqn:Ef;
    repeat match goal with H : placed _ _ _ = Some _ |- _ => apply placed_Some in H as (_&_&?) end; try done;
    try (apply (rrf_numbers i j); lia); try (apply (rrf_numbers i 0); lia). apply (rrf_numbers j 0); lia.
Qed.

Section Spec.
Context {HMap : GoMapOrder}.

Definition merged_entries (sem ft : list SearchResult) : list scored := range_order (map_to_list (merged_map sem ft)).*2.

Lemma elem_of_merged sem ft e : e ∈ merged_entries sem ft <-> exists id, merged_map sem ft !! id = Some e.
Proof.
  unfold merged_entries. rewrite range_perm, list_elem_of_fmap. split.
  - intros ([id x]&->&H). exists id. by apply elem_of_map_to_list.
  - intros [id H]. exists (id, e). split; [done|]. by apply elem_of_map_to_list.
Qed.

Lemma merged_ids sem ft : NoDup (result_id <$> sem) -> NoDup (result_id <$> ft) ->
  NoDup ((fun e => result_id (result e)) <$> merged_entries sem ft).
Proof.
  intros H1 H2. unfold merged_entries. rewrite range_perm, <- list_fmap_compose.
  rewrite (list_fmap_ext _ fst).
  - apply NoDup_fst_map_to_list.
  - intros i [id e] Hi. apply list_elem_of_lookup_2, elem_of_map_to_list in Hi. by apply merged_entry in Hi as [? _].
Qed.

(** C24. Reciprocal rank fusion of two rankings of at most a hundred messages
    without repetition, in whatever order Go ranges over its map: the merged
    results are the first ones of a list that has every message of either
    ranking exactly once, ordered by decreasing score, where the score of a
    message is 1/(60 + rank), summed over the rankings it is in; each result
    shows the message as one of the searches found it. *)
Theorem rrf_exact (sem ft : list SearchResult) (limit : Z)
  (Hs : NoDup (result_id <$> sem)) (Hf : NoDup (result_id <$> ft)) (Ls : (length sem <= 100)%nat) (Lf : (length ft <= 100)%nat) :
  exists ranked : list scored,
    mergeRRF sem ft limit = truncate_to limit (result <$> ranked) /\
    NoDup ((fun e => result_id (result e)) <$> ranked) /\
    (forall id, id ∈ (fun e => result_id (result e)) <$> ranked <-> id ∈ result_id <$> sem \/ id ∈ result_id <$> ft) /\
    (forall e, e ∈ ranked -> score e = rrf_of sem ft (result_id (result e)) /\
       exists r, (r ∈ sem \/ r ∈ ft) /\ sres_Message (result e) = sres_Message r) /\
    StronglySorted ranked_desc ranked.
Proof.
  assert (Forall a_number (merged_entries sem ft)) as Hnum.
  { apply Forall_forall. intros e [id He]%elem_of_merged. apply merged_entry in He as (_&E&_); [|done..].
    unfold a_number. rewrite E. by apply rrf_of_number. }
  destruct (insertion_sort_spec _ Hnum) as [Hp Hsorted]. exists (insertion_sort (merged_entries sem ft)). split_and!; [| | | |done].
  - unfold mergeRRF, truncate_to. fold (merged_map sem ft). fold (merged_entries sem ft). rewrite length_fmap.
    destruct (_ <? _); [|done]. by rewrite fmap_take.
  - rewrite Hp. by apply merged_ids.
  - intros id. rewrite Hp, list_elem_of_fmap. split.
    + intros (e&->&[k He]%elem_of_merged). by destruct (merged_entry _ _ _ _ Hs Hf He) as (->&_&?&_).
    + intros H. destruct (merged_is_Some _ _ _ Hs Hf H) as [e He]. exists e. split; [by destruct (merged_entry _ _ _ _ Hs Hf He)|].
      apply elem_of_merged. by exists id.
  - intros e. rewrite Hp, elem_of_merged. intros [id He]. destruct (merged_entry _ _ _ _ Hs Hf He) as (<-&?&_&?). done.
Qed.
End Spec.

(** ** What a caller may find *)
Section Visible.
Context {HEng : Engine} {HFTS : FTS} {HProv : EmbeddingProvider} {HIdx : VectorIndex} {HErr : ErrorText} {HMap : GoMapOrder}.

Lemma within_fulltextSearch agentName opts limit : within eq (fulltextSearch agentName opts limit).
Proof.
  apply within_bind_ok; [|done]. apply within_bind_ok; [by apply within_query_o|]. intros l. by apply within_bind_ok; [apply within_query_o|].
Qed.

Lemma within_access agentName msg : within eq (canAgentAccessMessage agentName msg).
Proof.
  unfold canAgentAccessMessage. destruct (negb _); [done|]. destruct (Msg_ChannelID msg); [|done]. by apply within_bind; [apply within_query|].
Qed.

(** What a caller may find: what it sent or was sent, and the posts to nobody
    in particular of the channels it is a member of. *)
Definition may_find (d : db) (agentName : string) (m : Message) : Prop :=
  to_agent m = Some agentName \/ FromAgent m = agentName \/
  (ToAgent m = EmptyString /\ exists c, Msg_ChannelID m = Some c /\ is_member d agentName c = true).

(** What it asked for, in every mode. *)
Definition asked_for (opts : UnifiedOptions) (m : Message) : Prop :=
  (forall c, us_ChannelID opts = Some c -> Msg_ChannelID m = Some c) /\
  (us_FromAgent opts <> EmptyString -> FromAgent m = us_FromAgent opts) /\
  (0 < us_MinPriority opts -> us_MinPriority opts <= Priority m).

Definition found_ok (d : db) (agentName : string) (opts : UnifiedOptions) (m : Message) : Prop :=
  exists m0, m0 ∈ rows (messages d) /\ may_find d agentName m0 /\ asked_for opts m0 /\ (m = m0 \/ m = without_reply m0).

Definition response_ok (d : db) (agentName : string) (opts : UnifiedOptions) (limit : Z) (r : SearchResponse) : Prop :=
  Z.of_nat (length (Results r)) <= limit /\ TotalResults r = Z.of_nat (length (Results r)) /\
  Forall (fun x => found_ok d agentName opts (sres_Message x)) (Results r).

Definition answer_ok (d : db) (agentName : string) (opts : UnifiedOptions) (limit : Z) (o : outcome error SearchResponse) : Prop :=
  match o with Ok r => response_ok d agentName opts limit r | Err _ => True | Panic _ => False end.

Lemma may_see_find d a m : may_see d a m -> may_find d a m.
Proof.
  intros [?|[?|[E H]]]; [by left|by right; left|]. right. right. split; [|done]. unfold ToAgent. by rewrite E.
Qed.

Lemma search_keeps_asked d a opts limit m : search_keeps d a (fulltext_options opts limit) m = true -> asked_for opts m.
Proof.
  unfold search_keeps. rewrite holds_true, t_all_true. intros H.
  unfold buildSearchConditions in H. cbn [sr_FromAgent sr_ToAgent sr_ChannelID sr_MinPriority sr_Status fulltext_options] in H. split_and!.
  - intros c Ec. apply t_eq_true, H. rewrite Ec. set_solver.
  - intros Hn. assert (negb (str_empty (us_FromAgent opts)) = true) as E by (by destruct (us_FromAgent opts)).
    apply (t_decide_true (FromAgent m = us_FromAgent opts)), H. rewrite E. unfold opt_cond. set_solver.
  - intros Hp. assert (Some (us_MinPriority opts <=? Priority m) = Some true) as [= ?]; [|lia]. apply H.
    apply Z.ltb_lt in Hp. rewrite Hp. unfold opt_cond. set_solver.
Qed.

Lemma fulltext_ok agentName opts limit d : messaging_ok d -> 0 < limit ->
  wp (fulltextSearch agentName opts limit) (fun o d' => d' = d /\ answer_ok d agentName opts limit o) d.
Proof.
  intros Hok Hlim. unfold fulltextSearch. apply wp_bind_ok. unfold SearchMessages, store_SearchMessages, CountSearchMessages. simpl.
  assert (NoDup (rows (messages d))) as Hn by (eapply NoDup_fmap_1; apply Hok).
  split; [|done]. destruct (search_rows d agentName _ _) as [l|] eqn:E; simpl; [|done]. rewrite E. split; [|done]. split; [done|].
  destruct (search_rows_kept _ _ _ _ _ Hn E) as [_ Hk]. unfold response_ok. cbn [Results TotalResults pm_Messages]. rewrite length_imap.
  split_and!; [|done|].
  - match goal with |- context [page ?a ?b l] => pose proof (page_length a b l) end. unfold fulltext_options in *. cbn in *.
    unfold default_limit in *. destruct (Z.leb_spec limit 0); lia.
  - apply Forall_forall. intros x Hx. apply elem_of_lookup_imap in Hx as (i&m&->&Hm). cbn [sres_Message].
    apply list_elem_of_lookup_2, elem_of_page in Hm. destruct (Hk m Hm) as [Hin Hkeep]. exists m. split_and!; [done| | |by left].
    + eapply may_see_find, search_keeps_access, Hkeep.
    + eapply search_keeps_asked, Hkeep.
Qed.

(** One row, checked as the semantic search does. *)
Lemma access_ok agentName m d :
  wp (canAgentAccessMessage agentName (without_reply m)) (fun b d' => d' = d /\ (b = true -> may_find d agentName m)) d.
Proof.
  unfold canAgentAccessMessage, may_find. change (ToAgent (without_reply m)) with (ToAgent m). cbn [Msg_ChannelID FromAgent without_reply].
  destruct (negb (str_empty (ToAgent m))) eqn:E.
  - cbn [wp]. split; [done|]. rewrite orb_true_iff, !String.eqb_eq. unfold ToAgent in *. intros [?|H]; [by right; left|].
    left. destruct (to_agent m); simpl in *; [by f_equal|]. by subst.
  - assert (ToAgent m = EmptyString) as HT by (by destruct (ToAgent m)). destruct (Msg_ChannelID m) as [c|].
    + cbn. split; split; try done. intros H. apply Z.ltb_lt in H. right. right. split; [done|]. exists c. split; [done|].
      unfold is_member. destruct (existsb _ _) eqn:Ex; [done|].
      pose proof (proj2 (count_if_0 _ _) (proj1 (existsb_none _ _) Ex)). lia.
    + cbn [wp]. split; [done|]. rewrite String.eqb_eq. by right; left.
Qed.

Lemma matches_asked m opts : matchesFilters (without_reply m) opts = true -> asked_for opts m.
Proof.
  unfold matchesFilters. cbn [Msg_ChannelID FromAgent Priority Msg_CreatedAt without_reply]. intros H. guards. split_and!.
  - intros c Ec. rewrite Ec in *. by guards.
  - intros Hn. match goal with H : negb (str_empty _) && _ = false |- _ => apply andb_false_iff in H as [Hx|Hx] end; guards; [|done].
    exfalso. apply Hn. by destruct (us_FromAgent opts).
  - intros Hp. match goal with H : (0 <? _) && _ = false |- _ => apply andb_false_iff in H as [Hx|Hx] end; guards; lia.
Qed.

Lemma collect_ok agentName opts limit found nearest d : 0 < limit ->
  Forall (fun x => found_ok d agentName opts (sres_Message x)) found -> Z.of_nat (length found) < limit ->
  wp (collect_semantic agentName opts limit found nearest) (fun l d' => d' = d /\
    Z.of_nat (length l) <= limit /\ Forall (fun x => found_ok d agentName opts (sres_Message x)) l) d.
Proof.
  intros Hlim. revert found. induction nearest as [|[id dist] rest IH]; intros found Hf Hlen; [cbn; split_and!; [done|lia|done]|].
  cbn [collect_semantic]. apply wp_bind. unfold getMessageByID, query_o, exec_o. cbn [wp]. split; [|by apply IH].
  destruct (find_id id (messages d)) as [m|] eqn:E; [|by apply IH]. apply find_id_Some in E as [_ Hin].
  apply wp_bind. eapply wp_mono; [|apply access_ok]. intros access d' [-> Hacc]. cbv beta.
  destruct access; [|by apply IH]. destruct (matchesFilters (without_reply m) opts) eqn:Em; [|by apply IH]. cbn [negb].
  destruct (f64_lt _ _); [by apply IH|]. cbv zeta.
  assert (Forall (fun x => found_ok d agentName opts (sres_Message x)) (found ++ [mkSearchResult (without_reply m) (similarity_of dist) f64_zero ModeSemantic])) as Hf'.
  { apply Forall_app. split; [done|]. constructor; [|constructor]. exists m. split_and!; [done|by apply Hacc|by apply matches_asked|by right]. }
  rewrite length_app. cbn [length]. destruct (Z.leb_spec limit (Z.of_nat (length found + 1))).
  - cbn [wp]. split; [done|]. split; [|done]. rewrite length_app. cbn [length]. lia.
  - apply IH; [done|]. rewrite length_app. cbn [length]. lia.
Qed.

(** A call that touches nothing. *)
Lemma frame_wp {A} (p : prog db A) d : within eq p -> wp p (fun _ d' => d' = d) d.
Proof. intros H. eapply wp_mono; [|by apply (within_wp eq)]. by intros a d' ->. Qed.

Class quiet := {
  Embed_quiet : forall t d, wp (Embed t) (fun o _ => match o with Panic _ => False | _ => True end) d;
  index_quiet : forall v k d, wp (index_Search v k) (fun o _ => match o with Panic _ => False | _ => True end) d
}.
Context {Hquiet : quiet}.

Lemma semantic_ok agentName opts limit d : messaging_ok d -> 0 < limit ->
  wp (semanticSearch agentName opts limit) (fun o d' => d' = d /\ answer_ok d agentName opts limit o) d.
Proof.
  intros Hok Hlim. unfold semanticSearch. destruct (str_empty _); [by apply fulltext_ok|]. apply wp_bind_ok.
  eapply wp_mono; [|apply wp_and; [apply frame_wp, Embed_frame|apply Embed_quiet]]. intros [v|e|w] d' [-> H]; [|done..]. cbv beta zeta.
  apply wp_bind_ok. eapply wp_mono; [|apply wp_and; [apply frame_wp, index_Search_frame|apply index_quiet]].
  intros [nearest|e|w] d' [-> H']; [|done..]. cbv beta. case_bool_decide.
  - apply wp_bind_ok. eapply wp_mono; [|by apply fulltext_ok]. intros [r|e|w] d' [-> Hr]; by split.
  - apply wp_bind. eapply wp_mono; [|by apply (collect_ok agentName opts limit [])]. intros l d' (->&Hl&Hf). cbn [wp]. by repeat split.
Qed.

Lemma truncate_to_length {A} limit (l : list A) : 0 <= limit -> Z.of_nat (length (truncate_to limit l)) <= limit.
Proof. intros H. unfold truncate_to. destruct (Z.ltb_spec limit (Z.of_nat (length l))); [rewrite length_take|]; lia. Qed.

Lemma elem_of_truncate {A} limit (l : list A) x : x ∈ truncate_to limit l -> x ∈ l.
Proof. unfold truncate_to. destruct (_ <? _); [|done]. intros H. eapply elem_of_sublist; [exact H|apply sublist_take]. Qed.

(** A fused result shows a message of one of the rankings, repeated or not. *)
Lemma add_ranking_entries (P : Message -> Prop) second rank l byID :
  Forall (fun x => P (sres_Message x)) l -> (forall id e, byID !! id = Some e -> P (sres_Message (result e))) ->
  forall id e, add_ranking second rank l byID !! id = Some e -> P (sres_Message (result e)).
Proof.
  intros Hl. revert rank byID. induction Hl as [|r l Hr Hl IH]; intros rank byID Hb; [exact Hb|]. cbn [add_ranking]. cbv zeta. apply IH.
  intros id e. destruct (byID !! result_id r) as [e0|] eqn:E; rewrite lookup_insert_Some; intros [[<- <-]|[_ H]]; try by eapply Hb.
  - destruct second; apply (Hb _ _ E).
  - done.
Qed.

Lemma sift_in x l y : y ∈ sift x l <-> y = x \/ y ∈ l.
Proof. rewrite sift_perm. apply elem_of_cons. Qed.

Lemma insertion_sort_in l x : x ∈ insertion_sort l -> x ∈ l.
Proof.
  unfold insertion_sort. rewrite elem_of_reverse.
  assert (forall acc, x ∈ foldl (fun acc x => sift x acc) acc l -> x ∈ acc \/ x ∈ l) as H.
  { induction l as [|y l IH]; intros acc; cbn [foldl]; [by left|]. intros [[-> |H]%sift_in|H]%IH; [right; by left|by left|right; by right]. }
  by intros [?%elem_of_nil|]%H.
Qed.

Lemma merge_visible (P : Message -> Prop) sem ft limit :
  Forall (fun x => P (sres_Message x)) sem -> Forall (fun x => P (sres_Message x)) ft ->
  Forall (fun x => P (sres_Message x)) (mergeRRF sem ft limit).
Proof.
  intros Hs Hf. apply Forall_forall. intros x. unfold mergeRRF. rewrite list_elem_of_fmap.
  intros (e&->&He%elem_of_truncate%insertion_sort_in). fold (merged_map sem ft) in He.
  apply (elem_of_merged sem ft) in He as [id He]. revert He. unfold merged_map. apply add_ranking_entries; [done|].
  intros id' e'. apply add_ranking_entries; [done|]. intros ? ?. by rewrite lookup_empty.
Qed.

Lemma combine_ok d agentName opts limit sem ft : 0 < limit ->
  answer_ok d agentName opts limit sem -> answer_ok d agentName opts limit ft -> answer_ok d agentName opts limit (combine sem ft limit).
Proof.
  intros Hlim Hs Hf. destruct sem as [s|e|w], ft as [f|e'|w']; try done; cbn [combine].
  - case_bool_decide; [exact Hf|]. case_bool_decide; [exact Hs|]. destruct Hs as (_&_&Hs), Hf as (_&_&Hf).
    split_and!; [|done|by apply merge_visible]. cbn [Results]. unfold mergeRRF. rewrite length_fmap. apply truncate_to_length. lia.
  - case_bool_decide; [|exact Hs]. split_and!; [cbn; lia|done|constructor].
Qed.

Lemma auto_ok (has : bool) agentName opts limit d : messaging_ok d -> 0 < limit ->
  wp (if has then
        let! len := index_Len in
        if (0 <? len) && negb (str_empty (us_Query opts)) then hybridSearch agentName opts limit else fulltextSearch agentName opts limit
      else fulltextSearch agentName opts limit) (fun o d' => d' = d /\ answer_ok d agentName opts limit o) d.
Proof.
  intros Hok Hl. destruct has; [|by apply fulltext_ok]. apply wp_bind. eapply wp_mono; [|apply frame_wp, index_Len_frame].
  intros len d' ->. cbv beta. destruct (_ && _); [|by apply fulltext_ok]. apply wp_bind. eapply wp_mono; [|by apply semantic_ok].
  intros sem d' [-> Hs]. cbv beta. apply wp_bind. eapply wp_mono; [|by apply fulltext_ok]. intros ft d' [-> Hf]. cbn [wp].
  split; [done|]. by apply combine_ok.
Qed.

(** C23. Whatever the mode, the agent, the options and the answers of provider
    and index, and whatever statement fails: a search changes nothing, returns
    at most the limit (10 by default, at most 100) and says how many, and
    every result is a stored message that the caller sent, was sent, or may
    read in a channel it is a member of, and that is in the channel, of the
    author and of the priority asked for.  A mode that does not exist is
    refused, and semantic search without a provider too. *)
Theorem search_visible (has : bool) (agentName : string) (opts : UnifiedOptions) (d : db) (Hok : messaging_ok d) :
  0 < search_limit (us_Limit opts) <= 100 /\
  wp (Search has agentName opts) (fun o d' => d' = d /\ answer_ok d agentName opts (search_limit (us_Limit opts)) o /\
    (us_Mode opts = ModeSemantic -> has = false -> o = Err ENoEmbeddingProvider) /\
    (us_Mode opts ∉ [""; ModeAuto; ModeSemantic; ModeFulltext] -> o = Err (EUnknownSearchMode (us_Mode opts)))) d.
Proof.
  assert (0 < search_limit (us_Limit opts) <= 100) as Hl.
  { unfold search_limit. pose proof (default_limit_pos 10 (us_Limit opts) ltac:(lia)). destruct (Z.ltb_spec 100 (default_limit 10 (us_Limit opts))); lia. }
  split; [done|]. unfold Search. set (limit := search_limit (us_Limit opts)) in *. clearbody limit. cbv zeta.
  assert (forall p, wp p (fun o d' => d' = d /\ answer_ok d agentName opts limit o) d ->
    (us_Mode opts ∈ [""; ModeAuto; ModeSemantic; ModeFulltext]) -> (us_Mode opts = ModeSemantic -> has = true) ->
    wp p (fun o d' => d' = d /\ answer_ok d agentName opts limit o /\
      (us_Mode opts = ModeSemantic -> has = false -> o = Err ENoEmbeddingProvider) /\
      (us_Mode opts ∉ [""; ModeAuto; ModeSemantic; ModeFulltext] -> o = Err (EUnknownSearchMode (us_Mode opts)))) d) as Hwrap.
  { intros p Hp Hin Hsem. eapply wp_mono; [|exact Hp]. intros o d' [-> Ho]. split_and!; [done|done| |done]. intros Hm Hf. rewrite Hsem in Hf; done. }
  pose proof (fulltext_ok agentName opts limit d Hok ltac:(lia)) as Hft. pose proof (semantic_ok agentName opts limit d Hok ltac:(lia)) as Hsm.
  pose proof (auto_ok has agentName opts limit d Hok ltac:(lia)) as Hau.
  destruct (us_Mode opts) as [|a rest] eqn:Emode; cbn [str_empty].
  { apply Hwrap; [exact Hau|by left|done]. }
  change (str_empty (String a rest)) with false. cbv iota.
  destruct (String.eqb_spec (String a rest) ModeAuto) as [E|Ha]; [rewrite E in *; apply Hwrap; [exact Hau|set_solver|done]|].
  destruct (String.eqb_spec (String a rest) ModeSemantic) as [E|Hs].
  - rewrite E in *. destruct has; cbn [negb]; [|cbn [wp]; split_and!; [done..|]; set_solver]. apply Hwrap; [|set_solver|done].
    apply wp_bind. eapply wp_mono; [|exact Hsm]. intros [r|e|w] d' [-> Hr]; [by split| |by split]. cbv beta iota.
    apply wp_bind_ok. eapply wp_mono; [|exact Hft]. intros [r|e'|w] d' [-> Hr']; by split.
  - destruct (String.eqb_spec (String a rest) ModeFulltext) as [E|Hf]; [rewrite E in *; apply Hwrap; [exact Hft|set_solver|done]|].
    cbn [wp]. split; [done|]. split; [done|]. split; [by intros E|done].
Qed.
End Visible.

Module SearchRuns.
#[local] Existing Instance Runs.eng.
#[local] Instance no_text : ErrorText := {| error_text := fun _ => "error" |}.
#[local] Instance in_order : GoMapOrder := {| range_order := fun _ l => l; range_perm := fun A l => Permutation_refl l |}.
(** An index of words that matches everything. *)
#[local] Instance fts_all : FTS.
Proof. refine {| fts_query := fun _ l => Some l |}. intros q l r [= <-] Hn. by split. Defined.
#[local] Instance echo : EmbeddingProvider.
Proof.
  by refine {| vector := string; Embed := fun t => Ret (Ok t); EmbedBatch := fun ts => Ret (Ok (Some <$> ts));
               provider_Name := "echo"; provider_Dimensions := 8 |}.
Defined.
(** Three vectors, the nearest first; no message has the id 9. *)
#[local] Instance three : VectorIndex.
Proof.
  by refine {| AddVector := fun _ _ => Ret (Ok tt);
               index_Search := fun _ _ => Ret (Ok [(1, S754_zero false); (9, S754_zero false); (2, binary_normalize 24 128 1 (-2) false)]);
               index_Delete := fun _ => Ret true; index_Len := Ret 3 |}.
Defined.
#[local] Instance three_quiet : quiet.
Proof. by constructor. Defined.

Definition ask (query mode : string) (after : option Z) : UnifiedOptions := mkUnifiedOptions query mode 0 None "" 0 after None f64_zero.
Definition found (o : outcome error SearchResponse) : list (Z * string) :=
  match o with Ok r => (fun x => (result_id x, MatchType x)) <$> Results r | _ => [] end.

Lemma search_visible_witness :
  messaging_ok QueryRuns.channel_db /\
  found (run_ok (Search true "bob" (ask "lunch" "" None)) QueryRuns.channel_db).1 = [(2, "hybrid"); (1, ModeSemantic)] /\
  (forall x, x ∈ match (run_ok (Search true "bob" (ask "lunch" "" None)) QueryRuns.channel_db).1 with Ok r => Results r | _ => [] end ->
     found_ok QueryRuns.channel_db "bob" (ask "lunch" "" None) (sres_Message x)).
Proof.
  split; [exact QueryRuns.channel_db_ok|]. split; [by vm_compute|].
  destruct (search_visible true "bob" (ask "lunch" "" None) QueryRuns.channel_db QueryRuns.channel_db_ok) as [_ H].
  apply wp_run_ok in H as (_&H&_). revert H. generalize ((run_ok (Search true "bob" (ask "lunch" "" None)) QueryRuns.channel_db).1).
  intros [r|e|w] H x Hx; [|by apply elem_of_nil in Hx..]. destruct H as (_&_&H). by apply (proj1 (Forall_forall _ _) H).
Defined.

Definition hit (id : Z) (how : string) : SearchResult :=
  mkSearchResult (mkMessage id 1 "alice" (Some "bob") None None "hello" 5 StatusPending RawEmpty None None 0 0) f64_zero f64_zero how.

(** Message 2 is second and first: ahead of 1, which is first only, and 3. *)
Lemma rrf_exact_witness :
  (fun x => (result_id x, MatchType x)) <$> mergeRRF [hit 1 "semantic"; hit 2 "semantic"] [hit 2 "fulltext"; hit 3 "fulltext"] 2 = [(2, "hybrid"); (1, "semantic")] /\
  exists ranked, length ranked = 3%nat /\ StronglySorted ranked_desc ranked.
Proof.
  split; [by vm_compute|].
  destruct (rrf_exact [hit 1 "semantic"; hit 2 "semantic"] [hit 2 "fulltext"; hit 3 "fulltext"] 2
    ltac:(by apply (bool_decide_unpack (NoDup [1; 2])); vm_compute) ltac:(by apply (bool_decide_unpack (NoDup [2; 3])); vm_compute)
    ltac:(simpl; lia) ltac:(simpl; lia)) as (ranked&_&Hn&Hin&_&Hs).
  exists ranked. split; [|exact Hs]. rewrite <- (length_fmap (fun e => result_id (result e)) ranked).
  change 3%nat with (length [1; 2; 3]). apply Permutation_length, NoDup_Permutation; [exact Hn|by apply (bool_decide_unpack (NoDup [1; 2; 3])); vm_compute|].
  intros id. rewrite Hin. simpl. set_solver.
Defined.

(** Full-text search drops the dates: asked for what comes after time 1000000,
    semantic search finds nothing and full-text search old messages. *)
Theorem fulltext_ignores_dates :
  found (run_ok (Search true "bob" (ask "lunch" ModeSemantic (Some 1000000))) QueryRuns.channel_db).1 = [] /\
  found (run_ok (Search true "bob" (ask "lunch" ModeFulltext (Some 1000000))) QueryRuns.channel_db).1 = [(2, ModeFulltext)].
Proof. by vm_compute. Qed.

(** Bob is a member of the channel alice posted in: semantic search shows him
    her post, full-text search does not. *)
Theorem modes_disagree_on_channels :
  found (run_ok (Search true "bob" (ask "standup" ModeSemantic None)) QueryRuns.channel_db).1 = [(1, ModeSemantic); (2, ModeSemantic)] /\
  found (run_ok (Search true "bob" (ask "standup" ModeFulltext None)) QueryRuns.channel_db).1 = [(2, ModeFulltext)].
Proof. by vm_compute. Qed.
End SearchRuns.
