(* ===== verification/Webhooks.v ===== *)
(** * Webhooks (internal/webhooks: store.go, service.go, delivery.go, security.go)

    Registered endpoints, the deliveries to them, the queue of the delivery
    engine and its workers.  The tables and the queue are a state of their own,
    [engine]: nothing else touches them.  [sent] is the log of the requests
    that left; DNS, the endpoints' answers, URL parsing, HMAC and the rate
    limiter of golang.org/x/time are interfaces. *)
From S2P Require Import Prelude Prog Table Schema Messaging Attachments Reactor.

Inductive WebhookStatus := WebhookStatusActive | WebhookStatusDisabled.
#[export] Instance WebhookStatus_eq_dec : EqDecision WebhookStatus.
Proof. solve_decision. Defined.

Record Webhook := mkWebhook {
  Wh_ID : Z;
  Wh_AgentName : string;
  URL : string;
  Events : list string;
  SecretHash : string;
  Wh_Status : WebhookStatus;
  ConsecutiveFailures : Z;
  Wh_CreatedAt : Z;
  Wh_UpdatedAt : Z
}.

Inductive DeliveryStatus := DeliveryStatusPending | DeliveryStatusDelivered | DeliveryStatusRetrying | DeliveryStatusDeadLettered.
#[export] Instance DeliveryStatus_eq_dec : EqDecision DeliveryStatus.
Proof. solve_decision. Defined.

(** The JSON object sent; the column [payload] holds its text. *)
Record DeliveryPayload := mkDeliveryPayload {
  p_Event : string;
  p_MessageID : Z;
  p_FromAgent : string;
  p_ToAgent : string;
  p_Channel : string;
  p_Body : string;
  p_Priority : Z;
  p_Metadata : string;
  p_Timestamp : Z
}.

(** What [last_error] says, without the text of the error it wraps. *)
Inductive DeliveryError := BuildRequestFailed | HTTPRequestFailed | HTTPCode (status : Z).

Record WebhookDelivery := mkWebhookDelivery {
  Dv_ID : Z;
  WebhookID : Z;
  Dv_AgentName : string;
  Dv_Event : string;
  Dv_MessageID : Z;
  Payload : DeliveryPayload;
  Dv_Status : DeliveryStatus;
  HTTPStatus : option Z;
  Attempts : Z;
  MaxAttempts : Z;
  LastError : option DeliveryError;
  NextRetryAt : option Z;
  Dv_Depth : Z;
  Dv_CreatedAt : Z;
  DeliveredAt : option Z
}.

#[export] Instance Webhook_row : Row Webhook := Wh_ID.
#[export] Instance WebhookDelivery_row : Row WebhookDelivery := Dv_ID.

(** ** Addresses (security.go) *)

(** [net.IP]: an IPv4 address, mapped ones included, or another IPv6 one. *)
Inductive IP := IPv4 (n : Z) | IPv6 (n : Z).
Record IPNet := mkIPNet { net_base : IP; net_ones : Z }.

Definition v4 (a b c d : Z) : Z := ((a * 256 + b) * 256 + c) * 256 + d.
Definition mask (width ones : Z) : Z := Z.shiftl (Z.ones ones) (width - ones).
Definition net_Contains (n : IPNet) (ip : IP) : bool :=
  match net_base n, ip with
  | IPv4 b, IPv4 x => Z.land b (mask 32 (net_ones n)) =? Z.land x (mask 32 (net_ones n))
  | IPv6 b, IPv6 x => Z.land b (mask 128 (net_ones n)) =? Z.land x (mask 128 (net_ones n))
  | _, _ => false
  end.

Definition privateRanges : list IPNet :=
  [mkIPNet (IPv4 (v4 10 0 0 0)) 8; mkIPNet (IPv4 (v4 172 16 0 0)) 12; mkIPNet (IPv4 (v4 192 168 0 0)) 16;
   mkIPNet (IPv4 (v4 127 0 0 0)) 8; mkIPNet (IPv4 (v4 169 254 0 0)) 16;
   mkIPNet (IPv6 1) 128; mkIPNet (IPv6 (0xfc00 * 2 ^ 112)) 7; mkIPNet (IPv6 (0xfe80 * 2 ^ 112)) 10].
Definition IsPrivateIP (ip : IP) : bool := existsb (fun n => net_Contains n ip) privateRanges.

Definition ValidEvents : list string := ["message.received"; "message.mentioned"; "channel.message"].
Definition IsValidEvent (event : string) : bool := existsb (fun e => String.eqb e event) ValidEvents.

(** ** The engine *)
Record deliveryWork := mkWork { work_delivery : WebhookDelivery; work_webhook : Webhook }.

(** A request that left: where it was sent, and what. *)
Record sent_request := mkSent {
  sent_Address : string;
  sent_URL : string;
  sent_Event : string;
  sent_Delivery : Z;
  sent_Depth : Z;
  sent_Signature : string;
  sent_Payload : DeliveryPayload
}.

Record engine := mkEngine {
  now : Z;
  webhooks : table Webhook;
  deliveries : table WebhookDelivery;
  queue : list deliveryWork;
  sent : list sent_request
}.
Definition set_webhooks v (e : engine) : engine := mkEngine (now e) v (deliveries e) (queue e) (sent e).
Definition set_deliveries v (e : engine) : engine := mkEngine (now e) (webhooks e) v (queue e) (sent e).
Definition set_queue v (e : engine) : engine := mkEngine (now e) (webhooks e) (deliveries e) v (sent e).
Definition set_sent v (e : engine) : engine := mkEngine (now e) (webhooks e) (deliveries e) (queue e) v.
Definition set_now v (e : engine) : engine := mkEngine v (webhooks e) (deliveries e) (queue e) (sent e).
Abbreviation W A := (prog engine (outcome error A)).
Definition engine_now : prog engine Z := Peek (fun e => Ret (now e)).

(** [url.Parse] (scheme and host name), [net.ParseIP], the resolver at a time,
    and the endpoint: the status it answers with and whether it names another
    location, or no answer. *)
Class Network := {
  url_Parse : string -> option (string * string);
  ParseIP : string -> option IP;
  LookupHost : Z -> string -> option (list string);
  respond : sent_request -> nat -> option (Z * bool)
}.
Class GoHmac := { hmac_sha256_hex : string -> DeliveryPayload -> string }.
(** [rate.Limiter.Wait]: it lets through, or the context ends. *)
Class RateLimiter := { Wait : string -> W unit; Wait_frame : forall a, within eq (Wait a) }.

(** ** The store *)
Definition same_endpoint (agentName url : string) (w : Webhook) : bool := String.eqb (Wh_AgentName w) agentName && String.eqb (URL w) url.
Definition webhook_row (w : Webhook) (t id : Z) : Webhook :=
  mkWebhook id (Wh_AgentName w) (URL w) (Events w) (SecretHash w) (Wh_Status w) 0 t t.
(** UNIQUE (agent_name, url). *)
Definition InsertWebhook (w : Webhook) : W Z :=
  exec_o EDb (fun e => if affected (same_endpoint (Wh_AgentName w) (URL w)) (webhooks e) =? 0
                       then set_webhooks (insert_row (webhook_row w (now e)) (webhooks e)) e else e)
             (fun e => if affected (same_endpoint (Wh_AgentName w) (URL w)) (webhooks e) =? 0 then Ok (next_id (webhooks e)) else Err EDb).

Definition GetWebhookByID (id : Z) : W Webhook :=
  query_o EDb (fun e => match find_id id (webhooks e) with Some w => Ok w | None => Err ErrNoRows end).

Definition wh_oldest (a b : Webhook) : Prop := Wh_CreatedAt a <= Wh_CreatedAt b.
#[export] Instance wh_oldest_dec a b : Decision (wh_oldest a b).
Proof. unfold wh_oldest. apply _. Defined.
Definition dv_oldest (a b : WebhookDelivery) : Prop := Dv_CreatedAt a <= Dv_CreatedAt b.
#[export] Instance dv_oldest_dec a b : Decision (dv_oldest a b).
Proof. unfold dv_oldest. apply _. Defined.
Definition dv_newest (a b : WebhookDelivery) : Prop := Dv_CreatedAt b <= Dv_CreatedAt a.
#[export] Instance dv_newest_dec a b : Decision (dv_newest a b).
Proof. unfold dv_newest. apply _. Defined.
Definition retry_first (a b : WebhookDelivery) : Prop := default 0 (NextRetryAt a) <= default 0 (NextRetryAt b).
#[export] Instance retry_first_dec a b : Decision (retry_first a b).
Proof. unfold retry_first. apply _. Defined.

Definition with_wh_status (st : WebhookStatus) (t : Z) (w : Webhook) : Webhook :=
  mkWebhook (Wh_ID w) (Wh_AgentName w) (URL w) (Events w) (SecretHash w) st (ConsecutiveFailures w) (Wh_CreatedAt w) t.
Definition with_failures (n t : Z) (w : Webhook) : Webhook :=
  mkWebhook (Wh_ID w) (Wh_AgentName w) (URL w) (Events w) (SecretHash w) (Wh_Status w) n (Wh_CreatedAt w) t.

Definition UpdateWebhookStatus (id : Z) (st : WebhookStatus) : W unit :=
  exec_o EDb (fun e => set_webhooks (update_rows (by_id id) (with_wh_status st (now e)) (webhooks e)) e)
             (fun e => if affected (by_id id) (webhooks e) =? 0 then Err EWebhookNotFound else Ok tt).

Definition IncrementConsecutiveFailures (id : Z) : W Z :=
  let? _ := exec EDb (fun e => set_webhooks (update_rows (by_id id) (fun w => with_failures (ConsecutiveFailures w + 1) (now e) w) (webhooks e)) e) (fun _ => tt) in
  query_o EDb (fun e => match find_id id (webhooks e) with Some w => Ok (ConsecutiveFailures w) | None => Err ErrNoRows end).
Definition ResetConsecutiveFailures (id : Z) : W unit :=
  exec EDb (fun e => set_webhooks (update_rows (by_id id) (with_failures 0 (now e)) (webhooks e)) e) (fun _ => tt).

(** ON DELETE CASCADE. *)
Definition owned_webhook (id : Z) (agentName : string) (w : Webhook) : bool := by_id id w && String.eqb (Wh_AgentName w) agentName.
Definition store_DeleteWebhook (id : Z) (agentName : string) : W unit :=
  exec_o EDb (fun e => if affected (owned_webhook id agentName) (webhooks e) =? 0 then e
                       else set_deliveries (delete_rows (fun x => WebhookID x =? id) (deliveries e))
                              (set_webhooks (delete_rows (owned_webhook id agentName) (webhooks e)) e))
             (fun e => if affected (owned_webhook id agentName) (webhooks e) =? 0 then Err EWebhookNotFound else Ok tt).

Definition CountWebhooksByAgent (agentName : string) : W Z :=
  query EDb (fun e => affected (fun w => String.eqb (Wh_AgentName w) agentName) (webhooks e)).

Definition some_nonzero (n : Z) : option Z := if n =? 0 then None else Some n.
Definition delivery_row (x : WebhookDelivery) (t id : Z) : WebhookDelivery :=
  mkWebhookDelivery id (WebhookID x) (Dv_AgentName x) (Dv_Event x) (Dv_MessageID x) (Payload x) (Dv_Status x) (HTTPStatus x) (Attempts x)
    (MaxAttempts x) (LastError x) (NextRetryAt x) (Dv_Depth x) t (DeliveredAt x).
(** REFERENCES webhooks(id). *)
Definition InsertDelivery (x : WebhookDelivery) : W Z :=
  exec_o EDb (fun e => if affected (by_id (WebhookID x)) (webhooks e) =? 0 then e
                       else set_deliveries (insert_row (delivery_row x (now e)) (deliveries e)) e)
             (fun e => if affected (by_id (WebhookID x)) (webhooks e) =? 0 then Err EDb else Ok (next_id (deliveries e))).

Definition with_dv_status (st : DeliveryStatus) (httpStatus : Z) (lastError : option DeliveryError) (nextRetryAt deliveredAt : option Z)
    (x : WebhookDelivery) : WebhookDelivery :=
  mkWebhookDelivery (Dv_ID x) (WebhookID x) (Dv_AgentName x) (Dv_Event x) (Dv_MessageID x) (Payload x) st (some_nonzero httpStatus) (Attempts x)
    (MaxAttempts x) lastError nextRetryAt (Dv_Depth x) (Dv_CreatedAt x) deliveredAt.
Definition with_attempts (n : Z) (x : WebhookDelivery) : WebhookDelivery :=
  mkWebhookDelivery (Dv_ID x) (WebhookID x) (Dv_AgentName x) (Dv_Event x) (Dv_MessageID x) (Payload x) (Dv_Status x) (HTTPStatus x) n
    (MaxAttempts x) (LastError x) (NextRetryAt x) (Dv_Depth x) (Dv_CreatedAt x) (DeliveredAt x).

Definition update_delivery (id : Z) (f : WebhookDelivery -> WebhookDelivery) : W unit :=
  exec_o EDb (fun e => set_deliveries (update_rows (by_id id) f (deliveries e)) e)
             (fun e => if affected (by_id id) (deliveries e) =? 0 then Err EDeliveryNotFound else Ok tt).
Definition UpdateDeliveryStatus (id : Z) (st : DeliveryStatus) (httpStatus : Z) (lastError : option DeliveryError)
    (nextRetryAt deliveredAt : option Z) : W unit := update_delivery id (with_dv_status st httpStatus lastError nextRetryAt deliveredAt).
Definition UpdateDeliveryAttempts (id attempts : Z) : W unit := update_delivery id (with_attempts attempts).

Definition dv_is (st : DeliveryStatus) (x : WebhookDelivery) : bool := bool_decide (Dv_Status x = st).
Definition due (t : Z) (x : WebhookDelivery) : bool := dv_is DeliveryStatusRetrying x && match NextRetryAt x with Some r => r <=? t | None => false end.
Definition GetDeliveryByID (id : Z) : W WebhookDelivery :=
  query_o EDb (fun e => match find_id id (deliveries e) with Some x => Ok x | None => Err ErrNoRows end).
Definition PurgeOldDeadLetters (olderThan : Z) : W Z :=
  exec EDb (fun e => set_deliveries (delete_rows (fun x => dv_is DeliveryStatusDeadLettered x && (Dv_CreatedAt x <? olderThan)) (deliveries e)) e)
           (fun e => affected (fun x => dv_is DeliveryStatusDeadLettered x && (Dv_CreatedAt x <? olderThan)) (deliveries e)).

Section Queries.
Context {HEng : Engine}.
Definition GetWebhooksByAgent (agentName : string) : W (list Webhook) :=
  query EDb (fun e => select_by wh_oldest (fun w => String.eqb (Wh_AgentName w) agentName) (webhooks e)).
Definition subscribed (event : string) (w : Webhook) : bool := existsb (fun x => String.eqb x event) (Events w).
Definition GetActiveWebhooksByEvent (agentName event : string) : W (list Webhook) :=
  let? all := query EDb (fun e => select_by wh_oldest
      (fun w => String.eqb (Wh_AgentName w) agentName && bool_decide (Wh_Status w = WebhookStatusActive)) (webhooks e)) in
  Ret (Ok (filter (fun w => subscribed event w = true) all)).
Definition GetPendingDeliveries (limit : Z) : W (list WebhookDelivery) :=
  query EDb (fun e => page (default_limit 50 limit) 0 (select_by dv_oldest (dv_is DeliveryStatusPending) (deliveries e))).
Definition GetRetryableDeliveries (t limit : Z) : W (list WebhookDelivery) :=
  query EDb (fun e => page (default_limit 50 limit) 0 (select_by retry_first (due t) (deliveries e))).
Definition GetDeliveriesByAgent (agentName : string) (status : option DeliveryStatus) (limit : Z) : W (list WebhookDelivery) :=
  query EDb (fun e => page (default_limit 50 limit) 0 (select_by dv_newest
    (fun x => String.eqb (Dv_AgentName x) agentName && match status with Some st => dv_is st x | None => true end) (deliveries e))).
End Queries.

(** ** The service *)
Definition MaxWebhooksPerAgent : Z := 3.
Definition MaxDepth : Z := 5.
Definition AutoDisableThreshold : Z := 50.

Definition RecordSuccess (webhookID : Z) : W unit := ResetConsecutiveFailures webhookID.
Definition RecordFailure (webhookID : Z) : W unit :=
  let? count := IncrementConsecutiveFailures webhookID in
  if AutoDisableThreshold <=? count then UpdateWebhookStatus webhookID WebhookStatusDisabled else Ret (Ok tt).
Definition DeleteWebhook (agentName : string) (webhookID : Z) : W unit := store_DeleteWebhook webhookID agentName.

Section Service.
Context {HEng : Engine} {HNet : Network} {HSha : GoSha256} {HHmac : GoHmac} {HRate : RateLimiter}.
Context (allowHTTP allowPrivate : bool).

Definition private_text (s : string) : bool := match ParseIP s with Some ip => IsPrivateIP ip | None => false end.

Definition ValidateWebhookURL (t : Z) (rawURL : string) : option error :=
  match url_Parse rawURL with
  | None => Some (EWebhookURL "invalid URL")
  | Some (scheme, host) =>
      if negb (String.eqb scheme "https") && negb (String.eqb scheme "http" && allowHTTP) then Some (EWebhookURL "must use HTTPS")
      else if str_empty host then Some (EWebhookURL "must have a hostname")
      else if allowPrivate then None
      else match ParseIP host with
           | Some ip => if IsPrivateIP ip then Some (EWebhookURL "private network address") else None
           | None =>
               match LookupHost t host with
               | None => None
               | Some ips => if existsb private_text ips then Some (EWebhookURL "private network address") else None
               end
           end
  end.

Definition hashSecret (secret : string) : string := sha256_hex secret.

Definition RegisterWebhook (agentName url : string) (events : list string) (secret : string) : W Webhook :=
  match find (fun e => negb (IsValidEvent e)) events with
  | Some e => Ret (Err (EInvalidEvent e))
  | None =>
      if bool_decide (events = []) then Ret (Err ENoEvents)
      else
        let! t := engine_now in
        match ValidateWebhookURL t url with
        | Some err => Ret (Err err)
        | None =>
            let? count := CountWebhooksByAgent agentName in
            if MaxWebhooksPerAgent <=? count then Ret (Err (EMaxWebhooks count))
            else
              let wh id := mkWebhook id agentName url events (hashSecret secret) WebhookStatusActive 0 0 0 in
              let? id := InsertWebhook (wh 0) in
              Ret (Ok (wh id))
        end
  end.
Definition ListWebhooks (agentName : string) : W (list Webhook) := GetWebhooksByAgent agentName.
Definition GetActiveWebhooksForEvent (agentName event : string) : W (list Webhook) := GetActiveWebhooksByEvent agentName event.

(** ** Sending (security.go, delivery.go) *)
Definition ComputeHMACSignature (secret : string) (payload : DeliveryPayload) : string := "sha256=" +:+ hmac_sha256_hex secret payload.

(** The address the transport connects to: the first one the host resolves to,
    unless one of them is private. *)
Definition dial (t : Z) (host : string) : option string :=
  if allowPrivate then Some host
  else match LookupHost t host with
       | None => None
       | Some ips => if existsb private_text ips then None else Some (match ips with ip :: _ => ip | [] => host end)
       end.

(** [http.Client.Do], redirects refused. *)
Definition is_redirect (status : Z) (location : bool) : bool := bool_decide (status ∈ [301; 302; 303; 307; 308]) && location.
Definition post (wh : Webhook) (x : WebhookDelivery) : prog engine (DeliveryError + Z) :=
  match url_Parse (URL wh) with
  | None => Ret (inl BuildRequestFailed)
  | Some (_, host) =>
      let! t := engine_now in
      match dial t host with
      | None => Ret (inl HTTPRequestFailed)
      | Some addr =>
          let req := mkSent addr (URL wh) (Dv_Event x) (Dv_ID x) (Dv_Depth x + 1) (ComputeHMACSignature (SecretHash wh) (Payload x)) (Payload x) in
          Stmt (fun e => set_sent (sent e ++ [req]) e)
               (fun e => Ret (match respond req (length (sent e)) with
                              | Some (status, location) => if is_redirect status location then inl HTTPRequestFailed else inr status
                              | None => inl HTTPRequestFailed
                              end))
               (Ret (inl HTTPRequestFailed))
      end
  end.

Definition retryIntervals : list Z := [1; 5; 30].
Definition maxAttempts : Z := 3.
Definition queueSize : Z := 1000.

(** [retryIntervals[retryIdx]] for an attempt count of at least one. *)
Definition retry_interval (attempts : Z) : Z :=
  let retryIdx := attempts - 1 in
  nth (Z.to_nat (if 3 <=? retryIdx then 2 else retryIdx)) retryIntervals 0.

Definition recordFailure (x : WebhookDelivery) (wh : Webhook) (httpStatus : Z) (errMsg : DeliveryError) : prog engine unit :=
  if Attempts x <? MaxAttempts x
  then let! t := engine_now in
       let! _ := UpdateDeliveryStatus (Dv_ID x) DeliveryStatusRetrying httpStatus (Some errMsg) (Some (t + retry_interval (Attempts x))) None in
       Ret tt
  else let! _ := UpdateDeliveryStatus (Dv_ID x) DeliveryStatusDeadLettered httpStatus (Some errMsg) None None in
       let! _ := RecordFailure (Wh_ID wh) in
       Ret tt.

Definition is_success (status : Z) : bool := (200 <=? status) && (status <? 300).

Definition deliverOne (work : deliveryWork) : prog engine unit :=
  let wh := work_webhook work in
  let! allowed := Wait (Dv_AgentName (work_delivery work)) in
  match allowed with
  | Ok _ =>
      let x := with_attempts (Attempts (work_delivery work) + 1) (work_delivery work) in
      let! _ := UpdateDeliveryAttempts (Dv_ID x) (Attempts x) in
      let! answer := post wh x in
      match answer with
      | inl err => recordFailure x wh 0 err
      | inr status =>
          if is_success status then
            let! t := engine_now in
            let! _ := UpdateDeliveryStatus (Dv_ID x) DeliveryStatusDelivered status None None (Some t) in
            let! _ := RecordSuccess (Wh_ID wh) in
            Ret tt
          else recordFailure x wh status (HTTPCode status)
      end
  | _ => Ret tt
  end.

(** The channel: a send to a full queue is dropped, a receive takes the first. *)
Definition enqueue (work : deliveryWork) : prog engine unit :=
  Stmt (fun e => if Z.of_nat (length (queue e)) <? queueSize then set_queue (queue e ++ [work]) e else e) (fun _ => Ret tt) (Ret tt).
Definition receive : prog engine (option deliveryWork) :=
  Stmt (fun e => set_queue (tail (queue e)) e) (fun e => Ret (head (queue e))) (Ret None).

(** One round of a worker. *)
Definition worker_round : prog engine unit :=
  let! work := receive in
  match work with Some w => deliverOne w | None => Ret tt end.

Definition requeue (ds : list WebhookDelivery) : prog engine unit :=
  for_each ds (fun x =>
    let! wh := GetWebhookByID (WebhookID x) in
    match wh with Ok w => enqueue (mkWork x w) | _ => Ret tt end).

Definition requeuePending : prog engine unit :=
  let! pending := GetPendingDeliveries 100 in
  match pending with Ok ds => requeue ds | _ => Ret tt end.

Definition processRetries : prog engine unit :=
  let! t := engine_now in
  let! ds := GetRetryableDeliveries t 50 in
  match ds with Ok ds => requeue ds | _ => Ret tt end.

Definition purge_round : prog engine unit :=
  let! t := engine_now in
  let! _ := PurgeOldDeadLetters (t - 30 * 24 * 3600) in
  Ret tt.

(** ** Events *)
Definition new_delivery (event : MessageEvent) (t : Z) (wh : Webhook) (id : Z) : WebhookDelivery :=
  mkWebhookDelivery id (Wh_ID wh) (Wh_AgentName wh) (EventType event) (ev_Message event)
    (mkDeliveryPayload (EventType event) (ev_Message event) (ev_FromAgent event) (ev_ToAgent event) (ev_Channel event) (ev_Body event)
       (ev_Priority event) (ev_Metadata event) t)
    DeliveryStatusPending None 0 maxAttempts None None (ev_Depth event) 0 None.

Definition Dispatch (event : MessageEvent) : W unit :=
  if MaxDepth <=? ev_Depth event then Ret (Ok tt)
  else if str_empty (ev_ToAgent event) && negb (str_empty (ev_Channel event)) then Ret (Ok tt)
  else
    let? whs := GetActiveWebhooksForEvent (ev_ToAgent event) (EventType event) in
    let! t := engine_now in
    let! _ := for_each whs (fun wh =>
      let! inserted := InsertDelivery (new_delivery event t wh 0) in
      match inserted with
      | Ok id => enqueue (mkWork (new_delivery event t wh id) wh)
      | _ => Ret tt
      end) in
    Ret (Ok tt).

Definition mention_event (event : MessageEvent) (mentioned : string) : MessageEvent :=
  mkMessageEvent "message.mentioned" (ev_Message event) (ev_FromAgent event) mentioned (ev_Channel event) (ev_Body event)
    (ev_Priority event) (ev_Metadata event) (ev_Depth event) [].
Definition DispatchMentions (event : MessageEvent) : prog engine unit :=
  for_each (MentionedAgents event) (fun mentioned => let! _ := Dispatch (mention_event event mentioned) in Ret tt).
End Service.
