(* ===== verification/WebhooksSpec.v ===== *)
(** * Webhooks: addresses, registration, deliveries

    [private_ranges]: the addresses refused, as intervals.  [webhook_history]:
    what no interleaving of registrations, events, workers, retries and purges
    can break; in particular no request goes to a private address and every one
    is signed.  [deliver_one_exact], [delivery_settles]: what an undisturbed
    delivery does, and that it ends.  [WebhookRuns] has the races. *)
From S2P Require Import Prelude Prog Table Schema Messaging Attachments Reactor Webhooks.

(** ** Address ranges *)
Lemma land_mask x w k : 0 <= k <= w -> 0 <= x < 2 ^ w -> Z.land x (mask w (w - k)) = (x / 2 ^ k) * 2 ^ k.
Proof.
  intros Hk Hx. unfold mask. replace (w - (w - k)) with k by lia.
  rewrite <- Z.shiftr_div_pow2, <- Z.shiftl_mul_pow2 by lia. apply Z.bits_inj'. intros n Hn.
  rewrite Z.land_spec. destruct (Z.lt_ge_cases n k).
  - rewrite !Z.shiftl_spec_low by done. apply andb_false_r.
  - rewrite !Z.shiftl_spec by lia. rewrite Z.shiftr_spec by lia. replace (n - k + k) with n by lia.
    destruct (Z.lt_ge_cases n w).
    + rewrite Z.ones_spec_low by lia. apply andb_true_r.
    + destruct (Z.eq_dec x 0) as [->|]; [by rewrite Z.bits_0|]. rewrite (Z.bits_above_log2 x n); [done|lia|].
      apply Z.log2_lt_pow2; [lia|]. apply Z.lt_le_trans with (2 ^ w); [lia|]. apply Z.pow_le_mono_r; lia.
Qed.

Lemma in_block b x w ones k : ones = w - k -> 0 <= k <= w -> 0 <= x < 2 ^ w -> 0 <= b < 2 ^ w -> b mod 2 ^ k = 0 ->
  (Z.land b (mask w ones) =? Z.land x (mask w ones)) = (b <=? x) && (x <? b + 2 ^ k).
Proof.
  intros -> Hk Hx Hb Hm. rewrite !land_mask by done. assert (0 < 2 ^ k) as Hp by (apply Z.pow_pos_nonneg; lia).
  pose proof (Z.div_mod b (2 ^ k) ltac:(lia)) as Eb. pose proof (Z.div_mod x (2 ^ k) ltac:(lia)) as Ex.
  pose proof (Z.mod_pos_bound x (2 ^ k) Hp) as Hr. rewrite Hm in Eb.
  generalize dependent (x mod 2 ^ k). generalize dependent (x / 2 ^ k). generalize dependent (b / 2 ^ k). intros qb Eb qx r Ex Hr.
  apply eq_iff_eq_true. rewrite Z.eqb_eq, andb_true_iff, Z.leb_le, Z.ltb_lt. rewrite Eb, Ex. split.
  - intros E. nia.
  - intros [H1 H2]. assert (qb = qx) as -> by nia. done.
Qed.

(** The addresses the engine refuses to connect to are exactly the IPv4
    blocks 10.0.0.0 to 10.255.255.255, 172.16.0.0 to 172.31.255.255,
    192.168.0.0 to 192.168.255.255, 127.0.0.0 to 127.255.255.255 and
    169.254.0.0 to 169.254.255.255, and the IPv6 addresses ::1, fc00:: to
    fdff:..., and fe80:: to febf:.... *)
Theorem private_ranges (ip : IP)
  (Hw : match ip with IPv4 x => 0 <= x < 2 ^ 32 | IPv6 x => 0 <= x < 2 ^ 128 end) :
  IsPrivateIP ip = true <->
  match ip with
  | IPv4 x => v4 10 0 0 0 <= x <= v4 10 255 255 255 \/ v4 172 16 0 0 <= x <= v4 172 31 255 255 \/
      v4 192 168 0 0 <= x <= v4 192 168 255 255 \/ v4 127 0 0 0 <= x <= v4 127 255 255 255 \/ v4 169 254 0 0 <= x <= v4 169 254 255 255
  | IPv6 x => x = 1 \/ 0xfc00 * 2 ^ 112 <= x < 0xfe00 * 2 ^ 112 \/ 0xfe80 * 2 ^ 112 <= x < 0xfec0 * 2 ^ 112
  end.
Proof.
  unfold IsPrivateIP, privateRanges. cbn [existsb]. unfold net_Contains. cbn [net_base net_ones]. rewrite !orb_true_iff. destruct ip as [x|x].
  - rewrite (in_block (v4 10 0 0 0) x 32 8 24), (in_block (v4 172 16 0 0) x 32 12 20), (in_block (v4 192 168 0 0) x 32 16 16),
      (in_block (v4 127 0 0 0) x 32 8 24), (in_block (v4 169 254 0 0) x 32 16 16) by (done || (unfold v4; lia)).
    rewrite !andb_true_iff, !Z.leb_le, !Z.ltb_lt. unfold v4. change (2 ^ 24) with 16777216. change (2 ^ 20) with 1048576. change (2 ^ 16) with 65536.
    split; intros H; repeat (destruct H as [H|H]; try done; try lia).
  - rewrite (in_block 1 x 128 128 0), (in_block (0xfc00 * 2 ^ 112) x 128 7 121), (in_block (0xfe80 * 2 ^ 112) x 128 10 118) by (done || lia).
    rewrite !andb_true_iff, !Z.leb_le, !Z.ltb_lt. split; intros H; repeat (destruct H as [H|H]; try done; try lia).
Qed.

Section Spec.
Context {HEng : Engine} {HNet : Network} {HSha : GoSha256} {HHmac : GoHmac} {HRate : RateLimiter}.
Context (allowHTTP allowPrivate : bool).

(** ** The invariant *)
Definition webhook_ok (w : Webhook) : Prop :=
  Events w <> [] /\ Forall (fun x => IsValidEvent x = true) (Events w) /\ (exists secret, SecretHash w = sha256_hex secret) /\
  exists t, ValidateWebhookURL allowHTTP allowPrivate t (URL w) = None.

Definition delivery_ok (x : WebhookDelivery) : Prop :=
  0 <= Attempts x /\ MaxAttempts x = 3 /\ Dv_Depth x < MaxDepth /\ IsValidEvent (Dv_Event x) = true /\ p_Event (Payload x) = Dv_Event x /\
  (Dv_Status x = DeliveryStatusRetrying -> is_Some (NextRetryAt x)) /\
  (Dv_Status x = DeliveryStatusDelivered -> is_Some (DeliveredAt x) /\ exists s, HTTPStatus x = Some s /\ is_success s = true).

Definition work_ok (w : deliveryWork) : Prop := delivery_ok (work_delivery w) /\ webhook_ok (work_webhook w).

(** Every request went to a public address (unless private ones are allowed),
    signed with the digest of a secret. *)
Definition public_address (a : string) : Prop :=
  allowPrivate = true \/
  exists t host ips, LookupHost t host = Some ips /\ Forall (fun ip => private_text ip = false) ips /\ (a ∈ ips \/ (ips = [] /\ a = host)).
Definition sent_ok (s : sent_request) : Prop :=
  public_address (sent_Address s) /\
  (exists secret, sent_Signature s = ComputeHMACSignature (sha256_hex secret) (sent_Payload s)) /\
  IsValidEvent (sent_Event s) = true /\ sent_Depth s <= MaxDepth /\ p_Event (sent_Payload s) = sent_Event s.

Definition endpoint (w : Webhook) : string * string := (Wh_AgentName w, URL w).

Definition engine_ok (e : engine) : Prop :=
  table_ok (webhooks e) /\ NoDup (endpoint <$> rows (webhooks e)) /\ (forall w, w ∈ rows (webhooks e) -> webhook_ok w) /\
  table_ok (deliveries e) /\ (forall x, x ∈ rows (deliveries e) -> delivery_ok x) /\
  (forall x, x ∈ rows (deliveries e) -> exists w, w ∈ rows (webhooks e) /\ Wh_ID w = WebhookID x) /\
  (Z.of_nat (length (queue e)) <= queueSize /\ Forall work_ok (queue e)) /\ Forall sent_ok (sent e).

(** A delivery keeps what it delivers and to whom; nothing sent is unsent. *)
Definition same_delivery (x x' : WebhookDelivery) : Prop :=
  Dv_ID x' = Dv_ID x /\ WebhookID x' = WebhookID x /\ Dv_AgentName x' = Dv_AgentName x /\ Dv_Event x' = Dv_Event x /\
  Dv_MessageID x' = Dv_MessageID x /\ Payload x' = Payload x /\ Dv_Depth x' = Dv_Depth x /\ Dv_CreatedAt x' = Dv_CreatedAt x.
Definition engine_after (e e' : engine) : Prop :=
  sent e `prefix_of` sent e' /\ next_id (deliveries e) <= next_id (deliveries e') /\
  forall x', x' ∈ rows (deliveries e') -> next_id (deliveries e) <= Dv_ID x' \/ exists x, x ∈ rows (deliveries e) /\ same_delivery x x'.

Lemma same_delivery_refl x : same_delivery x x.
Proof. by repeat split. Qed.

Lemma engine_after_same e e' : sent e `prefix_of` sent e' -> deliveries e' = deliveries e -> engine_after e e'.
Proof.
  intros H E. split; [done|]. rewrite E. split; [lia|]. intros x Hx. right. exists x. split; [done|apply same_delivery_refl].
Qed.

#[export] Instance engine_after_preorder : PreOrder engine_after.
Proof.
  split; [intros e; by apply engine_after_same|]. intros a b c (S1&N1&H1) (S2&N2&H2). split_and!; [by etrans|lia|].
  intros x Hx. destruct (H2 x Hx) as [?|(y&Hy&E)]; [left; lia|]. destruct E as (E1&E2&E3&E4&E5&E6&E7&E8).
  destruct (H1 y Hy) as [?|(z&Hz&F1&F2&F3&F4&F5&F6&F7&F8)]; [left; lia|]. right. exists z. split; [done|]. split_and!; congruence.
Qed.

Definition engine_step (e e' : engine) : Prop := engine_ok e -> engine_ok e' /\ engine_after e e'.
#[export] Instance engine_step_preorder : PreOrder engine_step.
Proof.
  split; [intros e H; by split|]. intros a b c H1 H2 H. destruct (H1 H) as [Hb Ha]. destruct (H2 Hb) as [Hc Hb']. split; [done|by etrans].
Qed.

Abbreviation guar := (rg engine_ok engine_after).

Lemma rg_within {A} (p : prog engine A) e0 : within engine_step p -> guar p (fun _ _ => True) e0.
Proof. apply (within_rg _ _ engine_step). intros e e' HI H. by apply H. Qed.

Lemma rg_worker_then {A B} (p : prog engine A) (f : A -> prog engine B) (P : A -> Prop) Q e0 : engine_ok e0 ->
  guar p (fun a _ => P a) e0 -> (forall a e, engine_ok e -> P a -> guar (f a) Q e) -> guar (bind p f) Q e0.
Proof.
  intros HI Hp Hf. apply rg_bind; [apply _|done|]. eapply rg_mono; [|exact Hp]. intros a e He HP. by apply Hf.
Qed.

Lemma rg_next {A B} (p : prog engine A) (f : A -> prog engine B) Q e0 : engine_ok e0 ->
  within engine_step p -> (forall a e, engine_ok e -> guar (f a) Q e) -> guar (bind p f) Q e0.
Proof. intros HI Hp Hf. apply (rg_worker_then p f (fun _ => True)); [done|by apply rg_within|]. intros a e He _. by apply Hf. Qed.

(** ** Steps on the tables *)
Lemma webhooks_step p f e :
  (forall w, webhook_ok w -> webhook_ok (f w) /\ Wh_ID (f w) = Wh_ID w /\ endpoint (f w) = endpoint w) ->
  engine_step e (set_webhooks (update_rows p f (webhooks e)) e).
Proof.
  intros Hf (H1&H2&H3&H4&H5&H6&H7&H8). split; [|by apply engine_after_same].
  assert (forall (A : Type) (g : Webhook -> A), (forall w, webhook_ok w -> g (f w) = g w) ->
    g <$> rows (update_rows p f (webhooks e)) = g <$> rows (webhooks e)) as Hg.
  { intros A g Hgf. simpl. unfold map_if. rewrite <- list_fmap_compose. apply list_fmap_ext. intros i w Hi. simpl.
    destruct (p w); [|done]. apply Hgf, H3. by eapply list_elem_of_lookup_2. }
  assert (Wh_ID <$> rows (update_rows p f (webhooks e)) = Wh_ID <$> rows (webhooks e)) as Eid by (apply Hg; intros w Hw; by apply Hf).
  unfold engine_ok. cbn [webhooks deliveries queue sent set_webhooks]. split_and!; try done; try apply H7.
  - split; [unfold row_id, Webhook_row; rewrite Eid; apply H1|]. intros w (w0&Hw0&->)%elem_of_map_if.
    destruct (p w0); [|by apply H1]. unfold row_id, Webhook_row. rewrite (proj1 (proj2 (Hf w0 (H3 w0 Hw0)))). by apply H1.
  - rewrite Hg; [done|]. intros w Hw. by apply Hf.
  - intros w (w0&Hw0&->)%elem_of_map_if. destruct (p w0); [by apply Hf, H3|by apply H3].
  - intros x Hx. destruct (H6 x Hx) as (w&Hw&E). exists (if p w then f w else w). split; [apply elem_of_map_if; by exists w|].
    destruct (p w); [|done]. rewrite <- E. by apply Hf, H3.
Qed.

Lemma deliveries_step p f e :
  (forall x, delivery_ok x -> delivery_ok (f x) /\ same_delivery x (f x)) ->
  engine_step e (set_deliveries (update_rows p f (deliveries e)) e).
Proof.
  intros Hf (H1&H2&H3&H4&H5&H6&H7&H8).
  assert (forall x, x ∈ rows (update_rows p f (deliveries e)) -> exists x0, x0 ∈ rows (deliveries e) /\ delivery_ok x /\ same_delivery x0 x) as Hrow.
  { intros x (x0&Hx0&->)%elem_of_map_if. exists x0. split; [done|]. destruct (p x0); [by apply Hf, H5|]. split; [by apply H5|apply same_delivery_refl]. }
  assert (Dv_ID <$> rows (update_rows p f (deliveries e)) = Dv_ID <$> rows (deliveries e)) as Eid.
  { simpl. unfold map_if. rewrite <- list_fmap_compose. apply list_fmap_ext. intros i x Hi. simpl. destruct (p x); [|done].
    by apply Hf, H5, (list_elem_of_lookup_2 _ i). }
  split.
  - unfold engine_ok. cbn [webhooks deliveries queue sent set_deliveries]. split_and!; try done; try apply H7.
    + split; [unfold row_id, WebhookDelivery_row; rewrite Eid; apply H4|]. intros x Hx. destruct (Hrow x Hx) as (x0&Hx0&_&E).
      unfold row_id, WebhookDelivery_row. rewrite (proj1 E). by apply H4.
    + intros x Hx. by destruct (Hrow x Hx) as (x0&_&?&_).
    + intros x Hx. destruct (Hrow x Hx) as (x0&Hx0&_&E). destruct (H6 x0 Hx0) as (w&?&?). exists w. split; [done|]. destruct E as (_&E&_). congruence.
  - split_and!; [done|simpl; lia|]. intros x Hx. right. destruct (Hrow x Hx) as (x0&?&_&?). by exists x0.
Qed.

Lemma delete_step p e : engine_step e (set_deliveries (delete_rows p (deliveries e)) e).
Proof.
  intros (H1&H2&H3&H4&H5&H6&H7&H8). split.
  - unfold engine_ok. cbn [webhooks deliveries queue sent set_deliveries]. split_and!; try done; try apply H7; [by apply table_ok_delete| |];
      intros x [_ Hx]%elem_of_delete_rows; auto.
  - split_and!; [done|simpl; lia|]. intros x [_ Hx]%elem_of_delete_rows. right. exists x. split; [done|apply same_delivery_refl].
Qed.

Lemma insert_webhook_step w e : webhook_ok w ->
  engine_step e (if affected (same_endpoint (Wh_AgentName w) (URL w)) (webhooks e) =? 0
                 then set_webhooks (insert_row (webhook_row w (now e)) (webhooks e)) e else e).
Proof.
  intros Hw. destruct (Z.eqb_spec (affected (same_endpoint (Wh_AgentName w) (URL w)) (webhooks e)) 0) as [E|]; [|reflexivity].
  intros (H1&H2&H3&H4&H5&H6&H7&H8). split; [|by apply engine_after_same].
  unfold engine_ok. cbn [webhooks deliveries queue sent set_webhooks]. split_and!; try done; try apply H7.
  - by apply table_ok_insert.
  - cbn [insert_row rows]. rewrite fmap_app. apply NoDup_app. split_and!; [done| |apply NoDup_singleton].
    intros y Hy Hy2. apply list_elem_of_singleton in Hy2. subst y. apply list_elem_of_fmap in Hy as (w0&E0&Hw0).
    unfold affected in E. rewrite count_if_0 in E. specialize (E w0 Hw0). unfold same_endpoint in E.
    injection E0 as Ea Eu. rewrite <- Ea, <- Eu, !String.eqb_refl in E. done.
  - intros w0 [?| ->%list_elem_of_singleton]%elem_of_app; [by apply H3|]. destruct Hw as (?&?&?&?). by split_and!.
  - intros x Hx. destruct (H6 x Hx) as (w0&?&?). exists w0. split; [|done]. apply elem_of_app. by left.
Qed.

Lemma delete_webhook_step id a e :
  engine_step e (if affected (owned_webhook id a) (webhooks e) =? 0 then e
                 else set_deliveries (delete_rows (fun x => WebhookID x =? id) (deliveries e))
                        (set_webhooks (delete_rows (owned_webhook id a) (webhooks e)) e)).
Proof.
  destruct (_ =? 0); [reflexivity|]. intros (H1&H2&H3&H4&H5&H6&H7&H8). split.
  - unfold engine_ok. cbn [webhooks deliveries queue sent set_webhooks set_deliveries]. split_and!; try done; try apply H7.
    + by apply table_ok_delete.
    + eapply sublist_NoDup; [exact H2|]. apply fmap_sublist, sublist_filter.
    + intros w [_ Hw]%elem_of_delete_rows. by apply H3.
    + by apply table_ok_delete.
    + intros x [_ Hx]%elem_of_delete_rows. by apply H5.
    + intros x [Hne Hx]%elem_of_delete_rows. destruct (H6 x Hx) as (w&Hw&E). exists w. split; [|done]. apply elem_of_delete_rows. split; [|done].
      unfold owned_webhook, by_id, row_id, Webhook_row. rewrite E, Hne. done.
  - split_and!; [done|simpl; lia|]. intros x [_ Hx]%elem_of_delete_rows. right. exists x. split; [done|apply same_delivery_refl].
Qed.

Lemma delivery_row_ok x t id : delivery_ok x -> delivery_ok (delivery_row x t id).
Proof. done. Qed.

Lemma insert_delivery_step x e : delivery_ok x ->
  engine_step e (if affected (by_id (WebhookID x)) (webhooks e) =? 0 then e
                 else set_deliveries (insert_row (delivery_row x (now e)) (deliveries e)) e).
Proof.
  intros Hx. destruct (Z.eqb_spec (affected (by_id (WebhookID x)) (webhooks e)) 0) as [|Hn]; [reflexivity|].
  intros (H1&H2&H3&H4&H5&H6&H7&H8). split.
  - unfold engine_ok. cbn [webhooks deliveries queue sent set_deliveries]. split_and!; try done; try apply H7; [by apply table_ok_insert| |].
    + intros y [?| ->%list_elem_of_singleton]%elem_of_app; [by apply H5|by apply delivery_row_ok].
    + intros y [?| ->%list_elem_of_singleton]%elem_of_app; [by apply H6|]. cbn [WebhookID delivery_row].
      pose proof (affected_find (by_id (WebhookID x)) (webhooks e)) as E. rewrite (proj2 (Z.eqb_neq _ _) Hn) in E.
      destruct (find_row (by_id (WebhookID x)) (webhooks e)) as [w|] eqn:Ew; [|done]. apply find_row_Some in Ew as [Hb Hw].
      exists w. split; [done|]. by apply Z.eqb_eq in Hb.
  - split_and!; [done|simpl; lia|]. intros y [?| ->%list_elem_of_singleton]%elem_of_app; [right; exists y; split; [done|apply same_delivery_refl]|].
    left. simpl. lia.
Qed.

Lemma queue_step q e : (Z.of_nat (length q) <= queueSize /\ Forall work_ok q) -> engine_step e (set_queue q e).
Proof. intros Hq (H1&H2&H3&H4&H5&H6&H7&H8). split; [|by apply engine_after_same]. exact (conj H1 (conj H2 (conj H3 (conj H4 (conj H5 (conj H6 (conj Hq H8))))))). Qed.

Lemma sent_step s e : sent_ok s -> engine_step e (set_sent (sent e ++ [s]) e).
Proof.
  intros Hs (H1&H2&H3&H4&H5&H6&H7&H8). split; [|apply engine_after_same; [by apply prefix_app_r|done]].
  unfold engine_ok. cbn [webhooks deliveries queue sent set_sent]. split_and!; try done; try apply H7. apply Forall_app. split; [done|]. by apply Forall_singleton.
Qed.

(** ** The calls *)
Lemma within_read {B} (err : error) (ans : engine -> B) : within engine_step (query err ans).
Proof. apply within_query. apply _. Qed.

Lemma within_update id f : (forall x, delivery_ok x -> delivery_ok (f x) /\ same_delivery x (f x)) -> within engine_step (update_delivery id f).
Proof. intros Hf. apply within_exec_o. intros e. by apply deliveries_step. Qed.

Lemma within_status id st code err retry at_ :
  (st = DeliveryStatusRetrying -> is_Some retry) -> (st = DeliveryStatusDelivered -> is_Some at_ /\ is_success code = true) ->
  within engine_step (UpdateDeliveryStatus id st code err retry at_).
Proof.
  intros Hr Hd. apply within_update. intros x (?&?&?&?&?&_&_). split; [|by repeat split]. split_and!; [done..|].
  intros E. simpl in E. destruct (Hd E) as [Ha Hc]. split; [done|]. exists code. split; [|done]. cbn [HTTPStatus with_dv_status]. unfold some_nonzero.
  destruct (Z.eqb_spec code 0) as [->|]; [|done]. by vm_compute in Hc.
Qed.

Lemma within_attempts id n : 0 <= n -> within engine_step (UpdateDeliveryAttempts id n).
Proof. intros Hn. apply within_update. intros x (?&?&?&?&?&?&?). split; [by split_and!|by repeat split]. Qed.

Lemma within_failures id f : (forall e w, Wh_ID (f e w) = Wh_ID w /\ endpoint (f e w) = endpoint w /\ Events (f e w) = Events w /\ SecretHash (f e w) = SecretHash w) ->
  forall (B : Type) (ans : engine -> B) err, within engine_step (exec (E := error) err (fun e => set_webhooks (update_rows (by_id id) (f e) (webhooks e)) e) ans).
Proof.
  intros Hf B ans err. apply within_exec. intros e. apply webhooks_step. intros w (?&?&?&?). destruct (Hf e w) as (?&E&E2&E3).
  split; [|done]. unfold webhook_ok. rewrite E2, E3. injection E as _ ->. done.
Qed.

Lemma within_RecordFailure id : within engine_step (RecordFailure id).
Proof.
  apply within_bind_ok.
  - apply within_bind_ok; [by apply (within_failures id (fun e w => with_failures (ConsecutiveFailures w + 1) (now e) w))|].
    intros []. apply within_query_o. apply _.
  - intros n. destruct (_ <=? _); [|done]. apply within_exec_o. intros e. apply webhooks_step. intros w Hw. by split.
Qed.

Lemma within_delivery_failure x wh code err : within engine_step (recordFailure x wh code err).
Proof.
  unfold recordFailure. destruct (_ <? _).
  - apply within_bind; [done|]. intros t. apply within_bind; [|done]. apply within_status; [by eexists|done].
  - apply within_bind; [by apply within_status|]. intros _. by apply within_bind; [apply within_RecordFailure|].
Qed.

Lemma dial_public t host a : dial allowPrivate t host = Some a -> public_address a.
Proof.
  unfold dial, public_address. destruct allowPrivate eqn:Ep; [by left|]. destruct (LookupHost t host) as [ips|] eqn:E; [|done].
  destruct (existsb private_text ips) eqn:Ex; [done|]. intros [= Ha]. right. exists t, host, ips. split; [done|]. split.
  - apply Forall_forall. by apply existsb_none.
  - destruct ips as [|ip ips]; [by right|]. left. subst a. by left.
Qed.

Lemma within_post wh x : webhook_ok wh -> delivery_ok x -> within engine_step (post allowPrivate wh x).
Proof.
  intros (_&_&[secret Es]&_) (_&_&Hd&Hv&Hp&_). unfold post. destruct (url_Parse (URL wh)) as [[scheme host]|]; [|done].
  apply within_bind; [done|]. intros t. destruct (dial allowPrivate t host) as [a|] eqn:Ea; [|done]. split; [|done]. intros e'. split; [|done]. apply sent_step.
  split_and!; [by eapply dial_public| |done|simpl; lia|done]. exists secret. simpl. by rewrite Es.
Qed.

Lemma within_deliverOne w : work_ok w -> within engine_step (deliverOne allowPrivate w).
Proof.
  intros [Hx Hw]. unfold deliverOne. apply within_bind; [eapply within_mono; [|apply Wait_frame]; by intros e e' ->|].
  intros [[]|err|p]; [|done..]. cbv zeta. pose proof Hx as (Ha&Hx').
  apply within_bind; [apply within_attempts; simpl; lia|]. intros _. apply within_bind.
  - apply within_post; [done|]. split; [simpl; lia|exact Hx'].
  - intros [err|status]; [apply within_delivery_failure|]. destruct (is_success status) eqn:Es; [|apply within_delivery_failure].
    apply within_bind; [done|]. intros t. apply within_bind; [apply within_status; [done|intros _; split; [by eexists|done]]|]. intros _. apply within_bind; [|done].
    by apply (within_failures (Wh_ID (work_webhook w)) (fun e w => with_failures 0 (now e) w)).
Qed.

Lemma within_enqueue w : work_ok w -> within engine_step (enqueue w).
Proof.
  intros Hw. split; [|done]. intros e. split; [|done]. destruct (Z.ltb_spec (Z.of_nat (length (queue e))) queueSize); [|reflexivity].
  intros He. apply queue_step; [|done]. rewrite length_app. cbn [length]. split; [lia|]. apply Forall_app. split; [apply He|by apply Forall_singleton].
Qed.

Lemma rg_receive e0 : guar receive (fun o _ => forall w, o = Some w -> work_ok w) e0.
Proof.
  intros e _ He. destruct He as (H1&H2&H3&H4&H5&H6&H7&H8) eqn:EHe. clear EHe. split.
  - destruct (queue_step (tail (queue e)) e) as [H _]; [|done|done]. destruct H7 as [Hl Hq]. destruct (queue e) as [|w q]; [done|].
    apply Forall_cons in Hq as [_ Hq]. simpl in *. split; [lia|done].
  - split; [by apply engine_after_same|]. split; [|done]. intros e' _ _ w E. destruct (queue e) as [|w' q]; [done|]. injection E as ->.
    destruct H7 as [_ Hq]. by apply Forall_cons in Hq as [? _].
Qed.

Lemma rg_worker_round e0 : engine_ok e0 -> guar (worker_round allowPrivate) (fun _ _ => True) e0.
Proof.
  intros He. apply (rg_worker_then _ _ (fun o => forall w, o = Some w -> work_ok w)); [done|apply rg_receive|].
  intros [w|] e He' Hw; [|done]. by apply rg_within, within_deliverOne, Hw.
Qed.

(** A value read from the tables: what is true of every row is true of it. *)
Lemma rg_read {B} (err : error) (ans : engine -> B) (P : B -> Prop) e0 :
  (forall e, engine_ok e -> P (ans e)) -> guar (query err ans) (fun o _ => forall b, o = Ok b -> P b) e0.
Proof. intros H. apply rg_query; [apply _|]. intros e e' _ He _ _. split; [|done]. intros b [= <-]. by apply H. Qed.

Lemma rg_webhook id e0 : guar (GetWebhookByID id) (fun o _ => forall w, o = Ok w -> webhook_ok w) e0.
Proof.
  apply rg_query_o; [apply _|]. intros e e' _ He _ _. split; [|done]. intros w E. destruct (find_id id (webhooks e)) as [w'|] eqn:Ef; [|done].
  injection E as ->. apply find_id_Some in Ef as [_ Hw]. by apply He.
Qed.

Lemma rg_requeue ds e0 : engine_ok e0 -> Forall delivery_ok ds -> guar (requeue ds) (fun _ _ => True) e0.
Proof.
  intros He Hds. apply rg_for_each; [apply _|done| |done]. intros x e Hx _ HIe.
  apply (rg_worker_then _ _ (fun o => forall w, o = Ok w -> webhook_ok w)); [done|apply rg_webhook|].
  intros [w|err|p] e' He' Hw; [|done..]. apply rg_within, within_enqueue. split; [by eapply Forall_forall in Hds|by apply Hw].
Qed.

Lemma page_rows_ok (l : list WebhookDelivery) n e : (forall x, x ∈ l -> x ∈ rows (deliveries e)) -> engine_ok e -> Forall delivery_ok (page n 0 l).
Proof. intros Hl He. apply Forall_forall. intros x Hx%elem_of_page. by apply He, Hl. Qed.

Lemma rg_requeuePending e0 : engine_ok e0 -> guar requeuePending (fun _ _ => True) e0.
Proof.
  intros He. apply (rg_worker_then _ _ (fun o => forall ds, o = Ok ds -> Forall delivery_ok ds)); [done| |].
  - apply rg_read. intros e He'. apply (page_rows_ok _ _ e); [|done]. intros x Hx. by apply elem_of_select_by in Hx as [_ ?].
  - intros [ds|err|p] e He' Hds; [|done..]. apply rg_requeue; [done|by apply Hds].
Qed.

Lemma rg_processRetries e0 : engine_ok e0 -> guar processRetries (fun _ _ => True) e0.
Proof.
  intros He. apply rg_next; [done|done|]. intros t e1 He1. apply (rg_worker_then _ _ (fun o => forall ds, o = Ok ds -> Forall delivery_ok ds)); [done| |].
  - apply rg_read. intros e He'. apply (page_rows_ok _ _ e); [|done]. intros x Hx. by apply elem_of_select_by in Hx as [_ ?].
  - intros [ds|err|p] e He' Hds; [|done..]. apply rg_requeue; [done|by apply Hds].
Qed.

Lemma subscribed_valid event w : webhook_ok w -> subscribed event w = true -> IsValidEvent event = true.
Proof.
  intros (_&Hv&_) Hs. unfold subscribed in Hs. apply existsb_some in Hs as (x&Hx&E%String.eqb_eq). subst x.
  by eapply Forall_forall in Hv.
Qed.

Lemma new_delivery_ok event t wh id : ev_Depth event < MaxDepth -> IsValidEvent (EventType event) = true -> delivery_ok (new_delivery event t wh id).
Proof. intros Hd Hv. by split_and!. Qed.

Lemma rg_Dispatch event e0 : engine_ok e0 -> guar (Dispatch event) (fun _ _ => True) e0.
Proof.
  intros He. unfold Dispatch. destruct (Z.leb_spec MaxDepth (ev_Depth event)); [done|]. destruct (_ && _); [done|].
  apply (rg_worker_then _ _ (fun o => forall ws, o = Ok ws -> Forall (fun w => webhook_ok w /\ subscribed (EventType event) w = true) ws)); [done| |].
  - apply (rg_worker_then _ _ (fun o => forall ws, o = Ok ws -> Forall webhook_ok ws)); [done| |].
    + apply rg_read. intros e He'. apply Forall_forall. intros w Hw. apply elem_of_select_by in Hw as [_ Hw]. by apply He'.
    + intros [ws|err|p] e He' Hws; [|done..]. intros e' _ _ ws' [= <-]. apply Forall_forall. intros w. rewrite list_elem_of_filter.
      intros [Hs Hw]. split; [|done]. specialize (Hws ws eq_refl). by eapply Forall_forall in Hws.
  - intros [ws|err|p] e He' Hws; [|done..]. specialize (Hws ws eq_refl). apply rg_next; [done|done|]. intros t e1 He1.
    apply (rg_worker_then _ _ (fun _ => True)); [done| |done]. apply rg_for_each; [apply _|done| |done].
    intros w e2 Hw _ He2. eapply Forall_forall in Hws as [Hwo Hs]; [|done].
    assert (IsValidEvent (EventType event) = true) as Hv by (by eapply subscribed_valid).
    apply rg_next; [done|apply within_exec_o; intros e3; apply insert_delivery_step, new_delivery_ok; [done|done]|].
    intros [id|err|p] e3 He3; [|done..]. apply rg_within, within_enqueue. split; [by apply new_delivery_ok|done].
Qed.

Lemma rg_RegisterWebhook agentName url events secret e0 : engine_ok e0 ->
  guar (RegisterWebhook allowHTTP allowPrivate agentName url events secret) (fun o _ => forall w, o = Ok w -> webhook_ok w) e0.
Proof.
  intros He. unfold RegisterWebhook. destruct (find _ events) as [x|] eqn:Ef; [done|]. case_bool_decide as Ene; [done|]. apply rg_next; [done|done|]. intros t e He1.
  destruct (ValidateWebhookURL allowHTTP allowPrivate t url) as [err|] eqn:Ev; [done|].
  assert (forall id, webhook_ok (mkWebhook id agentName url events (hashSecret secret) WebhookStatusActive 0 0 0)) as Hok.
  { intros id. split_and!; [done| |by eexists|by eexists]. apply Forall_forall. intros x Hx%list_elem_of_In.
    pose proof (find_none _ _ Ef x Hx) as H. by apply negb_false_iff in H. }
  apply rg_next; [done|apply within_read|]. intros [n|err|p] e2 He2; [|done..]. destruct (_ <=? _); [done|].
  apply rg_next; [done|apply within_exec_o; intros e3; apply insert_webhook_step, (Hok 0)|].
  intros [id|err|p] e3 He3; [|done..]. intros e4 _ _ w [= <-]. apply Hok.
Qed.

(** ** Histories *)
Inductive webhook_call :=
| CallRegister (agentName url : string) (events : list string) (secret : string)
| CallDelete (agentName : string) (webhookID : Z)
| CallList (agentName : string)
| CallDispatch (event : MessageEvent)
| CallMentions (event : MessageEvent)
| CallWorker
| CallRetries
| CallRequeue
| CallPurge.

Inductive webhook_answer := AnsRegister (o : outcome error Webhook) | AnsOther.

Definition webhook_prog (c : webhook_call) : prog engine webhook_answer :=
  match c with
  | CallRegister a u es s => let! o := RegisterWebhook allowHTTP allowPrivate a u es s in Ret (AnsRegister o)
  | CallDelete a id => let! _ := DeleteWebhook a id in Ret AnsOther
  | CallList a => let! _ := ListWebhooks a in Ret AnsOther
  | CallDispatch ev => let! _ := Dispatch ev in Ret AnsOther
  | CallMentions ev => let! _ := DispatchMentions ev in Ret AnsOther
  | CallWorker => let! _ := worker_round allowPrivate in Ret AnsOther
  | CallRetries => let! _ := processRetries in Ret AnsOther
  | CallRequeue => let! _ := requeuePending in Ret AnsOther
  | CallPurge => let! _ := purge_round in Ret AnsOther
  end.

Definition registered_ok (a : webhook_answer) : Prop := forall w, a = AnsRegister (Ok w) -> webhook_ok w.

(** Time passes. *)
Definition passes (e e' : engine) : Prop := exists s, 0 <= s /\ e' = set_now (now e + s) e.

Lemma webhook_prog_ok c e0 : engine_ok e0 -> guar (webhook_prog c) (fun a _ => registered_ok a) e0.
Proof.
  intros He. assert (forall (p : prog engine unit), guar p (fun _ _ => True) e0 -> guar (let! _ := p in Ret AnsOther) (fun a _ => registered_ok a) e0) as Hunit.
  { intros p Hp. apply (rg_worker_then _ _ (fun _ => True)); [done|done|]. intros a e _ _ e' _ _ w. done. }
  assert (forall A (p : prog engine A), guar p (fun _ _ => True) e0 -> guar (let! _ := p in Ret AnsOther) (fun a _ => registered_ok a) e0) as Hany.
  { intros A p Hp. apply (rg_worker_then _ _ (fun _ => True)); [done|done|]. intros a e _ _ e' _ _ w. done. }
  destruct c as [a u es s|a id|a|ev|ev| | | |]; cbn [webhook_prog].
  - apply (rg_worker_then _ _ (fun o => forall w, o = Ok w -> webhook_ok w)); [done|by apply rg_RegisterWebhook|].
    intros o e _ Ho e' _ _ w [= ->]. by apply Ho.
  - apply Hany, rg_within, within_exec_o. intros e. apply delete_webhook_step.
  - apply Hany, rg_within, within_read.
  - by apply Hany, rg_Dispatch.
  - apply Hunit, rg_for_each; [apply _|done| |done]. intros m e _ _ HIe. apply (rg_worker_then _ _ (fun _ => True)); [done|by apply rg_Dispatch|done].
  - by apply Hunit, rg_worker_round.
  - by apply Hunit, rg_processRetries.
  - by apply Hunit, rg_requeuePending.
  - apply Hunit, rg_within. apply within_bind; [done|]. intros t. apply within_bind; [apply within_exec; intros e1; apply delete_step|done].
Qed.

(** C27. However registrations, deletions, events, mentions, workers, retry
    polls, re-queuing and purges interleave, with any statement failing, time
    passing, and the network answering anything: endpoints stay unique per
    agent, with valid events and a URL that passed the check; every delivery
    belongs to a webhook, keeps its payload, and its status is consistent; the
    queue stays within its size; every request that leaves is signed with the
    digest of a secret, is no deeper than the limit, and, unless private
    networks are allowed, went to an address of a host that resolved to public
    addresses only. *)
Theorem webhook_history (cs : list webhook_call) (e : engine) ps (e' : engine)
  (Hinit : engine_ok e) (Hrun : rtc (pool_step passes) (webhook_prog <$> cs, e) (ps, e')) :
  engine_ok e' /\ engine_after e e' /\ forall i a, ps !! i = Some (Ret a) -> registered_ok a.
Proof.
  destruct (pool_invariant engine_ok engine_after passes
    ltac:(intros x y Hx [s [Hs ->]]; split; [exact Hx|by apply engine_after_same])
    (webhook_prog <$> cs) ps (fun _ a _ => registered_ok a) e e') with (2 := Hinit) (3 := Hrun) as (H1&H2&H3); [|done].
  intros i p Hp. rewrite list_lookup_fmap in Hp. destruct (cs !! i) as [c|]; [|done]. injection Hp as <-. by apply webhook_prog_ok.
Qed.

(** ** One call at a time *)

(** Whatever fails, a registration is refused and changes nothing, or adds
    exactly one active webhook with no failures, for valid events (one at
    least), a URL that passed the check, a new endpoint, and an agent that had
    fewer than three. *)
Theorem register_webhook_effect (agentName url : string) (events : list string) (secret : string) (e : engine) :
  wp (RegisterWebhook allowHTTP allowPrivate agentName url events secret) (fun o e' =>
    match o with
    | Ok w =>
        events <> [] /\ Forall (fun x => IsValidEvent x = true) events /\ ValidateWebhookURL allowHTTP allowPrivate (now e) url = None /\
        affected (fun w => String.eqb (Wh_AgentName w) agentName) (webhooks e) < MaxWebhooksPerAgent /\
        affected (same_endpoint agentName url) (webhooks e) = 0 /\
        w = mkWebhook (next_id (webhooks e)) agentName url events (sha256_hex secret) WebhookStatusActive 0 0 0 /\
        e' = set_webhooks (insert_row (webhook_row w (now e)) (webhooks e)) e
    | Err _ => e' = e
    | Panic _ => False
    end) e.
Proof.
  unfold RegisterWebhook. destruct (find _ events) as [x|] eqn:Ef; [done|]. case_bool_decide as Ene; [done|].
  apply wp_bind. cbn [wp engine_now]. destruct (ValidateWebhookURL allowHTTP allowPrivate (now e) url) as [err|] eqn:Ev; [done|].
  apply wp_bind_ok. unfold CountWebhooksByAgent, query. cbn [wp exec]. split; [|done].
  destruct (Z.leb_spec MaxWebhooksPerAgent (affected (fun w => String.eqb (Wh_AgentName w) agentName) (webhooks e))); [done|].
  apply wp_bind_ok. unfold InsertWebhook, exec_o. cbn [wp Wh_AgentName URL]. split; [|done].
  destruct (Z.eqb_spec (affected (same_endpoint agentName url) (webhooks e)) 0) as [E|]; [|done]. cbn [wp]. split_and!; try done.
  apply Forall_forall. intros x Hx%list_elem_of_In. pose proof (find_none _ _ Ef x Hx) as H1. by apply negb_false_iff in H1.
Qed.

Lemma update_by_id_twice {R} `{!Row R} id (f g : R -> R) (t : table R) : (forall r, row_id (f r) = row_id r) ->
  update_rows (by_id id) g (update_rows (by_id id) f t) = update_rows (by_id id) (fun r => g (f r)) t.
Proof.
  intros Hf. unfold update_rows, map_if. simpl. f_equal. rewrite <- list_fmap_compose. apply list_fmap_ext. intros i r _. simpl.
  unfold by_id. destruct (Z.eqb_spec (row_id r) id) as [E|E].
  - rewrite Hf, (proj2 (Z.eqb_eq _ _) E). done.
  - by rewrite (proj2 (Z.eqb_neq _ _) E).
Qed.

Lemma update_nothing {R} `{!Row R} id (f : R -> R) (t : table R) : find_id id t = None -> update_rows (by_id id) f t = t.
Proof. intros H. apply update_rows_none, count_if_0. intros r Hr. by eapply find_row_None in H. Qed.

(** What the failure of the last attempt does to the webhook. *)
Definition one_more_failure (t : Z) (w : Webhook) : Webhook :=
  let w1 := with_failures (ConsecutiveFailures w + 1) t w in
  if AutoDisableThreshold <=? ConsecutiveFailures w1 then with_wh_status WebhookStatusDisabled t w1 else w1.

Lemma RecordFailure_run id e : table_ok (webhooks e) ->
  (run_ok (RecordFailure id) e).2 = set_webhooks (update_rows (by_id id) (one_more_failure (now e)) (webhooks e)) e.
Proof.
  intros Ht. unfold RecordFailure, IncrementConsecutiveFailures. rewrite !run_ok_bind_ok. unfold exec, query_o, exec_o. cbn [run_ok run].
  cbn [webhooks set_webhooks]. rewrite find_id_update by done. destruct (find_id id (webhooks e)) as [w|] eqn:Ew; cbn [fmap option_fmap option_map].
  - assert (by_id id w = true) as Hb by (apply find_row_Some in Ew; apply Ew). rewrite Hb.
    assert (forall g, (forall r, r ∈ rows (webhooks e) -> by_id id r = true -> r = w -> g r = one_more_failure (now e) r) ->
      update_rows (by_id id) g (webhooks e) = update_rows (by_id id) (one_more_failure (now e)) (webhooks e)) as Hg.
    { intros g Hg. unfold update_rows, map_if. f_equal. apply list_fmap_ext. intros i r Hi%list_elem_of_lookup_2.
      destruct (by_id id r) eqn:Er; [|done]. apply Hg; [done|done|]. apply find_id_Some in Ew as [Eid Hw].
      apply (table_ok_unique _ _ _ Ht Hi Hw). apply Z.eqb_eq in Er. congruence. }
    unfold one_more_failure in *. cbn [ConsecutiveFailures with_failures] in *.
    destruct (AutoDisableThreshold <=? ConsecutiveFailures w + 1) eqn:El.
    + unfold UpdateWebhookStatus, exec_o. cbn [run_ok run snd webhooks set_webhooks now]. unfold set_webhooks. cbn [now deliveries queue sent webhooks]. f_equal.
      rewrite update_by_id_twice by done. apply Hg. intros r _ _ ->. by rewrite El.
    + cbn [run_ok run snd]. f_equal. apply Hg. intros r _ _ ->. by rewrite El.
  - cbn [snd]. by rewrite !update_nothing.
Qed.

Definition answer_to (wh : Webhook) (x : WebhookDelivery) (e : engine) : DeliveryError + Z := (run_ok (post allowPrivate wh x) e).1.

(** What an answer makes of the row and of the webhook. *)
Definition delivered_row (t : Z) (answer : DeliveryError + Z) (attempts : Z) (x : WebhookDelivery) : WebhookDelivery :=
  let code := match answer with inl _ => 0 | inr s => s end in
  let err := match answer with inl err => err | inr s => HTTPCode s end in
  match answer with
  | inr s =>
      if is_success s then with_dv_status DeliveryStatusDelivered s None None (Some t) (with_attempts attempts x)
      else if attempts <? 3 then with_dv_status DeliveryStatusRetrying code (Some err) (Some (t + retry_interval attempts)) None (with_attempts attempts x)
      else with_dv_status DeliveryStatusDeadLettered code (Some err) None None (with_attempts attempts x)
  | inl _ =>
      if attempts <? 3 then with_dv_status DeliveryStatusRetrying code (Some err) (Some (t + retry_interval attempts)) None (with_attempts attempts x)
      else with_dv_status DeliveryStatusDeadLettered code (Some err) None None (with_attempts attempts x)
  end.
Definition answered_webhook (t : Z) (answer : DeliveryError + Z) (attempts : Z) (w : Webhook) : Webhook :=
  match answer with
  | inr s => if is_success s then with_failures 0 t w else if attempts <? 3 then w else one_more_failure t w
  | inl _ => if attempts <? 3 then w else one_more_failure t w
  end.

Lemma post_frame wh x e : let e' := (run_ok (post allowPrivate wh x) e).2 in
  now e' = now e /\ webhooks e' = webhooks e /\ deliveries e' = deliveries e /\ queue e' = queue e.
Proof.
  unfold post. destruct (url_Parse (URL wh)) as [[scheme host]|]; [|done]. rewrite run_ok_bind. cbn [run_ok run engine_now].
  by destruct (dial allowPrivate (now e) host).
Qed.

Lemma set_same_webhooks e : set_webhooks (webhooks e) e = e.
Proof. by destruct e. Qed.

Lemma update_rows_same {R} (p : R -> bool) (t : table R) : update_rows p (fun r => r) t = t.
Proof.
  unfold update_rows, map_if. destruct t as [l n]. simpl. f_equal. rewrite <- (list_fmap_id l) at 2. apply list_fmap_ext. intros i r _. by destruct (p r).
Qed.

Lemma recordFailure_run x wh code err e : table_ok (webhooks e) -> MaxAttempts x = 3 ->
  (run_ok (recordFailure x wh code err) e).2 =
  set_webhooks (update_rows (by_id (Wh_ID wh)) (fun w => if Attempts x <? 3 then w else one_more_failure (now e) w) (webhooks e))
    (set_deliveries (update_rows (by_id (Dv_ID x)) (if Attempts x <? 3
        then with_dv_status DeliveryStatusRetrying code (Some err) (Some (now e + retry_interval (Attempts x))) None
        else with_dv_status DeliveryStatusDeadLettered code (Some err) None None) (deliveries e)) e).
Proof.
  intros Ht Hm. unfold recordFailure. rewrite Hm. destruct (Attempts x <? 3).
  - rewrite run_ok_bind. cbn [run_ok run engine_now]. rewrite update_rows_same. by destruct e.
  - rewrite run_ok_bind. unfold UpdateDeliveryStatus, update_delivery, exec_o. cbn [run_ok run].
    rewrite run_ok_bind. destruct (run_ok (RecordFailure (Wh_ID wh)) _) as [o e1] eqn:E. cbn [run_ok run snd].
    apply (f_equal snd) in E. rewrite RecordFailure_run in E by done. simpl in E. by rewrite <- E.
Qed.

(** The answer, and what follows it. *)
Lemma deliverOne_run work e : run_ok (Wait (Dv_AgentName (work_delivery work))) e = (Ok tt, e) ->
  let x := with_attempts (Attempts (work_delivery work) + 1) (work_delivery work) in
  let e1 := set_deliveries (update_rows (by_id (Dv_ID x)) (with_attempts (Attempts x)) (deliveries e)) e in
  (run_ok (deliverOne allowPrivate work) e).2 =
  let '(a, e2) := run_ok (post allowPrivate (work_webhook work) x) e1 in
    (run_ok (match a with
             | inl err => recordFailure x (work_webhook work) 0 err
             | inr status =>
                 if is_success status then
                   let! t := engine_now in
                   let! _ := UpdateDeliveryStatus (Dv_ID x) DeliveryStatusDelivered status None None (Some t) in
                   let! _ := RecordSuccess (Wh_ID (work_webhook work)) in
                   Ret tt
                 else recordFailure x (work_webhook work) status (HTTPCode status)
             end) e2).2.
Proof.
  intros Hw x e1. unfold deliverOne. rewrite run_ok_bind, Hw. cbv beta iota zeta. fold x. rewrite run_ok_bind.
  change (run_ok (UpdateDeliveryAttempts (Dv_ID x) (Attempts x)) e)
    with ((if affected (by_id (Dv_ID x)) (deliveries e) =? 0 then Err EDeliveryNotFound else Ok tt) : outcome error unit, e1).
  cbv beta iota. rewrite run_ok_bind. by destruct (run_ok (post allowPrivate (work_webhook work) x) e1).
Qed.

(** An undisturbed attempt to deliver counts the attempt on the row and
    then, by the endpoint's answer: a status of 200 to 299 makes it delivered
    and clears the webhook's failures; anything else schedules a retry after 1
    or 5 seconds, or, on the third attempt, makes it a dead letter and adds a
    failure, the fiftieth of which disables the webhook.  Nothing else
    changes but the log of requests. *)
Theorem deliver_one_exact (work : deliveryWork) (e : engine)
  (Ht : table_ok (webhooks e)) (Hm : MaxAttempts (work_delivery work) = 3)
  (Hw : run_ok (Wait (Dv_AgentName (work_delivery work))) e = (Ok tt, e)) :
  let n := Attempts (work_delivery work) + 1 in
  let id := Dv_ID (work_delivery work) in
  let e1 := set_deliveries (update_rows (by_id id) (with_attempts n) (deliveries e)) e in
  let answer := answer_to (work_webhook work) (with_attempts n (work_delivery work)) e1 in
  let e' := (run_ok (deliverOne allowPrivate work) e).2 in
  deliveries e' = update_rows (by_id id) (delivered_row (now e) answer n) (deliveries e) /\
  webhooks e' = update_rows (by_id (Wh_ID (work_webhook work))) (answered_webhook (now e) answer n) (webhooks e) /\
  queue e' = queue e /\ now e' = now e.
Proof.
  intros n id e1 answer e'. set (x := with_attempts n (work_delivery work)) in *.
  pose proof (deliverOne_run work e Hw) as E. cbv zeta in E. fold n x e' in E. change (Dv_ID x) with id in E.
  change (Attempts x) with n in E. fold e1 in E. clearbody e'. subst e'. unfold answer, answer_to.
  destruct (post_frame (work_webhook work) x e1) as (F1&F2&F3&F4). revert F1 F2 F3 F4.
  destruct (run_ok (post allowPrivate (work_webhook work) x) e1) as [a e2]. cbn [fst snd]. intros F1 F2 F3 F4.
  assert (forall code err, (match a with inr s => is_success s | inl _ => false end) = false ->
    code = match a with inl _ => 0 | inr s => s end -> err = (match a with inl err => err | inr s => HTTPCode s end) ->
    let e3 := (run_ok (recordFailure x (work_webhook work) code err) e2).2 in
    deliveries e3 = update_rows (by_id id) (delivered_row (now e) a n) (deliveries e) /\
    webhooks e3 = update_rows (by_id (Wh_ID (work_webhook work))) (answered_webhook (now e) a n) (webhooks e) /\
    queue e3 = queue e /\ now e3 = now e) as Hfail.
  { intros code err Ha Hcode Herr. cbv zeta. rewrite recordFailure_run; [|by rewrite F2|done].
    cbn [deliveries webhooks queue now set_webhooks set_deliveries]. change (Dv_ID x) with id. change (Attempts x) with n.
    rewrite F1, F2, F3, F4. cbn [deliveries webhooks queue now e1 set_deliveries]. rewrite update_by_id_twice by done. split_and!; [| |done|done].
    - f_equal. unfold delivered_row. rewrite <- Hcode, <- Herr. destruct a as [er|st]; [|rewrite Ha]; by destruct (n <? 3).
    - f_equal. unfold answered_webhook. destruct a as [er|st]; [|rewrite Ha]; by destruct (n <? 3). }
  destruct a as [err|status]; cbv beta iota; [by apply (Hfail 0 err)|].
  destruct (is_success status) eqn:Es; [|by apply (Hfail status (HTTPCode status))].
  match goal with |- context [run_ok ?p e2] => change (run_ok p e2) with (tt,
    set_webhooks (update_rows (by_id (Wh_ID (work_webhook work))) (with_failures 0 (now e2)) (webhooks e2))
      (set_deliveries (update_rows (by_id id) (with_dv_status DeliveryStatusDelivered status None None (Some (now e2))) (deliveries e2)) e2)) end.
  cbn [snd deliveries webhooks queue now set_webhooks set_deliveries].
  rewrite F1, F2, F3, F4. cbn [deliveries webhooks queue now e1 set_deliveries].
  rewrite update_by_id_twice by done. split_and!; [| |done|done]; f_equal; unfold delivered_row, answered_webhook; by rewrite Es.
Qed.

(** ** Settling *)

(** A poll that finds this delivery due, and the worker that takes it. *)
Definition retry_once (id : Z) (e : engine) : engine :=
  match find_id id (deliveries e) with
  | Some x => (run_ok (let! _ := requeue [x] in worker_round allowPrivate) e).2
  | None => e
  end.
Definition settled (x : WebhookDelivery) : Prop := Dv_Status x = DeliveryStatusDelivered \/ Dv_Status x = DeliveryStatusDeadLettered.

Lemma retry_once_ok id e : engine_ok e -> engine_ok (retry_once id e).
Proof.
  intros He. unfold retry_once. destruct (find_id id (deliveries e)) as [x|] eqn:Ef; [|done]. apply find_id_Some in Ef as [_ Hx].
  assert (guar (let! _ := requeue [x] in worker_round allowPrivate) (fun _ _ => True) e) as H.
  { apply (rg_worker_then _ _ (fun _ => True)); [done| |intros a e1 He1 _; by apply rg_worker_round]. apply rg_requeue; [done|].
    apply Forall_singleton. by apply He. }
  apply rg_wp in H; [|apply _|done]. apply wp_run_ok in H. apply H.
Qed.

Lemma retry_once_row id e x : engine_ok e -> queue e = [] -> (forall a e, run_ok (Wait a) e = (Ok tt, e)) ->
  find_id id (deliveries e) = Some x ->
  exists answer, find_id id (deliveries (retry_once id e)) = Some (delivered_row (now e) answer (Attempts x + 1) x) /\ queue (retry_once id e) = [].
Proof.
  intros He Hq HW Hf. unfold retry_once. rewrite Hf. pose proof Hf as Hx. apply find_id_Some in Hx as [Eid Hx].
  destruct He as (Ht&_&_&_&Hd&Hfk&_). destruct (Hfk x Hx) as (w&Hw&Ew).
  assert (find_id (WebhookID x) (webhooks e) = Some w) as Hfw by (rewrite <- Ew; by apply find_id_intro).
  assert ((run_ok (let! _ := requeue [x] in worker_round allowPrivate) e).2 = (run_ok (deliverOne allowPrivate (mkWork x w)) e).2) as ->.
  { rewrite run_ok_bind. unfold requeue. cbn [for_each]. rewrite run_ok_bind, run_ok_bind. unfold GetWebhookByID, query_o, exec_o. cbn [run_ok run].
    rewrite Hfw. unfold enqueue. cbn [run_ok run]. rewrite Hq. cbn [length Z.of_nat app]. change (0 <? queueSize) with true. cbv iota.
    unfold worker_round. rewrite run_ok_bind. unfold receive. cbn [run_ok run queue set_queue head tail]. do 2 f_equal. unfold set_queue. cbn [now webhooks deliveries sent].
    rewrite <- Hq. by destruct e. }
  destruct (deliver_one_exact (mkWork x w) e) as (E1&_&E3&_); [done|by apply Hd|apply HW|]. cbv zeta in E1, E3. cbn [work_delivery work_webhook] in E1, E3.
  eexists. split; [|by rewrite E3]. rewrite E1. change (Dv_ID x) with (row_id x). rewrite Eid. rewrite find_id_update.
  - rewrite Hf. cbn [fmap option_fmap option_map]. unfold by_id. by rewrite (proj2 (Z.eqb_eq _ _) Eid).
  - intros r. unfold delivered_row. by repeat case_match.
Qed.

Lemma delivered_row_status t answer n x : let x' := delivered_row t answer n x in
  settled x' \/ (Dv_Status x' = DeliveryStatusRetrying /\ Attempts x' = n /\ n < 3).
Proof.
  unfold delivered_row, settled. destruct answer as [err|s]; [destruct (Z.ltb_spec n 3); auto|].
  destruct (is_success s); [auto|]. destruct (Z.ltb_spec n 3); auto.
Qed.

Lemma settles n e id x : engine_ok e -> queue e = [] -> (forall a e, run_ok (Wait a) e = (Ok tt, e)) ->
  find_id id (deliveries e) = Some x -> 3 - Attempts x <= Z.of_nat n -> (0 < n)%nat ->
  exists k x', (1 <= k <= n)%nat /\ find_id id (deliveries (Nat.iter k (retry_once id) e)) = Some x' /\ settled x'.
Proof.
  revert e x. induction n as [|n IH]; intros e x He Hq HW Hf Hn Hpos; [lia|].
  destruct (retry_once_row id e x He Hq HW Hf) as (answer&Hf'&Hq'). pose proof (delivered_row_status (now e) answer (Attempts x + 1) x) as Hs. cbv zeta in Hs.
  destruct Hs as [Hs|(Hr&Ha&Hlt)]; [exists 1%nat, (delivered_row (now e) answer (Attempts x + 1) x); split; [lia|done]|].
  destruct (IH (retry_once id e) _ (retry_once_ok id e He) Hq' HW Hf') as (k&x'&Hk&Hfk&Hx'); [rewrite Ha; lia|lia|].
  exists (S k), x'. split; [lia|]. split; [|done]. by rewrite Nat.iter_succ_r.
Qed.

(** Retried one at a time and undisturbed, a delivery on record is
    delivered or a dead letter after at most three attempts, whatever the
    endpoint answers. *)
Theorem delivery_settles (e : engine) (id : Z) (x : WebhookDelivery)
  (He : engine_ok e) (Hq : queue e = []) (HW : forall a e, run_ok (Wait a) e = (Ok tt, e)) (Hf : find_id id (deliveries e) = Some x) :
  exists k x', (1 <= k <= 3)%nat /\ find_id id (deliveries (Nat.iter k (retry_once id) e)) = Some x' /\ settled x'.
Proof.
  assert (0 <= Attempts x) as H by (apply find_id_Some in Hf as [_ Hx]; by apply He).
  apply (settles 3 e id x); try done; lia.
Qed.

(** ** Events *)
Definition active_for (event : MessageEvent) (e : engine) : list Webhook :=
  filter (fun w => subscribed (EventType event) w = true)
    (select_by wh_oldest (fun w => String.eqb (Wh_AgentName w) (ev_ToAgent event) && bool_decide (Wh_Status w = WebhookStatusActive)) (webhooks e)).
Definition new_rows (event : MessageEvent) (e : engine) (ws : list Webhook) : list WebhookDelivery :=
  imap (fun i w => delivery_row (new_delivery event (now e) w 0) (now e) (next_id (deliveries e) + Z.of_nat i)) ws.
Definition new_work (event : MessageEvent) (e : engine) (ws : list Webhook) : list deliveryWork :=
  imap (fun i w => mkWork (new_delivery event (now e) w (next_id (deliveries e) + Z.of_nat i)) w) ws.

Definition dispatch_one (event : MessageEvent) (t : Z) (wh : Webhook) : prog engine unit :=
  let! inserted := InsertDelivery (new_delivery event t wh 0) in
  match inserted with Ok id => enqueue (mkWork (new_delivery event t wh id) wh) | _ => Ret tt end.

Definition after_one (event : MessageEvent) (t : Z) (w : Webhook) (e : engine) : engine :=
  mkEngine (now e) (webhooks e) (insert_row (delivery_row (new_delivery event t w 0) (now e)) (deliveries e))
    (if Z.of_nat (length (queue e)) <? queueSize then queue e ++ [mkWork (new_delivery event t w (next_id (deliveries e))) w] else queue e) (sent e).

Lemma dispatch_one_run event t w e : affected (by_id (Wh_ID w)) (webhooks e) <> 0 -> run_ok (dispatch_one event t w) e = (tt, after_one event t w e).
Proof.
  intros Hn. unfold dispatch_one. rewrite run_ok_bind. unfold InsertDelivery, exec_o. cbn [run_ok run WebhookID new_delivery].
  rewrite (proj2 (Z.eqb_neq _ _) Hn). unfold enqueue, after_one. cbn [run_ok run queue set_deliveries]. by destruct (_ <? _).
Qed.

Lemma take_short {A} (n : nat) (x : A) l : (0 < n)%nat -> take n (x :: l) = x :: take (n - 1) l.
Proof. intros H. destruct n; [lia|]. simpl. by rewrite Nat.sub_0_r. Qed.

Lemma dispatch_loop event ws e : (forall w, w ∈ ws -> affected (by_id (Wh_ID w)) (webhooks e) <> 0) ->
  Z.of_nat (length (queue e)) <= queueSize ->
  let e' := (run_ok (for_each ws (dispatch_one event (now e))) e).2 in
  now e' = now e /\ webhooks e' = webhooks e /\ sent e' = sent e /\
  rows (deliveries e') = rows (deliveries e) ++ new_rows event e ws /\
  queue e' = queue e ++ take (Z.to_nat queueSize - length (queue e)) (new_work event e ws).
Proof.
  revert e. induction ws as [|w ws IH]; intros e Hw Hq; [unfold new_rows, new_work; cbn [imap]; by rewrite take_nil, !app_nil_r|].
  cbn [for_each]. rewrite run_ok_bind, dispatch_one_run by (apply Hw; by left). cbv zeta beta iota.
  destruct (IH (after_one event (now e) w e)) as (H1&H2&H3&H4&H5); [intros v Hv; apply Hw; by right| |].
  { unfold after_one, queueSize in *. cbn [queue]. destruct (Z.ltb_spec (Z.of_nat (length (queue e))) 1000); [rewrite length_app; simpl; lia|done]. }
  cbn [now after_one] in H1, H2, H3, H4, H5 |- *. split_and!; [done|done|done| |].
  - rewrite H4. cbn [deliveries after_one insert_row rows]. rewrite <- app_assoc. f_equal. unfold new_rows. cbn [imap app]. f_equal.
    + by rewrite Z.add_0_r.
    + apply imap_ext. intros i v _. cbn [now after_one deliveries insert_row next_id]. unfold compose. f_equal. lia.
  - rewrite H5. unfold new_work. cbn [imap]. rewrite Z.add_0_r.
    assert (forall i v, mkWork (new_delivery event (now (after_one event (now e) w e)) v (next_id (deliveries (after_one event (now e) w e)) + Z.of_nat i)) v =
      mkWork (new_delivery event (now e) v (next_id (deliveries e) + Z.of_nat (S i))) v) as Ei.
    { intros i v. cbn [now after_one deliveries insert_row next_id]. do 2 f_equal. lia. }
    erewrite (imap_ext _ _ ws); [|intros i v _; exact (Ei i v)]. unfold compose. cbn [queue after_one].
    destruct (Z.ltb_spec (Z.of_nat (length (queue e))) queueSize) as [Hlt|Hge].
    + rewrite take_short by (unfold queueSize in *; lia). rewrite length_app, <- app_assoc. cbn [length app]. do 3 f_equal. lia.
    + replace (Z.to_nat queueSize - length (queue e))%nat with 0%nat by (unfold queueSize in *; lia). done.
Qed.

(** An undisturbed event below the depth limit and for an agent adds one
    pending delivery, in order, for exactly the active webhooks of the agent
    that subscribe to it, with the event as payload, and queues as many of them
    as the queue has room for; an event too deep, or for a channel only, adds
    none. *)
Theorem dispatch_exact (event : MessageEvent) (e : engine) (He : engine_ok e) :
  let ws := if (MaxDepth <=? ev_Depth event) || (str_empty (ev_ToAgent event) && negb (str_empty (ev_Channel event))) then [] else active_for event e in
  let '(o, e') := run_ok (Dispatch event) e in
  o = Ok tt /\ rows (deliveries e') = rows (deliveries e) ++ new_rows event e ws /\
  queue e' = queue e ++ take (Z.to_nat queueSize - length (queue e)) (new_work event e ws) /\
  webhooks e' = webhooks e /\ sent e' = sent e.
Proof.
  unfold Dispatch. destruct (MaxDepth <=? ev_Depth event); [unfold new_rows, new_work; cbn [orb imap run_ok run]; by rewrite take_nil, !app_nil_r|].
  destruct (_ && _); [unfold new_rows, new_work; cbn [orb imap run_ok run]; by rewrite take_nil, !app_nil_r|]. cbn [orb].
  destruct (dispatch_loop event (active_for event e) e) as (H1&H2&H3&H4&H5); [|apply He|].
  - intros w. unfold active_for. rewrite list_elem_of_filter. intros [_ [_ Hw]%elem_of_select_by] E. unfold affected in E.
    rewrite count_if_0 in E. specialize (E w Hw). unfold by_id, row_id, Webhook_row in E. by rewrite Z.eqb_refl in E.
  - rewrite run_ok_bind_ok.
    change (run_ok (GetActiveWebhooksForEvent (ev_ToAgent event) (EventType event)) e) with (Ok (active_for event e) : outcome error (list Webhook), e).
    cbv beta iota. rewrite run_ok_bind. change (run_ok engine_now e) with (now e, e). cbv beta iota. rewrite run_ok_bind.
    change (for_each (active_for event e) _) with (for_each (active_for event e) (dispatch_one event (now e))).
    destruct (run_ok (for_each (active_for event e) (dispatch_one event (now e))) e) as [[] e']. by split_and!.
Qed.
End Spec.

Module WebhookRuns.
#[local] Existing Instance rowid_engine.
(** A stand-in for the digest: 64 characters whatever the input. *)
#[local] Instance sha : GoSha256.
Proof. refine {| sha256_hex := fun _ => "0123456789abcdef0123456789abcdef0123456789abcdef0123456789abcdef" |}. by intros c. Defined.
#[local] Instance hmac : GoHmac := {| hmac_sha256_hex := fun _ _ => "signature" |}.
#[local] Instance unlimited : RateLimiter.
Proof. by refine {| Wait := fun _ => Ret (Ok tt) |}. Defined.
(** "hook" resolves to a public address, "intranet" to a private one; the
    endpoint always answers 500. *)
#[local] Instance failing : Network :=
  {| url_Parse := fun u => Some ("https", u);
     ParseIP := fun s => if String.eqb s "93.184.216.34" then Some (IPv4 (v4 93 184 216 34)) else if String.eqb s "10.0.0.7" then Some (IPv4 (v4 10 0 0 7)) else None;
     LookupHost := fun _ h => if String.eqb h "hook" then Some ["93.184.216.34"] else if String.eqb h "intranet" then Some ["93.184.216.34"; "10.0.0.7"] else None;
     respond := fun _ _ => Some (500, false) |}.

Definition a_webhook (id : Z) (url : string) (st : WebhookStatus) : Webhook := mkWebhook id "bob" url ["message.received"] (sha256_hex "s") st 0 0 0.
Definition an_event : MessageEvent := mkMessageEvent "message.received" 7 "alice" "bob" "" "hello" 5 "{}" 0 [].
Definition start (st : WebhookStatus) : engine := mkEngine 0 (mkTable [a_webhook 1 "hook" st] 2) empty_table [] [].
Definition later (s : Z) (e : engine) : engine := set_now (now e + s) e.
Definition after (p : prog engine unit) (e : engine) : engine := (run_ok p e).2.
Definition dispatched (e : engine) : engine := (run_ok (Dispatch an_event) e).2.

Lemma start_ok st : engine_ok false false (start st).
Proof.
  assert (forall w, w ∈ rows (webhooks (start st)) -> w = a_webhook 1 "hook" st) as Hw by (by intros w ?%list_elem_of_singleton).
  split_and!; try done.
  - split; [by apply NoDup_singleton|]. by intros w ->%Hw.
  - by apply NoDup_singleton.
  - intros w ->%Hw. split_and!; [done|by repeat constructor|by exists "s"|]. by exists 0.
  - split; [constructor|by intros x ?%elem_of_nil].
  - by intros x ?%elem_of_nil.
  - by intros x ?%elem_of_nil.
Qed.

Lemma private_ranges_witness : 0 <= v4 172 31 0 1 < 2 ^ 32 /\ IsPrivateIP (IPv4 (v4 172 31 0 1)) = true.
Proof.
  assert (0 <= v4 172 31 0 1 < 2 ^ 32) as H by (unfold v4; lia). split; [exact H|].
  apply (private_ranges (IPv4 (v4 172 31 0 1)) H). right. left. unfold v4. lia.
Defined.

Lemma webhook_history_witness :
  let cs := [CallRegister "bob" "intranet" ["message.received"] "s"; CallDispatch an_event; CallWorker; CallRetries] in
  let r := run_schedule [(1%nat, false); (0%nat, false); (1%nat, false); (1%nat, false); (1%nat, false); (1%nat, false); (2%nat, false); (2%nat, false); (2%nat, false); (2%nat, false); (2%nat, false); (2%nat, true)]
             (webhook_prog false false <$> cs) (start WebhookStatusActive) in
  engine_ok false false r.2 /\ length (sent r.2) = 1%nat /\
  returned <$> r.1 !! 0%nat = Some (Some (AnsRegister (Err (EWebhookURL "private network address")))).
Proof.
  intros cs r. destruct (webhook_history false false cs (start WebhookStatusActive) r.1 r.2 (start_ok _)) as (H&_).
  - rewrite <- surjective_pairing. apply run_schedule_reachable.
  - split; [exact H|]. split; by vm_compute.
Defined.

Lemma deliver_one_exact_witness :
  let e := dispatched (start WebhookStatusActive) in
  exists work, head (queue e) = Some work /\
    NextRetryAt <$> find_id 1 (deliveries (run_ok (deliverOne false work) e).2) = Some (Some 1).
Proof.
  intros e. destruct (head (queue e)) as [work|] eqn:E; [|by vm_compute in E]. exists work. split; [done|].
  assert (MaxAttempts (work_delivery work) = 3) as Hm by (vm_compute in E; by injection E as <-).
  assert (table_ok (webhooks e)) as Ht by apply (start_ok WebhookStatusActive).
  destruct (deliver_one_exact (HRate := unlimited) false work e Ht Hm eq_refl) as (H&_). rewrite H. vm_compute in E. injection E as <-. by vm_compute.
Defined.

Lemma dispatched_ok st : engine_ok false false (dispatched (start st)).
Proof.
  pose proof (rg_Dispatch false false an_event (start st) (start_ok st)) as H.
  apply rg_wp in H; [|apply _|apply start_ok]. apply wp_run_ok in H. apply H.
Qed.

Lemma delivery_settles_witness :
  let e := set_queue [] (dispatched (start WebhookStatusActive)) in
  engine_ok false false e /\ exists k x', (1 <= k <= 3)%nat /\ find_id 1 (deliveries (Nat.iter k (retry_once false 1) e)) = Some x' /\ settled x'.
Proof.
  intros e. assert (engine_ok false false e) as He.
  { apply (queue_step false false [] (dispatched (start WebhookStatusActive))); [split; [simpl; unfold queueSize; lia|constructor]|apply dispatched_ok]. }
  split; [exact He|]. destruct (find_id 1 (deliveries e)) as [x|] eqn:Ef; [|by vm_compute in Ef].
  exact (delivery_settles (HRate := unlimited) false false e 1 x He eq_refl (fun a e => eq_refl) Ef).
Defined.

Lemma dispatch_exact_witness :
  engine_ok false false (start WebhookStatusActive) /\ length (rows (deliveries (dispatched (start WebhookStatusActive)))) = 1%nat.
Proof.
  split; [apply start_ok|]. pose proof (dispatch_exact false false an_event (start WebhookStatusActive) (start_ok _)) as H. cbv zeta in H.
  unfold dispatched. destruct (run_ok (Dispatch an_event) (start WebhookStatusActive)) as [o e']. destruct H as (_&H&_). cbn [snd]. rewrite H. by vm_compute.
Defined.

(** Two polls find the same delivery due before a worker takes it: both copies
    are sent, and the endpoint is called five times for three attempts. *)
Theorem more_requests_than_attempts :
  let round e := after (worker_round false) (after (worker_round false) (after processRetries (after processRetries (later 10 e)))) in
  let e := round (round (after (worker_round false) (dispatched (start WebhookStatusActive)))) in
  length (sent e) = 5%nat /\ (forall s, s ∈ sent e -> sent_Delivery s = 1) /\
  (fun x => (MaxAttempts x, Dv_Status x)) <$> rows (deliveries e) = [(3, DeliveryStatusDeadLettered)] /\
  ConsecutiveFailures <$> rows (webhooks e) = [2].
Proof.
  cbv zeta. split; [by vm_compute|]. split; [|split; by vm_compute].
  apply Forall_forall. vm_compute. by repeat constructor.
Qed.

(** A delivery that met a full queue is said to be picked up by the retry
    poller; the poller only looks at deliveries being retried, so it waits for
    the next start. *)
Theorem overflow_waits :
  let full := set_queue (replicate 1000 (mkWork (new_delivery an_event 0 (a_webhook 1 "hook" WebhookStatusActive) 1) (a_webhook 1 "hook" WebhookStatusActive)))
                (start WebhookStatusActive) in
  let e := set_queue [] (dispatched full) in
  Dv_Status <$> rows (deliveries e) = [DeliveryStatusPending] /\
  (forall s, after processRetries (later s e) = later s e) /\
  length (queue (after requeuePending e)) = 1%nat.
Proof. cbv zeta. split; [by vm_compute|]. split; [intros s; reflexivity|by vm_compute]. Qed.

(** A webhook that was disabled still gets the retries of its deliveries. *)
Theorem disabled_still_called :
  let e1 := after (worker_round false) (dispatched (start WebhookStatusActive)) in
  let e2 := (run_ok (UpdateWebhookStatus 1 WebhookStatusDisabled) e1).2 in
  let e3 := after (worker_round false) (after processRetries (later 10 e2)) in
  Wh_Status <$> rows (webhooks e3) = [WebhookStatusDisabled] /\ length (sent e3) = 2%nat.
Proof. by vm_compute. Qed.

(** The count of an agent's webhooks and the insertion are separate
    statements: two registrations pass the limit together. *)
Theorem register_race :
  let e := mkEngine 0 (mkTable [a_webhook 1 "a" WebhookStatusActive; a_webhook 2 "b" WebhookStatusActive] 3) empty_table [] [] in
  let cs := [CallRegister "bob" "c" ["message.received"] "s"; CallRegister "bob" "d" ["message.received"] "s"] in
  let r := run_schedule [(0%nat, false); (1%nat, false); (0%nat, false); (1%nat, false); (0%nat, false); (1%nat, false)] (webhook_prog false false <$> cs) e in
  length (rows (webhooks r.2)) = 4%nat.
Proof. by vm_compute. Qed.

(** 0.0.0.0, which a connection takes for the local host, and the shared
    address space of carriers pass the check. *)
Theorem unspecified_address_passes : IsPrivateIP (IPv4 (v4 0 0 0 0)) = false /\ IsPrivateIP (IPv4 (v4 100 64 0 1)) = false /\ IsPrivateIP (IPv6 0) = false.
Proof. by vm_compute. Qed.
End WebhookRuns.
