(* ===== verification/Auth.v ===== *)
(** * Users, sessions and OAuth grants (internal/auth: types.go, user_store.go,
    session_store.go, client_store.go, fosite_store.go, config.go; idp/store.go)

    The accounts, the sessions of the web UI, the OAuth clients with their
    authorization codes and tokens, and the links to external identities.  The
    tables are a state of their own, [auth_db]; tables whose primary key is a
    text are finite maps.  [crypto/rand], bcrypt and SHA-256 are interfaces, and
    so is fosite, which calls the methods of its store. *)
From S2P Require Import Prelude Prog Table Messaging Agents Attachments Retention MemoryTools.

(** errors.go, and the errors of fosite the store returns. *)
Inductive auth_error :=
| EAuthDb | ERandom | EHash | EAuthNoRows | EEmptyDisplayName
| ErrUserNotFound | ErrDuplicateUsername | ErrInvalidUsername | ErrPasswordTooShort | ErrPasswordTooLong | ErrInvalidPassword
| ErrSessionNotFound | ErrSessionExpired | ErrClientNotFound
| ErrBcryptCostTooLow | ErrBcryptCostTooHigh | ErrSecretTooShort
| FositeNotFound | FositeServerError | FositeInvalidatedAuthorizeCode | FositeInactiveToken
| EProvider | EMissingArgs.

(** ** Rows (types.go) *)
Inductive UserRole := RoleUser | RoleAdmin.
#[export] Instance UserRole_eq_dec : EqDecision UserRole.
Proof. solve_decision. Defined.

Record User := mkUser {
  User_ID : Z;
  Username : string;
  PasswordHash : string;
  User_DisplayName : string;
  Role : UserRole;
  Email : option string;
  User_CreatedAt : Z;
  User_UpdatedAt : Z
}.
#[export] Instance User_row : Row User := User_ID.

Record Session := mkSession {
  SessionID : string;
  Sess_UserID : Z;
  Sess_CreatedAt : Z;
  ExpiresAt : Z;
  LastActiveAt : Z
}.

Record OAuthClient := mkOAuthClient {
  Client_ID : string;
  Client_SecretHash : string;
  Client_Name : string;
  RedirectURIs : list string;
  GrantTypes : list string;
  Client_Scopes : list string;
  Client_OwnerID : option Z;
  Client_CreatedAt : Z
}.

(** fosite's session as the store keeps it: the column [session_data] holds its
    JSON. *)
Record fositeSession := mkFositeSession {
  fs_UserID : Z;
  fs_Username : string;
  fs_Subject : string;
  fs_AgentName : string;
  ExpiresAtMap : gmap string Z
}.
(** [fosite.AuthorizeCode], [fosite.AccessToken], [fosite.RefreshToken]. *)
Definition KeyAuthorizeCode : string := "authorize_code".
Definition KeyAccessToken : string := "access_token".
Definition KeyRefreshToken : string := "refresh_token".
Definition SetExpiresAt (key : string) (exp : Z) (s : fositeSession) : fositeSession :=
  mkFositeSession (fs_UserID s) (fs_Username s) (fs_Subject s) (fs_AgentName s) (<[key := exp]> (ExpiresAtMap s)).
(** [None] is the zero time. *)
Definition GetExpiresAt (key : string) (s : fositeSession) : option Z := ExpiresAtMap s !! key.

Inductive TokenType := TokenTypeAccess | TokenTypeRefresh.
#[export] Instance TokenType_eq_dec : EqDecision TokenType.
Proof. solve_decision. Defined.

Record AuthorizationCode := mkAuthorizationCode {
  Code_ClientID : string;
  Code_UserID : Z;
  Code_RedirectURI : string;
  Code_Scopes : string;
  CodeChallenge : string;
  CodeChallengeMethod : string;
  Code_SessionData : fositeSession;
  Code_ExpiresAt : option Z;
  Used : bool
}.

Record OAuthToken := mkOAuthToken {
  Tk_ID : Z;
  Signature : string;
  Tk_ClientID : string;
  Tk_UserID : option Z;
  Tk_Hash : string;
  Tk_Scopes : string;
  Tk_Type : TokenType;
  Tk_SessionData : fositeSession;
  Tk_ExpiresAt : option Z;
  Consumed : bool;
  ParentSignature : string
}.
#[export] Instance OAuthToken_row : Row OAuthToken := Tk_ID.

Record UserIdentity := mkUserIdentity {
  Id_ID : Z;
  Id_UserID : Z;
  Provider : string;
  ExternalID : string;
  Id_Email : string;
  Id_DisplayName : string;
  RawClaims : string;
  Id_CreatedAt : Z
}.
#[export] Instance UserIdentity_row : Row UserIdentity := Id_ID.

(** handlers.go, the limiter of failed logins. *)
Record loginAttempt := mkLoginAttempt { failures : Z; blockedAt : Z }.

Record auth_db := mkAuthDb {
  now : Z;
  users : table User;
  sessions : gmap string Session;
  clients : gmap string OAuthClient;
  codes : gmap string AuthorizationCode;
  tokens : table OAuthToken;
  identities : table UserIdentity;
  attempts : gmap string loginAttempt
}.
Definition set_now v (d : auth_db) := mkAuthDb v (users d) (sessions d) (clients d) (codes d) (tokens d) (identities d) (attempts d).
Definition set_users v (d : auth_db) := mkAuthDb (now d) v (sessions d) (clients d) (codes d) (tokens d) (identities d) (attempts d).
Definition set_sessions v (d : auth_db) := mkAuthDb (now d) (users d) v (clients d) (codes d) (tokens d) (identities d) (attempts d).
Definition set_clients v (d : auth_db) := mkAuthDb (now d) (users d) (sessions d) v (codes d) (tokens d) (identities d) (attempts d).
Definition set_codes v (d : auth_db) := mkAuthDb (now d) (users d) (sessions d) (clients d) v (tokens d) (identities d) (attempts d).
Definition set_tokens v (d : auth_db) := mkAuthDb (now d) (users d) (sessions d) (clients d) (codes d) v (identities d) (attempts d).
Definition set_identities v (d : auth_db) := mkAuthDb (now d) (users d) (sessions d) (clients d) (codes d) (tokens d) v (attempts d).
Definition set_attempts v (d : auth_db) := mkAuthDb (now d) (users d) (sessions d) (clients d) (codes d) (tokens d) (identities d) v.
Abbreviation A B := (prog auth_db (outcome auth_error B)).
Definition auth_now : prog auth_db Z := Peek (fun d => Ret (now d)).

(** [crypto/rand.Read] of a number of bytes, and bcrypt.  A digest verifies the
    password it was made of; a read fills the whole buffer. *)
Class Secrets := {
  random_bytes : nat -> A string;
  bcrypt_hash : string -> A string;
  bcrypt_compare : string -> string -> bool;
  random_bytes_frame : forall n, within eq (random_bytes n);
  random_bytes_length : forall n d, wp (random_bytes n) (fun o _ => forall b, o = Ok b -> String.length b = n) d;
  bcrypt_hash_frame : forall p, within eq (bcrypt_hash p);
  bcrypt_hash_verifies : forall p d, wp (bcrypt_hash p) (fun o _ => forall h, o = Ok h -> bcrypt_compare h p = true) d
}.

Section Wrapped.
Context {HSec : Secrets}.
Definition wrapped {B} (e : auth_error) (p : A B) : A B :=
  let! o := p in Ret (match o with Ok b => Ok b | Err _ => Err e | Panic w => Panic w end).
Definition read_random (n : nat) : A string := wrapped ERandom (random_bytes n).
Definition hash_password (p : string) : A string := wrapped EHash (bcrypt_hash p).
End Wrapped.

(** ** config.go *)
Record Config := mkConfig {
  BcryptCost : Z;
  AccessTokenTTL : Z;
  RefreshTokenLifetime : Z;
  SessionLifetime : Z;
  DevMode : bool;
  Secret : string
}.
Definition DefaultConfig : Config := mkConfig 12 3600 (30 * 24 * 3600) (24 * 3600) true "".
Definition Validate (c : Config) : option auth_error :=
  if BcryptCost c <? 10 then Some ErrBcryptCostTooLow
  else if 31 <? BcryptCost c then Some ErrBcryptCostTooHigh
  else if Z.of_nat (String.length (Secret c)) <? 32 then Some ErrSecretTooShort
  else None.

(** ** Users (user_store.go) *)

(** The regular expression [^[a-zA-Z0-9_]{3,64}$]. *)
Definition name_char (a : Ascii.ascii) : bool :=
  let n := Ascii.nat_of_ascii a in
  ((97 <=? n) && (n <=? 122) || (65 <=? n) && (n <=? 90) || (48 <=? n) && (n <=? 57) || (n =? 95))%nat.
Definition usernameRegex (s : string) : bool :=
  forallb name_char (String.list_ascii_of_string s) && (3 <=? String.length s)%nat && (String.length s <=? 64)%nat.

Definition password_error (password : string) : option auth_error :=
  if (String.length password <? 8)%nat then Some ErrPasswordTooShort
  else if (72 <? String.length password)%nat then Some ErrPasswordTooLong
  else None.

Definition named (username : string) (u : User) : bool := String.eqb (Username u) username.
Definition user_row (username hash displayName : string) (role : UserRole) (t id : Z) : User :=
  mkUser id username hash displayName role None t t.
(** UNIQUE (username). *)
Definition insert_user (username hash displayName : string) (role : UserRole) : A Z :=
  exec_o EAuthDb
    (fun d => if affected (named username) (users d) =? 0 then set_users (insert_row (user_row username hash displayName role (now d)) (users d)) d else d)
    (fun d => if affected (named username) (users d) =? 0 then Ok (next_id (users d)) else Err ErrDuplicateUsername).

Definition CountUsers : A Z := query EAuthDb (fun d => Z.of_nat (length (rows (users d)))).

Section UserStore.
Context {HSec : Secrets}.

(** The first user becomes an administrator. *)
Definition CreateUser (username password displayName : string) : A User :=
  if negb (usernameRegex username) then Ret (Err ErrInvalidUsername)
  else match password_error password with
       | Some e => Ret (Err e)
       | None =>
           let? hash := hash_password password in
           let? count := CountUsers in
           let role := if count =? 0 then RoleAdmin else RoleUser in
           let displayName := if str_empty displayName then username else displayName in
           let? id := insert_user username hash displayName role in
           let! t := auth_now in
           Ret (Ok (mkUser id username "" displayName role None t t))
       end.

Definition GetUserByID (id : Z) : A User :=
  query_o EAuthDb (fun d => match find_id id (users d) with Some u => Ok u | None => Err ErrUserNotFound end).
Definition has_email (email : string) (u : User) : bool := bool_decide (Email u = Some email).
(** Nothing makes an address unique: the row the engine visits first. *)
Definition GetUserByEmail {HEng : Engine} (email : string) : A User :=
  if str_empty email then Ret (Err ErrUserNotFound)
  else query_o EAuthDb (fun d => match head (scan (select (has_email email) (users d))) with Some u => Ok u | None => Err ErrUserNotFound end).
Definition GetUserByUsername (username : string) : A User :=
  query_o EAuthDb (fun d => match find_row (named username) (users d) with Some u => Ok u | None => Err ErrUserNotFound end).

Definition with_email (email : string) (t : Z) (u : User) : User :=
  mkUser (User_ID u) (Username u) (PasswordHash u) (User_DisplayName u) (Role u) (Some email) (User_CreatedAt u) t.
Definition with_password (hash : string) (t : Z) (u : User) : User :=
  mkUser (User_ID u) (Username u) hash (User_DisplayName u) (Role u) (Email u) (User_CreatedAt u) t.
Definition with_display_name (name : string) (t : Z) (u : User) : User :=
  mkUser (User_ID u) (Username u) (PasswordHash u) name (Role u) (Email u) (User_CreatedAt u) t.

Definition SetEmail (userID : Z) (email : string) : A unit :=
  exec EAuthDb (fun d => set_users (update_rows (by_id userID) (with_email email (now d)) (users d)) d) (fun _ => tt).
(** An UPDATE of one user that must find it. *)
Definition update_user (userID : Z) (f : Z -> User -> User) : A unit :=
  exec_o EAuthDb (fun d => set_users (update_rows (by_id userID) (f (now d)) (users d)) d)
                 (fun d => if affected (by_id userID) (users d) =? 0 then Err ErrUserNotFound else Ok tt).

Definition UpdatePassword (userID : Z) (newPassword : string) : A unit :=
  match password_error newPassword with
  | Some e => Ret (Err e)
  | None => let? hash := hash_password newPassword in update_user userID (with_password hash)
  end.

Definition by_user_id (a b : User) : Prop := User_ID a <= User_ID b.
#[export] Instance by_user_id_dec a b : Decision (by_user_id a b).
Proof. unfold by_user_id. apply _. Defined.
Definition ListUsers {HEng : Engine} : A (list User) := query EAuthDb (fun d => select_by by_user_id (fun _ => true) (users d)).

(** Every error of the lookup is a wrong password. *)
Definition VerifyPassword (username password : string) : A User :=
  let! found := GetUserByUsername username in
  match found with
  | Ok user => if bcrypt_compare (PasswordHash user) password then Ret (Ok user) else Ret (Err ErrInvalidPassword)
  | _ => Ret (Err ErrInvalidPassword)
  end.

Definition UpdateDisplayName (userID : Z) (displayName : string) : A unit :=
  let displayName := trim_space displayName in
  if str_empty displayName then Ret (Err EEmptyDisplayName) else update_user userID (with_display_name displayName).
End UserStore.

(** ** Sessions (session_store.go) *)

(** What [GetSession] starts in the background. *)
Inductive session_task := DeleteExpired (sessionID : string) | TouchSession (sessionID : string).

Section SessionStore.
Context {HSec : Secrets}.

Definition generateSessionID : A string := let? b := read_random 32 in Ret (Ok (hex_encode b)).

(** PRIMARY KEY (session_id), REFERENCES users(id). *)
Definition insertable_session (s : Session) (d : auth_db) : bool :=
  bool_decide (sessions d !! SessionID s = None) && negb (affected (by_id (Sess_UserID s)) (users d) =? 0).
Definition insert_session (s : Session) : A unit :=
  exec_o EAuthDb (fun d => if insertable_session s d then set_sessions (<[SessionID s := s]> (sessions d)) d else d)
                 (fun d => if insertable_session s d then Ok tt else Err EAuthDb).

Definition CreateSession (userID lifetime : Z) : A Session :=
  let? sessionID := generateSessionID in
  let! t := auth_now in
  let s := mkSession sessionID userID t (t + lifetime) t in
  let? _ := insert_session s in
  Ret (Ok s).

(** The second component is the goroutine it starts. *)
Definition GetSession (sessionID : string) : prog auth_db (outcome auth_error Session * option session_task) :=
  let! found := query_o EAuthDb (fun d => match sessions d !! sessionID with Some s => Ok s | None => Err ErrSessionNotFound end) in
  match found with
  | Ok s =>
      let! t := auth_now in
      if ExpiresAt s <? t then Ret (Err ErrSessionExpired, Some (DeleteExpired sessionID))
      else Ret (Ok s, Some (TouchSession sessionID))
  | Err e => Ret (Err e, None)
  | Panic w => Ret (Panic w, None)
  end.

Definition DeleteSession (sessionID : string) : A unit :=
  exec EAuthDb (fun d => set_sessions (delete sessionID (sessions d)) d) (fun _ => tt).

Definition keep_sessions (p : Session -> bool) (d : auth_db) : auth_db := set_sessions (filter (fun ks => p ks.2 = true) (sessions d)) d.
Definition DeleteSessionsByUser (userID : Z) : A unit :=
  exec EAuthDb (keep_sessions (fun s => negb (Sess_UserID s =? userID))) (fun _ => tt).
Definition DeleteSessionsByUserExcept (userID : Z) (exceptSessionID : string) : A unit :=
  exec EAuthDb (keep_sessions (fun s => negb (Sess_UserID s =? userID) || String.eqb (SessionID s) exceptSessionID)) (fun _ => tt).
Definition CleanupExpired : A Z :=
  let! t := auth_now in
  exec EAuthDb (keep_sessions (fun s => t <=? ExpiresAt s))
               (fun d => Z.of_nat (size (filter (fun ks : string * Session => ExpiresAt ks.2 < t) (sessions d)))).

Definition touch (t : Z) (s : Session) : Session := mkSession (SessionID s) (Sess_UserID s) (Sess_CreatedAt s) (ExpiresAt s) t.
Definition run_task (task : session_task) : prog auth_db unit :=
  match task with
  | DeleteExpired id => let! _ := DeleteSession id in Ret tt
  | TouchSession id =>
      let! _ := exec (E := auth_error) EAuthDb (fun d => set_sessions (alter (touch (now d)) id (sessions d)) d) (fun _ => tt) in Ret tt
  end.
End SessionStore.

(** ** OAuth clients (client_store.go) *)
Section ClientStore.
Context {HSec : Secrets}.

Definition generateClientID : A string := let? b := read_random 16 in Ret (Ok ("synapbus_" +:+ hex_encode b)).
Definition generateClientSecret : A string := let? b := read_random 32 in Ret (Ok ("sbs_" +:+ hex_encode b)).

(** PRIMARY KEY (id), [owner_id] REFERENCES users(id). *)
Definition insertable_client (c : OAuthClient) (d : auth_db) : bool :=
  bool_decide (clients d !! Client_ID c = None) &&
  match Client_OwnerID c with Some o => negb (affected (by_id o) (users d) =? 0) | None => true end.
Definition insert_client (c : OAuthClient) : A unit :=
  exec_o EAuthDb (fun d => if insertable_client c d then set_clients (<[Client_ID c := c]> (clients d)) d else d)
                 (fun d => if insertable_client c d then Ok tt else Err EAuthDb).

(** A nil slice takes its default. *)
Definition CreateClient (name : string) (redirectURIs grantTypes scopes : option (list string)) (ownerID : Z) : A (OAuthClient * string) :=
  let? clientID := generateClientID in
  let? secret := generateClientSecret in
  let? hash := hash_password secret in
  let! t := auth_now in
  let client := mkOAuthClient clientID hash name (default [] redirectURIs) (default ["client_credentials"] grantTypes) (default [] scopes)
                  (Some ownerID) t in
  let? _ := insert_client client in
  Ret (Ok (client, secret)).

Definition CreatePublicClient (name : string) (redirectURIs grantTypes scopes : option (list string)) : A OAuthClient :=
  let? clientID := generateClientID in
  let! t := auth_now in
  let client := mkOAuthClient clientID "" name (default [] redirectURIs) (default ["authorization_code"; "refresh_token"] grantTypes)
                  (default ["mcp"] scopes) None t in
  let? _ := insert_client client in
  Ret (Ok client).

Definition GetClient (clientID : string) : A OAuthClient :=
  query_o EAuthDb (fun d => match clients d !! clientID with Some c => Ok c | None => Err ErrClientNotFound end).

Definition by_name (a b : OAuthClient) : Prop := str_le (Client_Name a) (Client_Name b).
#[export] Instance by_name_dec a b : Decision (by_name a b).
Proof. unfold by_name. apply _. Defined.
Definition ListClientsByOwner (ownerID : Z) : A (list OAuthClient) :=
  query EAuthDb (fun d => merge_sort by_name (snd <$> map_to_list (filter (fun ks => Client_OwnerID ks.2 = Some ownerID) (clients d)))).

Definition VerifyClientSecret (clientID secret : string) : A OAuthClient :=
  let? client := GetClient clientID in
  if bcrypt_compare (Client_SecretHash client) secret then Ret (Ok client) else Ret (Err ErrInvalidPassword).
End ClientStore.

(** ** The store of fosite (fosite_store.go) *)

(** [fosite.Requester], as far as the store uses it; [Form] is the request's
    form, a missing field the empty text. *)
Record Requester := mkRequester {
  Req_ID : string;
  Req_Client : OAuthClient;
  RequestedScope : list string;
  GrantedScope : list string;
  Req_Session : fositeSession;
  Form : gmap string string
}.
Definition form_Get (key : string) (r : Requester) : string := default "" (Form r !! key).

Definition join_scopes (scopes : list string) : string := String.concat " " scopes.
Definition splitScopes (scopes : string) : list string := if str_empty scopes then [] else split_on (Ascii.ascii_of_nat 32) scopes "".

(** The session's user, if it names one. *)
Definition session_user (s : fositeSession) : option Z := if 0 <? fs_UserID s then Some (fs_UserID s) else None.

Section FositeStore.
Context {HSec : Secrets} {HSha : GoSha256}.

Definition hashSignature (sig : string) : string := sha256_hex sig.

(** A random identifier; the error of the random source is dropped. *)
Definition uuid_text (b : string) : string :=
  hex_encode (String.substring 0 4 b) +:+ "-" +:+ hex_encode (String.substring 4 2 b) +:+ "-" +:+ hex_encode (String.substring 6 2 b) +:+ "-" +:+
  hex_encode (String.substring 8 2 b) +:+ "-" +:+ hex_encode (String.substring 10 6 b).
Definition sixteen_zeros : string := String.concat "" (repeat (String Ascii.zero EmptyString) 16).
Definition uuid : prog auth_db string :=
  let! b := read_random 16 in Ret (uuid_text (match b with Ok b => b | _ => sixteen_zeros end)).

Definition store_GetClient (id : string) : A OAuthClient :=
  let! found := query EAuthDb (fun d => clients d !! id) in
  match found with
  | Ok (Some c) => Ret (Ok c)
  | Ok None => Ret (Err FositeNotFound)
  | _ => Ret (Err FositeServerError)
  end.

(** A statement whose every error is fosite's server error. *)
Definition fosite_exec (upd : auth_db -> auth_db) (accepted : auth_db -> bool) : A unit :=
  exec_o FositeServerError (fun d => if accepted d then upd d else d) (fun d => if accepted d then Ok tt else Err FositeServerError).

(** *** Authorization codes *)

(** PRIMARY KEY (code), [user_id] NOT NULL REFERENCES users(id). *)
Definition code_of (request : Requester) : AuthorizationCode :=
  let sess := Req_Session request in
  mkAuthorizationCode (Client_ID (Req_Client request)) (fs_UserID sess) (form_Get "redirect_uri" request) (join_scopes (RequestedScope request))
    (form_Get "code_challenge" request) (form_Get "code_challenge_method" request) sess (GetExpiresAt KeyAuthorizeCode sess) false.
Definition CreateAuthorizeCodeSession (code : string) (request : Requester) : A unit :=
  fosite_exec (fun d => set_codes (<[code := code_of request]> (codes d)) d)
    (fun d => bool_decide (codes d !! code = None) && negb (affected (by_id (fs_UserID (Req_Session request))) (users d) =? 0)).

Definition code_form (c : AuthorizationCode) : gmap string string :=
  <["redirect_uri" := Code_RedirectURI c]> (<["code_challenge" := CodeChallenge c]> {["code_challenge_method" := CodeChallengeMethod c]}).
Definition GetAuthorizeCodeSession (code : string) : A Requester :=
  let! found := query EAuthDb (fun d => codes d !! code) in
  match found with
  | Ok None => Ret (Err FositeNotFound)
  | Ok (Some c) =>
      if Used c then Ret (Err FositeInvalidatedAuthorizeCode)
      else
        let? client := store_GetClient (Code_ClientID c) in
        let scopes := splitScopes (Code_Scopes c) in
        let! id := uuid in
        Ret (Ok (mkRequester id client scopes scopes (Code_SessionData c) (code_form c)))
  | _ => Ret (Err FositeServerError)
  end.

Definition use_code (c : AuthorizationCode) : AuthorizationCode :=
  mkAuthorizationCode (Code_ClientID c) (Code_UserID c) (Code_RedirectURI c) (Code_Scopes c) (CodeChallenge c) (CodeChallengeMethod c)
    (Code_SessionData c) (Code_ExpiresAt c) true.
Definition InvalidateAuthorizeCodeSession (code : string) : A unit :=
  fosite_exec (fun d => set_codes (alter use_code code (codes d)) d) (fun _ => true).

(** *** Tokens *)

(** UNIQUE (access_token_hash), [user_id] REFERENCES users(id). *)
Definition token_row (signature : string) (kind : TokenType) (request : Requester) (parent : string) (id : Z) : OAuthToken :=
  let sess := Req_Session request in
  mkOAuthToken id signature (Client_ID (Req_Client request)) (session_user sess) (hashSignature signature) (join_scopes (GrantedScope request)) kind sess
    (GetExpiresAt (match kind with TokenTypeAccess => KeyAccessToken | TokenTypeRefresh => KeyRefreshToken end) sess) false parent.
Definition has_hash (h : string) (x : OAuthToken) : bool := String.eqb (Tk_Hash x) h.
Definition insertable_token (signature : string) (request : Requester) (d : auth_db) : bool :=
  (affected (has_hash (hashSignature signature)) (tokens d) =? 0) &&
  match session_user (Req_Session request) with Some u => negb (affected (by_id u) (users d) =? 0) | None => true end.
Definition insert_token (signature : string) (kind : TokenType) (request : Requester) (parent : string) : A unit :=
  fosite_exec (fun d => set_tokens (insert_row (token_row signature kind request parent) (tokens d)) d) (insertable_token signature request).
Definition createTokenSession (signature : string) (kind : TokenType) (request : Requester) : A unit := insert_token signature kind request "".

Definition signed (signature : string) (x : OAuthToken) : bool := String.eqb (Signature x) signature.
Definition of_kind (kind : TokenType) (x : OAuthToken) : bool := bool_decide (Tk_Type x = kind).
Definition consume (x : OAuthToken) : OAuthToken :=
  mkOAuthToken (Tk_ID x) (Signature x) (Tk_ClientID x) (Tk_UserID x) (Tk_Hash x) (Tk_Scopes x) (Tk_Type x) (Tk_SessionData x) (Tk_ExpiresAt x) true
    (ParentSignature x).

(** Tokens of the clients that have a token of the signature. *)
Definition same_family (signature : string) (d : auth_db) (x : OAuthToken) : bool :=
  existsb (fun y => signed signature y && String.eqb (Tk_ClientID y) (Tk_ClientID x)) (rows (tokens d)).
Definition revokeTokenFamily (signature : string) : prog auth_db unit :=
  let! _ := exec (E := auth_error) EAuthDb (fun d => set_tokens (update_rows (same_family signature d) consume (tokens d)) d) (fun _ => tt) in Ret tt.

Definition getTokenSession (signature : string) (kind : TokenType) : A Requester :=
  let! found := query EAuthDb (fun d => find_row (fun x => signed signature x && of_kind kind x) (tokens d)) in
  match found with
  | Ok None => Ret (Err FositeNotFound)
  | Ok (Some x) =>
      if Consumed x then
        let! _ := revokeTokenFamily signature in
        Ret (Err FositeInactiveToken)
      else
        let? client := store_GetClient (Tk_ClientID x) in
        let scopes := splitScopes (Tk_Scopes x) in
        let! id := uuid in
        Ret (Ok (mkRequester id client scopes scopes (Tk_SessionData x) ∅))
  | _ => Ret (Err FositeServerError)
  end.
Definition deleteTokenSession (signature : string) : A unit :=
  exec EAuthDb (fun d => set_tokens (delete_rows (signed signature) (tokens d)) d) (fun _ => tt).

Definition CreateAccessTokenSession (signature : string) (request : Requester) : A unit := createTokenSession signature TokenTypeAccess request.
Definition GetAccessTokenSession (signature : string) : A Requester := getTokenSession signature TokenTypeAccess.
Definition DeleteAccessTokenSession (signature : string) : A unit := deleteTokenSession signature.
Definition CreateRefreshTokenSession (signature accessSignature : string) (request : Requester) : A unit :=
  insert_token signature TokenTypeRefresh request accessSignature.
Definition GetRefreshTokenSession (signature : string) : A Requester := getTokenSession signature TokenTypeRefresh.
Definition DeleteRefreshTokenSession (signature : string) : A unit := deleteTokenSession signature.

(** [RotateRefreshToken] ignores the request's id. *)
Definition RotateRefreshToken (requestID refreshTokenSignature : string) : A unit :=
  fosite_exec (fun d => set_tokens (update_rows (fun x => signed refreshTokenSignature x && of_kind TokenTypeRefresh x) consume (tokens d)) d) (fun _ => true).

(** The revocations are handed the id of a request. *)
Definition RevokeRefreshToken (requestID : string) : A unit :=
  exec EAuthDb (fun d => set_tokens (update_rows (fun x => of_kind TokenTypeRefresh x && signed requestID x) consume (tokens d)) d) (fun _ => tt).
Definition RevokeAccessToken (requestID : string) : A unit :=
  exec EAuthDb (fun d => set_tokens (delete_rows (fun x => signed requestID x && of_kind TokenTypeAccess x) (tokens d)) d) (fun _ => tt).

(** *** PKCE *)
Definition with_challenge (challenge method : string) (c : AuthorizationCode) : AuthorizationCode :=
  mkAuthorizationCode (Code_ClientID c) (Code_UserID c) (Code_RedirectURI c) (Code_Scopes c) challenge method (Code_SessionData c) (Code_ExpiresAt c) (Used c).
Definition CreatePKCERequestSession (signature : string) (request : Requester) : A unit :=
  let challenge := form_Get "code_challenge" request in
  if str_empty challenge then Ret (Ok tt)
  else fosite_exec (fun d => set_codes (alter (with_challenge challenge (form_Get "code_challenge_method" request)) signature (codes d)) d) (fun _ => true).
Definition GetPKCERequestSession (signature : string) : A Requester := GetAuthorizeCodeSession signature.
Definition DeletePKCERequestSession (signature : string) : A unit := Ret (Ok tt).
End FositeStore.

(** ** External identities (idp/store.go) *)
Section IdentityStore.
Definition linked (provider externalID : string) (x : UserIdentity) : bool := String.eqb (Provider x) provider && String.eqb (ExternalID x) externalID.
Definition FindByProvider (provider externalID : string) : A Z :=
  query_o EAuthDb (fun d => match find_row (linked provider externalID) (identities d) with Some x => Ok (Id_UserID x) | None => Err EAuthNoRows end).

(** UNIQUE (provider, external_id), [user_id] REFERENCES users(id). *)
Definition insertable_identity (userID : Z) (provider externalID : string) (d : auth_db) : bool :=
  (affected (linked provider externalID) (identities d) =? 0) && negb (affected (by_id userID) (users d) =? 0).
Definition identity_row (userID : Z) (provider externalID email displayName claims : string) (t id : Z) : UserIdentity :=
  mkUserIdentity id userID provider externalID email displayName claims t.
Definition store_Create (userID : Z) (provider externalID email displayName claims : string) : A unit :=
  exec_o EAuthDb
    (fun d => if insertable_identity userID provider externalID d
              then set_identities (insert_row (identity_row userID provider externalID email displayName claims (now d)) (identities d)) d else d)
    (fun d => if insertable_identity userID provider externalID d then Ok tt else Err EAuthDb).

Definition id_oldest (a b : UserIdentity) : Prop := Id_CreatedAt a <= Id_CreatedAt b.
#[export] Instance id_oldest_dec a b : Decision (id_oldest a b).
Proof. unfold id_oldest. apply _. Defined.
Definition ListByUser {HEng : Engine} (userID : Z) : A (list UserIdentity) :=
  query EAuthDb (fun d => select_by id_oldest (fun x => Id_UserID x =? userID) (identities d)).
End IdentityStore.
