(* ===== verification/AuthHandlers.v ===== *)
(** * Login, middleware and identity providers (internal/auth: handlers.go,
    middleware.go, provider.go; idp: handlers.go, oidc.go, github.go; the user
    commands of internal/admin/socket.go)

    The handlers as functions of a decoded request; a response keeps its status,
    the code of its error, and the session cookie it sets.  HTML pages, log
    events and the metadata document are left out. *)
From S2P Require Import Prelude Prog Table Messaging Agents Attachments Retention Auth.

(** ** Requests and responses *)
Record request (B : Type) := mkRequest {
  Method : string;
  Cookie : option string;            (** the session cookie *)
  Remote : string;                   (** [remoteIP] *)
  CtxUser : option User;             (** [UserFromContext] *)
  CtxSession : option string;        (** [SessionIDFromContext] *)
  Body : option B                    (** the decoded body, unless it does not decode *)
}.
Arguments mkRequest {B}.
Arguments Method {B} r.
Arguments Cookie {B} r.
Arguments Remote {B} r.
Arguments CtxUser {B} r.
Arguments CtxSession {B} r.
Arguments Body {B} r.

Inductive response :=
| Refused (status : Z) (code : string)
| Answered (status : Z) (user : option User) (cookie : option (string * Z)).

(** ** The limiter of failed logins *)
Definition maxLoginFailures : Z := 3.
Definition loginBlockTime : Z := 60.

(** A step under the limiter's mutex. *)
Definition locked {B} (upd : auth_db -> auth_db) (ans : auth_db -> B) : prog auth_db B :=
  Stmt upd (fun d => Ret (ans d)) (Peek (fun d => Ret (ans d))).

Definition blocked_at (ip : string) (d : auth_db) : bool :=
  match attempts d !! ip with
  | Some a => (maxLoginFailures <=? failures a) && (now d - blockedAt a <? loginBlockTime)
  | None => false
  end.
Definition expired_at (ip : string) (d : auth_db) : bool :=
  match attempts d !! ip with Some a => loginBlockTime <=? now d - blockedAt a | None => false end.
Definition isBlocked (ip : string) : prog auth_db bool :=
  locked (fun d => if negb (blocked_at ip d) && expired_at ip d then set_attempts (delete ip (attempts d)) d else d) (blocked_at ip).
Definition count_failure (t : Z) (a : option loginAttempt) : loginAttempt :=
  mkLoginAttempt (match a with Some a => failures a | None => 0 end + 1) t.
Definition recordFailure (ip : string) : prog auth_db unit :=
  locked (fun d => set_attempts (<[ip := count_failure (now d) (attempts d !! ip)]> (attempts d)) d) (fun _ => tt).
Definition clearFailures (ip : string) : prog auth_db unit :=
  locked (fun d => set_attempts (delete ip (attempts d)) d) (fun _ => tt).

(** ** Handlers (handlers.go) *)
Record register_body := mkRegister { rb_Username : string; rb_Password : string; rb_DisplayName : string }.
Record login_body := mkLogin { lb_Username : string; lb_Password : string }.
Record password_body := mkPasswordBody { CurrentPassword : string; NewPassword : string }.

Section Handlers.
Context {HSec : Secrets} (cfg : Config).

Definition HandleRegister (r : request register_body) : prog auth_db response :=
  if negb (String.eqb (Method r) "POST") then Ret (Refused 405 "method_not_allowed")
  else match Body r with
       | None => Ret (Refused 400 "invalid_request")
       | Some b =>
           let! created := CreateUser (rb_Username b) (rb_Password b) (rb_DisplayName b) in
           Ret (match created with
                | Ok user => Answered 201 (Some user) None
                | Err ErrDuplicateUsername => Refused 409 "duplicate_username"
                | Err ErrInvalidUsername => Refused 400 "invalid_username"
                | Err ErrPasswordTooShort | Err ErrPasswordTooLong => Refused 400 "invalid_password"
                | _ => Refused 500 "server_error"
                end)
       end.

Definition HandleLogin (r : request login_body) : prog auth_db response :=
  if negb (String.eqb (Method r) "POST") then Ret (Refused 405 "method_not_allowed")
  else
    let ip := Remote r in
    let! blocked := isBlocked ip in
    if blocked : bool then Ret (Refused 429 "rate_limited")
    else match Body r with
         | None => Ret (Refused 400 "invalid_request")
         | Some b =>
             let! verified := VerifyPassword (lb_Username b) (lb_Password b) in
             match verified with
             | Ok user =>
                 let! _ := clearFailures ip in
                 let! created := CreateSession (User_ID user) (SessionLifetime cfg) in
                 Ret (match created with
                      | Ok s => Answered 200 (Some user) (Some (SessionID s, SessionLifetime cfg))
                      | _ => Refused 500 "server_error"
                      end)
             | _ => let! _ := recordFailure ip in Ret (Refused 401 "invalid_credentials")
             end
         end.

Definition HandleLogout (r : request unit) : prog auth_db response :=
  if negb (String.eqb (Method r) "POST") then Ret (Refused 405 "method_not_allowed")
  else
    let! _ := match Cookie r with
              | Some id => if str_empty id then Ret (Ok tt) else DeleteSession id
              | None => Ret (Ok tt)
              end in
    Ret (Answered 200 None (Some ("", -1))).

Definition HandleMe (r : request unit) : response :=
  if negb (String.eqb (Method r) "GET") then Refused 405 "method_not_allowed"
  else match CtxUser r with None => Refused 401 "unauthorized" | Some user => Answered 200 (Some user) None end.

Definition HandleUpdateProfile (r : request string) : prog auth_db response :=
  if negb (String.eqb (Method r) "PUT") then Ret (Refused 405 "method_not_allowed")
  else match CtxUser r with
       | None => Ret (Refused 401 "unauthorized")
       | Some user =>
           match Body r with
           | None => Ret (Refused 400 "invalid_request")
           | Some name =>
               if str_empty (trim_space name) then Ret (Refused 400 "invalid_request")
               else
                 let! updated := UpdateDisplayName (User_ID user) name in
                 match updated with
                 | Ok _ =>
                     let! found := GetUserByID (User_ID user) in
                     Ret (match found with Ok u => Answered 200 (Some u) None | _ => Refused 500 "server_error" end)
                 | _ => Ret (Refused 500 "server_error")
                 end
           end
       end.

Definition HandleChangePassword (r : request password_body) : prog auth_db response :=
  if negb (String.eqb (Method r) "PUT") then Ret (Refused 405 "method_not_allowed")
  else match CtxUser r with
       | None => Ret (Refused 401 "unauthorized")
       | Some user =>
           match Body r with
           | None => Ret (Refused 400 "invalid_request")
           | Some b =>
               let! verified := VerifyPassword (Username user) (CurrentPassword b) in
               match verified with
               | Ok _ =>
                   let! updated := UpdatePassword (User_ID user) (NewPassword b) in
                   match updated with
                   | Ok _ =>
                       let! _ := match CtxSession r with
                                 | Some sessionID => DeleteSessionsByUserExcept (User_ID user) sessionID
                                 | None => Ret (Ok tt)
                                 end in
                       Ret (Answered 200 None None)
                   | Err ErrPasswordTooShort | Err ErrPasswordTooLong => Ret (Refused 400 "invalid_password")
                   | _ => Ret (Refused 500 "server_error")
                   end
               | _ => Ret (Refused 403 "invalid_password")
               end
           end
       end.

(** ** Sessions and bearer tokens (middleware.go) *)

(** Who a request that passes acts as: user, session, OAuth client, agent. *)
Record identity := mkIdentity {
  id_User : option User;
  id_Session : option string;
  id_Client : option string;
  id_Agent : option string
}.

Definition session_identity (cookie : option string) : prog auth_db ((response + identity) * option session_task) :=
  match cookie with
  | None => Ret (inl (Refused 401 "unauthorized"), None)
  | Some value =>
      if str_empty value then Ret (inl (Refused 401 "unauthorized"), None)
      else
        let! got := GetSession value in
        let '(found, task) := got in
        match found with
        | Ok s =>
            let! loaded := GetUserByID (Sess_UserID s) in
            Ret (match loaded with
                 | Ok user => inr (mkIdentity (Some user) (Some (SessionID s)) None None)
                 | _ => inl (Refused 401 "unauthorized")
                 end, task)
        | _ => Ret (inl (Refused 401 "unauthorized"), task)
        end
  end.
Definition RequireSession (r : request unit) : prog auth_db ((response + identity) * option session_task) := session_identity (Cookie r).

Definition RequireAdmin (user : option User) : option response :=
  match user with
  | None => Some (Refused 401 "unauthorized")
  | Some u => if bool_decide (Role u = RoleAdmin) then None else Some (Refused 403 "forbidden")
  end.

(** fosite: what introspection finds for a token, and the two halves of an
    authorization request.  A program of fosite calls the store. *)
Class OAuthProvider := {
  IntrospectToken : string -> A Requester;
  NewAuthorizeRequest : gmap string string -> A Requester;
  GrantScope : string -> Requester -> Requester;
  NewAuthorizeResponse : Requester -> fositeSession -> A string
}.
(** [strings.EqualFold] with an ASCII text. *)
Class FoldEqual := { EqualFold : string -> string -> bool }.

(** [strings.SplitN(s, " ", 2)], both parts present. *)
Fixpoint split_once (sep : Ascii.ascii) (s : string) : option (string * string) :=
  match s with
  | EmptyString => None
  | String c rest => if Ascii.eqb c sep then Some (EmptyString, rest)
                     else prod_map (String c) id <$> split_once sep rest
  end.

Definition RequireBearer {HProv : OAuthProvider} {HFold : FoldEqual} (authHeader : string) : prog auth_db (response + identity) :=
  if str_empty authHeader then Ret (inl (Refused 401 "unauthorized"))
  else match split_once (Ascii.ascii_of_nat 32) authHeader with
       | None => Ret (inl (Refused 401 "unauthorized"))
       | Some (scheme, token) =>
           if negb (EqualFold scheme "Bearer") then Ret (inl (Refused 401 "unauthorized"))
           else
             let! introspected := IntrospectToken token in
             match introspected with
             | Ok ar =>
                 let sess := Req_Session ar in
                 let! user := (if 0 <? fs_UserID sess then
                                 let! loaded := GetUserByID (fs_UserID sess) in
                                 Ret (match loaded with Ok u => Some u | _ => None end)
                               else Ret None) in
                 Ret (inr (mkIdentity user None (Some (Client_ID (Req_Client ar)))
                             (if str_empty (fs_AgentName sess) then None else Some (fs_AgentName sess))))
             | _ => Ret (inl (Refused 401 "unauthorized"))
             end
       end.

Definition RequireAuth {HProv : OAuthProvider} {HFold : FoldEqual} (authHeader : string) (r : request unit)
    : prog auth_db ((response + identity) * option session_task) :=
  if str_empty authHeader then RequireSession r
  else let! o := RequireBearer authHeader in Ret (o, None).
End Handlers.

(** ** The authorization flow (handlers.go, provider.go) *)

(** [url.Parse]: host name, port and path; [URL.String] with another host. *)
Class GoURL := {
  URL_parts : string -> option (string * string * string);
  URL_with_host : string -> string -> string
}.
(** The agents of a user, for the page. *)
Class AgentLister := { ListAgentsByOwner : Z -> A (list string); ListAgentsByOwner_frame : forall id, within eq (ListAgentsByOwner id) }.

Record registration_body := mkRegistration { ClientName : string; ReqRedirectURIs : list string }.

Record authorizeParams := mkAuthorizeParams {
  ResponseType : string;
  ap_ClientID : string;
  RedirectURI : string;
  State : string;
  Scope : string;
  ap_CodeChallenge : string;
  ap_CodeChallengeMethod : string
}.
Record authorizePageData := mkPageData {
  LoggedIn : bool;
  pd_Username : string;
  Agents : list string;
  NoAgents : bool;
  LoginError : string
}.
(** A page, or what fosite writes: its error, or the code it issued. *)
Inductive authorize_answer :=
| Page (data : authorizePageData) (cookie : option (string * Z))
| AuthorizeError
| AuthorizeCode (code : string)
| AuthorizeRefused (r : response).

(** The fosite sessions of provider.go. *)
Definition NewSession (user : User) : fositeSession := mkFositeSession (User_ID user) (Username user) (Username user) "" ∅.
Definition NewSessionWithAgent (user : User) (agentName : string) : fositeSession :=
  mkFositeSession (User_ID user) (Username user) (Username user) agentName ∅.

Section Authorize.
Context {HSec : Secrets} {HProv : OAuthProvider} {HURL : GoURL} {HAgents : AgentLister} (cfg : Config).

Definition loopback_uri (uri : string) : string :=
  match URL_parts uri with
  | Some (host, _, path) => if String.eqb host "localhost" || String.eqb host "127.0.0.1" then "http://127.0.0.1" +:+ path else uri
  | None => uri
  end.
Definition HandleDynamicRegistration (r : request registration_body) : prog auth_db (response + OAuthClient) :=
  if negb (String.eqb (Method r) "POST") then Ret (inl (Refused 405 "method_not_allowed"))
  else match Body r with
       | None => Ret (inl (Refused 400 "invalid_client_metadata"))
       | Some b =>
           let name := if str_empty (ClientName b) then "dynamic-client" else ClientName b in
           let uris := match ReqRedirectURIs b with [] => ["http://127.0.0.1"] | l => l end in
           let! created := CreatePublicClient name (Some (loopback_uri <$> uris)) (Some ["authorization_code"; "refresh_token"]) (Some ["mcp"]) in
           Ret (match created with Ok c => inr c | _ => inl (Refused 500 "server_error") end)
       end.

(** [localhost] becomes 127.0.0.1 with its port. *)
Definition normalize_redirect (uri : string) : string :=
  match URL_parts uri with
  | Some (host, port, _) =>
      if String.eqb host "localhost"
      then URL_with_host uri (if str_empty port then "127.0.0.1" else "127.0.0.1:" +:+ port) else uri
  | None => uri
  end.

Definition trySessionAuth (cookie : option string) : prog auth_db (option User * option session_task) :=
  let! o := session_identity cookie in
  Ret (match o.1 with inr i => id_User i | inl _ => None end, o.2).

(** The agents of a failed listing are nil. *)
Definition listUserAgents (userID : Z) : prog auth_db (list string) :=
  let! o := ListAgentsByOwner userID in Ret (match o with Ok l => l | _ => [] end).

Definition HandleAuthorizeGet (cookie : option string) : prog auth_db (authorize_answer * option session_task) :=
  let! auth := trySessionAuth cookie in
  match auth.1 with
  | None => Ret (Page (mkPageData false "" [] false "") None, auth.2)
  | Some user =>
      let! agents := listUserAgents (User_ID user) in
      Ret (Page (mkPageData true (Username user) agents (bool_decide (agents = [])) "") None, auth.2)
  end.

Definition handleAuthorizeLogin (username password : string) : prog auth_db authorize_answer :=
  let! verified := VerifyPassword username password in
  match verified with
  | Ok user =>
      let! created := CreateSession (User_ID user) (SessionLifetime cfg) in
      match created with
      | Ok s =>
          let! agents := listUserAgents (User_ID user) in
          Ret (Page (mkPageData true (Username user) agents (bool_decide (agents = [])) "") (Some (SessionID s, SessionLifetime cfg)))
      | _ => Ret (Page (mkPageData false "" [] false "Server error, please try again") None)
      end
  | _ => Ret (Page (mkPageData false "" [] false "Invalid username or password") None)
  end.

Definition authorize_query (p : authorizeParams) (redirectURI : string) : gmap string string :=
  list_to_map [("response_type", ResponseType p); ("client_id", ap_ClientID p); ("redirect_uri", redirectURI); ("state", State p); ("scope", Scope p);
               ("code_challenge", ap_CodeChallenge p); ("code_challenge_method", ap_CodeChallengeMethod p)].
Definition grant_requested (ar : Requester) : Requester := foldl (fun r scope => GrantScope scope r) ar (RequestedScope ar).

Definition handleAuthorizeApprove (cookie : option string) (agentName : string) (params : authorizeParams)
    : prog auth_db (authorize_answer * option session_task) :=
  let! auth := trySessionAuth cookie in
  match auth.1 with
  | None => Ret (Page (mkPageData false "" [] false "Session expired, please log in again") None, auth.2)
  | Some user =>
      if str_empty agentName then
        let! agents := listUserAgents (User_ID user) in
        Ret (Page (mkPageData true (Username user) agents false "Please select an agent") None, auth.2)
      else
        let! requested := NewAuthorizeRequest (authorize_query params (normalize_redirect (RedirectURI params))) in
        match requested with
        | Ok ar =>
            let! response := NewAuthorizeResponse (grant_requested ar) (NewSessionWithAgent user agentName) in
            Ret (match response with Ok code => AuthorizeCode code | _ => AuthorizeError end, auth.2)
        | _ => Ret (AuthorizeError, auth.2)
        end
  end.

Record authorize_form := mkAuthorizeForm {
  af_Action : string; af_Params : authorizeParams; af_Username : string; af_Password : string; af_AgentName : string }.
Definition HandleAuthorizePost (r : request authorize_form) : prog auth_db (authorize_answer * option session_task) :=
  if negb (String.eqb (Method r) "POST") then Ret (AuthorizeRefused (Refused 405 "method_not_allowed"), None)
  else match Body r with
       | None => Ret (AuthorizeRefused (Refused 400 "invalid_request"), None)
       | Some f =>
           if String.eqb (af_Action f) "login" then
             let! a := handleAuthorizeLogin (af_Username f) (af_Password f) in Ret (a, None)
           else if String.eqb (af_Action f) "authorize" then handleAuthorizeApprove (Cookie r) (af_AgentName f) (af_Params f)
           else Ret (AuthorizeRefused (Refused 400 "invalid_request"), None)
       end.
End Authorize.

(** ** Identity providers (idp) *)
Record ExternalUser := mkExternalUser {
  ProviderID : string;
  ext_ExternalID : string;
  ext_Email : string;
  Name : string;
  ext_Username : string;
  Groups : list string;
  ext_RawClaims : string
}.

(** The emails of a GitHub account: the primary verified one, else the first
    verified one. *)
Record githubEmail := mkGithubEmail { gh_Email : string; Primary : bool; Verified : bool }.
Definition primary_email (emails : list githubEmail) : option string :=
  match find (fun e => Primary e && Verified e) emails with
  | Some e => Some (gh_Email e)
  | None => gh_Email <$> find Verified emails
  end.
(** The email of the profile stands in when there is none. *)
Definition github_email (emails : option (list githubEmail)) (profile : option string) : string :=
  match (emails ≫= primary_email) with
  | Some e => if str_empty e then default "" profile else e
  | None => default "" profile
  end.

(** The claims of an OIDC token. *)
Record claims := mkClaims { Sub : string; cl_Email : string; cl_Name : string; PreferredUsername : string; HD : string; cl_Groups : list string; cl_Raw : string }.
Definition at_sign : Ascii.ascii := Ascii.ascii_of_nat 64.

Section OIDC.
Context {HFold : FoldEqual} (allowedDomains : list string) (groupMapping : gmap string string).
Definition claim_domain (email hostedDomain : string) : string :=
  if str_empty hostedDomain && negb (str_empty email)
  then match split_once at_sign email with Some (_, domain) => domain | None => hostedDomain end
  else hostedDomain.
Definition validateDomain (email hostedDomain : string) : bool :=
  let domain := claim_domain email hostedDomain in
  negb (str_empty domain) && existsb (EqualFold domain) allowedDomains.

Definition mapped_groups (c : claims) : list string :=
  if decide (groupMapping = ∅) then cl_Groups c else omap (fun g => groupMapping !! g) (cl_Groups c).
Definition claim_username (c : claims) : string :=
  if str_empty (PreferredUsername c) && negb (str_empty (cl_Email c))
  then match split_once at_sign (cl_Email c) with Some (local, _) => local | None => cl_Email c end
  else PreferredUsername c.
(** The part of [Exchange] after the token is verified. *)
Definition external_user (id : string) (c : claims) : option ExternalUser :=
  if negb (bool_decide (allowedDomains = [])) && negb (validateDomain (cl_Email c) (HD c)) then None
  else Some (mkExternalUser id (Sub c) (cl_Email c) (cl_Name c) (claim_username c) (mapped_groups c) (cl_Raw c)).
End OIDC.

(** The length of the rune a text starts with, one for an invalid byte. *)
Definition between (lo hi : nat) (a : Ascii.ascii) : bool := let n := Ascii.nat_of_ascii a in ((lo <=? n) && (n <=? hi))%nat.
Definition continuation : Ascii.ascii -> bool := between 128 191.
Definition second_byte (c : Ascii.ascii) : Ascii.ascii -> bool :=
  let n := Ascii.nat_of_ascii c in
  if (n =? 224)%nat then between 160 191 else if (n =? 237)%nat then between 128 159
  else if (n =? 240)%nat then between 144 191 else if (n =? 244)%nat then between 128 143 else continuation.
Definition rune_length (s : list Ascii.ascii) : nat :=
  match s with
  | c :: c1 :: rest =>
      if between 194 223 c then if second_byte c c1 then 2 else 1
      else if between 224 239 c then
        match rest with c2 :: _ => if second_byte c c1 && continuation c2 then 3 else 1 | _ => 1 end
      else if between 240 244 c then
        match rest with c2 :: c3 :: _ => if second_byte c c1 && continuation c2 && continuation c3 then 4 else 1 | _ => 1 end
      else 1
  | _ => 1
  end%nat.
(** Every other rune becomes an underscore. *)
Fixpoint replace_runes (skip : nat) (s : list Ascii.ascii) : list Ascii.ascii :=
  match s with
  | [] => []
  | c :: rest =>
      match skip with
      | S k => replace_runes k rest
      | O => (if name_char c then c else Ascii.ascii_of_nat 95) :: replace_runes (rune_length s - 1) rest
      end
  end.
Definition underscore (a : Ascii.ascii) : bool := Ascii.eqb a (Ascii.ascii_of_nat 95).
Fixpoint drop_underscores (s : list Ascii.ascii) : list Ascii.ascii :=
  match s with a :: r => if underscore a then drop_underscores r else s | [] => [] end.
Definition trim_underscores (s : list Ascii.ascii) : list Ascii.ascii := rev (drop_underscores (rev (drop_underscores s))).
Definition sanitizeUsername (username provider externalID : string) : string :=
  let username := if str_empty username then provider +:+ "_" +:+ externalID else username in
  let username := trim_underscores (replace_runes 0 (String.list_ascii_of_string username)) in
  let username := if (length username <? 3)%nat then username ++ String.list_ascii_of_string "_user" else username in
  String.string_of_list_ascii (take 64 username).

Section Idp.
Context {HSec : Secrets} {HEng : Engine}.

Definition hex_bytes (n : nat) : A string := let? b := read_random n in Ret (Ok (hex_encode b)).
Definition generateState : A string := hex_bytes 16.
Definition generateRandomPassword : A string := hex_bytes 32.
Definition generateShortID : A string := hex_bytes 3.

(** The error of a link is only logged. *)
Definition link_identity (userID : Z) (ext : ExternalUser) : prog auth_db unit :=
  let! _ := store_Create userID (ProviderID ext) (ext_ExternalID ext) (ext_Email ext) (Name ext) (ext_RawClaims ext) in Ret tt.

(** The name with a suffix when it is taken. *)
Definition create_with_suffix (username password displayName : string) : A User :=
  let! created := CreateUser username password displayName in
  match created with
  | Err ErrDuplicateUsername =>
      let! suffix := generateShortID in
      CreateUser (username +:+ "_" +:+ match suffix with Ok s => s | _ => "" end) password displayName
  | _ => Ret created
  end.

Definition provision (ext : ExternalUser) : A User :=
  let username := sanitizeUsername (ext_Username ext) (ProviderID ext) (ext_ExternalID ext) in
  let displayName := if str_empty (Name ext) then username else Name ext in
  let? randomPW := generateRandomPassword in
  let? user := create_with_suffix username randomPW displayName in
  let! _ := (if str_empty (ext_Email ext) then Ret (Ok tt) else SetEmail (User_ID user) (ext_Email ext)) in
  let! _ := link_identity (User_ID user) ext in
  Ret (Ok user).

Definition findOrCreateUser (ext : ExternalUser) : A User :=
  let! found := FindByProvider (ProviderID ext) (ext_ExternalID ext) in
  match found with
  | Ok userID => GetUserByID userID
  | Err EAuthNoRows =>
      if str_empty (ext_Email ext) then provision ext
      else
        let! known := GetUserByEmail (ext_Email ext) in
        match known with
        | Ok user => let! _ := link_identity (User_ID user) ext in Ret (Ok user)
        | Err ErrUserNotFound => provision ext
        | Err e => Ret (Err e)
        | Panic w => Ret (Panic w)
        end
  | Err e => Ret (Err e)
  | Panic w => Ret (Panic w)
  end.

(** A provider's [Exchange]; [None] for a provider that is not configured. *)
Class Providers := { Exchange : string -> option (string -> outcome auth_error ExternalUser) }.

Record callback := mkCallback { cb_Provider : string; StateCookie : option string; cb_State : string; cb_Error : string; Code : string }.
Inductive callback_answer :=
| CallbackRefused (status : Z)
| RedirectLogin (error : string)
| SignedIn (user : User) (cookie : string * Z).

Definition HandleCallback {HProvs : Providers} (r : callback) : prog auth_db callback_answer :=
  match Exchange (cb_Provider r) with
  | None => Ret (CallbackRefused 404)
  | Some exchange =>
      if str_empty (default "" (StateCookie r)) then Ret (CallbackRefused 400)
      else if negb (String.eqb (cb_State r) (default "" (StateCookie r))) then Ret (CallbackRefused 400)
      else if negb (str_empty (cb_Error r)) then Ret (RedirectLogin (cb_Error r))
      else if str_empty (Code r) then Ret (CallbackRefused 400)
      else match exchange (Code r) with
           | Ok ext =>
               let! provisioned := findOrCreateUser ext in
               match provisioned with
               | Ok user =>
                   let! created := CreateSession (User_ID user) (24 * 3600) in
                   Ret (match created with Ok s => SignedIn user (SessionID s, 86400) | _ => CallbackRefused 500 end)
               | _ => Ret (RedirectLogin "provisioning_failed")
               end
           | _ => Ret (RedirectLogin "exchange_failed")
           end
  end.
End Idp.

(** ** User commands of the administration socket (internal/admin/socket.go) *)
Section Admin.
Context {HSec : Secrets}.

Definition handleUserCreate (username password displayName : string) : A User :=
  if str_empty username || str_empty password then Ret (Err EMissingArgs) else CreateUser username password displayName.

(** Users the other tables refer to cannot be deleted; their identities go with
    them. *)
Definition referenced_user (id : Z) (d : auth_db) : bool :=
  bool_decide (filter (fun ks : string * Session => Sess_UserID ks.2 = id) (sessions d) <> ∅) ||
  bool_decide (filter (fun ks : string * AuthorizationCode => Code_UserID ks.2 = id) (codes d) <> ∅) ||
  bool_decide (filter (fun ks : string * OAuthClient => Client_OwnerID ks.2 = Some id) (clients d) <> ∅) ||
  existsb (fun x => bool_decide (Tk_UserID x = Some id)) (rows (tokens d)).
Definition delete_user (id : Z) : A unit :=
  exec_o EAuthDb
    (fun d => if referenced_user id d then d
              else set_identities (delete_rows (fun x => Id_UserID x =? id) (identities d)) (set_users (delete_rows (by_id id) (users d)) d))
    (fun d => if referenced_user id d then Err EAuthDb else Ok tt).
Definition handleUserDelete (username : string) : A unit :=
  if str_empty username then Ret (Err EMissingArgs)
  else
    let? user := GetUserByUsername username in
    let? _ := DeleteSessionsByUser (User_ID user) in
    delete_user (User_ID user).
Definition handleUserPasswd (username password : string) : A unit :=
  if str_empty username || str_empty password then Ret (Err EMissingArgs)
  else let? user := GetUserByUsername username in UpdatePassword (User_ID user) password.
End Admin.
