(* ===== verification/AuthSpec.v ===== *)
(** * What accounts, sessions and grants guarantee

    The invariant of the tables of internal/auth and its preservation by
    concurrent calls; sessions, login limits, tokens, and the provisioning of
    external users, one call at a time. *)
From S2P Require Import Prelude Prog Table Messaging Agents Attachments Retention MemoryTools Auth AuthHandlers.

(** ** The invariant *)
Definition has_user (us : table User) (id : Z) : Prop := exists u, u ∈ rows us /\ User_ID u = id.

(** The users the rows of the other tables name. *)
Definition referenced (d : auth_db) (id : Z) : Prop :=
  (exists k s, sessions d !! k = Some s /\ Sess_UserID s = id) \/ (exists k c, clients d !! k = Some c /\ Client_OwnerID c = Some id) \/
  (exists k c, codes d !! k = Some c /\ Code_UserID c = id) \/ (exists x, x ∈ rows (tokens d) /\ Tk_UserID x = Some id) \/
  (exists x, x ∈ rows (identities d) /\ Id_UserID x = id).

Definition external_key (x : UserIdentity) : string * string := (Provider x, ExternalID x).
Definition users_ok (us : table User) : Prop :=
  table_ok us /\ NoDup (Username <$> rows us) /\ forall u, u ∈ rows us -> usernameRegex (Username u) = true.
Definition attempt_ok (d : auth_db) (a : loginAttempt) : Prop := 1 <= failures a /\ blockedAt a <= now d.

Section Invariant.
Context {HSha : GoSha256}.
Definition token_ok (x : OAuthToken) : Prop := Tk_Hash x = hashSignature (Signature x) /\ Tk_UserID x = session_user (Tk_SessionData x).

Definition auth_ok (d : auth_db) : Prop :=
  users_ok (users d) /\ (forall id, referenced d id -> has_user (users d) id) /\
  (forall k s, sessions d !! k = Some s -> SessionID s = k) /\ (forall k c, clients d !! k = Some c -> Client_ID c = k) /\
  (table_ok (tokens d) /\ NoDup (Tk_Hash <$> rows (tokens d)) /\ forall x, x ∈ rows (tokens d) -> token_ok x) /\
  (table_ok (identities d) /\ NoDup (external_key <$> rows (identities d))) /\
  (forall ip a, attempts d !! ip = Some a -> attempt_ok d a).

(** ** What may change *)
Definition same_user (u u' : User) : Prop := User_ID u' = User_ID u /\ Username u' = Username u /\ Role u' = Role u /\ User_CreatedAt u' = User_CreatedAt u.
Definition code_after (c c' : AuthorizationCode) : Prop :=
  Code_ClientID c' = Code_ClientID c /\ Code_UserID c' = Code_UserID c /\ Code_RedirectURI c' = Code_RedirectURI c /\ Code_Scopes c' = Code_Scopes c /\
  Code_SessionData c' = Code_SessionData c /\ Code_ExpiresAt c' = Code_ExpiresAt c /\ (Used c = true -> Used c' = true).
Definition token_after (x x' : OAuthToken) : Prop :=
  Tk_ID x' = Tk_ID x /\ Signature x' = Signature x /\ Tk_ClientID x' = Tk_ClientID x /\ Tk_UserID x' = Tk_UserID x /\ Tk_Hash x' = Tk_Hash x /\
  Tk_Scopes x' = Tk_Scopes x /\ Tk_Type x' = Tk_Type x /\ Tk_SessionData x' = Tk_SessionData x /\ Tk_ExpiresAt x' = Tk_ExpiresAt x /\
  (Consumed x = true -> Consumed x' = true).

(** The rows of a table after some steps: new ones, or old ones related by [P]. *)
Definition rows_after {R} `{!Row R} (P : R -> R -> Prop) (t t' : table R) : Prop :=
  next_id t <= next_id t' /\ forall r', r' ∈ rows t' -> next_id t <= row_id r' \/ exists r, r ∈ rows t /\ P r r'.

Definition auth_after (d d' : auth_db) : Prop :=
  now d <= now d' /\ rows_after same_user (users d) (users d') /\ rows_after token_after (tokens d) (tokens d') /\
  (forall k c, codes d !! k = Some c -> exists c', codes d' !! k = Some c' /\ code_after c c') /\
  (forall k c, clients d !! k = Some c -> clients d' !! k = Some c).

Lemma rows_after_refl {R} `{!Row R} P t : (forall r, P r r) -> rows_after (R := R) P t t.
Proof. intros HP. split; [lia|]. intros r Hr. right. by exists r. Qed.

Lemma rows_after_trans {R} `{!Row R} (P : R -> R -> Prop) t1 t2 t3 :
  (forall a b, P a b -> row_id b = row_id a) -> (forall a b c, P a b -> P b c -> P a c) ->
  rows_after P t1 t2 -> rows_after P t2 t3 -> rows_after P t1 t3.
Proof.
  intros Hid HP [N1 H1] [N2 H2]. split; [lia|]. intros r Hr. destruct (H2 r Hr) as [?|(r2&Hr2&E2)]; [left; lia|].
  destruct (H1 r2 Hr2) as [?|(r1&Hr1&E1)]; [left; rewrite (Hid _ _ E2); lia|]. right. exists r1. split; [done|by eapply HP].
Qed.

Lemma same_user_refl u : same_user u u.
Proof. by repeat split. Qed.
Lemma code_after_refl c : code_after c c.
Proof. by repeat split. Qed.
Lemma token_after_refl x : token_after x x.
Proof. by repeat split. Qed.

#[export] Instance auth_after_preorder : PreOrder auth_after.
Proof.
  split.
  - intros d. split_and!; [lia|by apply rows_after_refl, same_user_refl|by apply rows_after_refl, token_after_refl| |done].
    intros k c Hc. exists c. split; [done|apply code_after_refl].
  - intros a b c (N1&U1&T1&C1&L1) (N2&U2&T2&C2&L2). split_and!; [lia| | | |auto].
    + eapply rows_after_trans; [by intros x y [E _]| |exact U1|exact U2]. intros x y z (?&?&?&?) (?&?&?&?). split_and!; congruence.
    + eapply rows_after_trans; [by intros x y [E _]| |exact T1|exact T2].
      intros x y z (?&?&?&?&?&?&?&?&?&?) (?&?&?&?&?&?&?&?&?&?). split_and!; try congruence. auto.
    + intros k x Hx. destruct (C1 k x Hx) as (y&Hy&(?&?&?&?&?&?&?)). destruct (C2 k y Hy) as (z&Hz&(?&?&?&?&?&?&?)).
      exists z. split; [done|]. split_and!; try congruence. auto.
Qed.

Lemma auth_after_same d d' : now d <= now d' -> users d' = users d -> tokens d' = tokens d -> codes d' = codes d -> clients d' = clients d -> auth_after d d'.
Proof.
  intros Hn E1 E2 E3 E4. destruct (reflexivity (R := auth_after) d) as (_&?&?&?&?). unfold auth_after. rewrite E1, E2, E3, E4. by split_and!.
Qed.

Definition auth_step (d d' : auth_db) : Prop := auth_ok d -> auth_ok d' /\ auth_after d d'.
#[export] Instance auth_step_preorder : PreOrder auth_step.
Proof.
  split; [intros d H; split; [done|reflexivity]|]. intros a b c H1 H2 H. destruct (H1 H) as [Hb Ha]. destruct (H2 Hb) as [Hc Hb'].
  split; [done|by etrans].
Qed.

(** ** Steps on the tables *)
Lemma user_of_session d k s : auth_ok d -> sessions d !! k = Some s -> SessionID s = k /\ has_user (users d) (Sess_UserID s).
Proof. intros (_&H2&H3&_) Hk. split; [by apply H3|]. apply H2. left. by exists k, s. Qed.
Lemma user_of_client d k c o : auth_ok d -> clients d !! k = Some c -> Client_OwnerID c = Some o -> has_user (users d) o.
Proof. intros (_&H2&_) Hk Ho. apply H2. right. left. by exists k, c. Qed.
Lemma user_of_code d k c : auth_ok d -> codes d !! k = Some c -> has_user (users d) (Code_UserID c).
Proof. intros (_&H2&_) Hk. apply H2. right. right. left. by exists k, c. Qed.
Lemma user_of_token d x o : auth_ok d -> x ∈ rows (tokens d) -> Tk_UserID x = Some o -> has_user (users d) o.
Proof. intros (_&H2&_) Hx Ho. apply H2. right. right. right. left. by exists x. Qed.
Lemma user_of_identity d x : auth_ok d -> x ∈ rows (identities d) -> has_user (users d) (Id_UserID x).
Proof. intros (_&H2&_) Hx. apply H2. right. right. right. right. by exists x. Qed.

Lemma sessions_step m d : (auth_ok d -> forall k s, m !! k = Some s -> SessionID s = k /\ has_user (users d) (Sess_UserID s)) -> auth_step d (set_sessions m d).
Proof.
  intros Hm Hd. specialize (Hm Hd). split; [|by apply auth_after_same]. pose proof Hd as (H1&H2&H3&H4&H5&H6&H7). split_and!; try done; try apply H5; try apply H6.
  - intros id [(k&s&Hk&<-)|[(k&c&Hk&E)|[(k&c&Hk&<-)|[(x&Hx&E)|(x&Hx&<-)]]]]; [by apply (Hm k)|by apply (user_of_client d k c)|by eapply (user_of_code d)|
      by apply (user_of_token d x)|by apply (user_of_identity d)].
  - intros k s Hk. by apply Hm.
Qed.

Lemma sessions_sub m d : (forall k s, m !! k = Some s -> sessions d !! k = Some s) -> auth_step d (set_sessions m d).
Proof. intros Hm. apply sessions_step. intros Hd k s Hk. by apply user_of_session, Hm. Qed.

Lemma affected_user id us : (affected (by_id id) us =? 0) = false -> has_user us id.
Proof.
  rewrite affected_find. destruct (find_row (by_id id) us) as [u|] eqn:E; [|done]. intros _. apply find_row_Some in E as [Hb Hu].
  exists u. split; [done|by apply Z.eqb_eq in Hb].
Qed.

Lemma clients_step k0 c0 d : (auth_ok d -> clients d !! k0 = None /\ Client_ID c0 = k0 /\ forall o, Client_OwnerID c0 = Some o -> has_user (users d) o) ->
  auth_step d (set_clients (<[k0 := c0]> (clients d)) d).
Proof.
  intros Hm Hd. destruct (Hm Hd) as (Hnone&Hid&Ho). pose proof Hd as (H1&H2&H3&H4&H5&H6&H7). split.
  - split_and!; try done; try apply H5; try apply H6.
    + intros id [(k&s&Hk&<-)|[(k&c&Hk&E)|[(k&c&Hk&<-)|[(x&Hx&E)|(x&Hx&<-)]]]].
      * by apply (user_of_session d k).
      * simpl in Hk. rewrite lookup_insert_Some in Hk. destruct Hk as [[_ <-]|[_ Hk]]; [by apply Ho|by apply (user_of_client d k c)].
      * by eapply (user_of_code d).
      * by apply (user_of_token d x).
      * by apply (user_of_identity d).
    + intros k c. simpl. rewrite lookup_insert_Some. intros [[<- <-]|[_ Hk]]; [done|by apply H4].
  - pose proof (reflexivity (R := auth_after) d) as (?&?&?&?&_). split_and!; try done. intros k c Hk. simpl. rewrite lookup_insert_Some. right. split; [|done].
    intros <-. congruence.
Qed.

Lemma codes_step m d :
  (auth_ok d -> (forall k c, m !! k = Some c -> has_user (users d) (Code_UserID c)) /\
     forall k c, codes d !! k = Some c -> exists c', m !! k = Some c' /\ code_after c c') ->
  auth_step d (set_codes m d).
Proof.
  intros Hm Hd. destruct (Hm Hd) as [Hu Hc]. pose proof Hd as (H1&H2&H3&H4&H5&H6&H7). split.
  - split_and!; try done; try apply H5; try apply H6.
    intros id [(k&s&Hk&<-)|[(k&c&Hk&E)|[(k&c&Hk&<-)|[(x&Hx&E)|(x&Hx&<-)]]]]; [by apply (user_of_session d k)|by apply (user_of_client d k c)|by apply (Hu k)|
      by apply (user_of_token d x)|by apply (user_of_identity d)].
  - pose proof (reflexivity (R := auth_after) d) as (?&?&?&_&?). by split_and!.
Qed.

Lemma codes_alter f k0 d : (forall c, code_after c (f c)) -> auth_step d (set_codes (alter f k0 (codes d)) d).
Proof.
  intros Hf. apply codes_step. intros Hd. split.
  - intros k c. rewrite lookup_alter_Some. intros [(<-&c0&Hc&->)|[_ Hc]]; [|by eapply (user_of_code d)].
    rewrite (proj1 (proj2 (Hf c0))). by eapply (user_of_code d).
  - intros k c Hc. destruct (decide (k = k0)) as [->|Hn].
    + exists (f c). split; [|done]. by rewrite lookup_alter_eq, Hc.
    + exists c. split; [|apply code_after_refl]. by rewrite lookup_alter_ne.
Qed.

Lemma tokens_step t d :
  (auth_ok d -> table_ok t /\ NoDup (Tk_Hash <$> rows t) /\ (forall x, x ∈ rows t -> token_ok x) /\
     (forall x o, x ∈ rows t -> Tk_UserID x = Some o -> has_user (users d) o) /\ rows_after token_after (tokens d) t) ->
  auth_step d (set_tokens t d).
Proof.
  intros Hm Hd. destruct (Hm Hd) as (T1&T2&T3&T4&T5). pose proof Hd as (H1&H2&H3&H4&H5&H6&H7). split.
  - split_and!; try done; try apply H6.
    intros id [(k&s&Hk&<-)|[(k&c&Hk&E)|[(k&c&Hk&<-)|[(x&Hx&E)|(x&Hx&<-)]]]]; [by apply (user_of_session d k)|by apply (user_of_client d k c)|by eapply (user_of_code d)|
      by eapply T4|by apply (user_of_identity d)].
  - pose proof (reflexivity (R := auth_after) d) as (?&?&_&?&?). by split_and!.
Qed.


Lemma tokens_consume p d : auth_step d (set_tokens (update_rows p consume (tokens d)) d).
Proof.
  apply tokens_step. intros Hd. pose proof Hd as (_&_&_&_&(T1&T2&T3)&_).
  assert (forall x, x ∈ rows (update_rows p consume (tokens d)) -> exists x0, x0 ∈ rows (tokens d) /\ token_after x0 x) as Hrow.
  { intros x (x0&Hx0&->)%elem_of_map_if. exists x0. split; [done|]. destruct (p x0); [by repeat split|apply token_after_refl]. }
  split_and!.
  - by apply table_ok_update.
  - simpl. by rewrite fmap_map_if.
  - intros x (x0&Hx0&->)%elem_of_map_if. destruct (p x0); exact (T3 x0 Hx0).
  - intros x o Hx Ho. destruct (Hrow x Hx) as (x0&Hx0&(_&_&_&E&_)). apply (user_of_token d x0); [done|done|congruence].
  - split; [simpl; lia|]. intros x Hx. right. apply Hrow, Hx.
Qed.

Lemma tokens_delete p d : auth_step d (set_tokens (delete_rows p (tokens d)) d).
Proof.
  apply tokens_step. intros Hd. pose proof Hd as (_&_&_&_&(T1&T2&T3)&_). split_and!.
  - by apply table_ok_delete.
  - eapply sublist_NoDup; [exact T2|]. apply fmap_sublist, sublist_filter.
  - intros x [_ Hx]%elem_of_delete_rows. by apply T3.
  - intros x o [_ Hx]%elem_of_delete_rows. by apply user_of_token.
  - split; [simpl; lia|]. intros x [_ Hx]%elem_of_delete_rows. right. exists x. split; [done|apply token_after_refl].
Qed.

(** A key that no row has is unique after its insertion. *)
Lemma NoDup_insert_row {R B} `{!Row R} (g : R -> B) (mk : Z -> R) (p : R -> bool) (t : table R) :
  affected p t = 0 -> (forall r, r ∈ rows t -> g r = g (mk (next_id t)) -> p r = true) -> NoDup (g <$> rows t) ->
  NoDup (g <$> rows (insert_row mk t)).
Proof.
  intros Hp Hg Hn. simpl. rewrite fmap_app. apply NoDup_app. split_and!; [done| |apply NoDup_singleton].
  intros y (r&->&Hr)%list_elem_of_fmap Hy%list_elem_of_singleton. unfold affected in Hp. rewrite count_if_0 in Hp.
  specialize (Hp r Hr). by rewrite (Hg r Hr Hy) in Hp.
Qed.

Lemma tokens_insert signature kind request parent d : insertable_token signature request d = true ->
  auth_step d (set_tokens (insert_row (token_row signature kind request parent) (tokens d)) d).
Proof.
  unfold insertable_token. intros [Ha%Z.eqb_eq Hu]%andb_true_iff. apply tokens_step. intros Hd. pose proof Hd as (_&_&_&_&(T1&T2&T3)&_). split_and!.
  - by apply table_ok_insert.
  - apply (NoDup_insert_row Tk_Hash (token_row signature kind request parent) (has_hash (hashSignature signature))); [done| |done].
    intros x _ E. unfold has_hash. by rewrite E, String.eqb_refl.
  - intros x [Hx| ->%list_elem_of_singleton]%elem_of_app; [by apply T3|done].
  - intros x o [Hx| ->%list_elem_of_singleton]%elem_of_app Ho; [by apply (user_of_token d x)|].
    cbn [Tk_UserID token_row] in Ho. rewrite Ho in Hu. by apply affected_user, negb_true_iff.
  - split; [simpl; lia|]. intros x [Hx| ->%list_elem_of_singleton]%elem_of_app; [right; exists x; split; [done|apply token_after_refl]|].
    left. unfold row_id, OAuthToken_row. simpl. lia.
Qed.

Lemma users_update p f d : (forall u, same_user u (f u)) -> auth_step d (set_users (update_rows p f (users d)) d).
Proof.
  intros Hf Hd. pose proof Hd as ((U1&U2&U3)&H2&H3&H4&H5&H6&H7). split.
  - split_and!; try done; try apply H5; try apply H6.
    + split_and!.
      * apply table_ok_update; [|done]. intros u. apply Hf.
      * simpl. rewrite fmap_map_if; [done|]. intros u. apply Hf.
      * intros u (u0&Hu0&->)%elem_of_map_if. destruct (p u0); [|by apply U3]. rewrite (proj1 (proj2 (Hf u0))). by apply U3.
    + intros id Hr. destruct (H2 id Hr) as (u&Hu&<-). exists (if p u then f u else u). split; [apply elem_of_map_if; by exists u|].
      destruct (p u); [apply Hf|done].
  - destruct (reflexivity (R := auth_after) d) as (?&_&?&?&?). split_and!; try done. split; [simpl; lia|].
    intros u (u0&Hu0&->)%elem_of_map_if. right. exists u0. split; [done|]. destruct (p u0); [done|apply same_user_refl].
Qed.

Lemma users_insert username hash displayName role d : usernameRegex username = true -> (affected (named username) (users d) =? 0) = true ->
  auth_step d (set_users (insert_row (user_row username hash displayName role (now d)) (users d)) d).
Proof.
  intros Hv Ha%Z.eqb_eq Hd. pose proof Hd as ((U1&U2&U3)&H2&H3&H4&H5&H6&H7). split.
  - split_and!; try done; try apply H5; try apply H6.
    + split_and!; [by apply table_ok_insert| |].
      * apply (NoDup_insert_row Username _ (named username)); [done| |done]. intros u _ E. unfold named. by rewrite E, String.eqb_refl.
      * intros u [Hu| ->%list_elem_of_singleton]%elem_of_app; [by apply U3|done].
    + intros id Hr. destruct (H2 id Hr) as (u&Hu&<-). exists u. split; [apply elem_of_app; by left|done].
  - destruct (reflexivity (R := auth_after) d) as (?&_&?&?&?). split_and!; try done. split; [simpl; lia|].
    intros u [Hu| ->%list_elem_of_singleton]%elem_of_app; [right; exists u; split; [done|apply same_user_refl]|].
    left. unfold row_id, User_row. simpl. lia.
Qed.

Lemma filter_empty_none {V} (P : string * V -> Prop) `{!forall x, Decision (P x)} (m : gmap string V) :
  bool_decide (filter P m <> ∅) = false -> forall k v, m !! k = Some v -> ~ P (k, v).
Proof.
  rewrite bool_decide_eq_false. intros Hne k v Hk HP. apply Hne. intros E. assert (filter P m !! k = Some v) as Hf by by apply map_lookup_filter_Some.
  by rewrite E, lookup_empty in Hf.
Qed.

Lemma referenced_user_spec id d : referenced_user id d = false -> forall k,
  (forall s, sessions d !! k = Some s -> Sess_UserID s <> id) /\ (forall c, codes d !! k = Some c -> Code_UserID c <> id) /\
  (forall c, clients d !! k = Some c -> Client_OwnerID c <> Some id) /\ forall x, x ∈ rows (tokens d) -> Tk_UserID x <> Some id.
Proof.
  unfold referenced_user. rewrite !orb_false_iff. intros [[[H1 H2] H3] H4] k. split_and!.
  - intros s Hs. exact (filter_empty_none _ _ H1 k s Hs).
  - intros c Hc. exact (filter_empty_none _ _ H2 k c Hc).
  - intros c Hc. exact (filter_empty_none _ _ H3 k c Hc).
  - intros x Hx E. pose proof (proj1 (existsb_none _ _) H4 x Hx) as H. simpl in H. apply bool_decide_eq_false in H. done.
Qed.

Lemma delete_user_step id d :
  auth_step d (if referenced_user id d then d
               else set_identities (delete_rows (fun x => Id_UserID x =? id) (identities d)) (set_users (delete_rows (by_id id) (users d)) d)).
Proof.
  destruct (referenced_user id d) eqn:E; [reflexivity|]. intros Hd. pose proof Hd as ((U1&U2&U3)&H2&H3&H4&H5&(I1&I2)&H7). split.
  - split_and!; try done; try apply H5.
    + split_and!; [by apply table_ok_delete| |].
      * eapply sublist_NoDup; [exact U2|]. apply fmap_sublist, sublist_filter.
      * intros u [_ Hu]%elem_of_delete_rows. by apply U3.
    + assert (forall o, has_user (users d) o -> o <> id -> has_user (delete_rows (by_id id) (users d)) o) as Hkeep.
      { intros o (u&Hu&<-) Hn. exists u. split; [|done]. apply elem_of_delete_rows. split; [|done]. by apply Z.eqb_neq. }
      pose proof (referenced_user_spec id d E) as Hnone.
      intros o [(k&s&Hk&<-)|[(k&c&Hk&Ho)|[(k&c&Hk&<-)|[(x&Hx&Ho)|(x&Hx&<-)]]]]; apply Hkeep.
      * by apply (user_of_session d k).
      * by apply (Hnone k).
      * by apply (user_of_client d k c).
      * intros ->. by apply (Hnone k) in Hk.
      * by eapply (user_of_code d).
      * by apply (Hnone k).
      * by apply (user_of_token d x).
      * intros ->. destruct (Hnone "") as (_&_&_&Hx'). by apply (Hx' x).
      * apply elem_of_delete_rows in Hx as [_ Hx]. by apply (user_of_identity d).
      * apply elem_of_delete_rows in Hx as [Hx _]. by apply Z.eqb_neq in Hx.
    + by apply table_ok_delete.
    + eapply sublist_NoDup; [exact I2|]. apply fmap_sublist, sublist_filter.
  - destruct (reflexivity (R := auth_after) d) as (?&_&?&?&?). split_and!; try done. split; [simpl; lia|].
    intros u [_ Hu]%elem_of_delete_rows. right. exists u. split; [done|apply same_user_refl].
Qed.

Lemma identities_insert userID provider externalID email displayName raw d : insertable_identity userID provider externalID d = true ->
  auth_step d (set_identities (insert_row (identity_row userID provider externalID email displayName raw (now d)) (identities d)) d).
Proof.
  unfold insertable_identity. intros [Ha%Z.eqb_eq Hu%negb_true_iff]%andb_true_iff Hd. pose proof Hd as (H1&H2&H3&H4&H5&(I1&I2)&H7).
  split; [|by apply auth_after_same]. split_and!; try done; try apply H5.
  - intros id [(k&s&Hk&<-)|[(k&c&Hk&E)|[(k&c&Hk&<-)|[(x&Hx&E)|(x&Hx&<-)]]]]; [by apply (user_of_session d k)|by apply (user_of_client d k c)|
      by eapply (user_of_code d)|by apply (user_of_token d x)|].
    apply elem_of_app in Hx as [Hx| ->%list_elem_of_singleton]; [by apply (user_of_identity d)|]. by apply affected_user.
  - by apply table_ok_insert.
  - apply (NoDup_insert_row external_key _ (linked provider externalID)); [done| |done].
    intros x _ [= E1 E2]. unfold linked. by rewrite E1, E2, !String.eqb_refl.
Qed.

Lemma attempts_step m d : (auth_ok d -> forall ip a, m !! ip = Some a -> attempt_ok d a) -> auth_step d (set_attempts m d).
Proof.
  intros Hm Hd. split; [|by apply auth_after_same]. pose proof Hd as (H1&H2&H3&H4&H5&H6&H7). split_and!; try done; try apply H5; try apply H6.
  by apply Hm.
Qed.

(** Time passes. *)
Definition time_passes (d d' : auth_db) : Prop := exists s, 0 <= s /\ d' = set_now (now d + s) d.
Lemma time_step d d' : time_passes d d' -> auth_step d d'.
Proof.
  intros (s&Hs&->) Hd. split; [|apply auth_after_same; try done; simpl; lia]. pose proof Hd as (H1&H2&H3&H4&H5&H6&H7).
  split_and!; try done; try apply H5; try apply H6. intros ip a Ha. destruct (H7 ip a Ha) as [? ?]. split; [done|]. simpl. lia.
Qed.
End Invariant.

(** ** The calls *)
Lemma within_eq {B} `{!GoSha256} (p : prog auth_db B) : within eq p -> within auth_step p.
Proof. apply within_mono. by intros d d' ->. Qed.

(** Descends into a program: reads and pure steps are discharged, statements
    are left. *)
Create HintDb auth_calls.
Ltac calls :=
  repeat first
    [ done
    | progress cbv zeta
    | match goal with
      | |- within _ (query _ _) => apply within_query; apply _
      | |- within _ (query_o _ _) => apply within_query_o; apply _
      | |- within _ (bind_ok _ _) => apply within_bind_ok; [|intros ?]
      | |- within _ (bind _ _) => apply within_bind; [|intros ?]
      | |- within _ (if ?b then _ else _) => destruct b eqn:?
      | |- within _ (match ?o with _ => _ end) => destruct o eqn:?
      end
    | solve [auto with auth_calls] ].

Section Calls.
Context {HSec : Secrets} {HSha : GoSha256} {HEng : Engine}.

Lemma within_wrapped {B} e (p : prog auth_db (outcome auth_error B)) : within eq p -> within auth_step (wrapped e p).
Proof. intros H. apply within_bind; [by apply within_eq|done]. Qed.
Lemma within_read_random n : within auth_step (read_random n).
Proof. apply within_wrapped, random_bytes_frame. Qed.
Lemma within_hash_password p : within auth_step (hash_password p).
Proof. apply within_wrapped, bcrypt_hash_frame. Qed.
#[local] Hint Resolve within_read_random within_hash_password : auth_calls.

Lemma within_fosite_exec upd acc : (forall d, acc d = true -> auth_step d (upd d)) -> within auth_step (fosite_exec upd acc).
Proof. intros H. apply within_exec_o. intros d. destruct (acc d) eqn:E; [by apply H|reflexivity]. Qed.

Lemma within_CreateUser username password displayName : within auth_step (CreateUser username password displayName).
Proof.
  unfold CreateUser. destruct (usernameRegex username) eqn:Hv; [|done]. simpl negb. calls.
  apply within_exec_o. intros d. destruct (affected _ _ =? 0) eqn:E; [by apply users_insert|reflexivity].
Qed.
#[local] Hint Resolve within_CreateUser : auth_calls.

Lemma within_update_user id f : (forall t u, same_user u (f t u)) -> within auth_step (update_user id f).
Proof. intros Hf. apply within_exec_o. intros d. apply users_update. intros u. apply Hf. Qed.

Lemma within_UpdatePassword id pw : within auth_step (UpdatePassword id pw).
Proof. unfold UpdatePassword. calls. apply within_update_user. by repeat split. Qed.
#[local] Hint Resolve within_UpdatePassword : auth_calls.

Lemma within_UpdateDisplayName id name : within auth_step (UpdateDisplayName id name).
Proof. unfold UpdateDisplayName. calls. apply within_update_user. by repeat split. Qed.
#[local] Hint Resolve within_UpdateDisplayName : auth_calls.

Lemma within_SetEmail id email : within auth_step (SetEmail id email).
Proof. apply within_exec. intros d. apply users_update. by repeat split. Qed.
#[local] Hint Resolve within_SetEmail : auth_calls.

Lemma within_VerifyPassword username pw : within auth_step (VerifyPassword username pw).
Proof. unfold VerifyPassword, GetUserByUsername. calls. Qed.
#[local] Hint Resolve within_VerifyPassword : auth_calls.

Lemma within_CreateSession userID lifetime : within auth_step (CreateSession userID lifetime).
Proof.
  unfold CreateSession, generateSessionID. calls. apply within_exec_o. intros d. unfold insertable_session.
  destruct (_ && _) eqn:E; [|reflexivity]. apply andb_true_iff in E as [_ Hu%negb_true_iff]. apply sessions_step.
  intros Hd k s. rewrite lookup_insert_Some. intros [[<- <-]|[_ Hk]]; [|by apply user_of_session]. split; [done|by apply affected_user].
Qed.
#[local] Hint Resolve within_CreateSession : auth_calls.

Lemma within_GetSession id : within auth_step (GetSession id).
Proof. unfold GetSession. calls. Qed.
#[local] Hint Resolve within_GetSession : auth_calls.

Lemma within_keep p B (ans : auth_db -> B) (e : auth_error) : within auth_step (exec e (keep_sessions p) ans).
Proof.
  apply within_exec. intros d. apply sessions_sub. intros k s. rewrite map_lookup_filter_Some. by intros [? _].
Qed.

Lemma within_DeleteSession id : within auth_step (DeleteSession id).
Proof. apply within_exec. intros d. apply sessions_sub. intros k s. rewrite lookup_delete_Some. by intros [_ ?]. Qed.
#[local] Hint Resolve within_DeleteSession : auth_calls.
Lemma within_DeleteSessionsByUser id : within auth_step (DeleteSessionsByUser id).
Proof. apply within_keep. Qed.
#[local] Hint Resolve within_DeleteSessionsByUser : auth_calls.
Lemma within_DeleteSessionsByUserExcept id k : within auth_step (DeleteSessionsByUserExcept id k).
Proof. apply within_keep. Qed.
#[local] Hint Resolve within_DeleteSessionsByUserExcept : auth_calls.
Lemma within_CleanupExpired : within auth_step CleanupExpired.
Proof. unfold CleanupExpired. calls. apply within_keep. Qed.
#[local] Hint Resolve within_CleanupExpired : auth_calls.

Lemma within_run_task t : within auth_step (run_task t).
Proof.
  destruct t as [id|id]; cbn [run_task]; calls. apply within_exec. intros d. apply sessions_step.
  intros Hd k s. rewrite lookup_alter_Some. intros [(<-&s0&Hs&->)|[_ Hs]]; [|by apply user_of_session]. exact (user_of_session d _ s0 Hd Hs).
Qed.
#[local] Hint Resolve within_run_task : auth_calls.

Lemma within_insert_client c : within auth_step (insert_client c).
Proof.
  apply within_exec_o. intros d. unfold insertable_client. destruct (_ && _) eqn:E; [|reflexivity]. apply andb_true_iff in E as [Hn%bool_decide_eq_true Ho].
  apply clients_step. intros _. split_and!; [done|done|]. intros o Eo. rewrite Eo in Ho. by apply affected_user, negb_true_iff.
Qed.
#[local] Hint Resolve within_insert_client : auth_calls.
Lemma within_CreateClient name uris grants scopes owner : within auth_step (CreateClient name uris grants scopes owner).
Proof. unfold CreateClient, generateClientID, generateClientSecret. calls. Qed.
#[local] Hint Resolve within_CreateClient : auth_calls.
Lemma within_CreatePublicClient name uris grants scopes : within auth_step (CreatePublicClient name uris grants scopes).
Proof. unfold CreatePublicClient, generateClientID. calls. Qed.
#[local] Hint Resolve within_CreatePublicClient : auth_calls.

Lemma within_store_GetClient id : within auth_step (store_GetClient id).
Proof. unfold store_GetClient. calls. Qed.
#[local] Hint Resolve within_store_GetClient : auth_calls.
Lemma within_uuid : within auth_step uuid.
Proof. unfold uuid. calls. Qed.
#[local] Hint Resolve within_uuid : auth_calls.

Lemma within_CreateCode code request : within auth_step (CreateAuthorizeCodeSession code request).
Proof.
  apply within_fosite_exec. intros d [Hn%bool_decide_eq_true Hu%negb_true_iff]%andb_true_iff. apply codes_step. intros Hd. split.
  - intros k c. rewrite lookup_insert_Some. intros [[<- <-]|[_ Hc]]; [by apply affected_user|by eapply (user_of_code d)].
  - intros k c Hc. exists c. split; [|apply code_after_refl]. rewrite lookup_insert_Some. right. split; [|done]. intros <-. congruence.
Qed.
#[local] Hint Resolve within_CreateCode : auth_calls.
Lemma within_GetCode code : within auth_step (GetAuthorizeCodeSession code).
Proof. unfold GetAuthorizeCodeSession. calls. Qed.
#[local] Hint Resolve within_GetCode : auth_calls.
Lemma within_UseCode code : within auth_step (InvalidateAuthorizeCodeSession code).
Proof. apply within_fosite_exec. intros d _. apply codes_alter. by repeat split. Qed.
#[local] Hint Resolve within_UseCode : auth_calls.
Lemma within_PKCE sig request : within auth_step (CreatePKCERequestSession sig request).
Proof. unfold CreatePKCERequestSession. calls. apply within_fosite_exec. intros d _. apply codes_alter. by repeat split. Qed.
#[local] Hint Resolve within_PKCE : auth_calls.

Lemma within_insert_token sig kind request parent : within auth_step (insert_token sig kind request parent).
Proof. apply within_fosite_exec. intros d. apply tokens_insert. Qed.
#[local] Hint Resolve within_insert_token : auth_calls.
Lemma within_getToken sig kind : within auth_step (getTokenSession sig kind).
Proof.
  unfold getTokenSession, revokeTokenFamily. calls. apply within_exec. intros d. apply tokens_consume.
Qed.
#[local] Hint Resolve within_getToken : auth_calls.
Lemma within_deleteToken sig : within auth_step (deleteTokenSession sig).
Proof. apply within_exec. intros d. apply tokens_delete. Qed.
#[local] Hint Resolve within_deleteToken : auth_calls.
Lemma within_Rotate id sig : within auth_step (RotateRefreshToken id sig).
Proof. apply within_fosite_exec. intros d _. apply tokens_consume. Qed.
#[local] Hint Resolve within_Rotate : auth_calls.
Lemma within_RevokeRefresh id : within auth_step (RevokeRefreshToken id).
Proof. apply within_exec. intros d. apply tokens_consume. Qed.
#[local] Hint Resolve within_RevokeRefresh : auth_calls.
Lemma within_RevokeAccess id : within auth_step (RevokeAccessToken id).
Proof. apply within_exec. intros d. apply tokens_delete. Qed.
#[local] Hint Resolve within_RevokeAccess : auth_calls.

(** *** Handlers *)
Lemma within_locked {B} upd (ans : auth_db -> B) : (forall d, auth_step d (upd d)) -> within auth_step (locked upd ans).
Proof. intros H. split; [|done]. intros d. by split. Qed.
Lemma within_isBlocked ip : within auth_step (isBlocked ip).
Proof.
  apply within_locked. intros d. destruct (_ && _); [|reflexivity]. apply attempts_step. intros Hd k a. rewrite lookup_delete_Some.
  intros [_ Ha]. by eapply Hd.
Qed.
#[local] Hint Resolve within_isBlocked : auth_calls.
Lemma within_recordFailure ip : within auth_step (recordFailure ip).
Proof.
  apply within_locked. intros d. apply attempts_step. intros Hd k a. rewrite lookup_insert_Some. intros [[<- <-]|[_ Ha]]; [|by eapply Hd].
  unfold attempt_ok, count_failure. simpl. destruct (attempts d !! ip) as [a|] eqn:E; [|lia]. apply Hd in E as [? ?]. lia.
Qed.
#[local] Hint Resolve within_recordFailure : auth_calls.
Lemma within_clearFailures ip : within auth_step (clearFailures ip).
Proof. apply within_locked. intros d. apply attempts_step. intros Hd k a. rewrite lookup_delete_Some. intros [_ Ha]. by eapply Hd. Qed.
#[local] Hint Resolve within_clearFailures : auth_calls.

Lemma within_HandleRegister r : within auth_step (HandleRegister r).
Proof. unfold HandleRegister. calls. Qed.
#[local] Hint Resolve within_HandleRegister : auth_calls.
Lemma within_HandleLogin cfg r : within auth_step (HandleLogin cfg r).
Proof.
  unfold HandleLogin. calls.
Qed.
#[local] Hint Resolve within_HandleLogin : auth_calls.
Lemma within_HandleLogout r : within auth_step (HandleLogout r).
Proof. unfold HandleLogout. calls. Qed.
#[local] Hint Resolve within_HandleLogout : auth_calls.
Lemma within_HandleUpdateProfile r : within auth_step (HandleUpdateProfile r).
Proof. unfold HandleUpdateProfile, GetUserByID. calls. Qed.
#[local] Hint Resolve within_HandleUpdateProfile : auth_calls.
Lemma within_HandleChangePassword r : within auth_step (HandleChangePassword r).
Proof.
  unfold HandleChangePassword. calls.
Qed.
#[local] Hint Resolve within_HandleChangePassword : auth_calls.
Lemma within_session_identity cookie : within auth_step (session_identity cookie).
Proof. unfold session_identity, GetUserByID. calls. Qed.
#[local] Hint Resolve within_session_identity : auth_calls.
Lemma within_HandleDynamicRegistration `{!GoURL} r : within auth_step (HandleDynamicRegistration r).
Proof. unfold HandleDynamicRegistration. calls. Qed.
#[local] Hint Resolve within_HandleDynamicRegistration : auth_calls.
Lemma within_AuthorizeLogin `{!AgentLister} cfg username pw : within auth_step (handleAuthorizeLogin cfg username pw).
Proof.
  unfold handleAuthorizeLogin, listUserAgents. calls. apply within_eq, ListAgentsByOwner_frame.
Qed.
#[local] Hint Resolve within_AuthorizeLogin : auth_calls.

Lemma within_link id ext : within auth_step (link_identity id ext).
Proof. unfold link_identity. calls. apply within_exec_o. intros d. destruct (insertable_identity _ _ _ d) eqn:E; [by apply identities_insert|reflexivity]. Qed.
#[local] Hint Resolve within_link : auth_calls.
Lemma within_create_with_suffix username pw name : within auth_step (create_with_suffix username pw name).
Proof. unfold create_with_suffix, generateShortID, hex_bytes. calls. Qed.
#[local] Hint Resolve within_create_with_suffix : auth_calls.
Lemma within_provision ext : within auth_step (provision ext).
Proof.
  unfold provision, generateRandomPassword, hex_bytes. calls.
Qed.
#[local] Hint Resolve within_provision : auth_calls.
Lemma within_findOrCreateUser ext : within auth_step (findOrCreateUser ext).
Proof.
  unfold findOrCreateUser, FindByProvider, GetUserByEmail, GetUserByID. calls.
Qed.
#[local] Hint Resolve within_findOrCreateUser : auth_calls.
Lemma within_HandleCallback `{!Providers} r : within auth_step (HandleCallback r).
Proof. unfold HandleCallback. calls. Qed.
#[local] Hint Resolve within_HandleCallback : auth_calls.
Lemma within_handleUserDelete username : within auth_step (handleUserDelete username).
Proof.
  unfold handleUserDelete, GetUserByUsername. calls. apply within_exec_o. intros d. apply delete_user_step.
Qed.
#[local] Hint Resolve within_handleUserDelete : auth_calls.
Lemma within_handleUserPasswd username pw : within auth_step (handleUserPasswd username pw).
Proof. unfold handleUserPasswd, GetUserByUsername. calls. Qed.
#[local] Hint Resolve within_handleUserPasswd : auth_calls.

(** ** Histories *)
Inductive auth_call :=
| CallRegister (r : request register_body) | CallLogin (r : request login_body) | CallLogout (r : request unit)
| CallProfile (r : request string) | CallPassword (r : request password_body) | CallSession (cookie : option string)
| CallTask (task : session_task) | CallCleanup
| CallDynamicClient (r : request registration_body) | CallClient (name : string) (uris grants scopes : option (list string)) (owner : Z)
| CallAuthorizeLogin (username password : string) | CallCallback (r : callback)
| CallCreateCode (code : string) (r : Requester) | CallPKCE (code : string) (r : Requester) | CallGetCode (code : string) | CallUseCode (code : string)
| CallCreateAccess (sig : string) (r : Requester) | CallCreateRefresh (sig access : string) (r : Requester)
| CallGetToken (sig : string) (kind : TokenType) | CallDeleteToken (sig : string) | CallRotate (id sig : string)
| CallRevoke (id : string) (kind : TokenType)
| CallUserDelete (username : string) | CallUserPasswd (username password : string).

Inductive auth_answer := AnsCode (code : string) (o : outcome auth_error Requester) | AnsOther.
Definition other {B} (p : prog auth_db B) : prog auth_db auth_answer := let! _ := p in Ret AnsOther.

Definition auth_prog `{!GoURL} `{!AgentLister} `{!Providers} (cfg : Config) (c : auth_call) : prog auth_db auth_answer :=
  match c with
  | CallRegister r => other (HandleRegister r) | CallLogin r => other (HandleLogin cfg r) | CallLogout r => other (HandleLogout r)
  | CallProfile r => other (HandleUpdateProfile r) | CallPassword r => other (HandleChangePassword r)
  | CallSession c => other (session_identity c) | CallTask t => other (run_task t) | CallCleanup => other CleanupExpired
  | CallDynamicClient r => other (HandleDynamicRegistration r) | CallClient n u g s o => other (CreateClient n u g s o)
  | CallAuthorizeLogin u p => other (handleAuthorizeLogin cfg u p) | CallCallback r => other (HandleCallback r)
  | CallCreateCode c r => other (CreateAuthorizeCodeSession c r) | CallPKCE c r => other (CreatePKCERequestSession c r)
  | CallGetCode c => let! o := GetAuthorizeCodeSession c in Ret (AnsCode c o) | CallUseCode c => other (InvalidateAuthorizeCodeSession c)
  | CallCreateAccess s r => other (CreateAccessTokenSession s r) | CallCreateRefresh s a r => other (CreateRefreshTokenSession s a r)
  | CallGetToken s k => other (getTokenSession s k) | CallDeleteToken s => other (deleteTokenSession s) | CallRotate i s => other (RotateRefreshToken i s)
  | CallRevoke i TokenTypeRefresh => other (RevokeRefreshToken i) | CallRevoke i TokenTypeAccess => other (RevokeAccessToken i)
  | CallUserDelete u => other (handleUserDelete u) | CallUserPasswd u p => other (handleUserPasswd u p)
  end.

(** A code's session that was handed out is the one on record for the code. *)
Definition code_answered (a : auth_answer) (d : auth_db) : Prop :=
  match a with
  | AnsCode code (Ok r) => exists c, codes d !! code = Some c /\ Code_SessionData c = Req_Session r /\ RequestedScope r = splitScopes (Code_Scopes c) /\
                             clients d !! Code_ClientID c = Some (Req_Client r)
  | _ => True
  end.

Abbreviation guar := (rg auth_ok auth_after).
Lemma rg_within_auth {B} (p : prog auth_db B) d0 : within auth_step p -> guar p (fun _ _ => True) d0.
Proof. apply (within_rg _ _ auth_step). intros d d' HI H. by apply H. Qed.

(** What was found on record stays there. *)
Definition code_known (code : string) (c : AuthorizationCode) (d : auth_db) : Prop := exists c', codes d !! code = Some c' /\ code_after c c'.
Lemma code_known_stable code c d d' : auth_after d d' -> code_known code c d -> code_known code c d'.
Proof.
  intros (_&_&_&H&_) (c1&Hc1&(?&?&?&?&?&?&?)). destruct (H _ _ Hc1) as (c2&Hc2&(?&?&?&?&?&?&?)). exists c2. split; [done|].
  split_and!; try congruence. auto.
Qed.

Lemma rg_get_code code d0 : auth_ok d0 -> guar (GetAuthorizeCodeSession code) (fun o d => code_answered (AnsCode code o) d) d0.
Proof.
  intros Hd0. unfold GetAuthorizeCodeSession. apply rg_bind; [apply _|done|]. apply rg_query; [apply _|]. intros d1 d2 _ Hd1 H12 Hd2. split; [|done].
  destruct (codes d1 !! code) as [c|] eqn:Ec; [|done]. destruct (Used c); [done|].
  assert (code_known code c d2) as Hk. { apply (code_known_stable code c d1); [done|]. exists c. split; [done|apply code_after_refl]. }
  apply rg_bind_ok; [apply _|done|]. apply rg_bind; [apply _|done|]. apply rg_query; [apply _|]. intros d3 d4 H23 Hd3 H34 Hd4. split; [|done].
  destruct (clients d3 !! Code_ClientID c) as [cl|] eqn:El; [|done]. intros d5 H45 Hd5. cbv zeta.
  set (P := fun d => code_known code c d /\ clients d !! Code_ClientID c = Some cl).
  assert (forall d d', auth_after d d' -> P d -> P d') as HP.
  { intros d d' H [Hc Hl]. split; [by eapply code_known_stable|]. by apply H. }
  assert (P d5) as H5. { apply (HP d3); [by etrans|]. split; [by eapply code_known_stable|done]. }
  apply rg_bind; [apply _|done|]. eapply rg_mono; [|apply (rg_stable _ _ uuid P); [exact HP|exact H5|by apply rg_within_auth, within_uuid]].
  intros id d6 Hd6 [_ HP6] d7 H67 Hd7. destruct (HP _ _ H67 HP6) as [(c'&Hc'&E1&_&_&E4&E5&_) Hl]. exists c'. split_and!; [done|done|by rewrite E4|by rewrite E1].
Qed.

Lemma rg_other {B} (p : prog auth_db B) d0 : auth_ok d0 -> within auth_step p -> guar (other p) code_answered d0.
Proof.
  intros Hd Hp. apply rg_bind; [apply _|done|]. eapply rg_mono; [|by apply rg_within_auth]. intros b d _ _. by intros d' _ _.
Qed.

Lemma auth_prog_ok `{!GoURL} `{!AgentLister} `{!Providers} cfg c d0 : auth_ok d0 -> guar (auth_prog cfg c) code_answered d0.
Proof.
  intros Hd. destruct c as [| | | | | | | | | | | | | |code| | | | | | |id [|]| |]; cbn [auth_prog];
    try (apply rg_other; [done|]; solve [unfold CreateAccessTokenSession, CreateRefreshTokenSession, createTokenSession; auto with auth_calls]).
  apply rg_bind; [apply _|done|]. eapply rg_mono; [|by apply rg_get_code]. intros o d Hd' Ho d' Haft _. destruct o as [r|e|w]; [|done..].
    destruct Ho as (c&Hc&E1&E2&E3). destruct Haft as (_&_&_&Hcodes&Hcl). destruct (Hcodes _ _ Hc) as (c'&Hc'&F1&_&_&F4&F5&_).
    exists c'. split_and!; [done|congruence|congruence|]. rewrite F1. by apply Hcl.
Qed.

(** C28. However registrations, logins, logouts, password changes, session checks,
    OAuth clients, codes, tokens, rotations, revocations, external logins and
    user deletions interleave, with any statement failing and time passing:
    names stay valid and unique, no row refers to a user that does not exist,
    token digests and external identities stay unique, names and roles never
    change, a used code stays used, a consumed token stays consumed, and a
    grant that was handed out is the one recorded for its code. *)
Theorem auth_history `{!GoURL} `{!AgentLister} `{!Providers} (cfg : Config) (cs : list auth_call) (d : auth_db) ps (d' : auth_db)
  (Hinit : auth_ok d) (Hrun : rtc (pool_step time_passes) (auth_prog cfg <$> cs, d) (ps, d')) :
  auth_ok d' /\ auth_after d d' /\ forall i a, ps !! i = Some (Ret a) -> code_answered a d'.
Proof.
  apply (pool_invariant auth_ok auth_after time_passes
    ltac:(intros x y Hx Hxy; by apply (time_step x y Hxy)) (auth_prog cfg <$> cs) ps (fun _ => code_answered) d d'); [|done|done].
  intros i p Hp. rewrite list_lookup_fmap in Hp. destruct (cs !! i) as [c|]; [|done]. injection Hp as <-. by apply auth_prog_ok.
Qed.
End Calls.
