(* ===== verification/AuthEffects.v ===== *)
(** * What one call of internal/auth does

    Sessions and the limit on logins, tokens that are rotated and replayed,
    names of external users, and how such users get their account; then the runs
    of these and of [AuthSpec]. *)
From S2P Require Import Prelude Prog Table Messaging Agents Attachments Retention MemoryTools Auth AuthHandlers AuthSpec.

(** ** Programs that leave the state alone *)
Lemma run_ok_frame {B} (p : prog auth_db B) d : within eq p -> (run_ok p d).2 = d.
Proof.
  unfold run_ok. revert d. induction p as [b|k IH|u k IH e IHe]; intros d; simpl; [done|auto|]. intros [H _]. destruct (H d) as [E Hk].
  rewrite <- E. by apply IH.
Qed.

Section Effects.
Context {HSec : Secrets} {HSha : GoSha256} {HEng : Engine}.

Lemma run_frame {B} (p : prog auth_db B) d : within eq p -> run_ok p d = ((run_ok p d).1, d).
Proof. intros H. rewrite <- (run_ok_frame p d H) at 3. by destruct (run_ok p d). Qed.

Lemma run_random n d : exists o, run_ok (read_random n) d = (o, d) /\ (forall b, o = Ok b -> String.length b = n) /\ forall e, o = Err e -> e = ERandom.
Proof.
  unfold read_random, wrapped. rewrite run_ok_bind, (run_frame _ d (random_bytes_frame n)).
  pose proof (wp_run_ok _ _ _ (random_bytes_length n d)) as H. eexists. split; [reflexivity|].
  split; intros b E; destruct (run_ok (random_bytes n) d).1 as [b'|e|w]; try done; [injection E as ->; by apply H|by injection E as <-].
Qed.

Lemma run_hash p d : exists o, run_ok (hash_password p) d = (o, d) /\ (forall h, o = Ok h -> bcrypt_compare h p = true) /\ forall e, o = Err e -> e = EHash.
Proof.
  unfold hash_password, wrapped. rewrite run_ok_bind, (run_frame _ d (bcrypt_hash_frame p)).
  pose proof (wp_run_ok _ _ _ (bcrypt_hash_verifies p d)) as H. eexists. split; [reflexivity|].
  split; intros b E; destruct (run_ok (bcrypt_hash p) d).1 as [b'|e|w]; try done; [injection E as ->; by apply H|by injection E as <-].
Qed.

(** ** Sessions *)

(** The account a password opens. *)
Definition opens (username password : string) (d : auth_db) : option User :=
  match find_row (named username) (users d) with
  | Some u => if bcrypt_compare (PasswordHash u) password then Some u else None
  | None => None
  end.
Lemma verify_run username password d :
  run_ok (VerifyPassword username password) d = (match opens username password d with Some u => Ok u | None => Err ErrInvalidPassword end, d).
Proof.
  unfold VerifyPassword, GetUserByUsername, opens. cbn. destruct (find_row (named username) (users d)) as [u|]; [|done]. by destruct (bcrypt_compare _ _).
Qed.

(** A session lets through as its user until it expires. *)
Definition admitted (id : string) (d : auth_db) : option User :=
  match sessions d !! id with
  | Some s => if now d <=? ExpiresAt s then find_id (Sess_UserID s) (users d) else None
  | None => None
  end.
Definition stale_task (id : string) (d : auth_db) : option session_task :=
  match sessions d !! id with Some s => Some (if now d <=? ExpiresAt s then TouchSession id else DeleteExpired id) | None => None end.

Lemma session_identity_run (id : string) (d : auth_db) (Hk : forall s, sessions d !! id = Some s -> SessionID s = id) :
  run_ok (session_identity (Some id)) d =
  ((if str_empty id then inl (Refused 401 "unauthorized")
    else match admitted id d with
         | Some u => inr (mkIdentity (Some u) (Some id) None None)
         | None => inl (Refused 401 "unauthorized")
         end, if str_empty id then None else stale_task id d), d).
Proof.
  unfold session_identity, GetSession, admitted, stale_task. destruct (str_empty id); [done|]. cbn.
  destruct (sessions d !! id) as [s|] eqn:E; [|done]. cbn. rewrite Z.ltb_antisym. destruct (now d <=? ExpiresAt s); cbn; [|done].
  rewrite (Hk s eq_refl). by destruct (find_id (Sess_UserID s) (users d)).
Qed.

Lemma string_length_nonempty s n : String.length s = S n -> str_empty s = false.
Proof. destruct s; [done|]. intros _. apply bool_decide_eq_false. done. Qed.

Lemma hex_encode_nonempty b n : String.length b = S n -> str_empty (hex_encode b) = false.
Proof. destruct b; [done|]. intros _. apply bool_decide_eq_false. done. Qed.

Lemma create_session_run userID lifetime d : exists o,
  run_ok (CreateSession userID lifetime) d = (o, match o with Ok s => set_sessions (<[SessionID s := s]> (sessions d)) d | _ => d end) /\
  forall s, o = Ok s -> s = mkSession (SessionID s) userID (now d) (now d + lifetime) (now d) /\ str_empty (SessionID s) = false /\ insertable_session s d = true.
Proof.
  unfold CreateSession, generateSessionID. rewrite run_ok_bind_ok. rewrite run_ok_bind_ok. destruct (run_random 32 d) as ([b|e|w]&->&Hb&_); [|by exists (Err e)|by exists (Panic w)].
  cbn -[insertable_session]. destruct (insertable_session _ d) eqn:E; [|by exists (Err EAuthDb)]. exists (Ok (mkSession (hex_encode b) userID (now d) (now d + lifetime) (now d))). split; [done|]. intros s [= <-].
  split; [done|]. split; [|done]. by apply (hex_encode_nonempty b 31), Hb.
Qed.

(** Logging in, by the three answers of its guards. *)
Definition posted (r : request login_body) (ip : string) (b : login_body) : Prop := Method r = "POST" /\ Remote r = ip /\ Body r = Some b.
Definition unblocked (ip : string) (d : auth_db) : auth_db := if expired_at ip d then set_attempts (delete ip (attempts d)) d else d.

Lemma locked_run {B} upd (ans : auth_db -> B) d : run_ok (locked upd ans) d = (ans d, upd d).
Proof. done. Qed.

Lemma login_run cfg r ip b d : posted r ip b ->
  run_ok (HandleLogin cfg r) d =
  if blocked_at ip d then (Refused 429 "rate_limited", d)
  else
    let d1 := unblocked ip d in
    match opens (lb_Username b) (lb_Password b) d with
    | None => (Refused 401 "invalid_credentials", set_attempts (<[ip := count_failure (now d) (attempts d1 !! ip)]> (attempts d1)) d)
    | Some u =>
        let '(o, d') := run_ok (CreateSession (User_ID u) (SessionLifetime cfg)) (set_attempts (delete ip (attempts d)) d) in
        (match o with Ok s => Answered 200 (Some u) (Some (SessionID s, SessionLifetime cfg)) | _ => Refused 500 "server_error" end, d')
    end.
Proof.
  intros (Hm&<-&Hb). unfold HandleLogin. rewrite Hm, Hb. change (negb (String.eqb "POST" "POST")) with false. cbv zeta iota.
  rewrite run_ok_bind. unfold isBlocked. rewrite locked_run. cbv beta iota. destruct (blocked_at (Remote r) d); [done|].
  change (negb false) with true. cbn [andb]. fold (unblocked (Remote r) d). rewrite run_ok_bind, verify_run.
  assert (opens (lb_Username b) (lb_Password b) (unblocked (Remote r) d) = opens (lb_Username b) (lb_Password b) d) as ->
    by (unfold unblocked; by destruct (expired_at (Remote r) d)).
  destruct (opens (lb_Username b) (lb_Password b) d) as [u|]; cbv beta iota.
  - rewrite run_ok_bind. unfold clearFailures. rewrite locked_run. cbv beta iota.
    assert (set_attempts (delete (Remote r) (attempts (unblocked (Remote r) d))) (unblocked (Remote r) d) = set_attempts (delete (Remote r) (attempts d)) d) as ->.
    { unfold unblocked. destruct (expired_at (Remote r) d); [|done]. unfold set_attempts. cbn. by rewrite delete_delete_eq. }
    rewrite run_ok_bind. by destruct (run_ok (CreateSession _ _) _) as [o d'].
  - rewrite run_ok_bind. unfold recordFailure. rewrite locked_run. cbv beta iota. unfold unblocked. by destruct (expired_at (Remote r) d).
Qed.

(** A login that succeeds opens a session: the cookie it sets lets through
    as the user whose password was given, at every moment of the session's
    lifetime and at none after it; and it forgets the failures of the
    address. *)
Theorem login_session (cfg : Config) (r : request login_body) (ip : string) (b : login_body) (d : auth_db) (u : User) (id : string) (maxAge : Z)
  (d' : auth_db) (Hd : auth_ok d) (Hp : posted r ip b) (Hr : run_ok (HandleLogin cfg r) d = (Answered 200 (Some u) (Some (id, maxAge)), d')) :
  opens (lb_Username b) (lb_Password b) d = Some u /\ maxAge = SessionLifetime cfg /\ attempts d' = delete ip (attempts d) /\
  forall s, 0 <= s ->
    (run_ok (session_identity (Some id)) (set_now (now d' + s) d')).1.1 =
    if s <=? SessionLifetime cfg then inr (mkIdentity (Some u) (Some id) None None) else inl (Refused 401 "unauthorized").
Proof.
  rewrite (login_run cfg r ip b d Hp) in Hr. destruct (blocked_at ip d); [done|]. cbv zeta in Hr.
  destruct (opens (lb_Username b) (lb_Password b) d) as [u0|] eqn:Ho; [|done].
  destruct (create_session_run (User_ID u0) (SessionLifetime cfg) (set_attempts (delete ip (attempts d)) d)) as (o&E&Hs). rewrite E in Hr.
  destruct o as [s0|e|w]; [|done..]. destruct (Hs s0 eq_refl) as (Es&Hne&_). injection Hr as <- <- <- <-. split_and!; [done..|]. intros s Hs0.
  assert (u0 ∈ rows (users d)) as Hu.
  { unfold opens in Ho. destruct (find_row _ (users d)) as [u|] eqn:Ef; [|done]. destruct (bcrypt_compare _ _); [|done]. injection Ho as ->.
    by apply find_row_Some in Ef as [_ ?]. }
  rewrite session_identity_run by (intros s1; cbn; rewrite lookup_insert_eq; by intros [= <-]). rewrite Hne. cbn [fst]. unfold admitted.
  cbn [sessions set_sessions set_now now users]. rewrite lookup_insert_eq. rewrite Es. cbn [ExpiresAt Sess_UserID now set_attempts SessionID].
  assert ((now d + s <=? now d + SessionLifetime cfg) = (s <=? SessionLifetime cfg)) as ->.
  { apply eq_iff_eq_true. rewrite !Z.leb_le. lia. }
  destruct (s <=? SessionLifetime cfg); [|done]. assert (find_id (User_ID u0) (users d) = Some u0) as E0 by (apply (find_id_intro (users d) u0); [apply Hd|done]). cbn [users set_attempts]. by rewrite E0.
Qed.

(** A sequence of logins, each some time after the one before. *)
Fixpoint logins (cfg : Config) (rs : list (Z * request login_body)) (d : auth_db) : list response :=
  match rs with
  | [] => []
  | (s, r) :: rest => let '(a, d') := run_ok (HandleLogin cfg r) (set_now (now d + s) d) in a :: logins cfg rest d'
  end.

Definition failed_so_far (ip : string) (d : auth_db) (n : Z) : Prop :=
  match attempts d !! ip with Some a => failures a = n /\ now d - blockedAt a < loginBlockTime | None => n = 0 end.

Lemma wrong_step cfg r ip b d n : posted r ip b -> opens (lb_Username b) (lb_Password b) d = None -> failed_so_far ip d n -> n < maxLoginFailures ->
  exists d', run_ok (HandleLogin cfg r) d = (Refused 401 "invalid_credentials", d') /\ users d' = users d /\ now d' = now d /\
    attempts d' !! ip = Some (mkLoginAttempt (n + 1) (now d)).
Proof.
  intros Hp Ho Hf Hn. rewrite (login_run cfg r ip b d Hp). unfold failed_so_far in Hf.
  assert (blocked_at ip d = false /\ expired_at ip d = false) as [-> Hx].
  { unfold blocked_at, expired_at. destruct (attempts d !! ip) as [a|]; [|done]. destruct Hf as [-> Ht]. split; [|by apply Z.leb_gt].
    apply andb_false_iff. left. apply Z.leb_gt. lia. }
  cbv zeta. rewrite Ho. unfold unblocked. rewrite Hx. eexists. split; [reflexivity|]. split_and!; [done|done|].
  cbn. rewrite lookup_insert_eq. unfold count_failure. destruct (attempts d !! ip) as [a|]; [by destruct Hf as [-> _]|by rewrite Hf].
Qed.

Lemma blocked_all cfg ip rs d a : attempts d !! ip = Some a -> maxLoginFailures <= failures a ->
  Forall (fun sr => 0 <= sr.1 /\ exists b, posted sr.2 ip b) rs -> now d + foldr Z.add 0 (rs.*1) - blockedAt a < loginBlockTime ->
  logins cfg rs d = replicate (length rs) (Refused 429 "rate_limited").
Proof.
  revert d. induction rs as [|[s r] rs IH]; intros d Ha Hf Hall Ht; [done|]. apply Forall_cons in Hall as [[Hs [b Hp]] Hall]. cbn [logins].
  assert (0 <= foldr Z.add 0 (rs.*1)) as Hsum. { clear -Hall. induction Hall as [|[s r] l [H _] _ IH]; [done|]. rewrite fmap_cons. cbn [foldr fst] in *. lia. }
  rewrite fmap_cons in Ht. cbn [foldr fst] in Ht, Hs. rewrite (login_run cfg r ip b _ Hp). assert (blocked_at ip (set_now (now d + s) d) = true) as ->.
  { unfold blocked_at. cbn. rewrite Ha. apply andb_true_iff. rewrite Z.leb_le, Z.ltb_lt. lia. }
  cbn [length replicate]. f_equal. apply IH; [done|done|done|]. cbn. lia.
Qed.

(** After three wrong passwords from an address, less than a minute apart,
    every further login from it is refused for a minute, with the right
    password too: one at a time, an address tries three passwords and no
    more. *)
Theorem login_limited (cfg : Config) (ip : string) (w1 w2 w3 : Z * request login_body) (rest : list (Z * request login_body)) (d : auth_db)
  (Hnew : attempts d !! ip = None)
  (Hwrong : Forall (fun sr => 0 <= sr.1 < loginBlockTime /\ exists b, posted sr.2 ip b /\ opens (lb_Username b) (lb_Password b) d = None) [w1; w2; w3])
  (Hrest : Forall (fun sr => 0 <= sr.1 /\ exists b, posted sr.2 ip b) rest) (Hsoon : foldr Z.add 0 (rest.*1) < loginBlockTime) :
  logins cfg (w1 :: w2 :: w3 :: rest) d =
  replicate 3 (Refused 401 "invalid_credentials") ++ replicate (length rest) (Refused 429 "rate_limited").
Proof.
  rewrite !Forall_cons in Hwrong. destruct w1 as [s1 r1], w2 as [s2 r2], w3 as [s3 r3]. simpl in Hwrong.
  destruct Hwrong as ((H1&b1&P1&O1)&(H2&b2&P2&O2)&(H3&b3&P3&O3)&_). cbn [logins].
  destruct (wrong_step cfg r1 ip b1 (set_now (now d + s1) d) 0 P1 O1) as (d1&E1&U1&N1&A1); [unfold failed_so_far; cbn; by rewrite Hnew|done|]. rewrite E1.
  destruct (wrong_step cfg r2 ip b2 (set_now (now d1 + s2) d1) 1 P2) as (d2&E2&U2&N2&A2); [unfold opens; cbn; rewrite U1; exact O2| |done|].
  { unfold failed_so_far. cbn. rewrite A1, N1. cbn. split; [done|lia]. }
  rewrite E2. destruct (wrong_step cfg r3 ip b3 (set_now (now d2 + s3) d2) 2 P3) as (d3&E3&U3&N3&A3); [unfold opens; cbn; rewrite U2; cbn; rewrite U1; exact O3| |done|].
  { unfold failed_so_far. cbn. rewrite A2, N2. cbn. split; [done|lia]. }
  rewrite E3. cbn [replicate app]. do 3 f_equal. apply (blocked_all cfg ip rest d3 _ A3); [done|done|]. cbn. rewrite N3. cbn. lia.
Qed.

(** ** Tokens *)
Definition no_char (sep : Ascii.ascii) (s : string) : Prop := Forall (fun a => a <> sep) (String.list_ascii_of_string s).

Lemma append_cons_assoc s a r : (s +:+ String a "") +:+ r = s +:+ String a r.
Proof. induction s as [|b s IH]; [done|]. change (String b ((s +:+ String a "") +:+ r) = String b (s +:+ String a r)). by rewrite IH. Qed.
Lemma append_nil_r s : s +:+ "" = s.
Proof. induction s as [|b s IH]; [done|]. change (String b (s +:+ "") = String b s). by rewrite IH. Qed.
Lemma append_string b s r : String b s +:+ r = String b (s +:+ r).
Proof. done. Qed.

Lemma split_on_last sep s cur : no_char sep s -> split_on sep s cur = [cur +:+ s].
Proof.
  unfold no_char. revert cur. induction s as [|a s IH]; intros cur H; simpl in *; [by rewrite append_nil_r|]. apply Forall_cons in H as [Ha Hs].
  rewrite (proj2 (Ascii.eqb_neq a sep) Ha), IH by done. by rewrite append_cons_assoc.
Qed.
Lemma split_on_first sep s r cur : no_char sep s -> split_on sep (s +:+ String sep r) cur = (cur +:+ s) :: split_on sep r "".
Proof.
  unfold no_char. revert cur. induction s as [|a s IH]; intros cur H; rewrite ?append_string; simpl in *; [by rewrite Ascii.eqb_refl, append_nil_r|].
  apply Forall_cons in H as [Ha Hs]. rewrite (proj2 (Ascii.eqb_neq a sep) Ha), IH by done. by rewrite append_cons_assoc.
Qed.

(** A scope as the grants name them: a word. *)
Definition word (s : string) : Prop := s <> "" /\ no_char (Ascii.ascii_of_nat 32) s.

Lemma splitScopes_join l : Forall word l -> splitScopes (join_scopes l) = l.
Proof.
  intros H. unfold splitScopes. destruct l as [|s l]; [done|].
  assert (str_empty (join_scopes (s :: l)) = false) as ->.
  { apply Forall_cons in H as [[Hs _] _]. apply bool_decide_eq_false. destruct s; [done|]. by destruct l. }
  revert s H. induction l as [|s' l IH]; intros s [[_ Hs] Hl]%Forall_cons; [by apply split_on_last|].
  change (join_scopes (s :: s' :: l)) with (s +:+ String (Ascii.ascii_of_nat 32) (join_scopes (s' :: l))).
  rewrite split_on_first by done. by rewrite IH.
Qed.

Lemma run_uuid d : exists id, run_ok uuid d = (id, d).
Proof. destruct (run_random 16 d) as (o&E&_). unfold uuid. rewrite run_ok_bind, E. by eexists. Qed.

Lemma get_token_run sig kind d :
  run_ok (getTokenSession sig kind) d =
  match find_row (fun x => signed sig x && of_kind kind x) (tokens d) with
  | None => (Err FositeNotFound, d)
  | Some x =>
      if Consumed x then (Err FositeInactiveToken, set_tokens (update_rows (same_family sig d) consume (tokens d)) d)
      else match clients d !! Tk_ClientID x with
           | None => (Err FositeNotFound, d)
           | Some c => (Ok (mkRequester (run_ok uuid d).1 c (splitScopes (Tk_Scopes x)) (splitScopes (Tk_Scopes x)) (Tk_SessionData x) ∅), d)
           end
  end.
Proof.
  unfold getTokenSession. rewrite run_ok_bind.
  change (run_ok (query EAuthDb _) d) with (Ok (find_row (fun x => signed sig x && of_kind kind x) (tokens d)) : outcome auth_error (option OAuthToken), d).
  cbv beta iota. destruct (find_row _ (tokens d)) as [x|]; [|done]. destruct (Consumed x); [done|]. rewrite run_ok_bind_ok.
  unfold store_GetClient. rewrite run_ok_bind.
  change (run_ok (query EAuthDb _) d) with (Ok (clients d !! Tk_ClientID x) : outcome auth_error (option OAuthClient), d). cbv beta iota.
  destruct (clients d !! Tk_ClientID x) as [c|]; [|done]. cbn [run_ok run]. cbv zeta. change (run ?p [] d) with (run_ok p d). rewrite run_ok_bind.
  destruct (run_uuid d) as [id E]. by rewrite !E.
Qed.

(** The digest of its signature makes a token unique. *)
Lemma token_unique d x y : auth_ok d -> x ∈ rows (tokens d) -> y ∈ rows (tokens d) -> Signature x = Signature y -> x = y.
Proof.
  intros (_&_&_&_&(_&Hn&Ht)&_) Hx Hy E. apply (NoDup_fmap_unique Tk_Hash (rows (tokens d))); [done..|].
  destruct (Ht x Hx) as [-> _], (Ht y Hy) as [-> _]. by rewrite E.
Qed.

Lemma find_token d x : auth_ok d -> x ∈ rows (tokens d) -> find_row (fun y => signed (Signature x) y && of_kind (Tk_Type x) y) (tokens d) = Some x.
Proof.
  intros Hd Hx. destruct (find_row_is_Some (fun y => signed (Signature x) y && of_kind (Tk_Type x) y) (tokens d) x Hx) as [y Hy].
  { unfold signed, of_kind. rewrite String.eqb_refl. by apply bool_decide_eq_true. }
  rewrite Hy. apply find_row_Some in Hy as [[Es%String.eqb_eq _]%andb_true_iff Hy]. f_equal. by apply (token_unique d).
Qed.

Lemma same_family_client d x y : auth_ok d -> x ∈ rows (tokens d) -> same_family (Signature x) d y = String.eqb (Tk_ClientID x) (Tk_ClientID y).
Proof.
  intros Hd Hx. unfold same_family. apply eq_iff_eq_true. rewrite existsb_some. split.
  - intros (z&Hz&[Es%String.eqb_eq E]%andb_true_iff). by rewrite (token_unique d x z) by done.
  - intros E. exists x. split; [done|]. unfold signed. by rewrite String.eqb_refl.
Qed.

Lemma replay_refused d sig x : find_row (fun y => signed sig y && of_kind TokenTypeRefresh y) (tokens d) = Some x -> Consumed x = true ->
  wp (GetRefreshTokenSession sig) (fun o _ => forall r, o <> Ok r) d.
Proof.
  intros Ef Hc. unfold GetRefreshTokenSession, getTokenSession. apply wp_bind. cbn [wp query exec]. split; [|by intros r].
  rewrite Ef, Hc. apply wp_bind. eapply wp_mono; [|by apply (wp_of_runs _ (fun _ _ => True))]. by intros a d' _ r.
Qed.

(** C29. A refresh token that was rotated is refused when it comes back, whatever
    statement fails.  Undisturbed, its chain goes with it: every token that its
    client holds for its user is refused from then on, no token of another client
    changes, and nothing but tokens does.  The error of the update that revokes
    them is dropped, and it consumes the client's tokens of other users too: see
    [AuthRuns.family_is_the_client]. *)
Theorem refresh_replay (d : auth_db) (requestID : string) (x : OAuthToken)
  (Hd : auth_ok d) (Hx : x ∈ rows (tokens d)) (Hk : Tk_Type x = TokenTypeRefresh) :
  let d1 := (run_ok (RotateRefreshToken requestID (Signature x)) d).2 in
  wp (GetRefreshTokenSession (Signature x)) (fun o _ => forall r, o <> Ok r) d1 /\
  let '(o, d2) := run_ok (GetRefreshTokenSession (Signature x)) d1 in
  o = Err FositeInactiveToken /\
  (forall y, y ∈ rows (tokens d2) -> Tk_ClientID y = Tk_ClientID x -> Tk_UserID y = Tk_UserID x ->
     (run_ok (getTokenSession (Signature y) (Tk_Type y)) d2).1 = Err FositeInactiveToken) /\
  (forall y, y ∈ rows (tokens d) -> Tk_ClientID y <> Tk_ClientID x -> y ∈ rows (tokens d2)) /\
  d2 = set_tokens (tokens d2) d.
Proof.
  intros d1. set (rot := fun y => signed (Signature x) y && of_kind TokenTypeRefresh y).
  assert (d1 = set_tokens (update_rows rot consume (tokens d)) d) as E1 by done.
  assert (auth_ok d1) as Hd1 by (rewrite E1; by apply (tokens_consume rot d)).
  assert (rot x = true) as Hr. { unfold rot, signed, of_kind. rewrite String.eqb_refl. by apply bool_decide_eq_true. }
  assert (consume x ∈ rows (tokens d1)) as Hx1. { rewrite E1. apply elem_of_map_if. exists x. by rewrite Hr. }
  pose proof (find_token d1 (consume x) Hd1 Hx1) as Ef. cbn [Signature consume Tk_Type] in Ef. rewrite Hk in Ef.
  split; [by eapply replay_refused|]. unfold GetRefreshTokenSession. rewrite get_token_run, Ef. cbn [Consumed consume].
  assert (update_rows (same_family (Signature x) d1) consume (tokens d1) = update_rows (fun y => String.eqb (Tk_ClientID x) (Tk_ClientID y)) consume (tokens d)) as E2.
  { transitivity (update_rows (fun y => String.eqb (Tk_ClientID x) (Tk_ClientID y)) consume (tokens d1)).
    - unfold update_rows. f_equal. unfold map_if. apply list_fmap_ext. intros i y _. pose proof (same_family_client d1 (consume x) y Hd1 Hx1) as E. cbn [Signature consume Tk_ClientID] in E. by rewrite E.
    - rewrite E1. unfold update_rows, map_if. cbn [tokens set_tokens rows next_id]. f_equal. rewrite <- list_fmap_compose. apply list_fmap_ext. intros i y Hy. simpl.
      destruct (rot y) eqn:Ey; [|done]. apply andb_true_iff in Ey as [Es%String.eqb_eq _].
      assert (y = x) as -> by (apply (token_unique d); [done|by eapply list_elem_of_lookup_2|done|done]). cbn [Tk_ClientID consume]. by rewrite String.eqb_refl. }
  rewrite E2. split_and!; [done| | |by rewrite E1].
  2: { intros y Hy Hn. apply elem_of_map_if. exists y. split; [done|]. by rewrite (proj2 (String.eqb_neq _ _)) by congruence. }
  intros y Hy Hc _.
  assert (auth_ok (set_tokens (update_rows (fun y => String.eqb (Tk_ClientID x) (Tk_ClientID y)) consume (tokens d)) d1)) as Hd2.
  { rewrite E1. exact (proj1 (tokens_consume (fun y => String.eqb (Tk_ClientID x) (Tk_ClientID y)) d Hd)). }
  rewrite get_token_run, (find_token _ y Hd2 Hy). cbn [tokens set_tokens] in Hy. apply elem_of_map_if in Hy as (y0&_&->).
  destruct (String.eqb_spec (Tk_ClientID x) (Tk_ClientID y0)) as [|Hn]; [done|]. by destruct Hn.
Qed.

(** What is stored for a token comes back with it: its client, its session,
    and its scopes word by word. *)
Theorem token_roundtrip (d : auth_db) (signature : string) (kind : TokenType) (request : Requester)
  (Hd : auth_ok d) (Hi : insertable_token signature request d = true) (Hc : clients d !! Client_ID (Req_Client request) = Some (Req_Client request))
  (Hw : Forall word (GrantedScope request)) :
  let '(o, d1) := run_ok (createTokenSession signature kind request) d in
  o = Ok tt /\ exists r, run_ok (getTokenSession signature kind) d1 = (Ok r, d1) /\
    Req_Client r = Req_Client request /\ Req_Session r = Req_Session request /\ GrantedScope r = GrantedScope request.
Proof.
  pose proof (proj1 (tokens_insert signature kind request "" d Hi Hd)) as Hd1.
  unfold createTokenSession, insert_token, fosite_exec, exec_o. cbn [run_ok run]. rewrite Hi. split; [done|].
  set (d1 := set_tokens _ d) in *. set (x := token_row signature kind request "" (next_id (tokens d))).
  assert (x ∈ rows (tokens d1)) as Hx by (apply elem_of_app; right; by apply list_elem_of_singleton).
  pose proof (find_token d1 x Hd1 Hx) as Ef. cbn [Signature Tk_Type x token_row] in Ef.
  eexists. rewrite get_token_run, Ef. cbn [Consumed x token_row Tk_ClientID]. change (clients d1) with (clients d). rewrite Hc. split; [done|].
  split; [done|]. split; [done|]. by apply (splitScopes_join (GrantedScope request)).
Qed.

(** ** Accounts of external users *)
Definition is_name (l : list Ascii.ascii) : Prop := Forall (fun a => name_char a = true) l.

Lemma is_name_replace skip l : is_name (replace_runes skip l).
Proof.
  revert skip. induction l as [|c l IH]; intros skip; [constructor|]. destruct skip as [|k]; [|apply IH]. cbn [replace_runes]. constructor; [|apply IH].
  by destruct (name_char c) eqn:E.
Qed.
Lemma is_name_drop l : is_name l -> is_name (drop_underscores l).
Proof. induction 1 as [|a l Ha Hl IH]; [constructor|]. cbn. destruct (underscore a); [done|by constructor]. Qed.
Lemma is_name_trim l : is_name l -> is_name (trim_underscores l).
Proof. intros H. apply Forall_rev, is_name_drop, Forall_rev. by apply is_name_drop. Qed.

Lemma regex_of_list l : is_name l -> (3 <= length l <= 64)%nat -> usernameRegex (String.string_of_list_ascii l) = true.
Proof.
  intros Hl Hn. unfold usernameRegex. rewrite String.list_ascii_of_string_of_list_ascii.
  assert (String.length (String.string_of_list_ascii l) = length l) as -> by (clear; induction l as [|a l IH]; simpl; [done|by rewrite IH]).
  rewrite !andb_true_iff, !Nat.leb_le, forallb_forall. split; [|lia]. split; [|lia]. intros a Ha%list_elem_of_In. unfold is_name in Hl. rewrite Forall_forall in Hl. by apply Hl.
Qed.

Lemma replace_names l : is_name l -> replace_runes 0 l = l.
Proof.
  induction 1 as [|c l Hc Hl IH]; [done|]. cbn [replace_runes]. rewrite Hc. f_equal.
  assert (rune_length (c :: l) = 1%nat) as ->.
  { assert (Ascii.nat_of_ascii c < 194)%nat as Hlt.
    { unfold name_char in Hc. repeat (apply orb_true_iff in Hc as [Hc|Hc] || apply andb_true_iff in Hc as [? Hc]); rewrite ?Nat.leb_le, ?Nat.eqb_eq in *; lia. }
    assert (forall lo hi, (194 <= lo)%nat -> between lo hi c = false) as Hb by (intros lo hi Hlo; unfold between; by rewrite (proj2 (Nat.leb_gt lo _)) by lia).
    destruct l as [|c1 rest]; [done|]. cbn [rune_length]. by rewrite !Hb by lia. }
  exact IH.
Qed.

(** C30. The name made up for an external user is a valid user name, whatever
    bytes the provider sent; and a valid name that neither starts nor ends
    with an underscore is kept. *)
Theorem sanitize_valid (username provider externalID : string) :
  usernameRegex (sanitizeUsername username provider externalID) = true /\
  (usernameRegex username = true ->
   underscore <$> head (String.list_ascii_of_string username) = Some false -> underscore <$> last (String.list_ascii_of_string username) = Some false ->
   sanitizeUsername username provider externalID = username).
Proof.
  split.
  - unfold sanitizeUsername. set (l := trim_underscores (replace_runes 0 (String.list_ascii_of_string _))).
    assert (is_name l) as Hl by apply is_name_trim, is_name_replace. apply regex_of_list.
    + unfold is_name. apply Forall_take. destruct ((_ <? _)%nat); [|done]. apply Forall_app. split; [done|]. by repeat constructor.
    + rewrite length_take. destruct (Nat.ltb_spec (length l) 3) as [Hlt|Hge]; [rewrite length_app; change (length (String.list_ascii_of_string "_user")) with 5%nat|]; lia.
  - intros Hu Hh Hl. unfold usernameRegex in Hu. rewrite !andb_true_iff, !Nat.leb_le in Hu. destruct Hu as [[Hn H3] H64].
    unfold sanitizeUsername. assert (str_empty username = false) as -> by (destruct username; [simpl in H3; lia|by apply bool_decide_eq_false]).
    set (l := String.list_ascii_of_string username) in *.
    assert (length l = String.length username) as El by (unfold l; clear; induction username as [|a s IH]; simpl; [done|by rewrite IH]).
    rewrite replace_names by (apply Forall_forall; intros a Ha; rewrite forallb_forall in Hn; by apply Hn, list_elem_of_In).
    assert (drop_underscores l = l) as E1 by (destruct l as [|a r]; [done|]; cbn in Hh |- *; by injection Hh as ->).
    assert (trim_underscores l = l) as ->.
    { unfold trim_underscores. rewrite E1. rewrite <- (rev_involutive l) at 2. f_equal.
      destruct (rev l) as [|a r] eqn:Er; [done|]. cbn. assert (l = rev r ++ [a]) as E by (rewrite <- (rev_involutive l), Er; done).
      rewrite E, last_snoc in Hl. cbn in Hl. by injection Hl as ->. }
    assert ((length l <? 3)%nat = false) as -> by (apply Nat.ltb_ge; lia). rewrite take_ge by lia. apply String.string_of_list_ascii_of_string.
Qed.


(** Creating an account, undisturbed. *)
Definition first_role (d : auth_db) : UserRole := if Z.of_nat (length (rows (users d))) =? 0 then RoleAdmin else RoleUser.
Lemma create_user_run username password displayName d : exists o h,
  let name := if str_empty displayName then username else displayName in
  run_ok (CreateUser username password displayName) d =
    (o, match o with Ok _ => set_users (insert_row (user_row username h name (first_role d) (now d)) (users d)) d | _ => d end) /\
  (o = Err ErrDuplicateUsername -> affected (named username) (users d) <> 0) /\
  forall u, o = Ok u -> usernameRegex username = true /\ affected (named username) (users d) = 0 /\ bcrypt_compare h password = true /\
    u = mkUser (next_id (users d)) username "" name (first_role d) None (now d) (now d).
Proof.
  unfold CreateUser. destruct (usernameRegex username) eqn:Er; [|by exists (Err ErrInvalidUsername), ""]. cbn [negb].
  assert (forall e, password_error password = Some e -> e = ErrPasswordTooShort \/ e = ErrPasswordTooLong) as Hpe.
  { unfold password_error. intros e. destruct ((_ <? _)%nat); [intros [= <-]; by left|]. destruct ((_ <? _)%nat); [intros [= <-]; by right|done]. }
  destruct (password_error password) as [e|]; [exists (Err e), ""; cbv zeta; split; [done|]; split; [|done]; intros [= ->]; by destruct (Hpe _ eq_refl)|].
  rewrite run_ok_bind_ok. destruct (run_hash password d) as ([h|e|w]&->&Hh&He).
  - cbn -[Z.of_nat]. destruct (affected (named username) (users d) =? 0) eqn:E.
    + eexists (Ok _), h. cbv zeta. split; [reflexivity|]. split; [done|]. intros u [= <-]. split_and!; [done|by apply Z.eqb_eq|by apply Hh|done].
    + exists (Err ErrDuplicateUsername), h. cbv zeta. split; [done|]. split; [|done]. intros _. by apply Z.eqb_neq.
  - exists (Err e), "". cbv zeta. split; [done|]. split; [|done]. rewrite (He e eq_refl). done.
  - by exists (Panic w), "".
Qed.

Lemma find_row_insert_none {R} `{!Row R} (p : R -> bool) mk (t : table R) :
  find_row p t = None -> p (mk (next_id t)) = true -> find_row p (insert_row mk t) = Some (mk (next_id t)).
Proof.
  intros Hn Hp. unfold find_row, select in *. cbn [insert_row rows]. rewrite filter_app. destruct (filter _ (rows t)); [|done].
  cbn. by rewrite decide_True.
Qed.
Lemma affected_none {R} `{!Row R} (p : R -> bool) (t : table R) : find_row p t = None -> affected p t = 0.
Proof. intros H. pose proof (affected_find p t) as E. rewrite H in E. by apply Z.eqb_eq. Qed.

(** The link of an external user, and the account it leads to. *)
Definition link_of (ext : ExternalUser) (d : auth_db) : option UserIdentity := find_row (linked (ProviderID ext) (ext_ExternalID ext)) (identities d).
Definition signs_in (ext : ExternalUser) (u : User) (d : auth_db) : Prop :=
  exists x u', link_of ext d = Some x /\ find_id (Id_UserID x) (users d) = Some u' /\ User_ID u' = User_ID u /\ Username u' = Username u.

Lemma signs_in_run ext ext' u d : signs_in ext u d -> ProviderID ext' = ProviderID ext -> ext_ExternalID ext' = ext_ExternalID ext ->
  exists u', run_ok (findOrCreateUser ext') d = (Ok u', d) /\ User_ID u' = User_ID u /\ Username u' = Username u.
Proof.
  intros (x&u'&Hx&Hu&E1&E2) P1 P2. exists u'. split; [|done]. unfold findOrCreateUser, FindByProvider. cbn. unfold link_of in Hx. rewrite P1, P2, Hx. cbn.
  by rewrite Hu.
Qed.

(** Linking an account that is on record, to an identity that is not. *)
Lemma link_signs_in ext u u' d : link_of ext d = None -> find_id (User_ID u) (users d) = Some u' -> User_ID u' = User_ID u -> Username u' = Username u ->
  let d' := (run_ok (link_identity (User_ID u) ext) d).2 in signs_in ext u d' /\ users d' = users d.
Proof.
  intros Hl Hf E1 E2. unfold link_identity, store_Create, exec_o. cbn [bind run_ok run].
  assert (insertable_identity (User_ID u) (ProviderID ext) (ext_ExternalID ext) d = true) as ->.
  { unfold insertable_identity. rewrite (affected_none _ _ Hl), Z.eqb_refl, affected_find. unfold find_id in Hf. by rewrite Hf. }
  cbn. split; [|done]. eexists _, u'. split; [apply find_row_insert_none; [done|]|done]. unfold linked. cbn. by rewrite !String.eqb_refl.
Qed.

(** An account is made under the name or under the name with a suffix. *)
Lemma create_with_suffix_run username pw name d u d' : run_ok (create_with_suffix username pw name) d = (Ok u, d') ->
  exists un h dn, (un = username \/ exists s, un = username +:+ "_" +:+ s /\ affected (named username) (users d) <> 0) /\
    affected (named un) (users d) = 0 /\ d' = set_users (insert_row (user_row un h dn (first_role d) (now d)) (users d)) d /\
    User_ID u = next_id (users d) /\ Username u = un /\ Role u = first_role d.
Proof.
  unfold create_with_suffix. rewrite run_ok_bind. destruct (create_user_run username pw name d) as (o&h&E&Hdup&Ho). rewrite E. cbv beta iota.
  destruct o as [u0|e|w]; [|destruct e; try done|done].
  - intros [= <- <-]. destruct (Ho u0 eq_refl) as (_&Ha&_&->). eexists username, h, _. split; [by left|]. by split_and!.
  - rewrite run_ok_bind. destruct (run_random 3 d) as (o&Er&_). unfold generateShortID, hex_bytes. rewrite run_ok_bind_ok, Er.
    set (sfx := match o with Ok s => _ | _ => _ end). assert (exists o', sfx = (o', d)) as [o' ->] by (unfold sfx; destruct o; by eexists). cbv beta iota.
    destruct (create_user_run (username +:+ "_" +:+ match o' with Ok s => s | _ => "" end) pw name d) as (o2&h2&E2&_&Ho2). rewrite E2. intros [= -> <-].
    destruct (Ho2 u eq_refl) as (_&Ha&_&->). eexists _, h2, _. split; [right; eexists; split; [done|by apply Hdup]|]. by split_and!.
Qed.

Lemma provision_run ext u d d' : auth_ok d -> link_of ext d = None -> run_ok (provision ext) d = (Ok u, d') ->
  User_ID u = next_id (users d) /\ Role u = first_role d /\ length (rows (users d')) = S (length (rows (users d))) /\
  (let name := sanitizeUsername (ext_Username ext) (ProviderID ext) (ext_ExternalID ext) in
   Username u = name \/ exists s, Username u = name +:+ "_" +:+ s /\ affected (named name) (users d) <> 0) /\ signs_in ext u d'.
Proof.
  intros Hd Hl. unfold provision. cbv zeta. set (name := sanitizeUsername _ _ _). set (dn0 := if str_empty (Name ext) then name else Name ext).
  rewrite run_ok_bind_ok. destruct (run_random 32 d) as (pw&Er&_). unfold generateRandomPassword, hex_bytes. rewrite run_ok_bind_ok, Er.
  destruct pw as [pw|e|w]; [|done..]. cbn [run_ok run]. change (run ?p [] d) with (run_ok p d). rewrite run_ok_bind_ok.
  destruct (run_ok (create_with_suffix name (hex_encode pw) dn0) d) as [o d1] eqn:Ec. destruct o as [u0|e|w]; [|done..].
  destruct (create_with_suffix_run _ _ _ _ _ _ Ec) as (un&h&dn&Hun&Ha&->&Eid&Eu&Erole). rewrite run_ok_bind.
  set (d1 := set_users _ d). set (d2 := if str_empty (ext_Email ext) then d1 else set_users (update_rows (by_id (User_ID u0)) (with_email (ext_Email ext) (now d)) (users d1)) d1).
  assert (run_ok (if str_empty (ext_Email ext) then Ret (Ok tt) else SetEmail (User_ID u0) (ext_Email ext)) d1 = (Ok tt, d2)) as ->
    by (unfold d2; by destruct (str_empty (ext_Email ext))).
  cbv beta iota. rewrite run_ok_bind.
  assert (exists u2, find_id (User_ID u0) (users d2) = Some u2 /\ User_ID u2 = User_ID u0 /\ Username u2 = un) as (u2&Hf2&E2&E3).
  { assert (find_id (User_ID u0) (users d1) = Some (user_row un h dn (first_role d) (now d) (next_id (users d)))) as Hf1.
    { rewrite Eid. apply (find_id_insert_fresh (user_row un h dn (first_role d) (now d))); [done|apply Hd]. }
    unfold d2. destruct (str_empty (ext_Email ext)); [eexists; split; [exact Hf1|]; by rewrite Eid|]. cbn [users set_users].
    rewrite find_id_update, Hf1 by done. cbn [fmap option_fmap option_map]. unfold by_id at 1, row_id, User_row. cbn [User_ID user_row]. rewrite Eid, Z.eqb_refl.
    eexists. split; [reflexivity|]. done. }
  assert (link_of ext d2 = None) as Hl2 by (unfold link_of, d2; by destruct (str_empty (ext_Email ext))).
  destruct (link_signs_in ext u0 u2 d2 Hl2 Hf2 E2 ltac:(congruence)) as [Hs Hu]. cbv zeta in Hs, Hu.
  destruct (run_ok (link_identity (User_ID u0) ext) d2) as [[] d3]. intros [= <- <-]. split_and!; [done|done| | |exact Hs].
  - cbn [snd] in Hu. rewrite Hu. assert (rows (users d2) = rows (users d1) \/ exists f, rows (users d2) = map_if (by_id (User_ID u0)) f (rows (users d1))) as [->|[f ->]].
    { unfold d2. destruct (str_empty (ext_Email ext)); [by left|right; by eexists]. }
    + cbn. rewrite length_app. simpl. lia.
    + unfold map_if. rewrite length_fmap. cbn. rewrite length_app. simpl. lia.
  - destruct Hun as [->|(s&->&Hs')]; [by left|right; by exists s].
Qed.

(** Undisturbed, an external user is signed in to the account its identity
    is linked to; without a link, to one that has its email; and without one of
    those to a new account, named after it, administrator only as the first of
    all.  Whatever the account, it is linked then: the identity signs in to the
    same account ever after, whatever name and email it comes with. *)
Theorem sign_in_exact (ext : ExternalUser) (d : auth_db) (u : User) (d' : auth_db)
  (Hd : auth_ok d) (Hr : run_ok (findOrCreateUser ext) d = (Ok u, d')) :
  ((exists x, link_of ext d = Some x /\ find_id (Id_UserID x) (users d) = Some u /\ d' = d) \/
   (link_of ext d = None /\ u ∈ rows (users d) /\ Email u = Some (ext_Email ext) /\ ext_Email ext <> "" /\ users d' = users d) \/
   (link_of ext d = None /\ (ext_Email ext <> "" -> forall v, v ∈ rows (users d) -> Email v <> Some (ext_Email ext)) /\
    User_ID u = next_id (users d) /\ Role u = first_role d /\ length (rows (users d')) = S (length (rows (users d))) /\
    let name := sanitizeUsername (ext_Username ext) (ProviderID ext) (ext_ExternalID ext) in
    (Username u = name \/ exists s, Username u = name +:+ "_" +:+ s /\ affected (named name) (users d) <> 0))) /\
  forall ext', ProviderID ext' = ProviderID ext -> ext_ExternalID ext' = ext_ExternalID ext ->
    exists u', run_ok (findOrCreateUser ext') d' = (Ok u', d') /\ User_ID u' = User_ID u /\ Username u' = Username u.
Proof.
  assert (forall P, (P /\ signs_in ext u d') -> P /\ forall ext', ProviderID ext' = ProviderID ext -> ext_ExternalID ext' = ext_ExternalID ext ->
    exists u', run_ok (findOrCreateUser ext') d' = (Ok u', d') /\ User_ID u' = User_ID u /\ Username u' = Username u) as Hwrap.
  { intros P [HP Hs]. split; [done|]. intros ext' P1 P2. by apply (signs_in_run ext). }
  apply Hwrap. clear Hwrap. unfold findOrCreateUser in Hr. rewrite run_ok_bind in Hr. unfold FindByProvider in Hr.
  change (run_ok (query_o EAuthDb _) d) with (match link_of ext d with Some x => Ok (Id_UserID x) | None => Err EAuthNoRows end, d) in Hr. cbv beta iota in Hr.
  destruct (link_of ext d) as [x|] eqn:El.
  - cbn in Hr. destruct (find_id (Id_UserID x) (users d)) as [u0|] eqn:Ef; [|done]. injection Hr as -> <-. split; [left; by exists x|]. by exists x, u.
  - assert ((exists u0, ext_Email ext <> "" /\ u0 ∈ rows (users d) /\ Email u0 = Some (ext_Email ext) /\
              run_ok (link_identity (User_ID u0) ext) d = (tt, d') /\ u = u0) \/
            ((ext_Email ext <> "" -> forall v, v ∈ rows (users d) -> Email v <> Some (ext_Email ext)) /\ run_ok (provision ext) d = (Ok u, d'))) as [(u0&Hne&Hu&He&Hlk&->)|[Hno Hp]].
    { destruct (str_empty (ext_Email ext)) eqn:Ee; [apply bool_decide_eq_true in Ee; by right|]. pose proof Ee as Hne. apply bool_decide_eq_false in Hne.
      rewrite run_ok_bind in Hr. unfold GetUserByEmail in Hr. rewrite Ee in Hr.
      change (run_ok (query_o EAuthDb _) d) with (match head (scan (select (has_email (ext_Email ext)) (users d))) with Some u => Ok u | None => Err ErrUserNotFound end, d) in Hr.
      cbv beta iota in Hr. destruct (scan (select (has_email (ext_Email ext)) (users d))) as [|u0 l] eqn:Es; cbn [head hd_error] in Hr.
      - right. split; [|done]. intros _ v Hv E. assert (v ∈ scan (select (has_email (ext_Email ext)) (users d))) as Hin.
        { rewrite scan_perm. apply elem_of_select. split; [by apply bool_decide_eq_true|done]. }
        rewrite Es in Hin. by apply elem_of_nil in Hin.
      - left. assert (u0 ∈ select (has_email (ext_Email ext)) (users d)) as Hin by (rewrite <- (scan_perm (select _ _)), Es; by left).
        apply elem_of_select in Hin as [Hm%bool_decide_eq_true Hin]. rewrite run_ok_bind in Hr.
        destruct (run_ok (link_identity (User_ID u0) ext) d) as [[] d1] eqn:E1. cbn in Hr. injection Hr as <- <-. exists u0. by split_and!. }
    + destruct (link_signs_in ext u0 u0 d El) as [Hs Hus]; [by apply (find_id_intro (users d) u0); [apply Hd|]|done|done|]. rewrite Hlk in Hs, Hus.
      split; [right; left; by split_and!|done].
    + destruct (provision_run ext u d d' Hd El Hp) as (H1&H2&H3&H4&H5). split; [right; right; by split_and!|done].
Qed.

(** ** Passwords *)
Lemma find_named d u : auth_ok d -> u ∈ rows (users d) -> find_row (named (Username u)) (users d) = Some u.
Proof.
  intros ((_&Hn&_)&_) Hu. destruct (find_row_is_Some (named (Username u)) (users d) u Hu) as [v Hv]; [by apply String.eqb_refl|].
  rewrite Hv. apply find_row_Some in Hv as [E%String.eqb_eq Hv]. f_equal. by apply (NoDup_fmap_unique Username (rows (users d))).
Qed.

(** A password that is changed, undisturbed, was confirmed with the old one;
    the new one opens the account from then on, and of the user's sessions the
    one that asked is the only one left. *)
Theorem change_password_exact (r : request password_body) (user : User) (b : password_body) (d d' : auth_db)
  (Hd : auth_ok d) (Hu : user ∈ rows (users d)) (Hm : Method r = "PUT") (Hc : CtxUser r = Some user) (Hb : Body r = Some b)
  (Hr : run_ok (HandleChangePassword r) d = (Answered 200 None None, d')) :
  opens (Username user) (CurrentPassword b) d = Some user /\
  (exists u', opens (Username user) (NewPassword b) d' = Some u' /\ User_ID u' = User_ID user) /\
  forall k s, sessions d' !! k = Some s <-> sessions d !! k = Some s /\ (Sess_UserID s = User_ID user -> CtxSession r = None \/ CtxSession r = Some k).
Proof.
  unfold HandleChangePassword in Hr. rewrite Hm, Hc, Hb in Hr. change (negb (String.eqb "PUT" "PUT")) with false in Hr. cbv iota in Hr.
  rewrite run_ok_bind, verify_run in Hr. unfold opens at 1. unfold opens in Hr. rewrite (find_named d user Hd Hu) in *. destruct (bcrypt_compare (PasswordHash user) _); [|done].
  cbv beta iota in Hr. split; [done|]. rewrite run_ok_bind in Hr. unfold UpdatePassword in Hr.
  destruct (password_error (NewPassword b)) as [e|]; [by destruct e|]. rewrite run_ok_bind_ok in Hr.
  destruct (run_hash (NewPassword b) d) as ([h|e|w]&E&Hh&He); rewrite E in Hr; [|by rewrite (He e eq_refl) in Hr|done].
  set (d1 := set_users (update_rows (by_id (User_ID user)) (with_password h (now d)) (users d)) d) in *.
  assert (run_ok (update_user (User_ID user) (with_password h)) d = (Ok tt, d1)) as E1.
  { unfold update_user, exec_o. cbn [run_ok run]. rewrite affected_find.
    pose proof (find_id_intro (users d) user ltac:(apply Hd) Hu) as Ef. change (find_row (by_id (User_ID user)) (users d) = Some user) in Ef. by rewrite Ef. }
  rewrite E1 in Hr. cbv beta iota in Hr. rewrite run_ok_bind in Hr.
  assert (auth_ok d1) as Hd1 by (apply (users_update _ _ d); [by repeat split|done]).
  assert (exists u', opens (Username user) (NewPassword b) d1 = Some u' /\ User_ID u' = User_ID user) as Hopen.
  { exists (with_password h (now d) user). split; [|done]. unfold opens.
    assert (with_password h (now d) user ∈ rows (users d1)) as Hin.
    { apply elem_of_map_if. exists user. split; [done|]. unfold by_id, row_id, User_row. by rewrite Z.eqb_refl. }
    pose proof (find_named d1 _ Hd1 Hin) as Ef. cbn [Username with_password] in Ef. rewrite Ef. cbn [PasswordHash with_password]. by rewrite (Hh h eq_refl). }
  destruct (CtxSession r) as [sid|].
  - unfold DeleteSessionsByUserExcept, exec in Hr. cbn [run_ok run] in Hr. injection Hr as <-. split; [exact Hopen|].
    intros k s. unfold keep_sessions. cbn [sessions set_sessions d1 set_users]. rewrite map_lookup_filter_Some. split.
    + intros [Hk Hs]. split; [done|]. intros Es. right. cbn in Hs. rewrite Es, Z.eqb_refl in Hs. cbn in Hs. apply String.eqb_eq in Hs.
      by rewrite <- (proj1 (user_of_session d k s Hd Hk)), Hs.
    + intros [Hk Hs]. split; [done|]. cbn. apply orb_true_iff. destruct (Z.eqb_spec (Sess_UserID s) (User_ID user)) as [Es|]; [right|by left].
      destruct (Hs Es) as [|[= ->]]; [done|]. rewrite (proj1 (user_of_session d k s Hd Hk)). apply String.eqb_refl.
  - cbn [run_ok run] in Hr. injection Hr as <-. split; [exact Hopen|]. intros k s. split; [intros ?; split; [done|by left]|by intros [? _]].
Qed.
End Effects.

(** ** Runs

    Witnesses of the theorems, and runs that show where the code does less than
    it means to. *)
Module AuthRuns.
#[local] Existing Instance rowid_engine.
#[local] Instance sha : GoSha256.
Proof. refine {| sha256_hex := fun s => if String.eqb s "r2" then "fedcba9876543210fedcba9876543210fedcba9876543210fedcba9876543210" else "0123456789abcdef0123456789abcdef0123456789abcdef0123456789abcdef" |}.
  intros s. by destruct (String.eqb s "r2"). Defined.
Fixpoint times (n : nat) (c : Ascii.ascii) : string := match n with O => "" | S k => String c (times k c) end.
Lemma times_length n c : String.length (times n c) = n.
Proof. induction n as [|n IH]; simpl; [done|by rewrite IH]. Qed.
(** A stand-in for the random source: it repeats the time. *)
#[local] Instance secrets : Secrets.
Proof.
  refine {| random_bytes := fun n => Peek (fun d => Ret (Ok (times n (Ascii.ascii_of_nat (Z.to_nat (now d))))));
            bcrypt_hash := fun p => Ret (Ok ("#" +:+ p)); bcrypt_compare := fun h p => String.eqb h ("#" +:+ p) |}.
  - by intros n d.
  - intros n d b [= <-]. apply times_length.
  - done.
  - intros p d h [= <-]. apply String.eqb_refl.
Defined.
#[local] Instance urls : GoURL := {| URL_parts := fun _ => None; URL_with_host := fun u _ => u |}.
#[local] Instance lister : AgentLister.
Proof. by refine {| ListAgentsByOwner := fun id => Ret (Ok (if id =? 1 then ["alices-agent"] else ["bobs-agent"])) |}. Defined.
#[local] Instance no_providers : Providers := {| Exchange := fun _ => None |}.

Definition cfg : Config := DefaultConfig.
Definition empty_db : auth_db := mkAuthDb 1 empty_table ∅ ∅ ∅ empty_table empty_table ∅.
Definition log_in (ip username password : string) : request login_body := mkRequest "POST" None ip None None (Some (mkLogin username password)).
Definition sign_up (username : string) : request register_body := mkRequest "POST" None "ip" None None (Some (mkRegister username "correcthorse" "")).

Lemma no_users_ok : auth_ok empty_db.
Proof.
  assert (forall A (x : A), x ∉ []) as Hnil by (intros A x H; by apply elem_of_nil in H).
  split; [split_and!; [apply table_ok_empty|constructor|by intros u ?%Hnil]|].
  split; [by intros id [(k&s&Hk&_)|[(k&s&Hk&_)|[(k&s&Hk&_)|[(x&Hx%Hnil&_)|(x&Hx%Hnil&_)]]]]|]. split; [done|]. split; [done|].
  split; [split_and!; [apply table_ok_empty|constructor|by intros u ?%Hnil]|]. split; [|done]. split; [apply table_ok_empty|constructor].
Qed.
Lemma run_keeps {B} (p : prog auth_db B) d : within auth_step p -> auth_ok d -> auth_ok (run_ok p d).2.
Proof. intros Hp Hd. by apply (wp_run_ok _ _ _ (within_wp auth_step p d Hp)). Qed.

Definition after {B} (p : prog auth_db B) (d : auth_db) : auth_db := (run_ok p d).2.
Definition two_users : auth_db := after (HandleRegister (sign_up "bob")) (after (HandleRegister (sign_up "alice")) empty_db).
Lemma two_users_ok : auth_ok two_users.
Proof. apply run_keeps; [apply within_HandleRegister|]. apply run_keeps; [apply within_HandleRegister|apply no_users_ok]. Qed.

Lemma auth_history_witness :
  let cs := [CallRegister (sign_up "alice"); CallRegister (sign_up "bob"); CallLogin (log_in "ip" "alice" "correcthorse")] in
  let r := run_schedule (concat (repeat [(0, false); (1, false); (2, false)]%nat 12)) (auth_prog cfg <$> cs) empty_db in
  auth_ok r.2 /\ Username <$> rows (users r.2) = ["alice"; "bob"].
Proof.
  intros cs r. destruct (auth_history cfg cs empty_db r.1 r.2 no_users_ok) as (H&_).
  - rewrite <- surjective_pairing. apply run_schedule_reachable.
  - split; [exact H|]. by vm_compute.
Defined.

Lemma login_session_witness :
  let d' := after (HandleLogin cfg (log_in "ip" "alice" "correcthorse")) two_users in
  exists u id, opens "alice" "correcthorse" two_users = Some u /\ Username u = "alice" /\
    (run_ok (session_identity (Some id)) (set_now (now d' + 100) d')).1.1 = inr (mkIdentity (Some u) (Some id) None None).
Proof.
  intros d'. destruct (run_ok (HandleLogin cfg (log_in "ip" "alice" "correcthorse")) two_users) as [o d1] eqn:Er.
  assert (posted (log_in "ip" "alice" "correcthorse") "ip" (mkLogin "alice" "correcthorse")) as Hp by done.
  destruct o as [st code|st [u|] [[id age]|]]; try by (vm_compute in Er).
  assert (st = 200) as -> by (vm_compute in Er; by injection Er).
  destruct (login_session cfg _ _ _ two_users u id age d1 two_users_ok Hp Er) as (Ho&Ha&_&Hs). exists u, id. split; [exact Ho|]. split.
  - vm_compute in Ho. by injection Ho as <-.
  - unfold d', after. rewrite Er. exact (Hs 100 ltac:(lia)).
Defined.

Definition guess (n : Z) : Z * request login_body := (n, log_in "ip" "alice" "letmein").
Lemma login_limited_witness :
  logins cfg [guess 0; guess 5; guess 5; (10, log_in "ip" "alice" "correcthorse")] two_users =
  replicate 3 (Refused 401 "invalid_credentials") ++ [Refused 429 "rate_limited"].
Proof.
  apply (login_limited cfg "ip" (guess 0) (guess 5) (guess 5) [(10, log_in "ip" "alice" "correcthorse")] two_users).
  - by vm_compute.
  - rewrite !Forall_cons, Forall_nil. unfold guess, loginBlockTime. cbn [fst snd].
    split_and!; try lia; try done; exists (mkLogin "alice" "letmein"); (split; [done|by vm_compute]).
  - rewrite Forall_cons, Forall_nil. cbn [fst snd]. split; [|done]. split; [lia|]. by exists (mkLogin "alice" "correcthorse").
  - cbn. unfold loginBlockTime. lia.
Defined.

(** A client that both users authorized. *)
Definition a_client : OAuthClient := mkOAuthClient "app" "" "app" [] [] ["mcp"] None 0.
Definition grant (user : Z) (name agent : string) : Requester := mkRequester "req" a_client ["mcp"; "read"] ["mcp"; "read"] (mkFositeSession user name name agent ∅) ∅.
Definition with_client : auth_db := after (insert_client a_client) two_users.
Definition with_tokens : auth_db :=
  after (CreateRefreshTokenSession "r2" "" (grant 2 "bob" "bobs-agent")) (after (CreateRefreshTokenSession "r1" "" (grant 1 "alice" "alices-agent")) with_client).
Lemma with_client_ok : auth_ok with_client.
Proof. apply run_keeps; [apply within_insert_client|apply two_users_ok]. Qed.
Lemma with_tokens_ok : auth_ok with_tokens.
Proof. apply run_keeps; [apply within_insert_token|]. apply run_keeps; [apply within_insert_token|apply with_client_ok]. Qed.

Lemma token_roundtrip_witness :
  exists r, (run_ok (getTokenSession "sig" TokenTypeAccess) (after (createTokenSession "sig" TokenTypeAccess (grant 1 "alice" "alices-agent")) with_client)).1 = Ok r /\
    fs_AgentName (Req_Session r) = "alices-agent" /\ GrantedScope r = ["mcp"; "read"].
Proof.
  assert (Forall word ["mcp"; "read"]) as Hw by (repeat constructor; try done; vm_compute; done).
  pose proof (token_roundtrip with_client "sig" TokenTypeAccess (grant 1 "alice" "alices-agent") with_client_ok eq_refl eq_refl Hw) as H.
  unfold after. destruct (run_ok (createTokenSession "sig" TokenTypeAccess (grant 1 "alice" "alices-agent")) with_client) as [o d1].
  destruct H as (_&r&Hr&Hc&Hs&Hg). exists r. cbn [snd]. rewrite Hr, Hs, Hg. split_and!; done.
Defined.

Lemma refresh_replay_witness :
  let d1 := after (RotateRefreshToken "req" "r1") with_tokens in
  let d2 := after (GetRefreshTokenSession "r1") d1 in
  (run_ok (GetRefreshTokenSession "r1") d1).1 = Err FositeInactiveToken /\ Consumed <$> rows (tokens d2) = [true; true].
Proof.
  intros d1 d2. destruct (find_row (signed "r1") (tokens with_tokens)) as [x|] eqn:Ef; [|by vm_compute in Ef].
  apply find_row_Some in Ef as [Es%String.eqb_eq Hx].
  assert (Tk_Type x = TokenTypeRefresh) as Hk.
  { assert (Forall (fun x => Tk_Type x = TokenTypeRefresh) (rows (tokens with_tokens))) as Ha by (vm_compute; repeat constructor). rewrite Forall_forall in Ha. by apply Ha. }
  pose proof (refresh_replay with_tokens "req" x with_tokens_ok Hx Hk) as H. cbv zeta in H. rewrite Es in H.
  change (run_ok (RotateRefreshToken "req" "r1") with_tokens).2 with d1 in H. unfold d2, after.
  destruct H as [_ H]. destruct (run_ok (GetRefreshTokenSession "r1") d1) as [o d3] eqn:E. destruct H as (H1&_). split; [exact H1|]. cbn [snd].
  assert (d3 = d2) as -> by (unfold d2, after; by rewrite E). by vm_compute.
Defined.

Definition github (id email username : string) : ExternalUser := mkExternalUser "github" id email "" username [] "{}".
Lemma sign_in_exact_witness :
  let d' := after (findOrCreateUser (github "77" "carol@example.org" "c~rol")) two_users in
  auth_ok two_users /\ exists u, (run_ok (findOrCreateUser (github "77" "" "someone")) d').1 = Ok u /\ Username u = "c_rol" /\ Role u = RoleUser.
Proof.
  intros d'. split; [apply two_users_ok|].
  destruct (run_ok (findOrCreateUser (github "77" "carol@example.org" "c~rol")) two_users) as [o d1] eqn:E.
  destruct o as [u|e|w]; try by (vm_compute in E).
  destruct (sign_in_exact _ two_users u d1 two_users_ok E) as (_&Hagain). destruct (Hagain (github "77" "" "someone") eq_refl eq_refl) as (u'&Hr&_).
  assert (d' = d1) as Ed by (unfold d', after; by rewrite E). rewrite Ed, Hr. exists u'. split; [done|]. rewrite <- Ed in Hr. vm_compute in Hr. by injection Hr as <-.
Defined.

(** ** Where the code does less than it means to *)
Definition both : list (nat * bool) := concat (repeat [(0, false); (1, false)]%nat 20).
Definition four : list (nat * bool) := concat (repeat [(0, false); (1, false); (2, false); (3, false)]%nat 20).
Abbreviation pool := (run_schedule (A := auth_answer)).

(** Two registrations on an empty table both count no users: two
    administrators. *)
Theorem two_admins :
  let r := pool both (auth_prog cfg <$> [CallRegister (sign_up "alice"); CallRegister (sign_up "mallory")]) empty_db in
  Role <$> rows (users r.2) = [RoleAdmin; RoleAdmin].
Proof. by vm_compute. Qed.

(** The limiter is asked before the password is checked and told after: logins
    that run together all get their check, however many there are. *)
Theorem concurrent_guesses :
  let r := run_schedule four (HandleLogin cfg <$> repeat (log_in "ip" "alice" "letmein") 4) two_users in
  returned <$> r.1 = repeat (Some (Refused 401 "invalid_credentials")) 4.
Proof. by vm_compute. Qed.

(** The login form of the authorization page does not ask the limiter: a
    blocked address goes on guessing there. *)
Theorem unlimited_guesses (ip : string) (attempt : loginAttempt) :
  let d := set_attempts {[ip := attempt]} two_users in
  (run_ok (handleAuthorizeLogin cfg "alice" "letmein") d).2 = d /\
  exists data cookie, (run_ok (handleAuthorizeLogin cfg "alice" "correcthorse") d).1 = Page data (Some cookie) /\ pd_Username data = "alice".
Proof.
  cbv zeta. assert (forall pw, opens "alice" pw (set_attempts {[ip := attempt]} two_users) = opens "alice" pw two_users) as Ho by done. split.
  - unfold handleAuthorizeLogin. rewrite run_ok_bind, verify_run, Ho. by vm_compute.
  - unfold handleAuthorizeLogin. rewrite run_ok_bind, verify_run, Ho. assert (exists u, opens "alice" "correcthorse" two_users = Some u /\ Username u = "alice" /\ User_ID u = 1) as (u&->&E1&E2).
    { eexists. split; [vm_compute; reflexivity|done]. }
    cbv beta iota. rewrite run_ok_bind.
    destruct (create_session_run (User_ID u) (SessionLifetime cfg) (set_attempts {[ip := attempt]} two_users)) as (o&E&_).
    assert (exists s, (run_ok (CreateSession (User_ID u) (SessionLifetime cfg)) (set_attempts {[ip := attempt]} two_users)).1 = Ok s) as [s Hs] by (rewrite E2; eexists; vm_compute; reflexivity).
    rewrite E in Hs |- *. cbn [fst] in Hs. subst o. cbv beta iota. unfold listUserAgents. cbn. eexists _, _. split; [reflexivity|done].
Qed.

(** An authorization server that does what fosite does with an approved
    request: it stores the session under a new code. *)
#[local] Instance fosite : OAuthProvider :=
  {| IntrospectToken := fun _ => Ret (Err EProvider);
     NewAuthorizeRequest := fun q => Ret (Ok (mkRequester "req" a_client ["mcp"] [] (mkFositeSession 0 "" "" "" ∅) q));
     GrantScope := fun s r => mkRequester (Req_ID r) (Req_Client r) (RequestedScope r) (GrantedScope r ++ [s]) (Req_Session r) (Form r);
     NewAuthorizeResponse := fun r sess =>
       let? _ := CreateAuthorizeCodeSession "code" (mkRequester (Req_ID r) (Req_Client r) (RequestedScope r) (GrantedScope r) sess (Form r)) in Ret (Ok "code") |}.
Definition params : authorizeParams := mkAuthorizeParams "code" "app" "" "" "mcp" "" "".

(** The approval takes the agent from the form and never asks whose it is: Alice
    gets a code for Bob's agent. *)
Theorem approves_any_agent :
  let d1 := after (insert_session (mkSession "alices-session" 1 0 1000 0)) with_client in
  let d2 := after (handleAuthorizeApprove (Some "alices-session") "bobs-agent" params) d1 in
  (run_ok (listUserAgents 1) d1).1 = ["alices-agent"] /\
  (fun c => (Code_UserID c, fs_AgentName (Code_SessionData c))) <$> codes d2 !! "code" = Some (1, "bobs-agent").
Proof. by vm_compute. Qed.

(** A code's use and its invalidation are two statements: two exchanges of the
    same code both get its grant. *)
Theorem code_used_twice :
  let d := after (CreateAuthorizeCodeSession "code" (grant 1 "alice" "alices-agent")) with_client in
  let exchange := let? r := GetAuthorizeCodeSession "code" in let? _ := InvalidateAuthorizeCodeSession "code" in Ret (Ok (fs_AgentName (Req_Session r))) in
  let r := run_schedule both [exchange; exchange] d in
  returned <$> r.1 = repeat (Some (Ok "alices-agent")) 2 /\ Used <$> codes r.2 !! "code" = Some true.
Proof. by vm_compute. Qed.

(** The revocations compare the id of a request with signatures; the id is made
    up anew whenever a session is loaded, so they find nothing. *)
Theorem revocation_misses :
  let d := after (CreateAccessTokenSession "sig" (grant 1 "alice" "alices-agent")) with_client in
  match (run_ok (GetAccessTokenSession "sig") d).1 with
  | Ok r => rows (tokens (after (RevokeAccessToken (Req_ID r)) d)) = rows (tokens d) /\
            rows (tokens (after (RevokeAccessToken (Req_ID (grant 1 "alice" "alices-agent"))) d)) = rows (tokens d)
  | _ => False
  end.
Proof. by vm_compute. Qed.

(** The family of a token is every token of its client: a replay of Alice's
    revokes Bob's. *)
Theorem family_is_the_client :
  let d1 := after (GetRefreshTokenSession "r1") (after (RotateRefreshToken "req" "r1") with_tokens) in
  (run_ok (GetRefreshTokenSession "r2") d1).1 = Err FositeInactiveToken /\
  (fun x => (Tk_UserID x, Consumed x)) <$> rows (tokens d1) = [(Some 1, true); (Some 2, true)].
Proof. by vm_compute. Qed.

(** A taken name of more than 57 characters has no room for the suffix. *)
Theorem suffix_does_not_fit :
  let name := times 58 (Ascii.ascii_of_nat 97) in
  let d := after (HandleRegister (sign_up name)) empty_db in
  (run_ok (findOrCreateUser (github "77" "" name)) d).1 = Err ErrInvalidUsername.
Proof. by vm_compute. Qed.

(** Two first logins of one external user make two accounts: the second link
    fails, which is only logged, and its account is signed in all the same. *)
Theorem two_accounts :
  let login := findOrCreateUser (github "77" "" "carol") in
  let r := run_schedule both [login; login] two_users in
  Username <$> rows (users r.2) = ["alice"; "bob"; "carol"; "carol_010101"] /\ Id_UserID <$> rows (identities r.2) = [3] /\
  (fun o => match o with Some (Ok u) => User_ID u | _ => 0 end) <$> (returned <$> r.1) = [3; 4].
Proof. by vm_compute. Qed.

(** Whoever comes with the email of an account, from whatever provider and
    whether the provider checked it or not, is signed in to the account. *)
Theorem email_is_enough :
  let d := after (findOrCreateUser (github "77" "carol@example.org" "carol")) two_users in
  let mallory := mkExternalUser "other" "1" "carol@example.org" "" "mallory" [] "{}" in
  match (run_ok (findOrCreateUser mallory) d).1 with Ok u => Username u | _ => "" end = "carol".
Proof. by vm_compute. Qed.

(** A user with a token on record cannot be deleted: the command ends the
    sessions and then fails. *)
Theorem delete_blocked :
  let d := after (insert_session (mkSession "s" 1 0 1000 0)) with_tokens in
  let r := run_ok (handleUserDelete "alice") d in
  r.1 = Err EAuthDb /\ Username <$> rows (users r.2) = ["alice"; "bob"] /\ sessions r.2 = ∅.
Proof. by vm_compute. Qed.
End AuthRuns.
