(* ===== verification/ApiKeys.v ===== *)
(** * Managed API keys (internal/apikeys: types.go, store.go, service.go;
    internal/api/apikeys_handler.go)

    Keys with their digests, permissions, expiry and revocation, in a state of
    their own.  The random source and bcrypt are an interface; users and agents
    a key refers to are checked by foreign keys, a failure like any other.
    Times are compared as instants; the text the driver writes for one is its own. *)
From S2P Require Import Prelude Prog Table Messaging Agents Retention.

Inductive key_error := EKeysDb | EKeyRandom | EKeyHash | EKeyName | EKeyFormat | EInvalidKey | EKeyNotFound.

(** ** Rows (types.go) *)
Record Permissions := mkPermissions { perm_Read : bool; perm_Write : bool; perm_Admin : bool }.

Record APIKey := mkAPIKey {
  Key_ID : Z;
  Key_UserID : Z;
  Key_AgentID : option Z;
  Key_Name : string;
  KeyPrefix : string;
  KeyHash : string;
  Key_Permissions : Permissions;
  AllowedChannels : list string;
  ReadOnly : bool;
  Key_ExpiresAt : option Z;
  LastUsedAt : option Z;
  Key_CreatedAt : Z;
  Key_RevokedAt : option Z
}.
#[export] Instance APIKey_row : Row APIKey := Key_ID.

Record CreateKeyRequest := mkCreateKey {
  ck_UserID : Z;
  ck_AgentID : option Z;
  ck_Name : string;
  ck_Permissions : Permissions;
  ck_AllowedChannels : list string;
  ck_ReadOnly : bool;
  ck_ExpiresAt : option Z
}.

Record keys_db := mkKeysDb { now : Z; api_keys : table APIKey }.
Definition set_keys v (d : keys_db) : keys_db := mkKeysDb (now d) v.
Abbreviation K B := (prog keys_db (outcome key_error B)).
Definition keys_now : prog keys_db Z := Peek (fun d => Ret (now d)).

(** [crypto/rand.Read] of 24 bytes, and bcrypt. *)
Class KeyMaterial := {
  key_bytes : K string;
  key_digest : string -> K string;
  key_verifies : string -> string -> bool;
  key_bytes_frame : within eq key_bytes;
  key_bytes_length : forall d, wp key_bytes (fun o _ => forall b, o = Ok b -> String.length b = 24%nat) d;
  key_digest_frame : forall k, within eq (key_digest k);
  key_digest_verifies : forall k d, wp (key_digest k) (fun o _ => forall h, o = Ok h -> key_verifies h k = true) d
}.

(** ** The store (store.go) *)
Definition keyPrefixTag : string := "sb_".
Definition key_prefix (rawKey : string) : string := String.substring 0 11 rawKey.

Section Store.
Context {HKey : KeyMaterial}.

Definition random_hex : K string :=
  let! b := key_bytes in Ret (match b with Ok b => Ok (hex_encode b) | Err _ => Err EKeyRandom | Panic w => Panic w end).
Definition hash_key (k : string) : K string :=
  let! h := key_digest k in Ret (match h with Ok h => Ok h | Err _ => Err EKeyHash | Panic w => Panic w end).

Definition key_row (req : CreateKeyRequest) (prefix hash : string) (t id : Z) : APIKey :=
  mkAPIKey id (ck_UserID req) (ck_AgentID req) (ck_Name req) prefix hash (ck_Permissions req) (ck_AllowedChannels req) (ck_ReadOnly req) (ck_ExpiresAt req)
    None t None.
(** The key the caller gets has no digest. *)
Definition public_key (k : APIKey) : APIKey :=
  mkAPIKey (Key_ID k) (Key_UserID k) (Key_AgentID k) (Key_Name k) (KeyPrefix k) "" (Key_Permissions k) (AllowedChannels k) (ReadOnly k) (Key_ExpiresAt k)
    (LastUsedAt k) (Key_CreatedAt k) (Key_RevokedAt k).

Definition store_CreateKey (req : CreateKeyRequest) : K (APIKey * string) :=
  let? rawHex := random_hex in
  let fullKey := keyPrefixTag +:+ rawHex in
  let prefix := keyPrefixTag +:+ String.substring 0 8 rawHex in
  let? hash := hash_key fullKey in
  let? id := exec EKeysDb (fun d => set_keys (insert_row (key_row req prefix hash (now d)) (api_keys d)) d) (fun d => next_id (api_keys d)) in
  let! t := keys_now in
  Ret (Ok (public_key (key_row req prefix hash t id), fullKey)).

Definition key_newest (a b : APIKey) : Prop := Key_CreatedAt b <= Key_CreatedAt a.
#[export] Instance key_newest_dec a b : Decision (key_newest a b).
Proof. unfold key_newest. apply _. Defined.
Definition unrevoked (k : APIKey) : bool := bool_decide (Key_RevokedAt k = None).
Definition store_ListKeys {HEng : Engine} (userID : Z) : K (list APIKey) :=
  query EKeysDb (fun d => public_key <$> select_by key_newest (fun k => (Key_UserID k =? userID) && unrevoked k) (api_keys d)).
Definition store_GetByID (id : Z) : K APIKey :=
  query_o EKeysDb (fun d => match find_id id (api_keys d) with Some k => Ok (public_key k) | None => Err EKeyNotFound end).

(** The first key of the prefix, in the engine's order, that verifies. *)
Definition live (prefix : string) (t : Z) (k : APIKey) : bool :=
  String.eqb (KeyPrefix k) prefix && unrevoked k && match Key_ExpiresAt k with Some e => t <? e | None => true end.
Definition store_Authenticate {HEng : Engine} (rawKey : string) : K APIKey :=
  if (String.length rawKey <? 11)%nat then Ret (Err EKeyFormat)
  else
    let? candidates := query EKeysDb (fun d => scan (select (live (key_prefix rawKey) (now d)) (api_keys d))) in
    Ret (match find (fun k => key_verifies (KeyHash k) rawKey) candidates with Some k => Ok (public_key k) | None => Err EInvalidKey end).

Definition with_revoked (t : Z) (k : APIKey) : APIKey :=
  mkAPIKey (Key_ID k) (Key_UserID k) (Key_AgentID k) (Key_Name k) (KeyPrefix k) (KeyHash k) (Key_Permissions k) (AllowedChannels k) (ReadOnly k)
    (Key_ExpiresAt k) (LastUsedAt k) (Key_CreatedAt k) (Some t).
Definition with_last_used (t : Z) (k : APIKey) : APIKey :=
  mkAPIKey (Key_ID k) (Key_UserID k) (Key_AgentID k) (Key_Name k) (KeyPrefix k) (KeyHash k) (Key_Permissions k) (AllowedChannels k) (ReadOnly k)
    (Key_ExpiresAt k) (Some t) (Key_CreatedAt k) (Key_RevokedAt k).
Definition revocable (id : Z) (k : APIKey) : bool := by_id id k && unrevoked k.
Definition store_RevokeKey (id : Z) : K unit :=
  exec_o EKeysDb (fun d => set_keys (update_rows (revocable id) (with_revoked (now d)) (api_keys d)) d)
                 (fun d => if affected (revocable id) (api_keys d) =? 0 then Err EKeyNotFound else Ok tt).
Definition UpdateLastUsed (id : Z) : K unit :=
  exec EKeysDb (fun d => set_keys (update_rows (by_id id) (with_last_used (now d)) (api_keys d)) d) (fun _ => tt).
Definition store_DeleteKey (id : Z) : K unit :=
  exec_o EKeysDb (fun d => set_keys (delete_rows (by_id id) (api_keys d)) d)
                 (fun d => if affected (by_id id) (api_keys d) =? 0 then Err EKeyNotFound else Ok tt).

(** ** The service (service.go) *)
Definition CreateKey (req : CreateKeyRequest) : K (APIKey * string) :=
  if str_empty (trim_space (ck_Name req)) then Ret (Err EKeyName) else store_CreateKey req.
Definition ListKeys {HEng : Engine} (userID : Z) : K (list APIKey) := store_ListKeys userID.
Definition GetByID (id : Z) : K APIKey := store_GetByID id.
(** The goroutine a check starts; its error is logged. *)
Definition touch_key (id : Z) : prog keys_db unit := let! _ := UpdateLastUsed id in Ret tt.
(** The key, and the goroutine that has been started. *)
Definition Authenticate {HEng : Engine} (rawKey : string) : K (APIKey * prog keys_db unit) :=
  if negb (String.prefix keyPrefixTag rawKey) then Ret (Err EKeyFormat)
  else let? key := store_Authenticate rawKey in Ret (Ok (key, touch_key (Key_ID key))).
Definition RevokeKey (id : Z) : K unit := store_RevokeKey id.
Definition DeleteKey (id : Z) : K unit := store_DeleteKey id.

(** ** The HTTP handlers (api/apikeys_handler.go)

    The caller is the user of the session; a request is decoded, and its
    [expires_at] parsed, before. *)
Inductive key_response := KeyRefused (status : Z) | KeyCreated (key : APIKey) (rawKey : string) | KeyShown (key : APIKey) | KeysListed (keys : list APIKey) | KeyRevoked.

Record key_body := mkKeyBody {
  kb_Name : string;
  kb_AgentID : option Z;
  kb_Permissions : Permissions;
  kb_AllowedChannels : list string;
  kb_ReadOnly : bool;
  kb_ExpiresAt : option (option Z)   (** a text, and the time it parses to *)
}.

Definition handle_ListKeys {HEng : Engine} (owner : option Z) : prog keys_db key_response :=
  match owner with
  | None => Ret (KeyRefused 401)
  | Some ownerID => let! keys := ListKeys ownerID in Ret (match keys with Ok l => KeysListed l | _ => KeyRefused 500 end)
  end.
Definition handle_CreateKey (owner : option Z) (body : option key_body) : prog keys_db key_response :=
  match owner, body with
  | None, _ => Ret (KeyRefused 401)
  | Some _, None => Ret (KeyRefused 400)
  | Some ownerID, Some b =>
      if str_empty (kb_Name b) then Ret (KeyRefused 400)
      else match kb_ExpiresAt b with
           | Some None => Ret (KeyRefused 400)
           | e =>
               let! created := CreateKey (mkCreateKey ownerID (kb_AgentID b) (kb_Name b) (kb_Permissions b) (kb_AllowedChannels b) (kb_ReadOnly b) (mjoin e)) in
               Ret (match created with Ok (key, raw) => KeyCreated key raw | _ => KeyRefused 400 end)
           end
  end.
(** A key of the caller. *)
Definition owned_key (owner : option Z) (id : option Z) (f : APIKey -> prog keys_db key_response) : prog keys_db key_response :=
  match owner, id with
  | None, _ => Ret (KeyRefused 401)
  | Some _, None => Ret (KeyRefused 400)
  | Some ownerID, Some id =>
      let! found := GetByID id in
      match found with
      | Ok key => if Key_UserID key =? ownerID then f key else Ret (KeyRefused 403)
      | _ => Ret (KeyRefused 404)
      end
  end.
Definition handle_GetKey (owner id : option Z) : prog keys_db key_response := owned_key owner id (fun key => Ret (KeyShown key)).
Definition handle_RevokeKey (owner id : option Z) : prog keys_db key_response :=
  owned_key owner id (fun key =>
    let! revoked := RevokeKey (Key_ID key) in Ret (match revoked with Ok _ => KeyRevoked | _ => KeyRefused 400 end)).
End Store.
