(* ===== verification/ApiKeysSpec.v ===== *)
(** * What managed API keys guarantee *)
From S2P Require Import Prelude Prog Table Messaging Agents Retention ApiKeys.

(** ** Managed keys *)
Section Keys.
Context {HEng : Engine} {HKey : KeyMaterial}.

Definition key_ok (k : APIKey) : Prop := String.prefix keyPrefixTag (KeyPrefix k) = true.
Definition keys_ok (d : keys_db) : Prop := table_ok (api_keys d) /\ forall k, k ∈ rows (api_keys d) -> key_ok k.

(** A key keeps everything but its last use; revoked, it stays revoked. *)
Definition key_after (k k' : APIKey) : Prop :=
  Key_ID k' = Key_ID k /\ Key_UserID k' = Key_UserID k /\ Key_AgentID k' = Key_AgentID k /\ KeyPrefix k' = KeyPrefix k /\ KeyHash k' = KeyHash k /\
  Key_Permissions k' = Key_Permissions k /\ AllowedChannels k' = AllowedChannels k /\ ReadOnly k' = ReadOnly k /\ Key_ExpiresAt k' = Key_ExpiresAt k /\
  (forall t, Key_RevokedAt k = Some t -> Key_RevokedAt k' = Some t).
Definition keys_after (d d' : keys_db) : Prop :=
  now d <= now d' /\ next_id (api_keys d) <= next_id (api_keys d') /\
  forall k', k' ∈ rows (api_keys d') -> next_id (api_keys d) <= Key_ID k' \/ exists k, k ∈ rows (api_keys d) /\ key_after k k'.

Lemma key_after_refl k : key_after k k.
Proof. by split_and!. Qed.
#[export] Instance keys_after_preorder : PreOrder keys_after.
Proof.
  split.
  - intros d. split_and!; [lia|lia|]. intros k Hk. right. exists k. split; [done|apply key_after_refl].
  - intros a b c (N1&I1&H1) (N2&I2&H2). split_and!; [lia|lia|]. intros k Hk. destruct (H2 k Hk) as [?|(k2&Hk2&E2)]; [left; lia|].
    destruct E2 as (?&?&?&?&?&?&?&?&?&Hr2). destruct (H1 k2 Hk2) as [?|(k1&Hk1&(?&?&?&?&?&?&?&?&?&Hr1))]; [left; lia|]. right. exists k1. split; [done|].
    split_and!; try congruence. intros t Ht. by apply Hr2, Hr1.
Qed.
Definition keys_step (d d' : keys_db) : Prop := keys_ok d -> keys_ok d' /\ keys_after d d'.

Lemma keys_update p f d : (forall k, p k = true -> key_after k (f k)) -> keys_step d (set_keys (update_rows p f (api_keys d)) d).
Proof.
  intros Hf [H1 H2]. assert (forall k, k ∈ rows (update_rows p f (api_keys d)) -> exists k0, k0 ∈ rows (api_keys d) /\ key_after k0 k) as Hrow.
  { intros k (k0&Hk0&->)%elem_of_map_if. exists k0. split; [done|]. destruct (p k0) eqn:E; [by apply Hf|apply key_after_refl]. }
  split; [split|split_and!; [simpl; lia|simpl; lia|]].
  - destruct H1 as [Hn Hlt]. assert (row_id <$> rows (update_rows p f (api_keys d)) = row_id <$> rows (api_keys d)) as E.
    { simpl. unfold map_if. rewrite <- list_fmap_compose. apply list_fmap_ext. intros i k _. simpl. destruct (p k) eqn:Ep; [by apply Hf|done]. }
    cbn [api_keys set_keys]. split; [by rewrite E|]. intros k Hk. destruct (Hrow k Hk) as (k0&Hk0&(Ei&_)). unfold row_id, APIKey_row. rewrite Ei. by apply Hlt.
  - intros k Hk. destruct (Hrow k Hk) as (k0&Hk0&(_&_&_&E&_)). unfold key_ok. rewrite E. by apply H2.
  - intros k Hk. right. by apply Hrow.
Qed.
Lemma keys_delete p d : keys_step d (set_keys (delete_rows p (api_keys d)) d).
Proof.
  intros [H1 H2]. split; [split; [by apply table_ok_delete|intros k [_ Hk]%elem_of_delete_rows; by apply H2]|].
  split_and!; [simpl; lia|simpl; lia|]. intros k [_ Hk]%elem_of_delete_rows. right. exists k. split; [done|apply key_after_refl].
Qed.
Lemma keys_insert req suffix hash d : keys_step d (set_keys (insert_row (key_row req (keyPrefixTag +:+ suffix) hash (now d)) (api_keys d)) d).
Proof.
  intros [H1 H2]. split; [split; [by apply table_ok_insert|]|split_and!; [simpl; lia|simpl; lia|]].
  - intros k [Hk| ->%list_elem_of_singleton]%elem_of_app; [by apply H2|]. unfold key_ok. simpl. by destruct suffix.
  - intros k [Hk| ->%list_elem_of_singleton]%elem_of_app; [right; exists k; split; [done|apply key_after_refl]|left; simpl; lia].
Qed.

(** ** Lifecycle of a key *)
Lemma keys_run_frame {B} (p : prog keys_db B) d : within eq p -> run_ok p d = ((run_ok p d).1, d).
Proof.
  unfold run_ok. revert d. induction p as [b|k IH|u k IH e IHe]; intros d; simpl; [done|auto|]. intros [H _]. destruct (H d) as [E Hk].
  rewrite <- E. by apply IH.
Qed.

(** What verifies a raw key now: the digest of a live key with its prefix. *)
Definition opens (rawKey : string) (d : keys_db) (k : APIKey) : Prop :=
  k ∈ rows (api_keys d) /\ live (key_prefix rawKey) (now d) k = true /\ key_verifies (KeyHash k) rawKey = true.

Lemma authenticate_run rawKey d : (11 <= String.length rawKey)%nat -> String.prefix keyPrefixTag rawKey = true ->
  (exists k, run_ok (ApiKeys.Authenticate rawKey) d = (Ok (public_key k, touch_key (Key_ID k)), d) /\ opens rawKey d k) \/
  (run_ok (ApiKeys.Authenticate rawKey) d = (Err EInvalidKey, d) /\ forall k, ~ opens rawKey d k).
Proof.
  intros Hl Hp. unfold ApiKeys.Authenticate, store_Authenticate. rewrite Hp, (proj2 (Nat.ltb_ge _ _) Hl). cbn [negb]. rewrite run_ok_bind_ok, run_ok_bind_ok.
  set (l := scan (select (live (key_prefix rawKey) (now d)) (api_keys d))).
  change (run_ok (query EKeysDb _) d) with (Ok l : outcome key_error (list APIKey), d). cbv beta iota.
  assert (forall k, k ∈ l <-> k ∈ rows (api_keys d) /\ live (key_prefix rawKey) (now d) k = true) as Hin.
  { intros k. unfold l. rewrite scan_perm, elem_of_select. tauto. }
  destruct (find (fun k => key_verifies (KeyHash k) rawKey) l) as [k|] eqn:Ef.
  - left. exists k. split; [done|]. apply find_some in Ef as [Hk Hv]. apply list_elem_of_In, Hin in Hk as [? ?]. by split_and!.
  - right. split; [done|]. intros k (Hk&Hlive&Hv). assert (In k l) as Hk' by (apply list_elem_of_In, Hin; done).
    pose proof (find_none _ _ Ef k Hk') as H. simpl in H. congruence.
Qed.

Lemma hex_encode_length b : String.length (hex_encode b) = (2 * String.length b)%nat.
Proof. induction b as [|c b IH]; [done|]. cbn [hex_encode String.length]. cbv zeta. cbn [String.length]. rewrite IH. lia. Qed.

Lemma prefix_of_key hex : (8 <= String.length hex)%nat -> key_prefix (keyPrefixTag +:+ hex) = keyPrefixTag +:+ String.substring 0 8 hex.
Proof. intros H. by destruct hex. Qed.

Lemma create_key_run req d key raw d' : run_ok (CreateKey req) d = (Ok (key, raw), d') -> exists hash,
  key_verifies hash raw = true /\ String.prefix keyPrefixTag raw = true /\ String.length raw = 51%nat /\
  key = public_key (key_row req (key_prefix raw) hash (now d) (next_id (api_keys d))) /\
  d' = set_keys (insert_row (key_row req (key_prefix raw) hash (now d)) (api_keys d)) d.
Proof.
  unfold CreateKey. destruct (str_empty _); [done|]. unfold store_CreateKey, random_hex. rewrite !run_ok_bind_ok, run_ok_bind, (keys_run_frame key_bytes d key_bytes_frame).
  pose proof (wp_run_ok _ _ _ (key_bytes_length d)) as Hlen. destruct (run_ok key_bytes d).1 as [b|e|w]; [|done..]. specialize (Hlen b eq_refl).
  cbn [run_ok run]. change (run ?p [] d) with (run_ok p d). cbv zeta. rewrite run_ok_bind_ok. unfold hash_key.
  set (raw0 := keyPrefixTag +:+ hex_encode b). rewrite run_ok_bind, (keys_run_frame (key_digest raw0) d (key_digest_frame raw0)).
  pose proof (wp_run_ok _ _ _ (key_digest_verifies raw0 d)) as Hv. destruct (run_ok (key_digest raw0) d).1 as [h|e|w]; [|done..].
  cbn -[hex_encode String.substring keyPrefixTag]. intros [= <- <- <-]. exists h.
  assert (keyPrefixTag +:+ String.substring 0 8 (hex_encode b) = key_prefix raw0) as E by (symmetry; apply prefix_of_key; rewrite hex_encode_length; lia).
  rewrite E. split_and!; try done; [by apply Hv| |].
  - unfold raw0. by destruct (hex_encode b).
  - unfold raw0. change (3 + String.length (hex_encode b) = 51)%nat. rewrite hex_encode_length. lia.
Qed.

(** The key that is shown once opens until it expires or is revoked, and
    then no more: authentication at any later moment answers the key itself
    while it is live, and refuses it for good after the expiry and after a
    revocation (as long as no other key's digest happens to accept it). *)
Theorem key_lifecycle (req : CreateKeyRequest) (d : keys_db) (key : APIKey) (raw : string) (d' : keys_db)
  (Hd : keys_ok d) (Hr : run_ok (CreateKey req) d = (Ok (key, raw), d'))
  (Hsole : forall k, k ∈ rows (api_keys d) -> key_verifies (KeyHash k) raw = false) :
  forall s, 0 <= s ->
    let live_now := match ck_ExpiresAt req with Some e => now d + s <? e | None => true end in
    (run_ok (ApiKeys.Authenticate raw) (mkKeysDb (now d + s) (api_keys d'))).1 = (if live_now then Ok (key, touch_key (Key_ID key)) else Err EInvalidKey) /\
    let '(o, d2) := run_ok (RevokeKey (Key_ID key)) (mkKeysDb (now d + s) (api_keys d')) in
    o = Ok tt /\ forall t, (run_ok (ApiKeys.Authenticate raw) (mkKeysDb t (api_keys d2))).1 = Err EInvalidKey.
Proof.
  intros s Hs live_now. destruct (create_key_run req d key raw d' Hr) as (hash&Hv&Hp&Hl&->&->).
  set (row := key_row req (key_prefix raw) hash (now d) (next_id (api_keys d))). set (keys := insert_row (key_row req (key_prefix raw) hash (now d)) (api_keys d)).
  cbn [api_keys set_keys]. fold keys.
  assert (forall k, k ∈ rows keys -> key_verifies (KeyHash k) raw = true -> k = row) as Honly.
  { intros k [Hk| ->%list_elem_of_singleton]%elem_of_app Hkv; [|done]. by rewrite (Hsole k Hk) in Hkv. }
  assert (11 <= String.length raw)%nat as Hl' by lia. split.
  - destruct (authenticate_run raw (mkKeysDb (now d + s) keys) Hl' Hp) as [(k&E&Hk&Hlive&Hkv)|[E Hno]]; rewrite E; cbn [fst].
    + rewrite (Honly k Hk Hkv) in *. unfold live in Hlive. rewrite !andb_true_iff in Hlive. destruct Hlive as [_ Hx]. cbn in Hx.
      unfold live_now. by rewrite Hx.
    + destruct live_now eqn:El; [|done]. destruct (Hno row). split_and!; [apply elem_of_app; right; by apply list_elem_of_singleton| |done].
      unfold live. cbn [KeyPrefix row key_row]. rewrite String.eqb_refl. unfold live_now in El. exact El.
  - set (d1 := mkKeysDb (now d + s) keys). unfold RevokeKey, store_RevokeKey, exec_o. cbn [run_ok run api_keys d1]. cbn [Key_ID public_key key_row].
    assert (row ∈ rows keys) as Hrow by (apply elem_of_app; right; by apply list_elem_of_singleton).
    assert (revocable (next_id (api_keys d)) row = true) as Hrev by (unfold revocable, by_id, row_id, APIKey_row; cbn; by rewrite Z.eqb_refl).
    change (Key_ID row) with (next_id (api_keys d)).     destruct (affected (revocable (next_id (api_keys d))) keys =? 0) eqn:Ea.
    { apply Z.eqb_eq in Ea. unfold affected in Ea. rewrite count_if_0 in Ea. by rewrite (Ea row Hrow) in Hrev. }
    cbn [run]. split; [done|]. intros t. cbn [api_keys set_keys].
    destruct (authenticate_run raw (mkKeysDb t (update_rows (revocable (next_id (api_keys d))) (with_revoked (now d + s)) keys)) Hl' Hp) as [(k&E&Hk&Hlive&Hkv)|[E _]]; cbn [api_keys set_keys]; change (now d1) with (now d + s); change (Key_ID row) with (next_id (api_keys d)); rewrite E; [|done].
    exfalso. cbn [api_keys] in Hk. apply elem_of_map_if in Hk as (k0&Hk0&->).
    assert (k0 = row) as ->. { apply Honly; [done|]. by destruct (revocable _ k0). }
    rewrite Hrev in Hlive. unfold live in Hlive. rewrite !andb_true_iff in Hlive. by destruct Hlive as [[_ Hu] _].
Qed.

(** ** Histories *)
Inductive key_call :=
| CallCreate (req : CreateKeyRequest) | CallAuthenticate (raw : string) | CallRevoke (id : Z) | CallDelete (id : Z) | CallUsed (id : Z).
Definition key_prog (c : key_call) : prog keys_db unit :=
  match c with
  | CallCreate req => let! _ := CreateKey req in Ret tt
  | CallAuthenticate raw => let! r := ApiKeys.Authenticate raw in match r with Ok (_, started) => started | _ => Ret tt end
  | CallRevoke id => let! _ := RevokeKey id in Ret tt
  | CallDelete id => let! _ := DeleteKey id in Ret tt
  | CallUsed id => let! _ := UpdateLastUsed id in Ret tt
  end.
Definition keys_time (d d' : keys_db) : Prop := exists s, 0 <= s /\ d' = mkKeysDb (now d + s) (api_keys d).

#[export] Instance keys_step_preorder : PreOrder keys_step.
Proof.
  split; [intros d H; split; [done|reflexivity]|]. intros a b c H1 H2 H. destruct (H1 H) as [Hb Ha]. destruct (H2 Hb) as [Hc Hb']. split; [done|by etrans].
Qed.

Lemma within_bind_bind {D A B C} (G : D -> D -> Prop) (p : prog D A) (f : A -> prog D B) (g : B -> prog D C) :
  within G (bind p (fun a => bind (f a) g)) -> within G (bind (bind p f) g).
Proof.
  induction p as [a|k IH|u k IH e IHe]; cbn [bind within]; [done|intros H d; by apply IH|].
  intros [H1 H2]. split; [|by apply IHe]. intros d. destruct (H1 d) as [? ?]. split; [done|by apply IH].
Qed.

Lemma key_prog_ok c : within keys_step (key_prog c).
Proof.
  assert (forall B (p : prog keys_db B), within eq p -> within keys_step p) as Heq.
  { intros B p. apply within_mono. by intros d d' ->. }
  assert (forall id, within keys_step (touch_key id)) as Htouch.
  { intros id. apply within_bind; [|done]. apply within_exec. intros d. apply keys_update. intros k _. by split_and!. }
  destruct c as [req|raw|id|id|id]; cbn [key_prog]; [| |apply within_bind; [|done]..].
  - apply within_bind; [|done]. unfold CreateKey. destruct (str_empty _); [done|]. unfold store_CreateKey, random_hex, hash_key.
    apply within_bind_ok; [apply within_bind; [apply Heq, key_bytes_frame|done]|]. intros hex. cbv zeta. apply within_bind_ok; [apply within_bind; [apply Heq, key_digest_frame|done]|].
    intros h. apply within_bind_ok; [|done]. apply within_exec. intros d. apply keys_insert.
  - unfold ApiKeys.Authenticate. destruct (negb _); [done|]. apply within_bind_bind, within_bind.
    + unfold store_Authenticate. destruct ((_ <? _)%nat); [done|]. apply within_bind_ok; [|done]. apply within_query, _.
    + intros [key|e|w]; [apply Htouch|done..].
  - apply within_exec_o. intros d. apply keys_update. intros k [_ Hu]%andb_true_iff. apply bool_decide_eq_true in Hu. split_and!; try done. by rewrite Hu.
  - apply within_exec_o. intros d. apply keys_delete.
  - apply within_exec. intros d. apply keys_update. intros k _. by split_and!.
Qed.

(** However keys are created, used, revoked and deleted concurrently, with
    any statement failing: ids stay unique, what a key grants and to whom never
    changes, and a revoked key stays revoked. *)
Theorem keys_history (cs : list key_call) (d : keys_db) ps (d' : keys_db)
  (Hinit : keys_ok d) (Hrun : rtc (pool_step keys_time) (key_prog <$> cs, d) (ps, d')) :
  keys_ok d' /\ keys_after d d'.
Proof.
  destruct (pool_invariant keys_ok keys_after (A := unit) keys_time) with (ps := key_prog <$> cs) (ps' := ps) (Q := fun (_ : nat) (_ : unit) (_ : keys_db) => True) (3 := Hinit) (4 := Hrun) as (H1&H2&_); [| |by split].
  - intros x y Hx (s&Hs&->). split; [exact Hx|]. split_and!; [simpl; lia|simpl; lia|]. intros k Hk. right. exists k. split; [done|apply key_after_refl].
  - intros i p Hp. rewrite list_lookup_fmap in Hp. destruct (cs !! i) as [c|]; [|done]. injection Hp as <-.
    apply (within_rg _ _ keys_step); [intros x y HI H; by apply H|apply key_prog_ok].
Qed.
End Keys.
