(* ===== verification/Gateway.v ===== *)
(** * Who a request to the tools acts as (internal/agents/middleware.go)

    The middleware in front of the MCP endpoint tries an agent's own key, a
    managed key, and an OAuth token, in this order.  It is where three
    components meet that keep separate states, so a state that holds the three
    and programs that run a call of one component inside it come first. *)
From S2P Require Import Prelude Prog Table Schema Messaging Agents ApiKeys Auth AuthHandlers.

(** ** A component inside a larger state *)
Section Focus.
Context {D E : Type} (get : E -> D) (put : D -> E -> E).
Fixpoint focus {B} (p : prog D B) : prog E B :=
  match p with
  | Ret b => Ret b
  | Peek k => Peek (fun e => focus (k (get e)))
  | Stmt u k f => Stmt (fun e => put (u (get e)) e) (fun e => focus (k (get e))) (focus f)
  end.

Context (get_put : forall d e, get (put d e) = d) (put_get : forall e, put (get e) e = e) (put_put : forall d d' e, put d' (put d e) = put d' e).

(** A focused run is the run of the component; the rest stays. *)
Lemma run_ok_focus {B} (p : prog D B) e : run_ok (focus p) e = let '(b, d) := run_ok p (get e) in (b, put d e).
Proof.
  unfold run_ok. revert e. induction p as [b|k IH|u k IH f IHf]; intros e; cbn [focus run]; [by rewrite put_get|by rewrite IH|].
  rewrite IH, get_put. destruct (run (k (get e)) [] (u (get e))) as [b d]. by rewrite put_put.
Qed.

Lemma wp_focus {B} (p : prog D B) Q e : wp p (fun b d => Q b (put d e)) (get e) -> wp (focus p) Q e.
Proof.
  revert e. induction p as [b|k IH|u k IH f IHf]; intros e; cbn [focus wp].
  - by rewrite put_get.
  - apply IH.
  - intros [H1 H2]. split; [|by apply IHf]. apply IH. rewrite get_put. eapply wp_mono; [|exact H1]. intros b d. by rewrite put_put.
Qed.
End Focus.

(** The error of a component, as its caller names it. *)
Definition map_error {E F B} (f : E -> F) (r : outcome E B) : outcome F B :=
  match r with Ok b => Ok b | Err e => Err (f e) | Panic w => Panic w end.

(** Steps of the component are steps of the whole. *)
Lemma within_focus {D E A} (get : E -> D) (put : D -> E -> E) (G : D -> D -> Prop) (G' : E -> E -> Prop) (p : prog D A) :
  (forall d' e, G (get e) d' -> G' e (put d' e)) -> within G p -> within G' (focus get put p).
Proof.
  intros HG. induction p as [a|k IH|u k IH f IHf]; cbn [focus within]; [done|intros H e; by apply IH|]. intros [H1 H2]. split; [|by apply IHf].
  intros e. destruct (H1 (get e)) as [Hu Hk]. split; [by apply HG|by apply IH].
Qed.
(** A component that relies on less and guarantees more than the whole. *)
Lemma rg_focus {D E A} (get : E -> D) (put : D -> E -> E) I R (I' : E -> Prop) (R' : E -> E -> Prop) (p : prog D A) Q e0 :
  (forall e, I' e -> I (get e)) -> (forall e e', R' e e' -> R (get e) (get e')) ->
  (forall e d', I' e -> R (get e) d' -> I d' -> I' (put d' e) /\ R' e (put d' e)) -> (forall d e, get (put d e) = d) ->
  rg I R p Q (get e0) -> rg I' R' (focus get put p) (fun a e => Q a (get e)) e0.
Proof.
  intros HI HR HS Hgp. revert e0. induction p as [a|k IH|u k IH f IHf]; intros e0; cbn [focus rg].
  - intros H e He HIe. apply H; [by apply HR|by apply HI].
  - intros H e He HIe. apply IH. apply H; [by apply HR|by apply HI].
  - intros H e He HIe. destruct (H (get e)) as (H1&H2&H3&H4); [by apply HR|by apply HI|]. destruct (HS e (u (get e)) HIe H2 H1) as [H5 H6].
    split_and!; [done|done|apply IH; by rewrite Hgp|by apply IHf].
Qed.

Record world := mkWorld { w_db : db; w_keys : keys_db; w_auth : auth_db }.
Definition put_db d (w : world) : world := mkWorld d (w_keys w) (w_auth w).
Definition put_keys d (w : world) : world := mkWorld (w_db w) d (w_auth w).
Definition put_auth d (w : world) : world := mkWorld (w_db w) (w_keys w) d.
Definition in_db {B} (p : prog db B) : prog world B := focus w_db put_db p.
Definition in_keys {B} (p : prog keys_db B) : prog world B := focus w_keys put_keys p.
Definition in_auth {B} (p : prog auth_db B) : prog world B := focus w_auth put_auth p.

(** ** The middleware *)

(** What a request that passes carries on: the agent, the managed key and the
    owner the traces name. *)
Record caller := mkCaller { ctx_Agent : option Agent; ctx_Key : option APIKey; ctx_Owner : option Z }.
Definition anonymous : caller := mkCaller None None None.
(** A request that passes, with the goroutines started on the way. *)
Definition passed : Type := caller * list (prog world unit).

Section Middleware.
Context {HEng : Engine} {HCred : Credentials} {HKey : KeyMaterial} {HProv : OAuthProvider} {HFold : FoldEqual}.

(** The token of an Authorization header. *)
Definition bearer_token (authHeader : string) : option string :=
  match split_once (Ascii.ascii_of_nat 32) authHeader with
  | Some (scheme, token) => if EqualFold scheme "Bearer" then Some token else None
  | None => None
  end.

(** An agent's own key, the first thing every middleware tries. *)
Definition by_agent_key (token : string) : prog world (option passed) :=
  let! found := in_db (Agents.Authenticate token) in
  Ret (match found with Ok a => Some (mkCaller (Some a) None (Some (Agent_OwnerID a)), []) | _ => None end).

(** A managed key, and the agent it names. *)
Definition by_managed_key (token : string) : prog world (option passed) :=
  if negb (String.prefix "sb_" token) then Ret None
  else
    let! found := in_keys (ApiKeys.Authenticate token) in
    match found with
    | Ok (key, touch) =>
        let! agent := (match Key_AgentID key with
                       | Some id => let! o := in_db (Agents.GetAgentByID id) in Ret (match o with Ok a => Some a | _ => None end)
                       | None => Ret None
                       end) in
        Ret (Some (mkCaller agent (Some key) (Some (Key_UserID key)), [in_keys touch]))
    | _ => Ret None
    end.

(** The store hands back its own session, which names an agent and a user. *)
Definition resolveOAuthToken (token : string) : prog world (option (string * option Z)) :=
  let! found := in_auth (IntrospectToken token) in
  Ret (match found with
       | Ok ar =>
           let s := Req_Session ar in
           if str_empty (fs_AgentName s) then None else Some (fs_AgentName s, if 0 <? fs_UserID s then Some (fs_UserID s) else None)
       | _ => None
       end).
Definition by_oauth (token : string) : prog world (option passed) :=
  let! resolved := resolveOAuthToken token in
  match resolved with
  | Some (agentName, ownerID) =>
      let! found := in_db (Agents.GetAgent agentName) in
      Ret (Some (mkCaller (match found with Ok a => Some a | _ => None end) None ownerID, []))
  | None => Ret None
  end.

Definition first_of (tries : list (prog world (option passed))) : prog world (option passed) :=
  foldr (fun p rest => let! o := p in match o with Some c => Ret (Some c) | None => rest end) (Ret None) tries.

(** [keyService == nil]. *)
Definition managed (hasKeys : bool) (token : string) : list (prog world (option passed)) := if hasKeys then [by_managed_key token] else [].

(** [None] is the answer 401. *)
Definition AuthMiddlewareWithAPIKeys (hasKeys : bool) (authHeader : string) : prog world (option passed) :=
  if str_empty authHeader then Ret None
  else match bearer_token authHeader with
       | None => Ret None
       | Some token => first_of (by_agent_key token :: managed hasKeys token)
       end.
Definition OptionalAuthMiddlewareWithAPIKeys (hasKeys : bool) (authHeader : string) : prog world (option passed) :=
  if str_empty authHeader then Ret (Some (anonymous, []))
  else match bearer_token authHeader with
       | None => Ret (Some (anonymous, []))
       | Some token => first_of (by_agent_key token :: managed hasKeys token)
       end.
Definition RequiredAuthMiddlewareWithOAuth (hasKeys hasProvider : bool) (authHeader : string) : prog world (option passed) :=
  if negb hasProvider then AuthMiddlewareWithAPIKeys hasKeys authHeader
  else if str_empty authHeader then Ret None
  else match bearer_token authHeader with
       | None => Ret None
       | Some token => first_of (by_agent_key token :: managed hasKeys token ++ [by_oauth token])
       end.
End Middleware.
