(* ===== verification/GatewaySpec.v ===== *)
(** * What the middleware guarantees *)
From S2P Require Import Prelude Prog Table Schema Messaging Agents ApiKeys Auth AuthHandlers Gateway AgentsSpec Retention ApiKeysSpec.

Section Sound.
Context {HEng : Engine} {HCred : Credentials} {HKey : KeyMaterial} {HProv : OAuthProvider} {HFold : FoldEqual}.

(** Why a token lets through, in the state it was checked in. *)
Definition active_agent (w : world) (a : Agent) : Prop := a ∈ rows (agents (w_db w)) /\ is_active a = true.
Definition as_agent (w : world) (token : string) (c : caller) : Prop :=
  exists a, active_agent w a /\ CompareHashAndPassword (APIKeyHash a) token = true /\ c = mkCaller (Some a) None (Some (Agent_OwnerID a)).
Definition as_key (w : world) (token : string) (c : caller) : Prop :=
  String.prefix "sb_" token = true /\
  exists k, k ∈ rows (api_keys (w_keys w)) /\ live (key_prefix token) (ApiKeys.now (w_keys w)) k = true /\ key_verifies (KeyHash k) token = true /\
    ctx_Key c = Some (public_key k) /\ ctx_Owner c = Some (Key_UserID k) /\
    forall a, ctx_Agent c = Some a -> active_agent w a /\ Key_AgentID k = Some (Agent_ID a).
Definition as_grant (w : world) (token : string) (c : caller) : Prop :=
  exists fs ar, (run (IntrospectToken token) fs (w_auth w)).1 = Ok ar /\ fs_AgentName (Req_Session ar) <> "" /\ ctx_Key c = None /\
    forall a, ctx_Agent c = Some a -> active_agent w a /\ Agent_Name a = fs_AgentName (Req_Session ar).

Definition unchanged (w w' : world) : Prop := w_db w' = w_db w /\ w_keys w' = w_keys w.

Lemma wp_in_db {B} (p : prog db B) Q w : wp p (fun b d => Q b (put_db d w)) (w_db w) -> wp (in_db p) Q w.
Proof. apply wp_focus; by intros []. Qed.
Lemma wp_in_keys {B} (p : prog keys_db B) Q w : wp p (fun b d => Q b (put_keys d w)) (w_keys w) -> wp (in_keys p) Q w.
Proof. apply wp_focus; by intros []. Qed.
Lemma wp_in_auth {B} (p : prog auth_db B) Q w : wp p (fun b d => Q b (put_auth d w)) (w_auth w) -> wp (in_auth p) Q w.
Proof. apply wp_focus; by intros []. Qed.

(** All a check starts: the note of when the key it found was last used. *)
Definition starts_only (c : caller) (started : list (prog world unit)) : Prop :=
  forall g, g ∈ started -> exists k, ctx_Key c = Some k /\ forall w,
    wp g (fun _ w' => w' = w \/
      w' = put_keys (set_keys (update_rows (by_id (Key_ID k)) (with_last_used (ApiKeys.now (w_keys w))) (api_keys (w_keys w))) (w_keys w)) w) w.
Definition passes (P : world -> caller -> Prop) (w : world) (r : passed) : Prop := P w r.1 /\ starts_only r.1 r.2.

(** One way of authenticating: what it answers is justified in the state it
    finds, and it leaves the state as [R] says. *)
Definition justified (R : world -> world -> Prop) (P : world -> passed -> Prop) (p : prog world (option passed)) : Prop :=
  forall w, wp p (fun o w' => R w w' /\ forall c, o = Some c -> P w c) w.

Lemma put_db_same w : put_db (w_db w) w = w.
Proof. by destruct w. Qed.
Lemma put_keys_same w : put_keys (w_keys w) w = w.
Proof. by destruct w. Qed.

Lemma justified_mono (R R' : world -> world -> Prop) (P P' : world -> passed -> Prop) p :
  (forall w w', R w w' -> R' w w') -> (forall w c, P w c -> P' w c) -> justified R P p -> justified R' P' p.
Proof. intros HR HP H w. eapply wp_mono; [|apply H]. intros o w' [H1 H2]. split; [by apply HR|]. intros c Hc. by apply HP, H2. Qed.
(** A try that fails leaves the next one the same state. *)
Lemma justified_first R P p tries `{!Reflexive R} : justified eq P p -> justified R P (first_of tries) -> justified R P (first_of (p :: tries)).
Proof.
  intros H1 H2 w. change (first_of (p :: tries)) with (let! o := p in match o with Some c => Ret (Some c) | None => first_of tries end).
  apply wp_bind. eapply wp_mono; [|apply (H1 w)]. intros o w' [<- Hc]. destruct o as [c|]; [|apply H2]. cbn [wp]. split; [done|]. intros c' [= <-]. by apply Hc.
Qed.
Lemma justified_last R P p : justified R P p -> justified R P (first_of [p]).
Proof.
  intros H w. cbn [first_of foldr]. apply wp_bind. eapply wp_mono; [|apply H]. intros [c|] w' Hw; cbn [wp]; [exact Hw|]. split; [apply Hw|done].
Qed.
Lemma justified_none R P `{!Reflexive R} : justified R P (Ret None).
Proof. intros w. by split. Qed.

Lemma by_agent_key_justified token : justified eq (passes (fun w => as_agent w token)) (by_agent_key token).
Proof.
  intros w. unfold by_agent_key. apply wp_bind, wp_in_db. unfold Agents.Authenticate. apply wp_bind_ok. split; cbn [wp]; [|by rewrite put_db_same].
  destruct (filter _ _) as [|a l] eqn:E; cbn [wp]; rewrite put_db_same; split; try done.
  intros c [= <-]. split; [|by intros g H%elem_of_nil]. exists a. assert (a ∈ filter (fun a => CompareHashAndPassword (APIKeyHash a) token = true) (select_by agent_name_le (fun a => is_active a && true) (agents (w_db w)))) as Ha by (rewrite E; by left).
  apply list_elem_of_filter in Ha as [Hc [Hact Hin]%elem_of_select_by]. rewrite andb_true_r in Hact. by split_and!.
Qed.

Lemma touches_only (k : APIKey) agent owner :
  starts_only (mkCaller agent (Some (public_key k)) owner) [in_keys (touch_key (Key_ID k))].
Proof.
  intros g ->%list_elem_of_singleton. exists (public_key k). split; [done|]. intros w. apply wp_in_keys, wp_bind. unfold UpdateLastUsed. split; cbn [wp].
  - by right.
  - left. apply put_keys_same.
Qed.
Lemma by_managed_key_justified token : justified eq (passes (fun w => as_key w token)) (by_managed_key token).
Proof.
  intros w. unfold by_managed_key. destruct (String.prefix "sb_" token) eqn:Hp; [|by split]. cbn [negb]. apply wp_bind, wp_in_keys.
  unfold ApiKeys.Authenticate, store_Authenticate. change (String.prefix keyPrefixTag token) with (String.prefix "sb_" token). rewrite Hp. cbn [negb].
  destruct ((String.length token <? 11)%nat); cbn [wp bind bind_ok]; [by rewrite put_keys_same|]. apply wp_bind_ok, wp_bind_ok. split; cbn [wp]; [|by rewrite put_keys_same].
  destruct (find _ _) as [k|] eqn:Ef; cbn [wp]; rewrite put_keys_same; [|done]. apply find_some in Ef as [Hin Hv].
  apply list_elem_of_In in Hin. rewrite scan_perm, elem_of_select in Hin. destruct Hin as [Hl Hin].
  change (Key_AgentID (public_key k)) with (Key_AgentID k). apply wp_bind. change (Key_ID (public_key k)) with (Key_ID k). destruct (Key_AgentID k) as [id|] eqn:Eid; cbn [wp].
  - apply wp_bind, wp_in_db. unfold GetAgentByID, or_not_found. apply wp_bind. unfold store_GetAgentByID. split; cbn [wp].
    + destruct (find_row _ (agents (w_db w))) as [a|] eqn:Ef; cbn [wp]; rewrite put_db_same; (split; [done|]); intros c [= <-]; (split; [|by apply touches_only]); (split; [done|]);
        exists k; split_and!; try done; intros a' [= <-].
      apply find_row_Some in Ef as [[Hb%Z.eqb_eq Hact]%andb_true_iff Ha]. split; [by split|]. rewrite Eid. by rewrite <- Hb.
    + rewrite put_db_same. split; [done|]. intros c [= <-]. split; [|by apply touches_only]. split; [done|]. exists k. by split_and!.
  - split; [done|]. intros c [= <-]. split; [|by apply touches_only]. split; [done|]. exists k. by split_and!.
Qed.

Lemma by_oauth_justified token : justified unchanged (passes (fun w => as_grant w token)) (by_oauth token).
Proof.
  intros w. unfold by_oauth, resolveOAuthToken. apply wp_bind, wp_bind, wp_in_auth.
  apply wp_of_runs. intros fs. destruct (run (IntrospectToken token) fs (w_auth w)) as [o d] eqn:Er. cbn [fst snd wp].
  destruct o as [ar|e|x]; cbn [wp]; [|by split..]. destruct (str_empty (fs_AgentName (Req_Session ar))) eqn:Ee; cbn [wp]; [by split|].
  apply bool_decide_eq_false in Ee. apply wp_bind, wp_in_db. unfold GetAgent, or_not_found. apply wp_bind. unfold GetAgentByName.
  assert ((run (IntrospectToken token) fs (w_auth w)).1 = Ok ar) as Hrun by by rewrite Er.
  split; cbn [wp put_auth w_db].
  - destruct (find_row _ (agents (w_db w))) as [a|] eqn:Ef; cbn [wp]; (split; [by split|]); intros c [= <-];
      (split; [|by intros g H%elem_of_nil]); exists fs, ar; split_and!; try done; intros a' [= <-].
    apply find_row_Some in Ef as [[Hn%String.eqb_eq Hact]%andb_true_iff Hin]. by split.
  - split; [by split|]. intros c [= <-]. split; [|by intros g H%elem_of_nil]. exists fs, ar. by split_and!.
Qed.

(** C31. Nobody gets to the tools unjustified: a request that passes carries a
    token that an active agent's own key accepts, or that a live managed key
    accepts, or that the authorization server resolves to a grant with an
    agent; and whoever it then acts as is the active agent this key or grant
    names.  This holds whatever statements fail.  The check itself changes
    neither agents nor keys; all it starts is a goroutine that notes, or fails to
    note, when the managed key it found was last used. *)
Theorem gateway_sound (hasKeys hasProvider : bool) (authHeader : string) :
  justified unchanged (passes (fun w c => exists token, bearer_token authHeader = Some token /\
      (as_agent w token c \/ hasKeys = true /\ as_key w token c \/ hasProvider = true /\ as_grant w token c)))
    (RequiredAuthMiddlewareWithOAuth hasKeys hasProvider authHeader).
Proof.
  assert (Reflexive unchanged) as Hrefl by (intros w; by split).
  unfold RequiredAuthMiddlewareWithOAuth, AuthMiddlewareWithAPIKeys. destruct (str_empty authHeader); [destruct hasProvider; by apply justified_none|].
  destruct (bearer_token authHeader) as [token|]; [|destruct hasProvider; by apply justified_none].
  set (P := passes _). assert (forall rest, justified unchanged P (first_of rest) -> justified unchanged P (first_of (by_agent_key token :: managed hasKeys token ++ rest))) as Hkeys.
  { intros rest Hrest. apply justified_first; [done|eapply justified_mono, by_agent_key_justified; [done|]; intros w c [H1 H2]; split; eauto|].
    unfold managed. destruct hasKeys; [|exact Hrest]. apply justified_first; [done|eapply justified_mono, by_managed_key_justified; [done|]; intros w c [H1 H2]; split; eauto 6|exact Hrest]. }
  destruct hasProvider; cbn [negb].
  - apply Hkeys, justified_last. eapply justified_mono, by_oauth_justified; [done|]. intros w c [H1 H2]. split; eauto 6.
  - rewrite <- (app_nil_r (managed hasKeys token)). apply Hkeys. by apply justified_none.
Qed.
End Sound.

(** ** Runs of the keys and of the middleware

    Witnesses of their theorems, and a run in which the key of one user acts as
    the agent of another. *)

Module GatewayRuns.
#[local] Existing Instance rowid_engine.
#[local] Existing Instance AgentRuns.cred.
(** A stand-in for the random source and bcrypt. *)
#[local] Instance material : KeyMaterial.
Proof.
  refine {| key_bytes := Ret (Ok "abcdefghijklmnopqrstuvwx"); key_digest := fun k => Ret (Ok ("#" +:+ k)); key_verifies := fun h k => String.eqb h ("#" +:+ k) |}.
  - done.
  - by intros d b [= <-].
  - done.
  - intros k d h [= <-]. apply String.eqb_refl.
Defined.
#[local] Instance no_provider : OAuthProvider :=
  {| IntrospectToken := fun _ => Ret (Err EProvider); NewAuthorizeRequest := fun _ => Ret (Err EProvider); GrantScope := fun _ r => r;
     NewAuthorizeResponse := fun _ _ => Ret (Err EProvider) |}.
#[local] Instance exact_fold : FoldEqual := {| EqualFold := String.eqb |}.

Definition no_keys : keys_db := mkKeysDb 1 empty_table.
Lemma no_keys_ok : keys_ok no_keys.
Proof. split; [apply table_ok_empty|]. by intros k H%elem_of_nil. Qed.
Definition all_read : Permissions := mkPermissions true false false.
Definition request (expires : option Z) : CreateKeyRequest := mkCreateKey 1 (Some 1) "ci" all_read [] true expires.

Lemma key_lifecycle_witness : exists key raw d', run_ok (CreateKey (request (Some 10))) no_keys = (Ok (key, raw), d') /\
  (run_ok (ApiKeys.Authenticate raw) (mkKeysDb 9 (api_keys d'))).1 = Ok (key, touch_key (Key_ID key)) /\ (run_ok (ApiKeys.Authenticate raw) (mkKeysDb 10 (api_keys d'))).1 = Err EInvalidKey.
Proof.
  eexists _, _, _. split; [vm_compute; reflexivity|].
  pose proof (key_lifecycle (HEng := rowid_engine) (HKey := material) (request (Some 10)) no_keys _ _ _ no_keys_ok ltac:(vm_compute; reflexivity) (fun k H => False_ind _ (not_elem_of_nil k H))) as H.
  split; [destruct (H 8 ltac:(lia)) as [H1 _]; exact H1|destruct (H 9 ltac:(lia)) as [H1 _]; exact H1].
Defined.

Lemma keys_history_witness :
  let cs := [CallCreate (request None); CallRevoke 1; CallUsed 1] in
  let r := run_schedule (concat (repeat [(0, false); (1, false); (2, false)]%nat 6)) (key_prog <$> cs) no_keys in
  keys_ok r.2 /\ Key_ID <$> rows (api_keys r.2) = [1].
Proof.
  intros cs r. destruct (keys_history (HEng := rowid_engine) (HKey := material) cs no_keys r.1 r.2 no_keys_ok) as [H _].
  - rewrite <- surjective_pairing. apply run_schedule_reachable.
  - split; [exact H|]. by vm_compute.
Defined.

(** A key names any agent: the handler that creates one does not ask whose the
    agent is, and the key then lets its owner act as that agent. *)
Theorem key_for_any_agent :
  let body := mkKeyBody "mine" (Some (Agent_ID AgentRuns.bob)) all_read [] true None in
  let '(o, d) := run_ok (handle_CreateKey (Some (Agent_OwnerID AgentRuns.bob + 1)) (Some body)) no_keys in
  match o with
  | KeyCreated key raw =>
      let w := mkWorld AgentRuns.bob_db d (mkAuthDb 1 empty_table ∅ ∅ ∅ empty_table empty_table ∅) in
      let passed := (run_ok (RequiredAuthMiddlewareWithOAuth true true ("Bearer " +:+ raw)) w).1 in
      ctx_Agent <$> (fst <$> passed) = Some (Some AgentRuns.bob) /\ ctx_Owner <$> (fst <$> passed) = Some (Some (Agent_OwnerID AgentRuns.bob + 1))
  | _ => False
  end.
Proof. by vm_compute. Qed.
End GatewayRuns.
