(* ===== verification/Injection.v ===== *)
(** * Memories attached to the answers of tools (internal/search/injection.go,
    internal/mcp/injection_wrap.go, the query sources of
    internal/mcp/tools_hybrid.go, the injection part of
    internal/messaging/memory_config.go)

    [BuildContextPacket] assembles the packet, [WrapInjection] attaches it to
    the answer of a tool.  The providers that may be missing are options. *)
From stdpp Require Import pretty.
From S2P Require Import Prelude Float64 Prog Table Schema Messaging MessagingQueries Retention Memory MemoryTools Embeddings Search.

(** ** Data *)
Record MemoryItem := mkMemoryItem {
  mi_ID : Z;
  mi_FromAgent : string;
  mi_Channel : string;
  mi_Body : string;
  mi_CreatedAt : Z;
  mi_Score : spec_float;
  mi_MatchType : string;
  mi_Pinned : bool;
  mi_Truncated : bool
}.

Record ContextPacket := mkContextPacket {
  Memories : list MemoryItem;
  pkt_CoreMemory : string;
  PacketChars : Z;
  PacketTokenEstimate : Z;
  RetrievalQuery : string;
  pkt_SearchMode : string
}.

(** A provider is a method of an interface; [Statuses] answers the status
    texts. *)
Record InjectionOpts := mkInjectionOpts {
  BudgetTokens : Z;
  MaxItems : Z;
  MinScore : spec_float;
  IncludeCore : bool;
  CoreProvider : option (string -> string -> M string);
  PinProvider : option (string -> M (list Z));
  StatusProvider : option (list Z -> M (gmap Z string));
  MessageLookup : option (list Z -> M (list MemoryItem));
  RecentWindowDays : Z
}.

(** ** The budget *)
Definition EstimateTokens (chars : Z) : Z := if chars <=? 0 then 0 else (chars + 3) / 4.

Definition string_len (s : string) : Z := Z.of_nat (String.length s).
Definition itemChars (it : MemoryItem) : Z :=
  string_len (mi_Body it) + string_len (mi_FromAgent it) + string_len (mi_Channel it) + 32.
Definition itemsChars (l : list MemoryItem) : Z := foldr (fun it total => itemChars it + total) 0 l.
Definition packetChars (memories : list MemoryItem) (core : string) : Z := itemsChars memories + string_len core.

Definition truncate_body (n : Z) (it : MemoryItem) : MemoryItem :=
  mkMemoryItem (mi_ID it) (mi_FromAgent it) (mi_Channel it) (String.substring 0 (Z.to_nat n) (mi_Body it)) (mi_CreatedAt it)
    (mi_Score it) (mi_MatchType it) (mi_Pinned it) true.

(** The loop; [remaining] is less than the cost of an item in memory, so four
    times it does not wrap. *)
Fixpoint admit_items (maxItems budgetTokens i used : Z) (items : list MemoryItem) : list MemoryItem :=
  match items with
  | [] => []
  | it :: rest =>
      if maxItems <=? i then []
      else
        let cost := EstimateTokens (itemChars it) in
        if used + cost <=? budgetTokens then it :: admit_items maxItems budgetTokens (i + 1) (used + cost) rest
        else
          let remaining := budgetTokens - used in
          if remaining <=? 0 then []
          else
            let overhead := itemChars it - string_len (mi_Body it) in
            let maxBodyChars := remaining * 4 - overhead in
            if maxBodyChars <=? 0 then []
            else if string_len (mi_Body it) <=? maxBodyChars
            then it :: admit_items maxItems budgetTokens (i + 1) (used + EstimateTokens (itemChars it)) rest
            else [truncate_body maxBodyChars it]
  end.
Definition applyTokenBudget (items : list MemoryItem) (maxItems budgetTokens : Z) : list MemoryItem :=
  if budgetTokens <=? 0 then [] else admit_items maxItems budgetTokens 0 0 items.

(** ** Status and pins *)
Definition status_active (statuses : gmap Z string) (id : Z) : bool :=
  match statuses !! id with Some s => str_empty s || String.eqb s "active" | None => true end.

Definition applyStatusFilter (items : list MemoryItem) (sparedIDs : list Z) (opts : InjectionOpts) : prog db (list MemoryItem) :=
  match StatusProvider opts, items with
  | None, _ | _, [] => Ret items
  | Some f, _ =>
      let! statuses := f (mi_ID <$> items) in
      Ret (match statuses with
           | Ok st => filter (fun it => status_active st (mi_ID it) || bool_decide (mi_ID it ∈ sparedIDs) = true) items
           | _ => items
           end)
  end.

Definition pin (it : MemoryItem) : MemoryItem :=
  mkMemoryItem (mi_ID it) (mi_FromAgent it) (mi_Channel it) (mi_Body it) (mi_CreatedAt it) f64_one (mi_MatchType it) true (mi_Truncated it).
Definition as_pinned (it : MemoryItem) : MemoryItem :=
  mkMemoryItem (mi_ID it) (mi_FromAgent it) (mi_Channel it) (mi_Body it) (mi_CreatedAt it) f64_one "pinned" true (mi_Truncated it).

Definition loadPinIDs (opts : InjectionOpts) (ownerID : string) : M (list Z) :=
  match PinProvider opts with
  | Some f => if str_empty ownerID then Ret (Ok []) else f ownerID
  | None => Ret (Ok [])
  end.

(** ** Retrieval *)
Definition channelName (id : Z) : M string :=
  query_o EDb (fun d => match find_id id (channels d) with Some c => Ok (Ch_Name c) | None => Err ErrNoRows end).

Definition score_of (r : SearchResult) : spec_float :=
  if SFeqb (SimilarityScore r) f64_zero then RelevanceScore r else SimilarityScore r.
Definition memory_item (r : SearchResult) (channel : string) : MemoryItem :=
  let m := sres_Message r in
  mkMemoryItem (Msg_ID m) (FromAgent m) channel (Body m) (Msg_CreatedAt m) (score_of r) (MatchType r) false false.
Definition channel_of (m : Message) : prog db string :=
  match Msg_ChannelID m with
  | Some c => let! name := channelName c in Ret (match name with Ok n => n | _ => EmptyString end)
  | None => Ret EmptyString
  end.

Fixpoint filterAndScore (callerOwnerID : string) (opts : InjectionOpts) (results : list SearchResult) : prog db (list MemoryItem) :=
  match results with
  | [] => Ret []
  | r :: rest =>
      if f64_lt f64_zero (MinScore opts) && f64_lt (score_of r) (MinScore opts) then filterAndScore callerOwnerID opts rest
      else
        let! owner := OwnerFor (FromAgent (sres_Message r)) in
        match owner with
        | Ok o =>
            if negb (String.eqb o callerOwnerID) then filterAndScore callerOwnerID opts rest
            else
              let! channel := channel_of (sres_Message r) in
              let! items := filterAndScore callerOwnerID opts rest in
              Ret (memory_item r channel :: items)
        | _ => filterAndScore callerOwnerID opts rest
        end
  end.

(** The rows of the recency query; [name] is UNIQUE in [agents]. *)
Definition owned_by (ownerID : string) (name : string) (d : db) : bool :=
  existsb (fun a => String.eqb (Agent_Name a) name && String.eqb (pretty (Agent_OwnerID a)) ownerID) (rows (agents d)).
Definition channel_name_of (m : Message) (d : db) : option string :=
  c ← Msg_ChannelID m; Ch_Name <$> find_id c (channels d).
Definition recent_memory (ownerID : string) (windowDays : Z) (d : db) (m : Message) : bool :=
  owned_by ownerID (FromAgent m) d && bool_decide (channel_name_of m d = Some "open-brain") && negb (str_empty (Body m)) &&
  (clock d - windowDays * 86400 <? Msg_CreatedAt m).
Definition recent_item (m : Message) : MemoryItem :=
  mkMemoryItem (Msg_ID m) (FromAgent m) "open-brain" (Body m) (Msg_CreatedAt m) f64_one "recent" false false.
Definition msg_newest (a b : Message) : Prop := Msg_ID b <= Msg_ID a.
#[export] Instance msg_newest_dec a b : Decision (msg_newest a b).
Proof. unfold msg_newest. apply _. Defined.

Definition injection_search (query : string) (limit : Z) (minScore : spec_float) : UnifiedOptions :=
  mkUnifiedOptions query ModeAuto limit None EmptyString 0 None None minScore.

Section Packet.
Context {HEng : Engine} {HFTS : FTS} {HProv : EmbeddingProvider} {HIdx : VectorIndex} {HErr : ErrorText} {HMap : GoMapOrder}.

Definition recentMemoriesForOwner (ownerID : string) (limit windowDays : Z) : M (list MemoryItem) :=
  if str_empty ownerID || (limit <=? 0) then Ret (Ok [])
  else
    let windowDays := if windowDays <=? 0 then 14 else windowDays in
    query EDb (fun d => recent_item <$> page limit 0 (select_by msg_newest (recent_memory ownerID windowDays d) (messages d))).

(** Pinned ids that are missing are looked up, in the order in which a map is
    ranged over, and come first. *)
Definition applyPinOverlay (items : list MemoryItem) (pinIDs : list Z) (opts : InjectionOpts) : prog db (list MemoryItem) :=
  let marked := (fun it => if bool_decide (mi_ID it ∈ pinIDs) then pin it else it) <$> items in
  let missing := filter (fun id => id ∉ mi_ID <$> items) (range_order (remove_dups pinIDs)) in
  match MessageLookup opts, missing with
  | None, _ | _, [] => Ret marked
  | Some f, _ =>
      let! extra := f missing in
      match extra with
      | Ok extra =>
          let! kept := match StatusProvider opts with
                       | Some g => let! statuses := g missing in
                                   Ret (match statuses with
                                        | Ok st => filter (fun it => status_active st (mi_ID it) = true) extra
                                        | _ => extra
                                        end)
                       | None => Ret extra
                       end in
          Ret ((as_pinned <$> kept) ++ marked)
      | _ => Ret marked
      end
  end.

(** [svc]: [None] for no search service, else whether it has a semantic index. *)
Definition retrieve (svc : option bool) (agentName callerOwner query : string) (wantedLimit : Z) (opts : InjectionOpts) : M (list MemoryItem * string) :=
  match svc with
  | Some semantic =>
      if str_empty callerOwner then Ret (Ok ([], ModeAuto))
      else if negb (str_empty query) then
        let? resp := Search semantic agentName (injection_search query wantedLimit (MinScore opts)) in
        let! items := filterAndScore callerOwner opts (Results resp) in
        Ret (Ok (items, SearchMode resp))
      else
        let windowDays := if RecentWindowDays opts <=? 0 then 14 else RecentWindowDays opts in
        let? items := recentMemoriesForOwner callerOwner wantedLimit windowDays in
        Ret (Ok (items, "recent"))
  | None => Ret (Ok ([], ModeAuto))
  end.

Definition core_blob (callerOwner agentName : string) (opts : InjectionOpts) : M string :=
  match CoreProvider opts with
  | Some f =>
      if IncludeCore opts && negb (str_empty callerOwner) then
        let! blob := f callerOwner agentName in
        Ret (match blob with Err ErrNoRows => Ok EmptyString | o => o end)
      else Ret (Ok EmptyString)
  | None => Ret (Ok EmptyString)
  end.

Definition caller_owner (agent : Agent) : string := if Agent_OwnerID agent =? 0 then EmptyString else pretty (Agent_OwnerID agent).
Definition max_items (opts : InjectionOpts) : Z := if MaxItems opts <=? 0 then 5 else MaxItems opts.
Definition wanted_limit (maxItems : Z) : Z := let l := wrap64 (maxItems * 3) in if l <? 15 then 15 else l.
Definition packet (memories : list MemoryItem) (coreBlob query searchMode : string) : ContextPacket :=
  let chars := packetChars memories coreBlob in
  mkContextPacket memories coreBlob chars (EstimateTokens chars) query searchMode.

Definition BuildContextPacket (svc : option bool) (agent : option Agent) (query : string) (opts : InjectionOpts) : M (option ContextPacket) :=
  if BudgetTokens opts =? 0 then Ret (Ok None)
  else match agent with
  | None => Ret (Err ENilAgent)
  | Some agent =>
      let maxItems := max_items opts in
      let callerOwner := caller_owner agent in
      let? found := retrieve svc (Agent_Name agent) callerOwner query (wanted_limit maxItems) opts in
      let '(memories, searchMode) := found in
      let! memories := applyStatusFilter memories [] opts in
      let! pins := loadPinIDs opts callerOwner in
      let! memories :=
        match pins with
        | Ok (id :: ids) => let! l := applyStatusFilter memories (id :: ids) opts in applyPinOverlay l (id :: ids) opts
        | _ => Ret memories
        end in
      let memories := applyTokenBudget memories maxItems (BudgetTokens opts) in
      let? coreBlob := core_blob callerOwner (Agent_Name agent) opts in
      Ret (Ok (match memories with
               | [] => if str_empty coreBlob then None else Some (packet [] coreBlob query searchMode)
               | _ => Some (packet memories coreBlob query searchMode)
               end))
  end.
End Packet.

(** ** The wrapper *)
Record InjectionConfig := mkInjectionConfig {
  InjectionEnabled : bool;
  InjectionBudgetTokens : Z;
  InjectionMaxItems : Z;
  InjectionMinScore : spec_float;
  InjectionRecentWindow : Z   (** [DreamRecentWindow], seconds *)
}.
Definition DefaultInjectionConfig : InjectionConfig := mkInjectionConfig false 500 5 DefaultMinSimilarity (336 * 3600).

Definition json_object : Type := list (string * json).
Definition QuerySource : Type := option json_object -> json_object -> string.
Definition string_arg (k : string) (args : option json_object) : string :=
  match args with
  | Some ms => match obj_get k ms with Some (JStr s) => s | _ => EmptyString end
  | None => EmptyString
  end.
Definition querySourceFor (toolName : string) : QuerySource :=
  fun args _ =>
    if String.eqb toolName "my_status" then EmptyString
    else if String.eqb toolName "send_message" then string_arg "body" args
    else if String.eqb toolName "search" then string_arg "query" args
    else if String.eqb toolName "execute" then string_arg "code" args
    else EmptyString.

Record WrapConfig := mkWrapConfig {
  wc_Cfg : InjectionConfig;
  wc_SearchSvc : option bool;
  wc_Injections : bool;                (** the audit ring is there *)
  wc_QuerySource : option QuerySource;
  wc_IncludeCore : bool;
  wc_CoreProvider : option (string -> string -> M string)
}.

(** What a tool answers.  [Injected] is the object of the answer with the
    packet as its member [relevant_context]. *)
Inductive content := TextContent (text : rawjson) | Injected (body : json_object) (relevant_context : ContextPacket) | OtherContent.
Record CallToolResult := mkCallToolResult { IsError : bool; Content : list content }.

(** A text is an object exactly when it starts with a brace and decodes. *)
Definition singleJSONText (res : CallToolResult) : option rawjson :=
  match Content res with
  | [TextContent (RawJson (JObj ms))] => Some (RawJson (JObj ms))
  | _ => None
  end.

Definition formatInt64 (v : Z) : string :=
  if v =? 0 then "0"
  else
    let neg := v <? 0 in
    let buf := itoa_digits 20 (if neg then wrap64 (- v) else v) EmptyString in
    if neg then "-" +:+ buf else buf.
Definition ownerIDString (id : Z) : string := if id =? 0 then EmptyString else formatInt64 id.

(** The row the goroutine writes. *)
Definition recordInjection (has_store : bool) (agent : Agent) (toolName : string) (pkt : ContextPacket) : option InjectionRecord :=
  if has_store then
    Some (mkInjectionRecord 0 (ownerIDString (Agent_OwnerID agent)) (Agent_Name agent) toolName (PacketChars pkt)
            (Z.of_nat (length (Memories pkt))) (mi_ID <$> Memories pkt) (negb (str_empty (pkt_CoreMemory pkt))) zero_time)
  else None.

Definition window_days (cfg : InjectionConfig) : Z :=
  let days := Z.quot (InjectionRecentWindow cfg) 86400 in if days <? 1 then 14 else days.
(** The options of the wrapper: it sets no provider of pins, of statuses or of
    messages. *)
Definition wrap_opts (cfg : WrapConfig) : InjectionOpts :=
  mkInjectionOpts (InjectionBudgetTokens (wc_Cfg cfg)) (InjectionMaxItems (wc_Cfg cfg)) (InjectionMinScore (wc_Cfg cfg)) (wc_IncludeCore cfg)
    (wc_CoreProvider cfg) None None None (window_days (wc_Cfg cfg)).

Section Wrap.
Context {HEng : Engine} {HFTS : FTS} {HProv : EmbeddingProvider} {HIdx : VectorIndex} {HErr : ErrorText} {HMap : GoMapOrder} {HJson : GoJson}.
Abbreviation tool_answer := (outcome error (option CallToolResult)).

(** The answer, and the row of a goroutine that was started. *)
Definition WrapInjection (inner : prog db tool_answer) (toolName : string) (args : option json_object) (agent : option Agent) (cfg : WrapConfig)
    : prog db (tool_answer * option InjectionRecord) :=
  if negb (InjectionEnabled (wc_Cfg cfg)) then let! o := inner in Ret (o, None)
  else
    let! o := inner in
    match o with
    | Ok (Some res) =>
        if IsError res then Ret (o, None)
        else match singleJSONText res with
        | None => Ret (o, None)
        | Some text =>
            match unmarshal_map text, agent with
            | DecodedMap body, Some agent =>
                let query := match wc_QuerySource cfg with Some q => q args body | None => EmptyString end in
                let! built := BuildContextPacket (wc_SearchSvc cfg) (Some agent) query (wrap_opts cfg) in
                match built with
                | Ok (Some pkt) =>
                    if bool_decide (Memories pkt = []) && str_empty (pkt_CoreMemory pkt) then Ret (o, None)
                    else Ret (Ok (Some (mkCallToolResult false [Injected (filter (fun kv => kv.1 <> "relevant_context") body) pkt])),
                              recordInjection (wc_Injections cfg) agent toolName pkt)
                | Panic w => Ret (Panic w, None)
                | _ => Ret (o, None)
                end
            | _, _ => Ret (o, None)
            end
        end
    | _ => Ret (o, None)
    end.

(** The configuration of the registrar. *)
Definition registrar_wrap (cfg : InjectionConfig) (svc : option bool) (injections : bool) (core : option (string -> string -> M string))
    (toolName : string) (includeCore : bool) (inner : prog db tool_answer) (args : option json_object) (agent : option Agent)
    : prog db (tool_answer * option InjectionRecord) :=
  if negb (InjectionEnabled cfg) then let! o := inner in Ret (o, None)
  else WrapInjection inner toolName args agent (mkWrapConfig cfg svc injections (Some (querySourceFor toolName)) includeCore core).
End Wrap.
