(* ===== verification/InjectionSpec.v ===== *)
(** * What the injected packet guarantees

    [apply_budget_bounds]: the packet keeps to its limits and leaves nothing
    out that fits.  [injection_safe]: a wrapped tool answers what the tool
    answers, and only memories of the caller's owner are added. *)
From stdpp Require Import pretty.
From S2P Require Import Prelude Float64 Prog Table Schema Messaging MessagingFacts MessagingSpec MessagingQueries MessagingQueriesSpec Retention Memory MemoryTools Embeddings Search SearchSpec Injection MemoryRuns.

(** ** The budget *)
Lemma length_substring n s : String.length (String.substring 0 n s) = Nat.min n (String.length s).
Proof. revert n. induction s as [|c s IH]; intros [|n]; cbn [String.substring String.length]; [done..|]. rewrite IH. lia. Qed.

Lemma string_len_nonneg s : 0 <= string_len s.
Proof. unfold string_len. lia. Qed.
#[local] Hint Resolve string_len_nonneg : core.

Definition costs (l : list MemoryItem) : Z := foldr (fun it total => EstimateTokens (itemChars it) + total) 0 l.

Lemma itemChars_pos it : 32 <= itemChars it.
Proof. unfold itemChars. pose proof (string_len_nonneg (mi_Body it)). pose proof (string_len_nonneg (mi_FromAgent it)). pose proof (string_len_nonneg (mi_Channel it)). lia. Qed.
Lemma EstimateTokens_pos n : 0 < n -> EstimateTokens n = (n + 3) / 4.
Proof. intros H. unfold EstimateTokens. by rewrite (proj2 (Z.leb_gt _ _) H). Qed.
Lemma EstimateTokens_nonneg n : 0 <= EstimateTokens n.
Proof. unfold EstimateTokens. destruct (Z.leb_spec n 0); [done|]. apply Z.div_pos; lia. Qed.
Lemma EstimateTokens_add a b : 0 <= a -> 0 <= b -> EstimateTokens (a + b) <= EstimateTokens a + EstimateTokens b.
Proof.
  intros Ha Hb. unfold EstimateTokens. destruct (Z.leb_spec a 0), (Z.leb_spec b 0), (Z.leb_spec (a + b) 0); try lia;
    try (replace a with 0 by lia; lia); try (replace b with 0 by lia; rewrite Z.add_0_r; lia); try (apply Z.add_nonneg_nonneg; apply Z.div_pos; lia).
  all: Z.to_euclidean_division_equations; lia.
Qed.
Lemma itemsChars_nonneg l : 0 <= itemsChars l.
Proof. induction l as [|it l IH]; cbn [itemsChars foldr]; [done|]. pose proof (itemChars_pos it). unfold itemsChars in IH. lia. Qed.
Lemma costs_nonneg l : 0 <= costs l.
Proof. induction l as [|it l IH]; cbn [costs foldr]; [done|]. pose proof (EstimateTokens_nonneg (itemChars it)). unfold costs in IH. lia. Qed.

(** The estimate of the whole is at most the sum of the estimates. *)
Lemma estimate_costs l : EstimateTokens (itemsChars l) <= costs l.
Proof.
  induction l as [|it l IH]; [done|]. change (itemsChars (it :: l)) with (itemChars it + itemsChars l). change (costs (it :: l)) with (EstimateTokens (itemChars it) + costs l).
  etrans; [apply EstimateTokens_add; [pose proof (itemChars_pos it); lia|apply itemsChars_nonneg]|lia].
Qed.

(** The items in their order, the last perhaps with a shorter body. *)
Inductive taken : list MemoryItem -> list MemoryItem -> Prop :=
| taken_none l : taken [] l
| taken_item it o l : taken o l -> taken (it :: o) (it :: l)
| taken_cut it n l : 0 < n < string_len (mi_Body it) -> taken [truncate_body n it] (it :: l).

Lemma cut_chars n it : 0 < n < string_len (mi_Body it) -> itemChars (truncate_body n it) = n + (itemChars it - string_len (mi_Body it)).
Proof. intros H. unfold itemChars, string_len in *. cbn [truncate_body mi_Body mi_FromAgent mi_Channel]. rewrite length_substring. lia. Qed.

Lemma admit_bounds maxItems budget items : forall i used, 0 <= used <= budget ->
  let out := admit_items maxItems budget i used items in
  taken out items /\ Z.of_nat (length out) <= Z.max 0 (maxItems - i) /\ used + costs out <= budget /\
  (used + costs (take (Z.to_nat (maxItems - i)) items) <= budget -> out = take (Z.to_nat (maxItems - i)) items).
Proof.
  induction items as [|it items IH]; intros i used Hu; cbn [admit_items].
  { split_and!; [constructor|simpl; lia|simpl; lia|by rewrite take_nil]. }
  destruct (Z.leb_spec maxItems i) as [Hi|Hi].
  { split_and!; [constructor|simpl; lia|simpl; lia|]. intros _. by replace (Z.to_nat (maxItems - i)) with 0%nat by lia. }
  replace (Z.to_nat (maxItems - i)) with (S (Z.to_nat (maxItems - (i + 1)))) by lia. cbn [take].
  change (costs (it :: ?l)) with (EstimateTokens (itemChars it) + costs l). set (cost := EstimateTokens (itemChars it)).
  assert (0 <= cost) as Hc by apply EstimateTokens_nonneg.
  destruct (Z.leb_spec (used + cost) budget) as [Hfit|Hfit].
  - destruct (IH (i + 1) (used + cost) ltac:(lia)) as (H1&H2&H3&H4). cbn [length].
    split_and!; [by constructor|lia|change (used + (cost + costs (admit_items maxItems budget (i + 1) (used + cost) items)) <= budget); lia|].
    intros H. rewrite H4; [done|lia].
  - assert (0 <= costs (take (Z.to_nat (maxItems - (i + 1))) items)) as Hr by apply costs_nonneg.
    assert (forall out, taken out (it :: items) -> Z.of_nat (length out) <= 1 -> used + costs out <= budget ->
      taken out (it :: items) /\ Z.of_nat (length out) <= Z.max 0 (maxItems - i) /\ used + costs out <= budget /\
      (used + (cost + costs (take (Z.to_nat (maxItems - (i + 1))) items)) <= budget -> out = it :: take (Z.to_nat (maxItems - (i + 1))) items)) as Hend.
    { intros out H1 H2 H3. split_and!; [done|lia|done|lia]. }
    destruct (Z.leb_spec (budget - used) 0); [apply Hend; [constructor|simpl; lia|simpl; lia]|].
    destruct (Z.leb_spec ((budget - used) * 4 - (itemChars it - string_len (mi_Body it))) 0); [apply Hend; [constructor|simpl; lia|simpl; lia]|].
    pose proof (itemChars_pos it). destruct (Z.leb_spec (string_len (mi_Body it)) ((budget - used) * 4 - (itemChars it - string_len (mi_Body it)))) as [Hb|Hb].
    + exfalso. unfold cost in Hfit. rewrite EstimateTokens_pos in Hfit by lia. Z.to_euclidean_division_equations; lia.
    + apply Hend; [by constructor|done|]. cbn [costs foldr]. rewrite cut_chars by lia. rewrite EstimateTokens_pos by lia. Z.to_euclidean_division_equations; lia.
Qed.

(** What is injected keeps to its limits: at most [MaxItems] memories in
    the order of their ranking, only the last of them with a shortened body,
    whose estimated tokens, one by one and of the whole packet, are within the
    budget; and when the first [MaxItems] memories fit into the budget, all of
    them are injected as they are. *)
Theorem apply_budget_bounds (items : list MemoryItem) (maxItems budget : Z) :
  let out := applyTokenBudget items maxItems budget in
  taken out items /\ Z.of_nat (length out) <= Z.max 0 maxItems /\ costs out <= Z.max 0 budget /\
  PacketTokenEstimate (packet out EmptyString EmptyString ModeAuto) <= Z.max 0 budget /\
  (0 < budget -> costs (take (Z.to_nat maxItems) items) <= budget -> out = take (Z.to_nat maxItems) items).
Proof.
  unfold applyTokenBudget. destruct (Z.leb_spec budget 0) as [Hb|Hb].
  { cbv zeta. change (PacketTokenEstimate _) with 0. change (costs []) with 0. change (length []) with 0%nat. split_and!; [apply taken_none|lia..]. }
  destruct (admit_bounds maxItems budget items 0 0 ltac:(lia)) as (H1&H2&H3&H4). rewrite Z.sub_0_r in *. set (out := admit_items _ _ _ _ _) in *. cbv zeta.
  split_and!; [done|lia|lia| |intros _ H; apply H4; lia].
  cbn [packet PacketTokenEstimate packetChars]. unfold packetChars. change (string_len EmptyString) with 0. rewrite Z.add_0_r. pose proof (estimate_costs out). lia.
Qed.

(** ** The packet *)
Section Packet.
Context {HEng : Engine} {HFTS : FTS} {HProv : EmbeddingProvider} {HIdx : VectorIndex} {HErr : ErrorText} {HMap : GoMapOrder} {HJson : GoJson} {Hquiet : quiet}.

(** An item is a stored message, perhaps with a shorter body, whose author
    belongs to the caller's owner; the caller may read it, or it is public in
    the channel of shared memories. *)
Definition body_of (m : Message) (body : string) : Prop := body = Body m \/ exists n, body = String.substring 0 n (Body m).
Definition same_owner (d : db) (agent : Agent) (name : string) : Prop :=
  Agent_OwnerID agent <> 0 /\ exists a, a ∈ rows (agents d) /\ Agent_Name a = name /\ Agent_OwnerID a = Agent_OwnerID agent.
Definition memory_of (d : db) (agent : Agent) (it : MemoryItem) : Prop :=
  exists m, m ∈ rows (messages d) /\ Msg_ID m = mi_ID it /\ FromAgent m = mi_FromAgent it /\ body_of m (mi_Body it) /\
    same_owner d agent (FromAgent m) /\ (may_find d (Agent_Name agent) m \/ channel_name_of m d = Some "open-brain").

Lemma substring_substring n k s : String.substring 0 n (String.substring 0 k s) = String.substring 0 (Nat.min n k) s.
Proof. revert n k. induction s as [|c s IH]; intros [|n] [|k]; cbn [String.substring Nat.min]; [done..|]. by rewrite IH. Qed.
Lemma memory_of_cut d agent n it : memory_of d agent it -> memory_of d agent (truncate_body n it).
Proof.
  intros (m&H1&H2&H3&H4&H5). exists m. split_and!; try done; [|apply H5..]. cbn [truncate_body mi_Body]. right. destruct H4 as [->|[k ->]].
  - by exists (Z.to_nat n).
  - rewrite substring_substring. by eexists.
Qed.
Lemma taken_Forall (P : MemoryItem -> Prop) out items : (forall n it, P it -> P (truncate_body n it)) -> taken out items -> Forall P items -> Forall P out.
Proof. intros HP. induction 1 as [l|it o l _ IH|it n l Hn]; intros H; [constructor|apply Forall_cons in H as [? ?]; constructor; auto|apply Forall_cons in H as [? ?]; constructor; auto]. Qed.

Lemma caller_owner_known agent : caller_owner agent <> "" -> Agent_OwnerID agent <> 0 /\ caller_owner agent = pretty (Agent_OwnerID agent).
Proof. unfold caller_owner. by destruct (Z.eqb_spec (Agent_OwnerID agent) 0). Qed.

Lemma filter_ok owner opts d results : wp (filterAndScore owner opts results) (fun items d' => d' = d /\
    Forall (fun it => exists r ch, r ∈ results /\ it = memory_item r ch /\
      exists a, a ∈ rows (agents d) /\ Agent_Name a = FromAgent (sres_Message r) /\ pretty (Agent_OwnerID a) = owner) items) d.
Proof.
  induction results as [|r rest IH]; cbn [filterAndScore]; [cbn [wp]; split; [done|constructor]|].
  assert (wp (filterAndScore owner opts rest) (fun items d' => d' = d /\
    Forall (fun it => exists r0 ch, r0 ∈ r :: rest /\ it = memory_item r0 ch /\
      exists a, a ∈ rows (agents d) /\ Agent_Name a = FromAgent (sres_Message r0) /\ pretty (Agent_OwnerID a) = owner) items) d) as Hskip.
  { eapply wp_mono; [|exact IH]. intros items d' [-> H]. split; [done|]. eapply Forall_impl; [exact H|]. intros it (r0&ch&Hin&Hr). exists r0, ch. split; [by right|exact Hr]. }
  destruct (_ && _); [exact Hskip|]. apply wp_bind. unfold OwnerFor. split; cbn [wp]; [|exact Hskip].
  destruct (find_row _ (agents d)) as [a|] eqn:Ef; [|exact Hskip]. destruct (Agent_OwnerID a =? 0); [exact Hskip|].
  destruct (String.eqb_spec (pretty (Agent_OwnerID a)) owner) as [Eo|]; [|exact Hskip]. cbn [negb]. apply find_row_Some in Ef as [Hn%String.eqb_eq Ha].
  apply wp_bind. eapply wp_mono; [|apply (frame_wp (channel_of (sres_Message r)))].
  - intros ch d' ->. apply wp_bind. eapply wp_mono; [|exact Hskip]. intros items d' [-> H]. cbn [wp]. split; [done|]. constructor; [|exact H].
    exists r, ch. split; [by left|]. split; [done|]. by exists a.
  - unfold channel_of. destruct (Msg_ChannelID _); [|done]. apply within_bind; [by apply within_query_o|done].
Qed.

Lemma recent_ok agent limit windowDays d : caller_owner agent <> "" ->
  wp (recentMemoriesForOwner (caller_owner agent) limit windowDays)
    (fun o d' => d' = d /\ match o with Ok items => Forall (memory_of d agent) items | Err _ => True | Panic _ => False end) d.
Proof.
  intros Hne. destruct (caller_owner_known agent Hne) as [Hown Eown]. unfold recentMemoriesForOwner. destruct (_ || _); [cbn [wp]; split; [done|constructor]|].
  split; cbn [wp]; (split; [done|]); [|done]. apply Forall_fmap, Forall_forall. intros m Hm. apply elem_of_page, elem_of_select_by in Hm as [Hr Hin].
  unfold recent_memory in Hr. rewrite !andb_true_iff in Hr. destruct Hr as [[[Ho Hc%bool_decide_eq_true] _] _]. unfold owned_by in Ho.
  apply existsb_exists in Ho as (a&Ha&[Hn%String.eqb_eq Hp%String.eqb_eq]%andb_true_iff). rewrite Eown in Hp. apply (inj pretty) in Hp.
  exists m. split_and!; try done; [by left|split; [done|exists a; split; [by apply list_elem_of_In|done]]|by right].
Qed.

Lemma retrieve_ok svc agent query limit opts d : messaging_ok d ->
  wp (retrieve svc (Agent_Name agent) (caller_owner agent) query limit opts)
    (fun o d' => d' = d /\ match o with Ok (items, _) => Forall (memory_of d agent) items | Err _ => True | Panic _ => False end) d.
Proof.
  intros Hok. unfold retrieve. destruct svc as [has|]; [|cbn [wp]; split; [done|constructor]].
  destruct (str_empty (caller_owner agent)) eqn:Ee; [cbn [wp]; split; [done|constructor]|]. apply bool_decide_eq_false in Ee.
  destruct (caller_owner_known agent Ee) as [Hown Eown]. destruct (str_empty query); cbn [negb].
  - apply wp_bind_ok. eapply wp_mono; [|by apply recent_ok]. intros [items|e|w] d' [-> H]; cbn [wp]; by split.
  - apply wp_bind_ok. pose proof (auto_ok has (Agent_Name agent) (injection_search query limit (MinScore opts)) (search_limit limit) d Hok) as Ha.
    unfold Search. cbn [us_Limit us_Mode injection_search]. change (str_empty ModeAuto) with false. cbv iota zeta. change (String.eqb ModeAuto ModeAuto) with true. cbv iota.
    eapply wp_mono; [|apply Ha]; [|unfold search_limit; pose proof (default_limit_pos 10 limit ltac:(lia)); destruct (Z.ltb_spec 100 (default_limit 10 limit)); lia].
    intros [resp|e|w] d' [-> H]; [|by split|by split]. apply wp_bind. eapply wp_mono; [|apply filter_ok]. intros items d' [-> Hi]. cbn [wp]. split; [done|].
    destruct H as (_&_&Hr). rewrite Forall_forall in Hr. eapply Forall_impl; [exact Hi|]. intros it (r&ch&Hin&->&a&Haa&Hn&Hp).
    destruct (Hr r Hin) as (m&Hm&Hf&_&Eq). rewrite Eown in Hp. apply (inj pretty) in Hp.
    assert (Msg_ID m = Msg_ID (sres_Message r) /\ FromAgent m = FromAgent (sres_Message r) /\ Body m = Body (sres_Message r)) as (E1&E2&E3) by (destruct Eq as [->| ->]; done).
    exists m. cbn [memory_item mi_ID mi_FromAgent mi_Body]. split_and!; try done; [by left|split; [done|exists a; by rewrite E2]|by left].
Qed.

(** What may be injected for an agent, with the options of the wrapper. *)
Definition core_of (d : db) (agent : Agent) (blob : string) : Prop :=
  blob = EmptyString \/ exists c, memory_core d !! (pretty (Agent_OwnerID agent), Agent_Name agent) = Some c /\ blob = Blob c.
Definition packet_ok (d : db) (agent : Agent) (opts : InjectionOpts) (pkt : ContextPacket) : Prop :=
  Forall (memory_of d agent) (Memories pkt) /\ Z.of_nat (length (Memories pkt)) <= max_items opts /\
  costs (Memories pkt) <= Z.max 0 (BudgetTokens opts) /\ core_of d agent (pkt_CoreMemory pkt) /\
  (Memories pkt <> [] \/ pkt_CoreMemory pkt <> EmptyString).

Lemma core_ok agent opts d : CoreProvider opts = None \/ CoreProvider opts = Some GetForInjection ->
  wp (core_blob (caller_owner agent) (Agent_Name agent) opts)
    (fun o d' => d' = d /\ match o with Ok blob => core_of d agent blob | Err _ => True | Panic _ => False end) d.
Proof.
  unfold core_blob. intros [->| ->]; [cbn [wp]; split; [done|by left]|]. destruct (IncludeCore opts); cbn [andb]; [|cbn [wp]; split; [done|by left]].
  destruct (str_empty (caller_owner agent)) eqn:Ee; cbn [negb]; [cbn [wp]; split; [done|by left]|]. apply bool_decide_eq_false in Ee.
  destruct (caller_owner_known agent Ee) as [_ E]. apply wp_bind. unfold GetForInjection, Core_Get. apply wp_bind_ok. split; cbn [wp]; [|done]. split; [done|].
  rewrite E. destruct (memory_core d !! _) as [c|] eqn:Ec; [right; by exists c|by left].
Qed.

Lemma budget_ok items opts P : (forall n it, P it -> P (truncate_body n it)) -> Forall P items ->
  let out := applyTokenBudget items (max_items opts) (BudgetTokens opts) in
  Forall P out /\ Z.of_nat (length out) <= max_items opts /\ costs out <= Z.max 0 (BudgetTokens opts).
Proof.
  intros HP Hi. assert (0 < max_items opts) as Hm by (unfold max_items; destruct (Z.leb_spec (MaxItems opts) 0); lia).
  cbv zeta. unfold applyTokenBudget. destruct (Z.leb_spec (BudgetTokens opts) 0); [split_and!; [constructor|simpl; lia|simpl; lia]|].
  destruct (admit_bounds (max_items opts) (BudgetTokens opts) items 0 0 ltac:(lia)) as (H1&H2&H3&_). rewrite Z.sub_0_r in H2.
  split_and!; [by apply (taken_Forall P _ items)|lia|lia].
Qed.

Lemma build_ok svc agent query cfg d : messaging_ok d -> wc_CoreProvider cfg = None \/ wc_CoreProvider cfg = Some GetForInjection ->
  wp (BuildContextPacket svc (Some agent) query (wrap_opts cfg))
    (fun o d' => d' = d /\ match o with Ok (Some pkt) => packet_ok d agent (wrap_opts cfg) pkt | Panic _ => False | _ => True end) d.
Proof.
  intros Hok Hcore. unfold BuildContextPacket. destruct (_ =? 0); [by split|]. cbv zeta. apply wp_bind_ok. eapply wp_mono; [|by apply retrieve_ok].
  intros [[items mode]|e|w] d' [-> Hi]; [|by split|by split]. cbv beta iota. unfold applyStatusFilter, loadPinIDs. cbn [wrap_opts StatusProvider PinProvider].
  cbn [bind]. destruct (budget_ok items (wrap_opts cfg) (memory_of d agent)) as (H1&H2&H3); [by intros; apply memory_of_cut|done|].
  set (out := applyTokenBudget items (max_items (wrap_opts cfg)) (BudgetTokens (wrap_opts cfg))) in *. clearbody out.
  apply wp_bind_ok. eapply wp_mono; [|by apply core_ok]. intros [blob|e|w] d' [-> Hb]; [|by split|by split]. cbn [wp]. split; [done|].
  destruct out as [|it out].
  - destruct (str_empty blob) eqn:Ee; [done|]. apply bool_decide_eq_false in Ee. split_and!; try done. by right.
  - split_and!; try done. by left.
Qed.

(** C26. Injection adds only what may be added: around any tool and whatever
    fails, a wrapped tool answers what the tool answers, or that object with a
    packet in it.  Every memory of the packet is a stored message whose author
    belongs to the caller's owner and that the caller may read or finds in the
    shared channel, at most as many as configured and within the token budget;
    the core memory is the caller's own; nothing else changes, and exactly then
    the audit row names these memories. *)
Theorem injection_safe (inner : prog db (outcome error (option CallToolResult))) (Q : outcome error (option CallToolResult) -> db -> Prop)
  (toolName : string) (args : option json_object) (agent : option Agent) (cfg : WrapConfig) (d : db)
  (Hinner : wp inner (fun o d1 => Q o d1 /\ messaging_ok d1) d)
  (Hcore : wc_CoreProvider cfg = None \/ wc_CoreProvider cfg = Some GetForInjection) :
  wp (WrapInjection inner toolName args agent cfg) (fun r d1 => exists o, Q o d1 /\
    (r = (o, None) \/
     exists a ms body pkt, InjectionEnabled (wc_Cfg cfg) = true /\ agent = Some a /\
       o = Ok (Some (mkCallToolResult false [TextContent (RawJson (JObj ms))])) /\ unmarshal_map (RawJson (JObj ms)) = DecodedMap body /\
       r = (Ok (Some (mkCallToolResult false [Injected (filter (fun kv => kv.1 <> "relevant_context") body) pkt])),
            recordInjection (wc_Injections cfg) a toolName pkt) /\
       packet_ok d1 a (wrap_opts cfg) pkt)) d.
Proof.
  unfold WrapInjection. destruct (InjectionEnabled (wc_Cfg cfg)) eqn:Een; cbn [negb].
  2: { apply wp_bind. eapply wp_mono; [|exact Hinner]. intros o d1 [HQ _]. exists o. split; [done|by left]. }
  apply wp_bind. eapply wp_mono; [|exact Hinner]. clear Hinner d. intros o d [HQ Hok].
  assert (wp (Ret (o, None : option InjectionRecord) : prog db _) (fun r d1 => exists o0, Q o0 d1 /\
    (r = (o0, None) \/ exists a ms body pkt, true = true /\ agent = Some a /\
       o0 = Ok (Some (mkCallToolResult false [TextContent (RawJson (JObj ms))])) /\ unmarshal_map (RawJson (JObj ms)) = DecodedMap body /\
       r = (Ok (Some (mkCallToolResult false [Injected (filter (fun kv => kv.1 <> "relevant_context") body) pkt])),
            recordInjection (wc_Injections cfg) a toolName pkt) /\
       packet_ok d1 a (wrap_opts cfg) pkt)) d) as Hsame by (exists o; split; [done|by left]).
  destruct o as [[[err ct]|]|e|w]; try exact Hsame. cbn [IsError]. destruct err; [exact Hsame|].
  unfold singleJSONText in *. cbn [Content]. destruct ct as [|[[| [| | | | |ms]|] | |] [|]]; try exact Hsame. cbv iota.
  destruct (unmarshal_map (RawJson (JObj ms))) as [body| |] eqn:Eu; try exact Hsame. destruct agent as [a|]; [|exact Hsame].
  apply wp_bind. eapply wp_mono; [|by apply build_ok]. intros [[pkt|]|e|w] d' [-> Hp]; try exact Hsame; [|done].
  destruct (_ && _); [exact Hsame|]. cbn [wp]. eexists. split; [exact HQ|]. right. exists a, ms, body, pkt. by split_and!.
Qed.
End Packet.

(** ** Runs of the injection

    Witnesses of its theorems, and runs that show where it does less than its
    documentation says. *)

Module InjectionRuns.
#[local] Existing Instances Runs.eng Runs.gojson SearchRuns.no_text SearchRuns.in_order SearchRuns.fts_all SearchRuns.echo SearchRuns.three SearchRuns.three_quiet.

Definition enabled (budget : Z) : InjectionConfig := mkInjectionConfig true budget 5 DefaultMinSimilarity (336 * 3600).
Definition answer (r : rawjson) : prog db (outcome error (option CallToolResult)) := Ret (Ok (Some (mkCallToolResult false [TextContent r]))).
Definition ok_answer : rawjson := RawJson (JObj [("status", JStr "ok")]).
Definition sent (body : string) : option json_object := Some [("body", JStr body)].
Definition send_config : WrapConfig := mkWrapConfig (enabled 500) (Some true) true (Some (querySourceFor "send_message")) false (Some GetForInjection).
Definition bob : Agent := Runs.agent_named 2 "bob".

(** The ids and bodies of what was added to the answer. *)
Definition added (o : outcome error (option CallToolResult)) : list (Z * string * bool) :=
  match o with
  | Ok (Some (mkCallToolResult false [Injected _ pkt])) => (fun it => (mi_ID it, mi_Body it, mi_Truncated it)) <$> Memories pkt
  | _ => []
  end.

Lemma injection_safe_witness :
  let r := (run_ok (WrapInjection (answer ok_answer) "send_message" (sent "lunch") (Some bob) send_config) QueryRuns.channel_db).1 in
  added r.1 = [(2, "lunch?", false); (1, "standup at ten", false)] /\ MessageIDs <$> r.2 = Some [2; 1] /\
  exists pkt, packet_ok QueryRuns.channel_db bob (wrap_opts send_config) pkt.
Proof.
  intros r. split; [by vm_compute|]. split; [by vm_compute|].
  destruct (wp_run_ok _ _ _ (injection_safe (answer ok_answer) (fun _ d => d = QueryRuns.channel_db) "send_message" (sent "lunch") (Some bob) send_config
    QueryRuns.channel_db (conj eq_refl QueryRuns.channel_db_ok) (or_intror eq_refl))) as (o&Ed&[E|(a&ms&body&pkt&_&Ea&_&_&_&Hp)]).
  - assert (negb (bool_decide (r.2 = None)) = true) as H by by vm_compute. unfold r in H. by rewrite E in H.
  - injection Ea as <-. exists pkt. by rewrite <- Ed.
Defined.

Definition long : MemoryItem := mkMemoryItem 1 "alice" "open-brain" "0123456789012345678901234567890123456789" 0 f64_one "recent" false false.
Lemma apply_budget_bounds_witness :
  let out := applyTokenBudget [long; long] 5 40 in
  mi_Body <$> out = ["0123456789012345678901234567890123456789"; "0123456789012345678901234"] /\ costs out <= 40.
Proof.
  intros out. split; [by vm_compute|]. destruct (apply_budget_bounds [long; long] 5 40) as (_&_&H&_). exact H.
Defined.

(** ** Where the code does less *)
Definition alice : Agent := MemoryRuns.an_agent 2 "alice" 7.
Definition status_provider (ids : list Z) : M (gmap Z string) :=
  let? m := StatusByID ids in
  Ret (Ok ((fun s => match s with MemoryStatusActive => "active" | MemoryStatusSoftDeleted => "soft_deleted" | MemoryStatusSuperseded => "superseded" end) <$> m)).
Definition with_statuses (o : InjectionOpts) : InjectionOpts :=
  mkInjectionOpts (BudgetTokens o) (MaxItems o) (MinScore o) (IncludeCore o) (CoreProvider o) (PinProvider o) (Some status_provider) (MessageLookup o) (RecentWindowDays o).
Definition status_config (budget : Z) : WrapConfig := mkWrapConfig (enabled budget) (Some false) true (Some (querySourceFor "my_status")) true (Some GetForInjection).
Definition packet_ids (o : outcome error (option ContextPacket)) : list Z := match o with Ok (Some pkt) => mi_ID <$> Memories pkt | _ => [] end.

(** The wrapper hands no provider of statuses on: a memory that was marked as a
    duplicate, whose status is soft_deleted, is still injected, where the filter
    would drop it. *)
Theorem deleted_still_injected :
  memory_status MemoryRuns.done_db = [((2, "7"), mkMemoryStatus MemoryStatusSoftDeleted None (Some (MemoryRuns.noon + 60)) "same")] /\
  packet_ids (run_ok (BuildContextPacket (Some false) (Some alice) "" (wrap_opts (status_config 500))) MemoryRuns.done_db).1 = [2; 1] /\
  packet_ids (run_ok (BuildContextPacket (Some false) (Some alice) "" (with_statuses (wrap_opts (status_config 500)))) MemoryRuns.done_db).1 = [1].
Proof. split_and!; by vm_compute. Qed.

(** With a provider of statuses, pinning does not spare a deleted memory: the
    first pass of the filter knows no pins. *)
Definition with_pins (ids : list Z) (o : InjectionOpts) : InjectionOpts :=
  mkInjectionOpts (BudgetTokens o) (MaxItems o) (MinScore o) (IncludeCore o) (CoreProvider o) (Some (fun _ => Ret (Ok ids))) (StatusProvider o) (MessageLookup o) (RecentWindowDays o).
Theorem pin_does_not_spare :
  packet_ids (run_ok (BuildContextPacket (Some false) (Some alice) "" (with_pins [2] (with_statuses (wrap_opts (status_config 500))))) MemoryRuns.done_db).1 = [1].
Proof. by vm_compute. Qed.

(** The recency query looks at open-brain only: a memory in a reflections
    channel is none of the recent memories. *)
Definition reflections_db : db :=
  set_channels (mkTable [MemoryRuns.a_channel 1 "reflections-alice" "alice"] 2) MemoryRuns.base_db.
Theorem reflections_not_recent :
  memory_channel (MemoryRuns.a_channel 1 "reflections-alice" "alice") = true /\
  packet_ids (run_ok (BuildContextPacket (Some false) (Some alice) "" (wrap_opts (status_config 500))) reflections_db).1 = [].
Proof. split; by vm_compute. Qed.

(** The core memory is not counted: a packet of five tokens' budget has a core
    memory of ten. *)
Definition core_db : db := (run_ok (Core_Set 2048 "7" "alice" "0123456789012345678901234567890123456789" "admin") MemoryRuns.base_db).2.
Theorem core_over_budget :
  match (run_ok (BuildContextPacket (Some false) (Some alice) "" (wrap_opts (status_config 5))) core_db).1 with
  | Ok (Some pkt) => PacketTokenEstimate pkt = 10
  | _ => False
  end.
Proof. by vm_compute. Qed.
End InjectionRuns.
