(* ===== verification/Plugins.v ===== *)
(** * The plugin framework: plugins, migrations, configuration, status
    (internal/plugin: plugin.go, migrator.go, config.go, status.go)

    The database holds the record of the migrations and what their SQL builds,
    of which nothing is assumed.  Plugins are given by what they declare and by
    programs for their methods. *)
From S2P Require Import Prelude Prog Table Schema Messaging MessagingQueries Agents Attachments Retention MemoryTools.

(** ** Plugins (plugin.go) *)
Definition lower_letter (a : Ascii.ascii) : bool := let n := Ascii.nat_of_ascii a in ((97 <=? n) && (n <=? 122))%nat.
Definition upper_letter (a : Ascii.ascii) : bool := let n := Ascii.nat_of_ascii a in ((65 <=? n) && (n <=? 90))%nat.
Definition decimal (a : Ascii.ascii) : bool := let n := Ascii.nat_of_ascii a in ((48 <=? n) && (n <=? 57))%nat.
Definition underscore (a : Ascii.ascii) : bool := Ascii.eqb a (Ascii.ascii_of_nat 95).
Fixpoint all_chars (p : Ascii.ascii -> bool) (s : string) : bool :=
  match s with EmptyString => true | String a r => p a && all_chars p r end.
(** ^[a-z][a-z0-9_]{1,31}$ *)
Definition ValidateName (s : string) : bool :=
  match s with
  | EmptyString => false
  | String a r =>
      lower_letter a && (1 <=? String.length r)%nat && (String.length r <=? 31)%nat &&
      all_chars (fun c => lower_letter c || decimal c || underscore c) r
  end.

Record Migration := mkMigration { Version : Z; mig_Name : string; SQL : string }.

Inductive plugin_error :=
| EPluginDb
| EPluginName (name : string)
| EPluginDuplicate (name : string)
| EHostDB
| EChecksum (version : Z)
| ETablePrefix (table : string)
| EPluginOwn (what : string)
| EPluginPanic
| EActionUnknown (name : string).

(** ** Database *)
Class PluginSQL := {
  schema : Type;
  exec_sql : string -> schema -> option schema   (** [None]: the SQL fails *)
}.

Record applied_row := mkApplied { ap_Name : string; ap_Checksum : string; ap_At : Z }.
Record plugin_db `{PluginSQL} := mkPluginDb {
  now : Z;
  plugin_migrations : gmap (string * Z) applied_row;   (** by plugin and version *)
  built : schema
}.
Arguments mkPluginDb {_} _ _ _.

Section Plugins.
Context {HSql : PluginSQL} {HSha : GoSha256}.
Abbreviation PG B := (prog plugin_db (outcome plugin_error B)).

(** A handler of a plugin: its answer is a text. *)
Definition handler : Type := list (string * json) -> PG string.
Record MCPTool := mkMCPTool { Tool_Name : string; Tool_Handler : handler }.
Record ActionRegistration := mkAction { Action_Name : string; RequiredScope : string; Action_Handler : handler }.
Record PanelManifest := mkPanel { Panel_ID : string; Panel_Title : string; Panel_Route : string; Panel_Scope : string }.

(** [None]: the plugin does not have the capability. *)
Record Plugin := mkPlugin {
  p_Name : string;
  p_Version : string;
  p_Stability : option string;
  p_Init : PG unit;
  p_Migrations : option (list Migration);
  p_MCPTools : option (list MCPTool);
  p_Actions : option (list ActionRegistration);
  p_WebPanels : option (list PanelManifest * bool);   (** with a handler or not *)
  p_ChannelTypes : option (list string);
  p_CLICommands : option (list string);
  p_HTTPRoutes : bool;
  p_EventHook : bool;
  p_Lifecycle : option (PG unit * PG unit);           (** Start, Shutdown *)
  p_ConfigSchema : bool
}.

(** ** Migrations (migrator.go) *)

(** Letters are folded as ASCII; of the expression's character classes the two
    other letters that fold to s and k are left out. *)
Definition fold_letter (a : Ascii.ascii) : Ascii.ascii := if upper_letter a then Ascii.ascii_of_nat (Ascii.nat_of_ascii a + 32) else a.
Fixpoint ascii_lower (s : string) : string :=
  match s with EmptyString => EmptyString | String a r => String (fold_letter a) (ascii_lower r) end.
Definition regex_space (a : Ascii.ascii) : bool := let n := Ascii.nat_of_ascii a in bool_decide (n ∈ [9; 10; 12; 13; 32]%nat).
Definition ident_start (a : Ascii.ascii) : bool := lower_letter (fold_letter a) || underscore a.
Definition ident_char (a : Ascii.ascii) : bool := ident_start a || decimal a.

Fixpoint eat_word (w s : string) : option string :=
  match w, s with
  | EmptyString, _ => Some s
  | String a w', String b s' => if Ascii.eqb a (fold_letter b) then eat_word w' s' else None
  | _, _ => None
  end.
Fixpoint eat_spaces (s : string) : string :=
  match s with String a r => if regex_space a then eat_spaces r else s | EmptyString => s end.
Definition spaces (s : string) : option string :=
  match s with String a r => if regex_space a then Some (eat_spaces r) else None | EmptyString => None end.
Fixpoint ident_rest (s : string) : string * string :=
  match s with
  | String a r => if ident_char a then let '(i, t) := ident_rest r in (String a i, t) else (EmptyString, s)
  | EmptyString => (EmptyString, s)
  end.
Definition ident (s : string) : option (string * string) :=
  match s with
  | String a r => if ident_start a then let '(i, t) := ident_rest r in Some (String a i, t) else None
  | EmptyString => None
  end.
(** One match of createTableRE at the start of a text, and what follows it; the
    optional part is tried first. *)
Definition spaced_word (w s : string) : option string := r ← spaces s; eat_word w r.
Definition match_create (s : string) : option (string * string) :=
  r ← eat_word "create" s; r ← spaced_word "table" r;
  match (r1 ← spaced_word "if" r; r2 ← spaced_word "not" r1; r3 ← spaced_word "exists" r2; r4 ← spaces r3; ident r4) with
  | Some m => Some m
  | None => r1 ← spaces r; ident r1
  end.
Fixpoint find_tables (fuel : nat) (s : string) : list string :=
  match fuel, s with
  | S fuel', String _ rest =>
      match match_create s with
      | Some (tbl, r) => tbl :: find_tables fuel' r
      | None => find_tables fuel' rest
      end
  | _, _ => []
  end.
Definition created_tables (sql : string) : list string := find_tables (String.length sql) sql.

Definition table_prefix (pluginName : string) : string := "plugin_" +:+ pluginName +:+ "_".
Definition validateMigrationSQL (pluginName : string) (m : Migration) : option plugin_error :=
  ETablePrefix <$> find (fun tbl => negb (String.eqb tbl "plugin_migrations") && negb (String.prefix (ascii_lower (table_prefix pluginName)) tbl))
                        (ascii_lower <$> created_tables (SQL m)).

(** The insertion sort: the sorted part is kept last element first. *)
Fixpoint sift_migration (m : Migration) (sorted_rev : list Migration) : list Migration :=
  match sorted_rev with
  | y :: rest => if Version m <? Version y then y :: sift_migration m rest else m :: y :: rest
  | [] => [m]
  end.
Definition sortMigrations (ms : list Migration) : list Migration := reverse (foldl (fun acc m => sift_migration m acc) [] ms).

Definition checksumSQL (s : string) : string := sha256_hex (trim_space s).

(** One transaction: the SQL and its record, or nothing. *)
Definition record_migration (plugin : string) (m : Migration) (checksum : string) (d : plugin_db) : option plugin_db :=
  s ← exec_sql (SQL m) (built d);
  match plugin_migrations d !! (plugin, Version m) with
  | Some _ => None
  | None => Some (mkPluginDb (now d) (<[(plugin, Version m) := mkApplied (mig_Name m) checksum (now d)]> (plugin_migrations d)) s)
  end.
Definition applyOne (plugin : string) (m : Migration) (checksum : string) : PG unit :=
  exec_o EPluginDb (fun d => default d (record_migration plugin m checksum d))
                   (fun d => match record_migration plugin m checksum d with Some _ => Ok tt | None => Err EPluginDb end).

Definition recorded (plugin : string) (d : plugin_db) : gmap Z string :=
  list_to_map ((fun kv => (kv.1.2, ap_Checksum kv.2)) <$> filter (fun kv => kv.1.1 = plugin) (map_to_list (plugin_migrations d))).

Fixpoint apply_all (plugin : string) (applied : gmap Z string) (ms : list Migration) (done : list Z) : PG (list Z) :=
  match ms with
  | [] => Ret (Ok done)
  | m :: rest =>
      let sum := checksumSQL (SQL m) in
      match applied !! Version m with
      | Some prior => if negb (String.eqb prior sum) then Ret (Err (EChecksum (Version m))) else apply_all plugin applied rest done
      | None => let? _ := applyOne plugin m sum in apply_all plugin applied rest (done ++ [Version m])
      end
  end.

Definition first_error {A E} (f : A -> option E) (l : list A) : option E := head (omap f l).

Definition ApplyMigrations (p : Plugin) : PG (list Z) :=
  match p_Migrations p with
  | None => Ret (Ok [])
  | Some migs =>
      let? _ := exec EPluginDb (fun d => d) (fun _ => tt) in
      let? applied := query EPluginDb (recorded (p_Name p)) in
      match first_error (validateMigrationSQL (p_Name p)) migs with
      | Some e => Ret (Err e)
      | None => apply_all (p_Name p) applied (sortMigrations migs) []
      end
  end.

Definition AppliedVersions (plugin : string) : PG (list Z) :=
  query EPluginDb (fun d => merge_sort Z.le ((fun kv => kv.1.2) <$> filter (fun kv => kv.1.1 = plugin) (map_to_list (plugin_migrations d)))).

(** ** Configuration (config.go) *)

(** A decoded document: a map whose keys are all texts, one with other keys
    (texts where there are some), or anything else. *)
#[local] Set Warnings "-register-all".
Inductive yaml :=
| YBool (b : bool)
| YMap (members : list (string * yaml))
| YAnyMap (members : list (option string * yaml))
| YNil
| YOther.

Record PluginConfig := mkPluginConfig { cfg_Enabled : bool; cfg_Config : list (string * yaml) }.
Record FileConfig := mkFileConfig { cfg_Plugins : gmap string PluginConfig; rawRoot : list (string * yaml) }.

Definition coerceStringKeyed (v : yaml) : list (string * yaml) :=
  match v with
  | YMap m => m
  | YAnyMap m => omap (fun kv => k ← kv.1; Some (k, kv.2)) m
  | _ => []
  end.
Definition plugin_config (entry : yaml) : PluginConfig :=
  let m := coerceStringKeyed entry in
  mkPluginConfig (match obj_get "enabled" m with Some (YBool b) => b | _ => false end)
    (match obj_get "config" m with Some v => coerceStringKeyed v | None => [] end).
(** What [LoadConfig] makes of a parsed document. *)
Definition decode_config (raw : list (string * yaml)) : FileConfig :=
  mkFileConfig (match obj_get "plugins" raw with
                | Some v => list_to_map (prod_map id plugin_config <$> coerceStringKeyed v)
                | None => ∅
                end) raw.

Definition IsEnabled (c : option FileConfig) (name : string) : bool :=
  match c with
  | Some c => match cfg_Plugins c !! name with Some pc => cfg_Enabled pc | None => false end
  | None => false
  end.

Definition as_map (v : option yaml) : list (string * yaml) := match v with Some (YMap m) => m | _ => [] end.
Definition SetEnabled (name : string) (enabled : bool) (c : FileConfig) : FileConfig :=
  let pc := default (mkPluginConfig false []) (cfg_Plugins c !! name) in
  let pluginsRaw := as_map (obj_get "plugins" (rawRoot c)) in
  let entry := as_map (obj_get name pluginsRaw) in
  mkFileConfig (<[name := mkPluginConfig enabled (cfg_Config pc)]> (cfg_Plugins c))
    (obj_set "plugins" (YMap (obj_set name (YMap (obj_set "enabled" (YBool enabled) entry)) pluginsRaw)) (rawRoot c)).

Definition ValidatePluginNames (c : FileConfig) : bool := forallb (fun kv => ValidateName kv.1) (map_to_list (cfg_Plugins c)).

(** ** Status (status.go) *)
Inductive Status := StatusRegistered | StatusDisabled | StatusMigrated | StatusInitialized | StatusStarted | StatusFailed | StatusStopped.
#[export] Instance Status_eq_dec : EqDecision Status.
Proof. solve_decision. Defined.
(** The error of an entry. *)
Inductive failure := MigrateFailed (e : plugin_error) | DataDirFailed (e : plugin_error) | InitFailed (e : plugin_error) | StartFailed (e : plugin_error)
  | DuplicateTool (name : string) | DuplicateAction (name : string) | DuplicateChannelType (name : string).

Record StatusEntry := mkStatusEntry {
  se_Version : string;
  se_Stability : string;
  se_Enabled : bool;
  se_Status : Status;
  StartedAt : option Z;
  ErrorMessage : option failure;
  Capabilities : list string;
  ToolsRegistered : list string;
  ActionsRegistered : list string;
  MigrationVersions : list Z
}.
Record StatusStore := mkStatusStore { entries : gmap string StatusEntry; st_order : list string }.
Definition status_Set (name : string) (e : StatusEntry) (s : StatusStore) : StatusStore :=
  mkStatusStore (<[name := e]> (entries s)) (match entries s !! name with Some _ => st_order s | None => st_order s ++ [name] end).
Definition status_Update (name : string) (f : StatusEntry -> StatusEntry) (s : StatusStore) : StatusStore :=
  match entries s !! name with Some e => mkStatusStore (<[name := f e]> (entries s)) (st_order s) | None => s end.
Definition status_Get (name : string) (s : StatusStore) : option StatusEntry := entries s !! name.
Definition status_All (s : StatusStore) : list (string * StatusEntry) := omap (fun n => pair n <$> entries s !! n) (st_order s).

Definition with_status (st : Status) (e : StatusEntry) : StatusEntry :=
  mkStatusEntry (se_Version e) (se_Stability e) (se_Enabled e) st (StartedAt e) (ErrorMessage e) (Capabilities e) (ToolsRegistered e) (ActionsRegistered e) (MigrationVersions e).
Definition with_failure (f : failure) (e : StatusEntry) : StatusEntry :=
  mkStatusEntry (se_Version e) (se_Stability e) (se_Enabled e) StatusFailed (StartedAt e) (Some f) (Capabilities e) (ToolsRegistered e) (ActionsRegistered e) (MigrationVersions e).
Definition with_versions (vs : list Z) (e : StatusEntry) : StatusEntry :=
  mkStatusEntry (se_Version e) (se_Stability e) (se_Enabled e) (se_Status e) (StartedAt e) (ErrorMessage e) (Capabilities e) (ToolsRegistered e) (ActionsRegistered e) vs.
Definition with_capabilities (caps tools actions : list string) (e : StatusEntry) : StatusEntry :=
  mkStatusEntry (se_Version e) (se_Stability e) (se_Enabled e) (se_Status e) (StartedAt e) (ErrorMessage e) caps tools actions (MigrationVersions e).
Definition with_started (t : Z) (e : StatusEntry) : StatusEntry :=
  mkStatusEntry (se_Version e) (se_Stability e) (se_Enabled e) StatusStarted (Some t) (ErrorMessage e) (Capabilities e) (ToolsRegistered e) (ActionsRegistered e) (MigrationVersions e).
End Plugins.
