(* ===== verification/PluginLifecycle.v ===== *)
(** * The plugin framework: registry, boot, shutdown, events (internal/plugin:
    registry.go, lifecycle.go)

    The registry of a process is built and driven by one goroutine: it is a
    value that the operations thread, together with the trace of the calls to
    plugins. *)
From S2P Require Import Prelude Prog Table Schema Messaging MessagingQueries Attachments Plugins.

(** ** The registry (registry.go) *)
Section Registry.
Context {HSql : PluginSQL} {HSha : GoSha256}.
Abbreviation PG B := (prog plugin_db (outcome plugin_error B)).

Record Registry := mkRegistry {
  plugins : gmap string Plugin;
  reg_enabled : gmap string bool;
  configs : gmap string (list (string * yaml));
  order : list string;
  statuses : StatusStore;
  mcpTools : gmap string MCPTool;
  actions : gmap string ActionRegistration;
  panels : list PanelManifest;
  panelHandlers : list string;
  channelTypes : gmap string string;
  eventSubs : list string;
  cliCommands : list string;
  routeMounts : list string
}.

Definition set_statuses v (r : Registry) : Registry :=
  mkRegistry (plugins r) (reg_enabled r) (configs r) (order r) v (mcpTools r) (actions r) (panels r) (panelHandlers r) (channelTypes r) (eventSubs r) (cliCommands r) (routeMounts r).
Definition set_mcpTools v (r : Registry) : Registry :=
  mkRegistry (plugins r) (reg_enabled r) (configs r) (order r) (statuses r) v (actions r) (panels r) (panelHandlers r) (channelTypes r) (eventSubs r) (cliCommands r) (routeMounts r).
Definition set_actions v (r : Registry) : Registry :=
  mkRegistry (plugins r) (reg_enabled r) (configs r) (order r) (statuses r) (mcpTools r) v (panels r) (panelHandlers r) (channelTypes r) (eventSubs r) (cliCommands r) (routeMounts r).
Definition set_panels l h (r : Registry) : Registry :=
  mkRegistry (plugins r) (reg_enabled r) (configs r) (order r) (statuses r) (mcpTools r) (actions r) l h (channelTypes r) (eventSubs r) (cliCommands r) (routeMounts r).
Definition set_channelTypes v (r : Registry) : Registry :=
  mkRegistry (plugins r) (reg_enabled r) (configs r) (order r) (statuses r) (mcpTools r) (actions r) (panels r) (panelHandlers r) v (eventSubs r) (cliCommands r) (routeMounts r).
Definition set_rest subs cli routes (r : Registry) : Registry :=
  mkRegistry (plugins r) (reg_enabled r) (configs r) (order r) (statuses r) (mcpTools r) (actions r) (panels r) (panelHandlers r) (channelTypes r) subs cli routes.

Definition empty_registry : Registry := mkRegistry ∅ ∅ ∅ [] (mkStatusStore ∅ []) ∅ ∅ [] [] ∅ [] [] [].

Definition config_for (cfg : option FileConfig) (name : string) : list (string * yaml) :=
  match cfg with Some c => match cfg_Plugins c !! name with Some pc => cfg_Config pc | None => [] end | None => [] end.
Definition stability_of (p : Plugin) : string :=
  match p_Stability p with Some s => if str_empty s then "stable" else s | None => "stable" end.
(** One iteration of [NewRegistry]; without a configuration nothing is set in
    [enabled], which reads as false. *)
Definition register (cfg : option FileConfig) (p : Plugin) (r : Registry) : Registry :=
  let name := p_Name p in
  let enabled := IsEnabled cfg name in
  mkRegistry (<[name := p]> (plugins r)) (match cfg with Some _ => <[name := enabled]> (reg_enabled r) | None => reg_enabled r end)
    (<[name := config_for cfg name]> (configs r)) (order r ++ [name])
    (status_Set name (mkStatusEntry (p_Version p) (stability_of p) enabled (if enabled then StatusRegistered else StatusDisabled) None None [] [] [] []) (statuses r))
    (mcpTools r) (actions r) (panels r) (panelHandlers r) (channelTypes r) (eventSubs r) (cliCommands r) (routeMounts r).
Fixpoint register_all (cfg : option FileConfig) (ps : list Plugin) (r : Registry) : plugin_error + Registry :=
  match ps with
  | [] => inr r
  | p :: rest =>
      if negb (ValidateName (p_Name p)) then inl (EPluginName (p_Name p))
      else match plugins r !! p_Name p with
           | Some _ => inl (EPluginDuplicate (p_Name p))
           | None => register_all cfg rest (register cfg p r)
           end
  end.
Definition NewRegistry (ps : list Plugin) (cfg : option FileConfig) : plugin_error + Registry := register_all cfg ps empty_registry.

Definition is_enabled (r : Registry) (name : string) : bool := default false (reg_enabled r !! name).
Definition Enabled (r : Registry) : list string := filter (fun n => is_enabled r n = true) (order r).
Definition plugin_named (r : Registry) (name : string) : option Plugin := plugins r !! name.
Definition Actions (r : Registry) : list string := sort_strings (map_to_list (actions r)).*1.
Definition MCPTools (r : Registry) : list string := sort_strings (map_to_list (mcpTools r)).*1.
Definition CallAction (r : Registry) (name : string) (args : list (string * json)) : PG string :=
  match actions r !! name with
  | Some a => Action_Handler a args
  | None => Ret (Err (EActionUnknown name))
  end.

(** ** Capabilities (lifecycle.go) *)
Definition update_status (name : string) (f : StatusEntry -> StatusEntry) (r : Registry) : Registry := set_statuses (status_Update name f (statuses r)) r.
Definition markFailed (name : string) (f : failure) (r : Registry) : Registry := update_status name (with_failure f) r.

(** The loop that adds named things; the first name that exists ends it. *)
Fixpoint add_named {A} (name_of : A -> string) (l : list A) (m : gmap string A) : gmap string A * option string :=
  match l with
  | [] => (m, None)
  | x :: rest => match m !! name_of x with
                 | Some _ => (m, Some (name_of x))
                 | None => add_named name_of rest (<[name_of x := x]> m)
                 end
  end.

Definition collectCapabilities (name : string) (p : Plugin) (r : Registry) : Registry :=
  let '(tools, dup) := add_named Tool_Name (default [] (p_MCPTools p)) (mcpTools r) in
  let r := set_mcpTools tools r in
  match dup with
  | Some t => markFailed name (DuplicateTool t) r
  | None =>
      let '(acts, dup) := add_named Action_Name (default [] (p_Actions p)) (actions r) in
      let r := set_actions acts r in
      match dup with
      | Some a => markFailed name (DuplicateAction a) r
      | None =>
          let r := match p_WebPanels p with
                   | Some (l, h) => set_panels (panels r ++ l) (if h then panelHandlers r ++ [name] else panelHandlers r) r
                   | None => r
                   end in
          let '(types, dup) := add_named id (default [] (p_ChannelTypes p)) (channelTypes r) in
          let r := set_channelTypes types r in
          match dup with
          | Some c => markFailed name (DuplicateChannelType c) r
          | None =>
              set_rest (if p_EventHook p then eventSubs r ++ [name] else eventSubs r) (cliCommands r ++ default [] (p_CLICommands p))
                (if p_HTTPRoutes p then routeMounts r ++ [name] else routeMounts r) r
          end
      end
  end.

Definition has {A} (o : option A) : bool := bool_decide (is_Some o).
Definition capabilityList (p : Plugin) : list string :=
  (if has (p_Migrations p) then ["migrations"] else []) ++ (if has (p_MCPTools p) then ["mcp_tools"] else []) ++
  (if has (p_Actions p) then ["actions"] else []) ++ (if p_HTTPRoutes p then ["http_routes"] else []) ++
  (if has (p_WebPanels p) then ["web_panel"] else []) ++ (if has (p_CLICommands p) then ["cli"] else []) ++
  (if has (p_ChannelTypes p) then ["channel_type"] else []) ++ (if p_EventHook p then ["event_hook"] else []) ++
  (if has (p_Lifecycle p) then ["lifecycle"] else []) ++ (if p_ConfigSchema p then ["config_schema"] else []).
Definition toolsList (p : Plugin) : list string := Tool_Name <$> default [] (p_MCPTools p).
Definition actionsList (p : Plugin) : list string := Action_Name <$> default [] (p_Actions p).

(** ** Boot (lifecycle.go) *)
Inductive call := CalledInit (name : string) | CalledStart (name : string) | CalledShutdown (name : string).
Record boot := mkBoot { b_reg : Registry; b_calls : list call }.
Definition on_reg (f : Registry -> Registry) (b : boot) : boot := mkBoot (f (b_reg b)) (b_calls b).
Definition called (c : call) (b : boot) : boot := mkBoot (b_reg b) (b_calls b ++ [c]).

(** A panic is recovered and becomes an error. *)
Definition safe (p : PG unit) : PG unit :=
  let! o := p in Ret (match o with Panic _ => Err EPluginPanic | o => o end).

(** What the host factory hands out: a database or none; the data directory is
    made by the framework. *)
Class HostFactory := { host_DB : string -> bool }.
Context {HHost : HostFactory}.
Definition ensureDataDir : PG unit := exec EPluginDb (fun d => d) (fun _ => tt).

Definition failed (r : Registry) (name : string) : bool :=
  match status_Get name (statuses r) with Some e => bool_decide (se_Status e = StatusFailed) | None => false end.

Definition migrate_plugin (name : string) (b : boot) : prog plugin_db boot :=
  match plugin_named (b_reg b) name with
  | None => Ret b
  | Some p =>
      if negb (host_DB name) then Ret (on_reg (markFailed name (MigrateFailed EHostDB)) b)
      else
        let! applied := ApplyMigrations p in
        match applied with
        | Err e => Ret (on_reg (markFailed name (MigrateFailed e)) b)
        | _ =>
            let! versions := AppliedVersions name in
            Ret (on_reg (update_status name (fun e => match versions with Ok vs => with_versions vs (with_status StatusMigrated e) | _ => with_status StatusMigrated e end)) b)
        end
  end.

Definition init_plugin (name : string) (b : boot) : prog plugin_db boot :=
  if failed (b_reg b) name then Ret b
  else
    let! dir := ensureDataDir in
    match dir, plugin_named (b_reg b) name with
    | Err e, _ => Ret (on_reg (markFailed name (DataDirFailed e)) b)
    | _, None => Ret (on_reg (markFailed name (InitFailed EPluginPanic)) b)
    | _, Some p =>
        let! inited := safe (p_Init p) in
        let b := called (CalledInit name) b in
        match inited with
        | Err e => Ret (on_reg (markFailed name (InitFailed e)) b)
        | _ => Ret (on_reg (fun r => update_status name (fun e => with_capabilities (capabilityList p) (toolsList p) (actionsList p) (with_status StatusInitialized e))
                                       (collectCapabilities name p r)) b)
        end
    end.

Definition started (name : string) (b : boot) : prog plugin_db boot :=
  Peek (fun d => Ret (on_reg (update_status name (with_started (now d))) b)).
Definition start_plugin (name : string) (b : boot) : prog plugin_db boot :=
  if failed (b_reg b) name then Ret b
  else
    match plugin_named (b_reg b) name ≫= p_Lifecycle with
    | None => started name b
    | Some (start, _) =>
        let! s := safe start in
        let b := called (CalledStart name) b in
        match s with
        | Err e => Ret (on_reg (markFailed name (StartFailed e)) b)
        | _ => started name b
        end
    end.

Fixpoint phase (f : string -> boot -> prog plugin_db boot) (names : list string) (b : boot) : prog plugin_db boot :=
  match names with
  | [] => Ret b
  | n :: rest => let! b := f n b in phase f rest b
  end.
Definition InitAll (r : Registry) : prog plugin_db boot :=
  let b := mkBoot r [] in
  let! b := phase migrate_plugin (Enabled (b_reg b)) b in
  let! b := phase init_plugin (Enabled (b_reg b)) b in
  phase start_plugin (Enabled (b_reg b)) b.

Definition shutdown_plugin (name : string) (b : boot) : prog plugin_db boot :=
  match plugin_named (b_reg b) name ≫= p_Lifecycle with
  | Some (_, shutdown) =>
      let! _ := safe shutdown in Ret (on_reg (update_status name (with_status StatusStopped)) (called (CalledShutdown name) b))
  | None => Ret (on_reg (update_status name (with_status StatusStopped)) b)
  end.
Definition ShutdownAll (b : boot) : prog plugin_db boot := phase shutdown_plugin (reverse (Enabled (b_reg b))) b.
End Registry.

(** ** The event bus (lifecycle.go)

    A subscription is a function; its cancellation remembers the index it was
    given. *)
Section Bus.
Context {D E : Type} {Event : Type} (Topic : Event -> string) (panicked : E).
Definition subscriber : Type := Event -> prog D (outcome E unit).
Definition bus : Type := gmap string (list subscriber).

Definition subs (b : bus) (topic : string) : list subscriber := default [] (b !! topic).
Definition Subscribe (topic : string) (fn : subscriber) (b : bus) : bus * (string * nat) :=
  (<[topic := subs b topic ++ [fn]]> b, (topic, length (subs b topic))).
Definition cancel (c : string * nat) (b : bus) : bus :=
  let '(topic, idx) := c in
  if (idx <? length (subs b topic))%nat then <[topic := take idx (subs b topic) ++ drop (S idx) (subs b topic)]> b else b.

Fixpoint call_all (hs : list subscriber) (e : Event) (errs : list E) : prog D (list E) :=
  match hs with
  | [] => Ret errs
  | h :: rest =>
      let! o := h e in
      call_all rest e (match o with Ok _ => errs | Err x => errs ++ [x] | Panic _ => errs ++ [panicked] end)
  end.
Definition Publish (e : Event) (b : bus) : prog D (list E) := call_all (subs b (Topic e) ++ subs b "*") e [].
End Bus.
