(* ===== verification/PluginsSpec.v ===== *)
(** * What the plugin framework guarantees: migrations

    [migrations_resume]: however often applying the migrations of a plugin
    fails half-way, what it ends with is what one undisturbed run ends with. *)
From S2P Require Import Prelude Prog Table Schema Messaging MessagingQueries Attachments Plugins.

(** ** The insertion sort *)
Definition by_version (x y : Migration) : Prop := Version x <= Version y.
#[export] Instance by_version_trans : Transitive by_version.
Proof. intros x y z. unfold by_version. lia. Qed.

Lemma sift_migration_perm m l : Permutation (sift_migration m l) (m :: l).
Proof. induction l as [|y l IH]; [done|]. cbn [sift_migration]. destruct (_ <? _); [|done]. rewrite IH. constructor. Qed.
Lemma sift_migration_sorted m l : StronglySorted (flip by_version) l -> StronglySorted (flip by_version) (sift_migration m l).
Proof.
  intros Hs. induction Hs as [|y l Hs IH Hy]; cbn [sift_migration]; [by repeat constructor|]. destruct (Z.ltb_spec (Version m) (Version y)) as [Hlt|Hge].
  - constructor; [done|]. rewrite sift_migration_perm. constructor; [unfold flip, by_version; lia|done].
  - constructor; [by constructor|]. constructor; [unfold flip, by_version; lia|]. eapply Forall_impl; [exact Hy|]. intros z. unfold flip, by_version. lia.
Qed.
Lemma sort_foldl l acc : StronglySorted (flip by_version) acc ->
  let r := foldl (fun acc m => sift_migration m acc) acc l in Permutation r (l ++ acc) /\ StronglySorted (flip by_version) r.
Proof.
  revert acc. induction l as [|m l IH]; intros acc Hs; cbn [foldl]; [done|]. destruct (IH (sift_migration m acc)) as [H1 H2]; [by apply sift_migration_sorted|].
  split; [|done]. rewrite H1, sift_migration_perm. symmetry. apply Permutation_middle.
Qed.
Lemma reverse_sorted l : StronglySorted (flip by_version) l -> StronglySorted by_version (reverse l).
Proof.
  induction 1 as [|m l Hs IH Hm]; [constructor|]. rewrite reverse_cons. apply StronglySorted_app_2; [|done|by repeat constructor].
  intros x y Hx Hy. rewrite elem_of_reverse in Hx. apply list_elem_of_singleton in Hy. subst y. rewrite Forall_forall in Hm. exact (Hm x Hx).
Qed.
Lemma sortMigrations_spec l : Permutation (sortMigrations l) l /\ StronglySorted by_version (sortMigrations l).
Proof.
  unfold sortMigrations. destruct (sort_foldl l []) as [H1 H2]; [constructor|]. rewrite app_nil_r in H1. split; [|by apply reverse_sorted].
  by rewrite reverse_Permutation.
Qed.

(** ** What migrations do, apart from the time they record *)
Section Migrations.
Context {HSql : PluginSQL} {HSha : GoSha256}.

Definition core : Type := gmap (string * Z) string * schema.
Definition core_of (d : plugin_db) : core := (ap_Checksum <$> plugin_migrations d, built d).
Definition core_apply (plugin : string) (m : Migration) (c : core) : option core :=
  s ← exec_sql (SQL m) c.2;
  match c.1 !! (plugin, Version m) with Some _ => None | None => Some (<[(plugin, Version m) := checksumSQL (SQL m)]> c.1, s) end.
Fixpoint core_all (plugin : string) (ms : list Migration) (c : core) : option core :=
  match ms with [] => Some c | m :: rest => c' ← core_apply plugin m c; core_all plugin rest c' end.

(** The migrations that are not recorded yet. *)
Definition pending (plugin : string) (c : core) (ms : list Migration) : list Migration := filter (fun m => c.1 !! (plugin, Version m) = None) ms.
(** Every recorded one is as it was recorded. *)
Definition immutable (plugin : string) (c : core) (ms : list Migration) : Prop :=
  forall m sum, m ∈ ms -> c.1 !! (plugin, Version m) = Some sum -> sum = checksumSQL (SQL m).

Lemma record_core plugin m d :
  core_of <$> record_migration plugin m (checksumSQL (SQL m)) d = core_apply plugin m (core_of d).
Proof.
  unfold record_migration, core_apply. cbn [core_of fst snd]. destruct (exec_sql _ _) as [s|]; [|done]. cbn [mbind option_bind].
  rewrite lookup_fmap. destruct (plugin_migrations d !! _); [done|]. cbn [fmap option_fmap option_map]. unfold core_of. cbn [plugin_migrations built]. by rewrite fmap_insert.
Qed.
Lemma record_now plugin m sum d d' : record_migration plugin m sum d = Some d' -> now d' = now d.
Proof. unfold record_migration. destruct (exec_sql _ _); [|done]. cbn [mbind option_bind]. destruct (_ !! _); [done|]. by intros [= <-]. Qed.

Lemma core_apply_lookup plugin m c c' v : core_apply plugin m c = Some c' -> v <> Version m -> c'.1 !! (plugin, v) = c.1 !! (plugin, v).
Proof.
  unfold core_apply. destruct (exec_sql _ _); [|done]. cbn [mbind option_bind]. destruct (c.1 !! _); [done|]. intros [= <-] Hv. cbn [fst].
  apply lookup_insert_ne. congruence.
Qed.
Lemma core_apply_same plugin m c c' : core_apply plugin m c = Some c' -> c.1 !! (plugin, Version m) = None /\ c'.1 !! (plugin, Version m) = Some (checksumSQL (SQL m)).
Proof.
  unfold core_apply. destruct (exec_sql _ _); [|done]. cbn [mbind option_bind]. destruct (c.1 !! _) eqn:E; [done|]. intros [= <-]. split; [done|]. cbn [fst]. by simplify_map_eq.
Qed.

Lemma pending_after plugin m c c' ms : core_apply plugin m c = Some c' -> Version m ∉ Version <$> ms -> pending plugin c' ms = pending plugin c ms.
Proof.
  intros Hc. induction ms as [|x ms IH]; [done|]. rewrite fmap_cons, not_elem_of_cons. intros [Hx Hm]. unfold pending in *. rewrite !filter_cons.
  rewrite (core_apply_lookup plugin m c c' _ Hc) by done. destruct (decide _); by rewrite IH.
Qed.

Lemma immutable_after plugin m c c' ms : core_apply plugin m c = Some c' -> Version m ∉ Version <$> ms -> immutable plugin c ms -> immutable plugin c' ms.
Proof.
  intros Hc Hm Hi x sum Hx Hs. apply (Hi x sum Hx). rewrite (core_apply_lookup plugin m c c' _ Hc) in Hs; [done|].
  intros E. apply Hm. rewrite <- E. by apply list_elem_of_fmap_2.
Qed.

(** One attempt: whatever fails, the first so many pending migrations were
    applied, all of them when it succeeds. *)
Lemma apply_all_ok plugin (applied : gmap Z string) ms : forall done d, NoDup (Version <$> ms) ->
  (forall m, m ∈ ms -> applied !! Version m = (core_of d).1 !! (plugin, Version m)) -> immutable plugin (core_of d) ms ->
  wp (apply_all plugin applied ms done) (fun o d' => now d' = now d /\ exists k,
    core_all plugin (take k (pending plugin (core_of d) ms)) (core_of d) = Some (core_of d') /\
    match o with
    | Ok vs => k = length (pending plugin (core_of d) ms) /\ vs = done ++ (Version <$> pending plugin (core_of d) ms)
    | Err _ => True
    | Panic _ => False
    end) d.
Proof.
  induction ms as [|m ms IH]; intros done d Hnd Ha Hi; cbn [apply_all].
  { cbn [wp]. split; [done|]. exists 0%nat. by rewrite app_nil_r. }
  rewrite fmap_cons in Hnd. apply NoDup_cons in Hnd as [Hm Hnd]. pose proof (Ha m ltac:(by left)) as Hd. rewrite Hd.
  unfold pending. rewrite filter_cons. fold (pending plugin (core_of d) ms).
  destruct ((core_of d).1 !! (plugin, Version m)) as [sum|] eqn:Ec.
  - rewrite decide_False by done. rewrite (Hi m sum ltac:(by left) Ec), String.eqb_refl. cbn [negb]. apply IH; [done|intros x Hx; apply Ha; by right|intros x sum' Hx; apply Hi; by right].
  - rewrite decide_True by done. apply wp_bind_ok. unfold applyOne. pose proof (record_core plugin m d) as Hr.
    split; cbn [wp].
    + destruct (record_migration plugin m (checksumSQL (SQL m)) d) as [d1|] eqn:Er; cbn [wp default from_option].
      * cbn [fmap option_fmap option_map] in Hr. symmetry in Hr. pose proof (record_now _ _ _ _ _ Er) as Hn.
        eapply wp_mono; [|apply (IH (done ++ [Version m]) d1 Hnd)].
        -- intros o d' (Hn'&k&Hk&Ho). split; [congruence|]. exists (S k). rewrite (pending_after plugin m (core_of d) (core_of d1)) in Hk, Ho by done.
           cbn [take core_all]. rewrite Hr. cbn [mbind option_bind]. split; [done|]. destruct o as [vs|e|w]; [|done..]. destruct Ho as [-> ->]. split; [done|].
           rewrite fmap_cons, <- app_assoc. done.
        -- intros x Hx. rewrite (core_apply_lookup plugin m (core_of d)); [apply Ha; by right|done|]. intros E. apply Hm. rewrite <- E. by apply list_elem_of_fmap_2.
        -- eapply immutable_after; [done|done|]. intros x sum Hx. apply Hi. by right.
      * split; [done|]. by exists 0%nat.
    + split; [done|]. by exists 0%nat.
Qed.

Lemma recorded_lookup plugin d v : recorded plugin d !! v = (core_of d).1 !! (plugin, v).
Proof.
  unfold recorded, core_of. cbn [fst]. rewrite lookup_fmap.
  set (l := filter (fun kv : string * Z * applied_row => kv.1.1 = plugin) (map_to_list (plugin_migrations d))).
  assert (NoDup (((fun kv : string * Z * applied_row => (kv.1.2, ap_Checksum kv.2)) <$> l).*1)) as Hnd.
  { rewrite <- list_fmap_compose. apply NoDup_fmap_2_strong; [|apply NoDup_filter, NoDup_map_to_list].
    intros [[p1 v1] r1] [[p2 v2] r2] H1 H2 E. cbn in E. subst v2. apply list_elem_of_filter in H1 as [H1 H1'], H2 as [H2 H2']. cbn in H1, H2. subst p1 p2.
    apply elem_of_map_to_list in H1', H2'. congruence. }
  destruct (plugin_migrations d !! (plugin, v)) as [row|] eqn:E.
  - apply elem_of_list_to_map; [done|]. apply list_elem_of_fmap. exists ((plugin, v), row). split; [done|]. apply list_elem_of_filter. split; [done|]. by apply elem_of_map_to_list.
  - apply not_elem_of_list_to_map. intros H. apply list_elem_of_fmap in H as ([v' sum]&->&H). apply list_elem_of_fmap in H as ([[p1 v1] r1]&[= -> ->]&H).
    apply list_elem_of_filter in H as [H1 H2]. cbn in H1. subst p1. apply elem_of_map_to_list in H2. cbn in E. congruence.
Qed.

Definition migrations_valid (p : Plugin) (migs : list Migration) : Prop :=
  p_Migrations p = Some migs /\ NoDup (Version <$> migs) /\ first_error (validateMigrationSQL (p_Name p)) migs = None.

Lemma attempt_ok p migs d : migrations_valid p migs -> immutable (p_Name p) (core_of d) migs ->
  wp (ApplyMigrations p) (fun o d' => now d' = now d /\ exists k,
    core_all (p_Name p) (take k (pending (p_Name p) (core_of d) (sortMigrations migs))) (core_of d) = Some (core_of d') /\
    match o with
    | Ok vs => k = length (pending (p_Name p) (core_of d) (sortMigrations migs)) /\ vs = Version <$> pending (p_Name p) (core_of d) (sortMigrations migs)
    | Err _ => True
    | Panic _ => False
    end) d.
Proof.
  intros (Hm&Hnd&Hv) Hi. destruct (sortMigrations_spec migs) as [Hperm _]. unfold ApplyMigrations. rewrite Hm. apply wp_bind_ok. split; cbn [wp]; [|split; [done|by exists 0%nat]].
  apply wp_bind_ok. split; cbn [wp]; [|split; [done|by exists 0%nat]]. rewrite Hv. apply (apply_all_ok (p_Name p) _ _ []).
  - by rewrite Hperm.
  - intros m _. apply recorded_lookup.
  - intros m sum Hin. apply Hi. by rewrite <- Hperm.
Qed.

(** ** Attempt after attempt *)
Lemma version_inj ms x y : NoDup (Version <$> ms) -> x ∈ ms -> y ∈ ms -> Version x = Version y -> x = y.
Proof.
  induction ms as [|m ms IH]; [by intros _ H%elem_of_nil|]. rewrite fmap_cons. intros [Hm Hnd]%NoDup_cons Hx Hy E.
  apply elem_of_cons in Hx as [->|Hx], Hy as [->|Hy]; [done| | |by apply IH]; destruct Hm; [rewrite E|rewrite <- E]; by apply list_elem_of_fmap_2.
Qed.
Lemma pending_applied plugin ms c c' m rest : NoDup (Version <$> ms) -> pending plugin c ms = m :: rest -> core_apply plugin m c = Some c' -> pending plugin c' ms = rest.
Proof.
  intros Hnd Hp Hc. destruct (core_apply_same plugin m c c' Hc) as [_ Hs]. revert rest Hp. induction ms as [|x ms IH]; intros rest Hp; [done|].
  rewrite fmap_cons in Hnd. apply NoDup_cons in Hnd as [Hx Hnd]. unfold pending in *. rewrite filter_cons in Hp |- *. destruct (decide (c.1 !! (plugin, Version x) = None)) as [E|E].
  - injection Hp as -> <-. rewrite decide_False by (rewrite Hs; done). by apply pending_after with (m := m).
  - assert (m ∈ ms) as Hin. { assert (m ∈ filter (fun m => c.1 !! (plugin, Version m) = None) ms) as H by (rewrite Hp; by left). by apply list_elem_of_filter in H as [_ ?]. }
    rewrite decide_False; [by apply IH|]. rewrite (core_apply_lookup plugin m c c' _ Hc); [done|]. intros Ev. apply Hx. rewrite Ev. by apply list_elem_of_fmap_2.
Qed.
Lemma immutable_step plugin ms c c' m : NoDup (Version <$> ms) -> m ∈ ms -> core_apply plugin m c = Some c' -> immutable plugin c ms -> immutable plugin c' ms.
Proof.
  intros Hnd Hm Hc Hi x sum Hx Hs. destruct (decide (Version x = Version m)) as [E|E].
  - rewrite (version_inj ms x m Hnd Hx Hm E) in *. destruct (core_apply_same plugin m c c' Hc) as [_ Hs']. congruence.
  - rewrite (core_apply_lookup plugin m c c' _ Hc) in Hs by done. by apply Hi.
Qed.
Lemma pending_prefix plugin ms k : forall c c1, NoDup (Version <$> ms) -> immutable plugin c ms ->
  core_all plugin (take k (pending plugin c ms)) c = Some c1 -> pending plugin c1 ms = drop k (pending plugin c ms) /\ immutable plugin c1 ms.
Proof.
  induction k as [|k IH]; intros c c1 Hnd Hi Hc; [by injection Hc as <-|]. destruct (pending plugin c ms) as [|m rest] eqn:Ep; [injection Hc as <-; by rewrite Ep|].
  cbn [take core_all drop] in *. destruct (core_apply plugin m c) as [c'|] eqn:Em; [|done]. cbn [mbind option_bind] in Hc.
  assert (m ∈ ms) as Hin. { assert (m ∈ pending plugin c ms) as H by (rewrite Ep; by left). by apply list_elem_of_filter in H as [_ ?]. }
  pose proof (pending_applied plugin ms c c' m rest Hnd Ep Em) as E. rewrite <- E in Hc |- *. by apply IH; [|eapply immutable_step|].
Qed.
Lemma core_all_app plugin l1 l2 c : core_all plugin (l1 ++ l2) c = core_all plugin l1 c ≫= core_all plugin l2.
Proof. revert c. induction l1 as [|m l1 IH]; intros c; [done|]. cbn [app core_all]. destruct (core_apply plugin m c); [apply IH|done]. Qed.

(** With the migrations pending in [c0], [c] is a state on the way. *)
Definition on_the_way (plugin : string) (ms : list Migration) (c0 c : core) : Prop :=
  exists k, core_all plugin (take k (pending plugin c0 ms)) c0 = Some c.
Lemma on_the_way_more plugin ms c0 c c' k : NoDup (Version <$> ms) -> immutable plugin c0 ms -> on_the_way plugin ms c0 c ->
  core_all plugin (take k (pending plugin c ms)) c = Some c' -> exists j, (length (pending plugin c ms) <= k -> length (pending plugin c0 ms) <= j)%nat /\
  core_all plugin (take j (pending plugin c0 ms)) c0 = Some c'.
Proof.
  intros Hnd Hi [k0 Hk0] Hk. destruct (pending_prefix plugin ms k0 c0 c Hnd Hi Hk0) as [E _]. rewrite E in Hk |- *. exists (k0 + k)%nat.
  rewrite length_drop. split; [lia|]. rewrite <- (take_take_drop (pending plugin c0 ms) k0 k), core_all_app, Hk0. exact Hk.
Qed.

Definition at_time (t : Z) (d : plugin_db) : plugin_db := mkPluginDb t (plugin_migrations d) (built d).
Definition attempt (p : Plugin) (a : Z * list bool) (d : plugin_db) : outcome plugin_error (list Z) * plugin_db := run (ApplyMigrations p) a.2 (at_time a.1 d).
Definition retry (p : Plugin) (attempts : list (Z * list bool)) (d : plugin_db) : plugin_db := foldl (fun d a => (attempt p a d).2) d attempts.

Lemma attempt_step p migs d a : migrations_valid p migs -> immutable (p_Name p) (core_of d) migs ->
  let '(o, d') := attempt p a d in exists k,
    core_all (p_Name p) (take k (pending (p_Name p) (core_of d) (sortMigrations migs))) (core_of d) = Some (core_of d') /\
    (forall vs, o = Ok vs -> k = length (pending (p_Name p) (core_of d) (sortMigrations migs))).
Proof.
  intros Hv Hi. pose proof (wp_run _ _ _ a.2 (attempt_ok p migs (at_time a.1 d) Hv Hi)) as H. unfold attempt.
  destruct (run (ApplyMigrations p) a.2 (at_time a.1 d)) as [o d']. destruct H as (_&k&Hk&Ho). exists k. split; [exact Hk|]. intros vs ->. apply Ho.
Qed.

Lemma apply_all_complete plugin (applied : gmap Z string) ms c : forall done d, NoDup (Version <$> ms) ->
  (forall m, m ∈ ms -> applied !! Version m = (core_of d).1 !! (plugin, Version m)) -> immutable plugin (core_of d) ms ->
  core_all plugin (pending plugin (core_of d) ms) (core_of d) = Some c -> exists vs, (run_ok (apply_all plugin applied ms done) d).1 = Ok vs.
Proof.
  induction ms as [|m ms IH]; intros done d Hnd Ha Hi Hc; cbn [apply_all]; [by exists done|].
  rewrite fmap_cons in Hnd. apply NoDup_cons in Hnd as [Hm Hnd]. pose proof (Ha m ltac:(by left)) as Hd. rewrite Hd.
  unfold pending in Hc. rewrite filter_cons in Hc. fold (pending plugin (core_of d) ms) in Hc.
  destruct ((core_of d).1 !! (plugin, Version m)) as [sum|] eqn:Ec.
  - rewrite (Hi m sum ltac:(by left) Ec), String.eqb_refl. cbn [negb]. rewrite decide_False in Hc by done.
    apply IH; [done|intros x Hx; apply Ha; by right|intros x sum' Hx; apply Hi; by right|done].
  - rewrite decide_True in Hc by done. cbn [core_all] in Hc. pose proof (record_core plugin m d) as Hr. rewrite run_ok_bind_ok. unfold applyOne, exec_o. cbn [run_ok run].
    destruct (record_migration plugin m (checksumSQL (SQL m)) d) as [d1|] eqn:Er; cbn [fmap option_fmap option_map] in Hr; rewrite <- Hr in Hc; [|done].
    cbn [mbind option_bind] in Hc. cbn [default from_option run]. symmetry in Hr. apply IH; [done| | |by rewrite (pending_after plugin m (core_of d) (core_of d1))].
    + intros x Hx. rewrite (core_apply_lookup plugin m (core_of d)); [apply Ha; by right|done|]. intros E. apply Hm. rewrite <- E. by apply list_elem_of_fmap_2.
    + eapply immutable_after; [done|done|]. intros x sum Hx. apply Hi. by right.
Qed.

(** C33. Migrations survive interruption: however many attempts failed half-way,
    at whatever statements and times, the attempt that succeeds leaves the
    database as one undisturbed run on the original one does, every pending
    migration applied exactly once in the order of the versions; and no later
    attempt, failing or not, changes anything any more. *)
Theorem migrations_resume (p : Plugin) (migs : list Migration) (d : plugin_db) (attempts : list (Z * list bool)) (a : Z * list bool) (vs : list Z) (d' : plugin_db)
  (Hvalid : migrations_valid p migs) (Himm : immutable (p_Name p) (core_of d) migs)
  (Hsucc : attempt p a (retry p attempts d) = (Ok vs, d')) :
  let todo := pending (p_Name p) (core_of d) (sortMigrations migs) in
  StronglySorted by_version todo /\ core_all (p_Name p) todo (core_of d) = Some (core_of d') /\
  (exists vs0 d0, run_ok (ApplyMigrations p) d = (Ok vs0, d0) /\ vs0 = Version <$> todo /\ core_of d0 = core_of d') /\
  forall a', core_of (attempt p a' d').2 = core_of d'.
Proof.
  intros todo. destruct (sortMigrations_spec migs) as [Hperm Hsort]. pose proof Hvalid as (Hmigs&Hnd&Hval). set (ms := sortMigrations migs) in *. set (n := p_Name p) in *.
  assert (NoDup (Version <$> ms)) as Hnd' by by rewrite Hperm.
  assert (forall c, immutable n c migs <-> immutable n c ms) as Himm' by (intros c; unfold immutable; setoid_rewrite Hperm; done).
  assert (forall d1, on_the_way n ms (core_of d) (core_of d1) -> immutable n (core_of d1) migs) as Hway.
  { intros d1 [k Hk]. apply Himm'. eapply (pending_prefix n ms k); [done|by apply Himm'|done]. }
  assert (on_the_way n ms (core_of d) (core_of (retry p attempts d))) as Hr.
  { clear Hsucc. assert (forall d1, on_the_way n ms (core_of d) (core_of d1) -> on_the_way n ms (core_of d) (core_of (retry p attempts d1))) as H.
    { induction attempts as [|b l IH]; intros d1 H1; [done|]. cbn [retry foldl]. apply IH. pose proof (attempt_step p migs d1 b Hvalid (Hway d1 H1)) as H.
      destruct (attempt p b d1) as [o d2]. cbn [snd]. destruct H as (k&Hk&_). destruct (on_the_way_more n ms (core_of d) (core_of d1) (core_of d2) k) as (j&_&Hj); try done; [by apply Himm'|]. by exists j. }
    apply H. by exists 0%nat. }
  pose proof (attempt_step p migs (retry p attempts d) a Hvalid (Hway _ Hr)) as H. rewrite Hsucc in H. destruct H as (k&Hk&Hok). specialize (Hok vs eq_refl).
  destruct (on_the_way_more n ms (core_of d) (core_of (retry p attempts d)) (core_of d') k) as (j&Hj&Hall); try done; [by apply Himm'|].
  fold todo in Hj, Hall. fold n in Hok. fold ms in Hok. rewrite take_ge in Hall by (apply Hj; lia).
  split. { unfold todo, pending. clear -Hsort. induction Hsort as [|m l Hs IH Hm]; [constructor|]. rewrite filter_cons. destruct (decide _); [|done]. constructor; [done|].
    apply Forall_forall. intros x [_ Hx]%list_elem_of_filter. rewrite Forall_forall in Hm. by apply Hm. }
  split; [done|]. split.
  - assert (exists vs0, (run_ok (ApplyMigrations p) d).1 = Ok vs0) as [vs0 Hvs0].
    { unfold ApplyMigrations. rewrite Hmigs. rewrite !run_ok_bind_ok. cbn [run_ok run exec query]. fold n. rewrite Hval. change (sortMigrations migs) with ms.
      apply apply_all_complete with (c := core_of d'); [done|intros m _; apply recorded_lookup|by apply Himm'|done]. }
    pose proof (wp_run_ok _ _ _ (attempt_ok p migs d Hvalid Himm)) as H. destruct (run_ok (ApplyMigrations p) d) as [o d0]. cbn [fst snd] in Hvs0, H. subst o.
    destruct H as (_&k0&Hk0&->&->). exists (Version <$> todo), d0. split; [done|]. split; [done|]. fold n ms todo in Hk0. rewrite take_ge in Hk0 by done. congruence.
  - intros b. assert (pending n (core_of d') ms = []) as Hnone.
    { destruct (pending_prefix n ms (length todo) (core_of d) (core_of d')) as [E _]; [done|by apply Himm'|by rewrite take_ge|]. rewrite E. apply drop_ge. unfold todo. lia. }
    assert (on_the_way n ms (core_of d) (core_of d')) as Hd'.
    { exists (length todo). fold todo. rewrite take_ge by lia. exact Hall. }
    pose proof (attempt_step p migs d' b Hvalid (Hway d' Hd')) as H. destruct (attempt p b d') as [o d2]. cbn [snd]. destruct H as (k2&Hk2&_).
    fold n in Hk2. change (sortMigrations migs) with ms in Hk2. rewrite Hnone, take_nil in Hk2. cbn [core_all] in Hk2. congruence.
Qed.
End Migrations.
