(* ===== verification/PluginLifecycleSpec.v ===== *)
(** * What the plugin framework guarantees: boot and configuration

    [boot_order]: plugins are initialised and started in their order, and one
    that fails stops there and stops nobody else. *)
From S2P Require Import Prelude Prog Table Schema Messaging MessagingQueries Attachments Plugins PluginLifecycle PluginsSpec AuthEffects.

(** ** The registry *)
Section Boot.
Context {HSql : PluginSQL} {HSha : GoSha256} {HHost : HostFactory}.

(** What a step about one plugin leaves alone. *)
Definition only (n : string) (r r' : Registry) : Prop :=
  plugins r' = plugins r /\ reg_enabled r' = reg_enabled r /\ order r' = order r /\
  (forall m, m <> n -> entries (statuses r') !! m = entries (statuses r) !! m) /\
  (is_Some (entries (statuses r) !! n) -> is_Some (entries (statuses r') !! n)).
#[export] Instance only_preorder n : PreOrder (only n).
Proof.
  split; [intros r; by split_and!|]. intros a b c (P1&E1&O1&H1&S1) (P2&E2&O2&H2&S2). split_and!; try congruence; [|auto].
  intros m Hm. by rewrite H2, H1.
Qed.

Lemma only_update n f r : only n r (update_status n f r).
Proof.
  unfold update_status, status_Update. destruct (entries (statuses r) !! n) as [e|] eqn:E; split_and!; try done.
  - intros m Hm. cbn. by rewrite lookup_insert_ne.
  - intros _. cbn. rewrite lookup_insert. by rewrite decide_True.
Qed.
Lemma only_collect n p r : only n r (collectCapabilities n p r).
Proof.
  unfold collectCapabilities. destruct (add_named Tool_Name _ _) as [tools d1]. assert (only n r (set_mcpTools tools r)) as H1 by by split_and!.
  destruct d1; [by etrans; [|apply only_update]|]. destruct (add_named Action_Name _ _) as [acts d2].
  assert (only n r (set_actions acts (set_mcpTools tools r))) as H2 by by split_and!. destruct d2; [by etrans; [|apply only_update]|].
  set (r3 := match p_WebPanels p with Some _ => _ | None => _ end). assert (only n r r3) as H3 by (unfold r3; destruct (p_WebPanels p) as [[l h]|]; by split_and!).
  destruct (add_named id _ _) as [types d3]. assert (only n r (set_channelTypes types r3)) as H4 by (etrans; [exact H3|]; by split_and!).
  destruct d3; [by etrans; [|apply only_update]|]. etrans; [exact H4|]. by split_and!.
Qed.

(** The status of a plugin; a failed one has an error. *)
Definition in_status (r : Registry) (n : string) (P : Status -> Prop) : Prop :=
  exists e, entries (statuses r) !! n = Some e /\ P (se_Status e) /\ (se_Status e = StatusFailed -> is_Some (ErrorMessage e)).
Lemma in_status_update n f r (P : Status -> Prop) : is_Some (entries (statuses r) !! n) ->
  (forall e, P (se_Status (f e)) /\ (se_Status (f e) = StatusFailed -> is_Some (ErrorMessage (f e)))) -> in_status (update_status n f r) n P.
Proof. intros [e He] Hf. unfold update_status, status_Update. rewrite He. exists (f e). cbn. rewrite lookup_insert, decide_True by done. split; [done|]. apply Hf. Qed.
Lemma in_status_only n m r r' P : only n r r' -> m <> n -> in_status r m P -> in_status r' m P.
Proof. intros (_&_&_&H&_) Hm (e&He&Hs). exists e. by rewrite H. Qed.
Lemma failed_iff r n P : in_status r n P -> failed r n = true <-> in_status r n (eq StatusFailed).
Proof.
  intros (e&He&_&Hf). unfold failed, status_Get. rewrite He, bool_decide_eq_true. split; [intros E; exists e; by rewrite E in *|]. intros (e'&He'&E&_). congruence.
Qed.

(** ** A phase *)
Definition lifecycle_of (r : Registry) (n : string) : bool := has (plugin_named r n ≫= p_Lifecycle).
Lemma wp_phase f (P : list string -> boot -> Prop) names : forall seen b d, NoDup (seen ++ names) -> P seen b ->
  (forall seen n b d, n ∉ seen -> n ∈ names -> P seen b -> wp (f n b) (fun b' _ => P (seen ++ [n]) b') d) ->
  wp (phase f names b) (fun b' _ => P (seen ++ names) b') d.
Proof.
  induction names as [|n names IH]; intros seen b d Hnd HP Hstep; cbn [phase].
  - by rewrite app_nil_r.
  - apply wp_bind. assert (n ∉ seen) as Hn by (intros Hin; apply NoDup_app in Hnd as (_&Hd&_); apply (Hd n Hin); by left).
    eapply wp_mono; [|apply Hstep; [done|by left|done]]. intros b' d' HP'. replace (seen ++ n :: names) with ((seen ++ [n]) ++ names) by by rewrite <- app_assoc.
    apply IH; [by rewrite <- app_assoc|done|]. intros s m b0 d0 Hs Hm. apply Hstep; [done|by right].
Qed.

(** A registry on its way through the boot of [r0]: [st] says where each plugin
    is. *)
Definition same_plugins (r0 r : Registry) : Prop := plugins r = plugins r0 /\ reg_enabled r = reg_enabled r0 /\ order r = order r0.
Definition at_stage (r0 : Registry) (st : string -> Status -> Prop) (r : Registry) : Prop :=
  same_plugins r0 r /\ forall n, n ∈ order r0 -> in_status r n (st n).

Lemma stage_step r0 (st st' : string -> Status -> Prop) n r r' : at_stage r0 st r -> only n r r' -> in_status r' n (st' n) ->
  (forall m s, m <> n -> st m s -> st' m s) -> at_stage r0 st' r'.
Proof.
  intros [(P&E&O) Hs] Ho Hn Hst. pose proof Ho as (P'&E'&O'&Hm&_). split; [split_and!; congruence|]. intros m Hin. destruct (decide (m = n)) as [->|Hne]; [done|].
  destruct (Hs m Hin) as (e&He&H1&H2). exists e. rewrite Hm by done. split; [done|]. split; [by apply Hst|done].
Qed.
Lemma stage_same r0 (st st' : string -> Status -> Prop) n r : at_stage r0 st r -> in_status r n (st' n) -> (forall m s, m <> n -> st m s -> st' m s) -> at_stage r0 st' r.
Proof. intros H. eapply stage_step; [done|reflexivity]. Qed.

(** ** A new registry *)
Definition fresh_status (r : Registry) (n : string) (s : Status) : Prop := s = if is_enabled r n then StatusRegistered else StatusDisabled.
Definition fresh (r : Registry) : Prop :=
  NoDup (order r) /\ (forall n, n ∈ order r <-> is_Some (plugins r !! n)) /\ forall n, n ∈ order r -> in_status r n (fresh_status r n).

Lemma register_fresh cfg p r : fresh r -> plugins r !! p_Name p = None -> (forall n, plugins r !! n = None -> reg_enabled r !! n = None) ->
  fresh (register cfg p r) /\ (forall n, plugins (register cfg p r) !! n = None -> reg_enabled (register cfg p r) !! n = None).
Proof.
  intros (Hnd&Hp&Hs) Hnew Hen. assert (p_Name p ∉ order r) as Hn by (rewrite Hp, Hnew; by intros [x Hx]). split.
  - split_and!.
    + cbn. apply NoDup_app. split_and!; [done| |apply NoDup_singleton]. intros x Hx ->%list_elem_of_singleton. done.
    + intros n. cbn. rewrite elem_of_app, list_elem_of_singleton, Hp. destruct (decide (n = p_Name p)) as [->|Hne]; [rewrite lookup_insert, decide_True by done; naive_solver|].
      rewrite lookup_insert_ne by done. naive_solver.
    + intros n Hin. unfold in_status, fresh_status, is_enabled. cbn. unfold status_Set. cbn [entries]. destruct (decide (n = p_Name p)) as [->|Hne].
      * rewrite lookup_insert, decide_True by done. eexists. split; [done|]. cbn [se_Status]. destruct cfg as [c|]; cbn [IsEnabled].
        -- rewrite lookup_insert, decide_True by done. cbn. split; [done|]. by destruct (match cfg_Plugins c !! p_Name p with Some pc => cfg_Enabled pc | None => false end).
        -- rewrite (Hen (p_Name p) Hnew). by split.
      * rewrite lookup_insert_ne by done. apply elem_of_app in Hin as [Hin|Hin%list_elem_of_singleton]; [|done]. destruct (Hs n Hin) as (e&He&H1&H2).
        exists e. split; [done|]. split; [|done]. rewrite H1. unfold is_enabled. by destruct cfg; [rewrite lookup_insert_ne|].
  - intros n. cbn. destruct (decide (n = p_Name p)) as [->|Hne]; [by rewrite lookup_insert, decide_True|]. rewrite lookup_insert_ne by done. intros H.
    destruct cfg; [rewrite lookup_insert_ne by done|]; by apply Hen.
Qed.
Lemma new_registry_fresh ps cfg r : NewRegistry ps cfg = inr r -> fresh r.
Proof.
  unfold NewRegistry. assert (fresh empty_registry) as H0.
  { split_and!; [constructor| |]; intros n; [|by intros H%elem_of_nil]. split; [by intros H%elem_of_nil|]. intros [x Hx]. change ((∅ : gmap string Plugin) !! n = Some x) in Hx. by rewrite lookup_empty in Hx. }
  assert (forall n, plugins empty_registry !! n = None -> reg_enabled empty_registry !! n = None) as H1 by done. revert H0 H1. generalize empty_registry.
  induction ps as [|p ps IH]; intros r0 H0 H1; cbn [register_all]; [by intros [= <-]|]. destruct (negb _); [done|]. destruct (plugins r0 !! p_Name p) eqn:E; [done|].
  destruct (register_fresh cfg p r0 H0 E H1). by apply IH.
Qed.

(** ** The phases *)
Definition has_lifecycle (r : Registry) (n : string) : Prop := lifecycle_of r n = true.
#[export] Instance has_lifecycle_dec r n : Decision (has_lifecycle r n).
Proof. unfold has_lifecycle. apply _. Defined.
Definition migrated_stage (r0 : Registry) (seen : list string) (n : string) (s : Status) : Prop :=
  if decide (n ∈ seen) then s = StatusMigrated \/ s = StatusFailed else fresh_status r0 n s.
Definition inited_stage (r0 : Registry) (inits seen : list string) (n : string) (s : Status) : Prop :=
  if decide (n ∈ seen) then s = StatusFailed \/ s = StatusInitialized /\ n ∈ inits else migrated_stage r0 (Enabled r0) n s.
Definition started_stage (r0 : Registry) (inits starts seen : list string) (n : string) (s : Status) : Prop :=
  if decide (n ∈ seen) then s = StatusFailed \/ s = StatusStarted /\ n ∈ inits /\ (has_lifecycle r0 n -> n ∈ starts)
  else inited_stage r0 inits (Enabled r0) n s.

Lemma enabled_spec r n : n ∈ Enabled r <-> n ∈ order r /\ is_enabled r n = true.
Proof. unfold Enabled. rewrite list_elem_of_filter. tauto. Qed.
Lemma same_Enabled r0 r : same_plugins r0 r -> Enabled r = Enabled r0.
Proof. intros (_&E&O). unfold Enabled, is_enabled. by rewrite E, O. Qed.
Lemma in_status_some r n P : in_status r n P -> is_Some (entries (statuses r) !! n).
Proof. intros (e&He&_). by exists e. Qed.
Lemma in_status_weaken r n (P P' : Status -> Prop) : (forall s, P s -> P' s) -> in_status r n P -> in_status r n P'.
Proof. intros H (e&He&H1&H2). exists e. by split_and!; [|apply H|]. Qed.

Lemma migrate_phase r0 d : fresh r0 ->
  wp (phase migrate_plugin (Enabled r0) (mkBoot r0 [])) (fun b _ => b_calls b = [] /\ at_stage r0 (migrated_stage r0 (Enabled r0)) (b_reg b)) d.
Proof.
  intros (Hnd&Hp&Hs). apply (wp_phase migrate_plugin (fun seen b => b_calls b = [] /\ at_stage r0 (migrated_stage r0 seen) (b_reg b)) (Enabled r0) []).
  - by apply NoDup_filter.
  - split; [done|]. split; [done|]. intros n Hn. exact (Hs n Hn).
  - intros seen n [r calls] d0 Hseen Hn [E Hst]. cbn [b_calls] in E. subst calls. apply enabled_spec in Hn as [Hord Hen].
    assert (forall r', only n r r' -> in_status r' n (fun s => s = StatusMigrated \/ s = StatusFailed) ->
      b_calls (mkBoot r' []) = [] /\ at_stage r0 (migrated_stage r0 (seen ++ [n])) (b_reg (mkBoot r' []))) as Hdone.
    { intros r' Ho Hn'. split; [done|]. eapply stage_step; [exact Hst|exact Ho| |].
      - eapply in_status_weaken; [|exact Hn']. intros s0 H. unfold migrated_stage. rewrite decide_True; [done|]. apply elem_of_app. right. by left.
      - intros m s0 Hne H. unfold migrated_stage in *. destruct (decide (m ∈ seen)); [rewrite decide_True; [done|by apply elem_of_app; left]|].
        rewrite decide_False; [done|]. by intros [?| ->%list_elem_of_singleton]%elem_of_app. }
    pose proof (in_status_some _ _ _ (proj2 Hst n Hord)) as Hsome. cbn [b_reg] in Hsome.
    assert (forall f, only n r (markFailed n f r) /\ in_status (markFailed n f r) n (fun s => s = StatusMigrated \/ s = StatusFailed)) as Hfail.
    { intros f. split; [apply only_update|]. apply in_status_update; [done|]. intros e. split; [by right|]. by eexists. }
    unfold migrate_plugin. cbn [b_reg]. destruct (plugin_named r n) as [p|] eqn:Epl.
    + destruct (host_DB n); cbn [negb]; [|cbn [wp]; unfold on_reg; cbn [b_reg b_calls]; apply Hdone; apply Hfail].
      apply wp_bind. apply wp_of_runs. intros fs. destruct (run (ApplyMigrations p) fs d0) as [[vs|e|w] d1]; cbn [fst snd wp].
      2: { unfold on_reg; cbn [b_reg b_calls]. apply Hdone; apply Hfail. }
      all: apply wp_bind; unfold AppliedVersions; split; cbn [wp]; unfold on_reg; cbn [b_reg b_calls]; apply Hdone; try apply only_update;
        apply in_status_update; [done| |done|]; (intros e; split; [by left|done]).
    + exfalso. destruct Hst as [(P&_&_)_]. cbn [b_reg] in P. unfold plugin_named in Epl. rewrite P in Epl. apply Hp in Hord as [x Hx]. congruence.
Qed.

Lemma init_phase r0 d : fresh r0 -> forall r, at_stage r0 (migrated_stage r0 (Enabled r0)) r ->
  wp (phase init_plugin (Enabled r0) (mkBoot r [])) (fun b _ => exists inits, b_calls b = CalledInit <$> inits /\ inits `sublist_of` Enabled r0 /\
    at_stage r0 (inited_stage r0 inits (Enabled r0)) (b_reg b)) d.
Proof.
  intros (Hnd&Hp&_) r Hr. apply (wp_phase init_plugin (fun seen b => exists inits, b_calls b = CalledInit <$> inits /\ inits `sublist_of` seen /\
    at_stage r0 (inited_stage r0 inits seen) (b_reg b)) (Enabled r0) []).
  - by apply NoDup_filter.
  - exists []. split_and!; [done|apply sublist_nil_l|]. split; [apply Hr|]. intros n Hn. unfold inited_stage. exact (proj2 Hr n Hn).
  - clear r Hr. intros seen n [r calls] d0 Hseen Hn (inits&E&Hsub&Hst). cbn [b_calls] in E. subst calls. pose proof Hn as [Hord Hen]%enabled_spec.
    pose proof (in_status_some _ _ _ (proj2 Hst n Hord)) as Hsome. cbn [b_reg] in Hsome, Hst.
    assert (forall r' more, only n r r' -> more `sublist_of` [n] -> in_status r' n (fun s => s = StatusFailed \/ s = StatusInitialized /\ n ∈ more) ->
      exists inits', (CalledInit <$> inits) ++ (CalledInit <$> more) = CalledInit <$> inits' /\ inits' `sublist_of` seen ++ [n] /\ at_stage r0 (inited_stage r0 inits' (seen ++ [n])) r') as Hdone.
    { intros r' more Ho Hm Hn'. exists (inits ++ more). split; [by rewrite fmap_app|]. split; [by apply sublist_app|]. eapply stage_step; [exact Hst|exact Ho| |].
      - eapply in_status_weaken; [|exact Hn']. intros s0 H. unfold inited_stage. rewrite decide_True by (apply elem_of_app; right; by left).
        destruct H as [->|[-> H]]; [by left|right; split; [done|by apply elem_of_app; right]].
      - intros m s0 Hne H. unfold inited_stage in *. destruct (decide (m ∈ seen)).
        + rewrite decide_True by (by apply elem_of_app; left). destruct H as [->|[-> H]]; [by left|right; split; [done|by apply elem_of_app; left]].
        + rewrite decide_False; [done|]. by intros [?| ->%list_elem_of_singleton]%elem_of_app. }
    unfold init_plugin. cbn [b_reg]. destruct (failed r n) eqn:Ef.
    { cbn [wp b_reg b_calls]. destruct (Hdone r []) as (i&H1&H2); [reflexivity|apply sublist_nil_l| |exists i; by rewrite app_nil_r in H1].
      eapply in_status_weaken; [|apply (failed_iff r n _ (proj2 Hst n Hord)), Ef]. intros s0 <-. by left. }
    assert (forall f r', only n r r' -> is_Some (entries (statuses r') !! n) -> only n r (markFailed n f r') /\
      in_status (markFailed n f r') n (fun s => s = StatusFailed \/ s = StatusInitialized /\ n ∈ [n])) as Hfail.
    { intros f r' Ho Hr'. split; [etrans; [exact Ho|apply only_update]|]. apply in_status_update; [done|]. intros e. split; [by left|]. by eexists. }
    assert (forall f, exists inits', CalledInit <$> inits = CalledInit <$> inits' /\ inits' `sublist_of` seen ++ [n] /\ at_stage r0 (inited_stage r0 inits' (seen ++ [n])) (markFailed n f r)) as Hskip.
    { intros f. destruct (Hdone (markFailed n f r) []) as (i&H1&H2); [apply only_update|apply sublist_nil_l| |exists i; by rewrite app_nil_r in H1].
      apply in_status_update; [done|]. intros e. split; [by left|]. by eexists. }
    apply wp_bind. unfold ensureDataDir. split; cbn [wp]; unfold on_reg, called; cbn [b_reg b_calls]; [|apply Hskip].
    destruct (plugin_named r n) as [p|] eqn:Epl; cbn [wp]; unfold on_reg; cbn [b_reg b_calls]; [|apply Hskip].
    apply wp_bind. unfold safe. apply wp_bind, wp_of_runs. intros fs. destruct (run (p_Init p) fs d0) as [[u|e|w] d1]; cbn [fst snd wp b_reg b_calls].
    + apply (Hdone _ [n]); [etrans; [apply only_collect|apply only_update]|done|]. apply in_status_update.
      * by apply (only_collect n p r).
      * intros e. split; [right; split; [done|by left]|done].
    + apply (Hdone _ [n]); [apply only_update|done|]. apply Hfail; [reflexivity|done].
    + apply (Hdone _ [n]); [apply only_update|done|]. apply Hfail; [reflexivity|done].
Qed.

Lemma start_phase r0 d inits : fresh r0 -> forall r, at_stage r0 (inited_stage r0 inits (Enabled r0)) r -> forall calls,
  wp (phase start_plugin (Enabled r0) (mkBoot r calls)) (fun b _ => exists starts, b_calls b = calls ++ (CalledStart <$> starts) /\
    starts `sublist_of` filter (has_lifecycle r0) (Enabled r0) /\ Forall (fun n => n ∈ inits) starts /\ at_stage r0 (started_stage r0 inits starts (Enabled r0)) (b_reg b)) d.
Proof.
  intros (Hnd&Hp&_) r Hr calls. apply (wp_phase start_plugin (fun seen b => exists starts, b_calls b = calls ++ (CalledStart <$> starts) /\
    starts `sublist_of` filter (has_lifecycle r0) seen /\ Forall (fun n => n ∈ inits) starts /\ at_stage r0 (started_stage r0 inits starts seen) (b_reg b)) (Enabled r0) []).
  - by apply NoDup_filter.
  - exists []. split_and!; [by rewrite app_nil_r|apply sublist_nil_l|by constructor|]. split; [apply Hr|]. intros n Hn. unfold started_stage. exact (proj2 Hr n Hn).
  - clear r Hr. intros seen n [r calls'] d0 Hseen Hn (starts&E&Hsub&Hall&Hst). cbn [b_calls] in E. subst calls'. pose proof Hn as [Hord Hen]%enabled_spec.
    pose proof (in_status_some _ _ _ (proj2 Hst n Hord)) as Hsome. cbn [b_reg] in Hsome, Hst.
    assert (forall r' more, only n r r' -> more `sublist_of` filter (has_lifecycle r0) [n] -> Forall (fun n => n ∈ inits) more -> in_status r' n (fun s => s = StatusFailed \/ s = StatusStarted /\ n ∈ inits /\ (has_lifecycle r0 n -> n ∈ more)) ->
      exists starts', (calls ++ (CalledStart <$> starts)) ++ (CalledStart <$> more) = calls ++ (CalledStart <$> starts') /\ starts' `sublist_of` filter (has_lifecycle r0) (seen ++ [n]) /\ Forall (fun n => n ∈ inits) starts' /\
        at_stage r0 (started_stage r0 inits starts' (seen ++ [n])) r') as Hdone.
    { intros r' more Ho Hm Hmi Hn'. exists (starts ++ more). split; [by rewrite fmap_app, app_assoc|]. split; [rewrite filter_app; by apply sublist_app|].
      split; [by apply Forall_app|]. eapply stage_step; [exact Hst|exact Ho| |].
      - eapply in_status_weaken; [|exact Hn']. intros s0 H. unfold started_stage. rewrite decide_True by (apply elem_of_app; right; by left).
        destruct H as [->|(->&H1&H2)]; [by left|right; split_and!; [done|done|]]. intros Hl. apply elem_of_app. right. by apply H2.
      - intros m s0 Hne H. unfold started_stage in *. destruct (decide (m ∈ seen)).
        + rewrite decide_True by (by apply elem_of_app; left). destruct H as [->|(->&H1&H2)]; [by left|right; split_and!; [done|done|]]. intros Hl. apply elem_of_app. left. by apply H2.
        + rewrite decide_False; [done|]. by intros [?| ->%list_elem_of_singleton]%elem_of_app. }
    unfold start_plugin. cbn [b_reg]. destruct (failed r n) eqn:Ef.
    { cbn [wp b_reg b_calls]. destruct (Hdone r []) as (i&H1&H2); [reflexivity|apply sublist_nil_l|constructor| |exists i; by rewrite app_nil_r in H1].
      eapply in_status_weaken; [|apply (failed_iff r n _ (proj2 Hst n Hord)), Ef]. intros s0 <-. by left. }
    assert (n ∈ inits) as Hin.
    { destruct (proj2 Hst n Hord) as (e&He&H1&H2). unfold started_stage, inited_stage in H1. rewrite decide_False, decide_True in H1 by done. destruct H1 as [H1|[_ H1]]; [|done].
      assert (failed r n = true) as Ht; [|congruence]. unfold failed, status_Get. rewrite He. by apply bool_decide_eq_true. }
    assert (lifecycle_of r0 n = has (plugin_named r n ≫= p_Lifecycle)) as El.
    { unfold lifecycle_of, plugin_named. destruct Hst as [(P&_)_]. by rewrite P. }
    destruct (plugin_named r n ≫= p_Lifecycle) as [[start stop]|] eqn:Epl.
    + assert (has_lifecycle r0 n) as Hl by (unfold has_lifecycle; by rewrite El).
      assert ([n] `sublist_of` filter (has_lifecycle r0) [n]) as Hsub1 by (rewrite filter_cons, decide_True by done; done).
      apply wp_bind. unfold safe. apply wp_bind, wp_of_runs. intros fs. destruct (run start fs d0) as [[u|e|w] d1]; cbn [fst snd wp]; unfold called, on_reg; cbn [b_reg b_calls].
      * unfold started, on_reg. cbn [wp b_reg b_calls]. apply (Hdone _ [n]); [apply only_update|done|by repeat constructor|]. apply in_status_update; [done|].
        intros e. split; [right; split_and!; [done|done|intros _; by left]|done].
      * apply (Hdone _ [n]); [apply only_update|done|by repeat constructor|]. apply in_status_update; [done|]. intros e'. split; [by left|by eexists].
      * apply (Hdone _ [n]); [apply only_update|done|by repeat constructor|]. apply in_status_update; [done|]. intros e'. split; [by left|by eexists].
    + unfold started, on_reg. cbn [wp b_reg b_calls].
      destruct (Hdone (update_status n (with_started (now d0)) r) []) as (i&H1&H2); [apply only_update|apply sublist_nil_l|constructor| |exists i; by rewrite app_nil_r in H1].
      apply in_status_update; [done|]. intros e. split; [right; split_and!; [done|done|]|done]. unfold has_lifecycle. by rewrite El.
Qed.

(** C34. Boot: whatever migrations, database, directories and plugins do, errors
    and panics included, every enabled plugin ends as started or as failed with
    an error, and the others stay disabled and are never called.  All calls of
    Init come first and those of Start after them, each in the order of
    registration and at most once per plugin; only what was initialised is
    started, and everything else but a started plugin has its error on record. *)
Theorem boot_order (ps : list Plugin) (cfg : option FileConfig) (r : Registry) (d : plugin_db)
  (Hnew : NewRegistry ps cfg = inr r) :
  wp (InitAll r) (fun b _ => exists inits starts,
    b_calls b = (CalledInit <$> inits) ++ (CalledStart <$> starts) /\
    (inits `sublist_of` Enabled r) /\ (starts `sublist_of` filter (has_lifecycle r) (Enabled r)) /\ Forall (fun n => n ∈ inits) starts /\
    same_plugins r (b_reg b) /\
    forall n, n ∈ order r -> in_status (b_reg b) n (fun s =>
      if is_enabled r n then s = StatusFailed \/ s = StatusStarted /\ n ∈ inits /\ (has_lifecycle r n -> n ∈ starts)
      else s = StatusDisabled /\ (n ∉ inits) /\ (n ∉ starts))) d.
Proof.
  pose proof (new_registry_fresh ps cfg r Hnew) as Hf. unfold InitAll. cbn [b_reg]. apply wp_bind. eapply wp_mono; [|by apply migrate_phase].
  intros [r1 c1] d1 [E1 H1]. cbn [b_calls b_reg] in E1, H1 |- *. subst c1. rewrite (same_Enabled r r1) by apply H1. apply wp_bind. eapply wp_mono; [|by apply init_phase].
  intros [r2 c2] d2 (inits&E2&Hi&H2). cbn [b_calls b_reg] in E2, H2 |- *. subst c2. rewrite (same_Enabled r r2) by apply H2. eapply wp_mono; [|by apply start_phase].
  intros [r3 c3] d3 (starts&E3&Hs&Hall&H3). cbn [b_calls b_reg] in E3, H3 |- *. subst c3. exists inits, starts. split_and!; try done; [apply H3..|].
  intros n Hn. eapply in_status_weaken; [|apply H3, Hn]. intros s Hst. unfold started_stage, inited_stage, migrated_stage, fresh_status in Hst.
  destruct (is_enabled r n) eqn:Een.
  - rewrite decide_True in Hst by (by apply enabled_spec). done.
  - assert (n ∉ Enabled r) as Hne by (intros [_ H]%enabled_spec; congruence). rewrite !decide_False in Hst by done. split_and!; [done| |].
    + intros H. apply Hne. by eapply elem_of_sublist.
    + intros H. apply Hne. eapply elem_of_sublist in H; [|exact Hs]. by apply list_elem_of_filter in H as [_ ?].
Qed.
End Boot.

(** ** Configuration *)
Lemma obj_get_set_same {A} k (v : A) ms : obj_get k (obj_set k v ms) = Some v.
Proof.
  induction ms as [|[k' v'] ms IH]; cbn [obj_set obj_get]; [by rewrite String.eqb_refl|]. destruct (String.compare k k') eqn:E; cbn [obj_get]; rewrite ?String.eqb_refl; [done..|].
  destruct (String.eqb_spec k k') as [->|]; [|exact IH]. pose proof (String.compare_antisym k' k') as H. by rewrite E in H.
Qed.
Lemma obj_get_set_other {A} k k2 (v : A) ms : k2 <> k -> obj_get k2 (obj_set k v ms) = obj_get k2 ms.
Proof.
  intros Hne. assert (String.eqb k2 k = false) as Ef by by apply String.eqb_neq. induction ms as [|[k' v'] ms IH]; cbn [obj_set obj_get]; [by rewrite Ef|].
  destruct (String.compare k k') eqn:E; cbn [obj_get]; rewrite ?Ef; [|done|by rewrite IH]. apply String.compare_eq_iff in E. subst k'. by rewrite Ef.
Qed.
Lemma obj_get_lookup {A B} (f : A -> B) (ms : list (string * A)) k : (list_to_map (prod_map id f <$> ms) : gmap string B) !! k = f <$> obj_get k ms.
Proof.
  induction ms as [|[k' v] ms IH]; [apply lookup_empty|]. rewrite fmap_cons. change (prod_map id f (k', v)) with (k', f v). rewrite list_to_map_cons. cbn [obj_get].
  destruct (String.eqb_spec k k') as [->|Hne]; [by rewrite lookup_insert, decide_True|]. rewrite lookup_insert_ne by done. exact IH.
Qed.

(** A document whose plugins section and whose entry of the plugin, where there
    are any, have text keys only. *)
Definition text_keys (o : option yaml) : Prop := match o with Some (YMap _) | None => True | _ => False end.
Definition plain_config (raw : list (string * yaml)) (name : string) : Prop :=
  text_keys (obj_get "plugins" raw) /\ text_keys (obj_get name (as_map (obj_get "plugins" raw))).

(** Enabling a plugin survives saving: in a configuration that was loaded,
    switching a plugin changes the same thing in what the process uses and in
    what it writes back, so that loading the written document gives the
    configuration in use; the other plugins, the settings of this one and all
    other sections stay. *)
Theorem set_enabled_roundtrip (raw : list (string * yaml)) (name : string) (enabled : bool) (Hplain : plain_config raw name) :
  let c := SetEnabled name enabled (decode_config raw) in
  cfg_Plugins (decode_config (rawRoot c)) = cfg_Plugins c /\ IsEnabled (Some c) name = enabled /\
  cfg_Config <$> cfg_Plugins c !! name = Some (default [] (cfg_Config <$> cfg_Plugins (decode_config raw) !! name)) /\
  (forall n, n <> name -> cfg_Plugins c !! n = cfg_Plugins (decode_config raw) !! n) /\
  (forall k, k <> "plugins" -> obj_get k (rawRoot c) = obj_get k raw).
Proof.
  destruct Hplain as [H1 H2]. cbv zeta. set (pr := as_map (obj_get "plugins" raw)) in *.
  assert (cfg_Plugins (decode_config raw) = list_to_map (prod_map id plugin_config <$> pr)) as E0.
  { unfold decode_config, pr. cbn [cfg_Plugins]. destruct (obj_get "plugins" raw) as [[]|]; done. }
  assert (forall n, cfg_Plugins (decode_config raw) !! n = plugin_config <$> obj_get n pr) as El by (intros n; rewrite E0; apply obj_get_lookup).
  unfold SetEnabled. cbn [rawRoot cfg_Plugins decode_config]. fold pr.
  split; [|split_and!].
  - apply map_eq. intros n. rewrite obj_get_set_same. cbn [coerceStringKeyed]. rewrite obj_get_lookup.
    change (match obj_get "plugins" raw with Some v => list_to_map (prod_map id plugin_config <$> coerceStringKeyed v) | None => ∅ end) with (cfg_Plugins (decode_config raw)).
    destruct (decide (n = name)) as [->|Hne].
    + rewrite obj_get_set_same, lookup_insert, decide_True by done. cbn [fmap option_fmap option_map]. f_equal. unfold plugin_config at 1. cbn [coerceStringKeyed].
      rewrite obj_get_set_same, obj_get_set_other by done. rewrite El. destruct (obj_get name pr) as [[]|]; done.
    + rewrite obj_get_set_other, lookup_insert_ne by done. by rewrite El.
  - cbn. by rewrite lookup_insert, decide_True.
  - cbn. rewrite lookup_insert, decide_True by done. cbn. by destruct (_ !! name).
  - intros n Hne. cbn. by rewrite lookup_insert_ne.
  - intros k Hk. by apply obj_get_set_other.
Qed.

(** ** Runs of the plugin framework

    Witnesses of its theorems, and runs that show where it does less than its
    documentation says. *)

Module PluginRuns.
#[local] Existing Instance AuthRuns.sha.
(** A database that remembers the SQL it ran. *)
#[local] Instance texts : PluginSQL := {| schema := list string; exec_sql := fun s l => if String.eqb s "BAD" then None else Some (l ++ [s]) |}.
#[local] Instance host : HostFactory := {| host_DB := fun _ => true |}.
Abbreviation PG B := (prog plugin_db (outcome plugin_error B)).

Definition empty_plugin_db : plugin_db := mkPluginDb 1 ∅ [].
Definition works : PG unit := Ret (Ok tt).
Definition breaks : PG unit := Ret (Err (EPluginOwn "broken")).
Definition explodes : PG unit := Ret (Panic "nil map").
Definition bare (name : string) (init : PG unit) (tools : list string) (lifecycle : option (PG unit * PG unit)) : Plugin :=
  mkPlugin name "1.0.0" None init None (Some ((fun t => mkMCPTool t (fun _ => Ret (Ok EmptyString))) <$> tools)) None None None None false false lifecycle false.

(** ** Migrations *)
Definition second : Migration := mkMigration 2 "002_index" "CREATE INDEX i ON plugin_wiki_pages (title)".
Definition first : Migration := mkMigration 1 "001_initial" "create table if not exists plugin_wiki_pages (id, title)".
Definition wiki : Plugin := mkPlugin "wiki" "1.0.0" None works (Some [second; first]) None None None None None false false None false.
Lemma wiki_valid : migrations_valid wiki [second; first].
Proof. split; [done|]. split; [|by vm_compute]. vm_compute. constructor; [|apply NoDup_singleton]. by intros H%list_elem_of_singleton. Qed.

Lemma migrations_resume_witness :
  let d' := (attempt wiki (7, []) (retry wiki [(2, [false; false; false; true]); (5, [true])] empty_plugin_db)).2 in
  built (retry wiki [(2, [false; false; false; true])] empty_plugin_db) = [SQL first] /\
  built d' = [SQL first; SQL second] /\ core_of (attempt wiki (9, []) d').2 = core_of d'.
Proof.
  intros d'. split; [by vm_compute|]. split; [by vm_compute|].
  assert (immutable "wiki" (core_of empty_plugin_db) [second; first]) as Hi by (intros m sum _ H; by vm_compute in H).
  assert (attempt wiki (7, []) (retry wiki [(2, [false; false; false; true]); (5, [true])] empty_plugin_db) = (Ok [2], d')) as Hs.
  { rewrite (surjective_pairing (attempt _ _ _)). unfold d'. f_equal. }
  destruct (migrations_resume wiki [second; first] empty_plugin_db [(2, [false; false; false; true]); (5, [true])] (7, []) [2] d' wiki_valid Hi Hs) as (_&_&_&H).
  apply (H (9, [])).
Defined.

(** The check sees neither quoted names nor DROP and ALTER, which its comment
    names. *)
Theorem foreign_tables_pass :
  (fun sql => validateMigrationSQL "wiki" (mkMigration 1 "m" sql)) <$> ["CREATE TABLE users (id)"; "CREATE TABLE `users` (id)"; "ALTER TABLE users ADD x"; "DROP TABLE users"] =
  [Some (ETablePrefix "users"); None; None; None].
Proof. by vm_compute. Qed.

(** The prefix of one plugin may start with that of another: wiki may create the
    tables of wiki_x. *)
Theorem prefixes_overlap :
  validateMigrationSQL "wiki" (mkMigration 1 "m" "CREATE TABLE plugin_wiki_x_pages (id)") = None /\
  validateMigrationSQL "wiki_x" (mkMigration 1 "m" "CREATE TABLE plugin_wiki_x_pages (id)") = None.
Proof. by vm_compute. Qed.

(** ** Boot *)
Definition on (names : list string) : FileConfig := mkFileConfig (list_to_map ((fun n => (n, mkPluginConfig true [])) <$> names)) [].
Definition boot_of (ps : list Plugin) (names : list string) : option boot :=
  match NewRegistry ps (Some (on names)) with inr r => Some (run_ok (InitAll r) empty_plugin_db).1 | inl _ => None end.
Definition shown (b : boot) : list (string * Status) := prod_map id se_Status <$> status_All (statuses (b_reg b)).

Definition three : list Plugin := [bare "alpha" works [] (Some (works, works)); bare "beta" explodes [] (Some (works, works)); bare "gamma" works [] None; bare "delta" works [] None].
Definition three_cfg : option FileConfig := Some (on ["alpha"; "beta"; "gamma"]).
Definition three_registry : Registry := match NewRegistry three three_cfg with inr r => r | inl _ => empty_registry end.
Lemma boot_order_witness :
  let b := (run_ok (InitAll three_registry) empty_plugin_db).1 in
  shown b = [("alpha", StatusStarted); ("beta", StatusFailed); ("gamma", StatusStarted); ("delta", StatusDisabled)] /\
  b_calls b = [CalledInit "alpha"; CalledInit "beta"; CalledInit "gamma"; CalledStart "alpha"] /\ same_plugins three_registry (b_reg b).
Proof.
  intros b. split; [by vm_compute|]. split; [by vm_compute|].
  assert (NewRegistry three three_cfg = inr three_registry) as Hr by (vm_compute; reflexivity).
  pose proof (wp_run_ok _ _ _ (boot_order three three_cfg three_registry empty_plugin_db Hr)) as (inits&starts&_&_&_&_&Hp&_). exact Hp.
Defined.

(** A tool that exists already is recorded as a failure of the plugin, and then
    overwritten: the plugin is shown as started, with the error. *)
Theorem duplicate_tool_starts :
  (fun b => prod_map id (fun e => (se_Status e, ErrorMessage e)) <$> status_All (statuses (b_reg b))) <$> boot_of [bare "alpha" works ["t"] None; bare "beta" works ["t"] None] ["alpha"; "beta"] =
  Some [("alpha", (StatusStarted, None)); ("beta", (StatusStarted, Some (DuplicateTool "t")))].
Proof. by vm_compute. Qed.

(** Shutdown is called on plugins that never started, and hides that they
    failed. *)
Theorem shutdown_of_failed :
  (fun b => let b' := (run_ok (ShutdownAll b) empty_plugin_db).1 in (b_calls b', shown b')) <$> boot_of [bare "alpha" breaks [] (Some (works, works))] ["alpha"] =
  Some ([CalledInit "alpha"; CalledShutdown "alpha"], [("alpha", StatusStopped)]).
Proof. by vm_compute. Qed.

(** ** Events: a cancellation removes whatever is at its index by now. *)
Definition subscriber_of (name : string) : subscriber (D := unit) (E := string) (Event := string) := fun _ => Ret (Err name).
Theorem cancel_removes_another :
  let '(b1, c1) := Subscribe "topic" (subscriber_of "first") ∅ in
  let '(b2, c2) := Subscribe "topic" (subscriber_of "second") b1 in
  let '(b3, c3) := Subscribe "topic" (subscriber_of "third") b2 in
  (run_ok (Publish id "panic" "topic" b3) tt).1 = ["first"; "second"; "third"] /\
  (run_ok (Publish id "panic" "topic" (cancel c2 (cancel c1 b3))) tt).1 = ["second"].
Proof. by vm_compute. Qed.

(** ** Configuration *)
Definition a_config : list (string * yaml) :=
  [("log", YOther); ("plugins", YMap [("demo", YMap [("config", YMap [("a", YOther)]); ("enabled", YBool false)]); ("wiki", YMap [("enabled", YBool true)])])].
Lemma set_enabled_roundtrip_witness :
  plain_config a_config "demo" /\ IsEnabled (Some (decode_config (rawRoot (SetEnabled "demo" true (decode_config a_config))))) "demo" = true /\
  obj_get "log" (rawRoot (SetEnabled "demo" true (decode_config a_config))) = Some YOther.
Proof.
  assert (plain_config a_config "demo") as Hp by by split. split; [exact Hp|]. split; [by vm_compute|].
  destruct (set_enabled_roundtrip a_config "demo" true Hp) as (_&_&_&_&H). by apply (H "log").
Defined.

(** One key of the section that is no text, and enabling a plugin drops all the
    others from the written file. *)
Theorem set_enabled_drops_others :
  let raw := [("plugins", YAnyMap [(Some "wiki", YMap [("enabled", YBool true)]); (None, YOther)])] in
  let c := SetEnabled "demo" true (decode_config raw) in
  IsEnabled (Some c) "wiki" = true /\ IsEnabled (Some (decode_config (rawRoot c))) "wiki" = false.
Proof. by vm_compute. Qed.
End PluginRuns.
