(* ===== verification/Secrets.v ===== *)
(** * Secrets (internal/secrets: types.go, store.go, injector.go)

    Encrypted values with a scope, in a state of their own together with the
    file of the master key.  NaCl's secretbox and the random source are an
    interface. *)
From S2P Require Import Prelude Prog Table Messaging.

Inductive secret_error := ESecretsDb | ESecretNotFound | EAlreadyRevoked | EInvalidName | EMasterKey | EScopeType (t : string) | ESecretRandom
  | ECipherShort | EDecryption | EStoreArgs.

(** ** Rows (types.go) *)
Definition ScopeUser : string := "user".
Definition ScopeAgent : string := "agent".
Definition ScopeTask : string := "task".

(** A row of the table; [Secret] is a row without its value. *)
Record secret_row := mkSecretRow {
  Sec_ID : Z;
  Sec_Name : string;
  ScopeType : string;
  ScopeID : Z;
  value_blob : string;
  Sec_CreatedBy : Z;
  Sec_CreatedAt : Z;
  Sec_RevokedAt : option Z;
  Sec_LastUsedAt : option Z
}.
#[export] Instance secret_row_row : Row secret_row := Sec_ID.
Record Secret := mkSecret {
  s_ID : Z; s_Name : string; s_ScopeType : string; s_ScopeID : Z; s_CreatedBy : Z; s_CreatedAt : Z; s_RevokedAt : option Z; s_LastUsedAt : option Z
}.
Record Info := mkInfo { i_Name : string; i_ScopeType : string; i_ScopeID : Z; Available : bool; i_LastUsedAt : option Z }.
Record Scope := mkScope { sc_Type : string; sc_ID : Z }.

Record secrets_db := mkSecretsDb { now : Z; key_file : option string; secrets : table secret_row }.
Definition set_secrets v (d : secrets_db) : secrets_db := mkSecretsDb (now d) (key_file d) v.
Definition set_key_file v (d : secrets_db) : secrets_db := mkSecretsDb (now d) v (secrets d).
Abbreviation X B := (prog secrets_db (outcome secret_error B)).

(** [crypto/rand] and NaCl's secretbox: a sealed text is 16 bytes longer, and
    the same nonce and key open it. *)
Class SecretBox := {
  rand_read : nat -> X string;
  Seal : string -> string -> string -> string;              (** text, nonce, key *)
  Open_box : string -> string -> string -> option string;
  rand_read_frame : forall n, within eq (rand_read n);
  rand_read_length : forall n d, wp (rand_read n) (fun o _ => forall b, o = Ok b -> String.length b = n) d;
  Open_Seal : forall p n k, Open_box (Seal p n k) n k = Some p;
  Seal_length : forall p n k, String.length (Seal p n k) = (String.length p + 16)%nat
}.

(** ** Names and scopes (store.go) *)

(** [strings.ToUpper], then only capitals, digits and underscores: of the
    letters outside ASCII two have an ASCII capital, U+0131 and U+017F. *)
Definition name_byte (n : nat) : bool := ((65 <=? n) && (n <=? 90))%nat || ((48 <=? n) && (n <=? 57))%nat || (n =? 95)%nat.
Fixpoint upper_name (s : string) : option string :=
  match s with
  | EmptyString => Some EmptyString
  | String a r =>
      let n := Ascii.nat_of_ascii a in
      if ((97 <=? n) && (n <=? 122))%nat then String (Ascii.ascii_of_nat (n - 32)) <$> upper_name r
      else if name_byte n then String a <$> upper_name r
      else match r with
           | String b r2 =>
               if bool_decide (n = 196 /\ Ascii.nat_of_ascii b = 177)%nat then String (Ascii.ascii_of_nat 73) <$> upper_name r2
               else if bool_decide (n = 197 /\ Ascii.nat_of_ascii b = 191)%nat then String (Ascii.ascii_of_nat 83) <$> upper_name r2
               else None
           | EmptyString => None
           end
  end.
Definition sanitizeName (raw : string) : option string := if str_empty raw then None else upper_name raw.
Definition validScope (t : string) : bool := String.eqb t ScopeUser || String.eqb t ScopeAgent || String.eqb t ScopeTask.

Section Store.
Context {HEng : Engine} {HBox : SecretBox}.

(** ** The master key *)
Definition keySize : nat := 32.
Definition nonceSize : nat := 24.
Definition Overhead : nat := 16.

Definition loadOrCreateMasterKey : X string :=
  let? _ := exec EMasterKey (fun d => d) (fun _ => tt) in   (* the directory *)
  let? data := query EMasterKey key_file in
  match data with
  | Some key => if negb (String.length key =? keySize)%nat then Ret (Err EMasterKey) else Ret (Ok key)
  | None =>
      let! buf := rand_read keySize in
      match buf with
      | Ok buf => let? _ := exec EMasterKey (set_key_file (Some buf)) (fun _ => tt) in Ret (Ok buf)
      | Err _ => Ret (Err EMasterKey)
      | Panic w => Ret (Panic w)
      end
  end.
Definition NewStore (has_db : bool) (dataDir : string) : X string :=
  if negb has_db then Ret (Err EStoreArgs) else if str_empty dataDir then Ret (Err EStoreArgs) else loadOrCreateMasterKey.

Context (masterKey : string).

Definition encrypt (plain : string) : X string :=
  let! nonce := rand_read nonceSize in
  Ret (match nonce with Ok n => Ok (n +:+ Seal plain n masterKey) | Err _ => Err ESecretRandom | Panic w => Panic w end).
Definition decrypt (blob : string) : outcome secret_error string :=
  if (String.length blob <? nonceSize + Overhead)%nat then Err ECipherShort
  else match Open_box (String.substring nonceSize (String.length blob - nonceSize) blob) (String.substring 0 nonceSize blob) masterKey with
       | Some plain => Ok plain
       | None => Err EDecryption
       end.

(** ** Operations *)
Definition active_secret (name scopeType : string) (scopeID : Z) (r : secret_row) : bool :=
  String.eqb (Sec_Name r) name && String.eqb (ScopeType r) scopeType && (ScopeID r =? scopeID) && bool_decide (Sec_RevokedAt r = None).
Definition with_revocation (t : Z) (r : secret_row) : secret_row :=
  mkSecretRow (Sec_ID r) (Sec_Name r) (ScopeType r) (ScopeID r) (value_blob r) (Sec_CreatedBy r) (Sec_CreatedAt r) (Some t) (Sec_LastUsedAt r).
Definition with_use (t : Z) (r : secret_row) : secret_row :=
  mkSecretRow (Sec_ID r) (Sec_Name r) (ScopeType r) (ScopeID r) (value_blob r) (Sec_CreatedBy r) (Sec_CreatedAt r) (Sec_RevokedAt r) (Some t).
Definition public_secret (r : secret_row) : Secret :=
  mkSecret (Sec_ID r) (Sec_Name r) (ScopeType r) (ScopeID r) (Sec_CreatedBy r) (Sec_CreatedAt r) (Sec_RevokedAt r) (Sec_LastUsedAt r).

(** The transaction of [Set]: the active row, if any, is revoked first, so the
    unique index holds. *)
Definition replace_secret (name scopeType : string) (scopeID createdBy : Z) (blob : string) (d : secrets_db) : secrets_db :=
  set_secrets (insert_row (fun id => mkSecretRow id name scopeType scopeID blob createdBy (now d) None None)
                 (update_rows (active_secret name scopeType scopeID) (with_revocation (now d)) (secrets d))) d.
Definition Set_secret (name scopeType : string) (scopeID createdBy : Z) (value : string) : X Secret :=
  match sanitizeName name with
  | None => Ret (Err EInvalidName)
  | Some clean =>
      if negb (validScope scopeType) then Ret (Err (EScopeType scopeType))
      else
        let? blob := encrypt value in
        let? id := exec ESecretsDb (replace_secret clean scopeType scopeID createdBy blob) (fun d => next_id (secrets d)) in
        query_o ESecretsDb (fun d => match find_id id (secrets d) with Some r => Ok (public_secret r) | None => Err ESecretNotFound end)
  end.

Definition Get (name scopeType : string) (scopeID : Z) : X string :=
  match sanitizeName name with
  | None => Ret (Err EInvalidName)
  | Some clean =>
      if negb (validScope scopeType) then Ret (Err (EScopeType scopeType))
      else
        let? blob := query_o ESecretsDb (fun d => match find_row (active_secret clean scopeType scopeID) (secrets d) with
                                                  | Some r => Ok (value_blob r)
                                                  | None => Err ESecretNotFound
                                                  end) in
        Ret (decrypt blob)
  end.

Definition in_scope (scopes : list Scope) (r : secret_row) : bool :=
  bool_decide (Sec_RevokedAt r = None) && existsb (fun s => String.eqb (ScopeType r) (sc_Type s) && (ScopeID r =? sc_ID s)) scopes.
(** ORDER BY scope_type, scope_id, name. *)
Definition listing_le (a b : secret_row) : Prop :=
  if String.eqb (ScopeType a) (ScopeType b)
  then if ScopeID a =? ScopeID b then str_le (Sec_Name a) (Sec_Name b) else ScopeID a < ScopeID b
  else str_le (ScopeType a) (ScopeType b).
#[export] Instance listing_le_dec a b : Decision (listing_le a b).
Proof. unfold listing_le. destruct (String.eqb (ScopeType a) (ScopeType b)), (ScopeID a =? ScopeID b); apply _. Defined.
Definition secret_info (r : secret_row) : Info := mkInfo (Sec_Name r) (ScopeType r) (ScopeID r) true (Sec_LastUsedAt r).
Definition List_secrets (scopes : list Scope) : X (list Info) :=
  match scopes with
  | [] => Ret (Ok [])
  | _ => match find (fun s => negb (validScope (sc_Type s))) scopes with
         | Some s => Ret (Err (EScopeType (sc_Type s)))
         | None => query ESecretsDb (fun d => secret_info <$> select_by listing_le (in_scope scopes) (secrets d))
         end
  end.

(** The UPDATE does not repeat the condition. *)
Definition Revoke (id : Z) : X unit :=
  let? revokedAt := query_o ESecretsDb (fun d => match find_id id (secrets d) with Some r => Ok (Sec_RevokedAt r) | None => Err ESecretNotFound end) in
  match revokedAt with
  | Some _ => Ret (Err EAlreadyRevoked)
  | None => exec ESecretsDb (fun d => set_secrets (update_rows (by_id id) (with_revocation (now d)) (secrets d)) d) (fun _ => tt)
  end.

(** ** The environment of a process (injector.go) *)
Record winner := mkWinner { w_id : Z; w_precedence : Z; w_value : string }.
Definition precedence (scopeType : string) : option Z :=
  if String.eqb scopeType ScopeUser then Some 1
  else if String.eqb scopeType ScopeAgent then Some 2
  else if String.eqb scopeType ScopeTask then Some 3
  else None.
Definition env_scopes (userID agentID taskID : Z) : list Scope :=
  (if 0 <? userID then [mkScope ScopeUser userID] else []) ++ (if 0 <? agentID then [mkScope ScopeAgent agentID] else []) ++
  (if 0 <? taskID then [mkScope ScopeTask taskID] else []).

(** The loop over the rows. *)
Fixpoint collect_env (l : list secret_row) (winners : gmap string winner) : outcome secret_error (gmap string winner) :=
  match l with
  | [] => Ok winners
  | r :: rest =>
      match precedence (ScopeType r) with
      | None => collect_env rest winners
      | Some prec =>
          let beaten := match winners !! Sec_Name r with Some e => prec <=? w_precedence e | None => false end in
          if beaten then collect_env rest winners
          else match decrypt (value_blob r) with
               | Ok plain => collect_env rest (<[Sec_Name r := mkWinner (Sec_ID r) prec plain]> winners)
               | Err e => Err e
               | Panic w => Panic w
               end
      end
  end.

(** A statement has at most 32766 variables. *)
Definition bumpLastUsed (ids : list Z) : X unit :=
  match ids with
  | [] => Ret (Ok tt)
  | _ => if 32766 <? Z.of_nat (length ids) then Ret (Err ESecretsDb) else exec ESecretsDb (fun d => set_secrets (update_rows (fun r => bool_decide (Sec_ID r ∈ ids)) (with_use (now d)) (secrets d)) d) (fun _ => tt)
  end.

Definition BuildEnvMap (userID agentID taskID : Z) : X (gmap string string) :=
  match env_scopes userID agentID taskID with
  | [] => Ret (Ok ∅)
  | scopes =>
      let? l := query ESecretsDb (fun d => scan (select (in_scope scopes) (secrets d))) in
      match collect_env l ∅ with
      | Ok winners =>
          let! _ := bumpLastUsed (w_id <$> (map_to_list winners).*2) in
          Ret (Ok (w_value <$> winners))
      | Err e => Ret (Err e)
      | Panic w => Ret (Panic w)
      end
  end.
End Store.
