(* ===== verification/SecretsSpec.v ===== *)
(** * What the secrets store guarantees

    [set_get]: what was set is what is read, until it is replaced or revoked, whatever else is
    done meanwhile.
    [env_map_exact]: the environment of a process is determined by the most
    specific scope of each name, whatever the order of the rows. *)
From S2P Require Import Prelude Prog Table Messaging Secrets.

Section Secrets.
Context {HEng : Engine} {HBox : SecretBox} (masterKey : string).

(** ** Sealing *)
Lemma substring_app_left a b : String.substring 0 (String.length a) (a +:+ b) = a.
Proof. induction a as [|c a IH]; [by destruct b|]. change (String c (String.substring 0 (String.length a) (a +:+ b)) = String c a). by rewrite IH. Qed.
Lemma substring_all s : String.substring 0 (String.length s) s = s.
Proof. induction s as [|c s IH]; [done|]. change (String c (String.substring 0 (String.length s) s) = String c s). by rewrite IH. Qed.
Lemma substring_app_right a b : String.substring (String.length a) (String.length b) (a +:+ b) = b.
Proof. induction a as [|c a IH]; [apply substring_all|exact IH]. Qed.
Lemma string_app_length a b : String.length (a +:+ b) = (String.length a + String.length b)%nat.
Proof. induction a as [|c a IH]; [done|]. change (S (String.length (a +:+ b)) = S (String.length a + String.length b)). by rewrite IH. Qed.

Lemma decrypt_sealed nonce plain : String.length nonce = nonceSize -> decrypt masterKey (nonce +:+ Seal plain nonce masterKey) = Ok plain.
Proof.
  intros Hn. unfold decrypt. rewrite string_app_length, Seal_length. rewrite (proj2 (Nat.ltb_ge _ _)) by (unfold Overhead; lia). rewrite <- Hn.
  replace (String.length nonce + (String.length plain + 16) - String.length nonce)%nat with (String.length (Seal plain nonce masterKey)) by (rewrite Seal_length; lia).
  rewrite substring_app_right, substring_app_left, Open_Seal. done.
Qed.

(** What [encrypt] answers opens again. *)
Lemma encrypt_ok plain d : wp (encrypt masterKey plain) (fun o d' => d' = d /\ forall blob, o = Ok blob -> decrypt masterKey blob = Ok plain) d.
Proof.
  unfold encrypt. apply wp_bind. eapply wp_mono; [|apply wp_and; [apply (within_wp eq), rand_read_frame|apply rand_read_length]].
  intros o d' [<- H]. cbn [wp]. split; [done|]. intros blob Hb. destruct o as [n|e|w]; [|done..]. injection Hb as <-. apply decrypt_sealed. by apply H.
Qed.

(** ** The table *)
Definition secret_key (r : secret_row) : string * string * Z := (ScopeType r, Sec_Name r, ScopeID r).
Definition one_active (t : table secret_row) : Prop := NoDup (secret_key <$> select (fun r => bool_decide (Sec_RevokedAt r = None)) t).
Definition secrets_ok (d : secrets_db) : Prop :=
  table_ok (secrets d) /\ one_active (secrets d) /\ forall r, r ∈ rows (secrets d) -> validScope (ScopeType r) = true.

Lemma active_key name st id r : active_secret name st id r = true <-> Sec_RevokedAt r = None /\ secret_key r = (st, name, id).
Proof.
  unfold active_secret, secret_key. rewrite !andb_true_iff, !String.eqb_eq, Z.eqb_eq, bool_decide_eq_true. split; [intros [[[-> ->] ->] ->]; done|intros [-> [= -> -> ->]]; done].
Qed.
Lemma active_unique d r1 r2 : secrets_ok d -> r1 ∈ rows (secrets d) -> r2 ∈ rows (secrets d) -> Sec_RevokedAt r1 = None -> Sec_RevokedAt r2 = None ->
  secret_key r1 = secret_key r2 -> r1 = r2.
Proof.
  intros (_&Hone&_) H1 H2 E1 E2 Ek. eapply (NoDup_fmap_unique secret_key); [exact Hone| | |done]; apply elem_of_select; (split; [by apply bool_decide_eq_true|done]).
Qed.
Lemma find_active d name st id r : secrets_ok d -> r ∈ rows (secrets d) -> active_secret name st id r = true -> find_row (active_secret name st id) (secrets d) = Some r.
Proof.
  intros Hok Hr Ha. destruct (find_row_is_Some _ _ _ Hr Ha) as [r' E]. rewrite E. f_equal. apply find_row_Some in E as [Ha' Hr'].
  apply active_key in Ha as [? ?], Ha' as [? ?]. eapply active_unique; [exact Hok|..]; congruence.
Qed.

(** What revoking some rows and adding an active one of a free key leaves. *)
Lemma NoDup_fmap_sublist {A B} (f : A -> B) (l k : list A) : l `sublist_of` k -> NoDup (f <$> k) -> NoDup (f <$> l).
Proof. intros Hs Hn. eapply sublist_NoDup; [exact Hn|by apply fmap_sublist]. Qed.

Lemma revoke_active (p : secret_row -> bool) t l :
  select (fun r => bool_decide (Sec_RevokedAt r = None)) (mkTable (map_if p (with_revocation t) l) 0) =
  filter (fun r => p r = false) (select (fun r => bool_decide (Sec_RevokedAt r = None)) (mkTable l 0)).
Proof.
  unfold select. cbn [rows]. induction l as [|r l IH]; [done|]. unfold map_if in *. cbn [fmap list_fmap]. rewrite !filter_cons.
  destruct (p r) eqn:E.
  - rewrite decide_False by (by intros H%bool_decide_eq_true). rewrite IH. destruct (decide (bool_decide (Sec_RevokedAt r = None) = true)); [|done].
    rewrite filter_cons, decide_False by (rewrite E; done). done.
  - destruct (decide (bool_decide (Sec_RevokedAt r = None) = true)); [|exact IH]. rewrite filter_cons, decide_True by done. by rewrite IH.
Qed.
Lemma one_active_revoke p t tb : one_active tb -> one_active (update_rows p (with_revocation t) tb).
Proof.
  unfold one_active. intros H. change (select ?q (update_rows p (with_revocation t) tb)) with (select q (mkTable (map_if p (with_revocation t) (rows tb)) 0)).
  rewrite revoke_active. eapply NoDup_fmap_sublist; [apply sublist_filter|exact H].
Qed.

Definition secrets_step (d d' : secrets_db) : Prop := secrets_ok d -> secrets_ok d'.
Lemma replace_ok name st id by_ blob d : validScope st = true -> secrets_step d (replace_secret name st id by_ blob d).
Proof.
  intros Hst (H1&H2&H3). unfold replace_secret. set (tb := update_rows (active_secret name st id) (with_revocation (now d)) (secrets d)).
  assert (forall r, r ∈ rows tb -> validScope (ScopeType r) = true) as Hsc.
  { intros r (r0&Hr0&->)%elem_of_map_if. destruct (active_secret _ _ _ r0); exact (H3 r0 Hr0). }
  split_and!.
  - apply table_ok_insert; [done|]. by apply table_ok_update.
  - unfold one_active, select. cbn [secrets set_secrets insert_row rows]. rewrite filter_app, fmap_app. apply NoDup_app.
    rewrite filter_cons, decide_True by done. rewrite filter_nil. split_and!; [exact (one_active_revoke _ _ _ H2)| |apply NoDup_singleton].
    intros k Hk Hk'. apply list_elem_of_singleton in Hk'. subst k. apply list_elem_of_fmap in Hk as (r&Ek&Hr). apply list_elem_of_filter in Hr as [Hu%bool_decide_eq_true Hr].
    apply elem_of_map_if in Hr as (r0&Hr0&->). destruct (active_secret name st id r0) eqn:Ea; [done|]. cbn in Ek. 
    assert (active_secret name st id r0 = true); [|congruence]. apply active_key. by split.
  - intros r [Hr| ->%list_elem_of_singleton]%elem_of_app; [by apply Hsc|done].
Qed.

(** ** Reading *)
(** The sealed value of the active secret of a name and scope. *)
Definition value_of (d : secrets_db) (name st : string) (id : Z) : option string := value_blob <$> find_row (active_secret name st id) (secrets d).
Lemma get_run name clean st id d : sanitizeName name = Some clean -> validScope st = true ->
  run_ok (Get masterKey name st id) d = (match value_of d clean st id with Some blob => decrypt masterKey blob | None => Err ESecretNotFound end, d).
Proof. intros E1 E2. unfold Get, value_of. rewrite E1, E2. cbn [negb]. unfold query_o, exec_o. cbn. by destruct (find_row _ _). Qed.

Lemma value_replaced name st id by_ blob d : secrets_ok d -> validScope st = true -> value_of (replace_secret name st id by_ blob d) name st id = Some blob.
Proof.
  intros Hok Hst. pose proof (replace_ok name st id by_ blob d Hst Hok) as Hok'. unfold value_of.
  rewrite (find_active _ name st id (mkSecretRow (next_id (secrets d)) name st id blob by_ (now d) None None) Hok'); [done| |].
  - apply elem_of_app. right. by left.
  - apply active_key. done.
Qed.
Lemma value_other name st id by_ blob d name' st' id' : secrets_ok d -> validScope st = true -> (name', st', id') <> (name, st, id) ->
  value_of (replace_secret name st id by_ blob d) name' st' id' = value_of d name' st' id'.
Proof.
  intros Hok Hst Hne. pose proof (replace_ok name st id by_ blob d Hst Hok) as Hok'. unfold value_of.
  destruct (find_row (active_secret name' st' id') (secrets d)) as [r|] eqn:E.
  - apply find_row_Some in E as [Ha Hr]. rewrite (find_active _ name' st' id' r Hok'); [done| |done]. apply elem_of_app. left. apply elem_of_map_if. exists r. split; [done|].
    destruct (active_secret name st id r) eqn:Ea; [|done]. apply active_key in Ha as [_ E1], Ea as [_ E2]. congruence.
  - destruct (find_row (active_secret name' st' id') (secrets (replace_secret name st id by_ blob d))) as [r|] eqn:E'; [|done]. exfalso.
    apply find_row_Some in E' as [Ha Hr]. apply elem_of_app in Hr as [Hr|Hr].
    + apply elem_of_map_if in Hr as (r0&Hr0&->). pose proof (find_row_None _ _ E r0 Hr0) as Hf. destruct (active_secret name st id r0); [|congruence].
      apply active_key in Ha as [Ha _]. done.
    + apply list_elem_of_singleton in Hr. subst r. apply active_key in Ha as [_ Ha]. unfold secret_key in Ha. cbn in Ha. congruence.
Qed.

Lemma set_wp name clean st id by_ value d : sanitizeName name = Some clean -> validScope st = true ->
  wp (Set_secret masterKey name st id by_ value) (fun o d' =>
    match o with
    | Ok x => s_ID x = next_id (secrets d) /\ exists blob, decrypt masterKey blob = Ok value /\ d' = replace_secret clean st id by_ blob d
    | Err _ => d' = d \/ exists blob, decrypt masterKey blob = Ok value /\ d' = replace_secret clean st id by_ blob d
    | Panic _ => d' = d
    end) d.
Proof.
  intros E1 E2. unfold Set_secret. rewrite E1, E2. cbn [negb]. apply wp_bind_ok. eapply wp_mono; [|apply encrypt_ok].
  intros [blob|e|w] d1 [-> Hb]; [|by left|done]. apply wp_bind_ok. split; cbn [wp]; [|by left]. split; cbn [wp]; [|right; exists blob; by split; [apply Hb|]].
  destruct (find_id _ _) as [r|] eqn:E; [apply find_id_Some in E as [E _]; split; [exact E|]; exists blob; by split; [apply Hb|]|right; exists blob; by split; [apply Hb|]].
Qed.

(** ** The environment *)
Definition rank (r : secret_row) : Z := default 0 (precedence (ScopeType r)).
Definition opened (r : secret_row) : string := match decrypt masterKey (value_blob r) with Ok p => p | _ => EmptyString end.
Definition as_winner (r : secret_row) : winner := mkWinner (Sec_ID r) (rank r) (opened r).
(** [r] is the most specific of [seen] for its name. *)
Definition top (seen : list secret_row) (name : string) (r : secret_row) : Prop :=
  r ∈ seen /\ Sec_Name r = name /\ forall r', r' ∈ seen -> Sec_Name r' = name -> rank r' <= rank r.
Definition wins (seen : list secret_row) (winners : gmap string winner) : Prop :=
  forall name, match winners !! name with
               | Some w => exists r, top seen name r /\ w = as_winner r
               | None => forall r, r ∈ seen -> Sec_Name r <> name
               end.
Definition readable (r : secret_row) : Prop := is_Some (precedence (ScopeType r)) /\ exists p, decrypt masterKey (value_blob r) = Ok p.

Lemma collect_env_ok l : forall seen winners, Forall readable l -> wins seen winners -> exists winners', collect_env masterKey l winners = Ok winners' /\ wins (seen ++ l) winners'.
Proof.
  induction l as [|r l IH]; intros seen winners Hl Hw; cbn [collect_env]; [exists winners; by rewrite app_nil_r|].
  apply Forall_cons in Hl as [[[prec Hp] [plain Hd]] Hl]. rewrite Hp. assert (rank r = prec) as Er by (unfold rank; by rewrite Hp).
  replace (seen ++ r :: l) with ((seen ++ [r]) ++ l) by by rewrite <- app_assoc. pose proof (Hw (Sec_Name r)) as Hr.
  destruct (match winners !! Sec_Name r with Some e => prec <=? w_precedence e | None => false end) eqn:Eb.
  - apply IH; [done|]. intros name. specialize (Hw name). destruct (winners !! name) as [w|] eqn:En.
    + destruct Hw as (r0&(H1&H2&H3)&->). exists r0. split; [|done]. split_and!; [by apply elem_of_app; left|done|]. intros r' [Hin| ->%list_elem_of_singleton]%elem_of_app Hn; [by apply H3|].
      rewrite Hn, En in Eb. apply Z.leb_le in Eb. cbn in Eb. lia.
    + intros r' [Hin| ->%list_elem_of_singleton]%elem_of_app; [by apply Hw|]. intros Hn. rewrite Hn, En in Eb. done.
  - rewrite Hd. apply IH; [done|]. intros name. destruct (decide (name = Sec_Name r)) as [->|Hne].
    + rewrite lookup_insert, decide_True by done. exists r. split.
      * split_and!; [apply elem_of_app; right; by left|done|]. intros r' [Hin| ->%list_elem_of_singleton]%elem_of_app Hn; [|lia].
        destruct (winners !! Sec_Name r) as [w|]; [|by destruct (Hr r' Hin)]. destruct Hr as (r0&(_&_&H3)&->). specialize (H3 r' Hin Hn). apply Z.leb_gt in Eb. cbn in Eb. lia.
      * unfold as_winner, opened. by rewrite Er, Hd.
    + rewrite lookup_insert_ne by done. specialize (Hw name). destruct (winners !! name) as [w|].
      * destruct Hw as (r0&(H1&H2&H3)&->). exists r0. split; [|done]. split_and!; [by apply elem_of_app; left|done|].
        intros r' [Hin| ->%list_elem_of_singleton]%elem_of_app Hn; [by apply H3|by destruct Hne].
      * intros r' [Hin| ->%list_elem_of_singleton]%elem_of_app; [by apply Hw|done].
Qed.

(** The row that gives a name its value. *)
Definition best (d : secrets_db) (userID agentID taskID : Z) (name : string) : option secret_row :=
  match (if 0 <? taskID then find_row (active_secret name ScopeTask taskID) (secrets d) else None) with
  | Some r => Some r
  | None => match (if 0 <? agentID then find_row (active_secret name ScopeAgent agentID) (secrets d) else None) with
            | Some r => Some r
            | None => if 0 <? userID then find_row (active_secret name ScopeUser userID) (secrets d) else None
            end
  end.

Definition in_env (u a t : Z) (r : secret_row) : Prop :=
  Sec_RevokedAt r = None /\ (0 < u /\ ScopeType r = ScopeUser /\ ScopeID r = u \/ 0 < a /\ ScopeType r = ScopeAgent /\ ScopeID r = a \/ 0 < t /\ ScopeType r = ScopeTask /\ ScopeID r = t).
Lemma in_env_iff u a t r : in_scope (env_scopes u a t) r = true <-> in_env u a t r.
Proof.
  unfold in_scope, in_env, env_scopes. rewrite andb_true_iff, bool_decide_eq_true, !existsb_app, !orb_true_iff.
  assert (forall (ty : string) i, existsb (fun s => String.eqb (ScopeType r) (sc_Type s) && (ScopeID r =? sc_ID s)) (if 0 <? i then [mkScope ty i] else []) = true <->
    0 < i /\ ScopeType r = ty /\ ScopeID r = i) as H.
  { intros ty i. destruct (Z.ltb_spec 0 i); cbn [existsb sc_Type sc_ID]; [rewrite orb_false_r, andb_true_iff, String.eqb_eq, Z.eqb_eq; tauto|split; [done|lia]]. }
  rewrite !H. tauto.
Qed.

Lemma best_top d u a t name r : secrets_ok d -> top (select (in_scope (env_scopes u a t)) (secrets d)) name r -> best d u a t name = Some r.
Proof.
  intros Hok (Hin&Hn&Htop). apply elem_of_select in Hin as [Hs Hr]. apply in_env_iff in Hs as [Hact Hs].
  assert (forall ty i, 0 < i -> (forall r', ScopeType r' = ty -> ScopeID r' = i -> Sec_RevokedAt r' = None -> in_env u a t r') -> rank r < rank (mkSecretRow 0 name ty i "" 0 0 None None) ->
    find_row (active_secret name ty i) (secrets d) = None) as Hnone.
  { intros ty i Hi Henv Hrank. destruct (find_row (active_secret name ty i) (secrets d)) as [r'|] eqn:E; [|done]. exfalso. apply find_row_Some in E as [[Ha [= E1 E2 E3]]%active_key Hr'].
    assert (rank r' <= rank r) as Hle by (apply Htop; [apply elem_of_select; split; [apply in_env_iff, Henv; done|done]|done]). unfold rank in *. cbn [ScopeType] in Hrank. rewrite E1 in Hle. lia. }
  assert (find_row (active_secret name (ScopeType r) (ScopeID r)) (secrets d) = Some r) as Hfind by (apply find_active; [done|done|apply active_key; unfold secret_key; by rewrite Hn]).
  unfold best. destruct Hs as [(Hi&Ht&Hid)|[(Hi&Ht&Hid)|(Hi&Ht&Hid)]]; rewrite Ht, Hid in Hfind; rewrite ?(proj2 (Z.ltb_lt _ _) Hi).
  - assert ((if 0 <? t then find_row (active_secret name ScopeTask t) (secrets d) else None) = None) as ->.
    { destruct (Z.ltb_spec 0 t); [|done]. apply Hnone; [done|intros r' ? ? ?; split; [done|tauto]|]. unfold rank. by rewrite Ht. }
    assert ((if 0 <? a then find_row (active_secret name ScopeAgent a) (secrets d) else None) = None) as ->; [|done].
    destruct (Z.ltb_spec 0 a); [|done]. apply Hnone; [done|intros r' ? ? ?; split; [done|tauto]|]. unfold rank. by rewrite Ht.
  - assert ((if 0 <? t then find_row (active_secret name ScopeTask t) (secrets d) else None) = None) as ->.
    { destruct (Z.ltb_spec 0 t); [|done]. apply Hnone; [done|intros r' ? ? ?; split; [done|tauto]|]. unfold rank. by rewrite Ht. }
    by rewrite Hfind.
  - by rewrite Hfind.
Qed.
Lemma best_in d u a t name r : best d u a t name = Some r -> r ∈ select (in_scope (env_scopes u a t)) (secrets d) /\ Sec_Name r = name.
Proof.
  assert (forall ty i, 0 < i -> (ty = ScopeUser /\ i = u \/ ty = ScopeAgent /\ i = a \/ ty = ScopeTask /\ i = t) -> find_row (active_secret name ty i) (secrets d) = Some r ->
    r ∈ select (in_scope (env_scopes u a t)) (secrets d) /\ Sec_Name r = name) as H.
  { intros ty i Hi Hty E. apply find_row_Some in E as [[Ha [= E1 E2 E3]]%active_key Hr]. split; [|done]. apply elem_of_select. split; [|done]. apply in_env_iff. split; [done|].
    destruct Hty as [[-> ->]|[[-> ->]|[-> ->]]]; [by left|by right; left|by right; right]. }
  unfold best. destruct (Z.ltb_spec 0 t); [destruct (find_row (active_secret name ScopeTask t) (secrets d)) eqn:E; [intros [= <-]; apply (H ScopeTask t); [done|tauto|done]|]|];
    (destruct (Z.ltb_spec 0 a); [destruct (find_row (active_secret name ScopeAgent a) (secrets d)) eqn:E2; [intros [= <-]; apply (H ScopeAgent a); [done|tauto|done]|]|]);
    (destruct (Z.ltb_spec 0 u); [|done]); intros E3; apply (H ScopeUser u); try done; tauto.
Qed.

Lemma wins_best d u a t winners l : secrets_ok d -> Permutation l (select (in_scope (env_scopes u a t)) (secrets d)) -> wins l winners ->
  forall name, winners !! name = as_winner <$> best d u a t name.
Proof.
  intros Hok Hl Hw name. specialize (Hw name). destruct (winners !! name) as [w|].
  - destruct Hw as (r&(H1&H2&H3)&->). rewrite (best_top d u a t name r Hok); [done|]. split_and!; [by rewrite <- Hl|done|]. intros r' Hr'. apply H3. by rewrite Hl.
  - destruct (best d u a t name) as [r|] eqn:E; [|done]. apply best_in in E as [Hr Hn]. rewrite <- Hl in Hr. by destruct (Hw r Hr).
Qed.

Lemma update_rows_in (p q : secret_row -> bool) f t : (forall r, r ∈ rows t -> p r = q r) -> update_rows p f t = update_rows q f t.
Proof.
  intros H. unfold update_rows. f_equal. unfold map_if. apply list_fmap_ext. intros i r Hr. rewrite (H r); [done|]. by eapply list_elem_of_lookup_2.
Qed.

Definition chosen (d : secrets_db) (u a t : Z) (r : secret_row) : bool :=
  match best d u a t (Sec_Name r) with Some r' => Sec_ID r' =? Sec_ID r | None => false end.
Lemma winners_chosen d u a t (winners : gmap string winner) : secrets_ok d -> (forall name, winners !! name = as_winner <$> best d u a t name) ->
  forall r, r ∈ rows (secrets d) -> bool_decide (Sec_ID r ∈ w_id <$> (map_to_list winners).*2) = chosen d u a t r.
Proof.
  intros Hok Hbest r Hr. destruct (chosen d u a t r) eqn:Ec; unfold chosen in Ec.
  - destruct (best d u a t (Sec_Name r)) as [r'|] eqn:E; [|done]. apply Z.eqb_eq in Ec. apply bool_decide_eq_true. apply list_elem_of_fmap. exists (as_winner r'). split; [done|].
    apply list_elem_of_fmap. exists (Sec_Name r, as_winner r'). split; [done|]. apply elem_of_map_to_list. by rewrite Hbest, E.
  - apply bool_decide_eq_false. intros (w&Eid&(p&->&Hp)%list_elem_of_fmap)%list_elem_of_fmap. destruct p as [name w]. apply elem_of_map_to_list in Hp. rewrite Hbest in Hp.
    destruct (best d u a t name) as [r'|] eqn:E; [|done]. injection Hp as <-. cbn in Eid. pose proof (best_in _ _ _ _ _ _ E) as [[_ Hr']%elem_of_select <-].
    assert (r = r') as -> by (eapply table_ok_unique; [exact (proj1 Hok)|..]; done). rewrite E, Z.eqb_refl in Ec. done.
Qed.
Lemma size_names (l : list secret_row) : (size (list_to_set (Sec_Name <$> l) : gset string) <= length l)%nat.
Proof. induction l as [|r l IH]; [done|]. cbn [fmap list_fmap list_to_set length]. pose proof (size_union_alt {[Sec_Name r]} (list_to_set (Sec_Name <$> l) : gset string)) as H.
  pose proof (subseteq_size (list_to_set (Sec_Name <$> l) ∖ {[Sec_Name r]} : gset string) (list_to_set (Sec_Name <$> l)) ltac:(set_solver)). rewrite size_singleton in H. lia. Qed.
Lemma winners_size d u a t (winners : gmap string winner) : (forall name, winners !! name = as_winner <$> best d u a t name) -> (length (w_id <$> (map_to_list winners).*2) <= length (rows (secrets d)))%nat.
Proof.
  intros Hbest. rewrite !length_fmap, length_map_to_list, <- size_dom. etransitivity; [|apply size_names]. apply subseteq_size. intros name. rewrite elem_of_dom, Hbest.
  destruct (best d u a t name) as [r|] eqn:E; [|by intros [? ?]]. intros _. apply best_in in E as [[_ Hr]%elem_of_select <-]. apply elem_of_list_to_set. by apply list_elem_of_fmap_2.
Qed.
Lemma bump_run ids d : Z.of_nat (length ids) <= 32766 -> (run_ok (bumpLastUsed ids) d).2 = set_secrets (update_rows (fun r => bool_decide (Sec_ID r ∈ ids)) (with_use (now d)) (secrets d)) d.
Proof.
  intros H. unfold bumpLastUsed. destruct ids as [|i ids]; [|by rewrite (proj2 (Z.ltb_ge _ _))]. cbn. unfold update_rows, set_secrets. rewrite map_if_none; [by destruct d as [? ? []]|].
  apply count_if_0. intros r _. apply bool_decide_eq_false. by intros ?%elem_of_nil.
Qed.
Lemma env_run u a t d : run_ok (BuildEnvMap masterKey u a t) d =
  match collect_env masterKey (scan (select (in_scope (env_scopes u a t)) (secrets d))) ∅ with
  | Ok winners => (Ok (w_value <$> winners), (run_ok (bumpLastUsed (w_id <$> (map_to_list winners).*2)) d).2)
  | Err e => (Err e, d)
  | Panic w => (Panic w, d)
  end.
Proof.
  unfold BuildEnvMap. destruct (env_scopes u a t) as [|s scopes].
  - assert (scan (select (in_scope []) (secrets d)) = []) as ->; [|done]. apply Permutation_nil_r. rewrite scan_perm. unfold select.
    induction (rows (secrets d)) as [|r l IH]; [done|]. rewrite filter_cons, decide_False; [done|]. unfold in_scope. by rewrite andb_false_r.
  - unfold query, query_o. rewrite run_ok_bind_ok. unfold run_ok at 1. cbn. destruct (collect_env masterKey _ _) as [w|e|p]; [|reflexivity..].
    match goal with |- run ?p [] d = _ => change (run p [] d) with (run_ok p d) end.
    rewrite run_ok_bind. by destruct (run_ok (bumpLastUsed _) d).
Qed.

(** The environment of a process is what the scopes say: undisturbed, each
    name has the value of the active secret of the task, else of the agent, else
    of the user, in whatever order the engine returns the rows, and no other
    name is set; exactly the secrets used are marked as used. *)
Theorem env_map_exact (userID agentID taskID : Z) (d : secrets_db)
  (Hok : secrets_ok d) (Hread : forall r, r ∈ rows (secrets d) -> in_env userID agentID taskID r -> exists p, decrypt masterKey (value_blob r) = Ok p)
  (Hfew : Z.of_nat (length (rows (secrets d))) <= 32766) :
  exists env, run_ok (BuildEnvMap masterKey userID agentID taskID) d =
      (Ok env, set_secrets (update_rows (chosen d userID agentID taskID) (with_use (now d)) (secrets d)) d) /\
    forall name, env !! name = opened <$> best d userID agentID taskID name.
Proof.
  set (l := scan (select (in_scope (env_scopes userID agentID taskID)) (secrets d))).
  assert (Permutation l (select (in_scope (env_scopes userID agentID taskID)) (secrets d))) as Hl by apply scan_perm.
  assert (Forall readable l) as Hr.
  { apply Forall_forall. intros r Hr. rewrite Hl in Hr. apply elem_of_select in Hr as [Hs Hr]. apply in_env_iff in Hs. split; [|by apply Hread].
    destruct Hs as [_ [(_&->&_)|[(_&->&_)|(_&->&_)]]]; by eexists. }
  destruct (collect_env_ok l [] ∅ Hr) as (winners&Ec&Hw); [intros name; rewrite lookup_empty; intros r Hin; by apply elem_of_nil in Hin|]. cbn [app] in Hw.
  pose proof (wins_best d userID agentID taskID winners l Hok Hl Hw) as Hbest. pose proof (winners_chosen d userID agentID taskID winners Hok Hbest) as Hch.
  pose proof (winners_size d _ _ _ winners Hbest) as Hs. exists (w_value <$> winners). split; [|intros name; rewrite lookup_fmap, Hbest; by destruct (best _ _ _ _ _)].
  rewrite <- (update_rows_in _ _ (with_use (now d)) (secrets d) Hch), <- bump_run by lia. rewrite env_run. fold l. by rewrite Ec.
Qed.
(** ** Histories *)
(** A row keeps all but its marks, and a revoked one stays revoked. *)
Definition secret_after (r r' : secret_row) : Prop :=
  secret_key r' = secret_key r /\ Sec_ID r' = Sec_ID r /\ value_blob r' = value_blob r /\ Sec_CreatedBy r' = Sec_CreatedBy r /\ Sec_CreatedAt r' = Sec_CreatedAt r /\
  (Sec_RevokedAt r <> None -> Sec_RevokedAt r' <> None).
Definition secrets_after (d d' : secrets_db) : Prop := forall r, r ∈ rows (secrets d) -> exists r', r' ∈ rows (secrets d') /\ secret_after r r'.
Definition history_step (d d' : secrets_db) : Prop := secrets_ok d -> secrets_ok d' /\ secrets_after d d'.
#[export] Instance secrets_after_preorder : PreOrder secrets_after.
Proof.
  split; [intros d r Hr; exists r; by split_and!|]. intros a b c Ha Hb r Hr. destruct (Ha r Hr) as (r1&Hr1&E1&E2&E3&E4&E5&E6), (Hb r1 Hr1) as (r2&Hr2&F1&F2&F3&F4&F5&F6).
  exists r2. split; [done|]. split_and!; [congruence..|auto].
Qed.
#[export] Instance history_step_preorder : PreOrder history_step.
Proof.
  split; [intros d H; split; [done|reflexivity]|]. intros a b c H1 H2 H. destruct (H1 H) as [Hb Ha]. destruct (H2 Hb) as [Hc Hb']. split; [done|by etrans].
Qed.

Lemma select_map_if (p : secret_row -> bool) f l : (forall r, Sec_RevokedAt (f r) = Sec_RevokedAt r /\ secret_key (f r) = secret_key r) ->
  secret_key <$> select (fun r => bool_decide (Sec_RevokedAt r = None)) (mkTable (map_if p f l) 0) = secret_key <$> select (fun r => bool_decide (Sec_RevokedAt r = None)) (mkTable l 0).
Proof.
  intros Hf. unfold select. cbn [rows]. induction l as [|r l IH]; [done|]. unfold map_if in *. cbn [fmap list_fmap]. rewrite !filter_cons.
  assert (Sec_RevokedAt (if p r then f r else r) = Sec_RevokedAt r /\ secret_key (if p r then f r else r) = secret_key r) as [E1 E2] by (destruct (p r); [apply Hf|done]).
  rewrite E1. destruct (decide _); [|exact IH]. rewrite !fmap_cons, E2. by f_equal.
Qed.

Lemma update_history (p : secret_row -> bool) f d : (forall r, secret_after r (f r)) ->
  (one_active (secrets d) -> one_active (update_rows p f (secrets d))) -> history_step d (set_secrets (update_rows p f (secrets d)) d).
Proof.
  intros Hf Hone (H1&H2&H3). split; [split_and!|].
  - apply table_ok_update; [intros r; apply (Hf r)|done].
  - by apply Hone.
  - intros r (r0&Hr0&->)%elem_of_map_if. specialize (H3 r0 Hr0). destruct (p r0); [|done]. destruct (Hf r0) as ([= E _ _]&_). by rewrite E.
  - intros r Hr. exists (if p r then f r else r). split; [apply elem_of_map_if; by exists r|]. destruct (p r); [apply Hf|by split_and!].
Qed.
Lemma revoke_history p d : history_step d (set_secrets (update_rows p (with_revocation (now d)) (secrets d)) d).
Proof. apply update_history; [intros r; unfold secret_after; by split_and!|apply one_active_revoke]. Qed.
Lemma use_history p d : history_step d (set_secrets (update_rows p (with_use (now d)) (secrets d)) d).
Proof. apply update_history; [intros r; unfold secret_after; by split_and!|]. unfold one_active. intros H.
  change (NoDup (secret_key <$> select (fun r => bool_decide (Sec_RevokedAt r = None)) (mkTable (map_if p (with_use (now d)) (rows (secrets d))) 0))). by rewrite select_map_if. Qed.
Lemma replace_history name st id by_ blob d : validScope st = true -> history_step d (replace_secret name st id by_ blob d).
Proof.
  intros Hst Hok. split; [by apply replace_ok|]. intros r Hr. destruct (revoke_history (active_secret name st id) d Hok) as [_ H]. destruct (H r Hr) as (r'&Hr'&Ha).
  exists r'. split; [|done]. apply elem_of_app. by left.
Qed.

Inductive secret_call :=
| CallSet (name scopeType : string) (scopeID createdBy : Z) (value : string)
| CallGet (name scopeType : string) (scopeID : Z)
| CallScopes (scopes : list Scope)
| CallRevoke (id : Z)
| CallEnv (userID agentID taskID : Z).
Definition ignore {A} (p : X A) : prog secrets_db unit := let! _ := p in Ret tt.
Definition secret_prog (c : secret_call) : prog secrets_db unit :=
  match c with
  | CallSet n st id by_ v => ignore (Set_secret masterKey n st id by_ v)
  | CallGet n st id => ignore (Get masterKey n st id)
  | CallScopes scopes => ignore (List_secrets scopes)
  | CallRevoke id => ignore (Revoke id)
  | CallEnv u a t => ignore (BuildEnvMap masterKey u a t)
  end.
Definition secrets_time (d d' : secrets_db) : Prop := exists s, 0 <= s /\ d' = mkSecretsDb (now d + s) (key_file d) (secrets d).

Lemma secret_prog_ok c : within history_step (secret_prog c).
Proof.
  destruct c; cbn [secret_prog]; unfold ignore; apply within_bind; try done.
  - unfold Set_secret. destruct (sanitizeName _) as [clean|]; [|done]. destruct (validScope scopeType) eqn:Es; [|done]. cbn [negb]. apply within_bind_ok.
    { unfold encrypt. apply within_bind; [|done]. eapply within_mono; [|apply rand_read_frame]. by intros d d' ->. }
    intros blob. apply within_bind_ok; [|intros id; apply within_query_o; apply _]. apply within_exec. intros d. by apply replace_history.
  - unfold Get. destruct (sanitizeName _); [|done]. destruct (negb _); [done|]. apply within_bind_ok; [apply within_query_o; apply _|done].
  - unfold List_secrets. destruct scopes; [done|]. destruct (find _ _); [done|]. apply within_query. apply _.
  - unfold Revoke. apply within_bind_ok; [apply within_query_o; apply _|]. intros [t|]; [done|]. apply within_exec. intros d. apply revoke_history.
  - unfold BuildEnvMap. destruct (env_scopes _ _ _) as [|s ss]; [done|]. apply within_bind_ok; [apply within_query; apply _|]. intros l. destruct (collect_env _ _ _); [|done..].
    apply within_bind; [|done]. unfold bumpLastUsed. destruct (_ <$> _); [done|]. destruct (_ <? _); [done|]. apply within_exec. intros d. apply use_history.
Qed.

(** However secrets are set, read, revoked and used concurrently, with any
    statement failing: a name has at most one active secret in a scope, the
    sealed values never change, and a revoked secret stays revoked. *)
Theorem secrets_history (cs : list secret_call) (d : secrets_db) ps (d' : secrets_db)
  (Hinit : secrets_ok d) (Hrun : rtc (pool_step secrets_time) (secret_prog <$> cs, d) (ps, d')) :
  secrets_ok d' /\ secrets_after d d'.
Proof.
  destruct (pool_invariant secrets_ok secrets_after (A := unit) secrets_time) with (ps := secret_prog <$> cs) (ps' := ps) (Q := fun (_ : nat) (_ : unit) (_ : secrets_db) => True) (3 := Hinit) (4 := Hrun) as (H1&H2&_); [| |by split].
  - intros x y Hx (s&Hs&->). split; [exact Hx|]. intros r Hr. exists r. split; [done|]. by split_and!.
  - intros i p Hp. rewrite list_lookup_fmap in Hp. destruct (cs !! i) as [c|]; [|done]. injection Hp as <-.
    apply (within_rg _ _ history_step); [intros x y HI H; by apply H|apply secret_prog_ok].
Qed.
(** ** What was set stays *)
Section Kept.
Context (clean scope : string) (id sid : Z) (blob : string).
(** The row with the value is the active one of its name and scope. *)
Definition holds (d : secrets_db) : Prop :=
  secrets_ok d /\ exists r, r ∈ rows (secrets d) /\ Sec_ID r = sid /\ value_blob r = blob /\ active_secret clean scope id r = true.
(** Calls that neither set the secret again nor revoke it. *)
Definition spares (c : secret_call) : Prop :=
  match c with
  | CallSet name st i _ _ => sanitizeName name = Some clean -> (st, i) <> (scope, id)
  | CallRevoke i => i <> sid
  | _ => True
  end.

Lemma holds_update (p : secret_row -> bool) f d : history_step d (set_secrets (update_rows p f (secrets d)) d) ->
  (forall r, p r = true -> Sec_ID r = sid -> value_blob r = blob -> active_secret clean scope id r = true ->
     Sec_ID (f r) = sid /\ value_blob (f r) = blob /\ active_secret clean scope id (f r) = true) ->
  holds d -> holds (set_secrets (update_rows p f (secrets d)) d).
Proof.
  intros Hs Hf (Hok&r&Hr&E1&E2&Ha). split; [by apply Hs|]. exists (if p r then f r else r). split; [apply elem_of_map_if; by exists r|].
  destruct (p r) eqn:Ep; [by apply Hf|done].
Qed.
Lemma holds_replace name st i by_ b d : validScope st = true -> (name = clean -> (st, i) <> (scope, id)) -> holds d -> holds (replace_secret name st i by_ b d).
Proof.
  intros Hst Hne (Hok&r&Hr&E1&E2&Ha). split; [by apply replace_ok|]. exists r. split_and!; [|done..]. apply elem_of_app. left. apply elem_of_map_if. exists r. split; [done|].
  destruct (active_secret name st i r) eqn:E; [|done]. apply active_key in Ha as [_ K1], E as [_ K2]. rewrite K1 in K2. injection K2 as <- <- <-. by destruct Hne.
Qed.
Lemma spared c : spares c -> within (fun d d' => holds d -> holds d') (secret_prog c).
Proof.
  assert (forall A (p : prog secrets_db A), within eq p -> within (fun d d' => holds d -> holds d') p) as Heq by (intros A p; apply within_mono; by intros d d' <-).
  assert (PreOrder (fun d d' => holds d -> holds d')) as HP by (split; [by intros d|intros d1 d2 d3; tauto]).
  destruct c as [name st i by_ v|name st i|scopes|i|u a t]; cbn [secret_prog spares]; unfold ignore; intros Hc; (apply within_bind; [|done]).
  - unfold Set_secret. destruct (sanitizeName name) as [cl|] eqn:En; [|done]. destruct (validScope st) eqn:Es; [|done]. cbn [negb]. apply within_bind_ok.
    { unfold encrypt. apply within_bind; [apply Heq, rand_read_frame|done]. }
    intros b. apply within_bind_ok; [|intros x; by apply Heq, within_query_o, _]. apply within_exec. intros d. apply holds_replace; [done|]. intros ->. by apply Hc.
  - unfold Get. destruct (sanitizeName _); [|done]. destruct (negb _); [done|]. apply within_bind_ok; [by apply Heq, within_query_o, _|done].
  - unfold List_secrets. destruct scopes; [done|]. destruct (find _ _); [done|]. by apply Heq, within_query, _.
  - unfold Revoke. apply within_bind_ok; [by apply Heq, within_query_o, _|]. intros [t|]; [done|]. apply within_exec. intros d. apply holds_update; [apply revoke_history|].
    intros r Hp%Z.eqb_eq. change (row_id r) with (Sec_ID r) in Hp. congruence.
  - unfold BuildEnvMap. destruct (env_scopes _ _ _) as [|s ss]; [done|]. apply within_bind_ok; [by apply Heq, within_query, _|]. intros l. destruct (collect_env _ _ _); [|done..].
    apply within_bind; [|done]. unfold bumpLastUsed. destruct (_ <$> _); [done|]. destruct (_ <? _); [done|]. apply within_exec. intros d.
    apply holds_update; [apply use_history|]. intros r _ E1 E2 Ha. by split_and!.
Qed.
Lemma holds_later cs d ps d' : (forall c, c ∈ cs -> spares c) -> holds d -> rtc (pool_step secrets_time) (secret_prog <$> cs, d) (ps, d') -> holds d'.
Proof.
  intros Hcs Hd Hrun. assert (PreOrder (fun _ _ : secrets_db => True)) as HP by done.
  destruct (pool_invariant holds (fun _ _ => True) (A := unit) secrets_time) with (ps := secret_prog <$> cs) (ps' := ps) (Q := fun (_ : nat) (_ : unit) (_ : secrets_db) => True) (3 := Hd) (4 := Hrun) as (H&_); [| |done].
  - intros x y (Hok&Hr) (t&Ht&->). by split.
  - intros i p Hp. rewrite list_lookup_fmap in Hp. destruct (cs !! i) as [c|] eqn:Ec; [|done]. injection Hp as <-.
    apply (within_rg _ _ (fun x y => holds x -> holds y)); [by intros x y HI H; split; [apply H|]|]. apply spared, Hcs. by eapply list_elem_of_lookup_2.
Qed.
Lemma holds_get name d : sanitizeName name = Some clean -> validScope scope = true -> holds d ->
  (run_ok (Get masterKey name scope id) d).1 = decrypt masterKey blob.
Proof.
  intros Hn Hs (Hok&r&Hr&_&<-&Ha). rewrite (get_run name clean) by done. unfold value_of. by rewrite (find_active d clean scope id r).
Qed.
End Kept.

(** C35. A secret that was set is read back exactly, by any spelling of its name
    that has the same capitals, whatever else is set, read, revoked and used
    concurrently and fails, until the name is set again in this scope or this
    secret is revoked; all other names and scopes read as before.  When setting
    fails, whatever fails, the secret is the old or the new one. *)
Theorem set_get (name name' clean scope : string) (id createdBy : Z) (value : string) (d : secrets_db)
  (Hok : secrets_ok d) (Hscope : validScope scope = true) (Hname : sanitizeName name = Some clean) (Hname' : sanitizeName name' = Some clean) :
  wp (Set_secret masterKey name scope id createdBy value) (fun o d' => secrets_ok d' /\
    (forall s, o = Ok s -> forall cs ps d2, (forall c, c ∈ cs -> spares clean scope id (s_ID s) c) ->
       rtc (pool_step secrets_time) (secret_prog <$> cs, d') (ps, d2) -> (run_ok (Get masterKey name' scope id) d2).1 = Ok value) /\
    ((run_ok (Get masterKey name' scope id) d').1 = Ok value \/ (run_ok (Get masterKey name' scope id) d').1 = (run_ok (Get masterKey name' scope id) d).1) /\
    forall other c sc i, sanitizeName other = Some c -> validScope sc = true -> (c, sc, i) <> (clean, scope, id) ->
      (run_ok (Get masterKey other sc i) d').1 = (run_ok (Get masterKey other sc i) d).1) d.
Proof.
  assert (forall blob, decrypt masterKey blob = Ok value -> let d' := replace_secret clean scope id createdBy blob d in
    holds clean scope id (next_id (secrets d)) blob d' /\
    forall other c sc i, sanitizeName other = Some c -> validScope sc = true -> (c, sc, i) <> (clean, scope, id) ->
      (run_ok (Get masterKey other sc i) d').1 = (run_ok (Get masterKey other sc i) d).1) as Hnew.
  { intros blob Hb d'. split.
    - split; [by apply replace_ok|]. eexists. split; [apply elem_of_app; right; by left|]. split_and!; [done|done|]. by apply active_key.
    - intros other c sc i Ho Hsc Hne. rewrite !(get_run other c) by done. unfold d'. by rewrite value_other. }
  assert (forall blob d2 n, decrypt masterKey blob = Ok value -> holds clean scope id n blob d2 -> (run_ok (Get masterKey name' scope id) d2).1 = Ok value) as Hget
    by (intros blob d2 n Hb Hh; by rewrite (holds_get clean scope id n blob) by done).
  eapply wp_mono; [|by apply (set_wp name clean scope id createdBy value d)]. intros [s|e|w] d'.
  - intros (Es&blob&Hb&->). destruct (Hnew blob Hb) as (H1&H3). split_and!; [apply H1| |left; by eapply Hget|done].
    intros s' [= <-] cs ps d2 Hcs Hrun. rewrite Es in Hcs. eapply Hget; [exact Hb|]. by eapply holds_later.
  - intros [->|(blob&Hb&->)]; [split_and!; [done|done|by right|done]|]. destruct (Hnew blob Hb) as (H1&H3). split_and!; [apply H1|done|left; by eapply Hget|done].
  - intros ->. split_and!; [done|done|by right|done].
Qed.
End Secrets.

(** ** Runs of the secrets store

    Witnesses of its theorems, and runs that show its edges. *)

Module SecretRuns.
(** A box that writes a tag before the text, and a source of zeros. *)
Fixpoint zeros (n : nat) : string := match n with O => EmptyString | S n => String Ascii.zero (zeros n) end.
Lemma zeros_length n : String.length (zeros n) = n.
Proof. induction n as [|n IH]; [done|]. cbn. by rewrite IH. Qed.
Definition box_open (c n k : string) : option string :=
  if (String.length c <? 16)%nat then None else Some (String.substring 16 (String.length c - 16) c).
#[export] Program Instance tag_box : SecretBox := {|
  rand_read := fun n => Ret (Ok (zeros n));
  Seal := fun p n k => zeros 16 +:+ p;
  Open_box := box_open
|}.
Next Obligation. done. Qed.
Next Obligation. intros n d b [= <-]. apply zeros_length. Qed.
Next Obligation.
  intros p n k. change (box_open (zeros 16 +:+ p) n k = Some p). unfold box_open. rewrite string_app_length, zeros_length, (proj2 (Nat.ltb_ge _ _)) by lia.
  replace (16 + String.length p - 16)%nat with (String.length p) by lia. f_equal. apply (substring_app_right (zeros 16) p).
Qed.
Next Obligation. intros p n k. change (String.length (zeros 16 +:+ p) = (String.length p + 16)%nat). rewrite string_app_length, zeros_length. lia. Qed.
#[export] Existing Instance rowid_engine.

Definition key : string := zeros 32.
Definition blob (s : string) : string := zeros 24 +:+ zeros 16 +:+ s.
Definition row (id : Z) (name scope : string) (sid : Z) (value : string) (revoked : option Z) : secret_row :=
  mkSecretRow id name scope sid (blob value) 1 0 revoked None.
(** A token of the user, one of the agent, a revoked one of the task. *)
Definition vault : secrets_db := mkSecretsDb 100 (Some key) (mkTable
  [row 1 "TOKEN" ScopeUser 1 "user" None; row 2 "TOKEN" ScopeAgent 7 "agent" None; row 3 "TOKEN" ScopeTask 9 "task" (Some 5); row 4 "URL" ScopeUser 1 "http" None;
   row 5 "URL" ScopeAgent 8 "other" None] 6).
Lemma vault_ok : secrets_ok vault.
Proof.
  split_and!; [split; [apply (bool_decide_eq_true_1 (NoDup _)); by vm_compute|]| |].
  - rewrite <- Forall_forall. apply (bool_decide_eq_true_1 (Forall _ _)). by vm_compute.
  - unfold one_active. apply (bool_decide_eq_true_1 (NoDup _)). by vm_compute.
  - rewrite <- Forall_forall. apply (bool_decide_eq_true_1 (Forall _ _)). by vm_compute.
Qed.

(** Another secret of the task is set and revoked meanwhile, and the agent's used. *)
Definition meanwhile : list secret_call := [CallSet "url" ScopeTask 9 1 "ftp"; CallRevoke 7; CallEnv 1 7 9].
Definition since_set := run_schedule (concat (repeat [(0, false); (1, false); (2, false)]%nat 4)) (secret_prog key <$> meanwhile) (run_ok (Set_secret key "api_key" ScopeTask 9 1 "s3cret") vault).2.
Lemma set_get_witness : secrets_ok (run_ok (Set_secret key "api_key" ScopeTask 9 1 "s3cret") vault).2 /\ (run_ok (Get key "API_KEY" ScopeTask 9) since_set.2).1 = Ok "s3cret".
Proof.
  pose proof (wp_run_ok _ _ _ (set_get key "api_key" "API_KEY" "API_KEY" ScopeTask 9 1 "s3cret" vault vault_ok eq_refl ltac:(by vm_compute) ltac:(by vm_compute))) as (H1&H2&_).
  split; [exact H1|]. destruct (run_ok (Set_secret key "api_key" ScopeTask 9 1 "s3cret") vault).1 as [s|e|w] eqn:E; [|by vm_compute in E..].
  refine (H2 s eq_refl meanwhile since_set.1 since_set.2 _ _); [|unfold since_set; rewrite <- surjective_pairing; apply run_schedule_reachable].
  vm_compute in E. injection E as <-. intros c Hc. unfold meanwhile in Hc. repeat (apply elem_of_cons in Hc as [->|Hc]; [done|]). by apply elem_of_nil in Hc.
Defined.

Lemma env_map_exact_witness : exists env,
  (run_ok (BuildEnvMap key 1 7 9) vault).1 = Ok env /\ env !! "TOKEN" = Some "agent" /\ env !! "URL" = Some "http" /\ env !! "PATH" = None.
Proof.
  destruct (env_map_exact key 1 7 9 vault vault_ok) as (env&E&H).
  - intros r Hr _. assert (Forall (fun r => is_Some (match decrypt key (value_blob r) with Ok p => Some p | _ => None end)) (rows (secrets vault))) as Hall
      by (apply (bool_decide_eq_true_1 (Forall _ _)); by vm_compute).
    rewrite Forall_forall in Hall. specialize (Hall r Hr) as [p Hp]. revert Hp. destruct (decrypt key (value_blob r)) as [q|e|w]; [by exists q|done..].
  - by vm_compute.
  - exists env. rewrite E, !H. split_and!; by vm_compute.
Defined.

(** One secret that does not open, sealed with another key or cut short, leaves
    the process without any of the others. *)
Definition damaged : secrets_db := set_secrets (mkTable [row 1 "TOKEN" ScopeUser 1 "user" None; mkSecretRow 2 "URL" ScopeAgent 7 "x" 1 0 None None] 3) vault.
Theorem one_damaged_hides_all :
  (run_ok (Get key "TOKEN" ScopeUser 1) damaged).1 = Ok "user" /\ (run_ok (BuildEnvMap key 1 7 0) damaged).1 = Err ECipherShort.
Proof. split; by vm_compute. Qed.

(** A key file whose writing stopped half-way refuses every later start. *)
Theorem short_key_refused :
  (run_ok (NewStore true "data") (set_key_file (Some (zeros 7)) vault)).1 = Err EMasterKey.
Proof. by vm_compute. Qed.
End SecretRuns.
