(* ===== verification/Wiki.v ===== *)
(** * Wiki (internal/wiki: types.go, store.go, service.go)

    Articles with their revisions and the graph of their links, in a state of
    their own.  A transaction is one statement.  The full-text index is an
    interface. *)
From S2P Require Import Prelude Prog Table Messaging MessagingQueries Plugins.

(** ** Regular expressions
    The two patterns of the store, and what text a pattern matches. *)
Inductive regex := Eps | Cls (p : Ascii.ascii -> bool) | Cat (a b : regex) | Alt (a b : regex) | Star (a : regex).
Inductive matches : regex -> string -> Prop :=
| M_eps : matches Eps EmptyString
| M_cls p a : p a = true -> matches (Cls p) (String a EmptyString)
| M_cat a b s t : matches a s -> matches b t -> matches (Cat a b) (s +:+ t)
| M_left a b s : matches a s -> matches (Alt a b) s
| M_right a b s : matches b s -> matches (Alt a b) s
| M_nil a : matches (Star a) EmptyString
| M_more a s t : matches a s -> matches (Star a) t -> matches (Star a) (s +:+ t).
Definition Lit (c : Ascii.ascii) : regex := Cls (Ascii.eqb c).

Definition alnum (a : Ascii.ascii) : bool := lower_letter a || decimal a.
Definition hyphen : Ascii.ascii := Ascii.ascii_of_nat 45.
Definition slug_char (a : Ascii.ascii) : bool := alnum a || Ascii.eqb a hyphen.
Definition open_bracket : Ascii.ascii := Ascii.ascii_of_nat 91.
Definition close_bracket : Ascii.ascii := Ascii.ascii_of_nat 93.
Definition bar : Ascii.ascii := Ascii.ascii_of_nat 124.
Definition no_close (a : Ascii.ascii) : bool := negb (Ascii.eqb a close_bracket).

(** [a-z0-9][a-z0-9-]*[a-z0-9] *)
Definition slugRe : regex := Cat (Cls alnum) (Cat (Star (Cls slug_char)) (Cls alnum)).
(** The link: brackets, a slug, and perhaps a bar with a display text. *)
Definition wikiLinkRe : regex :=
  Cat (Lit open_bracket) (Cat (Lit open_bracket) (Cat slugRe
    (Cat (Alt (Cat (Lit bar) (Cat (Cls no_close) (Star (Cls no_close)))) Eps) (Cat (Lit close_bracket) (Lit close_bracket))))).

(** The automaton of [slugRe]. *)
Fixpoint ends_alnum (s : string) : bool :=
  match s with
  | EmptyString => false
  | String a EmptyString => alnum a
  | String a r => slug_char a && ends_alnum r
  end.
Definition slug_matches (s : string) : bool :=
  match s with String a r => alnum a && ends_alnum r | EmptyString => false end.

Inductive wiki_error := EWikiDb | ESlugLength | ESlugSyntax | EArticleExists (slug : string) | EArticleNotFound (slug : string).

Definition ValidateSlug (slug : string) : option wiki_error :=
  if (String.length slug <? 2)%nat || (100 <? String.length slug)%nat then Some ESlugLength
  else if negb (slug_matches slug) then Some ESlugSyntax
  else None.

(** ** Links *)
Record ArticleLink := mkLink { FromSlug : string; ToSlug : string; DisplayText : string }.

(** The longest prefix of such characters, and the rest. *)
Fixpoint span (p : Ascii.ascii -> bool) (s : string) : string * string :=
  match s with
  | String a r => if p a then let '(u, v) := span p r in (String a u, v) else (EmptyString, s)
  | EmptyString => (EmptyString, EmptyString)
  end.
Definition closing (s : string) : option string :=
  match s with String a (String b r) => if Ascii.eqb a close_bracket && Ascii.eqb b close_bracket then Some r else None | _ => None end.
(** A link at the start of the text: its slug, its display text, what follows. *)
Definition link_at (s : string) : option (string * string * string) :=
  match s with
  | String a (String b r) =>
      if Ascii.eqb a open_bracket && Ascii.eqb b open_bracket then
        let '(slug, r1) := span slug_char r in
        if slug_matches slug then
          match closing r1 with
          | Some rest => Some (slug, EmptyString, rest)
          | None => match r1 with
                    | String c r2 =>
                        if Ascii.eqb c bar then
                          let '(text, r3) := span no_close r2 in
                          if str_empty text then None
                          else match closing r3 with Some rest => Some (slug, text, rest) | None => None end
                        else None
                    | EmptyString => None
                    end
          end
        else None
      else None
  | _ => None
  end.
(** [FindAllStringSubmatch]: from left to right, going on behind a match. *)
Fixpoint find_links (s : string) (skip : nat) : list (string * string) :=
  match s with
  | EmptyString => []
  | String _ r =>
      match skip with
      | S k => find_links r k
      | O => match link_at s with
             | Some (slug, text, rest) => (slug, text) :: find_links r (String.length r - String.length rest)
             | None => find_links r O
             end
      end
  end.
Fixpoint first_links (seen : list string) (l : list (string * string)) : list ArticleLink :=
  match l with
  | [] => []
  | (slug, text) :: rest => if bool_decide (slug ∈ seen) then first_links seen rest else mkLink EmptyString slug text :: first_links (slug :: seen) rest
  end.
Definition ExtractLinks (body : string) : list ArticleLink := first_links [] (find_links body 0).
Definition WordCount (s : string) : Z := Z.of_nat (length (Fields s)).

(** ** State *)
Record article_row := mkArticleRow {
  A_ID : Z; A_Slug : string; A_Title : string; A_Body : string; A_CreatedBy : string; A_UpdatedBy : string; A_Revision : Z; A_CreatedAt : Z; A_UpdatedAt : Z
}.
Record revision_row := mkRevisionRow { R_ID : Z; R_ArticleID : Z; R_Revision : Z; R_Body : string; R_ChangedBy : string; R_CreatedAt : Z }.
#[export] Instance article_row_row : Row article_row := A_ID.
#[export] Instance revision_row_row : Row revision_row := R_ID.

Record wiki_db := mkWikiDb { now : Z; articles : table article_row; article_revisions : table revision_row; article_links : list ArticleLink }.

Record ArticleSummary := mkArticleSummary { as_Slug : string; as_Title : string; as_UpdatedAt : Z; as_Revision : Z; as_WordCount : Z }.
Record Article := mkArticle { art_row : article_row; art_WordCount : Z; OutgoingLinks : list ArticleLink; Backlinks : list ArticleSummary }.
Record ArticleRevision := mkArticleRevision { ar_ID : Z; ar_Revision : Z; ar_Body : string; ar_ChangedBy : string; ar_CreatedAt : Z; ar_WordCount : Z }.
Record ArticleWithLinks := mkArticleWithLinks { al_Summary : ArticleSummary; BacklinkCount : Z }.
Record WantedArticle := mkWantedArticle { wa_Slug : string; ReferencedCount : Z }.
Record MapOfContent := mkMapOfContent {
  Hubs : list ArticleWithLinks; Articles : list ArticleSummary; Orphans : list ArticleSummary; Wanted : list WantedArticle; Total : Z
}.

(** SQLite's full-text index over the articles: the matching rows by rank, or
    a syntax error. *)
Class ArticleFTS := {
  article_match : string -> list article_row -> option (list article_row);
  article_match_rows : forall q l r, article_match q l = Some r -> NoDup l -> NoDup r /\ forall a, a ∈ r -> a ∈ l
}.

Section Wiki.
Context {HEng : Engine} {HFTS : ArticleFTS}.
Abbreviation K B := (prog wiki_db (outcome wiki_error B)).

Definition summary (a : article_row) : ArticleSummary := mkArticleSummary (A_Slug a) (A_Title a) (A_UpdatedAt a) (A_Revision a) (WordCount (A_Body a)).
Definition has_slug (slug : string) (a : article_row) : bool := String.eqb (A_Slug a) slug.
Definition latest_first (a b : article_row) : Prop := A_UpdatedAt b <= A_UpdatedAt a.
#[export] Instance latest_first_dec a b : Decision (latest_first a b).
Proof. unfold latest_first. apply _. Defined.

(** ** Writing (store.go) *)
Definition from_slug (slug : string) (l : ArticleLink) : bool := String.eqb (FromSlug l) slug.
Definition to_slug (slug : string) (l : ArticleLink) : bool := String.eqb (ToSlug l) slug.
(** INSERT OR REPLACE under the primary key (from_slug, to_slug). *)
Definition put_link (links : list ArticleLink) (l : ArticleLink) : list ArticleLink :=
  filter (fun l' => from_slug (FromSlug l) l' && to_slug (ToSlug l) l' = false) links ++ [l].
Definition updateLinks (fromSlug body : string) (links : list ArticleLink) : list ArticleLink :=
  fold_left put_link ((fun l => mkLink fromSlug (ToSlug l) (DisplayText l)) <$> ExtractLinks body)
            (filter (fun l => from_slug fromSlug l = false) links).

Definition slug_taken (d : wiki_db) (slug : string) : bool := existsb (has_slug slug) (rows (articles d)).
Definition insert_article (slug title body author : string) (d : wiki_db) : wiki_db :=
  mkWikiDb (now d)
    (insert_row (fun id => mkArticleRow id slug title body author author 1 (now d) (now d)) (articles d))
    (insert_row (fun id => mkRevisionRow id (next_id (articles d)) 1 body author (now d)) (article_revisions d))
    (updateLinks slug body (article_links d)).
Definition with_text (title body author : string) (revision t : Z) (a : article_row) : article_row :=
  mkArticleRow (A_ID a) (A_Slug a) title body (A_CreatedBy a) author revision (A_CreatedAt a) t.
Definition revise (a : article_row) (slug title body author : string) (d : wiki_db) : wiki_db :=
  let newRevision := A_Revision a + 1 in
  let title := if str_empty title then A_Title a else title in
  mkWikiDb (now d)
    (update_rows (has_slug slug) (with_text title body author newRevision (now d)) (articles d))
    (insert_row (fun id => mkRevisionRow id (A_ID a) newRevision body author (now d)) (article_revisions d))
    (updateLinks slug body (article_links d)).

(** ** Reading *)
Definition GetOutgoingLinks (slug : string) : K (list ArticleLink) :=
  query EWikiDb (fun d => scan (filter (fun l => from_slug slug l = true) (article_links d))).
(** A pair of slugs has one link, so the join has an article once. *)
Definition GetBacklinks (slug : string) : K (list ArticleSummary) :=
  query EWikiDb (fun d => summary <$> select_by latest_first (fun a => existsb (fun l => from_slug (A_Slug a) l && to_slug slug l) (article_links d)) (articles d)).
Definition GetArticle (slug : string) : K Article :=
  let? a := query_o EWikiDb (fun d => match find_row (has_slug slug) (articles d) with Some a => Ok a | None => Err (EArticleNotFound slug) end) in
  let? outgoing := GetOutgoingLinks slug in
  let? backlinks := GetBacklinks slug in
  Ret (Ok (mkArticle a (WordCount (A_Body a)) outgoing backlinks)).

Definition CreateArticle (slug title body author : string) : K Article :=
  match ValidateSlug slug with
  | Some e => Ret (Err e)
  | None =>
      let? _ := exec_o EWikiDb (fun d => if slug_taken d slug then d else insert_article slug title body author d)
                               (fun d => if slug_taken d slug then Err (EArticleExists slug) else Ok tt) in
      GetArticle slug
  end.
Definition UpdateArticle (slug title body author : string) : K Article :=
  let? _ := exec_o EWikiDb (fun d => match find_row (has_slug slug) (articles d) with Some a => revise a slug title body author d | None => d end)
                           (fun d => match find_row (has_slug slug) (articles d) with Some _ => Ok tt | None => Err (EArticleNotFound slug) end) in
  GetArticle slug.

Definition clamp_limit (limit : Z) : Z :=
  let limit := if limit <=? 0 then 50 else limit in if 200 <? limit then 200 else limit.
Definition ListArticles (q : string) (limit : Z) : K (list ArticleSummary) :=
  let limit := clamp_limit limit in
  if negb (str_empty q)
  then query_o EWikiDb (fun d => match article_match (sanitizeFTS5Query q) (rows (articles d)) with
                                 | Some l => Ok (summary <$> page limit 0 l)
                                 | None => Err EWikiDb
                                 end)
  else query EWikiDb (fun d => summary <$> page limit 0 (select_by latest_first (fun _ => true) (articles d))).

Definition revision_newest (a b : revision_row) : Prop := R_Revision b <= R_Revision a.
#[export] Instance revision_newest_dec a b : Decision (revision_newest a b).
Proof. unfold revision_newest. apply _. Defined.
Definition GetRevisions (slug : string) : K (list ArticleRevision) :=
  query EWikiDb (fun d => (fun r => mkArticleRevision (R_ID r) (R_Revision r) (R_Body r) (R_ChangedBy r) (R_CreatedAt r) (WordCount (R_Body r))) <$>
    select_by revision_newest (fun r => existsb (fun a => (A_ID a =? R_ArticleID r) && has_slug slug a) (rows (articles d))) (article_revisions d)).

(** ** The map of the wiki *)
(** COUNT of the links for which [f] is the slug. *)
Definition count_links (f : ArticleLink -> string) (slug : string) (d : wiki_db) : Z :=
  Z.of_nat (length (filter (fun l => f l = slug) (article_links d))).
Definition classify (backlinks outgoing : string -> Z) (moc : MapOfContent) (s : ArticleSummary) : MapOfContent :=
  let bl := backlinks (as_Slug s) in
  mkMapOfContent
    (if 2 <=? bl then Hubs moc ++ [mkArticleWithLinks s bl] else Hubs moc)
    (Articles moc ++ [s])
    (if (bl =? 0) && (outgoing (as_Slug s) =? 0) then Orphans moc ++ [s] else Orphans moc)
    (Wanted moc) (Total moc).
Definition most_wanted (a b : WantedArticle) : Prop := ReferencedCount b <= ReferencedCount a.
#[export] Instance most_wanted_dec a b : Decision (most_wanted a b).
Proof. unfold most_wanted. apply _. Defined.
Definition wanted_rows (d : wiki_db) : list WantedArticle :=
  merge_sort most_wanted (scan ((fun s => mkWantedArticle s (count_links ToSlug s d)) <$>
    remove_dups (filter (fun s => slug_taken d s = false) (ToSlug <$> article_links d)))).

Definition GetMapOfContent : K MapOfContent :=
  let? all := query EWikiDb (fun d => summary <$> select_by latest_first (fun _ => true) (articles d)) in
  let? backlinkCounts := query EWikiDb (fun d slug => count_links ToSlug slug d) in
  let? outgoingCounts := query EWikiDb (fun d slug => count_links FromSlug slug d) in
  let moc := fold_left (classify backlinkCounts outgoingCounts) all (mkMapOfContent [] [] [] [] (Z.of_nat (length all))) in
  let? wanted := query EWikiDb wanted_rows in
  Ret (Ok (mkMapOfContent (Hubs moc) (Articles moc) (Orphans moc) wanted (Total moc))).
End Wiki.
