(* ===== verification/WikiSpec.v ===== *)
(** * What the wiki guarantees

    [extract_links_exact]: the links found are the leftmost matches of the
    pattern, one after the other.  [wiki_history]: under concurrent edits the
    link graph and the revisions are those of the articles.  [map_exact]: the
    overview. *)
From S2P Require Import Prelude Prog Table Messaging MessagingQueries Plugins Secrets SecretsSpec Wiki.

(** ** The patterns *)
Lemma sapp_assoc (a b c : string) : (a +:+ b) +:+ c = a +:+ (b +:+ c).
Proof. induction a as [|x a IH]; [done|]. change (String x ((a +:+ b) +:+ c) = String x (a +:+ (b +:+ c))). by rewrite IH. Qed.
Lemma sapp_nil (a : string) : a +:+ EmptyString = a.
Proof. induction a as [|x a IH]; [done|]. change (String x (a +:+ EmptyString) = String x a). by rewrite IH. Qed.
Lemma sapp_cons x (a b : string) : String x a +:+ b = String x (a +:+ b).
Proof. done. Qed.
Lemma sapp_nil_l (a : string) : EmptyString +:+ a = a.
Proof. done. Qed.
Lemma all_app p a b : all_chars p (a +:+ b) = all_chars p a && all_chars p b.
Proof. induction a as [|x a IH]; [done|]. rewrite sapp_cons. cbn. by rewrite IH, andb_assoc. Qed.

Lemma matches_eps_inv s : matches Eps s -> s = EmptyString.
Proof. by inversion 1. Qed.
Lemma matches_cls_inv p s : matches (Cls p) s -> exists a, s = String a EmptyString /\ p a = true.
Proof. inversion 1; subst. by eexists. Qed.
Lemma matches_lit_inv c s : matches (Lit c) s -> s = String c EmptyString.
Proof. intros (a&->&->%Ascii.eqb_eq)%matches_cls_inv. done. Qed.
Lemma matches_lit c : matches (Lit c) (String c EmptyString).
Proof. constructor. apply Ascii.eqb_refl. Qed.
Lemma matches_cat_inv a b s : matches (Cat a b) s -> exists u v, s = u +:+ v /\ matches a u /\ matches b v.
Proof. inversion 1; subst. by eexists _, _. Qed.
Lemma matches_alt_inv a b s : matches (Alt a b) s -> matches a s \/ matches b s.
Proof. inversion 1; subst; auto. Qed.
Lemma matches_star_inv p s : matches (Star (Cls p)) s -> all_chars p s = true.
Proof.
  remember (Star (Cls p)) as e eqn:E. induction 1 as [| | | | |a|a s t H1 _ H2 IH]; try done. injection E as ->.
  apply matches_cls_inv in H1 as (x&->&Hx). rewrite sapp_cons, sapp_nil_l. cbn. by rewrite Hx, IH.
Qed.
Lemma matches_star p s : all_chars p s = true -> matches (Star (Cls p)) s.
Proof. induction s as [|a s IH]; cbn; [constructor|]. intros [Ha Hs]%andb_true_iff. apply (M_more _ (String a EmptyString) s); [by constructor|auto]. Qed.

Lemma ends_alnum_iff s : ends_alnum s = true <-> exists u a, s = u +:+ String a EmptyString /\ all_chars slug_char u = true /\ alnum a = true.
Proof.
  induction s as [|x s IH]; [split; [done|]; intros (u&a&E&_); by destruct u|].
  destruct s as [|y s].
  - cbn [ends_alnum]. split; [intros H; by exists EmptyString, x|]. intros (u&a&E&_&Ha). destruct u as [|z u]; [by injection E as ->|]. by destruct u.
  - change (ends_alnum (String x (String y s))) with (slug_char x && ends_alnum (String y s)). rewrite andb_true_iff, IH. split.
    + intros [Hx (u&a&E&Hu&Ha)]. exists (String x u), a. rewrite E. split; [done|]. split; [|done]. cbn. by rewrite Hx.
    + intros (u&a&E&Hu&Ha). destruct u as [|z u]; [done|]. rewrite sapp_cons in E. injection E as -> E. cbn in Hu. apply andb_true_iff in Hu as [Hz Hu]. split; [done|]. by exists u, a.
Qed.
(** The recogniser of slugs is the pattern. *)
Lemma slug_matches_iff s : slug_matches s = true <-> matches slugRe s.
Proof.
  unfold slugRe. split.
  - destruct s as [|x s]; [done|]. cbn. intros [Hx (u&a&->&Hu&Ha)%ends_alnum_iff]%andb_true_iff.
    apply (M_cat _ _ (String x EmptyString)); [by constructor|]. constructor; [by apply matches_star|by constructor].
  - intros (u&v&->&(x&->&Hx)%matches_cls_inv&(w&z&->&Hw%matches_star_inv&(y&->&Hy)%matches_cls_inv)%matches_cat_inv)%matches_cat_inv.
    rewrite sapp_cons. cbn. rewrite Hx. apply ends_alnum_iff. by exists w, y.
Qed.
Lemma slug_chars s : slug_matches s = true -> all_chars slug_char s = true.
Proof.
  destruct s as [|x s]; [done|]. cbn. intros [Hx (u&a&->&Hu&Ha)%ends_alnum_iff]%andb_true_iff. rewrite all_app. cbn. unfold slug_char at 1 3. by rewrite Hx, Hu, Ha.
Qed.
Lemma slug_length s : slug_matches s = true -> (2 <= String.length s)%nat.
Proof. destruct s as [|x [|y s]]; try done; [cbn; by rewrite andb_false_r|]. cbn. lia. Qed.

(** ** Links *)
Lemma span_app p s t : all_chars p s = true -> match t with String a _ => p a = false | EmptyString => True end -> span p (s +:+ t) = (s, t).
Proof.
  induction s as [|a s IH]; [|rewrite sapp_cons; cbn; intros [Ha Hs]%andb_true_iff Ht; by rewrite Ha, IH].
  intros _. destruct t as [|b t]; [done|]. change (EmptyString +:+ String b t) with (String b t). cbn. by intros ->.
Qed.
Lemma span_spec p s : let '(u, v) := span p s in s = u +:+ v /\ all_chars p u = true.
Proof. induction s as [|a s IH]; [done|]. cbn. destruct (p a) eqn:Ea; [|done]. destruct (span p s) as [u v]. destruct IH as [-> Hu]. cbn. by rewrite Ea, Hu. Qed.
Lemma closing_iff s r : closing s = Some r <-> s = String close_bracket (String close_bracket r).
Proof.
  split; [|by intros ->]. destruct s as [|a [|b s]]; try done. cbn. destruct (Ascii.eqb a close_bracket && Ascii.eqb b close_bracket) eqn:E; [|done].
  apply andb_true_iff in E as [->%Ascii.eqb_eq ->%Ascii.eqb_eq]. by intros [= ->].
Qed.

(** The text of a link. *)
Definition link_text (slug text : string) : string :=
  String open_bracket (String open_bracket (slug +:+ (if str_empty text then EmptyString else String bar text) +:+ String close_bracket (String close_bracket EmptyString))).
Definition is_link (slug text : string) : Prop := slug_matches slug = true /\ all_chars no_close text = true.

Lemma link_text_app slug text rest : link_text slug text +:+ rest =
  String open_bracket (String open_bracket (slug +:+ (if str_empty text then EmptyString else String bar text) +:+ String close_bracket (String close_bracket rest))).
Proof. unfold link_text. rewrite !sapp_cons, !sapp_assoc. done. Qed.

Lemma is_link_matches slug text : is_link slug text -> matches wikiLinkRe (link_text slug text).
Proof.
  intros [Hs Ht]. unfold link_text, wikiLinkRe. apply (M_cat _ _ (String open_bracket EmptyString)); [apply matches_lit|]. apply (M_cat _ _ (String open_bracket EmptyString)); [apply matches_lit|].
  constructor; [by apply slug_matches_iff|]. constructor; [|apply (M_cat _ _ (String close_bracket EmptyString)); apply matches_lit].
  destruct text as [|a text]; [apply M_right; constructor|]. apply M_left. change (if str_empty _ then _ else ?x) with x. cbn in Ht. apply andb_true_iff in Ht as [Ha Ht].
  apply (M_cat _ _ (String bar EmptyString)); [apply matches_lit|]. apply (M_cat _ _ (String a EmptyString)); [by constructor|by apply matches_star].
Qed.
Lemma matches_is_link s : matches wikiLinkRe s -> exists slug text, is_link slug text /\ s = link_text slug text.
Proof.
  intros (u1&v1&->&->%matches_lit_inv&(u2&v2&->&->%matches_lit_inv&(slug&v3&->&Hslug%slug_matches_iff&(t&v4&->&Ht&(u5&v5&->&->%matches_lit_inv&->%matches_lit_inv)%matches_cat_inv)%matches_cat_inv)%matches_cat_inv)%matches_cat_inv)%matches_cat_inv.
  apply matches_alt_inv in Ht as [(u&v&->&->%matches_lit_inv&(x&w&->&(a&->&Ha)%matches_cls_inv&Hw%matches_star_inv)%matches_cat_inv)%matches_cat_inv| ->%matches_eps_inv].
  - exists slug, (String a w). split; [|done]. split; [done|]. cbn. by rewrite Ha.
  - by exists slug, EmptyString.
Qed.

(** [link_at] finds the link a text starts with. *)
Lemma link_at_iff s slug text rest : link_at s = Some (slug, text, rest) <-> is_link slug text /\ s = link_text slug text +:+ rest.
Proof.
  split.
  - destruct s as [|a [|b s]]; try done. cbn [link_at]. destruct (Ascii.eqb a open_bracket && Ascii.eqb b open_bracket) eqn:E; [|done].
    apply andb_true_iff in E as [->%Ascii.eqb_eq ->%Ascii.eqb_eq]. pose proof (span_spec slug_char s) as Hspan. destruct (span slug_char s) as [sl r1]. destruct Hspan as [-> _].
    destruct (slug_matches sl) eqn:Es; [|done]. destruct (closing r1) as [r|] eqn:Ec.
    + apply closing_iff in Ec as ->. intros [= -> <- ->]. split; [done|]. by rewrite link_text_app.
    + destruct r1 as [|c r2]; [done|]. destruct (Ascii.eqb c bar) eqn:Eb; [|done]. apply Ascii.eqb_eq in Eb as ->.
      pose proof (span_spec no_close r2) as Hspan. destruct (span no_close r2) as [tx r3]. destruct Hspan as [-> Htx]. destruct (str_empty tx) eqn:Et; [done|].
      destruct (closing r3) as [r|] eqn:Ec3; [|done]. apply closing_iff in Ec3 as ->. intros [= -> -> ->]. split; [done|]. rewrite link_text_app, Et. by rewrite sapp_cons.
  - intros [[Hs Ht] ->]. rewrite link_text_app. cbn [link_at]. rewrite !Ascii.eqb_refl. cbn [andb].
    rewrite (span_app slug_char slug) by (first [by apply slug_chars|by destruct text]). rewrite Hs. destruct text as [|a text].
    + change (str_empty EmptyString) with true. cbv iota. rewrite sapp_nil_l. by rewrite (proj2 (closing_iff _ rest) eq_refl).
    + change (str_empty (String a text)) with false. cbv iota. rewrite (sapp_cons bar). cbn [closing].
      change (Ascii.eqb bar close_bracket) with false. cbn [andb]. rewrite Ascii.eqb_refl. rewrite span_app by done. 
      change (str_empty (String a text)) with false. cbv iota. by rewrite (proj2 (closing_iff _ rest) eq_refl).
Qed.

Lemma find_links_skip u v : find_links (u +:+ v) (String.length u) = find_links v 0.
Proof. induction u as [|a u IH]; [done|]. rewrite sapp_cons. exact IH. Qed.
Lemma find_links_found slug text rest : is_link slug text -> find_links (link_text slug text +:+ rest) 0 = (slug, text) :: find_links rest 0.
Proof.
  intros H. pose proof (proj2 (link_at_iff _ slug text rest) (conj H eq_refl)) as E. destruct (link_text slug text) as [|a m] eqn:Em; [done|].
  rewrite sapp_cons in *. cbn [find_links]. rewrite E, string_app_length. f_equal. rewrite Nat.add_sub. apply find_links_skip.
Qed.

(** The reference: from left to right, each text in the language of the pattern
    where it first occurs, going on behind it. *)
Inductive leftmost : string -> list (string * string) -> Prop :=
| L_end : leftmost EmptyString []
| L_found slug text rest l : is_link slug text -> matches wikiLinkRe (link_text slug text) -> leftmost rest l -> leftmost (link_text slug text +:+ rest) ((slug, text) :: l)
| L_skip a r l : (forall m rest, String a r = m +:+ rest -> ~ matches wikiLinkRe m) -> leftmost r l -> leftmost (String a r) l.

Lemma find_links_leftmost s : leftmost s (find_links s 0).
Proof.
  induction s as [s IH] using (induction_ltof1 _ String.length). unfold ltof in IH. destruct s as [|a r]; [constructor|]. cbn [find_links].
  destruct (link_at (String a r)) as [[[slug text] rest]|] eqn:E.
  - apply link_at_iff in E as [H E]. assert (find_links (String a r) 0 = (slug, text) :: find_links rest 0) as Ef by (rewrite E; by apply find_links_found).
    cbn [find_links] in Ef. rewrite (proj2 (link_at_iff _ slug text rest) (conj H E)) in Ef. rewrite Ef, E. constructor; [done|by apply is_link_matches|].
    apply IH. rewrite E, string_app_length. unfold link_text. cbn. lia.
  - apply L_skip; [|apply IH; cbn; lia]. intros m rest Es (slug&text&Hl&->)%matches_is_link. by rewrite (proj2 (link_at_iff _ slug text rest) (conj Hl Es)) in E.
Qed.
Lemma leftmost_unique s l : leftmost s l -> l = find_links s 0.
Proof.
  induction 1 as [|slug text rest l Hl Hm _ ->|a r l Hn _ ->]; [done|by rewrite find_links_found|]. cbn [find_links].
  destruct (link_at (String a r)) as [[[slug text] rest]|] eqn:E; [|done]. apply link_at_iff in E as [H E]. by destruct (Hn _ _ E (is_link_matches _ _ H)).
Qed.

Lemma first_links_ok l : forall seen,
  NoDup (ToSlug <$> first_links seen l) /\
  forall x, x ∈ first_links seen l <-> FromSlug x = EmptyString /\ (ToSlug x ∉ seen) /\ find (fun y => String.eqb y.1 (ToSlug x)) l = Some (ToSlug x, DisplayText x).
Proof.
  induction l as [|[slug text] l IH]; intros seen; cbn [first_links]; [split; [constructor|]; intros x; split; [by intros ?%elem_of_nil|by intros (_&_&?)]|].
  case_bool_decide as Hin.
  - destruct (IH seen) as [H1 H2]. split; [done|]. intros x. rewrite H2. cbn [find fst]. destruct (String.eqb_spec slug (ToSlug x)) as [->|]; [|done]. naive_solver.
  - destruct (IH (slug :: seen)) as [H1 H2]. split.
    + rewrite fmap_cons. constructor; [|done]. intros (x&E&Hx)%list_elem_of_fmap. apply H2 in Hx as (_&Hx&_). apply Hx. cbn in E. rewrite <- E. by left.
    + intros x. rewrite elem_of_cons, H2, not_elem_of_cons. cbn [find fst]. destruct (String.eqb_spec slug (ToSlug x)) as [->|Hne]; split.
      * intros [->|(_&[H _]&_)]; [by cbn in *|by destruct H].
      * intros (E1&_&[= E2]). left. destruct x; cbn in *. congruence.
      * intros [->|(?&[_ ?]&?)]; [by cbn in Hne|done].
      * intros (?&?&?). right. split_and!; [done|congruence|done|done].
Qed.

(** C37. The links of an article are the matches of the pattern from left to
    right, each behind the last, and of those the first for each slug: the
    scanner and the set of slugs seen compute what the regular expression
    denotes. *)
Theorem extract_links_exact (body : string) :
  (forall l, leftmost body l <-> l = find_links body 0) /\
  NoDup (ToSlug <$> ExtractLinks body) /\
  forall x, x ∈ ExtractLinks body <-> FromSlug x = EmptyString /\ find (fun y => String.eqb y.1 (ToSlug x)) (find_links body 0) = Some (ToSlug x, DisplayText x).
Proof.
  split; [intros l; split; [apply leftmost_unique|intros ->; apply find_links_leftmost]|].
  destruct (first_links_ok (find_links body 0) []) as [H1 H2]. split; [exact H1|]. intros x. unfold ExtractLinks. rewrite H2. set_solver.
Qed.

(** ** The link graph *)
Definition links_of (slug : string) (links : list ArticleLink) : list ArticleLink := filter (fun l => from_slug slug l = true) links.
Definition links_in (slug body : string) : list ArticleLink := (fun l => mkLink slug (ToSlug l) (DisplayText l)) <$> ExtractLinks body.
Lemma links_in_slugs slug body : NoDup (ToSlug <$> links_in slug body).
Proof. unfold links_in. rewrite <- list_fmap_compose. apply (first_links_ok (find_links body 0) []). Qed.
Lemma links_in_from slug body l : l ∈ links_in slug body -> FromSlug l = slug.
Proof. by intros (x&->&_)%list_elem_of_fmap. Qed.

Lemma put_links slug ls : forall acc, NoDup (ToSlug <$> ls) -> (forall l, l ∈ ls -> FromSlug l = slug) -> (forall l l', l ∈ ls -> l' ∈ acc -> from_slug slug l' && to_slug (ToSlug l) l' = false) ->
  fold_left put_link ls acc = acc ++ ls.
Proof.
  induction ls as [|l ls IH]; intros acc Hn Hf Hd; [by rewrite app_nil_r|]. cbn [fold_left]. rewrite fmap_cons in Hn. apply NoDup_cons in Hn as [Hl Hn]. unfold put_link at 2.
  rewrite filter_all by (intros l' Hl'; rewrite (Hf l) by (by left); apply Hd; [by left|done]). rewrite IH.
  - by rewrite <- app_assoc.
  - done.
  - intros x Hx. apply Hf. by right.
  - intros x l' Hx [Hl'| ->%list_elem_of_singleton]%elem_of_app; [apply Hd; [by right|done]|]. apply andb_false_iff. right. apply String.eqb_neq. intros E. apply Hl. rewrite E. by apply list_elem_of_fmap_2.
Qed.
Lemma updateLinks_exact slug body links : updateLinks slug body links = filter (fun l => from_slug slug l = false) links ++ links_in slug body.
Proof.
  unfold updateLinks. apply (put_links slug); [apply links_in_slugs|apply links_in_from|]. intros l l' _ [Hl' _]%list_elem_of_filter. by rewrite Hl'.
Qed.
Lemma links_of_update s slug body links : links_of s (updateLinks slug body links) = if decide (s = slug) then links_in slug body else links_of s links.
Proof.
  rewrite updateLinks_exact. unfold links_of. rewrite filter_app. destruct (decide (s = slug)) as [->|Hne].
  - rewrite filter_none by (intros l [Hl _]%list_elem_of_filter; by rewrite Hl). cbn. apply filter_all. intros l Hl%links_in_from. apply String.eqb_eq. done.
  - rewrite (filter_none _ (links_in _ _)) by (intros l <-%links_in_from Hl%String.eqb_eq; by apply Hne). rewrite app_nil_r. rewrite list_filter_filter. apply list_filter_iff. intros l.
    split; [by intros [? ?]|]. intros H. split; [done|]. apply String.eqb_eq in H as <-. apply String.eqb_neq. done.
Qed.

(** ** Articles and revisions *)
Definition revisions_of (t : table revision_row) (id : Z) : list revision_row := filter (fun r => R_ArticleID r = id) (rows t).
Definition article_ok (revs : list revision_row) (links : list ArticleLink) (a : article_row) : Prop :=
  ValidateSlug (A_Slug a) = None /\ R_Revision <$> revs = seqZ 1 (A_Revision a) /\ R_Body <$> last revs = Some (A_Body a) /\ links = links_in (A_Slug a) (A_Body a).
Definition wiki_ok (d : wiki_db) : Prop :=
  table_ok (articles d) /\ table_ok (article_revisions d) /\ NoDup (A_Slug <$> rows (articles d)) /\
  (forall a, a ∈ rows (articles d) -> article_ok (revisions_of (article_revisions d) (A_ID a)) (links_of (A_Slug a) (article_links d)) a) /\
  (forall r, r ∈ rows (article_revisions d) -> exists a, a ∈ rows (articles d) /\ A_ID a = R_ArticleID r) /\
  forall l, l ∈ article_links d -> exists a, a ∈ rows (articles d) /\ A_Slug a = FromSlug l.

(** An article keeps its identity, and no revision is lost or changed. *)
Definition article_after (a a' : article_row) : Prop :=
  A_ID a' = A_ID a /\ A_Slug a' = A_Slug a /\ A_CreatedBy a' = A_CreatedBy a /\ A_CreatedAt a' = A_CreatedAt a /\ A_Revision a <= A_Revision a'.
Definition wiki_after (d d' : wiki_db) : Prop :=
  (forall a, a ∈ rows (articles d) -> exists a', a' ∈ rows (articles d') /\ article_after a a') /\ rows (article_revisions d) `prefix_of` rows (article_revisions d').
Definition wiki_step (d d' : wiki_db) : Prop := wiki_ok d -> wiki_ok d' /\ wiki_after d d'.
#[export] Instance wiki_after_preorder : PreOrder wiki_after.
Proof.
  split; [intros d; split; [intros a Ha; exists a; by split_and!|done]|]. intros x y z [H1 P1] [H2 P2]. split; [|by etrans]. intros a Ha.
  destruct (H1 a Ha) as (b&Hb&E1&E2&E3&E4&E5), (H2 b Hb) as (c&Hc&F1&F2&F3&F4&F5). exists c. split; [done|]. unfold article_after. split_and!; [congruence..|lia].
Qed.
#[export] Instance wiki_step_preorder : PreOrder wiki_step.
Proof. split; [intros d H; split; [done|reflexivity]|]. intros x y z H1 H2 H. destruct (H1 H) as [Hb Ha]. destruct (H2 Hb) as [Hc Hb']. split; [done|by etrans]. Qed.

Lemma slug_taken_false d slug : slug_taken d slug = false <-> forall a, a ∈ rows (articles d) -> A_Slug a <> slug.
Proof. unfold slug_taken. rewrite existsb_none. unfold has_slug. by setoid_rewrite String.eqb_neq. Qed.
Lemma find_article d slug a : wiki_ok d -> find_row (has_slug slug) (articles d) = Some a <-> a ∈ rows (articles d) /\ A_Slug a = slug.
Proof.
  intros (_&_&Hn&_). split; [intros [H%String.eqb_eq Ha]%find_row_Some; done|]. intros [Ha E].
  destruct (find_row_is_Some (has_slug slug) (articles d) a Ha) as [b Eb]; [by apply String.eqb_eq|]. rewrite Eb. f_equal. apply find_row_Some in Eb as [H%String.eqb_eq Hb].
  eapply (NoDup_fmap_unique A_Slug); [exact Hn|done|done|congruence].
Qed.

Lemma revisions_of_insert mk t id :
  revisions_of (insert_row mk t) id = revisions_of t id ++ (if decide (R_ArticleID (mk (next_id t)) = id) then [mk (next_id t)] else []).
Proof. unfold revisions_of. cbn. rewrite filter_app, filter_cons, filter_nil. by destruct (decide _). Qed.

Lemma insert_article_ok slug title body author d : ValidateSlug slug = None -> slug_taken d slug = false -> wiki_step d (insert_article slug title body author d).
Proof.
  intros Hv Hfree (H1&H2&H3&H4&H5&H6). rewrite slug_taken_false in Hfree. set (a0 := mkArticleRow (next_id (articles d)) slug title body author author 1 (now d) (now d)).
  assert (forall a, a ∈ rows (articles (insert_article slug title body author d)) <-> a ∈ rows (articles d) \/ a = a0) as Hrows.
  { intros a. cbn. rewrite elem_of_app, list_elem_of_singleton. done. }
  assert (forall a, a ∈ rows (articles d) -> A_ID a <> next_id (articles d)) as Hid by (intros a Ha; pose proof (proj2 H1 a Ha) as Hlt; unfold row_id, article_row_row in Hlt; lia).
  split; [split_and!|split].
  - by apply table_ok_insert.
  - by apply table_ok_insert.
  - cbn. rewrite fmap_app. apply NoDup_app. split_and!; [done| |apply NoDup_singleton]. intros s (a&->&Ha)%list_elem_of_fmap Hs%list_elem_of_singleton. by apply (Hfree a).
  - intros a Ha. apply Hrows in Ha. unfold article_ok. cbn [article_links article_revisions insert_article]. rewrite links_of_update, revisions_of_insert. cbn [R_ArticleID]. destruct Ha as [Ha| ->].
    + destruct (H4 a Ha) as (E1&E2&E3&E4). rewrite decide_False by (intros E; by apply (Hid a)). rewrite app_nil_r, decide_False by (by apply Hfree). done.
    + rewrite decide_True by done. cbn [A_ID A_Slug A_Body A_Revision a0]. rewrite decide_True by done.
      assert (revisions_of (article_revisions d) (next_id (articles d)) = []) as ->; [|done].
      apply filter_none. intros r Hr E. destruct (H5 r Hr) as (a&Ha&Ea). apply (Hid a Ha). congruence.
  - intros r [Hr| ->%list_elem_of_singleton]%elem_of_app; [|exists a0; split; [by apply Hrows; right|done]]. destruct (H5 r Hr) as (a&Ha&E). exists a. split; [by apply Hrows; left|done].
  - cbn [article_links insert_article]. rewrite updateLinks_exact. intros l [[_ Hl]%list_elem_of_filter|Hl%links_in_from]%elem_of_app; [|exists a0; split; [by apply Hrows; right|done]].
    destruct (H6 l Hl) as (a&Ha&E). exists a. split; [by apply Hrows; left|done].
  - intros a Ha. exists a. split; [by apply Hrows; left|by split_and!].
  - cbn. by apply prefix_app_r.
Qed.

Lemma revise_ok a slug title body author d : find_row (has_slug slug) (articles d) = Some a -> wiki_step d (revise a slug title body author d).
Proof.
  intros Hf Hok. pose proof (proj1 (find_article d slug a Hok) Hf) as [Ha Es]. pose proof Hok as (H1&H2&H3&H4&H5&H6).
  set (title' := if str_empty title then A_Title a else title). set (f := with_text title' body author (A_Revision a + 1) (now d)).
  assert (forall b, b ∈ rows (articles d) -> has_slug slug b = true -> b = a) as Huniq.
  { intros b Hb E%String.eqb_eq. eapply (NoDup_fmap_unique A_Slug); [exact H3|done|done|congruence]. }
  assert (forall b, b ∈ rows (articles (revise a slug title body author d)) <-> exists b0, b0 ∈ rows (articles d) /\ b = if has_slug slug b0 then f b0 else b0) as Hrows by (intros b; apply elem_of_map_if).
  assert (forall b, A_ID (if has_slug slug b then f b else b) = A_ID b /\ A_Slug (if has_slug slug b then f b else b) = A_Slug b) as Hsame by (intros b; by destruct (has_slug slug b)).
  split; [split_and!|split].
  - by apply table_ok_update.
  - by apply table_ok_insert.
  - cbn. rewrite fmap_map_if; [done|]. by intros b.
  - intros b Hb. apply Hrows in Hb as (b0&Hb0&->). destruct (Hsame b0) as [-> ->]. destruct (H4 b0 Hb0) as (E1&E2&E3&E4). unfold article_ok. cbn [article_links article_revisions revise].
    rewrite links_of_update, revisions_of_insert. cbn [R_ArticleID]. destruct (has_slug slug b0) eqn:Eb.
    + rewrite (Huniq b0 Hb0 Eb) in *. rewrite !decide_True by done. cbn [A_ID A_Slug A_Body A_Revision f with_text]. rewrite fmap_app, E2, last_snoc, Es. split_and!; [by rewrite <- Es| |done|done].
      cbn [fmap list_fmap R_Revision]. assert (0 <= A_Revision a) as Hpos.
      { destruct (Z.le_gt_cases 0 (A_Revision a)); [done|]. rewrite seqZ_nil in E2 by lia. apply fmap_nil_inv in E2. by rewrite E2 in E3. }
      rewrite seqZ_app by lia. f_equal. rewrite seqZ_cons by lia. f_equal. lia.
    + assert (A_Slug b0 <> slug) as Hne by (by apply String.eqb_neq). rewrite (decide_False _ _ Hne). rewrite decide_False, app_nil_r; [done|]. intros E. apply Hne. rewrite <- Es. f_equal.
      eapply table_ok_unique; [exact H1|done|done|]. done.
  - intros r [Hr| ->%list_elem_of_singleton]%elem_of_app.
    + destruct (H5 r Hr) as (b&Hb&E). exists (if has_slug slug b then f b else b). split; [apply Hrows; by exists b|]. by rewrite (proj1 (Hsame b)).
    + exists (if has_slug slug a then f a else a). split; [apply Hrows; by exists a|]. by rewrite (proj1 (Hsame a)).
  - cbn [article_links revise]. rewrite updateLinks_exact. intros l [[_ Hl]%list_elem_of_filter|Hl%links_in_from]%elem_of_app.
    + destruct (H6 l Hl) as (b&Hb&E). exists (if has_slug slug b then f b else b). split; [apply Hrows; by exists b|]. by rewrite (proj2 (Hsame b)).
    + exists (if has_slug slug a then f a else a). split; [apply Hrows; by exists a|]. rewrite (proj2 (Hsame a)). congruence.
  - intros b Hb. exists (if has_slug slug b then f b else b). split; [apply Hrows; by exists b|]. destruct (has_slug slug b) eqn:Eb; [|by split_and!].
    rewrite (Huniq b Hb Eb). unfold article_after. cbn. split_and!; try done. lia.
  - cbn. by apply prefix_app_r.
Qed.

Section History.
Context {HEng : Engine} {HFTS : ArticleFTS}.

Inductive wiki_call :=
| CallCreate (slug title body author : string)
| CallUpdate (slug title body author : string)
| CallArticle (slug : string)
| CallArticles (q : string) (limit : Z)
| CallRevisions (slug : string)
| CallMap.
Definition done_with {A} (p : prog wiki_db A) : prog wiki_db unit := let! _ := p in Ret tt.
Definition wiki_prog (c : wiki_call) : prog wiki_db unit :=
  match c with
  | CallCreate slug title body author => done_with (CreateArticle slug title body author)
  | CallUpdate slug title body author => done_with (UpdateArticle slug title body author)
  | CallArticle slug => done_with (GetArticle slug)
  | CallArticles q limit => done_with (ListArticles q limit)
  | CallRevisions slug => done_with (GetRevisions slug)
  | CallMap => done_with GetMapOfContent
  end.
Definition wiki_time (d d' : wiki_db) : Prop := exists s, 0 <= s /\ d' = mkWikiDb (now d + s) (articles d) (article_revisions d) (article_links d).

Lemma get_article_frame slug : within wiki_step (GetArticle slug).
Proof.
  unfold GetArticle, GetOutgoingLinks, GetBacklinks. apply within_bind_ok; [apply within_query_o; apply _|intros a]. apply within_bind_ok; [apply within_query; apply _|intros o].
  apply within_bind_ok; [apply within_query; apply _|done].
Qed.
Lemma wiki_prog_ok c : within wiki_step (wiki_prog c).
Proof.
  destruct c; cbn [wiki_prog]; unfold done_with; apply within_bind; try done.
  - unfold CreateArticle. destruct (ValidateSlug slug) eqn:Ev; [done|]. apply within_bind_ok; [|intros _; apply get_article_frame]. apply within_exec_o. intros d.
    destruct (slug_taken d slug) eqn:Et; [reflexivity|by apply insert_article_ok].
  - unfold UpdateArticle. apply within_bind_ok; [|intros _; apply get_article_frame]. apply within_exec_o. intros d. destruct (find_row _ _) eqn:Ef; [by apply revise_ok|reflexivity].
  - apply get_article_frame.
  - unfold ListArticles. destruct (negb _); [apply within_query_o; apply _|apply within_query; apply _].
Qed.

(** All that concurrent calls can reach. *)
Lemma wiki_reachable (cs : list wiki_call) (d : wiki_db) ps (d' : wiki_db)
  (Hinit : wiki_ok d) (Hrun : rtc (pool_step wiki_time) (wiki_prog <$> cs, d) (ps, d')) :
  wiki_ok d' /\ wiki_after d d'.
Proof.
  destruct (pool_invariant wiki_ok wiki_after (A := unit) wiki_time) with (ps := wiki_prog <$> cs) (ps' := ps) (Q := fun (_ : nat) (_ : unit) (_ : wiki_db) => True) (3 := Hinit) (4 := Hrun) as (H1&H2&_); [| |by split].
  - intros x y Hx (s&Hs&->). split; [exact Hx|]. split; [|done]. intros a Ha. exists a. split; [done|by split_and!].
  - intros i p Hp. rewrite list_lookup_fmap in Hp. destruct (cs !! i) as [c|]; [|done]. injection Hp as <-.
    apply (within_rg _ _ wiki_step); [intros x y HI H; by apply H|apply wiki_prog_ok].
Qed.
Lemma wiki_reachable_ok cs d ps d' : wiki_ok d -> rtc (pool_step wiki_time) (wiki_prog <$> cs, d) (ps, d') -> wiki_ok d'.
Proof. intros H1 H2. exact (proj1 (wiki_reachable cs d ps d' H1 H2)). Qed.

(** C36. However articles are created, edited and read concurrently, with any
    transaction failing: slugs are valid and unique, an article's revisions are
    numbered from 1 to its own without a gap and the last has its text, the
    link graph has exactly the links of the current texts, and no article or
    revision is lost or changed. *)
Theorem wiki_history (cs : list wiki_call) (d : wiki_db) ps (d' : wiki_db)
  (Hinit : wiki_ok d) (Hrun : rtc (pool_step wiki_time) (wiki_prog <$> cs, d) (ps, d')) :
  wiki_ok d' /\ wiki_after d d'.
Proof. by apply (wiki_reachable cs d ps). Qed.
End History.

(** ** The overview *)
(** The articles whose text links to a slug. *)
Definition mentioning (d : wiki_db) (slug : string) : list article_row := filter (fun a => slug ∈ ToSlug <$> ExtractLinks (A_Body a)) (rows (articles d)).
Definition mentions (d : wiki_db) (slug : string) : Z := Z.of_nat (length (mentioning d slug)).

Lemma NoDup_of_counts {A} (f : A -> string) (l : list A) : (forall x, (length (filter (fun y => f y = x) l) <= 1)%nat) -> NoDup (f <$> l).
Proof.
  induction l as [|y l IH]; intros H; [constructor|]. rewrite fmap_cons. constructor.
  - intros (z&E&Hz)%list_elem_of_fmap. specialize (H (f y)). rewrite filter_cons, decide_True in H by done. cbn in H.
    assert (z ∈ filter (fun z => f z = f y) l) as Hin by (apply list_elem_of_filter; by split). destruct (filter _ l); [by apply elem_of_nil in Hin|cbn in H; lia].
  - apply IH. intros x. etrans; [|apply (H x)]. rewrite filter_cons. destruct (decide _); cbn; lia.
Qed.
Lemma count_of_NoDup {A} (f : A -> string) (l : list A) x : NoDup (f <$> l) -> (length (filter (fun y => f y = x) l) <= 1)%nat.
Proof.
  induction l as [|y l IH]; [cbn; lia|]. rewrite fmap_cons, filter_cons. intros [Hy Hn]%NoDup_cons. destruct (decide (f y = x)) as [<-|]; [|auto].
  rewrite filter_none; [cbn; lia|]. intros z Hz E. apply Hy. rewrite <- E. by apply list_elem_of_fmap_2.
Qed.

Lemma linked_iff d a slug : wiki_ok d -> a ∈ rows (articles d) -> (exists l, l ∈ article_links d /\ FromSlug l = A_Slug a /\ ToSlug l = slug) <-> slug ∈ ToSlug <$> ExtractLinks (A_Body a).
Proof.
  intros (_&_&_&H4&_) Ha. destruct (H4 a Ha) as (_&_&_&El). split.
  - intros (l&Hl&E1&<-). assert (l ∈ links_of (A_Slug a) (article_links d)) as Hin by (apply list_elem_of_filter; split; [by apply String.eqb_eq|done]).
    rewrite El in Hin. apply list_elem_of_fmap in Hin as (x&->&Hx). cbn. by apply list_elem_of_fmap_2.
  - intros (x&->&Hx)%list_elem_of_fmap. exists (mkLink (A_Slug a) (ToSlug x) (DisplayText x)). split_and!; [|done|done].
    assert (mkLink (A_Slug a) (ToSlug x) (DisplayText x) ∈ links_of (A_Slug a) (article_links d)) as [_ Hin]%list_elem_of_filter; [|done].
    rewrite El. apply list_elem_of_fmap. by exists x.
Qed.
Lemma links_of_NoDup d x : wiki_ok d -> NoDup (ToSlug <$> links_of x (article_links d)).
Proof.
  intros (_&_&_&H4&_&H6). destruct (links_of x (article_links d)) as [|l ls] eqn:E; [constructor|].
  assert (l ∈ links_of x (article_links d)) as [Ex%String.eqb_eq Hl]%list_elem_of_filter by (rewrite E; by left). destruct (H6 l Hl) as (a&Ha&Ea).
  rewrite <- E. assert (x = A_Slug a) as -> by congruence. destruct (H4 a Ha) as (_&_&_&->). apply links_in_slugs.
Qed.
Lemma linkers d slug : wiki_ok d -> Permutation (FromSlug <$> filter (fun l => ToSlug l = slug) (article_links d)) (A_Slug <$> mentioning d slug).
Proof.
  intros Hok. apply NoDup_Permutation.
  - apply NoDup_of_counts. intros x. rewrite list_filter_filter. etrans; [|apply (count_of_NoDup ToSlug _ slug (links_of_NoDup d x Hok))].
    unfold links_of. rewrite list_filter_filter. apply Nat.eq_le_incl. f_equal. apply list_filter_iff. intros l. unfold from_slug. rewrite String.eqb_eq. tauto.
  - eapply NoDup_fmap_sublist; [apply sublist_filter|apply Hok].
  - intros x. rewrite !list_elem_of_fmap. split.
    + intros (l&->&[E Hl]%list_elem_of_filter). destruct Hok as (?&?&?&?&?&H6). destruct (H6 l Hl) as (a&Ha&Ea). exists a. split; [done|]. apply list_elem_of_filter. split; [|done].
      apply (linked_iff d); [done|done|by exists l].
    + intros (a&->&[Hs Ha]%list_elem_of_filter). apply (linked_iff d) in Hs as (l&Hl&E1&E2); [|done..]. exists l. split; [done|]. by apply list_elem_of_filter.
Qed.
(** The link graph counts the articles whose text links to a slug. *)
Lemma backlinks_count d slug : wiki_ok d -> count_links ToSlug slug d = mentions d slug.
Proof. intros Hok. unfold count_links, mentions. rewrite <- (length_fmap FromSlug), (linkers d slug Hok), length_fmap. done. Qed.
Lemma outgoing_count d a : wiki_ok d -> a ∈ rows (articles d) -> count_links FromSlug (A_Slug a) d = Z.of_nat (length (ExtractLinks (A_Body a))).
Proof.
  intros (_&_&_&H4&_) Ha. destruct (H4 a Ha) as (_&_&_&El). unfold count_links. rewrite <- (length_fmap (fun l => mkLink (A_Slug a) (ToSlug l) (DisplayText l)) (ExtractLinks _)).
  change (_ <$> ExtractLinks (A_Body a)) with (links_in (A_Slug a) (A_Body a)). rewrite <- El. do 2 f_equal. apply list_filter_iff. intros l. unfold from_slug. by rewrite String.eqb_eq.
Qed.

Lemma classify_all bl ol l : forall acc, fold_left (classify bl ol) l acc =
  mkMapOfContent (Hubs acc ++ ((fun s => mkArticleWithLinks s (bl (as_Slug s))) <$> filter (fun s => 2 <= bl (as_Slug s)) l)) (Articles acc ++ l)
    (Orphans acc ++ filter (fun s => bl (as_Slug s) = 0 /\ ol (as_Slug s) = 0) l) (Wanted acc) (Total acc).
Proof.
  induction l as [|s l IH]; intros acc; [cbn; rewrite !app_nil_r; by destruct acc|]. cbn [fold_left]. rewrite IH. unfold classify. cbn [Hubs Articles Orphans Wanted Total].
  rewrite !filter_cons. f_equal.
  - destruct (Z.leb_spec 2 (bl (as_Slug s))) as [H|H]; [rewrite decide_True by done; by rewrite fmap_cons, <- app_assoc|rewrite decide_False by lia; done].
  - by rewrite <- app_assoc.
  - destruct (Z.eqb_spec (bl (as_Slug s)) 0) as [H|H], (Z.eqb_spec (ol (as_Slug s)) 0) as [H'|H']; cbn [andb]; [rewrite decide_True by done; by rewrite <- app_assoc|rewrite decide_False by tauto; done..].
Qed.

Lemma wanted_iff `{!Engine} d w : wiki_ok d -> w ∈ wanted_rows d <-> (forall a, a ∈ rows (articles d) -> A_Slug a <> wa_Slug w) /\ ReferencedCount w = mentions d (wa_Slug w) /\ 0 < ReferencedCount w.
Proof.
  intros Hok. unfold wanted_rows. rewrite merge_sort_Permutation, scan_perm, list_elem_of_fmap. split.
  - intros (s&->&[Hs Hin]%elem_of_remove_dups%list_elem_of_filter). cbn [wa_Slug ReferencedCount]. rewrite (backlinks_count d s Hok). split; [by apply slug_taken_false|]. split; [done|].
    rewrite <- (backlinks_count d s Hok). unfold count_links. apply list_elem_of_fmap in Hin as (l&->&Hl).
    assert (l ∈ filter (fun l' => ToSlug l' = ToSlug l) (article_links d)) as Hf by by apply list_elem_of_filter. destruct (filter _ _); [by apply elem_of_nil in Hf|cbn; lia].
  - intros (H1&H2&H3). exists (wa_Slug w). rewrite (backlinks_count d _ Hok), <- H2. split; [by destruct w|]. apply elem_of_remove_dups, list_elem_of_filter. split; [by apply slug_taken_false|].
    rewrite H2, <- (backlinks_count d _ Hok) in H3. unfold count_links in H3. destruct (filter _ (article_links d)) as [|l ls] eqn:E; [cbn in H3; lia|].
    assert (l ∈ filter (fun l => ToSlug l = wa_Slug w) (article_links d)) as [<- Hl]%list_elem_of_filter by (rewrite E; by left). by apply list_elem_of_fmap_2.
Qed.

Section Overview.
Context {HEng : Engine}.
Definition listing (d : wiki_db) : list article_row := select_by latest_first (fun _ => true) (articles d).

(** The overview of an undisturbed wiki: every article, newest first; as
    hubs those that the texts of at least two articles link to, with their
    number; as orphans those without a link either way; as wanted the slugs
    that texts link to and no article has, by how many do. *)
Theorem map_exact (d : wiki_db) (Hok : wiki_ok d) : exists moc, run_ok GetMapOfContent d = (Ok moc, d) /\
  Permutation (listing d) (rows (articles d)) /\ Sorted latest_first (listing d) /\
  Articles moc = summary <$> listing d /\ Total moc = Z.of_nat (length (rows (articles d))) /\
  Hubs moc = (fun a => mkArticleWithLinks (summary a) (mentions d (A_Slug a))) <$> filter (fun a => 2 <= mentions d (A_Slug a)) (listing d) /\
  Orphans moc = summary <$> filter (fun a => mentions d (A_Slug a) = 0 /\ ExtractLinks (A_Body a) = []) (listing d) /\
  (forall w, w ∈ Wanted moc <-> (forall a, a ∈ rows (articles d) -> A_Slug a <> wa_Slug w) /\ ReferencedCount w = mentions d (wa_Slug w) /\ 0 < ReferencedCount w) /\
  NoDup (wa_Slug <$> Wanted moc) /\ Sorted most_wanted (Wanted moc).
Proof.
  assert (Permutation (listing d) (rows (articles d))) as Hperm.
  { unfold listing, select_by. rewrite merge_sort_Permutation, scan_perm. unfold select. by rewrite filter_all. }
  eexists. split; [reflexivity|]. rewrite classify_all. cbn [Articles Hubs Orphans Wanted Total app]. split; [exact Hperm|]. split; [apply Sorted_merge_sort; intros a b; unfold latest_first; lia|].
  fold (listing d). split; [done|]. split; [by rewrite length_fmap, Hperm|]. split; [|split; [|split; [|split]]].
  - rewrite (filter_fmap_iff summary _ (fun a => 2 <= mentions d (A_Slug a))) by (intros a _; cbn; by rewrite backlinks_count). rewrite <- list_fmap_compose.
    apply list_fmap_ext. intros i a _. cbn. by rewrite backlinks_count.
  - apply filter_fmap_iff. intros a Ha. rewrite Hperm in Ha. cbn. rewrite backlinks_count, outgoing_count by done. destruct (ExtractLinks (A_Body a)); cbn; [tauto|]. split; [lia|by intros [_ ?]].
  - intros w. by apply wanted_iff.
  - unfold wanted_rows. rewrite merge_sort_Permutation, scan_perm, <- list_fmap_compose. rewrite (list_fmap_ext _ id), list_fmap_id; [apply NoDup_remove_dups|done].
  - apply Sorted_merge_sort. intros a b. unfold most_wanted. lia.
Qed.
End Overview.

(** ** Runs of the wiki

    Witnesses of its theorems, and runs that show its edges. *)

Module WikiRuns.
#[export] Program Instance first_match : ArticleFTS := {| article_match := fun _ l => Some l |}.
Next Obligation. by intros q l r [= ->]. Qed.
#[export] Existing Instance rowid_engine.

Definition blank : wiki_db := mkWikiDb 10 empty_table empty_table [].
Lemma blank_ok : wiki_ok blank.
Proof.
  split_and!; [apply table_ok_empty|apply table_ok_empty|constructor| | |]; intros x Hx; by apply elem_of_nil in Hx.
Qed.
(** Three articles created concurrently with an edit of one; the first INSERT of
    the edit's article fails. *)
Definition calls : list wiki_call :=
  [CallCreate "ci-setup" "ci" "[[rocq-notes]] [[[wanted-page]] [[a]] [[Bad]]" "ann"; CallCreate "go-tips" "go" "see [[rocq-notes]]" "ann";
   CallCreate "rocq-notes" "rocq" "none" "ann"; CallUpdate "go-tips" "" "now [[rocq-notes|Rocq]] and [[go-tips]]" "bob"].
Definition schedule : list (nat * bool) := (0, true)%nat :: concat (repeat [(0, false); (1, false); (2, false); (3, false)]%nat 6).
Definition wiki_run := run_schedule schedule (wiki_prog <$> calls) blank.
Definition retried := run_schedule (concat (repeat [(0, false)]%nat 6)) (wiki_prog <$> take 1 calls) wiki_run.2.
Definition small : wiki_db := retried.2.

Lemma wiki_history_witness :
  wiki_ok wiki_run.2 /\ (fun a => (A_Slug a, A_Revision a)) <$> rows (articles wiki_run.2) = [("go-tips", 2); ("rocq-notes", 1)].
Proof.
  destruct (wiki_history calls blank wiki_run.1 wiki_run.2 blank_ok) as [H _].
  - rewrite <- surjective_pairing. apply run_schedule_reachable.
  - split; [exact H|]. by vm_compute.
Defined.

Lemma small_ok : wiki_ok small.
Proof.
  unfold small, retried. set (d := wiki_run.2). assert (wiki_ok d) as Hd.
  { pose proof (run_schedule_reachable wiki_time schedule (wiki_prog <$> calls) blank) as Hr. unfold d, wiki_run. destruct (run_schedule _ _ _) as [ps d'].
    eapply wiki_reachable_ok; [apply blank_ok|exact Hr]. }
  pose proof (run_schedule_reachable wiki_time (concat (repeat [(0, false)]%nat 6)) (wiki_prog <$> take 1 calls) d) as Hr. destruct (run_schedule _ _ _) as [ps d'].
  eapply wiki_reachable_ok; [exact Hd|exact Hr].
Qed.

Lemma map_exact_witness : exists moc, run_ok GetMapOfContent small = (Ok moc, small) /\
  (fun h => (as_Slug (al_Summary h), BacklinkCount h)) <$> Hubs moc = [("rocq-notes", 2)] /\ Orphans moc = [] /\
  mentions small "wanted-page" = 1 /\ mkWantedArticle "wanted-page" 1 ∈ Wanted moc.
Proof.
  destruct (map_exact small small_ok) as (moc&E&_&_&_&_&Eh&Eo&Ew&_). exists moc. split; [exact E|]. rewrite Eh, Eo, Ew. split; [by vm_compute|]. split; [by vm_compute|].
  split; [by vm_compute|]. split; [|split; [by vm_compute|done]]. intros a Ha.
  assert (Forall (fun a => A_Slug a <> "wanted-page") (rows (articles small))) as Hall by (apply (bool_decide_eq_true_1 (Forall _ _)); by vm_compute).
  rewrite Forall_forall in Hall. by apply Hall.
Defined.

(** The pattern of a link has no limit of length, a slug has: a text can link to
    a page that is wanted for ever and that nobody can create. *)
Fixpoint letters (n : nat) : string := match n with O => EmptyString | S n => String (Ascii.ascii_of_nat 97) (letters n) end.
Theorem uncreatable_link :
  (fun l => String.length (ToSlug l)) <$> ExtractLinks ("[[" +:+ letters 101 +:+ "]]") = [101%nat] /\
  (run_ok (CreateArticle (letters 101) "" "" "ann") small).1 = Err ESlugLength.
Proof. split; by vm_compute. Qed.

(** An article that only links to itself is no orphan, and its own link counts
    among the backlinks. *)
Theorem self_link_counts :
  let d := (run_ok (CreateArticle "alone" "" "[[alone]]" "ann") blank).2 in
  exists moc, (run_ok GetMapOfContent d).1 = Ok moc /\ Orphans moc = [] /\
  (match (run_ok (GetArticle "alone") d).1 with Ok a => as_Slug <$> Backlinks a | _ => [] end) = ["alone"].
Proof. eexists. split; [by vm_compute|]. split; by vm_compute. Qed.
End WikiRuns.
