(* ===== verification/Kubernetes.v ===== *)
(** * Kubernetes jobs (internal/k8s: store.go, service.go, dispatcher.go,
      runner.go, noop.go)

    The handlers an agent registers, the jobs a message to it starts, and the
    record of those jobs, in a state of their own that also holds the cluster.
    The API server is an interface: it is handed job descriptions and refuses a
    name that is in use. *)
From stdpp Require Import pretty.
From S2P Require Import Prelude Prog Table Schema Messaging Channels AuthHandlers Search Reactor.

(** ** Bytes *)
Fixpoint str_take (n : Z) (s : string) : string :=
  match s with String a r => if 0 <? n then String a (str_take (n - 1) r) else EmptyString | EmptyString => EmptyString end.
Definition truncateBody (body : string) (maxLen : Z) : string :=
  if Z.of_nat (String.length body) <=? maxLen then body else str_take maxLen body.

(** ** Job names (runner.go) *)
Definition dash_char : Ascii.ascii := Ascii.ascii_of_nat 45.
Definition job_char (a : Ascii.ascii) : bool :=
  let n := Ascii.nat_of_ascii a in ((97 <=? n) && (n <=? 122))%nat || ((48 <=? n) && (n <=? 57))%nat || (n =? 45)%nat.
(** [strings.Map]: every other rune becomes a hyphen. *)
Fixpoint job_runes (skip : nat) (s : list Ascii.ascii) : list Ascii.ascii :=
  match s with
  | [] => []
  | c :: rest =>
      match skip with
      | S k => job_runes k rest
      | O => (if job_char c then c else dash_char) :: job_runes (rune_length s - 1) rest
      end
  end.
Fixpoint drop_hyphens (s : list Ascii.ascii) : list Ascii.ascii :=
  match s with a :: r => if Ascii.eqb a dash_char then drop_hyphens r else s | [] => [] end.
Definition trim_hyphens (s : list Ascii.ascii) : list Ascii.ascii := rev (drop_hyphens (rev (drop_hyphens s))).
Definition sanitizeJobName `{GoUnicode} (name : string) : string :=
  let name := trim_hyphens (job_runes 0 (String.list_ascii_of_string (ToLower name))) in
  String.string_of_list_ascii (if (63 <? length name)%nat then take 63 name else name).

(** ** Rows (store.go) *)
Record handler_row := mkHandlerRow { Hd_ID : Z; Hd : K8sHandler; Hd_CreatedAt : Z; Hd_UpdatedAt : Z }.
Record K8sJobRun := mkK8sJobRun {
  Run_ID : Z; HandlerID : Z; Run_AgentName : string; Run_MessageID : Z; JobName : string; Run_Namespace : string; Run_Status : string;
  FailureReason : string; Run_StartedAt : option Z; Run_CompletedAt : option Z; Run_CreatedAt : Z
}.
#[export] Instance handler_row_row : Row handler_row := Hd_ID.
#[export] Instance job_run_row : Row K8sJobRun := Run_ID.

Inductive k8s_error := EK8sDb | EHandlerNotFound | EHandlerNotOwned | EJobRunNotFound | EInvalidEvent (e : string) | ENoEvents | ENoImage
  | ERunnerUnavailable | ETooManyHandlers (n : Z) | ECreateJob | ENoPods | ELogs.

(** What the API server is given. *)
Record JobSpec := mkJobSpec {
  js_Name : string; js_Namespace : string; js_Agent : string; js_HandlerID : Z; js_Deadline : Z; js_Image : string; js_Args : list string;
  js_Env : list (string * string); js_Limits : list (string * string); js_Mounts : list (string * string * bool); js_Volumes : list (string * string * bool)
}.
Definition job_key (j : JobSpec) : string * string := (js_Namespace j, js_Name j).
Class Kube := {
  cluster : Type;
  create_job : JobSpec -> cluster -> option cluster;               (** [None]: refused *)
  pod_logs : string -> string -> cluster -> option (list (option string)); (** the pods of a job with their logs *)
  valid_quantity : string -> bool;
  in_use : string * string -> cluster -> bool;
  create_in_use : forall j c, in_use (job_key j) c = true -> create_job j c = None;
  create_uses : forall j c c', create_job j c = Some c' -> in_use (job_key j) c' = true /\ forall k, in_use k c = true -> in_use k c' = true;
  k8s_error_text : k8s_error -> string
}.
(** [agent_names]: the agents on record, which a handler refers to. *)
Record k8s_db `{Kube} := mkK8sDb { now : Z; agent_names : gset string; k8s_handlers : table handler_row; k8s_job_runs : table K8sJobRun; jobs : cluster }.
Arguments mkK8sDb {_} _ _ _ _ _.
(** The suffix of a job without a message: the clock and random bytes. *)
Class JobSuffix `{Kube} := {
  unique_suffix : prog k8s_db string;
  unique_suffix_frame : within eq unique_suffix
}.

Section Kubernetes.
Context {HEng : Engine} {HMap : GoMapOrder} {HUni : GoUnicode} {HJson : GoJson} {HKube : Kube} {HSuf : JobSuffix}.
Abbreviation Q B := (prog k8s_db (outcome k8s_error B)).
Definition set_handlers v (d : k8s_db) : k8s_db := mkK8sDb (now d) (agent_names d) v (k8s_job_runs d) (jobs d).
Definition set_runs v (d : k8s_db) : k8s_db := mkK8sDb (now d) (agent_names d) (k8s_handlers d) v (jobs d).
Definition set_jobs v (d : k8s_db) : k8s_db := mkK8sDb (now d) (agent_names d) (k8s_handlers d) (k8s_job_runs d) v.

(** ** The store *)

(** The columns of a handler: the events and the environment go through JSON,
    arguments and volumes are not kept. *)
Definition json_env (env : gmap string string) : gmap string string :=
  foldl (fun m '(k, v) => <[utf8_coerce k := utf8_coerce v]> m) ∅ (merge_sort (fun a b => str_le a.1 b.1) (map_to_list env)).
Definition stored_handler (h : K8sHandler) : K8sHandler :=
  mkK8sHandler (h_AgentName h) (h_Image h) (utf8_coerce <$> h_Events h) (h_Namespace h) (ResourcesMemory h) (ResourcesCPU h) (json_env (h_Env h))
    (TimeoutSeconds h) (h_Status h) [] [] [].
Definition handler_key (h : K8sHandler) : string * string * string := (h_AgentName h, h_Image h, h_Namespace h).
(** The CHECK and UNIQUE constraints of the table and its reference to the agents. *)
Definition HandlerStatusActive : string := "active".
Definition HandlerStatusDisabled : string := "disabled".
Definition insertable_handler (h : K8sHandler) (d : k8s_db) : bool :=
  bool_decide (h_AgentName h ∈ agent_names d) && (60 <=? TimeoutSeconds h) && (TimeoutSeconds h <=? 3600) && (String.eqb (h_Status h) HandlerStatusActive || String.eqb (h_Status h) HandlerStatusDisabled) &&
  forallb (fun r => negb (bool_decide (handler_key (Hd r) = handler_key h))) (rows (k8s_handlers d)).
Definition insert_handler (h : K8sHandler) (d : k8s_db) : k8s_db :=
  set_handlers (insert_row (fun id => mkHandlerRow id (stored_handler h) (now d) (now d)) (k8s_handlers d)) d.
Definition InsertHandler (h : K8sHandler) : Q Z :=
  exec_o EK8sDb (fun d => if insertable_handler h d then insert_handler h d else d)
                (fun d => if insertable_handler h d then Ok (next_id (k8s_handlers d)) else Err EK8sDb).

Definition of_agent (agentName : string) (r : handler_row) : bool := String.eqb (h_AgentName (Hd r)) agentName.
Definition handler_newest (a b : handler_row) : Prop := Hd_CreatedAt b <= Hd_CreatedAt a.
#[export] Instance handler_newest_dec a b : Decision (handler_newest a b).
Proof. unfold handler_newest. apply _. Defined.
Definition GetHandlerByID (id : Z) : Q handler_row :=
  query_o EK8sDb (fun d => match find_id id (k8s_handlers d) with Some r => Ok r | None => Err EHandlerNotFound end).
Definition GetHandlersByAgent (agentName : string) : Q (list handler_row) :=
  query EK8sDb (fun d => select_by handler_newest (of_agent agentName) (k8s_handlers d)).
Definition listens (event : string) (r : handler_row) : bool := existsb (fun e => String.eqb e event) (h_Events (Hd r)).
Definition GetActiveHandlersByEvent (agentName event : string) : Q (list handler_row) :=
  query EK8sDb (fun d => filter (fun r => listens event r = true)
    (select_by handler_newest (fun r => of_agent agentName r && String.eqb (h_Status (Hd r)) HandlerStatusActive) (k8s_handlers d))).
Definition with_handler_status (status : string) (t : Z) (r : handler_row) : handler_row :=
  let h := Hd r in
  mkHandlerRow (Hd_ID r) (mkK8sHandler (h_AgentName h) (h_Image h) (h_Events h) (h_Namespace h) (ResourcesMemory h) (ResourcesCPU h) (h_Env h) (TimeoutSeconds h) status
    (h_Args h) (VolumeMounts h) (Volumes h)) (Hd_CreatedAt r) t.
Definition valid_handler_status (s : string) : bool := String.eqb s HandlerStatusActive || String.eqb s HandlerStatusDisabled.
Definition UpdateHandlerStatus (id : Z) (status : string) : Q unit :=
  exec_o EK8sDb (fun d => if valid_handler_status status then set_handlers (update_rows (by_id id) (with_handler_status status (now d)) (k8s_handlers d)) d else d)
    (fun d => if affected (by_id id) (k8s_handlers d) =? 0 then Err EHandlerNotFound
              else if valid_handler_status status then Ok tt else Err EK8sDb).
(** The runs of a deleted handler go with it. *)
Definition owned_handler (id : Z) (agentName : string) (r : handler_row) : bool := by_id id r && of_agent agentName r.
Definition delete_handler (id : Z) (agentName : string) (d : k8s_db) : k8s_db :=
  if affected (owned_handler id agentName) (k8s_handlers d) =? 0 then d
  else mkK8sDb (now d) (agent_names d) (delete_rows (owned_handler id agentName) (k8s_handlers d)) (delete_rows (fun r => HandlerID r =? id) (k8s_job_runs d)) (jobs d).
Definition store_DeleteHandler (id : Z) (agentName : string) : Q unit :=
  exec_o EK8sDb (delete_handler id agentName) (fun d => if affected (owned_handler id agentName) (k8s_handlers d) =? 0 then Err EHandlerNotOwned else Ok tt).
Definition CountHandlersByAgent (agentName : string) : Q Z := query EK8sDb (fun d => Z.of_nat (length (select (of_agent agentName) (k8s_handlers d)))).

Definition valid_run_status (s : string) : bool := String.eqb s "pending" || String.eqb s "running" || String.eqb s "succeeded" || String.eqb s "failed".
Definition with_run_id (t : Z) (run : K8sJobRun) (id : Z) : K8sJobRun :=
  mkK8sJobRun id (HandlerID run) (Run_AgentName run) (Run_MessageID run) (JobName run) (Run_Namespace run) (Run_Status run) (FailureReason run) (Run_StartedAt run) (Run_CompletedAt run) t.
(** The foreign key to the handler and the CHECK of the status. *)
Definition insertable_run (run : K8sJobRun) (d : k8s_db) : bool :=
  existsb (by_id (HandlerID run)) (rows (k8s_handlers d)) && valid_run_status (Run_Status run).
Definition insert_run (run : K8sJobRun) (d : k8s_db) : k8s_db := set_runs (insert_row (with_run_id (now d) run) (k8s_job_runs d)) d.
Definition InsertJobRun (run : K8sJobRun) : Q Z :=
  exec_o EK8sDb (fun d => if insertable_run run d then insert_run run d else d)
                (fun d => if insertable_run run d then Ok (next_id (k8s_job_runs d)) else Err EK8sDb).
Definition with_run_status (status failureReason : string) (startedAt completedAt : option Z) (r : K8sJobRun) : K8sJobRun :=
  mkK8sJobRun (Run_ID r) (HandlerID r) (Run_AgentName r) (Run_MessageID r) (JobName r) (Run_Namespace r) status failureReason startedAt completedAt (Run_CreatedAt r).
Definition UpdateJobRunStatus (id : Z) (status failureReason : string) (startedAt completedAt : option Z) : Q unit :=
  exec_o EK8sDb (fun d => if valid_run_status status then set_runs (update_rows (by_id id) (with_run_status status failureReason startedAt completedAt) (k8s_job_runs d)) d else d)
    (fun d => if affected (by_id id) (k8s_job_runs d) =? 0 then Err EJobRunNotFound else if valid_run_status status then Ok tt else Err EK8sDb).
Definition run_newest (a b : K8sJobRun) : Prop := Run_CreatedAt b <= Run_CreatedAt a.
#[export] Instance run_newest_dec a b : Decision (run_newest a b).
Proof. unfold run_newest. apply _. Defined.
Definition run_limit (limit : Z) : Z := if limit <=? 0 then 50 else limit.
Definition GetJobRunsByHandler (handlerID limit : Z) : Q (list K8sJobRun) :=
  query EK8sDb (fun d => page (run_limit limit) 0 (select_by run_newest (fun r => HandlerID r =? handlerID) (k8s_job_runs d))).
Definition run_wanted (agentName status : string) (r : K8sJobRun) : bool :=
  String.eqb (Run_AgentName r) agentName && (str_empty status || String.eqb (Run_Status r) status).
Definition GetJobRunsByAgent (agentName status : string) (limit : Z) : Q (list K8sJobRun) :=
  query EK8sDb (fun d => page (run_limit limit) 0 (select_by run_newest (run_wanted agentName status) (k8s_job_runs d))).
Definition GetJobRunByID (id : Z) : Q K8sJobRun :=
  query_o EK8sDb (fun d => match find_id id (k8s_job_runs d) with Some r => Ok r | None => Err EJobRunNotFound end).
Definition GetJobRunByJobName (jobName : string) : Q K8sJobRun :=
  query_o EK8sDb (fun d => match scan (select (fun r => String.eqb (JobName r) jobName) (k8s_job_runs d)) with r :: _ => Ok r | [] => Err EJobRunNotFound end).

(** ** The runner (runner.go; [None] is the runner of noop.go) *)
Context (runner : option string).
Definition IsAvailable : bool := bool_decide (is_Some runner).
Definition GetNamespace : string := default EmptyString runner.

Definition job_env (h : K8sHandler) (msg : JobMessage) (time_text : Z -> string) : list (string * string) :=
  [("SYNAPBUS_MESSAGE_ID", pretty (jm_MessageID msg)); ("SYNAPBUS_MESSAGE_BODY", truncateBody (jm_Body msg) 32768); ("SYNAPBUS_FROM_AGENT", jm_FromAgent msg);
   ("SYNAPBUS_EVENT", jm_Event msg); ("SYNAPBUS_TIMESTAMP", time_text (jm_Timestamp msg))] ++
  (if str_empty (jm_Channel msg) then [] else [("SYNAPBUS_CHANNEL", jm_Channel msg)]) ++ range_order (map_to_list (h_Env h)).
Definition job_limits (h : K8sHandler) : list (string * string) :=
  (if str_empty (ResourcesMemory h) then [] else [("memory", ResourcesMemory h)]) ++ (if str_empty (ResourcesCPU h) then [] else [("cpu", ResourcesCPU h)]).
Definition job_name (h : K8sHandler) (suffix : string) : string := sanitizeJobName ("synapbus-" +:+ h_AgentName h +:+ "-" +:+ suffix).
Context (time_text : Z -> string).

(** [resource.MustParse] panics. *)
Definition CreateJob (id : Z) (h : K8sHandler) (msg : JobMessage) : Q string :=
  match runner with
  | None => Ret (Err ERunnerUnavailable)
  | Some ns =>
      let! suffix := if jm_MessageID msg =? 0 then unique_suffix else Ret (pretty (jm_MessageID msg)) in
      let namespace := if str_empty (h_Namespace h) then ns else h_Namespace h in
      if forallb (fun l => valid_quantity l.2) (job_limits h) then
        let job := mkJobSpec (job_name h suffix) namespace (h_AgentName h) id (TimeoutSeconds h) (h_Image h) (h_Args h) (job_env h msg time_text) (job_limits h)
                     (VolumeMounts h) (Volumes h) in
        exec_o ECreateJob (fun d => match create_job job (jobs d) with Some c => set_jobs c d | None => d end)
          (fun d => match create_job job (jobs d) with Some _ => Ok (js_Name job) | None => Err ECreateJob end)
      else Ret (Panic "cannot parse quantity")
  end.
Definition GetJobLogs (namespace jobName : string) : Q string :=
  match runner with
  | None => Ret (Err ERunnerUnavailable)
  | Some _ =>
      query_o ELogs (fun d => match pod_logs namespace jobName (jobs d) with
                              | None => Err ELogs
                              | Some [] => Err ENoPods
                              | Some (None :: _) => Err ELogs
                              | Some (Some logs :: _) => Ok (str_take (2 ^ 20) logs)
                              end)
  end.

(** ** The service (service.go) *)
Definition MaxHandlersPerAgent : Z := 3.
Definition ValidK8sEvents : list string := ["message.received"; "message.mentioned"; "channel.message"].
Definition isValidK8sEvent (e : string) : bool := existsb (fun v => String.eqb v e) ValidK8sEvents.
Record RegisterHandlerRequest := mkRegisterHandlerRequest {
  req_Image : string; req_Events : list string; req_Namespace : string; req_Memory : string; req_CPU : string; req_Env : gmap string string; req_Timeout : Z
}.
Definition RegisterHandler (agentName : string) (req : RegisterHandlerRequest) : Q (Z * K8sHandler) :=
  match find (fun e => negb (isValidK8sEvent e)) (req_Events req) with
  | Some e => Ret (Err (EInvalidEvent e))
  | None =>
      if bool_decide (req_Events req = []) then Ret (Err ENoEvents)
      else if str_empty (req_Image req) then Ret (Err ENoImage)
      else if negb IsAvailable then Ret (Err ERunnerUnavailable)
      else
        let? count := CountHandlersByAgent agentName in
        if MaxHandlersPerAgent <=? count then Ret (Err (ETooManyHandlers count))
        else
          let h := mkK8sHandler agentName (req_Image req) (req_Events req) (if str_empty (req_Namespace req) then GetNamespace else req_Namespace req) (req_Memory req) (req_CPU req)
                     (req_Env req) (if req_Timeout req <=? 0 then 300 else req_Timeout req) HandlerStatusActive [] [] [] in
          let? id := InsertHandler h in
          Ret (Ok (id, h))
  end.
Definition ListHandlers (agentName : string) : Q (list handler_row) := GetHandlersByAgent agentName.
Definition DeleteHandler (agentName : string) (handlerID : Z) : Q unit := store_DeleteHandler handlerID agentName.
Definition GetJobRuns (agentName status : string) (limit : Z) : Q (list K8sJobRun) := GetJobRunsByAgent agentName status limit.
Definition service_GetJobLogs (namespace jobName : string) : Q string :=
  if negb IsAvailable then Ret (Err ERunnerUnavailable) else GetJobLogs namespace jobName.

(** ** The dispatcher (dispatcher.go) *)
Definition failed_run (r : handler_row) (event : MessageEvent) (e : k8s_error) (t : Z) : K8sJobRun :=
  mkK8sJobRun 0 (Hd_ID r) (h_AgentName (Hd r)) (ev_Message event) ("failed-" +:+ pretty (ev_Message event)) (h_Namespace (Hd r)) "failed" (k8s_error_text e) (Some t) (Some t) 0.
Definition pending_run (r : handler_row) (event : MessageEvent) (jobName : string) (t : Z) : K8sJobRun :=
  mkK8sJobRun 0 (Hd_ID r) (h_AgentName (Hd r)) (ev_Message event) jobName (if str_empty (h_Namespace (Hd r)) then GetNamespace else h_Namespace (Hd r)) "pending" EmptyString (Some t) None 0.
Definition dispatch_one (event : MessageEvent) (r : handler_row) : prog k8s_db (outcome k8s_error unit) :=
  Peek (fun d =>
    let msg := mkJobMessage (ev_Message event) (ev_FromAgent event) (ev_Body event) (EventType event) (ev_Channel event) (now d) in
    let! job := CreateJob (Hd_ID r) (Hd r) msg in
    match job with
    | Panic w => Ret (Panic w)
    | Err e => Peek (fun d => let! _ := InsertJobRun (failed_run r event e (now d)) in Ret (Ok tt))
    | Ok jobName => Peek (fun d => let! _ := InsertJobRun (pending_run r event jobName (now d)) in Ret (Ok tt))
    end).
Fixpoint dispatch_all (event : MessageEvent) (l : list handler_row) : Q unit :=
  match l with [] => Ret (Ok tt) | r :: rest => let? _ := dispatch_one event r in dispatch_all event rest end.
Definition Dispatch (event : MessageEvent) : Q unit :=
  if negb IsAvailable then Ret (Ok tt)
  else if str_empty (ev_ToAgent event) then Ret (Ok tt)
  else let? handlers := GetActiveHandlersByEvent (ev_ToAgent event) (EventType event) in dispatch_all event handlers.
End Kubernetes.
