(* ===== verification/KubernetesSpec.v ===== *)
(** * Kubernetes jobs: names, handlers, dispatch

    [job_name_valid]: the names given to jobs.  [k8s_history]: what concurrent
    registrations, deletions, dispatches and status changes keep.
    [k8s_dispatch_exact]: what one message starts, and that it is at most one job
    in a namespace. *)
From stdpp Require Import pretty.
From S2P Require Import Prelude Prog Table Schema Messaging MessagingQueries Channels AuthHandlers Search Reactor Kubernetes.

(** ** Names *)
Definition is_job (l : list Ascii.ascii) : Prop := Forall (fun a => job_char a = true) l.
Lemma job_runes_chars s : forall skip, is_job (job_runes skip s).
Proof.
  induction s as [|c s IH]; intros [|k]; [constructor|constructor| |apply IH]. cbn [job_runes]. constructor; [|apply IH]. by destruct (job_char c) eqn:E.
Qed.
Lemma drop_hyphens_suffix l : exists u, l = u ++ drop_hyphens l /\ (forall a, a ∈ u -> a = dash_char).
Proof.
  induction l as [|a l (u&E&Hu)]; [exists []; by split; [|intros a ?%elem_of_nil]|]. cbn [drop_hyphens].
  destruct (Ascii.eqb_spec a dash_char) as [->|]; [|exists []; by split; [|intros b ?%elem_of_nil]].
  exists (dash_char :: u). split; [cbn; by rewrite <- E|]. intros b [->|Hb]%elem_of_cons; [done|by apply Hu].
Qed.
Lemma drop_hyphens_head l : head (drop_hyphens l) <> Some dash_char.
Proof. induction l as [|a l IH]; [done|]. cbn [drop_hyphens]. destruct (Ascii.eqb_spec a dash_char); [done|]. cbn. congruence. Qed.
Lemma drop_hyphens_id l : head l <> Some dash_char -> drop_hyphens l = l.
Proof. destruct l as [|a l]; [done|]. cbn. intros H. by destruct (Ascii.eqb_spec a dash_char) as [->|]. Qed.
Lemma drop_hyphens_last l x : last (drop_hyphens l) = Some x -> last l = Some x.
Proof. destruct (drop_hyphens_suffix l) as (u&E&_). intros H. rewrite E, last_app, H. done. Qed.
Lemma rev_reverse {A} (l : list A) : rev l = reverse l.
Proof. apply rev_alt. Qed.
Lemma trim_hyphens_ends l : head (trim_hyphens l) <> Some dash_char /\ last (trim_hyphens l) <> Some dash_char.
Proof.
  unfold trim_hyphens. rewrite !rev_reverse. split.
  - rewrite head_reverse. intros H%drop_hyphens_last. rewrite last_reverse in H. by apply drop_hyphens_head in H.
  - rewrite last_reverse. apply drop_hyphens_head.
Qed.
Lemma drop_hyphens_job l : is_job l -> is_job (drop_hyphens l).
Proof. destruct (drop_hyphens_suffix l) as (u&E&_). intros H. rewrite E in H. apply Forall_app in H as [_ H]. exact H. Qed.
Lemma trim_hyphens_job l : is_job l -> is_job (trim_hyphens l).
Proof. intros H. unfold trim_hyphens. rewrite !rev_reverse. by apply Forall_reverse, drop_hyphens_job, Forall_reverse, drop_hyphens_job. Qed.
Lemma trim_hyphens_id l : head l <> Some dash_char -> last l <> Some dash_char -> trim_hyphens l = l.
Proof.
  intros H1 H2. unfold trim_hyphens. rewrite !rev_reverse, (drop_hyphens_id l), drop_hyphens_id by (try rewrite head_reverse; done). apply reverse_involutive.
Qed.
Lemma job_char_ascii a : job_char a = true -> (Ascii.nat_of_ascii a < 128)%nat.
Proof.
  unfold job_char. rewrite !orb_true_iff, !andb_true_iff, !Nat.leb_le, Nat.eqb_eq. lia.
Qed.
Lemma rune_length_ascii c l : (Ascii.nat_of_ascii c < 128)%nat -> rune_length (c :: l) = 1%nat.
Proof.
  intros H. destruct l as [|c1 l]; [done|]. cbn [rune_length].
  assert (forall lo hi, (128 <= lo)%nat -> between lo hi c = false) as Hb by (intros lo hi Hl; unfold between; apply andb_false_iff; left; apply Nat.leb_gt; lia).
  rewrite !Hb by lia. done.
Qed.
Lemma job_runes_id l : is_job l -> job_runes 0 l = l.
Proof. induction 1 as [|c l Hc Hl IH]; [done|]. cbn [job_runes]. rewrite Hc, rune_length_ascii by by apply job_char_ascii. f_equal. exact IH. Qed.

Definition chars (s : string) : list Ascii.ascii := String.list_ascii_of_string s.
Lemma chars_of l : chars (String.string_of_list_ascii l) = l.
Proof. apply String.list_ascii_of_string_of_list_ascii. Qed.
Lemma lower_job s : is_job (chars s) -> sql_lower s = s /\ all_chars is_ascii s = true.
Proof.
  induction s as [|a s IH]; [done|]. intros [Ha Hs]%Forall_cons. destruct (IH Hs) as [E1 E2]. pose proof (job_char_ascii a Ha) as Hlt. cbn [sql_lower all_chars]. rewrite E1, E2. split.
  - f_equal. unfold lower_ascii. unfold job_char in Ha. rewrite !orb_true_iff, !andb_true_iff, !Nat.leb_le, Nat.eqb_eq in Ha. cbv zeta. destruct (_ && _) eqn:E; [|done]. apply andb_true_iff in E as [E%Nat.leb_le E'%Nat.leb_le]. lia.
  - unfold is_ascii. rewrite andb_true_r. by apply Nat.ltb_lt.
Qed.

(** What a DNS label may start with and be made of, 63 bytes at most. *)
Definition job_label (s : string) : Prop := is_job (chars s) /\ (String.length s <= 63)%nat /\ head (chars s) <> Some dash_char.

Lemma length_chars s : length (chars s) = String.length s.
Proof. induction s as [|a s IH]; [done|]. exact (f_equal S IH). Qed.

Section Names.
Context {HUni : GoUnicode}.

Lemma sanitized_chars name : exists l, is_job l /\ head l <> Some dash_char /\ last l <> Some dash_char /\
  chars (sanitizeJobName name) = if (63 <? length l)%nat then take 63 l else l.
Proof.
  exists (trim_hyphens (job_runes 0 (chars (ToLower name)))). destruct (trim_hyphens_ends (job_runes 0 (chars (ToLower name)))) as [H1 H2].
  split_and!; [apply trim_hyphens_job, job_runes_chars|done|done|]. apply chars_of.
Qed.

(** C39. Whatever bytes the name of an agent has, the name of its job is made of
    lower case letters, digits and hyphens, has at most 63 bytes and does not
    start with a hyphen; it ends with one only if it was cut; and a name that is
    valid already stays as it is. *)
Theorem job_name_valid (name : string) :
  job_label (sanitizeJobName name) /\
  (last (chars (sanitizeJobName name)) = Some dash_char -> String.length (sanitizeJobName name) = 63%nat) /\
  (job_label name -> last (chars name) <> Some dash_char -> sanitizeJobName name = name).
Proof.
  destruct (sanitized_chars name) as (l&Hl&Hh&Hlast&E). split; [|split].
  - unfold job_label. rewrite <- length_chars, E. destruct (Nat.ltb_spec 63 (length l)) as [Hn|Hn]; [|by split_and!].
    split_and!; [by apply Forall_take|rewrite length_take; lia|]. destruct l; [done|]. exact Hh.
  - rewrite <- length_chars, E. destruct (Nat.ltb_spec 63 (length l)); [rewrite length_take; lia|done].
  - intros (Hj&Hn&Hd) Hlast'. unfold sanitizeJobName. destruct (lower_job name Hj) as [El Ha]. rewrite ToLower_ascii, El by done. fold (chars name).
    rewrite job_runes_id, trim_hyphens_id by done. rewrite length_chars, (proj2 (Nat.ltb_ge _ _)) by done. apply String.string_of_list_ascii_of_string.
Qed.
End Names.

(** ** Concurrency *)
Section History.
Context {HEng : Engine} {HMap : GoMapOrder} {HUni : GoUnicode} {HJson : GoJson} {HKube : Kube} {HSuf : JobSuffix} (runner : option string) (time_text : Z -> string).

Definition k8s_ok (d : k8s_db) : Prop :=
  table_ok (k8s_handlers d) /\ table_ok (k8s_job_runs d) /\ NoDup ((fun r => handler_key (Hd r)) <$> rows (k8s_handlers d)) /\
  (forall r, r ∈ rows (k8s_handlers d) -> 60 <= TimeoutSeconds (Hd r) <= 3600 /\ valid_handler_status (h_Status (Hd r)) = true /\ h_AgentName (Hd r) ∈ agent_names d) /\
  (forall r, r ∈ rows (k8s_job_runs d) -> valid_run_status (Run_Status r) = true /\ exists h, h ∈ rows (k8s_handlers d) /\ Hd_ID h = HandlerID r).

(** A handler keeps its agent, image and namespace; a run keeps what it is of,
    and goes only with its handler, whose id is not used again. *)
Definition same_handler (h h' : handler_row) : Prop := Hd_ID h' = Hd_ID h /\ handler_key (Hd h') = handler_key (Hd h) /\ Hd_CreatedAt h' = Hd_CreatedAt h.
Definition same_run (r r' : K8sJobRun) : Prop :=
  Run_ID r' = Run_ID r /\ HandlerID r' = HandlerID r /\ Run_AgentName r' = Run_AgentName r /\ Run_MessageID r' = Run_MessageID r /\ JobName r' = JobName r /\
  Run_Namespace r' = Run_Namespace r /\ Run_CreatedAt r' = Run_CreatedAt r.
Definition k8s_after (d d' : k8s_db) : Prop :=
  next_id (k8s_handlers d) <= next_id (k8s_handlers d') /\
  (forall h', h' ∈ rows (k8s_handlers d') -> (exists h, h ∈ rows (k8s_handlers d) /\ same_handler h h') \/ next_id (k8s_handlers d) <= Hd_ID h') /\
  (forall r, r ∈ rows (k8s_job_runs d) -> (exists r', r' ∈ rows (k8s_job_runs d') /\ same_run r r') \/
     HandlerID r < next_id (k8s_handlers d') /\ forall h, h ∈ rows (k8s_handlers d') -> Hd_ID h <> HandlerID r).
Definition k8s_step (d d' : k8s_db) : Prop := k8s_ok d -> k8s_ok d' /\ k8s_after d d'.

Lemma same_handler_trans a b c : same_handler a b -> same_handler b c -> same_handler a c.
Proof. intros (?&?&?) (?&?&?). unfold same_handler. split_and!; congruence. Qed.
Lemma same_run_trans a b c : same_run a b -> same_run b c -> same_run a c.
Proof. intros (?&?&?&?&?&?&?) (?&?&?&?&?&?&?). unfold same_run. split_and!; congruence. Qed.
#[export] Instance k8s_after_preorder : PreOrder k8s_after.
Proof.
  split.
  - intros d. split; [done|]. split; [intros h Hh; left; exists h; by split_and!|intros r Hr; left; exists r; by split_and!].
  - intros a b c (N1&H1&R1) (N2&H2&R2). split; [lia|]. split.
    + intros h Hh. destruct (H2 h Hh) as [(h2&Hh2&E2)|E2]; [|right; lia]. destruct (H1 h2 Hh2) as [(h1&Hh1&E1)|E1].
      * left. exists h1. split; [done|by eapply same_handler_trans].
      * right. destruct E2 as [-> _]. done.
    + intros r Hr. destruct (R1 r Hr) as [(r1&Hr1&E1)|[E1 E1']].
      * destruct (R2 r1 Hr1) as [(r2&Hr2&E2)|[E2 E2']]; [left; exists r2; split; [done|by eapply same_run_trans]|].
        right. destruct E1 as (_&E1&_). rewrite <- E1. done.
      * right. split; [lia|]. intros h Hh. destruct (H2 h Hh) as [(h2&Hh2&[-> _])|E2]; [by apply E1'|lia].
Qed.
#[export] Instance k8s_step_preorder : PreOrder k8s_step.
Proof. split; [intros d H; split; [done|reflexivity]|]. intros a b c H1 H2 H. destruct (H1 H) as [Hb Ha]. destruct (H2 Hb) as [Hc Hb']. split; [done|by etrans]. Qed.

Lemma insert_handler_step h d : insertable_handler h d = true -> k8s_step d (insert_handler h d).
Proof.
  unfold insertable_handler. rewrite !andb_true_iff, !Z.leb_le, bool_decide_eq_true, forallb_forall. intros [[[[Hag Ht1] Ht2] Hst] Hfree] (H1&H2&H3&H4&H5). split; [split_and!|split_and!].
  - by apply table_ok_insert.
  - done.
  - cbn. rewrite fmap_app. apply NoDup_app. split_and!; [done| |apply NoDup_singleton]. intros k (r&->&Hr)%list_elem_of_fmap Hk%list_elem_of_singleton.
    apply list_elem_of_In in Hr. specialize (Hfree r Hr). apply negb_true_iff, bool_decide_eq_false in Hfree. by apply Hfree.
  - intros r [Hr| ->%list_elem_of_singleton]%elem_of_app; [by apply H4|]. by split_and!.
  - intros r Hr. destruct (H5 r Hr) as [Hs (x&Hx&E)]. split; [done|]. exists x. split; [|done]. apply elem_of_app. by left.
  - cbn. lia.
  - intros x [Hx| ->%list_elem_of_singleton]%elem_of_app; [left; exists x; by split_and!|right; cbn; lia].
  - intros r Hr. left. exists r. by split_and!.
Qed.
Lemma status_step p status d : valid_handler_status status = true -> k8s_step d (set_handlers (update_rows p (with_handler_status status (now d)) (k8s_handlers d)) d).
Proof.
  intros Hst (H1&H2&H3&H4&H5).
  assert (forall x, x ∈ rows (k8s_handlers d) -> exists y, y ∈ map_if p (with_handler_status status (now d)) (rows (k8s_handlers d)) /\ same_handler x y) as Hfwd.
  { intros x Hx. exists (if p x then with_handler_status status (now d) x else x). split; [apply elem_of_map_if; by exists x|]. by destruct (p x). }
  split; [split_and!|split_and!].
  - by apply table_ok_update.
  - done.
  - cbn. rewrite fmap_map_if; [done|]. by intros [? [] ? ?].
  - intros r (r0&Hr0&->)%elem_of_map_if. specialize (H4 r0 Hr0) as (?&?&?). by destruct (p r0).
  - intros r Hr. destruct (H5 r Hr) as [Hs (x&Hx&E)]. split; [done|]. destruct (Hfwd x Hx) as (y&Hy&(E'&_)). exists y. split; [done|]. congruence.
  - cbn. lia.
  - intros x (x0&Hx0&->)%elem_of_map_if. left. exists x0. split; [done|]. by destruct (p x0).
  - intros r Hr. left. exists r. by split_and!.
Qed.
Lemma handler_delete_step id agentName d : k8s_step d (delete_handler id agentName d).
Proof.
  intros Hok. unfold delete_handler. destruct (_ =? 0) eqn:Ea; [split; [done|reflexivity]|]. rewrite affected_find in Ea. destruct (find_row _ _) as [h0|] eqn:Ef; [|done].
  apply find_row_Some in Ef as [Hp Hh0]. unfold owned_handler in Hp. apply andb_true_iff in Hp as [Eid%Z.eqb_eq Hag]. pose proof Hok as (H1&H2&H3&H4&H5).
  assert (forall h, h ∈ rows (k8s_handlers d) -> Hd_ID h = id -> owned_handler id agentName h = true) as Hdel.
  { intros h Hh E. assert (h = h0) as -> by (eapply table_ok_unique; [exact H1|done|done|]; unfold row_id, handler_row_row in *; congruence). unfold owned_handler. apply andb_true_iff. split; [by apply Z.eqb_eq|done]. }
  split; [split_and!|split_and!].
  - by apply table_ok_delete.
  - by apply table_ok_delete.
  - cbn. eapply (sublist_NoDup _ _ H3). apply fmap_sublist, sublist_filter.
  - intros r [_ Hr]%elem_of_delete_rows. by apply H4.
  - intros r [Hne Hr]%elem_of_delete_rows. destruct (H5 r Hr) as [Hs (x&Hx&E)]. split; [done|]. exists x. split; [|done]. apply elem_of_delete_rows. split; [|done].
    unfold owned_handler. apply andb_false_iff. left. apply Z.eqb_neq. apply Z.eqb_neq in Hne. unfold row_id, handler_row_row in *. congruence.
  - cbn. lia.
  - intros h [_ Hh]%elem_of_delete_rows. left. exists h. by split_and!.
  - intros r Hr. destruct (decide (HandlerID r = id)) as [E|E].
    + right. split; [destruct (H5 r Hr) as [_ (x&Hx&Ex)]; rewrite <- Ex; by apply H1|]. intros h [Hn Hh]%elem_of_delete_rows Eh. rewrite (Hdel h Hh) in Hn; [done|congruence].
    + left. exists r. split; [|by split_and!]. apply elem_of_delete_rows. split; [by apply Z.eqb_neq|done].
Qed.
Lemma insert_run_step run d : insertable_run run d = true -> k8s_step d (insert_run run d).
Proof.
  intros [Hh Hs]%andb_true_iff (H1&H2&H3&H4&H5). apply existsb_some in Hh as (h&Hh&E%Z.eqb_eq). split; [split_and!|split_and!]; try done.
  - by apply table_ok_insert.
  - intros r [Hr| ->%list_elem_of_singleton]%elem_of_app; [by apply H5|]. split; [done|]. by exists h.
  - intros x Hx. left. exists x. by split_and!.
  - intros r Hr. left. exists r. split; [apply elem_of_app; by left|by split_and!].
Qed.
Lemma run_status_step p status reason s c d : valid_run_status status = true -> k8s_step d (set_runs (update_rows p (with_run_status status reason s c) (k8s_job_runs d)) d).
Proof.
  intros Hst (H1&H2&H3&H4&H5). split; [split_and!|split_and!]; try done.
  - by apply table_ok_update.
  - intros r (r0&Hr0&->)%elem_of_map_if. destruct (H5 r0 Hr0) as [Hs Hx]. by destruct (p r0).
  - intros x Hx. left. exists x. by split_and!.
  - intros r Hr. left. exists (if p r then with_run_status status reason s c r else r). split; [apply elem_of_map_if; by exists r|]. by destruct (p r).
Qed.
Lemma jobs_step c d : k8s_step d (set_jobs c d).
Proof. intros Hok. split; [exact Hok|]. split; [done|]. split; [intros h Hh; left; exists h; by split_and!|intros r Hr; left; exists r; by split_and!]. Qed.

Inductive k8s_call :=
| KRegister (agentName : string) (req : RegisterHandlerRequest)
| KDelete (agentName : string) (id : Z)
| KStatus (id : Z) (status : string)
| KDispatch (event : MessageEvent)
| KRunStatus (id : Z) (status reason : string) (startedAt completedAt : option Z)
| KLogs (namespace jobName : string).
Definition finish {A} (p : prog k8s_db A) : prog k8s_db unit := let! _ := p in Ret tt.
Definition k8s_prog (c : k8s_call) : prog k8s_db unit :=
  match c with
  | KRegister a req => finish (RegisterHandler runner a req)
  | KDelete a id => finish (DeleteHandler a id)
  | KStatus id s => finish (UpdateHandlerStatus id s)
  | KDispatch ev => finish (Dispatch runner time_text ev)
  | KRunStatus id s r b e => finish (UpdateJobRunStatus id s r b e)
  | KLogs ns job => finish (service_GetJobLogs runner ns job)
  end.
(** Time passes, agents are added and the cluster goes its own way. *)
Definition k8s_time (d d' : k8s_db) : Prop := exists s n c, 0 <= s /\ agent_names d ⊆ n /\ d' = mkK8sDb (now d + s) n (k8s_handlers d) (k8s_job_runs d) c.

Lemma later_step s n c d : agent_names d ⊆ n -> k8s_step d (mkK8sDb (now d + s) n (k8s_handlers d) (k8s_job_runs d) c).
Proof.
  intros Hn Hok. split; [|apply (jobs_step c d Hok)]. destruct Hok as (H1&H2&H3&H4&H5). split; [done|]. split; [done|]. split; [done|]. split; [|done].
  intros r Hr. destruct (H4 r Hr) as (Ht&Hst&Ha). split; [exact Ht|]. split; [exact Hst|]. by apply Hn.
Qed.

Lemma insert_job_run_within run : within k8s_step (InsertJobRun run).
Proof. apply within_exec_o. intros d. destruct (insertable_run run d) eqn:E; [by apply insert_run_step|reflexivity]. Qed.
Lemma create_job_within id h msg : within k8s_step (CreateJob runner time_text id h msg).
Proof.
  unfold CreateJob. destruct runner as [ns|]; [|done]. apply within_bind.
  - destruct (_ =? 0); [|done]. eapply within_mono; [|apply unique_suffix_frame]. intros d d' ->. reflexivity.
  - intros suffix. cbv zeta. destruct (forallb _ _); [|done]. apply within_exec_o. intros d. destruct (create_job _ _); [apply jobs_step|reflexivity].
Qed.
Lemma dispatch_all_within ev l : within k8s_step (dispatch_all runner time_text ev l).
Proof.
  induction l as [|r l IH]; [done|]. cbn [dispatch_all]. apply within_bind_ok; [|intros _; exact IH]. unfold dispatch_one. intros d. apply within_bind; [apply create_job_within|].
  intros [job|e|w]; [|intros d'|done]; [intros d'|]; (apply within_bind; [apply insert_job_run_within|done]).
Qed.
Lemma k8s_prog_within c : within k8s_step (k8s_prog c).
Proof.
  destruct c; cbn [k8s_prog]; unfold finish; apply within_bind; try done.
  - unfold RegisterHandler. destruct (find _ _); [done|]. destruct (bool_decide _); [done|]. destruct (str_empty _); [done|]. destruct (negb _); [done|].
    apply within_bind_ok; [apply within_query; apply _|]. intros n. destruct (_ <=? _); [done|]. cbv zeta. apply within_bind_ok; [|done]. apply within_exec_o. intros d.
    destruct (insertable_handler _ d) eqn:E; [by apply insert_handler_step|reflexivity].
  - apply within_exec_o. intros d. apply handler_delete_step.
  - apply within_exec_o. intros d. destruct (valid_handler_status status) eqn:E; [by apply status_step|reflexivity].
  - unfold Dispatch. destruct (negb _); [done|]. destruct (str_empty _); [done|]. apply within_bind_ok; [apply within_query; apply _|]. intros l. apply dispatch_all_within.
  - apply within_exec_o. intros d. destruct (valid_run_status status) eqn:E; [by apply run_status_step|reflexivity].
  - unfold service_GetJobLogs. destruct (negb _); [done|]. unfold GetJobLogs. destruct runner; [|done]. apply within_query_o. apply _.
Qed.

(** C38. However handlers are registered, switched, deleted and dispatched to
    concurrently, with any statement failing and the cluster doing as it likes:
    an agent on record has an image in a namespace at most once, timeouts are between a
    minute and an hour, every recorded run is of a handler on record, and a run
    keeps what it records until its handler is deleted. *)
Theorem k8s_history (cs : list k8s_call) (d : k8s_db) ps (d' : k8s_db)
  (Hinit : k8s_ok d) (Hrun : rtc (pool_step k8s_time) (k8s_prog <$> cs, d) (ps, d')) :
  k8s_ok d' /\ k8s_after d d'.
Proof.
  destruct (pool_invariant k8s_ok k8s_after (A := unit) k8s_time) with (ps := k8s_prog <$> cs) (ps' := ps) (Q := fun (_ : nat) (_ : unit) (_ : k8s_db) => True) (3 := Hinit) (4 := Hrun) as (H1&H2&_); [| |by split].
  - intros x y Hx (s&n&c&Hs&Hn&->). by apply later_step.
  - intros i p Hp. rewrite list_lookup_fmap in Hp. destruct (cs !! i) as [c|]; [|done]. injection Hp as <-.
    apply (within_rg _ _ k8s_step); [intros x y HI H; by apply H|apply k8s_prog_within].
Qed.
End History.

(** ** One dispatch *)
Section Dispatch.
Context {HEng : Engine} {HMap : GoMapOrder} {HUni : GoUnicode} {HJson : GoJson} {HKube : Kube} {HSuf : JobSuffix} (ns : string) (time_text : Z -> string).

Definition quantities_ok (h : K8sHandler) : Prop := forallb (fun l => valid_quantity l.2) (job_limits h) = true.
Definition pending (r : K8sJobRun) : bool := String.eqb (Run_Status r) "pending".
Definition the_job (agentName : string) (messageID : Z) : string := sanitizeJobName ("synapbus-" +:+ agentName +:+ "-" +:+ pretty messageID).
Definition space_of (h : K8sHandler) : string := if str_empty (h_Namespace h) then ns else h_Namespace h.
(** The run one handler is recorded with. *)
Definition recorded (event : MessageEvent) (d' : k8s_db) (h : handler_row) (r : K8sJobRun) : Prop :=
  HandlerID r = Hd_ID h /\ Run_AgentName r = h_AgentName (Hd h) /\ Run_MessageID r = ev_Message event /\
  if pending r then JobName r = the_job (h_AgentName (Hd h)) (ev_Message event) /\ Run_Namespace r = space_of (Hd h) /\ in_use (Run_Namespace r, JobName r) (jobs d') = true
  else Run_Status r = "failed" /\ FailureReason r = k8s_error_text ECreateJob.
Definition keeps_jobs (d d' : k8s_db) : Prop := forall k, in_use k (jobs d) = true -> in_use k (jobs d') = true.

Lemma k8s_recorded_later event d d' h r : keeps_jobs d d' -> recorded event d h r -> recorded event d' h r.
Proof. intros Hk (H1&H2&H3&H4). unfold recorded. split_and!; [done..|]. destruct (pending r); [|done]. destruct H4 as (?&?&?). split_and!; [done..|by apply Hk]. Qed.

Lemma k8s_dispatch_one_run event h d : ev_Message event <> 0 -> quantities_ok (Hd h) -> existsb (by_id (Hd_ID h)) (rows (k8s_handlers d)) = true ->
  exists r d', run_ok (dispatch_one (Some ns) time_text event h) d = (Ok tt, d') /\ k8s_handlers d' = k8s_handlers d /\ rows (k8s_job_runs d') = rows (k8s_job_runs d) ++ [r] /\
    recorded event d' h r /\ keeps_jobs d d' /\ (pending r = true -> in_use (space_of (Hd h), the_job (h_AgentName (Hd h)) (ev_Message event)) (jobs d) = false).
Proof.
  intros Hm Hq Hh. unfold dispatch_one, CreateJob. cbn [jm_MessageID]. rewrite (proj2 (Z.eqb_neq _ _) Hm), Hq. unfold run_ok. cbn -[create_job job_name insertable_run].
  set (job := mkJobSpec _ _ _ _ _ _ _ _ _ _ _). destruct (create_job job (jobs d)) as [c|] eqn:Ec.
  - destruct (create_uses _ _ _ Ec) as [Hu Hk]. assert (insertable_run (pending_run (Some ns) h event (js_Name job) (now d)) (set_jobs c d) = true) as Ei by (unfold insertable_run; cbn; by rewrite Hh).
    cbn -[insertable_run] in Ei |- *. rewrite Ei. eexists _, _. split; [reflexivity|]. split; [done|]. split; [reflexivity|]. split; [|split; [exact Hk|]].
    + unfold recorded. split_and!; [done..|]. cbn. split_and!; [done|done|exact Hu].
    + intros _. destruct (in_use (space_of (Hd h), _) (jobs d)) eqn:Eu; [|done]. pose proof (create_in_use job (jobs d) Eu). congruence.
  - assert (insertable_run (failed_run h event ECreateJob (now d)) d = true) as Ei by (unfold insertable_run; cbn; by rewrite Hh).
    cbn -[insertable_run] in Ei |- *. rewrite Ei. eexists _, _. split; [reflexivity|]. split; [done|]. split; [reflexivity|]. split; [unfold recorded; by split_and!|]. split; [by intros k|discriminate].
Qed.

Definition started (l : list K8sJobRun) : list K8sJobRun := filter (fun r => pending r = true) l.
Lemma dispatch_all_run event agentName l : forall d, ev_Message event <> 0 -> (forall h, h ∈ l -> quantities_ok (Hd h) /\ h_AgentName (Hd h) = agentName /\ existsb (by_id (Hd_ID h)) (rows (k8s_handlers d)) = true) ->
  exists runs d', run_ok (dispatch_all (Some ns) time_text event l) d = (Ok tt, d') /\ k8s_handlers d' = k8s_handlers d /\ rows (k8s_job_runs d') = rows (k8s_job_runs d) ++ runs /\
    Forall2 (recorded event d') l runs /\ keeps_jobs d d' /\ NoDup (Run_Namespace <$> started runs) /\
    forall r, r ∈ started runs -> in_use (Run_Namespace r, the_job agentName (ev_Message event)) (jobs d) = false.
Proof.
  induction l as [|h l IH]; intros d Hm Hl.
  { exists [], d. rewrite app_nil_r. do 4 (split; [done|]). split; [by intros k|]. split; [constructor|]. intros r Hr. by apply elem_of_nil in Hr. }
  destruct (Hl h) as (Hq&Ha&Hh); [by left|]. destruct (k8s_dispatch_one_run event h d Hm Hq Hh) as (r&d1&E1&Eh1&Er1&Hr1&Hk1&Hp1).
  destruct (IH d1 Hm) as (runs&d2&E2&Eh2&Er2&Hr2&Hk2&Hn2&Hp2); [intros x Hx; rewrite Eh1; apply Hl; by right|].
  exists (r :: runs), d2. cbn [dispatch_all]. rewrite run_ok_bind_ok, E1, E2. split_and!; [done|congruence|by rewrite Er2, Er1, <- app_assoc| |by intros k Hk; apply Hk2, Hk1| |].
  - constructor; [by apply (k8s_recorded_later _ d1)|done].
  - unfold started. rewrite filter_cons. destruct (decide (pending r = true)) as [Ep|]; [|exact Hn2]. rewrite fmap_cons. constructor; [|exact Hn2].
    intros (r'&E&Hr')%list_elem_of_fmap. specialize (Hp2 r' Hr'). destruct Hr1 as (_&_&_&Hr1). rewrite Ep in Hr1. destruct Hr1 as (Ej&_&Eu). rewrite Ej, Ha, E in Eu. congruence.
  - unfold started. rewrite filter_cons. intros x Hx. assert (x = r /\ pending r = true \/ x ∈ started runs) as [[-> Ep]|Hx'].
    { destruct (decide (pending r = true)) as [Ep|]; [apply elem_of_cons in Hx as [->|Hx]; [left; by split|right; exact Hx]|right; exact Hx]. }
    + specialize (Hp1 Ep). destruct Hr1 as (_&_&_&Hr1). rewrite Ep in Hr1. destruct Hr1 as (_&En&_). rewrite En. by rewrite Ha in Hp1.
    + specialize (Hp2 x Hx'). apply not_true_iff_false. intros Eu%Hk1. congruence.
Qed.

(** A message to an agent, undisturbed: each active handler of the agent
    that listens to the event gets exactly one run recorded, pending with its
    job in the cluster or failed with the reason, and nothing else is recorded;
    and since the name of a job is made of agent and message only, at most one
    of them starts in each namespace. *)
Theorem k8s_dispatch_exact (event : MessageEvent) (d : k8s_db)
  (Hmsg : ev_Message event <> 0) (Hto : ev_ToAgent event <> EmptyString)
  (Hquant : forall h, h ∈ rows (k8s_handlers d) -> quantities_ok (Hd h)) :
  exists listeners runs d', run_ok (Dispatch (Some ns) time_text event) d = (Ok tt, d') /\
    Permutation listeners (select (fun h => of_agent (ev_ToAgent event) h && String.eqb (h_Status (Hd h)) HandlerStatusActive && listens (EventType event) h) (k8s_handlers d)) /\
    k8s_handlers d' = k8s_handlers d /\ rows (k8s_job_runs d') = rows (k8s_job_runs d) ++ runs /\
    Forall2 (recorded event d') listeners runs /\ NoDup (Run_Namespace <$> started runs).
Proof.
  set (l := filter (fun r => listens (EventType event) r = true) (select_by handler_newest (fun r => of_agent (ev_ToAgent event) r && String.eqb (h_Status (Hd r)) HandlerStatusActive) (k8s_handlers d))).
  destruct (dispatch_all_run event (ev_ToAgent event) l d Hmsg) as (runs&d'&E&Eh&Er&Hr&_&Hn&_).
  { intros h [_ [[Ha _]%andb_true_iff Hin]%elem_of_select_by]%list_elem_of_filter. split; [by apply Hquant|]. split; [by apply String.eqb_eq|].
    apply existsb_some. exists h. split; [done|]. apply Z.eqb_refl. }
  exists l, runs, d'. split_and!; [|unfold l; rewrite select_by_perm; unfold select; rewrite list_filter_filter|done..].
  - unfold Dispatch. change (negb (IsAvailable (Some ns))) with false. cbn [negb]. unfold str_empty. rewrite bool_decide_eq_false_2 by done. rewrite run_ok_bind_ok. exact E.
  - apply Permutation_refl', list_filter_iff. intros h. rewrite !andb_true_iff. tauto.
Qed.
End Dispatch.

Section Cap.
Context {HEng : Engine} {HUni : GoUnicode} {HJson : GoJson} {HKube : Kube}.
Definition handlers_of (agentName : string) (d : k8s_db) : Z := Z.of_nat (length (select (of_agent agentName) (k8s_handlers d))).
(** Calls that do not overlap keep to the limit, whatever fails. *)
Lemma register_cap runner agentName req d : handlers_of agentName d <= MaxHandlersPerAgent ->
  wp (RegisterHandler runner agentName req) (fun o d' => handlers_of agentName d' <= MaxHandlersPerAgent /\
    (forall other, other <> agentName -> handlers_of other d' = handlers_of other d)) d.
Proof.
  intros Hcap. unfold RegisterHandler. destruct (find _ _); [by split|]. destruct (bool_decide _); [by split|]. destruct (str_empty _); [by split|]. destruct (negb _); [by split|].
  apply wp_bind_ok. split; cbn [wp]; [|by split]. fold (handlers_of agentName d). destruct (Z.leb_spec MaxHandlersPerAgent (handlers_of agentName d)) as [|Hlt]; [by split|].
  cbv zeta. apply wp_bind_ok. split; cbn [wp]; [|by split]. set (h := mkK8sHandler _ _ _ _ _ _ _ _ _ _ _ _). destruct (insertable_handler h d); cbn [wp]; [|by split].
  unfold handlers_of, insert_handler, select. cbn [k8s_handlers set_handlers insert_row rows]. split; [|intros other Hne]; rewrite filter_app, length_app, filter_cons, filter_nil.
  - unfold handlers_of, select in Hlt. destruct (decide _); cbn [length]; lia.
  - rewrite decide_False; [cbn [length]; f_equal; lia|]. intros E%String.eqb_eq. by apply Hne.
Qed.
End Cap.

(** ** Runs of the Kubernetes jobs

    Witnesses of the theorems, and runs that show their edges, on a cluster that
    is the set of the job names in use. *)

Module KubernetesRuns.
#[local] Existing Instance rowid_engine.
#[local] Instance ascii_lower : GoUnicode := {| ToLower := sql_lower; ToLower_ascii := fun s _ => eq_refl |}.
#[local] Instance plain_json : GoJson := {| float_text := Some; utf8_coerce := fun s => s |}.
#[local] Instance given_order : GoMapOrder := {| range_order := fun _ l => l; range_perm := fun A l => Permutation_refl l |}.
Definition short_text (e : k8s_error) : string := match e with ECreateJob => "create kubernetes job" | _ => "error" end.
#[local] Program Instance name_set : Kube := {|
  cluster := gset (string * string);
  create_job j c := if bool_decide (job_key j ∈ c) then None else Some ({[job_key j]} ∪ c);
  pod_logs _ _ _ := Some [];
  valid_quantity s := negb (String.eqb s "lots");
  in_use k c := bool_decide (k ∈ c);
  k8s_error_text := short_text
|}.
Next Obligation. intros j c H. cbn in H |- *. by rewrite H. Qed.
Next Obligation.
  intros j c c'. cbn. destruct (bool_decide _); [done|]. intros [= <-]. split; [apply bool_decide_eq_true; set_solver|].
  intros k Hk%bool_decide_eq_true. apply bool_decide_eq_true. set_solver.
Qed.
#[local] Program Instance one_suffix : JobSuffix := {| unique_suffix := Ret "17-ab" |}.
Next Obligation. done. Qed.

Fixpoint letters (n : nat) : string := match n with O => EmptyString | S n => String (Ascii.ascii_of_nat 97) (letters n) end.
Definition blank : k8s_db := mkK8sDb 10 {[ "bot"; letters 60 ]} empty_table empty_table ∅.
Lemma blank_k8s_ok : k8s_ok blank.
Proof. split_and!; [apply table_ok_empty|apply table_ok_empty|constructor| |]; intros x Hx; by apply elem_of_nil in Hx. Qed.
Definition ns : option string := Some "agents".
Definition time_text (t : Z) : string := pretty t.
Definition image (i : string) (timeout : Z) : RegisterHandlerRequest := mkRegisterHandlerRequest i ["message.received"] "" "64Mi" "" {["B" := "2"]} timeout.
Definition to (agentName : string) (id : Z) : MessageEvent := mkMessageEvent "message.received" id "ann" agentName "" "hello" 5 "" 0 [].

(** Two registrations, a dispatch and a deletion, interleaved; the first INSERT
    of the second registration fails. *)
Definition calls : list k8s_call := [KRegister "bot" (image "a:1" 0); KRegister "bot" (image "b:1" 0); KDispatch (to "bot" 7); KStatus 1 "disabled"].
Definition schedule : list (nat * bool) :=
  [(0, false); (1, false); (0, false); (1, true)]%nat ++ concat (repeat [(2, false)]%nat 6) ++ [(3, false)]%nat.
Definition k8s_run := run_schedule schedule (k8s_prog ns time_text <$> calls) blank.
Lemma k8s_history_witness :
  k8s_ok k8s_run.2 /\ (fun h => (h_Image (Hd h), h_Status (Hd h))) <$> rows (k8s_handlers k8s_run.2) = [("a:1", "disabled")] /\
  (fun r => (JobName r, Run_Status r)) <$> rows (k8s_job_runs k8s_run.2) = [("synapbus-bot-7", "pending")].
Proof.
  destruct (k8s_history ns time_text calls blank k8s_run.1 k8s_run.2 blank_k8s_ok) as [H _].
  - rewrite <- surjective_pairing. apply run_schedule_reachable.
  - split; [exact H|]. split; by vm_compute.
Defined.

Definition two : k8s_db := (run_ok (RegisterHandler ns "bot" (image "b:1" 0)) (run_ok (RegisterHandler ns "bot" (image "a:1" 0)) blank).2).2.
Definition dispatched : k8s_db := (run_ok (Dispatch ns time_text (to "bot" 7)) two).2.
(** The name of a job does not tell the handlers of an agent apart: of two that
    listen to the same message in one namespace, the second is refused by the
    cluster. *)
Lemma k8s_dispatch_exact_witness :
  exists runs, rows (k8s_job_runs dispatched) = runs /\ NoDup (Run_Namespace <$> started runs) /\
    (fun r => (HandlerID r, JobName r, Run_Status r)) <$> runs = [(1, "synapbus-bot-7", "pending"); (2, "failed-7", "failed")].
Proof.
  destruct (k8s_dispatch_exact "agents" time_text (to "bot" 7) two) as (hs&runs&d'&E&_&_&Er&_&Hn).
  - done.
  - done.
  - intros h Hh. assert (Forall (fun h => forallb (fun l => valid_quantity l.2) (job_limits (Hd h)) = true) (rows (k8s_handlers two))) as Hall
      by (apply (bool_decide_eq_true_1 (Forall _ _)); by vm_compute).
    rewrite Forall_forall in Hall. by apply Hall.
  - exists runs. assert (rows (k8s_job_runs dispatched) = runs) as Ed by (unfold dispatched; change ns with (Some "agents"); rewrite E; exact Er).
    split; [exact Ed|]. split; [exact Hn|]. rewrite <- Ed. by vm_compute.
Defined.

(** A long name of an agent pushes the message out of the name of its job: the
    second message to it finds the name of the first in use. *)
Theorem long_names_collide :
  let d := (run_ok (RegisterHandler ns (letters 60) (image "a:1" 0)) blank).2 in
  let d := (run_ok (Dispatch ns time_text (to (letters 60) 8)) (run_ok (Dispatch ns time_text (to (letters 60) 7)) d).2).2 in
  Run_Status <$> rows (k8s_job_runs d) = ["pending"; "failed"].
Proof. by vm_compute. Qed.
(** The cut happens after the hyphens are trimmed. *)
Theorem name_ends_in_hyphen : last (chars (sanitizeJobName ("synapbus-" +:+ letters 53 +:+ "-7"))) = Some dash_char.
Proof. by vm_compute. Qed.

(** The service takes any timeout, the table only 60 to 3600 seconds; and a
    quantity nobody checked stops the dispatcher at the first message. *)
Theorem unchecked_requests :
  (run_ok (RegisterHandler ns "bot" (image "a:1" 30)) blank).1 = Err EK8sDb /\
  let d := (run_ok (RegisterHandler ns "bot" (mkRegisterHandlerRequest "a:1" ["message.received"] "" "lots" "" ∅ 0)) blank).2 in
  (run_ok (Dispatch ns time_text (to "bot" 7)) d).1 = Panic "cannot parse quantity".
Proof. split; by vm_compute. Qed.

(** Counted before inserted: two registrations that overlap pass the limit. *)
Definition reg (i : string) : k8s_call := KRegister "bot" (image i 0).
Theorem cap_raced :
  let d := (run_ok (RegisterHandler ns "bot" (image "c:1" 0)) two).2 in
  let d' := (run_schedule [(0, false); (1, false); (0, false); (1, false)]%nat (k8s_prog ns time_text <$> [reg "d:1"]) two).2 in
  let d4 := (run_schedule [(0, false); (1, false); (0, false); (1, false)]%nat (k8s_prog ns time_text <$> [reg "d:1"; reg "e:1"]) two).2 in
  handlers_of "bot" d = 3 /\ handlers_of "bot" d' = 3 /\ handlers_of "bot" d4 = 4.
Proof. cbv zeta. split_and!; by vm_compute. Qed.

(** A job whose run cannot be recorded goes on in the cluster unrecorded. *)
Theorem job_without_run :
  let r := run_schedule ([(0, false); (0, false); (0, false); (0, false); (0, true); (0, false)]%nat) (k8s_prog ns time_text <$> [KDispatch (to "bot" 7)])
             (run_ok (RegisterHandler ns "bot" (image "a:1" 0)) blank).2 in
  rows (k8s_job_runs r.2) = [] /\ in_use ("agents", "synapbus-bot-7") (jobs r.2) = true.
Proof. cbv zeta. split; [by vm_compute|]. split; by vm_compute. Qed.
End KubernetesRuns.
