(* ===== verification/Marketplace.v ===== *)
(** * The agent marketplace (internal/marketplace: store.go, service.go)

    Auctions of [Auction] with typed requirements and bids, skill cards kept in
    the wiki of [Wiki], and a ledger of reputation.  The state holds the three
    components; a call of one of them runs inside it ([Gateway.focus]). *)
From stdpp Require Import pretty.
From S2P Require Import Prelude Prog Table Schema Messaging Agents Channels Auction Retention AuthHandlers Float64 Wiki Gateway.

(** ** The ledger (store.go) *)
Record ReputationEntry := mkReputationEntry {
  Rep_ID : Z; Rep_AgentName : string; Rep_Domain : string; Rep_TaskID : option Z; EstimatedTokens : Z; ActualTokens : Z;
  SuccessScore : spec_float; DifficultyWeight : spec_float; Rep_CompletedAt : Z
}.
#[export] Instance reputation_row : Row ReputationEntry := Rep_ID.
Record ReputationSummary := mkReputationSummary {
  Sum_AgentName : string; Sum_Domain : string; TasksCompleted : Z; AvgSuccessScore : spec_float; WeightedSuccessScore : spec_float;
  AvgEstimatedTokens : Z; AvgActualTokens : Z
}.
Record market_db := mkMarketDb { mk_db : db; mk_wiki : wiki_db; agent_reputation : table ReputationEntry }.
Inductive market_error := MDb (e : error) | MWiki (e : wiki_error) | MSql | MAgentRequired | MDomainRequired | MMarshal | MNoWinner (task : Z).

(** Numbers as [encoding/json] writes and reads them, [int64(x)] outside the
    integers, SQLite's SUM over reals, and [strconv.Quote]. *)
Class MarketText := {
  format_float : spec_float -> string;
  parse_float : string -> option spec_float;
  format_zero : parse_float (format_float f64_zero) = Some f64_zero;
  parse_format : forall s m e, parse_float (format_float (S754_finite s m e)) = Some (S754_finite s m e);
  float_overflow : spec_float -> Z;
  sql_sum : list spec_float -> spec_float;
  Quote : string -> string
}.
(** [int64(x)]: towards zero. *)
Definition f64_trunc (x : spec_float) : option Z :=
  match x with
  | S754_zero _ => Some 0
  | S754_finite s m e =>
      let v := if 0 <=? e then Z.pos m * 2 ^ e else Z.pos m / 2 ^ (- e) in
      let v := if s then - v else v in
      if (int64_min <=? v) && (v <=? int64_max) then Some v else None
  | _ => None
  end.
Definition f64_is_zero (x : spec_float) : bool := match x with S754_zero _ => true | _ => false end.
Definition f64_finite (x : spec_float) : bool := match x with S754_zero _ | S754_finite _ _ _ => true | _ => false end.

Section Marketplace.
Context {HEng : Engine} {HJson : GoJson} {HLink : AttachmentLinker} {HLow : GoUnicode} {HFTS : ArticleFTS} {HFold : FoldEqual} {HText : MarketText}.
Abbreviation K B := (prog market_db (outcome market_error B)).

Definition put_mk_db (d : db) (w : market_db) : market_db := mkMarketDb d (mk_wiki w) (agent_reputation w).
Definition put_mk_wiki (d : wiki_db) (w : market_db) : market_db := mkMarketDb (mk_db w) d (agent_reputation w).
Definition set_reputation (t : table ReputationEntry) (w : market_db) : market_db := mkMarketDb (mk_db w) (mk_wiki w) t.
Definition in_db {B} (p : M B) : K B := let! r := focus mk_db put_mk_db p in Ret (map_error MDb r).
Definition in_wiki {B} (p : prog wiki_db (outcome wiki_error B)) : K B := let! r := focus mk_wiki put_mk_wiki p in Ret (map_error MWiki r).

Definition int_of_float (x : spec_float) : Z := default (float_overflow x) (f64_trunc x).

(** NOT NULL: a NaN is NULL to SQLite. *)
Definition storable_entry (e : ReputationEntry) : bool := negb (f64_is_nan (SuccessScore e)) && negb (f64_is_nan (DifficultyWeight e)).
Definition with_entry_id (e : ReputationEntry) (t id : Z) : ReputationEntry :=
  mkReputationEntry id (Rep_AgentName e) (Rep_Domain e) (Rep_TaskID e) (EstimatedTokens e) (ActualTokens e) (SuccessScore e) (DifficultyWeight e) t.
Definition normal_entry (e : ReputationEntry) : ReputationEntry :=
  mkReputationEntry (Rep_ID e) (Rep_AgentName e) (Rep_Domain e) (match Rep_TaskID e with Some t => if 0 <? t then Some t else None | None => None end)
    (EstimatedTokens e) (ActualTokens e) (SuccessScore e) (if f64_is_zero (DifficultyWeight e) then f64_one else DifficultyWeight e) (Rep_CompletedAt e).
Definition insert_entry (e : ReputationEntry) (w : market_db) : market_db :=
  set_reputation (insert_row (with_entry_id e (clock (mk_db w))) (agent_reputation w)) w.
Definition RecordEntry (e : ReputationEntry) : K ReputationEntry :=
  if str_empty (Rep_AgentName e) then Ret (Err MAgentRequired)
  else if str_empty (Rep_Domain e) then Ret (Err MDomainRequired)
  else
    let e := normal_entry e in
    exec_o MSql (fun w => if storable_entry e then insert_entry e w else w)
      (fun w => if storable_entry e then Ok (with_entry_id e (Rep_CompletedAt e) (next_id (agent_reputation w))) else Err MSql).

Definition entry_newest (a b : ReputationEntry) : Prop := Rep_CompletedAt b <= Rep_CompletedAt a.
#[export] Instance entry_newest_dec a b : Decision (entry_newest a b).
Proof. unfold entry_newest. apply _. Defined.
Definition entry_of (agent domain : string) (e : ReputationEntry) : bool :=
  String.eqb (Rep_AgentName e) agent && (str_empty domain || String.eqb (Rep_Domain e) domain).
Definition entries_limit (limit : Z) : Z := if (limit <=? 0) || (500 <? limit) then 100 else limit.
Definition ListEntries (agent domain : string) (limit : Z) : K (list ReputationEntry) :=
  if str_empty agent then Ret (Err MAgentRequired)
  else query MSql (fun w => page (entries_limit limit) 0 (select_by entry_newest (entry_of agent domain) (agent_reputation w))).

(** A SUM of integers fails when it overflows; it is read as a [float64]. *)
Definition int_sum (l : list Z) : option Z :=
  let s := foldr Z.add 0 l in if (int64_min <=? s) && (s <=? int64_max) then Some s else None.
Definition average (sum : spec_float) (count : Z) : spec_float := f64_div sum (f64_of_Z count).
Definition summarise (agent domain : string) (l : list ReputationEntry) (est act : Z) : ReputationSummary :=
  let count := Z.of_nat (length l) in
  let weights := sql_sum (DifficultyWeight <$> l) in
  mkReputationSummary agent domain count
    (if 0 <? count then average (sql_sum (SuccessScore <$> l)) count else f64_zero)
    (if (0 <? count) && f64_lt f64_zero weights then f64_div (sql_sum ((fun e => f64_mul (SuccessScore e) (DifficultyWeight e)) <$> l)) weights else f64_zero)
    (if 0 <? count then int_of_float (average (f64_of_Z est) count) else 0)
    (if 0 <? count then int_of_float (average (f64_of_Z act) count) else 0).
Definition Summary (agent domain : string) : K ReputationSummary :=
  if str_empty agent then Ret (Err MAgentRequired)
  else if str_empty domain then Ret (Err MDomainRequired)
  else query_o MSql (fun w =>
    let l := scan (select (entry_of agent domain) (agent_reputation w)) in
    match int_sum (EstimatedTokens <$> l), int_sum (ActualTokens <$> l) with
    | Some est, Some act => Ok (summarise agent domain l est act)
    | _, _ => Err MSql
    end).

(** ** What tasks and bids carry as JSON (service.go) *)
Record AuctionTaskMeta := mkTaskMeta { AcceptanceCriteria : string; MaxBudgetTokens : Z; Domains : list string; Meta_Difficulty : spec_float; CurrentSpendTokens : Z }.
Record BidMeta := mkBidMeta { Meta_Estimated : Z; Confidence : spec_float; Approach : string; ManifestRevision : Z }.
Definition task_meta_zero : AuctionTaskMeta := mkTaskMeta "" 0 [] f64_zero 0.
Definition bid_meta_zero : BidMeta := mkBidMeta 0 f64_zero "" 0.

(** [omitempty]. *)
Definition member (key : string) (empty : bool) (v : json) : list (string * json) := if empty then [] else [(key, v)].
Definition marshal_task (m : AuctionTaskMeta) : option rawjson :=
  if f64_finite (Meta_Difficulty m) then
    Some (RawJson (JObj (member "acceptance_criteria" (str_empty (AcceptanceCriteria m)) (json_string (AcceptanceCriteria m)) ++
      member "max_budget_tokens" (MaxBudgetTokens m =? 0) (JNum (pretty (MaxBudgetTokens m))) ++
      member "domains" (bool_decide (Domains m = [])) (JArr (json_string <$> Domains m)) ++
      member "difficulty_weight" (f64_is_zero (Meta_Difficulty m)) (JNum (format_float (Meta_Difficulty m))) ++
      member "current_spend_tokens" (CurrentSpendTokens m =? 0) (JNum (pretty (CurrentSpendTokens m))))))
  else None.
Definition marshal_bid (m : BidMeta) : option rawjson :=
  if f64_finite (Confidence m) then
    Some (RawJson (JObj (member "estimated_tokens" (Meta_Estimated m =? 0) (JNum (pretty (Meta_Estimated m))) ++
      member "confidence" (f64_is_zero (Confidence m)) (JNum (format_float (Confidence m))) ++
      member "approach" (str_empty (Approach m)) (json_string (Approach m)) ++
      member "manifest_revision" (ManifestRevision m =? 0) (JNum (pretty (ManifestRevision m))))))
  else None.

(** A member of the wrong type is skipped, and so is [null]; a [null] list is
    empty.  Elements that are no texts keep what the list held. *)
Definition decode_string (v : json) (old : string) : string := match v with JStr s => s | _ => old end.
Definition decode_int (v : json) (old : Z) : Z := match v with JNum l => default old (Atoi l) | _ => old end.
Definition decode_float (v : json) (old : spec_float) : spec_float := match v with JNum l => default old (parse_float l) | _ => old end.
Fixpoint decode_elements (l : list json) (old : list string) : list string :=
  match l with
  | [] => []
  | x :: rest => decode_string x (default EmptyString (head old)) :: decode_elements rest (tail old)
  end.
Definition decode_strings (v : json) (old : list string) : list string :=
  match v with JArr l => decode_elements l old | JNull => [] | _ => old end.
Definition task_member (m : AuctionTaskMeta) (kv : string * json) : AuctionTaskMeta :=
  let '(k, v) := kv in
  if EqualFold k "acceptance_criteria" then mkTaskMeta (decode_string v (AcceptanceCriteria m)) (MaxBudgetTokens m) (Domains m) (Meta_Difficulty m) (CurrentSpendTokens m)
  else if EqualFold k "max_budget_tokens" then mkTaskMeta (AcceptanceCriteria m) (decode_int v (MaxBudgetTokens m)) (Domains m) (Meta_Difficulty m) (CurrentSpendTokens m)
  else if EqualFold k "domains" then mkTaskMeta (AcceptanceCriteria m) (MaxBudgetTokens m) (decode_strings v (Domains m)) (Meta_Difficulty m) (CurrentSpendTokens m)
  else if EqualFold k "difficulty_weight" then mkTaskMeta (AcceptanceCriteria m) (MaxBudgetTokens m) (Domains m) (decode_float v (Meta_Difficulty m)) (CurrentSpendTokens m)
  else if EqualFold k "current_spend_tokens" then mkTaskMeta (AcceptanceCriteria m) (MaxBudgetTokens m) (Domains m) (Meta_Difficulty m) (decode_int v (CurrentSpendTokens m))
  else m.
Definition bid_member (m : BidMeta) (kv : string * json) : BidMeta :=
  let '(k, v) := kv in
  if EqualFold k "estimated_tokens" then mkBidMeta (decode_int v (Meta_Estimated m)) (Confidence m) (Approach m) (ManifestRevision m)
  else if EqualFold k "confidence" then mkBidMeta (Meta_Estimated m) (decode_float v (Confidence m)) (Approach m) (ManifestRevision m)
  else if EqualFold k "approach" then mkBidMeta (Meta_Estimated m) (Confidence m) (decode_string v (Approach m)) (ManifestRevision m)
  else if EqualFold k "manifest_revision" then mkBidMeta (Meta_Estimated m) (Confidence m) (Approach m) (decode_int v (ManifestRevision m))
  else m.
Definition unmarshal_task (r : rawjson) : AuctionTaskMeta := match r with RawJson (JObj ms) => foldl task_member task_meta_zero ms | _ => task_meta_zero end.
Definition unmarshal_bid (r : rawjson) : BidMeta := match r with RawJson (JObj ms) => foldl bid_member bid_meta_zero ms | _ => bid_meta_zero end.

(** ** The service *)
Fixpoint underscores_to_hyphens (s : string) : string :=
  match s with
  | EmptyString => EmptyString
  | String a r => String (if Ascii.eqb a (Ascii.ascii_of_nat 95) then Ascii.ascii_of_nat 45 else a) (underscores_to_hyphens r)
  end.
Definition SkillCardSlug (agentName : string) : string := "agent-" +:+ underscores_to_hyphens (ToLower (trim_space agentName)).
Definition ReadSkillCard (agentName : string) : K (option Article) :=
  let! r := in_wiki (GetArticle (SkillCardSlug agentName)) in
  Ret (match r with
       | Ok a => Ok (Some a)
       | Err (MWiki (EArticleNotFound _)) => Ok None
       | Err e => Err e
       | Panic w => Panic w
       end).

Definition PostAuction (channelID : Z) (agentName title description : string) (meta : AuctionTaskMeta) (deadline : option Z) : K Task :=
  let meta := if f64_is_zero (Meta_Difficulty meta)
              then mkTaskMeta (AcceptanceCriteria meta) (MaxBudgetTokens meta) (Domains meta) f64_one (CurrentSpendTokens meta) else meta in
  match marshal_task meta with
  | None => Ret (Err MMarshal)
  | Some reqs => in_db (PostTask channelID agentName title description reqs deadline)
  end.
Definition service_Bid (taskID : Z) (agentName : string) (meta : BidMeta) (timeEstimate : string) : K Bid :=
  match marshal_bid meta with
  | None => Ret (Err MMarshal)
  | Some caps => in_db (BidOnTask taskID agentName caps timeEstimate (Approach meta))
  end.

Definition award_meta (taskID bidID channelID : Z) (awarder : string) : rawjson :=
  RawJson (JObj [("awarded_by", json_string awarder); ("bid_id", JNum (pretty bidID)); ("channel_id", JNum (pretty channelID)); ("marketplace", JStr "awarded");
                 ("task_id", JNum (pretty taskID))]).
Definition award_body (task : Task) : string :=
  "Auction awarded: task " +:+ pretty (Task_ID task) +:+ " — " +:+ Quote (Task_Title task) +:+ ". Use mark_task_done to complete.".
(** The assignee, or the agent of the accepted bid. *)
Definition winner (task : Task) (bids : list Bid) (bidID : Z) : string :=
  if str_empty (AssignedTo task) then default EmptyString (Bid_AgentName <$> find (fun b => Bid_ID b =? bidID) bids) else AssignedTo task.
Definition Award (taskID bidID : Z) (awarderAgent : string) : K (string * Z) :=
  let? _ := in_db (AcceptBid taskID bidID awarderAgent) in
  let? tb := in_db (GetTaskWithBids taskID) in
  let '(task, bids) := tb in
  let winningAgent := winner task bids bidID in
  if str_empty winningAgent then Ret (Err (MNoWinner taskID))
  else
    let! msg := in_db (SendMessage awarderAgent winningAgent (award_body task)
                  (mkSendOptions ("Awarded: " +:+ Task_Title task) 8 (award_meta taskID bidID (Task_ChannelID task) awarderAgent) None None None [])) in
    match msg with
    | Ok m => Ret (Ok (winningAgent, Msg_ID m))
    | Err _ => Ret (Ok (winningAgent, 0))
    | Panic w => Ret (Panic w)
    end.

Definition clamp_score (s : spec_float) : spec_float :=
  let s := if f64_lt s f64_zero then f64_zero else s in if f64_lt f64_one s then f64_one else s.
(** What was recorded before a failure stays in the ledger; the answer returned
    beside the error, the entries so far, is dropped by the only caller and here. *)
Fixpoint record_all (es : list ReputationEntry) : K (list ReputationEntry) :=
  match es with
  | [] => Ret (Ok [])
  | e :: rest => let? e := RecordEntry e in let? more := record_all rest in Ret (Ok (e :: more))
  end.
Definition estimate_of (bids : list Bid) : Z :=
  match find (fun b => bool_decide (Bid_Status b = BidStatusAccepted)) bids with Some b => Meta_Estimated (unmarshal_bid (Bid_Capabilities b)) | None => 0 end.
Definition task_domains (m : AuctionTaskMeta) : list string := match Domains m with [] => ["general"] | l => l end.
Definition task_weight (m : AuctionTaskMeta) : spec_float := if f64_is_zero (Meta_Difficulty m) then f64_one else Meta_Difficulty m.
Definition outcome_entry (task : Task) (bids : list Bid) (agentName : string) (actualTokens : Z) (score : spec_float) (domain : string) : ReputationEntry :=
  mkReputationEntry 0 agentName domain (Some (Task_ID task)) (estimate_of bids) actualTokens score (task_weight (unmarshal_task (Requirements task))) zero_time.
Definition completed (t : Task) : Task :=
  mkTask (Task_ID t) (Task_ChannelID t) (PostedBy t) (Task_Title t) (Task_Description t) (Requirements t) (Deadline t) TaskStatusCompleted (AssignedTo t) (Task_CreatedAt t) (Task_UpdatedAt t).
Definition MarkTaskDone (taskID : Z) (agentName : string) (actualTokens : Z) (successScore : spec_float) : K (Task * list ReputationEntry) :=
  let? tb := in_db (GetTaskWithBids taskID) in
  let '(task, bids) := tb in
  let score := clamp_score successScore in
  let? _ := in_db (CompleteTask taskID agentName) in
  let? entries := record_all (outcome_entry task bids agentName actualTokens score <$> task_domains (unmarshal_task (Requirements task))) in
  Ret (Ok (completed task, entries)).

Definition QueryReputation (agentName domain : string) (limit : Z) : K (ReputationSummary * list ReputationEntry) :=
  let? sum := Summary agentName domain in
  let? entries := ListEntries agentName domain limit in
  Ret (Ok (sum, entries)).
End Marketplace.
