(* ===== verification/MarketplaceSpec.v ===== *)
(** * What the marketplace guarantees

    [mark_done_exact]: marking a task done records its outcome for exactly the
    domains the task declares, in the name of the assignee only, whatever fails.
    [task_meta_kept]: what an auction is posted with is what its completion
    reads.  [MarketRuns]: witnesses, and runs that show how a ledger grows. *)
From stdpp Require Import pretty.
From S2P Require Import Prelude Prog Table Schema Messaging MessagingQueries MessagingSpec Agents Channels Auction AuctionSpec Retention RetentionHistory AuthHandlers Float64 Wiki WikiSpec Gateway Marketplace.

Section Market.
Context {HEng : Engine} {HJson : GoJson} {HLink : AttachmentLinker} {HLow : GoUnicode} {HFTS : ArticleFTS} {HFold : FoldEqual} {HText : MarketText}.

Lemma put_mk_db_same w : put_mk_db (mk_db w) w = w.
Proof. by destruct w. Qed.
Lemma wp_in_market_db {B} (p : M B) Q w : wp p (fun r d => Q (map_error MDb r) (put_mk_db d w)) (mk_db w) -> wp (in_db p) Q w.
Proof. intros H. apply wp_bind, wp_focus; [by intros []..|]. exact H. Qed.

(** ** Completing a task *)

(** An entry as it is stored: at the time of the statement, under the next id. *)
Definition stored_as (t : Z) (e x : ReputationEntry) : Prop := exists id, x = with_entry_id (normal_entry e) t id.
(** The ledger has [new] at its end, stored from [es]; the rest is as it was. *)
Definition ledger_adds (es : list ReputationEntry) (w w' : market_db) : Prop :=
  mk_db w' = mk_db w /\ mk_wiki w' = mk_wiki w /\
  exists new, rows (agent_reputation w') = rows (agent_reputation w) ++ new /\ Forall2 (stored_as (clock (mk_db w))) es new.
Lemma ledger_adds_none w : ledger_adds [] w w.
Proof. split_and!; [done..|]. exists []. by rewrite app_nil_r. Qed.
Lemma wp_RecordEntry e w :
  wp (RecordEntry e) (fun o w' => (exists x, o = Ok x /\ storable_entry (normal_entry e) = true /\ ledger_adds [e] w w') \/ (exists err, o = Err err) /\ w' = w) w.
Proof.
  unfold RecordEntry. destruct (str_empty _); [right; eauto|]. destruct (str_empty _); [right; eauto|]. cbv zeta. split; [|right; eauto].
  destruct (storable_entry _) eqn:E; cbn [wp]; [|right; eauto]. left. eexists. split; [done|]. split; [done|]. split_and!; [done..|].
  eexists [_]. split; [done|]. constructor; [by eexists|constructor].
Qed.
Lemma record_all_adds es w :
  wp (record_all es) (fun o w' => exists n, ledger_adds (take n es) w w' /\ Forall (fun e => storable_entry (normal_entry e) = true) (take n es) /\
    ((exists l, o = Ok l /\ length l = length es) /\ take n es = es \/ (exists err, o = Err err) /\ (n < length es)%nat)) w.
Proof.
  revert w. induction es as [|e es IH]; intros w; cbn [record_all].
  - exists O. split; [apply ledger_adds_none|]. split; [constructor|]. left. split; [by eexists|done].
  - apply wp_bind_ok. eapply wp_mono; [|apply wp_RecordEntry]. cbv beta.
    intros o w1 [(x&->&Hs&(E1&E2&new1&Er1&Hf1))|[(err&->) ->]]; [|exists O; split; [apply ledger_adds_none|]; split; [constructor|]; right; split; [by eexists|cbn; lia]].
    apply wp_bind_ok. eapply wp_mono; [|apply IH]. cbv beta. intros o w2 (n&(F1&F2&new2&Fr2&Hf2)&Hst&Hc).
    assert (ledger_adds (take (S n) (e :: es)) w w2) as Hl.
    { split_and!; [congruence..|]. exists (new1 ++ new2). rewrite Fr2, Er1, <- app_assoc. split; [done|]. rewrite E1 in Hf2. exact (Forall2_app Hf1 Hf2). }
    destruct Hc as [[(l&->&Hn) Et]|[(err&->) Hn]]; cbn [wp]; exists (S n); (split; [exact Hl|]); (split; [by constructor|]).
    + left. split; [eexists; split; [done|]; cbn; lia|]. cbn. by rewrite Et.
    + right. split; [by eexists|]. cbn. lia.
Qed.

(** What completing does to the tasks. *)
Definition completes (taskID : Z) (task : Task) (w w' : market_db) : Prop :=
  mk_wiki w' = mk_wiki w /\ agent_reputation w' = agent_reputation w /\ exists d, mk_db w' = d /\
  d = if bool_decide (Task_Status task = TaskStatusCompleted) then mk_db w
      else set_tasks (update_rows (by_id taskID) (with_task_status TaskStatusCompleted "" (clock (mk_db w))) (tasks (mk_db w))) (mk_db w).
Definition assignee (agentName : string) (task : Task) : Prop :=
  AssignedTo task = agentName /\ (Task_Status task = TaskStatusAssigned \/ Task_Status task = TaskStatusCompleted).
Definition listed_bids (taskID : Z) (d : db) : list Bid := select_by bid_oldest (fun b => Bid_TaskID b =? taskID) (task_bids d).
Definition entries_for (taskID : Z) (agentName : string) (actual : Z) (score : spec_float) (task : Task) (d : db) : list ReputationEntry :=
  outcome_entry task (listed_bids taskID d) agentName actual (clamp_score score) <$> task_domains (unmarshal_task (Requirements task)).

Lemma wp_task_with_bids taskID d :
  wp (GetTaskWithBids taskID) (fun o d' => d' = d /\ ((exists e, o = Err e) \/ exists t, o = Ok (t, listed_bids taskID d) /\ find_id taskID (tasks d) = Some t)) d.
Proof.
  apply wp_bind_ok. split; [|by split; eauto]. destruct (find_id taskID (tasks d)) as [t|]; [|by split; eauto]. apply wp_bind_ok. split; cbn [wp]; split; eauto.
Qed.
Lemma wp_CompleteTask taskID agentName d :
  wp (CompleteTask taskID agentName) (fun o d' => (exists e, o = Err e) /\ d' = d \/
    exists t, o = Ok tt /\ find_id taskID (tasks d) = Some t /\ assignee agentName t /\
      d' = if bool_decide (Task_Status t = TaskStatusCompleted) then d else set_tasks (update_rows (by_id taskID) (with_task_status TaskStatusCompleted "" (clock d)) (tasks d)) d) d.
Proof.
  apply wp_bind_ok. split; [|left; eauto]. destruct (find_id taskID (tasks d)) as [t|] eqn:Et; cbn [wp]; [|left; eauto].
  destruct (bool_decide (Task_Status t = TaskStatusCompleted) && String.eqb (AssignedTo t) agentName) eqn:E1.
  { apply andb_true_iff in E1 as [Es Ea%String.eqb_eq]. right. exists t. rewrite Es. apply bool_decide_eq_true in Es. unfold assignee. split_and!; auto. }
  destruct (bool_decide (Task_Status t = TaskStatusAssigned)) eqn:E2; [|left; eauto]. apply bool_decide_eq_true in E2. cbn [negb].
  destruct (String.eqb_spec (AssignedTo t) agentName) as [Ea|]; [|left; eauto]. cbn [negb]. split; cbn [wp]; [|left; eauto].
  apply find_id_Some in Et as Ht. assert ((affected (by_id taskID) (tasks d) =? 0) = false) as ->.
  { rewrite affected_find. change (find_row (by_id taskID) (tasks d)) with (find_id taskID (tasks d)). by rewrite Et. }
  right. exists t. rewrite bool_decide_eq_false_2 by (rewrite E2; done). unfold assignee. split_and!; auto.
Qed.

Lemma clamp_unit s : f64_is_nan s = false -> in_unit (clamp_score s).
Proof.
  intros Hs. unfold clamp_score, in_unit. destruct (f64_lt s f64_zero) eqn:E0; [by split; vm_compute|]. destruct (f64_lt f64_one s) eqn:E1; [by split; vm_compute|].
  split; by apply f64_not_lt_le.
Qed.
Lemma clamp_nan s : f64_is_nan (clamp_score s) = false -> f64_is_nan s = false.
Proof. by destruct s. Qed.

(** C19. Marking a task done, whatever fails: unless the caller is the assignee of
    the task, assigned or already completed, nothing changes. Otherwise either
    nothing changes, or the task alone becomes completed and the ledger gets, at
    its end, one entry for each of the first domains the task declares, all of
    them exactly if the call succeeds, in the caller's name, with a score from 0
    to 1. *)
Theorem mark_done_exact (taskID : Z) (agentName : string) (actual : Z) (score : spec_float) (w : market_db) :
  wp (MarkTaskDone taskID agentName actual score) (fun o w' =>
    (exists e, o = Err e) /\ w' = w \/
    exists task n w1, find_id taskID (tasks (mk_db w)) = Some task /\ assignee agentName task /\ completes taskID task w w1 /\
      let es := entries_for taskID agentName actual score task (mk_db w) in
      ledger_adds (take n es) w1 w' /\ (forall x, x ∈ take n es -> in_unit (SuccessScore x) /\ Rep_AgentName x = agentName) /\
      ((exists l, o = Ok (completed task, l) /\ length l = length es) /\ take n es = es \/ (exists e, o = Err e) /\ (n < length es)%nat)) w.
Proof.
  unfold MarkTaskDone. apply wp_bind_ok, wp_in_market_db. eapply wp_mono; [|apply wp_task_with_bids]. cbv beta.
  intros o d [-> [[e ->]|(t&->&Ht)]]; rewrite put_mk_db_same; cbn [map_error wp]; [left; eauto|]. apply wp_bind_ok, wp_in_market_db.
  eapply wp_mono; [|apply wp_CompleteTask]. cbv beta. intros o d [[[e ->] ->]|(t'&->&Ht'&Ha&->)]; cbn [map_error wp]; [rewrite put_mk_db_same; left; eauto|].
  rewrite Ht in Ht'. injection Ht' as <-. set (w1 := put_mk_db _ w). apply wp_bind_ok. eapply wp_mono; [|apply record_all_adds]. cbv beta.
  intros o w2 (n&Hl&Hst&Hc). assert (completes taskID t w w1) as Hw1 by (split_and!; [done..|by eexists]).
  assert (forall x, x ∈ take n (entries_for taskID agentName actual score t (mk_db w)) -> in_unit (SuccessScore x) /\ Rep_AgentName x = agentName) as Hx.
  { intros x Hx. rewrite Forall_forall in Hst. specialize (Hst x Hx). apply elem_of_take in Hx as (i&Hi&_). apply list_lookup_fmap_Some in Hi as (dom&->&_).
    split; [|done]. apply andb_true_iff in Hst as [Hs%negb_true_iff _]. by apply clamp_unit, clamp_nan. }
  destruct Hc as [[(l&->&Hn) Et]|[(e&->) Hn]]; cbn [wp]; right; exists t, n, w1; (split; [done|]); (split; [done|]); (split; [done|]); cbv zeta; (split; [exact Hl|]); (split; [exact Hx|]); [left|right; eauto].
  split; [|exact Et]. eauto.
Qed.

(** ** What an auction is posted with *)

(** [strings.EqualFold] on ASCII texts. *)
Definition folds_ascii : Prop := forall a b, all_chars is_ascii a = true -> all_chars is_ascii b = true -> EqualFold a b = String.eqb (sql_lower a) (sql_lower b).
Definition in_int64 (n : Z) : Prop := int64_min <= n <= int64_max.

Lemma Atoi_int n : in_int64 n -> Atoi (pretty n) = Some n.
Proof.
  intros Hn. destruct n as [|p|p]; [done|apply Atoi_pretty; unfold in_int64 in Hn; lia|]. change (pretty (Z.neg p)) with (String (Ascii.ascii_of_nat 45) (pretty (Z.pos p))).
  unfold Atoi. rewrite bool_decide_true by done. assert (digits_value (pretty (Z.pos p)) = Some (Z.pos p)) as ->.
  { rewrite pretty_pos. assert (all_digits (pretty_N_go (N.pos p) EmptyString) 0 = Some (Z.pos p)) as Hd by by rewrite all_digits_go.
    unfold digits_value. by destruct (pretty_N_go _ _). }
  cbn [fmap option_fmap option_map]. change (- Z.pos p) with (Z.neg p). unfold in_int64 in Hn. by rewrite (proj2 (Z.leb_le _ _)), (proj2 (Z.leb_le _ _)) by lia.
Qed.
Lemma foldl_member {A} (f : A -> string * json -> A) m key empty v : foldl f m (member key empty v) = if empty then m else f m (key, v).
Proof. by destruct empty. Qed.
Lemma decode_texts l old : decode_strings (JArr (json_string <$> l)) old = utf8_coerce <$> l.
Proof. cbn [decode_strings]. revert old. induction l as [|x l IH]; intros old; [done|]. cbn. by rewrite IH. Qed.
Lemma decode_number x old : f64_finite x = true -> f64_is_zero x = false -> decode_float (JNum (format_float x)) old = x.
Proof. destruct x; try done. intros _ _. cbn. by rewrite parse_format. Qed.

Lemma task_keys (Hfold : folds_ascii) m v :
  task_member m ("acceptance_criteria", v) = mkTaskMeta (decode_string v (AcceptanceCriteria m)) (MaxBudgetTokens m) (Domains m) (Meta_Difficulty m) (CurrentSpendTokens m) /\
  task_member m ("max_budget_tokens", v) = mkTaskMeta (AcceptanceCriteria m) (decode_int v (MaxBudgetTokens m)) (Domains m) (Meta_Difficulty m) (CurrentSpendTokens m) /\
  task_member m ("domains", v) = mkTaskMeta (AcceptanceCriteria m) (MaxBudgetTokens m) (decode_strings v (Domains m)) (Meta_Difficulty m) (CurrentSpendTokens m) /\
  task_member m ("difficulty_weight", v) = mkTaskMeta (AcceptanceCriteria m) (MaxBudgetTokens m) (Domains m) (decode_float v (Meta_Difficulty m)) (CurrentSpendTokens m) /\
  task_member m ("current_spend_tokens", v) = mkTaskMeta (AcceptanceCriteria m) (MaxBudgetTokens m) (Domains m) (Meta_Difficulty m) (decode_int v (CurrentSpendTokens m)).
Proof. unfold task_member. rewrite !Hfold by reflexivity. by split_and!. Qed.

(** What an auction is posted with, whatever it is, is what its completion
    reads back from the task: texts as JSON keeps them, numbers exactly, and
    only requirements that are no finite number are refused. *)
Theorem task_meta_kept (m : AuctionTaskMeta) (Hfold : folds_ascii) (Hmax : in_int64 (MaxBudgetTokens m)) (Hcur : in_int64 (CurrentSpendTokens m)) :
  (f64_finite (Meta_Difficulty m) = false -> marshal_task m = None) /\
  (f64_finite (Meta_Difficulty m) = true -> exists reqs, marshal_task m = Some reqs /\ unmarshal_task reqs =
    mkTaskMeta (if str_empty (AcceptanceCriteria m) then EmptyString else utf8_coerce (AcceptanceCriteria m)) (MaxBudgetTokens m) (utf8_coerce <$> Domains m)
      (if f64_is_zero (Meta_Difficulty m) then f64_zero else Meta_Difficulty m) (CurrentSpendTokens m)).
Proof.
  destruct m as [acc max doms w cur]. cbn [MaxBudgetTokens CurrentSpendTokens Meta_Difficulty AcceptanceCriteria Domains] in *. unfold marshal_task. cbn [MaxBudgetTokens CurrentSpendTokens Meta_Difficulty AcceptanceCriteria Domains].
  split; intros Hw; rewrite Hw; [done|]. eexists. split; [done|]. cbn [unmarshal_task]. rewrite !foldl_app, !foldl_member.
  rewrite (proj1 (task_keys Hfold _ _)), (proj1 (proj2 (task_keys Hfold _ _))), (proj1 (proj2 (proj2 (task_keys Hfold _ _)))), (proj1 (proj2 (proj2 (proj2 (task_keys Hfold _ _))))),
    (proj2 (proj2 (proj2 (proj2 (task_keys Hfold _ _))))).
  destruct (str_empty acc), (max =? 0) eqn:Emax, (bool_decide (doms = [])) eqn:Edom, (f64_is_zero w) eqn:Ew, (cur =? 0) eqn:Ecur;
    cbn [AcceptanceCriteria MaxBudgetTokens Domains Meta_Difficulty CurrentSpendTokens task_meta_zero decode_string json_string];
    rewrite ?decode_texts, ?decode_number by done; cbn [decode_int]; rewrite ?Atoi_int by done; cbn [default from_option];
    repeat match goal with H : (_ =? 0) = true |- _ => apply Z.eqb_eq in H | H : bool_decide _ = true |- _ => apply bool_decide_eq_true in H end; by subst.
Qed.
End Market.

(** ** Runs *)
Module MarketRuns.
#[local] Existing Instances Runs.eng Runs.gojson Runs.linker WikiRuns.first_match.
#[local] Instance ascii_lower : GoUnicode := {| ToLower := sql_lower; ToLower_ascii := fun s _ => eq_refl |}.
#[local] Instance ascii_fold : FoldEqual := {| EqualFold := fun a b => String.eqb (sql_lower a) (sql_lower b) |}.
(** A float as the number of its parts. *)
Definition float_code (x : spec_float) : string :=
  match x with S754_finite s m e => pretty (Z.pos (encode (s, m, e))) | S754_zero _ => "0" | _ => "" end.
Definition read_code (s : string) : option spec_float :=
  match digits_value s with
  | Some (Z.pos p) => (fun '(s, m, e) => S754_finite s m e) <$> decode (A := bool * positive * Z) p
  | Some Z0 => Some f64_zero
  | _ => None
  end.
Lemma read_float_code s m e : read_code (float_code (S754_finite s m e)) = Some (S754_finite s m e).
Proof.
  unfold read_code, float_code. rewrite pretty_pos. assert (all_digits (pretty_N_go (N.pos (encode (s, m, e))) EmptyString) 0 = Some (Z.pos (encode (s, m, e)))) as Hd by by rewrite all_digits_go.
  assert (digits_value (pretty_N_go (N.pos (encode (s, m, e))) EmptyString) = Some (Z.pos (encode (s, m, e)))) as -> by (unfold digits_value; by destruct (pretty_N_go _ _)).
  by rewrite decode_encode.
Qed.
#[local] Program Instance coded : MarketText := {|
  format_float := float_code; parse_float := read_code; float_overflow := fun _ => int64_min;
  sql_sum := foldr f64_add f64_zero; Quote := fun s => s
|}.
Next Obligation. done. Qed.
Next Obligation. apply read_float_code. Qed.

(** Ann posts a task of two domains on the channel of [AuctionRuns], bob wins it. *)
Definition start : market_db := mkMarketDb (set_agents (agents AuctionRuns.market) AuctionRuns.market) (mkWikiDb 0 empty_table empty_table []) empty_table.
Definition after {A} (p : prog market_db A) (w : market_db) : market_db := (run_ok p w).2.
Definition job : AuctionTaskMeta := mkTaskMeta "green" 500 ["paint"; "wood"] f64_zero 0.
Definition posted : market_db := after (PostAuction 1 "ann" "paint it" "" job None) start.
Definition bid_on : market_db := after (service_Bid 1 "bob" (mkBidMeta 300 f64_one "two coats" 0) "1d") posted.
Definition awarded : market_db := after (Award 1 1 "ann") bid_on.
Definition done : market_db := after (MarkTaskDone 1 "bob" 420 (f64_of_Z 7)) awarded.
Definition ledger (w : market_db) : list (string * string * Z * Z) := (fun e => (Rep_AgentName e, Rep_Domain e, EstimatedTokens e, ActualTokens e)) <$> rows (agent_reputation w).

Lemma mark_done_exact_witness : ledger done = [("bob", "paint", 300, 420); ("bob", "wood", 300, 420)] /\
  wp (MarkTaskDone 1 "bob" 420 (f64_of_Z 7)) (fun _ w' => mk_wiki w' = mk_wiki awarded) awarded.
Proof.
  split; [by vm_compute|]. eapply wp_mono; [|apply (mark_done_exact 1 "bob" 420 (f64_of_Z 7) awarded)]. cbv beta.
  intros o w' [[_ ->]|(t&n&w1&_&_&(E1&_)&((_&E2&_)&_))]; [done|congruence].
Defined.
Lemma task_meta_kept_witness :
  exists reqs, marshal_task job = Some reqs /\ unmarshal_task reqs = mkTaskMeta "green" 500 ["paint"; "wood"] f64_zero 0.
Proof.
  destruct (task_meta_kept job) as [_ H].
  - intros a b _ _. reflexivity.
  - by split.
  - by split.
  - destruct (H eq_refl) as (r&E1&E2). exists r. split; [exact E1|exact E2].
Defined.

(** A task that is completed is completed again without complaint, and each time
    its outcome is recorded again: an agent multiplies its record at will, and
    the score is the one it gives itself. *)
Theorem done_twice_counts_twice :
  ledger (after (MarkTaskDone 1 "bob" 1 f64_one) done) = ledger done ++ [("bob", "paint", 300, 1); ("bob", "wood", 300, 1)].
Proof. by vm_compute. Qed.
(** A score that is no number completes the task and is then refused by the
    ledger: the outcome of the task is never recorded. *)
Theorem nan_completes_unrecorded :
  let r := run_ok (MarkTaskDone 1 "bob" 420 S754_nan) awarded in
  r.1 = Err MSql /\ ledger r.2 = [] /\ Task_Status <$> rows (tasks (mk_db r.2)) = [TaskStatusCompleted].
Proof. cbv zeta. split_and!; by vm_compute. Qed.
(** Two agents may share a skill card. *)
Theorem cards_collide : SkillCardSlug "data_bot" = SkillCardSlug "data-bot".
Proof. by vm_compute. Qed.
End MarketRuns.
