(* ===== verification/Web.v ===== *)
(** * The web interface (internal/api: helpers.go, agents_handler.go,
      messages_handler.go, channels_handler.go, reactions_handler.go,
      notifications_handler.go, deadletters_handler.go, runs_handler.go,
      memory_core.go, trust_handler.go)

    Each handler is the whole of its function: the caller the middleware put in
    the context, the parameters of the request as the router and the decoders
    hand them over, the calls of the services in their order, the answer.  A
    Module holds the handlers of one struct. *)
From stdpp Require Import pretty.
From S2P Require Import Prelude Prog Table Schema Messaging MessagingQueries Agents Channels Attachments Reactions Retention MemoryTools Trust Float64 Memory Reactor.

(** ** Requests and answers *)

(** What the middleware leaves in the context.  [None]: not authenticated. *)
Record context := mkContext { OwnerIDFromContext : option Z; isSession : bool; UserFromContext : option string }.
(** [writeJSON] with the status: an [errorBody], or a value; a panic answers
    nothing. *)
Inductive response (A : Type) := Refused (status : Z) | Replied (status : Z) (a : A) | Crashed (why : string).
Arguments Refused {A} _.
Arguments Replied {A} _ _.
Arguments Crashed {A} _.
(** A call whose error ends the handler with a status. *)
Definition or_status {D E A B} (p : prog D (outcome E A)) (status : Z) (f : A -> prog D (response B)) : prog D (response B) :=
  let! r := p in match r with Ok a => f a | Err _ => Ret (Refused status) | Panic w => Ret (Crashed w) end.
(** A value a handler requires, or it ends with a status. *)
Definition require {D A B} (o : option A) (status : Z) (f : A -> prog D (response B)) : prog D (response B) :=
  match o with Some a => f a | None => Ret (Refused status) end.
(** A loop that keeps what each call gives and skips the ones that fail. *)
Fixpoint collect {D E A B} (f : A -> prog D (outcome E (list B))) (l : list A) : prog D (list B) :=
  match l with
  | [] => Ret []
  | a :: rest => let! got := f a in let! more := collect f rest in Ret (match got with Ok xs => xs ++ more | _ => more end)
  end.
(** [truncateStr]. *)
Definition truncateStr (s : string) (maxLen : nat) : string :=
  if (String.length s <=? maxLen)%nat then s
  else if (maxLen <=? 3)%nat then String.substring 0 maxLen s
  else String.substring 0 (maxLen - 3) s +:+ "...".
(** [limit <= 0]. *)
Definition param_limit (dflt limit : Z) : Z := if limit <=? 0 then dflt else limit.

(** ** Ownership *)
Definition isAgentOwnedBy (agentName : string) (ownerID : Z) : prog db bool :=
  if str_empty agentName then Ret false
  else let! r := GetAgent agentName in Ret (match r with Ok a => Agent_OwnerID a =? ownerID | _ => false end).
(** [a || b], the second asked only if the first is false. *)
Definition or_else {D} (a b : prog D bool) : prog D bool := let! x := a in if x then Ret true else b.
(** The first agent of type human, or the first. *)
Definition preferred (first : Agent) (rest : list Agent) : string :=
  Agent_Name (default first (find (fun a => String.eqb (Agent_Type a) "human") (first :: rest))).

(** What a message is shown with: the adapter of the main program. *)
#[export] Instance attachment_reader `{Engine} : AttachmentReader := {|
  GetByMessageID_att id :=
    let? l := attachment_infos id in
    Ret (Ok ((fun a => Reactions.mkAttachmentInfo (ai_Hash a) (ai_Filename a) (ai_Size a) (ai_MIMEType a) (Attachments.IsImage a)) <$> l))
|}.

(** The stored traces of an agent, shown with it. *)
Class TraceStore := { Trace : Type; recent_traces : string -> prog db (outcome error (list Trace)); recent_traces_frame : forall a, within eq (recent_traces a) }.

(** ** AgentsHandler *)
Module AgentsHandler.
Section Handlers.
Context {HEng : Engine} {HCred : Credentials} {HTraces : TraceStore} {HJson : GoJson} {HLink : AttachmentLinker} {HLow : GoUnicode}.
Record register_request := mkRegister { rq_Name : string; rq_DisplayName : string; rq_Type : string; rq_Capabilities : rawjson }.

Definition ListAgents (c : context) : prog db (response (list Agent)) :=
  require (OwnerIDFromContext c) 401 (fun ownerID => or_status (Agents.ListAgents ownerID) 500 (fun l => Ret (Replied 200 l))).
Definition GetAgent (c : context) (name : string) : prog db (response (Agent * list Trace)) :=
  require (OwnerIDFromContext c) 401 (fun ownerID =>
  or_status (Agents.GetAgent name) 404 (fun agent =>
  if negb (Agent_OwnerID agent =? ownerID) then Ret (Refused 403)
  else let! traces := recent_traces name in Ret (Replied 200 (agent, match traces with Ok l => l | _ => [] end)))).
Definition RegisterAgent (c : context) (body : option register_request) : prog db (response (Agent * string)) :=
  require (OwnerIDFromContext c) 401 (fun ownerID =>
  require body 400 (fun req =>
  if str_empty (rq_Name req) then Ret (Refused 400)
  else or_status (Agents.Register (rq_Name req) (rq_DisplayName req) (rq_Type req) (rq_Capabilities req) ownerID) 400 (fun r =>
    let! _ := match UserFromContext c with Some username => let! _ := JoinMyAgentsChannel username (Agent_Name r.1) in Ret tt | None => Ret tt end in
    Ret (Replied 201 r)))).
Definition UpdateAgent (c : context) (name : string) (body : option (string * rawjson)) : prog db (response Agent) :=
  require (OwnerIDFromContext c) 401 (fun ownerID =>
  or_status (Agents.GetAgent name) 404 (fun agent =>
  if negb (Agent_OwnerID agent =? ownerID) then Ret (Refused 403)
  else require body 400 (fun req => or_status (Agents.UpdateAgent name req.1 req.2) 400 (fun updated => Ret (Replied 200 updated))))).
Definition DeleteAgent (c : context) (name : string) : prog db (response unit) :=
  require (OwnerIDFromContext c) 401 (fun ownerID => or_status (Agents.Deregister name ownerID) 400 (fun _ => Ret (Replied 200 tt))).
Definition RevokeKey (c : context) (name : string) : prog db (response (Agent * string)) :=
  require (OwnerIDFromContext c) 401 (fun ownerID => or_status (Agents.RevokeKey name ownerID) 400 (fun r => Ret (Replied 200 r))).
End Handlers.
End AgentsHandler.

(** ** MessagesHandler *)

(** [sortMessagesByTime]: each message moves up past the older ones before it. *)
Fixpoint insert_later (m : EnrichedMessage) (sorted_rev : list EnrichedMessage) : list EnrichedMessage :=
  match sorted_rev with
  | [] => [m]
  | x :: rest => if Msg_CreatedAt (en_Message x) <? Msg_CreatedAt (en_Message m) then x :: insert_later m rest else m :: x :: rest
  end.
Definition sortMessagesByTime (ms : list EnrichedMessage) : list EnrichedMessage := reverse (foldl (fun acc m => insert_later m acc) [] ms).

(** One line of the list of conversations. *)
Record convSummary := mkConvSummary { cv_ID : Z; cv_Subject : string; cv_LastMessage : string; cv_LastAgent : string; cv_LastTime : Z; cv_MsgCount : Z }.
Definition summarize (m : gmap Z convSummary) (msg : Message) : gmap Z convSummary :=
  let id := Msg_ConversationID msg in
  match m !! id with
  | None => <[id := mkConvSummary id "" (truncateStr (Body msg) 100) (FromAgent msg) (Msg_CreatedAt msg) 1]> m
  | Some c =>
      if cv_LastTime c <? Msg_CreatedAt msg
      then <[id := mkConvSummary id (cv_Subject c) (truncateStr (Body msg) 100) (FromAgent msg) (Msg_CreatedAt msg) (cv_MsgCount c + 1)]> m
      else <[id := mkConvSummary id (cv_Subject c) (cv_LastMessage c) (cv_LastAgent c) (cv_LastTime c) (cv_MsgCount c + 1)]> m
  end.

(** The names of a comma-separated filter; a hyphen excludes. *)
Definition without_hyphen (s : string) : option string := match s with String c r => if Ascii.eqb c (Ascii.ascii_of_nat 45) then Some r else None | EmptyString => None end.
Definition filter_lists (f : string) : list string * list string :=
  let names := filter (fun s => s <> EmptyString) (trim_space <$> split_on (Ascii.ascii_of_nat 44) f EmptyString) in
  (filter (fun s => without_hyphen s = None) names, omap without_hyphen names).

Module MessagesHandler.
Section Handlers.
Context {HEng : Engine} {HJson : GoJson} {HLink : AttachmentLinker} {HFTS : FTS}.
Record send_request := mkSend {
  sq_From : string; sq_To : string; sq_Body : string; sq_Priority : Z; sq_ChannelID : option Z; sq_ConversationID : option Z; sq_Subject : string; sq_ReplyTo : option Z;
  sq_Attachments : list string
}.
Definition inbox_options (limit : Z) (status : option MsgStatus) : ReadOptions := mkReadOptions status "" None 0 limit 0 None None true false.
Definition owned_access (msg : Message) (ownerID : Z) : prog db bool :=
  or_else (isAgentOwnedBy (FromAgent msg) ownerID) (isAgentOwnedBy (default "" (to_agent msg)) ownerID).

Definition ListMessages (c : context) (limit : Z) (status : option MsgStatus) (agentFilter : string) : prog db (response (list EnrichedMessage)) :=
  require (OwnerIDFromContext c) 401 (fun ownerID =>
  or_status (ListAgents ownerID) 500 (fun ownedAgents =>
  if bool_decide (ownedAgents = []) then Ret (Replied 200 [])
  else
    let limit := param_limit 50 limit in
    let! all := collect (fun agent =>
      if negb (str_empty agentFilter) && negb (String.eqb (Agent_Name agent) agentFilter) then Ret (Ok [])
      else let? page := ReadInbox (Agent_Name agent) (inbox_options limit status) in Ret (Ok (pm_Messages page))) ownedAgents in
    let! enriched := EnrichMessages all in
    Ret (Replied 200 (take (Z.to_nat limit) (sortMessagesByTime enriched))))).

Definition GetMessage (c : context) (id : option Z) : prog db (response (list EnrichedMessage)) :=
  require (OwnerIDFromContext c) 401 (fun ownerID =>
  require id 400 (fun id =>
  or_status (GetMessageByID id) 404 (fun msg =>
  let! mine := owned_access msg ownerID in
  if negb mine then Ret (Refused 403)
  else let! shown := EnrichMessages [msg] in Ret (Replied 200 shown)))).

Fixpoint with_subjects (l : list convSummary) : prog db (list convSummary) :=
  match l with
  | [] => Ret []
  | s :: rest =>
      let! r := service_GetConversation (cv_ID s) in
      let! more := with_subjects rest in
      Ret ((match r with Ok (conv, _) => mkConvSummary (cv_ID s) (Subject conv) (cv_LastMessage s) (cv_LastAgent s) (cv_LastTime s) (cv_MsgCount s) | _ => s end) :: more)
  end.
Definition ListConversations (c : context) : prog db (response (list convSummary)) :=
  require (OwnerIDFromContext c) 401 (fun ownerID =>
  or_status (ListAgents ownerID) 500 (fun ownedAgents =>
  if bool_decide (ownedAgents = []) then Ret (Replied 200 [])
  else
    let! all := collect (fun agent => let? page := ReadInbox (Agent_Name agent) (inbox_options 100 None) in Ret (Ok (pm_Messages page))) ownedAgents in
    let convMap := foldl summarize ∅ all in
    let! conversations := with_subjects (scan (snd <$> map_to_list convMap)) in
    Ret (Replied 200 conversations))).

Fixpoint any_access (ownerID : Z) (ms : list Message) : prog db bool :=
  match ms with [] => Ret false | m :: rest => or_else (owned_access m ownerID) (any_access ownerID rest) end.
Definition GetConversation (c : context) (id : option Z) : prog db (response (Conversation * list EnrichedMessage)) :=
  require (OwnerIDFromContext c) 401 (fun ownerID =>
  require id 400 (fun id =>
  or_status (service_GetConversation id) 404 (fun r =>
  let! hasAccess := any_access ownerID r.2 in
  if negb hasAccess && negb (bool_decide (r.2 = [])) then Ret (Refused 403)
  else let! shown := EnrichMessages r.2 in Ret (Replied 200 (r.1, shown))))).

(** The sender of a message: the human agent of a session, else the one named,
    else one of the caller's. *)
Definition sender (c : context) (ownerID : Z) (from : string) (k : string -> prog db (response (list EnrichedMessage))) : prog db (response (list EnrichedMessage)) :=
  if isSession c then or_status (GetHumanAgentForUser ownerID) 500 (fun h => require h 400 (fun a => k (Agent_Name a)))
  else if str_empty from then or_status (ListAgents ownerID) 400 (fun l => match l with [] => Ret (Refused 400) | a :: rest => k (preferred a rest) end)
  else k from.
Definition SendMessage (c : context) (body : option send_request) : prog db (response (list EnrichedMessage)) :=
  require (OwnerIDFromContext c) 401 (fun ownerID =>
  require body 400 (fun req =>
  if str_empty (sq_Body req) then Ret (Refused 400)
  else sender c ownerID (sq_From req) (fun from =>
    let! mine := isAgentOwnedBy from ownerID in
    if negb mine then Ret (Refused 403)
    else
      let opts := mkSendOptions (sq_Subject req) (sq_Priority req) RawEmpty (sq_ChannelID req) (sq_ConversationID req) (sq_ReplyTo req) (sq_Attachments req) in
      or_status (Messaging.SendMessage from (sq_To req) (sq_Body req) opts) 400 (fun msg =>
      let! shown := EnrichMessages [msg] in Ret (Replied 201 shown))))).

Definition MarkDone (c : context) (id : option Z) : prog db (response unit) :=
  require (OwnerIDFromContext c) 401 (fun ownerID =>
  require id 400 (fun id =>
  or_status (GetMessageByID id) 404 (fun msg =>
  let claimer := default "" (claimed_by msg) in
  let! mine := isAgentOwnedBy (if str_empty claimer then default "" (to_agent msg) else claimer) ownerID in
  if negb mine then Ret (Refused 403)
  else
    let finish msg :=
      if negb (bool_decide (Status msg = StatusProcessing)) then Ret (Refused 400)
      else or_status (Messaging.MarkDone id (default "" (claimed_by msg))) 500 (fun _ => Ret (Replied 200 tt)) in
    if bool_decide (Status msg = StatusPending) then
      let! _ := ClaimMessages (default "" (to_agent msg)) 1 in
      or_status (GetMessageByID id) 404 finish
    else finish msg))).

Definition search_options (limit : Z) (after before : option Z) (channelFilter agentFilter : string) : SearchOptions :=
  let '(inChannels, exChannels) := filter_lists channelFilter in
  let '(inAgents, exAgents) := filter_lists agentFilter in
  mkSearchOptions "" "" None 0 None limit 0 after before "" inChannels exChannels inAgents exAgents.
Definition SearchMessages (c : context) (query : string) (limit : Z) (after before : option Z) (channelFilter agentFilter : string) : prog db (response (list EnrichedMessage)) :=
  require (OwnerIDFromContext c) 401 (fun ownerID =>
  if str_empty query then Ret (Refused 400)
  else or_status (ListAgents ownerID) 500 (fun ownedAgents =>
    let opts := search_options (param_limit 20 limit) after before channelFilter agentFilter in
    let! all := collect (fun agent => let? page := MessagingQueries.SearchMessages (Agent_Name agent) query opts in Ret (Ok (pm_Messages page))) ownedAgents in
    let! shown := EnrichMessages all in
    Ret (Replied 200 shown))).

Definition GetReplies (c : context) (id : option Z) : prog db (response (list EnrichedMessage)) :=
  require (OwnerIDFromContext c) 401 (fun ownerID =>
  require id 400 (fun id =>
  or_status (GetMessageByID id) 404 (fun msg =>
  let! mine := owned_access msg ownerID in
  if negb mine then Ret (Refused 403)
  else or_status (Messaging.GetReplies id) 500 (fun replies => let! shown := EnrichMessages replies in Ret (Replied 200 shown))))).

Definition DMMessages (c : context) (peerAgent : string) (limit : Z) : prog db (response (list EnrichedMessage * Z)) :=
  require (OwnerIDFromContext c) 401 (fun ownerID =>
  or_status (ListAgents ownerID) 500 (fun ownedAgents =>
  if bool_decide (ownedAgents = []) then Ret (Replied 200 ([], 0))
  else
    let agentNames := Agent_Name <$> ownedAgents in
    or_status (GetDMMessages agentNames peerAgent (param_limit 100 limit)) 500 (fun msgs =>
    let! shown := EnrichMessages (reverse msgs) in
    let! lastRead := GetLastReadForDM agentNames peerAgent in
    Ret (Replied 200 (shown, match lastRead with Ok n => n | _ => 0 end))))).

Fixpoint display_names (l : list DMPartner) : prog db (list (DMPartner * string)) :=
  match l with
  | [] => Ret []
  | p :: rest =>
      let! r := GetAgent (dp_Name p) in
      let! more := display_names rest in
      Ret ((p, match r with Ok a => DisplayName a | _ => dp_Name p end) :: more)
  end.
Definition DMPartners (c : context) : prog db (response (list (DMPartner * string))) :=
  require (OwnerIDFromContext c) 401 (fun ownerID =>
  or_status (ListAgents ownerID) 500 (fun ownedAgents =>
  if bool_decide (ownedAgents = []) then Ret (Replied 200 [])
  else or_status (GetDMPartners (Agent_Name <$> ownedAgents)) 500 (fun partners => let! l := display_names partners in Ret (Replied 200 l)))).
End Handlers.
End MessagesHandler.

(** ** ChannelsHandler *)
Module ChannelsHandler.
Section Handlers.
Context {HEng : Engine} {HJson : GoJson} {HLink : AttachmentLinker} {HLow : GoUnicode}.
Record create_request := mkCreate { cq_Name : string; cq_Description : string; cq_Topic : string; cq_Type : ChannelType; cq_IsPrivate : bool }.
Record settings_request := mkSettings {
  st_WorkflowEnabled : option bool; st_AutoApprove : option bool; st_RemindAfter : option string; st_EscalateAfter : option string;
  st_PublishThreshold : option spec_float; st_ApproveThreshold : option spec_float
}.

(** Every channel once, the first time an agent lists it. *)
Fixpoint once (seen : list Z) (l : list ChannelWithCount) : list ChannelWithCount :=
  match l with
  | [] => []
  | ch :: rest => let id := Ch_ID (cc_Channel ch) in if bool_decide (id ∈ seen) then once seen rest else ch :: once (id :: seen) rest
  end.
Definition ListChannels (c : context) : prog db (response (list ChannelWithCount)) :=
  require (OwnerIDFromContext c) 401 (fun ownerID =>
  or_status (ListAgents ownerID) 500 (fun ownedAgents =>
    let! all := collect (fun agent => Channels.ListChannels (Agent_Name agent)) ownedAgents in
    Ret (Replied 200 (once [] all)))).

Definition GetChannel (c : context) (name : string) : prog db (response (Channel * list Membership)) :=
  require (OwnerIDFromContext c) 401 (fun _ =>
  or_status (GetChannelByName name) 404 (fun ch =>
  let! members := GetMembers (Ch_ID ch) in
  Ret (Replied 200 (ch, match members with Ok l => l | _ => [] end)))).

(** The first of the caller's agents. *)
Definition first_agent {B} (ownerID : Z) (k : string -> prog db (response B)) : prog db (response B) :=
  or_status (ListAgents ownerID) 400 (fun l => match l with [] => Ret (Refused 400) | a :: _ => k (Agent_Name a) end).
Definition CreateChannel (c : context) (body : option create_request) : prog db (response Channel) :=
  require (OwnerIDFromContext c) 401 (fun ownerID =>
  require body 400 (fun req =>
  if str_empty (cq_Name req) then Ret (Refused 400)
  else first_agent ownerID (fun creator =>
    or_status (Channels.CreateChannel (mkCreateChannelRequest (cq_Name req) (cq_Description req) (cq_Topic req) (cq_Type req) (cq_IsPrivate req) false creator)) 400
      (fun ch => Ret (Replied 201 ch))))).

(** Joining and leaving: the channel, the agent named or the first, its owner,
    then [act].  A body that does not decode names no agent. *)
Definition as_member (c : context) (name : string) (agent : string) (act : Z -> string -> M unit) : prog db (response unit) :=
  require (OwnerIDFromContext c) 401 (fun ownerID =>
  or_status (GetChannelByName name) 404 (fun ch =>
  let go agentName :=
    or_status (GetAgent agentName) 400 (fun a =>
    if negb (Agent_OwnerID a =? ownerID) then Ret (Refused 403)
    else or_status (act (Ch_ID ch) agentName) 400 (fun _ => Ret (Replied 200 tt))) in
  if str_empty agent then first_agent ownerID go else go agent)).
Definition JoinChannel (c : context) (name agent : string) : prog db (response unit) := as_member c name agent Channels.JoinChannel.
Definition LeaveChannel (c : context) (name agent : string) : prog db (response unit) := as_member c name agent Channels.LeaveChannel.

Fixpoint latest_read (channelID : Z) (l : list Agent) (best : Z) : prog db Z :=
  match l with
  | [] => Ret best
  | a :: rest =>
      let! r := GetLastReadForChannel (Agent_Name a) channelID in
      latest_read channelID rest (match r with Ok n => if best <? n then n else best | _ => best end)
  end.
Definition ChannelMessages (c : context) (name : string) (limit : Z) : prog db (response (list EnrichedMessage * Z * Z)) :=
  require (OwnerIDFromContext c) 401 (fun ownerID =>
  or_status (GetChannelByName name) 404 (fun ch =>
  or_status (GetChannelMessages (Ch_ID ch) (param_limit 100 limit) 0) 500 (fun page =>
  let! shown := EnrichMessages (pm_Messages page) in
  let! owned := ListAgents ownerID in
  let! lastRead := match owned with Ok l => latest_read (Ch_ID ch) l 0 | _ => Ret 0 end in
  Ret (Replied 200 (shown, pm_Total page, lastRead))))).

Definition merged_settings (old : ChannelSettings) (req : settings_request) : ChannelSettings :=
  mkChannelSettings (default (WorkflowEnabled old) (st_WorkflowEnabled req)) (default (AutoApprove old) (st_AutoApprove req))
    (default (StalemateRemindAfter old) (st_RemindAfter req)) (default (StalemateEscalateAfter old) (st_EscalateAfter req))
    (default (PublishThreshold old) (st_PublishThreshold req)) (default (ApproveThreshold old) (st_ApproveThreshold req)).
Definition UpdateSettings (c : context) (name : string) (body : option settings_request) : prog db (response Channel) :=
  require (OwnerIDFromContext c) 401 (fun _ =>
  or_status (GetChannelByName name) 404 (fun ch =>
  require body 400 (fun req =>
  or_status (UpdateChannelSettings (Ch_ID ch) (merged_settings (Ch_Settings ch) req)) 500 (fun updated => Ret (Replied 200 updated))))).

(** The state the query names; empty is refused before it is read. *)
Definition ListByState (hasReactions : bool) (c : context) (name : string) (state : option WorkflowState) : prog db (response (list EnrichedMessage)) :=
  require (OwnerIDFromContext c) 401 (fun _ =>
  if negb hasReactions then Ret (Refused 503)
  else or_status (GetChannelByName name) 404 (fun ch =>
    require state 400 (fun state =>
    or_status (Reactions.ListByState (Ch_ID ch) state) 400 (fun ids =>
    let! messages := collect (fun id => let? m := GetMessageByID id in Ret (Ok [m])) ids in
    let! shown := EnrichMessages messages in
    Ret (Replied 200 shown))))).
End Handlers.
End ChannelsHandler.

(** ** ReactionsHandler *)
Module ReactionsHandler.
Section Handlers.
Context {HEng : Engine} {HTrust : TrustWiring} (notifier : bool).
Definition resolveAgentName {B} (c : context) (ownerID : Z) (k : string -> prog db (response B)) : prog db (response B) :=
  if isSession c then or_status (GetHumanAgentForUser ownerID) 400 (fun h => require h 400 (fun a => k (Agent_Name a)))
  else or_status (ListAgents ownerID) 400 (fun l => match l with [] => Ret (Refused 400) | a :: rest => k (preferred a rest) end).
(** The reactions as they are after the change. *)
Definition reload {A} (id : Z) (a : A) : prog db (response (A * (list Reaction * WorkflowState))) :=
  or_status (Reactions.GetReactions id) 500 (fun r => Ret (Replied 200 (a, r))).
(** The reaction named; empty is refused before the message is looked up. *)
Definition Toggle (c : context) (id : option Z) (body : option (option ReactionType * rawjson)) : prog db (response (ToggleResult * (list Reaction * WorkflowState))) :=
  require (OwnerIDFromContext c) 401 (fun ownerID =>
  require id 400 (fun id =>
  require body 400 (fun req =>
  require req.1 400 (fun reaction =>
  or_status (GetMessageByID id) 404 (fun _ =>
  resolveAgentName c ownerID (fun agentName =>
    let! r := Reactions.Toggle notifier id agentName reaction req.2 in
    match r with
    | Ok (result, _) => reload id result
    | Err ErrInvalidReaction | Err ErrReactionLimit => Ret (Refused 400)
    | Err _ => Ret (Refused 500)
    | Panic w => Ret (Crashed w)
    end)))))).
Definition GetReactions (c : context) (id : option Z) : prog db (response (list Reaction * WorkflowState)) :=
  require (OwnerIDFromContext c) 401 (fun _ =>
  require id 400 (fun id =>
  or_status (GetMessageByID id) 404 (fun _ =>
  or_status (Reactions.GetReactions id) 500 (fun r => Ret (Replied 200 r))))).
Definition Remove (c : context) (id : option Z) (reaction : option ReactionType) : prog db (response (unit * (list Reaction * WorkflowState))) :=
  require (OwnerIDFromContext c) 401 (fun ownerID =>
  require id 400 (fun id =>
  require reaction 400 (fun reaction =>
  or_status (GetMessageByID id) 404 (fun _ =>
  resolveAgentName c ownerID (fun agentName =>
    let! r := Reactions.Remove id agentName reaction in
    match r with
    | Ok _ => reload id tt
    | Err ErrInvalidReaction => Ret (Refused 400)
    | Err _ => Ret (Refused 500)
    | Panic w => Ret (Crashed w)
    end))))).
End Handlers.
End ReactionsHandler.

(** ** NotificationsHandler *)
Module NotificationsHandler.
Section Handlers.
Context {HEng : Engine} {HLow : GoUnicode}.
Record unread := mkUnread { un_Channels : list (string * Z * Z); un_DMs : list (string * Z * Z); un_Total : Z }.
Definition sum_unread (l : list (string * Z * Z)) : Z := foldr (fun x n => x.1.2 + n) 0 l.
(** The channels and peers of the caller's human agent, each with its count and
    last message; the map of peers keeps one entry for each. *)
Definition UnreadCounts (c : context) : prog db (response unread) :=
  require (OwnerIDFromContext c) 401 (fun ownerID =>
  let! human := GetHumanAgentForUser ownerID in
  match human with
  | Ok (Some a) =>
      let! summaries := GetChannelSummaries (Agent_Name a) in
      let chans := match summaries with Ok l => (fun s => (cs_Name s, UnreadCount s, LastMessageID s)) <$> l | _ => [] end in
      let! counts := GetDMUnreadCounts (Agent_Name a) in
      let dms := match counts with
                 | Ok l => scan (map_to_list (foldl (fun (m : gmap string (Z * Z)) d => <[du_Agent d := (du_UnreadCount d, du_LastMessageID d)]> m) ∅ l))
                 | _ => []
                 end in
      let dms := (fun x => (x.1, x.2.1, x.2.2)) <$> dms in
      Ret (Replied 200 (mkUnread chans dms (sum_unread chans + sum_unread dms)))
  | _ => Ret (Replied 200 (mkUnread [] [] 0))
  end).
Inductive target := ToChannel (name : string) | ToPeer (agent : string).
(** [None]: the type is neither, or a field is missing. *)
Definition MarkRead (c : context) (body : option (option (target * Z))) : prog db (response unit) :=
  require (OwnerIDFromContext c) 401 (fun ownerID =>
  require body 400 (fun req =>
  require req 400 (fun '(to, lastMessageID) =>
  if lastMessageID <=? 0 then Ret (Refused 400)
  else
    let! human := GetHumanAgentForUser ownerID in
    match human with
    | Ok (Some a) =>
        match to with
        | ToChannel name => or_status (GetChannelByName name) 404 (fun ch => or_status (mark_channel_read (Agent_Name a) (Ch_ID ch) lastMessageID) 500 (fun _ => Ret (Replied 200 tt)))
        | ToPeer peer => or_status (mark_dm_read (Agent_Name a) peer lastMessageID) 500 (fun _ => Ret (Replied 200 tt))
        end
    | _ => Ret (Refused 400)
    end))).
End Handlers.
End NotificationsHandler.

(** ** DeadLettersHandler *)
Module DeadLettersHandler.
Section Handlers.
Context {HEng : Engine}.
Definition List (c : context) (includeAcknowledged : bool) (limit : Z) : prog db (response (list DeadLetter * Z)) :=
  require (OwnerIDFromContext c) 401 (fun ownerID => or_status (ListDeadLetters ownerID includeAcknowledged (param_limit 50 limit)) 500 (fun r => Ret (Replied 200 r))).
Definition Acknowledge (c : context) (id : option Z) : prog db (response unit) :=
  require (OwnerIDFromContext c) 401 (fun ownerID =>
  require id 400 (fun id => or_status (AcknowledgeDeadLetter id ownerID) 400 (fun _ => Ret (Replied 200 tt)))).
Definition Count (c : context) : prog db (response Z) :=
  require (OwnerIDFromContext c) 401 (fun ownerID => or_status (CountUnacknowledged ownerID) 500 (fun n => Ret (Replied 200 n))).
End Handlers.
End DeadLettersHandler.

(** The row a harness left for a run (internal/harness/runs), shown with it. *)
Class HarnessRuns := {
  HarnessRun : Type;
  GetByReactiveRunID : Z -> prog db (outcome error (option HarnessRun));
  GetByReactiveRunID_frame : forall id, within eq (GetByReactiveRunID id)
}.

(** ** RunsHandler: no handler asks who the caller is *)
Module RunsHandler.
Section Handlers.
Context {HEng : Engine} {HRun : JobRunner} {HHar : Harnesses} {HNot : Notifiers} {HRuns : HarnessRuns}.
Definition ListRuns (agentName : string) (status : option RunStatus) (limit offset : option Z) : prog db (response (list ReactiveRun * Z)) :=
  let limit := match limit with Some v => if (0 <? v) && (v <=? 200) then v else 50 | None => 50 end in
  let offset := match offset with Some v => if 0 <=? v then v else 0 | None => 0 end in
  or_status (Reactor.ListRuns agentName status limit offset) 500 (fun r => Ret (Replied 200 r)).

(** What a run is shown with: what the harness recorded, the message that
    triggered it, the agent's settings, and the first message the agent sent
    since the run started. *)
Record run_view := mkRunView { rv_Run : ReactiveRun; rv_Harness : option HarnessRun; rv_Trigger : option Message; rv_Agent : option Agent; rv_Outgoing : option Message }.
Definition id_order (a b : Message) : Prop := Msg_ID a <= Msg_ID b.
#[export] Instance id_order_dec a b : Decision (id_order a b).
Proof. unfold id_order. apply _. Defined.
Definition first_sent (agentName : string) (since : Z) (d : db) : option Message :=
  head (select_by id_order (fun m => String.eqb (FromAgent m) agentName && (since <=? Msg_CreatedAt m)) (messages d)).
Definition found {D E A} (o : outcome E A) : prog D (option A) := Ret (match o with Ok a => Some a | _ => None end).
Definition GetRun (id : option Z) : prog db (response run_view) :=
  require id 400 (fun id =>
  or_status (GetRunByID id) 404 (fun run =>
  let! harness := GetByReactiveRunID id in
  let! trigger := match TriggerMessageID run with Some m => let! o := GetMessageByID m in found o | None => Ret None end in
  let! agent := bind (GetAgentByName (Run_AgentName run)) found in
  let! outgoing := match StartedAt run with Some t => bind (query EDb (first_sent (Run_AgentName run) t)) found | None => Ret None end in
  Ret (Replied 200 (mkRunView run (match harness with Ok h => h | _ => None end) trigger agent (default None outgoing))))).

Definition RetryRun (id : option Z) : prog db (response (Z * RunStatus)) :=
  require id 400 (fun id => or_status (Reactor.RetryRun id) 400 (fun run => Ret (Replied 200 (Run_ID run, Run_Status run)))).

Inductive agent_state := StateRunning | StateQueued | StateBudgetExhausted | StateCooldown (until : Z) | StateIdle.
(** [lastRun.Add] counts nanoseconds. *)
Definition cooldown_end (a : Agent) (lastRun : Z) : Z := lastRun * 1000000000 + seconds_wrapped (CooldownSeconds a).
Definition ok_or {D A} (dflt : A) (p : prog D (outcome error A)) : prog D A := let! r := p in Ret (match r with Ok a => a | _ => dflt end).
Definition agent_status (a : Agent) : prog db (Agent * Z * agent_state) :=
  let! todayCount := ok_or 0 (CountTodayRuns (Agent_Name a)) in
  let! running := ok_or false (IsAgentRunning (Agent_Name a)) in
  let! state :=
    if running then Ret StateRunning
    else if PendingWork a then Ret StateQueued
    else if DailyTriggerBudget a <=? todayCount then Ret StateBudgetExhausted
    else
      let! lastRun := ok_or None (GetLastRunTime (Agent_Name a)) in
      match lastRun with
      | Some t => let! now := time_now in
                  Ret (if now * 1000000000 <? cooldown_end a t then StateCooldown (cooldown_end a t / 1000000000) else StateIdle)
      | None => Ret StateIdle
      end in
  Ret (a, todayCount, state).
Fixpoint statuses (l : list Agent) : prog db (list (Agent * Z * agent_state)) :=
  match l with [] => Ret [] | a :: rest => let! s := agent_status a in let! more := statuses rest in Ret (s :: more) end.
Definition ReactiveAgents : prog db (response (list (Agent * Z * agent_state))) :=
  or_status ListReactiveAgents 500 (fun l => let! r := statuses l in Ret (Replied 200 r)).
End Handlers.
End RunsHandler.

(** ** MemoryCoreHandler *)
Module MemoryCoreHandler.
Section Handlers.
Context (maxBytes : Z).
Definition authorize {B} (c : context) (pathOwner : option Z) (agentName : string) (k : string -> prog db (response B)) : prog db (response B) :=
  require (OwnerIDFromContext c) 401 (fun sessionOwnerID =>
  require pathOwner 400 (fun pathOwnerID =>
  if pathOwnerID <=? 0 then Ret (Refused 400)
  else if negb (pathOwnerID =? sessionOwnerID) then Ret (Refused 403)
  else if str_empty agentName then Ret (Refused 400)
  else k (pretty pathOwnerID))).
Definition Get (c : context) (pathOwner : option Z) (agentName : string) : prog db (response CoreMemory) :=
  authorize c pathOwner agentName (fun owner => or_status (Core_Get owner agentName) 500 (fun m => require m 404 (fun m => Ret (Replied 200 m)))).
(** The length of the blob and who wrote it. *)
Definition Put (c : context) (pathOwner : option Z) (agentName : string) (body : option (string * string)) : prog db (response (Z * string)) :=
  authorize c pathOwner agentName (fun owner =>
  require body 400 (fun req =>
  let updatedBy := if str_empty req.2 then "human" else req.2 in
  let! r := Core_Set maxBytes owner agentName req.1 updatedBy in
  Ret (match r with
       | Ok _ => Replied 200 (Z.of_nat (String.length req.1), updatedBy)
       | Err ErrCoreMemoryTooLarge => Refused 413
       | Err _ => Refused 500
       | Panic w => Crashed w
       end))).
Definition Delete (c : context) (pathOwner : option Z) (agentName : string) : prog db (response unit) :=
  authorize c pathOwner agentName (fun owner =>
  or_status (Core_Get owner agentName) 500 (fun m =>
  require m 404 (fun _ => or_status (Core_Delete owner agentName) 500 (fun _ => Ret (Replied 204 tt))))).
End Handlers.
End MemoryCoreHandler.

(** ** TrustHandler *)
Definition TrustHandler_GetScores `{Engine} (agentName : string) : prog db (response (gmap string spec_float)) :=
  if str_empty agentName then Ret (Refused 400) else or_status (GetScores agentName) 500 (fun s => Ret (Replied 200 s)).
