(* ===== verification/WebSpec.v ===== *)
(** * The web interface: isolation of the users, and what is answered

    [web_isolation]: whatever requests users make concurrently through the
    handlers of [Web], the retry of a run apart, the agents of a user who makes
    none are left alone, but for the settings of their channels.  The
    handlers check the owner in one statement and act in later ones; the argument
    is that an agent's owner never changes.  [messages_shown]: the lists of
    messages show the caller's own, the newest first.  [WebScenarios]: the witness
    of the isolation, and runs that show what the handlers let through. *)
From stdpp Require Import pretty.
From S2P Require Import Prelude Prog Table Schema Messaging MessagingFacts MessagingQueries Agents AgentsSpec Channels Attachments Trust Reactions Retention Memory Web MessagingSpec Reactor ReactorHistory Search SearchSpec.

(** ** What a set of agents may change *)

(** Rows come and go only if they are of [p]. *)
Definition rows_by {A} (p : A -> Prop) (t t' : table A) : Prop :=
  (forall x, x ∈ rows t -> x ∈ rows t' \/ p x) /\ (forall x, x ∈ rows t' -> x ∈ rows t \/ p x).
Lemma rows_by_refl {A} (p : A -> Prop) t : rows_by p t t.
Proof. split; auto. Qed.
Lemma rows_by_trans {A} (p : A -> Prop) t1 t2 t3 : rows_by p t1 t2 -> rows_by p t2 t3 -> rows_by p t1 t3.
Proof. intros [H1 H2] [H3 H4]. split; [intros x [Hx|]%H1|intros x [Hx|]%H4]; auto. Qed.
Lemma rows_by_mono {A} (p q : A -> Prop) t t' : (forall x, p x -> q x) -> rows_by p t t' -> rows_by q t t'.
Proof. intros Hpq [H1 H2]. split; [intros x [Hx|Hx]%H1|intros x [Hx|Hx]%H2]; auto. Qed.
Lemma rows_by_insert {A} (p : A -> Prop) mk (t : table A) : p (mk (next_id t)) -> rows_by p t (insert_row mk t).
Proof. intros Hp. split; intros x; [intros Hx; left; apply elem_of_app; by left|]. intros [Hx| ->%list_elem_of_singleton]%elem_of_app; auto. Qed.
Lemma rows_by_update {A} (p : A -> Prop) k f (t : table A) : (forall x, x ∈ rows t -> k x = true -> p x /\ p (f x)) -> rows_by p t (update_rows k f t).
Proof.
  intros Hp. split; intros x.
  - intros Hx. destruct (k x) eqn:E; [right; by apply Hp|]. left. apply elem_of_map_if. exists x. by rewrite E.
  - intros (y&Hy&->)%elem_of_map_if. destruct (k y) eqn:E; [right; by apply Hp|auto].
Qed.
Lemma rows_by_delete {A} (p : A -> Prop) k (t : table A) : (forall x, k x = true -> p x) -> rows_by p t (delete_rows k t).
Proof.
  intros Hp. split; intros x.
  - intros Hx. destruct (k x) eqn:E; [right; by apply Hp|]. left. by apply elem_of_delete_rows.
  - intros [_ Hx]%elem_of_delete_rows. by left.
Qed.

Lemma msg_step_from m m' : msg_step m m' -> FromAgent m' = FromAgent m.
Proof. intros [H _ _]. by simplify_eq. Qed.
Definition concerns (P : string -> Prop) (m : Message) : Prop := exists n, to_agent m = Some n /\ P n.
Record touches (P : string -> Prop) (d d' : db) : Prop := {
  tc_sent : forall m', m' ∈ rows (messages d') -> (exists m, m ∈ rows (messages d) /\ msg_step m m') \/ P (FromAgent m');
  tc_kept : forall m, m ∈ rows (messages d) -> exists m', m' ∈ rows (messages d') /\ msg_step m m' /\ (m' = m \/ concerns P m);
  tc_inbox : rows_by (fun s => P (Inbox_AgentName s)) (inbox_state d) (inbox_state d');
  tc_members : rows_by (fun x => P (Mem_AgentName x)) (channel_members d) (channel_members d');
  tc_invites : rows_by (fun x => P (Inv_AgentName x)) (channel_invites d) (channel_invites d');
  tc_channels : rows_by (fun c => P (Ch_CreatedBy c)) (channels d) (channels d');
  tc_reactions : rows_by (fun r => P (Rx_AgentName r)) (message_reactions d) (message_reactions d')
}.
Lemma touches_mono (P P' : string -> Prop) d d' : (forall n, P n -> P' n) -> touches P d d' -> touches P' d d'.
Proof.
  intros HP []. split; try (eapply rows_by_mono; [|eassumption]; cbv beta; auto).
  - intros m' Hm'. destruct (tc_sent0 m' Hm') as [H|H]; auto.
  - intros m Hm. destruct (tc_kept0 m Hm) as (m'&H1&H2&[H3|(n&H3&H4)]); exists m'; split_and!; auto. right. exists n. auto.
Qed.
#[export] Instance touches_preorder P : PreOrder (touches P).
Proof.
  split.
  - intros d. split; try apply rows_by_refl; [intros m Hm; left; exists m; split; [done|reflexivity]|intros m Hm; exists m; split_and!; [done|reflexivity|by left]].
  - intros a b c [] []. split; try (eapply rows_by_trans; eassumption).
    + intros m Hm. destruct (tc_sent1 m Hm) as [(m1&H1&S1)|]; [|by right]. destruct (tc_sent0 m1 H1) as [(m0&H0&S0)|Hp]; [left; exists m0; split; [done|by etrans]|].
      right. by rewrite (msg_step_from _ _ S1).
    + intros m Hm. destruct (tc_kept0 m Hm) as (m1&H1&S1&C1). destruct (tc_kept1 m1 H1) as (m2&H2&S2&C2). exists m2. split_and!; [done|by etrans|].
      destruct C1 as [->|C1]; [exact C2|by right].
Qed.

(** A channel without its settings, and when it was last changed: those anyone
    may set. *)
Definition but_settings (c : Channel) : Channel := with_settings default_settings 0 c.
Definition blur (d : db) : db := set_channels (mkTable (but_settings <$> rows (channels d)) (next_id (channels d))) d.
Lemma touches_blur P d d' : touches P d d' -> touches P (blur d) (blur d').
Proof.
  intros []. split; try done. destruct tc_channels0 as [H1 H2]. cbn [channels blur set_channels rows].
  split; intros x (c&->&Hc)%list_elem_of_fmap; [destruct (H1 c Hc)|destruct (H2 c Hc)]; first [by right|left; apply list_elem_of_fmap; by exists c].
Qed.
Lemma blur_settings k st d : blur (set_channels (update_rows k (with_settings st (clock d)) (channels d)) d) = blur d.
Proof.
  assert (but_settings <$> map_if k (with_settings st (clock d)) (rows (channels d)) = but_settings <$> rows (channels d)) as E.
  { unfold map_if. rewrite <- list_fmap_compose. apply list_fmap_ext. intros i c _. cbn. by destruct (k c). }
  change (set_channels (mkTable (but_settings <$> map_if k (with_settings st (clock d)) (rows (channels d))) (next_id (channels d))) d = blur d). by rewrite E.
Qed.

(** Calls in the name of one agent. *)
Definition acts (P : string -> Prop) (d d' : db) : Prop :=
  same_agents d d' /\ (messaging_ok d -> messaging_ok d' /\ messaging_le d d' /\ touches P d d').
#[export] Instance acts_preorder P : PreOrder (acts P).
Proof.
  split; [intros d; split; [done|intros H; split_and!; [done|reflexivity|reflexivity]]|].
  intros a b c [E1 H1] [E2 H2]. split; [by etrans|]. intros H. destruct (H1 H) as (Hb&L1&T1). destruct (H2 Hb) as (Hc&L2&T2). split_and!; [done|by etrans|by etrans].
Qed.

(** Steps that leave messaging alone and change the other tables by [P]. *)
Lemma acts_rows P d d' : same_messaging d d' ->
  rows_by (fun x => P (Mem_AgentName x)) (channel_members d) (channel_members d') ->
  rows_by (fun x => P (Inv_AgentName x)) (channel_invites d) (channel_invites d') ->
  rows_by (fun c => P (Ch_CreatedBy c)) (channels d) (channels d') ->
  rows_by (fun r => P (Rx_AgentName r)) (message_reactions d) (message_reactions d') -> acts P d d'.
Proof.
  intros Hs H1 H2 H3 H4. split; [by destruct Hs as (_&_&_&E)|]. intros Hok. pose proof (same_messaging_ok _ _ Hs Hok) as Hok'. pose proof (same_messaging_le _ _ Hs) as Hle.
  split_and!; [done..|]. destruct Hs as (Em&Ei&_&_). split; rewrite ?Em, ?Ei; [| |apply rows_by_refl|done..].
  - intros m Hm. left. exists m. split; [done|reflexivity].
  - intros m Hm. exists m. split_and!; [done|reflexivity|by left].
Qed.
(** Nothing of it changes. *)
Definition same_web (d d' : db) : Prop := same_messaging d d' /\ same_channels d d' /\ message_reactions d' = message_reactions d.
Lemma acts_same P d d' : same_web d d' -> acts P d d'.
Proof. intros (Hs&(E1&E2&E3)&E4). apply acts_rows; [done|rewrite E2|rewrite E3|rewrite E1|rewrite E4]; apply rows_by_refl. Qed.

(** *** The services *)
Section Services.
Context {HEng : Engine} {HJson : GoJson} {HLow : GoUnicode} (P : string -> Prop).

Lemma acts_update_messages p f d :
  (forall m, Msg_ID (f m) = Msg_ID m) ->
  (messaging_ok d -> forall m, m ∈ rows (messages d) -> p m = true -> msg_ok (f m) /\ msg_step m (f m) /\ concerns P m) ->
  acts P d (set_messages (update_rows p f (messages d)) d).
Proof.
  intros Hid Hf. split; [done|]. intros Hok. specialize (Hf Hok).
  destruct (messaging_update d p f Hid) as [Hok' Hle]; [intros m Hm Hp _; by destruct (Hf m Hm Hp) as (?&?&_)|done|]. split_and!; [done..|].
  split; cbn [messages inbox_state channels channel_members channel_invites message_reactions set_messages]; try apply rows_by_refl.
  - intros m' (m&Hm&->)%elem_of_map_if. left. exists m. split; [done|]. destruct (p m) eqn:E; [by destruct (Hf m Hm E) as (_&?&_)|reflexivity].
  - intros m Hm. exists (if p m then f m else m). split; [apply elem_of_map_if; by exists m|]. destruct (p m) eqn:E; [|split; [reflexivity|by left]].
    destruct (Hf m Hm E) as (_&H1&H2). split; [done|by right].
Qed.
Lemma acts_send msg d : P (FromAgent msg) -> Status msg = StatusPending -> priority_in_range (Priority msg) = true ->
  acts P d (set_messages (insert_row (message_row msg (clock d)) (messages d)) d).
Proof.
  intros HP Hs Hp. split; [done|]. intros Hok.
  destruct (messaging_insert d (message_row msg (clock d))) as [Hok' Hle]; [done|intros id; by apply message_row_ok|done|]. split_and!; [done..|].
  split; cbn [messages inbox_state channels channel_members channel_invites message_reactions set_messages]; try apply rows_by_refl.
  - intros m' [Hm| ->%list_elem_of_singleton]%elem_of_app; [left; exists m'; split; [done|reflexivity]|by right].
  - intros m Hm. exists m. split_and!; [apply elem_of_app; by left|reflexivity|by left].
Qed.
Lemma AttachToMessage_acts hash id : within (acts P) (AttachToMessage hash id).
Proof. apply AttachFile_within; [apply _|]. intros t d. by apply acts_same. Qed.
Lemma InsertMessage_acts msg : P (FromAgent msg) -> Status msg = StatusPending -> within (acts P) (InsertMessage msg).
Proof. intros HP Hs. apply within_exec_o. intros d. destruct (priority_in_range _) eqn:E; [by apply acts_send|reflexivity]. Qed.
Lemma InsertConversation_acts conv : within (acts P) (InsertConversation conv).
Proof.
  apply within_exec. intros d. split; [done|]. intros Hok. split; [by destruct Hok; split|]. split; [split; [|done]; intros m Hm; by exists m|].
  split; try apply rows_by_refl; intros m Hm; [left|]; exists m; split_and?; try done; by left.
Qed.
Lemma send_persist_acts from to body opts priority metadata : P from -> within (acts P) (send_persist from to body opts priority metadata).
Proof.
  intros HP. unfold send_persist. apply within_bind_ok.
  { unfold send_check_recipient. destruct (str_empty to); [done|]. apply within_bind_ok; [apply within_query, _|]. by intros []. }
  intros _. apply within_bind_ok.
  { unfold send_find_conversation. destruct (so_ConversationID opts); [apply within_bind_ok; [apply within_query_o, _|done]|]. destruct (_ && _); [|done].
    apply within_bind; [apply within_query_o, _|]. by intros [|[]|]. }
  intros found. apply within_bind_ok; [destruct found; [done|apply InsertConversation_acts]|]. intros conv.
  apply within_bind_ok; [by apply InsertMessage_acts|]. intros msg. apply within_bind; [|done]. apply within_for_each. intros hash. apply within_bind; [apply AttachToMessage_acts|done].
Qed.
Lemma SendMessage_acts from to body opts : P from -> within (acts P) (SendMessage from to body opts).
Proof. intros HP. unfold SendMessage. do 4 (destruct (_ : bool); [done|]). destruct (so_Metadata opts); [by apply send_persist_acts..|done]. Qed.

Lemma UpdateInboxState_acts a conv n : P a -> 0 <= n -> within (acts P) (UpdateInboxState a conv n).
Proof.
  intros HP Hn. apply within_exec. intros d. split; [done|]. intros Hok. destruct (upsert_inbox_le d a conv n Hn Hok) as [Hok' Hle]. split_and!; [done..|].
  split; cbn [messages inbox_state channels channel_members channel_invites message_reactions set_inbox_state]; try apply rows_by_refl.
  - intros m Hm. left. exists m. split; [done|reflexivity].
  - intros m Hm. exists m. split_and!; [done|reflexivity|by left].
  - unfold upsert_inbox. cbv zeta. destruct (find_row _ _); [|by apply rows_by_insert]. apply rows_by_update. intros s _ [Hk%String.eqb_eq _]%andb_true_iff. subst a. by split.
Qed.
Lemma mark_conversations_acts a n convs : P a -> 0 <= n -> within (acts P) (mark_conversations a n convs).
Proof. intros HP Hn. apply within_for_each. intros c. apply within_bind; [by apply UpdateInboxState_acts|done]. Qed.
Lemma mark_channel_read_acts a ch n : P a -> 0 <= n -> within (acts P) (mark_channel_read a ch n).
Proof. intros HP Hn. apply within_bind_ok; [apply within_query, _|]. intros l. apply within_bind; [by apply mark_conversations_acts|done]. Qed.
Lemma mark_dm_read_acts a peer n : P a -> 0 <= n -> within (acts P) (mark_dm_read a peer n).
Proof. intros HP Hn. apply within_bind_ok; [apply within_query, _|]. intros l. apply within_bind; [by apply mark_conversations_acts|done]. Qed.

Lemma AddMember_acts ch a role : P a -> within (acts P) (AddMember ch a role).
Proof.
  intros HP. apply within_exec_o. intros d. destruct (_ && _); [|reflexivity]. apply acts_rows; [by repeat split| |apply rows_by_refl..]. by apply rows_by_insert.
Qed.
Lemma RemoveMember_acts ch a : P a -> within (acts P) (RemoveMember ch a).
Proof.
  intros HP. apply within_exec_o. intros d. apply acts_rows; [by repeat split| |apply rows_by_refl..]. apply rows_by_delete.
  intros x [_ Hk%String.eqb_eq]%andb_true_iff. by subst a.
Qed.
Lemma AcceptInvite_acts ch a : P a -> within (acts P) (AcceptInvite ch a).
Proof.
  intros HP. apply within_exec_o. intros d. apply acts_rows; [by repeat split|apply rows_by_refl| |apply rows_by_refl..]. apply rows_by_update.
  intros x _ [[_ Hk%String.eqb_eq]%andb_true_iff _]%andb_true_iff. subst a. by split.
Qed.
Lemma store_CreateChannel_acts ch : P (Ch_CreatedBy ch) -> within (acts P) (store_CreateChannel ch).
Proof.
  intros HP. apply within_exec_o. intros d. destruct (channel_insertable ch d); [|reflexivity]. apply acts_rows; [by repeat split|apply rows_by_refl..| |apply rows_by_refl]. by apply rows_by_insert.
Qed.
Lemma JoinChannel_acts ch a : P a -> within (acts P) (Channels.JoinChannel ch a).
Proof.
  intros HP. apply within_bind_ok; [apply within_query_o, _|]. intros c. apply within_bind_ok; [apply within_query, _|]. intros [|]; [done|].
  apply within_bind_ok; [|intros _; by apply AddMember_acts]. destruct (IsPrivate c); [|done]. apply within_bind_ok; [apply within_query, _|]. intros [|]; [by apply AcceptInvite_acts|done].
Qed.
Lemma LeaveChannel_acts ch a : P a -> within (acts P) (Channels.LeaveChannel ch a).
Proof.
  intros HP. apply within_bind_ok; [apply within_query_o, _|]. intros c. destruct (IsSystem c); [done|]. apply within_bind_ok; [apply within_query_o, _|]. intros m.
  destruct (bool_decide _); [done|by apply RemoveMember_acts].
Qed.
Lemma CreateChannel_acts req : P (req_CreatedBy req) -> within (acts P) (Channels.CreateChannel req).
Proof.
  intros HP. unfold Channels.CreateChannel. destruct (ValidateChannelName _); [|done..]. apply within_bind_ok; [by apply store_CreateChannel_acts|]. intros ch.
  apply within_bind_ok; [by apply AddMember_acts|done].
Qed.
Lemma Insert_acts r : P (Rx_AgentName r) -> within (acts P) (Reactions.Insert r).
Proof. intros HP. apply within_exec_o. intros d. destruct (reaction_insertable r d); [|reflexivity]. apply acts_rows; [by repeat split|apply rows_by_refl..|]. by apply rows_by_insert. Qed.
Lemma Delete_acts id a rt : P a -> within (acts P) (Reactions.Delete id a rt).
Proof.
  intros HP. apply within_exec_o. intros d. apply acts_rows; [by repeat split|apply rows_by_refl..|]. apply rows_by_delete. unfold reaction_key.
  intros x. rewrite !andb_true_iff, String.eqb_eq. intros [[_ ->] _]. done.
Qed.
Lemma UpsertScore_acts a t delta : within (acts P) (UpsertScore a t delta).
Proof. apply within_bind_ok; [|intros _; apply within_query_o, _]. apply within_exec_o. intros d. destruct (upsert_score _ _ _ _ _); [by apply acts_same|reflexivity]. Qed.
Lemma adjustTrust_acts id a rt : within (acts P) (adjustTrustIfNeeded id a rt).
Proof.
  unfold adjustTrustIfNeeded. destruct (_ && _); [done|]. apply within_bind; [apply within_query_o, _|]. intros [t|e|w]; [|done..]. destruct (negb _); [done|].
  apply within_bind; [apply within_bind_ok; [apply within_bind; [apply within_query_o, _|by intros [|[]|]]|done]|]. intros [u|e|w]; [|done..]. destruct (str_empty u); [done|].
  apply within_bind; [apply within_query_o, _|]. intros [v|e|w]; [|done..]. destruct (negb _); [done|]. apply within_bind; [|done].
  destruct (bool_decide _); (apply within_bind_ok; [apply UpsertScore_acts|done]).
Qed.
Lemma JoinMyAgentsChannel_acts u a : P a -> within (acts P) (JoinMyAgentsChannel u a).
Proof.
  intros HP. apply within_bind; [apply within_query_o, _|]. intros [ch|e|w]; [|by destruct e|done]. apply within_bind_ok; [apply within_query, _|].
  intros [|]; [done|by apply AddMember_acts].
Qed.
Lemma Toggle_acts notifier id a rt meta : P a -> within (acts P) (Reactions.Toggle notifier id a rt meta).
Proof.
  intros HP. unfold Reactions.Toggle. destruct (negb _); [done|].
  assert (within (acts P) (capture_state notifier id)) as Hc by (destruct notifier; [apply within_bind; [apply within_query, _|done]|done]).
  assert (forall old, within (acts P) (notifyStateChangeIfNeeded notifier id old a rt)) as Hn by (intros old; destruct notifier; [apply within_bind; [apply within_query, _|done]|done]).
  apply within_bind; [exact Hc|]. intros old. apply within_bind_ok; [apply within_query, _|]. intros [|].
  - apply within_bind_ok; [by apply Delete_acts|]. intros _. apply within_bind; [apply Hn|done].
  - apply within_bind_ok. { unfold check_claim. destruct (bool_decide _); [|done]. apply within_bind_ok; [apply within_query, _|]. intros l. by destruct (other_claim a l). }
    intros _. apply within_bind_ok; [apply within_query, _|]. intros n. destruct (_ <=? _); [done|]. cbv zeta. apply within_bind_ok; [by apply Insert_acts|]. intros i.
    apply within_bind; [apply Hn|]. intros ev. apply within_bind; [apply adjustTrust_acts|done].
Qed.
End Services.

(** *** Claiming
    The messages picked are still the agent's when they are claimed. *)
Section Claiming.
Context {HEng : Engine} (I : db -> Prop) (R : db -> db -> Prop) `{!PreOrder R} (HIm : forall d, I d -> messaging_ok d) (HRm : forall d d', R d d' -> messaging_le d d').
Lemma rg_claiming a limit d0 : (forall x t, R d0 x -> I x -> acts (eq a) x (set_messages t x) -> I (set_messages t x) /\ R x (set_messages t x)) -> I d0 -> rg I R (ClaimMessages a limit) (fun _ _ => True) d0.
Proof.
  intros HP HI. apply rg_bind_ok; [apply _|done|]. apply rg_query; [apply _|]. intros d d' Hd Hd0 Hd' _. split; [|done]. set (ids := Msg_ID <$> _). pose proof (HIm _ Hd0) as Hok.
  assert (addressed a ids d') as Hto.
  { eapply addressed_later; [by apply HRm|]. intros id (m&->&Hm)%list_elem_of_fmap. apply elem_of_page, elem_of_select_by in Hm as [Hc Hm]. unfold claimable, opt_is in Hc. guards. by exists m. }
  clearbody ids. destruct ids as [|i ids'] eqn:Eids; [done|]. rewrite <- Eids in *. clear Eids. intros d2 Hd2 HI2. pose proof (HIm _ HI2) as Hok2.
  assert (acts (eq a) d2 (set_messages (update_rows (fun m => in_ids ids m && bool_decide (Status m = StatusPending)) (claim_row a (clock d2)) (messages d2)) d2)) as Hact.
  { apply acts_update_messages; [done|]. intros _ m Hm Hk. unfold in_ids in Hk. guards. destruct (addressed_later _ _ _ _ (HRm _ _ Hd2) Hto (Msg_ID m)) as (m0&Hm0&Hid&Hta); [done|].
    assert (m0 = m) as -> by (eapply (table_ok_unique (messages d2)); [apply Hok2|done..]).
    destruct (claim_row_step a (clock d2) m) as [H1 H2]; [unfold claimable, opt_is; by rewrite !bool_decide_true|by apply (mk_rows d2 Hok2)|]. split_and!; [done|done|by exists a]. }
  destruct (HP _ _ (transitivity (transitivity Hd Hd') Hd2) HI2 Hact) as [HI3 HR3].
  split_and!; [done|done| |done]. eapply rg_mono; [|apply (within_rg I R eq); [intros x y HIx <-; by split|apply within_query, _]]. done.
Qed.
End Claiming.

(** ** Any interleaving of requests *)
Section Isolation.
Context {HEng : Engine} {HCred : Credentials} {HTraces : TraceStore} {HJson : GoJson} {HLow : GoUnicode} {HFTS : FTS} {HRuns : HarnessRuns} (caller : Z -> Prop).

Definition mine (d : db) (n : string) : Prop := exists o, caller o /\ owned_agent n o d.
Definition web_I (d : db) : Prop := agents_ok d /\ messaging_ok d.
Record web_R (d d' : db) : Prop := {
  wr_agents : agents_later d d';
  wr_messages : messaging_le d d';
  wr_rows : rows_by (fun a => caller (Agent_OwnerID a)) (agents d) (agents d');
  wr_touches : touches (mine d') (blur d) (blur d')
}.
Lemma mine_later d d' n : agents_later d d' -> mine d n -> mine d' n.
Proof. intros Hl (o&Ho&Hn). exists o. split; [done|by eapply owned_later]. Qed.
#[export] Instance web_R_preorder : PreOrder web_R.
Proof.
  split; [intros d; split; [reflexivity|reflexivity|apply rows_by_refl|reflexivity]|]. intros a b c [] [].
  split; [by etrans|by etrans|by eapply rows_by_trans|]. etrans; [|eassumption]. eapply touches_mono; [|eassumption]. intros n. by apply mine_later.
Qed.

(** A request is safe if it relies on and keeps all that. *)
Definition safe {A} (p : prog db A) (d : db) : Prop := rg web_I web_R p (fun _ _ => True) d.
Lemma safe_bind {A B} (p : prog db A) (f : A -> prog db B) d : web_I d -> rg web_I web_R p (fun a d => web_I d -> safe (f a) d) d -> safe (bind p f) d.
Proof. intros HI H. apply rg_bind; [apply _|done|]. eapply rg_mono; [|exact H]. cbv beta. intros a d' Hd' Hs. by apply Hs. Qed.
Lemma safe_or_status {A B} (p : M A) status (f : A -> prog db (response B)) d : web_I d ->
  rg web_I web_R p (fun o d => forall a, o = Ok a -> web_I d -> safe (f a) d) d -> safe (or_status p status f) d.
Proof. intros HI H. apply safe_bind; [done|]. eapply rg_mono; [|exact H]. cbv beta. intros [a|e|w] d' _ Ha Hd'; [by apply Ha|done|done]. Qed.
Lemma safe_require {A B} (o : option A) status (f : A -> prog db (response B)) d : (forall a, o = Some a -> safe (f a) d) -> safe (require o status f) d.
Proof. intros H. destruct o; [by apply H|done]. Qed.
Lemma rg_reading {A} (p : prog db A) d : within eq p -> rg web_I web_R p (fun _ _ => True) d.
Proof. apply within_rg. intros x y HI <-. split; [done|reflexivity]. Qed.
Lemma acts_web P d0 x y : (forall n, P n -> mine d0 n) -> web_R d0 x -> web_I x -> acts P x y -> web_I y /\ web_R x y.
Proof.
  intros HP Hx [HIa HIm] [Es H]. destruct (H HIm) as (HIm'&Hle&Ht). destruct (agents_same_step _ _ Es HIa) as [HIa' Hl].
  split; [by split|]. split; [done|done|rewrite Es; apply rows_by_refl|]. apply touches_blur. eapply touches_mono; [|exact Ht]. intros n Hn. eapply mine_later; [|by apply HP]. destruct Hx as [Hx _ _ _]. by etrans.
Qed.
Lemma rg_acting {A} (p : prog db A) P d : (forall n, P n -> mine d n) -> within (acts P) p -> safe p d.
Proof. intros HP. apply within_rg_from; [apply _|]. intros x y Hx HI. by eapply acts_web. Qed.
(** Settings. *)
Lemma blur_web x y : web_I x -> blur x = blur y -> web_I y /\ web_R x y.
Proof.
  intros [HIa HIm] E. pose proof (f_equal agents E) as Ea. pose proof (f_equal messages E) as Em. pose proof (f_equal inbox_state E) as Ei. pose proof (f_equal conversations E) as Ec.
  cbn in Ea, Em, Ei, Ec. destruct (agents_same_step x y (eq_sym Ea) HIa) as [HIa' Hl]. assert (same_messaging x y) as Hs by (repeat split; congruence).
  split; [split; [done|by apply (same_messaging_ok x)]|]. split; [done|by apply same_messaging_le|rewrite Ea; apply rows_by_refl|rewrite E; reflexivity].
Qed.
Lemma UpdateChannelSettings_safe ch st d : safe (UpdateChannelSettings ch st) d.
Proof.
  apply (within_rg _ _ (fun x y => blur x = blur y)); [intros x y; apply blur_web|]. apply within_bind_ok; [|intros _; by apply within_query_o].
  apply within_exec_o. intros x. by rewrite blur_settings.
Qed.
(** The facts the agents' service gives, here. *)
Lemma rg_from_agents {A} (p : prog db A) Q d : rg agents_ok agents_later p Q d -> within eq p -> rg web_I web_R p Q d.
Proof.
  intros H Hw. eapply rg_mono; [|apply (rg_inherit agents_ok web_I agents_later web_R p Q (fun _ _ => True)); [by intros ? []|by intros ?? []|exact H|by apply rg_reading]].
  cbv beta. by intros a x _ [Hq _].
Qed.
Lemma GetAgent_reads n : within eq (GetAgent n).
Proof. apply within_bind; [apply within_query_o, _|]. by intros [?|[]|?]. Qed.
Lemma rg_owner n d : web_I d -> rg web_I web_R (GetAgent n) (fun o d => forall a, o = Ok a -> known a d /\ Agent_Name a = n) d.
Proof. intros [HI _]. apply rg_from_agents; [by apply rg_GetAgent|apply GetAgent_reads]. Qed.
Lemma known_owned a d : known a d -> owned_agent (Agent_Name a) (Agent_OwnerID a) d.
Proof. intros (b&Hb&Hi&_). exists b. unfold identity in Hi. by simplify_eq. Qed.
Lemma rg_isAgentOwnedBy n o d : web_I d -> rg web_I web_R (isAgentOwnedBy n o) (fun b d => b = true -> owned_agent n o d) d.
Proof.
  intros HI. unfold isAgentOwnedBy. destruct (str_empty n); [done|]. apply rg_bind; [apply _|done|]. eapply rg_mono; [|by apply rg_owner].
  intros [a|e|w] d' _ Ha; [|done|done]. destruct (Ha a eq_refl) as [Hk <-]. intros d2 [Hl _ _ _] _ <-%Z.eqb_eq. eapply owned_later; [exact Hl|by apply known_owned].
Qed.
Lemma rg_ListAgents o d : rg web_I web_R (ListAgents o) (fun r d => forall l, r = Ok l -> forall a, a ∈ l -> owned_agent (Agent_Name a) o d) d.
Proof.
  apply rg_query; [apply _|]. intros x y _ _ [Hl _ _ _] _. split; [|done]. intros l [= <-] a [[_ Ho]%andb_true_iff Ha]%elem_of_select_by. apply Z.eqb_eq in Ho. subst o.
  eapply owned_later; [exact Hl|]. by exists a.
Qed.
Lemma rg_human o d : rg web_I web_R (GetHumanAgentForUser o) (fun r d => forall a, r = Ok (Some a) -> owned_agent (Agent_Name a) o d) d.
Proof.
  unfold GetHumanAgentForUser. intros x Hx HI. split_and!; [done|reflexivity| |].
  - destruct (scan _) as [|b l] eqn:E; intros y Hy _; [done|]. intros a [= <-]. eapply owned_later; [by destruct Hy|]. exists b.
    assert (b ∈ scan (select (fun a => (Agent_OwnerID a =? o) && String.eqb (Agent_Type a) "human" && is_active a) (agents x))) as Hb by (rewrite E; by left).
    rewrite scan_perm in Hb. apply elem_of_select in Hb as [[[Ho%Z.eqb_eq _]%andb_true_iff _]%andb_true_iff Hin]. by split_and!.
  - intros y _ _ a. discriminate.
Qed.

(** *** The agents' service *)
Definition by_owner (d d' : db) : Prop :=
  agents_step d d' /\ rows_by (fun a => caller (Agent_OwnerID a)) (agents d) (agents d') /\ messages d' = messages d /\ inbox_state d' = inbox_state d /\ same_channels d d' /\ message_reactions d' = message_reactions d.
Lemma by_owner_step d d' : web_I d -> by_owner d d' -> web_I d' /\ web_R d d'.
Proof.
  intros [HIa [H1 H2 H3 H4]] (Hs&Hr&Em&Ei&(E1&E2&E3)&E4). destruct (Hs HIa) as [HIa' Hl]. split; [split; [done|split; by rewrite ?Em, ?Ei]|].
  split; [done| |done|].
  - split; [intros m Hm; exists m; by rewrite Em|]. intros a c. unfold last_read. by rewrite Ei.
  - apply touches_blur. split; rewrite ?Em, ?Ei, ?E1, ?E2, ?E3, ?E4; try apply rows_by_refl; [intros m Hm; left; exists m; split; [done|reflexivity]|].
    intros m Hm. exists m. split_and!; [done|reflexivity|by left].
Qed.
Lemma by_owner_same d d' : agents d' = agents d -> messages d' = messages d -> inbox_state d' = inbox_state d -> same_channels d d' -> message_reactions d' = message_reactions d -> by_owner d d'.
Proof. intros Ea Em Ei Ec Er. split; [by apply agents_same_step|]. split; [rewrite Ea; apply rows_by_refl|done]. Qed.
Lemma new_key_ticks : within by_owner new_key.
Proof.
  eapply (within_mono tick); [by intros d d' (s&_&->); apply by_owner_same|]. apply within_bind_ok; [apply within_bind_ok; [apply rand_Read_frame|done]|].
  intros k. apply within_bind_ok; [apply GenerateFromPassword_frame|done].
Qed.
Lemma Register_within_owner n dn t caps o : caller o -> within by_owner (Register n dn t caps o).
Proof.
  intros Ho. unfold Register. destruct (str_empty n); [done|]. cbv zeta. destruct (_ && _); [done|]. destruct (negb _); [done|].
  apply within_bind_ok; [apply new_key_ticks|]. intros [k h]. apply within_bind_ok; [|done]. apply within_exec_o. intros d.
  destruct (agent_insertable _ d) eqn:E; [|by apply by_owner_same]. split; [by apply agents_insert_step|]. split; [by apply rows_by_insert|done].
Qed.
Lemma rg_any {A} (p : prog db A) d : rg (fun _ => True) (fun _ _ => True) p (fun _ _ => True) d.
Proof. apply (within_rg _ _ (fun _ _ => True)); [done|]. clear. induction p; cbn [within]; auto. Qed.
Lemma Register_named n dn t caps o d :
  rg (fun _ => True) (fun _ _ => True) (Register n dn t caps o) (fun r _ => forall x, r = Ok x -> Agent_Name x.1 = n) d.
Proof.
  assert (PreOrder (fun _ _ : db => True)) as HP by (split; done).
  unfold Register. destruct (str_empty n); [done|]. cbv zeta. destruct (_ && _); [done|]. destruct (negb _); [done|].
  apply rg_bind_ok; [done|done|]. eapply rg_mono; [|apply rg_any]. intros [[k h]|e|w] d1 _ _; [|done|done]. apply rg_bind_ok; [done|done|]. apply rg_exec_o.
  intros d2 _ _. split_and!; [done|done| |done]. intros d3 _ _. destruct (agent_insertable _ _); [|done]. intros d4 _ _ x [= <-]. done.
Qed.
Lemma rg_within_owner {A} (p : prog db A) d : within by_owner p -> rg web_I web_R p (fun _ _ => True) d.
Proof. apply within_rg. intros x y. apply by_owner_step. Qed.
Lemma rg_Register_web n dn t caps o d : caller o -> web_I d -> rg web_I web_R (Register n dn t caps o) (fun r d => forall x, r = Ok x -> mine d (Agent_Name x.1)) d.
Proof.
  intros Ho [HI _].
  pose proof (rg_inherit _ web_I _ web_R _ _ _ d (fun _ _ => I) (fun _ _ _ => I) (Register_named n dn t caps o d) (rg_within_owner _ d (Register_within_owner n dn t caps o Ho))) as H1.
  pose proof (rg_inherit agents_ok web_I agents_later web_R _ _ _ d (fun _ H => proj1 H) wr_agents (rg_Register n dn t caps o d HI) H1) as H2.
  eapply rg_mono; [|exact H2]. cbv beta. intros r x _ (Ha&Hb&_) y Hy. exists o. split; [done|]. rewrite (Hb y Hy). by eapply Ha.
Qed.
Lemma named_owner n o a d : agents_ok d -> owned_agent n o d -> a ∈ rows (agents d) -> active_named n a = true -> Agent_OwnerID a = o.
Proof.
  intros [_ Hn _] (b&Hb&Eb&<-) Ha [Ea%String.eqb_eq _]%andb_true_iff. f_equal. eapply (NoDup_fmap_unique Agent_Name); [exact Hn|done|done|congruence].
Qed.
(** A write to the active agent of a name. *)
Lemma rg_update_named n o (f : Z -> Agent -> Agent) (ans : db -> outcome error unit) d0 : caller o -> owned_agent n o d0 -> (forall now a, agent_later a (f now a)) ->
  rg web_I web_R (exec_o EDb (fun d => set_agents (update_rows (active_named n) (f (clock d)) (agents d)) d) ans) (fun _ _ => True) d0.
Proof.
  intros Ho Hown Hf. apply rg_exec_o. intros d [Hl _ _ _] HI. assert (by_owner d (set_agents (update_rows (active_named n) (f (clock d)) (agents d)) d)) as Hb.
  { split; [by apply agents_update_step|]. split; [|done]. apply rows_by_update. intros a Ha Hn. destruct HI as [HI _].
    assert (Agent_OwnerID a = o) as Ea by (eapply named_owner; [done|by eapply owned_later|done|done]).
    split; [by rewrite Ea|]. destruct (Hf (clock d) a) as [Hi _]. unfold identity in Hi. simplify_eq Hi; intros. congruence. }
  destruct (by_owner_step _ _ HI Hb). split_and!; done.
Qed.
Lemma CaptureDeadLetters_owner o n : within by_owner (CaptureDeadLetters o n).
Proof.
  apply within_bind_ok; [apply within_query; intros d; by apply by_owner_same|]. intros l. destruct (bool_decide _); [done|]. apply within_exec. intros d.
  assert (forall l d, agents (insert_dead_letters o n l d) = agents d /\ messages (insert_dead_letters o n l d) = messages d /\ inbox_state (insert_dead_letters o n l d) = inbox_state d /\
    same_channels d (insert_dead_letters o n l d) /\ message_reactions (insert_dead_letters o n l d) = message_reactions d) as H.
  { clear. intros l. unfold insert_dead_letters. induction l as [|x l IH]; intros d; cbn [foldl]; [by repeat split|]. destruct (IH (set_dead_letters (insert_row (dead_letter o n (clock d) x) (dead_letters d)) d)) as (E1&E2&E3&(E4&E5&E6)&E7).
    rewrite E1, E2, E3, E7. unfold same_channels. rewrite E4, E5, E6. by repeat split. }
  destruct (H l d) as (?&?&?&?&?). by apply by_owner_same.
Qed.

(** *** Messages *)
Lemma rg_message id d : web_I d ->
  rg web_I web_R (GetMessageByID id) (fun o d => forall m, o = Ok m -> Msg_ID m = id /\ msg_ok m /\ exists m', m' ∈ rows (messages d) /\ msg_step m m') d.
Proof.
  intros HI. apply rg_bind; [apply _|done|]. apply rg_query_o; [apply _|]. intros x y _ [_ Hx] Hy _. split; [|by intros ????].
  destruct (find_id id (messages x)) as [m|] eqn:E; [|by intros ????]. intros z Hz _ m' [= <-]. apply find_id_Some in E as [Hid Hm]. split; [done|]. split; [by apply (mk_rows x Hx)|].
  destruct Hy as [_ [Hy _] _ _], Hz as [_ [Hz _] _ _]. destruct (Hy m Hm) as (m1&H1&S1). destruct (Hz m1 H1) as (m2&H2&S2). exists m2. split; [done|by etrans].
Qed.
Lemma MarkDone_acts id a : within (acts (eq a)) (Messaging.MarkDone id a).
Proof.
  apply within_bind_ok; [apply within_bind; [apply within_query_o, _|by intros [|[]|]]|]. intros m. destruct (claim_guard id a m); [done|]. apply within_exec_o. intros d.
  apply acts_update_messages; [done|]. intros Hok x Hx [_ Hc]%andb_true_iff. apply bool_decide_eq_true in Hc. pose proof (mk_rows d Hok x Hx) as Hxo.
  destruct (with_status_step StatusDone None (clock d) x) as [H1 H2]; [done| |done|].
  - intros Hp%(mo_pending x Hxo). congruence.
  - split_and!; [done|done|]. exists a. split; [by apply (mo_claimant x Hxo)|done].
Qed.
Lemma safe_ClaimMessages a limit d0 : mine d0 a -> web_I d0 -> safe (ClaimMessages a limit) d0.
Proof.
  intros Ha HI. apply rg_claiming; [apply _|by intros ? []|by intros ?? []| |done]. intros x t Hx HIx. apply (acts_web (eq a) d0); [by intros ? <-|done..].
Qed.
Lemma one_agent a o d : caller o -> owned_agent a o d -> forall n, a = n -> mine d n.
Proof. intros Ho Ha n <-. by exists o. Qed.

(** *** The requests *)
Lemma collect_reads {A B} (f : A -> M (list B)) l : (forall a, within eq (f a)) -> within eq (collect f l).
Proof. intros Hf. induction l as [|a l IH]; [done|]. cbn [collect]. apply within_bind; [apply Hf|]. intros o. apply within_bind; [exact IH|done]. Qed.
Ltac reads :=
  repeat match goal with
  | |- within eq (Ret _) => exact I
  | |- within eq (query _ _) => apply within_query, _
  | |- within eq (query_o _ _) => apply within_query_o, _
  | |- within eq (bind_ok _ _) => apply within_bind_ok; [|intros ?]
  | |- within eq (bind _ _) => apply within_bind; [|intros ?]
  | |- within eq (or_status _ _ _) => unfold or_status
  | |- within eq (require ?o _ _) => destruct o; unfold require
  | |- within eq (collect _ _) => apply collect_reads; intros ?
  | |- within eq (GetMessageByID _) => unfold GetMessageByID
  | |- within eq (GetAgent _) => apply GetAgent_reads
  | |- within eq (if ?b then _ else _) => destruct b
  | |- within eq (match ?x with _ => _ end) => destruct x
  | |- within eq (let _ := _ in _) => cbv zeta
  end.
Lemma Enrich_reads l : within eq (EnrichMessages l).
Proof.
  unfold EnrichMessages. destruct l as [|m l]; [done|]. apply within_bind; [unfold GetReplyCounts; reads|]. intros counts. apply within_bind.
  - induction (_ <$> _) as [|x xs IH]; [done|]. cbn [load_attachments]. apply within_bind; [|intros o; apply within_bind; [exact IH|done]].
    unfold GetByMessageID_att, attachment_reader, attachment_infos, Attachments.GetByMessageID, store_GetByMessageID. reads.
  - intros ms. unfold GetByMessageIDs. cbn [fmap list_fmap]. reads.
Qed.
Lemma isAgentOwnedBy_reads n o : within eq (isAgentOwnedBy n o).
Proof. unfold isAgentOwnedBy. reads. Qed.
Lemma ReadInbox_reads a opts : MarkRead opts = false -> within eq (ReadInbox a opts).
Proof. intros H. unfold ReadInbox, GetInboxMessages, CountInboxMessages. rewrite H. reads. Qed.

Inductive web_call :=
| WList (limit : Z) (status : option MsgStatus) (agentFilter : string) | WGet (id : option Z) | WConversation (id : option Z) | WReplies (id : option Z)
| WSend (body : option MessagesHandler.send_request) | WDone (id : option Z)
| WChannels | WChannel (name : string) | WChannelMessages (name : string) (limit : Z) | WNewChannel (body : option ChannelsHandler.create_request)
| WJoin (name agent : string) | WLeave (name agent : string)
| WToggle (id : option Z) (body : option (option ReactionType * rawjson)) | WUnreact (id : option Z) (reaction : option ReactionType)
| WMarkRead (body : option (option (NotificationsHandler.target * Z)))
| WSettings (name : string) (body : option ChannelsHandler.settings_request) | WState (name : string) (state : option WorkflowState)
| WConversations | WSearch (query : string) (limit : Z) (after before : option Z) (channelFilter agentFilter : string) | WDM (peer : string) (limit : Z) | WDMPartners
| WReactions (id : option Z) | WUnread | WLetters (acknowledged : bool) (limit : Z) | WAcknowledge (id : option Z) | WLetterCount
| WCore (owner : option Z) (agent : string) | WPutCore (owner : option Z) (agent : string) (body : option (string * string)) | WDeleteCore (owner : option Z) (agent : string)
| WRuns (agent : string) (status : option RunStatus) (limit offset : option Z) | WRun (id : option Z) | WReactive | WTrust (agent : string)
| WAgents | WAgent (name : string)
| WRegister (body : option AgentsHandler.register_request) | WUpdate (name : string) (body : option (string * rawjson)) | WDelete (name : string) | WRevoke (name : string).
Definition done_with {A} (p : prog db A) : prog db unit := let! _ := p in Ret tt.
Definition web_prog (maxBytes : Z) (notifier : bool) (r : context * web_call) : prog db unit :=
  let '(c, k) := r in
  match k with
  | WList limit status f => done_with (MessagesHandler.ListMessages c limit status f)
  | WGet id => done_with (MessagesHandler.GetMessage c id)
  | WConversation id => done_with (MessagesHandler.GetConversation c id)
  | WReplies id => done_with (MessagesHandler.GetReplies c id)
  | WSend body => done_with (MessagesHandler.SendMessage c body)
  | WDone id => done_with (MessagesHandler.MarkDone c id)
  | WChannels => done_with (ChannelsHandler.ListChannels c)
  | WChannel n => done_with (ChannelsHandler.GetChannel c n)
  | WChannelMessages n limit => done_with (ChannelsHandler.ChannelMessages c n limit)
  | WNewChannel body => done_with (ChannelsHandler.CreateChannel c body)
  | WJoin n a => done_with (ChannelsHandler.JoinChannel c n a)
  | WLeave n a => done_with (ChannelsHandler.LeaveChannel c n a)
  | WToggle id body => done_with (ReactionsHandler.Toggle notifier c id body)
  | WUnreact id rt => done_with (ReactionsHandler.Remove c id rt)
  | WMarkRead body => done_with (NotificationsHandler.MarkRead c body)
  | WSettings n body => done_with (ChannelsHandler.UpdateSettings c n body)
  | WState n state => done_with (ChannelsHandler.ListByState true c n state)
  | WConversations => done_with (MessagesHandler.ListConversations c)
  | WSearch q limit after before chans agts => done_with (MessagesHandler.SearchMessages c q limit after before chans agts)
  | WDM peer limit => done_with (MessagesHandler.DMMessages c peer limit)
  | WDMPartners => done_with (MessagesHandler.DMPartners c)
  | WReactions id => done_with (ReactionsHandler.GetReactions c id)
  | WUnread => done_with (NotificationsHandler.UnreadCounts c)
  | WLetters incl limit => done_with (DeadLettersHandler.List c incl limit)
  | WAcknowledge id => done_with (DeadLettersHandler.Acknowledge c id)
  | WLetterCount => done_with (DeadLettersHandler.Count c)
  | WCore o a => done_with (MemoryCoreHandler.Get c o a)
  | WPutCore o a body => done_with (MemoryCoreHandler.Put maxBytes c o a body)
  | WDeleteCore o a => done_with (MemoryCoreHandler.Delete c o a)
  | WRuns a status limit offset => done_with (RunsHandler.ListRuns a status limit offset)
  | WRun id => done_with (RunsHandler.GetRun id)
  | WReactive => done_with RunsHandler.ReactiveAgents
  | WTrust a => done_with (TrustHandler_GetScores a)
  | WAgents => done_with (AgentsHandler.ListAgents c)
  | WAgent n => done_with (AgentsHandler.GetAgent c n)
  | WRegister body => done_with (AgentsHandler.RegisterAgent c body)
  | WUpdate n body => done_with (AgentsHandler.UpdateAgent c n body)
  | WDelete n => done_with (AgentsHandler.DeleteAgent c n)
  | WRevoke n => done_with (AgentsHandler.RevokeKey c n)
  end.

Lemma safe_done {A} (p : prog db A) d : web_I d -> safe p d -> safe (done_with p) d.
Proof. intros HI H. apply safe_bind; [done|]. eapply rg_mono; [|exact H]. done. Qed.
Lemma safe_reading {A} (p : prog db A) d : within eq p -> safe p d.
Proof. apply rg_reading. Qed.
Lemma owned_access_reads m o : within eq (MessagesHandler.owned_access m o).
Proof. unfold MessagesHandler.owned_access, or_else. apply within_bind; [apply isAgentOwnedBy_reads|]. intros [|]; [done|apply isAgentOwnedBy_reads]. Qed.
Lemma any_access_reads o l : within eq (MessagesHandler.any_access o l).
Proof. induction l as [|m l IH]; [done|]. apply within_bind; [apply owned_access_reads|]. intros [|]; [done|exact IH]. Qed.
Lemma ListMessages_reads c limit status f : within eq (MessagesHandler.ListMessages c limit status f).
Proof.
  unfold MessagesHandler.ListMessages, ListAgents, ListAgentsByOwner, active_by_name. reads; [apply ReadInbox_reads; done|apply Enrich_reads].
Qed.
Lemma GetMessage_reads c id : within eq (MessagesHandler.GetMessage c id).
Proof. unfold MessagesHandler.GetMessage, GetMessageByID, store_GetMessageByID. reads; first [apply owned_access_reads|apply Enrich_reads]. Qed.
Lemma GetReplies_reads c id : within eq (MessagesHandler.GetReplies c id).
Proof. unfold MessagesHandler.GetReplies, Messaging.GetReplies, store_GetReplies, GetMessageByID, store_GetMessageByID. reads; first [apply owned_access_reads|apply Enrich_reads]. Qed.
Lemma GetConversation_reads c id : within eq (MessagesHandler.GetConversation c id).
Proof. unfold MessagesHandler.GetConversation, service_GetConversation, GetConversation, GetConversationMessages. reads; first [apply any_access_reads|apply Enrich_reads]. Qed.
Lemma ListChannels_reads c : within eq (ChannelsHandler.ListChannels c).
Proof.
  unfold ChannelsHandler.ListChannels, ListAgents, ListAgentsByOwner, active_by_name, Channels.ListChannels, store_ListChannels. reads.
  match goal with |- within eq (count_each ?l) => induction l as [|x xs IH]; [done|] end. cbn [count_each]. unfold CountMembers. reads; exact IH.
Qed.
Lemma GetChannel_reads c n : within eq (ChannelsHandler.GetChannel c n).
Proof. unfold ChannelsHandler.GetChannel, GetChannelByName, store_GetChannelByName, GetMembers. reads. Qed.
Lemma latest_read_reads ch l : forall best, within eq (ChannelsHandler.latest_read ch l best).
Proof. induction l as [|a l IH]; intros best; [done|]. cbn [ChannelsHandler.latest_read]. unfold GetLastReadForChannel. apply within_bind; [reads|intros r; apply IH]. Qed.
Lemma ChannelMessages_reads c n limit : within eq (ChannelsHandler.ChannelMessages c n limit).
Proof.
  unfold ChannelsHandler.ChannelMessages, GetChannelByName, store_GetChannelByName, GetChannelMessages, store_GetChannelMessages, CountChannelMessages, ListAgents, ListAgentsByOwner, active_by_name.
  reads; first [apply Enrich_reads|apply latest_read_reads].
Qed.

Lemma ListConversations_reads c : within eq (MessagesHandler.ListConversations c).
Proof.
  unfold MessagesHandler.ListConversations, ListAgents, ListAgentsByOwner, active_by_name. reads; [by apply ReadInbox_reads|].
  match goal with |- within eq (MessagesHandler.with_subjects ?l) => induction l as [|x xs IH]; [done|] end. cbn [MessagesHandler.with_subjects].
  unfold service_GetConversation, GetConversation, GetConversationMessages. apply within_bind; [reads|intros r]. apply within_bind; [exact IH|done].
Qed.
Lemma SearchMessages_reads c q limit after before chans agts : within eq (MessagesHandler.SearchMessages c q limit after before chans agts).
Proof.
  unfold MessagesHandler.SearchMessages, ListAgents, ListAgentsByOwner, active_by_name, MessagingQueries.SearchMessages, store_SearchMessages, CountSearchMessages. reads; apply Enrich_reads.
Qed.
Lemma DMMessages_reads c peer limit : within eq (MessagesHandler.DMMessages c peer limit).
Proof.
  unfold MessagesHandler.DMMessages, ListAgents, ListAgentsByOwner, active_by_name, GetDMMessages, GetLastReadForDM. reads; apply Enrich_reads.
Qed.
Lemma count_unread_reads allAgents l : within eq (count_unread allAgents l).
Proof. induction l as [|x xs IH]; [done|]. cbn [count_unread]. reads; exact IH. Qed.
Lemma DMPartners_reads c : within eq (MessagesHandler.DMPartners c).
Proof.
  unfold MessagesHandler.DMPartners, ListAgents, ListAgentsByOwner, active_by_name, GetDMPartners. reads; try apply count_unread_reads.
  all: match goal with |- within eq (MessagesHandler.display_names ?l) => induction l as [|x xs IH]; [done|] end; cbn [MessagesHandler.display_names]; reads; exact IH.
Qed.
Lemma ListByState_reads c n state : within eq (ChannelsHandler.ListByState true c n state).
Proof.
  unfold ChannelsHandler.ListByState, GetChannelByName, store_GetChannelByName, Reactions.ListByState, GetMessageIDsByState, GetByMessageIDs. cbn [negb]. reads; first [apply Enrich_reads|by apply within_query_o, _].
Qed.
Lemma UnreadCounts_reads c : within eq (NotificationsHandler.UnreadCounts c).
Proof. unfold NotificationsHandler.UnreadCounts, GetHumanAgentForUser, GetHumanAgentByOwner, GetChannelSummaries, GetDMUnreadCounts. reads. Qed.
Lemma ReactionsOf_reads c id : within eq (ReactionsHandler.GetReactions c id).
Proof. unfold ReactionsHandler.GetReactions, GetMessageByID, store_GetMessageByID, Reactions.GetReactions, GetByMessageID. reads. Qed.
Lemma Letters_reads c incl limit : within eq (DeadLettersHandler.List c incl limit).
Proof. unfold DeadLettersHandler.List, ListDeadLetters, CountUnacknowledged. reads. Qed.
Lemma LetterCount_reads c : within eq (DeadLettersHandler.Count c).
Proof. unfold DeadLettersHandler.Count, CountUnacknowledged. reads. Qed.
Lemma Core_reads c o a : within eq (MemoryCoreHandler.Get c o a).
Proof. unfold MemoryCoreHandler.Get, MemoryCoreHandler.authorize, Core_Get. reads. Qed.
Lemma Runs_reads a status limit offset : within eq (RunsHandler.ListRuns a status limit offset).
Proof. unfold RunsHandler.ListRuns, Reactor.ListRuns. reads. Qed.
Lemma Run_reads id : within eq (RunsHandler.GetRun id).
Proof. unfold RunsHandler.GetRun, GetRunByID, GetMessageByID, store_GetMessageByID, GetAgentByName, RunsHandler.found. reads; apply GetByReactiveRunID_frame. Qed.
Lemma Reactive_reads : within eq RunsHandler.ReactiveAgents.
Proof.
  unfold RunsHandler.ReactiveAgents, ListReactiveAgents, active_by_name. reads.
  match goal with |- within eq (RunsHandler.statuses ?l) => induction l as [|x xs IH]; [done|] end. cbn [RunsHandler.statuses].
  unfold RunsHandler.agent_status, RunsHandler.ok_or, CountTodayRuns, IsAgentRunning, GetLastRunTime, time_now. apply within_bind; [reads; intros ?; reads|intros r]. apply within_bind; [exact IH|done].
Qed.
Lemma Trust_reads a : within eq (TrustHandler_GetScores a).
Proof. unfold TrustHandler_GetScores, GetScores, GetAllScores. reads. Qed.
Lemma Agents_reads c : within eq (AgentsHandler.ListAgents c).
Proof. unfold AgentsHandler.ListAgents, Agents.ListAgents, ListAgentsByOwner, active_by_name. reads. Qed.
Lemma Agent_reads c n : within eq (AgentsHandler.GetAgent c n).
Proof. unfold AgentsHandler.GetAgent. reads. apply recent_traces_frame. Qed.

Lemma safe_then {A B} (p : M A) status (f : A -> prog db (response B)) d : web_I d -> safe p d -> (forall a, within eq (f a)) -> safe (or_status p status f) d.
Proof. intros HI Hp Hf. apply safe_or_status; [done|]. eapply rg_mono; [|exact Hp]. cbv beta. intros o x _ _ a _ _. by apply safe_reading. Qed.
Lemma safe_read_then {A B} (p : M A) status (f : A -> prog db (response B)) d : web_I d -> within eq p -> (forall a d, web_I d -> safe (f a) d) -> safe (or_status p status f) d.
Proof. intros HI Hp Hf. apply safe_or_status; [done|]. eapply rg_mono; [|by apply rg_reading]. cbv beta. intros o x _ _ a _ Hx. by apply Hf. Qed.
Lemma GetChannelByName_reads n : within eq (GetChannelByName n).
Proof. unfold GetChannelByName, store_GetChannelByName. reads. Qed.
Lemma GetMessageByID_reads id : within eq (GetMessageByID id).
Proof. unfold GetMessageByID, store_GetMessageByID. reads. Qed.
Lemma GetReactions_reads id : within eq (Reactions.GetReactions id).
Proof. unfold Reactions.GetReactions, GetByMessageID. reads. Qed.

Lemma safe_SendMessage c body d : (forall o, OwnerIDFromContext c = Some o -> caller o) -> web_I d -> safe (MessagesHandler.SendMessage c body) d.
Proof.
  intros Hc HI. apply safe_require. intros o Ho. specialize (Hc o Ho). apply safe_require. intros req _. destruct (str_empty _); [done|].
  assert (forall from x, web_I x -> safe (let! mine := isAgentOwnedBy from o in if negb mine then Ret (Refused 403) else
    or_status (Messaging.SendMessage from (MessagesHandler.sq_To req) (MessagesHandler.sq_Body req) (mkSendOptions (MessagesHandler.sq_Subject req) (MessagesHandler.sq_Priority req) RawEmpty
      (MessagesHandler.sq_ChannelID req) (MessagesHandler.sq_ConversationID req) (MessagesHandler.sq_ReplyTo req) (MessagesHandler.sq_Attachments req))) 400
      (fun msg => let! shown := EnrichMessages [msg] in Ret (Replied 201 shown))) x) as Hsend.
  { intros from x Hx. apply safe_bind; [done|]. eapply rg_mono; [|by apply rg_isAgentOwnedBy]. cbv beta. intros [|] y _ Hy HIy; [|done]. specialize (Hy eq_refl). cbn [negb].
    apply safe_then; [done|eapply rg_acting; [by eapply (one_agent from)|by apply SendMessage_acts]|]. intros a. apply within_bind; [apply Enrich_reads|done]. }
  unfold MessagesHandler.sender. destruct (isSession c).
  - apply safe_read_then; [done|unfold GetHumanAgentForUser, GetHumanAgentByOwner; reads|]. intros h x Hx. apply safe_require. intros a _. by apply Hsend.
  - destruct (str_empty _); [|by apply Hsend]. apply safe_read_then; [done|unfold ListAgents, ListAgentsByOwner, active_by_name; reads|]. intros [|a l] x Hx; [done|by apply Hsend].
Qed.

(** A message as read, and what has become of it. *)
Definition sent_in (msg : Message) (d : db) : Prop := exists m, m ∈ rows (messages d) /\ msg_step msg m.
Lemma sent_later msg d d' : web_R d d' -> sent_in msg d -> sent_in msg d'.
Proof. intros [_ [Hle _] _ _] (m&Hm&Hs). destruct (Hle m Hm) as (m'&Hm'&Hs'). exists m'. split; [done|by etrans]. Qed.
Lemma owned_later_web n o d d' : web_R d d' -> owned_agent n o d -> owned_agent n o d'.
Proof. intros []. by apply owned_later. Qed.
Lemma same_recipient msg m d : web_I d -> Msg_ID m = Msg_ID msg -> sent_in msg d -> sent_in m d -> to_agent m = to_agent msg.
Proof.
  intros [_ HI] Hid (x&Hx&Sx) (y&Hy&Sy). destruct (msg_step_id _ _ Sx) as [I1 T1], (msg_step_id _ _ Sy) as [I2 T2].
  assert (x = y) as -> by (eapply (table_ok_unique (messages d)); [apply HI|done|done|unfold row_id, Message_row; congruence]). congruence.
Qed.
Lemma safe_finish i m n o d : caller o -> web_I d -> owned_agent n o d -> msg_ok m -> (forall a, claimed_by m = Some a -> a = n) ->
  safe (if negb (bool_decide (Status m = StatusProcessing)) then Ret (Refused 400) else or_status (Messaging.MarkDone i (default "" (claimed_by m))) 500 (fun _ => Ret (Replied 200 tt))) d.
Proof.
  intros Hc HI Hn Hm Hcl. destruct (bool_decide_reflect (Status m = StatusProcessing)) as [Hst|]; [|done]. cbn [negb].
  destruct (claimed_by m) as [a|] eqn:Ha; [|apply (mo_pending m Hm) in Ha; congruence].
  rewrite <- (Hcl a eq_refl) in Hn. apply safe_then; [done|eapply rg_acting; [by eapply (one_agent a)|apply MarkDone_acts]|done].
Qed.
(** The agent the handler checked is the one it claims and finishes for. *)
Lemma safe_MarkDone c mid d : (forall o, OwnerIDFromContext c = Some o -> caller o) -> web_I d -> safe (MessagesHandler.MarkDone c mid) d.
Proof.
  intros Hc HI. apply safe_require. intros o Ho. specialize (Hc o Ho). apply safe_require. intros i _. apply safe_or_status; [done|].
  eapply rg_mono; [|by apply rg_message]. cbv beta. intros r x HIx Hr msg -> _. destruct (Hr msg eq_refl) as (Hid&Hmsg&Hin). clear Hr.
  set (n := if str_empty (default "" (claimed_by msg)) then default "" (to_agent msg) else default "" (claimed_by msg)).
  apply safe_bind; [done|]. eapply rg_mono; [|apply (rg_stable _ _ _ (sent_in msg)) with (3 := rg_isAgentOwnedBy n o x HIx); [apply sent_later|exact Hin]].
  cbv beta. intros [|] y HIy [Hown Hy] _; [|done]. specialize (Hown eq_refl). cbn [negb].
  destruct (bool_decide_reflect (Status msg = StatusPending)) as [Hp|Hp].
  - assert (n = default "" (to_agent msg)) as En by (unfold n; apply (mo_pending msg Hmsg) in Hp; by rewrite Hp). rewrite <- En.
    apply safe_bind; [done|]. eapply rg_mono; [|apply (rg_stable _ _ _ (fun z => owned_agent n o z /\ sent_in msg z)); [| |apply safe_ClaimMessages; [by exists o|done]]].
    2: { intros v w Hvw [H1 H2]. split; [by eapply owned_later_web|by eapply sent_later]. } 2: by split.
    cbv beta. intros _ z HIz [_ [Hz Hsz]] _. apply safe_or_status; [done|].
    eapply rg_mono; [|apply (rg_stable _ _ _ (fun u => owned_agent n o u /\ sent_in msg u)) with (3 := rg_message i z HIz); [|by split]].
    2: { intros v w Hvw [H1 H2]. split; [by eapply owned_later_web|by eapply sent_later]. }
    cbv beta. intros r u HIu [Hr [Hu Hsu]] m -> _. destruct (Hr m eq_refl) as (Hid'&Hm&Hinm). apply (safe_finish i m n o); [done..|]. intros a Ha.
    apply (mo_claimant m Hm) in Ha. rewrite En, <- (same_recipient msg m u HIu (eq_trans Hid' (eq_sym Hid)) Hsu Hinm), Ha. done.
  - apply (safe_finish i msg n o); [done..|]. intros a Ha. unfold n. rewrite Ha. change (default "" (Some a)) with a. destruct (str_empty a) eqn:E; [|done].
    apply (mo_claimant msg Hmsg) in Ha. by rewrite Ha.
Qed.

Section Requests.
Context (c : context) (Hc : forall o, OwnerIDFromContext c = Some o -> caller o).

Lemma first_agent_safe {B} o (k : string -> prog db (response B)) d : web_I d -> (forall n x, web_I x -> owned_agent n o x -> safe (k n) x) -> safe (ChannelsHandler.first_agent o k) d.
Proof.
  intros HI Hk. apply safe_or_status; [done|]. eapply rg_mono; [|apply rg_ListAgents]. cbv beta. intros r x _ Hr l -> Hx. destruct l as [|a l]; [done|].
  apply Hk; [done|]. eapply Hr; [done|by left].
Qed.
Lemma as_member_safe name agent act d : web_I d -> (forall ch a, within (acts (eq a)) (act ch a)) -> safe (ChannelsHandler.as_member c name agent act) d.
Proof.
  intros HI Hact. apply safe_require. intros o Ho. specialize (Hc o Ho). apply safe_read_then; [done|apply GetChannelByName_reads|]. intros ch x Hx. cbv zeta.
  assert (forall n y, web_I y -> safe (or_status (GetAgent n) 400 (fun a => if negb (Agent_OwnerID a =? o) then Ret (Refused 403)
    else or_status (act (Ch_ID ch) n) 400 (fun _ => Ret (Replied 200 tt)))) y) as Hgo.
  { intros n y Hy. apply safe_or_status; [done|]. eapply rg_mono; [|by apply rg_owner]. cbv beta. intros r z _ Hr a -> Hz. destruct (Hr a eq_refl) as [Hk <-].
    destruct (Z.eqb_spec (Agent_OwnerID a) o) as [<-|]; [|done]. cbn [negb]. apply safe_then; [done| |done].
    eapply rg_acting; [eapply one_agent; [exact Hc|by apply known_owned]|apply Hact]. }
  destruct (str_empty agent); [|by apply Hgo]. apply first_agent_safe; [done|]. intros n y Hy _. by apply Hgo.
Qed.
Lemma CreateChannel_safe body d : web_I d -> safe (ChannelsHandler.CreateChannel c body) d.
Proof.
  intros HI. apply safe_require. intros o Ho. specialize (Hc o Ho). apply safe_require. intros req _. destruct (str_empty _); [done|]. apply first_agent_safe; [done|].
  intros n x Hx Hn. apply safe_then; [done| |done]. eapply rg_acting; [by eapply (one_agent n)|by apply CreateChannel_acts].
Qed.
Lemma resolve_safe {B} o (k : string -> prog db (response B)) d : caller o -> web_I d -> (forall n x, web_I x -> mine x n -> safe (k n) x) -> safe (ReactionsHandler.resolveAgentName c o k) d.
Proof.
  intros Ho HI Hk. unfold ReactionsHandler.resolveAgentName. destruct (isSession c).
  - apply safe_or_status; [done|]. eapply rg_mono; [|apply rg_human]. cbv beta. intros r x _ Hr h -> Hx. apply safe_require. intros a ->. apply Hk; [done|]. exists o. split; [done|by apply Hr].
  - apply safe_or_status; [done|]. eapply rg_mono; [|apply rg_ListAgents]. cbv beta. intros r x _ Hr l -> Hx. destruct l as [|a l]; [done|].
    apply Hk; [done|]. exists o. split; [done|]. unfold preferred. destruct (find _ (a :: l)) as [b|] eqn:E; [|by eapply Hr; [done|left]].
    apply find_some in E as [Hb _]. eapply Hr; [done|by apply list_elem_of_In].
Qed.
Lemma Toggle_safe notifier mid body d : web_I d -> safe (ReactionsHandler.Toggle notifier c mid body) d.
Proof.
  intros HI. apply safe_require. intros o Ho. specialize (Hc o Ho). apply safe_require. intros i _. apply safe_require. intros req _. apply safe_require. intros rt _.
  apply safe_read_then; [done|apply GetMessageByID_reads|]. intros m x Hx. apply resolve_safe; [done..|]. intros n y Hy Hn. apply safe_bind; [done|].
  eapply rg_mono; [|eapply (rg_acting _ (eq n)); [by intros ? <-|by apply Toggle_acts]]. cbv beta. intros [[res ev]|e|w] z _ _ Hz; [|by destruct e|done].
  apply safe_reading. unfold ReactionsHandler.reload. apply within_bind; [apply GetReactions_reads|]. by intros [].
Qed.
Lemma Remove_safe mid rt d : web_I d -> safe (ReactionsHandler.Remove c mid rt) d.
Proof.
  intros HI. apply safe_require. intros o Ho. specialize (Hc o Ho). apply safe_require. intros i _. apply safe_require. intros t _.
  apply safe_read_then; [done|apply GetMessageByID_reads|]. intros m x Hx. apply resolve_safe; [done..|]. intros n y Hy Hn. apply safe_bind; [done|].
  eapply rg_mono; [|eapply (rg_acting _ (eq n)); [by intros ? <-|]].
  2: { unfold Reactions.Remove. destruct (negb _); [done|by apply Delete_acts]. }
  cbv beta. intros [u|e|w] z _ _ Hz; [|by destruct e|done].
  apply safe_reading. unfold ReactionsHandler.reload. apply within_bind; [apply GetReactions_reads|]. by intros [].
Qed.
Lemma MarkRead_safe body d : web_I d -> safe (NotificationsHandler.MarkRead c body) d.
Proof.
  intros HI. apply safe_require. intros o Ho. specialize (Hc o Ho). apply safe_require. intros req _. apply safe_require. intros [to n] _. destruct (Z.leb_spec n 0) as [|Hn]; [done|].
  apply safe_bind; [done|]. eapply rg_mono; [|apply rg_human]. cbv beta. intros r x _ Hr Hx. destruct r as [[a|]|e|w]; [|done..]. specialize (Hr a eq_refl).
  destruct to as [name|peer].
  - apply safe_or_status; [done|]. eapply rg_mono; [|apply (rg_stable _ _ _ (owned_agent (Agent_Name a) o)) with (3 := rg_reading _ x (GetChannelByName_reads name)); [|done]].
    2: { intros y z Hyz. by apply owned_later_web. }
    cbv beta. intros r y _ [_ Hy] ch _ HIy. apply safe_then; [done| |done]. eapply rg_acting; [by eapply one_agent|apply mark_channel_read_acts; [done|lia]].
  - apply safe_then; [done| |done]. eapply rg_acting; [by eapply one_agent|apply mark_dm_read_acts; [done|lia]].
Qed.
Lemma RegisterAgent_safe body d : web_I d -> safe (AgentsHandler.RegisterAgent c body) d.
Proof.
  intros HI. apply safe_require. intros o Ho. specialize (Hc o Ho). apply safe_require. intros req _. destruct (str_empty _); [done|]. apply safe_or_status; [done|].
  eapply rg_mono; [|by apply rg_Register_web]. cbv beta. intros r x _ Hr a -> Hx. specialize (Hr a eq_refl). apply safe_bind; [done|].
  eapply (rg_mono _ _ _ (fun _ _ => True)); [done|]. destruct (UserFromContext c) as [u|]; [|done]. apply safe_bind; [done|].
  eapply rg_mono; [|eapply (rg_acting _ (eq (Agent_Name a.1))); [by intros ? <-|by apply JoinMyAgentsChannel_acts]]. done.
Qed.
Lemma rg_checked n d : web_I d -> rg web_I web_R (GetAgent n) (fun r d => forall a, r = Ok a -> Agent_Name a = n /\ owned_agent n (Agent_OwnerID a) d) d.
Proof. intros HI. eapply rg_mono; [|by apply rg_owner]. cbv beta. intros r x _ Hr a Ha. destruct (Hr a Ha) as [Hk <-]. split; [done|by apply known_owned]. Qed.
Lemma rg_still {A} (p : prog db A) n o Q d : owned_agent n o d -> rg web_I web_R p Q d -> rg web_I web_R p (fun r d => Q r d /\ owned_agent n o d) d.
Proof. intros Hn. apply rg_stable; [|done]. intros y z Hyz. by apply owned_later_web. Qed.
Lemma service_UpdateAgent_safe n dn caps (o : Z) d : caller o -> owned_agent n o d -> web_I d -> safe (Agents.UpdateAgent n dn caps) d.
Proof.
  intros Ho Hn HI. apply rg_bind_ok; [apply _|done|]. eapply rg_mono; [|by apply rg_still, rg_checked].
  cbv beta. intros [a|e|w] x HIx [Hr Hx]; [|done..]. destruct (Hr a eq_refl) as [<- _].
  destruct caps; [| |done]; (apply rg_bind_ok; [apply _|done|]; eapply rg_mono; [|by apply (rg_update_named _ o); [..|by repeat split]]; by intros []).
Qed.
Lemma UpdateAgent_safe n body d : web_I d -> safe (AgentsHandler.UpdateAgent c n body) d.
Proof.
  intros HI. apply safe_require. intros o Ho. specialize (Hc o Ho). apply safe_or_status; [done|]. eapply rg_mono; [|by apply rg_checked]. cbv beta.
  intros r x _ Hr a -> Hx. destruct (Hr a eq_refl) as [_ Hn]. destruct (Z.eqb_spec (Agent_OwnerID a) o) as [<-|]; [|done]. cbn [negb]. apply safe_require. intros req _.
  apply safe_then; [done|by eapply service_UpdateAgent_safe|done].
Qed.
Lemma service_Deregister_safe n o d : caller o -> web_I d -> safe (Agents.Deregister n o) d.
Proof.
  intros Ho HI. apply rg_bind_ok; [apply _|done|]. eapply rg_mono; [|by apply rg_checked].
  cbv beta. intros [a|e|w] x HIx Hr; [|done..]. destruct (Hr a eq_refl) as [_ Hn]. destruct (Z.eqb_spec (Agent_OwnerID a) o) as [<-|]; [|done]. cbn [negb].
  apply rg_bind; [apply _|done|]. eapply rg_mono; [|by apply rg_still; [exact Hn|apply rg_within_owner, CaptureDeadLetters_owner]]. cbv beta. intros _ y HIy [_ Hy].
  apply (rg_update_named n (Agent_OwnerID a) (fun now b => inactive now b)); [done..|by repeat split].
Qed.
Lemma service_RevokeKey_safe n o d : caller o -> web_I d -> safe (Agents.RevokeKey n o) d.
Proof.
  intros Ho HI. apply rg_bind_ok; [apply _|done|]. eapply rg_mono; [|by apply rg_checked].
  cbv beta. intros [a|e|w] x HIx Hr; [|done..]. destruct (Hr a eq_refl) as [En Hn]. destruct (Z.eqb_spec (Agent_OwnerID a) o) as [<-|]; [|done]. cbn [negb].
  apply rg_bind_ok; [apply _|done|]. eapply rg_mono; [|by apply rg_still; [exact Hn|apply rg_within_owner, new_key_ticks]]. cbv beta. intros [[k h]|e|w] y HIy [_ Hy]; [|done..].
  apply rg_bind_ok; [apply _|done|]. rewrite <- En in Hy. eapply rg_mono; [|by apply (rg_update_named (Agent_Name a) (Agent_OwnerID a)); [..|by repeat split]]. by intros [].
Qed.
Lemma letters_web x y : web_I x -> same_agents x y -> same_messaging x y -> same_channels x y -> message_reactions y = message_reactions x -> web_I y /\ web_R x y.
Proof. intros HI Ha (Em&Ei&_&_) Hch Hr. apply by_owner_step; [done|]. by apply by_owner_same. Qed.
Lemma safe_aside {A} (p : prog db A) d :
  within (fun x y => same_agents x y /\ same_messaging x y /\ same_channels x y /\ message_reactions y = message_reactions x) p -> safe p d.
Proof. apply within_rg. intros x y HI (?&?&?&?). by apply letters_web. Qed.
Lemma UpdateSettings_safe n body d : web_I d -> safe (ChannelsHandler.UpdateSettings c n body) d.
Proof.
  intros HI. apply safe_require. intros o _. apply safe_read_then; [done|apply GetChannelByName_reads|]. intros ch x Hx. apply safe_require. intros req _.
  apply safe_then; [done|apply UpdateChannelSettings_safe|done].
Qed.
Lemma Acknowledge_safe id d : web_I d -> safe (DeadLettersHandler.Acknowledge c id) d.
Proof.
  intros HI. apply safe_require. intros o _. apply safe_require. intros i _. apply safe_then; [done| |done]. apply safe_aside, within_exec_o. by intros x; repeat split.
Qed.
Lemma authorize_safe {B} po a (k : string -> prog db (response B)) d : (forall o, safe (k o) d) -> safe (MemoryCoreHandler.authorize c po a k) d.
Proof.
  intros Hk. apply safe_require. intros o _. apply safe_require. intros p _. destruct (_ <=? _); [done|]. destruct (negb _); [done|]. destruct (str_empty a); [done|]. apply Hk.
Qed.
Lemma PutCore_safe maxBytes po a body d : web_I d -> safe (MemoryCoreHandler.Put maxBytes c po a body) d.
Proof.
  intros HI. apply authorize_safe. intros o. apply safe_require. intros req _. cbv zeta. apply safe_bind; [done|]. eapply (rg_mono _ _ _ (fun _ _ => True)).
  - intros r x _ _ _. done.
  - apply safe_aside. unfold Core_Set. destruct (_ <? _); [done|]. destruct (_ || _); [done|]. apply within_exec. by intros x; repeat split.
Qed.
Lemma DeleteCore_safe po a d : web_I d -> safe (MemoryCoreHandler.Delete c po a) d.
Proof.
  intros HI. apply authorize_safe. intros o. apply safe_read_then; [done|by apply within_query|]. intros m x Hx. apply safe_require. intros r _. apply safe_then; [done| |done].
  apply safe_aside, within_exec. by intros y; repeat split.
Qed.
Lemma web_prog_safe maxBytes notifier k d : web_I d -> safe (web_prog maxBytes notifier (c, k)) d.
Proof.
  intros HI. destruct k; cbn [web_prog]; (apply safe_done; [done|]).
  - apply safe_reading, ListMessages_reads.
  - apply safe_reading, GetMessage_reads.
  - apply safe_reading, GetConversation_reads.
  - apply safe_reading, GetReplies_reads.
  - by apply safe_SendMessage.
  - by apply safe_MarkDone.
  - apply safe_reading, ListChannels_reads.
  - apply safe_reading, GetChannel_reads.
  - apply safe_reading, ChannelMessages_reads.
  - by apply CreateChannel_safe.
  - apply as_member_safe; [done|]. intros ch a. by apply JoinChannel_acts.
  - apply as_member_safe; [done|]. intros ch a. by apply LeaveChannel_acts.
  - by apply Toggle_safe.
  - by apply Remove_safe.
  - by apply MarkRead_safe.
  - by apply UpdateSettings_safe.
  - apply safe_reading, ListByState_reads.
  - apply safe_reading, ListConversations_reads.
  - apply safe_reading, SearchMessages_reads.
  - apply safe_reading, DMMessages_reads.
  - apply safe_reading, DMPartners_reads.
  - apply safe_reading, ReactionsOf_reads.
  - apply safe_reading, UnreadCounts_reads.
  - apply safe_reading, Letters_reads.
  - by apply Acknowledge_safe.
  - apply safe_reading, LetterCount_reads.
  - apply safe_reading, Core_reads.
  - by apply PutCore_safe.
  - by apply DeleteCore_safe.
  - apply safe_reading, Runs_reads.
  - apply safe_reading, Run_reads.
  - apply safe_reading, Reactive_reads.
  - apply safe_reading, Trust_reads.
  - apply safe_reading, Agents_reads.
  - apply safe_reading, Agent_reads.
  - by apply RegisterAgent_safe.
  - by apply UpdateAgent_safe.
  - apply safe_require. intros o Ho. apply safe_then; [done|apply service_Deregister_safe; [by apply Hc|done]|done].
  - apply safe_require. intros o Ho. apply safe_then; [done|apply service_RevokeKey_safe; [by apply Hc|done]|done].
Qed.
End Requests.
End Isolation.

(** A walk through a program, with [leaf] for its statements. *)
Ltac head_of t := lazymatch t with ?f _ => head_of f | _ => t end.
Ltac walk leaf :=
  lazymatch goal with
  | |- within _ (Ret _) => exact I
  | |- within _ (Peek _) => intros ?; walk leaf
  | |- within _ (query _ _) => apply within_query, _
  | |- within _ (query_o _ _) => apply within_query_o, _
  | |- within _ (exec _ _ _) => apply within_exec; intros ?; leaf
  | |- within _ (exec_o _ _ _) => apply within_exec_o; intros ?; leaf
  | |- within _ (bind_ok _ _) => apply within_bind_ok; [walk leaf|intros ?; walk leaf]
  | |- within _ (bind _ _) => apply within_bind; [walk leaf|intros ?; walk leaf]
  | |- within _ (for_each _ _) => apply within_for_each; intros ?; walk leaf
  | |- within _ (AttachToMessage ?h ?id) => apply (AttachFile_within _ h id); intros ??; leaf
  | |- within ?G (GetAgentType ?a) => change (within G (agent_type a)); walk leaf
  | |- within ?G (GetMessageAuthor ?m) => change (within G (message_author m)); walk leaf
  | |- within ?G (TA_RecordApproval ?a ?t) => change (within G (trust_approval a t)); walk leaf
  | |- within ?G (TA_RecordRejection ?a ?t) => change (within G (trust_rejection a t)); walk leaf
  | |- within _ (let _ := _ in _) => cbv zeta; walk leaf
  | |- within _ (match ?x with _ => _ end) => destruct x; walk leaf
  | |- within _ ?p => let h := head_of p in unfold h; walk leaf
  end.
Ltac untouched := repeat case_match; by repeat split.

(** *** What only the owner may touch *)

(** Dead letters and core memories change only for owners of [caller]. *)
Definition kept_private (caller : Z -> Prop) (d d' : db) : Prop :=
  rows_by (fun l => caller (DL_OwnerID l)) (dead_letters d) (dead_letters d') /\
  forall k, (forall o, caller o -> k.1 <> pretty o) -> memory_core d' !! k = memory_core d !! k.
#[export] Instance kept_private_preorder caller : PreOrder (kept_private caller).
Proof.
  split; [intros d; split; [apply rows_by_refl|done]|]. intros a b c [H1 H2] [H3 H4]. split; [by eapply rows_by_trans|]. intros k Hk. by rewrite H4, H2.
Qed.
Lemma kept_same caller d d' : dead_letters d' = dead_letters d -> memory_core d' = memory_core d -> kept_private caller d d'.
Proof. intros E1 E2. split; [rewrite E1; apply rows_by_refl|by rewrite E2]. Qed.
Lemma kept_reading {A} caller (p : prog db A) : within eq p -> within (kept_private caller) p.
Proof. apply within_mono. intros d d' <-. reflexivity. Qed.
Lemma kept_ticking {A} caller (p : prog db A) : within tick p -> within (kept_private caller) p.
Proof. apply within_mono. intros d d' (s&_&->). by apply kept_same. Qed.

Ltac aside := repeat case_match; by apply kept_same.

Section Private.
Context {HEng : Engine} {HCred : Credentials} {HTraces : TraceStore} {HJson : GoJson} {HLow : GoUnicode} {HFTS : FTS} {HRuns : HarnessRuns} (caller : Z -> Prop).
Abbreviation kept := (within (kept_private caller)).

Lemma SendMessage_kept from to body opts : kept (Messaging.SendMessage from to body opts).
Proof. walk aside. Qed.
Lemma Claim_kept a n : kept (ClaimMessages a n).
Proof. walk aside. Qed.
Lemma MarkDone_kept id a : kept (Messaging.MarkDone id a).
Proof. walk aside. Qed.
Lemma JoinChannel_kept ch a : kept (Channels.JoinChannel ch a).
Proof. walk aside. Qed.
Lemma LeaveChannel_kept ch a : kept (Channels.LeaveChannel ch a).
Proof. walk aside. Qed.
Lemma CreateChannel_kept req : kept (Channels.CreateChannel req).
Proof. walk aside. Qed.
Lemma Toggle_kept notifier id a rt meta : kept (Reactions.Toggle notifier id a rt meta).
Proof. walk aside. Qed.
Lemma Remove_kept id a rt : kept (Reactions.Remove id a rt).
Proof. walk aside. Qed.
Lemma mark_channel_kept a ch n : kept (mark_channel_read a ch n).
Proof. walk aside. Qed.
Lemma mark_dm_kept a p n : kept (mark_dm_read a p n).
Proof. walk aside. Qed.
Lemma new_key_kept : kept new_key.
Proof.
  apply kept_ticking, within_bind_ok; [apply within_bind_ok; [apply rand_Read_frame|done]|]. intros k. apply within_bind_ok; [apply GenerateFromPassword_frame|done].
Qed.
Lemma Register_kept n dn t caps o : kept (Register n dn t caps o).
Proof.
  unfold Register. destruct (str_empty n); [done|]. cbv zeta. destruct (_ && _); [done|]. destruct (negb _); [done|].
  apply within_bind_ok; [apply new_key_kept|]. intros [k h]. walk aside.
Qed.
Lemma Join_kept u a : kept (JoinMyAgentsChannel u a).
Proof. walk aside. Qed.
Lemma UpdateAgent_kept n dn caps : kept (Agents.UpdateAgent n dn caps).
Proof. walk aside. Qed.
Lemma RevokeKey_kept n o : kept (Agents.RevokeKey n o).
Proof.
  unfold Agents.RevokeKey. apply within_bind_ok; [apply kept_reading, GetAgent_reads|]. intros a. destruct (negb _); [done|].
  apply within_bind_ok; [apply new_key_kept|]. intros [k h]. walk aside.
Qed.
Lemma insert_letters_kept o n l d : caller o -> kept_private caller d (insert_dead_letters o n l d).
Proof.
  intros Ho. unfold insert_dead_letters. revert d. induction l as [|x l IH]; intros d; cbn [foldl]; [reflexivity|].
  etrans; [|apply IH]. split; [|done]. by apply rows_by_insert.
Qed.
Lemma Deregister_kept n o : caller o -> kept (Agents.Deregister n o).
Proof.
  intros Ho. apply within_bind_ok; [apply kept_reading, GetAgent_reads|]. intros a. destruct (Z.eqb_spec (Agent_OwnerID a) o) as [<-|]; [|done]. cbn [negb].
  apply within_bind; [|intros _; walk aside]. unfold CaptureDeadLetters. apply within_bind_ok; [by apply within_query, _|]. intros l. destruct (bool_decide _); [done|].
  apply within_exec. intros d. by apply insert_letters_kept.
Qed.
Lemma Settings_kept ch st : kept (UpdateChannelSettings ch st).
Proof. walk aside. Qed.

Lemma or_status_kept {A B} (p : M A) status (f : A -> prog db (response B)) : kept p -> (forall a, kept (f a)) -> kept (or_status p status f).
Proof. intros Hp Hf. apply within_bind; [exact Hp|]. intros [a|e|w]; [apply Hf|done..]. Qed.
Lemma require_kept {A B} (o : option A) status (f : A -> prog db (response B)) : (forall a, o = Some a -> kept (f a)) -> kept (require o status f).
Proof. intros H. destruct o; [by apply H|done]. Qed.
Lemma owned_kept n o : kept (isAgentOwnedBy n o).
Proof. apply kept_reading, isAgentOwnedBy_reads. Qed.
Lemma Enrich_kept l : kept (EnrichMessages l).
Proof. apply kept_reading, Enrich_reads. Qed.
Lemma reload_kept {A} id (a : A) : kept (ReactionsHandler.reload id a).
Proof. apply kept_reading. unfold ReactionsHandler.reload. apply within_bind; [apply GetReactions_reads|]. by intros []. Qed.
Lemma GetAgent_kept n : kept (GetAgent n).
Proof. apply kept_reading, GetAgent_reads. Qed.
Lemma ListAgents_kept o : kept (ListAgents o).
Proof. by apply within_query, _. Qed.

(** One step of the walk through a handler. *)
Ltac handler :=
  lazymatch goal with
  | |- within _ (Ret _) => exact I
  | |- within _ (or_status _ _ _) => apply or_status_kept; [handler|intros ?; handler]
  | |- within _ (require _ _ _) => apply require_kept; intros ??; handler
  | |- within _ (bind _ _) => apply within_bind; [handler|intros ?; handler]
  | |- within _ (EnrichMessages _) => apply Enrich_kept
  | |- within _ (isAgentOwnedBy _ _) => apply owned_kept
  | |- within _ (GetAgent _) => apply GetAgent_kept
  | |- within _ (ListAgents _) => apply ListAgents_kept
  | |- within _ (Messaging.SendMessage _ _ _ _) => apply SendMessage_kept
  | |- within _ (ClaimMessages _ _) => apply Claim_kept
  | |- within _ (Messaging.MarkDone _ _) => apply MarkDone_kept
  | |- within _ (Channels.JoinChannel _ _) => apply JoinChannel_kept
  | |- within _ (Channels.LeaveChannel _ _) => apply LeaveChannel_kept
  | |- within _ (Channels.CreateChannel _) => apply CreateChannel_kept
  | |- within _ (Reactions.Toggle _ _ _ _ _) => apply Toggle_kept
  | |- within _ (Reactions.Remove _ _ _) => apply Remove_kept
  | |- within _ (ReactionsHandler.reload _ _) => apply reload_kept
  | |- within _ (mark_channel_read _ _ _) => apply mark_channel_kept
  | |- within _ (mark_dm_read _ _ _) => apply mark_dm_kept
  | |- within _ (Register _ _ _ _ _) => apply Register_kept
  | |- within _ (JoinMyAgentsChannel _ _) => apply Join_kept
  | |- within _ (Agents.UpdateAgent _ _ _) => apply UpdateAgent_kept
  | |- within _ (Agents.RevokeKey _ _) => apply RevokeKey_kept
  | |- within _ (UpdateChannelSettings _ _) => apply Settings_kept
  | |- within _ (let _ := _ in _) => cbv zeta; handler
  | |- within _ (match ?x with _ => _ end) => destruct x; handler
  | |- within _ ?p => first [walk aside | let h := head_of p in unfold h; handler]
  end.

Section Requests.
Context (c : context) (Hc : forall o, OwnerIDFromContext c = Some o -> caller o).
Lemma Acknowledge_kept id : kept (DeadLettersHandler.Acknowledge c id).
Proof.
  apply require_kept. intros o Ho. apply require_kept. intros i _. apply or_status_kept; [|done]. apply within_exec_o. intros d. split; [|done].
  apply rows_by_update. intros l _ [_ <-%Z.eqb_eq]%andb_true_iff. split; by apply Hc.
Qed.
Lemma authorize_kept {B} po a (k : string -> prog db (response B)) : (forall o, caller o -> kept (k (pretty o))) -> kept (MemoryCoreHandler.authorize c po a k).
Proof.
  intros Hk. apply require_kept. intros o Ho. apply require_kept. intros p _. destruct (_ <=? _); [done|]. destruct (Z.eqb_spec p o) as [->|]; [|done].
  cbn [negb]. destruct (str_empty a); [done|]. by apply Hk, Hc.
Qed.
Lemma PutCore_kept maxBytes po a body : kept (MemoryCoreHandler.Put maxBytes c po a body).
Proof.
  apply authorize_kept. intros o Ho. apply require_kept. intros req _. cbv zeta. apply within_bind; [|done]. unfold Core_Set. destruct (_ <? _); [done|]. destruct (_ || _); [done|].
  apply within_exec. intros d. split; [apply rows_by_refl|]. intros k Hk. apply lookup_insert_ne. intros <-. by apply (Hk o).
Qed.
Lemma DeleteCore_kept po a : kept (MemoryCoreHandler.Delete c po a).
Proof.
  apply authorize_kept. intros o Ho. apply or_status_kept; [by apply within_query, _|]. intros m. apply require_kept. intros r _. apply or_status_kept; [|done].
  apply within_exec. intros d. split; [apply rows_by_refl|]. intros k Hk. apply lookup_delete_ne. intros <-. by apply (Hk o).
Qed.
Lemma web_prog_kept maxBytes notifier k : kept (web_prog maxBytes notifier (c, k)).
Proof.
  destruct k; cbn [web_prog]; unfold done_with; (apply within_bind; [|done]).
  - apply kept_reading, ListMessages_reads.
  - apply kept_reading, GetMessage_reads.
  - apply kept_reading, GetConversation_reads.
  - apply kept_reading, GetReplies_reads.
  - handler.
  - handler.
  - apply kept_reading, ListChannels_reads.
  - apply kept_reading, GetChannel_reads.
  - apply kept_reading, ChannelMessages_reads.
  - handler.
  - handler.
  - handler.
  - handler.
  - handler.
  - handler.
  - handler.
  - apply kept_reading, ListByState_reads.
  - apply kept_reading, ListConversations_reads.
  - apply kept_reading, SearchMessages_reads.
  - apply kept_reading, DMMessages_reads.
  - apply kept_reading, DMPartners_reads.
  - apply kept_reading, ReactionsOf_reads.
  - apply kept_reading, UnreadCounts_reads.
  - apply kept_reading, Letters_reads.
  - apply Acknowledge_kept.
  - apply kept_reading, LetterCount_reads.
  - apply kept_reading, Core_reads.
  - apply PutCore_kept.
  - apply DeleteCore_kept.
  - apply kept_reading, Runs_reads.
  - apply kept_reading, Run_reads.
  - apply kept_reading, Reactive_reads.
  - apply kept_reading, Trust_reads.
  - apply kept_reading, Agents_reads.
  - apply kept_reading, Agent_reads.
  - handler.
  - handler.
  - apply require_kept. intros o Ho. apply or_status_kept; [by apply Deregister_kept, Hc|done].
  - handler.
Qed.
End Requests.
End Private.

(** *** The theorem *)
Section Theorem_.
Context {HEng : Engine} {HCred : Credentials} {HTraces : TraceStore} {HJson : GoJson} {HLow : GoUnicode} {HFTS : FTS} {HRuns : HarnessRuns}.
Definition asks (rs : list (context * web_call)) (o : Z) : Prop := exists r, r ∈ rs /\ OwnerIDFromContext r.1 = Some o.
(** The rows of [p] are the same. *)
Definition rows_same {A} (p : A -> Prop) (t t' : table A) : Prop := forall x, p x -> x ∈ rows t <-> x ∈ rows t'.
Lemma rows_by_same {A} (p q : A -> Prop) t t' : (forall x, q x -> ~ p x) -> rows_by p t t' -> rows_same q t t'.
Proof. intros Hpq [H1 H2] x Hq. split; [intros [|[]%Hpq]%H1; done|intros [|[]%Hpq]%H2; done]. Qed.
Record left_alone (a : Agent) (d d' : db) : Prop := {
  la_agent : a ∈ rows (agents d');
  la_sent : forall m', m' ∈ rows (messages d') -> FromAgent m' = Agent_Name a -> exists m, m ∈ rows (messages d) /\ msg_step m m';
  la_inbox : forall m, m ∈ rows (messages d) -> to_agent m = Some (Agent_Name a) -> m ∈ rows (messages d');
  la_read : rows_same (fun s => Inbox_AgentName s = Agent_Name a) (inbox_state d) (inbox_state d');
  la_member : rows_same (fun x => Mem_AgentName x = Agent_Name a) (channel_members d) (channel_members d');
  la_invited : rows_same (fun x => Inv_AgentName x = Agent_Name a) (channel_invites d) (channel_invites d');
  la_channels : rows_same (fun x => Ch_CreatedBy x = Agent_Name a) (channels (blur d)) (channels (blur d'));
  la_reactions : rows_same (fun x => Rx_AgentName x = Agent_Name a) (message_reactions d) (message_reactions d');
  la_letters : rows_same (fun l => DL_OwnerID l = Agent_OwnerID a) (dead_letters d) (dead_letters d');
  la_core : forall n, memory_core d' !! (pretty (Agent_OwnerID a), n) = memory_core d !! (pretty (Agent_OwnerID a), n)
}.
Lemma web_reach maxBytes notifier rs d ps d' : agents_ok d -> messaging_ok d -> rtc (pool_step tick) (web_prog maxBytes notifier <$> rs, d) (ps, d') -> web_I d' /\ web_R (asks rs) d d' /\ kept_private (asks rs) d d'.
Proof.
  intros Ha Hm Hrun. assert (kept_private (asks rs) d d') as Hk.
  { destruct (pool_invariant (fun _ => True) (kept_private (asks rs)) (A := unit) tick) with (ps := web_prog maxBytes notifier <$> rs) (ps' := ps) (Q := fun (_ : nat) (_ : unit) (_ : db) => True) (3 := I) (4 := Hrun) as (_&HR&_); [| |done].
    - intros x y _ (s&_&->). split; [done|]. by apply kept_same.
    - intros i p Hp. rewrite list_lookup_fmap in Hp. destruct (rs !! i) as [[c k]|] eqn:E; [|done]. injection Hp as <-.
      apply (within_rg _ _ (kept_private (asks rs))); [done|]. apply web_prog_kept. intros o Ho. exists (c, k). split; [by eapply list_elem_of_lookup_2|done]. }
  destruct (pool_invariant web_I (web_R (asks rs)) (A := unit) tick) with (ps := web_prog maxBytes notifier <$> rs) (ps' := ps) (Q := fun (_ : nat) (_ : unit) (_ : db) => True) (3 := conj Ha Hm) (4 := Hrun) as (HI&HR&_); [| |by split_and!].
  - intros x y Hx (s&_&->). apply by_owner_step; [done|]. by apply by_owner_same.
  - intros i p Hp. rewrite list_lookup_fmap in Hp. destruct (rs !! i) as [[c k]|] eqn:E; [|done]. injection Hp as <-. apply web_prog_safe; [|by split].
    intros o Ho. exists (c, k). split; [by eapply list_elem_of_lookup_2|done].
Qed.

(** C16. Whatever requests of [web_call] are served concurrently, with any
    statement of any of them failing: the agents of a user who is behind none of
    them are left alone.  Their rows are as they were, nothing is sent in their
    name, no message to them is claimed or finished, their read marks,
    memberships, invitations and reactions stay, their channels too but for the
    settings, which anyone may change; the owner's dead letters and core memories
    stay; and the invariants of agents and messages hold.  Retrying a run is no
    request of [web_call]: it asks for no caller and acts on anyone's agents, see
    [WebScenarios.retry_by_anyone]. *)
Theorem web_isolation (maxBytes : Z) (notifier : bool) (rs : list (context * web_call)) (d : db) ps (d' : db) (Hagents : agents_ok d) (Hmsgs : messaging_ok d)
  (Hrun : rtc (pool_step tick) (web_prog maxBytes notifier <$> rs, d) (ps, d')) :
  agents_ok d' /\ messaging_ok d' /\ forall a, a ∈ rows (agents d) -> ~ asks rs (Agent_OwnerID a) -> left_alone a d d'.
Proof.
  destruct (web_reach maxBytes notifier rs d ps d' Hagents Hmsgs Hrun) as ([HIa HIm]&[Hl Hle Hr []]&[Hlt Hco]). split_and!; [done..|]. intros a Ha Hno.
  assert (a ∈ rows (agents d')) as Ha' by (destruct (proj1 Hr a Ha) as [|[]%Hno]; done).
  assert (forall n, n = Agent_Name a -> ~ mine (asks rs) d' n) as Hbar.
  { intros n -> (o&Ho&(b&Hb&En&<-)). apply Hno. replace (Agent_OwnerID a) with (Agent_OwnerID b); [done|]. f_equal.
    destruct HIa as [_ Hn _]. by eapply (NoDup_fmap_unique Agent_Name). }
  split; [done| | |eapply rows_by_same; [|eassumption]; cbv beta; intros x; apply Hbar..| |].
  - intros m' Hm' Hf. destruct (tc_sent0 m' Hm') as [|Hb]; [done|]. by apply Hbar in Hf.
  - intros m Hm Ht. destruct (tc_kept0 m Hm) as (m'&Hm'&_&[<-|(n&Hn&Hb)]); [done|]. assert (n = Agent_Name a) as E by congruence. by apply Hbar in E.
  - eapply rows_by_same; [|exact Hlt]. cbv beta. intros l ->. exact Hno.
  - intros n. apply Hco. intros o Ho E. apply (pretty_Z_inj (Agent_OwnerID a) o) in E. by subst o.
Qed.
End Theorem_.

(** ** Sorting *)
Definition later_first (a b : EnrichedMessage) : Prop := Msg_CreatedAt (en_Message b) <= Msg_CreatedAt (en_Message a).
Lemma insert_later_perm m l : Permutation (insert_later m l) (m :: l).
Proof. induction l as [|x l IH]; [done|]. cbn [insert_later]. destruct (_ <? _); [|done]. rewrite IH. constructor. Qed.
Lemma insert_later_sorted m l : StronglySorted (flip later_first) l -> StronglySorted (flip later_first) (insert_later m l).
Proof.
  induction 1 as [|x l Hl IH Hx]; [repeat constructor|]. cbn [insert_later]. destruct (Z.ltb_spec (Msg_CreatedAt (en_Message x)) (Msg_CreatedAt (en_Message m))) as [Hlt|Hge].
  - constructor; [exact IH|]. rewrite insert_later_perm. constructor; [|exact Hx]. unfold flip, later_first. lia.
  - constructor; [by constructor|]. constructor; [exact Hge|]. eapply Forall_impl; [exact Hx|]. unfold flip, later_first. intros y. cbv beta. lia.
Qed.
Lemma sort_messages l : Permutation (sortMessagesByTime l) l /\ StronglySorted later_first (sortMessagesByTime l).
Proof.
  unfold sortMessagesByTime. set (f := fun acc m => insert_later m acc).
  assert (forall l acc, Permutation (foldl f acc l) (l ++ acc) /\ (StronglySorted (flip later_first) acc -> StronglySorted (flip later_first) (foldl f acc l))) as H.
  { clear. induction l as [|m l IH]; intros acc; [done|]. cbn [foldl]. destruct (IH (f acc m)) as [H1 H2]. split.
    - rewrite H1. unfold f. rewrite insert_later_perm. cbn [app]. by rewrite <- Permutation_middle.
    - intros Ha. by apply H2, insert_later_sorted. }
  destruct (H l []) as [H1 H2]. split; [by rewrite reverse_Permutation, H1, app_nil_r|].
  assert (Transitive later_first) as Htr by (intros x y z; unfold later_first; lia).
  apply Sorted_StronglySorted; [exact Htr|]. apply (Sorted_reverse (flip later_first)), StronglySorted_Sorted, H2. constructor.
Qed.

(** ** Reading *)
Section Answers.
Context {HEng : Engine} {HJson : GoJson} {HLink : AttachmentLinker}.

Lemma wp_reading {D A} (p : prog D A) Q d : within eq p -> wp p (fun a _ => Q a) d -> wp p (fun a d' => d' = d /\ Q a) d.
Proof. intros Hw H. eapply wp_mono; [|apply (wp_and p (fun _ d' => d = d') (fun a _ => Q a)); [by apply (within_wp eq)|exact H]]. cbv beta. intros a d' [<- Ha]. done. Qed.
Lemma wp_any {D A} (p : prog D A) d : wp p (fun _ _ => True) d.
Proof. revert d. induction p; cbn [wp]; auto. Qed.
(** Whatever a call gives, if the rest is all right with anything. *)
Lemma wp_whatever {D A B} (p : prog D A) (f : A -> prog D B) Q d : (forall a d, wp (f a) Q d) -> wp (bind p f) Q d.
Proof. intros H. apply wp_bind. eapply wp_mono; [|apply wp_any]. cbv beta. intros a d' _. apply H. Qed.
Lemma load_same d l : wp (load_attachments l) (fun r _ => en_Message <$> r = en_Message <$> l) d.
Proof.
  revert d. induction l as [|m l IH]; intros d; [done|]. cbn [load_attachments]. apply wp_whatever. intros o d1. apply wp_bind. eapply wp_mono; [|apply IH].
  cbv beta. intros r d2 Hr. cbn [wp fmap list_fmap]. f_equal; [by destruct o|exact Hr].
Qed.
Lemma enrich_same d l : wp (EnrichMessages l) (fun r _ => en_Message <$> r = l) d.
Proof.
  unfold EnrichMessages. destruct l as [|m l]; [done|]. apply wp_whatever. intros counts d1. apply wp_bind. eapply wp_mono; [|apply load_same]. cbv beta. intros r d2 Hr.
  apply wp_whatever. intros rx d3. cbn [wp]. transitivity (en_Message <$> r).
  - destruct rx; [|done..]. rewrite <- list_fmap_compose. by apply list_fmap_ext.
  - rewrite Hr, <- list_fmap_compose. cbn. f_equal. apply list_fmap_id.
Qed.
Lemma wp_collect {D E A B} (f : A -> prog D (outcome E (list B))) (P : B -> Prop) l d : (forall a, within eq (f a)) ->
  (forall a, a ∈ l -> wp (f a) (fun o _ => forall xs, o = Ok xs -> forall x, x ∈ xs -> P x) d) -> wp (collect f l) (fun r d' => d' = d /\ forall x, x ∈ r -> P x) d.
Proof.
  intros Hr Hf. induction l as [|a l IH]; [split; [done|]; intros x Hx; by apply elem_of_nil in Hx|]. cbn [collect]. apply wp_bind.
  eapply wp_mono; [|apply wp_reading; [apply Hr|apply Hf; by left]]. cbv beta. intros o d1 [-> Ho]. apply wp_bind. eapply wp_mono; [|apply IH; intros b Hb; apply Hf; by right].
  cbv beta. intros more d2 [-> Hm]. cbn [wp]. split; [done|]. destruct o as [xs|e|w]; [|exact Hm..]. intros x [Hx|Hx]%elem_of_app; [by eapply Ho|by apply Hm].
Qed.

(** A message the caller may be shown: from or to an agent of the caller's. *)
Definition sent_to (o : Z) (d : db) (m : Message) : Prop := exists n, to_agent m = Some n /\ owned_agent n o d.
Definition sent_by (o : Z) (d : db) (m : Message) : Prop := owned_agent (FromAgent m) o d.
(** What a request answers if it answers. *)
Definition answers {A} (c : context) (P : Z -> A -> Prop) (d : db) (r : response A) (d' : db) : Prop :=
  d' = d /\ forall status a, r = Replied status a -> exists o, OwnerIDFromContext c = Some o /\ P o a.

Lemma wp_ListAgents o d : wp (ListAgents o) (fun r d' => d' = d /\ forall l, r = Ok l -> forall a, a ∈ l -> owned_agent (Agent_Name a) o d) d.
Proof.
  split; [split; [done|]|by split]. intros l [= <-] a [[_ Ho]%andb_true_iff Ha]%elem_of_select_by. apply Z.eqb_eq in Ho. exists a. split_and!; [done|done|done].
Qed.
Lemma wp_isAgentOwnedBy n o d : wp (isAgentOwnedBy n o) (fun b d' => d' = d /\ (b = true -> owned_agent n o d)) d.
Proof.
  unfold isAgentOwnedBy. destruct (str_empty n); [done|]. apply wp_bind. eapply wp_mono; [|apply wp_GetAgent]. cbv beta. intros [a|e|w] d' [-> Ha]; cbn [wp]; (split; [done|]); [|done..].
  intros <-%Z.eqb_eq. destruct (find_row_Some _ _ _ (Ha a eq_refl)) as [[Hn%String.eqb_eq _]%andb_true_iff Hin]. by exists a.
Qed.
Lemma wp_owned_access m o d : wp (MessagesHandler.owned_access m o) (fun b d' => d' = d /\ (b = true -> sent_by o d m \/ sent_to o d m)) d.
Proof.
  unfold MessagesHandler.owned_access, or_else. apply wp_bind. eapply wp_mono; [|apply wp_isAgentOwnedBy]. cbv beta. intros [|] d' [-> H1]; cbn [wp]; [split; [done|]; left; by apply H1|].
  destruct (to_agent m) as [n|] eqn:E; cbn [default from_option id]; [|done].
  eapply wp_mono; [|apply wp_isAgentOwnedBy]. cbv beta. intros b d' [-> H2]. split; [done|]. intros Hb. right. exists n. split; [done|by apply H2].
Qed.
Lemma wp_shown {A} c o (P : Z -> A -> Prop) ms (g : list EnrichedMessage -> A) st d : OwnerIDFromContext c = Some o ->
  (forall l, en_Message <$> l = ms -> P o (g l)) -> wp (let! shown := EnrichMessages ms in Ret (Replied st (g shown))) (answers c P d) d.
Proof.
  intros Ho HP. apply wp_bind. eapply wp_mono; [|apply wp_reading; [apply Enrich_reads|apply enrich_same]]. cbv beta. intros l d' [-> Hl]. cbn [wp].
  split; [done|]. intros s a [= <- <-]. exists o. split; [done|by apply HP].
Qed.
Lemma answers_refused {A} c (P : Z -> A -> Prop) d st : answers c P d (Refused st) d.
Proof. done. Qed.
Lemma ListMessages_answers c limit status f d :
  wp (MessagesHandler.ListMessages c limit status f) (answers c (fun o l => Z.of_nat (length l) <= param_limit 50 limit /\ StronglySorted later_first l /\
    forall e, e ∈ l -> en_Message e ∈ rows (messages d) /\ sent_to o d (en_Message e)) d) d.
Proof.
  unfold MessagesHandler.ListMessages. destruct (OwnerIDFromContext c) as [o|] eqn:Ho; [|done]. cbn [require]. unfold or_status. apply wp_bind. eapply wp_mono; [|apply wp_ListAgents]. cbv beta.
  intros [l|e|w] d' [-> Hl]; [|done..]. specialize (Hl l eq_refl). destruct (bool_decide _).
  { split; [done|]. intros s a [= <- <-]. exists o. split; [done|]. unfold param_limit. split_and!; [destruct (Z.leb_spec limit 0); cbn; lia|constructor|]. intros e He. by apply elem_of_nil in He. }
  cbv zeta. apply wp_bind. eapply wp_mono; [|apply (wp_collect _ (fun m => m ∈ rows (messages d) /\ sent_to o d m))].
  - cbv beta. intros all d' [-> Hall]. apply (wp_shown c o _ all (fun shown => take _ (sortMessagesByTime shown))); [done|]. intros shown Hs. destruct (sort_messages shown) as [Hp Hsort].
    split_and!; [rewrite length_take; unfold param_limit; destruct (Z.leb_spec limit 0); lia| |].
    + rewrite <- (take_drop (Z.to_nat (param_limit 50 limit)) (sortMessagesByTime shown)) in Hsort. by apply StronglySorted_app_1_l in Hsort.
    + intros e He. apply Hall. rewrite <- Hs. apply list_elem_of_fmap. exists e. split; [done|]. rewrite <- Hp. apply elem_of_take in He as (i&Hi&_). by eapply list_elem_of_lookup_2.
  - intros a. destruct (_ && _); [done|]. apply within_bind_ok; [by apply ReadInbox_reads|done].
  - intros a Ha. destruct (_ && _); [by intros xs [= <-] x Hx%elem_of_nil|]. apply wp_bind_ok. unfold ReadInbox. repeat (apply wp_bind_ok; split; cbn [wp]; [|done]).
    cbn. intros xs [= <-] x [Hx Hin]%elem_of_page%elem_of_select_by. split; [done|]. exists (Agent_Name a). split; [|by apply Hl].
    unfold buildInboxConditions in Hx. rewrite !andb_true_iff in Hx. destruct Hx as [[[[[[[Hx _] _] _] _] _] _] _]. by apply bool_decide_eq_true in Hx.
Qed.
Lemma GetMessage_answers c mid d :
  wp (MessagesHandler.GetMessage c mid) (answers c (fun o l => forall e, e ∈ l -> en_Message e ∈ rows (messages d) /\ mid = Some (Msg_ID (en_Message e)) /\
    (sent_by o d (en_Message e) \/ sent_to o d (en_Message e))) d) d.
Proof.
  unfold MessagesHandler.GetMessage. destruct (OwnerIDFromContext c) as [o|] eqn:Ho; [|done]. destruct mid as [i|]; [|done]. cbn [require]. apply wp_bind, wp_GetMessageByID; [done|].
  destruct (find_id i (messages d)) as [m|] eqn:E; [|done]. apply find_id_Some in E as [Hi Hm]. apply wp_bind. eapply wp_mono; [|apply wp_owned_access]. cbv beta.
  intros [|] d' [-> Hb]; [|done]. cbn [negb]. apply (wp_shown c o _ [m] (fun shown => shown)); [done|]. intros shown Hs e He.
  assert (en_Message e = m) as -> by (apply (list_elem_of_fmap_2 en_Message) in He; rewrite Hs in He; by apply list_elem_of_singleton in He). split_and!; [done|by rewrite <- Hi|by apply Hb].
Qed.
Lemma dm_parties names peer m : dm_between names peer m = true -> FromAgent m ∈ names \/ exists n, to_agent m = Some n /\ n ∈ names.
Proof.
  unfold dm_between, holds. intros H%bool_decide_eq_true. destruct (decide (FromAgent m ∈ names)) as [|Hf]; [by left|]. right.
  destruct (to_agent m) as [n|]; [exists n; split; [done|]|exfalso].
  - destruct (decide (n ∈ names)) as [|Hn]; [done|]. exfalso. revert H. unfold t_in. destruct names as [|x l]; unfold t_or, t_and, t_not, t_eq; rewrite (bool_decide_eq_false_2 _ Hf); cbn [fmap option_fmap option_map];
      rewrite ?(bool_decide_eq_false_2 _ Hn); by repeat match goal with |- context [bool_decide ?Q] => destruct (bool_decide Q) end.
  - revert H. unfold t_in. destruct names as [|x l]; unfold t_or, t_and, t_not, t_eq; rewrite (bool_decide_eq_false_2 _ Hf); cbn [fmap option_fmap option_map]; by repeat match goal with |- context [bool_decide ?Q] => destruct (bool_decide Q) end.
Qed.
Lemma DMMessages_answers c peer limit d :
  wp (MessagesHandler.DMMessages c peer limit) (answers c (fun o r => Z.of_nat (length r.1) <= param_limit 100 limit /\ forall e, e ∈ r.1 ->
    en_Message e ∈ rows (messages d) /\ Msg_ChannelID (en_Message e) = None /\ (sent_by o d (en_Message e) \/ sent_to o d (en_Message e))) d) d.
Proof.
  assert (0 < param_limit 100 limit) as Hpos by (unfold param_limit; destruct (Z.leb_spec limit 0); lia).
  unfold MessagesHandler.DMMessages. destruct (OwnerIDFromContext c) as [o|] eqn:Ho; [|done]. cbn [require]. unfold or_status. apply wp_bind. eapply wp_mono; [|apply wp_ListAgents]. cbv beta.
  intros [l|e|w] d' [-> Hl]; [|done..]. specialize (Hl l eq_refl). destruct (bool_decide (l = [])) eqn:El.
  { split; [done|]. intros s a [= <- <-]. exists o. split; [done|]. split; [cbn; lia|]. intros e He. by apply elem_of_nil in He. }
  apply wp_bind. unfold GetDMMessages. destruct l as [|a0 l0]; [done|]. change (Agent_Name <$> a0 :: l0) with (Agent_Name a0 :: (Agent_Name <$> l0)). cbv beta iota zeta.
  set (names := Agent_Name a0 :: (Agent_Name <$> l0)). split; cbn [wp]; [|done]. set (ms := page _ _ _). apply wp_bind.
  eapply wp_mono; [|apply wp_reading; [apply Enrich_reads|apply enrich_same]]. cbv beta. intros shown d' [-> Hs].
  assert (forall n : Z, Z.of_nat (length shown) <= param_limit 100 limit /\ forall e, e ∈ shown -> en_Message e ∈ rows (messages d) /\ Msg_ChannelID (en_Message e) = None /\
    (sent_by o d (en_Message e) \/ sent_to o d (en_Message e))) as Hfin.
  { intros _. split; [rewrite <- (length_fmap en_Message), Hs, length_reverse; unfold ms, page, default_limit; rewrite length_take; destruct (Z.leb_spec (param_limit 100 limit) 0); lia|].
    intros e He. apply (list_elem_of_fmap_2 en_Message) in He. rewrite Hs, elem_of_reverse in He. apply elem_of_page, elem_of_select_by in He as [[Hdm Hb]%andb_true_iff Hrow].
    split; [done|]. split; [by apply bool_decide_eq_true in Hdm|].
    assert (forall n, n ∈ names -> owned_agent n o d) as Hn by (intros n (a&->&Ha)%(list_elem_of_fmap Agent_Name (a0 :: l0)); by apply Hl).
    destruct (dm_parties _ _ _ Hb) as [Hf|(n&Ht&Hin)]; [left; by apply Hn|right; exists n; split; [done|by apply Hn]]. }
  apply wp_bind. split; cbn [wp]; (split; [done|]; intros s a [= <- <-]; exists o; split; [done|exact (Hfin 0)]).
Qed.

(** C20. What the lists of messages show, whatever fails and with nothing
    changed: to an authenticated caller, only stored messages. The inbox shows at
    most the limit, the newest first, all to agents the caller owns; a single
    message is the one asked for, and the conversation with an agent holds direct
    messages only, in both cases from or to an agent the caller owns. *)
Theorem messages_shown (c : context) (d : db) :
  (forall limit status f, wp (MessagesHandler.ListMessages c limit status f) (answers c (fun o l => Z.of_nat (length l) <= param_limit 50 limit /\ StronglySorted later_first l /\
    forall e, e ∈ l -> en_Message e ∈ rows (messages d) /\ sent_to o d (en_Message e)) d) d) /\
  (forall mid, wp (MessagesHandler.GetMessage c mid) (answers c (fun o l => forall e, e ∈ l -> en_Message e ∈ rows (messages d) /\ mid = Some (Msg_ID (en_Message e)) /\
    (sent_by o d (en_Message e) \/ sent_to o d (en_Message e))) d) d) /\
  (forall peer limit, wp (MessagesHandler.DMMessages c peer limit) (answers c (fun o r => Z.of_nat (length r.1) <= param_limit 100 limit /\ forall e, e ∈ r.1 ->
    en_Message e ∈ rows (messages d) /\ Msg_ChannelID (en_Message e) = None /\ (sent_by o d (en_Message e) \/ sent_to o d (en_Message e))) d) d).
Proof. split_and!; intros; [apply ListMessages_answers|apply GetMessage_answers|apply DMMessages_answers]. Qed.
End Answers.

(** ** Runs

    Ann has an agent and a bot, Ben an agent; Ann's bot has written to her, and
    she has a private channel. *)
Module WebScenarios.
#[local] Existing Instances Runs.eng Runs.gojson AgentRuns.cred SearchRuns.fts_all.
#[local] Instance ascii_lower : GoUnicode := {| ToLower := sql_lower; ToLower_ascii := fun s _ => eq_refl |}.
#[local] Instance no_traces : TraceStore := {| Trace := unit; recent_traces := fun _ => Ret (Ok []); recent_traces_frame := fun _ => I |}.
#[local] Instance no_runs : HarnessRuns := {| HarnessRun := unit; GetByReactiveRunID := fun _ => Ret (Ok None); GetByReactiveRunID_frame := fun _ => I |}.

Definition person (name type : string) (owner id : Z) : Agent := agent_row (register_struct name name type raw_empty_object owner "#key") 0 id.
Definition people : db := set_agents (mkTable [person "ann" "human" 1 1; person "bot" "ai" 1 2; person "ben" "human" 2 3] 4) (set_clock 1000 empty_db).
Lemma people_ok : agents_ok people /\ messaging_ok people.
Proof.
  split; split; simpl; [split; simpl| | |apply table_ok_empty| |apply table_ok_empty|constructor].
  - by apply (bool_decide_unpack (NoDup [1; 2; 3])); vm_compute.
  - intros a Ha. repeat (apply elem_of_cons in Ha as [->|Ha]; [cbn; lia|]). by apply elem_of_nil in Ha.
  - by apply (bool_decide_unpack (NoDup ["ann"; "bot"; "ben"])); vm_compute.
  - intros a Ha. repeat (apply elem_of_cons in Ha as [->|Ha]; [cbn; tauto|]). by apply elem_of_nil in Ha.
  - intros m Hm. by apply elem_of_nil in Hm.
Qed.
Definition ann : context := mkContext (Some 1) true (Some "ann").
Definition ann_key : context := mkContext (Some 1) false None.
Definition ben : context := mkContext (Some 2) true (Some "ben").
Definition post (from to body : string) (channel conv : option Z) (priority : Z) : option MessagesHandler.send_request :=
  Some (MessagesHandler.mkSend from to body priority channel conv "" None []).

(** Ann's requests, interleaved with failures: sending, a channel, a new agent,
    finishing a message, a reaction. *)
Definition asked : list (context * web_call) :=
  [(ann_key, WSend (post "bot" "ann" "report" None None 5)); (ann, WNewChannel (Some (ChannelsHandler.mkCreate "plans" "" "" TypeStandard true)));
   (ann, WRegister (Some (AgentsHandler.mkRegister "helper" "Helper" "ai" RawEmpty))); (ann, WDone (Some 1)); (ann, WToggle (Some 1) (Some (Some ReactionApprove, RawEmpty)))].
Definition schedule : list (nat * bool) :=
  concat (repeat [(0, false); (1, false); (2, false)]%nat 12) ++ (3, false)%nat :: (4, true)%nat :: concat (repeat [(3, false)]%nat 12).
Definition evening := run_schedule schedule (web_prog 2048 false <$> asked) people.
Definition full : db := evening.2.

Lemma web_isolation_witness :
  left_alone (person "ben" "human" 2 3) people full /\
  (fun m => (FromAgent m, Status m)) <$> rows (messages full) = [("bot", StatusDone)] /\ Ch_Name <$> rows (channels full) = ["plans"] /\
  Agent_Name <$> rows (agents full) = ["ann"; "bot"; "ben"; "helper"].
Proof.
  split; [|split_and!; by vm_compute]. destruct people_ok as [Ha Hm].
  destruct (web_isolation 2048 false asked people evening.1 full Ha Hm) as (_&_&H).
  - unfold full. rewrite <- surjective_pairing. apply run_schedule_reachable.
  - apply H; [by right; right; left|]. intros (r&Hr&Ho). unfold asked in Hr. repeat (apply elem_of_cons in Hr as [->|Hr]; [discriminate Ho|]). by apply elem_of_nil in Hr.
Defined.

Definition after {A} (p : prog db A) (d : db) : db := (run_ok p d).2.
Definition shown_bodies (r : response (list EnrichedMessage)) : list string := match r with Replied _ l => (fun e => Body (en_Message e)) <$> l | _ => [] end.

(** A retry names no caller: anyone who is signed in starts the agent of
    another user again. *)
Theorem retry_by_anyone :
  let failed := run_row (skipped_run "worker" (ReactorRaces.dm 1) RunFailed "x") 0 1 in
  let d := set_reactive_runs (mkTable [failed] 2) ReactorRaces.cluster_db in
  let '(r, d') := run_ok (RunsHandler.RetryRun (HRun := ReactorRaces.jobs) (HHar := ReactorRaces.taking 60) (HNot := ReactorRaces.silent) (Some 1)) d in
  r = Replied 200 (2, RunRunning) /\ (fun x => (Run_AgentName x, Run_Status x)) <$> rows (reactive_runs d') = [("worker", RunFailed); ("worker", RunRunning)].
Proof. by vm_compute. Qed.

(** Ben, no member of it, reads Ann's private channel and its members, writes
    into it, and changes its settings. *)
Definition posted : db := after (MessagesHandler.SendMessage ann (post "" "" "secret" (Some 1) None 5)) full.
Theorem private_channel_open :
  IsPrivate <$> rows (channels posted) = [true] /\
  (match (run_ok (ChannelsHandler.ChannelMessages ben "plans" 0) posted).1 with Replied _ r => shown_bodies (Replied 200 r.1.1) | _ => [] end) = ["secret"] /\
  (match (run_ok (ChannelsHandler.GetChannel ben "plans") posted).1 with Replied _ r => Mem_AgentName <$> r.2 | _ => [] end) = ["ann"] /\
  shown_bodies (run_ok (MessagesHandler.SendMessage ben (post "" "" "hello" (Some 1) None 5)) posted).1 = ["hello"] /\
  (match (run_ok (ChannelsHandler.UpdateSettings ben "plans" (Some (ChannelsHandler.mkSettings None (Some true) None None None None))) posted).1 with
   | Replied 200 ch => AutoApprove (Ch_Settings ch) | _ => false end) = true.
Proof. split_and!; by vm_compute. Qed.

(** A message sent into a conversation opens it: Ben writes one to himself with
    the number of Ann's and reads the whole of hers. *)
Definition joined_in : db := after (MessagesHandler.SendMessage ben (post "" "ben" "let me in" None (Some 1) 5)) full.
Theorem conversation_opened :
  (run_ok (MessagesHandler.GetConversation ben (Some 1)) full).1 = Refused 403 /\
  (match (run_ok (MessagesHandler.GetConversation ben (Some 1)) joined_in).1 with Replied _ r => shown_bodies (Replied 200 r.2) | _ => [] end) = ["report"; "let me in"].
Proof. split; by vm_compute. Qed.

(** Finishing the second of two messages claims the first, refuses, and leaves
    the first in processing. *)
Definition waiting : db :=
  after (MessagesHandler.SendMessage ann_key (post "bot" "ann" "second" None None 5)) (after (MessagesHandler.SendMessage ann_key (post "bot" "ann" "first" None None 5)) people).
Theorem wrong_message_claimed :
  (run_ok (MessagesHandler.MarkDone ann (Some 2)) waiting).1 = Refused 400 /\
  Status <$> rows (messages (after (MessagesHandler.MarkDone ann (Some 2)) waiting)) = [StatusProcessing; StatusPending].
Proof. split; by vm_compute. Qed.

(** The page of an inbox is cut by priority and age before it is sorted by time:
    with a limit of one the older of two messages is shown. *)
Theorem oldest_kept :
  shown_bodies (run_ok (MessagesHandler.ListMessages ann 1 None "") (set_clock 2000 waiting)).1 = ["first"] /\
  shown_bodies (run_ok (MessagesHandler.ListMessages ann 2 None "") (after (MessagesHandler.SendMessage ann_key (post "bot" "ann" "third" None None 5)) (set_clock 2000 waiting))).1 = ["first"; "second"].
Proof. split; by vm_compute. Qed.

(** Ben reacts to a message between Ann's agents, and what is approved so is
    shown as approved. *)
Theorem outsider_reacts :
  (match (run_ok (ReactionsHandler.Toggle false ben (Some 1) (Some (Some ReactionApprove, RawEmpty))) full).1 with Replied 200 r => r.2.2 | _ => StateProposed end) = StateApproved.
Proof. by vm_compute. Qed.
End WebScenarios.
