(* ===== verification/KubernetesApi.v ===== *)
(** * The web interface to Kubernetes jobs (internal/api/k8s_handler.go)

    The handlers ask the agents' service who the caller owns and the store of
    [Kubernetes] for the rest; their state holds both.  [k8s_shown]: only what is
    of the caller's agents is shown, and nothing changes. *)
From S2P Require Import Prelude Prog Table Schema Messaging Agents AgentsSpec Gateway Reactor Kubernetes Web WebSpec.

Record kube_world `{Kube} := mkKubeWorld { kw_db : db; kw_k8s : k8s_db }.

Section Api.
Context {HEng : Engine} {HKube : Kube}.
Definition put_kw_db (d : db) (w : kube_world) : kube_world := mkKubeWorld _ d (kw_k8s w).
Definition put_kw_k8s (d : k8s_db) (w : kube_world) : kube_world := mkKubeWorld _ (kw_db w) d.
Definition on_db {B} (p : prog db B) : prog kube_world B := focus kw_db put_kw_db p.
Definition on_k8s {B} (p : prog k8s_db B) : prog kube_world B := focus kw_k8s put_kw_k8s p.

(** The loop over the caller's agents: one whose query fails is left out. *)
Definition owned_list {A} (ownerID : option Z) (agentFilter : string) (f : string -> prog k8s_db (outcome k8s_error (list A))) (show : list A -> list A) : prog kube_world (response (list A)) :=
  require ownerID 401 (fun owner =>
  or_status (on_db (ListAgents owner)) 500 (fun ownedAgents =>
    let! all := collect (fun a =>
      if negb (str_empty agentFilter) && negb (String.eqb (Agent_Name a) agentFilter) then Ret (Ok []) else on_k8s (f (Agent_Name a))) ownedAgents in
    Ret (Replied 200 (show all)))).
Definition handle_ListHandlers (ownerID : option Z) (agentFilter : string) : prog kube_world (response (list handler_row)) :=
  owned_list ownerID agentFilter ListHandlers (fun l => l).
(** [limit] is 0 when the parameter is no number. *)
Definition handle_ListJobRuns (ownerID : option Z) (agentFilter status : string) (limit : Z) : prog kube_world (response (list K8sJobRun)) :=
  let limit := param_limit 50 limit in
  owned_list ownerID agentFilter (fun a => GetJobRuns a status limit) (take (Z.to_nat limit)).

Definition isAgentOwnedBy (agentName : string) (ownerID : Z) : prog kube_world bool :=
  if str_empty agentName then Ret false
  else let! a := on_db (GetAgent agentName) in Ret (match a with Ok a => Agent_OwnerID a =? ownerID | _ => false end).
Definition handle_JobRunLogs (runner : option string) (ownerID runID : option Z) : prog kube_world (response (K8sJobRun * string)) :=
  require ownerID 401 (fun owner =>
  require runID 400 (fun id =>
  or_status (on_k8s (GetJobRunByID id)) 404 (fun run =>
  let! mine := isAgentOwnedBy (Run_AgentName run) owner in
  if negb mine then Ret (Refused 403)
  else or_status (on_k8s (service_GetJobLogs runner (Run_Namespace run) (JobName run))) 500 (fun logs => Ret (Replied 200 (run, logs)))))).

(** ** What is shown *)
Lemma put_kw_k8s_same w : put_kw_k8s (kw_k8s w) w = w.
Proof. by destruct w. Qed.
Lemma put_kw_db_same w : put_kw_db (kw_db w) w = w.
Proof. by destruct w. Qed.
Lemma wp_on_db {B} (p : prog db B) Q w : wp p (fun b d => Q b (put_kw_db d w)) (kw_db w) -> wp (on_db p) Q w.
Proof. apply wp_focus; by intros []. Qed.
Lemma wp_on_k8s {B} (p : prog k8s_db B) Q w : wp p (fun b d => Q b (put_kw_k8s d w)) (kw_k8s w) -> wp (on_k8s p) Q w.
Proof. apply wp_focus; by intros []. Qed.
(** A query of the store, as the world sees it. *)
Lemma wp_k8s_reading {B} (p : prog k8s_db B) (Q : B -> Prop) w : within eq p -> wp p (fun b _ => Q b) (kw_k8s w) -> wp (on_k8s p) (fun b w' => w' = w /\ Q b) w.
Proof. intros Hw H. apply wp_on_k8s. eapply wp_mono; [|by apply wp_reading]. cbv beta. intros b d [-> Hb]. by rewrite put_kw_k8s_same. Qed.

Definition shown_to {A} (ownerID : option Z) (P : Z -> A -> Prop) (w : kube_world) (r : response A) (w' : kube_world) : Prop :=
  w' = w /\ forall status a, r = Replied status a -> exists o, ownerID = Some o /\ P o a.

Lemma wp_collect_world {A B} (f : A -> prog kube_world (outcome k8s_error (list B))) (P : B -> Prop) l w :
  (forall a, a ∈ l -> wp (f a) (fun o w' => w' = w /\ forall xs, o = Ok xs -> forall x, x ∈ xs -> P x) w) ->
  wp (collect f l) (fun r w' => w' = w /\ forall x, x ∈ r -> P x) w.
Proof.
  induction l as [|a l IH]; intros Hf; [split; [done|]; intros x Hx; by apply elem_of_nil in Hx|]. cbn [collect]. apply wp_bind.
  eapply wp_mono; [|apply Hf; by left]. cbv beta. intros o w1 [-> Ho]. apply wp_bind. eapply wp_mono; [|apply IH; intros b Hb; apply Hf; by right].
  cbv beta. intros more w2 [-> Hm]. cbn [wp]. split; [done|]. destruct o as [xs|e|u]; [|exact Hm..]. intros x [Hx|Hx]%elem_of_app; [by eapply Ho|by apply Hm].
Qed.
Lemma owned_list_shown {A} ownerID agentFilter (f : string -> prog k8s_db (outcome k8s_error (list A))) show (agent_of : A -> string) (stored : A -> Prop) w :
  (forall n, within eq (f n)) -> (forall l x, x ∈ show l -> x ∈ l) ->
  (forall n, wp (f n) (fun o _ => forall xs, o = Ok xs -> forall x, x ∈ xs -> stored x /\ agent_of x = n) (kw_k8s w)) ->
  wp (owned_list ownerID agentFilter f show) (shown_to ownerID (fun o l => forall x, x ∈ l -> stored x /\ owned_agent (agent_of x) o (kw_db w)) w) w.
Proof.
  intros Hr Hs Hf. unfold owned_list. destruct ownerID as [o|]; [|by split]. cbn [require]. unfold or_status. apply wp_bind, wp_on_db. eapply wp_mono; [|apply wp_ListAgents].
  cbv beta. intros [l|e|u] d [-> Hl]; rewrite put_kw_db_same; [|by split..]. specialize (Hl l eq_refl). apply wp_bind.
  eapply wp_mono; [|apply (wp_collect_world _ (fun x => stored x /\ owned_agent (agent_of x) o (kw_db w)))].
  - cbv beta. intros all w' [-> Hall]. cbn [wp]. split; [done|]. intros st a [= <- <-]. exists o. split; [done|]. intros x Hx. by apply Hall, Hs.
  - intros a Ha. destruct (_ && _); [split; [done|]; by intros xs [= <-] x Hx%elem_of_nil|]. eapply wp_mono; [|apply wp_k8s_reading; [apply Hr|apply Hf]].
    cbv beta. intros r w' [-> Hx]. split; [done|]. intros xs E x Hin. destruct (Hx xs E x Hin) as [Hst En]. split; [done|]. rewrite En. by apply Hl.
Qed.

(** Whatever fails, the handlers of Kubernetes jobs change nothing and show
    an authenticated caller only handlers and runs on record of agents the caller
    owns, at most the limit of runs, and the logs of such a run only. *)
Theorem k8s_shown (runner : option string) (ownerID : option Z) (w : kube_world) :
  (forall f, wp (handle_ListHandlers ownerID f) (shown_to ownerID (fun o l => forall h, h ∈ l -> h ∈ rows (k8s_handlers (kw_k8s w)) /\ owned_agent (h_AgentName (Hd h)) o (kw_db w)) w) w) /\
  (forall f status limit, wp (handle_ListJobRuns ownerID f status limit)
     (shown_to ownerID (fun o l => forall r, r ∈ l -> r ∈ rows (k8s_job_runs (kw_k8s w)) /\ owned_agent (Run_AgentName r) o (kw_db w)) w) w) /\
  (forall runID, wp (handle_JobRunLogs runner ownerID runID)
     (shown_to ownerID (fun o x => runID = Some (Run_ID x.1) /\ x.1 ∈ rows (k8s_job_runs (kw_k8s w)) /\ owned_agent (Run_AgentName x.1) o (kw_db w)) w) w).
Proof.
  split_and!.
  - intros f. apply (owned_list_shown _ _ _ _ (fun h => h_AgentName (Hd h)) (fun h => h ∈ rows (k8s_handlers (kw_k8s w)))); [intros n; apply within_query, _|done|].
    intros n. split; [|done]. intros xs [= <-] x [Hx Hin]%elem_of_select_by. split; [done|by apply String.eqb_eq].
  - intros f status limit. apply (owned_list_shown _ _ _ _ Run_AgentName (fun r => r ∈ rows (k8s_job_runs (kw_k8s w)))); [intros n; apply within_query, _| |].
    + intros l x Hx. apply elem_of_take in Hx as (i&Hi&_). by eapply list_elem_of_lookup_2.
    + intros n. split; [|done]. intros xs [= <-] x [[Hx _]%andb_true_iff Hin]%elem_of_page%elem_of_select_by. split; [done|by apply String.eqb_eq].
  - intros runID. unfold handle_JobRunLogs. destruct ownerID as [o|], runID as [i|]; [|by split..]. cbn [require]. unfold or_status. apply wp_bind.
    eapply wp_mono; [|apply (wp_k8s_reading _ (fun r => forall run, r = Ok run -> Run_ID run = i /\ run ∈ rows (k8s_job_runs (kw_k8s w)))); [apply within_query_o, _|]].
    2: { split; [|done]. destruct (find_id i _) as [r|] eqn:E; intros run [= <-]. by apply find_id_Some in E. }
    cbv beta. intros [run|e|u] w' [-> Hrun]; [|by split..]. destruct (Hrun run eq_refl) as [Hid Hin]. unfold isAgentOwnedBy. destruct (str_empty _); [by split|]. apply wp_bind, wp_bind, wp_on_db.
    eapply wp_mono; [|apply wp_GetAgent]. cbv beta. intros r d' [-> Ha]; rewrite put_kw_db_same. cbn [wp]. destruct r as [a|e|u]; [|by split..].
    destruct (Z.eqb_spec (Agent_OwnerID a) o) as [Ho|]; [|by split]. cbn [negb]. apply wp_bind. eapply wp_mono; [|apply (wp_k8s_reading _ (fun _ => True))].
    + cbv beta. intros [logs|e|u] w' [-> _]; [|by split..]. cbn [wp]. split; [done|]. intros st x [= <- <-]. exists o. cbn [fst]. rewrite Hid. split_and!; [done|done|done|].
      destruct (find_row_Some _ _ _ (Ha a eq_refl)) as [[Hn%String.eqb_eq _]%andb_true_iff Hrow]. by exists a.
    + unfold service_GetJobLogs. destruct (negb _); [done|]. unfold GetJobLogs. destruct runner; [|done]. apply within_query_o, _.
    + apply wp_any.
Qed.
End Api.
