(* ===== verification/AgentQuery.v ===== *)
(** * Queries of the agents (internal/agentquery/executor.go)

    The check of an agent's SELECT, the common table expressions put in front of
    it, and its execution, which the database decides.  [query_scope]: whatever
    an agent is called, its name is read as one literal in each of the five
    places it is put. *)
From S2P Require Import Prelude Prog Table Messaging Channels Reactor Retention MemoryTools.

(** ** Text *)
Definition quote_char : Ascii.ascii := Ascii.ascii_of_nat 39.
Class GoUpper := { ToUpper : string -> string }.
(** [strings.ReplaceAll] of a quote by two. *)
Fixpoint escape (s : string) : string :=
  match s with
  | EmptyString => EmptyString
  | String a r => if Ascii.eqb a quote_char then String a (String a (escape r)) else String a (escape r)
  end.
Definition quoteSQLString (s : string) : string := String quote_char (escape s +:+ String quote_char EmptyString).
(** [strings.TrimRight] with the set of a semicolon, a space, a tab and a newline. *)
Definition in_cutset (a : Ascii.ascii) : bool := let n := Ascii.nat_of_ascii a in ((n =? 59) || (n =? 32) || (n =? 9) || (n =? 10))%nat.
Fixpoint trim_end (s : string) : string :=
  match s with
  | EmptyString => EmptyString
  | String a r => let r' := trim_end r in if in_cutset a && str_empty r' then EmptyString else String a r'
  end.
Fixpoint str_drop (n : nat) (s : string) : string := match n, s with S n', String _ r => str_drop n' r | _, _ => s end.

(** ** The check *)
Inductive query_error := QEmpty | QNotSelect | QBlocked (keyword : string) | QMultiple | QFailed | QNoExecutor.
Definition blocked : list string :=
  ["INSERT "; "UPDATE "; "DELETE "; "DROP "; "ALTER "; "CREATE "; "ATTACH "; "DETACH "; "PRAGMA"; "REINDEX "; "VACUUM "; "REPLACE "; "GRANT "; "REVOKE "].

(** ** The rewritten query: the pieces of the text between the names *)
Definition cte_pieces : list string := ["
WITH my_messages AS (
    SELECT v.* FROM v_agent_messages v
    LEFT JOIN channel_members cm ON cm.channel_id = v.channel_id AND cm.agent_name = "; "
    WHERE v.to_agent = "; "
       OR v.from_agent = "; "
       OR (v.channel_id IS NOT NULL AND cm.agent_name IS NOT NULL)
),
my_channels AS (
    SELECT c.id, c.name, c.description, c.type, c.topic, c.is_private, c.created_at,
           cm.joined_at AS member_since
    FROM channels c
    JOIN channel_members cm ON cm.channel_id = c.id AND cm.agent_name = "; "
),
channel_messages AS (
    SELECT v.* FROM v_channel_messages v
    WHERE v.channel_id IN (
        SELECT channel_id FROM channel_members WHERE agent_name = "].
Definition cte_end : string := "
    )
)
".
Fixpoint with_names (pieces : list string) (name rest : string) : string :=
  match pieces with [] => rest | p :: more => p +:+ name +:+ with_names more name rest end.

Section Query.
Context {HUp : GoUpper}.
Definition validateSQL (query : string) : option query_error :=
  let trimmed := trim_space query in
  if str_empty trimmed then Some QEmpty
  else
    let upper := ToUpper trimmed in
    if negb (String.prefix "SELECT" upper) && negb (String.prefix "WITH" upper) then Some QNotSelect
    else match find (fun kw => str_contains kw upper) blocked with
         | Some kw => Some (QBlocked (trim_space kw))
         | None => if (1 <? length (filter (fun p => trim_space p <> EmptyString) (split_on (Ascii.ascii_of_nat 59) trimmed EmptyString)))%nat then Some QMultiple else None
         end.
(** A query with expressions of its own has them put behind. *)
Definition user_part (query : string) : string :=
  let trimmed := trim_space query in
  let upper := ToUpper trimmed in
  let trimmed := trim_end trimmed in
  if String.prefix "WITH" upper then ", " +:+ trim_space (str_drop 4 trimmed) else trimmed.
Definition rewriteQuery (agentName query : string) : string :=
  with_names cte_pieces (quoteSQLString agentName) (cte_end +:+ user_part query).

(** ** Execution *)
Definition MaxRows : nat := 100.
Class SqlRunner (D : Type) := { Cell : Type; run_sql : string -> D -> option (list string * list (list Cell)) }.
Record QueryResult {D} `{SqlRunner D} := mkQueryResult { Columns : list string; Rows : list (list Cell); Truncated : bool }.
Definition Execute {D} `{SqlRunner D} (agentName sqlQuery : string) : prog D (outcome query_error QueryResult) :=
  match validateSQL sqlQuery with
  | Some e => Ret (Err e)
  | None => query_o QFailed (fun d => match run_sql (rewriteQuery agentName sqlQuery) d with
                                      | Some (columns, l) => Ok (mkQueryResult D _ columns (take MaxRows l) (MaxRows <? length l)%nat)
                                      | None => Err QFailed
                                      end)
  end.
End Query.

(** ** How the database reads quotes *)

(** A text as code and literals; two quotes in a literal are one. *)
Inductive token := Code (s : string) | Literal (s : string) | Unterminated (s : string).
Fixpoint sql_lex (inside : bool) (acc s : string) : list token :=
  match s with
  | EmptyString => [if inside then Unterminated acc else Code acc]
  | String a r =>
      if negb (Ascii.eqb a quote_char) then sql_lex inside (acc +:+ String a EmptyString) r
      else if negb inside then Code acc :: sql_lex true EmptyString r
      else match r with
           | String b r' => if Ascii.eqb b quote_char then sql_lex true (acc +:+ String a EmptyString) r' else Literal acc :: sql_lex false EmptyString r
           | EmptyString => Literal acc :: sql_lex false EmptyString r
           end
  end.
Definition no_quote (a : Ascii.ascii) : bool := negb (Ascii.eqb a quote_char).
Definition unquoted_start (s : string) : Prop := match s with String a _ => a <> quote_char | EmptyString => True end.

Lemma text_app_assoc (a b c : string) : (a +:+ b) +:+ c = a +:+ (b +:+ c).
Proof. induction a as [|x a IH]; [done|]. exact (f_equal (String x) IH). Qed.
Lemma text_app_nil (a : string) : a +:+ EmptyString = a.
Proof. induction a as [|x a IH]; [done|]. exact (f_equal (String x) IH). Qed.
Lemma lex_code p acc r : all_chars no_quote p = true -> sql_lex false acc (p +:+ String quote_char r) = Code (acc +:+ p) :: sql_lex true EmptyString r.
Proof.
  revert acc. induction p as [|a p IH]; intros acc.
  - intros _. change (EmptyString +:+ String quote_char r) with (String quote_char r). cbn. by rewrite text_app_nil.
  - cbn [all_chars]. intros [Ha Hp]%andb_true_iff. change (String a p +:+ String quote_char r) with (String a (p +:+ String quote_char r)).
    cbn [sql_lex]. unfold no_quote in Ha. rewrite Ha, IH by done. rewrite text_app_assoc. done.
Qed.
Lemma lex_escaped s acc r : unquoted_start r -> sql_lex true acc (escape s +:+ String quote_char r) = Literal (acc +:+ s) :: sql_lex false EmptyString r.
Proof.
  intros Hr. revert acc. induction s as [|a s IH]; intros acc.
  - change (escape EmptyString +:+ String quote_char r) with (String quote_char r). cbn [sql_lex]. rewrite text_app_nil. destruct r as [|b r]; [done|].
    cbn in Hr. by destruct (Ascii.eqb_spec b quote_char).
  - cbn [escape]. destruct (Ascii.eqb_spec a quote_char) as [->|Ha].
    + change (String quote_char (String quote_char (escape s)) +:+ String quote_char r) with (String quote_char (String quote_char (escape s +:+ String quote_char r))).
      cbn [sql_lex]. rewrite Ascii.eqb_refl. cbn [negb]. rewrite IH, text_app_assoc. done.
    + change (String a (escape s) +:+ String quote_char r) with (String a (escape s +:+ String quote_char r)).
      cbn [sql_lex]. destruct (Ascii.eqb_spec a quote_char); [done|]. cbn [negb]. rewrite IH, text_app_assoc. done.
Qed.
Fixpoint scoped (pieces : list string) (name : string) : list token := match pieces with [] => [] | p :: more => Code p :: Literal name :: scoped more name end.
Lemma lex_names pieces name rest :
  Forall (fun p => all_chars no_quote p = true /\ unquoted_start p /\ p <> EmptyString) pieces -> unquoted_start rest ->
  sql_lex false EmptyString (with_names pieces (quoteSQLString name) rest) = scoped pieces name ++ sql_lex false EmptyString rest.
Proof.
  intros Hp Hr. induction Hp as [|p more (H1&H2&H3) Hm IH]; [done|]. cbn [with_names scoped]. unfold quoteSQLString.
  change (String quote_char (escape name +:+ String quote_char EmptyString) +:+ ?x) with (String quote_char ((escape name +:+ String quote_char EmptyString) +:+ x)).
  rewrite lex_code by done. cbn [app]. f_equal. rewrite text_app_assoc. change (String quote_char EmptyString +:+ ?x) with (String quote_char x).
  rewrite lex_escaped; [f_equal; exact IH|]. destruct Hm as [|q more' (_&Hq&Hne) _]; [exact Hr|]. cbn [with_names]. by destruct q.
Qed.

(** C32. However an agent is called, in the text that reaches the database each of
    the five places for its name is one literal that reads as the name, between
    the same pieces of code; what follows, the agent's own query included, is
    read from its start as code. *)
Theorem query_scope `{GoUpper} (agentName query : string) :
  sql_lex false EmptyString (rewriteQuery agentName query) =
    scoped cte_pieces agentName ++ sql_lex false EmptyString (cte_end +:+ user_part query).
Proof.
  apply lex_names; [|done]. unfold cte_pieces. repeat (apply Forall_cons; split; [split_and!; [by vm_compute|done|done]|]). constructor.
Qed.

(** ** Runs *)
Module QueryRuns.
Fixpoint upper_ascii (s : string) : string :=
  match s with
  | EmptyString => EmptyString
  | String a r => let n := Ascii.nat_of_ascii a in String (if ((97 <=? n) && (n <=? 122))%nat then Ascii.ascii_of_nat (n - 32) else a) (upper_ascii r)
  end.
#[local] Instance ascii_upper : GoUpper := {| ToUpper := upper_ascii |}.

(** The check does not look at the tables a query names: the tables of messages
    and of keys pass it, and the views that scope a query to the agent are only
    offered. *)
Theorem base_tables_pass :
  validateSQL "SELECT from_agent, to_agent, body FROM messages" = None /\ validateSQL "select name, api_key_hash from agents" = None /\
  exists head, rewriteQuery "bot" "SELECT body FROM messages;" = head +:+ "SELECT body FROM messages".
Proof. split; [by vm_compute|]. split; [by vm_compute|]. eexists (with_names cte_pieces (quoteSQLString "bot") cte_end). by vm_compute. Qed.
(** A text that mentions a blocked word is refused, and a statement hidden from
    the words by a line break is not. *)
Theorem words_not_statements :
  validateSQL "SELECT id FROM my_messages WHERE body = 'please update me'" = Some (QBlocked "UPDATE") /\
  validateSQL ("SELECT 1 FROM my_messages WHERE 'DROP" +:+ String (Ascii.ascii_of_nat 10) EmptyString +:+ "' = body") = None.
Proof. split; by vm_compute. Qed.
End QueryRuns.
