(* ===== verification/Actions.v ===== *)
(** * The catalogue of actions (internal/actions: types.go, registry.go, index.go)

    What the agents are told they can call, as data, the registry that finds an
    action by its name or category, and the index that ranks the actions for a
    query with BM25 over [float64].  The code examples hold double quotes; they
    are written here with backquotes, of which they hold none, and [dq] puts the
    quotes back.  [registry_exact]: the registry finds each action by its name.
    [search_ranked]: a search answers the best scored actions, the best first. *)
From S2P Require Import Prelude Prog Table Schema Messaging MessagingQueries Plugins Channels Retention MemoryTools Reactor Float64 Search SearchSpec.

(** ** The types (types.go) *)
Record Param := mkParam { Param_Name : string; Param_Type : string; Param_Description : string; Required : bool; Param_Default : string }.
Record CodeExample := mkExample { Ex_Description : string; Code : string }.
Record Action := mkAction {
  Action_Name : string; Category : string; Action_Description : string; Params : list Param; Returns : string; Examples : list CodeExample
}.
Fixpoint dq (s : string) : string :=
  match s with
  | EmptyString => EmptyString
  | String a r => String (if Ascii.eqb a (Ascii.ascii_of_nat 96) then Ascii.ascii_of_nat 34 else a) (dq r)
  end.

(** ** The actions (registry.go) *)
Definition action_my_status : Action :=
  mkAction "my_status" "messaging"
    "Get your complete status overview — identity, pending messages, channel mentions, system notifications, and statistics. Call this first when connecting to SynapBus."
    []
    "JSON with agent identity, direct_messages, mentions, system_notifications, channels, and stats"
    [
     mkExample "Check your full status on connect" (dq "call(`my_status`, {})")].
Definition action_send_message : Action :=
  mkAction "send_message" "messaging"
    "Send a direct message to another agent. Use discover_agents first to find available agents you can communicate with. For channel messages, use send_channel_message instead."
    [
     mkParam "to" "string" "Name of the recipient agent (required for DMs, omit for channel messages)" false ""; 
     mkParam "body" "string" "Message body text" true ""; 
     mkParam "subject" "string" "Conversation subject (optional)" false ""; 
     mkParam "priority" "number" "Message priority (1-10, default 5)" false "5"; 
     mkParam "metadata" "string" "JSON metadata object (optional)" false ""; 
     mkParam "channel_id" "number" "Channel ID for channel messages (optional)" false ""; 
     mkParam "reply_to" "number" "ID of the message to reply to (optional, for threading)" false ""]
    "JSON with message_id, conversation_id, and status"
    [
     mkExample "Send a direct message to another agent" (dq "call(`send_message`, {`to`: `data-processor`, `body`: `Please analyze the Q4 sales data`, `subject`: `Q4 Analysis`, `priority`: 7})")].
Definition action_read_inbox : Action :=
  mkAction "read_inbox" "messaging"
    "Peek at your message inbox. Idempotent and side-effect free by default — does not mark messages as read or change inbox state. Pass mark_read: true to advance the read pointer past the returned messages (legacy worker-queue behavior). To process messages with a lock, use claim_messages + mark_done instead."
    [
     mkParam "limit" "number" "Maximum number of messages to return (default 50)" false "50"; 
     mkParam "status_filter" "string" "Filter by message status: pending, processing, done, failed" false ""; 
     mkParam "include_read" "boolean" "Include previously read messages (default false)" false "false"; 
     mkParam "mark_read" "boolean" "Advance the read pointer past returned messages (default false; pure peek)" false "false"; 
     mkParam "min_priority" "number" "Minimum priority filter (1-10)" false ""; 
     mkParam "from_agent" "string" "Filter by sender agent name" false ""]
    "JSON with messages array and count"
    [
     mkExample "Peek at unread messages without consuming them" (dq "call(`read_inbox`, {})"); 
     mkExample "Read high-priority messages from a specific agent" (dq "call(`read_inbox`, {`min_priority`: 8, `from_agent`: `coordinator`})"); 
     mkExample "Legacy worker-queue: fetch unread and mark them read" (dq "call(`read_inbox`, {`mark_read`: true})")].
Definition action_claim_messages : Action :=
  mkAction "claim_messages" "messaging"
    "Atomically claim pending messages for processing"
    [mkParam "limit" "number" "Maximum number of messages to claim (default 10)" false "10"]
    "JSON with claimed messages array and count"
    [
     mkExample "Claim up to 5 messages for processing" (dq "call(`claim_messages`, {`limit`: 5})")].
Definition action_mark_done : Action :=
  mkAction "mark_done" "messaging"
    "Mark a claimed message as done or failed"
    [
     mkParam "message_id" "number" "ID of the message to mark" true ""; 
     mkParam "status" "string" "New status: 'done' or 'failed' (default 'done')" false "done"; 
     mkParam "reason" "string" "Failure reason (only for status='failed')" false ""]
    "JSON with message_id and status"
    [
     mkExample "Mark a message as successfully processed" (dq "call(`mark_done`, {`message_id`: 42})"); 
     mkExample "Mark a message as failed with reason" (dq "call(`mark_done`, {`message_id`: 42, `status`: `failed`, `reason`: `invalid data format`})")].
Definition action_search_messages : Action :=
  mkAction "search_messages" "messaging"
    "Search for messages across your inbox and channels you are a member of. Supports full-text and semantic search (if configured). Use with an empty query to browse recent messages, or provide a natural-language query to find relevant conversations."
    [
     mkParam "query" "string" "Search query string — supports natural language for semantic search" false ""; 
     mkParam "limit" "number" "Maximum results to return (default 10, max 100)" false "10"; 
     mkParam "min_priority" "number" "Minimum priority filter (1-10)" false ""; 
     mkParam "from_agent" "string" "Filter by sender agent name" false ""; 
     mkParam "status" "string" "Filter by message status" false ""; 
     mkParam "search_mode" "string" "Search mode: 'auto' (default), 'semantic', or 'fulltext'" false "auto"; 
     mkParam "semantic" "boolean" "Force semantic search (shorthand for search_mode='semantic')" false ""]
    "JSON with results array, count, and search_mode used"
    [
     mkExample "Search for messages about deployment" (dq "call(`search_messages`, {`query`: `deployment status update`, `limit`: 5})")].
Definition action_discover_agents : Action :=
  mkAction "discover_agents" "messaging"
    "Discover other agents on the bus. Call this to find agents you can communicate with. Optionally filter by capability keywords, or omit the query to list all registered agents."
    [mkParam "query" "string" "Capability keyword to search for" false ""]
    "JSON with agents array (name, display_name, type, capabilities, status) and count"
    [
     mkExample "List all available agents" (dq "call(`discover_agents`, {})"); 
     mkExample "Find agents with data analysis capabilities" (dq "call(`discover_agents`, {`query`: `data analysis`})")].
Definition action_create_channel : Action :=
  mkAction "create_channel" "channels"
    "Create a new channel for group communication"
    [
     mkParam "name" "string" "Unique channel name (alphanumeric, hyphens, underscores, max 64 chars)" true ""; 
     mkParam "description" "string" "Channel description" false ""; 
     mkParam "topic" "string" "Current channel topic" false ""; 
     mkParam "type" "string" "Channel type: 'standard', 'blackboard', or 'auction' (default 'standard')" false "standard"; 
     mkParam "is_private" "boolean" "Whether the channel is private (invite-only). Default false" false "false"]
    "JSON with channel_id, name, description, topic, type, is_private, created_by"
    [
     mkExample "Create a public channel for project discussion" (dq "call(`create_channel`, {`name`: `project-alpha`, `description`: `Discussion for Project Alpha`, `topic`: `Sprint planning`})")].
Definition action_join_channel : Action :=
  mkAction "join_channel" "channels"
    "Join a channel to participate in group conversations. You will receive messages sent to the channel after joining. Use list_channels first to see available channels."
    [
     mkParam "channel_id" "number" "ID of the channel to join" false ""; 
     mkParam "channel_name" "string" "Name of the channel to join (alternative to channel_id)" false ""]
    "JSON with channel_id and status 'joined'"
    [
     mkExample "Join a channel by name" (dq "call(`join_channel`, {`channel_name`: `project-alpha`})")].
Definition action_leave_channel : Action :=
  mkAction "leave_channel" "channels"
    "Leave a channel you are a member of"
    [
     mkParam "channel_id" "number" "ID of the channel to leave" false ""; 
     mkParam "channel_name" "string" "Name of the channel to leave (alternative to channel_id)" false ""]
    "JSON with channel_id and status 'left'"
    [
     mkExample "Leave a channel by name" (dq "call(`leave_channel`, {`channel_name`: `project-alpha`})")].
Definition action_list_channels : Action :=
  mkAction "list_channels" "channels"
    "List all channels visible to you. Call this when connecting to see available channels and join conversations. Shows all public channels plus private channels you are a member of or have been invited to."
    []
    "JSON with channels array (id, name, description, topic, type, is_private, created_by, member_count) and count"
    [
     mkExample "List all available channels" (dq "call(`list_channels`, {})")].
Definition action_invite_to_channel : Action :=
  mkAction "invite_to_channel" "channels"
    "Invite an agent to a channel (only the channel owner can invite to private channels)"
    [
     mkParam "channel_id" "number" "ID of the channel" false ""; 
     mkParam "channel_name" "string" "Name of the channel (alternative to channel_id)" false ""; 
     mkParam "agent_name" "string" "Name of the agent to invite" true ""]
    "JSON with channel_id, agent_name, and status 'invited'"
    [
     mkExample "Invite an agent to a private channel" (dq "call(`invite_to_channel`, {`channel_name`: `secret-ops`, `agent_name`: `data-processor`})")].
Definition action_kick_from_channel : Action :=
  mkAction "kick_from_channel" "channels"
    "Remove an agent from a channel (only the channel owner can kick)"
    [
     mkParam "channel_id" "number" "ID of the channel" false ""; 
     mkParam "channel_name" "string" "Name of the channel (alternative to channel_id)" false ""; 
     mkParam "agent_name" "string" "Name of the agent to kick" true ""]
    "JSON with channel_id, agent_name, and status 'kicked'"
    [
     mkExample "Remove an agent from a channel" (dq "call(`kick_from_channel`, {`channel_name`: `project-alpha`, `agent_name`: `spambot`})")].
Definition action_get_channel_messages : Action :=
  mkAction "get_channel_messages" "channels"
    "Get recent messages from a channel you are a member of"
    [
     mkParam "channel_id" "number" "ID of the channel" false ""; 
     mkParam "channel_name" "string" "Name of the channel (alternative to channel_id)" false ""; 
     mkParam "limit" "number" "Max number of messages to return (default 50, max 200)" false "50"]
    "JSON with channel_id, messages array, and count"
    [
     mkExample "Get recent messages from a channel" (dq "call(`get_channel_messages`, {`channel_name`: `project-alpha`, `limit`: 20})")].
Definition action_send_channel_message : Action :=
  mkAction "send_channel_message" "channels"
    "Send a message to all members of a channel. Use @agentname in the body to mention specific agents. You must be a member of the channel to send messages."
    [
     mkParam "channel_id" "number" "ID of the channel" false ""; 
     mkParam "channel_name" "string" "Name of the channel (alternative to channel_id)" false ""; 
     mkParam "body" "string" "Message body text" true ""; 
     mkParam "priority" "number" "Message priority (1-10, default 5)" false "5"; 
     mkParam "metadata" "string" "JSON metadata object (optional)" false ""; 
     mkParam "reply_to" "number" "Message ID to reply to (creates a thread)" false ""]
    "JSON with channel_id, message_id, and status 'sent'"
    [
     mkExample "Send a message to a channel with a mention" (dq "call(`send_channel_message`, {`channel_name`: `project-alpha`, `body`: `Hey @coordinator, the build is ready for review`})")].
Definition action_update_channel : Action :=
  mkAction "update_channel" "channels"
    "Update channel topic or description (only the channel owner can update)"
    [
     mkParam "channel_id" "number" "ID of the channel" false ""; 
     mkParam "channel_name" "string" "Name of the channel (alternative to channel_id)" false ""; 
     mkParam "topic" "string" "New channel topic" false ""; 
     mkParam "description" "string" "New channel description" false ""]
    "JSON with channel_id, name, description, and topic"
    [
     mkExample "Update a channel's topic" (dq "call(`update_channel`, {`channel_name`: `project-alpha`, `topic`: `v2.0 release planning`})")].
Definition action_post_task : Action :=
  mkAction "post_task" "swarm"
    "Post a task to an auction channel for agents to bid on. Use when you need work done by another agent with specific capabilities. FLOW: post_task → agents call bid_task → you call accept_bid to assign → agent calls complete_task when done."
    [
     mkParam "channel_name" "string" "Name of the auction channel" true ""; 
     mkParam "title" "string" "Task title" true ""; 
     mkParam "description" "string" "Task description" false ""; 
     mkParam "requirements" "string" "JSON object of task requirements" false ""; 
     mkParam "deadline" "string" "Task deadline in ISO 8601 format (e.g. 2026-03-13T15:00:00Z)" false ""]
    "JSON with task_id, channel_id, title, status, posted_by, deadline, created_at"
    [
     mkExample "Post a data analysis task to an auction channel" (dq "call(`post_task`, {`channel_name`: `task-marketplace`, `title`: `Analyze Q4 revenue`, `description`: `Run trend analysis on Q4 revenue data`, `deadline`: `2026-03-20T17:00:00Z`})")].
Definition action_bid_task : Action :=
  mkAction "bid_task" "swarm"
    "Submit a bid on an open task. Include your relevant capabilities and time estimate. The task poster will review bids and accept one. Check list_tasks with status='open' to find tasks you can bid on."
    [
     mkParam "task_id" "number" "ID of the task to bid on" true ""; 
     mkParam "capabilities" "string" "JSON object describing your relevant capabilities" false ""; 
     mkParam "time_estimate" "string" "Estimated time to complete the task" false ""; 
     mkParam "message" "string" "Message to the task poster explaining your bid" false ""]
    "JSON with bid_id, task_id, agent_name, time_estimate, status"
    [
     mkExample "Bid on a task with capabilities and time estimate" (dq "call(`bid_task`, {`task_id`: 7, `capabilities`: `{\`skills\`: [\`data-analysis\`, \`python\`]}`, `time_estimate`: `2 hours`, `message`: `I have experience with revenue trend analysis`})")].
Definition action_accept_bid : Action :=
  mkAction "accept_bid" "swarm"
    "Accept a bid on a task you posted, assigning the task to the bidding agent"
    [
     mkParam "task_id" "number" "ID of the task" true ""; 
     mkParam "bid_id" "number" "ID of the bid to accept" true ""]
    "JSON with task_id, bid_id, and status 'accepted'"
    [
     mkExample "Accept a bid on your task" (dq "call(`accept_bid`, {`task_id`: 7, `bid_id`: 3})")].
Definition action_complete_task : Action :=
  mkAction "complete_task" "swarm"
    "Mark a task as completed (only the assigned agent can do this)"
    [mkParam "task_id" "number" "ID of the task to complete" true ""]
    "JSON with task_id and status 'completed'"
    [
     mkExample "Mark an assigned task as completed" (dq "call(`complete_task`, {`task_id`: 7})")].
Definition action_list_tasks : Action :=
  mkAction "list_tasks" "swarm"
    "List tasks in an auction channel, optionally filtered by status"
    [
     mkParam "channel_name" "string" "Name of the auction channel" true ""; 
     mkParam "status" "string" "Filter by task status: open, assigned, completed, cancelled" false ""]
    "JSON with tasks array (id, title, description, status, posted_by, assigned_to, deadline, created_at) and count"
    [
     mkExample "List open tasks in an auction channel" (dq "call(`list_tasks`, {`channel_name`: `task-marketplace`, `status`: `open`})")].
Definition action_upload_attachment : Action :=
  mkAction "upload_attachment" "attachments"
    "Upload a file attachment. Content must be base64-encoded. Returns the SHA-256 hash for later retrieval. Upload first, then use the returned hash in send_message's attachments parameter to link it to a message. Max file size: 50MB."
    [
     mkParam "content" "string" "Base64-encoded file content" true ""; 
     mkParam "filename" "string" "Original filename (optional, used for MIME detection and display)" false ""; 
     mkParam "mime_type" "string" "MIME type override (optional, auto-detected from content if not provided)" false ""; 
     mkParam "message_id" "number" "Message ID to attach the file to (optional, can be linked later)" false ""]
    "JSON with hash, size, mime_type, original_filename"
    [
     mkExample "Upload a text file attachment" (dq "call(`upload_attachment`, {`content`: `SGVsbG8gV29ybGQ=`, `filename`: `hello.txt`, `mime_type`: `text/plain`})")].
Definition action_download_attachment : Action :=
  mkAction "download_attachment" "attachments"
    "Download an attachment by its SHA-256 hash. Returns base64-encoded content along with filename and MIME type metadata."
    [mkParam "hash" "string" "SHA-256 hash of the attachment" true ""]
    "JSON with hash, content (base64), original_filename, mime_type, size"
    [
     mkExample "Download an attachment by hash" (dq "call(`download_attachment`, {`hash`: `e3b0c44298fc1c149afbf4c8996fb92427ae41e4649b934ca495991b7852b855`})")].
Definition action_react : Action :=
  mkAction "react" "reactions"
    "Add or toggle a reaction on a message to signal workflow state. Reactions: approve (human approves work), reject (decline), in_progress (claim work — only one agent can claim per message), done (work complete), published (shipped, include URL in metadata). WORKFLOW: Use list_by_state to find work → react in_progress to claim → do the work → react done/published. Toggle: calling same reaction again removes it."
    [
     mkParam "message_id" "number" "ID of the message to react to" true ""; 
     mkParam "reaction" "string" "Reaction type: approve, reject, in_progress, done, published" true ""; 
     mkParam "metadata" "string" "JSON metadata object (optional)" false ""]
    "JSON with action ('added' or 'removed') and reaction details"
    [
     mkExample "Approve a message" (dq "call(`react`, {`message_id`: 42, `reaction`: `approve`})"); 
     mkExample "Toggle a reaction off (call same reaction again)" (dq "call(`react`, {`message_id`: 42, `reaction`: `approve`})")].
Definition action_unreact : Action :=
  mkAction "unreact" "reactions"
    "Remove a specific reaction. Use to release a claim (unreact in_progress) so another agent can pick up the work."
    [
     mkParam "message_id" "number" "ID of the message to remove reaction from" true ""; 
     mkParam "reaction" "string" "Reaction type to remove: approve, reject, in_progress, done, published" true ""]
    "JSON with message_id, reaction, and status 'removed'"
    [
     mkExample "Remove an approval reaction" (dq "call(`unreact`, {`message_id`: 42, `reaction`: `approve`})")].
Definition action_get_reactions : Action :=
  mkAction "get_reactions" "reactions"
    "Get all reactions and derived workflow state for a message. Returns: reactions array + workflow_state (proposed/approved/in_progress/rejected/done/published). Use to check if work is claimed before attempting to claim it."
    [mkParam "message_id" "number" "ID of the message to get reactions for" true ""]
    "JSON with reactions array and workflow_state"
    [
     mkExample "Get reactions and workflow state for a message" (dq "call(`get_reactions`, {`message_id`: 42})")].
Definition action_list_by_state : Action :=
  mkAction "list_by_state" "reactions"
    "List messages in a channel filtered by workflow state. Paginated — use limit and offset for large channels. States: proposed (new), approved (ready for work), in_progress (claimed), rejected, done, published."
    [
     mkParam "channel" "string" "Channel name" true ""; 
     mkParam "state" "string" "Workflow state to filter by: proposed, approved, in_progress, rejected, done, published" true ""; 
     mkParam "limit" "number" "Max messages to return (default 20, max 100)" false ""; 
     mkParam "offset" "number" "Skip first N messages for pagination (default 0)" false ""; 
     mkParam "include_messages" "boolean" "Include message bodies (default false). Bodies truncated to max_body_length chars." false ""; 
     mkParam "max_body_length" "number" "Max chars per message body when include_messages=true (default 500). Use lower values for channels with long messages." false ""]
    "JSON with message_ids, count (this page), total (all matching), limit, offset, and optionally messages array"
    [
     mkExample "List first 10 approved messages with content" (dq "call(`list_by_state`, {`channel`: `approvals`, `state`: `approved`, `limit`: 10, `include_messages`: true})"); 
     mkExample "Paginate — get next page" (dq "call(`list_by_state`, {`channel`: `approvals`, `state`: `proposed`, `limit`: 10, `offset`: 10})")].
Definition action_get_replies : Action :=
  mkAction "get_replies" "threads"
    "Get all replies (thread messages) for a given message. Use to read thread conversations, check for edits, or follow-up comments. Also available as a direct MCP tool."
    [mkParam "message_id" "number" "ID of the parent message to get replies for" true ""]
    "JSON with message_id, replies array, and count"
    [
     mkExample "Get all replies to a message" (dq "call(`get_replies`, {`message_id`: 42})")].
Definition action_get_trust : Action :=
  mkAction "get_trust" "trust"
    "Get your trust scores by action type. Trust determines autonomy: higher trust = less human approval needed. Scores increase on human approve (+0.05) and decrease on reject (-0.1). Check trust before acting autonomously on channels with publish_threshold or approve_threshold settings."
    [mkParam "agent_name" "string" "Agent name to query (defaults to calling agent)" false ""]
    "JSON with agent_name and scores map (action_type -> score)"
    [
     mkExample "Get your own trust scores" (dq "call(`get_trust`, {})"); 
     mkExample "Get another agent's trust scores" (dq "call(`get_trust`, {`agent_name`: `research-mcpproxy`})")].
Definition action_query : Action :=
  mkAction "query" "data"
    "Execute a read-only SQL query against your accessible messages, channels, and reactions. Use tables: my_messages (your DMs + joined channels), my_channels (channels you are in), channel_messages (messages in your channels). Results are limited to 100 rows. Only SELECT statements are allowed."
    [mkParam "sql" "string" "SQL SELECT query. Available tables: my_messages (id, body, from_agent, to_agent, priority, status, metadata, created_at, channel_name), my_channels (id, name, description, type), channel_messages (id, body, from_agent, priority, channel_name, created_at). CTEs (WITH) are supported." true ""]
    "JSON with columns (array of column names), rows (array of row arrays), row_count, and truncated (boolean if > 100 rows)"
    [
     mkExample "Find high-priority messages in a channel" (dq "call(`query`, {`sql`: `SELECT id, body, from_agent, priority FROM channel_messages WHERE channel_name = 'news-mcpproxy' AND priority >= 7 ORDER BY created_at DESC LIMIT 10`})"); 
     mkExample "List your channels" (dq "call(`query`, {`sql`: `SELECT name, description FROM my_channels ORDER BY name`})"); 
     mkExample "Count messages per channel" (dq "call(`query`, {`sql`: `SELECT channel_name, COUNT(*) as msg_count FROM channel_messages GROUP BY channel_name ORDER BY msg_count DESC`})"); 
     mkExample "Search messages with keyword" (dq "call(`query`, {`sql`: `SELECT id, body, from_agent, created_at FROM my_messages WHERE body LIKE '%MCP%' ORDER BY created_at DESC LIMIT 20`})")].
Definition action_create_article : Action :=
  mkAction "create_article" "wiki"
    "Create a new wiki article. Articles are living markdown documents that agents maintain collaboratively. Use [[slug]] syntax in the body to create backlinks to other articles."
    [
     mkParam "slug" "string" "URL-friendly identifier (lowercase, hyphens, 2-100 chars). e.g. 'mcp-gateway-competitors'" true ""; 
     mkParam "title" "string" "Human-readable article title" true ""; 
     mkParam "body" "string" "Markdown article body. Use [[other-slug]] or [[other-slug|Display Text]] for wiki links" true ""]
    "Created article with id, slug, title, revision, created_at"
    [
     mkExample "Create an article about MCP security" (dq "call(`create_article`, {`slug`: `mcp-security-landscape`, `title`: `MCP Security Landscape`, `body`: `# MCP Security\n\nRelated: [[mcp-gateway-competitors]] and [[a2a-protocols]]`})")].
Definition action_get_article : Action :=
  mkAction "get_article" "wiki"
    "Get a wiki article by its slug. Returns the current revision with metadata and backlinks."
    [
     mkParam "slug" "string" "Article slug to retrieve" true ""; 
     mkParam "include_history" "boolean" "Include revision history (default false)" false ""]
    "Article with body, metadata, outgoing links, backlinks, and optional revision history"
    [
     mkExample "Read an article" (dq "call(`get_article`, {`slug`: `mcp-security-landscape`})")].
Definition action_update_article : Action :=
  mkAction "update_article" "wiki"
    "Update a wiki article's body and/or title. Creates a new revision (previous content preserved in history). Re-extracts [[backlinks]] from the new body."
    [
     mkParam "slug" "string" "Article slug to update" true ""; 
     mkParam "body" "string" "New markdown body" true ""; 
     mkParam "title" "string" "New title (optional, keeps current if omitted)" false ""]
    "Updated article with new revision number"
    [
     mkExample "Add a section to an existing article" (dq "call(`update_article`, {`slug`: `mcp-security-landscape`, `body`: `# MCP Security\n\n## New Findings\n\n...`})")].
Definition action_list_articles : Action :=
  mkAction "list_articles" "wiki"
    "List or search wiki articles. Without a query, returns all articles sorted by last updated. With a query, searches titles and bodies using full-text search."
    [
     mkParam "query" "string" "Search query (optional). Searches article titles and bodies." false ""; 
     mkParam "limit" "number" "Max results (default 50, max 200)" false ""]
    "Array of article summaries with slug, title, revision, updated_at, word_count"
    [
     mkExample "Search for security-related articles" (dq "call(`list_articles`, {`query`: `security vulnerability`, `limit`: 10})")].
Definition action_get_backlinks : Action :=
  mkAction "get_backlinks" "wiki"
    "Get all articles that link to a given article via [[slug]] references. Useful for understanding how an article is connected in the knowledge graph."
    [mkParam "slug" "string" "Article slug to find backlinks for" true ""]
    "Array of article summaries that contain [[slug]] links to this article"
    [
     mkExample "Find articles linking to mcp-security" (dq "call(`get_backlinks`, {`slug`: `mcp-security-landscape`})")].
Definition action_post_auction : Action :=
  mkAction "post_auction" "marketplace"
    "Post an auction task to an auction-type channel (spec 016 / US1). Agents bid on the task and the poster awards one bid. Include max_budget_tokens and at least one domain tag so reputation can be scoped when the task completes."
    [
     mkParam "channel_name" "string" "Name of the auction channel" true ""; 
     mkParam "title" "string" "Short task title" true ""; 
     mkParam "description" "string" "Task description" false ""; 
     mkParam "acceptance_criteria" "string" "What success looks like" false ""; 
     mkParam "max_budget_tokens" "number" "Maximum token budget for the winning agent" false ""; 
     mkParam "domains" "string" "Comma-separated domain tags (e.g. 'data-analysis,python') or JSON array" false ""; 
     mkParam "difficulty_weight" "number" "Difficulty multiplier for reputation scoring (default 1.0)" false ""; 
     mkParam "deadline" "string" "ISO 8601 deadline" false ""]
    "JSON with task_id, channel_id, title, status, domains, max_budget_tokens, deadline"
    [
     mkExample "Post an auction for a data analysis task" (dq "call(`post_auction`, {`channel_name`: `task-marketplace`, `title`: `Q4 revenue analysis`, `description`: `Trend analysis with charts`, `domains`: `data-analysis,python`, `max_budget_tokens`: 8000, `deadline`: `2026-05-01T17:00:00Z`})")].
Definition action_bid : Action :=
  mkAction "bid" "marketplace"
    "Submit a bid on an auction task (spec 016 / US1). Include estimated_tokens, a confidence score in [0,1], a brief approach summary, and the revision of your capability manifest at time of bid."
    [
     mkParam "task_id" "number" "ID of the auction task" true ""; 
     mkParam "estimated_tokens" "number" "Your estimated token cost to complete the task" false ""; 
     mkParam "confidence" "number" "Self-reported confidence in 0.0..1.0" false ""; 
     mkParam "approach" "string" "Brief approach summary" false ""; 
     mkParam "manifest_revision" "number" "Revision of your capability manifest at time of bid" false ""; 
     mkParam "time_estimate" "string" "Optional human-readable time estimate" false ""]
    "JSON with bid_id, task_id, agent_name, status, estimated_tokens, confidence"
    [
     mkExample "Bid on task 42 with an 8k token estimate" (dq "call(`bid`, {`task_id`: 42, `estimated_tokens`: 4200, `confidence`: 0.9, `approach`: `Pandas + matplotlib`})")].
Definition action_award : Action :=
  mkAction "award" "marketplace"
    "Award an auction task to a specific bid (spec 016 / US1). Only the task poster can award. On award, the winning agent receives a high-priority DM they can process via the normal claim/process/done lifecycle."
    [
     mkParam "task_id" "number" "ID of the task" true ""; 
     mkParam "bid_id" "number" "ID of the winning bid" true ""]
    "JSON with task_id, bid_id, winner, claim_message_id, status"
    [
     mkExample "Award task 42 to bid 7" (dq "call(`award`, {`task_id`: 42, `bid_id`: 7})")].
Definition action_mark_task_done : Action :=
  mkAction "mark_task_done" "marketplace"
    "Mark an auction task done (spec 016 / US3). Only the assigned agent can call this. Records reputation ledger entries for each declared domain using the reported actual_tokens and success_score."
    [
     mkParam "task_id" "number" "ID of the assigned task" true ""; 
     mkParam "actual_tokens" "number" "Actual tokens spent" false ""; 
     mkParam "success_score" "number" "Self-reported success score in 0.0..1.0 (default 1.0)" false ""]
    "JSON with task_id, status, actual_tokens, success_score, reputation_entries"
    [
     mkExample "Mark task 42 completed with 3800 tokens spent" (dq "call(`mark_task_done`, {`task_id`: 42, `actual_tokens`: 3800, `success_score`: 1.0})")].
Definition action_read_skill_card : Action :=
  mkAction "read_skill_card" "marketplace"
    "Read an agent's capability manifest (spec 016 / US2). Capability manifests are versioned wiki articles at slug 'agent-<name>'. Returns exists=false if the agent has not published a manifest yet. Use create_article / update_article on slug 'agent-<your-name>' to publish or update your own."
    [mkParam "agent_name" "string" "Name of the agent whose manifest you want to read (defaults to caller)" false ""]
    "JSON with agent_name, exists, slug, title, body, revision, updated_at"
    [
     mkExample "Read another agent's skill card" (dq "call(`read_skill_card`, {`agent_name`: `data-processor`})")].
Definition action_query_reputation : Action :=
  mkAction "query_reputation" "marketplace"
    "Query the per-(agent, domain) reputation ledger (spec 016 / US3). Reputation is a vector — you must supply both agent and domain. Returns an aggregated summary and the most recent raw ledger entries."
    [
     mkParam "agent_name" "string" "Agent to query (defaults to caller)" false ""; 
     mkParam "domain" "string" "Domain tag to scope the query" true ""; 
     mkParam "limit" "number" "Max raw entries to return (default 20)" false ""]
    "JSON with agent_name, domain, summary (tasks_completed, avg_success_score, weighted_success_score, avg_estimated_tokens, avg_actual_tokens), recent_entries"
    [
     mkExample "Check an agent's reputation in data-analysis" (dq "call(`query_reputation`, {`agent_name`: `data-processor`, `domain`: `data-analysis`})")].
Definition allActions : list Action :=
  [action_my_status; action_send_message; action_read_inbox; action_claim_messages; action_mark_done; action_search_messages; action_discover_agents; action_create_channel; action_join_channel; action_leave_channel; action_list_channels; action_invite_to_channel; action_kick_from_channel; action_get_channel_messages; action_send_channel_message; action_update_channel; action_post_task; action_bid_task; action_accept_bid; action_complete_task; action_list_tasks; action_upload_attachment; action_download_attachment; action_react; action_unreact; action_get_reactions; action_list_by_state; action_get_replies; action_get_trust; action_query; action_create_article; action_get_article; action_update_article; action_list_articles; action_get_backlinks; action_post_auction; action_bid; action_award; action_mark_task_done; action_read_skill_card; action_query_reputation].

(** ** The registry *)
Record Registry := mkRegistry { reg_actions : gmap string Action; ordered : list Action }.
Definition register (r : Registry) (a : Action) : Registry := mkRegistry (<[Action_Name a := a]> (reg_actions r)) (ordered r ++ [a]).
Definition NewRegistry : Registry := foldl register (mkRegistry ∅ []) allActions.
Definition Get (r : Registry) (name : string) : option Action := reg_actions r !! name.
Definition List (r : Registry) : list Action := ordered r.
Definition ListByCategory (r : Registry) (category : string) : list Action := filter (fun a => String.eqb (Category a) category = true) (ordered r).

Lemma registered l r : NoDup (Action_Name <$> l) ->
  ordered (foldl register r l) = ordered r ++ l /\
  forall name, reg_actions (foldl register r l) !! name = match find (fun a => String.eqb (Action_Name a) name) l with Some a => Some a | None => reg_actions r !! name end.
Proof.
  revert r. induction l as [|a l IH]; intros r; cbn [foldl find fmap list_fmap]; [intros _; by rewrite app_nil_r|].
  intros [Ha Hl]%NoDup_cons. destruct (IH (register r a) Hl) as [-> Hf]. cbn [register ordered reg_actions] in *. split; [by rewrite <- (assoc_L (++))|].
  intros name. rewrite Hf. destruct (String.eqb_spec (Action_Name a) name) as [<-|Hne]; [|by rewrite lookup_insert_ne].
  destruct (find _ l) as [b|] eqn:Eb; [|by rewrite lookup_insert_eq].
  apply find_some in Eb as [Hb Eb%String.eqb_eq]. destruct Ha. rewrite <- Eb. apply list_elem_of_fmap_2, list_elem_of_In, Hb.
Qed.
(**  The registry holds the actions of the catalogue in their order, and finds
    an action by its name, the only one so called, or none. *)
Theorem registry_exact name a :
  List NewRegistry = allActions /\ (Get NewRegistry name = Some a <-> a ∈ allActions /\ Action_Name a = name).
Proof.
  assert (NoDup (Action_Name <$> allActions)) as Hnd by (apply (bool_decide_eq_true_1 (NoDup _)); by vm_compute).
  destruct (registered allActions (mkRegistry ∅ []) Hnd) as [Ho Hf]. split; [exact Ho|]. unfold Get, NewRegistry. rewrite Hf. cbn [reg_actions]. rewrite lookup_empty.
  destruct (find _ _) as [b|] eqn:Eb.
  - apply find_some in Eb as [Hb Eb%String.eqb_eq]. apply list_elem_of_In in Hb. split; [intros [= <-]; done|]. intros [Ha <-].
    f_equal. by apply (NoDup_fmap_unique Action_Name allActions).
  - split; [done|]. intros [Ha%list_elem_of_In <-]. pose proof (find_none _ _ Eb _ Ha) as Hn. cbv beta in Hn. by rewrite String.eqb_refl in Hn.
Qed.

(** ** The index (index.go) *)

(** [math.Log], and [sort.Slice]: with an order that is strict and weak on the
    elements, what comes later is never less. *)
Class MathLog := { math_Log : spec_float -> spec_float }.
Definition weak_on {A} (less : A -> A -> bool) (l : list A) : Prop :=
  (forall x y z, x ∈ l -> y ∈ l -> z ∈ l -> less x y = false -> less y z = false -> less x z = false) /\
  (forall x y, x ∈ l -> y ∈ l -> less x y = true -> less y x = false).
Class SortSlice := {
  sort_Slice : forall {A : Type}, (A -> A -> bool) -> list A -> list A;
  sort_perm : forall {A : Type} (less : A -> A -> bool) l, Permutation (sort_Slice less l) l;
  sort_sorted : forall {A : Type} (less : A -> A -> bool) l, weak_on less l -> StronglySorted (fun x y => less y x = false) (sort_Slice less l)
}.

Record Index := mkIndex { idx_actions : list Action; docs : list (list string); idf : gmap string spec_float; avgDL : spec_float }.
Record ranked := mkRanked { rk_Action : Action; rk_Score : spec_float }.
Definition half : spec_float := Eval vm_compute in f64_lit 1 2.
Definition k1 : spec_float := Eval vm_compute in f64_lit 12 10.
Definition k1_plus_1 : spec_float := Eval vm_compute in f64_lit 22 10.
Definition bm25_b : spec_float := Eval vm_compute in f64_lit 3 4.
Definition one_minus_b : spec_float := Eval vm_compute in f64_lit 1 4.

Definition termFrequency (tokens : list string) : gmap string Z := foldl (fun tf t => <[t := default 0 (tf !! t) + 1]> tf) ∅ tokens.
Definition underscore : Ascii.ascii := Ascii.ascii_of_nat 95.
Definition hyphen : Ascii.ascii := Ascii.ascii_of_nat 45.
Definition parts_at (sep : Ascii.ascii) (p : string) : list string :=
  if str_contains (String sep EmptyString) p then split_on sep p EmptyString else [].
Definition expand (p : string) : list string := p :: parts_at underscore p ++ parts_at hyphen p.

Section Index.
Context {HLow : GoUnicode} {HLog : MathLog} {HSort : SortSlice}.
Definition lower_fields (s : string) : list string := Fields (ToLower s).
Definition tokenize (a : Action) : list string :=
  let parts := lower_fields (Action_Name a) ++ lower_fields (Category a) ++ lower_fields (Action_Description a) ++
               (Params a ≫= fun p => lower_fields (Param_Name p) ++ lower_fields (Param_Description p)) in
  parts ≫= expand.
(** How many documents a term is in. *)
Definition document_frequency (ds : list (list string)) : gmap string Z :=
  foldl (fun df d => foldl (fun df t => <[t := default 0 (df !! t) + 1]> df) df (remove_dups d)) ∅ ds.
Definition idf_of (n : spec_float) (freq : Z) : spec_float :=
  math_Log (f64_add f64_one (f64_div (f64_add (f64_sub n (f64_of_Z freq)) half) (f64_add (f64_of_Z freq) half))).
Definition NewIndex (l : list Action) : Index :=
  let ds := tokenize <$> l in
  let n := f64_of_Z (Z.of_nat (length l)) in
  mkIndex l ds (idf_of n <$> document_frequency ds)
    (if f64_lt f64_zero n then f64_div (f64_of_Z (foldr Z.add 0 (Z.of_nat ∘ length <$> ds))) n else f64_zero).

(** The score of a document: the terms of the query one after the other. *)
Definition term_score (idx : Index) (dl : spec_float) (tf : gmap string Z) (score : spec_float) (qt : string) : spec_float :=
  let freq := default 0 (tf !! qt) in
  if freq =? 0 then score
  else
    let freq := f64_of_Z freq in
    let numerator := f64_mul freq k1_plus_1 in
    let denominator := f64_add freq (f64_mul k1 (f64_add one_minus_b (f64_div (f64_mul bm25_b dl) (avgDL idx)))) in
    f64_add score (f64_div (f64_mul (default f64_zero (idf idx !! qt)) numerator) denominator).
Definition doc_score (idx : Index) (queryTerms tokens : list string) : spec_float :=
  foldl (term_score idx (f64_of_Z (Z.of_nat (length tokens))) (termFrequency tokens)) f64_zero queryTerms.
Definition clamp_limit (limit : Z) : Z := let limit := if limit <=? 0 then 5 else limit in if 20 <? limit then 20 else limit.
Definition scored_docs (idx : Index) (queryTerms : list string) : list ranked :=
  filter (fun r => f64_lt f64_zero (rk_Score r) = true) (zip_with (fun a d => mkRanked a (doc_score idx queryTerms d)) (idx_actions idx) (docs idx)).
Definition Search (idx : Index) (query : string) (limit : Z) : list ranked :=
  let limit := Z.to_nat (clamp_limit limit) in
  if str_empty (trim_space query) then take limit ((fun a => mkRanked a f64_zero) <$> idx_actions idx)
  else take limit (sort_Slice (fun x y => f64_lt (rk_Score y) (rk_Score x)) (scored_docs idx (Fields (ToLower query)))).

(** ** What a search answers *)
Lemma positive_number x : f64_lt f64_zero x = true -> f64_is_nan x = false.
Proof. by destruct x. Qed.
Lemma scores_weak l : Forall (fun r => f64_lt f64_zero (rk_Score r) = true) l -> weak_on (fun x y => f64_lt (rk_Score y) (rk_Score x)) l.
Proof.
  rewrite Forall_forall. intros Hl. assert (forall x, x ∈ l -> f64_is_nan (rk_Score x) = false) as Hn by (intros x Hx; apply positive_number; by apply (Hl x)).
  split.
  - intros x y z Hx Hy Hz H1%f64_not_lt_le H2%f64_not_lt_le; auto. apply f64_le_not_lt. by eapply f64_le_trans.
  - intros x y Hx Hy H%f64_lt_le. by apply f64_le_not_lt.
Qed.

Lemma sorted_numbers l : (forall x, x ∈ l -> f64_is_nan (rk_Score x) = false) ->
  StronglySorted (fun x y => f64_lt (rk_Score x) (rk_Score y) = false) l -> StronglySorted (fun x y => f64_le (rk_Score y) (rk_Score x) = true) l.
Proof.
  intros Hn. induction 1 as [|x l Hs IH Hx]; constructor.
  - apply IH. intros y Hy. apply Hn. by right.
  - rewrite Forall_forall in Hx |- *. intros y Hy. apply f64_not_lt_le; [apply Hn; by left|apply Hn; by right|by apply Hx].
Qed.

(**  A search answers no more than asked for, five by default and twenty at
    most; with words in the query it answers actions that score above zero, the
    best first, and what it leaves out scores no better than what it answers. *)
Theorem search_ranked idx query limit :
  (length (Search idx query limit) <= Z.to_nat (clamp_limit limit))%nat /\
  (trim_space query <> EmptyString ->
    exists rest, Permutation (Search idx query limit ++ rest) (scored_docs idx (Fields (ToLower query))) /\
      StronglySorted (fun x y => f64_le (rk_Score y) (rk_Score x) = true) (Search idx query limit) /\
      (rest <> [] -> length (Search idx query limit) = Z.to_nat (clamp_limit limit)) /\
      forall x y, x ∈ Search idx query limit -> y ∈ rest -> f64_le (rk_Score y) (rk_Score x) = true).
Proof.
  unfold Search. split; [by destruct (str_empty _); rewrite length_take; lia|]. intros Hq. destruct (str_empty (trim_space query)) eqn:E; [by apply bool_decide_eq_true in E|]. clear E.
  set (l := scored_docs idx (Fields (ToLower query))). set (less := fun x y => f64_lt (rk_Score y) (rk_Score x)). set (n := Z.to_nat (clamp_limit limit)).
  assert (Forall (fun r => f64_lt f64_zero (rk_Score r) = true) l) as Hpos by (apply Forall_forall; by intros x [Hx _]%list_elem_of_filter).
  assert (StronglySorted (fun x y => f64_le (rk_Score y) (rk_Score x) = true) (sort_Slice less l)) as Hs.
  { pose proof (sort_sorted less l (scores_weak l Hpos)) as Hs. assert (forall x, x ∈ sort_Slice less l -> f64_is_nan (rk_Score x) = false) as Hn.
    { intros x Hx. apply positive_number. rewrite Forall_forall in Hpos. apply Hpos. by rewrite <- (sort_perm less l). }
    by apply (sorted_numbers _ Hn). }
  rewrite <- (take_drop n (sort_Slice less l)) in Hs. apply StronglySorted_app in Hs as (Hacross&H1&_).
  exists (drop n (sort_Slice less l)). split_and!; [by rewrite take_drop, sort_perm|done| |by intros x y Hx Hy; apply Hacross].
  intros Hr. rewrite length_take. destruct (decide (length (sort_Slice less l) <= n)%nat) as [Hle|]; [|lia]. by rewrite drop_ge in Hr.
Qed.
End Index.

(** ** Runs *)
Module CatalogueRuns.
Fixpoint insert_by {A} (less : A -> A -> bool) (x : A) (l : list A) : list A :=
  match l with [] => [x] | y :: r => if less x y then x :: y :: r else y :: insert_by less x r end.
Definition sort_by {A} (less : A -> A -> bool) (l : list A) : list A := foldr (insert_by less) [] l.
Lemma insert_by_perm {A} (less : A -> A -> bool) x l : Permutation (insert_by less x l) (x :: l).
Proof. induction l as [|y l IH]; cbn; [done|]. destruct (less x y); [done|]. rewrite IH. apply Permutation_swap. Qed.
Lemma sort_by_perm {A} (less : A -> A -> bool) l : Permutation (sort_by less l) l.
Proof. induction l as [|x l IH]; cbn; [done|]. by rewrite insert_by_perm, IH. Qed.
Lemma insert_by_sorted {A} (less : A -> A -> bool) x l : weak_on less (x :: l) ->
  StronglySorted (fun x y => less y x = false) l -> StronglySorted (fun x y => less y x = false) (insert_by less x l).
Proof.
  intros [Hn Ha]. induction 1 as [|y l Hs IH Hy]; cbn; [repeat constructor|].
  rewrite Forall_forall in Hy. destruct (less x y) eqn:E.
  - constructor; [constructor; [done|by apply Forall_forall]|]. apply Forall_forall. intros z Hz.
    assert (less y x = false) as E' by (apply Ha; [by left|by right; left|done]). apply elem_of_cons in Hz as [->|Hz]; [done|].
    apply (Hn z y x); [by right; right|by right; left|by left|by apply Hy|done].
  - constructor.
    + apply IH; [intros u v w Hu Hv Hw; apply Hn|intros u v Hu Hv; apply Ha];
        apply elem_of_cons; rewrite ?elem_of_cons in *; set_solver.
    + apply Forall_forall. intros z Hz. rewrite insert_by_perm in Hz. apply elem_of_cons in Hz as [->|Hz]; [done|by apply Hy].
Qed.
Lemma sort_by_sorted {A} (less : A -> A -> bool) l : weak_on less l -> StronglySorted (fun x y => less y x = false) (sort_by less l).
Proof.
  induction l as [|x l IH]; [constructor|]. intros [Hn Ha]. apply (insert_by_sorted less x (sort_by less l)).
  - split; [intros u v w|intros u v]; rewrite (sort_by_perm less l); [apply Hn|apply Ha].
  - apply IH. split; [intros u v w Hu Hv Hw; apply Hn; by right|intros u v Hu Hv; apply Ha; by right].
Qed.
#[local] Instance insertion : SortSlice := {| sort_Slice := @sort_by; sort_perm := @sort_by_perm; sort_sorted := @sort_by_sorted |}.
#[local] Instance ascii_lower : GoUnicode := {| ToLower := sql_lower; ToLower_ascii := fun s _ => eq_refl |}.
(** Between 1 and 40 the logarithm of the base two, rounded down, will do. *)
#[local] Instance binary_log : MathLog := {| math_Log x := match x with S754_finite false m e => f64_of_Z (Z.log2 (Z.pos m) + e) | _ => f64_zero end |}.

Definition index : Index := NewIndex (take 12 allActions).
Definition names (l : list ranked) : list string := (fun r => Action_Name (rk_Action r)) <$> l.
Lemma inbox_first : names (Search index "inbox" 2) = ["read_inbox"; "search_messages"].
Proof. by vm_compute. Qed.

Lemma search_ranked_witness : exists rest,
  Permutation (Search index "inbox" 2 ++ rest) (scored_docs index (Fields (ToLower "inbox"))).
Proof. destruct (search_ranked index "inbox" 2) as [_ H]. destruct H as (rest&Hp&_); [by vm_compute|]. by exists rest. Defined.

(** The comment counts 33 actions; the catalogue has 41. *)
Lemma forty_one_actions : length allActions = 41%nat.
Proof. done. Qed.
(** Without a query the comment promises all actions; five are answered, and
    twenty at most. *)
Lemma browsing_is_limited : length (Search index "" 0) = 5%nat /\ length (Search (NewIndex allActions) "" 1000) = 20%nat.
Proof. by vm_compute. Qed.
End CatalogueRuns.
