(* ===== verification/Bridge.v ===== *)
(** * The actions' bridge and the tools (internal/mcp: bridge.go, marketplace.go,
    tools_hybrid.go)

    What [call(name, args)] does for the agent that runs the code: the names,
    the aliases and the suggestion for a wrong name, the reading of the
    arguments, and each action on the services; then the tools an agent calls
    directly, whose arguments the protocol's library has read.  The state is that of
    [Marketplace], which holds the other components.  An answer is the map the
    code builds, key by key; a service that is not configured is a flag. *)
From stdpp Require Import pretty.
From S2P Require Import Prelude Prog Table Schema Messaging MessagingQueries Agents Channels Auction Attachments Trust Reactions Retention MemoryTools Reactor Float64 Search Embeddings AuthHandlers Wiki Gateway Marketplace AgentQuery Web.

(** ** Names (bridge.go) *)
Definition bridgeActionAliases : list (string * string) :=
  [("read_channel", "get_channel_messages"); ("search", "search_messages"); ("read_dm", "read_inbox"); ("my_status", "read_inbox"); ("read_article", "get_article")].
Definition bridgeTopLevelOnly : list (string * string) :=
  [("rewrite_core_memory", "memory_rewrite_core"); ("memory_rewrite_core", "memory_rewrite_core")].
Definition knownBridgeActions : list string :=
  ["read_inbox"; "claim_messages"; "mark_done"; "search_messages"; "discover_agents"; "send_message";
   "create_channel"; "join_channel"; "leave_channel"; "list_channels"; "invite_to_channel"; "kick_from_channel"; "get_channel_messages";
   "send_channel_message"; "update_channel"; "post_task"; "bid_task"; "accept_bid"; "complete_task"; "list_tasks";
   "upload_attachment"; "download_attachment"; "react"; "unreact"; "get_reactions"; "list_by_state"; "get_replies"; "get_trust"; "query";
   "create_article"; "get_article"; "update_article"; "list_articles"; "get_backlinks";
   "post_auction"; "bid"; "award"; "mark_task_done"; "read_skill_card"; "query_reputation"].
Definition assoc {A} (key : string) (l : list (string * A)) : option A := snd <$> find (fun kv => String.eqb (fst kv) key) l.

(** The first byte of a text up to an underscore. *)
Fixpoint leadingVerb (s : string) : string :=
  match s with
  | EmptyString => EmptyString
  | String a r => if Ascii.eqb a (Ascii.ascii_of_nat 95) then EmptyString else String a (leadingVerb r)
  end.

(** One row of the table: [prev] is the row above, [left] the entry before;
    [prev] starts with the entry above the one before. *)
Fixpoint fill (c : Ascii.ascii) (a : list Ascii.ascii) (above : Z) (prev : list Z) (left_ : Z) : list Z :=
  match a, prev with
  | x :: a', p :: prev' =>
      let cost := if Ascii.eqb x c then 0 else 1 in
      let del := p + 1 in
      let ins := left_ + 1 in
      let sub := above + cost in
      let m := if ins <? del then ins else del in
      let m := if sub <? m then sub else m in
      m :: fill c a' p prev' m
  | _, _ => []
  end.
Fixpoint fill_rows (a : list Ascii.ascii) (prev : list Z) (j : Z) (b : list Ascii.ascii) : list Z :=
  match b with
  | [] => prev
  | c :: b' => fill_rows a (match prev with above :: prev' => j :: fill c a above prev' j | [] => [] end) (j + 1) b'
  end.
Definition edit_table (a b : list Ascii.ascii) : Z :=
  default 0 (last (fill_rows a (Z.of_nat <$> seq 0 (S (length a))) 1 b)).
Definition levenshtein (s t : string) : Z :=
  if String.eqb s t then 0
  else
    let a := String.list_ascii_of_string s in
    let b := String.list_ascii_of_string t in
    if (length a =? 0)%nat then Z.of_nat (length b)
    else if (length b =? 0)%nat then Z.of_nat (length a)
    else if (length b <? length a)%nat then edit_table b a else edit_table a b.

Section Suggest.
Context {HLow : GoUnicode}.
Definition nearer (lower : string) (best : Z * option string) (candidate : string) : Z * option string :=
  if negb (String.eqb (leadingVerb candidate) (leadingVerb lower)) then best
  else let d := levenshtein lower candidate in if d <? fst best then (d, Some candidate) else best.
Definition threshold (name : string) : Z := if (String.length name <=? 6)%nat then 2 else 3.
(** [None]: the empty text. *)
Definition suggestBridgeAction (name : string) : option string :=
  if str_empty name then None
  else
    let lower := ToLower name in
    match find (fun c => str_contains lower c || str_contains c lower) knownBridgeActions with
    | Some c => Some c
    | None =>
        let '(bestDist, best) := foldl (nearer lower) (threshold name + 1, None) knownBridgeActions in
        if bestDist <=? threshold name then best else None
    end.
End Suggest.

(** ** Arguments

    What the arguments of a call hold: [VInt] is an [int] or an [int64],
    [VNumber] a [json.Number], [VStrs] a [[]string]. *)
Inductive value := VNull | VBool (b : bool) | VInt (n : Z) | VFloat (x : spec_float) | VNumber (lexeme : string) | VStr (s : string)
  | VArr (l : list value) | VStrs (l : list string) | VObj (members : list (string * value)).
Abbreviation args := (gmap string value).

(** The text of a JSON value, a time in RFC 3339, base64, and the JSON an agent's
    capabilities are kept as. *)
Class BridgeText := {
  raw_of : string -> rawjson;
  raw_of_empty : raw_of EmptyString = RawEmpty;
  parse_RFC3339 : string -> option Z;
  base64_decode : string -> option string;
  base64_encode : string -> string;
  base64_round : forall s, base64_decode (base64_encode s) = Some s;
  capabilities_text : rawjson -> string
}.

Definition comma : Ascii.ascii := Ascii.ascii_of_nat 44.
Definition non_empty (l : list string) : list string := filter (fun s => s <> EmptyString) l.
Definition split_commas (s : string) : list string := non_empty (trim_space <$> split_on comma s EmptyString).
Definition as_text (v : value) : option string := match v with VStr s => Some s | _ => None end.

Section Arguments.
Context {HText : MarketText} {HBr : BridgeText}.
Definition getString (a : args) (key defaultVal : string) : string := match a !! key with Some (VStr s) => s | _ => defaultVal end.
Definition getInt (a : args) (key : string) (defaultVal : Z) : Z :=
  match a !! key with
  | Some (VInt n) => n
  | Some (VFloat x) => int_of_float x
  | Some (VNumber l) => default defaultVal (Atoi l)
  | _ => defaultVal
  end.
Definition getFloat (a : args) (key : string) (defaultVal : spec_float) : spec_float :=
  match a !! key with
  | Some (VFloat x) => x
  | Some (VInt n) => f64_of_Z n
  | Some (VNumber l) => default defaultVal (parse_float l)
  | _ => defaultVal
  end.
Definition getBool (a : args) (key : string) (defaultVal : bool) : bool := match a !! key with Some (VBool b) => b | _ => defaultVal end.
Definition positive (n : Z) : option Z := if 0 <? n then Some n else None.

(** The attachments of a message. *)
Definition attachment_hashes (a : args) : list string :=
  match a !! "attachments" with
  | Some (VStr s) => split_commas s
  | Some (VArr l) => non_empty (omap as_text l)
  | Some (VStrs l) => l
  | _ => []
  end.
(** An array of texts; a [null] in it is the empty text. *)
Definition json_text (v : json) : option string := match v with JStr s => Some s | JNull => Some EmptyString | _ => None end.
Definition json_strings (s : string) : option (list string) :=
  match raw_of s with RawJson (JArr l) => mapM json_text l | _ => None end.
Definition parseStringList (a : args) (key : string) : list string :=
  match a !! key with
  | Some (VStr x) =>
      let s := trim_space x in
      if str_empty s then []
      else match (if String.prefix "[" s then json_strings s else None) with
           | Some arr => non_empty (trim_space <$> arr)
           | None => split_commas s
           end
  | Some (VArr l) => non_empty (trim_space <$> omap as_text l)
  | Some (VStrs l) => non_empty (trim_space <$> l)
  | _ => []
  end.

(** The texts of the types. *)
Definition status_of (s : string) : MsgStatus :=
  if String.eqb s "pending" then StatusPending else if String.eqb s "processing" then StatusProcessing
  else if String.eqb s "done" then StatusDone else if String.eqb s "failed" then StatusFailed else StatusOther s.
Definition status_filter (s : string) : option MsgStatus := if str_empty s then None else Some (status_of s).
Definition channel_type_of (s : string) : ChannelType :=
  if String.eqb s "standard" then TypeStandard else if String.eqb s "blackboard" then TypeBlackboard
  else if String.eqb s "auction" then TypeAuction else TypeOther s.
Definition reaction_of (s : string) : ReactionType :=
  if String.eqb s "approve" then ReactionApprove else if String.eqb s "reject" then ReactionReject
  else if String.eqb s "in_progress" then ReactionInProgress else if String.eqb s "done" then ReactionDone
  else if String.eqb s "published" then ReactionPublished else if String.eqb s "awarded" then ReactionAwarded else ReactionOther s.
Definition state_of (s : string) : WorkflowState :=
  if String.eqb s "proposed" then StateProposed else if String.eqb s "approved" then StateApproved
  else if String.eqb s "in_progress" then StateInProgress else if String.eqb s "rejected" then StateRejected
  else if String.eqb s "done" then StateDone else if String.eqb s "published" then StatePublished
  else if String.eqb s "awarded" then StateAwarded else StateUnknown s.
End Arguments.

(** ** Answers *)
Inductive field :=
| FNil | FInt (n : Z) | FBool (b : bool) | FFloat (x : spec_float) | FStr (s : string) | FInts (l : list Z) | FStrs (l : list string)
| FTime (t : Z) | FMaybeTime (t : option Z) | FMaybeInt (n : option Z) | FRaw (r : rawjson)
| FStatus (s : MsgStatus) | FType (t : ChannelType) | FTaskStatus (s : TaskStatus) | FBidStatus (s : BidStatus) | FState (s : WorkflowState)
| FMessage (m : EnrichedMessage) | FMessages (l : list EnrichedMessage) | FAttachments (l : list Reactions.AttachmentInfo)
| FReactions (l : list Reaction) | FScores (m : gmap string spec_float)
| FArticles (l : list ArticleSummary) | FLinks (l : list ArticleLink) | FRevisions (l : list ArticleRevision)
| FSummaries (l : list ChannelSummary) | FSummary (s : ReputationSummary) | FEntries (l : list ReputationEntry)
| FMaps (l : list (list (string * field))).
Abbreviation answer := (list (string * field)).
Inductive bridge_error :=
| BMarket (e : market_error) | BQuery (e : query_error) | BUnavailable (service : string) | BMissing (param : string) | BNoChannel
| BStatusChoice | BNotMember | BInvalidJSON (what : string) | BDeadline | BNotAuction (t : ChannelType) | BTooLarge | BBase64
| BTopLevel (action real : string) | BUnknown (action : string) (suggestion : option string)
| BUnauthenticated | BNoTarget | BTwoTargets.

Record services := mkServices {
  channelService : bool; swarmService : bool; attachmentService : bool; searchService : bool; reactionService : bool; trustService : bool;
  wikiService : bool; marketplace : bool; queryExecutor : bool
}.

Section Bridge.
Context {HEng : Engine} {HJson : GoJson} {HLow : GoUnicode} {HFTS : FTS} {HProv : EmbeddingProvider} {HIdx : VectorIndex} {HErr : ErrorText}
  {HMap : GoMapOrder} {HSha : GoSha256} {HSniff : ContentSniffer} {HAFTS : ArticleFTS} {HFold : FoldEqual} {HText : MarketText} {HBr : BridgeText}
  {HUp : GoUpper} {HSql : SqlRunner market_db}.
Context (svc : services) (HasSemanticSearch notifier : bool) (agentName : string).
Inductive reply := RMap (m : answer) | RRows (r : QueryResult (D := market_db)).
Abbreviation K B := (prog market_db (outcome bridge_error B)).

Definition raised {E B} (f : E -> bridge_error) (r : outcome E B) : outcome bridge_error B :=
  match r with Ok b => Ok b | Err e => Err (f e) | Panic w => Panic w end.
Definition on_market {B} (p : prog market_db (outcome market_error B)) : K B := let! r := p in Ret (raised BMarket r).
Definition on_db {B} (p : M B) : K B := on_market (Marketplace.in_db p).
Definition on_wiki {B} (p : prog wiki_db (outcome wiki_error B)) : K B := on_market (in_wiki p).
Definition enrich (l : list Message) : K (list EnrichedMessage) := let! r := focus mk_db put_mk_db (EnrichMessages l) in Ret (Ok r).
Definition reply_with (m : answer) : K reply := Ret (Ok (RMap m)).
(** A service that is there, and a parameter that is. *)
Definition needs {B} (available : bool) (service : string) (k : K B) : K B := if available then k else Ret (Err (BUnavailable service)).
Definition text_param {B} (a : args) (key : string) (k : string -> K B) : K B :=
  let s := getString a key EmptyString in if str_empty s then Ret (Err (BMissing key)) else k s.
Definition id_param {B} (a : args) (key : string) (k : Z -> K B) : K B :=
  let n := getInt a key 0 in if n =? 0 then Ret (Err (BMissing key)) else k n.
(** A text that must be JSON; an empty one is none. *)
Definition json_param {B} (a : args) (key dflt : string) (k : rawjson -> K B) : K B :=
  let s := getString a key dflt in
  if str_empty s then k RawEmpty else if negb (json_Valid (raw_of s)) then Ret (Err (BInvalidJSON key)) else k (raw_of s).
Definition deadline_param {B} (a : args) (k : option Z -> K B) : K B :=
  let s := getString a "deadline" EmptyString in
  if str_empty s then k None else match parse_RFC3339 s with Some t => k (Some t) | None => Ret (Err BDeadline) end.
Definition resolveChannelID (a : args) : K Z :=
  match positive (getInt a "channel_id" 0) with
  | Some cid => Ret (Ok cid)
  | None =>
      let name := getString a "channel_name" EmptyString in
      if negb (str_empty name) then let? ch := on_db (GetChannelByName name) in Ret (Ok (Ch_ID ch)) else Ret (Err BNoChannel)
  end.
(** A nil service's store. *)
Definition channel_by_name (name : string) : K Channel :=
  if channelService svc then on_db (GetChannelByName name) else Ret (Panic "nil pointer dereference").

(** *** Messaging *)
Definition callSendMessage (a : args) : K reply :=
  let to := getString a "to" EmptyString in
  text_param a "body" (fun body =>
    let? msg := on_db (Messaging.SendMessage agentName to body
      (mkSendOptions (getString a "subject" EmptyString) (getInt a "priority" 5) (raw_of (getString a "metadata" EmptyString))
         (positive (getInt a "channel_id" 0)) None (positive (getInt a "reply_to" 0)) (attachment_hashes a))) in
    reply_with [("message_id", FInt (Msg_ID msg)); ("conversation_id", FInt (Msg_ConversationID msg)); ("status", FStatus (Status msg))]).
Definition inbox_args (a : args) : ReadOptions :=
  mkReadOptions (status_filter (getString a "status_filter" EmptyString)) (getString a "from_agent" EmptyString) None (getInt a "min_priority" 0)
    (getInt a "limit" 50) 0 None None (getBool a "include_read" false) (getBool a "mark_read" false).
Definition page_answer (p : PaginatedMessages) (l : list EnrichedMessage) : answer :=
  [("messages", FMessages l); ("count", FInt (Z.of_nat (length l))); ("total", FInt (pm_Total p)); ("offset", FInt (pm_Offset p)); ("limit", FInt (pm_Limit p))].
Definition callReadInbox (a : args) : K reply :=
  let? page := on_db (ReadInbox agentName (inbox_args a)) in
  let? l := enrich (pm_Messages page) in
  reply_with (page_answer page l).
Definition callClaimMessages (a : args) : K reply :=
  let? messages := on_db (ClaimMessages agentName (getInt a "limit" 10)) in
  let? l := enrich messages in
  reply_with [("messages", FMessages l); ("count", FInt (Z.of_nat (length l)))].
Definition callMarkDone (a : args) : K reply :=
  id_param a "message_id" (fun messageID =>
    let status := getString a "status" "done" in
    let? _ := (if String.eqb status "done" then on_db (Messaging.MarkDone messageID agentName)
               else if String.eqb status "failed" then on_db (Messaging.MarkFailed messageID agentName (getString a "reason" EmptyString))
               else Ret (Err BStatusChoice)) in
    reply_with [("message_id", FInt messageID); ("status", FStr status)]).
Definition unified_args (a : args) : UnifiedOptions :=
  mkUnifiedOptions (getString a "query" EmptyString) (getString a "search_mode" "auto") (getInt a "limit" 10) None (getString a "from_agent" EmptyString)
    (getInt a "min_priority" 0) None None (getFloat a "min_similarity" f64_zero).
Definition scored_field (key : string) (x : spec_float) : answer := if f64_lt f64_zero x then [(key, FFloat x)] else [].
Definition result_map (r : SearchResult) (m : EnrichedMessage) : answer :=
  [("message", FMessage m); ("match_type", FStr (MatchType r))] ++ scored_field "similarity_score" (SimilarityScore r) ++ scored_field "relevance_score" (RelevanceScore r).
Definition fulltext_args (a : args) : SearchOptions :=
  mkSearchOptions (getString a "from_agent" EmptyString) EmptyString None (getInt a "min_priority" 0) (status_filter (getString a "status" EmptyString))
    (getInt a "limit" 20) 0 None None EmptyString [] [] [] [].
Definition callSearchMessages (a : args) : K reply :=
  if searchService svc then
    let? resp := on_db (Search.Search HasSemanticSearch agentName (unified_args a)) in
    let? l := enrich (sres_Message <$> Results resp) in
    reply_with ([("results", FMaps (zip_with result_map (Results resp) l)); ("count", FInt (TotalResults resp)); ("search_mode", FStr (SearchMode resp))] ++
                if str_empty (Warning resp) then [] else [("warning", FStr (Warning resp))])
  else
    let? page := on_db (SearchMessages agentName (getString a "query" EmptyString) (fulltext_args a)) in
    let? l := enrich (pm_Messages page) in
    reply_with (page_answer page l ++ [("search_mode", FStr "fulltext")]).

(** internal/agents: service.go, store.go. *)
Definition SearchAgentsByCapability (query : string) : M (list Agent) :=
  active_by_name (fun a => sql_like ("%" +:+ query +:+ "%") (capabilities_text (Capabilities a))).
Definition DiscoverAgents (query : string) : M (list Agent) := if str_empty query then ListActiveAgents else SearchAgentsByCapability query.
Definition agent_map (a : Agent) : answer :=
  [("name", FStr (Agent_Name a)); ("display_name", FStr (DisplayName a)); ("type", FStr (Agent_Type a)); ("capabilities", FRaw (Capabilities a)); ("status", FStr (Agent_Status a))].
Definition callDiscoverAgents (a : args) : K reply :=
  let? agentsList := on_db (DiscoverAgents (getString a "query" EmptyString)) in
  let result := agent_map <$> filter (fun a => Agent_Name a <> "system") agentsList in
  reply_with [("agents", FMaps result); ("count", FInt (Z.of_nat (length result)))].

(** *** Channels *)
Definition channel_unavailable : string := "channel service".
Definition create_args (a : args) (name : string) : CreateChannelRequest :=
  mkCreateChannelRequest name (getString a "description" EmptyString) (getString a "topic" EmptyString) (channel_type_of (getString a "type" "standard"))
    (getBool a "is_private" false) false agentName.
Definition channel_map (ch : Channel) : answer :=
  [("name", FStr (Ch_Name ch)); ("description", FStr (Ch_Description ch)); ("topic", FStr (Ch_Topic ch)); ("type", FType (Ch_Type ch));
   ("is_private", FBool (IsPrivate ch)); ("created_by", FStr (Ch_CreatedBy ch))].
Definition callCreateChannel (a : args) : K reply :=
  text_param a "name" (fun name =>
    needs (channelService svc) channel_unavailable (
      let? ch := on_db (Channels.CreateChannel (create_args a name)) in
      reply_with (("channel_id", FInt (Ch_ID ch)) :: channel_map ch))).
Definition callJoinChannel (a : args) : K reply :=
  needs (channelService svc) channel_unavailable (
    let? channelID := resolveChannelID a in
    let? _ := on_db (Channels.JoinChannel channelID agentName) in
    reply_with [("channel_id", FInt channelID); ("status", FStr "joined")]).
Definition callLeaveChannel (a : args) : K reply :=
  needs (channelService svc) channel_unavailable (
    let? channelID := resolveChannelID a in
    let? _ := on_db (Channels.LeaveChannel channelID agentName) in
    reply_with [("channel_id", FInt channelID); ("status", FStr "left")]).
Definition callListChannels (a : args) : K reply :=
  needs (channelService svc) channel_unavailable (
    let? chList := on_db (Channels.ListChannels agentName) in
    reply_with [("channels", FMaps ((fun c => ("id", FInt (Ch_ID (cc_Channel c))) :: channel_map (cc_Channel c) ++ [("member_count", FInt (MemberCount c))]) <$> chList));
                ("count", FInt (Z.of_nat (length chList)))]).
Definition callInviteToChannel (a : args) : K reply :=
  needs (channelService svc) channel_unavailable (
    let? channelID := resolveChannelID a in
    text_param a "agent_name" (fun targetAgent =>
      let? _ := on_db (InviteToChannel channelID targetAgent agentName) in
      reply_with [("channel_id", FInt channelID); ("agent_name", FStr targetAgent); ("status", FStr "invited")])).
Definition callKickFromChannel (a : args) : K reply :=
  needs (channelService svc) channel_unavailable (
    let? channelID := resolveChannelID a in
    text_param a "agent_name" (fun targetAgent =>
      let? _ := on_db (KickFromChannel channelID targetAgent agentName) in
      reply_with [("channel_id", FInt channelID); ("agent_name", FStr targetAgent); ("status", FStr "kicked")])).
Definition has_metadata (r : rawjson) : bool := match r with RawEmpty => false | _ => true end.
Definition channel_message_map (m : EnrichedMessage) : answer :=
  let msg := en_Message m in
  [("id", FInt (Msg_ID msg)); ("from", FStr (FromAgent msg)); ("body", FStr (Schema.Body msg)); ("priority", FInt (Priority msg)); ("status", FStatus (Status msg));
   ("created_at", FTime (Msg_CreatedAt msg)); ("attachments", FAttachments (Attachments m))] ++
  if has_metadata (Metadata msg) then [("metadata", FRaw (Metadata msg))] else [].
Definition callGetChannelMessages (a : args) : K reply :=
  needs (channelService svc) channel_unavailable (
    let? channelID := resolveChannelID a in
    let? isMember := on_db (IsMember channelID agentName) in
    if negb isMember then Ret (Err BNotMember)
    else
      let limit := getInt a "limit" 50 in
      let limit := if 200 <? limit then 200 else limit in
      let? page := on_db (GetChannelMessages channelID limit (getInt a "offset" 0)) in
      let? l := enrich (pm_Messages page) in
      reply_with [("channel_id", FInt channelID); ("messages", FMaps (channel_message_map <$> l)); ("count", FInt (Z.of_nat (length l)));
                  ("total", FInt (pm_Total page)); ("offset", FInt (pm_Offset page)); ("limit", FInt (pm_Limit page))]).
(** Only a [float64] is taken. *)
Definition float_reply_to (a : args) : option Z := match a !! "reply_to" with Some (VFloat x) => Some (int_of_float x) | _ => None end.
Definition callSendChannelMessage (a : args) : K reply :=
  needs (channelService svc) channel_unavailable (
    let? channelID := resolveChannelID a in
    text_param a "body" (fun body =>
      let? messages := on_db (BroadcastMessage channelID agentName body (getInt a "priority" 5) (raw_of (getString a "metadata" EmptyString)) (float_reply_to a)
                                (attachment_hashes a)) in
      reply_with [("channel_id", FInt channelID); ("message_id", FInt (match messages with m :: _ => Msg_ID m | [] => 0 end)); ("status", FStr "sent")])).
Definition callUpdateChannel (a : args) : K reply :=
  needs (channelService svc) channel_unavailable (
    let? channelID := resolveChannelID a in
    let? ch := on_db (UpdateChannel channelID (a !! "description" ≫= as_text) (a !! "topic" ≫= as_text) agentName) in
    reply_with [("channel_id", FInt (Ch_ID ch)); ("name", FStr (Ch_Name ch)); ("description", FStr (Ch_Description ch)); ("topic", FStr (Ch_Topic ch))]).

(** *** Auctions *)
Definition swarm_unavailable : string := "swarm service".
Definition callPostTask (a : args) : K reply :=
  needs (swarmService svc) swarm_unavailable (
    text_param a "channel_name" (fun channelName => text_param a "title" (fun title =>
      json_param a "requirements" "{}" (fun requirements => deadline_param a (fun deadline =>
        let? ch := channel_by_name channelName in
        let? task := on_db (PostTask (Ch_ID ch) agentName title (getString a "description" EmptyString) requirements deadline) in
        reply_with [("task_id", FInt (Task_ID task)); ("channel_id", FInt (Task_ChannelID task)); ("title", FStr (Task_Title task)); ("status", FTaskStatus (Task_Status task));
                    ("posted_by", FStr (PostedBy task)); ("deadline", FMaybeTime (Deadline task)); ("created_at", FTime (Task_CreatedAt task))]))))).
Definition callBidTask (a : args) : K reply :=
  needs (swarmService svc) swarm_unavailable (
    id_param a "task_id" (fun taskID => json_param a "capabilities" "{}" (fun capabilities =>
      let? bid := on_db (BidOnTask taskID agentName capabilities (getString a "time_estimate" EmptyString) (getString a "message" EmptyString)) in
      reply_with [("bid_id", FInt (Bid_ID bid)); ("task_id", FInt (Bid_TaskID bid)); ("agent_name", FStr (Bid_AgentName bid));
                  ("time_estimate", FStr (TimeEstimate bid)); ("status", FBidStatus (Bid_Status bid))]))).
Definition callAcceptBid (a : args) : K reply :=
  needs (swarmService svc) swarm_unavailable (
    id_param a "task_id" (fun taskID => id_param a "bid_id" (fun bidID =>
      let? _ := on_db (AcceptBid taskID bidID agentName) in
      reply_with [("task_id", FInt taskID); ("bid_id", FInt bidID); ("status", FStr "accepted")]))).
Definition callCompleteTask (a : args) : K reply :=
  needs (swarmService svc) swarm_unavailable (
    id_param a "task_id" (fun taskID =>
      let? _ := on_db (CompleteTask taskID agentName) in
      reply_with [("task_id", FInt taskID); ("status", FStr "completed")])).
Definition task_map (t : Task) : answer :=
  [("id", FInt (Task_ID t)); ("title", FStr (Task_Title t)); ("description", FStr (Task_Description t)); ("status", FTaskStatus (Task_Status t));
   ("posted_by", FStr (PostedBy t)); ("assigned_to", FStr (AssignedTo t)); ("deadline", FMaybeTime (Deadline t)); ("created_at", FTime (Task_CreatedAt t))].
Definition callListTasks (a : args) : K reply :=
  needs (swarmService svc) swarm_unavailable (needs (channelService svc) channel_unavailable (
    text_param a "channel_name" (fun channelName =>
      let? ch := on_db (GetChannelByName channelName) in
      if negb (bool_decide (Ch_Type ch = TypeAuction)) then Ret (Err (BNotAuction (Ch_Type ch)))
      else
        let? tasks := on_db (ListTasks (Ch_ID ch) (getString a "status" EmptyString)) in
        reply_with [("tasks", FMaps (task_map <$> tasks)); ("count", FInt (Z.of_nat (length tasks)))]))).

(** *** Attachments *)
Definition attachments_unavailable : string := "attachment service".
Definition upload_args (a : args) (decoded : string) : UploadRequest :=
  mkUploadRequest (Some decoded) (getString a "filename" EmptyString) (getString a "mime_type" EmptyString) (positive (getInt a "message_id" 0)) agentName.
Definition callUploadAttachment (a : args) : K reply :=
  needs (attachmentService svc) attachments_unavailable (
    text_param a "content" (fun contentB64 =>
      if MaxFileSize <? size_of contentB64 * 3 / 4 then Ret (Err BTooLarge)
      else match base64_decode contentB64 with
           | None => Ret (Err BBase64)
           | Some decoded =>
               if MaxFileSize <? size_of decoded then Ret (Err BTooLarge)
               else
                 let? r := on_db (Upload (upload_args a decoded)) in
                 reply_with [("hash", FStr (res_Hash r)); ("size", FInt (res_Size r)); ("mime_type", FStr (res_MIMEType r)); ("original_filename", FStr (res_Filename r))]
           end)).
Definition callDownloadAttachment (a : args) : K reply :=
  needs (attachmentService svc) attachments_unavailable (
    text_param a "hash" (fun hash =>
      let? r := on_db (Download hash) in
      reply_with [("hash", FStr (dl_Hash r)); ("content", FStr (base64_encode (dl_Content r))); ("original_filename", FStr (dl_Filename r));
                  ("mime_type", FStr (dl_MIMEType r)); ("size", FInt (dl_Size r))])).

(** *** Reactions and threads *)
Definition reactions_unavailable : string := "reaction service".
Definition reacted_map (messageID : Z) (reaction : string) (result : ToggleResult) (now : outcome bridge_error (list Reaction * WorkflowState)) : answer :=
  [("action", FStr (if tr_Added result then "added" else "removed")); ("message_id", FInt messageID); ("reaction", FStr reaction)] ++
  match tr_Reaction result with Some r => [("id", FInt (Rx_ID r)); ("created_at", FTime (Rx_CreatedAt r))] | None => [] end ++
  match now with Ok (rxns, state) => [("workflow_state", FState state); ("reactions", FReactions rxns)] | _ => [] end.
Definition callReact (a : args) : K reply :=
  needs (reactionService svc) reactions_unavailable (
    id_param a "message_id" (fun messageID => text_param a "reaction" (fun reaction => json_param a "metadata" EmptyString (fun metadata =>
      let? result := on_db (Toggle notifier messageID agentName (reaction_of reaction) metadata) in
      let! now := on_db (GetReactions messageID) in
      reply_with (reacted_map messageID reaction (fst result) now))))).
Definition callUnreact (a : args) : K reply :=
  needs (reactionService svc) reactions_unavailable (
    id_param a "message_id" (fun messageID => text_param a "reaction" (fun reaction =>
      let? _ := on_db (Remove messageID agentName (reaction_of reaction)) in
      reply_with [("message_id", FInt messageID); ("reaction", FStr reaction); ("status", FStr "removed")]))).
Definition callGetReactions (a : args) : K reply :=
  needs (reactionService svc) reactions_unavailable (
    id_param a "message_id" (fun messageID =>
      let? r := on_db (GetReactions messageID) in
      reply_with [("reactions", FReactions (fst r)); ("workflow_state", FState (snd r)); ("count", FInt (Z.of_nat (length (fst r))))])).
(** A message that is gone by then is left out. *)
Fixpoint load_messages (ids : list Z) : K (list Message) :=
  match ids with
  | [] => Ret (Ok [])
  | id :: rest =>
      let! msg := on_db (GetMessageByID id) in
      let? more := load_messages rest in
      Ret (Ok (match msg with Ok m => m :: more | _ => more end))
  end.
Definition state_limit (limit : Z) : Z := let limit := if limit <=? 0 then 20 else limit in if 100 <? limit then 100 else limit.
Definition state_offset (offset : Z) (total : Z) : Z := let offset := if offset <? 0 then 0 else offset in if total <? offset then total else offset.
Definition cut_body (maxBodyLen : Z) (body : string) : string :=
  if maxBodyLen <? size_of body then String.substring 0 (Z.to_nat maxBodyLen) body +:+ "..." else body.
Definition state_message_map (maxBodyLen : Z) (m : EnrichedMessage) : answer :=
  let msg := en_Message m in
  [("id", FInt (Msg_ID msg)); ("from_agent", FStr (FromAgent msg)); ("body", FStr (cut_body maxBodyLen (Schema.Body msg))); ("priority", FInt (Priority msg));
   ("created_at", FTime (Msg_CreatedAt msg)); ("reply_to", FMaybeInt (ReplyTo msg)); ("attachments", FAttachments (Attachments m))].
Definition callListByState (a : args) : K reply :=
  needs (reactionService svc) reactions_unavailable (needs (channelService svc) channel_unavailable (
    text_param a "channel" (fun channelName => text_param a "state" (fun state =>
      let? ch := on_db (GetChannelByName channelName) in
      let? messageIDs := on_db (ListByState (Ch_ID ch) (state_of state)) in
      let total := Z.of_nat (length messageIDs) in
      let limit := state_limit (getInt a "limit" 20) in
      let offset := state_offset (getInt a "offset" 0) total in
      let end_ := if total <? offset + limit then total else offset + limit in
      let pageIDs := take (Z.to_nat (end_ - offset)) (drop (Z.to_nat offset) messageIDs) in
      let resp := [("message_ids", FInts pageIDs); ("count", FInt (Z.of_nat (length pageIDs))); ("total", FInt total); ("channel", FStr channelName);
                   ("state", FStr state); ("limit", FInt limit); ("offset", FInt offset)] in
      if getBool a "include_messages" false && (0 <? Z.of_nat (length pageIDs)) then
        let maxBodyLen := let n := getInt a "max_body_length" 500 in if n <=? 0 then 500 else n in
        let? msgs := load_messages pageIDs in
        let? l := enrich msgs in
        reply_with (resp ++ [("messages", FMaps (state_message_map maxBodyLen <$> l))])
      else reply_with resp)))).
Definition callGetReplies (a : args) : K reply :=
  id_param a "message_id" (fun messageID =>
    let? replies := on_db (Messaging.GetReplies messageID) in
    let? l := enrich replies in
    reply_with [("message_id", FInt messageID); ("replies", FMessages l); ("count", FInt (Z.of_nat (length l)))]).

(** *** Trust and queries *)
Definition or_self (a : args) (key : string) : string := let n := getString a key EmptyString in if str_empty n then agentName else n.
Definition callGetTrust (a : args) : K reply :=
  needs (trustService svc) "trust service" (
    let name := or_self a "agent_name" in
    let? scores := on_db (GetScores name) in
    reply_with [("agent_name", FStr name); ("scores", FScores scores)]).
Definition callQuery (a : args) : K reply :=
  needs (queryExecutor svc) "SQL query" (
    text_param a "sql" (fun sqlStr =>
      let! r := Execute agentName sqlStr in
      Ret (match raised BQuery r with Ok rows => Ok (RRows rows) | Err e => Err e | Panic w => Panic w end))).

(** *** Wiki *)
Definition wiki_unavailable : string := "wiki".
Definition written_map (time_key : string) (t : Z) (art : Article) : answer :=
  let r := art_row art in
  [("id", FInt (A_ID r)); ("slug", FStr (A_Slug r)); ("title", FStr (A_Title r)); ("revision", FInt (A_Revision r)); ("word_count", FInt (art_WordCount art));
   (time_key, FTime t); ("outgoing_links", FLinks (OutgoingLinks art))].
Definition callCreateArticle (a : args) : K reply :=
  needs (wikiService svc) wiki_unavailable (
    text_param a "slug" (fun slug => text_param a "title" (fun title => text_param a "body" (fun body =>
      let? art := on_wiki (CreateArticle slug title body agentName) in
      reply_with (written_map "created_at" (A_CreatedAt (art_row art)) art))))).
Definition article_map (art : Article) : answer :=
  let r := art_row art in
  [("id", FInt (A_ID r)); ("slug", FStr (A_Slug r)); ("title", FStr (A_Title r)); ("body", FStr (A_Body r)); ("created_by", FStr (A_CreatedBy r)); ("updated_by", FStr (A_UpdatedBy r));
   ("revision", FInt (A_Revision r)); ("word_count", FInt (art_WordCount art)); ("created_at", FTime (A_CreatedAt r)); ("updated_at", FTime (A_UpdatedAt r));
   ("outgoing_links", FLinks (OutgoingLinks art)); ("backlinks", FArticles (Backlinks art))].
Definition callGetArticle (a : args) : K reply :=
  needs (wikiService svc) wiki_unavailable (
    text_param a "slug" (fun slug =>
      let? art := on_wiki (GetArticle slug) in
      if getBool a "include_history" false
      then let? revisions := on_wiki (GetRevisions slug) in reply_with (article_map art ++ [("revisions", FRevisions revisions)])
      else reply_with (article_map art))).
Definition callUpdateArticle (a : args) : K reply :=
  needs (wikiService svc) wiki_unavailable (
    text_param a "slug" (fun slug => text_param a "body" (fun body =>
      let? art := on_wiki (UpdateArticle slug (getString a "title" EmptyString) body agentName) in
      reply_with (written_map "updated_at" (A_UpdatedAt (art_row art)) art)))).
Definition callListArticles (a : args) : K reply :=
  needs (wikiService svc) wiki_unavailable (
    let? l := on_wiki (ListArticles (getString a "query" EmptyString) (getInt a "limit" 50)) in
    reply_with [("articles", FArticles l); ("count", FInt (Z.of_nat (length l)))]).
Definition callGetBacklinks (a : args) : K reply :=
  needs (wikiService svc) wiki_unavailable (
    text_param a "slug" (fun slug =>
      let? l := on_wiki (GetBacklinks slug) in
      reply_with [("slug", FStr slug); ("backlinks", FArticles l); ("count", FInt (Z.of_nat (length l)))])).

(** *** Marketplace (marketplace.go) *)
Definition market_unavailable : string := "marketplace service".
Definition auction_args (a : args) : AuctionTaskMeta :=
  mkTaskMeta (getString a "acceptance_criteria" EmptyString) (getInt a "max_budget_tokens" 0) (parseStringList a "domains") (getFloat a "difficulty_weight" f64_one) 0.
Definition callPostAuction (a : args) : K reply :=
  needs (marketplace svc) market_unavailable (needs (channelService svc) channel_unavailable (
    text_param a "channel_name" (fun channelName => text_param a "title" (fun title => deadline_param a (fun deadline =>
      let meta := auction_args a in
      let? ch := on_db (GetChannelByName channelName) in
      let? task := on_market (PostAuction (Ch_ID ch) agentName title (getString a "description" EmptyString) meta deadline) in
      reply_with [("task_id", FInt (Task_ID task)); ("channel_id", FInt (Task_ChannelID task)); ("channel_name", FStr channelName); ("title", FStr (Task_Title task));
                  ("status", FTaskStatus (Task_Status task)); ("posted_by", FStr (PostedBy task)); ("domains", FStrs (Domains meta));
                  ("max_budget_tokens", FInt (MaxBudgetTokens meta)); ("deadline", FMaybeTime (Deadline task)); ("created_at", FTime (Task_CreatedAt task))]))))).
Definition bid_args (a : args) : BidMeta :=
  mkBidMeta (getInt a "estimated_tokens" 0) (getFloat a "confidence" f64_zero) (getString a "approach" EmptyString) (getInt a "manifest_revision" 0).
Definition callBid (a : args) : K reply :=
  needs (marketplace svc) market_unavailable (
    id_param a "task_id" (fun taskID =>
      let meta := bid_args a in
      let? bid := on_market (service_Bid taskID agentName meta (getString a "time_estimate" EmptyString)) in
      reply_with [("bid_id", FInt (Bid_ID bid)); ("task_id", FInt (Bid_TaskID bid)); ("agent_name", FStr (Bid_AgentName bid)); ("status", FBidStatus (Bid_Status bid));
                  ("estimated_tokens", FInt (Meta_Estimated meta)); ("confidence", FFloat (Confidence meta)); ("approach", FStr (Approach meta))])).
Definition callAward (a : args) : K reply :=
  needs (marketplace svc) market_unavailable (
    id_param a "task_id" (fun taskID => id_param a "bid_id" (fun bidID =>
      let? won := on_market (Award taskID bidID agentName) in
      reply_with [("task_id", FInt taskID); ("bid_id", FInt bidID); ("winner", FStr (fst won)); ("claim_message_id", FInt (snd won)); ("status", FStr "awarded")]))).
Definition callMarkTaskDone (a : args) : K reply :=
  needs (marketplace svc) market_unavailable (
    id_param a "task_id" (fun taskID =>
      let actualTokens := getInt a "actual_tokens" 0 in
      let successScore := getFloat a "success_score" f64_one in
      let? r := on_market (MarkTaskDone taskID agentName actualTokens successScore) in
      reply_with [("task_id", FInt taskID); ("status", FTaskStatus (Task_Status (fst r))); ("actual_tokens", FInt actualTokens); ("success_score", FFloat successScore);
                  ("reputation_entries", FEntries (snd r))])).
Definition callReadSkillCard (a : args) : K reply :=
  needs (marketplace svc) market_unavailable (
    let name := or_self a "agent_name" in
    let? card := on_market (ReadSkillCard name) in
    reply_with (match card with
                | None => [("agent_name", FStr name); ("exists", FBool false); ("slug", FStr (SkillCardSlug name))]
                | Some art =>
                    let r := art_row art in
                    [("agent_name", FStr name); ("exists", FBool true); ("slug", FStr (A_Slug r)); ("title", FStr (A_Title r)); ("body", FStr (A_Body r));
                     ("revision", FInt (A_Revision r)); ("word_count", FInt (art_WordCount art)); ("updated_by", FStr (A_UpdatedBy r));
                     ("updated_at", FTime (A_UpdatedAt r)); ("outgoing_links", FLinks (OutgoingLinks art)); ("backlinks", FArticles (Backlinks art))]
                end)).
Definition callQueryReputation (a : args) : K reply :=
  needs (marketplace svc) market_unavailable (
    let name := or_self a "agent_name" in
    text_param a "domain" (fun domain =>
      let? r := on_market (QueryReputation name domain (getInt a "limit" 20)) in
      reply_with [("agent_name", FStr name); ("domain", FStr domain); ("summary", FSummary (fst r)); ("recent_entries", FEntries (snd r));
                  ("recent_count", FInt (Z.of_nat (length (snd r))))])).

(** *** The dispatch *)
Definition handlers : list (string * (args -> K reply)) :=
  [("read_inbox", callReadInbox); ("claim_messages", callClaimMessages); ("mark_done", callMarkDone); ("search_messages", callSearchMessages);
   ("discover_agents", callDiscoverAgents); ("create_channel", callCreateChannel); ("join_channel", callJoinChannel); ("leave_channel", callLeaveChannel);
   ("list_channels", callListChannels); ("invite_to_channel", callInviteToChannel); ("kick_from_channel", callKickFromChannel);
   ("get_channel_messages", callGetChannelMessages); ("send_channel_message", callSendChannelMessage); ("update_channel", callUpdateChannel);
   ("post_task", callPostTask); ("bid_task", callBidTask); ("accept_bid", callAcceptBid); ("complete_task", callCompleteTask); ("list_tasks", callListTasks);
   ("upload_attachment", callUploadAttachment); ("download_attachment", callDownloadAttachment);
   ("react", callReact); ("unreact", callUnreact); ("get_reactions", callGetReactions); ("list_by_state", callListByState);
   ("get_replies", callGetReplies); ("get_trust", callGetTrust); ("query", callQuery);
   ("create_article", callCreateArticle); ("get_article", callGetArticle); ("update_article", callUpdateArticle); ("list_articles", callListArticles);
   ("get_backlinks", callGetBacklinks); ("send_message", callSendMessage);
   ("post_auction", callPostAuction); ("bid", callBid); ("award", callAward); ("mark_task_done", callMarkTaskDone);
   ("read_skill_card", callReadSkillCard); ("query_reputation", callQueryReputation)].
Definition unalias (actionName : string) : string := default actionName (assoc actionName bridgeActionAliases).
Definition Call (actionName : string) (a : args) : K reply :=
  let actionName := unalias actionName in
  match assoc actionName bridgeTopLevelOnly with
  | Some real => Ret (Err (BTopLevel actionName real))
  | None =>
      match assoc actionName handlers with
      | Some call => call a
      | None => Ret (Err (BUnknown actionName (suggestBridgeAction actionName)))
      end
  end.

(** ** The tools (tools_hybrid.go)

    [agent] is [None] when the request is not authenticated. *)
Definition authenticated {B} (agent : option string) (k : string -> K B) : K B := match agent with Some n => k n | None => Ret (Err BUnauthenticated) end.
(** [fmt.Sscanf(channel, "%d", &id)]: blanks, a sign, digits; what follows them
    does not matter. *)
Fixpoint skip_blanks (s : string) : option string :=
  match s with
  | String c r =>
      let n := Ascii.nat_of_ascii c in
      if (n =? 10)%nat then None else if (n =? 32)%nat || ((9 <=? n) && (n <=? 13))%nat then skip_blanks r else Some s
  | EmptyString => None
  end.
Definition scanned_int (s : string) : option Z :=
  match skip_blanks s with
  | Some (String c r) =>
      let n := Ascii.nat_of_ascii c in
      let v := if (n =? 45)%nat then Z.opp <$> leading_digits r None else if (n =? 43)%nat then leading_digits r None else leading_digits (String c r) None in
      match v with Some v => if (int64_min <=? v) && (v <=? int64_max) then Some v else None | None => None end
  | _ => None
  end.
Definition resolveChannel (channel : string) : K Z :=
  match scanned_int channel ≫= positive with
  | Some id => Ret (Ok id)
  | None => let? ch := on_db (GetChannelByName channel) in Ret (Ok (Ch_ID ch))
  end.

Record message_args := mkMessageArgs {
  ma_To : string; ma_Channel : string; ma_Body : string; ma_Subject : string; ma_Priority : Z; ma_Metadata : string; ma_ReplyTo : Z; ma_Attachments : string
}.
Definition attachments_of (msgs : list Message) (hashes : list string) : K answer :=
  match msgs, hashes with
  | [], _ | _, [] => Ret (Ok [])
  | _, _ =>
      let? l := enrich msgs in
      Ret (Ok (match l with m :: _ => if bool_decide (Attachments m = []) then [] else [("attachments", FAttachments (Attachments m))] | [] => [] end))
  end.
Definition handleSendMessage (agent : option string) (r : message_args) : K reply :=
  authenticated agent (fun agentName =>
    if str_empty (ma_Body r) then Ret (Err (BMissing "body"))
    else if str_empty (ma_To r) && str_empty (ma_Channel r) then Ret (Err BNoTarget)
    else if negb (str_empty (ma_To r)) && negb (str_empty (ma_Channel r)) then Ret (Err BTwoTargets)
    else
      let hashes := split_commas (ma_Attachments r) in
      if negb (str_empty (ma_Channel r)) then
        needs (channelService svc) channel_unavailable (
          let? channelID := resolveChannel (ma_Channel r) in
          let? messages := on_db (BroadcastMessage channelID agentName (ma_Body r) (ma_Priority r) (raw_of (ma_Metadata r)) (positive (ma_ReplyTo r)) hashes) in
          let? atts := attachments_of messages hashes in
          reply_with ([("channel_id", FInt channelID); ("message_id", FInt (match messages with m :: _ => Msg_ID m | [] => 0 end)); ("status", FStr "sent")] ++ atts))
      else
        let? msg := on_db (Messaging.SendMessage agentName (ma_To r) (ma_Body r)
                             (mkSendOptions (ma_Subject r) (ma_Priority r) (raw_of (ma_Metadata r)) None None (positive (ma_ReplyTo r)) hashes)) in
        let? atts := attachments_of [msg] hashes in
        reply_with ([("message_id", FInt (Msg_ID msg)); ("conversation_id", FInt (Msg_ConversationID msg)); ("status", FStatus (Status msg))] ++ atts)).
Definition handleGetReplies (agent : option string) (messageID : Z) : K reply :=
  authenticated agent (fun _ =>
    if messageID =? 0 then Ret (Err (BMissing "message_id"))
    else
      let? replies := on_db (Messaging.GetReplies messageID) in
      let? l := enrich replies in
      reply_with [("message_id", FInt messageID); ("replies", FMessages l); ("count", FInt (Z.of_nat (length l)))]).

(** *** my_status *)
Definition short_body (m : Message) : string := cut_body 200 (Schema.Body m).
(** The subject of a conversation that can be read. *)
Definition subject_field (msg : Message) : K answer :=
  if 0 <? Msg_ConversationID msg then
    let! conv := on_db (service_GetConversation (Msg_ConversationID msg)) in
    Ret (Ok (match conv with Ok (c, _) => if str_empty (Subject c) then [] else [("subject", FStr (Subject c))] | _ => [] end))
  else Ret (Ok []).
Fixpoint pending_maps (msgs : list Message) : K (list answer) :=
  match msgs with
  | [] => Ret (Ok [])
  | msg :: rest =>
      let? subject := subject_field msg in
      let? more := pending_maps rest in
      Ret (Ok (([("id", FInt (Msg_ID msg)); ("from", FStr (FromAgent msg)); ("body", FStr (short_body msg)); ("priority", FInt (Priority msg));
                 ("status", FStatus (Status msg)); ("created_at", FTime (Msg_CreatedAt msg))] ++ subject) :: more))
  end.
Definition mention_channel (r : rawjson) : answer :=
  match unmarshal_map r with
  | DecodedMap ms => match obj_get "channel_name" ms with Some (JStr n) => [("channel", FStr n)] | _ => [] end
  | _ => []
  end.
Definition mention_map (msg : Message) : answer :=
  [("id", FInt (Msg_ID msg)); ("from", FStr (FromAgent msg)); ("body", FStr (short_body msg)); ("created_at", FTime (Msg_CreatedAt msg))] ++ mention_channel (Metadata msg).
Definition notification_map (msg : Message) : answer := [("id", FInt (Msg_ID msg)); ("body", FStr (short_body msg)); ("created_at", FTime (Msg_CreatedAt msg))].
(** What is cut short, and how to see the rest. *)
Definition instructions (dms mentions notifs : nat) (total : Z) : list string :=
  (if Z.of_nat dms <? total
   then ["Showing " +:+ pretty dms +:+ " of " +:+ pretty total +:+ " pending messages. Use execute tool with call('read_inbox', {}) to see all."] else []) ++
  (if (10 <=? mentions)%nat
   then ["Showing " +:+ pretty mentions +:+ " mentions (may be more). Use execute tool with call('search_messages', {}) to find all."] else []) ++
  (if (5 <=? notifs)%nat
   then ["Showing " +:+ pretty notifs +:+ " system notifications (may be more). Use execute tool with call('read_inbox', { from_agent: 'system' }) to see all."] else []).
Definition usageInstructions : string :=
  "Use 'search' tool with a query to discover available actions. " +:+ "Use 'execute' tool with call(action, args) to perform any action. " +:+
  "Use 'send_message' tool directly for sending messages (DMs or channel).".
Definition status_stats (total : Z) (summaries : list ChannelSummary) (notifs : nat) : answer :=
  [("pending_dms", FInt total); ("channels_joined", FInt (Z.of_nat (length summaries))); ("unread_channel_messages", FInt (foldr (fun c n => UnreadCount c + n) 0 summaries));
   ("system_notifications", FInt (Z.of_nat notifs))].
(** [owner_name] looks a user's name up. *)
Definition handleMyStatus (owner_name : Z -> string) (agent : option string) : K reply :=
  authenticated agent (fun agentName =>
    let? a := on_db (Agents.GetAgent agentName) in
    let? dms := on_db (GetPendingDMs agentName 10) in
    let? total := on_db (CountPendingDMs agentName) in
    let? dmList := pending_maps dms in
    let? mentions := on_db (GetRecentMentions agentName 10) in
    let? notifs := on_db (GetSystemNotifications agentName 5) in
    let? summaries := (if channelService svc then on_db (GetChannelSummaries agentName) else Ret (Ok [])) in
    let parts := instructions (length dms) (length mentions) (length notifs) total in
    reply_with ([("agent", FMaps [[("name", FStr (Agent_Name a)); ("display_name", FStr (DisplayName a)); ("type", FStr (Agent_Type a)); ("owner", FStr (owner_name (Agent_OwnerID a)))]]);
                 ("direct_messages", FMaps dmList); ("direct_messages_total", FInt total); ("mentions", FMaps (mention_map <$> mentions));
                 ("mentions_total", FInt (Z.of_nat (length mentions))); ("system_notifications", FMaps (notification_map <$> notifs));
                 ("system_notifications_total", FInt (Z.of_nat (length notifs))); ("channels", FSummaries summaries);
                 ("stats", FMaps [status_stats total summaries (length notifs)]); ("truncated", FBool (negb (bool_decide (parts = [])))); ("usage", FStr usageInstructions)] ++
                if bool_decide (parts = []) then [] else [("instructions", FStr (join " " parts))])).
End Bridge.
