(* ===== verification/BridgeSpec.v ===== *)
(** * What the bridge guarantees

    [levenshtein_least]: the distance computed row by row is the least number of
    edits.  [suggest_exact]: which name is suggested, and when none is.
    [required_refused]: a call without a parameter the catalogue requires is
    refused and changes nothing.  [bridge_isolation]: whatever agents call
    concurrently, what belongs to the others is left alone. *)
From stdpp Require Import pretty.
From S2P Require Import Prelude Prog Table Schema Messaging MessagingFacts MessagingQueries MessagingSpec Agents AgentsSpec Channels Auction Attachments Trust Reactions Retention MemoryTools Reactor Float64 Search SearchSpec Embeddings AuthHandlers Wiki Gateway Marketplace MarketplaceSpec AttachmentsSpec WikiSpec AgentQuery Web WebSpec Actions Bridge.

(** ** Distance *)

(** One byte inserted, deleted or replaced. *)
Inductive one_edit : list Ascii.ascii -> list Ascii.ascii -> Prop :=
| Insert_byte l x r : one_edit (l ++ r) (l ++ x :: r)
| Delete_byte l x r : one_edit (l ++ x :: r) (l ++ r)
| Replace_byte l x y r : one_edit (l ++ x :: r) (l ++ y :: r).
Definition edits (n : nat) (s t : string) : Prop := nsteps one_edit n (String.list_ascii_of_string s) (String.list_ascii_of_string t).

(** Two texts side by side, from their first bytes on. *)
Definition cost (x y : Ascii.ascii) : nat := if Ascii.eqb x y then 0 else 1.
Inductive aligned : nat -> list Ascii.ascii -> list Ascii.ascii -> Prop :=
| Al_nil : aligned 0 [] []
| Al_del n x a b : aligned n a b -> aligned (S n) (x :: a) b
| Al_ins n y a b : aligned n a b -> aligned (S n) a (y :: b)
| Al_sub n x y a b : aligned n a b -> aligned (cost x y + n) (x :: a) (y :: b).
Lemma cost_refl x : cost x x = 0%nat.
Proof. unfold cost. by rewrite Ascii.eqb_refl. Qed.
Lemma cost_sym x y : cost x y = cost y x.
Proof. unfold cost. by rewrite Ascii.eqb_sym. Qed.
Lemma cost_triangle x y z : (cost x z <= cost x y + cost y z)%nat.
Proof. unfold cost. destruct (Ascii.eqb_spec x y), (Ascii.eqb_spec y z), (Ascii.eqb_spec x z); (lia || congruence). Qed.
Lemma aligned_refl a : aligned 0 a a.
Proof. induction a as [|x a IH]; [constructor|]. rewrite <- (cost_refl x), (plus_n_O (cost x x)). by constructor. Qed.
Lemma aligned_sym n a b : aligned n a b -> aligned n b a.
Proof. induction 1; try by constructor. rewrite cost_sym. by constructor. Qed.
Lemma aligned_trans n a b : aligned n a b -> forall m c, aligned m b c -> exists k, (k <= n + m)%nat /\ aligned k a c.
Proof.
  induction 1 as [|n x a b Hab IH|n y a b Hab IH|n x y a b Hab IH]; intros m c Hc.
  - exists m. split; [lia|done].
  - destruct (IH m c Hc) as (k&Hk&H). exists (S k). split; [lia|by constructor].
  - remember (y :: b) as yb eqn:E. revert E. induction Hc as [|m y' b' c Hbc _|m z b' c Hbc IHc|m y' z b' c Hbc _]; intros E; [done| | |]; simplify_eq.
    + destruct (IH m c Hbc) as (k&Hk&H). exists k. split; [lia|done].
    + destruct (IHc eq_refl) as (k&Hk&H). exists (S k). split; [lia|by constructor].
    + destruct (IH m c Hbc) as (k&Hk&H). exists (S k). split; [lia|by constructor].
  - remember (y :: b) as yb eqn:E. revert E. induction Hc as [|m y' b' c Hbc _|m z b' c Hbc IHc|m y' z b' c Hbc _]; intros E; [done| | |]; simplify_eq.
    + destruct (IH m c Hbc) as (k&Hk&H). exists (S k). split; [lia|by constructor].
    + destruct (IHc eq_refl) as (k&Hk&H). exists (S k). split; [lia|by constructor].
    + destruct (IH m c Hbc) as (k&Hk&H). exists (cost x z + k)%nat. pose proof (cost_triangle x y z). split; [lia|by constructor].
Qed.
Lemma aligned_app n a b l : aligned n a b -> aligned n (l ++ a) (l ++ b).
Proof. intros H. induction l as [|x l IH]; [done|]. cbn. rewrite <- (Nat.add_0_l n), <- (cost_refl x). by constructor. Qed.
Lemma one_edit_aligned a b : one_edit a b -> exists n, (n <= 1)%nat /\ aligned n a b.
Proof.
  intros [l x r|l x r|l x y r].
  - exists 1%nat. split; [done|]. apply aligned_app. constructor. apply aligned_refl.
  - exists 1%nat. split; [done|]. apply aligned_app. constructor. apply aligned_refl.
  - exists (cost x y + 0)%nat. split; [unfold cost; destruct (Ascii.eqb _ _); lia|]. apply aligned_app. constructor. apply aligned_refl.
Qed.
Lemma edits_aligned n a b : nsteps one_edit n a b -> exists k, (k <= n)%nat /\ aligned k a b.
Proof.
  induction 1 as [a|n a b c H1 _ (k&Hk&H2)]; [exists 0%nat; split; [done|apply aligned_refl]|].
  apply one_edit_aligned in H1 as (m&Hm&H1). destruct (aligned_trans _ _ _ H1 _ _ H2) as (j&Hj&H). exists j. split; [lia|done].
Qed.
Lemma one_edit_cons x a b : one_edit a b -> one_edit (x :: a) (x :: b).
Proof. intros [l y r|l y r|l y z r]; [apply (Insert_byte (x :: l))|apply (Delete_byte (x :: l))|apply (Replace_byte (x :: l))]. Qed.
Lemma edits_cons x n a b : nsteps one_edit n a b -> nsteps one_edit n (x :: a) (x :: b).
Proof. induction 1 as [|n a b c H1 _ IH]; [constructor|]. econstructor; [by apply one_edit_cons|done]. Qed.
Lemma aligned_edits n a b : aligned n a b -> nsteps one_edit n a b.
Proof.
  induction 1 as [|n x a b Hab IH|n y a b Hab IH|n x y a b Hab IH]; [constructor| | |].
  - econstructor; [apply (Delete_byte [])|done].
  - eapply nsteps_r; [exact IH|apply (Insert_byte [])].
  - unfold cost. destruct (Ascii.eqb_spec x y) as [->|]; cbn; [by apply edits_cons|].
    econstructor; [apply (Replace_byte [] x y a)|by apply edits_cons].
Qed.

(** The distance by recursion. *)
Fixpoint dist (a b : list Ascii.ascii) : nat :=
  match a with
  | [] => length b
  | x :: a' =>
      (fix go (b : list Ascii.ascii) : nat :=
         match b with
         | [] => S (length a')
         | y :: b' => Nat.min (Nat.min (S (dist a' b)) (S (go b'))) (cost x y + dist a' b')
         end) b
  end.
Lemma dist_nil_r a : dist a [] = length a.
Proof. by destruct a. Qed.
Lemma dist_cons x a y b : dist (x :: a) (y :: b) = Nat.min (Nat.min (S (dist a (y :: b))) (S (dist (x :: a) b))) (cost x y + dist a b).
Proof. done. Qed.
Lemma dist_aligned a b : aligned (dist a b) a b.
Proof.
  revert b. induction a as [|x a IHa]; intros b; [cbn; induction b; by constructor|].
  induction b as [|y b IHb]; [specialize (IHa []); rewrite dist_nil_r in *; by constructor|]. rewrite dist_cons.
  destruct (Nat.min_spec (Nat.min (S (dist a (y :: b))) (S (dist (x :: a) b))) (cost x y + dist a b)) as [[_ ->]|[_ ->]]; [|by constructor].
  destruct (Nat.min_spec (S (dist a (y :: b))) (S (dist (x :: a) b))) as [[_ ->]|[_ ->]]; by constructor.
Qed.
Lemma dist_least n a b : aligned n a b -> (dist a b <= n)%nat.
Proof.
  induction 1 as [|n x a b Hab IH|n y a b Hab IH|n x y a b Hab IH]; [done| | |].
  - destruct b as [|y b]; [rewrite dist_nil_r in *; cbn; lia|]. rewrite dist_cons. lia.
  - destruct a as [|x a]; [cbn in *; lia|]. rewrite dist_cons. lia.
  - rewrite dist_cons. lia.
Qed.
Lemma aligned_rev n a b : aligned n a b -> exists k, (k <= n)%nat /\ aligned k (reverse a) (reverse b).
Proof.
  intros H%aligned_edits. apply edits_aligned. induction H as [|n a b c H1 _ IH]; [constructor|]. econstructor; [|exact IH].
  destruct H1 as [l x r|l x r|l x y r]; rewrite !reverse_app, ?reverse_cons, <- ?(assoc_L (++)); [apply Insert_byte|apply Delete_byte|apply Replace_byte].
Qed.

(** The rows of the table: the distances of the beginnings of [a] to a text, both
    read backwards. *)
Fixpoint beginnings (pre a q : list Ascii.ascii) : list Z :=
  match a with [] => [] | x :: a' => Z.of_nat (dist (x :: pre) q) :: beginnings (x :: pre) a' q end.
Definition table_row (a q : list Ascii.ascii) : list Z := Z.of_nat (dist [] q) :: beginnings [] a q.
Lemma fill_beginnings c a : forall pre q, fill c a (Z.of_nat (dist pre q)) (beginnings pre a q) (Z.of_nat (dist pre (c :: q))) = beginnings pre a (c :: q).
Proof.
  induction a as [|x a IH]; intros pre q; [done|]. cbn [fill beginnings]. cbv zeta. rewrite <- (IH (x :: pre) q), dist_cons. unfold cost.
  match goal with |- ?m :: fill c a ?p ?r ?m = ?n :: fill c a ?p ?r ?n => assert (m = n) as ->; [|done] end.
  destruct (Ascii.eqb x c), (Z.ltb_spec (Z.of_nat (dist pre (c :: q)) + 1) (Z.of_nat (dist (x :: pre) q) + 1));
    match goal with |- (if ?a <? ?b then _ else _) = _ => destruct (Z.ltb_spec a b) end; lia.
Qed.
Lemma fill_rows_table a b : forall q, fill_rows a (table_row a q) (Z.of_nat (length q) + 1) b = table_row a (reverse b ++ q).
Proof.
  induction b as [|c b IH]; intros q; [done|]. cbn [fill_rows table_row]. rewrite reverse_cons, <- (assoc_L (++)). cbn [app]. rewrite <- (IH (c :: q)).
  replace (Z.of_nat (length (c :: q))) with (Z.of_nat (length q) + 1) by (cbn [length]; lia). f_equal.
  unfold table_row. cbn [dist length]. f_equal; [lia|]. rewrite <- (fill_beginnings c a [] q). f_equal. cbn. lia.
Qed.
Lemma first_row a : Z.of_nat <$> seq 0 (S (length a)) = table_row a [].
Proof.
  unfold table_row. cbn [seq fmap list_fmap dist length]. f_equal.
  assert (forall pre, Z.of_nat <$> seq (S (length pre)) (length a) = beginnings pre a []) as H; [|exact (H [])].
  induction a as [|x a IH]; intros pre; [done|]. cbn [seq fmap list_fmap beginnings length]. f_equal. apply (IH (x :: pre)).
Qed.
Lemma last_beginning a : forall pre q z, z = Z.of_nat (dist pre q) -> last (z :: beginnings pre a q) = Some (Z.of_nat (dist (reverse a ++ pre) q)).
Proof.
  induction a as [|x a IH]; intros pre q z ->; [done|]. cbn [beginnings]. rewrite reverse_cons, <- (assoc_L (++)). cbn [app]. rewrite <- (IH (x :: pre) q _ eq_refl). done.
Qed.
Lemma edit_table_dist a b : edit_table a b = Z.of_nat (dist (reverse a) (reverse b)).
Proof.
  unfold edit_table. rewrite first_row. change 1 with (Z.of_nat (@length Ascii.ascii []) + 1). rewrite fill_rows_table, app_nil_r. unfold table_row.
  rewrite (last_beginning a [] (reverse b) _ eq_refl), app_nil_r. done.
Qed.
Lemma dist_reverse a b : dist (reverse a) (reverse b) = dist a b.
Proof.
  assert (forall a b, dist (reverse a) (reverse b) <= dist a b)%nat as H.
  { intros x y. destruct (aligned_rev _ _ _ (dist_aligned x y)) as (k&Hk&Hkk%dist_least). lia. }
  pose proof (H a b). pose proof (H (reverse a) (reverse b)) as H'. rewrite !reverse_involutive in H'. lia.
Qed.
Lemma dist_sym a b : dist a b = dist b a.
Proof. pose proof (dist_least _ _ _ (aligned_sym _ _ _ (dist_aligned a b))). pose proof (dist_least _ _ _ (aligned_sym _ _ _ (dist_aligned b a))). lia. Qed.
Lemma dist_refl a : dist a a = 0%nat.
Proof. pose proof (dist_least _ _ _ (aligned_refl a)). lia. Qed.
Lemma levenshtein_dist s t : levenshtein s t = Z.of_nat (dist (String.list_ascii_of_string s) (String.list_ascii_of_string t)).
Proof.
  unfold levenshtein. cbv zeta. destruct (String.eqb_spec s t) as [->|_]; [by rewrite dist_refl|].
  set (a := String.list_ascii_of_string s). set (b := String.list_ascii_of_string t).
  destruct (length a =? 0)%nat eqn:Ea; [apply Nat.eqb_eq, length_zero_iff_nil in Ea; by rewrite Ea|].
  destruct (length b =? 0)%nat eqn:Eb; [apply Nat.eqb_eq, length_zero_iff_nil in Eb; by rewrite Eb, dist_nil_r|].
  destruct (_ <? _)%nat; rewrite edit_table_dist, dist_reverse; [by rewrite dist_sym|done].
Qed.

(** C40.  What the rolling row computes is the least number of single bytes to
    insert, delete or replace on the way from one text to the other. *)
Theorem levenshtein_least s t :
  (exists n, levenshtein s t = Z.of_nat n /\ edits n s t) /\ (forall n, edits n s t -> levenshtein s t <= Z.of_nat n).
Proof.
  rewrite levenshtein_dist. split; [eexists; split; [done|apply aligned_edits, dist_aligned]|].
  intros n (k&Hk&H%dist_least)%edits_aligned. lia.
Qed.

(** ** Suggestions *)
Section Suggestions.
Context {HLow : GoUnicode}.
Definition overlaps (lower c : string) : bool := str_contains lower c || str_contains c lower.
Definition same_verb (lower c : string) : Prop := leadingVerb c = leadingVerb lower.
(** The nearest name with the verb of [lower], the first of them. *)
Definition nearest_in (lower : string) (l : list string) (s : string) : Prop :=
  same_verb lower s /\ exists l1 l2, l = l1 ++ s :: l2 /\
  (forall c, c ∈ l1 -> same_verb lower c -> levenshtein lower s < levenshtein lower c) /\
  (forall c, c ∈ l2 -> same_verb lower c -> levenshtein lower s <= levenshtein lower c).
Lemma nearest_fold lower t l :
  match foldl (nearer lower) (t + 1, None) l with
  | (d, None) => d = t + 1 /\ forall c, c ∈ l -> same_verb lower c -> t < levenshtein lower c
  | (d, Some s) => d = levenshtein lower s /\ d <= t /\ nearest_in lower l s
  end.
Proof.
  induction l as [|c l IH] using rev_ind; [split; [done|]; intros c Hc; by apply not_elem_of_nil in Hc|]. rewrite foldl_snoc.
  destruct (foldl _ _ l) as [d best]. unfold nearer at 1. destruct (String.eqb_spec (leadingVerb c) (leadingVerb lower)) as [Hv|Hv]; cbn [negb].
  - cbn [fst]. cbv zeta. destruct (Z.ltb_spec (levenshtein lower c) d) as [Hlt|Hge].
    + assert (forall x, x ∈ l -> same_verb lower x -> levenshtein lower c < levenshtein lower x) as Hall.
      { intros x Hx Hxv. destruct best as [s|]; [|destruct IH as [-> H]; specialize (H x Hx Hxv); lia]. destruct IH as (->&_&_&l1&l2&->&H1&H2).
        apply elem_of_app in Hx as [Hx|[->|Hx]%elem_of_cons]; [specialize (H1 x Hx Hxv); lia|done|specialize (H2 x Hx Hxv); lia]. }
      assert (d <= t + 1) by (destruct best; destruct IH as [? H]; [destruct H|]; lia).
      split; [done|]. split; [lia|]. split; [done|]. exists l, []. split_and!; [done|exact Hall|]. intros x Hx. by apply not_elem_of_nil in Hx.
    + destruct best as [s|].
      * destruct IH as (->&Ht&Hs&l1&l2&->&H1&H2). split_and!; [done..|]. split; [done|]. exists l1, (l2 ++ [c]). split_and!; [by rewrite <- (assoc_L (++))|done|].
        intros x [Hx| ->%list_elem_of_singleton]%elem_of_app Hxv; [by apply H2|done].
      * destruct IH as [-> H]. split; [done|]. intros x [Hx| ->%list_elem_of_singleton]%elem_of_app Hxv; [by apply H|lia].
  - destruct best as [s|].
    + destruct IH as (->&Ht&Hs&l1&l2&->&H1&H2). split_and!; [done..|]. split; [done|]. exists l1, (l2 ++ [c]). split_and!; [by rewrite <- (assoc_L (++))|done|].
      intros x [Hx| ->%list_elem_of_singleton]%elem_of_app Hxv; [by apply H2|done].
    + destruct IH as [-> H]. split; [done|]. intros x [Hx| ->%list_elem_of_singleton]%elem_of_app Hxv; [by apply H|done].
Qed.

Lemma find_first {A} (f : A -> bool) l x : find f l = Some x -> exists l1 l2, l = l1 ++ x :: l2 /\ f x = true /\ forall y, y ∈ l1 -> f y = false.
Proof.
  induction l as [|a l IH]; [done|]. cbn [find]. destruct (f a) eqn:E.
  - intros [= ->]. exists [], l. split_and!; [done..|]. intros y Hy. by apply not_elem_of_nil in Hy.
  - intros (l1&l2&->&Hx&H)%IH. exists (a :: l1), l2. split_and!; [done..|]. intros y [->|Hy]%elem_of_cons; [done|by apply H].
Qed.
(**  Suggested is the first known name that contains the wrong one or is
    contained in it; without such a name, the nearest one with the same verb if it
    is near enough; and nothing is suggested only when there is neither. *)
Theorem suggest_exact name :
  match suggestBridgeAction name with
  | Some s =>
      name <> EmptyString /\
      ((exists l1 l2, knownBridgeActions = l1 ++ s :: l2 /\ overlaps (ToLower name) s = true /\ forall c, c ∈ l1 -> overlaps (ToLower name) c = false) \/
       ((forall c, c ∈ knownBridgeActions -> overlaps (ToLower name) c = false) /\ nearest_in (ToLower name) knownBridgeActions s /\
        levenshtein (ToLower name) s <= threshold name))
  | None =>
      name = EmptyString \/
      forall c, c ∈ knownBridgeActions -> overlaps (ToLower name) c = false /\ (same_verb (ToLower name) c -> threshold name < levenshtein (ToLower name) c)
  end.
Proof.
  unfold suggestBridgeAction. destruct (str_empty name) eqn:En; [left; by apply bool_decide_eq_true in En|]. apply bool_decide_eq_false in En. cbv zeta.
  set (lower := ToLower name). change (fun c => str_contains lower c || str_contains c lower) with (overlaps lower).
  destruct (find (overlaps lower) knownBridgeActions) as [c|] eqn:Ef.
  { split; [done|]. left. by apply find_first. }
  assert (forall c, c ∈ knownBridgeActions -> overlaps lower c = false) as Hno by (intros c Hc%list_elem_of_In; exact (find_none _ _ Ef c Hc)).
  pose proof (nearest_fold lower (threshold name) knownBridgeActions) as Hn. destruct (foldl _ _ _) as [d [s|]].
  - destruct Hn as (->&Ht&Hs). rewrite (proj2 (Z.leb_le _ _) Ht). split; [done|]. right. by split_and!.
  - destruct Hn as [-> H]. rewrite (proj2 (Z.leb_gt _ _)) by lia. right. intros c Hc. split; [by apply Hno|by apply H].
Qed.
End Suggestions.

(** ** What agents do through the bridge *)

(** Rows come and go only by [p]; rows are only added by [p]. *)
Definition rows_added {A} (p : A -> Prop) (t t' : table A) : Prop := forall x, x ∈ rows t' -> x ∈ rows t \/ p x.
(** Every row is an old one, up to [same], or is of [p]. *)
Definition rows_from {A} (same : A -> A -> Prop) (p : A -> Prop) (t t' : table A) : Prop := forall x', x' ∈ rows t' -> (exists x, x ∈ rows t /\ same x x') \/ p x'.
Lemma rows_added_mono {A} (p q : A -> Prop) t t' : (forall x, p x -> q x) -> rows_added p t t' -> rows_added q t t'.
Proof. intros Hpq H x [Hx|Hx]%H; auto. Qed.
Lemma rows_added_trans {A} (p : A -> Prop) t1 t2 t3 : rows_added p t1 t2 -> rows_added p t2 t3 -> rows_added p t1 t3.
Proof. intros H1 H2 x [Hx|Hx]%H2; auto. Qed.
Lemma rows_from_refl {A} (same : A -> A -> Prop) `{!Reflexive same} p t : rows_from same p t t.
Proof. intros x Hx. left. by exists x. Qed.
Lemma rows_from_trans {A} (same : A -> A -> Prop) `{!Transitive same} (p : A -> Prop) t1 t2 t3 :
  (forall x y, same x y -> p x -> p y) -> rows_from same p t1 t2 -> rows_from same p t2 t3 -> rows_from same p t1 t3.
Proof. intros Hp H1 H2 z [(y&[(x&Hx&Hxy)|Hy]%H1&Hyz)|Hz]%H2; [left; exists x; split; [done|by etrans]|right; by eapply Hp|by right]. Qed.
Lemma rows_from_insert {A} (same : A -> A -> Prop) `{!Reflexive same} (p : A -> Prop) mk t : p (mk (next_id t)) -> rows_from same p t (insert_row mk t).
Proof. intros Hp x [Hx| ->%list_elem_of_singleton]%elem_of_app; [left; by exists x|by right]. Qed.
Lemma rows_from_update {A} (same : A -> A -> Prop) `{!Reflexive same} (p : A -> Prop) k f t : (forall x, same x (f x)) -> rows_from same p t (update_rows k f t).
Proof. intros Hf x' (x&Hx&->)%elem_of_map_if. left. exists x. split; [done|]. by destruct (k x). Qed.

Definition same_channel (c c' : Channel) : Prop := Ch_ID c' = Ch_ID c /\ Ch_Name c' = Ch_Name c /\ Ch_CreatedBy c' = Ch_CreatedBy c.
Definition same_task (t t' : Task) : Prop := Task_ID t' = Task_ID t /\ PostedBy t' = PostedBy t.
Definition same_bid (b b' : Bid) : Prop := Bid_ID b' = Bid_ID b /\ Bid_TaskID b' = Bid_TaskID b /\ Bid_AgentName b' = Bid_AgentName b.
#[export] Instance same_channel_preorder : PreOrder same_channel.
Proof. split; [by intros c|]. intros a b c (?&?&?) (?&?&?). split_and!; congruence. Qed.
#[export] Instance same_task_preorder : PreOrder same_task.
Proof. split; [by intros c|]. intros a b c (?&?) (?&?). split; congruence. Qed.
#[export] Instance same_bid_preorder : PreOrder same_bid.
Proof. split; [by intros c|]. intros a b c (?&?&?) (?&?&?). split_and!; congruence. Qed.

(** What the agents of [P] may do in the database. *)
Record makes (P : string -> Prop) (d d' : db) : Prop := {
  mk_sent : forall m', m' ∈ rows (messages d') -> (exists m, m ∈ rows (messages d) /\ msg_step m m') \/ P (FromAgent m');
  mk_kept : forall m, m ∈ rows (messages d) -> exists m', m' ∈ rows (messages d') /\ msg_step m m' /\ (m' = m \/ concerns P m);
  mk_inbox : rows_by (fun s => P (Inbox_AgentName s)) (inbox_state d) (inbox_state d');
  mk_members : rows_added (fun x => P (Mem_AgentName x)) (channel_members d) (channel_members d');
  mk_invites : rows_added (fun x => P (Inv_AgentName x) \/ P (InvitedBy x)) (channel_invites d) (channel_invites d');
  mk_channels : rows_from same_channel (fun c => P (Ch_CreatedBy c)) (channels d) (channels d');
  mk_reactions : rows_by (fun r => P (Rx_AgentName r)) (message_reactions d) (message_reactions d');
  mk_tasks : rows_from same_task (fun t => P (PostedBy t)) (tasks d) (tasks d');
  mk_bids : rows_from same_bid (fun b => P (Bid_AgentName b)) (task_bids d) (task_bids d')
}.
#[export] Instance makes_preorder P : PreOrder (makes P).
Proof.
  split.
  - intros d. split; try apply rows_by_refl; try (apply rows_from_refl; apply _); try (intros x Hx; by left).
    intros m Hm. exists m. split_and!; [done|reflexivity|by left].
  - intros a b c [] []. split; try (eapply rows_by_trans; eassumption); try (eapply rows_added_trans; eassumption).
    + intros m Hm. destruct (mk_sent1 m Hm) as [(m1&H1&S1)|]; [|by right]. destruct (mk_sent0 m1 H1) as [(m0&H0&S0)|Hp]; [left; exists m0; split; [done|by etrans]|].
      right. by rewrite (msg_step_from _ _ S1).
    + intros m Hm. destruct (mk_kept0 m Hm) as (m1&H1&S1&C1). destruct (mk_kept1 m1 H1) as (m2&H2&S2&C2). exists m2. split_and!; [done|by etrans|].
      destruct C1 as [->|C1]; [exact C2|by right].
    + eapply rows_from_trans; [apply _| |eassumption..]. by intros x y (_&_&->).
    + eapply rows_from_trans; [apply _| |eassumption..]. by intros x y (_&->).
    + eapply rows_from_trans; [apply _| |eassumption..]. by intros x y (_&_&->).
Qed.
Definition same_auction (d d' : db) : Prop := tasks d' = tasks d /\ task_bids d' = task_bids d.
#[export] Instance same_auction_preorder : PreOrder same_auction.
Proof. split; [by intros d|]. intros a b c [] []. split; congruence. Qed.
Lemma touches_makes P d d' : same_auction d d' -> touches P d d' -> makes P d d'.
Proof.
  intros [Et Eb] [Ts Tk Ti Tm Tv Tc Tr]. split; rewrite ?Et, ?Eb; try done; try (apply rows_from_refl; apply _).
  - intros x [Hx|Hx]%(proj2 Tm); auto.
  - intros x [Hx|Hx]%(proj2 Tv); auto.
  - intros c [Hc|Hc]%(proj2 Tc); [left; exists c; by split|by right].
Qed.
(** A statement in the name of the agents of [P]. *)
Definition step_by (P : string -> Prop) (d d' : db) : Prop := messaging_ok d -> messaging_ok d' /\ messaging_le d d' /\ makes P d d'.
#[export] Instance step_by_preorder P : PreOrder (step_by P).
Proof.
  split; [intros d Hd; split_and!; [done|reflexivity|reflexivity]|]. intros a b c H1 H2 Ha. destruct (H1 Ha) as (Hb&L1&M1). destruct (H2 Hb) as (Hc&L2&M2). split_and!; [done|by etrans|by etrans].
Qed.
Lemma acts_step P (Q : string -> Prop) d d' : (forall n, P n -> Q n) -> same_auction d d' -> acts P d d' -> step_by Q d d'.
Proof. intros HPQ Ha [_ H] Hd. destruct (H Hd) as (Hd'&Hl&Ht). split_and!; [done..|]. apply touches_makes; [done|]. by eapply touches_mono. Qed.
(** A step that leaves messages, inboxes and reactions alone. *)
Lemma step_rows P d d' : same_messaging d d' -> message_reactions d' = message_reactions d ->
  rows_added (fun x => P (Mem_AgentName x)) (channel_members d) (channel_members d') ->
  rows_added (fun x => P (Inv_AgentName x) \/ P (InvitedBy x)) (channel_invites d) (channel_invites d') ->
  rows_from same_channel (fun c => P (Ch_CreatedBy c)) (channels d) (channels d') ->
  rows_from same_task (fun t => P (PostedBy t)) (tasks d) (tasks d') ->
  rows_from same_bid (fun b => P (Bid_AgentName b)) (task_bids d) (task_bids d') -> step_by P d d'.
Proof.
  intros Hs Hr H1 H2 H3 H4 H5 Hd. split_and!; [by eapply same_messaging_ok|by apply same_messaging_le|]. destruct Hs as (Em&Ei&_&_).
  split; rewrite ?Em, ?Ei, ?Hr; try done; try apply rows_by_refl.
  - intros m Hm. left. exists m. split; [done|reflexivity].
  - intros m Hm. exists m. split_and!; [done|reflexivity|by left].
Qed.

Section Steps.
Context {HEng : Engine} {HJson : GoJson} {HLow : GoUnicode} {HFTS : FTS} {HSha : GoSha256} {HSniff : ContentSniffer} (P : string -> Prop).
Abbreviation by_P := (step_by P).
Lemma acts_within {A} (p : prog db A) (Q : string -> Prop) : (forall n, Q n -> P n) -> within same_auction p -> within (acts Q) p -> within by_P p.
Proof. intros HPQ Ha Hp. eapply within_mono; [|exact (within_and _ _ p Ha Hp)]. intros d d' [H1 H2]. by apply (acts_step Q). Qed.
Lemma reads_within {A} (p : prog db A) : within eq p -> within by_P p.
Proof. apply within_mono. intros d d' <-. reflexivity. Qed.
Lemma web_within {A} (p : prog db A) : within same_auction p -> within same_web p -> within by_P p.
Proof. intros Ha Hp. apply (acts_within p P); [done..|]. eapply within_mono; [|exact Hp]. intros d d'. apply acts_same. Qed.

Lemma SendMessage_by from to body opts : P from -> within by_P (Messaging.SendMessage from to body opts).
Proof. intros HP. apply (acts_within _ P); [done|walk untouched|by apply SendMessage_acts]. Qed.
Lemma MarkFailed_acts id a reason : within (acts (eq a)) (Messaging.MarkFailed id a reason).
Proof.
  apply within_bind_ok; [apply within_bind; [apply within_query_o, _|by intros [|[]|]]|]. intros m. destruct (claim_guard id a m); [done|]. cbv zeta.
  assert (forall meta, within (acts (eq a)) (UpdateMessageStatus id StatusFailed a (Some meta))) as H.
  { intros meta. apply within_exec_o. intros d. apply acts_update_messages; [done|]. intros Hok x Hx [_ Hc]%andb_true_iff. apply bool_decide_eq_true in Hc. pose proof (mk_rows d Hok x Hx) as Hxo.
    destruct (with_status_step StatusFailed (Some meta) (clock d) x) as [H1 H2]; [done| |done|].
    - intros Hp%(mo_pending x Hxo). congruence.
    - split_and!; [done|done|]. exists a. split; [by apply (mo_claimant x Hxo)|done]. }
  destruct (unmarshal_map _); [apply H|done|apply H].
Qed.
Lemma MarkDone_by id a : P a -> within by_P (Messaging.MarkDone id a).
Proof. intros HP. apply (acts_within _ (eq a)); [by intros ? <-|walk untouched|apply MarkDone_acts]. Qed.
Lemma MarkFailed_by id a reason : P a -> within by_P (Messaging.MarkFailed id a reason).
Proof. intros HP. apply (acts_within _ (eq a)); [by intros ? <-|walk untouched|apply MarkFailed_acts]. Qed.
Lemma max_positive msgs conv n : conversationMaxID msgs !! conv = Some n -> 0 <= n.
Proof.
  unfold conversationMaxID. set (f := fun (acc : gmap Z Z) m => _). assert (forall acc, (forall c n, acc !! c = Some n -> 0 <= n) -> foldl f acc msgs !! conv = Some n -> 0 <= n) as H; [|by apply H].
  induction msgs as [|m msgs IH]; intros acc Ha; [apply Ha|]. cbn [foldl]. apply IH. unfold f. intros c x.
  destruct (Z.ltb_spec (default 0 (acc !! Msg_ConversationID m)) (Msg_ID m)) as [Hlt|]; [|apply Ha].
  rewrite lookup_insert_Some. intros [[_ <-]|[_ Hx]]; [|by apply (Ha c)].
  destruct (acc !! Msg_ConversationID m) as [y|] eqn:E; cbn in Hlt; [|lia]. specialize (Ha _ _ E). lia.
Qed.
Lemma within_for_each_in {D A} G (xs : list A) (f : A -> prog D unit) : (forall x, x ∈ xs -> within G (f x)) -> within G (for_each xs f).
Proof. induction xs as [|x xs IH]; intros H; [done|]. cbn [for_each]. apply within_bind; [apply H; by left|]. intros _. apply IH. intros y Hy. apply H. by right. Qed.
Lemma ReadInbox_by a opts : P a -> within by_P (ReadInbox a opts).
Proof.
  intros HP. unfold ReadInbox. apply within_bind_ok; [apply within_query, _|]. intros msgs. apply within_bind_ok; [apply within_query, _|]. intros total. cbv zeta.
  apply within_bind; [|done]. destruct (MarkRead opts); [|done]. apply within_for_each_in. intros [conv n] Hin. rewrite scan_perm in Hin. apply elem_of_map_to_list in Hin.
  apply within_bind; [|done]. apply (acts_within _ P); [done|walk untouched|]. apply UpdateInboxState_acts; [done|]. by eapply max_positive.
Qed.

Lemma JoinChannel_by ch a : P a -> within by_P (Channels.JoinChannel ch a).
Proof. intros HP. apply (acts_within _ P); [done|walk untouched|by apply JoinChannel_acts]. Qed.
Lemma LeaveChannel_by ch a : P a -> within by_P (Channels.LeaveChannel ch a).
Proof. intros HP. apply (acts_within _ P); [done|walk untouched|by apply LeaveChannel_acts]. Qed.
Lemma CreateChannel_by req : P (req_CreatedBy req) -> within by_P (Channels.CreateChannel req).
Proof. intros HP. apply (acts_within _ P); [done|walk untouched|by apply CreateChannel_acts]. Qed.
End Steps.
Section Steps2.
Context {HEng : Engine} {HJson : GoJson} {HLow : GoUnicode} {HFTS : FTS} {HSha : GoSha256} {HSniff : ContentSniffer} (P : string -> Prop).
Abbreviation by_P := (step_by P).

(** Statements on rows of other agents that leave what is theirs. *)
Lemma KickFromChannel_by ch target a : within by_P (KickFromChannel ch target a).
Proof.
  walk ltac:(idtac). apply step_rows; try done; try (apply rows_from_refl; apply _); try (intros x Hx; by left).
  intros x Hx%elem_of_delete_rows. left. by destruct Hx.
Qed.
Lemma InviteToChannel_by ch target a : P a -> within by_P (InviteToChannel ch target a).
Proof.
  intros HP. walk ltac:(idtac). match goal with |- by_P ?d _ => rename d into d0 end. destruct (channel_exists d0 ch); [|reflexivity].
  apply step_rows; try done; try (apply rows_from_refl; apply _); try (intros x Hx; by left).
  intros x. unfold upsert_invite. cbn [set_channel_invites channel_invites]. destruct (_ =? 0).
  - intros [Hx| ->%list_elem_of_singleton]%elem_of_app; [by left|right; by right].
  - intros (y&Hy&->)%elem_of_map_if. destruct (invite_key ch target y); [right; by right|by left].
Qed.
Lemma UpdateChannel_by ch desc topic a : within by_P (UpdateChannel ch desc topic a).
Proof.
  walk ltac:(idtac). apply step_rows; try done; try (apply rows_from_refl; apply _); try (intros x Hx; by left). by apply rows_from_update; [apply _|].
Qed.
Lemma BroadcastMessage_by ch a body prio meta reply atts : P a -> within by_P (BroadcastMessage ch a body prio meta reply atts).
Proof.
  intros HP. unfold BroadcastMessage. apply within_bind_ok; [apply within_query_o, _|]. intros c. apply within_bind_ok.
  { unfold ensure_sender. apply within_bind_ok; [apply within_query, _|]. intros [|]; [done|]. destruct (IsPrivate c); [done|]. by apply JoinChannel_by. }
  intros _. apply within_bind_ok; [apply within_query, _|]. intros members. cbv zeta. apply within_bind_ok; [by apply SendMessage_by|]. intros msg.
  apply within_bind; [|done]. apply within_for_each. intros m. destruct (_ || _); [done|]. apply within_bind; [by apply SendMessage_by|done].
Qed.

Lemma PostTask_by ch a title desc reqs dl : P a -> within by_P (PostTask ch a title desc reqs dl).
Proof.
  intros HP. walk ltac:(idtac). destruct (channel_exists _ _); [|reflexivity].
  apply step_rows; try done; try (apply rows_from_refl; apply _); try (intros x Hx; by left). by apply rows_from_insert; [apply _|].
Qed.
Lemma BidOnTask_by t a caps est msg : P a -> within by_P (BidOnTask t a caps est msg).
Proof.
  intros HP. walk ltac:(idtac). destruct (negb _ && _); [|reflexivity].
  apply step_rows; try done; try (apply rows_from_refl; apply _); try (intros x Hx; by left). by apply rows_from_insert; [apply _|].
Qed.
Lemma UpdateTaskStatus_by id st who : within by_P (UpdateTaskStatus id st who).
Proof.
  walk ltac:(idtac). apply step_rows; try done; try (apply rows_from_refl; apply _); try (intros x Hx; by left). by apply rows_from_update; [apply _|].
Qed.
Lemma UpdateBidStatus_by id st : within by_P (UpdateBidStatus id st).
Proof.
  walk ltac:(idtac). apply step_rows; try done; try (apply rows_from_refl; apply _); try (intros x Hx; by left). by apply rows_from_update; [apply _|].
Qed.
Lemma AcceptBid_by t b a : within by_P (AcceptBid t b a).
Proof.
  unfold AcceptBid. apply within_bind_ok; [apply within_query_o, _|]. intros task. do 2 (destruct (negb _); [done|]). apply within_bind_ok; [apply within_query_o, _|]. intros bid.
  destruct (negb _); [done|]. apply within_bind_ok; [apply UpdateTaskStatus_by|]. intros _. apply within_bind_ok; [apply UpdateBidStatus_by|]. intros _.
  apply within_bind_ok; [apply within_query, _|]. intros bids. apply within_bind; [|done]. apply within_for_each. intros x. destruct (_ && _); [|done].
  apply within_bind; [apply UpdateBidStatus_by|done].
Qed.
Lemma CompleteTask_by t a : within by_P (CompleteTask t a).
Proof.
  unfold CompleteTask. apply within_bind_ok; [apply within_query_o, _|]. intros task. destruct (_ && _); [done|]. do 2 (destruct (negb _); [done|]). apply UpdateTaskStatus_by.
Qed.
Lemma Upload_by req : within by_P (Upload req).
Proof. apply web_within; walk ltac:(try unfold store_file; untouched). Qed.
Lemma Toggle_by notifier id a rt meta : P a -> within by_P (Toggle notifier id a rt meta).
Proof. intros HP. apply (acts_within P _ P); [done|walk untouched|by apply Toggle_acts]. Qed.
Lemma Remove_by id a rt : P a -> within by_P (Remove id a rt).
Proof. intros HP. apply (acts_within P _ P); [done|walk untouched|]. unfold Remove. destruct (negb _); [done|by apply Delete_acts]. Qed.
End Steps2.

(** *** The wiki, the ledger, and the three together *)
Definition same_article (P : string -> Prop) (x x' : article_row) : Prop :=
  A_ID x' = A_ID x /\ A_Slug x' = A_Slug x /\ A_CreatedBy x' = A_CreatedBy x /\ A_CreatedAt x' = A_CreatedAt x /\ (x' = x \/ P (A_UpdatedBy x')).
Definition authored (P : string -> Prop) (x : article_row) : Prop := P (A_CreatedBy x) /\ P (A_UpdatedBy x).
#[export] Instance same_article_preorder P : PreOrder (same_article P).
Proof.
  split; [intros x; split_and!; try done; by left|]. intros x y z (E1&E2&E3&E4&H1) (F1&F2&F3&F4&H2). split_and!; [congruence..|]. destruct H2 as [->|]; [done|by right].
Qed.
Record writes (P : string -> Prop) (w w' : wiki_db) : Prop := {
  wr_revisions : rows_by (fun r => P (R_ChangedBy r)) (article_revisions w) (article_revisions w');
  wr_articles : rows_from (same_article P) (authored P) (articles w) (articles w')
}.
#[export] Instance writes_preorder P : PreOrder (writes P).
Proof.
  split; [intros w; split; [apply rows_by_refl|apply rows_from_refl; apply _]|]. intros a b c [] []. split; [by eapply rows_by_trans|].
  eapply rows_from_trans; [apply _| |eassumption..]. intros x y (_&_&E&_&Hu) [H1 H2]. split; [by rewrite E|]. destruct Hu as [->|]; done.
Qed.
Record market_by (P : string -> Prop) (w w' : market_db) : Prop := {
  mb_db : step_by P (mk_db w) (mk_db w');
  mb_wiki : writes P (mk_wiki w) (mk_wiki w');
  mb_ledger : rows_by (fun e => P (Rep_AgentName e)) (agent_reputation w) (agent_reputation w')
}.
#[export] Instance market_by_preorder P : PreOrder (market_by P).
Proof. split; [intros w; split; [reflexivity|reflexivity|apply rows_by_refl]|]. intros a b c [] []. split; [by etrans|by etrans|by eapply rows_by_trans]. Qed.

Section Calls.
Context {HEng : Engine} {HJson : GoJson} {HLow : GoUnicode} {HFTS : FTS} {HProv : EmbeddingProvider} {HIdx : VectorIndex} {HErr : ErrorText}
  {HMap : GoMapOrder} {HSha : GoSha256} {HSniff : ContentSniffer} {HAFTS : ArticleFTS} {HFold : FoldEqual} {HText : MarketText} {HBr : BridgeText}
  {HUp : GoUpper} {HSql : SqlRunner market_db}.
Section Agent.
Context (P : string -> Prop) (svc : services) (sem notifier : bool) (agentName : string) (HP : P agentName).

Lemma in_db_by {B} (p : M B) : within (step_by P) p -> within (market_by P) (Marketplace.in_db p).
Proof. intros H. apply within_bind; [|done]. eapply within_focus; [|exact H]. intros d w Hd. split; [exact Hd|reflexivity|apply rows_by_refl]. Qed.
Lemma in_wiki_by {B} (p : prog wiki_db (outcome wiki_error B)) : within (writes P) p -> within (market_by P) (in_wiki p).
Proof. intros H. apply within_bind; [|done]. eapply within_focus; [|exact H]. intros d w Hd. split; [reflexivity|exact Hd|apply rows_by_refl]. Qed.
Lemma on_market_by {B} (p : prog market_db (outcome market_error B)) : within (market_by P) p -> within (market_by P) (on_market p).
Proof. intros H. by apply within_bind. Qed.
Lemma on_db_by {B} (p : M B) : within (step_by P) p -> within (market_by P) (on_db p).
Proof. intros H. by apply on_market_by, in_db_by. Qed.
Lemma on_wiki_by {B} (p : prog wiki_db (outcome wiki_error B)) : within (writes P) p -> within (market_by P) (on_wiki p).
Proof. intros H. by apply on_market_by, in_wiki_by. Qed.
Lemma enrich_by l : within (market_by P) (enrich l).
Proof.
  apply within_bind; [|done]. eapply within_focus; [|exact (reads_within P _ (Enrich_reads l))]. intros d w Hd. split; [exact Hd|reflexivity|apply rows_by_refl].
Qed.
Lemma wiki_reads {A} (p : prog wiki_db A) : within eq p -> within (writes P) p.
Proof. apply within_mono. intros d d' <-. reflexivity. Qed.

Lemma CreateArticle_by slug title body : within (writes P) (CreateArticle slug title body agentName).
Proof.
  unfold CreateArticle. destruct (ValidateSlug slug); [done|]. apply within_bind_ok; [|intros _; apply wiki_reads; walk ltac:(fail)]. apply within_exec_o. intros d.
  destruct (slug_taken d slug); [reflexivity|]. split; [by apply rows_by_insert|]. apply rows_from_insert; [apply _|by split].
Qed.
Lemma UpdateArticle_by slug title body : within (writes P) (UpdateArticle slug title body agentName).
Proof.
  apply within_bind_ok; [|intros _; apply wiki_reads; walk ltac:(fail)]. apply within_exec_o. intros d.
  destruct (find_row _ _) as [a|]; [|reflexivity]. split; [by apply rows_by_insert|]. apply rows_from_update; [apply _|]. intros x. split_and!; try done. by right.
Qed.
Lemma Award_by t b : within (market_by P) (Award t b agentName).
Proof.
  unfold Award. apply within_bind_ok; [apply in_db_by, AcceptBid_by|]. intros _. apply within_bind_ok; [apply in_db_by, reads_within; walk ltac:(fail)|]. intros [task bids].
  destruct (str_empty _); [done|]. apply within_bind; [by apply in_db_by, SendMessage_by|]. by intros [].
Qed.
Lemma RecordEntry_by e : P (Rep_AgentName e) -> within (market_by P) (RecordEntry e).
Proof.
  intros He. unfold RecordEntry. do 2 (destruct (str_empty _); [done|]). cbv zeta. apply within_exec_o. intros w. destruct (storable_entry _); [|reflexivity].
  split; [reflexivity|reflexivity|]. by apply rows_by_insert.
Qed.
Lemma MarkTaskDone_by t actual score : within (market_by P) (MarkTaskDone t agentName actual score).
Proof.
  unfold MarkTaskDone. apply within_bind_ok; [apply in_db_by, reads_within; walk ltac:(fail)|]. intros [task bids]. cbv zeta. apply within_bind_ok; [apply in_db_by, CompleteTask_by|].
  intros _. apply within_bind_ok; [|done]. induction (task_domains _) as [|dom doms IH]; [done|]. cbn [fmap list_fmap record_all].
  apply within_bind_ok; [by apply RecordEntry_by|]. intros e. by apply within_bind_ok.
Qed.
Lemma PostAuction_by ch title desc meta dl : within (market_by P) (PostAuction ch agentName title desc meta dl).
Proof. unfold PostAuction. cbv zeta. destruct (marshal_task _); [by apply in_db_by, PostTask_by|done]. Qed.
Lemma service_Bid_by t meta est : within (market_by P) (service_Bid t agentName meta est).
Proof. unfold service_Bid. destruct (marshal_bid _); [by apply in_db_by, BidOnTask_by|done]. Qed.
Lemma ReadSkillCard_by n : within (market_by P) (ReadSkillCard n).
Proof. unfold ReadSkillCard. apply within_bind; [apply in_wiki_by, wiki_reads; walk ltac:(fail)|]. by intros [|[| [] | | | | |]|]. Qed.
Lemma QueryReputation_by n dom limit : within (market_by P) (QueryReputation n dom limit).
Proof. walk ltac:(fail). Qed.
Lemma Search_reads opts : within eq (Search.Search sem agentName opts).
Proof.
  assert (forall limit, within eq (semanticSearch agentName opts limit)) as Hs.
  { intros limit. unfold semanticSearch. destruct (str_empty _); [apply within_fulltextSearch|]. apply within_bind_ok; [apply Embed_frame|]. intros v. cbv zeta.
    apply within_bind_ok; [apply index_Search_frame|]. intros results. destruct (bool_decide _); [apply within_bind_ok; [apply within_fulltextSearch|done]|]. apply within_bind; [|done].
    generalize (@nil SearchResult). induction results as [|[id dist] rest IH]; intros found; [done|]. cbn [collect_semantic]. apply within_bind; [apply within_query_o, _|].
    intros [msg|e|w]; [|apply IH..]. apply within_bind; [apply within_access|]. intros [|]; [|apply IH]. cbn [negb]. do 2 (destruct (_ : bool); [apply IH|]). cbv zeta.
    destruct (_ <=? _); [done|apply IH]. }
  unfold Search.Search. cbv zeta. destruct (String.eqb _ ModeAuto).
  - destruct sem; [|apply within_fulltextSearch]. apply within_bind; [apply index_Len_frame|]. intros n. destruct (_ && _); [|apply within_fulltextSearch].
    apply within_bind; [apply Hs|]. intros r. apply within_bind; [apply within_fulltextSearch|done].
  - destruct (String.eqb _ ModeSemantic); [|destruct (String.eqb _ ModeFulltext); [apply within_fulltextSearch|done]]. destruct (negb sem); [done|].
    apply within_bind; [apply Hs|]. intros [r|e|w]; [done| |done]. apply within_bind_ok; [apply within_fulltextSearch|done].
Qed.
Lemma list_channels_reads : within eq (Channels.ListChannels agentName).
Proof.
  apply within_bind_ok; [apply within_query, _|]. intros l. induction l as [|ch l IH]; [done|]. cbn [count_each]. apply within_bind_ok; [apply within_query, _|]. intros n. by apply within_bind_ok.
Qed.
End Agent.
End Calls.

(** *** Any call *)
Definition db_R (P : string -> Prop) (d d' : db) : Prop := messaging_le d d' /\ makes P d d'.
#[export] Instance db_R_preorder P : PreOrder (db_R P).
Proof. split; [intros d; split; reflexivity|]. intros a b c [] []. split; by etrans. Qed.
Definition market_I (w : market_db) : Prop := messaging_ok (mk_db w).
Record market_R (P : string -> Prop) (w w' : market_db) : Prop := {
  mr_db : db_R P (mk_db w) (mk_db w');
  mr_wiki : writes P (mk_wiki w) (mk_wiki w');
  mr_ledger : rows_by (fun e => P (Rep_AgentName e)) (agent_reputation w) (agent_reputation w')
}.
#[export] Instance market_R_preorder P : PreOrder (market_R P).
Proof. split; [intros w; split; [reflexivity|reflexivity|apply rows_by_refl]|]. intros a b c [] []. split; [by etrans|by etrans|by eapply rows_by_trans]. Qed.
Lemma market_by_step P w w' : market_I w -> market_by P w w' -> market_I w' /\ market_R P w w'.
Proof. intros HI [H1 H2 H3]. destruct (H1 HI) as (?&?&?). split; [done|]. by split. Qed.

(** The calls of the services, in the programs of the bridge. *)
Create HintDb bridge.
#[export] Hint Resolve SendMessage_by MarkDone_by MarkFailed_by ReadInbox_by JoinChannel_by LeaveChannel_by KickFromChannel_by InviteToChannel_by UpdateChannel_by
  BroadcastMessage_by PostTask_by BidOnTask_by AcceptBid_by CompleteTask_by Upload_by Toggle_by Remove_by CreateArticle_by UpdateArticle_by
  Award_by MarkTaskDone_by PostAuction_by service_Bid_by ReadSkillCard_by QueryReputation_by in_db_by : bridge.
#[export] Hint Extern 2 (within (step_by _) (Channels.CreateChannel _)) => (apply CreateChannel_by) : bridge.
#[export] Hint Extern 2 (within (step_by _) (Search.Search _ _ _)) => (apply reads_within, Search_reads) : bridge.
#[export] Hint Extern 2 (within (step_by _) (Channels.ListChannels _)) => (apply reads_within, list_channels_reads) : bridge.
#[export] Hint Extern 9 (within (step_by _) _) => (apply reads_within; walk fail) : bridge.
#[export] Hint Extern 9 (within (writes _) _) => (apply wiki_reads; walk fail) : bridge.
Ltac calls :=
  lazymatch goal with
  | |- within _ (Ret _) => exact I
  | |- within _ (on_db _) => apply on_db_by; eauto with bridge
  | |- within _ (on_wiki _) => apply on_wiki_by; eauto with bridge
  | |- within _ (on_market _) => apply on_market_by; eauto with bridge
  | |- within _ (enrich _) => apply enrich_by
  | |- within _ (load_messages _) => eauto with bridge
  | |- within _ (query_o _ _) => apply within_query_o, _
  | |- within _ (bind_ok _ _) => apply within_bind_ok; [calls|intros ?; calls]
  | |- within _ (bind _ _) => apply within_bind; [calls|intros ?; calls]
  | |- within _ (let _ := _ in _) => cbv zeta; calls
  | |- within _ (match ?x with _ => _ end) => destruct x; calls
  | |- within _ ?p => let h := head_of p in unfold h; calls
  end.

Section AnyCall.
Context {HEng : Engine} {HJson : GoJson} {HLow : GoUnicode} {HFTS : FTS} {HProv : EmbeddingProvider} {HIdx : VectorIndex} {HErr : ErrorText}
  {HMap : GoMapOrder} {HSha : GoSha256} {HSniff : ContentSniffer} {HAFTS : ArticleFTS} {HFold : FoldEqual} {HText : MarketText} {HBr : BridgeText}
  {HUp : GoUpper} {HSql : SqlRunner market_db}.
Context (P : string -> Prop) (svc : services) (sem notifier : bool) (agentName : string) (HP : P agentName).

Lemma load_messages_by ids : within (market_by P) (load_messages ids).
Proof. induction ids as [|id ids IH]; [done|]. cbn [load_messages]. apply within_bind; [calls|]. intros r. by apply within_bind_ok. Qed.
#[local] Hint Resolve load_messages_by : bridge.
Lemma handlers_by : Forall (fun h => h.1 = "claim_messages" \/ forall a, within (market_by P) (h.2 a)) (handlers svc sem notifier agentName).
Proof. repeat (apply Forall_cons; split; [|]); [..|apply Forall_nil; done]; cbn [fst snd]; [|by left|..]; right; intros a; calls. Qed.
Lemma handleSendMessage_by m : within (market_by P) (handleSendMessage svc (Some agentName) m).
Proof. calls. Qed.
Lemma rg_by {B} (p : prog market_db B) w : within (market_by P) p -> rg market_I (market_R P) p (fun _ _ => True) w.
Proof. apply within_rg. intros x y. apply market_by_step. Qed.
Lemma rg_run_then {A B} (p : prog market_db A) (f : A -> prog market_db B) w : market_I w ->
  rg market_I (market_R P) p (fun _ _ => True) w -> (forall x, within (market_by P) (f x)) -> rg market_I (market_R P) (bind p f) (fun _ _ => True) w.
Proof. intros HI Hp Hf. apply rg_bind; [apply _|done|]. eapply rg_mono; [|exact Hp]. intros x w' _ _. by apply rg_by. Qed.
Lemma claim_safe a w : market_I w -> rg market_I (market_R P) (callClaimMessages agentName a) (fun _ _ => True) w.
Proof.
  intros HI. unfold callClaimMessages, bind_ok. apply rg_run_then; [done| |intros x; calls]. do 2 (apply rg_run_then; [done| |done]).
  apply (rg_focus mk_db put_mk_db messaging_ok (db_R P) market_I (market_R P) _ (fun _ _ => True)); [done|by intros ?? []| |done|].
  - intros x d Hx Hd Hi. split; [done|]. split; [done|reflexivity|apply rows_by_refl].
  - apply rg_claiming; [apply _|done|by intros ?? []| |done]. intros d t _ Hd Hact.
    assert (step_by P d (set_messages t d)) as Hs by (apply (acts_step (eq agentName) P); [by intros ? <-|by split|done]). destruct (Hs Hd) as (H1&H2&H3). by split.
Qed.
Lemma Call_safe actionName a w : market_I w -> rg market_I (market_R P) (Call svc sem notifier agentName actionName a) (fun _ _ => True) w.
Proof.
  intros HI. unfold Call. cbv zeta. destruct (assoc _ bridgeTopLevelOnly); [done|]. destruct (assoc (unalias actionName) _) as [call|] eqn:E; [|done].
  unfold assoc in E. destruct (find _ _) as [[n c]|] eqn:Ef; [|done]. injection E as ->. apply find_some in Ef as [Hin _]. apply list_elem_of_In in Hin.
  destruct (proj1 (Forall_forall _ _) handlers_by _ Hin) as [En|Hw]; cbn [fst snd] in *; [|by apply rg_by]. subst n.
  assert (call = callClaimMessages agentName) as ->; [|by apply claim_safe].
  unfold handlers in Hin. repeat (apply elem_of_cons in Hin as [Hin|Hin]; [by simplify_eq|]). by apply not_elem_of_nil in Hin.
Qed.
End AnyCall.

(** *** Concurrent calls *)
Inductive command := ByCall (actionName : string) (a : args) | BySend (m : message_args).
Record request := mkRequest { rq_Agent : string; rq_Command : command }.
Definition callers (rs : list request) (n : string) : Prop := exists r, r ∈ rs /\ rq_Agent r = n.
(** Time passes. *)
Definition market_tick (w w' : market_db) : Prop :=
  exists d t, tick (mk_db w) d /\ now (mk_wiki w) <= t /\
  w' = put_mk_wiki (mkWikiDb t (articles (mk_wiki w)) (article_revisions (mk_wiki w)) (article_links (mk_wiki w))) (put_mk_db d w).
(** What an agent that makes no call finds again. *)
Record left_to (n : string) (w w' : market_db) : Prop := {
  lt_sent : forall m', m' ∈ rows (messages (mk_db w')) -> FromAgent m' = n -> exists m, m ∈ rows (messages (mk_db w)) /\ msg_step m m';
  lt_received : forall m, m ∈ rows (messages (mk_db w)) -> to_agent m = Some n -> m ∈ rows (messages (mk_db w'));
  lt_inbox : rows_by (fun s => Inbox_AgentName s <> n) (inbox_state (mk_db w)) (inbox_state (mk_db w'));
  lt_members : forall x, x ∈ rows (channel_members (mk_db w')) -> Mem_AgentName x = n -> x ∈ rows (channel_members (mk_db w));
  lt_channels : forall c', c' ∈ rows (channels (mk_db w')) -> Ch_CreatedBy c' = n -> exists c, c ∈ rows (channels (mk_db w)) /\ same_channel c c';
  lt_reactions : rows_by (fun r => Rx_AgentName r <> n) (message_reactions (mk_db w)) (message_reactions (mk_db w'));
  lt_tasks : forall t', t' ∈ rows (tasks (mk_db w')) -> PostedBy t' = n -> exists t, t ∈ rows (tasks (mk_db w)) /\ same_task t t';
  lt_bids : forall b', b' ∈ rows (task_bids (mk_db w')) -> Bid_AgentName b' = n -> exists b, b ∈ rows (task_bids (mk_db w)) /\ same_bid b b';
  lt_revisions : rows_by (fun r => R_ChangedBy r <> n) (article_revisions (mk_wiki w)) (article_revisions (mk_wiki w'));
  lt_articles : forall x', x' ∈ rows (articles (mk_wiki w')) -> A_UpdatedBy x' = n -> x' ∈ rows (articles (mk_wiki w));
  lt_ledger : rows_by (fun e => Rep_AgentName e <> n) (agent_reputation w) (agent_reputation w')
}.

Section BridgeTheorem.
Context {HEng : Engine} {HJson : GoJson} {HLow : GoUnicode} {HFTS : FTS} {HProv : EmbeddingProvider} {HIdx : VectorIndex} {HErr : ErrorText}
  {HMap : GoMapOrder} {HSha : GoSha256} {HSniff : ContentSniffer} {HAFTS : ArticleFTS} {HFold : FoldEqual} {HText : MarketText} {HBr : BridgeText}
  {HUp : GoUpper} {HSql : SqlRunner market_db}.
Context (svc : services) (sem notifier : bool).
Definition bridge_prog (r : request) : prog market_db unit := 
  let! _ := match rq_Command r with
            | ByCall actionName a => Call svc sem notifier (rq_Agent r) actionName a
            | BySend m => handleSendMessage svc (Some (rq_Agent r)) m
            end in Ret tt.
Lemma market_tick_step P w w' : market_I w -> market_tick w w' -> market_I w' /\ market_R P w w'.
Proof.
  intros HI (d&t&(s&_&->)&_&->). apply market_by_step; [done|]. split; [|split; [apply rows_by_refl|apply rows_from_refl; apply _]|apply rows_by_refl].
  apply (acts_step P P); [done|by split|]. by apply acts_same.
Qed.

(** C17.  Whatever actions agents call and messages they send concurrently, with
    any statement failing: an agent that does nothing finds nothing sent, posted,
    bid, written or recorded in its name, no message to it claimed or finished, its
    read marks, reactions and revisions as they were, and itself a member of no
    channel more.  The invariant of the messages holds. *)
Theorem bridge_isolation (rs : list request) (w : market_db) ps (w' : market_db) (Hmsgs : messaging_ok (mk_db w))
  (Hrun : rtc (pool_step market_tick) (bridge_prog <$> rs, w) (ps, w')) :
  messaging_ok (mk_db w') /\ forall n, ~ callers rs n -> left_to n w w'.
Proof.
  destruct (pool_invariant market_I (market_R (callers rs)) (A := unit) market_tick) with (ps := bridge_prog <$> rs) (ps' := ps) (Q := fun (_ : nat) (_ : unit) (_ : market_db) => True)
    (3 := Hmsgs) (4 := Hrun) as (HI&[[_ []] [] Hled]&_); [intros x y; apply market_tick_step| |].
  - intros i p Hp. rewrite list_lookup_fmap in Hp. destruct (rs !! i) as [r|] eqn:E; [|done]. injection Hp as <-.
    unfold bridge_prog. apply rg_bind; [apply _|exact Hmsgs|]. eapply (rg_mono _ _ _ (fun _ _ => True)); [by intros|].
    assert (callers rs (rq_Agent r)) as Hr by (exists r; split; [by eapply list_elem_of_lookup_2|done]).
    destruct (rq_Command r); [by apply Call_safe|]. by apply rg_by, handleSendMessage_by.
  - split; [done|]. intros n Hn. split; try (eapply rows_by_mono; [|eassumption]; cbv beta; intros x Hx Hxn; apply Hn; by rewrite <- Hxn).
    + intros m' Hm' Hf. destruct (mk_sent0 m' Hm') as [|Hb]; [done|]. by rewrite Hf in Hb.
    + intros m Hm Ht. destruct (mk_kept0 m Hm) as (m'&Hm'&_&[<-|(k&Hk&Hb)]); [done|]. assert (k = n) as -> by congruence. done.
    + intros x Hx Hxn. destruct (mk_members0 x Hx) as [|Hb]; [done|]. by rewrite Hxn in Hb.
    + intros c Hc Hcn. destruct (mk_channels0 c Hc) as [|Hb]; [done|]. by rewrite Hcn in Hb.
    + intros t Ht Htn. destruct (mk_tasks0 t Ht) as [|Hb]; [done|]. by rewrite Htn in Hb.
    + intros b Hb Hbn. destruct (mk_bids0 b Hb) as [|Hb']; [done|]. by rewrite Hbn in Hb'.
    + intros x Hx Hxn. destruct (wr_articles0 x Hx) as [(y&Hy&_&_&_&_&[->|Hp])|[_ Hp]]; [done|by rewrite Hxn in Hp..].
Qed.
End BridgeTheorem.

(** ** The catalogue and the bridge *)
Section Catalogue.
Context {HEng : Engine} {HJson : GoJson} {HLow : GoUnicode} {HFTS : FTS} {HProv : EmbeddingProvider} {HIdx : VectorIndex} {HErr : ErrorText}
  {HMap : GoMapOrder} {HSha : GoSha256} {HSniff : ContentSniffer} {HAFTS : ArticleFTS} {HFold : FoldEqual} {HText : MarketText} {HBr : BridgeText}
  {HUp : GoUpper} {HSql : SqlRunner market_db}.
Context (svc : services) (sem notifier : bool) (agentName : string).

Definition refuses {B} (p : prog market_db (outcome bridge_error B)) : Prop := forall w, wp p (fun o w' => (forall r, o <> Ok r) /\ w' = w) w.
Lemma refuses_err {B} e : refuses (Ret (Err e) : prog market_db (outcome bridge_error B)).
Proof. by intros w. Qed.
Lemma refuses_needs {B} b s (k : prog market_db (outcome bridge_error B)) : refuses k -> refuses (needs b s k).
Proof. intros H. destruct b; [exact H|apply refuses_err]. Qed.
Lemma refuses_text {B} (a : args) key (k : string -> prog market_db (outcome bridge_error B)) : a !! key = None \/ (forall s, refuses (k s)) -> refuses (text_param a key k).
Proof. intros H. unfold text_param, getString. cbv zeta. destruct H as [->|H]; [apply refuses_err|]. destruct (str_empty _); [apply refuses_err|apply H]. Qed.
Lemma refuses_id {B} (a : args) key (k : Z -> prog market_db (outcome bridge_error B)) : a !! key = None \/ (forall n, refuses (k n)) -> refuses (id_param a key k).
Proof. intros H. unfold id_param, getInt. cbv zeta. destruct H as [->|H]; [apply refuses_err|]. destruct (_ =? 0); [apply refuses_err|apply H]. Qed.
Lemma refuses_after {A B} (p : prog market_db (outcome bridge_error A)) (k : A -> prog market_db (outcome bridge_error B)) :
  within eq p -> (forall x, refuses (k x)) -> refuses (bind_ok p k).
Proof.
  intros Hp Hk w. apply wp_bind_ok. eapply wp_mono; [|exact (within_wp eq p w Hp)]. cbv beta. intros [x|e'|z] w' <-; [apply Hk|done..].
Qed.
Lemma resolve_reads a : within eq (resolveChannelID a).
Proof.
  unfold resolveChannelID. destruct (positive _); [done|]. cbv zeta. destruct (negb _); [|done]. apply within_bind_ok; [|done].
  apply within_bind; [|done]. apply within_bind; [|done]. apply (within_focus mk_db put_mk_db eq); [intros d w <-; by destruct w|]. apply within_query_o, _.
Qed.
Definition required : list (string * string) := allActions ≫= fun act => (fun p => (Action_Name act, Param_Name p)) <$> filter (fun p => Required p = true) (Params act).
Lemma required_pairs act p : act ∈ allActions -> p ∈ Params act -> Required p = true -> (Action_Name act, Param_Name p) ∈ required.
Proof.
  intros Ha Hp Hr. apply list_elem_of_bind. exists act. split; [|done]. apply list_elem_of_fmap. exists p. split; [done|]. by apply list_elem_of_filter.
Qed.
Ltac refuse :=
  repeat (apply refuses_needs || (apply refuses_text; left; assumption) || (apply refuses_id; left; assumption)
          || (apply refuses_text; right; intros ?) || (apply refuses_id; right; intros ?)
          || (apply refuses_after; [apply resolve_reads|intros ?])).

(** C18.  A call of an action of the catalogue without a parameter that the
    catalogue requires is refused, and nothing changes; every action of the
    catalogue has its place in the dispatch. *)
Theorem required_refused act :
  act ∈ allActions ->
  (exists call, assoc (unalias (Action_Name act)) (handlers svc sem notifier agentName) = Some call /\ forall a, Call svc sem notifier agentName (Action_Name act) a = call a) /\
  forall p a w, p ∈ Params act -> Required p = true -> a !! Param_Name p = None ->
    wp (Call svc sem notifier agentName (Action_Name act) a) (fun o w' => (forall r, o <> Ok r) /\ w' = w) w.
Proof.
  intros Hact. split.
  - unfold allActions in Hact. repeat (apply elem_of_cons in Hact as [->|Hact]; [eexists; by split|]). by apply not_elem_of_nil in Hact.
  - intros p a w Hp Hr Hn. pose proof (required_pairs act p Hact Hp Hr) as Hin. generalize dependent (Param_Name p). generalize (Action_Name act). clear. intros n key Hn Hin.
    enough (refuses (Call svc sem notifier agentName n a)) as H by apply H. vm_compute in Hin.
    repeat (apply elem_of_cons in Hin as [Hin|Hin]; [injection Hin as -> ->|]); [..|by apply not_elem_of_nil in Hin].
    all: lazy [Call unalias assoc handlers bridgeActionAliases bridgeTopLevelOnly find fst snd fmap option_fmap option_map default String.eqb Ascii.eqb Bool.eqb].
    all: match goal with |- refuses (?f) => let h := head_of f in unfold h end.
    all: refuse.
Qed.
End Catalogue.

(** ** Runs *)
Module BridgeRuns.
#[local] Existing Instances Runs.eng Runs.gojson SearchRuns.fts_all SearchRuns.no_text SearchRuns.in_order SearchRuns.echo SearchRuns.three AttachmentRuns.sha AttachmentRuns.sniff
  WikiRuns.first_match MarketRuns.ascii_fold MarketRuns.coded QueryRuns.ascii_upper.
#[local] Instance ascii_lower : GoUnicode := {| ToLower := sql_lower; ToLower_ascii := fun s _ => eq_refl |}.
#[local] Instance plain_text : BridgeText := {|
  raw_of := fun s => if str_empty s then RawEmpty else if String.eqb s "{}" then raw_empty_object else RawInvalid s; raw_of_empty := eq_refl;
  parse_RFC3339 := fun _ => None; base64_decode := fun s => Some s; base64_encode := fun s => s; base64_round := fun s => eq_refl;
  capabilities_text := fun _ => "{}"
|}.
#[local] Instance no_rows : SqlRunner market_db := {| Cell := string; run_sql := fun _ _ => Some ([], []) |}.
Definition everything : services := mkServices true true true true true true true true true.
Definition said (l : list (string * string)) : args := list_to_map ((fun kv => (kv.1, VStr kv.2)) <$> l).
Definition call (agent action : string) (a : args) (w : market_db) := run_ok (Call everything false false agent action a) w.
Definition after {A} (r : A * market_db) : market_db := r.2.

(** Ann has a private channel of her own, with a question and an answer; bob
    is a member of nothing. *)
Definition town : market_db :=
  mkMarketDb (set_agents (mkTable [WebScenarios.person "ann" "ai" 1 1; WebScenarios.person "bob" "ai" 2 2] 3) (set_clock 1000 empty_db)) (mkWikiDb 0 empty_table empty_table []) empty_table.
Lemma town_ok : messaging_ok (mk_db town).
Proof. split; simpl; [apply table_ok_empty| |apply table_ok_empty|constructor]. intros m Hm. by apply elem_of_nil in Hm. Qed.
Definition plans : args := <["is_private" := VBool true]> (said [("name", "plans")]).
Definition with_channel : market_db := after (call "ann" "create_channel" plans town).
Definition asked : market_db := after (call "ann" "send_channel_message" (said [("channel_name", "plans"); ("body", "the code?")]) with_channel).
Definition answered : market_db := after (call "ann" "send_message" (<["reply_to" := VInt 1]> (<["channel_id" := VInt 1]> (said [("body", "4711")]))) asked).

(** Calls of ann's, interleaved, one of them failing on the way. *)
Definition requests : list request :=
  [mkRequest "ann" (ByCall "claim_messages" ∅); mkRequest "ann" (BySend (mkMessageArgs "" "plans" "soon" "" 5 "" 0 ""));
   mkRequest "ann" (ByCall "create_article" (said [("slug", "the-code"); ("title", "Code"); ("body", "see [[plans]]")]));
   mkRequest "ann" (ByCall "react" (<["message_id" := VInt 1]> (said [("reaction", "approve")])))].
Definition schedule : list (nat * bool) := concat (repeat [(0, false); (1, false); (2, false)]%nat 12) ++ (3, true)%nat :: concat (repeat [(1, false)]%nat 12).
Definition evening := run_schedule schedule (bridge_prog everything false false <$> requests) answered.
Lemma answered_ok : messaging_ok (mk_db answered).
Proof.
  assert (forall agent action a w, messaging_ok (mk_db w) -> messaging_ok (mk_db (after (call agent action a w)))) as H; [|by do 3 apply H; apply town_ok].
  intros agent action a w Hw. pose proof (wp_run_ok _ _ _ (rg_wp market_I (market_R (eq agent)) _ _ w Hw (Call_safe (eq agent) everything false false agent eq_refl action a w Hw))) as [Hok _]. exact Hok.
Qed.
Lemma bridge_isolation_witness : left_to "bob" answered evening.2 /\
  Schema.Body <$> rows (messages (mk_db evening.2)) = ["the code?"; "4711"; "soon"] /\ A_Slug <$> rows (articles (mk_wiki evening.2)) = ["the-code"].
Proof.
  split; [|split; by vm_compute].
  destruct (bridge_isolation everything false false requests answered evening.1 evening.2 answered_ok) as [_ H].
  - unfold evening. rewrite <- surjective_pairing. apply run_schedule_reachable.
  - apply H. intros (r&Hr&Ho). unfold requests in Hr. repeat (apply elem_of_cons in Hr as [->|Hr]; [discriminate Ho|]). by apply elem_of_nil in Hr.
Defined.
Lemma required_refused_witness :
  wp (Call everything false false "bob" "mark_done" (said [("status", "done")])) (fun o w' => (forall r, o <> Ok r) /\ w' = answered) answered.
Proof.
  destruct (required_refused everything false false "bob" action_mark_done) as [_ H]; [by do 4 right; left|].
  apply (H (mkParam "message_id" "number" "ID of the message to mark" true "") (said [("status", "done")]) answered); [by left|done|by vm_compute].
Defined.

(** What a name is corrected to: not to its opposite; but a single letter, for
    which the comment promises no match, finds a name that contains it. *)
Theorem suggestions :
  suggestBridgeAction "read_message" = None /\ suggestBridgeAction "send_mesage" = Some "send_message" /\ suggestBridgeAction "e" = Some "read_inbox".
Proof. split_and!; by vm_compute. Qed.

(** Bob, no member of the private channel, is refused its messages and may not
    send to it as a channel; but the answers to its messages are shown to him, and
    a message with the channel's id is taken. *)
Theorem private_channel_leaks :
  (call "bob" "get_channel_messages" (said [("channel_name", "plans")]) answered).1 = Err BNotMember /\
  (call "bob" "send_channel_message" (said [("channel_name", "plans"); ("body", "hi")]) answered).1 = Err (BMarket (MDb ErrNotChannelMember)) /\
  match (call "bob" "get_replies" {["message_id" := VInt 1]} answered).1 with
  | Ok (RMap m) => match assoc "replies" m with Some (FMessages l) => (fun e => Schema.Body (en_Message e)) <$> l = ["4711"] | _ => False end
  | _ => False
  end /\
  (fun m => (FromAgent m, Msg_ChannelID m)) <$> rows (messages (mk_db (after (call "bob" "send_message" (<["channel_id" := VInt 1]> (said [("body", "hi")])) answered))))
    = [("ann", Some 1); ("ann", Some 1); ("bob", Some 1)].
Proof. split_and!; by vm_compute. Qed.

(** The id of the message replied to is read by [send_message] from an integer
    and from a float, by [send_channel_message] from a float only: an integer is
    dropped without a word. *)
Theorem integer_reply_dropped :
  positive (getInt {["reply_to" := VInt 1]} "reply_to" 0) = Some 1 /\ float_reply_to {["reply_to" := VInt 1]} = None /\ float_reply_to {["reply_to" := VFloat f64_one]} = Some 1.
Proof. split_and!; by vm_compute. Qed.

(** A channel whose name starts with digits is taken for the channel of that id
    by the tool that sends. *)
Theorem digits_shadow_names : ValidateChannelName "1-on-1" = Ok tt /\
  (run_ok (resolveChannel "1-on-1") (after (call "ann" "create_channel" (said [("name", "1-on-1")]) answered))).1 = Ok 1 /\
  Ch_ID <$> find (fun c => String.eqb (Ch_Name c) "1-on-1") (rows (channels (mk_db (after (call "ann" "create_channel" (said [("name", "1-on-1")]) answered))))) = Some 2.
Proof. split_and!; by vm_compute. Qed.
(** The number of waiting messages counts those of the system, the list leaves
    them out: an agent with a notification and no message is told that the list is
    cut short, and reading on shows it nothing more. *)
Definition notified : market_db := after (run_ok (Marketplace.in_db (Messaging.SendMessage "system" "ann" "hello" (mkSendOptions "" 5 RawEmpty None None None []))) town).
Theorem status_counts_differ :
  match (run_ok (handleMyStatus everything (fun _ => "") (Some "ann")) notified).1 with
  | Ok (RMap m) =>
      match assoc "direct_messages" m, assoc "direct_messages_total" m, assoc "truncated" m with
      | Some (FMaps l), Some (FInt n), Some (FBool b) => l = [] /\ n = 1 /\ b = true
      | _, _, _ => False
      end
  | _ => False
  end.
Proof. by vm_compute. Qed.
End BridgeRuns.
