(* ===== verification/GoalTools.v ===== *)
(** * The tools around goals (internal/mcp/goals_tools.go)

    What agents call to create a goal, to put a task tree under it, to claim a
    task, to ask for a secret and to close the goal.  The tools join the services
    of [Goals], [GoalTasks], [Agents] and [Secrets] and write two statements of
    their own.  [goal_tools_isolation]: whatever agents call concurrently, the
    goals of a user none of whose agents calls are not closed.
    [resources_shown]: which names of secrets an agent is told. *)
From S2P Require Import Prelude Prog Table Schema Messaging Agents Goals GoalsSpec GoalTasks Secrets Auth AuthHandlers Gateway AgentQuery Channels Retention MessagingSpec MessagingQueries.
From stdpp Require Import pretty.
#[local] Open Scope Z_scope.

(** ** State and answers *)
Record ResourceRequest := mkResourceRequest {
  RR_ID : Z; RequesterAgentID : Z; RR_TaskID : Z; ResourceName : string; ResourceType : string; RR_Reason : string; RR_Status : string; RR_CreatedAt : Z
}.
#[export] Instance resource_request_row : Row ResourceRequest := RR_ID.
Record goal_world := mkGoalWorld { gw_db : db; gw_auth : auth_db; gw_secrets : secrets_db; resource_requests : table ResourceRequest }.
Definition put_gw_db (d : db) (w : goal_world) : goal_world := mkGoalWorld d (gw_auth w) (gw_secrets w) (resource_requests w).
Definition put_gw_auth (d : auth_db) (w : goal_world) : goal_world := mkGoalWorld (gw_db w) d (gw_secrets w) (resource_requests w).
Definition put_gw_secrets (d : secrets_db) (w : goal_world) : goal_world := mkGoalWorld (gw_db w) (gw_auth w) d (resource_requests w).
Definition set_resource_requests (t : table ResourceRequest) (w : goal_world) : goal_world := mkGoalWorld (gw_db w) (gw_auth w) (gw_secrets w) t.

Inductive goal_tool_error :=
| TUnauthenticated | TNotConfigured (service : string) | TRequired (what : string) | TParseTree | TStatus (s : string) | TOtherUser
| TDb (e : error) | TSecrets (e : secret_error).
Inductive goal_reply :=
| RGoal (id : Z) (slug : string) (channelID : Z) (status : GoalStatus)
| RTree (rootTaskID taskCount : Z)
| RClaimed (taskID : Z)
| RRequested (resource nextAction : string)
| RResources (names : list string)
| RCompleted (goalID : Z) (status : string).

(** [encoding/json] reading the text of a [TreeNode]. *)
Class TreeText := { parse_tree : string -> option TreeNode }.

(** Which of the optional services are wired. *)
Record goal_services := mkGoalServices { has_goals : bool; has_tasks : bool; has_secrets : bool }.

Section Tools.
Context {HEng : Engine} {HChan : ChannelCreator} {HUp : GoUpper} {HTree : TreeText}.
Abbreviation K B := (prog goal_world (outcome goal_tool_error B)).

Definition goals_db {B} (p : M B) : K B := let! r := focus gw_db put_gw_db p in Ret (map_error TDb r).
Definition secrets_of {B} (p : prog secrets_db (outcome secret_error B)) : K B := let! r := focus gw_secrets put_gw_secrets p in Ret (map_error TSecrets r).
(** A call whose error the tool drops. *)
Definition attempt {B} (p : K B) : K unit := let! r := p in Ret (match r with Panic w => Panic w | _ => Ok tt end).

Context (svc : goal_services).

(** The agent the transport authenticated, and its row. *)
Definition as_caller {B} (caller : option string) (k : string -> K B) : K B :=
  match caller with Some name => k name | None => Ret (Err TUnauthenticated) end.
Definition configured {B} (b : bool) (service : string) (k : K B) : K B := if b then k else Ret (Err (TNotConfigured service)).
Definition positive_int (v : Z) : option Z := if 0 <? v then Some v else None.

(** The name of a user; empty when there is none or the query fails. *)
Definition owner_username (ownerID : Z) : K string :=
  let! u := focus gw_auth put_gw_auth (GetUserByID ownerID) in
  Ret (Ok (match u with Ok u => Username u | _ => EmptyString end)).
Definition goal_input (title description ownerUsername : string) (agent : Agent) (budgetTokens budgetCents maxDepth : Z) : CreateGoalInput :=
  mkCreateGoalInput title description (Agent_OwnerID agent) ownerUsername (Some (Agent_ID agent)) (positive_int budgetTokens) (positive_int budgetCents) maxDepth.
(** The numbers default to 0, 0 and 3. *)
Definition handleCreateGoal (caller : option string) (title description : string) (budgetTokens budgetCents maxDepth : Z) : K goal_reply :=
  as_caller caller (fun agentName => configured (has_goals svc) "goals" (
    if str_empty title || str_empty description then Ret (Err (TRequired "title and description"))
    else
      let? agent := goals_db (GetAgent agentName) in
      let? ownerUsername := owner_username (Agent_OwnerID agent) in
      let? g := goals_db (CreateGoal (goal_input title description ownerUsername agent budgetTokens budgetCents maxDepth)) in
      Ret (Ok (RGoal (Goal_ID g) (Slug g) (Goal_ChannelID g) (Goal_Status g))))).

(** The tool's own UPDATE of the root task, which leaves the time stamp. *)
Definition with_root (rootID : Z) (g : Goal) : Goal :=
  mkGoal (Goal_ID g) (Slug g) (Goal_Title g) (Goal_Description g) (OwnerUserID g) (Goal_ChannelID g) (CoordinatorAgentID g) (Some rootID) (Goal_Status g)
    (Goal_BudgetTokens g) (Goal_BudgetDollarsCents g) (MaxSpawnDepth g) (Alert80PctPosted g) (Goal_UpdatedAt g) (Goal_CompletedAt g) (CompletionSummary g)
    (Goal_CompletionMessageID g).
Definition set_root (rootID goalID : Z) : M unit := update_goal goalID None (with_root rootID).
Definition tree_input (goalID agentID : Z) (tree : TreeNode) : CreateTreeInput := mkCreateTreeInput goalID (Some agentID) None tree (Some GTApproved) "mcp".
Definition handleProposeTaskTree (caller : option string) (goalID : Z) (treeJSON : string) : K goal_reply :=
  as_caller caller (fun agentName => configured (has_tasks svc) "goal_tasks" (
    if goalID <=? 0 then Ret (Err (TRequired "goal_id"))
    else if str_empty treeJSON then Ret (Err (TRequired "tree"))
    else match parse_tree treeJSON with
    | None => Ret (Err TParseTree)
    | Some tree =>
        let? agent := goals_db (GetAgent agentName) in
        let? created := goals_db (CreateTree (tree_input goalID (Agent_ID agent) tree)) in
        let? _ := attempt (goals_db (set_root (fst created) goalID)) in
        let? _ := attempt (goals_db (Goals.TransitionStatus goalID GoalActive)) in
        Ret (Ok (RTree (fst created) (Z.of_nat (length (snd created)))))
    end)).

Definition handleClaimTask (caller : option string) (taskID : Z) : K goal_reply :=
  as_caller caller (fun agentName => configured (has_tasks svc) "goal_tasks" (
    if taskID <=? 0 then Ret (Err (TRequired "task_id"))
    else
      let? agent := goals_db (GetAgent agentName) in
      let? _ := goals_db (Claim taskID (Agent_ID agent) None) in
      let? _ := attempt (goals_db (Transition taskID GTInProgress (mkExtras EmptyString None))) in
      Ret (Ok (RClaimed taskID)))).

(** The INSERT, with its reference to a task. *)
Definition task_known (taskID : Z) (w : goal_world) : bool := negb (affected (by_id taskID) (goal_tasks (gw_db w)) =? 0).
Definition request_row (agentID taskID : Z) (name reason : string) (now id : Z) : ResourceRequest :=
  mkResourceRequest id agentID taskID name "env_var" reason "pending" now.
Definition insert_request (agentID taskID : Z) (name reason : string) : K unit :=
  exec_o (TDb EDb)
    (fun w => if task_known taskID w
              then set_resource_requests (insert_row (request_row agentID taskID name reason (clock (gw_db w))) (resource_requests w)) w else w)
    (fun w => if task_known taskID w then Ok tt else Err (TDb EDb)).
Definition next_action (resource agentName : string) : string := "synapbus secrets set " +:+ resource +:+ " <value> --scope agent:" +:+ agentName.
Definition handleRequestResource (caller : option string) (resource_name reason : string) (taskID : Z) : K goal_reply :=
  as_caller caller (fun agentName =>
    let resourceName := ToUpper (trim_space resource_name) in
    if str_empty resourceName || str_empty reason || (taskID <=? 0) then Ret (Err (TRequired "resource_name, reason, and task_id"))
    else
      let? agent := goals_db (GetAgent agentName) in
      let? _ := insert_request (Agent_ID agent) taskID resourceName reason in
      Ret (Ok (RRequested resourceName (next_action resourceName agentName)))).

Definition resource_scopes (agent : Agent) : list Secrets.Scope := [mkScope ScopeUser (Agent_OwnerID agent); mkScope ScopeAgent (Agent_ID agent)].
Definition handleListResources (caller : option string) : K goal_reply :=
  as_caller caller (fun agentName =>
    if negb (has_secrets svc) then Ret (Ok (RResources []))
    else
      let? agent := goals_db (GetAgent agentName) in
      let? infos := secrets_of (List_secrets (resource_scopes agent)) in
      Ret (Ok (RResources (i_Name <$> infos)))).

(** The three statuses a goal is closed with. *)
Definition terminal_status (s : string) : option GoalStatus :=
  if String.eqb s "completed" then Some GoalCompleted else if String.eqb s "stuck" then Some GoalStuck
  else if String.eqb s "cancelled" then Some GoalCancelled else None.
Definition handleCompleteGoal (caller : option string) (goalID : Z) (status summary : string) (messageID : Z) : K goal_reply :=
  as_caller caller (fun agentName => configured (has_goals svc) "goals" (
    if (goalID <=? 0) || str_empty status || str_empty summary then Ret (Err (TRequired "goal_id, status, and summary"))
    else match terminal_status status with
    | None => Ret (Err (TStatus status))
    | Some st =>
        let? callerAgent := goals_db (GetAgent agentName) in
        let? g := goals_db (Goals.Get goalID) in
        if negb (Agent_OwnerID callerAgent =? OwnerUserID g) then Ret (Err TOtherUser)
        else
          let? _ := goals_db (Complete goalID st summary messageID) in
          Ret (Ok (RCompleted goalID status))
    end)).
End Tools.

(** ** Whose goals change *)

(** The goals move one by one as [T] says and keep what they are; the new ones
    are as [N] says.  The agents stay. *)
Record goal_moves (T : Goal -> Goal -> Prop) (N : Goal -> Prop) (d d' : db) : Prop := {
  gm_agents : agents d' = agents d;
  gm_old : forall g, g ∈ rows (goals d) -> exists g', g' ∈ rows (goals d') /\ identity_of g' = identity_of g /\ T g g';
  gm_new : forall g', g' ∈ rows (goals d') -> (exists g, g ∈ rows (goals d) /\ identity_of g = identity_of g') \/ N g'
}.
(** Such a move, which also keeps the tables of goals well formed. *)
Definition moves (T : Goal -> Goal -> Prop) (N : Goal -> Prop) (d d' : db) : Prop := goals_step d d' /\ goal_moves T N d d'.

(** What is never taken from a goal, and the one way its status may change: a
    draft, paused or stuck goal becomes active. *)
Record spared (g g' : Goal) : Prop := {
  sp_summary : CompletionSummary g' = CompletionSummary g;
  sp_message : Goal_CompletionMessageID g' = Goal_CompletionMessageID g;
  sp_completed : Goal_CompletedAt g' = Goal_CompletedAt g;
  sp_alert : Alert80PctPosted g' = Alert80PctPosted g;
  sp_status : Goal_Status g' = Goal_Status g \/ Goals.legalTransition (Goal_Status g) GoalActive = true /\ Goal_Status g' = GoalActive
}.
#[export] Instance spared_preorder : PreOrder spared.
Proof.
  split; [intros g; split; auto|]. intros a b c [? ? ? ? [E|[L E]]] [? ? ? ? [E'|[L' E']]]; split; try congruence; [left; congruence| |right; by split; congruence|by right].
  right. split; [by rewrite <- E|done].
Qed.

Lemma identity_owner g g' : identity_of g' = identity_of g -> Goal_ID g' = Goal_ID g /\ OwnerUserID g' = OwnerUserID g.
Proof. unfold identity_of. intros H. by simplify_eq. Qed.

Lemma goal_moves_same T N d d' : Reflexive T -> agents d' = agents d -> goals d' = goals d -> goal_moves T N d d'.
Proof. intros HT Ha Hg. split; [done|intros g H; exists g; by rewrite Hg|intros g H; left; exists g; by rewrite <- Hg]. Qed.
Lemma moves_same T N d d' : Reflexive T -> agents d' = agents d -> goals d' = goals d -> moves T N d d'.
Proof. intros HT Ha Hg. split; [by apply goals_same_step|by apply goal_moves_same]. Qed.
Lemma goal_moves_update (T : Goal -> Goal -> Prop) N id f d : Reflexive T -> (forall g, identity_of (f g) = identity_of g) ->
  (forall g, g ∈ rows (goals d) -> by_id id g = true -> T g (f g)) -> goal_moves T N d (set_goals (update_rows (by_id id) f (goals d)) d).
Proof.
  intros HT Hf Hm. split; [done| |]; cbn [goals set_goals update_rows rows].
  - intros g Hg. exists (if by_id id g then f g else g). split; [apply elem_of_map_if; eauto|]. destruct (by_id id g) eqn:E; [split; auto|done].
  - intros g' (g&Hg&->)%elem_of_map_if. left. exists g. split; [done|]. by destruct (by_id id g).
Qed.

(** ** Isolation *)
Inductive goal_command :=
| ToolCreate (title description : string) (budgetTokens budgetCents maxDepth : Z)
| ToolPropose (goalID : Z) (treeJSON : string)
| ToolClaim (taskID : Z)
| ToolRequest (resource reason : string) (taskID : Z)
| ToolList
| ToolComplete (goalID : Z) (status summary : string) (messageID : Z).
Record goal_request := mkGoalRequest { gr_Caller : option string; gr_Command : goal_command }.

Section Isolation.
Context {HEng : Engine} {HLow : GoUnicode} {HUp : GoUpper} {HTree : TreeText} (svc : goal_services).
Definition tool_prog (r : goal_request) : prog goal_world unit :=
  let! _ := match gr_Command r with
            | ToolCreate t d bt bc m => handleCreateGoal svc (gr_Caller r) t d bt bc m
            | ToolPropose g t => handleProposeTaskTree svc (gr_Caller r) g t
            | ToolClaim t => handleClaimTask svc (gr_Caller r) t
            | ToolRequest n why t => handleRequestResource (gr_Caller r) n why t
            | ToolList => handleListResources svc (gr_Caller r)
            | ToolComplete g s t m => handleCompleteGoal svc (gr_Caller r) g s t m
            end in Ret tt.
(** Meanwhile time passes, and accounts and secrets change as they will. *)
Definition goal_tick (w w' : goal_world) : Prop := exists d a s, tick (gw_db w) d /\ w' = mkGoalWorld d a s (resource_requests w).

Context (A0 : table Agent) (callers : string -> Prop).
(** The owners of the agents that call. *)
Definition served (o : Z) : Prop := exists a, a ∈ rows A0 /\ callers (Agent_Name a) /\ Agent_OwnerID a = o.
Definition touched (g g' : Goal) : Prop := served (OwnerUserID g) \/ spared g g'.
Definition gd_I (d : db) : Prop := goals_ok d /\ agents d = A0.
Definition gd_R : db -> db -> Prop := goal_moves touched (fun g => served (OwnerUserID g)).
Definition gw_I (w : goal_world) : Prop := gd_I (gw_db w).
Definition gw_R (w w' : goal_world) : Prop := gd_R (gw_db w) (gw_db w').

#[export] Instance gd_R_preorder : PreOrder gd_R.
Proof.
  split; [intros d; apply goal_moves_same; [by right|done..]|]. intros d1 d2 d3 [Ha Ho Hn] [Ha' Ho' Hn']. split; [congruence| |].
  - intros g (g2&H2&E2&T2)%Ho. destruct (Ho' g2 H2) as (g3&H3&E3&T3). exists g3. split; [done|]. split; [congruence|]. apply identity_owner in E2 as [_ E2].
    destruct T2 as [T2|T2]; [by left|]. destruct T3 as [T3|T3]; [left; by rewrite <- E2|right; by etrans].
  - intros g3 [(g2&H2&E2)|H3]%Hn'; [|by right]. destruct (Hn g2 H2) as [(g1&H1&E1)|Hs]; [left; exists g1; split; congruence|]. right. by apply identity_owner in E2 as [_ <-].
Qed.
#[export] Instance gw_R_preorder : PreOrder gw_R.
Proof. split; [intros w; unfold gw_R; reflexivity|intros a b c H H'; unfold gw_R in *; by etrans]. Qed.

(** Moves that stay within the guarantee. *)
Lemma moves_safe (T : Goal -> Goal -> Prop) (N : Goal -> Prop) d d' : gd_I d -> moves T N d d' ->
  (forall g g', g ∈ rows (goals d) -> T g g' -> touched g g') -> (forall g, N g -> served (OwnerUserID g)) -> gd_I d' /\ gd_R d d'.
Proof.
  intros [Hok Ha] [Hs [E Ho Hn]] HT HN. split; [split; [by apply Hs|congruence]|]. split; [done| |].
  - intros g Hg. destruct (Ho g Hg) as (g'&?&?&?). exists g'. eauto.
  - intros g' [?|?]%Hn; auto.
Qed.

(** What a program over the goals ensures, it ensures inside the tools. *)
Definition yields {B} (Q : B -> db -> Prop) (o : outcome goal_tool_error B) (w : goal_world) : Prop := forall b, o = Ok b -> Q b (gw_db w).
Lemma rg_lasting {D A} (I : D -> Prop) (R : D -> D -> Prop) `{!PreOrder R} (p : prog D A) Q d0 :
  rg I R p Q d0 -> rg I R p (fun a d => forall d', R d d' -> I d' -> Q a d') d0.
Proof.
  revert d0. induction p as [a|k IH|u k IH f IHf]; intros d0; cbn [rg].
  - intros H d Hd Hi d' Hd' Hi'. apply H; [by etrans|done].
  - intros H d Hd Hi. apply IH; auto.
  - intros H d Hd Hi. destruct (H d Hd Hi) as (?&?&?&?). split_and!; auto.
Qed.
Lemma rg_goals_db {B} (p : M B) (Q : B -> db -> Prop) w : gw_I w ->
  rg gd_I gd_R p (fun o d => forall b, o = Ok b -> Q b d) (gw_db w) -> rg gw_I gw_R (goals_db p) (yields Q) w.
Proof.
  intros HI Hp. apply rg_bind; [apply _|done|]. eapply rg_mono; [|apply rg_lasting; [apply _|]].
  2: { apply (rg_focus gw_db put_gw_db gd_I gd_R gw_I gw_R p (fun o d => forall b, o = Ok b -> Q b d)); [done|done| |done|exact Hp]. intros e d _ HR Hd. by split. }
  cbv beta. intros o d _ Ho d' Hd' Hi' b. destruct o as [x|e|s]; cbn [map_error]; intros [= <-]. by apply (Ho d' Hd' Hi' x).
Qed.
Lemma rg_tool_then {B C} (p : prog goal_world (outcome goal_tool_error B)) (f : B -> prog goal_world (outcome goal_tool_error C)) (Q : B -> db -> Prop) w :
  gw_I w -> rg gw_I gw_R p (yields Q) w -> (forall b w', gw_I w' -> Q b (gw_db w') -> rg gw_I gw_R (f b) (fun _ _ => True) w') ->
  rg gw_I gw_R (bind_ok p f) (fun _ _ => True) w.
Proof.
  intros HI Hp Hf. apply rg_bind_ok; [apply _|done|]. eapply rg_mono; [|exact Hp].
  intros [b|e|s] w' Hi HQ; [|done..]. apply Hf; [done|by apply HQ].
Qed.
Lemma rg_yields_true {B} (p : prog goal_world (outcome goal_tool_error B)) w : rg gw_I gw_R p (fun _ _ => True) w -> rg gw_I gw_R p (yields (fun _ _ => True)) w.
Proof. apply rg_mono. by intros o d _ _ b _. Qed.

(** *** What the calls of the services do to the goals *)
Lemma goals_quiet {B} (p : M B) T N d0 : within (moves T N) p -> (forall g g', T g g' -> spared g g') -> (forall g, N g -> served (OwnerUserID g)) ->
  rg gd_I gd_R p (fun _ _ => True) d0.
Proof. intros Hp HT HN. apply (within_rg gd_I gd_R (moves T N)); [|done]. intros d d' Hd Hm. eapply moves_safe; [done|exact Hm|intros g g' _ H; right; by apply HT|done]. Qed.
Lemma same_goals {B} (p : M B) d0 : within (fun d d' => agents d' = agents d /\ goals d' = goals d) p -> rg gd_I gd_R p (fun _ _ => True) d0.
Proof.
  intros Hp. apply (goals_quiet p eq (fun _ => False)); [|by intros g ? <-|done]. eapply within_mono; [|exact Hp]. intros d d' [Ha Hg]. by apply moves_same.
Qed.
Lemma rg_caller n w : callers n -> gw_I w -> rg gw_I gw_R (goals_db (GetAgent n)) (yields (fun a _ => served (Agent_OwnerID a))) w.
Proof.
  intros Hn HI. apply rg_goals_db; [done|]. apply rg_bind; [apply _|exact HI|]. apply rg_query_o; [apply _|]. intros d d' _ [_ Ha] _ _.
  split; [|by intros d2 _ _ a]. destruct (find_row (active_named n) (agents d)) as [a|] eqn:E; intros d2 _ _ b; [intros [= <-]|done].
  apply find_row_Some in E as [E Hin]. exists a. rewrite <- Ha. split; [done|]. split; [|done]. unfold active_named in E. guards. congruence.
Qed.

(** A fact about the goal of an id that the guarantee keeps. *)
Definition about (F : Goal -> Prop) (id : Z) (d : db) : Prop := exists g, g ∈ rows (goals d) /\ Goal_ID g = id /\ F g.
Definition kept (F : Goal -> Prop) : Prop := forall g g', F g -> identity_of g' = identity_of g -> touched g g' -> F g'.
Lemma about_later F id d d' : kept F -> gd_R d d' -> about F id d -> about F id d'.
Proof.
  intros HF [_ Ho _] (g&Hg&Hid&H). destruct (Ho g Hg) as (g'&Hg'&E&T). exists g'. split; [done|]. split; [apply identity_owner in E as [-> _]; done|by apply (HF g)].
Qed.
Lemma about_unique F id d g : goals_ok d -> about F id d -> g ∈ rows (goals d) -> by_id id g = true -> F g.
Proof.
  intros [Ht _ _] (g0&H0&E0&HF) Hg Hb%Z.eqb_eq. rewrite <- (table_ok_unique (goals d) g0 g); [done..|]. rewrite Hb. exact E0.
Qed.
Lemma rg_update F allowed id f d0 : kept F -> about F id d0 -> (forall g, goal_later g (f g)) ->
  (forall d g, allowed d = true -> goal_status_allowed (Goal_Status g) = true -> goal_status_allowed (Goal_Status (f g)) = true) ->
  (forall g, F g -> touched g (f g)) -> rg gd_I gd_R (update_goal_if allowed id f) (fun _ _ => True) d0.
Proof.
  intros HF H0 Hl Hs Ht. apply (within_rg_from gd_I gd_R (fun d d' => d' = if negb (allowed d) && negb (affected (by_id id) (goals d) =? 0) then d
    else set_goals (update_rows (by_id id) f (goals d)) d)); [|by apply within_exec_o].
  intros d d' Hd HI ->. pose proof (goals_update_step id allowed f d Hl (Hs d)) as Hstep. destruct (_ && _); [split; [done|reflexivity]|].
  apply (moves_safe (fun g g' => g' = g \/ by_id id g = true /\ g' = f g) (fun _ => False)); [done| | |done].
  - split; [exact Hstep|]. apply goal_moves_update; [by left|intros g; apply Hl|by right].
  - intros g g' Hg [->|[Hb ->]]; [right; reflexivity|]. apply Ht. eapply about_unique; [apply HI|by eapply about_later|done..].
Qed.

Lemma Get_about id (F : Goal -> Goal -> Prop) d0 : (forall g, F g g) -> (forall g, kept (F g)) ->
  rg gd_I gd_R (Goals.Get id) (fun o d => forall g, o = Ok g -> about (F g) id d) d0.
Proof.
  intros Hr HF. apply rg_query_o; [apply _|]. intros d d' _ _ Hd' _. split; [|done].
  intros g. destruct (find_id id (goals d)) as [g'|] eqn:E; [|done]. apply find_id_Some in E as [E Hin]. intros [= <-].
  apply (about_later (F g') id d); [done|done|]. by exists g'.
Qed.
Lemma served_kept : kept (fun g => served (OwnerUserID g)).
Proof. intros g g' H [_ E]%identity_owner _. by rewrite E. Qed.
Lemma owner_kept o : kept (fun g => OwnerUserID g = o).
Proof. intros g g' H [_ E]%identity_owner _. by rewrite E. Qed.
Lemma reached_kept g0 : kept (fun g => served (OwnerUserID g) \/ spared g0 g).
Proof. intros g g' [H|H] [_ E]%identity_owner T; [left; by rewrite E|]. destruct T as [T|T]; [left; by rewrite E|right; by etrans]. Qed.

Lemma set_root_safe root id d0 : rg gd_I gd_R (set_root root id) (fun _ _ => True) d0.
Proof.
  apply (goals_quiet _ spared (fun _ => False)); [|done..]. apply within_exec_o. intros d. cbn [negb andb].
  split; [|apply goal_moves_update; [apply _|done|]; by split; auto]. by apply (goals_update_step id (fun _ => true)).
Qed.
Lemma activate_safe id d0 : gd_I d0 -> rg gd_I gd_R (Goals.TransitionStatus id GoalActive) (fun _ _ => True) d0.
Proof.
  intros HI. apply rg_bind_ok; [apply _|done|]. eapply rg_mono; [|apply (Get_about id (fun g0 g => served (OwnerUserID g) \/ spared g0 g)); [by right|apply reached_kept]].
  intros [g0|e|s] d Hi Ha; [|done..]. specialize (Ha g0 eq_refl). destruct (negb _) eqn:El; [done|]. guards.
  intros d1 Hd1 Hi1. eapply rg_update; [apply (reached_kept g0)|by eapply about_later; [apply reached_kept|exact Hd1|]|by repeat split|done|].
  intros g [H|H]; [by left|]. right. destruct H as [? ? ? ? [E|[_ E]]]; split; try done; [right|left]; cbn [Goal_Status with_goal_status]; [by rewrite E|by rewrite E].
Qed.
Lemma complete_safe id st summary msg d0 : about (fun g => served (OwnerUserID g)) id d0 -> gd_I d0 -> rg gd_I gd_R (Complete id st summary msg) (fun _ _ => True) d0.
Proof.
  intros Ha HI. apply rg_bind_ok; [apply _|done|].
  eapply rg_mono; [|apply (rg_stable gd_I gd_R (Goals.Get id) (about (fun g => served (OwnerUserID g)) id) (fun _ _ => True)); [intros ??; apply about_later, served_kept|done|]].
  2: { apply same_goals. by apply within_query_o. }
  intros [g|e|s] d Hi [_ Hd]; [|done..]. case_bool_decide; [done|]. destruct (negb _); [done|]. intros d1 Hd1 Hi1.
  eapply rg_update; [apply served_kept|by eapply about_later; [apply served_kept|exact Hd1|]| | |by left].
  - intros x. repeat split; [done|]. cbn. intros [v Hv]. unfold completion_time. destruct st; eauto.
  - intros d2 x [Hall _]%andb_prop _. exact Hall.
Qed.
Lemma channel_agents slug title description owner : within (fun d d' => agents d' = agents d /\ goals d' = goals d) (CreateGoalChannel slug title description owner).
Proof.
  apply within_bind_ok; [|done]. unfold CreateChannel. destruct (ValidateChannelName _); [|done..]. apply within_bind_ok.
  - apply within_exec_o. intros d. by destruct (channel_insertable _ d).
  - intros ch. apply within_bind_ok; [|done]. apply within_exec_o. intros d. by destruct (_ && _).
Qed.
Lemma create_goal_safe inp d0 : served (cg_OwnerUserID inp) -> rg gd_I gd_R (CreateGoal inp) (fun _ _ => True) d0.
Proof.
  intros Hs. apply (goals_quiet _ eq (fun g => OwnerUserID g = cg_OwnerUserID inp)); [|by intros g ? <-|by intros g ->].
  unfold CreateGoal. case_bool_decide; [done|]. cbv zeta. apply within_bind_ok; [|intros slug; apply within_bind_ok; [|intros ch; apply within_bind_ok; [|done]]].
  - generalize (slugify (cg_Title inp)) at 2. generalize 98%nat 2. intros n. induction n as [|n IH]; intros i slug; [done|].
    apply within_bind_ok; [apply within_exec; intros d; by apply moves_same|]. intros []; [apply IH|done].
  - eapply within_mono; [|apply channel_agents]. intros d d' [Ha Hg]. by apply moves_same.
  - apply within_exec_o. intros d. split; [apply goals_insert_step|]. destruct (goal_insertable _ d); [|by apply goal_moves_same].
    split; [done| |]; cbn [goals set_goals insert_row rows].
    + intros g Hg. exists g. split; [apply elem_of_app; by left|done].
    + intros g [Hg| ->%list_elem_of_singleton]%elem_of_app; [left; by exists g|by right].
Qed.
Lemma tree_safe inp d0 : rg gd_I gd_R (CreateTree inp) (fun _ _ => True) d0.
Proof. apply same_goals, within_exec_o. intros d. cbv zeta. by destruct (walk _ _ _ _ _ _ _) as [[? [? ?]]|?|?]. Qed.
Lemma claim_task_safe id a m d0 : rg gd_I gd_R (Claim id a m) (fun _ _ => True) d0.
Proof. apply same_goals. apply within_bind; [done|]. intros now. by apply within_exec_o. Qed.
Lemma move_task_safe id st ex d0 : rg gd_I gd_R (Transition id st ex) (fun _ _ => True) d0.
Proof.
  apply same_goals. apply within_bind_ok; [by apply within_exec_o|]. intros t. destruct (negb _); [done|]. apply within_bind; [done|]. intros now.
  apply within_exec_o. intros d. by destruct (_ && _).
Qed.

(** *** The tools *)
Lemma rg_attempt {B} (p : prog goal_world (outcome goal_tool_error B)) w : gw_I w -> rg gw_I gw_R p (fun _ _ => True) w -> rg gw_I gw_R (attempt p) (yields (fun _ _ => True)) w.
Proof. intros HI Hp. apply rg_yields_true, rg_bind; [apply _|done|]. by eapply rg_mono; [|exact Hp]. Qed.
Lemma rg_tool {B} (p : M B) w : gw_I w -> rg gd_I gd_R p (fun _ _ => True) (gw_db w) -> rg gw_I gw_R (goals_db p) (yields (fun _ _ => True)) w.
Proof. intros HI Hp. apply rg_goals_db; [done|]. eapply rg_mono; [|exact Hp]. done. Qed.
Lemma rg_aside {B} (p : prog goal_world B) w : within (fun w w' => gw_db w' = gw_db w) p -> rg gw_I gw_R p (fun _ _ => True) w.
Proof. apply within_rg. intros x y Hx E. unfold gw_I, gw_R. rewrite E. split; [exact Hx|reflexivity]. Qed.

Lemma rg_tried {B} (p : M B) w : gw_I w -> rg gd_I gd_R p (fun _ _ => True) (gw_db w) -> rg gw_I gw_R (attempt (goals_db p)) (yields (fun _ _ => True)) w.
Proof. intros HI Hp. apply rg_attempt; [done|]. eapply rg_mono; [|by apply rg_tool]. done. Qed.
Lemma owner_username_aside o : within (fun w w' => gw_db w' = gw_db w) (owner_username o).
Proof. apply within_bind; [|done]. by split. Qed.
Lemma secrets_aside l : within (fun w w' => gw_db w' = gw_db w) (secrets_of (List_secrets l)).
Proof. apply within_bind; [|done]. apply (within_focus gw_secrets put_gw_secrets eq); [by intros|]. unfold List_secrets. destruct l; [done|]. destruct (find _ _); [done|]. by apply within_exec. Qed.

Lemma tool_prog_safe r w : (forall n, gr_Caller r = Some n -> callers n) -> gw_I w -> rg gw_I gw_R (tool_prog r) (fun _ _ => True) w.
Proof.
  intros Hc HI. apply rg_bind; [apply _|done|]. eapply (rg_mono _ _ _ (fun _ _ => True)); [by intros|]. destruct r as [caller c]. cbn [gr_Caller gr_Command] in *.
  assert (forall n {B} (k : Agent -> prog goal_world (outcome goal_tool_error B)), caller = Some n ->
    (forall a w', gw_I w' -> served (Agent_OwnerID a) -> rg gw_I gw_R (k a) (fun _ _ => True) w') ->
    rg gw_I gw_R (bind_ok (goals_db (GetAgent n)) k) (fun _ _ => True) w) as Hagent.
  { intros n B k E Hk. eapply rg_tool_then; [done|apply rg_caller; [by apply Hc|done]|]. cbv beta. eauto. }
  destruct caller as [n|]; [|by destruct c; exact (fun _ _ _ => Logic.I)]. specialize (Hagent n).
  destruct c; unfold handleCreateGoal, handleProposeTaskTree, handleClaimTask, handleRequestResource, handleListResources, handleCompleteGoal; cbn [as_caller];
    unfold configured; cbv zeta;
    repeat match goal with |- rg _ _ (if ?b then _ else _) _ _ => destruct b; try exact (fun _ _ _ => Logic.I) end.
  - apply Hagent; [done|]. intros a w1 H1 Ha. eapply rg_tool_then; [done|apply rg_yields_true, rg_aside, owner_username_aside|]. intros u w2 H2 _.
    eapply rg_tool_then; [done|by apply rg_tool; [|apply create_goal_safe]|done].
  - destruct (parse_tree _); [|done]. apply Hagent; [done|]. intros a w1 H1 _. eapply rg_tool_then; [done|by apply rg_tool, tree_safe|]. intros made w2 H2 _.
    eapply rg_tool_then; [done|by apply rg_tried; [|apply set_root_safe]|]. intros _ w3 H3 _.
    eapply rg_tool_then; [done|by apply rg_tried; [|apply activate_safe]|done].
  - apply Hagent; [done|]. intros a w1 H1 _. eapply rg_tool_then; [done|by apply rg_tool, claim_task_safe|]. intros _ w2 H2 _.
    eapply rg_tool_then; [done|by apply rg_tried; [|apply move_task_safe]|done].
  - apply Hagent; [done|]. intros a w1 H1 _. eapply rg_tool_then; [done|apply rg_yields_true, rg_aside|done]. apply within_exec_o. intros w'. by destruct (task_known _ _).
  - apply Hagent; [done|]. intros a w1 H1 _. eapply rg_tool_then; [done|apply rg_yields_true, rg_aside, secrets_aside|done].
  - destruct (terminal_status _); [|done]. apply Hagent; [done|]. intros a w1 H1 Ha.
    eapply rg_tool_then; [done|apply rg_goals_db; [done|]; apply (Get_about _ (fun x y => OwnerUserID y = OwnerUserID x)); [done|intros ?; apply owner_kept]|].
    intros gl w2 H2 (g'&Hg'&E&Eo). destruct (negb _) eqn:Eq; [done|]. guards.
    eapply rg_tool_then; [done|apply rg_tool; [done|]; apply complete_safe; [|exact H2]|done]. exists g'. split; [done|]. split; [done|]. congruence.
Qed.
Lemma goal_tick_safe w w' : gw_I w -> goal_tick w w' -> gw_I w' /\ gw_R w w'.
Proof. intros [Hok Ha] (d&a&s&(t&_&->)&->). unfold gw_I, gd_I, gw_R, gd_R. cbn [gw_db]. split; [split; [by apply (goals_same_step (gw_db w))|done]|]. apply goal_moves_same; [by right|done..]. Qed.
End Isolation.

Section Theorems.
Context {HEng : Engine} {HLow : GoUnicode} {HUp : GoUpper} {HTree : TreeText} (svc : goal_services).
(** The owners whose agents make the requests. *)
Definition asked_by (rs : list goal_request) (w : goal_world) (o : Z) : Prop :=
  exists r a, r ∈ rs /\ gr_Caller r = Some (Agent_Name a) /\ a ∈ rows (agents (gw_db w)) /\ Agent_OwnerID a = o.

(** C25.  Whatever goal tools agents call concurrently, with any statement failing:
    the goals stay well formed; a goal of a user none of whose agents calls keeps
    what it is and its summary, verdict message, end and alert, and its status,
    unless it was a draft, paused or stuck and is now active; and every new goal
    belongs to the owner of an agent that called. *)
Theorem goal_tools_isolation (rs : list goal_request) (w : goal_world) ps (w' : goal_world) (Hok : goals_ok (gw_db w))
  (Hrun : rtc (pool_step goal_tick) (tool_prog svc <$> rs, w) (ps, w')) :
  goals_ok (gw_db w') /\
  (forall g, g ∈ rows (goals (gw_db w)) -> ~ asked_by rs w (OwnerUserID g) ->
    exists g', g' ∈ rows (goals (gw_db w')) /\ identity_of g' = identity_of g /\ spared g g') /\
  (forall g', g' ∈ rows (goals (gw_db w')) -> (exists g, g ∈ rows (goals (gw_db w)) /\ identity_of g = identity_of g') \/ asked_by rs w (OwnerUserID g')).
Proof.
  set (callers := fun n => exists r, r ∈ rs /\ gr_Caller r = Some n). set (A0 := agents (gw_db w)).
  assert (forall o, served A0 callers o -> asked_by rs w o) as Hs by (intros o (a&Ha&(r&Hr&E)&Eo); by exists r, a).
  destruct (pool_invariant (gw_I A0) (gw_R A0 callers) (A := unit) goal_tick) with (ps := tool_prog svc <$> rs) (ps' := ps) (d := w)
    (Q := fun (_ : nat) (_ : unit) (_ : goal_world) => True) (4 := Hrun) as ([Hok' _]&[_ Ho Hn]&_).
  - intros x y. apply goal_tick_safe.
  - intros i p Hp. rewrite list_lookup_fmap in Hp. destruct (rs !! i) as [r|] eqn:E; [|done]. injection Hp as <-.
    apply tool_prog_safe; [|by split]. intros n En. exists r. split; [by eapply list_elem_of_lookup_2|done].
  - by split.
  - split; [done|]. split.
    + intros g Hg Hna. destruct (Ho g Hg) as (g'&Hg'&E&[T|T]); [destruct Hna; by apply Hs|eauto].
    + intros g' [?|?]%Hn; auto.
Qed.

(**  Whatever fails and changing nothing, the list of resources names only
    secrets in force of the calling agent itself or of its owner. *)
Theorem resources_shown (caller : option string) (w : goal_world) :
  wp (handleListResources svc caller) (fun o w' => w' = w /\
    forall names, o = Ok (RResources names) -> names <> [] ->
      exists agent, agent ∈ rows (agents (gw_db w)) /\ caller = Some (Agent_Name agent) /\
        forall n, n ∈ names -> exists r, r ∈ rows (secrets (gw_secrets w)) /\ Sec_Name r = n /\ Sec_RevokedAt r = None /\
          (ScopeType r = ScopeUser /\ ScopeID r = Agent_OwnerID agent \/ ScopeType r = ScopeAgent /\ ScopeID r = Agent_ID agent)) w.
Proof.
  unfold handleListResources. destruct caller as [n|]; cbn [as_caller]; [|by split]. destruct (negb _); [split; [done|]; by intros names [= <-] []|].
  apply wp_bind_ok. destruct w as [d a s r]. cbn. split; [|by split]. destruct (find_row (active_named n) (agents d)) as [ag|] eqn:E; [|by split].
  cbn. apply find_row_Some in E as [E Hin]. unfold active_named in E. guards. split; [|by split]. split; [done|]. intros names [= <-] _.
  exists ag. split; [done|]. split; [congruence|]. intros m (i&->&Hi)%list_elem_of_fmap.
  apply list_elem_of_fmap in Hi as (row&->&[Hs Hr]%elem_of_select_by). exists row. split; [done|]. split; [done|].
  unfold in_scope in Hs. cbn in Hs. guards. split; [done|].
  repeat match goal with H : (_ || _) = true |- _ => apply orb_prop in H as [H|H] end; guards; (done || auto).
Qed.
End Theorems.

(** ** Runs

    Ann's agent has a goal, which is paused; Bob belongs to another user. *)
Module GoalToolRuns.
#[local] Existing Instances Runs.eng QueryRuns.ascii_upper.
#[local] Instance ascii_lower : GoUnicode := {| ToLower := sql_lower; ToLower_ascii := fun s _ => eq_refl |}.
#[local] Instance titles : TreeText := {| parse_tree s := Some (mkTreeNode s "" "" "" None None None None []) |}.
Definition person (name : string) (owner id : Z) : Agent := agent_row (register_struct name name "ai" raw_empty_object owner "#key") 0 id.
Definition start : goal_world :=
  mkGoalWorld (set_agents (mkTable [person "ann" 1 1; person "bob" 2 2] 3) (set_clock 1000 (set_messages (mkTable [GoalRuns.verdict] 6) empty_db)))
    (mkAuthDb 0 (mkTable [mkUser 1 "ann_owner" "" "Ann" RoleUser None 0 0] 2) ∅ ∅ ∅ empty_table empty_table ∅) (mkSecretsDb 0 None empty_table) empty_table.
Definition wired : goal_services := mkGoalServices true true true.
Definition after {B} (p : prog goal_world B) (w : goal_world) : goal_world := (run_ok p w).2.
Definition opened : goal_world := after (handleCreateGoal wired (Some "ann") "Write the docs" "all of them" 0 100 3) start.
Definition paused : goal_world :=
  after (goals_db (Goals.TransitionStatus 1 GoalPaused)) (after (handleProposeTaskTree wired (Some "ann") 1 "outline") opened).
Lemma paused_ok : goals_ok (gw_db paused).
Proof.
  split.
  - split; [by apply (bool_decide_unpack (NoDup [1])); vm_compute|]. intros g Hg. vm_compute in Hg. apply list_elem_of_singleton in Hg as ->. by vm_compute.
  - by apply (bool_decide_unpack (NoDup ["write-the-docs"])); vm_compute.
  - intros g Hg. vm_compute in Hg. by apply list_elem_of_singleton in Hg as ->.
Qed.

(** Bob tries everything at once, and one statement fails. *)
Definition requests : list goal_request :=
  (mkGoalRequest (Some "bob") <$> [ToolComplete 1 "cancelled" "no" 5; ToolPropose 1 "mine"; ToolCreate "Another" "goal" 0 0 3; ToolList; ToolClaim 1]) ++ [mkGoalRequest None ToolList].
Definition schedule : list (nat * bool) := (3, true)%nat :: concat (repeat [(0, false); (1, false); (2, false); (4, false); (5, false)]%nat 16).
Definition evening := run_schedule schedule (tool_prog wired <$> requests) paused.
Definition fate (g : Goal) := (Goal_ID g, OwnerUserID g, Goal_Status g, RootTaskID g, CompletionSummary g).
Lemma goal_tools_isolation_witness :
  fate <$> rows (goals (gw_db evening.2)) = [(1, 1, GoalActive, Some 2, None); (2, 2, GoalDraft, None, None)] /\
  forall g, g ∈ rows (goals (gw_db paused)) -> exists g', g' ∈ rows (goals (gw_db evening.2)) /\ identity_of g' = identity_of g /\ spared g g'.
Proof.
  split; [by vm_compute|].
  destruct (goal_tools_isolation wired requests paused evening.1 evening.2 paused_ok) as (_&H&_).
  - unfold evening. rewrite <- surjective_pairing. apply run_schedule_reachable.
  - intros g Hg. apply H; [exact Hg|]. intros (r&a&Hr&Hc&Ha&Ho).
    vm_compute in Hg. apply list_elem_of_singleton in Hg as ->. vm_compute in Ha, Ho.
    apply elem_of_cons in Ha as [->|Ha]; [|apply list_elem_of_singleton in Ha as ->; discriminate Ho].
    vm_compute in Hc. unfold requests in Hr. repeat (apply elem_of_cons in Hr as [->|Hr]; [vm_compute in Hc; discriminate Hc|]). by apply elem_of_nil in Hr.
Defined.

(** Proposing tasks makes a paused goal active again, not only a draft, whoever
    proposes: Bob resumes Ann's goal and puts his task at its root. *)
Theorem proposing_resumes :
  fate <$> rows (goals (gw_db paused)) = [(1, 1, GoalPaused, Some 1, None)] /\
  fate <$> rows (goals (gw_db (after (handleProposeTaskTree wired (Some "bob") 1 "mine") paused))) = [(1, 1, GoalActive, Some 2, None)].
Proof. split; by vm_compute. Qed.
(** The message of a verdict is optional, but without one no goal can be closed. *)
Theorem closing_without_message :
  (run_ok (handleCompleteGoal wired (Some "ann") 1 "completed" "all done" 0) paused).1 = Err (TDb EDb) /\
  (run_ok (handleCompleteGoal wired (Some "ann") 1 "completed" "all done" 5) paused).1 = Ok (RCompleted 1 "completed").
Proof. split; by vm_compute. Qed.
(** A request for a resource is a row, and no message. *)
Theorem request_unannounced :
  let w := after (handleRequestResource (Some "ann") " brevo_key" "to send" 1) paused in
  (ResourceName <$> rows (resource_requests w)) = ["BREVO_KEY"] /\ messages (gw_db w) = messages (gw_db paused).
Proof. split; by vm_compute. Qed.
End GoalToolRuns.
