(* ===== verification/AdminSocket.v ===== *)
(** * The administration socket (internal/admin/socket.go)

    The commands the command line sends to the running server.  A command is a
    name and a JSON object; each handler decodes the members it knows, calls the
    services or writes a statement of its own, and is not bound to an agent.  The
    commands about the audit log, backups, the vacuum, the retention worker's
    status and the list of conversations are not modelled: the dispatch takes
    what answers them as an argument.
    [admin_scope]: a command changes only the part of the state it is about, and
    one that shows something changes nothing.  [admin_refusals]: nor does a
    command refused for its name, its arguments or a service that is not there.
    [AdminRuns]: what the handlers let through. *)
From stdpp Require Import pretty.
From S2P Require Import Prelude Prog Table Schema Reactor Messaging MessagingQueries Agents Channels Attachments Memory Dream MemoryTools Retention Embeddings Search Webhooks Kubernetes Auth AuthHandlers Gateway Float64 Marketplace Bridge MessagingSpec KubernetesSpec MarketplaceSpec.
#[local] Open Scope Z_scope.

(** ** State, errors, answers *)
Record admin_world `{Kube} := mkAdminWorld { aw_db : db; aw_auth : auth_db; aw_hooks : engine; aw_k8s : k8s_db }.
Inductive admin_error :=
| AUnknownCommand (c : string) | AInvalidArgs | ARequired (what : string) | ANotConfigured (what : string) | ANotJSON | AInvalidDuration (s : string) | ANoSetting
| ANotFound (what : string) | ADb (e : error) | AAuth (e : auth_error) | AK8s (e : k8s_error) | ATooLarge (maxBytes : Z) | ADream (e : error).
Record userRow := mkUserRow { ur_ID : Z; ur_Username : string; ur_DisplayName : string; ur_Role : UserRole; ur_CreatedAt : Z }.
Record agentRow := mkAgentRow { ar_ID : Z; ar_Name : string; ar_DisplayName : string; ar_Type : string; ar_OwnerID : Z; ar_Status : string; ar_CreatedAt : Z }.
Record msgRow := mkMsgRow { mr_ID : Z; mr_ConversationID : Z; mr_From : string; mr_To : string; mr_Body : string; mr_Priority : Z; mr_Status : MsgStatus; mr_CreatedAt : Z }.
Record chRow := mkChRow { chr_ID : Z; chr_Name : string; chr_Description : string; chr_Topic : string; chr_Type : ChannelType; chr_IsPrivate : bool; chr_CreatedBy : string; chr_MemberCount : Z; chr_CreatedAt : Z }.
Record whRow := mkWhRow { whr_ID : Z; whr_AgentName : string; whr_URL : string; whr_Events : list string; whr_Status : WebhookStatus; whr_Failures : Z; whr_CreatedAt : Z }.
Record handlerRow := mkHandlerShown { hr_ID : Z; hr_AgentName : string; hr_Image : string; hr_Events : list string; hr_Namespace : string; hr_Memory : string; hr_CPU : string; hr_Timeout : Z; hr_Status : string; hr_CreatedAt : Z }.
Inductive admin_data :=
| DUsers (l : list userRow) | DUser (id : Z) (username displayName : string) (role : UserRole) | DName (name : string)
| DAgents (l : list agentRow) | DAgent (id : Z) (name apiKey status : string) | DNewKey (name apiKey : string) | DCapabilities (name : string) (c : rawjson)
| DMessages (l : list msgRow) | DSent (m : Message)
| DChannels (l : list chRow) | DChannel (c : Channel) (members : list (string * MemberRole * Z)) | DChannelMade (c : Channel) | DJoined (channel agent status : string)
| DConversation (c : Conversation) (l : list msgRow)
| DEmbeddings (s : EmbeddingStatsResult) (index_size : Z) | DReindexed (cleared_index : bool) (enqueued : Z) | DCleared (cleared_index : bool)
| DPurged (c : PurgeCounts)
| DWebhook (w : Webhook) | DWebhooks (l : list whRow) | DHandler (id : Z) (h : K8sHandler) | DHandlers (l : list handlerRow) | DDeleted (id : Z)
| DGC (r : GCResult)
| DHarness (name harness command config : string) | DHarnessConfig (name harness command config : string) (parsed : option rawjson)
| DCore (owner agent : string) (c : option CoreMemory) | DCoreSet (owner agent : string) (chars : Z) (by_ : string) | DCoreDeleted (owner agent : string)
| DDream (jobs : list Z) (owner jobType : string) (parallel : Z) (problem : option error) (started : list dream_spawn)
| DOther (text : string).

(** Which services are wired, and their settings. *)
Record admin_services := mkAdminServices {
  s_Messages : bool; s_Embeddings : bool; s_Index : bool; s_Webhooks : bool; s_K8s : bool; s_Attachments : bool; s_CoreMemory : bool; s_Dream : bool;
  s_AllowHTTP : bool; s_AllowPrivate : bool; s_MaxBytes : Z; s_DefaultParallel : Z; s_Worker : ConsolidatorWorker;
  s_Runner : option string   (** the namespace of the job runner, when there is one *)
}.

(** ** Arguments

    [json.Unmarshal] into a struct: a member is found whatever the case of its
    name, the last one counts, [null] leaves a field as it is, and a value of
    the wrong type is an error. *)
Section Decoding.
Context {HFold : FoldEqual}.
Abbreviation members := (list (string * json)).
Definition members_of (a : rawjson) : option members :=
  match a with RawJson (JObj ms) => Some ms | RawJson JNull => Some [] | _ => None end.
Definition field_values (key : string) (ms : members) : list json := snd <$> filter (fun kv => EqualFold kv.1 key = true) ms.
Definition take_field {A} (read : json -> option A) (zero : A) (key : string) (ms : members) : option A :=
  foldl (fun acc v => match acc, v with Some _, JNull => acc | Some _, _ => read v | None, _ => None end) (Some zero) (field_values key ms).
Definition text_field : string -> members -> option string := take_field (fun v => match v with JStr s => Some s | _ => None end) EmptyString.
Definition int_field : string -> members -> option Z := take_field (fun v => match v with JNum l => Atoi l | _ => None end) 0.
(** A pointer is set to nil by [null]. *)
Definition bool_field (key : string) (ms : members) : option (option bool) :=
  foldl (fun acc v => match acc, v with Some _, JNull => Some None | Some _, JBool b => Some (Some b) | _, _ => None end) (Some None) (field_values key ms).
(** A [json.RawMessage] keeps every value, [null] too. *)
Definition raw_field (key : string) (ms : members) : rawjson := match last (field_values key ms) with Some v => RawJson v | None => RawEmpty end.
(** Where the error of the decoder is dropped, what could be decoded counts. *)
Definition lenient_text (key : string) (a : rawjson) : string :=
  foldl (fun acc v => match v with JStr s => s | _ => acc end) EmptyString (field_values key (default [] (members_of a))).
Definition lenient_int (key : string) (a : rawjson) : Z :=
  foldl (fun acc v => match v with JNum l => default acc (Atoi l) | _ => acc end) 0 (field_values key (default [] (members_of a))).
End Decoding.

(** The text a JSON value is kept as. *)
Class RawText := { raw_text : json -> string }.
(** Emptying the vector index ([Rebuild(nil)]). *)
Class IndexRebuild := { rebuild_empty : M unit; rebuild_frame : within eq rebuild_empty }.

Section Admin.
Context {HEng : Engine} {HJson : GoJson} {HLow : GoUnicode} {HMap : GoMapOrder} {HFTS : FTS} {HCred : Credentials} {HSec : Secrets} {HSha : GoSha256} {HSniff : ContentSniffer}
  {HFold : FoldEqual} {HMText : MarketText} {HBr : BridgeText} {HDur : GoDuration} {HNet : Network} {HProv : EmbeddingProvider} {HIdx : VectorIndex}
  {HReb : IndexRebuild} {HKube : Kube} {HDream : DreamHarness} {HRaw : RawText}.
Abbreviation K B := (prog admin_world (outcome admin_error B)).
Definition put_aw_db (d : db) (w : admin_world) : admin_world := mkAdminWorld _ d (aw_auth w) (aw_hooks w) (aw_k8s w).
Definition put_aw_auth (d : auth_db) (w : admin_world) : admin_world := mkAdminWorld _ (aw_db w) d (aw_hooks w) (aw_k8s w).
Definition put_aw_hooks (e : engine) (w : admin_world) : admin_world := mkAdminWorld _ (aw_db w) (aw_auth w) e (aw_k8s w).
Definition put_aw_k8s (d : k8s_db) (w : admin_world) : admin_world := mkAdminWorld _ (aw_db w) (aw_auth w) (aw_hooks w) d.
Definition in_main {B} (p : M B) : K B := let! r := focus aw_db put_aw_db p in Ret (map_error ADb r).
Definition in_accounts {B} (p : prog auth_db (outcome auth_error B)) : K B := let! r := focus aw_auth put_aw_auth p in Ret (map_error AAuth r).
Definition in_hooks {B} (p : prog engine (outcome error B)) : K B := let! r := focus aw_hooks put_aw_hooks p in Ret (map_error ADb r).
Definition in_cluster {B} (p : prog k8s_db (outcome k8s_error B)) : K B := let! r := focus aw_k8s put_aw_k8s p in Ret (map_error AK8s r).
Context (svc : admin_services).

Definition refused {B} (e : admin_error) : K B := Ret (Err e).
Definition done_with (d : admin_data) : K admin_data := Ret (Ok d).
Definition decoded {P B} (a : rawjson) (read : list (string * json) -> option P) (k : P -> K B) : K B :=
  match members_of a ≫= read with Some p => k p | None => refused AInvalidArgs end.
Definition required {B} (present : bool) (what : string) (k : K B) : K B := if present then k else refused (ARequired what).
Definition wired {B} (present : bool) (what : string) (k : K B) : K B := if present then k else refused (ANotConfigured what).
Definition given (s : string) : bool := negb (str_empty s).
(** The struct with one text. *)
Definition one_text {B} (key : string) (a : rawjson) (k : string -> K B) : K B := decoded a (text_field key) (fun s => required (given s) key (k s)).
Definition limit_or (d n : Z) : Z := if n <=? 0 then d else n.

(** *** Users *)
Definition user_row (u : User) : userRow := mkUserRow (User_ID u) (Username u) (User_DisplayName u) (Role u) (User_CreatedAt u).
Definition handleUserList : K admin_data := let? l := in_accounts ListUsers in done_with (DUsers (user_row <$> l)).
Definition admin_UserCreate (a : rawjson) : K admin_data :=
  decoded a (fun ms => u ← text_field "username" ms; p ← text_field "password" ms; n ← text_field "display_name" ms; Some (u, p, n)) (fun '(u, p, n) =>
    required (given u && given p) "username and password" (
      let? user := in_accounts (CreateUser u p n) in
      done_with (DUser (User_ID user) (Username user) (User_DisplayName user) (Role user)))).
Definition admin_UserDelete (a : rawjson) : K admin_data :=
  one_text "username" a (fun u => let? _ := in_accounts (handleUserDelete u) in done_with (DName u)).
Definition admin_UserPasswd (a : rawjson) : K admin_data :=
  decoded a (fun ms => u ← text_field "username" ms; p ← text_field "password" ms; Some (u, p)) (fun '(u, p) =>
    required (given u && given p) "username and password" (let? _ := in_accounts (handleUserPasswd u p) in done_with (DName u))).

(** *** Agents *)
Definition agent_shown (a : Agent) : agentRow :=
  mkAgentRow (Agent_ID a) (Agent_Name a) (DisplayName a) (Agent_Type a) (Agent_OwnerID a) (Agent_Status a) (Agent_CreatedAt a).
Definition handleAgentList : K admin_data := let? l := in_main (DiscoverAgents EmptyString) in done_with (DAgents (agent_shown <$> l)).
Definition handleAgentCreate (a : rawjson) : K admin_data :=
  decoded a (fun ms => n ← text_field "name" ms; dn ← text_field "display_name" ms; t ← text_field "type" ms; o ← int_field "owner_id" ms; Some (n, dn, t, raw_field "capabilities" ms, o))
    (fun '(n, dn, t, caps, o) => required (given n) "name" (
      let? r := in_main (Register n dn t caps o) in
      done_with (DAgent (Agent_ID (fst r)) (Agent_Name (fst r)) (snd r) (Agent_Status (fst r))))).
(** The admin's own UPDATE: how many rows it changed is not asked. *)
Definition handleAgentDelete (a : rawjson) : K admin_data :=
  one_text "name" a (fun n =>
    let? _ := in_main (exec EDb (fun d => set_agents (update_rows (active_named n) (Agents.inactive (clock d)) (agents d)) d) (fun _ => tt)) in
    done_with (DName n)).
Definition handleAgentRevokeKey (a : rawjson) : K admin_data :=
  one_text "name" a (fun n =>
    let? agent := in_main (GetAgent n) in
    let? r := in_main (Agents.RevokeKey n (Agent_OwnerID agent)) in
    done_with (DNewKey n (snd r))).
Definition handleAgentUpdateCapabilities (a : rawjson) : K admin_data :=
  decoded a (fun ms => n ← text_field "name" ms; Some (n, raw_field "capabilities" ms)) (fun '(n, caps) =>
    required (given n) "name" (
      match caps with
      | RawEmpty => refused (ARequired "capabilities")
      | RawInvalid _ => refused ANotJSON
      | RawJson _ =>
          let? agent := in_main (Agents.UpdateAgent n EmptyString caps) in
          done_with (DCapabilities (Agent_Name agent) (Capabilities agent))
      end)).

(** *** Messages *)
Definition msg_row (m : Message) : msgRow :=
  mkMsgRow (Msg_ID m) (Msg_ConversationID m) (FromAgent m) (default EmptyString (to_agent m)) (Schema.Body m) (Priority m) (Status m) (Msg_CreatedAt m).
Definition listed (agent status : string) (m : Message) : bool :=
  (str_empty agent || String.eqb (FromAgent m) agent || opt_is (to_agent m) agent) && (str_empty status || bool_decide (Status m = status_of status)).
Definition handleMessagesListDirect (agent status : string) (limit : Z) : K admin_data :=
  let? l := in_main (query EDb (fun d => page limit 0 (select_by newest_first (listed agent status) (messages d)))) in
  done_with (DMessages (msg_row <$> l)).
(** A first query of the same rows, whose result is dropped. *)
Definition handleMessagesList (a : rawjson) : K admin_data :=
  let limit := limit_or 50 (lenient_int "limit" a) in
  let agent := lenient_text "agent" a in
  let status := lenient_text "status" a in
  let? _ := in_main (query EDb (fun d => page limit 0 (select_by newest_first (listed agent status) (messages d)))) in
  handleMessagesListDirect agent status limit.
(** The query goes to the index as it is; when the index refuses it, a LIKE. *)
Definition handleMessagesSearch (a : rawjson) : K admin_data :=
  decoded a (fun ms => q ← text_field "query" ms; l ← int_field "limit" ms; Some (q, l)) (fun '(q, l) =>
    required (given q) "query" (
      let limit := limit_or 20 l in
      let! found := in_main (query_o EDb (fun d => match fts_query q (rows (messages d)) with Some r => Ok (page limit 0 r) | None => Err EDb end)) in
      match found with
      | Ok r => done_with (DMessages (msg_row <$> r))
      | _ =>
          let? r := in_main (query EDb (fun d => page limit 0 (select_by newest_first (fun m => sql_like ("%" +:+ q +:+ "%") (Schema.Body m)) (messages d)))) in
          done_with (DMessages (msg_row <$> r))
      end)).
Definition handleMessagesSend (a : rawjson) : K admin_data :=
  decoded a (fun ms => f ← text_field "from" ms; t ← text_field "to" ms; b ← text_field "body" ms; s ← text_field "subject" ms; p ← int_field "priority" ms;
                       c ← int_field "channel_id" ms; r ← int_field "reply_to" ms; Some (f, t, b, s, p, c, r)) (fun '(f, t, b, s, p, c, r) =>
    required (given f) "from" (required (given b) "body" (required (given t || negb (c =? 0)) "one of to or channel_id" (wired (s_Messages svc) "messaging service" (
      let? msg := in_main (SendMessage f t b (mkSendOptions s p RawEmpty (positive c) None (positive r) [])) in
      done_with (DSent msg)))))).
(** The text of a duration. *)
Definition handleMessagesPurge (a : rawjson) : K admin_data :=
  let olderThan := lenient_text "older_than" a in
  let agent := lenient_text "agent" a in
  let channel := lenient_text "channel" a in
  if str_empty olderThan && str_empty agent && str_empty channel then refused (ARequired "at least one filter")
  else
    let period := RetentionPeriod (ParseRetentionPeriod olderThan) in
    if given olderThan && (period <=? 0) then refused (AInvalidDuration olderThan)
    else
      let? counts := in_main (PurgeMessages (if given olderThan then period else 0) agent channel) in
      done_with (DPurged counts).

(** *** Channels and conversations *)
Definition channel_shown (d : db) (c : Channel) : chRow :=
  mkChRow (Ch_ID c) (Ch_Name c) (Ch_Description c) (Ch_Topic c) (Ch_Type c) (IsPrivate c) (Ch_CreatedBy c)
    (affected (fun m => Mem_ChannelID m =? Ch_ID c) (channel_members d)) (Ch_CreatedAt c).
Definition handleChannelsList : K admin_data :=
  let? l := in_main (query EDb (fun d => channel_shown d <$> select_by Channels.by_name (fun _ => true) (channels d))) in done_with (DChannels l).
Definition handleChannelsShow (a : rawjson) : K admin_data :=
  one_text "name" a (fun n =>
    let? ch := in_main (GetChannelByName n) in
    let? members := in_main (GetMembers (Ch_ID ch)) in
    done_with (DChannel ch ((fun m => (Mem_AgentName m, Mem_Role m, JoinedAt m)) <$> members))).
Definition handleChannelsCreate (a : rawjson) : K admin_data :=
  decoded a (fun ms => n ← text_field "name" ms; d ← text_field "description" ms; Some (n, d)) (fun '(n, d) => required (given n) "name" (
    let? ch := in_main (CreateChannel (mkCreateChannelRequest n d EmptyString TypeStandard false false "system")) in
    done_with (DChannelMade ch))).
Definition handleChannelsJoin (a : rawjson) : K admin_data :=
  decoded a (fun ms => c ← text_field "channel" ms; ag ← text_field "agent" ms; Some (c, ag)) (fun '(c, ag) =>
    required (given c) "channel" (required (given ag) "agent" (
      let! found := in_main (GetChannelByName c) in
      match found with
      | Ok ch =>
          let! isMember := in_main (IsMember (Ch_ID ch) ag) in
          let? _ := in_main (JoinChannel (Ch_ID ch) ag) in
          done_with (DJoined c ag (match isMember with Ok true => "already_member" | _ => "joined" end))
      | Panic w => Ret (Panic w)
      | Err _ => refused (ANotFound "channel")
      end))).
(** Only the members that are given are set, whatever their text. *)
Definition with_stalemate (autoApprove : option bool) (remind escalate : string) (c : Channel) : Channel :=
  let s := Ch_Settings c in
  mkChannel (Ch_ID c) (Ch_Name c) (Ch_Description c) (Ch_Topic c) (Ch_Type c) (IsPrivate c) (IsSystem c) (Ch_CreatedBy c)
    (mkChannelSettings (WorkflowEnabled s) (default (AutoApprove s) autoApprove)
      (if given remind then remind else StalemateRemindAfter s) (if given escalate then escalate else StalemateEscalateAfter s) (PublishThreshold s) (ApproveThreshold s))
    (Ch_CreatedAt c) (Ch_UpdatedAt c).
Definition called (name : string) (c : Channel) : bool := String.eqb (sql_lower (Ch_Name c)) (sql_lower name).
Definition handleChannelsUpdateSettings (a : rawjson) : K admin_data :=
  decoded a (fun ms => n ← text_field "name" ms; aa ← bool_field "auto_approve" ms; r ← text_field "stalemate_remind_after" ms; e ← text_field "stalemate_escalate_after" ms;
                       Some (n, aa, r, e)) (fun '(n, aa, r, e) =>
    required (given n) "name" (
      if negb (bool_decide (is_Some aa)) && negb (given r) && negb (given e) then refused ANoSetting
      else
        let? changed := in_main (exec EDb (fun d => set_channels (update_rows (called n) (with_stalemate aa r e) (channels d)) d) (fun d => affected (called n) (channels d))) in
        if changed =? 0 then refused (ANotFound "channel") else done_with (DName n))).
Definition handleConversationsShow (a : rawjson) : K admin_data :=
  decoded a (int_field "id") (fun id => required (0 <? id) "id" (
    let? c := in_main (service_GetConversation id) in
    done_with (DConversation (fst c) (msg_row <$> snd c)))).

(** *** Embeddings *)
Definition handleEmbeddingsStatus : K admin_data :=
  if s_Embeddings svc then
    let? stats := in_main Stats in
    let! n := (if s_Index svc then focus aw_db put_aw_db index_Len else Ret 0) in
    done_with (DEmbeddings stats n)
  else done_with (DEmbeddings (mkEmbeddingStats EmptyString 0 0 0 0) 0).
Definition clear_index : K bool := if s_Index svc then let? _ := in_main rebuild_empty in Ret (Ok true) else Ret (Ok false).
Definition handleEmbeddingsReindex : K admin_data :=
  wired (s_Embeddings svc) "embedding subsystem" (
    let? _ := in_main DeleteAllEmbeddings in
    let? _ := in_main ClearQueue in
    let? cleared := clear_index in
    let? enqueued := in_main EnqueueAllMessages in
    done_with (DReindexed cleared enqueued)).
Definition handleEmbeddingsClear : K admin_data :=
  wired (s_Embeddings svc) "embedding subsystem" (
    let? _ := in_main DeleteAllEmbeddings in
    let? _ := in_main ClearQueue in
    let? cleared := clear_index in
    done_with (DCleared cleared)).

(** *** Webhooks *)
Definition trimmed_parts (s : string) : list string := trim_space <$> split_on comma s EmptyString.
Definition webhook_shown (w : Webhook) : whRow := mkWhRow (Wh_ID w) (Wh_AgentName w) (URL w) (Events w) (Wh_Status w) (ConsecutiveFailures w) (Wh_CreatedAt w).
Definition wh_latest (a b : Webhook) : Prop := Wh_CreatedAt b <= Wh_CreatedAt a.
#[export] Instance wh_latest_dec a b : Decision (wh_latest a b).
Proof. unfold wh_latest. apply _. Defined.
Definition handleWebhookRegister (a : rawjson) : K admin_data :=
  decoded a (fun ms => u ← text_field "url" ms; e ← text_field "events" ms; s ← text_field "secret" ms; n ← text_field "agent_name" ms; Some (u, e, s, n)) (fun '(u, e, s, n) =>
    required (given u && given e && given s && given n) "url, events, secret, and agent_name" (wired (s_Webhooks svc) "webhook service" (
      let? wh := in_hooks (RegisterWebhook (s_AllowHTTP svc) (s_AllowPrivate svc) n u (trimmed_parts e) s) in
      done_with (DWebhook wh)))).
Definition handleWebhookList (a : rawjson) : K admin_data :=
  let agentName := lenient_text "agent_name" a in
  wired (s_Webhooks svc) "webhook service" (
    let? l := (if str_empty agentName then in_hooks (query EDb (fun e => select_by wh_latest (fun _ => true) (webhooks e))) else in_hooks (ListWebhooks agentName)) in
    done_with (DWebhooks (webhook_shown <$> l))).
(** Whose it is is looked up, then it is deleted in that agent's name. *)
Definition handleWebhookDelete (a : rawjson) : K admin_data :=
  decoded a (int_field "id") (fun id => required (0 <? id) "id" (wired (s_Webhooks svc) "webhook service" (
    let! owner := in_hooks (query_o EDb (fun e => match find_id id (webhooks e) with Some w => Ok (Wh_AgentName w) | None => Err ErrNoRows end)) in
    match owner with
    | Ok n => let? _ := in_hooks (DeleteWebhook n id) in done_with (DDeleted id)
    | Panic w => Ret (Panic w)
    | Err _ => refused (ANotFound "webhook")
    end))).

(** *** Kubernetes *)
(** KEY=VALUE pairs; a part without the sign is skipped. *)
Definition env_pair (env : gmap string string) (pair : string) : gmap string string :=
  match split_once (Ascii.ascii_of_nat 61) pair with Some (k, v) => <[k := v]> env | None => env end.
Definition env_map (s : string) : gmap string string := if str_empty s then ∅ else foldl env_pair ∅ (trimmed_parts s).
Definition handler_shown (r : handler_row) : handlerRow :=
  let h := Hd r in mkHandlerShown (Hd_ID r) (h_AgentName h) (h_Image h) (h_Events h) (h_Namespace h) (ResourcesMemory h) (ResourcesCPU h) (TimeoutSeconds h) (h_Status h) (Hd_CreatedAt r).
Definition handleK8sRegister (a : rawjson) : K admin_data :=
  decoded a (fun ms => i ← text_field "image" ms; e ← text_field "events" ms; n ← text_field "agent_name" ms; ns ← text_field "namespace" ms; m ← text_field "resources_memory" ms;
                       c ← text_field "resources_cpu" ms; env ← text_field "env" ms; t ← int_field "timeout_seconds" ms; Some (i, e, n, ns, m, c, env, t)) (fun '(i, e, n, ns, m, c, env, t) =>
    required (given i && given e && given n) "image, events, and agent_name" (wired (s_K8s svc) "k8s service" (
      let? r := in_cluster (Kubernetes.RegisterHandler (s_Runner svc) n (Kubernetes.mkRegisterHandlerRequest i (trimmed_parts e) ns m c (env_map env) (limit_or 300 t))) in
      done_with (DHandler (fst r) (snd r))))).
Definition handleK8sList (a : rawjson) : K admin_data :=
  let agentName := lenient_text "agent_name" a in
  wired (s_K8s svc) "k8s service" (
    let? l := (if str_empty agentName then in_cluster (query EK8sDb (fun d => select_by handler_newest (fun _ => true) (k8s_handlers d))) else in_cluster (Kubernetes.ListHandlers agentName)) in
    done_with (DHandlers (handler_shown <$> l))).
Definition handleK8sDelete (a : rawjson) : K admin_data :=
  decoded a (int_field "id") (fun id => required (0 <? id) "id" (wired (s_K8s svc) "k8s service" (
    let! owner := in_cluster (query_o EK8sDb (fun d => match find_id id (k8s_handlers d) with Some r => Ok (h_AgentName (Hd r)) | None => Err EHandlerNotFound end)) in
    match owner with
    | Ok n => let? _ := in_cluster (Kubernetes.DeleteHandler n id) in done_with (DDeleted id)
    | Panic w => Ret (Panic w)
    | Err _ => refused (ANotFound "handler")
    end))).
Definition handleAttachmentsGC : K admin_data := wired (s_Attachments svc) "attachment service" (let? r := in_main GarbageCollect in done_with (DGC r)).

(** *** The harness of an agent *)
Definition handleHarnessConfigGet (a : rawjson) : K admin_data :=
  one_text "agent_name" a (fun n =>
    let? agent := in_main (GetAgent n) in
    let config := HarnessConfigJSON agent in
    done_with (DHarnessConfig (Agent_Name agent) (HarnessName agent) (LocalCommand agent) config (if str_empty config then None else Some (raw_of config)))).
(** Nothing, null and the text of a hyphen clear the configuration. *)
Definition config_text (r : rawjson) : string :=
  match r with RawEmpty | RawInvalid _ => EmptyString | RawJson JNull => "-" | RawJson v => match v with JStr "-" => "-" | _ => raw_text v end end.
Definition handleHarnessConfigSet (a : rawjson) : K admin_data :=
  decoded a (fun ms => n ← text_field "agent_name" ms; h ← text_field "harness_name" ms; c ← text_field "local_command" ms; Some (n, h, c, raw_field "harness_config_json" ms)) (fun '(n, h, c, raw) =>
    required (given n) "agent_name" (
      let? _ := in_main (UpdateHarnessConfig n h c (config_text raw)) in
      let? agent := in_main (GetAgent n) in
      done_with (DHarness (Agent_Name agent) (HarnessName agent) (LocalCommand agent) (HarnessConfigJSON agent)))).

(** *** Core memory and dreams *)

(** A user's id as text: a number as it is, else the id of the user so called. *)
Definition resolveOwnerString (ownerInput : string) : K string :=
  if str_empty ownerInput then refused (ARequired "owner")
  else match scanned_int ownerInput ≫= positive with
  | Some id => Ret (Ok (pretty id))
  | None => let? user := in_accounts (GetUserByUsername ownerInput) in Ret (Ok (pretty (User_ID user)))
  end.
Definition core_args {B} (a : rawjson) (k : string -> string -> list (string * json) -> K B) : K B :=
  decoded a (fun ms => o ← text_field "owner" ms; ag ← text_field "agent" ms; Some (o, ag, ms)) (fun '(o, ag, ms) =>
    required (given ag) "agent" (wired (s_CoreMemory svc) "core memory store" (let? owner := resolveOwnerString o in k owner ag ms))).
Definition handleMemoryCoreGet (a : rawjson) : K admin_data :=
  core_args a (fun owner ag _ => let? c := in_main (Core_Get owner ag) in done_with (DCore owner ag c)).
Definition handleMemoryCoreSet (a : rawjson) : K admin_data :=
  decoded a (fun ms => b ← text_field "blob" ms; u ← text_field "updated_by" ms; Some (b, u)) (fun '(b, u) =>
    core_args a (fun owner ag _ =>
      let updatedBy := if str_empty u then "human" else u in
      let! stored := in_main (Core_Set (s_MaxBytes svc) owner ag b updatedBy) in
      match stored with
      | Ok _ => done_with (DCoreSet owner ag (Z.of_nat (String.length b)) updatedBy)
      | Err (ADb ErrCoreMemoryTooLarge) => refused (ATooLarge (s_MaxBytes svc))
      | Err e => refused e
      | Panic w => Ret (Panic w)
      end)).
Definition handleMemoryCoreDelete (a : rawjson) : K admin_data :=
  core_args a (fun owner ag _ => let? _ := in_main (Core_Delete owner ag) in done_with (DCoreDeleted owner ag)).
Definition handleMemoryDreamRun (a : rawjson) : K admin_data :=
  decoded a (fun ms => o ← text_field "owner" ms; t ← text_field "job_type" ms; p ← int_field "parallel" ms; Some (o, t, p)) (fun '(o, t, p) =>
    required (given t) "job_type" (wired (s_Dream svc) "dream worker" (
      let? owner := resolveOwnerString o in
      let parallel := limit_or 1 (limit_or (s_DefaultParallel svc) p) in
      let! run := focus aw_db put_aw_db (ForceRunN (s_Worker svc) owner t parallel) in
      let '(ids, problem, started) := run in
      match problem with
      | Some e => if bool_decide (ids = []) then refused (ADream e) else done_with (DDream ids owner t parallel problem started)
      | None => done_with (DDream ids owner t parallel None started)
      end))).

(** ** The dispatch *)
Definition upkeep_commands : list string := ["audit.list"; "audit.stats"; "audit.export"; "backup"; "conversations.list"; "db.vacuum"; "retention.status"].
Definition commands : list (string * (rawjson -> K admin_data)) :=
  [("user.list", fun _ => handleUserList); ("user.create", admin_UserCreate); ("user.delete", admin_UserDelete); ("user.passwd", admin_UserPasswd);
   ("agent.list", fun _ => handleAgentList); ("agent.create", handleAgentCreate); ("agent.delete", handleAgentDelete); ("agent.revoke_key", handleAgentRevokeKey);
   ("agent.update_capabilities", handleAgentUpdateCapabilities);
   ("messages.list", handleMessagesList); ("messages.search", handleMessagesSearch); ("messages.send", handleMessagesSend);
   ("channels.list", fun _ => handleChannelsList); ("channels.show", handleChannelsShow); ("channels.create", handleChannelsCreate); ("channels.join", handleChannelsJoin);
   ("channels.update_settings", handleChannelsUpdateSettings); ("conversations.show", handleConversationsShow);
   ("embeddings.status", fun _ => handleEmbeddingsStatus); ("embeddings.reindex", fun _ => handleEmbeddingsReindex); ("embeddings.clear", fun _ => handleEmbeddingsClear);
   ("messages.purge", handleMessagesPurge);
   ("webhook.register", handleWebhookRegister); ("webhook.list", handleWebhookList); ("webhook.delete", handleWebhookDelete);
   ("k8s.register", handleK8sRegister); ("k8s.list", handleK8sList); ("k8s.delete", handleK8sDelete);
   ("attachments.gc", fun _ => handleAttachmentsGC); ("harness.config_get", handleHarnessConfigGet); ("harness.config_set", handleHarnessConfigSet);
   ("memory.core.get", handleMemoryCoreGet); ("memory.core.set", handleMemoryCoreSet); ("memory.core.delete", handleMemoryCoreDelete); ("memory.dream_run", handleMemoryDreamRun)].
Definition dispatch (upkeep : string -> rawjson -> K admin_data) (command : string) (a : rawjson) : K admin_data :=
  if existsb (String.eqb command) upkeep_commands then upkeep command a
  else match assoc command commands with Some handler => handler a | None => refused (AUnknownCommand command) end.

(** ** What a command leaves alone *)
Definition showing : list string :=
  ["user.list"; "agent.list"; "messages.list"; "messages.search"; "channels.list"; "channels.show"; "conversations.show"; "embeddings.status"; "webhook.list"; "k8s.list";
   "harness.config_get"; "memory.core.get"].
(** The part of the state a command may change. *)
Inductive admin_part := PNone | PAccounts | PHooks | PCluster | PMain.
Definition part_of (c : string) : admin_part :=
  if existsb (String.eqb c) showing then PNone
  else if String.prefix "user." c then PAccounts
  else if String.prefix "webhook." c then PHooks
  else if String.prefix "k8s." c then PCluster
  else PMain.
Definition keeps (part : admin_part) (w w' : admin_world) : Prop :=
  match part with
  | PNone => w' = w
  | PAccounts => w' = put_aw_auth (aw_auth w') w
  | PHooks => w' = put_aw_hooks (aw_hooks w') w
  | PCluster => w' = put_aw_k8s (aw_k8s w') w
  | PMain => w' = put_aw_db (aw_db w') w
  end.
(** The refusals a handler decides by itself. *)
Definition own_refusal (e : admin_error) : bool :=
  match e with AUnknownCommand _ | AInvalidArgs | ARequired _ | ANotConfigured _ | ANotJSON | AInvalidDuration _ | ANoSetting => true | _ => false end.

Lemma assoc_in {V} (k : string) (l : list (string * V)) v : assoc k l = Some v -> (k, v) ∈ l.
Proof.
  unfold assoc. destruct (find _ l) as [[k' v']|] eqn:E; [|done]. intros [= <-]. apply find_some in E as [Hin E].
  apply String.eqb_eq in E. cbn in E. subst. by apply list_elem_of_In.
Qed.

(** *** The parts *)
Section Parts.
Context (part : admin_part).
Lemma keeps_refl w : keeps part w w.
Proof. destruct part, w; reflexivity. Qed.
#[local] Instance keeps_reflexive : Reflexive (keeps part) := keeps_refl.
Lemma keeps_frame {B} (p : K B) : within eq p -> within (keeps part) p.
Proof. apply within_mono. intros w w' <-. apply keeps_refl. Qed.
Lemma keeps_read {D B} (get : admin_world -> D) (put : D -> admin_world -> admin_world) (p : prog D B) :
  (forall w, put (get w) w = w) -> within eq p -> within (keeps part) (focus get put p).
Proof. intros Hput Hp. apply (within_focus get put eq); [|exact Hp]. intros d w <-. rewrite Hput. apply keeps_refl. Qed.
Lemma keeps_main_read {B} (p : M B) : within eq p -> within (keeps part) (in_main p).
Proof. intros H. apply within_bind; [|done]. apply keeps_read; [by intros []|exact H]. Qed.
Lemma keeps_accounts_read {B} (p : prog auth_db (outcome auth_error B)) : within eq p -> within (keeps part) (in_accounts p).
Proof. intros H. apply within_bind; [|done]. apply keeps_read; [by intros []|exact H]. Qed.
Lemma keeps_hooks_read {B} (p : prog engine (outcome error B)) : within eq p -> within (keeps part) (in_hooks p).
Proof. intros H. apply within_bind; [|done]. apply keeps_read; [by intros []|exact H]. Qed.
Lemma keeps_cluster_read {B} (p : prog k8s_db (outcome k8s_error B)) : within eq p -> within (keeps part) (in_cluster p).
Proof. intros H. apply within_bind; [|done]. apply keeps_read; [by intros []|exact H]. Qed.
Lemma keeps_owner s : within (keeps part) (resolveOwnerString s).
Proof.
  unfold resolveOwnerString. destruct (str_empty s); [done|]. destruct (_ ≫= _); [done|]. apply within_bind_ok; [|done].
  apply keeps_accounts_read, within_query_o, _.
Qed.
End Parts.
Lemma within_any {D B} (p : prog D B) : within (fun _ _ => True) p.
Proof. induction p as [|k IH|u k IH f IHf]; cbn [within]; auto. Qed.
Lemma keeps_main {B} (p : M B) : within (keeps PMain) (in_main p).
Proof. apply within_bind; [|done]. eapply within_focus; [|apply within_any]. by intros d []. Qed.
Lemma keeps_accounts {B} (p : prog auth_db (outcome auth_error B)) : within (keeps PAccounts) (in_accounts p).
Proof. apply within_bind; [|done]. eapply within_focus; [|apply within_any]. by intros d []. Qed.
Lemma keeps_hooks {B} (p : prog engine (outcome error B)) : within (keeps PHooks) (in_hooks p).
Proof. apply within_bind; [|done]. eapply within_focus; [|apply within_any]. by intros d []. Qed.
Lemma keeps_cluster {B} (p : prog k8s_db (outcome k8s_error B)) : within (keeps PCluster) (in_cluster p).
Proof. apply within_bind; [|done]. eapply within_focus; [|apply within_any]. by intros d []. Qed.
Lemma keeps_db {B} (p : prog db B) : within (keeps PMain) (focus aw_db put_aw_db p).
Proof. eapply within_focus; [|apply within_any]. by intros d []. Qed.

Ltac head_of f := lazymatch f with ?g _ => head_of g | _ => f end.
Ltac keep :=
  lazymatch goal with
  | |- within _ (Ret _) => exact I
  | |- within _ (done_with _) => exact I
  | |- within _ (refused _) => exact I
  | |- within _ (decoded _ _ _) => unfold decoded; destruct (_ ≫= _); [keep|exact I]
  | |- within _ (one_text _ _ _) => unfold one_text; keep
  | |- within _ (core_args _ _) => unfold core_args; keep
  | |- within _ (required ?b _ _) => unfold required; destruct b; [keep|exact I]
  | |- within _ (wired ?b _ _) => unfold wired; destruct b; [keep|exact I]
  | |- within _ (resolveOwnerString _) => apply keeps_owner
  | |- within _ (bind_ok _ _) => apply within_bind_ok; [keep|intros ?; keep]
  | |- within _ (bind _ _) => apply within_bind; [keep|intros ?; keep]
  | |- within (keeps PMain) (in_main _) => apply keeps_main
  | |- within (keeps PAccounts) (in_accounts _) => apply keeps_accounts
  | |- within (keeps PHooks) (in_hooks _) => apply keeps_hooks
  | |- within (keeps PCluster) (in_cluster _) => apply keeps_cluster
  | |- within (keeps PMain) (focus _ _ _) => apply keeps_db
  | |- within _ (in_main _) => apply keeps_main_read; keep
  | |- within _ (in_accounts _) => apply keeps_accounts_read; keep
  | |- within _ (in_hooks _) => apply keeps_hooks_read; keep
  | |- within _ (in_cluster _) => apply keeps_cluster_read; keep
  | |- within _ (focus _ _ _) => apply keeps_read; [by intros []|keep]
  | |- within _ (query _ _) => apply within_query, _
  | |- within _ (query_o _ _) => apply within_query_o, _
  | |- within _ index_Len => apply index_Len_frame
  | |- within _ (let '(_, _) := ?x in _) => destruct x; keep
  | |- within _ (if ?b then _ else _) => destruct b; keep
  | |- within _ (match ?x with _ => _ end) => destruct x; keep
  | |- within _ (let _ := _ in _) => cbv zeta; keep
  | |- within _ ?f => let h := head_of f in unfold h; keep
  end.
Lemma commands_keep c handler : (c, handler) ∈ commands -> forall a, within (keeps (part_of c)) (handler a).
Proof.
  intros H a. unfold commands in H.
  repeat (apply elem_of_cons in H as [H|H]; [injection H as -> ->|]); [..|by apply not_elem_of_nil in H].
  all: match goal with |- within (keeps (part_of ?s)) _ => let r := eval vm_compute in (part_of s) in change (part_of s) with r end.
  all: match goal with |- within _ ?f => let h := head_of f in unfold h end.
  all: keep.
Qed.
Lemma dispatch_handler upkeep c a : c ∉ upkeep_commands ->
  dispatch upkeep c a = match assoc c commands with Some handler => handler a | None => refused (AUnknownCommand c) end.
Proof.
  intros H. unfold dispatch. destruct (existsb _ _) eqn:E; [|done]. apply existsb_exists in E as (c'&Hin&E). apply String.eqb_eq in E. subst.
  by apply list_elem_of_In in Hin.
Qed.

(** Whatever its arguments and whatever fails, a command changes only the
    part of the state it is about: the commands that show something change
    nothing, those about users only the accounts, those about webhooks only
    these, and those about Kubernetes handlers only these. *)
Theorem admin_scope upkeep c a : c ∉ upkeep_commands -> within (keeps (part_of c)) (dispatch upkeep c a).
Proof.
  intros H. rewrite dispatch_handler; [|exact H]. destruct (assoc c commands) as [handler|] eqn:E; [|done].
  apply commands_keep. by apply assoc_in.
Qed.

(** *** Refusals *)
Definition foreign {B} (p : K B) : Prop := forall w, wp p (fun o _ => forall e, o = Err e -> own_refusal e = false) w.
Definition early {B} (p : K B) : Prop := forall w, wp p (fun o w' => forall e, o = Err e -> own_refusal e = true -> w' = w) w.
Lemma foreign_early {B} (p : K B) : foreign p -> early p.
Proof. intros H w. eapply wp_mono; [|apply H]. cbv beta. intros o w' Ho e He Hown. by rewrite (Ho e He) in Hown. Qed.
Lemma foreign_bind {A B} (p : K A) (f : A -> K B) : foreign p -> (forall x, foreign (f x)) -> foreign (bind_ok p f).
Proof.
  intros Hp Hf w. apply wp_bind_ok. eapply wp_mono; [|apply Hp]. cbv beta. intros [x|e|z] w' He; [apply Hf| |done].
  intros e' [= <-]. by apply He.
Qed.
(** After a part that changes nothing. *)
Lemma early_after {A B} (p : K A) (f : A -> K B) : within eq p -> (forall x, early (f x)) -> early (bind_ok p f).
Proof.
  intros Hp Hf w. apply wp_bind_ok. eapply wp_mono; [|exact (within_wp eq p w Hp)]. cbv beta. intros [x|e|z] w' <-; [apply Hf|done..].
Qed.
(** Any program may run whose answer decides nothing by itself. *)
Lemma foreign_any {A B} (p : prog admin_world A) (f : A -> K B) : (forall x, foreign (f x)) -> foreign (bind p f).
Proof. intros Hf w. apply wp_bind. apply wp_of_runs. intros fs. apply Hf. Qed.
Lemma foreign_mapped {F B} (f : F -> admin_error) (r : outcome F B) : (forall e, own_refusal (f e) = false) -> foreign (Ret (map_error f r)).
Proof. intros Hf w e. destruct r; cbn; [done| |done]. by intros [= <-]. Qed.
Lemma foreign_main {B} (p : M B) : foreign (in_main p).
Proof. apply foreign_any. intros r. by apply foreign_mapped. Qed.
Lemma foreign_main_then {A B} (p : M A) (f : outcome admin_error A -> K B) :
  (forall x, (forall e, x = Err e -> own_refusal e = false) -> foreign (f x)) -> foreign (bind (in_main p) f).
Proof. intros Hf w. apply wp_bind. eapply wp_mono; [|apply foreign_main]. cbv beta. intros x w' Hx. by apply Hf. Qed.
Lemma foreign_accounts {B} (p : prog auth_db (outcome auth_error B)) : foreign (in_accounts p).
Proof. apply foreign_any. intros r. by apply foreign_mapped. Qed.
Lemma foreign_hooks {B} (p : prog engine (outcome error B)) : foreign (in_hooks p).
Proof. apply foreign_any. intros r. by apply foreign_mapped. Qed.
Lemma foreign_cluster {B} (p : prog k8s_db (outcome k8s_error B)) : foreign (in_cluster p).
Proof. apply foreign_any. intros r. by apply foreign_mapped. Qed.
Lemma reads_owner s : within eq (resolveOwnerString s).
Proof. eapply within_mono; [|apply (keeps_owner PNone)]. by intros w w' ->. Qed.
Lemma early_done {B} (o : outcome admin_error B) : early (Ret o).
Proof. done. Qed.

(** What follows the checks decides nothing by itself; what precedes them
    changes nothing. *)
Ltac foreign :=
  lazymatch goal with
  | |- foreign (Ret _) => intros ?; by repeat intros [= <-]
  | |- foreign (done_with _) => done
  | |- foreign (refused _) => intros ? ? [= <-]; (reflexivity || by eauto)
  | |- foreign (in_main _) => apply foreign_main
  | |- foreign (in_accounts _) => apply foreign_accounts
  | |- foreign (in_hooks _) => apply foreign_hooks
  | |- foreign (in_cluster _) => apply foreign_cluster
  | |- foreign (bind_ok _ _) => apply foreign_bind; [foreign|intros ?; foreign]
  | |- foreign (bind (in_main _) _) => apply foreign_main_then; intros ? ?; foreign
  | |- foreign (bind _ _) => apply foreign_any; intros ?; foreign
  | |- foreign (let '(_, _) := ?x in _) => destruct x; foreign
  | |- foreign (if ?b then _ else _) => destruct b; foreign
  | |- foreign (match ?x with _ => _ end) => destruct x; foreign
  | |- foreign (let _ := _ in _) => cbv zeta; foreign
  | |- foreign ?f => let h := head_of f in unfold h; foreign
  end.
Ltac early :=
  lazymatch goal with
  | |- early (Ret _) => apply early_done
  | |- early (refused _) => apply early_done
  | |- early (done_with _) => apply early_done
  | |- early (decoded _ _ _) => unfold decoded; destruct (_ ≫= _); [early|apply early_done]
  | |- early (required ?b _ _) => unfold required; destruct b; [early|apply early_done]
  | |- early (wired ?b _ _) => unfold wired; destruct b; [early|apply early_done]
  | |- early (one_text _ _ _) => unfold one_text; early
  | |- early (core_args _ _) => unfold core_args; early
  | |- early (bind_ok (resolveOwnerString _) _) => apply early_after; [apply reads_owner|intros ?; early]
  | |- early (let '(_, _) := ?x in _) => destruct x; early
  | |- early (if ?b then _ else _) => destruct b; early
  | |- early (match ?x with _ => _ end) => destruct x; early
  | |- early (let _ := _ in _) => cbv zeta; early
  | |- early (bind _ _) => apply foreign_early; foreign
  | |- early (bind_ok _ _) => apply foreign_early; foreign
  end.
Lemma commands_early c handler : (c, handler) ∈ commands -> forall a, early (handler a).
Proof.
  intros H a. unfold commands in H.
  repeat (apply elem_of_cons in H as [H|H]; [injection H as -> ->|]); [..|by apply not_elem_of_nil in H].
  all: match goal with |- early ?f => let h := head_of f in unfold h end.
  all: early.
Qed.

(** A command refused for its name, its arguments or because a service is
    not there, whatever fails, has changed nothing. *)
Theorem admin_refusals upkeep c a w : c ∉ upkeep_commands ->
  wp (dispatch upkeep c a) (fun o w' => forall e, o = Err e -> own_refusal e = true -> w' = w) w.
Proof.
  intros H. rewrite dispatch_handler; [|exact H]. destruct (assoc c commands) as [handler|] eqn:E; [|done].
  eapply commands_early. by apply assoc_in.
Qed.
End Admin.

(** ** Runs

    A socket of a server with every service, a user and two agents; ann has
    written to the bot. *)
Module AdminRuns.
#[local] Existing Instances Runs.eng Runs.gojson KubernetesRuns.name_set MarketRuns.ascii_fold.
#[local] Instance ascii_lower : GoUnicode := {| ToLower := sql_lower; ToLower_ascii := fun s _ => eq_refl |}.
Definition person (name : string) (owner id : Z) : Agent := Agents.agent_row (register_struct name name "ai" raw_empty_object owner "#key") 0 id.
Definition people : db := set_agents (mkTable [person "ann" 1 1; person "bot" 1 2] 3) (set_clock 1000 empty_db).
Definition plain : SendOptions := mkSendOptions "" 5 RawEmpty None None None [].
Definition start : admin_world :=
  mkAdminWorld _ (run_ok (SendMessage "ann" "bot" "any news?" plain) people).2
    (mkAuthDb 0 (mkTable [mkUser 7 "root" "" "Root" RoleAdmin None 0 0; mkUser 8 "7up" "" "Seven" RoleUser None 0 0] 9) ∅ ∅ ∅ empty_table empty_table ∅)
    (Webhooks.mkEngine 0 empty_table empty_table [] []) KubernetesRuns.blank.
Definition named (n : string) : rawjson := RawJson (JObj [("name", JStr n)]).

(** The command that deletes an agent does not say whether there was one, and
    the messages that were waiting for it are not captured, as the service's own
    deregistration does. *)
Theorem deleted_without_letters :
  (let r := run_ok (handleAgentDelete (named "nobody")) start in
   r.1 = Ok (DName "nobody") /\ (Agent_Status <$> rows (agents (aw_db r.2))) = ["active"; "active"]) /\
  (let w := (run_ok (handleAgentDelete (named "bot")) start).2 in
   (Agent_Status <$> rows (agents (aw_db w))) = ["active"; "inactive"] /\ rows (dead_letters (aw_db w)) = []) /\
  let d := (run_ok (Deregister "bot" 1) (aw_db start)).2 in
  (Agent_Status <$> rows (agents d)) = ["active"; "inactive"] /\ length (rows (dead_letters d)) = 1%nat.
Proof. cbv zeta. split_and!; by vm_compute. Qed.
(** A user whose name begins with a number cannot be named: the digits are read
    as the id of another user. *)
Theorem owner_digits_win :
  (run_ok (resolveOwnerString "root") start).1 = Ok "7" /\ (run_ok (resolveOwnerString "7up") start).1 = Ok "7".
Proof. split; by vm_compute. Qed.
(** A member is found whatever the case of its name, and the last one counts. *)
Theorem last_member_counts :
  (run_ok (handleAgentDelete (RawJson (JObj [("name", JStr "bot"); ("NAME", JStr "ann")]))) start).1 = Ok (DName "ann").
Proof. by vm_compute. Qed.
End AdminRuns.
